(* ===== verification/_CoqProject ===== *)
-Q . S2P
Prelude.v
Bytes.v
Util.v
Frame.v
Paging.v
Mapping.v
Fractal.v
UserSpace.v
UserMem.v
Elf.v
Loader.v
Heap.v
Slab.v
Process.v
Scheduler.v
X86.v
Context.v
Entry.v
Apic.v
Descriptors.v
Spawn.v
Sync.v
Ipc.v
Net.v
NetStack.v
Text.v
Auth.v
Surface.v
Compositor.v
Fill.v
Graphics.v
Keyboard.v
Devices.v
Brk.v
Security.v
Vfs.v
BlockDevice.v
Virtqueue.v
VirtioBlk.v
VirtioInit.v
PsychicFs.v
Causality.v
Dream.v
Intent.v
Syscall.v
GapBuffer.v
Editor.v
Notes.v
Display.v
Console.v
Acpi.v
Cpus.v
