(* ===== verification/Prelude.v ===== *)
(** * A verification library for the Astral OS kernel

    Astral OS is a small x86-64 kernel in Rust.  This library translates the
    parts of it that decide something - allocators, page tables, the scheduler,
    synchronization, messages, packets, permissions, files - into Rocq
    definitions that follow the source function by function, and proves what
    makes them correct.  Source paths below are under [kernel/src].

    ** Files

    - [Prelude]: machine words, bits, the state and error monad, shared lemmas.
    - [Bytes]: little-endian fields and byte-addressed memory.

    Memory:
    - [Frame] ([memory/frame.rs]): the bitmap of physical frames.  State
      [FrameAllocator]; [init], [allocate], [deallocate], [allocate_frame_at],
      [get_stats].  Its specification is the set of free frames, and the class
      [FrameSource] is what it promises to the code that takes frames from it.
    - [Paging] ([memory/paging.rs]): the four-level tables.  State [VM]: the words
      of the tables and a [FrameSource]; [map], [map_executable], [translate],
      [unmap], [map_mmio], [new_p4].
    - [Mapping]: take a frame and map a page to it, page after page; shared by
      [Fractal], the loaders and [Brk].
    - [Fractal] ([memory/fractal.rs]): regions divided into octants, their backing
      and their coordinates.
    - [Util] ([util.rs]): rounding addresses.
    - [Heap] ([memory/heap.rs]): the first-fit allocator with its block
      headers in memory.  Its specification is a sorted list of disjoint,
      non-adjacent free blocks.  The class [KernelHeap] of this file is what it answers
      to the code that takes large buffers from it.
    - [Slab] ([memory/slab.rs]): the lock-free object caches; each atomic access is
      a step, and running the steps of one caller alone is the plain function.

    Processes:
    - [Process] ([process/mod.rs]): control blocks and the table of 256 slots.
    - [Scheduler] ([process/scheduler.rs]): run queues per CPU and priority,
      dispatch, dream mode, load balancing, process exit; over [Process].
    - [Context] ([process/context.rs]): the assembly that switches between
      processes, the function that prepares it, and the timer interrupt that asks for
      it; over [X86] and [Scheduler].
    - [UserSpace] ([arch/x86_64/usermode.rs]): address spaces with the contents of
      their pages, and what of them a kernel shares.
    - [UserMem]: reading and writing memory through the tables of a program, as ring 0
      may (whatever is mapped and WRITABLE) and as the program itself may (USER, too).
    - [Elf] ([usermode/elf.rs]): headers, program headers and segments of a file.
    - [Loader] ([usermode/loader.rs], [usermode/spawn.rs]): segments into pages.
    - [Spawn] ([usermode/{spawn,launcher}.rs]): processes from files, over [Loader],
      [Process] and [Scheduler].
    - [Brk], [Fill], [Syscall] ([usermode/syscall.rs]): the heap of a program, the
      filling of rectangles, and the system calls with their dispatcher, over all
      the parts that they reach: [UserMem], [Spawn], [PsychicFs], [Graphics],
      [Causality] and [Keyboard].  Of the second dispatcher, behind the [syscall]
      instruction ([arch/x86_64/syscall.rs]), the entry ([Entry]) and the read call only.

    The machine:
    - [X86]: the instructions of the kernel's assembly on a model of the processor.
    - [Entry] ([arch/x86_64/syscall.rs], [interrupts/handlers.rs]): the assembly
      around handlers of system calls, exceptions and interrupts; over [X86].
    - [Descriptors] ([arch/x86_64/{gdt,tss,syscall}.rs], [interrupts/idt.rs]): segments,
      task state, interrupt gates and the registers of system calls, as the kernel
      packs them and as the processor reads them.
    - [Acpi] ([acpi/]): the firmware's tables, searched and parsed.
    - [Apic] ([arch/x86_64/{apic,ioapic}.rs], [interrupts/pic.rs]): the commands to the
      interrupt controllers, as these read them; the controller of the lines is any
      device that satisfies [IoApicLaws].
    - [Cpus] ([arch/x86_64/{cpu,smp}.rs]): the table of processors, the start of the
      others as a transition system, and the interrupt set-up of [main.rs]; over
      [Acpi], [Apic] and any [FrameSource].

    Concurrency and communication:
    - [Sync] ([sync/mod.rs]): spinlock with interrupt state, readers-writer lock,
      semaphore, once cell, barrier, condition variable, each a transition system
      of threads.
    - [Ipc] ([ipc/mod.rs]): ring buffers, wait queues and channels; blocking goes
      through [Scheduler].
    - [Net] ([network/{ethernet,arp,ip,udp,tcp}.rs]): packet formats, the checksum,
      the ARP cache and the TCP connection record.
    - [NetStack] ([network/{mod,socket,device}.rs]): sockets and the receive path,
      over [Net] and any device of the class [NetworkDevice].

    Files and disks:
    - [Vfs] ([fs/vfs.rs]): paths, mounts, the path cache and file operations, over
      any filesystem of the class [Filesystem].
    - [BlockDevice]: the interface of a disk, its laws, and a disk in memory.
    - [Virtqueue] ([drivers/virtio/queue.rs]): descriptors and rings in memory that
      the device shares.
    - [VirtioBlk] ([drivers/virtio/{block,mod}.rs]): requests, polling and their
      frames, over any device of the class [VirtioDevice] that satisfies
      [VirtioBlkLaws], which leave status and delay to the device; the calls are those of
      a disk as long as the device reports success.
    - [VirtioInit] ([drivers/virtio/{pci,block}.rs]): the scan of the bus, the
      capabilities and the bring-up.
    - [PsychicFs] ([fs/psychicfs.rs]): the on-disk filesystem, over any disk of the
      class [BlockDevice] that satisfies [BlockDeviceLaws].

    Policy:
    - [Text]: Rust string slices, for the two parsers below.
    - [Auth] ([auth/]): users, the password hash, sessions and the login screen.
    - [Security] ([security/]): capabilities, intents, contexts, sandboxes.
    - [Causality] ([reality/causality.rs]): realities and the log of events.
    - [Dream] ([reality/dream.rs]): idle states and file access patterns.
    - [Intent] ([reality/intent.rs]): requests and their handlers, over [Fractal],
      [PsychicFs], [Dream] and [Causality].

    Screen and input:
    - [Surface], [Compositor], [Graphics] ([graphics/]): images of windows, their
      composition into the framebuffer, and the server that programs call; over
      [KernelHeap], since a buffer that the heap has no room for panics the kernel.
    - [Display] ([display/mod.rs]): windows, focus, tiling and animation, over
      [Graphics].
    - [Keyboard] ([interrupts/handlers.rs]): scancodes and the buffer of typed
      characters, shared by the interrupt and a reader.
    - [Devices] ([drivers/{mouse,rtc}.rs]): the pointer and the clock.
    - [GapBuffer], [Editor] ([apps/editor.rs]): the text editor, whose lines are gap
      buffers, over [PsychicFs].
    - [Notes] ([apps/notes.rs]): the notes application, whose lines are strings; it is
      compared with [Editor].
    - [Console] ([drivers/framebuffer.rs]): text on the screen, from glyphs that the font
      gives; for fonts with glyphs of one size its specification is rows of characters.

    ** How code becomes definitions

    The kernel is built with [--release], so integer arithmetic wraps: a [w]-bit
    integer is a [Z] in [[0, 2^w)] and [+[w]], [-[w]], [*[w]] wrap.  A [Result] is
    [Ok] or [Err]; code that changes state and can fail is in the monad [M], which
    keeps the state on an error as an early return with [?] does.  A function that
    can panic has an option or a panic case in its result.  A global behind a
    [spin::Mutex] makes its operations atomic, so they are functions of the state;
    code that blocks or runs on several CPUs is a step relation, one step per
    atomic operation or per loop iteration, and its theorems are about every
    interleaving.  Console output is dropped throughout.

    Loops over data recurse on the data.  Loops that follow pointers or wait have
    fuel, and the fuel is part of the theorems: the heap's list loops get one more
    than the number of headers in memory, which the heap invariant makes enough
    ([Heap.heap_refines_list] has a result in every case); the allocation loop of
    [PsychicFs.fs_write] gets one round per block and every round allocates one;
    the checksum gets the length of the data; draining the network devices takes
    the number of packets waiting as a parameter of [poll].

    ** What the theorems show

    - Memory.  A frame that is held is never handed out again, by any sequence of
      operations; a frame is found whenever one is free; used and free frames add
      up.  [Heap] implements its list specification on every call, and clients get
      disjoint, aligned blocks.  [map], [unmap] and [map_mmio] change the
      translation of exactly the pages they name, and every error leaves the
      translations as they were.
    - Processes.  The table implements a finite map; the run queues stay consistent
      with their bitmap under every operation; dispatch takes the first process of
      the best class; balancing moves processes and loses none.  The assembly of a
      context switch saves and restores exactly the general registers, and a process that
      is switched away comes back as if its call had returned; interrupts give a program
      its general registers, flags and stack back, but not its SSE registers.  A program
      whose segments lie in user memory sees there what its file says; a new address space
      shares the kernel half and nothing else.
    - System calls.  Arguments and results pass in the registers of the convention;
      no call of the dispatcher of [usermode/syscall.rs] but [brk] and [sbrk] changes a byte
      of memory that the program could not change itself, while a read behind the [syscall]
      instruction can; what is written to a file is read back; [brk] gives zeroed memory
      and keeps the old.
    - Concurrency.  Mutual exclusion of the locks, permits of the semaphore, one
      initialization of the once cell, the barrier's meeting point; the lock-free object
      caches never hand out an object that is held to one client at a time, and do so to
      three threads that interleave.
    - Messages and packets.  Channels are first-in first-out; formats read back what
      was written; checksums verify; echo and ARP requests are answered.
    - Policy.  When a capability is granted; who can log in; that every chain of
      causes ends; the exact events, counters and parts that intents change, and that each
      is answered.
    - Files.  Path resolution is the longest mount whatever the cache holds, except that
      after an unmount that failed it can be what it was before; a file reads back as
      written, a formatted disk mounts empty, the block cache is transparent; requests over
      the shared queue of the disk driver act on the disk, up to the first timeout.
    - Screen and input.  A frame is the composition of the windows by depth, and no call of
      a program makes the server go out of bounds, but the largest surface exhausts the
      heap and stops the kernel; windows stay consistent under every sequence of
      operations; typed characters are read in order; typing in the editor and in the notes
      acts on the document as on a flat text; the text console never writes outside the
      framebuffer and, with glyphs of one size, shows what was printed.
    - The machine.  Every gate, segment and stack is read back as it was meant; the
      firmware's processors are listed; processors get distinct numbers, structures and
      stacks, and every run of their start ends with all of them running; exactly the
      lines of the keyboard and the mouse are open.
    - Defects that modelling showed are theorems too, each stated next to the part
      it concerns: alignment padding that the heap never gets back, a run of file blocks handed
      out twice, a wakeup lost between two steps of [recv], datagrams that panic the
      receive path, a zombie that is queued again, and others.

    ** What is not modelled

    Drawing of the desktop (window frames, wallpaper, text), the main loop and the older
    window manager of the graphical interface, the calculator (floating point) and the
    terminal, and the shell's commands: they format text and paint, and call the services
    that are modelled.  Power (writes to ports after which nothing runs), the serial port,
    the boot menu, and the demonstration shell that runs as a program.
    Where a modelled part needs them they are parameters: the current CPU, the
    interrupt flag, the clock, devices.
    Of the processor's state, the floating-point unit; of the SSE registers, one word
    stands for all of them, which no modelled instruction reads or writes.  Allocations
    from the kernel's heap succeed, except those of the buffers of surfaces, which can be
    larger than the heap ([KernelHeap]).  References into a collection stay valid while
    they are used: the raw pointer of [channel_send] into the registry of channels is taken
    to be the channel.
    Memory ordering is sequentially consistent: the source's acquire and release
    orderings are not distinguished.  A structure of [PsychicFs] that is larger than
    its buffer is modelled up to the buffer; the bytes around it are parameters. *)

From Stdlib Require Import ZArith Lia Bool.
From stdpp Require Import base numbers option list gmap sets sorting.

Open Scope Z_scope.

(** ** Results and panics *)

(** Rust's [Result<T, E>]. *)
Inductive Result (A E : Type) : Type :=
| Ok (a : A)
| Err (e : E).
Arguments Ok {A E} a.
Arguments Err {A E} e.

Definition is_ok {A E} (r : Result A E) : bool :=
  match r with Ok _ => true | Err _ => false end.

(** How a call ends when it gives no value: with an error that the caller sees,
    or with a panic or an endless loop, after which nothing else runs. *)
Inductive Failure (E : Type) : Type :=
| Error (e : E)
| Panic
| Diverges.
Arguments Error {E} e.
Arguments Panic {E}.
Arguments Diverges {E}.

(** ** Machine words

    The kernel is built with [cargo build --release], so [+], [-] and [*] on
    fixed-width integers wrap around.  A [w]-bit unsigned integer is a [Z] in
    [[0, 2^w)] and every wrapping operation is written with [wrap]. *)

Definition wrap (w z : Z) : Z := z mod 2 ^ w.

(** [z] is a value of the [w]-bit unsigned type. *)
Definition in_width (w z : Z) : Prop := 0 <= z < 2 ^ w.

Declare Scope word_scope.
Delimit Scope word_scope with word.
Notation "a '+[' w ']' b" := (wrap w (a + b))
  (at level 50, left associativity) : word_scope.
Notation "a '-[' w ']' b" := (wrap w (a - b))
  (at level 50, left associativity) : word_scope.
Notation "a '*[' w ']' b" := (wrap w (a * b))
  (at level 40, left associativity) : word_scope.
Open Scope word_scope.

(** Rust's [!x] on a [w]-bit unsigned integer. *)
Definition wnot (w x : Z) : Z := Z.lxor x (Z.ones w).

(** [x.saturating_sub(y)] on unsigned integers. *)
Definition sat_sub (x y : Z) : Z := Z.max 0 (x - y).

(** The mask [1 << i]. *)
Definition mask (i : Z) : Z := Z.shiftl 1 i.

Lemma wrap_small w z : in_width w z -> wrap w z = z.
Proof. intros. unfold wrap, in_width in *. by apply Z.mod_small. Qed.

Lemma wrap_in_width w z : 0 <= w -> in_width w (wrap w z).
Proof. intros. unfold in_width, wrap. apply Z.mod_pos_bound. lia. Qed.

(** ** Bits *)

Lemma mask_spec i j : 0 <= i -> Z.testbit (mask i) j = (j =? i).
Proof.
  intros Hi. unfold mask. rewrite Z.shiftl_1_l.
  destruct (Z.eqb_spec j i) as [->|Hne].
  - by apply Z.pow2_bits_true.
  - by apply Z.pow2_bits_false.
Qed.

Lemma in_width_testbit w x i : in_width w x -> w <= i -> Z.testbit x i = false.
Proof.
  intros [H0 H1] Hi. destruct (Z.eq_dec x 0) as [->|Hne]; [apply Z.testbit_0_l|].
  apply Z.bits_above_log2; [lia|].
  assert (Z.log2 x < w); [|lia]. apply Z.log2_lt_pow2; lia.
Qed.

Lemma testbit_in_width w x :
  0 <= w -> 0 <= x -> (forall i, w <= i -> Z.testbit x i = false) -> in_width w x.
Proof.
  intros Hw Hx Hb. split; [done|].
  destruct (Z.eq_dec x 0) as [->|Hne]; [lia|].
  apply Z.log2_lt_pow2; [lia|].
  destruct (Z.lt_ge_cases (Z.log2 x) w) as [|Hge]; [done|].
  specialize (Hb _ Hge). rewrite Z.bit_log2 in Hb; [done|lia].
Qed.

Lemma in_width_eq w x y :
  in_width w x -> in_width w y ->
  (forall i, 0 <= i < w -> Z.testbit x i = Z.testbit y i) -> x = y.
Proof.
  intros Hx Hy Hb. apply Z.bits_inj'. intros i Hi.
  destruct (Z.lt_ge_cases i w); [by apply Hb|].
  by rewrite !(in_width_testbit w).
Qed.

Lemma land_mask_zero x i : 0 <= i -> (Z.land x (mask i) =? 0) = negb (Z.testbit x i).
Proof.
  intros Hi. destruct (Z.testbit x i) eqn:E; simpl.
  - apply Z.eqb_neq. intros H.
    assert (Z.testbit (Z.land x (mask i)) i = false) as Hf by (rewrite H; apply Z.testbit_0_l).
    by rewrite Z.land_spec, mask_spec, Z.eqb_refl, E in Hf by done.
  - apply Z.eqb_eq, Z.bits_inj'. intros j Hj.
    rewrite Z.land_spec, mask_spec, Z.testbit_0_l by done.
    destruct (Z.eqb_spec j i) as [->|]; [by rewrite E|by rewrite andb_false_r].
Qed.

Lemma lor_mask_spec x i j :
  0 <= i -> Z.testbit (Z.lor x (mask i)) j = (j =? i) || Z.testbit x j.
Proof. intros. rewrite Z.lor_spec, mask_spec by done. apply orb_comm. Qed.

Lemma land_wnot_mask_spec w x i j :
  0 <= i -> in_width w x -> 0 <= w -> 0 <= j ->
  Z.testbit (Z.land x (wnot w (mask i))) j = negb (j =? i) && Z.testbit x j.
Proof.
  intros Hi Hx Hw Hj. unfold wnot.
  rewrite Z.land_spec, Z.lxor_spec, mask_spec by done.
  destruct (Z.lt_ge_cases j w).
  - rewrite Z.ones_spec_low by lia. rewrite andb_comm. by destruct (j =? i).
  - rewrite (in_width_testbit w x) by done. by rewrite andb_false_r.
Qed.

Lemma lor_mask_in_width w x i :
  0 <= i < w -> in_width w x -> in_width w (Z.lor x (mask i)).
Proof.
  intros Hi Hx. apply testbit_in_width; [lia| |].
  - apply Z.lor_nonneg. split; [apply Hx|]. unfold mask. by apply Z.shiftl_nonneg.
  - intros j Hj. rewrite lor_mask_spec, (in_width_testbit w x) by (done || lia).
    destruct (Z.eqb_spec j i); [lia|done].
Qed.

Lemma land_in_width w x y : 0 <= w -> in_width w x -> in_width w (Z.land x y).
Proof.
  intros Hw Hx. apply testbit_in_width; [done| |].
  - apply Z.land_nonneg. left. apply Hx.
  - intros i Hi. by rewrite Z.land_spec, (in_width_testbit w x).
Qed.

Lemma lxor_in_width w x y : 0 <= w -> in_width w x -> in_width w y -> in_width w (Z.lxor x y).
Proof.
  intros Hw Hx Hy. apply testbit_in_width; [done| |].
  - apply Z.lxor_nonneg. split; intros _; [apply Hy|apply Hx].
  - intros i Hi. by rewrite Z.lxor_spec, !(in_width_testbit w).
Qed.

Lemma lor_in_width w x y : 0 <= w -> in_width w x -> in_width w y -> in_width w (Z.lor x y).
Proof.
  intros Hw Hx Hy. apply testbit_in_width; [done| |].
  - apply Z.lor_nonneg. split; [apply Hx|apply Hy].
  - intros i Hi. by rewrite Z.lor_spec, !(in_width_testbit w).
Qed.

Lemma ones_in_width w : 0 <= w -> in_width w (Z.ones w).
Proof. intros. rewrite Z.ones_equiv. unfold in_width. lia. Qed.

Lemma land_mask_low x k : 0 <= k -> Z.land x (Z.ones k) = x mod 2 ^ k.
Proof. intros. by apply Z.land_ones. Qed.

(** Clearing the low [k] bits rounds down to a multiple of [2^k]. *)
(** A field above [k] bits is added, not merged. *)
Lemma lor_add a b k : 0 <= k -> in_width k a -> Z.lor a (Z.shiftl b k) = a + b * 2 ^ k.
Proof.
  intros Hk Ha. rewrite <- Z.shiftl_mul_pow2 by done. pose proof (Z.add_lor_land a (Z.shiftl b k)) as H. assert (Z.land a (Z.shiftl b k) = 0) as E; [|lia].
  apply Z.bits_inj'. intros n Hn. rewrite Z.land_spec, Z.bits_0. destruct (Z.ltb_spec n k) as [Hlt|Hge].
  - rewrite Z.shiftl_spec_low by done. apply andb_false_r.
  - rewrite (in_width_testbit k) by done. done.
Qed.

Lemma low_bits x k : 0 <= k -> Z.land x (2 ^ k - 1) = x mod 2 ^ k.
Proof. intros Hk. rewrite <- (land_mask_low x k Hk). by rewrite Z.ones_equiv, Z.sub_1_r. Qed.

Lemma ldiff_ones_round x k : 0 <= k -> Z.ldiff x (Z.ones k) = x / 2 ^ k * 2 ^ k.
Proof.
  intros. rewrite Z.ldiff_ones_r by done.
  by rewrite Z.shiftl_mul_pow2, Z.shiftr_div_pow2.
Qed.

(** [x as i32]: the low 32 bits, read as a two's complement number. *)
Definition to_i32 (x : Z) : Z := let y := x mod 2 ^ 32 in if y <? 2 ^ 31 then y else y - 2 ^ 32.

Lemma to_i32_small x : - 2 ^ 31 <= x < 2 ^ 31 -> to_i32 x = x.
Proof.
  intros H. unfold to_i32. destruct (Z.leb_spec 0 x).
  - rewrite Z.mod_small by lia. destruct (Z.ltb_spec x (2 ^ 31)); lia.
  - replace (x mod 2 ^ 32) with (x + 2 ^ 32); [destruct (Z.ltb_spec (x + 2 ^ 32) (2 ^ 31)); lia|].
    symmetry. rewrite <- (Z.mod_small (x + 2 ^ 32) (2 ^ 32)) by lia. rewrite <- (Z_mod_plus_full x 1 (2 ^ 32)). by f_equal.
Qed.

(** [x as i64] *)
Definition to_i64 (x : Z) : Z := let y := x mod 2 ^ 64 in if y <? 2 ^ 63 then y else y - 2 ^ 64.

(** ** State and errors

    Code that mutates shared state and returns a [Result] is a function from
    the state to a result and the new state; the state survives an error, as
    it does when a Rust function returns early with [?]. *)

Definition M (S E A : Type) : Type := S -> Result A E * S.

Definition ret {S E A} (a : A) : M S E A := fun s => (Ok a, s).
Definition throw {S E A} (e : E) : M S E A := fun s => (Err e, s).
Definition bindM {S E A B} (m : M S E A) (k : A -> M S E B) : M S E B :=
  fun s => match m s with
           | (Ok a, s') => k a s'
           | (Err e, s') => (Err e, s')
           end.

Declare Scope st_scope.
Delimit Scope st_scope with st.
Notation "'do' x <- m ; k" := (bindM m (fun x => k))
  (at level 200, x name, m at level 100, k at level 200, right associativity) : st_scope.
Notation "'do_' m ; k" := (bindM m (fun _ => k))
  (at level 200, m at level 100, k at level 200, right associativity) : st_scope.
Open Scope st_scope.

Lemma bindM_ok {S E A B} (m : M S E A) (k : A -> M S E B) s b s'' :
  bindM m k s = (Ok b, s'') -> exists a s', m s = (Ok a, s') /\ k a s' = (Ok b, s'').
Proof. unfold bindM. destruct (m s) as [[a|e] s'] eqn:E1; intros H; [eauto|done]. Qed.

Lemma bindM_err {S E A B} (m : M S E A) (k : A -> M S E B) s e s'' :
  bindM m k s = (Err e, s'') ->
  m s = (Err e, s'') \/ exists a s', m s = (Ok a, s') /\ k a s' = (Err e, s'').
Proof.
  unfold bindM. destruct (m s) as [[a|e'] s'] eqn:E1; intros H; [right; eauto|left].
  by simplify_eq.
Qed.

(** ** Counted loops

    [for i in a..b { body }], where the body may panic and end everything. *)

Fixpoint for_from {S E} (n : nat) (i : Z) (body : Z -> S -> Result S E) (s : S) : Result S E :=
  match n with
  | O => Ok s
  | Datatypes.S n => match body i s with Ok s' => for_from n (i + 1) body s' | Err e => Err e end
  end.

Definition for_range {S E} (a b : Z) (body : Z -> S -> Result S E) (s : S) : Result S E :=
  for_from (Z.to_nat (b - a)) a body s.

(** A property of the counter and the state that every round carries on holds at the end. *)
Lemma for_range_inv {S E} (I : Z -> S -> Prop) a b (body : Z -> S -> Result S E) s : a <= b -> I a s ->
  (forall i s, a <= i < b -> I i s -> exists s', body i s = Ok s' /\ I (i + 1) s') ->
  exists s', for_range a b body s = Ok s' /\ I b s'.
Proof.
  intros Hab HI Hbody. unfold for_range. remember (Z.to_nat (b - a)) as n eqn:Hn.
  assert (forall n i s, I i s -> a <= i -> i + Z.of_nat n = b -> exists s', for_from n i body s = Ok s' /\ I b s') as H.
  { clear n Hn HI s. intros n. induction n as [|n IH]; intros i s HI Hi Hn.
    - exists s. split; [done|]. by replace b with i by lia.
    - destruct (Hbody i s) as (s' & Es & HI'); [lia|done|]. cbn [for_from]. rewrite Es. apply IH; [done|lia..]. }
  apply H; [done|lia..].
Qed.

(** A loop whose rounds do not fail before round [i] and which fails there. *)
Lemma for_range_split {S E} a i b (body : Z -> S -> Result S E) s : a <= i <= b ->
  for_range a b body s = match for_range a i body s with Ok s' => for_range i b body s' | Err e => Err e end.
Proof.
  intros H. unfold for_range. replace (Z.to_nat (b - a)) with (Z.to_nat (i - a) + Z.to_nat (b - i))%nat by lia.
  assert (forall n m j s, for_from (n + m) j body s = match for_from n j body s with Ok s' => for_from m (j + Z.of_nat n) body s' | Err e => Err e end) as Hs.
  { induction n as [|n IH]; intros m j t; cbn [for_from Nat.add]; [by rewrite Z.add_0_r|]. destruct (body j t); [|done]. rewrite IH.
    destruct (for_from n (j + 1) body a0); [|done]. f_equal; lia. }
  rewrite Hs. destruct (for_from (Z.to_nat (i - a)) a body s); [|done]. f_equal; lia.
Qed.

(** A round that fails from every state makes the loop fail. *)
Lemma for_range_err {S E} a i b (body : Z -> S -> Result S E) s : a <= i < b -> (forall s, exists e, body i s = Err e) -> exists e, for_range a b body s = Err e.
Proof.
  intros H Hi. rewrite (for_range_split a i b) by lia. destruct (for_range a i body s) as [s'|e]; [|by exists e].
  unfold for_range. replace (Z.to_nat (b - i)) with (Datatypes.S (Z.to_nat (b - i - 1))) by lia. cbn [for_from]. destruct (Hi s') as [e ->]. by exists e.
Qed.

(** Loops whose rounds do the same. *)
Lemma for_range_ext {S E} a b (f g : Z -> S -> Result S E) s : (forall i s, a <= i < b -> f i s = g i s) -> for_range a b f s = for_range a b g s.
Proof.
  intros H. unfold for_range. assert (forall n i s, a <= i -> i + Z.of_nat n <= Z.max a b -> for_from n i f s = for_from n i g s) as Hn; [|apply Hn; lia].
  induction n as [|n IH]; intros i t Hi Hn; cbn [for_from]; [done|]. rewrite H by lia. destruct (g i t); [apply IH; lia|done].
Qed.

(** [for x in l { body }], and calls one after the other, where one may end everything. *)
Fixpoint for_each {A S E} (l : list A) (body : A -> S -> Result S E) (s : S) : Result S E :=
  match l with
  | [] => Ok s
  | x :: l => match body x s with Ok s' => for_each l body s' | Err e => Err e end
  end.

(** A property of the rounds left and the state that every round carries on, unless it
    fails the way [Q] says, holds at the end, and at the round that fails. *)
Lemma for_each_inv {A S E} (P : A -> Prop) (I : nat -> S -> Prop) (Q : S -> A -> E -> Prop) (body : A -> S -> Result S E) :
  (forall n x s, P x -> I (Datatypes.S n) s -> match body x s with Ok s' => I n s' | Err e => Q s x e end) ->
  forall l s, Forall P l -> I (length l) s ->
  match for_each l body s with
  | Ok s' => I O s'
  | Err e => exists before x after s1, l = before ++ x :: after /\ for_each before body s = Ok s1 /\ I (Datatypes.S (length after)) s1 /\ Q s1 x e
  end.
Proof.
  intros Hb l s Hl. revert s. induction Hl as [|x l Hx _ IH]; intros s HI; cbn [for_each]; [done|]. specialize (Hb (length l) x s Hx HI).
  destruct (body x s) as [s'|e] eqn:Eb; [|by exists [], x, l, s]. specialize (IH s' Hb). destruct (for_each l body s') as [t|e]; [done|].
  destruct IH as (before & y & after & s1 & -> & E1 & HI1 & HQ). exists (x :: before), y, after, s1. split; [done|]. split; [|done]. cbn [for_each]. by rewrite Eb.
Qed.

(** A loop each round of which keeps the property or fails with the one error. *)
Lemma for_range_keeps {S E} (I : S -> Prop) (e : E) a b (body : Z -> S -> Result S E) s : I s ->
  (forall i s, I s -> match body i s with Ok s' => I s' | Err e' => e' = e end) -> match for_range a b body s with Ok s' => I s' | Err e' => e' = e end.
Proof.
  intros HI Hb. unfold for_range. generalize (Z.to_nat (b - a)) as n. intros n. revert a s HI. induction n as [|n IH]; intros a s HI; cbn [for_from]; [done|].
  specialize (Hb a s HI). destruct (body a s) as [s'|e']; [by apply IH|done].
Qed.

(** ** Large allocations

    Whether the kernel's heap ([memory/heap.rs]) has a block of so many bytes when a call
    asks for one; if not, [alloc_error_handler] panics. *)
Class KernelHeap : Type := heap_has : Z -> bool.

(** Naming the second half of a computed pair without computing it. *)
Lemma pair_fst {A B} (x : A * B) a : x.1 = a -> x = (a, x.2).
Proof. destruct x. simpl. by intros ->. Qed.

(** ** Sums over updated lists *)

Lemma sum_insert {A} (f : A -> nat) (l : list A) i x y : l !! i = Some x ->
  (sum_list (f <$> <[i := y]> l) + f x = sum_list (f <$> l) + f y)%nat.
Proof.
  revert i. induction l as [|z l IH]; intros [|i] H; [done|done| |].
  - injection H as ->. change (<[0%nat := y]> (x :: l)) with (y :: l). rewrite !fmap_cons. simpl. lia.
  - specialize (IH i H). change (<[S i := y]> (z :: l)) with (z :: <[i := y]> l). rewrite !fmap_cons. simpl. lia.
Qed.

Lemma sum_le {A} (f : A -> nat) (l : list A) i x : l !! i = Some x -> (f x <= sum_list (f <$> l))%nat.
Proof.
  revert i. induction l as [|z l IH]; intros [|i] H; [done|done| |]; rewrite fmap_cons; simpl.
  - injection H as ->. lia.
  - specialize (IH i H). lia.
Qed.

Lemma alter_as_insert {A} (f : A -> A) (l : list A) i x : l !! i = Some x -> alter f i l = <[i := f x]> l.
Proof. revert i. induction l as [|z l IH]; intros [|i] H; cbn in *; simplify_eq; [done|]. f_equal. by apply IH. Qed.

(** Complementing a [w]-bit word subtracts it from the all-ones word. *)
Lemma wnot_sub w x : 0 <= w -> in_width w x -> wnot w x = 2 ^ w - 1 - x.
Proof.
  intros Hw Hx. enough (x + wnot w x = Z.ones w) as H by (rewrite Z.ones_equiv in H; lia).
  unfold wnot. rewrite Z.add_nocarry_lxor.
  - by rewrite <- Z.lxor_assoc, Z.lxor_nilpotent, Z.lxor_0_l.
  - apply Z.bits_inj'. intros i Hi. rewrite Z.land_spec, Z.lxor_spec, Z.testbit_0_l.
    destruct (Z.lt_ge_cases i w).
    + rewrite Z.ones_spec_low by lia. by destruct (Z.testbit x i).
    + by rewrite (in_width_testbit w x).
Qed.

(** Masking with the complement of [k] ones rounds down. *)
Lemma land_wnot_ones x k : in_width 64 x -> 0 <= k <= 64 ->
  Z.land x (wnot 64 (Z.ones k)) = x / 2 ^ k * 2 ^ k.
Proof.
  intros Hx Hk. rewrite <- ldiff_ones_round by lia. apply Z.bits_inj'. intros j Hj.
  unfold wnot. rewrite Z.ldiff_spec, Z.land_spec, Z.lxor_spec.
  destruct (Z.lt_ge_cases j 64).
  - by rewrite (Z.ones_spec_low 64) by lia.
  - by rewrite (in_width_testbit 64 x).
Qed.

Lemma wrap_add_l w x y : wrap w (wrap w x + y) = wrap w (x + y).
Proof. unfold wrap. apply Zplus_mod_idemp_l. Qed.

(** ** Loops that revisit

    A function that stays in a list takes some value twice, and a loop that takes
    a value twice takes only the values before it. *)

Lemma pigeonhole {A} `{EqDecision A} (f : nat -> A) (l : list A) : (forall k, (k <= length l)%nat -> f k ∈ l) ->
  exists i j, (i < j <= length l)%nat /\ f i = f j.
Proof.
  intros H. set (n := length l) in *. set (P := fun i => Exists (fun j => (i < j)%nat /\ f i = f j) (seq 0 (S n))).
  destruct (decide (Exists P (seq 0 (S n)))) as [He|Hno].
  { apply Exists_exists in He as (i & Hi & (j & Hj & ? & ?)%Exists_exists). apply elem_of_seq in Hi, Hj.
    exists i, j. split; [lia|done]. }
  assert (forall i j, (i < j <= n)%nat -> f i <> f j) as Hne.
  { intros i j Hij E. apply Hno, Exists_exists. exists i. split; [apply elem_of_seq; lia|]. apply Exists_exists.
    exists j. split; [apply elem_of_seq; lia|]. split; [lia|done]. }
  assert (NoDup (f <$> seq 0 (S n))) as Hnd.
  { apply NoDup_alt. intros i j x Hi Hj. rewrite list_lookup_fmap in Hi, Hj.
    destruct (seq 0 (S n) !! i) as [a|] eqn:Ei; [|done]. destruct (seq 0 (S n) !! j) as [b|] eqn:Ej; [|done].
    apply lookup_seq in Ei as [-> Hi']. apply lookup_seq in Ej as [-> Hj']. cbn in Hi, Hj. simplify_eq.
    destruct (Nat.lt_trichotomy i j) as [Hlt|[->|Hlt]]; [|done|]; exfalso.
    - by apply (Hne i j); [lia|].
    - by apply (Hne j i); [lia|]. }
  assert (length (f <$> seq 0 (S n)) <= length l)%nat as Hl.
  { apply submseteq_length, NoDup_submseteq; [done|]. intros x [k [-> Hk]]%list_elem_of_fmap.
    apply elem_of_seq in Hk. apply H. lia. }
  rewrite length_fmap, length_seq in Hl. lia.
Qed.

Lemma iter_periodic {A} (f : A -> A) x i j : (i < j)%nat -> Nat.iter i f x = Nat.iter j f x ->
  forall k, exists k', (k' < j)%nat /\ Nat.iter k f x = Nat.iter k' f x.
Proof.
  intros Hij E k. induction (lt_wf k) as [k _ IH]. destruct (decide (k < j)%nat) as [|Hk]; [by exists k|].
  destruct (IH (k - (j - i))%nat) as (k' & ? & E'); [lia|]. exists k'. split; [done|]. rewrite <- E'.
  assert (forall d n, Nat.iter (d + n) f x = Nat.iter d f (Nat.iter n f x)) as Hadd by (intros; apply Nat.iter_add).
  transitivity (Nat.iter ((k - j) + j) f x); [f_equal; lia|]. transitivity (Nat.iter ((k - j) + i) f x); [|f_equal; lia].
  rewrite Hadd, <- E. symmetry. apply Hadd.
Qed.

(** ** Stable sorting

    [sort_by_key] of the library: a stable sort, by inserting from the right. *)

Section SortBy.
  Context {A : Type} (f : A -> Z).

Fixpoint insert_by (s : A) (l : list A) : list A :=
  match l with
  | [] => [s]
  | t :: l' => if f s <=? f t then s :: l else t :: insert_by s l'
  end.

Definition sort_by (l : list A) : list A := foldr insert_by [] l.

Lemma insert_by_perm s l : insert_by s l ≡ₚ s :: l.
Proof.
  induction l as [|t l IH]; [done|]. cbn [insert_by]. destruct (f s <=? f t); [done|]. rewrite IH. apply Permutation_swap.
Qed.

Lemma sort_by_perm l : sort_by l ≡ₚ l.
Proof. induction l as [|s l IH]; [done|]. cbn. rewrite insert_by_perm. by rewrite IH. Qed.

Lemma insert_by_sorted s l : StronglySorted (fun a b => f a <= f b) l -> StronglySorted (fun a b => f a <= f b) (insert_by s l).
Proof.
  induction 1 as [|t l Hl IH Ht]; [repeat constructor|]. cbn [insert_by]. destruct (Z.leb_spec (f s) (f t)).
  - constructor; [by constructor|]. constructor; [done|]. eapply Forall_impl; [exact Ht|]. cbn. lia.
  - constructor; [done|]. rewrite insert_by_perm. constructor; [lia|done].
Qed.

Lemma sort_by_sorted l : StronglySorted (fun a b => f a <= f b) (sort_by l).
Proof. induction l as [|s l IH]; [constructor|]. by apply insert_by_sorted. Qed.

(** Elements of one key keep their order. *)
Lemma insert_by_stable s l z : filter (fun t => f t = z) (insert_by s l) = filter (fun t => f t = z) (s :: l).
Proof.
  induction l as [|t l IH]; [done|]. cbn [insert_by]. destruct (Z.leb_spec (f s) (f t)); [done|].
  rewrite filter_cons, IH, !filter_cons. repeat case_decide; done || lia.
Qed.

Lemma sort_by_stable l z : filter (fun t => f t = z) (sort_by l) = filter (fun t => f t = z) l.
Proof. induction l as [|s l IH]; [done|]. cbn [sort_by foldr]. rewrite insert_by_stable, !filter_cons. fold (sort_by l). by rewrite IH. Qed.

End SortBy.
