(* ===== verification/Bytes.v ===== *)
(** * Bytes in memory

    Little-endian integers and byte buffers, shared by the filesystem, the
    virtqueue and the ELF loader, and memory as a map from addresses to bytes. *)

From Stdlib Require Import ZArith Lia Bool.
From stdpp Require Import base numbers option list gmap.
From S2P Require Import Prelude.

(** ** Little-endian integers *)

Fixpoint le (n : nat) (x : Z) : list Z :=
  match n with O => [] | S n => x mod 256 :: le n (x / 256) end.

Fixpoint unle (bs : list Z) : Z :=
  match bs with [] => 0 | b :: r => b + 256 * unle r end.

(** The bytes [a, a+n) of a buffer. *)
Definition field (a n : nat) (bs : list Z) : list Z := take n (drop a bs).
Definition get (a n : nat) (bs : list Z) : Z := unle (field a n bs).

(** [buffer[a..a+len].copy_from_slice(src)]. *)
Definition blit (a : nat) (src buffer : list Z) : list Z :=
  take a buffer ++ src ++ drop (a + length src) buffer.

(** ** Memory

    Memory is total: a byte nobody wrote is zero. *)

Notation Mem := (gmap Z Z).

Definition byte (m : Mem) (a : Z) : Z := default 0 (m !! a).

Fixpoint load_bytes (n : nat) (a : Z) (m : Mem) : list Z :=
  match n with O => [] | S n => byte m a :: load_bytes n (a + 1) m end.

Fixpoint store_bytes (a : Z) (bs : list Z) (m : Mem) : Mem :=
  match bs with [] => m | b :: r => <[a := b]> (store_bytes (a + 1) r m) end.

(** Integers of [n] bytes. *)
Definition load (n : nat) (a : Z) (m : Mem) : Z := unle (load_bytes n a m).
Definition store (n : nat) (a v : Z) (m : Mem) : Mem := store_bytes a (le n v) m.

(** ** Integers and buffers *)

Lemma length_le n x : length (le n x) = n.
Proof. revert x. induction n as [|n IH]; intros x; simpl; [done|]. by rewrite IH. Qed.

Lemma unle_le n x : in_width (8 * Z.of_nat n) x -> unle (le n x) = x.
Proof.
  revert x. induction n as [|n IH]; intros x H.
  - unfold in_width in H. simpl in *. lia.
  - cbn [le unle]. rewrite IH; [pose proof (Z.div_mod x 256); lia|].
    unfold in_width in *. rewrite Nat2Z.inj_succ in H. replace (8 * Z.succ (Z.of_nat n)) with (8 + 8 * Z.of_nat n) in H by lia.
    rewrite Z.pow_add_r in H by lia. split; [apply Z.div_pos; lia|]. apply Z.div_lt_upper_bound; lia.
Qed.

Lemma field_take a n bs m : (a + n <= m)%nat -> field a n (take m bs) = field a n bs.
Proof. intros. unfold field. rewrite skipn_firstn_comm, take_take. f_equal. lia. Qed.

Lemma field_app_l a n x y : (a + n <= length x)%nat -> field a n (x ++ y) = field a n x.
Proof. intros. unfold field. rewrite drop_app_le by lia. rewrite take_app_le; [done|]. rewrite length_drop. lia. Qed.

Lemma length_field a n bs : (a + n <= length bs)%nat -> length (field a n bs) = n.
Proof. intros. unfold field. rewrite length_take, length_drop. lia. Qed.

Lemma length_blit a src bs : (a + length src <= length bs)%nat -> length (blit a src bs) = length bs.
Proof. intros. unfold blit. rewrite !length_app, length_take, length_drop. lia. Qed.

Lemma field_blit_eq a src bs : (a <= length bs)%nat -> field a (length src) (blit a src bs) = src.
Proof.
  intros. unfold field, blit. rewrite drop_app_length' by (rewrite length_take; lia). by rewrite take_app_length.
Qed.

Lemma get_blit_eq a n v bs : (a <= length bs)%nat -> in_width (8 * Z.of_nat n) v -> get a n (blit a (le n v) bs) = v.
Proof. intros Ha Hv. pose proof (field_blit_eq a (le n v) bs Ha) as E. rewrite length_le in E. unfold get. rewrite E. by apply unle_le. Qed.

Lemma field_blit_ne a src bs b n : (a + length src <= length bs)%nat -> (b + n <= a \/ a + length src <= b)%nat ->
  field b n (blit a src bs) = field b n bs.
Proof.
  intros Hl [Hlt|Hge]; unfold field, blit.
  - rewrite drop_app_le by (rewrite length_take; lia). rewrite take_app_le by (rewrite length_drop, length_take; lia).
    rewrite skipn_firstn_comm, take_take. f_equal. lia.
  - rewrite drop_app_ge by (rewrite length_take; lia). rewrite length_take, drop_app_ge by lia. rewrite drop_drop. f_equal. f_equal. lia.
Qed.

Lemma le_bound n x : Forall (fun b => 0 <= b < 256) (le n x).
Proof. revert x. induction n as [|n IH]; intros x; cbn [le]; constructor; [by apply Z.mod_pos_bound|apply IH]. Qed.

Lemma unle_bound bs : Forall (fun b => 0 <= b < 256) bs -> in_width (8 * Z.of_nat (length bs)) (unle bs).
Proof.
  induction 1 as [|b r Hb _ IH]; [done|]. unfold in_width in *. cbn [unle length]. rewrite Nat2Z.inj_succ.
  replace (8 * Z.succ (Z.of_nat (length r))) with (8 + 8 * Z.of_nat (length r)) by lia. rewrite Z.pow_add_r by lia. nia.
Qed.

(** ** Reading what was written *)

Lemma length_load_bytes n a m : length (load_bytes n a m) = n.
Proof. revert a. induction n as [|n IH]; intros a; cbn; [done|]. by rewrite IH. Qed.

Lemma byte_store bs : forall a m x,
  byte (store_bytes a bs m) x =
  if (a <=? x) && (x <? a + Z.of_nat (length bs)) then default 0 (bs !! Z.to_nat (x - a)) else byte m x.
Proof.
  induction bs as [|b r IH]; intros a m x; cbn [store_bytes length].
  - destruct (Z.leb_spec a x), (Z.ltb_spec x (a + Z.of_nat 0)); cbn; done || lia.
  - unfold byte at 1. destruct (decide (a = x)) as [->|Hne].
    + rewrite lookup_insert_eq, Z.leb_refl, Z.sub_diag. by rewrite (proj2 (Z.ltb_lt _ _)) by lia.
    + rewrite lookup_insert_ne by done. fold (byte (store_bytes (a + 1) r m) x). rewrite IH.
      destruct (Z.leb_spec a x), (Z.leb_spec (a + 1) x); try lia; cbn [andb]; [|done].
      replace (a + 1 + Z.of_nat (length r)) with (a + Z.of_nat (S (length r))) by lia.
      destruct (x <? a + Z.of_nat (S (length r))); [|done].
      by replace (Z.to_nat (x - a)) with (S (Z.to_nat (x - (a + 1)))) by lia.
Qed.

(** The bytes of [load_bytes] determine it. *)
Lemma load_bytes_ext n a m m' : (forall x, a <= x < a + Z.of_nat n -> byte m' x = byte m x) ->
  load_bytes n a m' = load_bytes n a m.
Proof.
  revert a. induction n as [|n IH]; intros a H; cbn [load_bytes]; [done|]. f_equal; [apply H; lia|]. apply IH. intros. apply H. lia.
Qed.

Lemma load_ext n a m m' : (forall x, a <= x < a + Z.of_nat n -> byte m' x = byte m x) -> load n a m' = load n a m.
Proof. intros H. unfold load. by rewrite (load_bytes_ext n a m m'). Qed.

Lemma lookup_load_bytes i n a m :
  load_bytes n a m !! i = if decide (i < n)%nat then Some (byte m (a + Z.of_nat i)) else None.
Proof.
  revert n a. induction i as [|i IH]; intros [|n] a; cbn [load_bytes]; [done| |done|].
  - by rewrite decide_True, Z.add_0_r by lia.
  - change (load_bytes n (a + 1) m !! i = if decide (S i < S n)%nat then Some (byte m (a + Z.of_nat (S i))) else None).
    rewrite IH. destruct (decide (i < n)%nat), (decide (S i < S n)%nat); try lia; [|done]. do 2 f_equal. lia.
Qed.

Lemma load_store_bytes a bs m : load_bytes (length bs) a (store_bytes a bs m) = bs.
Proof.
  apply list_eq. intros i.
  rewrite lookup_load_bytes, byte_store. destruct (decide (i < length bs)%nat) as [Hi|Hi].
  - rewrite (proj2 (Z.leb_le _ _)), (proj2 (Z.ltb_lt _ _)) by lia. cbn [andb].
    replace (Z.to_nat (a + Z.of_nat i - a)) with i by lia. by destruct (lookup_lt_is_Some_2 bs i Hi) as [x ->].
  - rewrite lookup_ge_None_2; [done|lia].
Qed.

Lemma load_bytes_store_ne n a b bs m : (a + Z.of_nat n <= b \/ b + Z.of_nat (length bs) <= a) ->
  load_bytes n a (store_bytes b bs m) = load_bytes n a m.
Proof.
  intros H. apply load_bytes_ext. intros x Hx. rewrite byte_store.
  destruct (Z.leb_spec b x), (Z.ltb_spec x (b + Z.of_nat (length bs))); cbn; done || lia.
Qed.

Lemma load_store_eq n a v m : in_width (8 * Z.of_nat n) v -> load n a (store n a v m) = v.
Proof. intros H. unfold load, store. rewrite <- (length_le n v) at 1. rewrite load_store_bytes. by apply unle_le. Qed.

Lemma load_store_ne n k a b v m : (a + Z.of_nat n <= b \/ b + Z.of_nat k <= a) -> load n a (store k b v m) = load n a m.
Proof. intros H. unfold load, store. rewrite load_bytes_store_ne; [done|]. by rewrite length_le. Qed.

(** Memory holds bytes. *)
Definition mem_ok (m : Mem) : Prop := forall a, 0 <= byte m a < 256.

Lemma load_in_width n a m : mem_ok m -> in_width (8 * Z.of_nat n) (load n a m).
Proof.
  intros H. unfold load. rewrite <- (length_load_bytes n a m) at 1. apply unle_bound, Forall_lookup. intros i x E.
  rewrite lookup_load_bytes in E. destruct (decide _); [|done]. injection E as <-. apply H.
Qed.

Lemma store_bytes_ok a bs m : mem_ok m -> Forall (fun b => 0 <= b < 256) bs -> mem_ok (store_bytes a bs m).
Proof.
  intros Hm Hbs x. rewrite byte_store. destruct (_ && _); [|apply Hm].
  destruct (bs !! Z.to_nat (x - a)) as [b|] eqn:E; cbn; [|lia]. rewrite Forall_lookup in Hbs. by apply (Hbs _ _ E).
Qed.

Lemma store_ok n a v m : mem_ok m -> mem_ok (store n a v m).
Proof. intros H. apply store_bytes_ok; [done|apply le_bound]. Qed.
