(* ===== verification/Util.v ===== *)
(** * Address arithmetic ([util.rs])

    Rounding addresses to a power of two, shared by the allocators, the virtqueue
    and the loaders. *)

From Stdlib Require Import ZArith Lia Bool.
From stdpp Require Import base numbers.
From S2P Require Import Prelude.

Open Scope Z_scope.

Definition align_up (addr align : Z) : Z :=
  Z.land ((addr +[64] align) -[64] 1) (wnot 64 (align -[64] 1)).
Definition align_down (addr align : Z) : Z := Z.land addr (wnot 64 (align -[64] 1)).
Definition is_aligned (addr align : Z) : bool := Z.land addr (align -[64] 1) =? 0.

Definition round_up (a k : Z) : Z := (a + k - 1) / k * k.

Lemma pow2_sub1 k : 0 <= k <= 63 -> (2 ^ k -[64] 1) = Z.ones k.
Proof.
  intros Hk. rewrite Z.ones_equiv.
  assert (2 ^ k <= 2 ^ 63) by (apply Z.pow_le_mono_r; lia).
  rewrite wrap_small; unfold in_width; lia.
Qed.

Lemma align_up_exact a k : 0 <= k <= 63 -> 0 <= a -> a + 2 ^ k <= 2 ^ 64 ->
  align_up a (2 ^ k) = round_up a (2 ^ k).
Proof.
  intros Hk Ha Hb. unfold align_up. rewrite pow2_sub1 by done.
  assert ((a +[64] 2 ^ k) -[64] 1 = a + 2 ^ k - 1) as ->.
  { unfold wrap. rewrite Zminus_mod_idemp_l. apply Z.mod_small. lia. }
  rewrite land_wnot_ones; [done| |lia]. unfold in_width. lia.
Qed.

Lemma round_up_spec a k : 0 < k -> a <= round_up a k < a + k /\ (k | round_up a k).
Proof.
  intros Hk. unfold round_up. split; [|by exists ((a + k - 1) / k)].
  pose proof (Z.div_mod (a + k - 1) k ltac:(lia)).
  pose proof (Z.mod_pos_bound (a + k - 1) k Hk). lia.
Qed.

(** For a power-of-two alignment and an address far enough from the end of
    the address space, [align_up] is the least multiple of the alignment that is
    not below the address, [align_down] the greatest not above it, and
    [is_aligned] decides divisibility. *)
Theorem align_correct a k : 0 <= k <= 63 -> 0 <= a -> a + 2 ^ k <= 2 ^ 64 ->
  (2 ^ k | align_up a (2 ^ k)) /\ a <= align_up a (2 ^ k) < a + 2 ^ k /\
  (2 ^ k | align_down a (2 ^ k)) /\ a - 2 ^ k < align_down a (2 ^ k) <= a /\
  (is_aligned a (2 ^ k) = true <-> (2 ^ k | a)).
Proof.
  intros Hk Ha Hb. assert (0 < 2 ^ k) by (apply Z.pow_pos_nonneg; lia).
  rewrite align_up_exact by done. destruct (round_up_spec a (2 ^ k)) as [? ?]; [done|].
  split; [done|]. split; [done|].
  assert (align_down a (2 ^ k) = a / 2 ^ k * 2 ^ k) as ->.
  { unfold align_down. rewrite pow2_sub1 by done. apply land_wnot_ones; [|lia]. unfold in_width. lia. }
  pose proof (Z.div_mod a (2 ^ k) ltac:(lia)). pose proof (Z.mod_pos_bound a (2 ^ k) ltac:(lia)).
  split; [by exists (a / 2 ^ k)|]. split; [lia|].
  unfold is_aligned. rewrite pow2_sub1, Z.land_ones by lia. rewrite Z.eqb_eq.
  apply Z.mod_divide. lia.
Qed.

Lemma align_correct_witness :
  (2 ^ 12 | align_up 0x1234 (2 ^ 12)) /\ 0x1234 <= align_up 0x1234 (2 ^ 12) < 0x1234 + 2 ^ 12 /\
  (2 ^ 12 | align_down 0x1234 (2 ^ 12)) /\ 0x1234 - 2 ^ 12 < align_down 0x1234 (2 ^ 12) <= 0x1234 /\
  (is_aligned 0x1234 (2 ^ 12) = true <-> (2 ^ 12 | 0x1234)).
Proof. apply (align_correct 0x1234 12); lia. Defined.
