(* ===== verification/Frame.v ===== *)
(** * Physical frame allocator ([kernel/src/memory/frame.rs])

    One bit per 4 KiB frame in an array of 16384 machine words, a counter of
    used frames and a search hint.  The global allocator sits behind a
    [spin::Mutex], so its operations are sequential; under the lock a
    [compare_exchange_weak] can only fail spuriously, which retries with the
    same word, so it is modelled by its success.

    [FrameSource] is the interface the page tables and the other memory
    clients use; the bitmap allocator is an instance of it. *)

From Stdlib Require Import ZArith Lia Bool.
From stdpp Require Import base numbers option list gmap sets.
From S2P Require Import Prelude.

Definition PAGE_SIZE : Z := 4096.
Definition MAX_FRAMES : Z := 1024 * 1024.
Definition BITMAP_WORDS : Z := MAX_FRAMES / 8 / 8.
Definition USIZE_BITS : Z := 64.

(** [PhysAddr(u64)]: a physical address masked to a page boundary. *)
Definition PhysAddr_new (addr : Z) : Z := Z.land addr 0x000FFFFFFFFFF000.

Record FrameAllocator : Type := mkFrameAllocator {
  bitmap : list Z;
  total_frames : Z;
  used_frames : Z;
  start_search : Z;
}.

#[global] Instance FrameAllocator_eq_dec : EqDecision FrameAllocator.
Proof. solve_decision. Defined.

(** [!0usize]. *)
Definition ALL_ONES : Z := wnot 64 0.

Definition new : FrameAllocator :=
  mkFrameAllocator (replicate (Z.to_nat BITMAP_WORDS) ALL_ONES) 0 0 0.

(** ** Single-frame updates *)

Definition word_idx (frame : Z) : nat := Z.to_nat (frame / USIZE_BITS).
Definition bit_idx (frame : Z) : Z := frame mod USIZE_BITS.

(** [allocate_frame_at]: [fetch_or] of the frame's bit, counting it when it was clear. *)
Definition allocate_frame_at (frame : Z) (a : FrameAllocator) : FrameAllocator :=
  if frame >=? MAX_FRAMES then a
  else
    let m := mask (bit_idx frame) in
    match bitmap a !! word_idx frame with
    | None => a
    | Some old =>
        mkFrameAllocator (<[word_idx frame := Z.lor old m]> (bitmap a))
          (total_frames a)
          (if Z.land old m =? 0 then used_frames a +[64] 1 else used_frames a)
          (start_search a)
    end.

(** [deallocate]: [fetch_and] of the complement, uncounting it when it was set. *)
Definition deallocate (addr : Z) (a : FrameAllocator) : FrameAllocator :=
  let frame := addr / PAGE_SIZE in
  if frame >=? MAX_FRAMES then a
  else
    let m := mask (bit_idx frame) in
    match bitmap a !! word_idx frame with
    | None => a
    | Some old =>
        mkFrameAllocator (<[word_idx frame := Z.land old (wnot 64 m)]> (bitmap a))
          (total_frames a)
          (if Z.land old m =? 0 then used_frames a else used_frames a -[64] 1)
          (start_search a)
    end.

Definition free_frame_initial (frame : Z) (a : FrameAllocator) : FrameAllocator :=
  if frame >=? MAX_FRAMES then a
  else
    let m := mask (bit_idx frame) in
    match bitmap a !! word_idx frame with
    | None => a
    | Some old =>
        mkFrameAllocator (<[word_idx frame := Z.land old (wnot 64 m)]> (bitmap a))
          (total_frames a) (used_frames a) (start_search a)
    end.

(** ** Initialisation from the boot loader's memory map *)

Record MemoryMapEntry : Type := mkEntry {
  entry_base : Z;
  entry_length : Z;
  entry_usable : bool;   (* entry_type == EntryType::USABLE *)
}.

Definition free_region (e : MemoryMapEntry) (a : FrameAllocator) : FrameAllocator :=
  let start_frame := entry_base e / PAGE_SIZE in
  let frame_count := entry_length e / PAGE_SIZE in
  foldl (fun a frame => if frame <? MAX_FRAMES then free_frame_initial frame a else a)
    a (seqZ start_frame frame_count).

Definition init_entry (acc : FrameAllocator * Z) (e : MemoryMapEntry) : FrameAllocator * Z :=
  let (a, max_addr) := acc in
  if entry_usable e then
    let e_end := entry_base e +[64] entry_length e in
    (free_region e a, if e_end >? max_addr then e_end else max_addr)
  else acc.

Definition LOW_FRAMES : Z := 1024 * 1024 / PAGE_SIZE.

Definition init (memory_map : list MemoryMapEntry) (a : FrameAllocator) : FrameAllocator :=
  let a0 := mkFrameAllocator (replicate (length (bitmap a)) ALL_ONES)
              (total_frames a) (used_frames a) (start_search a) in
  let (a1, max_addr) := foldl init_entry (a0, 0) memory_map in
  let a2 := mkFrameAllocator (bitmap a1) (Z.min (max_addr / PAGE_SIZE) MAX_FRAMES)
              (used_frames a1) (start_search a1) in
  foldl (fun a frame => allocate_frame_at frame a) a2 (seqZ 0 LOW_FRAMES).

(** ** Allocation *)

(** The inner loop: the first clear bit of a word. *)
Fixpoint scan_bits (word : Z) (bits : list Z) : option Z :=
  match bits with
  | [] => None
  | bit :: rest => if Z.land word (mask bit) =? 0 then Some bit else scan_bits word rest
  end.

(** The outer loop over the words from index [i] on. *)
Fixpoint scan_words (i : Z) (words : list Z) : option (Z * Z) :=
  match words with
  | [] => None
  | word :: rest =>
      if negb (word =? ALL_ONES) then
        match scan_bits word (seqZ 0 USIZE_BITS) with
        | Some bit => Some (i, bit)
        | None => scan_words (i + 1) rest
        end
      else scan_words (i + 1) rest
  end.

(** One pass of [allocate] from the word [start]. *)
Definition allocate_from (start : Z) (a : FrameAllocator) : option (Z * FrameAllocator) :=
  match scan_words start (drop (Z.to_nat start) (bitmap a)) with
  | None => None
  | Some (i, bit) =>
      let word := default ALL_ONES (bitmap a !! Z.to_nat i) in
      let frame := i *[64] USIZE_BITS +[64] bit in
      Some (PhysAddr_new (frame *[64] PAGE_SIZE),
            mkFrameAllocator (<[Z.to_nat i := Z.lor word (mask bit)]> (bitmap a))
              (total_frames a) (used_frames a +[64] 1) i)
  end.

(** [allocate]: search from the hint and, when the hint is not the first word,
    reset it and search once more from the start (the recursive call, which
    finds the hint at 0 and does not recurse again). *)
Definition allocate (a : FrameAllocator) : option Z * FrameAllocator :=
  match allocate_from (start_search a) a with
  | Some (p, a') => (Some p, a')
  | None =>
      if start_search a >? 0 then
        let a0 := mkFrameAllocator (bitmap a) (total_frames a) (used_frames a) 0 in
        match allocate_from 0 a0 with
        | Some (p, a') => (Some p, a')
        | None => (None, a0)
        end
      else (None, a)
  end.

Definition free_frames (a : FrameAllocator) : Z := sat_sub (total_frames a) (used_frames a).

(** [get_stats]: total, used and free frames. *)
Definition get_stats (a : FrameAllocator) : Z * Z * Z :=
  (total_frames a, used_frames a, free_frames a).

(** ** Abstraction: the set of free frames *)

Definition frame_free (a : FrameAllocator) (f : Z) : bool :=
  match bitmap a !! word_idx f with
  | Some w => negb (Z.testbit w (bit_idx f))
  | None => false
  end.

(** The set ranges over a million frames; it is sealed so that no tactic computes it. *)
Definition free_set_def (a : FrameAllocator) : gset Z :=
  filter (fun f => frame_free a f = true) (list_to_set (seqZ 0 MAX_FRAMES)).
Definition free_set_aux : seal (@free_set_def).
Proof. by eexists. Qed.
Definition free_set : FrameAllocator -> gset Z := unseal free_set_aux.
Lemma free_set_eq : free_set = free_set_def.
Proof. apply seal_eq. Qed.

(** Well-formed allocators: the array has its fixed length and every field fits its type. *)
Record wf (a : FrameAllocator) : Prop := mk_wf {
  wf_len : length (bitmap a) = Z.to_nat BITMAP_WORDS;
  wf_words : Forall (in_width 64) (bitmap a);
  wf_used : in_width 64 (used_frames a);
  wf_start : 0 <= start_search a;
}.

(** The interface the allocator's clients rely on: allocation hands out a page
    of a set of free pages and removes it. *)
Class FrameSource (S : Type) : Type := {
  fs_alloc : S -> option Z * S;
  fs_free : S -> gset Z;       (* the page addresses that may still be handed out *)
  fs_ok : S -> Prop;
  fs_alloc_some : forall s p s', fs_ok s -> fs_alloc s = (Some p, s') ->
    p ∈ fs_free s /\ fs_free s' = fs_free s ∖ {[p]} /\ fs_ok s';
  fs_alloc_none : forall s s', fs_ok s -> fs_alloc s = (None, s') ->
    fs_free s = ∅ /\ fs_free s' = fs_free s /\ fs_ok s';
  fs_page : forall s p, fs_ok s -> p ∈ fs_free s ->
    0 <= p < 2 ^ 52 /\ p mod PAGE_SIZE = 0;
}.

Lemma frame_index_eq f g : 0 <= f -> 0 <= g ->
  word_idx f = word_idx g -> bit_idx f = bit_idx g -> f = g.
Proof.
  unfold word_idx, bit_idx, USIZE_BITS. intros Hf Hg Hw Hb.
  apply Z2Nat.inj in Hw; [|apply Z.div_pos; lia|apply Z.div_pos; lia].
  rewrite (Z.div_mod f 64), (Z.div_mod g 64) by lia. congruence.
Qed.

Lemma bit_idx_range f : 0 <= bit_idx f < 64.
Proof. unfold bit_idx, USIZE_BITS. apply Z.mod_pos_bound. lia. Qed.

Lemma word_idx_lt f : 0 <= f < MAX_FRAMES -> (word_idx f < Z.to_nat BITMAP_WORDS)%nat.
Proof.
  intros H. unfold word_idx, USIZE_BITS. apply Z2Nat.inj_lt.
  - apply Z.div_pos; lia.
  - done.
  - change BITMAP_WORDS with 16384. unfold MAX_FRAMES in *.
    apply Z.div_lt_upper_bound; lia.
Qed.

Lemma lookup_word a f : wf a -> 0 <= f < MAX_FRAMES ->
  exists w, bitmap a !! word_idx f = Some w /\ in_width 64 w.
Proof.
  intros Hwf Hf. destruct (lookup_lt_is_Some_2 (bitmap a) (word_idx f)) as [w Hw].
  - rewrite (wf_len _ Hwf). by apply word_idx_lt.
  - exists w. split; [done|]. eapply Forall_lookup_1; [apply (wf_words _ Hwf)|done].
Qed.

Lemma elem_of_free_set a f :
  f ∈ free_set a <-> 0 <= f < MAX_FRAMES /\ frame_free a f = true.
Proof.
  rewrite free_set_eq. unfold free_set_def. rewrite elem_of_filter, elem_of_list_to_set, elem_of_seqZ. 
  rewrite Z.add_0_l. tauto.
Qed.

Lemma free_set_ext a b :
  (forall f, 0 <= f < MAX_FRAMES -> frame_free a f = frame_free b f) ->
  free_set a = free_set b.
Proof.
  intros H. apply set_eq. intros f. rewrite !elem_of_free_set.
  split; intros [Hr Hf]; (split; [done|]); [rewrite <- H|rewrite H]; done.
Qed.

(** Writing a word whose bits agree with the old one except at [f]. *)
Lemma frame_free_update a b f w w' v :
  wf a -> 0 <= f < MAX_FRAMES ->
  bitmap a !! word_idx f = Some w ->
  bitmap b = <[word_idx f := w']> (bitmap a) ->
  (forall j, 0 <= j < 64 -> Z.testbit w' j = if j =? bit_idx f then v else Z.testbit w j) ->
  forall g, 0 <= g < MAX_FRAMES ->
    frame_free b g = if g =? f then negb v else frame_free a g.
Proof.
  intros Hwf Hf Hw Hb Hbits g Hg. unfold frame_free. rewrite Hb.
  destruct (decide (word_idx g = word_idx f)) as [He|Hne].
  - rewrite He, list_lookup_insert_eq by (eapply lookup_lt_Some; done).
    rewrite Hw, (Hbits _ (bit_idx_range g)).
    destruct (Z.eqb_spec g f) as [->|Hgf]; [by rewrite Z.eqb_refl|].
    destruct (Z.eqb_spec (bit_idx g) (bit_idx f)) as [Hbe|]; [|done].
    destruct Hgf. apply frame_index_eq; lia || done.
  - rewrite list_lookup_insert_ne by done.
    destruct (Z.eqb_spec g f) as [->|]; [done|]. done.
Qed.

Lemma free_set_update a b f w w' v :
  wf a -> 0 <= f < MAX_FRAMES ->
  bitmap a !! word_idx f = Some w ->
  bitmap b = <[word_idx f := w']> (bitmap a) ->
  (forall j, 0 <= j < 64 -> Z.testbit w' j = if j =? bit_idx f then v else Z.testbit w j) ->
  free_set b = if v then free_set a ∖ {[f]} else free_set a ∪ {[f]}.
Proof.
  intros Hwf Hf Hw Hb Hbits.
  pose proof (frame_free_update a b f w w' v Hwf Hf Hw Hb Hbits) as Hfree.
  clear Hwf Hw Hb Hbits. apply set_eq. intros g. rewrite elem_of_free_set.
  pose proof (elem_of_free_set a g) as Hin. specialize (Hfree g).
  assert (g ∈ (if v then free_set a ∖ {[f]} else free_set a ∪ {[f]}) <->
          if v then g ∈ free_set a /\ g <> f else g ∈ free_set a \/ g = f) as ->.
  { destruct v; [by rewrite elem_of_difference, elem_of_singleton
                |by rewrite elem_of_union, elem_of_singleton]. }
  destruct (decide (0 <= g < MAX_FRAMES)) as [Hr|Hr];
    [rewrite (Hfree Hr)|]; clear Hfree;
    destruct (Z.eqb_spec g f) as [He|], v; try subst g; simpl; intuition congruence.
Qed.

Lemma set_bit_bits w i j : 0 <= i -> Z.testbit (Z.lor w (mask i)) j =
  if j =? i then true else Z.testbit w j.
Proof. intros. rewrite lor_mask_spec by done. by destruct (j =? i). Qed.

Lemma clear_bit_bits w i j : in_width 64 w -> 0 <= i -> 0 <= j ->
  Z.testbit (Z.land w (wnot 64 (mask i))) j = if j =? i then false else Z.testbit w j.
Proof. intros. rewrite land_wnot_mask_spec by (done || lia). by destruct (j =? i). Qed.


Create HintDb astral.
#[export] Hint Resolve bit_idx_range : astral.

(** ** Effect of the single-frame updates on the abstraction *)

Lemma insert_words_wf (l : list Z) i w :
  in_width 64 w -> Forall (in_width 64) l -> Forall (in_width 64) (<[i := w]> l).
Proof. intros. by apply Forall_insert. Qed.

Lemma allocate_frame_at_spec f a : wf a -> 0 <= f < MAX_FRAMES ->
  let a' := allocate_frame_at f a in
  wf a' /\ free_set a' = free_set a ∖ {[f]} /\
  used_frames a' = (if frame_free a f then used_frames a +[64] 1 else used_frames a) /\
  total_frames a' = total_frames a /\ start_search a' = start_search a.
Proof.
  intros Hwf Hf. destruct (lookup_word a f Hwf Hf) as (w & Hw & Hww).
  pose proof (bit_idx_range f) as Hb. unfold frame_free, allocate_frame_at.
  destruct (Z.geb_spec f MAX_FRAMES); [lia|]. rewrite Hw. simpl.
  rewrite land_mask_zero by lia.
  destruct Hwf as [Hlen Hwords Hused Hst]. split; [|split; [|done]].
  - split; simpl; [by rewrite length_insert| | |done].
    + apply insert_words_wf; [|done]. apply lor_mask_in_width; lia || done.
    + destruct (negb _); [by apply wrap_in_width|done].
  - apply (free_set_update a _ f w (Z.lor w (mask (bit_idx f))) true); try done.
    intros j Hj. apply set_bit_bits. lia.
Qed.

Lemma clear_frame_spec f a a' w : wf a -> 0 <= f < MAX_FRAMES ->
  bitmap a !! word_idx f = Some w ->
  bitmap a' = <[word_idx f := Z.land w (wnot 64 (mask (bit_idx f)))]> (bitmap a) ->
  in_width 64 (used_frames a') -> start_search a' = start_search a ->
  wf a' /\ free_set a' = free_set a ∪ {[f]}.
Proof.
  intros Hwf Hf Hw Hbm Hu Hs.
  destruct (lookup_word a f Hwf Hf) as (w' & Hw' & Hww). simplify_eq.
  pose proof (bit_idx_range f) as Hb. split.
  - split; rewrite ?Hbm, ?Hs; [by rewrite length_insert, (wf_len _ Hwf)| |done|apply Hwf].
    apply insert_words_wf; [|apply Hwf]. apply land_in_width; lia || done.
  - apply (free_set_update a _ f w _ false Hwf Hf Hw Hbm).
    intros j Hj. apply clear_bit_bits; lia || done.
Qed.

Lemma deallocate_spec p a : wf a -> 0 <= p / PAGE_SIZE < MAX_FRAMES ->
  let a' := deallocate p a in
  wf a' /\ free_set a' = free_set a ∪ {[p / PAGE_SIZE]} /\
  used_frames a' = (if frame_free a (p / PAGE_SIZE) then used_frames a
                    else used_frames a -[64] 1) /\
  total_frames a' = total_frames a /\ start_search a' = start_search a.
Proof.
  intros Hwf Hf. set (f := p / PAGE_SIZE) in *.
  destruct (lookup_word a f Hwf Hf) as (w & Hw & Hww).
  pose proof (bit_idx_range f) as Hb. unfold deallocate, frame_free. fold f.
  destruct (Z.geb_spec f MAX_FRAMES); [lia|]. rewrite Hw. simpl.
  rewrite land_mask_zero by lia.
  set (a' := mkFrameAllocator _ _ _ _).
  assert (wf a' /\ free_set a' = free_set a ∪ {[f]}) as [Hw1 Hw2].
  { eapply clear_frame_spec; try done. simpl.
    destruct (negb _); [apply Hwf|by apply wrap_in_width]. }
  split; [exact Hw1|]. split; [exact Hw2|]. repeat split.
Qed.

Lemma free_frame_initial_spec f a : wf a -> 0 <= f < MAX_FRAMES ->
  let a' := free_frame_initial f a in
  wf a' /\ free_set a' = free_set a ∪ {[f]} /\ used_frames a' = used_frames a /\
  total_frames a' = total_frames a /\ start_search a' = start_search a.
Proof.
  intros Hwf Hf. destruct (lookup_word a f Hwf Hf) as (w & Hw & Hww).
  unfold free_frame_initial.
  destruct (Z.geb_spec f MAX_FRAMES); [lia|]. rewrite Hw. simpl.
  set (a' := mkFrameAllocator _ _ _ _).
  assert (wf a' /\ free_set a' = free_set a ∪ {[f]}) as [Hw1 Hw2].
  { eapply clear_frame_spec; try done. apply Hwf. }
  split; [exact Hw1|]. split; [exact Hw2|]. repeat split.
Qed.

(** Out-of-range frames are ignored. *)
Lemma deallocate_oob p a : MAX_FRAMES <= p / PAGE_SIZE -> deallocate p a = a.
Proof. intros. unfold deallocate. destruct (Z.geb_spec (p / PAGE_SIZE) MAX_FRAMES); lia || done. Qed.

Lemma allocate_frame_at_oob f a : MAX_FRAMES <= f -> allocate_frame_at f a = a.
Proof. intros. unfold allocate_frame_at. destruct (Z.geb_spec f MAX_FRAMES); lia || done. Qed.

(** ** Correctness of the search *)

Lemma scan_bits_some w bs b : scan_bits w bs = Some b -> b ∈ bs /\ Z.land w (mask b) = 0.
Proof.
  induction bs as [|b0 bs IH]; simpl; [done|].
  destruct (Z.eqb_spec (Z.land w (mask b0)) 0); intros H.
  - simplify_eq. split; [left|done].
  - destruct (IH H). split; [by right|done].
Qed.

Lemma scan_bits_none w bs b : scan_bits w bs = None -> b ∈ bs -> Z.land w (mask b) <> 0.
Proof.
  induction bs as [|b0 bs IH]; simpl; [by intros _ ?%not_elem_of_nil|].
  destruct (Z.eqb_spec (Z.land w (mask b0)) 0); intros H Hin; [done|].
  apply elem_of_cons in Hin as [->|Hin]; auto.
Qed.

(** A word with no clear bit among its 64 is [!0]. *)
Lemma scan_bits_full w : in_width 64 w -> scan_bits w (seqZ 0 USIZE_BITS) = None -> w = ALL_ONES.
Proof.
  intros Hw Hs. apply (in_width_eq 64); [done|by vm_compute|].
  intros i Hi. assert (Z.testbit w i = true) as ->.
  { assert (i ∈ seqZ 0 USIZE_BITS) as Hin by (apply elem_of_seqZ; unfold USIZE_BITS; lia).
    pose proof (scan_bits_none _ _ _ Hs Hin) as Hne.
    destruct (Z.testbit w i) eqn:E; [done|]. exfalso. apply Hne.
    apply Z.eqb_eq. rewrite land_mask_zero, E by lia. done. }
  symmetry. change ALL_ONES with (Z.ones 64). by apply Z.ones_spec_low.
Qed.

Lemma all_ones_bit i : 0 <= i < 64 -> Z.testbit ALL_ONES i = true.
Proof. intros. change ALL_ONES with (Z.ones 64). by apply Z.ones_spec_low. Qed.

Lemma scan_words_some ws : forall i j b, scan_words i ws = Some (j, b) ->
  exists k w, j = i + Z.of_nat k /\ ws !! k = Some w /\ 0 <= b < 64 /\ Z.testbit w b = false.
Proof.
  induction ws as [|w ws IH]; intros i j b; cbn [scan_words]; [done|].
  destruct (negb (w =? ALL_ONES)); [destruct (scan_bits w (seqZ 0 USIZE_BITS)) as [b'|] eqn:E|]; intros H.
  - simplify_eq. apply scan_bits_some in E as [Hin Hz]. apply elem_of_seqZ in Hin.
    unfold USIZE_BITS in Hin. exists 0%nat, w. split; [lia|]. split; [done|]. split; [lia|].
    apply negb_true_iff. rewrite <- land_mask_zero by lia. by apply Z.eqb_eq.
  - destruct (IH _ _ _ H) as (k & w' & -> & Hk & Hb). exists (S k), w'.
    split; [lia|]. done.
  - destruct (IH _ _ _ H) as (k & w' & -> & Hk & Hb). exists (S k), w'.
    split; [lia|]. done.
Qed.

Lemma scan_words_none ws : Forall (in_width 64) ws -> forall i, scan_words i ws = None ->
  forall k w, ws !! k = Some w -> w = ALL_ONES.
Proof.
  induction 1 as [|w ws Hw Hws IH]; intros i; cbn [scan_words]; [done|].
  destruct (negb (w =? ALL_ONES)) eqn:En; [destruct (scan_bits w (seqZ 0 USIZE_BITS)) as [b'|] eqn:E|];
    intros Hs [|k] w' Hk; simplify_eq/=; eauto using scan_bits_full.
  apply negb_false_iff, Z.eqb_eq in En. done.
Qed.

(** The machine arithmetic of the frame number and the page address does not wrap. *)
Lemma frame_addr_exact i b : 0 <= i < BITMAP_WORDS -> 0 <= b < 64 ->
  PhysAddr_new ((i *[64] USIZE_BITS +[64] b) *[64] PAGE_SIZE) = (i * 64 + b) * PAGE_SIZE.
Proof.
  unfold BITMAP_WORDS, MAX_FRAMES, USIZE_BITS, PAGE_SIZE. intros Hi Hb.
  change (1024 * 1024 / 8 / 8) with 16384 in Hi.
  rewrite (wrap_small 64 (i * 64)), (wrap_small 64 (i * 64 + b)), (wrap_small 64 (_ * 4096))
    by (unfold in_width; lia).
  unfold PhysAddr_new. apply (in_width_eq 64).
  - apply land_in_width; [done|]. unfold in_width; lia.
  - unfold in_width; lia.
  - intros j Hj. rewrite Z.land_spec.
    change 0x000FFFFFFFFFF000 with (Z.shiftl (Z.ones 40) 12).
    change 4096 with (2 ^ 12). rewrite <- Z.shiftl_mul_pow2 by done.
    rewrite !Z.shiftl_spec by lia.
    destruct (Z.lt_ge_cases j 12).
    + by rewrite !Z.testbit_neg_r by lia.
    + destruct (Z.lt_ge_cases (j - 12) 40).
      * rewrite Z.ones_spec_low by lia. by rewrite andb_true_r.
      * rewrite (in_width_testbit 40 (i * 64 + b)) by (unfold in_width; lia). done.
Qed.

Lemma word_idx_of i b : 0 <= i -> 0 <= b < 64 ->
  word_idx (i * 64 + b) = Z.to_nat i /\ bit_idx (i * 64 + b) = b.
Proof.
  intros. unfold word_idx, bit_idx, USIZE_BITS. split.
  - f_equal. rewrite Z.div_add_l, Z.div_small by lia. lia.
  - rewrite Z.add_comm, Z.mod_add, Z.mod_small by lia. done.
Qed.

(** One pass: it hands out a free frame, or every frame from [start] on is taken. *)
Lemma allocate_from_some start a p a' : wf a -> 0 <= start ->
  allocate_from start a = Some (p, a') ->
  exists f, 0 <= f < MAX_FRAMES /\ frame_free a f = true /\ p = f * PAGE_SIZE /\
    wf a' /\ free_set a' = free_set a ∖ {[f]} /\
    used_frames a' = used_frames a +[64] 1 /\ total_frames a' = total_frames a.
Proof.
  intros Hwf Hs. unfold allocate_from.
  destruct (scan_words start _) as [[i b]|] eqn:E; [|done]. intros H. simplify_eq.
  apply scan_words_some in E as (k & w & -> & Hk & Hb & Hbit).
  rewrite lookup_drop in Hk. pose proof (lookup_lt_Some _ _ _ Hk) as Hlt.
  rewrite (wf_len _ Hwf) in Hlt. change (Z.to_nat BITMAP_WORDS) with (Z.to_nat 16384) in Hlt.
  set (i := start + Z.of_nat k) in *.
  assert (0 <= i < 16384) as Hi by lia.
  assert (Z.to_nat i = Z.to_nat start + k)%nat as Hik by lia.
  exists (i * 64 + b). destruct (word_idx_of i b) as [Hwi Hbi]; [lia|done|].
  assert (0 <= i * 64 + b < MAX_FRAMES) as Hf by (unfold MAX_FRAMES; lia).
  assert (in_width 64 w) as Hww by (eapply Forall_lookup_1; [apply (wf_words _ Hwf)|done]).
  rewrite frame_addr_exact by done. rewrite Hik, Hk. simpl.
  split; [done|]. split; [unfold frame_free; by rewrite Hwi, Hbi, Hik, Hk, Hbit|].
  split; [done|]. split; [|split; [|done]].
  - split; simpl; [by rewrite length_insert, (wf_len _ Hwf)| |by apply wrap_in_width|lia].
    apply insert_words_wf; [|apply Hwf]. apply lor_mask_in_width; lia || done.
  - apply (free_set_update a _ _ w (Z.lor w (mask b)) true Hwf Hf); rewrite ?Hwi, ?Hbi, ?Hik;
      try done. intros j Hj. apply set_bit_bits. lia.
Qed.

Lemma allocate_from_none a : wf a -> allocate_from 0 a = None -> free_set a = ∅.
Proof.
  intros Hwf. unfold allocate_from. rewrite Z2Nat.inj_0, drop_0.
  destruct (scan_words 0 (bitmap a)) as [[i b]|] eqn:E; [done|]. intros _.
  apply set_eq. intros f. rewrite elem_of_free_set. split; [|by intros ?%elem_of_empty].
  intros [Hf Hfree]. exfalso. unfold frame_free in Hfree.
  destruct (bitmap a !! word_idx f) as [w|] eqn:Ew; [|discriminate Hfree].
  assert (w = ALL_ONES) as -> by (eapply scan_words_none; [apply (wf_words _ Hwf)|exact E|exact Ew]).
  rewrite all_ones_bit in Hfree by apply bit_idx_range. discriminate Hfree.
Qed.

(** The full contract of [allocate], success and exhaustion. *)
Definition allocate_post (a : FrameAllocator) (r : option Z * FrameAllocator) : Prop :=
  match r with
  | (Some p, a') =>
      exists f, p = f * PAGE_SIZE /\ f ∈ free_set a /\ free_set a' = free_set a ∖ {[f]} /\
        used_frames a' = used_frames a +[64] 1 /\ total_frames a' = total_frames a /\ wf a'
  | (None, a') =>
      free_set a = ∅ /\ free_set a' = ∅ /\ used_frames a' = used_frames a /\
        total_frames a' = total_frames a /\ wf a'
  end.

Lemma free_set_bitmap a b : bitmap a = bitmap b -> free_set a = free_set b.
Proof. intros H. apply free_set_ext. intros f _. unfold frame_free. by rewrite H. Qed.

Lemma allocate_meets_post a : wf a -> allocate_post a (allocate a).
Proof.
  intros Hwf. unfold allocate.
  destruct (allocate_from (start_search a) a) as [[p a']|] eqn:E1.
  { destruct (allocate_from_some _ _ _ _ Hwf (wf_start _ Hwf) E1)
      as (f & Hf & Hfree & -> & Hwf' & Hset & Hu & Ht).
    exists f. rewrite elem_of_free_set. auto 10. }
  destruct (Z.gtb_spec (start_search a) 0) as [Hgt|Hle].
  - set (a0 := mkFrameAllocator _ _ _ 0).
    assert (wf a0) as Hwf0 by (destruct Hwf; split; simpl; auto; lia).
    assert (free_set a0 = free_set a) as Hs by (by apply free_set_bitmap).
    destruct (allocate_from 0 a0) as [[p a']|] eqn:E2.
    + destruct (allocate_from_some _ _ _ _ Hwf0 (Z.le_refl 0) E2)
        as (f & Hf & Hfree & -> & Hwf' & Hset & Hu & Ht).
      exists f. rewrite <- Hs, elem_of_free_set. auto 10.
    + pose proof (allocate_from_none _ Hwf0 E2) as He. simpl. rewrite <- Hs. auto 10.
  - pose proof (wf_start _ Hwf). replace (start_search a) with 0 in E1 by lia.
    pose proof (allocate_from_none _ Hwf E1) as He. simpl. auto 10.
Qed.

(** ** The bitmap allocator implements the interface *)

Definition page_set (a : FrameAllocator) : gset Z :=
  set_map (fun f => f * PAGE_SIZE) (free_set a).

Lemma elem_of_page_set a p :
  p ∈ page_set a <-> exists f, p = f * PAGE_SIZE /\ f ∈ free_set a.
Proof. unfold page_set. rewrite elem_of_map. done. Qed.

Lemma page_set_difference a a' f : free_set a' = free_set a ∖ {[f]} ->
  page_set a' = page_set a ∖ {[f * PAGE_SIZE]}.
Proof.
  intros H. apply set_eq. intros p.
  rewrite elem_of_difference, elem_of_singleton, !elem_of_page_set, H.
  setoid_rewrite elem_of_difference. setoid_rewrite elem_of_singleton.
  split.
  - intros (g & -> & Hg & Hne). split; [by exists g|].
    intros He. apply Hne. apply (Z.mul_cancel_r g f PAGE_SIZE); [by vm_compute|done].
  - intros [(g & -> & Hg) Hne]. exists g. split; [done|]. split; [done|]. by intros ->.
Qed.

#[global] Instance FrameAllocator_source : FrameSource FrameAllocator.
Proof.
  refine {| fs_alloc := allocate; fs_free := page_set; fs_ok := wf |}.
  - intros s p s' Hwf H. pose proof (allocate_meets_post s Hwf) as Hp. rewrite H in Hp.
    destruct Hp as (f & -> & Hf & Hset & _ & _ & Hwf').
    split; [rewrite elem_of_page_set; eauto|]. split; [by apply page_set_difference|done].
  - intros s s' Hwf H. pose proof (allocate_meets_post s Hwf) as Hp. rewrite H in Hp.
    destruct Hp as (He & He' & _ & _ & Hwf').
    unfold page_set. rewrite He, He'. auto.
  - intros s p Hwf (f & -> & Hf)%elem_of_page_set. apply elem_of_free_set in Hf as [Hf _].
    unfold PAGE_SIZE, MAX_FRAMES in *. split; [lia|]. apply Z.mod_mul. lia.
Defined.

(** ** Sequences of operations *)

Inductive frame_op : Type :=
| OpAllocate
| OpReserve (frame : Z)
| OpDeallocate (addr : Z).

Definition op_ok (o : frame_op) : Prop :=
  match o with
  | OpAllocate => True
  | OpReserve f => 0 <= f
  | OpDeallocate p => 0 <= p
  end.

Definition step (o : frame_op) (a : FrameAllocator) : FrameAllocator :=
  match o with
  | OpAllocate => (allocate a).2
  | OpReserve f => allocate_frame_at f a
  | OpDeallocate p => deallocate p a
  end.

(** The quantity every operation conserves: used frames plus free bits. *)
Definition balance (a : FrameAllocator) : Z := used_frames a +[64] Z.of_nat (size (free_set a)).

Lemma size_remove (X : gset Z) f : f ∈ X -> Z.of_nat (size X) = Z.of_nat (size (X ∖ {[f]})) + 1.
Proof.
  intros Hf. rewrite (union_difference_singleton_L f X Hf) at 1.
  rewrite size_union by set_solver. rewrite size_singleton. lia.
Qed.

Lemma balance_take u (X : gset Z) f : f ∈ X ->
  (u +[64] 1) +[64] Z.of_nat (size (X ∖ {[f]})) = u +[64] Z.of_nat (size X).
Proof. intros Hf. rewrite (size_remove X f Hf), wrap_add_l. f_equal. lia. Qed.

Lemma balance_put u (X : gset Z) f : f ∉ X ->
  (u -[64] 1) +[64] Z.of_nat (size (X ∪ {[f]})) = u +[64] Z.of_nat (size X).
Proof.
  intros Hf. rewrite size_union, size_singleton, wrap_add_l by set_solver. f_equal. lia.
Qed.

Lemma not_free_set a f : 0 <= f < MAX_FRAMES -> frame_free a f = false -> f ∉ free_set a.
Proof. intros Hr Hf [_ H]%elem_of_free_set. congruence. Qed.

Lemma step_wf_balance o a : op_ok o -> wf a -> wf (step o a) /\ balance (step o a) = balance a.
Proof.
  intros Ho Hwf. unfold balance. destruct o as [|f|p]; simpl in *.
  - pose proof (allocate_meets_post a Hwf) as Hp. destruct (allocate a) as [[p|] a']; simpl in *.
    + destruct Hp as (f & -> & Hf & -> & -> & _ & Hwf'). split; [done|]. by apply balance_take.
    + destruct Hp as (-> & -> & -> & _ & Hwf'). done.
  - destruct (Z.lt_ge_cases f MAX_FRAMES); [|by rewrite allocate_frame_at_oob by lia].
    destruct (allocate_frame_at_spec f a Hwf) as (Hwf' & -> & -> & _ & _); [lia|].
    split; [done|]. destruct (frame_free a f) eqn:E.
    + apply balance_take. by apply elem_of_free_set.
    + rewrite difference_disjoint_L; [done|]. 
      apply disjoint_singleton_r. by apply not_free_set; [lia|].
  - assert (0 <= p / PAGE_SIZE) as Hp0 by (apply Z.div_pos; [done|by vm_compute]).
    destruct (Z.lt_ge_cases (p / PAGE_SIZE) MAX_FRAMES); [|by rewrite deallocate_oob by lia].
    destruct (deallocate_spec p a Hwf) as (Hwf' & -> & -> & _ & _); [lia|].
    split; [done|]. destruct (frame_free a (p / PAGE_SIZE)) eqn:E.
    + rewrite (union_comm_L (free_set a)), subseteq_union_1_L; [done|].
      apply singleton_subseteq_l. by apply elem_of_free_set.
    + apply balance_put. by apply not_free_set; [lia|].
Qed.

(** ** Initialisation *)

Lemma free_frames_fold l : forall a, wf a -> Forall (fun f => 0 <= f) l ->
  let a' := foldl (fun a f => if f <? MAX_FRAMES then free_frame_initial f a else a) a l in
  wf a' /\ used_frames a' = used_frames a /\ start_search a' = start_search a /\
  forall f, f ∈ free_set a' <-> f ∈ free_set a \/ (f ∈ l /\ f < MAX_FRAMES).
Proof.
  induction l as [|g l IH]; intros a Hwf Hl; simpl.
  - split; [done|]. split; [done|]. split; [done|]. intros f. rewrite elem_of_nil. tauto.
  - inversion Hl as [|? ? Hg Hl']; subst. destruct (Z.ltb_spec g MAX_FRAMES).
    + destruct (free_frame_initial_spec g a Hwf) as (Hwf' & Hset & Hu & _ & Hs); [lia|].
      destruct (IH _ Hwf' Hl') as (Hw & Hu' & Hs' & Hf).
      split; [exact Hw|]. split; [congruence|]. split; [congruence|]. intros f.
      rewrite Hf, Hset, elem_of_union, elem_of_singleton, elem_of_cons.
      split; [intros [[?|?]|[? ?]]|intros [?|[[?|?] ?]]]; subst; auto.
    + destruct (IH _ Hwf Hl') as (Hw & Hu' & Hs' & Hf).
      split; [exact Hw|]. split; [exact Hu'|]. split; [exact Hs'|]. intros f.
      rewrite Hf, elem_of_cons. split; [intros [?|[? ?]]|intros [?|[[?|?] ?]]]; subst; auto; lia.
Qed.

(** The frames of a usable region. *)
Definition in_region (e : MemoryMapEntry) (f : Z) : Prop :=
  entry_usable e = true /\
  entry_base e / PAGE_SIZE <= f < entry_base e / PAGE_SIZE + entry_length e / PAGE_SIZE.

Definition entry_ok (e : MemoryMapEntry) : Prop := in_width 64 (entry_base e) /\ in_width 64 (entry_length e).

Lemma init_entry_spec a m e : wf a -> entry_ok e ->
  let r := init_entry (a, m) e in
  wf r.1 /\ used_frames r.1 = used_frames a /\ start_search r.1 = start_search a /\
  forall f, f ∈ free_set r.1 <-> f ∈ free_set a \/ (in_region e f /\ f < MAX_FRAMES).
Proof.
  intros Hwf [Hb Hl]. unfold init_entry, in_region. destruct (entry_usable e); simpl.
  - unfold free_region.
    assert (0 <= entry_base e / PAGE_SIZE) by (apply Z.div_pos; [apply Hb|by vm_compute]).
    destruct (free_frames_fold (seqZ (entry_base e / PAGE_SIZE) (entry_length e / PAGE_SIZE)) a)
      as (Hw & Hu & Hs & Hf).
    + done.
    + apply Forall_forall. intros x Hx%elem_of_seqZ. lia.
    + split; [exact Hw|]. split; [exact Hu|]. split; [exact Hs|]. intros f.
      rewrite Hf, elem_of_seqZ. tauto.
  - split; [done|]. split; [done|]. split; [done|]. intros f.
    split; [tauto|]. intros [?|[[? ?] ?]]; done.
Qed.

Lemma init_entries_spec mm : forall a m, wf a -> Forall entry_ok mm ->
  let r := foldl init_entry (a, m) mm in
  wf r.1 /\ used_frames r.1 = used_frames a /\ start_search r.1 = start_search a /\
  forall f, f ∈ free_set r.1 <->
    f ∈ free_set a \/ (exists e, e ∈ mm /\ in_region e f) /\ f < MAX_FRAMES.
Proof.
  induction mm as [|e mm IH]; intros a m Hwf Hok; cbn [foldl].
  - split; [done|]. split; [done|]. split; [done|]. intros f. split; [tauto|].
    intros [?|[(e & He & _) _]]; [done|]. by apply not_elem_of_nil in He.
  - inversion Hok as [|? ? He Hok']; subst.
    destruct (init_entry_spec a m e Hwf He) as (Hw & Hu & Hs & Hf).
    destruct (init_entry (a, m) e) as [a1 m1]. simpl in *.
    destruct (IH a1 m1 Hw Hok') as (Hw' & Hu' & Hs' & Hf').
    split; [exact Hw'|]. split; [congruence|]. split; [congruence|]. intros f.
    rewrite Hf', Hf. setoid_rewrite elem_of_cons. naive_solver.
Qed.

Lemma reserve_fold l : forall a, wf a -> Forall (fun f => 0 <= f < MAX_FRAMES) l ->
  let a' := foldl (fun a f => allocate_frame_at f a) a l in
  wf a' /\ total_frames a' = total_frames a /\ start_search a' = start_search a /\
  forall f, f ∈ free_set a' <-> f ∈ free_set a /\ f ∉ l.
Proof.
  induction l as [|g l IH]; intros a Hwf Hl; simpl.
  - split; [done|]. split; [done|]. split; [done|]. intros f. rewrite elem_of_nil. tauto.
  - inversion Hl as [|? ? Hg Hl']; subst.
    destruct (allocate_frame_at_spec g a Hwf Hg) as (Hwf' & Hset & _ & Ht & Hs).
    destruct (IH _ Hwf' Hl') as (Hw & Ht' & Hs' & Hf).
    split; [exact Hw|]. split; [congruence|]. split; [congruence|]. intros f.
    rewrite Hf, Hset, elem_of_difference, elem_of_singleton, elem_of_cons. tauto.
Qed.

Lemma all_ones_wf n t u s : in_width 64 u -> 0 <= s -> n = Z.to_nat BITMAP_WORDS ->
  wf (mkFrameAllocator (replicate n ALL_ONES) t u s).
Proof.
  intros Hu Hs Hn.
  split; cbn [bitmap used_frames start_search]; [by rewrite length_replicate| |done|done].
  clear Hn. apply Forall_replicate. by vm_compute.
Qed.

Lemma all_ones_free_set n t u s : free_set (mkFrameAllocator (replicate n ALL_ONES) t u s) = ∅.
Proof.
  apply set_eq. intros f. rewrite elem_of_free_set. split; [|by intros ?%elem_of_empty].
  intros [_ Hf]. exfalso. unfold frame_free in Hf. simpl in Hf.
  destruct (replicate n ALL_ONES !! word_idx f) as [w|] eqn:E; [|discriminate].
  apply lookup_replicate in E as [-> _]. rewrite all_ones_bit in Hf by apply bit_idx_range.
  discriminate.
Qed.

Lemma init_meets_spec mm a : wf a -> Forall entry_ok mm ->
  wf (init mm a) /\
  forall f, f ∈ free_set (init mm a) <->
    LOW_FRAMES <= f < MAX_FRAMES /\ exists e, e ∈ mm /\ in_region e f.
Proof.
  intros Hwf Hok. unfold init.
  pose proof (all_ones_wf (length (bitmap a)) (total_frames a) (used_frames a) (start_search a)
                (wf_used _ Hwf) (wf_start _ Hwf) (wf_len _ Hwf)) as Hw0.
  destruct (init_entries_spec mm _ 0 Hw0 Hok) as (Hw1 & Hu1 & Hs1 & Hf1).
  destruct (foldl init_entry _ mm) as [a1 m1]. simpl in Hw1, Hu1, Hs1, Hf1.
  set (a2 := mkFrameAllocator _ _ _ _).
  assert (wf a2) as Hw2 by (by destruct Hw1; split).
  assert (free_set a2 = free_set a1) as Hs2 by (by apply free_set_bitmap).
  destruct (reserve_fold (seqZ 0 LOW_FRAMES) a2 Hw2) as (Hw3 & _ & _ & Hf3).
  { apply Forall_forall. intros x Hx%elem_of_seqZ.
    change LOW_FRAMES with 256 in Hx. unfold MAX_FRAMES. lia. }
  split; [exact Hw3|]. intros f.
  rewrite Hf3, Hs2, Hf1, all_ones_free_set, elem_of_seqZ. change LOW_FRAMES with 256.
  assert (forall e, e ∈ mm -> in_region e f -> 0 <= f) as Hpos.
  { intros e He [_ Hr]. rewrite Forall_forall in Hok. destruct (Hok e He) as [[Hb _] _].
    assert (0 <= entry_base e / PAGE_SIZE) by (apply Z.div_pos; [done|by vm_compute]). lia. }
  split.
  - intros [[H|[(e & He & Hr) Hm]] Hn]; [by apply elem_of_empty in H|].
    specialize (Hpos e He Hr). split; [lia|by exists e].
  - intros [Hr (e & He & Hin)]. split; [right; split; [by exists e|lia]|lia].
Qed.

(** ** A client that frees only what it holds *)

Inductive client : FrameAllocator -> gset Z -> Prop :=
| client_start a : wf a -> client a ∅
| client_alloc a H p a' : client a H -> allocate a = (Some p, a') -> client a' (H ∪ {[p]})
| client_oom a H a' : client a H -> allocate a = (None, a') -> client a' H
| client_free a H p : client a H -> p ∈ H -> client (deallocate p a) (H ∖ {[p]})
| client_reserve a H f : client a H -> 0 <= f -> client (allocate_frame_at f a) H.

Definition held_inv (a : FrameAllocator) (H : gset Z) : Prop :=
  wf a /\ forall p, p ∈ H -> exists f, p = f * PAGE_SIZE /\ 0 <= f < MAX_FRAMES /\ f ∉ free_set a.

Lemma frame_of_page f : f * PAGE_SIZE / PAGE_SIZE = f.
Proof. apply Z.div_mul. by vm_compute. Qed.

Lemma client_held_inv a H : client a H -> held_inv a H.
Proof.
  induction 1 as [a Hwf|a H p a' Hc [Hwf IH] Ha|a H a' Hc [Hwf IH] Ha
                 |a H p Hc [Hwf IH] Hp|a H f Hc [Hwf IH] Hf]; try clear Hc.
  - split; [done|]. intros p Hp. by apply elem_of_empty in Hp.
  - pose proof (allocate_meets_post a Hwf) as Hpost. rewrite Ha in Hpost.
    destruct Hpost as (f & -> & Hf & Hset & _ & _ & Hwf'). split; [done|]. rewrite Hset.
    intros q Hq. apply elem_of_union in Hq as [Hq|Hq].
    + destruct (IH q Hq) as (g & -> & Hg & Hn). exists g. set_solver.
    + apply elem_of_singleton in Hq as ->. exists f. apply elem_of_free_set in Hf as [? _]. set_solver.
  - pose proof (allocate_meets_post a Hwf) as Hpost. rewrite Ha in Hpost.
    destruct Hpost as (_ & Hset & _ & _ & Hwf'). split; [done|]. rewrite Hset.
    intros q Hq. destruct (IH q Hq) as (g & -> & Hg & _). exists g. set_solver.
  - destruct (IH p Hp) as (f & -> & Hf & Hn).
    destruct (deallocate_spec (f * PAGE_SIZE) a Hwf) as (Hwf' & Hset & _); rewrite frame_of_page in *; [done|].
    split; [done|]. rewrite Hset. intros q Hq. apply elem_of_difference in Hq as [Hq Hne].
    destruct (IH q Hq) as (g & -> & Hg & Hng). exists g. split; [done|]. split; [done|].
    rewrite elem_of_union, elem_of_singleton. intros [?| ->]; [done|]. set_solver.
  - destruct (Z.lt_ge_cases f MAX_FRAMES); [|by rewrite allocate_frame_at_oob by lia].
    destruct (allocate_frame_at_spec f a Hwf) as (Hwf' & Hset & _); [lia|].
    split; [done|]. rewrite Hset. intros q Hq. destruct (IH q Hq) as (g & -> & Hg & Hng).
    exists g. set_solver.
Qed.

(** C1: In every state a client can reach by allocating, reserving and freeing
    only the frames it holds, [allocate] never hands out a frame that is still
    held, and what it hands out is a page-aligned address below 4 GiB. *)
Theorem held_frames_never_reissued a H p a' :
  client a H -> allocate a = (Some p, a') ->
  p ∉ H /\ p mod PAGE_SIZE = 0 /\ 0 <= p < MAX_FRAMES * PAGE_SIZE.
Proof.
  intros Hc Ha. destruct (client_held_inv a H Hc) as [Hwf Hheld].
  pose proof (allocate_meets_post a Hwf) as Hpost. rewrite Ha in Hpost.
  destruct Hpost as (f & -> & Hf & _). pose proof (proj1 (elem_of_free_set a f) Hf) as [Hr _].
  split; [|split].
  - intros Hin. destruct (Hheld _ Hin) as (g & Hg & _ & Hn).
    apply Z.mul_cancel_r in Hg; [subst; done|by vm_compute].
  - apply Z.mod_mul. by vm_compute.
  - unfold PAGE_SIZE, MAX_FRAMES in *. lia.
Qed.

(** [allocate] succeeds exactly when some frame is free; on success it takes
    that one frame out of the free set and counts it, on failure it leaves the
    free set and the counter alone. *)
Theorem allocate_complete a : wf a ->
  match allocate a with
  | (Some p, a') => exists f, p = f * PAGE_SIZE /\ f ∈ free_set a /\
      free_set a' = free_set a ∖ {[f]} /\ used_frames a' = used_frames a +[64] 1 /\ wf a'
  | (None, a') => free_set a = ∅ /\ free_set a' = ∅ /\ used_frames a' = used_frames a /\ wf a'
  end.
Proof.
  intros Hwf. pose proof (allocate_meets_post a Hwf) as H.
  destruct (allocate a) as [[p|] a']; simpl in H; naive_solver.
Qed.

(** Whatever sequence of allocations, reservations and releases runs, the
    used-frame counter plus the number of free bits stays the same modulo 2^64. *)
Theorem balance_conserved ops a : wf a -> Forall op_ok ops ->
  balance (foldl (fun a o => step o a) a ops) = balance a /\ wf (foldl (fun a o => step o a) a ops).
Proof.
  intros Hwf Hops. revert a Hwf. induction Hops as [|o ops Ho _ IH]; intros a Hwf; simpl; [done|].
  destruct (step_wf_balance o a Ho Hwf) as [Hwf' Hb].
  destruct (IH _ Hwf') as [Hb' Hwf'']. split; [congruence|done].
Qed.

(** Releasing the frame that was just allocated restores the free set and the counters. *)
Theorem allocate_deallocate_roundtrip a p a' : wf a -> allocate a = (Some p, a') ->
  free_set (deallocate p a') = free_set a /\
  used_frames (deallocate p a') = used_frames a /\
  total_frames (deallocate p a') = total_frames a.
Proof.
  intros Hwf Ha. pose proof (allocate_meets_post a Hwf) as Hpost. rewrite Ha in Hpost.
  destruct Hpost as (f & -> & Hf & Hset & Hu & Ht & Hwf').
  pose proof (proj1 (elem_of_free_set a f) Hf) as [Hr _].
  destruct (deallocate_spec (f * PAGE_SIZE) a' Hwf') as (_ & Hs & Hu' & Ht' & _);
    rewrite frame_of_page in *; [done|].
  assert (frame_free a' f = false) as Hff.
  { destruct (frame_free a' f) eqn:E; [|done].
    assert (f ∈ free_set a') by (by apply elem_of_free_set). set_solver. }
  rewrite Hff in Hu'. split; [|split; [|congruence]].
  - rewrite Hs, Hset, union_comm_L. symmetry. by apply union_difference_singleton_L.
  - rewrite Hu', Hu. unfold wrap. rewrite Zminus_mod_idemp_l.
    replace (used_frames a + 1 - 1) with (used_frames a) by lia.
    apply Z.mod_small, (wf_used _ Hwf).
Qed.

(** After [init], a frame is free exactly when it lies in a usable region of
    the memory map, above the first megabyte and below the 4 GiB the bitmap covers. *)
Theorem init_free_frames mm a : wf a -> Forall entry_ok mm ->
  wf (init mm a) /\
  forall f, f ∈ free_set (init mm a) <->
    LOW_FRAMES <= f < MAX_FRAMES /\ exists e, e ∈ mm /\ in_region e f.
Proof. intros. by apply init_meets_spec. Qed.

(** ** Witnesses and examples *)

(** A machine with one usable page at 2 MiB. *)
Definition one_page_map : list MemoryMapEntry := [mkEntry 0x200000 0x1000 true].
Definition one_page : FrameAllocator := init one_page_map new.

Lemma new_wf : wf new.
Proof. apply all_ones_wf; [by vm_compute|done|done]. Qed.

Lemma one_page_map_ok : Forall entry_ok one_page_map.
Proof. apply Forall_singleton. by vm_compute. Qed.

Lemma one_page_wf : wf one_page.
Proof. exact (proj1 (init_meets_spec one_page_map new new_wf one_page_map_ok)). Qed.

Lemma one_page_allocate : allocate one_page = (Some 0x200000, (allocate one_page).2).
Proof. apply pair_fst. by vm_compute. Qed.

Lemma one_page_free_set : free_set one_page = {[512]}.
Proof.
  apply set_eq. intros f.
  rewrite (proj2 (init_meets_spec one_page_map new new_wf one_page_map_ok)), elem_of_singleton.
  setoid_rewrite list_elem_of_singleton.
  unfold in_region, LOW_FRAMES, MAX_FRAMES, PAGE_SIZE. split.
  - intros [_ (e & -> & _ & Hr)]. simpl in Hr.
    change (2097152 / 4096) with 512 in Hr. change (4096 / 4096) with 1 in Hr. lia.
  - intros ->. split; [by vm_compute|]. eexists. split; [done|]. by vm_compute.
Qed.

Lemma held_frames_never_reissued_witness :
  0x200000 ∉ (∅ : gset Z) /\ 0x200000 mod PAGE_SIZE = 0 /\ 0 <= 0x200000 < MAX_FRAMES * PAGE_SIZE.
Proof.
  exact (held_frames_never_reissued one_page ∅ 0x200000 _
           (client_start _ one_page_wf) one_page_allocate).
Defined.

Lemma allocate_complete_witness : (allocate one_page).1 = Some 0x200000 /\
  match allocate one_page with
  | (Some p, a') => exists f, p = f * PAGE_SIZE /\ f ∈ free_set one_page /\
      free_set a' = free_set one_page ∖ {[f]} /\ used_frames a' = used_frames one_page +[64] 1 /\ wf a'
  | (None, a') => free_set one_page = ∅ /\ free_set a' = ∅ /\
      used_frames a' = used_frames one_page /\ wf a'
  end.
Proof.
  split; [by rewrite one_page_allocate|exact (allocate_complete one_page one_page_wf)].
Defined.

Lemma balance_conserved_witness :
  let ops := [OpAllocate; OpDeallocate 0x200000; OpReserve 512; OpReserve 7] in
  balance (foldl (fun a o => step o a) one_page ops) = balance one_page /\
  wf (foldl (fun a o => step o a) one_page ops).
Proof.
  apply (balance_conserved _ one_page one_page_wf).
  repeat (apply Forall_cons; split; [simpl; lia || done|]). apply Forall_nil. done.
Defined.

Lemma allocate_deallocate_roundtrip_witness :
  free_set (deallocate 0x200000 (allocate one_page).2) = free_set one_page /\
  used_frames (deallocate 0x200000 (allocate one_page).2) = used_frames one_page /\
  total_frames (deallocate 0x200000 (allocate one_page).2) = total_frames one_page.
Proof.
  exact (allocate_deallocate_roundtrip one_page 0x200000 _ one_page_wf one_page_allocate).
Defined.

Lemma init_free_frames_witness : wf (init one_page_map new) /\
  forall f, f ∈ free_set (init one_page_map new) <->
    LOW_FRAMES <= f < MAX_FRAMES /\ exists e, e ∈ one_page_map /\ in_region e f.
Proof. exact (init_free_frames one_page_map new new_wf one_page_map_ok). Defined.

(** The free count [get_stats] reports is not the number of free frames:
    frames in the holes of the memory map count as free.  With one usable page
    at 2 MiB it reports 513 free frames while exactly one can be allocated. *)
Theorem get_stats_counts_holes :
  get_stats one_page = (513, 0, 513) /\ size (free_set one_page) = 1%nat.
Proof. split; [by vm_compute|]. rewrite one_page_free_set. apply size_singleton. Qed.

(** ** Giving frames back

    What a client that also returns frames relies on: a frame of the memory that
    the allocator manages and that is not free becomes free, and nothing else
    changes. *)

Class FramePool (S : Type) `{FrameSource S} : Type := {
  fs_dealloc : Z -> S -> S;
  fs_managed : Z -> Prop;
  fs_free_managed : forall s p, fs_ok s -> p ∈ fs_free s -> fs_managed p;
  fs_dealloc_held : forall s p, fs_ok s -> fs_managed p -> p ∉ fs_free s ->
    fs_ok (fs_dealloc p s) /\ fs_free (fs_dealloc p s) = fs_free s ∪ {[p]};
}.

(** Returning the frame just given undoes the allocation. *)
Lemma fs_dealloc_back {S} `{FramePool S} (s s' : S) p : fs_ok s -> fs_alloc s = (Some p, s') ->
  fs_ok (fs_dealloc p s') /\ fs_free (fs_dealloc p s') = fs_free s.
Proof.
  intros Hok E. destruct (fs_alloc_some _ _ _ Hok E) as (Hin & Ef & Hok').
  destruct (fs_dealloc_held s' p Hok' (fs_free_managed s p Hok Hin)) as [Hok2 E2]; [rewrite Ef; set_solver|].
  split; [done|]. rewrite E2, Ef. apply set_eq. intros x. set_unfold. destruct (decide (x = p)); naive_solver.
Qed.

#[global] Instance FrameAllocator_pool : FramePool FrameAllocator.
Proof.
  refine {| fs_dealloc := deallocate; fs_managed := fun p => exists f, p = f * PAGE_SIZE /\ 0 <= f < MAX_FRAMES |}.
  - intros s p Hwf (f & -> & Hf)%elem_of_page_set. apply elem_of_free_set in Hf as [Hf _]. by exists f.
  - intros s p Hwf (f & -> & Hf) _.
    destruct (deallocate_spec (f * PAGE_SIZE) s Hwf) as (W & F & _); [by rewrite frame_of_page|].
    rewrite frame_of_page in F. split; [exact W|]. change (page_set (deallocate (f * PAGE_SIZE) s) = page_set s ∪ {[f * PAGE_SIZE]}).
    unfold page_set. rewrite F, set_map_union_L, set_map_singleton_L. done.
Defined.
