(* ===== verification/Paging.v ===== *)
(** * Page tables ([kernel/src/memory/paging.rs])

    Four-level x86-64 page tables.  Physical memory that holds page tables is a
    map from a table's page address and an entry index to the 64-bit entry
    ([PageTable] is 4096-aligned with 512 entries, so the pair identifies the
    word); the higher-half direct map gives the kernel access to all of it, and
    TLB invalidation has no effect on the tables.  Frames for new tables come
    from any [FrameSource]. *)

From Stdlib Require Import ZArith Lia Bool.
From stdpp Require Import base numbers option list gmap sets.
From S2P Require Import Prelude.
From S2P Require Import Frame.

(** ** Page-table entries *)

Definition PRESENT : Z := Z.shiftl 1 0.
Definition WRITABLE : Z := Z.shiftl 1 1.
Definition USER : Z := Z.shiftl 1 2.
Definition WRITE_THROUGH : Z := Z.shiftl 1 3.
Definition NO_CACHE : Z := Z.shiftl 1 4.
Definition NO_EXECUTE : Z := Z.shiftl 1 63.
Definition ADDR_MASK : Z := 0x000FFFFFFFFFF000.

Definition is_present (e : Z) : bool := negb (Z.land e PRESENT =? 0).
Definition set_present (present : bool) (e : Z) : Z :=
  if present then Z.lor e PRESENT else Z.land e (wnot 64 PRESENT).
Definition physical_address (e : Z) : Z := Z.land e ADDR_MASK.
Definition set_address (addr flags : Z) : Z :=
  Z.lor (Z.lor (Z.land addr ADDR_MASK) (Z.land flags 0xFFF)) (Z.land flags NO_EXECUTE).
Definition flags_of (e : Z) : Z := Z.lor (Z.land e 0xFFF) (Z.land e NO_EXECUTE).

(** ** Virtual addresses *)

Definition p4_index (v : Z) : Z := Z.land (Z.shiftr v 39) 0x1FF.
Definition p3_index (v : Z) : Z := Z.land (Z.shiftr v 30) 0x1FF.
Definition p2_index (v : Z) : Z := Z.land (Z.shiftr v 21) 0x1FF.
Definition p1_index (v : Z) : Z := Z.land (Z.shiftr v 12) 0x1FF.
Definition page_offset (v : Z) : Z := Z.land v 0xFFF.

(** The error strings of the manager. *)
Inductive PtError : Type :=
| OutOfMemory          (* "Out of memory" *)
| PageAlreadyMapped    (* "Page already mapped" *)
| P3NotPresent         (* "P3 not present" *)
| P2NotPresent         (* "P2 not present" *)
| P1NotPresent         (* "P1 not present" *)
| PageNotMapped.       (* "Page not mapped" *)

#[global] Instance PtError_eq_dec : EqDecision PtError.
Proof. solve_decision. Defined.

Abbreviation memory := (gmap (Z * Z) Z).

Definition entry (m : memory) (t i : Z) : Z := default 0 (m !! (t, i)).
Definition write_entry (t i e : Z) (m : memory) : memory := <[(t, i) := e]> m.

(** [PageTable::zero]: all 512 entries become 0. *)
Definition zero_table (t : Z) (m : memory) : memory :=
  foldr (fun i m => write_entry t i 0 m) m (seqZ 0 512).

Record VM (S : Type) : Type := mkVM { vm_mem : memory; vm_frames : S }.
Arguments mkVM {S} _ _.
Arguments vm_mem {S} _.
Arguments vm_frames {S} _.

Section Manager.
Context {S : Type} `{FS : FrameSource S}.

Definition vm_write (t i e : Z) : M (VM S) PtError unit :=
  fun s => (Ok tt, mkVM (write_entry t i e (vm_mem s)) (vm_frames s)).

(** Flags of intermediate entries. *)
Definition INTER_FLAGS : Z := Z.lor (Z.lor PRESENT WRITABLE) USER.

(** One level of the walk of [map] ([force = false]) and of [map_executable]
    ([force = true], which also rewrites a present entry without NX): follow the
    entry or link a zeroed new table. *)
Definition next_table (force : bool) (t i : Z) : M (VM S) PtError Z :=
  fun s =>
    let e := entry (vm_mem s) t i in
    if is_present e then
      let addr := physical_address e in
      (Ok addr,
       if force then mkVM (write_entry t i (set_address addr INTER_FLAGS) (vm_mem s)) (vm_frames s)
       else s)
    else
      match fs_alloc (vm_frames s) with
      | (None, f') => (Err OutOfMemory, mkVM (vm_mem s) f')
      | (Some frame, f') =>
          (Ok frame,
           mkVM (write_entry t i (set_address frame INTER_FLAGS) (zero_table frame (vm_mem s))) f')
      end.

(** [PageTableManager::new]: a fresh zeroed P4 table. *)
Definition new_p4 : M (VM S) PtError (option Z) :=
  fun s => match fs_alloc (vm_frames s) with
           | (None, f') => (Ok None, mkVM (vm_mem s) f')
           | (Some frame, f') => (Ok (Some frame), mkVM (zero_table frame (vm_mem s)) f')
           end.

Definition map (p4 virt phys flags : Z) : M (VM S) PtError unit :=
  do p3 <- next_table false p4 (p4_index virt);
  do p2 <- next_table false p3 (p3_index virt);
  do p1 <- next_table false p2 (p2_index virt);
  fun s =>
    if is_present (entry (vm_mem s) p1 (p1_index virt)) then throw PageAlreadyMapped s
    else vm_write p1 (p1_index virt) (set_address phys flags) s.

Definition map_executable (p4 virt phys flags : Z) : M (VM S) PtError unit :=
  do p3 <- next_table true p4 (p4_index virt);
  do p2 <- next_table true p3 (p3_index virt);
  do p1 <- next_table true p2 (p2_index virt);
  vm_write p1 (p1_index virt) (set_address phys (Z.land flags (wnot 64 NO_EXECUTE))).

(** [translate]: the final [PhysAddr::new] masks its argument to a page boundary. *)
Definition translate (p4 virt : Z) (s : VM S) : option Z :=
  let m := vm_mem s in
  let p3_entry := entry m p4 (p4_index virt) in
  if negb (is_present p3_entry) then None else
  let p2_entry := entry m (physical_address p3_entry) (p3_index virt) in
  if negb (is_present p2_entry) then None else
  let p1_entry := entry m (physical_address p2_entry) (p2_index virt) in
  if negb (is_present p1_entry) then None else
  let e := entry m (physical_address p1_entry) (p1_index virt) in
  if is_present e then Some (PhysAddr_new (physical_address e +[64] page_offset virt)) else None.

Definition unmap (p4 virt : Z) : M (VM S) PtError Z :=
  fun s =>
    let m := vm_mem s in
    let p3_entry := entry m p4 (p4_index virt) in
    if negb (is_present p3_entry) then throw P3NotPresent s else
    let p2_entry := entry m (physical_address p3_entry) (p3_index virt) in
    if negb (is_present p2_entry) then throw P2NotPresent s else
    let p1_entry := entry m (physical_address p2_entry) (p2_index virt) in
    if negb (is_present p1_entry) then throw P1NotPresent s else
    let t := physical_address p1_entry in
    let e := entry m t (p1_index virt) in
    if negb (is_present e) then throw PageNotMapped s else
    (do_ vm_write t (p1_index virt) (set_present false e);
     ret (PhysAddr_new (physical_address e))) s.

Definition MMIO_FLAGS : Z :=
  Z.lor (Z.lor (Z.lor (Z.lor PRESENT WRITABLE) NO_CACHE) WRITE_THROUGH) NO_EXECUTE.

(** The loop body of [map_mmio] for page [i], and the loop. *)
Definition mmio_page (hhdm p4 phys_addr i : Z) : M (VM S) PtError unit :=
  let page_phys := Z.land phys_addr (wnot 64 0xFFF) +[64] (i *[64] PAGE_SIZE) in
  let page_virt := page_phys +[64] hhdm in
  fun s =>
    match translate p4 page_virt s with
    | Some _ => (Ok tt, s)
    | None => map p4 page_virt (PhysAddr_new page_phys) MMIO_FLAGS s
    end.

Fixpoint mmio_pages (hhdm p4 phys_addr : Z) (pages : list Z) : M (VM S) PtError unit :=
  match pages with
  | [] => ret tt
  | i :: rest => do_ mmio_page hhdm p4 phys_addr i; mmio_pages hhdm p4 phys_addr rest
  end.

Definition map_mmio (hhdm p4 phys_addr size : Z) : M (VM S) PtError unit :=
  let num_pages := (size +[64] (PAGE_SIZE - 1)) / PAGE_SIZE in
  mmio_pages hhdm p4 phys_addr (seqZ 0 num_pages).

End Manager.

(** ** Bit-level lemmas *)

Lemma ADDR_MASK_spec j : 0 <= j -> Z.testbit ADDR_MASK j = (12 <=? j) && (j <? 52).
Proof.
  intros Hj. change ADDR_MASK with (Z.shiftl (Z.ones 40) 12). rewrite Z.shiftl_spec by done.
  destruct (Z.leb_spec 12 j); [|by rewrite Z.testbit_neg_r by lia].
  destruct (Z.ltb_spec j 52); [by rewrite Z.ones_spec_low by lia|by rewrite Z.ones_spec_high by lia].
Qed.

Lemma low_mask_spec j : 0 <= j -> Z.testbit 0xFFF j = (j <? 12).
Proof.
  intros Hj. change 0xFFF with (Z.ones 12).
  destruct (Z.ltb_spec j 12); [by rewrite Z.ones_spec_low by lia|by rewrite Z.ones_spec_high by lia].
Qed.

Lemma NX_spec j : 0 <= j -> Z.testbit NO_EXECUTE j = (j =? 63).
Proof. intros. exact (mask_spec 63 j ltac:(done)). Qed.

Lemma set_address_spec a f j : 0 <= j ->
  Z.testbit (set_address a f) j =
    if j <? 12 then Z.testbit f j
    else if j <? 52 then Z.testbit a j
    else if j =? 63 then Z.testbit f j else false.
Proof.
  intros Hj. unfold set_address.
  rewrite !Z.lor_spec, !Z.land_spec, ADDR_MASK_spec, low_mask_spec, NX_spec by done.
  destruct (Z.ltb_spec j 12), (Z.ltb_spec j 52), (Z.eqb_spec j 63), (Z.leb_spec 12 j); try lia;
    simpl; rewrite ?andb_false_r, ?andb_true_r, ?orb_false_r; done.
Qed.

Lemma is_present_bit e : is_present e = Z.testbit e 0.
Proof.
  unfold is_present. change PRESENT with (mask 0). rewrite (land_mask_zero e 0) by done. apply negb_involutive.
Qed.

Lemma present_set_address a f : is_present (set_address a f) = is_present f.
Proof. rewrite !is_present_bit. by rewrite set_address_spec. Qed.

Lemma physical_set_address a f : physical_address (set_address a f) = Z.land a ADDR_MASK.
Proof.
  apply Z.bits_inj'. intros j Hj. unfold physical_address.
  rewrite !Z.land_spec, set_address_spec, ADDR_MASK_spec by done.
  destruct (Z.ltb_spec j 12), (Z.leb_spec 12 j), (Z.ltb_spec j 52); try lia; simpl;
    rewrite ?andb_false_r, ?andb_true_r; done.
Qed.

Lemma flags_set_address a f : flags_of (set_address a f) = flags_of f.
Proof.
  apply Z.bits_inj'. intros j Hj. unfold flags_of.
  rewrite !Z.lor_spec, !Z.land_spec, set_address_spec, low_mask_spec, NX_spec by done.
  destruct (Z.ltb_spec j 12), (Z.ltb_spec j 52), (Z.eqb_spec j 63); try lia; simpl;
    rewrite ?andb_false_r, ?andb_true_r; done.
Qed.

Lemma physical_address_idem e : Z.land (physical_address e) ADDR_MASK = physical_address e.
Proof. unfold physical_address. by rewrite <- Z.land_assoc, Z.land_diag. Qed.

(** A page address: within 52 bits and 4096-aligned. *)
Definition page_addr (p : Z) : Prop := Z.land p ADDR_MASK = p.

Lemma page_addr_of p : 0 <= p < 2 ^ 52 -> p mod PAGE_SIZE = 0 -> page_addr p.
Proof.
  intros Hr Ha. apply Z.bits_inj'. intros j Hj.
  rewrite Z.land_spec, ADDR_MASK_spec by done.
  destruct (Z.leb_spec 12 j); simpl.
  - destruct (Z.ltb_spec j 52); [by rewrite andb_true_r|].
    by rewrite (in_width_testbit 52 p) by done.
  - rewrite andb_false_r. symmetry. rewrite <- (Z.mod_pow2_bits_low p 12 j) by lia.
    change (2 ^ 12) with PAGE_SIZE. by rewrite Ha, Z.testbit_0_l.
Qed.

(** The masking of [translate] drops the page offset. *)
Lemma translate_mask e v : PhysAddr_new (physical_address e +[64] page_offset v) = physical_address e.
Proof.
  assert (in_width 52 (physical_address e)) as He.
  { apply testbit_in_width; [done|by apply Z.land_nonneg; right|]. intros i Hi.
    unfold physical_address. rewrite Z.land_spec, ADDR_MASK_spec by lia.
    destruct (Z.ltb_spec i 52); [lia|]. by rewrite !andb_false_r. }
  assert (physical_address e mod 2 ^ 12 = 0) as Hm.
  { apply Z.bits_inj'. intros j Hj. rewrite Z.testbit_0_l.
    destruct (Z.lt_ge_cases j 12); [|by rewrite Z.mod_pow2_bits_high by lia].
    rewrite Z.mod_pow2_bits_low by lia. unfold physical_address.
    rewrite Z.land_spec, ADDR_MASK_spec by lia. destruct (Z.leb_spec 12 j); [lia|].
    by rewrite andb_false_r. }
  set (x := physical_address e) in *. set (o := page_offset v).
  assert (in_width 12 o) as Ho.
  { unfold o, page_offset. change 0xFFF with (Z.ones 12). rewrite Z.land_ones by done.
    unfold in_width. by apply Z.mod_pos_bound. }
  unfold in_width in *. rewrite wrap_small by (unfold in_width; lia). unfold PhysAddr_new.
  change 0x000FFFFFFFFFF000 with ADDR_MASK.
  apply Z.bits_inj'. intros j Hj. rewrite Z.land_spec, ADDR_MASK_spec by done.
  rewrite (Z.div_mod x (2 ^ 12)), Hm, Z.add_0_r, Z.mul_comm by done. set (q := x / 2 ^ 12) in *.
  assert (0 <= q < 2 ^ 40) as Hq by (split; [apply Z.div_pos; lia|apply Z.div_lt_upper_bound; lia]).
  destruct (Z.leb_spec 12 j); simpl.
  - rewrite <- (Z.sub_add 12 j) at 1 3. rewrite <- !Z.div_pow2_bits by lia.
    rewrite Z.div_add_l, (Z.div_small o), Z.add_0_r, Z.div_mul by lia.
    destruct (Z.ltb_spec j 52); [by rewrite andb_true_r|].
    by rewrite (in_width_testbit 40 q) by (unfold in_width; lia).
  - rewrite andb_false_r. by rewrite Z.mul_pow2_bits_low by lia.
Qed.

(** ** The tree of tables *)

(** The table reached from [t] along a path of entry indices. *)
Fixpoint table_at (m : memory) (t : Z) (path : list Z) : option Z :=
  match path with
  | [] => Some t
  | i :: rest =>
      let e := entry m t i in
      if is_present e then table_at m (physical_address e) rest else None
  end.

Definition idx_ok (i : Z) : Prop := 0 <= i < 512.
Definition path_ok (path : list Z) : Prop := Forall idx_ok path /\ (length path <= 3)%nat.

(** The present leaf entry for four indices. *)
Definition leaf (m : memory) (p4 : Z) (path : list Z) (i : Z) : option Z :=
  match table_at m p4 path with
  | Some t => let e := entry m t i in if is_present e then Some e else None
  | None => None
  end.

Definition walk_path (v : Z) : list Z := [p4_index v; p3_index v; p2_index v].

Lemma entry_write t i e m t' i' :
  entry (write_entry t i e m) t' i' = if decide (t = t' /\ i = i') then e else entry m t' i'.
Proof.
  unfold entry, write_entry. rewrite lookup_insert.
  destruct (decide ((t, i) = (t', i'))) as [He|Hne]; destruct (decide _) as [Hd|Hd]; try done;
    exfalso; naive_solver.
Qed.

Lemma entry_zero t m t' i' :
  entry (zero_table t m) t' i' = if decide (t = t' /\ 0 <= i' < 512) then 0 else entry m t' i'.
Proof.
  unfold zero_table.
  assert (forall l, entry (foldr (fun i m => write_entry t i 0 m) m l) t' i' =
    if decide (t = t' /\ i' ∈ l) then 0 else entry m t' i') as Hl.
  { induction l as [|j l IH]; simpl.
    - destruct (decide _) as [[_ H]|]; [by apply not_elem_of_nil in H|done].
    - rewrite entry_write, IH. pose proof (elem_of_cons l i' j).
      repeat destruct (decide _); try done; exfalso; naive_solver. }
  rewrite Hl. pose proof (elem_of_seqZ 0 512 i').
  repeat destruct (decide _); try done; exfalso; naive_solver lia.
Qed.

(* Only [entry_zero] is used from here on: never unroll the 512 writes. *)
#[global] Opaque zero_table.

Lemma table_at_app m t p q :
  table_at m t (p ++ q) = match table_at m t p with Some t' => table_at m t' q | None => None end.
Proof.
  revert t. induction p as [|i p IH]; intros t; simpl; [done|]. by destruct (is_present _).
Qed.

(** [table_at] only reads the entries along the path. *)
Lemma table_at_ext m m' path : forall t,
  (forall pre j post, path = pre ++ j :: post -> forall t', table_at m t pre = Some t' ->
     is_present (entry m' t' j) = is_present (entry m t' j) /\
     (is_present (entry m t' j) = true ->
        physical_address (entry m' t' j) = physical_address (entry m t' j))) ->
  table_at m' t path = table_at m t path.
Proof.
  induction path as [|i path IH]; intros t H; simpl; [done|].
  destruct (H [] i path eq_refl t eq_refl) as [Hp Ha]. rewrite Hp.
  destruct (is_present (entry m t i)) eqn:E; [|done]. rewrite Ha by done.
  apply IH. intros pre j post -> t' Ht'. apply (H (i :: pre) j post); [done|].
  simpl. by rewrite E.
Qed.

Section Invariant.
Context {S : Type} `{FS : FrameSource S}.

(** The invariant: distinct paths lead to distinct tables, no table lies in a
    page the frame source may still hand out, and the source itself is sound. *)
Record tree_ok (p4 : Z) (s : VM S) : Prop := mk_tree_ok {
  tree_inj : forall p q t, path_ok p -> path_ok q ->
    table_at (vm_mem s) p4 p = Some t -> table_at (vm_mem s) p4 q = Some t -> p = q;
  tree_used : forall p t, path_ok p -> table_at (vm_mem s) p4 p = Some t ->
    t ∉ fs_free (vm_frames s);
  tree_frames : fs_ok (vm_frames s);
}.

Lemma path_ok_prefix p q : path_ok (p ++ q) -> path_ok p.
Proof.
  intros [Hf Hl]. apply Forall_app in Hf as [Hf _]. rewrite length_app in Hl. split; [done|lia].
Qed.

Lemma path_ok_snoc p i : path_ok p -> idx_ok i -> (length p <= 2)%nat -> path_ok (p ++ [i]).
Proof.
  intros [Hf _] Hi Hl. split; [by apply Forall_app_2; [|apply Forall_singleton]|].
  rewrite length_app. simpl. lia.
Qed.

Lemma extends_dec (p : list Z) i q :
  (exists rest, q = p ++ i :: rest) \/ ~ (exists rest, q = p ++ i :: rest).
Proof.
  revert q. induction p as [|j p IH]; intros [|k q]; simpl; try (by right; intros [r ?]).
  - destruct (decide (k = i)) as [->|Hne]; [left; eauto|]. right. intros [r ?]. congruence.
  - destruct (decide (k = j)) as [->|Hne]; [|right; intros [r ?]; congruence].
    destruct (IH q) as [[r ->]|Hn]; [left; eauto|]. right. intros [r [= ->]]. apply Hn. eauto.
Qed.

(** *** Linking a new table *)

Section Link.
Context (p4 : Z) (s : VM S) (path : list Z) (t i frame : Z) (f' : S).
Hypothesis Hok : tree_ok p4 s.
Hypothesis Hpath : path_ok path.
Hypothesis Hlen : (length path <= 2)%nat.
Hypothesis Ht : table_at (vm_mem s) p4 path = Some t.
Hypothesis Hi : idx_ok i.
Hypothesis Habs : is_present (entry (vm_mem s) t i) = false.
Hypothesis Halloc : fs_alloc (vm_frames s) = (Some frame, f').

Let m := vm_mem s.
Let m' := write_entry t i (set_address frame INTER_FLAGS) (zero_table frame m).

Let Htm : table_at m p4 path = Some t := Ht.
Let Habsm : is_present (entry m t i) = false := Habs.

Lemma link_fresh : frame ∈ fs_free (vm_frames s) /\ fs_free f' = fs_free (vm_frames s) ∖ {[frame]} /\ fs_ok f'.
Proof. apply fs_alloc_some; [apply Hok|done]. Qed.

Lemma link_not_table p t' : path_ok p -> table_at m p4 p = Some t' -> t' <> frame.
Proof.
  intros Hp Hpt ->. apply (tree_used _ _ Hok p frame Hp Hpt). apply link_fresh.
Qed.

Lemma link_entry p j t' : path_ok p -> table_at m p4 p = Some t' ->
  (p, j) <> (path, i) -> entry m' t' j = entry m t' j.
Proof.
  intros Hp Hpt Hne. unfold m'. rewrite entry_write, entry_zero.
  pose proof (link_not_table p t' Hp Hpt).
  repeat destruct (decide _) as [[? ?]|]; subst; try done.
  exfalso. apply Hne. f_equal. exact (tree_inj _ _ Hok p path t' Hp Hpath Hpt Ht).
Qed.

Lemma link_other q : path_ok q -> ~ (exists rest, q = path ++ i :: rest) ->
  table_at m' p4 q = table_at m p4 q.
Proof.
  intros Hq Hnot. apply table_at_ext. intros pre j post -> t' Ht'.
  rewrite (link_entry pre j t'); [done|by eapply path_ok_prefix|done|].
  intros [= -> ->]. apply Hnot. eauto.
Qed.

Lemma link_page : Z.land frame ADDR_MASK = frame.
Proof.
  destruct link_fresh as [Hin _]. destruct (fs_page _ _ (tree_frames _ _ Hok) Hin).
  by apply page_addr_of.
Qed.

Lemma link_new rest : path_ok (path ++ i :: rest) ->
  table_at m' p4 (path ++ i :: rest) = match rest with [] => Some frame | _ => None end.
Proof.
  intros Hq. rewrite table_at_app, link_other, Htm; [|done|].
  2:{ intros [r Hr]. apply (f_equal length) in Hr. rewrite length_app in Hr. simpl in Hr. lia. }
  cbn [table_at].
  assert (entry m' t i = set_address frame INTER_FLAGS) as ->
    by (unfold m'; rewrite entry_write, decide_True; [done|split; reflexivity]).
  rewrite present_set_address, physical_set_address, link_page.
  change (is_present INTER_FLAGS) with true. cbn match.
  destruct rest as [|k rest]; [done|]. cbn [table_at].
  assert (idx_ok k) as Hk.
  { destruct Hq as [Hf _]. apply Forall_app in Hf as [_ Hf]. by inversion Hf as [|? ? _ Hr]; inversion Hr. }
  unfold m'. rewrite entry_write, entry_zero.
  pose proof (link_not_table path t Hpath Ht).
  rewrite decide_False by tauto.
  rewrite decide_True by (split; [reflexivity|exact Hk]). reflexivity.
Qed.

Lemma link_cases q t' : path_ok q -> table_at m' p4 q = Some t' ->
  (q = path ++ [i] /\ t' = frame) \/
  (~ (exists rest, q = path ++ i :: rest) /\ table_at m p4 q = Some t').
Proof.
  intros Hq Hqt. destruct (extends_dec path i q) as [[rest ->]|Hno].
  - left. rewrite link_new in Hqt by done. destruct rest; [by simplify_eq|done].
  - right. split; [done|]. by rewrite <- link_other.
Qed.

Lemma link_tree_ok : tree_ok p4 (mkVM m' f').
Proof.
  destruct link_fresh as (Hin & Hfree & Hfok). split; simpl; [| |done].
  - intros p q t' Hp Hq Hpt Hqt.
    destruct (link_cases p t' Hp Hpt) as [[Hpe Hx]|[_ Hpt']];
      destruct (link_cases q t' Hq Hqt) as [[Hqe Hy]|[_ Hqt']].
    + congruence.
    + destruct (link_not_table q t' Hq Hqt' Hx).
    + destruct (link_not_table p t' Hp Hpt' Hy).
    + exact (tree_inj _ _ Hok p q t' Hp Hq Hpt' Hqt').
  - intros p t' Hp Hpt. rewrite Hfree. destruct (link_cases p t' Hp Hpt) as [[_ ->]|[_ Hpt']].
    + rewrite elem_of_difference, elem_of_singleton. tauto.
    + rewrite elem_of_difference. intros [H _]. exact (tree_used _ _ Hok p t' Hp Hpt' H).
Qed.

Lemma link_leaf q k : path_ok q -> length q = 3%nat -> idx_ok k -> leaf m' p4 q k = leaf m p4 q k.
Proof.
  intros Hq Hl Hk. unfold leaf. destruct (table_at m' p4 q) as [t'|] eqn:E.
  - destruct (link_cases q t' Hq E) as [[Hqe ->]|[Hno Hqt]].
    + assert (table_at m p4 q = None) as ->.
      { rewrite Hqe, table_at_app, Htm. simpl. by rewrite Habsm. }
      unfold m'. rewrite entry_write, entry_zero.
      pose proof (link_not_table path t Hpath Ht).
      rewrite decide_False by tauto.
      rewrite decide_True by (split; [reflexivity|exact Hk]). reflexivity.
    + rewrite Hqt, (link_entry q k t' Hq Hqt); [done|]. intros [= -> _]. lia.
  - destruct (extends_dec path i q) as [[rest ->]|Hno].
    + rewrite table_at_app, Htm. cbn [table_at]. by rewrite Habsm.
    + by rewrite <- (link_other q Hq Hno), E.
Qed.

End Link.
(** *** Overwriting an entry of a table of the tree *)

Section Overwrite.
Context (p4 : Z) (s : VM S) (path : list Z) (t i e : Z).
Hypothesis Hok : tree_ok p4 s.
Hypothesis Hpath : path_ok path.
Hypothesis Ht : table_at (vm_mem s) p4 path = Some t.

Let m := vm_mem s.
Let m' := write_entry t i e m.

Lemma over_entry p j t' : path_ok p -> table_at m p4 p = Some t' ->
  entry m' t' j = if decide (p = path /\ j = i) then e else entry m t' j.
Proof.
  intros Hp Hpt. unfold m'. rewrite entry_write.
  destruct (decide (p = path /\ j = i)) as [[-> ->]|Hn].
  - rewrite decide_True; [done|]. split; [|done]. unfold m in Hpt. congruence.
  - rewrite decide_False; [done|]. intros [<- <-]. apply Hn. split; [|done].
    exact (tree_inj _ _ Hok p path t Hp Hpath Hpt Ht).
Qed.

Hypothesis Hkeep : (length path <= 2)%nat ->
  is_present e = is_present (entry m t i) /\
  (is_present (entry m t i) = true -> physical_address e = physical_address (entry m t i)).

Lemma over_table q : path_ok q -> table_at m' p4 q = table_at m p4 q.
Proof.
  intros Hq. apply table_at_ext. intros pre j post -> t' Ht'.
  pose proof (path_ok_prefix _ _ Hq) as Hpre. rewrite (over_entry pre j t') by done.
  destruct (decide (pre = path /\ j = i)) as [[-> ->]|]; [|done].
  assert (t' = t) as -> by (unfold m in Ht'; congruence). apply Hkeep.
  destruct Hq as [_ Hl]. rewrite length_app in Hl. simpl in Hl. lia.
Qed.

Lemma over_tree_ok : tree_ok p4 (mkVM m' (vm_frames s)).
Proof.
  split; simpl; [| |apply Hok].
  - intros p q t' Hp Hq. rewrite !over_table by done. by apply (tree_inj _ _ Hok).
  - intros p t' Hp. rewrite over_table by done. by apply (tree_used _ _ Hok).
Qed.

Lemma over_leaf q k : path_ok q -> leaf m' p4 q k =
  if decide (q = path /\ k = i) then (if is_present e then Some e else None) else leaf m p4 q k.
Proof.
  intros Hq. unfold leaf. rewrite over_table by done.
  destruct (table_at m p4 q) as [t'|] eqn:E.
  - rewrite (over_entry q k t') by done. by destruct (decide _).
  - destruct (decide _) as [[-> _]|]; [|done]. unfold m in E. congruence.
Qed.

End Overwrite.

(** *** One level of the walk *)

Definition grows (p4 : Z) (s s' : VM S) : Prop :=
  tree_ok p4 s' /\
  (forall q k, path_ok q -> length q = 3%nat -> idx_ok k ->
     leaf (vm_mem s') p4 q k = leaf (vm_mem s) p4 q k) /\
  (forall q t, path_ok q -> table_at (vm_mem s) p4 q = Some t -> table_at (vm_mem s') p4 q = Some t).

Definition no_nx (e : Z) : Prop := Z.testbit e 63 = false.

Lemma next_table_spec force p4 s path t i :
  tree_ok p4 s -> path_ok path -> (length path <= 2)%nat ->
  table_at (vm_mem s) p4 path = Some t -> idx_ok i ->
  match next_table force t i s with
  | (Ok t', s') =>
      grows p4 s s' /\ table_at (vm_mem s') p4 (path ++ [i]) = Some t' /\
      (force = true -> no_nx (entry (vm_mem s') t i)) /\
      (forall p j x, path_ok p -> table_at (vm_mem s) p4 p = Some x -> (p, j) <> (path, i) ->
         entry (vm_mem s') x j = entry (vm_mem s) x j)
  | (Err e, s') =>
      e = OutOfMemory /\ fs_free (vm_frames s) = ∅ /\ tree_ok p4 s' /\ vm_mem s' = vm_mem s
  end.
Proof.
  intros Hok Hp Hl Ht Hi. unfold next_table.
  destruct (is_present (entry (vm_mem s) t i)) eqn:Epr.
  - assert (forall s' : VM S, vm_mem s' = vm_mem s -> table_at (vm_mem s') p4 (path ++ [i]) =
      Some (physical_address (entry (vm_mem s) t i))) as Htab.
    { intros s' ->. rewrite table_at_app, Ht. simpl. by rewrite Epr. }
    destruct force.
    + set (e' := set_address _ _).
      assert (is_present e' = true /\ physical_address e' = physical_address (entry (vm_mem s) t i)) as [He1 He2].
      { unfold e'. rewrite present_set_address, physical_set_address, physical_address_idem. done. }
      assert ((length path <= 2)%nat -> is_present e' = is_present (entry (vm_mem s) t i) /\
        (is_present (entry (vm_mem s) t i) = true ->
         physical_address e' = physical_address (entry (vm_mem s) t i))) as Hkeep.
      { intros _. by rewrite He1, Epr. }
      repeat apply conj.
      * exact (over_tree_ok p4 s path t i e' Hok Hp Ht Hkeep).
      * intros q k Hq Hlq _. simpl. rewrite (over_leaf p4 s path t i e' Hok Hp Ht Hkeep) by done.
        rewrite decide_False; [done|]. intros [-> _]. lia.
      * intros q x Hq Hqx. simpl. by rewrite (over_table p4 s path t i e' Hok Hp Ht Hkeep).
      * simpl. rewrite (over_table p4 s path t i e' Hok Hp Ht Hkeep) by (by apply path_ok_snoc).
        by apply (Htab s).
      * intros _. simpl. rewrite (over_entry p4 s path t i e' Hok Hp Ht path i t Hp Ht).
        rewrite decide_True by done. unfold no_nx, e'. by rewrite set_address_spec.
      * intros p j x Hpp Hpx Hne. simpl. rewrite (over_entry p4 s path t i e' Hok Hp Ht p j x Hpp Hpx).
        rewrite decide_False; [done|]. intros [-> ->]. done.
    + split; [split; [done|]; split; done|]. split; [by apply Htab|]. split; done.
  - destruct (fs_alloc (vm_frames s)) as [[frame|] f'] eqn:Ea.
    + repeat apply conj.
      * by apply (link_tree_ok p4 s path t i frame f').
      * intros q k Hq Hlq Hk. by apply (link_leaf p4 s path t i frame f').
      * intros q x Hq Hqx. simpl. destruct (extends_dec path i q) as [[rest ->]|Hno].
        -- exfalso. rewrite table_at_app, Ht in Hqx. simpl in Hqx. by rewrite Epr in Hqx.
        -- by rewrite (link_other p4 s path t i frame f').
      * apply (link_new p4 s path t i frame f') with (rest := []); try done. by apply path_ok_snoc.
      * intros _. simpl. rewrite entry_write, decide_True by done.
        unfold no_nx. by rewrite set_address_spec.
      * intros p j x Hpp Hpx Hne. by eapply (link_entry p4 s path t i frame f' Hok Hp) with (p := p).
    + destruct (fs_alloc_none _ _ (tree_frames _ _ Hok) Ea) as (Hf & Hf' & Hok').
      split; [done|]. split; [done|]. split; [|done].
      split; simpl; [apply (tree_inj _ _ Hok)| |done].
      intros p x Hpp Hpx. rewrite Hf'. by apply (tree_used _ _ Hok p x).
Qed.

(** *** The three-level walk *)

Lemma index_ok v k : 0 <= k -> idx_ok (Z.land (Z.shiftr v k) 0x1FF).
Proof.
  intros. unfold idx_ok. change 0x1FF with (Z.ones 9). rewrite Z.land_ones by done.
  by apply Z.mod_pos_bound.
Qed.

Lemma p1_index_ok v : idx_ok (p1_index v).
Proof. by apply index_ok. Qed.

Lemma walk_path_ok v : path_ok (walk_path v).
Proof.
  split; [|simpl; lia]. unfold walk_path.
  repeat (apply Forall_cons; split; [by apply index_ok|]). by apply Forall_nil.
Qed.

Lemma grows_refl p4 s : tree_ok p4 s -> grows p4 s s.
Proof. intros. split; [done|]. split; done. Qed.

Lemma grows_trans p4 s1 s2 s3 : grows p4 s1 s2 -> grows p4 s2 s3 -> grows p4 s1 s3.
Proof.
  intros (_ & Hl1 & Ht1) (Hok & Hl2 & Ht2). split; [done|]. split.
  - intros q k Hq Hlq Hk. rewrite Hl2, Hl1 by done. done.
  - eauto.
Qed.

Lemma grows_same_mem p4 (s s' : VM S) :
  tree_ok p4 s' -> vm_mem s' = vm_mem s -> grows p4 s s'.
Proof. intros Hok Hm. split; [done|]. rewrite Hm. split; done. Qed.

(** Execution is allowed by the three intermediate entries of [v]'s walk. *)
Definition exec_path (m : memory) (p4 v : Z) : Prop :=
  forall pre j post, walk_path v = pre ++ j :: post ->
    forall x, table_at m p4 pre = Some x -> no_nx (entry m x j).

Lemma walk_spec {B} force p4 v (k : Z -> M (VM S) PtError B) s : tree_ok p4 s ->
  let r := (do p3 <- next_table force p4 (p4_index v);
            do p2 <- next_table force p3 (p3_index v);
            do p1 <- next_table force p2 (p2_index v); k p1) s in
  (exists p1 s1, grows p4 s s1 /\ table_at (vm_mem s1) p4 (walk_path v) = Some p1 /\
     (force = true -> exec_path (vm_mem s1) p4 v) /\ r = k p1 s1) \/
  (exists s1, grows p4 s s1 /\ r = (Err OutOfMemory, s1)).
Proof.
  intros Hok. unfold bindM.
  pose proof (walk_path_ok v) as Hw. unfold walk_path in Hw.
  assert (path_ok [] /\ path_ok [p4_index v] /\ path_ok [p4_index v; p3_index v]) as (Hp0 & Hp1 & Hp2).
  { split; [by split; [apply Forall_nil|simpl; lia]|].
    split; [by apply (path_ok_prefix [_] [p3_index v; p2_index v])|
            by apply (path_ok_prefix [_; _] [p2_index v])]. }
  assert (idx_ok (p4_index v) /\ idx_ok (p3_index v) /\ idx_ok (p2_index v)) as (Hi4 & Hi3 & Hi2)
    by (repeat split; apply index_ok; done).
  pose proof (next_table_spec force p4 s [] p4 (p4_index v) Hok Hp0 ltac:(simpl; lia) eq_refl Hi4) as H1.
  destruct (next_table force p4 (p4_index v) s) as [[p3|e] s1].
  2:{ right. exists s1. destruct H1 as (-> & _ & Hok1 & Hm). split; [by apply grows_same_mem|done]. }
  destruct H1 as (Hg1 & Ht1 & Hx1 & _). simpl in Ht1.
  pose proof (next_table_spec force p4 s1 [p4_index v] p3 (p3_index v) (proj1 Hg1) Hp1
                ltac:(simpl; lia) Ht1 Hi3) as H2.
  destruct (next_table force p3 (p3_index v) s1) as [[p2|e] s2].
  2:{ right. exists s2. destruct H2 as (-> & _ & Hok2 & Hm). split; [|done].
      eapply grows_trans; [done|by apply grows_same_mem]. }
  destruct H2 as (Hg2 & Ht2 & Hx2 & He2). simpl in Ht2.
  pose proof (next_table_spec force p4 s2 [p4_index v; p3_index v] p2 (p2_index v) (proj1 Hg2) Hp2
                ltac:(simpl; lia) Ht2 Hi2) as H3.
  destruct (next_table force p2 (p2_index v) s2) as [[p1|e] s3].
  2:{ right. exists s3. destruct H3 as (-> & _ & Hok3 & Hm). split; [|done].
      eapply grows_trans; [done|]. eapply grows_trans; [done|by apply grows_same_mem]. }
  destruct H3 as (Hg3 & Ht3 & Hx3 & He3). left. exists p1, s3.
  pose proof (proj2 (proj2 Hg2) _ _ Hp1 Ht1) as Ht1'.
  split; [eapply grows_trans; [done|by eapply grows_trans]|].
  split; [done|]. split; [|done].
  intros Hf pre j post Hpre x Hx. unfold walk_path in Hpre.
  destruct pre as [|a [|b [|c pre]]]; simplify_eq/=.
  - rewrite (He3 [] _ _ Hp0 eq_refl), (He2 [] _ _ Hp0 eq_refl) by done. by apply Hx1.
  - pose proof (proj2 (proj2 Hg3) _ _ Hp1 Ht1') as Ht1''. simpl in Ht1''.
    assert (x = p3) as -> by congruence.
    rewrite (He3 [p4_index v] _ _ Hp1 Ht1') by done. by apply Hx2.
  - pose proof (proj2 (proj2 Hg3) _ _ Hp2 Ht2) as Ht2'. simpl in Ht2'.
    assert (x = p2) as -> by congruence. by apply Hx3.
  - by destruct pre.
Qed.

(** ** Translations *)

Lemma translate_leaf p4 v (s : VM S) :
  translate p4 v s = physical_address <$> leaf (vm_mem s) p4 (walk_path v) (p1_index v).
Proof.
  unfold translate, leaf, walk_path. cbn [table_at].
  destruct (is_present (entry (vm_mem s) p4 _)); [cbn [negb]|done].
  destruct (is_present (entry (vm_mem s) _ (p3_index v))); [cbn [negb]|done].
  destruct (is_present (entry (vm_mem s) _ (p2_index v))); [cbn [negb]|done].
  destruct (is_present _); [|done]. by rewrite translate_mask.
Qed.

(** Two addresses lie in the same 4 KiB page of the 48-bit space. *)
Definition same_page (v w : Z) : Prop := walk_path v = walk_path w /\ p1_index v = p1_index w.

Lemma grows_translate p4 (s s' : VM S) v : grows p4 s s' -> translate p4 v s' = translate p4 v s.
Proof.
  intros (_ & Hl & _). rewrite !translate_leaf, Hl; [done|apply walk_path_ok|done|apply p1_index_ok].
Qed.

(** Writing the leaf entry of [v] through a walk that reached its table. *)
Lemma leaf_write_spec p4 (s : VM S) v p1 e :
  tree_ok p4 s -> table_at (vm_mem s) p4 (walk_path v) = Some p1 ->
  let s' := mkVM (write_entry p1 (p1_index v) e (vm_mem s)) (vm_frames s) in
  tree_ok p4 s' /\
  (forall q k, path_ok q -> leaf (vm_mem s') p4 q k =
     if decide (q = walk_path v /\ k = p1_index v)
     then (if is_present e then Some e else None) else leaf (vm_mem s) p4 q k) /\
  (forall w, same_page v w ->
     translate p4 w s' = if is_present e then Some (physical_address e) else None) /\
  (forall w, ~ same_page v w -> translate p4 w s' = translate p4 w s).
Proof.
  intros Hok Ht. cbv zeta. pose proof (walk_path_ok v) as Hw.
  assert ((length (walk_path v) <= 2)%nat -> is_present e = is_present (entry (vm_mem s) p1 (p1_index v)) /\
    (is_present (entry (vm_mem s) p1 (p1_index v)) = true ->
     physical_address e = physical_address (entry (vm_mem s) p1 (p1_index v)))) as Hkeep by (simpl; lia).
  pose proof (over_leaf p4 s (walk_path v) p1 (p1_index v) e Hok Hw Ht Hkeep) as Hleaf.
  split; [exact (over_tree_ok p4 s (walk_path v) p1 (p1_index v) e Hok Hw Ht Hkeep)|].
  split; [exact Hleaf|]. split.
  - intros w [Hp Hi]. rewrite translate_leaf. simpl. rewrite Hleaf by apply walk_path_ok.
    rewrite decide_True by done. by destruct (is_present e).
  - intros w Hn. rewrite !translate_leaf. simpl. rewrite Hleaf by apply walk_path_ok.
    rewrite decide_False; [done|]. intros [? ?]. by apply Hn.
Qed.

Lemma leaf_table p4 (s : VM S) v p1 : table_at (vm_mem s) p4 (walk_path v) = Some p1 ->
  translate p4 v s = if is_present (entry (vm_mem s) p1 (p1_index v))
                     then Some (physical_address (entry (vm_mem s) p1 (p1_index v))) else None.
Proof. intros Ht. rewrite translate_leaf. unfold leaf. rewrite Ht. by destruct (is_present _). Qed.

End Invariant.

(** ** Correctness of the manager *)

Section Correctness.
Context {S : Type} `{FS : FrameSource S}.

Lemma new_p4_tree_ok (s s' : VM S) p4 :
  fs_ok (vm_frames s) -> new_p4 s = (Ok (Some p4), s') ->
  tree_ok p4 s' /\ forall v, translate p4 v s' = None.
Proof.
  unfold new_p4. intros Hok. destruct (fs_alloc (vm_frames s)) as [[p|] f'] eqn:Ea; [|done].
  intros H. simplify_eq. destruct (fs_alloc_some _ _ _ Hok Ea) as (Hin & Hfree & Hok').
  assert (forall q t, path_ok q -> table_at (zero_table p4 (vm_mem s)) p4 q = Some t -> q = [] /\ t = p4) as Hnil.
  { intros [|i q] t [Hq _] Ht; simpl in Ht; [by simplify_eq|].
    apply Forall_cons in Hq as [Hi _]. rewrite entry_zero in Ht.
    by rewrite decide_True in Ht by (split; [done|exact Hi]). }
  split; [split; simpl|].
  - intros q r t Hq Hr Ht Ht'. destruct (Hnil q t Hq Ht), (Hnil r t Hr Ht'). congruence.
  - intros q t Hq Ht. destruct (Hnil q t Hq Ht) as [_ ->]. rewrite Hfree. set_solver.
  - done.
  - intros v. rewrite translate_leaf. unfold leaf. cbn [vm_mem].
    destruct (table_at (zero_table p4 (vm_mem s)) p4 (walk_path v)) as [t|] eqn:E; [|done].
    destruct (Hnil _ t (walk_path_ok v) E) as [? _]. done.
Qed.

Lemma present_flags_entry phys flags : page_addr phys -> is_present flags = true ->
  is_present (set_address phys flags) = true /\ physical_address (set_address phys flags) = phys.
Proof. intros Hp Hf. by rewrite present_set_address, physical_set_address. Qed.

Lemma map_meets_spec p4 v phys flags (s : VM S) :
  tree_ok p4 s -> page_addr phys -> is_present flags = true ->
  match map p4 v phys flags s with
  | (Ok _, s') =>
      translate p4 v s = None /\ tree_ok p4 s' /\
      (forall w, same_page v w -> translate p4 w s' = Some phys) /\
      (forall w, ~ same_page v w -> translate p4 w s' = translate p4 w s)
  | (Err e, s') =>
      tree_ok p4 s' /\ (forall w, translate p4 w s' = translate p4 w s) /\
      (e = OutOfMemory \/ e = PageAlreadyMapped /\ is_Some (translate p4 v s))
  end.
Proof.
  intros Hok Hp Hf. destruct (present_flags_entry phys flags Hp Hf) as [He1 He2].
  destruct (walk_spec false p4 v (fun p1 s => if is_present (entry (vm_mem s) p1 (p1_index v))
      then throw PageAlreadyMapped s
      else vm_write p1 (p1_index v) (set_address phys flags) s) s Hok)
    as [(p1 & s1 & Hg & Ht & _ & Hr)|(s1 & Hg & Hr)]; unfold map; rewrite Hr.
  - pose proof (grows_translate p4 s s1 v Hg) as Htr. rewrite (leaf_table _ _ _ _ Ht) in Htr.
    destruct (is_present (entry (vm_mem s1) p1 (p1_index v))) eqn:Epr; simpl.
    + split; [apply Hg|]. split; [intros w; by apply grows_translate|]. right. rewrite <- Htr. eauto.
    + destruct (leaf_write_spec p4 s1 v p1 (set_address phys flags) (proj1 Hg) Ht)
        as (Hok' & _ & Hsame & Hother).
      split; [done|]. split; [done|]. split.
      * intros w Hw. rewrite (Hsame w Hw), He1, He2. done.
      * intros w Hw. rewrite (Hother w Hw). by apply grows_translate.
  - split; [apply Hg|]. split; [intros w; by apply grows_translate|]. by left.
Qed.

(** C3: [map] on a free page makes exactly that page translate to the frame and
    leaves every other translation alone; on an error (the page is already
    mapped, or no frame is left for a table) no translation changes. *)
Theorem map_correct p4 v phys flags (s : VM S) :
  tree_ok p4 s -> page_addr phys -> is_present flags = true ->
  match map p4 v phys flags s with
  | (Ok _, s') =>
      translate p4 v s = None /\ tree_ok p4 s' /\
      (forall w, same_page v w -> translate p4 w s' = Some phys) /\
      (forall w, ~ same_page v w -> translate p4 w s' = translate p4 w s)
  | (Err e, s') =>
      tree_ok p4 s' /\ (forall w, translate p4 w s' = translate p4 w s) /\
      (e = OutOfMemory \/ e = PageAlreadyMapped /\ is_Some (translate p4 v s))
  end.
Proof. intros. by apply map_meets_spec. Qed.

(** [unmap] succeeds exactly on mapped pages, returns their frame, and after
    it only that page's translation is gone; on an error nothing changes. *)
Theorem unmap_correct p4 v (s : VM S) : tree_ok p4 s ->
  match unmap p4 v s with
  | (Ok phys, s') =>
      translate p4 v s = Some phys /\ tree_ok p4 s' /\
      (forall w, same_page v w -> translate p4 w s' = None) /\
      (forall w, ~ same_page v w -> translate p4 w s' = translate p4 w s)
  | (Err _, s') => translate p4 v s = None /\ s' = s
  end.
Proof.
  intros Hok. unfold unmap, translate at 1 5.
  destruct (is_present (entry (vm_mem s) p4 (p4_index v))) eqn:E4; cbn [negb throw]; [|done].
  destruct (is_present (entry (vm_mem s) _ (p3_index v))) eqn:E3; cbn [negb throw]; [|done].
  destruct (is_present (entry (vm_mem s) _ (p2_index v))) eqn:E2; cbn [negb throw]; [|done].
  set (t := physical_address (entry (vm_mem s) _ (p2_index v))) in *.
  destruct (is_present (entry (vm_mem s) t (p1_index v))) eqn:E1; cbn [negb throw]; [|done].
  assert (table_at (vm_mem s) p4 (walk_path v) = Some t) as Ht.
  { unfold walk_path. cbn [table_at]. rewrite E4, E3, E2. done. }
  set (e := set_present false (entry (vm_mem s) t (p1_index v))).
  assert (is_present e = false) as He.
  { unfold e, set_present. rewrite is_present_bit, Z.land_spec. change (Z.testbit (wnot 64 PRESENT) 0) with false.
    apply andb_false_r. }
  destruct (leaf_write_spec p4 s v t e Hok Ht) as (Hok' & _ & Hsame & Hother).
  cbn [bindM vm_write ret]. split; [|split; [done|split; [|done]]].
  - f_equal. rewrite translate_mask. unfold PhysAddr_new. change 0x000FFFFFFFFFF000 with ADDR_MASK.
    by rewrite physical_address_idem.
  - intros w Hw. by rewrite (Hsame w Hw), He.
Qed.

(** [map_executable] maps the page to the frame whatever was there, leaves the
    other pages alone, and clears the no-execute bit on all four levels of the walk. *)
Theorem map_executable_correct p4 v phys flags (s s' : VM S) :
  tree_ok p4 s -> page_addr phys -> is_present flags = true ->
  map_executable p4 v phys flags s = (Ok tt, s') ->
  tree_ok p4 s' /\ exec_path (vm_mem s') p4 v /\
  (forall e, leaf (vm_mem s') p4 (walk_path v) (p1_index v) = Some e -> no_nx e) /\
  (forall w, same_page v w -> translate p4 w s' = Some phys) /\
  (forall w, ~ same_page v w -> translate p4 w s' = translate p4 w s).
Proof.
  intros Hok Hp Hf. set (fl := Z.land flags (wnot 64 NO_EXECUTE)).
  assert (is_present fl = true) as Hfl.
  { unfold fl. rewrite is_present_bit in *. rewrite Z.land_spec, Hf. by vm_compute. }
  assert (no_nx (set_address phys fl)) as Hnx.
  { unfold no_nx. rewrite set_address_spec by done. unfold fl.
    change (63 <? 12) with false. change (63 <? 52) with false. change (63 =? 63) with true.
    cbn match. rewrite Z.land_spec.
    change (Z.testbit (wnot 64 NO_EXECUTE) 63) with false. apply andb_false_r. }
  destruct (present_flags_entry phys fl Hp Hfl) as [He1 He2].
  destruct (walk_spec true p4 v (fun p1 => vm_write p1 (p1_index v) (set_address phys fl)) s Hok)
    as [(p1 & s1 & Hg & Ht & Hx & Hr)|(s1 & Hg & Hr)]; unfold map_executable; fold fl; rewrite Hr; [|done].
  unfold vm_write. intros H. simplify_eq.
  destruct (leaf_write_spec p4 s1 v p1 (set_address phys fl) (proj1 Hg) Ht) as (Hok' & Hl & Hsame & Hother).
  split; [done|]. split; [|split; [|split]].
  - intros pre j post Hpre x Hx'. assert (path_ok pre) as Hpp.
    { apply (path_ok_prefix pre (j :: post)). rewrite <- Hpre. apply walk_path_ok. }
    assert (length pre <= 2)%nat as Hpl.
    { apply (f_equal length) in Hpre. rewrite length_app in Hpre. simpl in Hpre. lia. }
    assert (table_at (vm_mem s1) p4 pre = Some x) as Hxs.
    { cbn [vm_mem] in Hx'. rewrite (over_table p4 s1 (walk_path v) p1 _ _ (proj1 Hg) (walk_path_ok v) Ht) in Hx';
        [done|simpl; lia|done]. }
    cbn [vm_mem]. rewrite (over_entry p4 s1 (walk_path v) p1 _ _ (proj1 Hg) (walk_path_ok v) Ht pre j x Hpp Hxs).
    rewrite decide_False; [by eapply Hx|]. intros [-> _]. simpl in Hpl. lia.
  - intros e. rewrite Hl by apply walk_path_ok. rewrite decide_True, He1 by done. by intros [= <-].
  - intros w Hw. by rewrite (Hsame w Hw), He1, He2.
  - intros w Hw. rewrite (Hother w Hw). by apply grows_translate.
Qed.

(** The page-aligned target of a mapping is a page address. *)
Lemma PhysAddr_new_page a : page_addr (PhysAddr_new a).
Proof. unfold page_addr, PhysAddr_new. change 0x000FFFFFFFFFF000 with ADDR_MASK. by rewrite <- Z.land_assoc. Qed.

Definition mmio_virt (hhdm phys_addr i : Z) : Z :=
  (Z.land phys_addr (wnot 64 0xFFF) +[64] (i *[64] PAGE_SIZE)) +[64] hhdm.

(** Translations only ever gain pages. *)
Definition extends (p4 : Z) (s s' : VM S) : Prop :=
  forall w p, translate p4 w s = Some p -> translate p4 w s' = Some p.

Lemma mmio_page_spec hhdm p4 phys_addr i (s s' : VM S) : tree_ok p4 s ->
  mmio_page hhdm p4 phys_addr i s = (Ok tt, s') ->
  tree_ok p4 s' /\ extends p4 s s' /\ is_Some (translate p4 (mmio_virt hhdm phys_addr i) s').
Proof.
  intros Hok. unfold mmio_page. fold (mmio_virt hhdm phys_addr i).
  destruct (translate p4 (mmio_virt hhdm phys_addr i) s) as [p|] eqn:E.
  - intros H. simplify_eq. split; [done|]. split; [by intros ? ?|]. eauto.
  - set (ph := PhysAddr_new _).
    pose proof (map_meets_spec p4 (mmio_virt hhdm phys_addr i) ph MMIO_FLAGS s Hok
                  (PhysAddr_new_page _) eq_refl) as Hm.
    intros H. rewrite H in Hm. destruct Hm as (_ & Hok' & Hsame & Hother).
    split; [done|]. split; [|rewrite Hsame by done; eauto].
    intros w q Hq. rewrite Hother; [done|]. intros [Hw Hi].
    rewrite translate_leaf, <- Hw, <- Hi, <- translate_leaf in Hq. congruence.
Qed.

(** When [map_mmio] succeeds, every page of the range is mapped in the direct
    map, and every translation that existed before is unchanged. *)
Theorem map_mmio_correct hhdm p4 phys_addr size (s s' : VM S) : tree_ok p4 s ->
  map_mmio hhdm p4 phys_addr size s = (Ok tt, s') ->
  tree_ok p4 s' /\ extends p4 s s' /\
  forall i, 0 <= i < (size +[64] (PAGE_SIZE - 1)) / PAGE_SIZE ->
    is_Some (translate p4 (mmio_virt hhdm phys_addr i) s').
Proof.
  intros Hok Hm. unfold map_mmio in Hm.
  assert (forall l s, tree_ok p4 s -> mmio_pages hhdm p4 phys_addr l s = (Ok tt, s') ->
    tree_ok p4 s' /\ extends p4 s s' /\
    forall i, i ∈ l -> is_Some (translate p4 (mmio_virt hhdm phys_addr i) s')) as Hl.
  { clear. induction l as [|i l IH]; intros s Hok; cbn [mmio_pages].
    - unfold ret. intros H. simplify_eq. split; [done|]. split; [by intros ? ?|]. by intros i ?%not_elem_of_nil.
    - intros H. apply bindM_ok in H as ([] & s1 & H1 & H2).
      destruct (mmio_page_spec _ _ _ _ _ _ Hok H1) as (Hok1 & He1 & [p Hp]).
      destruct (IH s1 Hok1 H2) as (Hok2 & He2 & Hs2). split; [done|].
      split; [unfold extends in *; eauto|]. intros j [->|Hj]%elem_of_cons; eauto. }
  destruct (Hl _ _ Hok Hm) as (Hok' & He & Hs). split; [done|]. split; [done|].
  intros i Hi. apply Hs, elem_of_seqZ. lia.
Qed.

(** [translate] does not add the page offset: all addresses of a page
    translate to the same, page-aligned, physical address. *)
Theorem translate_drops_offset p4 v w p (s : VM S) :
  same_page v w -> translate p4 v s = Some p ->
  translate p4 w s = Some p /\ p mod PAGE_SIZE = 0.
Proof.
  intros [Hp Hi] Ht. split; [by rewrite translate_leaf, <- Hp, <- Hi, <- translate_leaf|].
  rewrite translate_leaf in Ht. destruct (leaf _ _ _ _) as [e|]; simplify_eq/=.
  apply Z.bits_inj'. intros j Hj. rewrite Z.testbit_0_l. change PAGE_SIZE with (2 ^ 12).
  destruct (Z.lt_ge_cases j 12); [|by rewrite Z.mod_pow2_bits_high by lia].
  rewrite Z.mod_pow2_bits_low by lia. unfold physical_address.
  rewrite Z.land_spec, ADDR_MASK_spec by lia. destruct (Z.leb_spec 12 j); [lia|]. by rewrite andb_false_r.
Qed.

End Correctness.

(** A page-table entry keeps the page address and the flags it was built
    from: the address bits 12..51 and the flag bits 0..11 and 63 never mix. *)
Theorem entry_roundtrip addr flags :
  physical_address (set_address addr flags) = Z.land addr ADDR_MASK /\
  flags_of (set_address addr flags) = flags_of flags /\
  is_present (set_address addr flags) = is_present flags.
Proof. by rewrite physical_set_address, flags_set_address, present_set_address. Qed.

(** ** Witnesses: a machine with sixteen usable pages at 2 MiB *)

Definition demo_map : list MemoryMapEntry := [mkEntry 0x200000 0x10000 true].
Definition demo_boot : VM FrameAllocator := mkVM ∅ (init demo_map new).
Definition demo_p4 : Z := 0x200000.
Definition demo : VM FrameAllocator := (new_p4 demo_boot).2.
Definition demo_flags : Z := Z.lor PRESENT WRITABLE.

Lemma demo_boot_ok : fs_ok (vm_frames demo_boot).
Proof.
  refine (proj1 (init_meets_spec demo_map new new_wf _)). apply Forall_singleton. by vm_compute.
Qed.

Lemma demo_new : new_p4 demo_boot = (Ok (Some demo_p4), demo).
Proof. unfold demo. apply (pair_fst (new_p4 demo_boot)). by vm_compute. Qed.

Lemma demo_ok : tree_ok demo_p4 demo.
Proof. exact (proj1 (new_p4_tree_ok _ _ _ demo_boot_ok demo_new)). Qed.

Definition demo1 : VM FrameAllocator := (map demo_p4 0x400000 0x20F000 demo_flags demo).2.

Lemma demo_map_ok : map demo_p4 0x400000 0x20F000 demo_flags demo = (Ok tt, demo1).
Proof. unfold demo1. apply (pair_fst (map demo_p4 0x400000 0x20F000 demo_flags demo)). by vm_compute. Qed.

Lemma demo1_ok : tree_ok demo_p4 demo1.
Proof.
  pose proof (map_meets_spec demo_p4 0x400000 0x20F000 demo_flags demo demo_ok eq_refl eq_refl) as H.
  rewrite demo_map_ok in H. apply H.
Qed.

Lemma map_correct_witness :
  translate demo_p4 0x400000 demo = None /\ tree_ok demo_p4 demo1 /\
  (forall w, same_page 0x400000 w -> translate demo_p4 w demo1 = Some 0x20F000) /\
  (forall w, ~ same_page 0x400000 w -> translate demo_p4 w demo1 = translate demo_p4 w demo).
Proof.
  pose proof (map_correct demo_p4 0x400000 0x20F000 demo_flags demo demo_ok eq_refl eq_refl) as H.
  rewrite demo_map_ok in H. exact H.
Defined.

Lemma unmap_correct_witness : (unmap demo_p4 0x400000 demo1).1 = Ok 0x20F000 /\
  match unmap demo_p4 0x400000 demo1 with
  | (Ok phys, s') =>
      translate demo_p4 0x400000 demo1 = Some phys /\ tree_ok demo_p4 s' /\
      (forall w, same_page 0x400000 w -> translate demo_p4 w s' = None) /\
      (forall w, ~ same_page 0x400000 w -> translate demo_p4 w s' = translate demo_p4 w demo1)
  | (Err _, s') => translate demo_p4 0x400000 demo1 = None /\ s' = demo1
  end.
Proof. split; [by vm_compute|exact (unmap_correct demo_p4 0x400000 demo1 demo1_ok)]. Defined.

Definition demo2 : VM FrameAllocator :=
  (map_executable demo_p4 0x400000 0x20E000 (Z.lor demo_flags NO_EXECUTE) demo1).2.

Lemma map_executable_correct_witness :
  tree_ok demo_p4 demo2 /\ exec_path (vm_mem demo2) demo_p4 0x400000 /\
  (forall e, leaf (vm_mem demo2) demo_p4 (walk_path 0x400000) (p1_index 0x400000) = Some e -> no_nx e) /\
  (forall w, same_page 0x400000 w -> translate demo_p4 w demo2 = Some 0x20E000) /\
  (forall w, ~ same_page 0x400000 w -> translate demo_p4 w demo2 = translate demo_p4 w demo1).
Proof.
  apply (map_executable_correct demo_p4 0x400000 0x20E000 (Z.lor demo_flags NO_EXECUTE) demo1 demo2
           demo1_ok); [by vm_compute|by vm_compute|].
  unfold demo2. apply (pair_fst (map_executable _ _ _ _ _)). by vm_compute.
Defined.

Definition demo_hhdm : Z := 0xFFFF800000000000.
Definition demo3 : VM FrameAllocator := (map_mmio demo_hhdm demo_p4 0xFEE00010 0x1800 demo1).2.

Lemma map_mmio_correct_witness :
  tree_ok demo_p4 demo3 /\ extends demo_p4 demo1 demo3 /\
  forall i, 0 <= i < (0x1800 +[64] (PAGE_SIZE - 1)) / PAGE_SIZE ->
    is_Some (translate demo_p4 (mmio_virt demo_hhdm 0xFEE00010 i) demo3).
Proof.
  apply (map_mmio_correct demo_hhdm demo_p4 0xFEE00010 0x1800 demo1 demo3 demo1_ok).
  unfold demo3. apply (pair_fst (map_mmio _ _ _ _ _)). by vm_compute.
Defined.

Lemma translate_drops_offset_witness :
  translate demo_p4 0x400123 demo1 = Some 0x20F000 /\ 0x20F000 mod PAGE_SIZE = 0.
Proof.
  apply (translate_drops_offset demo_p4 0x400000 0x400123 0x20F000 demo1); [by vm_compute|].
  by vm_compute.
Defined.
