(* ===== verification/Mapping.v ===== *)
(** * Fresh pages

    The step that the region allocator, the loaders and the process spawner share:
    take a frame, perhaps clear it, and map a page to it.  Over [Paging] and any
    frame source. *)

From Stdlib Require Import ZArith Lia Bool.
From stdpp Require Import base numbers option list gmap sets.
From S2P Require Import Prelude Frame Paging.

Open Scope Z_scope.

Section Fresh.
Context {S : Type} `{FS : FrameSource S}.

(** [allocate_frame().ok_or("Out of memory")]. *)
Definition fresh_frame : M (VM S) PtError Z := fun s =>
  match fs_alloc (vm_frames s) with
  | (Some p, f) => (Ok p, mkVM (vm_mem s) f)
  | (None, f) => (Err OutOfMemory, mkVM (vm_mem s) f)
  end.

Definition map_fresh (p4 flags virt : Z) : M (VM S) PtError Z :=
  do frame <- fresh_frame;
  do_ map p4 virt frame flags;
  ret frame.

(** One page after another; the frames in order. *)
Fixpoint map_all (p4 flags : Z) (virts : list Z) : M (VM S) PtError (list Z) :=
  match virts with
  | [] => ret []
  | v :: rest => do frame <- map_fresh p4 flags v; do frames <- map_all p4 flags rest; ret (frame :: frames)
  end.

Lemma fresh_frame_spec p4 (s : VM S) : tree_ok p4 s ->
  match fresh_frame s with
  | (Ok p, s') => p ∈ fs_free (vm_frames s) /\ p ∉ fs_free (vm_frames s') /\ fs_free (vm_frames s') ⊆ fs_free (vm_frames s) /\
                  page_addr p /\ tree_ok p4 s' /\ vm_mem s' = vm_mem s
  | (Err e, s') => e = OutOfMemory /\ fs_free (vm_frames s) = ∅ /\ tree_ok p4 s' /\ vm_mem s' = vm_mem s
  end.
Proof.
  intros [H1 H2 H3]. unfold fresh_frame. destruct (fs_alloc (vm_frames s)) as [[p|] f] eqn:E.
  - destruct (fs_alloc_some _ _ _ H3 E) as (Hin & Ef & Hok). destruct (fs_page _ _ H3 Hin) as [Hr Hm].
    cbn [vm_frames vm_mem]. rewrite Ef. split; [done|]. split; [set_solver|]. split; [set_solver|].
    split; [by apply page_addr_of|]. split; [|done]. constructor; cbn [vm_frames vm_mem]; [done| |done].
    intros q t Hq Ht. specialize (H2 q t Hq Ht). rewrite Ef. set_solver.
  - destruct (fs_alloc_none _ _ H3 E) as (He & Ef & Hok). split; [done|]. split; [done|]. split; [|done].
    constructor; cbn [vm_frames vm_mem]; [done| |done]. intros q t Hq Ht. rewrite Ef. by apply (H2 q t).
Qed.

(** Mapping only uses frames up. *)
Lemma next_table_frames force (s : VM S) t i : fs_ok (vm_frames s) ->
  fs_ok (vm_frames (next_table force t i s).2) /\ fs_free (vm_frames (next_table force t i s).2) ⊆ fs_free (vm_frames s).
Proof.
  intros Hok. unfold next_table. destruct (is_present _); [by destruct force|].
  destruct (fs_alloc (vm_frames s)) as [[p|] f] eqn:E; cbn [snd vm_frames].
  - destruct (fs_alloc_some _ _ _ Hok E) as (_ & -> & Hok'). split; [done|set_solver].
  - destruct (fs_alloc_none _ _ Hok E) as (_ & -> & Hok'). done.
Qed.

Lemma map_frames p4 v phys flags (s : VM S) : fs_ok (vm_frames s) ->
  fs_ok (vm_frames (map p4 v phys flags s).2) /\ fs_free (vm_frames (map p4 v phys flags s).2) ⊆ fs_free (vm_frames s).
Proof.
  intros Hok. unfold map, bindM. destruct (next_table_frames false s p4 (p4_index v) Hok) as [O1 F1].
  destruct (next_table false p4 (p4_index v) s) as [[t1|e] s1]; [|done]. cbn [snd] in *.
  destruct (next_table_frames false s1 t1 (p3_index v) O1) as [O2 F2].
  destruct (next_table false t1 (p3_index v) s1) as [[t2|e] s2]; cbn [snd] in *; [|split; [done|set_solver]].
  destruct (next_table_frames false s2 t2 (p2_index v) O2) as [O3 F3].
  destruct (next_table false t2 (p2_index v) s2) as [[t3|e] s3]; cbn [snd] in *; [|split; [done|set_solver]].
  destruct (is_present _); cbn; (split; [done|set_solver]).
Qed.

(** What a successful [map_fresh] has done. *)
Lemma map_fresh_spec p4 flags v (s : VM S) : tree_ok p4 s -> is_present flags = true ->
  match map_fresh p4 flags v s with
  | (Ok p, s') => tree_ok p4 s' /\ page_addr p /\ p ∈ fs_free (vm_frames s) /\ p ∉ fs_free (vm_frames s') /\
                  fs_free (vm_frames s') ⊆ fs_free (vm_frames s) /\ translate p4 v s = None /\
                  (forall w, same_page v w -> translate p4 w s' = Some p) /\
                  (forall w, ~ same_page v w -> translate p4 w s' = translate p4 w s)
  | (Err e, s') => tree_ok p4 s' /\ (forall w, translate p4 w s' = translate p4 w s) /\
                   (e = OutOfMemory \/ e = PageAlreadyMapped /\ is_Some (translate p4 v s))
  end.
Proof.
  intros Hok Hf. unfold map_fresh, bindM. pose proof (fresh_frame_spec p4 s Hok) as H1.
  destruct (fresh_frame s) as [[p|e] s1].
  - destruct H1 as (Hin & Hout & Hsub & Hp & Hok1 & Em). pose proof (map_meets_spec p4 v p flags s1 Hok1 Hp Hf) as H2.
    pose proof (map_frames p4 v p flags s1 (tree_frames _ _ Hok1)) as [_ H3].
    assert (forall w, translate p4 w s1 = translate p4 w s) as Et by (intros; unfold translate; by rewrite Em).
    destruct (map p4 v p flags s1) as [[[]|e] s2]; cbn [snd] in H3.
    + destruct H2 as (T1 & T2 & T3 & T4). split; [done|]. split; [done|]. split; [done|]. split; [set_solver|]. split; [set_solver|].
      split; [by rewrite <- Et|]. split; [done|]. intros w Hw. by rewrite T4, Et.
    + destruct H2 as (T1 & T2 & T3). split; [done|]. split; [intros w; by rewrite T2, Et|]. by rewrite <- Et.
  - destruct H1 as (-> & _ & Hok1 & Em). split; [done|]. split; [|by left]. intros w. unfold translate. by rewrite Em.
Qed.

Lemma same_page_sym v w : same_page v w -> same_page w v.
Proof. intros [? ?]. by split. Qed.

Lemma same_page_trans u v w : same_page u v -> same_page v w -> same_page u w.
Proof. intros [? ?] [? ?]. split; congruence. Qed.

Lemma same_page_shift v w : Z.shiftr v 12 = Z.shiftr w 12 -> same_page v w.
Proof.
  intros E. assert (forall k, 0 <= k -> Z.shiftr v (12 + k) = Z.shiftr w (12 + k)) as H.
  { intros k Hk. by rewrite <- !Z.shiftr_shiftr, E by lia. }
  split; [|unfold p1_index; by rewrite E]. unfold walk_path, p4_index, p3_index, p2_index.
  pose proof (H 27) as H1. pose proof (H 18) as H2. pose proof (H 9) as H3. change (12 + 27) with 39 in H1. change (12 + 18) with 30 in H2. change (12 + 9) with 21 in H3.
  by rewrite H1, H2, H3 by lia.
Qed.

(** The addresses of the page that starts at [v]. *)
Lemma same_page_offset v off : v mod PAGE_SIZE = 0 -> 0 <= off < PAGE_SIZE -> same_page v (v + off).
Proof.
  unfold PAGE_SIZE. intros Hv Ho. apply same_page_shift. rewrite !Z.shiftr_div_pow2 by lia. change (2 ^ 12) with 4096. Z.to_euclidean_division_equations. lia.
Qed.

(** Below the canonical half, two addresses share a page when they have the same
    page number. *)
Lemma same_page_small v w : 0 <= v < 2 ^ 47 -> 0 <= w < 2 ^ 47 -> same_page v w -> Z.shiftr v 12 = Z.shiftr w 12.
Proof.
  intros Hv Hw [Hp Hi]. unfold walk_path, p4_index, p3_index, p2_index in Hp. injection Hp as H4 H3 H2. unfold p1_index in Hi.
  apply Z.bits_inj'. intros j Hj. rewrite !Z.shiftr_spec by done.
  assert (forall k, 0 <= k -> Z.land (Z.shiftr v k) 0x1FF = Z.land (Z.shiftr w k) 0x1FF -> k <= j + 12 < k + 9 ->
    Z.testbit v (j + 12) = Z.testbit w (j + 12)) as Hbit.
  { intros k Hk E Hr. apply (f_equal (fun x => Z.testbit x (j + 12 - k))) in E. change 0x1FF with (Z.ones 9) in E.
    rewrite !Z.land_spec, !Z.shiftr_spec, Z.ones_spec_low, !andb_true_r in E by lia. by replace (j + 12 - k + k) with (j + 12) in E by lia. }
  destruct (decide (j < 9)); [by apply (Hbit 12); [done|done|lia]|]. destruct (decide (j < 18)); [by apply (Hbit 21); [done|done|lia]|].
  destruct (decide (j < 27)); [by apply (Hbit 30); [done|done|lia]|]. destruct (decide (j < 35)); [by apply (Hbit 39); [done|done|lia]|].
  by rewrite (in_width_testbit 47 v), (in_width_testbit 47 w) by (done || lia).
Qed.

#[global] Instance same_page_dec v w : Decision (same_page v w).
Proof. unfold same_page. apply _. Defined.

Lemma translate_same_page p4 v w (s : VM S) : same_page v w -> translate p4 w s = translate p4 v s.
Proof. intros [Hw Hi]. by rewrite !translate_leaf, Hw, Hi. Qed.

(** Mapping a list of pages: on success each page has its own frame, taken from
    the free ones, no other translation has changed, and the pages were free
    before; on an error, translations that existed are as they were. *)
Lemma map_all_spec p4 flags virts : forall s : VM S, tree_ok p4 s -> is_present flags = true ->
  match map_all p4 flags virts s with
  | (Ok frames, s') =>
      tree_ok p4 s' /\ length frames = length virts /\ NoDup frames /\
      Forall (fun p => page_addr p /\ p ∈ fs_free (vm_frames s) /\ p ∉ fs_free (vm_frames s')) frames /\
      fs_free (vm_frames s') ⊆ fs_free (vm_frames s) /\
      (forall (k : nat) v p w, virts !! k = Some v -> frames !! k = Some p -> same_page v w -> translate p4 w s = None /\ translate p4 w s' = Some p) /\
      (forall w, (forall v, v ∈ virts -> ~ same_page v w) -> translate p4 w s' = translate p4 w s)
  | (Err e, s') => tree_ok p4 s' /\ extends p4 s s'
  end.
Proof.
  induction virts as [|v virts IH]; intros s Hok Hf; cbn [map_all].
  - split; [done|]. split; [done|]. split; [constructor|]. split; [constructor|]. split; [done|]. split; [|done].
    intros k v p w Hk. by rewrite lookup_nil in Hk.
  - unfold bindM. pose proof (map_fresh_spec p4 flags v s Hok Hf) as H1. destruct (map_fresh p4 flags v s) as [[p|e] s1].
    2:{ destruct H1 as (Hok1 & Ht & _). split; [done|]. intros w q Hq. by rewrite Ht. }
    destruct H1 as (Hok1 & Hp & Hin & Hout & Hsub & Hnone & Hsame & Hother).
    specialize (IH s1 Hok1 Hf). destruct (map_all p4 flags virts s1) as [[fr|e] s2].
    + destruct IH as (Hok2 & Hl & Hnd & Hall & Hsub2 & Htr & Hrest). cbn [ret].
      split; [done|]. split; [cbn; lia|]. split; [|split; [|split; [set_solver|split]]].
      * constructor; [|done]. intros Hp'. rewrite Forall_forall in Hall. destruct (Hall _ Hp') as (_ & Hin' & _). done.
      * constructor; [split; [done|split; [done|set_solver]]|]. eapply Forall_impl; [exact Hall|]. cbn. intros x (? & ? & ?). set_solver.
      * assert (forall (k : nat) v', virts !! k = Some v' -> ~ same_page v v') as Hne.
        { intros k v' Hk Hs. destruct (lookup_lt_is_Some_2 fr k) as [p' Hp']; [rewrite Hl; by eapply lookup_lt_Some|].
          destruct (Htr k v' p' v' Hk Hp') as [Hno _]; [done|]. by rewrite (Hsame v' Hs) in Hno. }
        intros [|k] v' p' w Hv' Hp' Hw; cbn in Hv', Hp'; simplify_eq.
        -- split; [by rewrite (translate_same_page p4 v' w s Hw)|]. rewrite Hrest; [by apply Hsame|].
           intros u [k Hk]%list_elem_of_lookup Hu. apply (Hne k u Hk). by apply (same_page_trans v' w u Hw), same_page_sym.
        -- destruct (Htr k v' p' w Hv' Hp' Hw) as [Hn Hs]. split; [|done]. rewrite <- Hn. symmetry. apply Hother.
           intros Hvw. apply (Hne k v' Hv'). by apply (same_page_trans v w v' Hvw), same_page_sym.
      * intros w Hw. rewrite Hrest; [|intros u Hu; apply Hw; by right]. apply Hother, Hw. by left.
    + destruct IH as [Hok2 Hext]. split; [done|]. intros w q Hq. apply Hext. destruct (decide (same_page v w)) as [Hvw|Hvw].
      * rewrite (translate_same_page p4 v w s Hvw), Hnone in Hq. done.
      * by rewrite Hother.
Qed.
End Fresh.
