(* ===== verification/Fractal.v ===== *)
(** * The region allocator ([memory/fractal.rs])

    Regions of virtual memory with coordinates in space; a region can be divided
    into eight, whose coordinates and ranges come from its own.  Regions get their
    pages through [Mapping].  Theorems: regions that are not one inside the other
    never overlap, whatever is allocated, divided and accessed; a successful
    allocation is backed page by page; and a divided region cannot be found by its
    coordinates unless they begin with zero. *)

From Stdlib Require Import ZArith Lia Bool.
From stdpp Require Import base numbers option list gmap sets strings.
From S2P Require Import Prelude Frame Paging Mapping.

Open Scope Z_scope.

Definition MAX_FRACTAL_DEPTH : Z := 8.

(** ** Coordinates *)

Record SpatialCoord : Type := mkCoord { x : Z; y : Z; z : Z; depth : Z }.

#[global] Instance SpatialCoord_eq_dec : EqDecision SpatialCoord.
Proof. solve_decision. Defined.

Definition coord_root : SpatialCoord := mkCoord 0 0 0 0.

(** [u64::rotate_left]. *)
Definition rotate_left (v k : Z) : Z := Z.lor (wrap 64 (Z.shiftl v k)) (Z.shiftr v (64 - k)).

Definition hash (c : SpatialCoord) : Z :=
  let h := x c in
  let h := Z.lxor h (rotate_left (y c) 21) in
  let h := Z.lxor h (rotate_left (z c) 42) in
  Z.lxor h (rotate_left (depth c) 56).

Definition parent (c : SpatialCoord) : option SpatialCoord :=
  if depth c =? 0 then None else Some (mkCoord (x c / 2) (y c / 2) (z c / 2) (depth c - 1)).

Definition child (octant : Z) (c : SpatialCoord) : option SpatialCoord :=
  if MAX_FRACTAL_DEPTH <=? depth c then None
  else
    let offset_x := Z.land octant 1 in
    let offset_y := Z.land (Z.shiftr octant 1) 1 in
    let offset_z := Z.land (Z.shiftr octant 2) 1 in
    Some (mkCoord ((x c *[64] 2) +[64] offset_x) ((y c *[64] 2) +[64] offset_y) ((z c *[64] 2) +[64] offset_z) (depth c +[8] 1)).

(** ** Regions *)

Inductive FractalRegion : Type := mkRegion {
  coord : SpatialCoord;
  base_addr : Z;
  size : Z;
  physical_frames : list Z;
  children : option (list (option FractalRegion));
  access_count : Z;
  last_access : Z
}.

Definition Region_new (c : SpatialCoord) (base size : Z) : FractalRegion := mkRegion c base size [] None 0 0.

Definition set_frames (f : list Z) (r : FractalRegion) : FractalRegion :=
  mkRegion (coord r) (base_addr r) (size r) f (children r) (access_count r) (last_access r).
Definition set_children (cs : option (list (option FractalRegion))) (r : FractalRegion) : FractalRegion :=
  mkRegion (coord r) (base_addr r) (size r) (physical_frames r) cs (access_count r) (last_access r).

(** One round of the loop of [subdivide]. *)
Definition octant_region (r : FractalRegion) (child_size octant : Z) : option FractalRegion :=
  (fun c => Region_new c (base_addr r +[64] (octant *[64] child_size)) child_size) <$> child octant (coord r).

Definition subdivide (r : FractalRegion) : Result FractalRegion string :=
  if MAX_FRACTAL_DEPTH <=? depth (coord r) then Err "Maximum fractal depth reached"%string
  else match children r with
       | Some _ => Err "Already subdivided"%string
       | None =>
           let child_size := size r / 8 in
           if child_size <? PAGE_SIZE then Err "Region too small to subdivide"%string
           else Ok (set_children (Some (octant_region r child_size <$> seqZ 0 8)) r)
       end.

Definition record_access (now : Z) (r : FractalRegion) : FractalRegion :=
  mkRegion (coord r) (base_addr r) (size r) (physical_frames r) (children r) (access_count r +[64] 1) now.

Definition hotness_score (now : Z) (r : FractalRegion) : Z :=
  let accesses := access_count r in
  let time_delta := sat_sub now (last_access r) in
  if time_delta <? 1000 then accesses *[64] 10
  else if time_delta <? 10000 then accesses *[64] 5
  else accesses.

(** ** The allocator *)

Record FractalAllocator : Type := mkAllocator { root_regions : list FractalRegion; next_virt_base : Z }.

Definition Allocator_new : FractalAllocator := mkAllocator [] 0xFFFF900000000000.

Definition REGION_FLAGS : Z := Z.lor (Z.lor PRESENT WRITABLE) NO_EXECUTE.

Section Allocate.
Context {S : Type} `{FS : FrameSource S}.

(** [allocate_backing]: the pages of the region, in order. *)
Definition region_pages (base size : Z) : list Z :=
  (fun i => base +[64] (i *[64] PAGE_SIZE)) <$> seqZ 0 ((size +[64] (PAGE_SIZE - 1)) / PAGE_SIZE).

Definition allocate_backing (p4 : Z) (r : FractalRegion) : M (VM S) PtError FractalRegion :=
  do frames <- map_all p4 REGION_FLAGS (region_pages (base_addr r) (size r));
  ret (set_frames (physical_frames r ++ frames) r).

(** [allocate_region]; the address is used up even when backing fails. *)
Definition allocate_region (p4 sz : Z) (a : FractalAllocator) : VM S -> Result SpatialCoord PtError * FractalAllocator * VM S := fun s =>
  let aligned_size := Z.land (sz +[64] (PAGE_SIZE - 1)) (wnot 64 (PAGE_SIZE - 1)) in
  let base := next_virt_base a in
  let a := mkAllocator (root_regions a) (base +[64] aligned_size) in
  let c := mkCoord (Z.of_nat (length (root_regions a))) 0 0 0 in
  match allocate_backing p4 (Region_new c base aligned_size) s with
  | (Err e, s) => (Err e, a, s)
  | (Ok r, s) => (Ok (coord r), mkAllocator (root_regions a ++ [r]) (next_virt_base a), s)
  end.
End Allocate.

(** *** Finding a region *)

(** The octants on the way to a coordinate, from the top. *)
Definition octant_at (c : SpatialCoord) (d : Z) : Z :=
  let shift := (depth c - d) mod 64 in
  Z.lor (Z.lor (Z.land (Z.shiftr (x c) shift) 1) (Z.shiftl (Z.land (Z.shiftr (y c) shift) 1) 1))
        (Z.shiftl (Z.land (Z.shiftr (z c) shift) 1) 2).

Definition path_to (c : SpatialCoord) : list nat := (fun d => Z.to_nat (octant_at c d)) <$> seqZ 1 (depth c).

(** The loop over the depths. *)
Fixpoint descend (path : list nat) (r : FractalRegion) : option FractalRegion :=
  match path with
  | [] => Some r
  | o :: path =>
      match children r with
      | None => None
      | Some cs => match cs !! o with Some (Some ch) => descend path ch | _ => None end
      end
  end.

Definition find_region (c : SpatialCoord) (a : FractalAllocator) : option FractalRegion :=
  match root_regions a !! Z.to_nat (x c) with None => None | Some r => descend (path_to c) r end.

(** Changing the region that [descend] reaches, as the callers of [find_region]
    do through the reference it returns. *)
Fixpoint change (f : FractalRegion -> FractalRegion) (path : list nat) (r : FractalRegion) : FractalRegion :=
  match path with
  | [] => f r
  | o :: path =>
      match children r with
      | None => r
      | Some cs => match cs !! o with Some (Some ch) => set_children (Some (<[o := Some (change f path ch)]> cs)) r | _ => r end
      end
  end.

Definition change_region (f : FractalRegion -> FractalRegion) (c : SpatialCoord) (a : FractalAllocator) : FractalAllocator :=
  mkAllocator (alter (change f (path_to c)) (Z.to_nat (x c)) (root_regions a)) (next_virt_base a).

(** *** The functions of the module; [None] before [init] *)

Definition allocate_fractal_region {S} `{FrameSource S} (p4 sz : Z) (g : option FractalAllocator) (s : VM S) :
    Result SpatialCoord (option PtError) * option FractalAllocator * VM S :=
  match g with
  | None => (Err None, None, s)
  | Some a => match allocate_region p4 sz a s with
              | (Ok c, a, s) => (Ok c, Some a, s)
              | (Err e, a, s) => (Err (Some e), Some a, s)
              end
  end.

Definition subdivide_region (c : SpatialCoord) (g : option FractalAllocator) : Result unit string * option FractalAllocator :=
  match g with
  | None => (Err "Fractal allocator not initialized"%string, None)
  | Some a =>
      match find_region c a with
      | None => (Err "Region not found"%string, Some a)
      | Some r =>
          match subdivide r with
          | Err e => (Err e, Some a)
          | Ok r' => (Ok tt, Some (change_region (fun _ => r') c a))
          end
      end
  end.

Definition record_access_at (c : SpatialCoord) (now : Z) (g : option FractalAllocator) : option FractalAllocator :=
  (fun a => match find_region c a with Some _ => change_region (record_access now) c a | None => a end) <$> g.

(** The regions that the loops of [get_hot_regions] and [compact_cold_regions]
    visit: the roots, each with its children. *)
Definition visited (a : FractalAllocator) : list FractalRegion :=
  root_regions a ≫= fun r => r :: match children r with Some cs => omap (fun o => o) cs | None => [] end.

Definition get_hot_regions (min_score now : Z) (a : FractalAllocator) : list SpatialCoord :=
  coord <$> filter (fun r => min_score <= hotness_score now r) (visited a).

(** What [compact_cold_regions] counts; it moves nothing. *)
Definition cold (now : Z) (r : FractalRegion) : bool := (hotness_score now r <? 10) && (10000 <? sat_sub now (last_access r)).
Definition compact_cold_regions (now : Z) (a : FractalAllocator) : nat := length (filter (fun r => cold now r = true) (visited a)).

(** [count_children_recursive]: descendants, their sizes, the greatest depth. *)
Fixpoint count_children_recursive (r : FractalRegion) : Z * Z * Z :=
  match children r with
  | None => (0, 0, depth (coord r))
  | Some cs =>
      (fix go (cs : list (option FractalRegion)) (acc : Z * Z * Z) : Z * Z * Z :=
         match cs with
         | [] => acc
         | None :: cs => go cs acc
         | Some ch :: cs =>
             let '(n, mem, d) := acc in
             let '(cn, cm, cd) := count_children_recursive ch in
             go cs (n +[64] (1 +[64] cn), mem +[64] (size ch +[64] cm), if d <? cd then cd else d)
         end) cs (0, 0, depth (coord r))
  end.

Record FractalStats : Type := mkStats { total_regions : Z; total_memory : Z; deepest_depth : Z; next_base : Z }.

Definition stats (a : FractalAllocator) : FractalStats :=
  let '(n, mem, d) :=
    foldl (fun acc r =>
      let '(n, mem, d) := acc in
      let '(cn, cm, cd) := count_children_recursive r in
      let d := if d <? depth (coord r) then depth (coord r) else d in
      ((n +[64] 1) +[64] cn, (mem +[64] size r) +[64] cm, if d <? cd then cd else d)) (0, 0, 0) (root_regions a) in
  mkStats n mem d (next_virt_base a).

(** ** Where regions lie *)

(** The range of the region along a path, and its coordinates. *)
Fixpoint slot (base size : Z) (path : list nat) : Z * Z :=
  match path with
  | [] => (base, size)
  | o :: path => slot (base + Z.of_nat o * (size / 8)) (size / 8) path
  end.

Fixpoint coord_at (c : SpatialCoord) (path : list nat) : SpatialCoord :=
  match path with
  | [] => c
  | o :: path => coord_at (default c (child (Z.of_nat o) c)) path
  end.

Definition octants (path : list nat) : Prop := Forall (fun o => o < 8)%nat path.

(** [r'] is where the region along [path] in [r] belongs. *)
Definition placed (r : FractalRegion) (path : list nat) (r' : FractalRegion) : Prop :=
  (base_addr r', size r') = slot (base_addr r) (size r) path /\ coord r' = coord_at (coord r) path /\ octants path /\
  depth (coord r') = depth (coord r) + Z.of_nat (length path) /\ depth (coord r') <= MAX_FRACTAL_DEPTH.

Definition well_placed (r : FractalRegion) : Prop := forall path r', descend path r = Some r' -> placed r path r'.

Definition in_memory (r : FractalRegion) : Prop := 0 <= base_addr r /\ 0 <= size r /\ base_addr r + size r < 2 ^ 64.

Lemma slot_range path : forall base size, 0 <= size -> octants path ->
  base <= (slot base size path).1 /\ (slot base size path).1 + (slot base size path).2 <= base + size /\ 0 <= (slot base size path).2.
Proof.
  induction path as [|o path IH]; intros base size Hs Ho; cbn [slot]; [cbn; lia|]. inversion_clear Ho as [|? ? Ho1 Ho2].
  assert (0 <= size / 8) as Hd by (apply Z.div_pos; lia). pose proof (Z.mul_div_le size 8 ltac:(lia)).
  specialize (IH (base + Z.of_nat o * (size / 8)) (size / 8) Hd Ho2). nia.
Qed.

Lemma slot_app p q : forall base size, slot base size (p ++ q) = slot (slot base size p).1 (slot base size p).2 q.
Proof. induction p as [|o p IH]; intros base size; cbn; [done|]. by rewrite IH. Qed.

Lemma descend_app p q : forall r, descend (p ++ q) r = match descend p r with Some r' => descend q r' | None => None end.
Proof.
  induction p as [|o p IH]; intros r; cbn [descend app]; [done|]. destruct (children r) as [cs|]; [|done].
  destruct (cs !! o) as [[ch|]|]; [apply IH|done|done].
Qed.

Lemma coord_at_app p q : forall c, coord_at c (p ++ q) = coord_at (coord_at c p) q.
Proof. induction p as [|o p IH]; intros c; cbn; [done|]. by rewrite IH. Qed.

(** Paths that part ways lead to disjoint ranges. *)
Lemma slot_disjoint p : forall q base size, 0 <= size -> octants p -> octants q -> ~ p `prefix_of` q -> ~ q `prefix_of` p ->
  let '(b1, s1) := slot base size p in let '(b2, s2) := slot base size q in b1 + s1 <= b2 \/ b2 + s2 <= b1.
Proof.
  induction p as [|o p IH]; intros [|o' q] base size Hs Hp Hq Hn1 Hn2; [destruct Hn1; apply prefix_nil|destruct Hn1; apply prefix_nil|destruct Hn2; apply prefix_nil|].
  inversion_clear Hp as [|? ? Ho Hp']. inversion_clear Hq as [|? ? Ho' Hq'].
  assert (0 <= size / 8) as Hd by (apply Z.div_pos; lia). cbn [slot].
  destruct (decide (o = o')) as [<-|Hne].
  - apply IH; try done; intros Hpre; [apply Hn1|apply Hn2]; by apply prefix_cons.
  - pose proof (slot_range p (base + Z.of_nat o * (size / 8)) (size / 8) Hd Hp') as H1.
    pose proof (slot_range q (base + Z.of_nat o' * (size / 8)) (size / 8) Hd Hq') as H2.
    destruct (slot _ _ p) as [b1 s1], (slot _ _ q) as [b2 s2]. cbn [fst snd] in *. nia.
Qed.

(** *** The operations keep regions in their places *)

Lemma placed_child r o ch path r' : placed r [o] ch -> placed ch path r' -> placed r (o :: path) r'.
Proof.
  intros (S1 & C1 & O1 & D1 & _) (S2 & C2 & O2 & D2 & M2). cbn [slot coord_at] in *. injection S1 as Hb Hs. unfold placed. cbn [slot coord_at].
  split; [by rewrite S2, Hb, Hs|]. split; [by rewrite C2, C1|]. split; [by constructor; [inversion O1|]|]. cbn [length] in *. lia.
Qed.

Lemma child_placed r o ch path r' : placed r [o] ch -> placed r (o :: path) r' -> octants path -> placed ch path r'.
Proof.
  intros (S1 & C1 & O1 & D1 & _) (S2 & C2 & O2 & D2 & M2) Ho. cbn [slot coord_at] in *. injection S1 as Hb Hs.
  split; [by rewrite S2, Hb, Hs|]. split; [by rewrite C2, C1|]. split; [done|]. cbn [length] in *. lia.
Qed.

(** A change that keeps a region's own place and those inside it. *)
Definition keeps_place (f : FractalRegion -> FractalRegion) (r : FractalRegion) : Prop :=
  coord (f r) = coord r /\ base_addr (f r) = base_addr r /\ size (f r) = size r /\ well_placed (f r).

Lemma descend_self r : well_placed r -> placed r [] r.
Proof. intros H. by apply (H []). Qed.

Lemma change_placed f path : forall r, well_placed r -> (forall r', descend path r = Some r' -> well_placed r' -> keeps_place f r') ->
  descend path r <> None -> keeps_place (change f path) r.
Proof.
  induction path as [|o path IH]; intros r Hr Hf Hd; cbn [change descend] in *; [by apply Hf|].
  destruct (children r) as [cs|] eqn:Ec; [|done]. destruct (cs !! o) as [[ch|]|] eqn:Eo; [|done|done].
  assert (forall q r', descend q ch = Some r' -> descend (o :: q) r = Some r') as Hin by (intros q r' Hq; cbn; by rewrite Ec, Eo).
  assert (placed r [o] ch) as Hch by (apply Hr, Hin; done).
  assert (well_placed ch) as Wch.
  { intros q r' Hq. pose proof (Hr _ _ (Hin _ _ Hq)) as Hp. apply (child_placed r o ch q r' Hch Hp). destruct Hp as (_ & _ & Ho & _). by inversion Ho. }
  destruct (IH ch Wch Hf Hd) as (K1 & K2 & K3 & K4). unfold keeps_place. cbn [change]. rewrite Ec, Eo.
  split; [done|]. split; [done|]. split; [done|].
  intros [|o' q] r' Hq; cbn [descend children set_children] in Hq.
  - injection Hq as <-. destruct (descend_self r Hr) as (P1 & P2 & P3 & P4 & P5). by split.
  - destruct (decide (o = o')) as [<-|Hne].
    + rewrite list_lookup_insert_eq in Hq by (by eapply lookup_lt_Some).
      assert (placed ch q r') as Hp.
      { destruct (K4 q r' Hq) as (P1 & P2 & P3 & P4 & P5). rewrite K1, K2, K3 in *. done. }
      exact (placed_child r o ch q r' Hch Hp).
    + rewrite list_lookup_insert_ne in Hq by done. apply (Hr (o' :: q) r'). cbn. by rewrite Ec.
Qed.

Lemma record_access_keeps now r : well_placed r -> keeps_place (record_access now) r.
Proof.
  intros H. split; [done|]. split; [done|]. split; [done|]. intros [|o q] r' Hq; [|by apply (H (o :: q))].
  injection Hq as <-. destruct (descend_self r H) as (P1 & P2 & P3 & P4 & P5). by split.
Qed.

Lemma Region_new_placed c base sz : depth c <= MAX_FRACTAL_DEPTH -> well_placed (Region_new c base sz).
Proof.
  intros Hc [|o q] r' Hq; cbn in Hq; [|done]. injection Hq as <-. split; [done|]. split; [done|]. split; [constructor|].
  cbn [coord Region_new length]. lia.
Qed.

Lemma set_frames_placed f r : well_placed r -> well_placed (set_frames f r).
Proof.
  intros H [|o q] r' Hq; [|by apply (H (o :: q))]. injection Hq as <-. destruct (descend_self r H) as (P1 & P2 & P3 & P4 & P5). by split.
Qed.

Lemma child_depth o c c' : child o c = Some c' -> 0 <= depth c -> depth c' = depth c + 1 /\ depth c' <= MAX_FRACTAL_DEPTH.
Proof.
  unfold child, MAX_FRACTAL_DEPTH. destruct (Z.leb_spec 8 (depth c)); [done|]. intros [= <-] H0. cbn [depth].
  rewrite wrap_small by (unfold in_width; lia). lia.
Qed.

Lemma subdivide_keeps r r' : well_placed r -> in_memory r -> 0 <= depth (coord r) -> subdivide r = Ok r' ->
  keeps_place (fun _ => r') r.
Proof.
  intros H (M1 & M2 & M3) H0. unfold subdivide. destruct (Z.leb_spec MAX_FRACTAL_DEPTH (depth (coord r))); [done|].
  destruct (children r); [done|]. destruct (Z.ltb_spec (size r / 8) PAGE_SIZE); [done|].
  remember (octant_region r (size r / 8) <$> seqZ 0 8) as cs eqn:Ecs. intros [= <-].
  split; [done|]. split; [done|]. split; [done|]. intros [|o q] r' Hq.
  - injection Hq as <-. destruct (descend_self r H) as (P1 & P2 & P3 & P4 & P5). by split.
  - cbn [descend children set_children] in Hq. rewrite Ecs, list_lookup_fmap in Hq. clear Ecs.
    destruct (seqZ 0 8 !! o) as [k|] eqn:Ek; [|done]. apply lookup_seqZ in Ek as [-> Ho]. cbn in Hq. unfold octant_region in Hq.
    destruct (child (0 + Z.of_nat o) (coord r)) as [c|] eqn:Ec; [|done]. cbn in Hq.
    destruct q as [|o' q]; [|done]. injection Hq as <-. rewrite Z.add_0_l in *. destruct (child_depth _ _ _ Ec H0) as [D1 D2].
    pose proof (Z.mul_div_le (size r) 8 ltac:(lia)). unfold PAGE_SIZE in *.
    split; [|split; [|split; [|cbn [coord Region_new length set_children]; lia]]].
    + cbn [slot base_addr size Region_new set_children]. rewrite (wrap_small 64 (Z.of_nat o * _)) by (unfold in_width; nia).
      rewrite wrap_small by (unfold in_width; nia). done.
    + cbn [coord_at coord Region_new set_children]. by rewrite Ec.
    + constructor; [lia|constructor].
Qed.

(** *** Reachable allocators *)

Record allocator_ok (a : FractalAllocator) : Prop := {
  ok_next : 0 <= next_virt_base a < 2 ^ 64;
  ok_root i r : root_regions a !! i = Some r ->
    coord r = mkCoord (Z.of_nat i) 0 0 0 /\ well_placed r /\ 0 <= base_addr r /\ 0 <= size r /\ base_addr r + size r <= next_virt_base a;
  ok_apart i j r r' : (i < j)%nat -> root_regions a !! i = Some r -> root_regions a !! j = Some r' ->
    base_addr r + size r <= base_addr r'
}.

(** The region along [path] in root [i]. *)
Definition region_at (i : nat) (path : list nat) (a : FractalAllocator) : option FractalRegion :=
  match root_regions a !! i with None => None | Some r => descend path r end.

Lemma find_region_at c a : find_region c a = region_at (Z.to_nat (x c)) (path_to c) a.
Proof. done. Qed.

Lemma region_inside a i path r : allocator_ok a -> region_at i path a = Some r ->
  well_placed r /\ in_memory r /\ 0 <= depth (coord r).
Proof.
  intros Ha. unfold region_at. destruct (root_regions a !! i) as [root|] eqn:Ei; [|done]. intros Hd.
  destruct (ok_root a Ha i root Ei) as (Hc & Hw & Hb & Hs & He). pose proof (ok_next a Ha).
  destruct (Hw _ _ Hd) as (S1 & C1 & O1 & D1 & M1).
  assert (depth (coord root) = 0) as D0 by (by rewrite Hc). pose proof (slot_range path (base_addr root) (size root) Hs O1) as Hr. rewrite <- S1 in Hr. cbn in Hr.
  split; [|split; [unfold in_memory; lia|lia]]. intros q r' Hq.
  assert (descend (path ++ q) root = Some r') as Hpq by (rewrite descend_app, Hd; exact Hq).
  destruct (Hw _ _ Hpq) as (S2 & C2 & O2 & D2 & M2). rewrite slot_app, <- S1 in S2. rewrite coord_at_app, <- C1 in C2.
  rewrite length_app in D2. split; [done|]. split; [done|]. split; [by apply Forall_app in O2 as [_ O2]|]. lia.
Qed.

Lemma change_region_ok f c a : allocator_ok a -> (forall r, find_region c a = Some r -> keeps_place f r) ->
  find_region c a <> None -> allocator_ok (change_region f c a).
Proof.
  intros Ha Hf Hsome. unfold find_region in *. destruct (root_regions a !! Z.to_nat (x c)) as [root|] eqn:Ei; [|done].
  destruct (ok_root a Ha _ _ Ei) as (Hc & Hw & Hb & Hs & He).
  destruct (change_placed f (path_to c) root Hw) as (K1 & K2 & K3 & K4); [intros r' Hr' _; by apply Hf|done|].
  assert (forall k r', root_regions (change_region f c a) !! k = Some r' ->
    exists r, root_regions a !! k = Some r /\ coord r' = coord r /\ base_addr r' = base_addr r /\ size r' = size r /\ (well_placed r -> well_placed r')) as Hall.
  { intros k r' Hk. unfold change_region in Hk. cbn [root_regions] in Hk. destruct (decide (k = Z.to_nat (x c))) as [->|Hne].
    - rewrite list_lookup_alter_eq, Ei in Hk. injection Hk as <-. by exists root.
    - rewrite list_lookup_alter_ne in Hk by done. by exists r'. }
  constructor.
  - apply (ok_next a Ha).
  - intros k r' (r & Hk & -> & -> & -> & Hwp)%Hall. destruct (ok_root a Ha _ _ Hk) as (? & ? & ?). split; [done|]. split; [by apply Hwp|done].
  - intros k j r1 r2 Hkj (r1' & Hk1 & _ & -> & -> & _)%Hall (r2' & Hk2 & _ & -> & _)%Hall. by apply (ok_apart a Ha k j).
Qed.

Definition page_up (sz : Z) : Z := Z.land (sz +[64] (PAGE_SIZE - 1)) (wnot 64 (PAGE_SIZE - 1)).

Lemma page_up_spec sz : 0 <= sz -> sz + PAGE_SIZE <= 2 ^ 64 ->
  page_up sz mod PAGE_SIZE = 0 /\ sz <= page_up sz < sz + PAGE_SIZE.
Proof.
  unfold page_up, PAGE_SIZE. intros H0 H1. rewrite wrap_small by (unfold in_width; lia).
  change (4096 - 1) with (Z.ones 12). rewrite land_wnot_ones by (change (Z.ones 12) with 4095; unfold in_width; lia).
  change (Z.ones 12) with 4095. change (2 ^ 12) with 4096. Z.to_euclidean_division_equations. lia.
Qed.

Section Reach.
Context {S : Type} `{FS : FrameSource S}.

Lemma allocate_backing_region p4 r (s : VM S) : match allocate_backing p4 r s with
  | (Ok r', s') => exists frames, map_all p4 REGION_FLAGS (region_pages (base_addr r) (size r)) s = (Ok frames, s') /\
                                  r' = set_frames (physical_frames r ++ frames) r
  | (Err e, s') => map_all p4 REGION_FLAGS (region_pages (base_addr r) (size r)) s = (Err e, s')
  end.
Proof. unfold allocate_backing, bindM. destruct (map_all _ _ _ s) as [[frames|e] s']; cbn; [by exists frames|done]. Qed.

(** What can happen to the allocator, whatever the page tables are; the address
    space of its regions is not exhausted. *)
Inductive reachable : FractalAllocator -> Prop :=
  | reach_new : reachable Allocator_new
  | reach_allocate a p4 sz (s : VM S) res a' s' : reachable a -> 0 <= sz -> next_virt_base a + sz + PAGE_SIZE <= 2 ^ 64 ->
      allocate_region p4 sz a s = (res, a', s') -> reachable a'
  | reach_subdivide a c res a' : reachable a -> subdivide_region c (Some a) = (res, Some a') -> reachable a'
  | reach_access a c now a' : reachable a -> record_access_at c now (Some a) = Some a' -> reachable a'.

Lemma allocate_region_ok p4 sz a (s : VM S) : allocator_ok a -> 0 <= sz -> next_virt_base a + sz + PAGE_SIZE <= 2 ^ 64 ->
  allocator_ok (allocate_region p4 sz a s).1.2.
Proof.
  intros Ha Hs Hn. unfold allocate_region. fold (page_up sz). pose proof (ok_next a Ha).
  assert (0 < PAGE_SIZE) by done. destruct (page_up_spec sz Hs ltac:(lia)) as [_ Hu].
  assert (next_virt_base a +[64] page_up sz = next_virt_base a + page_up sz) as Hb by (apply wrap_small; unfold in_width; lia).
  cbn [root_regions next_virt_base]. rewrite Hb. set (c := mkCoord _ 0 0 0).
  pose proof (allocate_backing_region p4 (Region_new c (next_virt_base a) (page_up sz)) s) as Hr.
  destruct (allocate_backing _ _ s) as [[r|e] s']; cbn [fst snd].
  - destruct Hr as (frames & _ & ->). constructor; cbn [root_regions next_virt_base]; [lia| |].
    + intros i r [Hi|[Hi Hr]]%lookup_app_Some.
      * destruct (ok_root a Ha i r Hi) as (? & ? & ? & ? & ?). repeat (split; [done|]). lia.
      * apply list_lookup_singleton_Some in Hr as [E <-]. cbn [coord base_addr size set_frames Region_new]. split.
        { unfold c. do 2 f_equal. lia. }
        split; [by apply set_frames_placed, Region_new_placed|]. lia.
    + intros i j r r' Hij [Hi|[Hi Hr]]%lookup_app_Some [Hj|[Hj Hr']]%lookup_app_Some.
      * by apply (ok_apart a Ha i j).
      * apply list_lookup_singleton_Some in Hr' as [_ <-]. cbn. apply (ok_root a Ha i r Hi).
      * apply lookup_lt_Some in Hj. lia.
      * apply list_lookup_singleton_Some in Hr as [? _]. apply list_lookup_singleton_Some in Hr' as [? _]. lia.
  - constructor; cbn [root_regions next_virt_base]; [lia| |apply (ok_apart a Ha)].
    intros i r Hi. destruct (ok_root a Ha i r Hi) as (? & ? & ? & ? & ?). repeat (split; [done|]). lia.
Qed.

Lemma reachable_ok a : reachable a -> allocator_ok a.
Proof.
  induction 1 as [|a p4 sz s res a' s' _ IH Hs Hn Ha|a c res a' _ IH Ha|a c now a' _ IH Ha].
  - constructor; cbn; [lia| |]; intros; by rewrite lookup_nil in *.
  - pose proof (allocate_region_ok p4 sz a s IH Hs Hn) as H. by rewrite Ha in H.
  - cbn in Ha. destruct (find_region c a) as [r|] eqn:Er; [|by injection Ha as <- <-].
    destruct (subdivide r) as [r'|e] eqn:Es; injection Ha as <- <-; [|done].
    apply change_region_ok; [done| |by rewrite Er]. intros r0 Hr0. rewrite Er in Hr0. injection Hr0 as <-. destruct (region_inside a _ _ _ IH Er) as (H1 & H2 & H3).
    by apply (subdivide_keeps r r').
  - cbn in Ha. destruct (find_region c a) as [r|] eqn:Er; injection Ha as <-; [|done].
    apply change_region_ok; [done| |by rewrite Er]. intros r0 Hr0. rewrite Er in Hr0. injection Hr0 as <-. destruct (region_inside a _ _ _ IH Er) as (H1 & H2 & H3).
    by apply record_access_keeps.
Qed.

Lemma roots_apart a i j r r' : allocator_ok a -> i <> j -> root_regions a !! i = Some r -> root_regions a !! j = Some r' ->
  base_addr r + size r <= base_addr r' \/ base_addr r' + size r' <= base_addr r.
Proof.
  intros Ha Hij Hi Hj. destruct (decide (i < j)%nat); [left; by apply (ok_apart a Ha i j)|right; apply (ok_apart a Ha j i); [lia|done..]].
Qed.

(** Whatever regions are allocated, divided and accessed, and whatever the
    backing of a region answers, two regions overlap only when one lies inside the
    other: the ranges of regions in different roots, and of regions of one root
    where neither is divided from the other, are disjoint; a region divided from
    another lies inside it; and no region is deeper than the limit. *)
Theorem regions_disjoint a i p r j q r' : reachable a -> region_at i p a = Some r -> region_at j q a = Some r' ->
  depth (coord r) <= MAX_FRACTAL_DEPTH /\
  (i = j -> p `prefix_of` q -> base_addr r <= base_addr r' /\ base_addr r' + size r' <= base_addr r + size r) /\
  (i <> j \/ ~ p `prefix_of` q /\ ~ q `prefix_of` p ->
     base_addr r + size r <= base_addr r' \/ base_addr r' + size r' <= base_addr r).
Proof.
  intros Ha Hr Hr'. apply reachable_ok in Ha. destruct (region_inside a i p r Ha Hr) as (Wr & (Mb & Ms & Me) & _).
  split; [by apply (descend_self r Wr)|]. unfold region_at in *.
  destruct (root_regions a !! i) as [ri|] eqn:Ei; [|done]. destruct (root_regions a !! j) as [rj|] eqn:Ej; [|done].
  destruct (ok_root a Ha i ri Ei) as (_ & Wi & _ & Si & _). destruct (ok_root a Ha j rj Ej) as (_ & Wj & _ & Sj & _).
  destruct (Wi p r Hr) as (S1 & _ & O1 & _). destruct (Wj q r' Hr') as (S2 & _ & O2 & _).
  pose proof (slot_range p (base_addr ri) (size ri) Si O1) as R1. pose proof (slot_range q (base_addr rj) (size rj) Sj O2) as R2.
  split.
  - intros -> [k ->]. simplify_eq. rewrite slot_app, <- S1 in S2. cbn [fst snd] in S2. apply Forall_app in O2 as [_ O2].
    pose proof (slot_range k (base_addr r) (size r) Ms O2) as R. rewrite <- S2 in R. cbn in R. lia.
  - intros Hor. destruct (decide (i = j)) as [<-|Hij].
    + destruct Hor as [[]|[Hp Hq]]; [done|]. simplify_eq.
      pose proof (slot_disjoint p q (base_addr ri) (size ri) Si O1 O2 Hp Hq) as H. by rewrite <- S1, <- S2 in H.
    + rewrite <- S1 in R1. rewrite <- S2 in R2. cbn in R1, R2. destruct (roots_apart a i j ri rj Ha Hij Ei Ej); lia.
Qed.

(** *** Backing *)

Lemma lookup_region_pages base sz k v : 0 <= base -> 0 <= sz -> base + sz + PAGE_SIZE <= 2 ^ 64 ->
  region_pages base sz !! k = Some v -> v = base + Z.of_nat k * PAGE_SIZE /\ Z.of_nat k * PAGE_SIZE < sz.
Proof.
  unfold region_pages, PAGE_SIZE. intros Hb Hs Hn. rewrite (wrap_small 64 (sz + _)) by (unfold in_width; lia). rewrite list_lookup_fmap.
  destruct (seqZ _ _ !! k) as [i|] eqn:Ei; [|done]. apply lookup_seqZ in Ei as [-> Hk]. intros [= <-].
  pose proof (Z.mul_div_le (sz + (4096 - 1)) 4096 ltac:(lia)).
  rewrite (wrap_small 64 (_ * 4096)) by (unfold in_width; lia). rewrite wrap_small by (unfold in_width; lia). lia.
Qed.

Lemma region_pages_at base sz k : 0 <= base -> 0 <= sz -> base + sz + PAGE_SIZE <= 2 ^ 64 -> Z.of_nat k * PAGE_SIZE < sz ->
  region_pages base sz !! k = Some (base + Z.of_nat k * PAGE_SIZE).
Proof.
  intros Hb Hs Hn Hk. destruct (region_pages base sz !! k) as [v|] eqn:E.
  - by destruct (lookup_region_pages base sz k v Hb Hs Hn E) as [-> _].
  - exfalso. unfold region_pages, PAGE_SIZE in *. rewrite (wrap_small 64 (sz + _)) in E by (unfold in_width; lia).
    rewrite list_lookup_fmap, fmap_None in E. apply lookup_ge_None_1 in E. rewrite length_seqZ in E. Z.to_euclidean_division_equations. lia.
Qed.

(** A region that is allocated is backed: every address of it translates to a
    frame that was free, different pages to different frames, no address of it
    translated before, and no translation elsewhere changes.  When it cannot be
    backed no root is added and no old translation is lost, but its addresses are
    used up all the same. *)
Theorem allocate_region_backed p4 sz a (s : VM S) : tree_ok p4 s -> 0 <= sz -> 0 <= next_virt_base a -> next_virt_base a mod PAGE_SIZE = 0 ->
  next_virt_base a + sz + 2 * PAGE_SIZE <= 2 ^ 64 ->
  match allocate_region p4 sz a s with
  | (Ok c, a', s') =>
      exists r, root_regions a' = root_regions a ++ [r] /\ c = coord r /\ base_addr r = next_virt_base a /\ sz <= size r < sz + PAGE_SIZE /\
        next_virt_base a' = base_addr r + size r /\ next_virt_base a' mod PAGE_SIZE = 0 /\ tree_ok p4 s' /\ NoDup (physical_frames r) /\
        (forall k off, 0 <= off < PAGE_SIZE -> Z.of_nat k * PAGE_SIZE < size r ->
           exists p, physical_frames r !! k = Some p /\ p ∈ fs_free (vm_frames s) /\ p ∉ fs_free (vm_frames s') /\
             translate p4 (base_addr r + Z.of_nat k * PAGE_SIZE + off) s = None /\
             translate p4 (base_addr r + Z.of_nat k * PAGE_SIZE + off) s' = Some p) /\
        (forall w, (forall k, Z.of_nat k * PAGE_SIZE < size r -> ~ same_page (base_addr r + Z.of_nat k * PAGE_SIZE) w) ->
           translate p4 w s' = translate p4 w s)
  | (Err _, a', s') =>
      root_regions a' = root_regions a /\ tree_ok p4 s' /\ extends p4 s s' /\ sz <= next_virt_base a' - next_virt_base a
  end.
Proof.
  intros Hok Hs Hb Hm Hn. unfold allocate_region. fold (page_up sz). assert (0 < PAGE_SIZE) as Hps by done.
  destruct (page_up_spec sz Hs ltac:(lia)) as [Hu1 Hu2]. cbn [root_regions next_virt_base].
  rewrite (wrap_small 64 (next_virt_base a + page_up sz)) by (unfold in_width; lia). set (c := mkCoord _ 0 0 0).
  pose proof (allocate_backing_region p4 (Region_new c (next_virt_base a) (page_up sz)) s) as Hr.
  pose proof (map_all_spec p4 REGION_FLAGS (region_pages (next_virt_base a) (page_up sz)) s Hok eq_refl) as Hall.
  cbn [base_addr size Region_new] in Hr. destruct (allocate_backing _ _ s) as [[r|e] s'].
  2:{ rewrite Hr in Hall. destruct Hall as [H1 H2]. repeat (split; [done|]). cbn [next_virt_base]. lia. }
  destruct Hr as (frames & Ea & ->). rewrite Ea in Hall. destruct Hall as (Hok' & Hl & Hnd & Hfr & Hsub & Htr & Hrest).
  eexists. split; [done|]. cbn [coord base_addr size physical_frames set_frames Region_new app next_virt_base].
  repeat (split; [done|]). split; [by rewrite Z.add_mod, Hm, Hu1 by lia|]. repeat (split; [done|]). split.
  - intros k off Ho Hk. pose proof (region_pages_at (next_virt_base a) (page_up sz) k Hb ltac:(lia) ltac:(lia) Hk) as Ek.
    destruct (lookup_lt_is_Some_2 frames k) as [p Hp]; [rewrite Hl; by eapply lookup_lt_Some|]. exists p. split; [done|].
    rewrite Forall_forall in Hfr. destruct (Hfr p) as (_ & ? & ?); [by eapply list_elem_of_lookup_2|]. repeat (split; [done|]).
    apply (Htr k _ p _ Ek Hp). apply same_page_offset; [|done]. by rewrite Z.mod_add by lia.
  - intros w Hw. apply Hrest. intros v [k Hk]%list_elem_of_lookup_1 Hv.
    destruct (lookup_region_pages (next_virt_base a) (page_up sz) k v Hb ltac:(lia) ltac:(lia) Hk) as [-> Hlt]. apply (Hw k); [|done].
    done.
Qed.
End Reach.

(** *** Finding a region by its coordinates *)

Lemma low_bit v b : 0 <= b < 2 -> Z.land (v * 2 + b) 1 = b.
Proof. intros Hb. change 1 with (Z.ones 1). rewrite Z.land_ones by lia. change (2 ^ 1) with 2. Z.to_euclidean_division_equations. lia. Qed.

Lemma shift_up v b s : 0 <= b < 2 -> 0 <= s -> Z.shiftr (v * 2 + b) (1 + s) = Z.shiftr v s.
Proof.
  intros Hb Hs. rewrite <- Z.shiftr_shiftr by lia. f_equal. rewrite Z.shiftr_div_pow2 by lia. change (2 ^ 1) with 2.
  Z.to_euclidean_division_equations. lia.
Qed.

Definition small_coord (c : SpatialCoord) : Prop :=
  0 <= x c < 2 ^ 62 /\ 0 <= y c < 2 ^ 62 /\ 0 <= z c < 2 ^ 62 /\ 0 <= depth c < MAX_FRACTAL_DEPTH.

Definition bit_x (o : nat) : Z := Z.land (Z.of_nat o) 1.
Definition bit_y (o : nat) : Z := Z.land (Z.shiftr (Z.of_nat o) 1) 1.
Definition bit_z (o : nat) : Z := Z.land (Z.shiftr (Z.of_nat o) 2) 1.

Lemma octant_bits o : (o < 8)%nat -> 0 <= bit_x o < 2 /\ 0 <= bit_y o < 2 /\ 0 <= bit_z o < 2 /\
  Z.to_nat (Z.lor (Z.lor (bit_x o) (Z.shiftl (bit_y o) 1)) (Z.shiftl (bit_z o) 2)) = o.
Proof. intros Ho. do 8 (destruct o as [|o]; [by vm_compute|]). lia. Qed.

Lemma child_bits o c : (o < 8)%nat -> small_coord c ->
  child (Z.of_nat o) c = Some (mkCoord (x c * 2 + bit_x o) (y c * 2 + bit_y o) (z c * 2 + bit_z o) (depth c + 1)).
Proof.
  intros Ho (Hx & Hy & Hz & Hd). destruct (octant_bits o Ho) as (Bx & By & Bz & _). unfold child, MAX_FRACTAL_DEPTH in *.
  destruct (Z.leb_spec 8 (depth c)); [lia|]. fold (bit_x o) (bit_y o) (bit_z o).
  rewrite (wrap_small 64 (x c * 2)), (wrap_small 64 (y c * 2)), (wrap_small 64 (z c * 2)) by (unfold in_width; lia).
  by rewrite !wrap_small by (unfold in_width; lia).
Qed.

(** The path to a child goes through its parent. *)
Lemma path_to_child o c c' : (o < 8)%nat -> small_coord c -> child (Z.of_nat o) c = Some c' -> path_to c' = path_to c ++ [o].
Proof.
  intros Ho Hc. rewrite (child_bits o c Ho Hc). intros [= <-]. destruct (octant_bits o Ho) as (Bx & By & Bz & Eo).
  destruct Hc as (Hx & Hy & Hz & Hd). unfold MAX_FRACTAL_DEPTH in Hd. unfold path_to. cbn [depth].
  rewrite seqZ_app, fmap_app by lia. f_equal.
  - apply list_fmap_ext. intros k d [-> Hk]%lookup_seqZ. unfold octant_at. cbn [x y z depth].
    rewrite !(Z.mod_small _ 64) by lia. replace (depth c + 1 - (1 + Z.of_nat k)) with (1 + (depth c - (1 + Z.of_nat k))) by lia.
    by rewrite !shift_up by lia.
  - change (seqZ (1 + depth c) 1) with [Z.of_nat 0 + (1 + depth c)]. cbn [fmap list_fmap]. unfold octant_at. cbn [x y z depth].
    replace (depth c + 1 - (Z.of_nat 0 + (1 + depth c))) with 0 by lia. change (0 mod 64) with 0.
    rewrite !Z.shiftr_0_r, !low_bit by lia. by rewrite Eo.
Qed.

Lemma coord_at_path i p : 0 <= i < 2 ^ 32 -> octants p -> Z.of_nat (length p) <= MAX_FRACTAL_DEPTH ->
  let c := coord_at (mkCoord i 0 0 0) p in
  path_to c = p /\ depth c = Z.of_nat (length p) /\ i * 2 ^ Z.of_nat (length p) <= x c < (i + 1) * 2 ^ Z.of_nat (length p) /\
  0 <= y c < 2 ^ Z.of_nat (length p) /\ 0 <= z c < 2 ^ Z.of_nat (length p).
Proof.
  intros Hi. induction p as [|o p IH] using rev_ind; intros Ho Hl; [split; [done|]; cbn [coord_at x y z depth length]; change (2 ^ Z.of_nat 0) with 1; lia|].
  apply Forall_app in Ho as [Ho Ho1]. inversion_clear Ho1 as [|? ? Ho2 _]. rewrite length_app in *. cbn [length] in *.
  destruct IH as (P & D & X & Y & Z0); [done|lia|]. rewrite coord_at_app. set (c := coord_at _ p) in *.
  unfold MAX_FRACTAL_DEPTH in Hl. assert (2 ^ Z.of_nat (length p) <= 2 ^ 7) as Hp by (apply Z.pow_le_mono_r; lia).
  assert (small_coord c) as Hc by (unfold small_coord, MAX_FRACTAL_DEPTH; nia).
  destruct (octant_bits o Ho2) as (Bx & By & Bz & _). cbn [coord_at]. rewrite (child_bits o c Ho2 Hc). cbn [default from_option].
  pose proof (path_to_child o c _ Ho2 Hc (child_bits o c Ho2 Hc)) as Ep. unfold id. rewrite Ep, P. cbn [x y z depth].
  rewrite Nat2Z.inj_add, Z.pow_add_r by lia. change (2 ^ Z.of_nat 1) with 2. split; [done|]. nia.
Qed.

Lemma region_coord a i p r : allocator_ok a -> Z.of_nat (length (root_regions a)) <= 2 ^ 32 -> region_at i p a = Some r ->
  coord r = coord_at (mkCoord (Z.of_nat i) 0 0 0) p /\ path_to (coord r) = p /\
  Z.of_nat i * 2 ^ Z.of_nat (length p) <= x (coord r) < (Z.of_nat i + 1) * 2 ^ Z.of_nat (length p) /\ octants p /\
  Z.of_nat (length p) <= MAX_FRACTAL_DEPTH.
Proof.
  intros Ha Hn. unfold region_at. destruct (root_regions a !! i) as [root|] eqn:Ei; [|done]. intros Hd.
  destruct (ok_root a Ha i root Ei) as (Hc & Hw & _). destruct (Hw _ _ Hd) as (_ & C & O & D & M). rewrite Hc in *. cbn [depth] in D.
  apply lookup_lt_Some in Ei. destruct (coord_at_path (Z.of_nat i) p ltac:(lia) O ltac:(lia)) as (P & _ & X & _). rewrite C.
  repeat (split; [done|]). lia.
Qed.

Section Find.
Context {S : Type} `{FS : FrameSource S}.

(** A region is found by its own coordinates exactly when it is a root or its
    first coordinate is zero: [find_region] takes the first coordinate for the
    number of the root, which it is only at depth zero.  Any other divided region
    is missed, and what is returned for it, when anything is, is a region with
    other coordinates. *)
Theorem find_region_by_coordinate a i p r : reachable a -> Z.of_nat (length (root_regions a)) <= 2 ^ 32 -> region_at i p a = Some r ->
  if decide (p = [] \/ x (coord r) = 0) then find_region (coord r) a = Some r
  else forall r', find_region (coord r) a = Some r' -> coord r' <> coord r.
Proof.
  intros Ha Hn Hr. apply reachable_ok in Ha. pose proof (region_coord a i p r Ha Hn Hr) as (C & P & X & Ho & Hl). rewrite find_region_at, P.
  assert (0 < 2 ^ Z.of_nat (length p)) as Hpow by lia.
  destruct (decide _) as [[->|H0]|Hno].
  - rewrite C. cbn [coord_at x]. by rewrite Nat2Z.id.
  - rewrite H0 in *. replace i with 0%nat in Hr by nia. done.
  - intros r' Hr'. assert (p <> []) as Hp by (intros ->; apply Hno; by left). assert (x (coord r) <> 0) as Hx by (intros E; apply Hno; by right).
    destruct (region_coord a _ p r' Ha Hn Hr') as (_ & _ & X' & _). intros E. rewrite E in X'.
    assert (2 <= 2 ^ Z.of_nat (length p)) as H2 by (destruct p; [done|]; cbn [length]; change 2 with (2 ^ 1) at 1; apply Z.pow_le_mono_r; lia).
    rewrite Z2Nat.id in X' by nia. nia.
Qed.
End Find.

(** ** Witnesses *)

Definition demo_alloc : FractalAllocator := (allocate_region demo_p4 0x8000 Allocator_new demo).1.2.
Definition demo_divided : FractalAllocator := default Allocator_new (subdivide_region coord_root (Some demo_alloc)).2.

Lemma demo_alloc_reachable : reachable demo_alloc.
Proof.
  apply (reach_allocate Allocator_new demo_p4 0x8000 demo (allocate_region demo_p4 0x8000 Allocator_new demo).1.1 demo_alloc
           (allocate_region demo_p4 0x8000 Allocator_new demo).2); [apply reach_new|by vm_compute|by vm_compute|].
  unfold demo_alloc. by destruct (allocate_region demo_p4 0x8000 Allocator_new demo) as [[? ?] ?].
Qed.

Lemma demo_divided_reachable : reachable demo_divided.
Proof.
  apply (reach_subdivide demo_alloc coord_root (subdivide_region coord_root (Some demo_alloc)).1); [exact demo_alloc_reachable|].
  vm_compute. reflexivity.
Qed.

Definition demo_octant (o : nat) : FractalRegion := default (Region_new coord_root 0 0) (region_at 0 [o] demo_divided).

Lemma regions_disjoint_witness :
  region_at 0 [0%nat] demo_divided = Some (demo_octant 0) /\ region_at 0 [1%nat] demo_divided = Some (demo_octant 1) /\
  (base_addr (demo_octant 0) + size (demo_octant 0) <= base_addr (demo_octant 1) \/
   base_addr (demo_octant 1) + size (demo_octant 1) <= base_addr (demo_octant 0)).
Proof.
  assert (region_at 0 [0%nat] demo_divided = Some (demo_octant 0)) as H0 by (vm_compute; reflexivity).
  assert (region_at 0 [1%nat] demo_divided = Some (demo_octant 1)) as H1 by (vm_compute; reflexivity).
  split; [exact H0|]. split; [exact H1|].
  apply (regions_disjoint demo_divided 0 [0%nat] (demo_octant 0) 0 [1%nat] (demo_octant 1) demo_divided_reachable H0 H1).
  right. split; intros [k Hk]; discriminate Hk.
Defined.

Lemma allocate_region_backed_witness : tree_ok demo_p4 demo /\ (allocate_region demo_p4 0x8000 Allocator_new demo).1.1 = Ok coord_root /\
  exists r, root_regions (allocate_region demo_p4 0x8000 Allocator_new demo).1.2 = [r] /\ NoDup (physical_frames r).
Proof.
  pose proof (allocate_region_backed demo_p4 0x8000 Allocator_new demo demo_ok ltac:(lia) ltac:(by vm_compute) ltac:(by vm_compute) ltac:(by vm_compute)) as H.
  assert ((allocate_region demo_p4 0x8000 Allocator_new demo).1.1 = Ok coord_root) as E by (vm_compute; reflexivity).
  split; [exact demo_ok|]. split; [exact E|]. destruct (allocate_region demo_p4 0x8000 Allocator_new demo) as [[[c|e] a'] s']; [|discriminate E].
  destruct H as (r & Hr & _ & _ & _ & _ & _ & _ & Hnd & _). exists r. split; [exact Hr|exact Hnd].
Defined.

(** The second octant of the first root is not found. *)
Lemma find_region_by_coordinate_witness : coord (demo_octant 1) = mkCoord 1 0 0 1 /\
  (forall r', find_region (coord (demo_octant 1)) demo_divided = Some r' -> coord r' <> coord (demo_octant 1)).
Proof.
  assert (region_at 0 [1%nat] demo_divided = Some (demo_octant 1)) as H1 by (vm_compute; reflexivity).
  assert (coord (demo_octant 1) = mkCoord 1 0 0 1) as E by (vm_compute; reflexivity). split; [exact E|].
  pose proof (find_region_by_coordinate demo_divided 0 [1%nat] (demo_octant 1) demo_divided_reachable ltac:(by vm_compute) H1) as H.
  destruct (decide _) as [[Hp|Hx]|_]; [discriminate Hp|rewrite E in Hx; discriminate Hx|exact H].
Defined.

(** An octant of a region of nine pages does not begin on a page. *)
Lemma octants_not_page_aligned : let r := Region_new coord_root 0x1000 0x9000 in
  match subdivide r with
  | Ok r' => exists ch, descend [1%nat] r' = Some ch /\ base_addr ch mod PAGE_SIZE <> 0
  | Err _ => False
  end.
Proof. cbv zeta. vm_compute. by eexists. Qed.
