(* ===== verification/UserSpace.v ===== *)
(** * User address spaces ([arch/x86_64/usermode.rs])

    A new address space takes the kernel's half of the tables over and gets a stack
    in its own half.  Theorems: what a new address space translates, and that
    building it, or mapping any page of a user half, leaves the kernel's address
    space as it was. *)

From Stdlib Require Import ZArith Lia Bool.
From stdpp Require Import base numbers option list gmap sets strings.
From S2P Require Import Prelude Bytes Frame Paging Mapping.

Open Scope Z_scope.

(** ** Two trees that share tables *)

(** The half of an address space below the kernel's. *)
Definition user_half (v : Z) : Prop := p4_index v < 256.
Definition user_path (q : list Z) : Prop := match q with [] => True | i :: _ => i < 256 end.

Section Share.
Context {S : Type} `{FS : FrameSource S}.

(** [t] is one of the tables of the user half of [u]. *)
Definition user_table (u : Z) (s : VM S) (t : Z) : Prop :=
  exists q, path_ok q /\ user_path q /\ table_at (vm_mem s) u q = Some t.

(** From [s] to [s'] only user tables of [u] and frames that were free have changed. *)
Record user_step (u : Z) (s s' : VM S) : Prop := {
  us_free : fs_free (vm_frames s') ⊆ fs_free (vm_frames s);
  us_entry t i : t ∉ fs_free (vm_frames s) -> ~ user_table u s t -> entry (vm_mem s') t i = entry (vm_mem s) t i;
  us_table t : user_table u s' t -> user_table u s t \/ t ∈ fs_free (vm_frames s)
}.

Lemma user_step_refl u s : user_step u s s.
Proof. constructor; [done|done|]. intros t Ht. by left. Qed.

Lemma user_step_trans u s1 s2 s3 : user_step u s1 s2 -> user_step u s2 s3 -> user_step u s1 s3.
Proof.
  intros [F1 E1 T1] [F2 E2 T2]. constructor; [set_solver| |].
  - intros t i Hf Hu. rewrite E2; [by apply E1|set_solver|]. intros H. destruct (T1 t H); tauto.
  - intros t [H|H]%T2; [by apply T1|]. right. set_solver.
Qed.

Lemma user_step_same u (s s' : VM S) : vm_mem s' = vm_mem s -> fs_free (vm_frames s') ⊆ fs_free (vm_frames s) -> user_step u s s'.
Proof. intros E F. constructor; [done|by rewrite E|]. intros t (q & Hq & Hu & Ht). left. exists q. by rewrite E in Ht. Qed.

(** Taking a frame. *)
Lemma alloc_user_step u (s : VM S) f : fs_ok (vm_frames s) -> (fs_alloc (vm_frames s)).2 = f -> user_step u s (mkVM (vm_mem s) f).
Proof.
  intros Hok <-. apply user_step_same; [done|]. cbn. destruct (fs_alloc (vm_frames s)) as [[p|] f'] eqn:E; cbn.
  - destruct (fs_alloc_some _ _ _ Hok E) as (_ & -> & _). set_solver.
  - by destruct (fs_alloc_none _ _ Hok E) as (_ & -> & _).
Qed.

Lemma next_table_user_step force u (s : VM S) path t i : tree_ok u s -> path_ok path -> (length path <= 2)%nat ->
  table_at (vm_mem s) u path = Some t -> user_path path -> idx_ok i -> user_step u s (next_table force t i s).2.
Proof.
  intros Hok Hp Hl Ht Hu Hi. assert (user_table u s t) as Hut by (exists path; done). unfold next_table.
  destruct (is_present (entry (vm_mem s) t i)) eqn:Epr.
  - destruct force; [|apply user_step_refl]. cbn [snd]. constructor; cbn [vm_mem vm_frames]; [done| |].
    + intros t' j _ Hn. rewrite entry_write. rewrite decide_False; [done|]. intros [<- _]. done.
    + intros t' (q & Hq & Hqu & Hqt). left. exists q. split; [done|]. split; [done|].
      cbn [vm_mem] in Hqt. rewrite (over_table u s path t i) in Hqt; [done|done|done|done| |done].
      intros _. by rewrite present_set_address, physical_set_address, physical_address_idem, Epr.
  - pose proof (tree_frames _ _ Hok) as Hfok. destruct (fs_alloc (vm_frames s)) as [[frame|] f'] eqn:Ea; cbn [snd].
    + destruct (fs_alloc_some _ _ _ Hfok Ea) as (Hin & Hfree & _). constructor; cbn [vm_mem vm_frames].
      * rewrite Hfree. set_solver.
      * intros t' j Hf Hn. rewrite entry_write, entry_zero. rewrite decide_False by (intros [<- _]; done).
        rewrite decide_False; [done|]. intros [<- _]. done.
      * intros t' (q & Hq & Hqu & Hqt). cbn [vm_mem] in Hqt.
        destruct (link_cases u s path t i frame f' Hok Hp Hl Ht Hi Epr Ea q t' Hq Hqt) as [[_ ->]|[_ Hqt']]; [by right|].
        left. by exists q.
    + destruct (fs_alloc_none _ _ Hfok Ea) as (_ & Hfree & _). apply user_step_same; [done|]. cbn. by rewrite Hfree.
Qed.

Lemma leaf_user_step u (s : VM S) v p1 e : tree_ok u s -> user_half v -> table_at (vm_mem s) u (walk_path v) = Some p1 ->
  user_step u s (mkVM (write_entry p1 (p1_index v) e (vm_mem s)) (vm_frames s)).
Proof.
  intros Hok Hv Ht. pose proof (walk_path_ok v) as Hw. constructor; cbn [vm_mem vm_frames]; [done| |].
  - intros t j _ Hn. rewrite entry_write, decide_False; [done|]. intros [<- _]. apply Hn. by exists (walk_path v).
  - intros t (q & Hq & Hqu & Hqt). left. exists q. split; [done|]. split; [done|]. cbn [vm_mem] in Hqt.
    rewrite (over_table u s (walk_path v) p1 (p1_index v)) in Hqt; [done|done|done|done| |done]. cbn. lia.
Qed.

(** The walk of [map] and [map_executable] to the table of a user page. *)
Lemma walk_user_step {B} force u v (k : Z -> M (VM S) PtError B) (s : VM S) : tree_ok u s -> user_half v ->
  (forall p1 s1, tree_ok u s1 -> table_at (vm_mem s1) u (walk_path v) = Some p1 -> user_step u s1 (k p1 s1).2) ->
  user_step u s ((do p3 <- next_table force u (p4_index v); do p2 <- next_table force p3 (p3_index v);
                  do p1 <- next_table force p2 (p2_index v); k p1) s).2.
Proof.
  intros Hok Hv Hk. unfold bindM. pose proof (walk_path_ok v) as Hw. unfold walk_path in Hw.
  pose proof (path_ok_prefix [p4_index v] [p3_index v; p2_index v] Hw) as P1.
  pose proof (path_ok_prefix [p4_index v; p3_index v] [p2_index v] Hw) as P2.
  assert (path_ok []) as P0 by (split; [constructor|cbn; lia]).
  assert (idx_ok (p4_index v) /\ idx_ok (p3_index v) /\ idx_ok (p2_index v)) as (I4 & I3 & I2) by (repeat split; by apply index_ok).
  pose proof (next_table_spec force u s [] u (p4_index v) Hok P0 ltac:(cbn; lia) eq_refl I4) as H1.
  pose proof (next_table_user_step force u s [] u (p4_index v) Hok P0 ltac:(cbn; lia) eq_refl I I4) as U1.
  destruct (next_table force u (p4_index v) s) as [[t3|e] s1]; [|exact U1]. cbn [snd app] in U1, H1. destruct H1 as ((O1 & _) & T1 & _).
  pose proof (next_table_spec force u s1 [p4_index v] t3 (p3_index v) O1 P1 ltac:(cbn; lia) T1 I3) as H2.
  pose proof (next_table_user_step force u s1 [p4_index v] t3 (p3_index v) O1 P1 ltac:(cbn; lia) T1 Hv I3) as U2.
  destruct (next_table force t3 (p3_index v) s1) as [[t2|e] s2]; cbn [snd app] in U2, H2; [|by apply (user_step_trans u s s1 s2)].
  destruct H2 as ((O2 & _) & T2 & _).
  pose proof (next_table_spec force u s2 [p4_index v; p3_index v] t2 (p2_index v) O2 P2 ltac:(cbn; lia) T2 I2) as H3.
  pose proof (next_table_user_step force u s2 [p4_index v; p3_index v] t2 (p2_index v) O2 P2 ltac:(cbn; lia) T2 Hv I2) as U3.
  pose proof (user_step_trans u s s1 s2 U1 U2) as U12.
  destruct (next_table force t2 (p2_index v) s2) as [[t1|e] s3]; cbn [snd app] in U3, H3; [|by apply (user_step_trans u s s2 s3)].
  destruct H3 as ((O3 & _) & T3 & _). apply (user_step_trans u s s2); [done|]. apply (user_step_trans u s2 s3); [done|]. by apply Hk.
Qed.

Lemma map_user_step u v phys flags (s : VM S) : tree_ok u s -> user_half v -> user_step u s (map u v phys flags s).2.
Proof.
  intros Hok Hv. apply walk_user_step; [done|done|]. intros p1 s1 O1 T1.
  destruct (is_present _); [apply user_step_refl|by apply leaf_user_step].
Qed.

Lemma map_executable_user_step u v phys flags (s : VM S) : tree_ok u s -> user_half v ->
  user_step u s (map_executable u v phys flags s).2.
Proof. intros Hok Hv. apply walk_user_step; [done|done|]. intros p1 s1 O1 T1. by apply leaf_user_step. Qed.

(** A failing [map_executable] has changed no translation. *)
Lemma map_executable_grows u v phys flags (s : VM S) : tree_ok u s ->
  match map_executable u v phys flags s with
  | (Ok _, _) => True
  | (Err _, s') => tree_ok u s' /\ forall w, translate u w s' = translate u w s
  end.
Proof.
  intros Hok. unfold map_executable.
  destruct (walk_spec true u v (fun p1 => vm_write p1 (p1_index v) (set_address phys (Z.land flags (wnot 64 NO_EXECUTE)))) s Hok)
    as [(p1 & s1 & Hg & Ht & Hx & ->)|(s1 & Hg & ->)]; [done|]. split; [apply Hg|]. intros w. by apply grows_translate.
Qed.

(** *** The kernel's view *)

(** The user tables of [u] are none of [k]'s. *)
Definition apart (k u : Z) (s : VM S) : Prop :=
  forall p t, path_ok p -> table_at (vm_mem s) k p = Some t -> ~ user_table u s t.

(** What every change of user tables leaves: the kernel's translations. *)
Lemma kernel_kept k u (s s' : VM S) : tree_ok k s -> apart k u s -> user_step u s s' -> fs_ok (vm_frames s') ->
  tree_ok k s' /\ apart k u s' /\ (forall w, translate k w s' = translate k w s).
Proof.
  intros Hok Ha [F E T] Hf. assert (forall p t i, path_ok p -> table_at (vm_mem s) k p = Some t ->
    entry (vm_mem s') t i = entry (vm_mem s) t i) as Hent.
  { intros p t i Hp Ht. apply E; [by apply (tree_used _ _ Hok p)|by apply (Ha p)]. }
  assert (forall p, path_ok p -> table_at (vm_mem s') k p = table_at (vm_mem s) k p) as Htab.
  { intros p Hp. apply table_at_ext. intros pre j post -> t Ht. by rewrite (Hent pre t j (path_ok_prefix _ _ Hp) Ht). }
  split; [|split].
  - constructor; [| |done].
    + intros p q t Hp Hq. rewrite !Htab by done. by apply (tree_inj _ _ Hok).
    + intros p t Hp Ht. rewrite Htab in Ht by done. pose proof (tree_used _ _ Hok p t Hp Ht). set_solver.
  - intros p t Hp Ht [Hu|Hu]%T; rewrite Htab in Ht by done; [by apply (Ha p t)|]. by apply (tree_used _ _ Hok p t Hp Ht).
  - intros w. rewrite !translate_leaf. unfold leaf. rewrite Htab by apply walk_path_ok.
    destruct (table_at (vm_mem s) k (walk_path w)) as [t|] eqn:Et; [|done]. by rewrite (Hent (walk_path w) t _ (walk_path_ok w) Et).
Qed.
End Share.

(** ** Pages and what is in them

    The bytes of memory, by physical address, beside the tables; the kernel writes
    them through its direct map. *)

Record Space (S : Type) : Type := mkSpace { sp_vm : VM S; sp_bytes : Mem }.
Arguments mkSpace {S} _ _.
Arguments sp_vm {S} _.
Arguments sp_bytes {S} _.

Definition pt_string (e : PtError) : string :=
  match e with
  | OutOfMemory => "Out of memory" | PageAlreadyMapped => "Page already mapped" | P3NotPresent => "P3 not present"
  | P2NotPresent => "P2 not present" | P1NotPresent => "P1 not present" | PageNotMapped => "Page not mapped"
  end%string.

(** [write_bytes(ptr, 0, PAGE_SIZE)]. *)
Definition zero_page (frame : Z) (m : Mem) : Mem := store_bytes frame (replicate (Z.to_nat PAGE_SIZE) 0) m.

Lemma byte_zero_page frame m a : byte (zero_page frame m) a = if (frame <=? a) && (a <? frame + PAGE_SIZE) then 0 else byte m a.
Proof.
  unfold zero_page. rewrite byte_store, length_replicate, Z2Nat.id by done.
  destruct (_ && _) eqn:E; [|done]. apply andb_prop in E as [E1%Z.leb_le E2%Z.ltb_lt].
  rewrite lookup_replicate_2; [done|]. apply Z2Nat.inj_lt; lia.
Qed.

#[global] Opaque zero_page.

Section Contents.
Context {S : Type} `{FS : FrameSource S}.

Definition Load (A : Type) : Type := M (Space S) (Failure string) A.

Definition free_frames (s : Space S) : gset Z := fs_free (vm_frames (sp_vm s)).

Definition on_vm {A} (f : M (VM S) PtError A) : Load A := fun s =>
  match f (sp_vm s) with
  | (Ok a, vm) => (Ok a, mkSpace vm (sp_bytes s))
  | (Err e, vm) => (Err (Error (pt_string e)), mkSpace vm (sp_bytes s))
  end.

Definition on_bytes (f : Mem -> Mem) : Load unit := fun s => (Ok tt, mkSpace (sp_vm s) (f (sp_bytes s))).

(** [allocate_frame().ok_or(msg)]. *)
Definition take_frame (msg : string) : Load Z := fun s =>
  match fs_alloc (vm_frames (sp_vm s)) with
  | (Some p, f) => (Ok p, mkSpace (mkVM (vm_mem (sp_vm s)) f) (sp_bytes s))
  | (None, f) => (Err (Error msg), mkSpace (mkVM (vm_mem (sp_vm s)) f) (sp_bytes s))
  end.

(** A fresh page of zeros for a user address. *)
Definition place_page (exec : bool) (msg : string) (u flags v : Z) : Load Z :=
  do frame <- take_frame msg;
  do_ on_bytes (zero_page frame);
  do_ on_vm (if exec then map_executable u v frame flags else map u v frame flags);
  ret frame.

(** What a program sees at a user address. *)
Definition user_byte (u v : Z) (s : Space S) : option Z :=
  (fun f => byte (sp_bytes s) (f + page_offset v)) <$> translate u v (sp_vm s).

(** Pages of the user half are in use and each frame is behind one page only. *)
Record pages_ok (u : Z) (s : Space S) : Prop := {
  po_tree : tree_ok u (sp_vm s);
  po_held v f : user_half v -> translate u v (sp_vm s) = Some f -> f ∉ free_frames s /\ 0 <= f /\ f mod PAGE_SIZE = 0;
  po_inj v w f : user_half v -> user_half w -> translate u v (sp_vm s) = Some f -> translate u w (sp_vm s) = Some f -> same_page v w
}.

Lemma user_half_page v w : same_page v w -> user_half v -> user_half w.
Proof. unfold same_page, user_half, walk_path. intros [[= -> _ _] _]. done. Qed.

Lemma page_offset_range v : 0 <= page_offset v < PAGE_SIZE.
Proof. unfold page_offset. change 0xFFF with (Z.ones 12). rewrite Z.land_ones by lia. by apply Z.mod_pos_bound. Qed.

Lemma user_half_small v : 0 <= v < 2 ^ 47 -> user_half v.
Proof.
  intros Hv. unfold user_half, p4_index. change 0x1FF with (Z.ones 9). rewrite Z.land_ones, Z.shiftr_div_pow2 by lia.
  assert (0 <= v / 2 ^ 39 < 256) as H by (split; [apply Z.div_pos; lia|apply Z.div_lt_upper_bound; lia]).
  rewrite Z.mod_small by lia. lia.
Qed.

Lemma page_offset_mod v : page_offset v = v mod PAGE_SIZE.
Proof. unfold page_offset, PAGE_SIZE. change 0xFFF with (Z.ones 12). by rewrite Z.land_ones. Qed.

(** Addresses in different frames differ. *)
Lemma frame_byte_ne f g o1 : 0 <= f -> f mod PAGE_SIZE = 0 -> g mod PAGE_SIZE = 0 -> f <> g -> 0 <= o1 < PAGE_SIZE ->
  ~ (g <= f + o1 < g + PAGE_SIZE).
Proof. unfold PAGE_SIZE. intros. Z.to_euclidean_division_equations. lia. Qed.

(** The state of the tables after a mapping, with either function. *)
Lemma map_either_spec (exec : bool) u v phys flags (s : VM S) : tree_ok u s -> page_addr phys -> is_present flags = true ->
  user_half v -> (exec = true -> translate u v s = None) ->
  let '(r, s') := (if exec then map_executable u v phys flags else map u v phys flags) s in
  tree_ok u s' /\ user_step u s s' /\ (forall w, ~ same_page v w -> translate u w s' = translate u w s) /\
  match r with
  | Ok _ => translate u v s = None /\ (forall w, same_page v w -> translate u w s' = Some phys)
  | Err _ => forall w, translate u w s' = translate u w s
  end.
Proof.
  intros Hok Hp Hf Hv He. destruct exec.
  - pose proof (map_executable_user_step u v phys flags s Hok Hv) as U. specialize (He eq_refl).
    pose proof (map_executable_grows u v phys flags s Hok) as G.
    pose proof (fun s' => map_executable_correct u v phys flags s s' Hok Hp Hf) as C.
    destruct (map_executable u v phys flags s) as [[[]|e] s']; cbn [snd] in U.
    + destruct (C s' eq_refl) as (T & _ & _ & Hs & Ho). done.
    + destruct G as [T G]. split; [done|]. split; [done|]. split; [|done]. intros w _. apply G.
  - pose proof (map_user_step u v phys flags s Hok Hv) as U. pose proof (map_meets_spec u v phys flags s Hok Hp Hf) as C.
    destruct (map u v phys flags s) as [[[]|e] s']; cbn [snd] in U.
    + destruct C as (C1 & C2 & C3 & C4). done.
    + destruct C as (C1 & C2 & _). split; [done|]. split; [done|]. split; [|done]. intros w _. apply C2.
Qed.
(** Changes that keep the translations, and those that add one page, keep [pages_ok]. *)
Lemma pages_kept u s s' : pages_ok u s -> tree_ok u (sp_vm s') -> free_frames s' ⊆ free_frames s ->
  (forall w, translate u w (sp_vm s') = translate u w (sp_vm s)) -> pages_ok u s'.
Proof.
  intros [_ Hh Hi] Ht Hf He. constructor; [done| |].
  - intros v f Hv Hvf. rewrite He in Hvf. destruct (Hh v f Hv Hvf) as [? ?]. split; [set_solver|done].
  - intros v w f. rewrite !He. apply Hi.
Qed.

Lemma pages_added u v f s s' : pages_ok u s -> tree_ok u (sp_vm s') -> free_frames s' ⊆ free_frames s ->
  f ∈ free_frames s -> f ∉ free_frames s' -> 0 <= f -> f mod PAGE_SIZE = 0 ->
  (forall w, same_page v w -> translate u w (sp_vm s') = Some f) ->
  (forall w, ~ same_page v w -> translate u w (sp_vm s') = translate u w (sp_vm s)) -> pages_ok u s'.
Proof.
  intros [_ Hh Hi] Ht Hf Hin Hout H0 Hm Hs Ho. constructor; [done| |].
  - intros w g Hw Hg. destruct (decide (same_page v w)) as [Hvw|Hvw]; [rewrite (Hs w Hvw) in Hg; by injection Hg as <-|].
    rewrite Ho in Hg by done. destruct (Hh w g Hw Hg) as [? ?]. split; [set_solver|done].
  - intros w1 w2 g Hw1 Hw2 Hg1 Hg2. destruct (decide (same_page v w1)) as [Hv1|Hv1], (decide (same_page v w2)) as [Hv2|Hv2].
    + apply (same_page_trans w1 v w2); [by apply same_page_sym|done].
    + rewrite (Hs w1 Hv1) in Hg1. rewrite Ho in Hg2 by done. injection Hg1 as <-. by destruct (Hh w2 f Hw2 Hg2).
    + rewrite (Hs w2 Hv2) in Hg2. rewrite Ho in Hg1 by done. injection Hg2 as <-. by destruct (Hh w1 f Hw1 Hg1).
    + rewrite Ho in Hg1, Hg2 by done. by apply (Hi w1 w2 g).
Qed.

(** Clearing a free frame shows nowhere. *)
Lemma zero_free_frame u f (s : Space S) vm w : pages_ok u s -> f ∈ free_frames s -> f mod PAGE_SIZE = 0 -> user_half w ->
  translate u w vm = translate u w (sp_vm s) -> user_byte u w (mkSpace vm (zero_page f (sp_bytes s))) = user_byte u w s.
Proof.
  intros Hok Hf Hm Hw Hw'. unfold user_byte. cbn [sp_vm sp_bytes]. rewrite Hw'. destruct (translate u w (sp_vm s)) as [g|] eqn:Eg; [|done].
  cbn [fmap option_fmap option_map]. f_equal. rewrite byte_zero_page. destruct (po_held u s Hok w g Hw Eg) as (Hg & G0 & Gm).
  pose proof (frame_byte_ne g f (page_offset w) G0 Gm Hm ltac:(intros ->; done) (page_offset_range w)) as Hno.
  destruct (Z.leb_spec f (g + page_offset w)), (Z.ltb_spec (g + page_offset w) (f + PAGE_SIZE)); cbn; [lia|done..].
Qed.

(** What [place_page] does to the space. *)
Definition placed (u v : Z) (s s' : Space S) : Prop :=
  pages_ok u s' /\ user_step u (sp_vm s) (sp_vm s') /\
  (forall w, ~ same_page v w -> translate u w (sp_vm s') = translate u w (sp_vm s)) /\
  (forall w, user_half w -> ~ same_page v w -> user_byte u w s' = user_byte u w s).

Lemma take_frame_spec u msg (s : Space S) : pages_ok u s ->
  let '(r, s') := take_frame msg s in
  pages_ok u s' /\ user_step u (sp_vm s) (sp_vm s') /\ vm_mem (sp_vm s') = vm_mem (sp_vm s) /\ sp_bytes s' = sp_bytes s /\
  match r with
  | Ok f => f ∈ free_frames s /\ free_frames s' = free_frames s ∖ {[f]} /\ 0 <= f /\ f mod PAGE_SIZE = 0 /\ page_addr f
  | Err e => e = Error msg /\ free_frames s = ∅
  end.
Proof.
  intros Hp. pose proof (po_tree u s Hp) as [H1 H2 H3]. pose proof (alloc_user_step u (sp_vm s) _ H3 eq_refl) as U. unfold take_frame.
  destruct (fs_alloc (vm_frames (sp_vm s))) as [[p|] f] eqn:E; cbn [snd] in U.
  - destruct (fs_alloc_some _ _ _ H3 E) as (Hin & Ef & Hok). destruct (fs_page _ _ H3 Hin) as [Hr Hm]. split.
    + apply (pages_kept u s); [done| |unfold free_frames; cbn; set_solver|done]. constructor; cbn; [done| |done].
      intros q t Hq Ht. specialize (H2 q t Hq Ht). set_solver.
    + repeat (split; [done|]). split; [lia|]. split; [done|by apply page_addr_of].
  - destruct (fs_alloc_none _ _ H3 E) as (He & Ef & Hok). split; [|done].
    apply (pages_kept u s); [done| |unfold free_frames; cbn; set_solver|done]. constructor; cbn; [done| |done].
    intros q t Hq Ht. specialize (H2 q t Hq Ht). set_solver.
Qed.

Lemma place_page_spec exec msg u flags v (s : Space S) : pages_ok u s -> is_present flags = true -> user_half v ->
  (exec = true -> translate u v (sp_vm s) = None) ->
  let '(r, s') := place_page exec msg u flags v s in
  placed u v s s' /\
  match r with
  | Ok f => translate u v (sp_vm s) = None /\ f ∈ free_frames s /\ f ∉ free_frames s' /\
            (forall w, same_page v w -> translate u w (sp_vm s') = Some f /\ user_byte u w s' = Some 0)
  | Err _ => forall w, translate u w (sp_vm s') = translate u w (sp_vm s)
  end.
Proof.
  intros Hok Hfl Hv He. unfold place_page, bindM. pose proof (take_frame_spec u msg s Hok) as H1.
  destruct (take_frame msg s) as [[f|e] s1]; destruct H1 as (Hok1 & U1 & Em & Eb & H1);
    assert (forall w, translate u w (sp_vm s1) = translate u w (sp_vm s)) as Et by (intros w; unfold translate; by rewrite Em).
  2:{ split; [|exact Et]. split; [done|]. split; [done|]. split; [done|]. intros w _ _. unfold user_byte. by rewrite Et, Eb. }
  destruct H1 as (Hin & Ef & H0 & Hm & Hp). unfold on_bytes, on_vm. cbn [sp_vm sp_bytes]. rewrite Eb.
  pose proof (map_either_spec exec u v f flags (sp_vm s1) (po_tree u s1 Hok1) Hp Hfl Hv ltac:(intros Hx; rewrite Et; by apply He)) as H2.
  destruct ((if exec then map_executable u v f flags else map u v f flags) (sp_vm s1)) as [[[]|e] vm]; destruct H2 as (T2 & U2 & O2 & R2);
    pose proof (user_step_trans u _ _ _ U1 U2) as U; pose proof (us_free u _ _ U2) as F2; fold (free_frames s1) in F2;
    set (s2 := mkSpace vm (zero_page f (sp_bytes s))); fold (free_frames s2) in F2.
  - destruct R2 as [N2 S2]. cbn [ret]. rewrite Et in N2. assert (f ∉ free_frames s2) as Hf by (change (fs_free (vm_frames vm)) with (free_frames s2) in F2; set_solver).
    assert (forall w, ~ same_page v w -> translate u w vm = translate u w (sp_vm s)) as O3 by (intros w Hw; by rewrite O2, Et).
    split; [split; [|split; [done|split; [exact O3|]]]|split; [done|split; [done|split; [done|]]]].
    + apply (pages_added u v f s s2); try done. change (fs_free (vm_frames vm)) with (free_frames s2) in F2. set_solver.
    + intros w Hw Hvw. apply zero_free_frame; [done..|]. by apply O3.
    + intros w Hw. cbn [sp_vm]. split; [by apply S2|]. unfold user_byte. cbn [sp_vm sp_bytes s2]. rewrite (S2 w Hw). cbn [fmap option_fmap option_map].
      f_equal. rewrite byte_zero_page. pose proof (page_offset_range w). by rewrite (proj2 (Z.leb_le _ _)), (proj2 (Z.ltb_lt _ _)) by lia.
  - assert (forall w, translate u w vm = translate u w (sp_vm s)) as O3 by (intros w; by rewrite R2, Et).
    split; [|exact O3]. split; [|split; [done|split; [intros w _; apply O3|]]].
    + apply (pages_kept u s s2); try done. change (fs_free (vm_frames vm)) with (free_frames s2) in F2. set_solver.
    + intros w Hw _. apply zero_free_frame; [done..|apply O3].
Qed.
End Contents.

(** ** A new address space *)

Definition USER_STACK_BASE : Z := 0x00007FFFFFE00000.
Definition USER_STACK_SIZE : Z := 0x10000.
Definition USER_STACK_PAGES : Z := USER_STACK_SIZE / PAGE_SIZE.
Definition USER_CODE_BASE : Z := 0x0000000000400000.
Definition STACK_FLAGS : Z := Z.lor (Z.lor (Z.lor PRESENT WRITABLE) USER) NO_EXECUTE.

(** Entries 256 to 511 of the kernel's top table, into the new one. *)
Definition copy_kernel_half (k u : Z) (m : memory) : memory :=
  foldl (fun m i => write_entry u i (entry m k i) m) m (seqZ 256 256).

Lemma entry_copy k u m t i : k <> u ->
  entry (copy_kernel_half k u m) t i = if decide (t = u /\ 256 <= i < 512) then entry m k i else entry m t i.
Proof.
  intros Hne. unfold copy_kernel_half.
  assert (forall l m, (forall j, entry (foldl (fun m i => write_entry u i (entry m k i) m) m l) k j = entry m k j) /\
    entry (foldl (fun m i => write_entry u i (entry m k i) m) m l) t i = if decide (t = u /\ i ∈ l) then entry m k i else entry m t i) as H.
  { clear m. induction l as [|j l IH]; intros m; cbn [foldl].
    - split; [done|]. rewrite decide_False; [done|]. intros [_ H]. by apply not_elem_of_nil in H.
    - destruct (IH (write_entry u j (entry m k j) m)) as [I1 I2]. split.
      + intros j'. rewrite I1, entry_write. rewrite decide_False; [done|]. intros [-> _]. done.
      + rewrite I2, !entry_write. rewrite (decide_False (P := u = k /\ j = i)) by (intros [-> _]; done).
        destruct (decide (u = t /\ j = i)) as [[<- <-]|Hn].
        * rewrite (decide_True (P := u = u /\ j ∈ j :: l)) by (split; [done|by left]). by destruct (decide _).
        * pose proof (elem_of_cons l i j). destruct (decide _), (decide _); try done; exfalso; naive_solver. }
  rewrite (proj2 (H (seqZ 256 256) m)). pose proof (elem_of_seqZ 256 256 i).
  destruct (decide _), (decide _); try done; exfalso; naive_solver lia.
Qed.

#[global] Opaque copy_kernel_half.

Section Create.
Context {S : Type} `{FS : FrameSource S}.

Fixpoint place_pages (exec : bool) (msg : string) (u flags : Z) (vs : list Z) : Load unit :=
  match vs with
  | [] => ret tt
  | v :: vs => do_ place_page exec msg u flags v; place_pages exec msg u flags vs
  end.

Definition stack_pages : list Z := (fun i => USER_STACK_BASE +[64] (i *[64] PAGE_SIZE)) <$> seqZ 0 USER_STACK_PAGES.

Definition allocate_user_stack (u : Z) : Load Z :=
  do_ place_pages false "Out of memory for user stack" u STACK_FLAGS stack_pages;
  let stack_top := USER_STACK_BASE +[64] USER_STACK_SIZE in
  ret (Z.land stack_top (wnot 64 0xF)).

(** The current top table is [k]; the new manager is its table's address. *)
Definition create_user_address_space (k : Z) : Load (Z * Z) :=
  do pml4_frame <- take_frame "Out of memory for user page table";
  do_ (fun s => (Ok tt, mkSpace (mkVM (copy_kernel_half k pml4_frame (zero_table pml4_frame (vm_mem (sp_vm s)))) (vm_frames (sp_vm s))) (sp_bytes s)));
  do stack_top <- allocate_user_stack pml4_frame;
  ret (pml4_frame, stack_top).

(** *** What it has made *)

Section Fresh.
Context (k u : Z) (s : VM S) (f' : S).
Hypothesis Hok : tree_ok k s.
Hypothesis Halloc : fs_alloc (vm_frames s) = (Some u, f').

Let m := copy_kernel_half k u (zero_table u (vm_mem s)).
Let s' := mkVM m f'.

Lemma shared_fresh : u ∈ fs_free (vm_frames s) /\ fs_free f' = fs_free (vm_frames s) ∖ {[u]} /\ fs_ok f'.
Proof. apply fs_alloc_some; [apply (tree_frames _ _ Hok)|done]. Qed.

Lemma shared_ne p t : path_ok p -> table_at (vm_mem s) k p = Some t -> t <> u.
Proof. intros Hp Ht ->. apply (tree_used _ _ Hok p u Hp Ht). apply shared_fresh. Qed.

Lemma shared_root_ne : k <> u.
Proof. apply (shared_ne [] k); [split; [constructor|cbn; lia]|done]. Qed.

Lemma shared_entry t i : t <> u -> entry m t i = entry (vm_mem s) t i.
Proof.
  intros Ht. unfold m. rewrite entry_copy by apply shared_root_ne. rewrite decide_False by (intros [? _]; done).
  rewrite entry_zero. by rewrite decide_False by (intros [? _]; done).
Qed.

Lemma shared_kernel p : path_ok p -> table_at m k p = table_at (vm_mem s) k p.
Proof.
  intros Hp. apply table_at_ext. intros pre j post -> t Ht.
  rewrite shared_entry; [done|]. apply (shared_ne pre); [by eapply path_ok_prefix|done].
Qed.

Lemma shared_top i : idx_ok i -> entry m u i = if decide (256 <= i) then entry (vm_mem s) k i else 0.
Proof.
  intros Hi. unfold idx_ok in Hi. unfold m. rewrite entry_copy by apply shared_root_ne. rewrite !entry_zero.
  rewrite (decide_False (P := u = k /\ _)) by (intros [Hk _]; by apply shared_root_ne).
  destruct (decide (256 <= i)), (decide _); try (exfalso; naive_solver lia); [done|].
  by rewrite decide_True by (split; [done|lia]).
Qed.

(** Below the top table the new tree is the kernel's upper half. *)
Lemma shared_below i q : path_ok (i :: q) ->
  table_at m u (i :: q) = if decide (256 <= i) then table_at (vm_mem s) k (i :: q) else None.
Proof.
  intros Hq. pose proof (Forall_inv (proj1 Hq)) as Hi. destruct (decide (256 <= i)) as [Hge|Hlt].
  - rewrite <- (shared_kernel (i :: q) Hq). cbn [table_at].
    by rewrite (shared_top i Hi), decide_True, (shared_entry k i shared_root_ne) by done.
  - cbn [table_at]. by rewrite (shared_top i Hi), decide_False by done.
Qed.

Lemma shared_table q t : path_ok q -> table_at m u q = Some t ->
  (q = [] /\ t = u) \/ (~ user_path q /\ q <> [] /\ table_at (vm_mem s) k q = Some t).
Proof.
  intros Hq Ht. destruct q as [|i q]; [left; cbn in Ht; by simplify_eq|]. rewrite shared_below in Ht by done.
  destruct (decide (256 <= i)); [|done]. right. split; [cbn; lia|done].
Qed.

Lemma shared_tree_ok : tree_ok u s'.
Proof.
  destruct shared_fresh as (Hin & Hfree & Hfok). constructor; cbn [s' vm_mem vm_frames]; [| |done].
  - intros p q t Hp Hq Ht Ht'. destruct (shared_table p t Hp Ht) as [[-> E]|(_ & _ & Hk)], (shared_table q t Hq Ht') as [[-> E']|(_ & _ & Hk')].
    + done.
    + by destruct (shared_ne q t Hq Hk').
    + by destruct (shared_ne p t Hp Hk).
    + by apply (tree_inj _ _ Hok p q t).
  - intros p t Hp Ht. rewrite Hfree. destruct (shared_table p t Hp Ht) as [[-> ->]|(_ & _ & Hk)]; [set_solver|].
    pose proof (tree_used _ _ Hok p t Hp Hk). set_solver.
Qed.

Lemma shared_kernel_ok : tree_ok k s'.
Proof.
  destruct shared_fresh as (Hin & Hfree & Hfok). constructor; cbn [s' vm_mem vm_frames]; [| |done].
  - intros p q t Hp Hq. rewrite !shared_kernel by done. by apply (tree_inj _ _ Hok).
  - intros p t Hp Ht. rewrite shared_kernel in Ht by done. rewrite Hfree. pose proof (tree_used _ _ Hok p t Hp Ht). set_solver.
Qed.

Lemma shared_apart : apart k u s'.
Proof.
  intros p t Hp Ht (q & Hq & Hu & Hqt). cbn [s' vm_mem] in *. rewrite shared_kernel in Ht by done.
  destruct (shared_table q t Hq Hqt) as [[_ ->]|(Hnu & _)]; [|done]. by destruct (shared_ne p u Hp Ht).
Qed.

Lemma shared_kernel_translate w : translate k w s' = translate k w s.
Proof.
  rewrite !translate_leaf. unfold leaf. cbn [s' vm_mem]. rewrite shared_kernel by apply walk_path_ok.
  destruct (table_at (vm_mem s) k (walk_path w)) as [t|] eqn:E; [|done].
  by rewrite shared_entry by (by apply (shared_ne (walk_path w) t (walk_path_ok w))).
Qed.

Lemma shared_user_translate w : translate u w s' = if decide (user_half w) then None else translate k w s.
Proof.
  rewrite !translate_leaf. unfold leaf. cbn [s' vm_mem]. pose proof (walk_path_ok w) as Hw.
  assert (table_at m u (walk_path w) = if decide (user_half w) then None else table_at (vm_mem s) k (walk_path w)) as ->.
  { unfold walk_path, user_half in *. rewrite shared_below by done. destruct (decide (256 <= p4_index w)), (decide (p4_index w < 256)); lia || done. }
  destruct (decide (user_half w)); [done|]. destruct (table_at (vm_mem s) k (walk_path w)) as [t|] eqn:E; [|done].
  by rewrite shared_entry by (by apply (shared_ne (walk_path w) t (walk_path_ok w))).
Qed.
End Fresh.

Lemma place_pages_spec msg u flags vs : forall s : Space S, pages_ok u s -> is_present flags = true -> Forall user_half vs ->
  let '(r, s') := place_pages false msg u flags vs s in
  pages_ok u s' /\ user_step u (sp_vm s) (sp_vm s') /\
  (forall w, (forall v, v ∈ vs -> ~ same_page v w) ->
     translate u w (sp_vm s') = translate u w (sp_vm s) /\ (user_half w -> user_byte u w s' = user_byte u w s)) /\
  (is_ok r = true -> forall v w, v ∈ vs -> same_page v w -> translate u w (sp_vm s) = None /\ user_byte u w s' = Some 0).
Proof.
  induction vs as [|v vs IH]; intros s Hok Hf Hu; cbn [place_pages].
  - split; [done|]. split; [apply user_step_refl|]. split; [done|]. intros _ v w Hv. by apply not_elem_of_nil in Hv.
  - apply Forall_cons in Hu as [Hv Hu]. unfold bindM.
    pose proof (place_page_spec false msg u flags v s Hok Hf Hv ltac:(done)) as H1.
    destruct (place_page false msg u flags v s) as [[f|e] s1]; destruct H1 as ((Hok1 & U1 & O1 & B1) & R1).
    2:{ split; [done|]. split; [done|]. split; [|done]. intros w Hw. assert (~ same_page v w) as Hn by (apply Hw; by left).
        split; [by apply O1|]. intros Hw'. by apply B1. }
    destruct R1 as (N1 & _ & _ & S1). specialize (IH s1 Hok1 Hf Hu).
    destruct (place_pages false msg u flags vs s1) as [r s2]. destruct IH as (Hok2 & U2 & O2 & R2).
    split; [done|]. split; [by apply (user_step_trans u _ (sp_vm s1))|]. split.
    + intros w Hw. assert (~ same_page v w) as Hn by (apply Hw; by left).
      destruct (O2 w) as [O3 B3]; [intros v' Hv'; apply Hw; by right|]. split; [by rewrite O3, O1|].
      intros Hw'. by rewrite B3, B1.
    + intros Hr v' w [->|Hv']%elem_of_cons Hw.
      * split; [by rewrite (translate_same_page u v w _ Hw)|]. destruct (O2 w) as [_ B3].
        { intros v' Hv' Hs. destruct (R2 Hr v' w Hv' Hs) as [Hn _]. by rewrite (proj1 (S1 w Hw)) in Hn. }
        rewrite B3 by (by apply (user_half_page v)). apply (S1 w Hw).
      * destruct (R2 Hr v' w Hv' Hw) as [Hn Hb]. split; [|done]. rewrite <- Hn. symmetry. apply O1. intros Hs.
        by rewrite (proj1 (S1 w Hs)) in Hn.
Qed.

Definition on_stack (w : Z) : Prop := exists v, v ∈ stack_pages /\ same_page v w.

#[global] Instance on_stack_dec w : Decision (on_stack w).
Proof.
  unfold on_stack. destruct (@Exists_dec _ (fun v => same_page v w) (fun v => same_page_dec v w) stack_pages) as [H|H]; [left|right];
    rewrite Exists_exists in H; exact H.
Defined.

Lemma stack_pages_user : Forall user_half stack_pages.
Proof. apply (bool_decide_unpack _). vm_compute. exact I. Qed.

Lemma create_user_address_space_spec k (s : Space S) : tree_ok k (sp_vm s) ->
  let '(r, s') := create_user_address_space k s in
  tree_ok k (sp_vm s') /\ (forall w, translate k w (sp_vm s') = translate k w (sp_vm s)) /\
  match r with
  | Ok (u, stack_top) =>
      pages_ok u s' /\ apart k u (sp_vm s') /\ stack_top = USER_STACK_BASE + USER_STACK_SIZE /\
      (forall w, ~ user_half w -> translate u w (sp_vm s') = translate k w (sp_vm s)) /\
      (forall w, user_half w -> user_byte u w s' = if decide (on_stack w) then Some 0 else None)
  | Err _ => True
  end.
Proof.
  intros Hok. unfold create_user_address_space, bindM, take_frame. pose proof (tree_frames _ _ Hok) as Hfok.
  destruct (fs_alloc (vm_frames (sp_vm s))) as [[u|] f'] eqn:E; cbn [sp_vm sp_bytes vm_mem vm_frames].
  2:{ destruct (fs_alloc_none _ _ Hfok E) as (_ & Ef & Hok'). split; [|done]. constructor; cbn; [apply (tree_inj _ _ Hok)| |done].
      intros p t Hp Ht. rewrite Ef. by apply (tree_used _ _ Hok p t). }
  set (s1 := mkSpace (mkVM (copy_kernel_half k u (zero_table u (vm_mem (sp_vm s)))) f') (sp_bytes s)).
  assert (tree_ok k (sp_vm s1)) as K1 by (by apply shared_kernel_ok).
  assert (apart k u (sp_vm s1)) as A1 by (by apply shared_apart).
  assert (forall w, translate k w (sp_vm s1) = translate k w (sp_vm s)) as TK1 by (intros w; by apply shared_kernel_translate).
  assert (forall w, translate u w (sp_vm s1) = if decide (user_half w) then None else translate k w (sp_vm s)) as TU1
    by (intros w; by apply shared_user_translate).
  assert (pages_ok u s1) as P1.
  { constructor; [by apply (shared_tree_ok k)| |]; intros v; intros; rewrite TU1, decide_True in * by done; done. }
  pose proof (place_pages_spec "Out of memory for user stack" u STACK_FLAGS stack_pages s1 P1 eq_refl stack_pages_user) as H.
  unfold allocate_user_stack, bindM. destruct (place_pages _ _ _ _ _ s1) as [r s2]. destruct H as (P2 & U2 & O2 & R2).
  destruct (kernel_kept k u (sp_vm s1) (sp_vm s2) K1 A1 U2 (tree_frames _ _ (po_tree u s2 P2))) as (K2 & A2 & TK2).
  assert (forall w, translate k w (sp_vm s2) = translate k w (sp_vm s)) as TK by (intros w; by rewrite TK2, TK1).
  destruct r as [[]|e]; cbn [ret]; [|done]. split; [done|]. split; [done|]. split; [done|]. split; [done|]. split; [by vm_compute|].
  assert (forall w, ~ on_stack w -> forall v, v ∈ stack_pages -> ~ same_page v w) as Hno.
  { intros w Hw v Hv Hs. apply Hw. by exists v. }
  split.
  - intros w Hw. destruct (O2 w) as [-> _]; [|by rewrite TU1, decide_False]. intros v Hv Hs. apply Hw, (user_half_page v); [done|].
    pose proof stack_pages_user as Hu. rewrite Forall_forall in Hu. by apply Hu.
  - intros w Hw. destruct (decide (on_stack w)) as [(v & Hv & Hs)|Hn]; [by apply (R2 eq_refl v w Hv Hs)|].
    destruct (O2 w) as [_ E2]; [by apply Hno|]. rewrite E2 by done. unfold user_byte. by rewrite TU1, decide_True.
Qed.

Lemma stack_pages_above v : v ∈ stack_pages -> USER_STACK_BASE <= v < USER_STACK_BASE + USER_STACK_SIZE.
Proof.
  assert (Forall (fun v => USER_STACK_BASE <= v < USER_STACK_BASE + USER_STACK_SIZE) stack_pages) as H.
  { apply (bool_decide_unpack _). vm_compute. exact I. }
  rewrite Forall_forall in H. apply H.
Qed.

(** C31: A new address space translates the kernel's half as the kernel does and, below
    it, the sixteen pages of the stack and nothing else, each to a frame of zeros of
    its own; whether it can be made or not, the kernel's own translations stay. *)
Theorem create_user_address_space_correct k (s : Space S) : tree_ok k (sp_vm s) ->
  let '(r, s') := create_user_address_space k s in
  tree_ok k (sp_vm s') /\ (forall w, translate k w (sp_vm s') = translate k w (sp_vm s)) /\
  match r with
  | Ok (u, stack_top) =>
      pages_ok u s' /\ apart k u (sp_vm s') /\ stack_top = USER_STACK_BASE + USER_STACK_SIZE /\
      (forall w, ~ user_half w -> translate u w (sp_vm s') = translate k w (sp_vm s)) /\
      (forall w, user_half w -> user_byte u w s' = if decide (on_stack w) then Some 0 else None)
  | Err _ => True
  end.
Proof. exact (create_user_address_space_spec k s). Qed.
End Create.

(** ** Witnesses *)

(** A kernel with 64 frames and one page of its own mapped in its half. *)
Definition kernel_map : list MemoryMapEntry := [mkEntry 0x200000 0x40000 true].
Definition kernel_boot : VM FrameAllocator := mkVM ∅ (init kernel_map new).
Definition kernel_p4 : Z := 0x200000.
Definition kernel_new : VM FrameAllocator := (new_p4 kernel_boot).2.
Definition kernel_page : Z := 0xFFFFFFFF80000000.
Definition kernel_vm : VM FrameAllocator := (map kernel_p4 kernel_page 0x23F000 demo_flags kernel_new).2.

Lemma kernel_boot_ok : fs_ok (vm_frames kernel_boot).
Proof.
  refine (proj1 (init_meets_spec kernel_map new new_wf _)). apply Forall_singleton. by vm_compute.
Qed.

Lemma kernel_new_ok : tree_ok kernel_p4 kernel_new.
Proof.
  refine (proj1 (new_p4_tree_ok kernel_boot kernel_new kernel_p4 kernel_boot_ok _)). unfold kernel_new.
  apply (pair_fst (new_p4 kernel_boot)). by vm_compute.
Qed.

Lemma kernel_vm_ok : tree_ok kernel_p4 kernel_vm.
Proof.
  pose proof (map_meets_spec kernel_p4 kernel_page 0x23F000 demo_flags kernel_new kernel_new_ok eq_refl eq_refl) as H.
  unfold kernel_vm. destruct (map kernel_p4 kernel_page 0x23F000 demo_flags kernel_new) as [[?|?] s']; apply H.
Qed.

Definition kernel_space : Space FrameAllocator := mkSpace kernel_vm ∅.
Definition user_space : Space FrameAllocator := (create_user_address_space kernel_p4 kernel_space).2.
Definition user_p4 : Z := 0x204000.

Lemma user_space_made : create_user_address_space kernel_p4 kernel_space = (Ok (user_p4, 0x7FFFFFE10000), user_space).
Proof. unfold user_space. apply (pair_fst (create_user_address_space kernel_p4 kernel_space)). vm_compute. reflexivity. Qed.

Lemma create_user_address_space_correct_witness :
  translate user_p4 kernel_page (sp_vm user_space) = Some 0x23F000 /\ user_byte user_p4 USER_STACK_BASE user_space = Some 0.
Proof.
  pose proof (create_user_address_space_correct kernel_p4 kernel_space kernel_vm_ok) as H. rewrite user_space_made in H.
  destruct H as (_ & _ & _ & _ & _ & Hk & Hu). split.
  - rewrite (Hk kernel_page) by (apply (bool_decide_unpack _); vm_compute; exact I). vm_compute. reflexivity.
  - rewrite (Hu USER_STACK_BASE) by (apply (bool_decide_unpack _); vm_compute; exact I). vm_compute. reflexivity.
Defined.
