(* ===== verification/UserMem.v ===== *)
(** * The memory of a program, seen from the kernel

    During a system call the tables of the caller are in use and the kernel, in ring 0,
    reads and writes through raw pointers.  The processor lets ring 0 follow any
    canonical address that is mapped, in the kernel's half as well (nothing in src/
    turns SMAP on), and write it when the entries of all four levels are WRITABLE
    (CR0.WP is set when the boot loader hands over, and [main.rs] changes only the bits EM and MP); the USER bit
    holds back only the program.  Any other access is a page fault, and the handler of
    page faults panics ([interrupts/handlers.rs]).  Tables are walked as
    [memory/paging.rs] does, without large pages, and they are not among the bytes. *)

From Stdlib Require Import ZArith Lia Bool.
From stdpp Require Import base numbers option list gmap sets strings.
From S2P Require Import Prelude Bytes Frame Paging Mapping UserSpace.

Open Scope Z_scope.

(** The end of the lower half; addresses from here up to the upper half are not canonical. *)
Definition USER_LIMIT : Z := 0x0000800000000000.

(** The addresses that the processor accepts: bits 47 to 63 are equal. *)
Definition canonical (v : Z) : bool := ((0 <=? v) && (v <? USER_LIMIT)) || ((2 ^ 64 - USER_LIMIT <=? v) && (v <? 2 ^ 64)).

(** Every entry on the way to the page is present and carries [flags]. *)
Fixpoint path_has (flags : Z) (m : memory) (t : Z) (path : list Z) : bool :=
  match path with
  | [] => true
  | i :: path => let e := entry m t i in is_present e && (Z.land e flags =? flags) && path_has flags m (physical_address e) path
  end.

(** The indices of all four levels. *)
Definition full_path (v : Z) : list Z := walk_path v ++ [p1_index v].

(** The entries of one table that are present carry USER, and those of the tables
    below it, [levels] deep. *)
Fixpoint user_table (m : memory) (levels : nat) (t : Z) (indices : list Z) : bool :=
  forallb (fun i =>
    let e := entry m t i in
    if is_present e then
      if Z.land e USER =? 0 then false
      else match levels with O => true | Datatypes.S levels => user_table m levels (physical_address e) (seqZ 0 512) end
    else true) indices.

Section UserMem.
Context {S : Type} `{FS : FrameSource S}.

Definition read_user (u v : Z) (sp : Space S) : option Z := if canonical v then user_byte u v sp else None.

(** [slice::from_raw_parts(ptr, len)] and reading all of it. *)
Definition user_slice (u ptr len : Z) (sp : Space S) : option (list Z) := mapM (fun v => read_user u v sp) (seqZ ptr len).

(** Ring 0 may write here, and the program itself may. *)
Definition is_writable (u v : Z) (vm : VM S) : bool := path_has WRITABLE (vm_mem vm) u (full_path v).
Definition user_may_write (u v : Z) (vm : VM S) : bool := path_has (Z.lor WRITABLE USER) (vm_mem vm) u (full_path v).

(** Whatever is mapped in the lower half is mapped for the program. *)
Definition lower_half_user (u : Z) (vm : VM S) : bool := user_table (vm_mem vm) 3 u (seqZ 0 256).

Definition write_user (u v b : Z) (sp : Space S) : option (Space S) :=
  if canonical v && is_writable u v (sp_vm sp) then
    match translate u v (sp_vm sp) with
    | Some f => Some (mkSpace (sp_vm sp) (store_bytes (f + page_offset v) [b] (sp_bytes sp)))
    | None => None
    end
  else None.

Fixpoint write_user_bytes (u v : Z) (bs : list Z) (sp : Space S) : option (Space S) :=
  match bs with
  | [] => Some sp
  | b :: bs => match write_user u v b sp with Some sp => write_user_bytes u (v + 1) bs sp | None => None end
  end.

(** ** What they do *)

(** The [n] bytes from [v] on can be written. *)
Definition user_writable (u v n : Z) (sp : Space S) : Prop :=
  forall w, v <= w < v + n -> w < USER_LIMIT /\ is_writable u w (sp_vm sp) = true /\ is_Some (translate u w (sp_vm sp)).

Lemma page_address_split v : v = v / PAGE_SIZE * PAGE_SIZE + page_offset v.
Proof. rewrite page_offset_mod. unfold PAGE_SIZE. Z.to_euclidean_division_equations. lia. Qed.

(** Two user addresses with the same byte of memory behind them are the same. *)
Lemma user_place_inj u v w f g (s : Space S) : pages_ok u s -> 0 <= v < 2 ^ 47 -> 0 <= w < 2 ^ 47 ->
  translate u v (sp_vm s) = Some f -> translate u w (sp_vm s) = Some g -> f + page_offset v = g + page_offset w -> v = w.
Proof.
  intros Hok Hv Hw Hf Hg He. destruct (po_held u s Hok v f (user_half_small v Hv) Hf) as (_ & F0 & Mf).
  destruct (po_held u s Hok w g (user_half_small w Hw) Hg) as (_ & G0 & Mg).
  pose proof (page_offset_range v) as Ov. pose proof (page_offset_range w) as Ow.
  assert (f = g /\ page_offset v = page_offset w) as [<- Eo] by (unfold PAGE_SIZE in *; Z.to_euclidean_division_equations; lia).
  pose proof (po_inj u s Hok v w f (user_half_small v Hv) (user_half_small w Hw) Hf Hg) as Hs.
  apply same_page_small in Hs; [|done|done]. rewrite !Z.shiftr_div_pow2 in Hs by lia. change (2 ^ 12) with PAGE_SIZE in Hs.
  rewrite (page_address_split v), (page_address_split w). by rewrite Hs, Eo.
Qed.

Lemma canonical_low v : 0 <= v < USER_LIMIT -> canonical v = true.
Proof. intros [H1 H2]. unfold canonical. by rewrite (proj2 (Z.leb_le _ _) H1), (proj2 (Z.ltb_lt _ _) H2). Qed.

(** The first address after the lower half is not canonical. *)
Lemma canonical_limit : canonical USER_LIMIT = false.
Proof. reflexivity. Qed.

(** No run of accepted addresses is longer than one half. *)
Lemma canonical_run v n : (forall w, v <= w < v + n -> canonical w = true) -> n <= USER_LIMIT.
Proof.
  intros Hc. destruct (Z.le_gt_cases n USER_LIMIT) as [|Hn]; [done|]. exfalso. unfold canonical, USER_LIMIT in *.
  pose proof (Hc v ltac:(lia)) as Hv. destruct (Z.lt_ge_cases v 0x800000000000) as [Hlow|Hhigh].
  - specialize (Hc 0x800000000000 ltac:(lia)). discriminate Hc.
  - specialize (Hc (2 ^ 64) ltac:(lia)). discriminate Hc.
Qed.

(** What the program may write, ring 0 may. *)
Lemma path_has_weaken f g m path : forall t, Z.land f g = g -> path_has f m t path = true -> path_has g m t path = true.
Proof.
  induction path as [|i path IH]; intros t Hfg; [done|]. cbn [path_has]. intros H. apply andb_true_iff in H as [H Hr]. apply andb_true_iff in H as [Hp Hf].
  rewrite Hp, (IH _ Hfg Hr). apply Z.eqb_eq in Hf. assert (Z.land (entry m t i) g = g) as -> by (rewrite <- Hfg at 1; rewrite Z.land_assoc, Hf; exact Hfg).
  by rewrite Z.eqb_refl.
Qed.

Lemma land_mask_full e i : 0 <= i -> (Z.land e (mask i) =? 0) = false -> Z.land e (mask i) = mask i.
Proof.
  intros Hi H. rewrite land_mask_zero in H by done. apply negb_false_iff in H. apply Z.bits_inj'. intros j Hj. rewrite Z.land_spec, mask_spec by done.
  destruct (Z.eqb_spec j i) as [->|]; [by rewrite H|by rewrite andb_false_r].
Qed.

Lemma user_table_path m levels : forall t indices path, user_table m levels t indices = true -> length path = Datatypes.S levels ->
  (forall i, path !! 0%nat = Some i -> i ∈ indices) -> Forall idx_ok path -> path_has WRITABLE m t path = true -> path_has (Z.lor WRITABLE USER) m t path = true.
Proof.
  induction levels as [|levels IH]; intros t indices [|i path] Hu Hl Hi Hp Hw; try done; cbn [path_has] in *;
    apply andb_true_iff in Hw as [Hw Hr]; apply andb_true_iff in Hw as [Hpr Hw]; rewrite Hpr; cbn [andb];
    cbn [user_table] in Hu; rewrite forallb_forall in Hu; specialize (Hu i); rewrite <- list_elem_of_In in Hu; specialize (Hu (Hi i eq_refl)); cbn zeta in Hu; rewrite Hpr in Hu;
    (destruct (Z.land (entry m t i) USER =? 0) eqn:Hus; [done|]).
  all: assert (Z.land (entry m t i) (Z.lor WRITABLE USER) =? Z.lor WRITABLE USER = true) as ->;
    [apply Z.eqb_eq; apply Z.eqb_eq in Hw; rewrite Z.land_lor_distr_r, Hw; f_equal; change USER with (mask 2) in *; by apply (land_mask_full _ 2)|].
  - by destruct path.
  - cbn [andb]. apply Forall_cons_1 in Hp as [_ Hp]. apply (IH _ (seqZ 0 512)); [exact Hu|by injection Hl|..|done|done].
    intros j Hj. apply elem_of_seqZ. by apply (Forall_lookup_1 _ _ _ _ Hp Hj).
Qed.

(** In such tables a page that ring 0 may write is one that the program may write. *)
Lemma lower_half_writable u v (vm : VM S) : lower_half_user u vm = true -> 0 <= v < USER_LIMIT -> is_writable u v vm = true -> user_may_write u v vm = true.
Proof.
  intros Hu Hv Hw. eapply (user_table_path _ 3 u (seqZ 0 256)); [exact Hu|done| | |exact Hw].
  - intros i [= <-]. apply elem_of_seqZ. unfold USER_LIMIT in Hv. split; [by apply (index_ok v 39)|]. apply user_half_small. lia.
  - unfold full_path, walk_path. repeat apply Forall_cons_2; [by apply (index_ok v 39)|by apply (index_ok v 30)|by apply (index_ok v 21)|apply p1_index_ok|constructor].
Qed.

Lemma write_user_spec u v b (sp : Space S) : pages_ok u sp -> 0 <= v -> user_writable u v 1 sp ->
  exists sp', write_user u v b sp = Some sp' /\ sp_vm sp' = sp_vm sp /\
    forall w, 0 <= w < 2 ^ 47 -> user_byte u w sp' = if decide (w = v) then Some b else user_byte u w sp.
Proof.
  intros Hok Hv Hw. destruct (Hw v ltac:(lia)) as (Hl & Hwr & [f Hf]). unfold write_user. rewrite (canonical_low v) by done. rewrite Hwr, Hf. cbn [andb].
  eexists. split; [done|]. split; [done|]. intros w Hw'. unfold user_byte. cbn [sp_vm sp_bytes]. destruct (decide (w = v)) as [->|Hne].
  - rewrite Hf. cbn [fmap option_fmap option_map]. f_equal. rewrite byte_store. cbn [length]. rewrite (proj2 (Z.leb_le _ _)), (proj2 (Z.ltb_lt _ _)) by lia.
    by rewrite Z.sub_diag.
  - destruct (translate u w (sp_vm sp)) as [g|] eqn:Eg; [|done]. cbn [fmap option_fmap option_map]. f_equal. rewrite byte_store. cbn [length].
    destruct (Z.leb_spec (f + page_offset v) (g + page_offset w)), (Z.ltb_spec (g + page_offset w) (f + page_offset v + Z.of_nat 1)); cbn [andb]; try done.
    exfalso. apply Hne. unfold USER_LIMIT in Hl. exact (user_place_inj u w v g f sp Hok Hw' ltac:(lia) Eg Hf ltac:(lia)).
Qed.

(** Writing to memory that can be written puts the bytes there and nowhere else. *)
Lemma write_user_bytes_spec u bs : forall v (sp : Space S), pages_ok u sp -> 0 <= v -> user_writable u v (Z.of_nat (length bs)) sp ->
  exists sp', write_user_bytes u v bs sp = Some sp' /\ sp_vm sp' = sp_vm sp /\
    forall w, 0 <= w < 2 ^ 47 -> user_byte u w sp' = if (v <=? w) && (w <? v + Z.of_nat (length bs)) then bs !! Z.to_nat (w - v) else user_byte u w sp.
Proof.
  induction bs as [|b bs IH]; intros v sp Hok Hv Hw; cbn [write_user_bytes length] in *.
  - exists sp. split; [done|]. split; [done|]. intros w _. destruct (Z.leb_spec v w), (Z.ltb_spec w (v + Z.of_nat 0)); cbn [andb]; done || lia.
  - destruct (write_user_spec u v b sp Hok Hv) as (sp1 & -> & V1 & B1); [intros w Hw'; apply Hw; lia|].
    assert (pages_ok u sp1) as Hok1 by (destruct Hok; constructor; unfold free_frames in *; by rewrite V1).
    destruct (IH (v + 1) sp1 Hok1) as (sp2 & -> & V2 & B2); [lia|intros w Hw'; rewrite V1; apply Hw; lia|]. exists sp2. split; [done|]. split; [congruence|].
    intros w Hwr. rewrite B2, B1 by done. destruct (Z.leb_spec (v + 1) w), (Z.ltb_spec w (v + 1 + Z.of_nat (length bs))); cbn [andb].
    + destruct (Z.leb_spec v w), (Z.ltb_spec w (v + Z.of_nat (Datatypes.S (length bs)))); cbn [andb]; try lia.
      replace (Z.to_nat (w - v)) with (Datatypes.S (Z.to_nat (w - (v + 1)))) by lia. done.
    + rewrite decide_False by lia. destruct (Z.leb_spec v w), (Z.ltb_spec w (v + Z.of_nat (Datatypes.S (length bs)))); cbn [andb]; done || lia.
    + destruct (decide (w = v)) as [->|Hne].
      * destruct (Z.leb_spec v v), (Z.ltb_spec v (v + Z.of_nat (Datatypes.S (length bs)))); cbn [andb]; try lia. by rewrite Z.sub_diag.
      * destruct (Z.leb_spec v w), (Z.ltb_spec w (v + Z.of_nat (Datatypes.S (length bs)))); cbn [andb]; done || lia.
    + lia.
Qed.

(** Reading memory that holds [bs] gives them. *)
Definition user_holds (u v : Z) (bs : list Z) (sp : Space S) : Prop :=
  v + Z.of_nat (length bs) <= USER_LIMIT /\ forall i b, bs !! i = Some b -> user_byte u (v + Z.of_nat i) sp = Some b.

Lemma user_slice_holds u bs : forall v (sp : Space S), 0 <= v -> user_holds u v bs sp -> user_slice u v (Z.of_nat (length bs)) sp = Some bs.
Proof.
  intros v sp Hv [Hl Hb]. unfold user_slice. apply mapM_Some_2. apply Forall2_same_length_lookup_2; [rewrite length_seqZ; lia|].
  intros i x y Hx Hy. apply lookup_seqZ in Hx as [-> Hi]. unfold read_user. apply Hb in Hy as Hy'. apply lookup_lt_Some in Hy.
  by rewrite canonical_low by lia.
Qed.

Lemma user_slice_length u v n (sp : Space S) bs : 0 <= n -> user_slice u v n sp = Some bs -> Z.of_nat (length bs) = n.
Proof. intros Hn H. unfold user_slice in H. apply length_mapM in H. rewrite length_seqZ in H. lia. Qed.
End UserMem.
