(* ===== verification/Elf.v ===== *)
(** * ELF files ([usermode/elf.rs])

    The header, the program headers and the bytes of a segment.  A file is the list
    of its bytes; what lies in memory around it is a parameter, since the slice of
    program headers is made without a check that it stays inside.  Theorems: a
    well-formed file is read back as it was written; headers of the standard size
    are read from the file only; and two ways in which a bad file reaches beyond. *)

From Stdlib Require Import ZArith Lia Bool.
From stdpp Require Import base numbers list strings.
From S2P Require Import Prelude Bytes.

Open Scope Z_scope.

Definition PT_LOAD : Z := 1.

Record Elf64Header : Type := mkHeader {
  e_ident : list Z; e_type : Z; e_machine : Z; e_version : Z; e_entry : Z; e_phoff : Z; e_shoff : Z; e_flags : Z;
  e_ehsize : Z; e_phentsize : Z; e_phnum : Z; e_shentsize : Z; e_shnum : Z; e_shstrndx : Z
}.

Definition SIZEOF_Elf64Header : nat := 64.

(** The structure that [data] begins with. *)
Definition header_at (data : list Z) : Elf64Header :=
  mkHeader (field 0 16 data) (get 16 2 data) (get 18 2 data) (get 20 4 data) (get 24 8 data) (get 32 8 data) (get 40 8 data)
    (get 48 4 data) (get 52 2 data) (get 54 2 data) (get 56 2 data) (get 58 2 data) (get 60 2 data) (get 62 2 data).

Definition ELF_MAGIC : list Z := [0x7F; 0x45; 0x4C; 0x46].

Definition parse (data : list Z) : Result Elf64Header (Failure string) :=
  if (length data <? SIZEOF_Elf64Header)%nat then Err (Error "Data too small for ELF header"%string)
  else
    let header := header_at data in
    if decide (take 4 (e_ident header) <> ELF_MAGIC) then Err (Error "Invalid ELF magic"%string)
    else if negb (default 0 (e_ident header !! 4%nat) =? 2) then Err (Error "Not 64-bit ELF"%string)
    else Ok header.

Definition entry_point (h : Elf64Header) : Z := e_entry h.

Record Elf64ProgramHeader : Type := mkProgramHeader {
  p_type : Z; p_flags : Z; p_offset : Z; p_vaddr : Z; p_paddr : Z; p_filesz : Z; p_memsz : Z; p_align : Z
}.

Definition SIZEOF_Elf64ProgramHeader : nat := 56.

Definition program_header_at (bytes : list Z) : Elf64ProgramHeader :=
  mkProgramHeader (get 0 4 bytes) (get 4 4 bytes) (get 8 8 bytes) (get 16 8 bytes) (get 24 8 bytes) (get 32 8 bytes)
    (get 40 8 bytes) (get 48 8 bytes).

Section Around.
(** The byte of memory at an offset from the file that is outside it. *)
Context (beyond : Z -> Z).

Definition elf_byte (data : list Z) (offset : Z) : Z :=
  let offset := wrap 64 offset in
  if offset <? Z.of_nat (length data) then default 0 (data !! Z.to_nat offset) else beyond offset.

Definition elf_bytes (data : list Z) (offset : Z) (n : nat) : list Z :=
  (fun k => elf_byte data (offset + Z.of_nat k)) <$> seq 0 n.

(** [from_raw_parts]: [phnum] structures one after the other. *)
Definition raw_headers (data : list Z) (phoff : Z) (phnum : nat) : list Elf64ProgramHeader :=
  (fun i => program_header_at (elf_bytes data (phoff + Z.of_nat (i * SIZEOF_Elf64ProgramHeader)) SIZEOF_Elf64ProgramHeader)) <$> seq 0 phnum.

Definition program_headers (h : Elf64Header) (data : list Z) : Result (list Elf64ProgramHeader) (Failure string) :=
  let phoff := e_phoff h in
  let phnum := e_phnum h in
  let phsize := e_phentsize h in
  if Z.of_nat (length data) <? phoff +[64] (phnum *[64] phsize) then Err (Error "Program headers out of bounds"%string)
  else Ok (raw_headers data phoff (Z.to_nat phnum)).
End Around.

Definition is_writable (ph : Elf64ProgramHeader) : bool := negb (Z.land (p_flags ph) 0x2 =? 0).
Definition is_executable (ph : Elf64ProgramHeader) : bool := negb (Z.land (p_flags ph) 0x1 =? 0).

(** [get_data]; the slice panics when it ends before it starts. *)
Definition get_data (ph : Elf64ProgramHeader) (elf_data : list Z) : Result (option (list Z)) (Failure string) :=
  let start := p_offset ph in
  let finish := start +[64] p_filesz ph in
  if Z.of_nat (length elf_data) <? finish then Ok None
  else if finish <? start then Err Panic
  else Ok (Some (take (Z.to_nat (finish - start)) (drop (Z.to_nat start) elf_data))).

(** ** Writing files *)

(** Integers with their sizes in bytes, one after the other. *)
Fixpoint pack (l : list (nat * Z)) : list Z := match l with [] => [] | (n, x) :: l => le n x ++ pack l end.

Definition packed_size (l : list (nat * Z)) : nat := foldr (fun p n => (p.1 + n)%nat) 0%nat l.

Definition header_fields (h : Elf64Header) : list (nat * Z) :=
  [(2, e_type h); (2, e_machine h); (4, e_version h); (8, e_entry h); (8, e_phoff h); (8, e_shoff h); (4, e_flags h);
   (2, e_ehsize h); (2, e_phentsize h); (2, e_phnum h); (2, e_shentsize h); (2, e_shnum h); (2, e_shstrndx h)]%nat.

Definition header_bytes (h : Elf64Header) : list Z := e_ident h ++ pack (header_fields h).

Definition program_header_fields (ph : Elf64ProgramHeader) : list (nat * Z) :=
  [(4, p_type ph); (4, p_flags ph); (8, p_offset ph); (8, p_vaddr ph); (8, p_paddr ph); (8, p_filesz ph); (8, p_memsz ph);
   (8, p_align ph)]%nat.

Definition program_header_bytes (ph : Elf64ProgramHeader) : list Z := pack (program_header_fields ph).

Definition fits (l : list (nat * Z)) : Prop := Forall (fun p => in_width (8 * Z.of_nat p.1) p.2) l.

Record header_wf (h : Elf64Header) : Prop := {
  hw_ident : length (e_ident h) = 16%nat;
  hw_magic : take 4 (e_ident h) = ELF_MAGIC /\ e_ident h !! 4%nat = Some 2;
  hw_fields : fits (header_fields h)
}.

Definition program_header_wf (ph : Elf64ProgramHeader) : Prop := fits (program_header_fields ph).

Lemma length_pack l : length (pack l) = packed_size l.
Proof. induction l as [|[n x] l IH]; cbn [pack packed_size foldr]; [done|]. by rewrite length_app, length_le, IH. Qed.

(** Every integer is read back from where it was written. *)
Lemma get_pack l : forall i pre post n x a, l !! i = Some (n, x) -> a = (length pre + packed_size (take i l))%nat -> fits l ->
  get a n (pre ++ pack l ++ post) = x.
Proof.
  induction l as [|[m y] l IH]; intros [|i] pre post n x a Hi -> Hf; cbn in Hi; [done|done| |]; apply Forall_cons in Hf as [Hy Hf].
  - injection Hi as -> ->. cbn [take packed_size foldr pack]. rewrite Nat.add_0_r. unfold get, field. rewrite <- app_assoc.
    rewrite drop_app_length, take_app_length' by (by rewrite length_le). by apply unle_le.
  - cbn [take packed_size foldr pack fst]. rewrite <- app_assoc, (app_assoc pre). apply (IH i); [done| |done].
    rewrite length_app, length_le. fold (packed_size (take i l)). lia.
Qed.

Lemma header_at_bytes h rest : header_wf h -> header_at (header_bytes h ++ rest) = h.
Proof.
  intros [Hi _ Hf]. unfold header_bytes. rewrite <- app_assoc.
  assert (forall i n x a, header_fields h !! i = Some (n, x) -> a = (16 + packed_size (take i (header_fields h)))%nat ->
    get a n (e_ident h ++ pack (header_fields h) ++ rest) = x) as Hg.
  { intros i n x a Hx Ha. apply (get_pack (header_fields h) i); [done|by rewrite Hi|done]. }
  unfold header_at. rewrite (Hg 0%nat 2%nat (e_type h)), (Hg 1%nat 2%nat (e_machine h)), (Hg 2%nat 4%nat (e_version h)), (Hg 3%nat 8%nat (e_entry h)),
    (Hg 4%nat 8%nat (e_phoff h)), (Hg 5%nat 8%nat (e_shoff h)), (Hg 6%nat 4%nat (e_flags h)), (Hg 7%nat 2%nat (e_ehsize h)),
    (Hg 8%nat 2%nat (e_phentsize h)), (Hg 9%nat 2%nat (e_phnum h)), (Hg 10%nat 2%nat (e_shentsize h)), (Hg 11%nat 2%nat (e_shnum h)),
    (Hg 12%nat 2%nat (e_shstrndx h)) by reflexivity.
  unfold field. rewrite drop_0, take_app_length' by done. by destruct h.
Qed.

Lemma program_header_at_bytes ph : program_header_wf ph -> program_header_at (program_header_bytes ph) = ph.
Proof.
  intros Hf. assert (forall i n x a, program_header_fields ph !! i = Some (n, x) -> a = packed_size (take i (program_header_fields ph)) ->
    get a n (program_header_bytes ph) = x) as Hg.
  { intros i n x a Hx Ha. pose proof (get_pack (program_header_fields ph) i [] [] n x a Hx Ha Hf) as H. by rewrite app_nil_r in H. }
  unfold program_header_at. rewrite (Hg 0%nat 4%nat (p_type ph)), (Hg 1%nat 4%nat (p_flags ph)), (Hg 2%nat 8%nat (p_offset ph)),
    (Hg 3%nat 8%nat (p_vaddr ph)), (Hg 4%nat 8%nat (p_paddr ph)), (Hg 5%nat 8%nat (p_filesz ph)), (Hg 6%nat 8%nat (p_memsz ph)),
    (Hg 7%nat 8%nat (p_align ph)) by reflexivity. by destruct ph.
Qed.

(** ** Reading the file *)

(** Reading bytes of the file does not look around it. *)
Lemma elf_bytes_inside beyond data off n : 0 <= off -> off + Z.of_nat n <= Z.of_nat (length data) -> Z.of_nat (length data) < 2 ^ 64 ->
  elf_bytes beyond data off n = take n (drop (Z.to_nat off) data).
Proof.
  intros Ho Hn Hl. apply list_eq. intros i. unfold elf_bytes. rewrite list_lookup_fmap.
  destruct (decide (i < n)%nat) as [Hi|Hi].
  - rewrite lookup_seq_lt, lookup_take_lt, lookup_drop by done. cbn [fmap option_fmap option_map]. unfold elf_byte.
    rewrite wrap_small by (unfold in_width; lia). rewrite (proj2 (Z.ltb_lt _ _)) by lia.
    replace (Z.to_nat (off + Z.of_nat (0 + i))) with (Z.to_nat off + i)%nat by lia.
    destruct (lookup_lt_is_Some_2 data (Z.to_nat off + i)) as [b ->]; [lia|done].
  - rewrite lookup_seq_ge, lookup_take_ge by lia. done.
Qed.

Lemma program_headers_at h data : Z.of_nat (length data) < 2 ^ 64 -> 0 <= e_phoff h -> 0 <= e_phnum h ->
  Z.of_nat SIZEOF_Elf64ProgramHeader <= e_phentsize h -> e_phoff h + e_phnum h * e_phentsize h < 2 ^ 64 ->
  forall beyond, program_headers beyond h data =
    if Z.of_nat (length data) <? e_phoff h + e_phnum h * e_phentsize h then Err (Error "Program headers out of bounds"%string)
    else Ok ((fun i => program_header_at (take SIZEOF_Elf64ProgramHeader
                         (drop (Z.to_nat (e_phoff h) + i * SIZEOF_Elf64ProgramHeader) data))) <$> seq 0 (Z.to_nat (e_phnum h))).
Proof.
  unfold SIZEOF_Elf64ProgramHeader. intros Hl Ho Hn Hs Hw beyond. unfold program_headers.
  rewrite (wrap_small 64 (_ * _)), (wrap_small 64 (_ + _)) by (unfold in_width; nia).
  destruct (Z.ltb_spec (Z.of_nat (length data)) (e_phoff h + e_phnum h * e_phentsize h)) as [_|Hle]; [done|]. f_equal.
  apply list_fmap_ext. intros k i Hk. apply lookup_seq in Hk as [-> Hk]. unfold SIZEOF_Elf64ProgramHeader. rewrite elf_bytes_inside by nia.
  do 3 f_equal. lia.
Qed.

Lemma block_of n : forall (ls : list (list Z)) i b rest, Forall (fun l => length l = n) ls -> ls !! i = Some b ->
  take n (drop (i * n) (concat ls ++ rest)) = b.
Proof.
  induction ls as [|l ls IH]; intros [|i] b rest Hl Hi; cbn in Hi; [done|done| |]; apply Forall_cons in Hl as [Hn Hl]; cbn [concat]; rewrite <- app_assoc.
  - injection Hi as ->. cbn [Nat.mul]. by rewrite drop_0, take_app_length'.
  - rewrite drop_app_ge by lia. replace (S i * n - length l)%nat with (i * n)%nat by lia. by apply IH.
Qed.

Lemma length_header_bytes h : header_wf h -> length (header_bytes h) = SIZEOF_Elf64Header.
Proof. intros [Hi _ _]. unfold header_bytes. by rewrite length_app, length_pack, Hi. Qed.

Lemma length_blocks phs : length (concat (program_header_bytes <$> phs)) = (length phs * SIZEOF_Elf64ProgramHeader)%nat.
Proof.
  induction phs as [|ph phs IH]; cbn [fmap list_fmap concat length]; [done|].
  rewrite length_app, IH. unfold program_header_bytes at 1. by rewrite length_pack.
Qed.

(** A segment whose end does not wrap is given when it is inside the file. *)
Lemma get_data_spec ph data : 0 <= p_offset ph -> 0 <= p_filesz ph -> p_offset ph + p_filesz ph < 2 ^ 64 ->
  get_data ph data = Ok (if Z.of_nat (length data) <? p_offset ph + p_filesz ph then None
                         else Some (take (Z.to_nat (p_filesz ph)) (drop (Z.to_nat (p_offset ph)) data))).
Proof.
  intros Ho Hf Hw. unfold get_data. rewrite wrap_small by (unfold in_width; lia).
  destruct (_ <? _); [done|]. rewrite (proj2 (Z.ltb_ge _ _)) by lia. by rewrite Z.add_simpl_l.
Qed.

Definition elf_file (h : Elf64Header) (phs : list Elf64ProgramHeader) (body : list Z) : list Z :=
  header_bytes h ++ concat (program_header_bytes <$> phs) ++ body.

(** A file made of a header, its program headers and contents reads back as it was
    written, whatever lies around it in memory: the header, the program headers,
    and for each of them the part of the contents it names. *)
Theorem elf_roundtrip h phs body : header_wf h -> Forall program_header_wf phs -> e_phoff h = 64 -> e_phentsize h = 56 ->
  e_phnum h = Z.of_nat (length phs) -> Z.of_nat (length (elf_file h phs body)) < 2 ^ 64 ->
  parse (elf_file h phs body) = Ok h /\ (forall beyond, program_headers beyond h (elf_file h phs body) = Ok phs) /\
  (forall ph a, ph ∈ phs -> p_offset ph = 64 + 56 * Z.of_nat (length phs) + Z.of_nat a -> Z.of_nat a + p_filesz ph <= Z.of_nat (length body) ->
     get_data ph (elf_file h phs body) = Ok (Some (take (Z.to_nat (p_filesz ph)) (drop a body)))).
Proof.
  intros Hh Hp Ho Hs Hn Hl. pose proof (length_header_bytes h Hh) as Lh. pose proof (length_blocks phs) as Lp.
  unfold SIZEOF_Elf64Header, SIZEOF_Elf64ProgramHeader in *. unfold elf_file in *. rewrite !length_app in Hl. split; [|split].
  - unfold parse. rewrite length_app. destruct (Nat.ltb_spec (length (header_bytes h) + length (concat (program_header_bytes <$> phs) ++ body)) SIZEOF_Elf64Header)
      as [Hlt|_]; [unfold SIZEOF_Elf64Header in Hlt; lia|]. cbv zeta. rewrite (header_at_bytes h _ Hh). destruct (hw_magic h Hh) as [Em Ec].
    rewrite decide_False by (intros H; by apply H). by rewrite Ec.
  - intros beyond. rewrite program_headers_at by (rewrite ?length_app; unfold SIZEOF_Elf64ProgramHeader; lia).
    rewrite !length_app. rewrite (proj2 (Z.ltb_ge _ _)) by lia. f_equal. apply list_eq. intros i. rewrite list_lookup_fmap.
    destruct (decide (i < length phs)%nat) as [Hi|Hi].
    + rewrite lookup_seq_lt by lia. cbn [fmap option_fmap option_map]. destruct (lookup_lt_is_Some_2 phs i Hi) as [ph Hph]. rewrite Hph. f_equal.
      rewrite Ho. unfold SIZEOF_Elf64ProgramHeader. rewrite drop_app_ge by lia.
      replace (Z.to_nat 64 + (0 + i) * 56 - length (header_bytes h))%nat with (i * 56)%nat by lia.
      rewrite (block_of 56 _ i (program_header_bytes ph)).
      * apply program_header_at_bytes. by eapply Forall_lookup_1.
      * apply Forall_fmap, Forall_true. intros q. unfold compose, program_header_bytes. by rewrite length_pack.
      * by rewrite list_lookup_fmap, Hph.
    + rewrite lookup_seq_ge, lookup_ge_None_2 by lia. done.
  - intros ph a Hin Ha Hb. assert (0 <= p_filesz ph) as Hf.
    { rewrite Forall_forall in Hp. pose proof (Hp ph Hin) as Hw. unfold program_header_wf, fits, program_header_fields in Hw.
      do 5 apply Forall_cons in Hw as [_ Hw]. apply Forall_cons in Hw as [Hw _]. apply Hw. }
    rewrite get_data_spec by lia. rewrite !length_app. rewrite (proj2 (Z.ltb_ge _ _)) by lia. do 3 f_equal. rewrite Ha.
    rewrite drop_app_ge, drop_app_ge by lia. f_equal. lia.
Qed.

(** The check of [program_headers], when its sum does not wrap and the headers
    have their standard size, keeps every header inside the file: what lies around
    the file makes no difference. *)
Theorem program_headers_inside h data : Z.of_nat (length data) < 2 ^ 64 -> 0 <= e_phoff h -> 0 <= e_phnum h ->
  Z.of_nat SIZEOF_Elf64ProgramHeader <= e_phentsize h -> e_phoff h + e_phnum h * e_phentsize h < 2 ^ 64 ->
  forall beyond, program_headers beyond h data =
    if Z.of_nat (length data) <? e_phoff h + e_phnum h * e_phentsize h then Err (Error "Program headers out of bounds"%string)
    else Ok ((fun i => program_header_at (take SIZEOF_Elf64ProgramHeader
                         (drop (Z.to_nat (e_phoff h) + i * SIZEOF_Elf64ProgramHeader) data))) <$> seq 0 (Z.to_nat (e_phnum h))).
Proof. exact (program_headers_at h data). Qed.

(** The checks do not wrap into safety.  With entries of size zero any number of
    headers passes, and the headers come from outside the file; *)
Theorem headers_outside_file : let data := replicate 64 0 in
  let h := mkHeader [] 0 0 0 0 64 0 0 0 0 1 0 0 0 in
  program_headers (fun _ => 255) h data = Ok [program_header_at (replicate 56 255)].
Proof. cbv zeta. vm_compute. reflexivity. Qed.

(** and a segment that wraps around the address space panics. *)
Theorem segment_panics : get_data (mkProgramHeader PT_LOAD 0 (2 ^ 64 - 8) 0x400000 0 16 16 0) (replicate 64 0) = Err Panic.
Proof. vm_compute. reflexivity. Qed.

(** ** Witnesses *)

Definition demo_ident : list Z := ELF_MAGIC ++ [2; 1; 1] ++ replicate 9 0.
Definition demo_header : Elf64Header := mkHeader demo_ident 2 62 1 0x400000 64 0 0 64 56 1 0 0 0.
Definition demo_ph : Elf64ProgramHeader := mkProgramHeader PT_LOAD 5 120 0x400000 0x400000 3 0x1000 0x1000.

Lemma elf_roundtrip_witness : parse (elf_file demo_header [demo_ph] [10; 20; 30]) = Ok demo_header /\
  (forall beyond, program_headers beyond demo_header (elf_file demo_header [demo_ph] [10; 20; 30]) = Ok [demo_ph]) /\
  get_data demo_ph (elf_file demo_header [demo_ph] [10; 20; 30]) = Ok (Some [10; 20; 30]).
Proof.
  destruct (elf_roundtrip demo_header [demo_ph] [10; 20; 30]) as (H1 & H2 & H3).
  - constructor; [reflexivity|split; reflexivity|]. repeat constructor; by vm_compute.
  - apply Forall_singleton. repeat constructor; by vm_compute.
  - reflexivity.
  - reflexivity.
  - reflexivity.
  - by vm_compute.
  - split; [exact H1|]. split; [exact H2|]. apply (H3 demo_ph 0%nat); [by left|reflexivity|by vm_compute].
Defined.

Lemma program_headers_inside_witness : forall beyond, program_headers beyond demo_header (replicate 200 0) =
  Ok [program_header_at (replicate 56 0)].
Proof. intros beyond. rewrite program_headers_inside by (by vm_compute). reflexivity. Defined.
