(* ===== verification/Loader.v ===== *)
(** * Loading programs ([usermode/loader.rs], and the segments of [usermode/spawn.rs])

    Segments of an ELF file, or a flat binary, are placed page by page in a user
    address space and their bytes are copied into the frames.  Theorem: what a
    program sees after its segments are loaded is what the file says, byte by byte,
    whatever pages the segments share.  The other loader, [load_elf], copies every
    byte of a page to the first byte of its frame. *)

From Stdlib Require Import ZArith Lia Bool.
From stdpp Require Import base numbers option list gmap sets strings.
From S2P Require Import Prelude Bytes Util Frame Paging Mapping UserSpace Elf.

Open Scope Z_scope.

(** ** Copying

    The loops that copy a file write one byte after the other, each to an address
    that depends on its offset, or nowhere. *)

Fixpoint write_each (place : nat -> option Z) (i : nat) (data : list Z) (m : Mem) : Mem :=
  match data with
  | [] => m
  | b :: data => write_each place (S i) data (match place i with Some a => <[a := b]> m | None => m end)
  end.

Lemma write_each_miss place data : forall i m a, (forall k, (k < length data)%nat -> place (i + k)%nat <> Some a) ->
  byte (write_each place i data m) a = byte m a.
Proof.
  induction data as [|b data IH]; intros i m a H; cbn [write_each]; [done|]. rewrite IH.
  - pose proof (H 0%nat ltac:(cbn; lia)) as H0. rewrite Nat.add_0_r in H0. destruct (place i) as [c|]; [|done].
    unfold byte. by rewrite lookup_insert_ne by congruence.
  - intros k Hk. replace (S i + k)%nat with (i + S k)%nat by lia. apply H. cbn. lia.
Qed.

Lemma write_each_hit place data : forall i m a k b, data !! k = Some b -> place (i + k)%nat = Some a ->
  (forall j, (j < length data)%nat -> place (i + j)%nat = Some a -> j = k) -> byte (write_each place i data m) a = b.
Proof.
  induction data as [|c data IH]; intros i m a k b Hk Hp Hu; [by rewrite lookup_nil in Hk|]. cbn [write_each].
  destruct k as [|k]; cbn in Hk.
  - injection Hk as ->. rewrite Nat.add_0_r in Hp. rewrite Hp, write_each_miss.
    + unfold byte. by rewrite lookup_insert_eq.
    + intros j Hj Hs. replace (S i + j)%nat with (i + S j)%nat in Hs by lia. specialize (Hu (S j) ltac:(cbn; lia) Hs). lia.
  - apply (IH _ _ _ k); [done|by replace (S i + k)%nat with (i + S k)%nat by lia|]. intros j Hj Hs.
    replace (S i + j)%nat with (i + S j)%nat in Hs by lia. specialize (Hu (S j) ltac:(cbn; lia) Hs). lia.
Qed.

(** ** Segments *)

Definition virt_start (ph : Elf64ProgramHeader) : Z := Z.land (p_vaddr ph) (wnot 64 0xFFF).
Definition virt_end (ph : Elf64ProgramHeader) : Z := align_up (p_vaddr ph +[64] p_memsz ph) PAGE_SIZE.

Definition segment_pages (ph : Elf64ProgramHeader) : list Z :=
  let num_pages := (virt_end ph -[64] virt_start ph) / PAGE_SIZE in
  (fun i => virt_start ph +[64] (i *[64] PAGE_SIZE)) <$> seqZ 0 num_pages.

Definition segment_flags (ph : Elf64ProgramHeader) : Z :=
  let flags := Z.lor PRESENT USER in
  let flags := if is_writable ph then Z.lor flags WRITABLE else flags in
  if negb (is_executable ph) then Z.lor flags NO_EXECUTE else flags.

Section Loaders.
Context {S : Type} `{FS : FrameSource S}.

Definition fail {A} (e : Failure string) : Load (S := S) A := throw e.

Definition lift_result {A} (r : Result A (Failure string)) : Load (S := S) A := fun s => (r, s).

(** [ph.get_data(elf_data).ok_or("Invalid segment offset")]. *)
Definition segment_data (ph : Elf64ProgramHeader) (elf_data : list Z) : Load (S := S) (list Z) :=
  do d <- lift_result (get_data ph elf_data);
  match d with Some d => ret d | None => fail (Error "Invalid segment offset"%string) end.

(** *** [load_elf] *)

Definition load_segment (ph : Elf64ProgramHeader) (elf_data : list Z) (u : Z) : Load (S := S) unit :=
  if p_memsz ph =? 0 then ret tt
  else
    do_ place_pages false "Out of memory" u (segment_flags ph) (segment_pages ph);
    if negb (p_filesz ph =? 0) then
      do d <- segment_data ph elf_data;
      fun s => (Ok tt, mkSpace (sp_vm s) (write_each (fun offset => translate u (p_vaddr ph +[64] Z.of_nat offset) (sp_vm s)) 0 d (sp_bytes s)))
    else ret tt.

Fixpoint load_segments (phs : list Elf64ProgramHeader) (elf_data : list Z) (u : Z) : Load (S := S) unit :=
  match phs with
  | [] => ret tt
  | ph :: phs =>
      do_ (if p_type ph =? PT_LOAD then load_segment ph elf_data u else ret tt);
      load_segments phs elf_data u
  end.

Definition load_elf (beyond : Z -> Z) (elf_data : list Z) (u : Z) : Load (S := S) Z :=
  do header <- lift_result (parse elf_data);
  if entry_point header =? 0 then fail (Error "Invalid entry point"%string)
  else
    do phs <- lift_result (program_headers beyond header elf_data);
    do_ load_segments phs elf_data u;
    ret (entry_point header).

(** *** [load_flat_binary] *)

Fixpoint map_code_pages (u : Z) (pages : list Z) : Load (S := S) (list Z) :=
  match pages with
  | [] => ret []
  | v :: pages =>
      do frame <- take_frame "Out of memory";
      do_ on_vm (map u v frame (Z.lor PRESENT USER));
      do frames <- map_code_pages u pages;
      ret (frame :: frames)
  end.

Definition load_flat_binary (code : list Z) (u load_addr : Z) : Load (S := S) Z :=
  let num_pages := (Z.of_nat (length code) +[64] (PAGE_SIZE - 1)) / PAGE_SIZE in
  do frames <- map_code_pages u ((fun i => load_addr +[64] (i *[64] PAGE_SIZE)) <$> seqZ 0 num_pages);
  do_ on_bytes (write_each (fun offset =>
        (fun frame => frame + Z.of_nat offset mod PAGE_SIZE) <$> frames !! Z.to_nat (Z.of_nat offset / PAGE_SIZE)) 0 code);
  ret load_addr.

(** *** [load_segment_with_tracking] *)

(** The frame of one page; [mapped] is [mapped_pages]. *)
Definition track_page (exec : bool) (u flags v : Z) (mapped : gmap Z Z) : Load (S := S) (Z * gmap Z Z) :=
  match mapped !! v with
  | Some existing_frame => ret (existing_frame, mapped)
  | None =>
      do new_frame <- place_page exec "Out of memory loading ELF" u flags v;
      ret (new_frame, <[v := new_frame]> mapped)
  end.

(** The loop over the pages. *)
Fixpoint track_pages (exec : bool) (u flags : Z) (pages : list Z) (mapped : gmap Z Z) : Load (S := S) (list Z * gmap Z Z) :=
  match pages with
  | [] => ret ([], mapped)
  | v :: pages =>
      do fm <- track_page exec u flags v mapped;
      do rest <- track_pages exec u flags pages fm.2;
      ret (fm.1 :: rest.1, rest.2)
  end.

Definition tracked_place (ph : Elf64ProgramHeader) (frames : list Z) (offset : nat) : option Z :=
  let virt := p_vaddr ph +[64] Z.of_nat offset in
  let page_idx := (Z.land virt (wnot 64 0xFFF) -[64] virt_start ph) / PAGE_SIZE in
  (fun frame => frame + Z.land virt 0xFFF) <$> frames !! Z.to_nat page_idx.

Definition load_segment_with_tracking (ph : Elf64ProgramHeader) (elf_data : list Z) (u : Z) (mapped : gmap Z Z) : Load (S := S) (gmap Z Z) :=
  if p_memsz ph =? 0 then ret mapped
  else
    do fm <- track_pages (is_executable ph) u (segment_flags ph) (segment_pages ph) mapped;
    do_ (if negb (p_filesz ph =? 0) then
           do d <- segment_data ph elf_data;
           on_bytes (write_each (tracked_place ph fm.1) 0 d)
         else ret tt);
    ret fm.2.
End Loaders.

(** ** What the loaders make *)

Definition page_base (w : Z) : Z := w / PAGE_SIZE * PAGE_SIZE.

(** A page that the loaders may use: below the stack. *)
Definition code_page (v : Z) : Prop := 0 <= v < USER_STACK_BASE /\ v mod PAGE_SIZE = 0.

Lemma code_page_of v w : code_page v -> 0 <= w < 2 ^ 47 -> same_page v w <-> page_base w = v.
Proof.
  unfold code_page, page_base, USER_STACK_BASE. intros [Hv Hm] Hw. split.
  - intros H%same_page_small; [|lia|done]. rewrite !Z.shiftr_div_pow2 in H by done. change (2 ^ 12) with PAGE_SIZE in H. rewrite <- H.
    unfold PAGE_SIZE in *. Z.to_euclidean_division_equations. lia.
  - intros <-. replace w with (w / PAGE_SIZE * PAGE_SIZE + w mod PAGE_SIZE) at 2
      by (unfold PAGE_SIZE; Z.to_euclidean_division_equations; lia).
    apply same_page_offset; [done|]. by apply Z.mod_pos_bound.
Qed.

Lemma code_page_base v : code_page v -> page_base v = v.
Proof. unfold code_page, page_base, PAGE_SIZE. intros [_ Hm]. Z.to_euclidean_division_equations. lia. Qed.

Lemma code_page_user v : code_page v -> user_half v.
Proof. unfold code_page, USER_STACK_BASE. intros [Hv _]. apply user_half_small. lia. Qed.

Section Specs.
Context {S : Type} `{FS : FrameSource S}.

(** The map of pages is the translation of the pages below the stack. *)
Definition tracks (u : Z) (mapped : gmap Z Z) (s : Space S) : Prop := forall v, code_page v -> mapped !! v = translate u v (sp_vm s).

(** One page of a segment: it is there afterwards, with zeros if it is new. *)
Lemma track_page_spec exec u flags v mapped (s : Space S) : pages_ok u s -> tracks u mapped s -> is_present flags = true -> code_page v ->
  let '(r, s') := track_page exec u flags v mapped s in
  pages_ok u s' /\ user_step u (sp_vm s) (sp_vm s') /\ extends u (sp_vm s) (sp_vm s') /\
  (forall w, ~ same_page v w -> translate u w (sp_vm s') = translate u w (sp_vm s)) /\
  match r with
  | Ok (f, mapped') =>
      tracks u mapped' s' /\ translate u v (sp_vm s') = Some f /\
      (forall w, 0 <= w < 2 ^ 47 -> user_byte u w s' =
         match user_byte u w s with Some b => Some b | None => if decide (page_base w = v) then Some 0 else None end)
  | Err _ => True
  end.
Proof.
  intros Hok Ht Hf Hv. pose proof (Ht v Hv) as Hm. unfold track_page. destruct (mapped !! v) as [f|] eqn:E.
  - unfold ret. cbv beta iota. split; [done|]. split; [apply user_step_refl|]. split; [by intros ? ?|]. split; [done|]. split; [done|]. split; [done|]. intros w Hw.
    destruct (user_byte u w s) eqn:Eb; [done|]. rewrite decide_False; [done|]. intros Hb. apply (code_page_of v w Hv Hw) in Hb.
    unfold user_byte in Eb. by rewrite (translate_same_page u v w _ Hb), <- Hm in Eb.
  - unfold bindM. pose proof (place_page_spec exec "Out of memory loading ELF" u flags v s Hok Hf (code_page_user v Hv) ltac:(done)) as H.
    destruct (place_page exec _ u flags v s) as [[f|e] s1]; destruct H as ((Hok1 & U1 & O1 & B1) & R1).
    2:{ repeat (split; [done|]). split; [|done]. intros w g Hg. by rewrite R1. }
    destruct R1 as (N1 & _ & _ & S1). unfold ret. cbv beta iota. split; [done|]. split; [done|]. split; [|split; [done|split; [|split]]].
    + intros w g Hg. rewrite O1; [done|]. intros Hs. by rewrite (translate_same_page u v w _ Hs), N1 in Hg.
    + intros v' Hv'. destruct (decide (v = v')) as [<-|Hne]; [by rewrite lookup_insert_eq, (proj1 (S1 v ltac:(done)))|].
      rewrite lookup_insert_ne by done. rewrite O1; [by apply Ht|]. intros Hs. apply (code_page_of v v' Hv) in Hs.
      * by rewrite (code_page_base v' Hv') in Hs.
      * unfold code_page, USER_STACK_BASE in Hv'. lia.
    + by apply S1.
    + intros w Hw. destruct (decide (page_base w = v)) as [Hb|Hb].
      * apply (code_page_of v w Hv Hw) in Hb. rewrite (proj2 (S1 w Hb)).
        assert (user_byte u w s = None) as -> by (unfold user_byte; by rewrite (translate_same_page u v w _ Hb), N1). done.
      * rewrite B1; [by destruct (user_byte u w s)|by apply user_half_small|]. intros Hs. apply Hb. by apply (code_page_of v w Hv Hw).
Qed.

Lemma track_pages_spec exec u flags pages : forall mapped (s : Space S), pages_ok u s -> tracks u mapped s -> is_present flags = true ->
  Forall code_page pages ->
  let '(r, s') := track_pages exec u flags pages mapped s in
  pages_ok u s' /\ user_step u (sp_vm s) (sp_vm s') /\ extends u (sp_vm s) (sp_vm s') /\
  (forall w, (forall v, v ∈ pages -> ~ same_page v w) -> translate u w (sp_vm s') = translate u w (sp_vm s)) /\
  match r with
  | Ok (frames, mapped') =>
      tracks u mapped' s' /\ length frames = length pages /\
      (forall (k : nat) v, pages !! k = Some v -> exists f, frames !! k = Some f /\ translate u v (sp_vm s') = Some f) /\
      (forall w, 0 <= w < 2 ^ 47 -> user_byte u w s' =
         match user_byte u w s with Some b => Some b | None => if decide (page_base w ∈ pages) then Some 0 else None end)
  | Err _ => True
  end.
Proof.
  induction pages as [|v pages IH]; intros mapped s Hok Ht Hf Hp; cbn [track_pages].
  - unfold ret. cbv beta iota. split; [done|]. split; [apply user_step_refl|]. split; [by intros ? ?|]. split; [done|]. split; [done|]. split; [done|]. split; [done|]. intros w Hw. rewrite decide_False by (apply not_elem_of_nil).
    by destruct (user_byte u w s).
  - apply Forall_cons in Hp as [Hv Hp]. pose proof (track_page_spec exec u flags v mapped s Hok Ht Hf Hv) as H1. unfold bindM.
    destruct (track_page exec u flags v mapped s) as [[[f m1]|e] s1]; destruct H1 as (Hok1 & U1 & X1 & O1 & R1).
    2:{ repeat (split; [done|]). split; [|done]. intros w Hw. apply O1, Hw. by left. }
    destruct R1 as (T1 & F1 & B1). cbn [fst snd]. specialize (IH m1 s1 Hok1 T1 Hf Hp).
    destruct (track_pages exec u flags pages m1 s1) as [[[fs m2]|e] s2]; destruct IH as (Hok2 & U2 & X2 & O2 & R2).
    2:{ split; [done|]. split; [by apply (user_step_trans u _ (sp_vm s1))|]. split; [intros w g Hg; by apply X2, X1|]. split; [|done].
        intros w Hw. rewrite O2; [apply O1, Hw; by left|]. intros v' Hv'. apply Hw. by right. }
    destruct R2 as (T2 & L2 & F2 & B2). unfold ret. cbv beta iota. cbn [fst snd]. split; [done|]. split; [by apply (user_step_trans u _ (sp_vm s1))|].
    split; [intros w g Hg; by apply X2, X1|]. split; [|split; [done|split; [cbn; lia|split]]].
    + intros w Hw. rewrite O2; [apply O1, Hw; by left|]. intros v' Hv'. apply Hw. by right.
    + intros [|k] v' Hk; cbn in Hk; [injection Hk as <-; exists f; split; [done|by apply X2]|by apply F2].
    + intros w Hw. rewrite B2, B1 by done. destruct (user_byte u w s); [done|]. pose proof (elem_of_cons pages (page_base w) v).
      destruct (decide (page_base w = v)) as [He|He]; [by rewrite decide_True by naive_solver|].
      destruct (decide (page_base w ∈ pages)), (decide (page_base w ∈ v :: pages)); try done; exfalso; naive_solver.
Qed.
End Specs.

(** *** A segment *)

(** A segment that a linker makes: its file part is no longer than its place in
    memory, which is below the stack. *)
Record segment_ok (ph : Elf64ProgramHeader) : Prop := {
  so_vaddr : 0 <= p_vaddr ph;
  so_offset : 0 <= p_offset ph < 2 ^ 64;
  so_filesz : 0 <= p_filesz ph <= p_memsz ph;
  so_end : p_vaddr ph + p_memsz ph <= USER_STACK_BASE
}.

Definition file_bytes (ph : Elf64ProgramHeader) (elf_data : list Z) : list Z :=
  take (Z.to_nat (p_filesz ph)) (drop (Z.to_nat (p_offset ph)) elf_data).

Lemma get_data_Some ph elf_data d : segment_ok ph -> get_data ph elf_data = Ok (Some d) ->
  d = file_bytes ph elf_data /\ length d = Z.to_nat (p_filesz ph).
Proof.
  intros [Hv Ho Hf He]. unfold USER_STACK_BASE in He. unfold get_data, file_bytes.
  destruct (Z.ltb_spec (Z.of_nat (length elf_data)) (p_offset ph +[64] p_filesz ph)) as [|Hl]; [done|].
  destruct (Z.ltb_spec (p_offset ph +[64] p_filesz ph) (p_offset ph)) as [|Hs]; [done|]. intros [= <-].
  assert (p_offset ph +[64] p_filesz ph = p_offset ph + p_filesz ph) as E.
  { destruct (decide (p_offset ph + p_filesz ph < 2 ^ 64)) as [Hlt|Hge]; [apply wrap_small; unfold in_width; lia|].
    assert (p_offset ph +[64] p_filesz ph = p_offset ph + p_filesz ph - 2 ^ 64) as E; [|lia].
    unfold wrap. rewrite <- (Z.mod_add _ (-1)) by lia. apply Z.mod_small. lia. }
  rewrite E in *. rewrite Z.add_simpl_l. split; [done|]. rewrite length_take, length_drop. lia.
Qed.

Lemma virt_start_base ph : segment_ok ph -> virt_start ph = page_base (p_vaddr ph).
Proof.
  intros [Hv _ Hf He]. unfold USER_STACK_BASE in He. unfold virt_start, page_base. change 0xFFF with (Z.ones 12).
  rewrite land_wnot_ones by (unfold in_width; lia). done.
Qed.

Lemma virt_end_up ph : segment_ok ph -> virt_end ph = round_up (p_vaddr ph + p_memsz ph) PAGE_SIZE.
Proof.
  intros [Hv _ Hf He]. unfold USER_STACK_BASE in He. unfold virt_end. rewrite wrap_small by (unfold in_width; lia).
  change PAGE_SIZE with (2 ^ 12). apply align_up_exact; lia.
Qed.

Lemma segment_page_at ph k : segment_ok ph -> p_memsz ph <> 0 ->
  segment_pages ph !! k = if decide (virt_start ph + Z.of_nat k * PAGE_SIZE < virt_end ph) then Some (virt_start ph + Z.of_nat k * PAGE_SIZE) else None.
Proof.
  intros Hok Hm. pose proof Hok as [Hv _ Hf He]. unfold USER_STACK_BASE in He. unfold segment_pages. rewrite list_lookup_fmap.
  rewrite (virt_start_base ph Hok), (virt_end_up ph Hok) in *. unfold page_base, round_up, PAGE_SIZE.
  set (a := p_vaddr ph / 4096). set (b := (p_vaddr ph + p_memsz ph + 4096 - 1) / 4096).
  assert (0 <= a < b /\ b <= 2 ^ 35) as Hab by (unfold a, b; Z.to_euclidean_division_equations; lia).
  rewrite (wrap_small 64 (b * 4096 - _)) by (unfold in_width; lia). replace ((b * 4096 - a * 4096) / 4096) with (b - a)
    by (rewrite <- Z.mul_sub_distr_r, Z.div_mul by lia; done).
  destruct (decide (a * 4096 + Z.of_nat k * 4096 < b * 4096)) as [Hk|Hk].
  - rewrite (proj2 (lookup_seqZ 0 (b - a) k (0 + Z.of_nat k))) by lia. cbn [fmap option_fmap option_map]. f_equal.
    rewrite (wrap_small 64 (_ * 4096)) by (unfold in_width; lia). rewrite wrap_small by (unfold in_width; lia). lia.
  - rewrite lookup_ge_None_2; [done|]. rewrite length_seqZ. lia.
Qed.

Lemma segment_pages_code ph : segment_ok ph -> p_memsz ph <> 0 -> Forall code_page (segment_pages ph).
Proof.
  intros Hok Hm. apply Forall_lookup_2. intros k v Hk. rewrite segment_page_at in Hk by done. destruct (decide _) as [Hlt|]; [|done].
  injection Hk as <-. pose proof Hok as [Hv _ Hf He]. rewrite (virt_start_base ph Hok), (virt_end_up ph Hok) in *.
  unfold code_page, page_base, round_up, PAGE_SIZE, USER_STACK_BASE in *. split; [|by rewrite Z.mod_add, Z.mod_mul].
  Z.to_euclidean_division_equations. lia.
Qed.

(** The page of an address of the segment, and its number. *)
Lemma segment_page_of ph w : segment_ok ph -> p_memsz ph <> 0 -> virt_start ph <= w < virt_end ph ->
  segment_pages ph !! Z.to_nat ((page_base w - virt_start ph) / PAGE_SIZE) = Some (page_base w).
Proof.
  intros Hok Hm Hw. rewrite segment_page_at by done. rewrite (virt_start_base ph Hok), (virt_end_up ph Hok) in *.
  pose proof (so_vaddr ph Hok). unfold page_base, round_up, PAGE_SIZE in *. set (a := p_vaddr ph / 4096) in *. set (b := (p_vaddr ph + p_memsz ph + 4096 - 1) / 4096) in *.
  rewrite <- Z.mul_sub_distr_r, Z.div_mul by done. assert (a <= w / 4096 < b) as Hab by (Z.to_euclidean_division_equations; lia).
  rewrite Z2Nat.id by lia. rewrite decide_True by lia. f_equal. lia.
Qed.

Lemma in_segment_pages ph w : segment_ok ph -> p_memsz ph <> 0 -> page_base w ∈ segment_pages ph <-> virt_start ph <= w < virt_end ph.
Proof.
  intros Hok Hm. split.
  - intros [k Hk]%list_elem_of_lookup_1. rewrite segment_page_at in Hk by done. destruct (decide _) as [Hlt|]; [|done]. injection Hk as Hk.
    rewrite (virt_start_base ph Hok), (virt_end_up ph Hok) in *. pose proof (so_vaddr ph Hok).
    unfold page_base, round_up, PAGE_SIZE in *. Z.to_euclidean_division_equations. lia.
  - intros Hw. eapply list_elem_of_lookup_2. by apply segment_page_of.
Qed.

(** What a segment adds to what a program sees. *)
Definition overlay (ph : Elf64ProgramHeader) (elf_data : list Z) (img : Z -> option Z) (w : Z) : option Z :=
  if (p_vaddr ph <=? w) && (w <? p_vaddr ph + p_filesz ph) then file_bytes ph elf_data !! Z.to_nat (w - p_vaddr ph)
  else match img w with
       | Some b => Some b
       | None => if (negb (p_memsz ph =? 0)) && (virt_start ph <=? w) && (w <? virt_end ph) then Some 0 else None
       end.

Section Segment.
Context {S : Type} `{FS : FrameSource S}.

Lemma frame_byte_inj f g o1 o2 : f mod PAGE_SIZE = 0 -> g mod PAGE_SIZE = 0 -> 0 <= o1 < PAGE_SIZE -> 0 <= o2 < PAGE_SIZE ->
  f + o1 = g + o2 -> f = g /\ o1 = o2.
Proof. unfold PAGE_SIZE. intros. Z.to_euclidean_division_equations. lia. Qed.

Lemma address_split v : v = page_base v + page_offset v.
Proof. rewrite page_offset_mod. unfold page_base, PAGE_SIZE. Z.to_euclidean_division_equations. lia. Qed.

(** Two addresses of low pages that reach one byte of memory are one address. *)
Lemma user_address_inj u v w f g (s : Space S) : pages_ok u s -> 0 <= v < 2 ^ 47 -> 0 <= w < 2 ^ 47 ->
  code_page (page_base v) -> translate u v (sp_vm s) = Some f -> translate u w (sp_vm s) = Some g ->
  f + page_offset v = g + page_offset w -> v = w.
Proof.
  intros Hok Hv Hw Hc Hf Hg He. destruct (po_held u s Hok v f (user_half_small v Hv) Hf) as (_ & _ & Mf).
  destruct (po_held u s Hok w g (user_half_small w Hw) Hg) as (_ & _ & Mg).
  destruct (frame_byte_inj f g _ _ Mf Mg (page_offset_range v) (page_offset_range w) He) as [<- Eo].
  pose proof (po_inj u s Hok v w f (user_half_small v Hv) (user_half_small w Hw) Hf Hg) as Hs.
  assert (same_page (page_base v) v) as Hb by (by apply code_page_of).
  pose proof (same_page_trans _ _ _ Hb Hs) as Hbw. apply (code_page_of _ w Hc Hw) in Hbw.
  rewrite (address_split v), (address_split w). by rewrite Hbw, Eo.
Qed.

(** Where a byte of the file goes is where the program sees its address. *)
Lemma tracked_place_at u ph frames k (s : Space S) : segment_ok ph -> p_memsz ph <> 0 -> Z.of_nat k < p_filesz ph ->
  (forall (i : nat) v, segment_pages ph !! i = Some v -> exists f, frames !! i = Some f /\ translate u v (sp_vm s) = Some f) ->
  exists f, translate u (p_vaddr ph + Z.of_nat k) (sp_vm s) = Some f /\
    tracked_place ph frames k = Some (f + page_offset (p_vaddr ph + Z.of_nat k)) /\ code_page (page_base (p_vaddr ph + Z.of_nat k)).
Proof.
  intros Hok Hm Hk Hfr. pose proof Hok as [Hv _ Hf He]. unfold USER_STACK_BASE in He. set (w := p_vaddr ph + Z.of_nat k).
  assert (virt_start ph <= w < virt_end ph) as Hw.
  { rewrite (virt_start_base ph Hok), (virt_end_up ph Hok). unfold w, page_base, round_up, PAGE_SIZE. Z.to_euclidean_division_equations. lia. }
  pose proof (segment_page_of ph w Hok Hm Hw) as Hp. destruct (Hfr _ _ Hp) as (f & Hf1 & Hf2).
  assert (code_page (page_base w)) as Hc by (by eapply Forall_lookup_1; [apply segment_pages_code|]).
  exists f. assert (0 <= w < 2 ^ 47) as Hw2 by (unfold w; lia). split; [|split; [|done]].
  - rewrite <- Hf2. apply translate_same_page. by apply code_page_of.
  - unfold tracked_place. rewrite wrap_small by (unfold in_width; lia). fold w. change (wnot 64 0xFFF) with (wnot 64 (Z.ones 12)).
    rewrite land_wnot_ones by (unfold in_width; lia). change (w / 2 ^ 12 * 2 ^ 12) with (page_base w). rewrite wrap_small.
    + by rewrite Hf1.
    + rewrite (virt_start_base ph Hok) in *. unfold in_width, page_base, PAGE_SIZE in *. Z.to_euclidean_division_equations. lia.
Qed.

(** The copy writes the segment where the program sees it and nothing else. *)
Lemma copy_segment u ph frames d (s : Space S) w : pages_ok u s -> segment_ok ph -> p_memsz ph <> 0 ->
  (forall (i : nat) v, segment_pages ph !! i = Some v -> exists f, frames !! i = Some f /\ translate u v (sp_vm s) = Some f) ->
  length d = Z.to_nat (p_filesz ph) -> 0 <= w < 2 ^ 47 ->
  user_byte u w (mkSpace (sp_vm s) (write_each (tracked_place ph frames) 0 d (sp_bytes s))) =
  if decide (p_vaddr ph <= w < p_vaddr ph + p_filesz ph) then d !! Z.to_nat (w - p_vaddr ph) else user_byte u w s.
Proof.
  intros Hok Hs E Hfr Ld Hw. assert (forall j, Z.of_nat j < p_filesz ph -> 0 <= p_vaddr ph + Z.of_nat j < 2 ^ 47) as Hsmall.
  { intros j Hj. pose proof (so_end ph Hs) as He. pose proof (so_vaddr ph Hs). pose proof (so_filesz ph Hs). unfold USER_STACK_BASE in He. lia. }
  pose proof (fun j Hj => tracked_place_at u ph frames j s Hs E Hj Hfr) as Hplace. unfold user_byte. cbn [sp_vm sp_bytes].
  destruct (decide (p_vaddr ph <= w < p_vaddr ph + p_filesz ph)) as [Hr|Hr].
  - destruct (lookup_lt_is_Some_2 d (Z.to_nat (w - p_vaddr ph))) as [b Hb]; [lia|].
    destruct (Hplace (Z.to_nat (w - p_vaddr ph)) ltac:(lia)) as (f & Hf & Hp & Hc).
    replace (p_vaddr ph + Z.of_nat (Z.to_nat (w - p_vaddr ph))) with w in * by lia. rewrite Hf, Hb. cbn [fmap option_fmap option_map]. f_equal.
    apply (write_each_hit _ d 0 _ _ (Z.to_nat (w - p_vaddr ph))); [done|exact Hp|]. intros j Hj Hpj.
    destruct (Hplace j ltac:(lia)) as (g & Hg & Hpg & Hcg). cbn [Nat.add] in Hpj. rewrite Hpg in Hpj. injection Hpj as Hpj.
    pose proof (user_address_inj u _ w g f s Hok (Hsmall j ltac:(lia)) Hw Hcg Hg Hf Hpj). lia.
  - destruct (translate u w (sp_vm s)) as [g|] eqn:Eg; [|done]. cbn [fmap option_fmap option_map]. f_equal.
    apply write_each_miss. intros j Hj Hpj. cbn [Nat.add] in Hpj. destruct (Hplace j ltac:(lia)) as (f & Hf & Hp & Hc).
    rewrite Hp in Hpj. injection Hpj as Hpj. pose proof (user_address_inj u _ w f g s Hok (Hsmall j ltac:(lia)) Hw Hc Hf Eg Hpj). lia.
Qed.

(** Loading a segment, new pages and shared ones alike, overlays what the program
    sees with the segment. *)
Lemma load_segment_spec u ph elf_data mapped (s : Space S) : pages_ok u s -> tracks u mapped s -> segment_ok ph ->
  let '(r, s') := load_segment_with_tracking ph elf_data u mapped s in
  pages_ok u s' /\ user_step u (sp_vm s) (sp_vm s') /\ extends u (sp_vm s) (sp_vm s') /\
  (forall w, ~ user_half w -> translate u w (sp_vm s') = translate u w (sp_vm s)) /\
  match r with
  | Ok mapped' => tracks u mapped' s' /\ (forall w, 0 <= w < 2 ^ 47 -> user_byte u w s' = overlay ph elf_data (fun w => user_byte u w s) w)
  | Err _ => True
  end.
Proof.
  intros Hok Ht Hs. unfold load_segment_with_tracking. destruct (Z.eqb_spec (p_memsz ph) 0) as [E|E].
  - unfold ret. cbv beta iota. split; [done|]. split; [apply user_step_refl|]. split; [by intros ? ?|]. split; [done|]. split; [done|].
    intros w Hw. unfold overlay. pose proof (so_filesz ph Hs). rewrite E in *. cbn [negb Z.eqb andb].
    destruct (Z.leb_spec (p_vaddr ph) w), (Z.ltb_spec w (p_vaddr ph + p_filesz ph)); try lia; cbn [andb]; by destruct (user_byte u w s).
  - assert (is_present (segment_flags ph) = true) as Hfl.
    { unfold segment_flags. destruct (is_writable ph), (is_executable ph); reflexivity. }
    pose proof (track_pages_spec (is_executable ph) u (segment_flags ph) (segment_pages ph) mapped s Hok Ht Hfl (segment_pages_code ph Hs E)) as H1.
    unfold bindM. destruct (track_pages _ u _ _ mapped s) as [[[frames m1]|e] s1]; destruct H1 as (Hok1 & U1 & X1 & O1 & R1);
      assert (forall w, ~ user_half w -> translate u w (sp_vm s1) = translate u w (sp_vm s)) as O2
        by (intros w Hw; apply O1; intros v Hv Hvw; apply Hw, (user_half_page v); [done|];
            pose proof (segment_pages_code ph Hs E) as Hc; rewrite Forall_forall in Hc; by apply code_page_user, Hc).
    2:{ done. }
    destruct R1 as (T1 & L1 & F1 & B1). cbn [fst snd].
    assert (forall w, 0 <= w < 2 ^ 47 -> ~ (p_vaddr ph <= w < p_vaddr ph + p_filesz ph) ->
      user_byte u w s1 = overlay ph elf_data (fun w => user_byte u w s) w) as Hout.
    { intros w Hw Hn. unfold overlay. rewrite B1 by done. pose proof (in_segment_pages ph w Hs E) as Hin.
      destruct (Z.eqb_spec (p_memsz ph) 0); [done|]. cbn [negb andb].
      destruct (Z.leb_spec (p_vaddr ph) w), (Z.ltb_spec w (p_vaddr ph + p_filesz ph)); cbn [andb]; [lia|..];
        (destruct (user_byte u w s); [done|]; destruct (Z.leb_spec (virt_start ph) w), (Z.ltb_spec w (virt_end ph)); cbn [andb];
         destruct (decide _) as [Hd|Hd]; try done; exfalso; rewrite Hin in Hd; lia). }
    destruct (Z.eqb_spec (p_filesz ph) 0) as [E0|E0]; cbn [negb].
    + unfold ret. cbv beta iota. repeat (split; [done|]). intros w Hw. apply Hout; [done|lia].
    + unfold segment_data, bindM, lift_result. destruct (get_data ph elf_data) as [[d|]|e] eqn:Ed; cbn [ret fail throw]; [|done|done].
      destruct (get_data_Some ph elf_data d Hs Ed) as [Hd Ld]. unfold ret, on_bytes. cbv beta iota.
      split; [apply (pages_kept u s1); [done|apply (po_tree u s1 Hok1)|by unfold free_frames|done]|]. repeat (split; [done|]). intros w Hw.
      rewrite (copy_segment u ph frames d s1 w Hok1 Hs E F1 Ld Hw). destruct (decide _) as [Hr|Hr]; [|by apply Hout].
      unfold overlay. by rewrite (proj2 (Z.leb_le _ _)), (proj2 (Z.ltb_lt _ _)), Hd by lia.
Qed.

(** *** A program *)

(** The loop of [spawn_user_process] over the program headers, with the highest
    address of a segment. *)
Fixpoint load_program (phs : list Elf64ProgramHeader) (elf_data : list Z) (u : Z) (mapped : gmap Z Z) (highest_addr : Z) : Load (S := S) Z :=
  match phs with
  | [] => ret highest_addr
  | ph :: phs =>
      if p_type ph =? PT_LOAD then
        do mapped <- load_segment_with_tracking ph elf_data u mapped;
        let seg_end := p_vaddr ph +[64] p_memsz ph in
        load_program phs elf_data u mapped (if highest_addr <? seg_end then seg_end else highest_addr)
      else load_program phs elf_data u mapped highest_addr
  end.

(** What the program sees: the segments over each other, in order. *)
Definition image (phs : list Elf64ProgramHeader) (elf_data : list Z) (img : Z -> option Z) : Z -> option Z :=
  foldl (fun img ph => if p_type ph =? PT_LOAD then overlay ph elf_data img else img) img phs.

Lemma overlay_ext ph elf_data img img' w : img w = img' w -> overlay ph elf_data img w = overlay ph elf_data img' w.
Proof. unfold overlay. by intros ->. Qed.

Lemma image_ext phs elf_data w : forall img img', img w = img' w -> image phs elf_data img w = image phs elf_data img' w.
Proof.
  induction phs as [|ph phs IH]; intros img img' H; [done|]. cbn [image foldl]. apply IH.
  destruct (p_type ph =? PT_LOAD); [by apply overlay_ext|done].
Qed.

(** Every loadable segment lies where it may. *)
Definition program_ok (phs : list Elf64ProgramHeader) : Prop := Forall (fun ph => p_type ph = PT_LOAD -> segment_ok ph) phs.

Lemma load_program_spec u phs elf_data : forall mapped highest (s : Space S), pages_ok u s -> tracks u mapped s -> program_ok phs ->
  let '(r, s') := load_program phs elf_data u mapped highest s in
  pages_ok u s' /\ user_step u (sp_vm s) (sp_vm s') /\ extends u (sp_vm s) (sp_vm s') /\
  (forall w, ~ user_half w -> translate u w (sp_vm s') = translate u w (sp_vm s)) /\
  match r with
  | Ok h => h = foldl (fun h ph => if p_type ph =? PT_LOAD then Z.max h (p_vaddr ph + p_memsz ph) else h) highest phs /\
            (forall w, 0 <= w < 2 ^ 47 -> user_byte u w s' = image phs elf_data (fun w => user_byte u w s) w)
  | Err _ => True
  end.
Proof.
  induction phs as [|ph phs IH]; intros mapped highest s Hok Ht Hp; cbn [load_program image foldl].
  - unfold ret. cbv beta iota. split; [done|]. split; [apply user_step_refl|]. split; [by intros ? ?|]. done.
  - apply Forall_cons in Hp as [Hs Hp]. destruct (Z.eqb_spec (p_type ph) PT_LOAD) as [E|E]; [|by apply (IH mapped)].
    specialize (Hs E). pose proof (load_segment_spec u ph elf_data mapped s Hok Ht Hs) as H1. unfold bindM.
    destruct (load_segment_with_tracking ph elf_data u mapped s) as [[m1|e] s1]; destruct H1 as (Hok1 & U1 & X1 & O1 & R1); [|done].
    destruct R1 as [T1 B1]. specialize (IH m1 (if highest <? p_vaddr ph +[64] p_memsz ph then p_vaddr ph +[64] p_memsz ph else highest) s1 Hok1 T1 Hp).
    destruct (load_program phs elf_data u m1 _ s1) as [r s2]. destruct IH as (Hok2 & U2 & X2 & O2 & R2).
    split; [done|]. split; [by apply (user_step_trans u _ (sp_vm s1))|]. split; [intros w g Hg; by apply X2, X1|].
    split; [intros w Hw; by rewrite O2, O1|]. destruct r as [h|]; [|done]. destruct R2 as [-> B2]. split.
    + f_equal. pose proof (so_vaddr ph Hs). pose proof (so_filesz ph Hs). pose proof (so_end ph Hs) as He. unfold USER_STACK_BASE in He.
      rewrite wrap_small by (unfold in_width; lia). destruct (Z.ltb_spec highest (p_vaddr ph + p_memsz ph)); lia.
    + intros w Hw. rewrite B2 by done. apply image_ext. by apply B1.
Qed.
End Segment.

Section Program.
Context {S : Type} `{FS : FrameSource S}.

(** A segment's byte shows unless a later segment's file part covers it. *)
Lemma image_segment phs elf_data : forall img i ph k b, phs !! i = Some ph -> p_type ph = PT_LOAD ->
  file_bytes ph elf_data !! k = Some b -> Z.of_nat k < p_filesz ph ->
  (forall j ph', (i < j)%nat -> phs !! j = Some ph' -> p_type ph' = PT_LOAD ->
     ~ p_vaddr ph' <= p_vaddr ph + Z.of_nat k < p_vaddr ph' + p_filesz ph') ->
  image phs elf_data img (p_vaddr ph + Z.of_nat k) = Some b.
Proof.
  induction phs as [|q phs IH] using rev_ind; intros img i ph k b Hi Hp Hb Hk Hl; [by rewrite lookup_nil in Hi|].
  unfold image. rewrite foldl_app. cbn [foldl]. fold (image phs elf_data img). apply lookup_app_Some in Hi as [Hi|[Hge Hi]].
  - pose proof (IH img i ph k b Hi Hp Hb Hk ltac:(intros j ph' Hj Hph'; apply (Hl j); [done|by apply lookup_app_l_Some])) as H.
    destruct (Z.eqb_spec (p_type q) PT_LOAD) as [Eq|_]; [|done]. unfold overlay. rewrite H.
    pose proof (Hl (length phs) q (lookup_lt_Some _ _ _ Hi) ltac:(by rewrite lookup_app_r, Nat.sub_diag by lia) Eq).
    destruct (Z.leb_spec (p_vaddr q) (p_vaddr ph + Z.of_nat k)), (Z.ltb_spec (p_vaddr ph + Z.of_nat k) (p_vaddr q + p_filesz q)); cbn [andb]; done || lia.
  - apply list_lookup_singleton_Some in Hi as [_ ->]. rewrite Hp, Z.eqb_refl. unfold overlay.
    rewrite (proj2 (Z.leb_le _ _)), (proj2 (Z.ltb_lt _ _)) by lia. cbn [andb]. by replace (Z.to_nat (p_vaddr ph + Z.of_nat k - p_vaddr ph)) with k by lia.
Qed.

(** A new address space with a program in it, as [spawn_user_process] makes it. *)
Definition new_program (k : Z) (phs : list Elf64ProgramHeader) (elf_data : list Z) : Load (S := S) (Z * Z * Z) :=
  do us <- create_user_address_space k;
  do highest_addr <- load_program phs elf_data us.1 ∅ 0;
  ret (us.1, us.2, highest_addr).

Lemma new_program_spec k phs elf_data (s : Space S) : tree_ok k (sp_vm s) -> program_ok phs ->
  let '(r, s') := new_program k phs elf_data s in
  tree_ok k (sp_vm s') /\ (forall w, translate k w (sp_vm s') = translate k w (sp_vm s)) /\
  match r with
  | Ok (u, stack_top, highest_addr) =>
      pages_ok u s' /\ apart k u (sp_vm s') /\ stack_top = USER_STACK_BASE + USER_STACK_SIZE /\
      highest_addr = foldl (fun h ph => if p_type ph =? PT_LOAD then Z.max h (p_vaddr ph + p_memsz ph) else h) 0 phs /\
      (forall w, ~ user_half w -> translate u w (sp_vm s') = translate k w (sp_vm s)) /\
      (forall w, 0 <= w < 2 ^ 47 ->
         user_byte u w s' = image phs elf_data (fun w => if decide (on_stack w) then Some 0 else None) w)
  | Err _ => True
  end.
Proof.
  intros Hok Hp. unfold new_program, bindM. pose proof (create_user_address_space_spec k s Hok) as H1.
  destruct (create_user_address_space k s) as [[[u top]|e] s1]; destruct H1 as (K1 & TK1 & R1); [|done].
  destruct R1 as (P1 & A1 & -> & H1 & B1). cbn [fst snd].
  assert (tracks u ∅ s1) as T1.
  { intros v Hv. rewrite lookup_empty. pose proof (B1 v (code_page_user v Hv)) as Hb. rewrite decide_False in Hb.
    - unfold user_byte in Hb. by destruct (translate u v (sp_vm s1)).
    - intros (w & Hw & Hs). apply same_page_sym in Hs. pose proof (stack_pages_above w Hw) as Hr. destruct Hv as [Hv1 Hv2].
      unfold USER_STACK_BASE in Hv1. assert (code_page v) as Hc by done. apply (code_page_of v w Hc) in Hs; [|unfold USER_STACK_BASE, USER_STACK_SIZE in Hr; lia].
      unfold page_base, PAGE_SIZE, USER_STACK_BASE in *. Z.to_euclidean_division_equations. lia. }
  pose proof (load_program_spec u phs elf_data ∅ 0 s1 P1 T1 Hp) as H2.
  destruct (load_program phs elf_data u ∅ 0 s1) as [r s2]. destruct H2 as (P2 & U2 & X2 & O2 & R2).
  destruct (kernel_kept k u (sp_vm s1) (sp_vm s2) K1 A1 U2 (tree_frames _ _ (po_tree u s2 P2))) as (K2 & A2 & TK2).
  assert (forall w, translate k w (sp_vm s2) = translate k w (sp_vm s)) as TK by (intros w; by rewrite TK2, TK1).
  destruct r as [h|e]; [|done]. destruct R2 as [-> B2]. unfold ret. cbv beta iota. repeat (split; [done|]). split; [intros w Hw; by rewrite O2, H1|].
  intros w Hw. rewrite B2 by done. apply image_ext. by apply B1, user_half_small.
Qed.

(** C7: As long as every loadable segment lies below the user stack and is not larger in
    the file than in memory ([program_ok]) - the segments may share pages, overlap, and
    have a part beyond the file - a program that is loaded sees at every address what its
    file says: the bytes of the last segment whose file part covers the address, zero on
    the rest of the segments' pages and on the stack, and nothing elsewhere.  The kernel's
    half of its address space translates as the kernel's, and the kernel's own translations
    stay, also when loading fails.  The loader does not check that segments lie there:
    [segment_replaces_kernel_page] is a file that takes a page of the kernel over. *)
Theorem program_image k phs elf_data (s : Space S) : tree_ok k (sp_vm s) -> program_ok phs ->
  let '(r, s') := new_program k phs elf_data s in
  (forall w, translate k w (sp_vm s') = translate k w (sp_vm s)) /\
  match r with
  | Ok (u, stack_top, highest_addr) =>
      stack_top = USER_STACK_BASE + USER_STACK_SIZE /\
      (forall w, ~ user_half w -> translate u w (sp_vm s') = translate k w (sp_vm s)) /\
      (forall w, 0 <= w < 2 ^ 47 ->
         user_byte u w s' = image phs elf_data (fun w => if decide (on_stack w) then Some 0 else None) w) /\
      (forall i ph n b, phs !! i = Some ph -> p_type ph = PT_LOAD -> file_bytes ph elf_data !! n = Some b -> Z.of_nat n < p_filesz ph ->
         (forall j ph', (i < j)%nat -> phs !! j = Some ph' -> p_type ph' = PT_LOAD ->
            ~ p_vaddr ph' <= p_vaddr ph + Z.of_nat n < p_vaddr ph' + p_filesz ph') ->
         user_byte u (p_vaddr ph + Z.of_nat n) s' = Some b)
  | Err _ => True
  end.
Proof.
  intros Hok Hp. pose proof (new_program_spec k phs elf_data s Hok Hp) as H.
  destruct (new_program k phs elf_data s) as [[[[u top] h]|e] s']; destruct H as (_ & TK & R); [|done].
  destruct R as (_ & _ & Ht & _ & Hk & Hi). split; [done|]. split; [done|]. split; [done|]. split; [done|].
  intros i ph n b Hph Hpt Hb Hn Hl. assert (segment_ok ph) as Hs.
  { unfold program_ok in Hp. rewrite Forall_forall in Hp. apply Hp; [by eapply list_elem_of_lookup_2|done]. }
  rewrite Hi.
  - by apply (image_segment phs elf_data _ i).
  - pose proof (so_vaddr ph Hs). pose proof (so_filesz ph Hs). pose proof (so_end ph Hs) as He. unfold USER_STACK_BASE in He. lia.
Qed.
End Program.

(** *** What the other loaders do, and what is not checked *)

Definition first_bytes (u v : Z) (n : nat) (s : Space FrameAllocator) : list (option Z) :=
  (fun k => user_byte u (v + Z.of_nat k) s) <$> seq 0 n.

Definition demo_file : list Z := elf_file demo_header [demo_ph] [10; 20; 30].

(** [load_elf] writes through [translate], which gives the start of the page: of
    the three bytes of the segment the last is left, at the first address. *)
Theorem load_elf_keeps_last_byte : let r := load_elf (fun _ => 0) demo_file user_p4 user_space in
  r.1 = Ok 0x400000 /\ first_bytes user_p4 0x400000 3 r.2 = [Some 30; Some 0; Some 0].
Proof. vm_compute. split; reflexivity. Qed.

(** [load_flat_binary] does not clear its frames: the rest of the last page shows
    what was there before. *)
Theorem flat_binary_leaks : let dirty := mkSpace (sp_vm user_space) (store_bytes 0x218000 (replicate 8 77) (sp_bytes user_space)) in
  let r := load_flat_binary [1; 2] user_p4 0x400000 dirty in
  r.1 = Ok 0x400000 /\ first_bytes user_p4 0x400000 4 r.2 = [Some 1; Some 2; Some 77; Some 77].
Proof. vm_compute. split; reflexivity. Qed.

(** Only the entry point is checked to be a user address.  A segment that names a
    page of the kernel, if it is executable, takes the kernel's page over: its
    frame is replaced in the tables that every address space shares, and it becomes
    a user page. *)
Definition hostile_ph : Elf64ProgramHeader := mkProgramHeader PT_LOAD 7 120 kernel_page kernel_page 3 3 0x1000.

Theorem segment_replaces_kernel_page : let r := new_program kernel_p4 [hostile_ph] (elf_file demo_header [hostile_ph] [10; 20; 30]) kernel_space in
  is_ok r.1 = true /\ translate kernel_p4 kernel_page (sp_vm kernel_space) = Some 0x23F000 /\
  (exists f, translate kernel_p4 kernel_page (sp_vm r.2) = Some f /\ f <> 0x23F000 /\ byte (sp_bytes r.2) f = 10).
Proof. vm_compute. split; [reflexivity|]. split; [reflexivity|]. eexists. split; [reflexivity|]. split; [discriminate|reflexivity]. Qed.

(** ** Witnesses *)

(** Two segments on one page: code, then data with a part beyond the file. *)
Definition text_ph : Elf64ProgramHeader := mkProgramHeader PT_LOAD 5 176 0x400000 0x400000 3 3 0x1000.
Definition data_ph : Elf64ProgramHeader := mkProgramHeader PT_LOAD 6 179 0x400100 0x400100 2 0x10 0x1000.
Definition two_segments : list Z := replicate 176 0 ++ [10; 20; 30; 40; 50].
Definition loaded : Space FrameAllocator := (new_program kernel_p4 [text_ph; data_ph] two_segments kernel_space).2.

Lemma loaded_ok : new_program kernel_p4 [text_ph; data_ph] two_segments kernel_space = (Ok (user_p4, 0x7FFFFFE10000, 0x400110), loaded).
Proof. unfold loaded. apply (pair_fst (new_program kernel_p4 [text_ph; data_ph] two_segments kernel_space)). vm_compute. reflexivity. Qed.

Lemma program_image_witness : program_ok [text_ph; data_ph] /\ translate user_p4 kernel_page (sp_vm loaded) = Some 0x23F000 /\
  user_byte user_p4 0x400101 loaded = Some 50 /\ user_byte user_p4 0x400102 loaded = Some 0.
Proof.
  assert (program_ok [text_ph; data_ph]) as Hp.
  { repeat constructor; cbn; unfold USER_STACK_BASE; lia. }
  pose proof (program_image kernel_p4 [text_ph; data_ph] two_segments kernel_space kernel_vm_ok Hp) as H. rewrite loaded_ok in H.
  destruct H as (_ & _ & Hk & Hi & Hb). split; [exact Hp|]. split; [|split].
  - rewrite (Hk kernel_page) by (apply (bool_decide_unpack _); vm_compute; exact I). vm_compute. reflexivity.
  - apply (Hb 1%nat data_ph 1%nat 50); [reflexivity|reflexivity|reflexivity|cbn; lia|].
    intros j ph' Hj Hph' _. apply lookup_lt_Some in Hph'. cbn in Hph'. lia.
  - rewrite Hi by lia. vm_compute. reflexivity.
Defined.
