(* ===== verification/Heap.v ===== *)
(** * Kernel heap ([kernel/src/memory/heap.rs], [kernel/src/util.rs])

    The linked-list allocator.  Free blocks carry their header in place, so the
    heap's memory is a map from a block's address to its [FreeBlock] header and
    the free list is a chain of pointers through it.  A header takes 16 bytes
    and every free block is at least that long (an invariant below), so two
    headers never overlap.  The list loops run on fuel, one more than the number
    of headers in memory; that this is always enough is part of the theorems. *)

From Stdlib Require Import ZArith Lia Bool.
From stdpp Require Import base numbers option list gmap sets.
From S2P Require Import Prelude.
From S2P Require Import Frame.
From S2P Require Import Paging.
From S2P Require Import Util.

(** ** The allocator *)

Definition HEAP_START : Z := 0xFFFF800000000000.
Definition KERNEL_HEAP_SIZE : Z := 100 * 1024 * 1024.

(** [size_of::<FreeBlock>()]: a [usize] and a nullable pointer. *)
Definition SIZEOF_FreeBlock : Z := 16.

Record FreeBlock : Type := mkFree { fb_size : Z; fb_next : option Z }.

Record LinkedListAllocator : Type := mkHeap {
  free_list : option Z;
  heap_start : Z;
  heap_end : Z;
  allocated : Z;
  heap_mem : gmap Z FreeBlock;   (* the headers in the heap's memory *)
}.

Record Layout : Type := mkLayout { l_size : Z; l_align : Z }.

Definition new : LinkedListAllocator := mkHeap None 0 0 0 ∅.

(** [NonNull::new] of an address. *)
Definition NonNull_new (a : Z) : option Z := if a =? 0 then None else Some a.

(** Reading a header through a pointer. *)
Definition header (m : gmap Z FreeBlock) (a : Z) : FreeBlock := default (mkFree 0 None) (m !! a).

(** The list part of [init], after the heap's pages are mapped: one block that is the whole heap. *)
Definition init_free_list (h : LinkedListAllocator) : LinkedListAllocator :=
  mkHeap (NonNull_new HEAP_START) HEAP_START (HEAP_START +[64] KERNEL_HEAP_SIZE) (allocated h)
    (<[HEAP_START := mkFree KERNEL_HEAP_SIZE None]> (heap_mem h)).

(** The page loop of [init]: a frame is allocated for every page of the heap and
    mapped; the result of [map] is ignored, running out of frames panics ([None]). *)
Section Init.
Context {S : Type} `{FS : FrameSource S}.

Definition HEAP_FLAGS : Z := Z.lor (Z.lor PRESENT WRITABLE) NO_EXECUTE.

Fixpoint heap_pages (p4 : Z) (offsets : list Z) (s : VM S) : option (VM S) :=
  match offsets with
  | [] => Some s
  | offset :: rest =>
      let virt := HEAP_START +[64] offset in
      match fs_alloc (vm_frames s) with
      | (Some frame, f') =>
          heap_pages p4 rest (Paging.map p4 virt frame HEAP_FLAGS (mkVM (vm_mem s) f')).2
      | (None, _) => None
      end
  end.

Definition init (p4 : Z) (h : LinkedListAllocator) (s : VM S) : option (LinkedListAllocator * VM S) :=
  match heap_pages p4 ((fun i => i * PAGE_SIZE) <$> seqZ 0 (KERNEL_HEAP_SIZE / PAGE_SIZE)) s with
  | Some s' => Some (init_free_list h, s')
  | None => None
  end.

End Init.

(** [if let Some(mut p) = prev { p.as_mut().next = x } else { self.free_list = x }]. *)
Definition set_link (prev : option Z) (x : option Z) (h : LinkedListAllocator) : LinkedListAllocator :=
  match prev with
  | Some p => mkHeap (free_list h) (heap_start h) (heap_end h) (allocated h)
                (<[p := mkFree (fb_size (header (heap_mem h) p)) x]> (heap_mem h))
  | None => mkHeap x (heap_start h) (heap_end h) (allocated h) (heap_mem h)
  end.

Definition write_header (a : Z) (b : FreeBlock) (h : LinkedListAllocator) : LinkedListAllocator :=
  mkHeap (free_list h) (heap_start h) (heap_end h) (allocated h) (<[a := b]> (heap_mem h)).

Definition set_allocated (n : Z) (h : LinkedListAllocator) : LinkedListAllocator :=
  mkHeap (free_list h) (heap_start h) (heap_end h) n (heap_mem h).

(** The size both [alloc_impl] and [dealloc_impl] compute from a layout. *)
Definition block_size (l : Layout) : Z := align_up (Z.max (l_size l) SIZEOF_FreeBlock) (l_align l).

(** The search loop of [alloc_impl]; [None] means out of fuel, a null result is 0. *)
Fixpoint alloc_loop (fuel : nat) (size align : Z) (prev current : option Z)
    (h : LinkedListAllocator) : option (Z * LinkedListAllocator) :=
  match fuel with
  | O => None
  | S fuel' =>
      match current with
      | None => Some (0, h)
      | Some node =>
          let node_ref := header (heap_mem h) node in
          let aligned_addr := align_up node align in
          let padding := aligned_addr -[64] node in
          let required_size := padding +[64] size in
          if fb_size node_ref >=? required_size then
            let alloc_start := aligned_addr in
            let alloc_end := alloc_start +[64] size in
            let h1 :=
              if fb_size node_ref >? required_size +[64] SIZEOF_FreeBlock then
                let remainder_size := fb_size node_ref -[64] required_size in
                set_link prev (NonNull_new alloc_end)
                  (write_header alloc_end (mkFree remainder_size (fb_next node_ref)) h)
              else set_link prev (fb_next node_ref) h in
            Some (alloc_start, set_allocated (allocated h1 +[64] size) h1)
          else alloc_loop fuel' size align current (fb_next node_ref) h
      end
  end.

Definition fuel_of (h : LinkedListAllocator) : nat := S (size (heap_mem h)).

Definition alloc_impl (l : Layout) (h : LinkedListAllocator) : option (Z * LinkedListAllocator) :=
  alloc_loop (fuel_of h) (block_size l) (l_align l) None (free_list h) h.

(** The loop of [dealloc_impl]: the first node after [addr] and its predecessor. *)
Fixpoint find_slot (fuel : nat) (m : gmap Z FreeBlock) (addr : Z) (prev current : option Z)
    : option (option Z * option Z) :=
  match fuel with
  | O => None
  | S fuel' =>
      match current with
      | None => Some (prev, None)
      | Some node =>
          if node >? addr then Some (prev, Some node)
          else find_slot fuel' m addr current (fb_next (header m node))
      end
  end.

Definition dealloc_impl (ptr : Z) (l : Layout) (h : LinkedListAllocator) : option LinkedListAllocator :=
  let size := block_size l in
  let addr := ptr in
  match find_slot (fuel_of h) (heap_mem h) addr None (free_list h) with
  | None => None
  | Some (prev, current) =>
      let next_addr := addr +[64] size in
      let new_block :=
        match current with
        | Some node =>
            if node =? next_addr then
              mkFree (size +[64] fb_size (header (heap_mem h) node)) (fb_next (header (heap_mem h) node))
            else mkFree size current
        | None => mkFree size None
        end in
      let h1 := write_header addr new_block h in
      let h2 :=
        match prev with
        | Some p =>
            let prev_ref := header (heap_mem h1) p in
            let prev_end := p +[64] fb_size prev_ref in
            if prev_end =? addr then
              let nb := header (heap_mem h1) addr in
              write_header p (mkFree (fb_size prev_ref +[64] fb_size nb) (fb_next nb)) h1
            else write_header p (mkFree (fb_size prev_ref) (NonNull_new addr)) h1
        | None => set_link None (NonNull_new addr) h1
        end in
      Some (set_allocated (allocated h2 -[64] size) h2)
  end.

Definition available (h : LinkedListAllocator) : Z := sat_sub KERNEL_HEAP_SIZE (allocated h).
Definition get_stats (h : LinkedListAllocator) : Z * Z := (allocated h, available h).

(** ** Abstract specification: the free blocks as a sorted list

    A free list is a list of (address, size) pairs.  [alloc_list] and
    [dealloc_list] are what the pointer code promises. *)


Fixpoint alloc_list (size align : Z) (l : list (Z * Z)) : option (Z * list (Z * Z)) :=
  match l with
  | [] => None
  | (a, s) :: r =>
      let p := round_up a align in
      let required := p - a + size in
      if required <=? s then
        Some (p, if required + SIZEOF_FreeBlock <? s then (p + size, s - required) :: r else r)
      else
        match alloc_list size align r with
        | Some (p', r') => Some (p', (a, s) :: r')
        | None => None
        end
  end.

Definition push_front (addr size : Z) (l2 : list (Z * Z)) : list (Z * Z) :=
  match l2 with
  | (a, s) :: r => if a =? addr + size then (addr, size + s) :: r else (addr, size) :: l2
  | [] => [(addr, size)]
  end.

Definition glue (b : Z * Z) (l : list (Z * Z)) : list (Z * Z) :=
  match l with
  | (a, s) :: r => if b.1 + b.2 =? a then (b.1, b.2 + s) :: r else b :: l
  | [] => [b]
  end.

Fixpoint dealloc_list (addr size : Z) (l : list (Z * Z)) : list (Z * Z) :=
  match l with
  | [] => [(addr, size)]
  | (a, s) :: r =>
      if addr <? a then push_front addr size l
      else
        match r with
        | (a', _) :: _ =>
            if addr <? a' then glue (a, s) (push_front addr size r)
            else (a, s) :: dealloc_list addr size r
        | [] => glue (a, s) [(addr, size)]
        end
  end.

(** Sorted, in bounds, long enough for a header, and coalesced: between two
    consecutive blocks there is at least one byte that is not free. *)
Fixpoint blocks_ok (lo hi : Z) (l : list (Z * Z)) : Prop :=
  match l with
  | [] => True
  | (a, s) :: r => lo <= a /\ SIZEOF_FreeBlock <= s /\ a + s <= hi /\ blocks_ok (a + s + 1) hi r
  end.

(** The chain of headers from [p] through the blocks of [l] to [q]. *)
Fixpoint seg (m : gmap Z FreeBlock) (p : option Z) (l : list (Z * Z)) (q : option Z) : Prop :=
  match l with
  | [] => p = q
  | (a, s) :: r => p = Some a /\ exists nx, m !! a = Some (mkFree s nx) /\ seg m nx r q
  end.

Definition represents (h : LinkedListAllocator) (l : list (Z * Z)) : Prop :=
  seg (heap_mem h) (free_list h) l None.

(** ** Chains *)

Lemma header_Some m a b : m !! a = Some b -> header m a = b.
Proof. unfold header. by intros ->. Qed.

Definition addrs (l : list (Z * Z)) : list Z := l.*1.

Lemma seg_app m l1 : forall p l2 q,
  seg m p (l1 ++ l2) q <-> exists x, seg m p l1 x /\ seg m x l2 q.
Proof.
  induction l1 as [|[a s] l1 IH]; intros p l2 q; simpl.
  - split; [eauto|by intros (x & -> & H)].
  - split.
    + intros (-> & nx & Hm & (x & H1 & H2)%IH). exists x. eauto 10.
    + intros (x & (-> & nx & Hm & H1) & H2). split; [done|]. exists nx. split; [done|]. apply IH. eauto.
Qed.

Lemma seg_frame m l : forall p q a b, a ∉ addrs l -> seg m p l q -> seg (<[a := b]> m) p l q.
Proof.
  induction l as [|[a' s] l IH]; intros p q a b Hn; simpl; [done|].
  unfold addrs in Hn. simpl in Hn. apply not_elem_of_cons in Hn as [Hne Hn].
  intros (-> & nx & Hm & H). split; [done|]. exists nx.
  rewrite lookup_insert_ne by done. split; [done|]. by apply IH.
Qed.

Lemma seg_end m p l q q' : seg m p l q -> seg m p l q' -> q = q'.
Proof.
  revert p. induction l as [|[a s] l IH]; intros p; simpl; [congruence|].
  intros (-> & nx & Hm & H) (_ & nx' & Hm' & H'). simplify_eq. eauto.
Qed.

Lemma blocks_ok_app lo hi l1 : forall l2, blocks_ok lo hi (l1 ++ l2) ->
  blocks_ok lo hi l1 /\ exists lo', lo <= lo' /\ blocks_ok lo' hi l2 /\
    forall a s, (a, s) ∈ l1 -> a + s < lo'.
Proof.
  revert lo. induction l1 as [|[a s] l1 IH]; intros lo l2; simpl.
  - intros H. split; [done|]. exists lo. split; [lia|]. split; [done|]. by intros ? ? ?%not_elem_of_nil.
  - intros (H1 & H2 & H3 & H4). destruct (IH _ _ H4) as (Hl1 & lo' & Hle & Hok & Hlt).
    split; [done|]. exists lo'. unfold SIZEOF_FreeBlock in *. split; [lia|]. split; [done|].
    intros x y [[= -> ->]|Hin]%elem_of_cons; [lia|eauto].
Qed.

Lemma blocks_ok_weaken lo lo' hi l : lo' <= lo -> blocks_ok lo hi l -> blocks_ok lo' hi l.
Proof. destruct l as [|[a s] l]; simpl; [done|]. intros ? (? & ? & ? & ?). split; [lia|done]. Qed.

Lemma blocks_ok_elem lo hi l a s : blocks_ok lo hi l -> (a, s) ∈ l ->
  lo <= a /\ SIZEOF_FreeBlock <= s /\ a + s <= hi.
Proof.
  revert lo. induction l as [|[a' s'] l IH]; intros lo; simpl; [by intros _ ?%not_elem_of_nil|].
  intros (H1 & H2 & H3 & H4) [[= -> ->]|Hin]%elem_of_cons; [done|].
  destruct (IH _ H4 Hin). unfold SIZEOF_FreeBlock in *. lia.
Qed.

Lemma blocks_ok_not_in lo hi l x : blocks_ok lo hi l -> x < lo -> x ∉ addrs l.
Proof.
  intros Hok Hx. unfold addrs. rewrite list_elem_of_fmap. intros ([a s] & -> & Hin).
  destruct (blocks_ok_elem _ _ _ _ _ Hok Hin). simpl in *. lia.
Qed.

Lemma blocks_ok_nodup lo hi l : blocks_ok lo hi l -> NoDup (addrs l).
Proof.
  revert lo. induction l as [|[a s] l IH]; intros lo; simpl; [constructor|].
  intros (H1 & H2 & H3 & H4). constructor; [|eauto].
  eapply blocks_ok_not_in; [done|]. unfold SIZEOF_FreeBlock in *. lia.
Qed.

(** Every block of a chain has its header in memory, so the fuel covers the list. *)
Lemma seg_lookup m l : forall p q a s, seg m p l q -> (a, s) ∈ l ->
  exists nx, m !! a = Some (mkFree s nx).
Proof.
  induction l as [|[a' s'] l IH]; intros p q a s; simpl; [by intros _ ?%not_elem_of_nil|].
  intros (-> & nx & Hm & H) [[= -> ->]|Hin]%elem_of_cons; eauto.
Qed.

Lemma seg_length lo hi m p l q : blocks_ok lo hi l -> seg m p l q -> (length l <= size m)%nat.
Proof.
  intros Hok Hs. rewrite <- (length_fmap fst l). change (fst <$> l) with (addrs l).
  assert (length (addrs l) = size (list_to_set (addrs l) : gset Z)) as ->
    by (symmetry; apply size_list_to_set; by eapply blocks_ok_nodup).
  rewrite <- size_dom. apply subseteq_size. intros x. rewrite elem_of_list_to_set, elem_of_dom.
  unfold addrs. rewrite list_elem_of_fmap. intros ([a s] & -> & Hin).
  destruct (seg_lookup _ _ _ _ _ _ Hs Hin) as [nx Hnx]. eauto.
Qed.

(** The address of the last block before the current position. *)
Definition last_addr (l : list (Z * Z)) : option Z := fst <$> last l.

Lemma set_link_spec h l1 x y q :
  seg (heap_mem h) (free_list h) l1 x -> NoDup (addrs l1) ->
  let h' := set_link (last_addr l1) y h in
  seg (heap_mem h') (free_list h') l1 y /\ allocated h' = allocated h /\
  heap_start h' = heap_start h /\ heap_end h' = heap_end h /\
  (forall p l2, (forall a, a ∈ addrs l2 -> a ∉ addrs l1) -> seg (heap_mem h) p l2 q ->
     seg (heap_mem h') p l2 q).
Proof.
  intros Hs Hnd. unfold last_addr.
  destruct (last l1) as [[a s]|] eqn:El; simpl.
  - apply last_Some in El as [l1' ->]. apply seg_app in Hs as (z & Hs1 & -> & nx & Hm & Hx).
    rewrite (header_Some _ _ _ Hm). simpl. unfold addrs in *. rewrite fmap_app in Hnd. simpl in Hnd.
    apply NoDup_app in Hnd as (Hnd1 & Hdis & _).
    split; [|split; [done|split; [done|split; [done|]]]].
    + apply seg_app. exists (Some a). split.
      * apply seg_frame; [|done]. intros Hin. apply (Hdis _ Hin). left.
      * split; [done|]. exists y. by rewrite lookup_insert_eq.
    + intros p l2 Hd Hs2. apply seg_frame; [|done]. intros Hin. apply (Hd _ Hin).
      rewrite fmap_app. apply elem_of_app. right. left.
  - apply last_None in El as ->. simpl in *. done.
Qed.

(** ** The pointer code implements the list specification *)

Section Refinement.
Context (lo hi : Z).
Hypothesis Hlo : 0 < lo.
Hypothesis Hhi : hi + 2 ^ 46 <= 2 ^ 64.

Lemma app_disjoint l1 l2 : blocks_ok lo hi (l1 ++ l2) ->
  NoDup (addrs l1) /\ forall a, a ∈ addrs l2 -> a ∉ addrs l1.
Proof.
  intros Hok. pose proof (blocks_ok_nodup _ _ _ Hok) as Hnd. unfold addrs in *.
  rewrite fmap_app in Hnd. apply NoDup_app in Hnd as (H1 & H2 & _). split; [done|].
  intros a Ha Hb. exact (H2 a Hb Ha).
Qed.

Lemma alloc_loop_refines k sz : 0 <= k <= 45 -> SIZEOF_FreeBlock <= sz <= 2 ^ 46 ->
  forall fuel l2 l1 cur h,
  seg (heap_mem h) (free_list h) l1 cur -> seg (heap_mem h) cur l2 None ->
  blocks_ok lo hi (l1 ++ l2) -> (length l2 < fuel)%nat ->
  match alloc_list sz (2 ^ k) l2 with
  | None => alloc_loop fuel sz (2 ^ k) (last_addr l1) cur h = Some (0, h)
  | Some (p, l2') => exists h',
      alloc_loop fuel sz (2 ^ k) (last_addr l1) cur h = Some (p, h') /\
      represents h' (l1 ++ l2') /\ allocated h' = allocated h +[64] sz
  end.
Proof.
  intros Hk Hsz. assert (0 < 2 ^ k <= 2 ^ 45) as Hk2.
  { split; [apply Z.pow_pos_nonneg; lia|apply Z.pow_le_mono_r; lia]. }
  unfold SIZEOF_FreeBlock in *.
  induction fuel as [|fuel IH]; intros l2 l1 cur h Hs1 Hs2 Hok Hfuel; [lia|].
  destruct l2 as [|[a s] l2]; simpl in Hs2; [by subst cur|].
  destruct Hs2 as (-> & nx & Hm & Hs2). cbn [alloc_loop alloc_list]. rewrite (header_Some _ _ _ Hm).
  cbn [fb_size fb_next].
  destruct (blocks_ok_app _ _ _ _ Hok) as (Hok1 & lo' & Hlo' & Hok2 & Hlt1).
  simpl in Hok2. destruct Hok2 as (Ha & Hs & Hb & Hok3). unfold SIZEOF_FreeBlock in *.
  rewrite align_up_exact by lia. destruct (round_up_spec a (2 ^ k)) as [Hp _]; [lia|].
  set (p := round_up a (2 ^ k)) in *.
  rewrite (wrap_small 64 (p - a)), (wrap_small 64 (p - a + sz)) by (unfold in_width; lia).
  rewrite Z.geb_leb. destruct (Z.leb_spec (p - a + sz) s) as [Hfit|Hno].
  - rewrite (wrap_small 64 (p - a + sz + 16)), (wrap_small 64 (p + sz)) by (unfold in_width; lia).
    rewrite Z.gtb_ltb. destruct (app_disjoint _ _ Hok) as [Hnd Hdis].
    assert (forall x, x ∈ addrs l2 -> a + s < x) as Hgt.
    { intros x Hx. unfold addrs in Hx. apply list_elem_of_fmap in Hx as ([x' y] & -> & Hin).
      destruct (blocks_ok_elem _ _ _ _ _ Hok3 Hin). simpl. lia. }
    assert (forall x, x ∈ addrs l1 -> x < a) as Hlt.
    { intros x Hx. unfold addrs in Hx. apply list_elem_of_fmap in Hx as ([x' y] & -> & Hin).
      specialize (Hlt1 _ _ Hin). destruct (blocks_ok_elem _ _ _ _ _ Hok1 Hin).
      unfold SIZEOF_FreeBlock in *. simpl. lia. }
    destruct (Z.ltb_spec (p - a + sz + 16) s) as [Hsplit|Hwhole].
    + rewrite (wrap_small 64 (s - (p - a + sz))) by (unfold in_width; lia).
      set (e := p + sz). set (h1 := write_header e _ h).
      assert (NonNull_new e = Some e) as ->.
      { unfold NonNull_new. destruct (Z.eqb_spec e 0); [lia|done]. }
      assert (seg (heap_mem h1) (free_list h1) l1 (Some a)) as Hs1'.
      { apply seg_frame; [|done]. intros Hin. specialize (Hlt _ Hin). lia. }
      destruct (set_link_spec h1 l1 _ (Some e) None Hs1' Hnd) as (Hl & Hal & _ & _ & Hfr).
      eexists. split; [reflexivity|]. split; [|simpl; rewrite Hal; done].
      unfold represents. simpl. apply seg_app. exists (Some e). split; [exact Hl|].
      apply Hfr.
      * intros x [->|Hx]%elem_of_cons Hin; [specialize (Hlt _ Hin); simpl in *; lia|].
        specialize (Hlt _ Hin). specialize (Hgt _ Hx). lia.
      * simpl. split; [done|]. exists nx. rewrite lookup_insert_eq. split; [done|].
        apply seg_frame; [|done]. intros Hin. specialize (Hgt _ Hin). lia.
    + destruct (set_link_spec h l1 _ nx None Hs1 Hnd) as (Hl & Hal & _ & _ & Hfr).
      eexists. split; [reflexivity|]. split; [|simpl; rewrite Hal; done].
      unfold represents. simpl. apply seg_app. exists nx. split; [exact Hl|].
      apply Hfr; [|done]. intros x Hx. apply Hdis. right. exact Hx.
  - specialize (IH l2 (l1 ++ [(a, s)]) nx h). unfold last_addr in IH.
    rewrite last_snoc in IH. simpl in IH.
    assert (seg (heap_mem h) (free_list h) (l1 ++ [(a, s)]) nx) as Hs1'.
    { apply seg_app. exists (Some a). split; [done|]. simpl. split; [done|]. eauto. }
    rewrite <- app_assoc in IH. specialize (IH Hs1' Hs2 Hok ltac:(simpl in Hfuel; lia)).
    destruct (alloc_list sz (2 ^ k) l2) as [[p' l2']|]; [|exact IH].
    destruct IH as (h' & Hr & Hrep & Hal). exists h'. split; [exact Hr|].
    split; [|done]. by rewrite <- app_assoc in Hrep.
Qed.

(** Layouts the heap can be asked for: a power-of-two alignment and a size far
    below the address-space bounds. *)
Definition layout_ok (l : Layout) : Prop :=
  exists k, 0 <= k <= 45 /\ l_align l = 2 ^ k /\ 0 <= l_size l <= 2 ^ 45.

Lemma block_size_spec l : layout_ok l ->
  SIZEOF_FreeBlock <= block_size l <= 2 ^ 46 /\ l_size l <= block_size l /\ (l_align l | block_size l).
Proof.
  intros (k & Hk & Hal & Hs). assert (0 < 2 ^ k <= 2 ^ 45).
  { split; [apply Z.pow_pos_nonneg; lia|apply Z.pow_le_mono_r; lia]. }
  unfold block_size, SIZEOF_FreeBlock. rewrite Hal, align_up_exact by lia.
  destruct (round_up_spec (Z.max (l_size l) 16) (2 ^ k)) as [? ?]; [lia|].
  split; [lia|]. split; [lia|done].
Qed.

Lemma alloc_refines lay h l : layout_ok lay -> represents h l -> blocks_ok lo hi l ->
  match alloc_list (block_size lay) (l_align lay) l with
  | None => alloc_impl lay h = Some (0, h)
  | Some (p, l') => exists h', alloc_impl lay h = Some (p, h') /\
      represents h' l' /\ allocated h' = allocated h +[64] block_size lay
  end.
Proof.
  intros Hl Hr Hok. destruct (block_size_spec lay Hl) as [Hsz _].
  destruct Hl as (k & Hk & Hal & _). rewrite Hal.
  pose proof (alloc_loop_refines k (block_size lay) Hk Hsz (fuel_of h) l [] (free_list h) h) as H.
  unfold alloc_impl. rewrite Hal. apply H; [done|exact Hr|done|].
  unfold fuel_of. pose proof (seg_length _ _ _ _ _ _ Hok Hr). lia.
Qed.

Definition head_addr (l : list (Z * Z)) : option Z := fst <$> head l.

Lemma seg_head m p l : seg m p l None -> p = head_addr l.
Proof. destruct l as [|[a s] l]; simpl; [done|]. by intros [-> _]. Qed.

Definition after (addr : Z) (l : list (Z * Z)) : Prop :=
  match l with (b, _) :: _ => addr < b | [] => True end.

Lemma find_slot_spec addr m fuel : forall l2 l1 p cur,
  seg m p l1 cur -> seg m cur l2 None -> (length l2 < fuel)%nat ->
  exists la lb, l2 = la ++ lb /\ Forall (fun b => b.1 <= addr) la /\ after addr lb /\
    find_slot fuel m addr (last_addr l1) cur = Some (last_addr (l1 ++ la), head_addr lb) /\
    seg m p (l1 ++ la) (head_addr lb) /\ seg m (head_addr lb) lb None.
Proof.
  induction fuel as [|fuel IH]; intros l2 l1 p cur Hs1 Hs2 Hf; [lia|].
  destruct l2 as [|[a s] l2].
  - exists [], []. simpl in *. subst cur. rewrite !app_nil_r. by repeat split.
  - simpl in Hs2. destruct Hs2 as (-> & nx & Hm & Hs2). cbn [find_slot].
    rewrite Z.gtb_ltb. destruct (Z.ltb_spec addr a).
    + exists [], ((a, s) :: l2). rewrite !app_nil_r. split; [done|]. split; [constructor|].
      split; [done|]. split; [done|]. split; [done|]. simpl. eauto.
    + rewrite (header_Some _ _ _ Hm). cbn [fb_next].
      assert (seg m p (l1 ++ [(a, s)]) nx) as Hs1'.
      { apply seg_app. exists (Some a). split; [done|]. simpl. eauto. }
      destruct (IH l2 (l1 ++ [(a, s)]) p nx Hs1' Hs2 ltac:(simpl in Hf; lia))
        as (la & lb & -> & Hla & Hlb & Hfs & Hseg & Hseg2).
      exists ((a, s) :: la), lb. rewrite <- app_assoc in Hfs, Hseg. simpl in Hfs, Hseg.
      split; [done|]. split; [by constructor|]. split; [done|]. split; [|done].
      rewrite <- Hfs. unfold last_addr. by rewrite last_snoc.
Qed.

(** A block that overlaps no free block and lies in the heap. *)
Definition disjoint_from (addr sz : Z) (l : list (Z * Z)) : Prop :=
  forall a s, (a, s) ∈ l -> a + s <= addr \/ addr + sz <= a.
Definition block_in (addr sz : Z) : Prop := lo <= addr /\ SIZEOF_FreeBlock <= sz /\ addr + sz <= hi.

Lemma dealloc_list_split addr sz la lb : Forall (fun b => b.1 <= addr) la -> after addr lb ->
  dealloc_list addr sz (la ++ lb) =
    match last la with
    | None => push_front addr sz lb
    | Some b => removelast la ++ glue b (push_front addr sz lb)
    end.
Proof.
  intros Hla Hlb. induction Hla as [|[a s] la Ha Hla IH].
  - destruct lb as [|[b t] lb]; [done|]. simpl in *. destruct (Z.ltb_spec addr b); [done|lia].
  - simpl in Ha. destruct la as [|[a' s'] la].
    + simpl. destruct (Z.ltb_spec addr a); [lia|].
      destruct lb as [|[b t] lb]; [done|]. simpl in Hlb. destruct (Z.ltb_spec addr b); [done|lia].
    + change (dealloc_list addr sz (((a, s) :: (a', s') :: la) ++ lb)) with
        (if addr <? a then push_front addr sz (((a, s) :: (a', s') :: la) ++ lb)
         else if addr <? a' then glue (a, s) (push_front addr sz (((a', s') :: la) ++ lb))
         else (a, s) :: dealloc_list addr sz (((a', s') :: la) ++ lb)).
      rewrite IH. inversion Hla as [|? ? Ha' _]; subst. simpl in Ha'.
      destruct (Z.ltb_spec addr a), (Z.ltb_spec addr a'); try lia.
      change (last ((a, s) :: (a', s') :: la)) with (last ((a', s') :: la)).
      change (removelast ((a, s) :: (a', s') :: la)) with ((a, s) :: removelast ((a', s') :: la)).
      destruct (last ((a', s') :: la)) as [b|] eqn:El; [done|]. by apply last_None in El.
Qed.

Lemma push_front_shape m addr sz lb q lo' :
  seg m q lb None -> (forall a s, (a, s) ∈ lb -> addr + sz <= a) ->
  blocks_ok lo' hi lb -> addr + sz <= hi ->
  exists n tail, push_front addr sz lb = (addr, n) :: tail /\
    (forall x, x ∈ addrs tail -> x ∈ addrs lb) /\
    seg m (head_addr tail) tail None /\ sz <= n /\ addr + n <= hi /\
    (match head_addr lb with
     | Some b => if b =? addr + sz then n = sz + fb_size (header m b) /\ head_addr tail = fb_next (header m b)
                 else n = sz /\ head_addr tail = Some b
     | None => n = sz /\ head_addr tail = None
     end).
Proof.
  intros Hs Hge Hok Hhi'. destruct lb as [|[b t] lb]; simpl.
  - exists sz, []. split; [done|]. split; [done|]. split; [done|]. split; [lia|]. split; [lia|done].
  - simpl in Hs, Hok. destruct Hs as (-> & nx & Hm & Hs). destruct Hok as (_ & Ht & Hbt & _).
    unfold SIZEOF_FreeBlock in Ht.
    rewrite (header_Some _ _ _ Hm). simpl.
    pose proof (seg_head _ _ _ Hs) as Hnx. destruct (Z.eqb_spec b (addr + sz)).
    + exists (sz + t), lb. split; [done|]. split; [intros x Hx; by right|]. subst nx.
      split; [done|]. split; [lia|]. split; [lia|done].
    + exists sz, ((b, t) :: lb). split; [done|]. split; [done|].
      split; [simpl; eauto|]. split; [lia|]. split; [lia|done].
Qed.

(** The header the merge-with-next branch writes. *)
Lemma new_header_exact m addr sz lb n nx :
  0 <= sz <= n -> 0 <= addr -> addr + n <= hi ->
  (match head_addr lb with
   | Some b => if b =? addr + sz then n = sz + fb_size (header m b) /\ nx = fb_next (header m b)
               else n = sz /\ nx = Some b
   | None => n = sz /\ nx = None
   end) ->
  (match head_addr lb with
   | Some node => if node =? addr + sz then
       mkFree (sz +[64] fb_size (header m node)) (fb_next (header m node)) else mkFree sz (head_addr lb)
   | None => mkFree sz None
   end) = mkFree n nx.
Proof.
  intros Hn Ha Hb. destruct (head_addr lb) as [b|]; [|by intros [-> ->]].
  destruct (b =? addr + sz); intros [-> ->]; [|done].
  rewrite wrap_small; [done|]. unfold in_width. lia.
Qed.

(** The merge-with-previous branch on a chain that ends in the block [(pa, ps)]. *)
Lemma glue_spec m p la' pa ps z ptr n tail :
  seg m p (la' ++ [(pa, ps)]) z -> seg m (Some ptr) ((ptr, n) :: tail) None ->
  NoDup (addrs (la' ++ [(pa, ps)])) -> pa <> ptr -> pa ∉ addrs tail ->
  header m pa = mkFree ps z /\
  seg (<[pa := if pa + ps =? ptr then mkFree (ps + n) (head_addr tail) else mkFree ps (Some ptr)]> m) p
    (la' ++ glue (pa, ps) ((ptr, n) :: tail)) None.
Proof.
  intros Hs Hnew Hnd Hne Hpat. apply seg_app in Hs as (w & Hla' & -> & nx & Hm & Hx). simpl in Hx. subst nx.
  split; [by apply header_Some|].
  assert (pa ∉ addrs la') as Hpal.
  { unfold addrs in *. rewrite fmap_app in Hnd. simpl in Hnd. apply NoDup_app in Hnd as (_ & Hnd & _).
    intros Hin. apply (Hnd _ Hin). left. }
  simpl in Hnew. destruct Hnew as (_ & nx & Hmp & Hnx).
  pose proof (seg_head _ _ _ Hnx) as ->. cbn [glue fst snd].
  destruct (pa + ps =? ptr); apply seg_app; exists (Some pa); (split; [by apply seg_frame|]); simpl;
    (split; [done|]); [exists (head_addr tail)|exists (Some ptr)]; rewrite lookup_insert_eq;
    (split; [done|]).
  - by apply seg_frame.
  - split; [done|]. exists (head_addr tail). rewrite lookup_insert_ne by done.
    split; [done|]. by apply seg_frame.
Qed.

Lemma blocks_before addr sz la lb : blocks_ok lo hi (la ++ lb) ->
  disjoint_from addr sz (la ++ lb) -> SIZEOF_FreeBlock <= sz ->
  Forall (fun b => b.1 <= addr) la -> after addr lb ->
  (forall a s, (a, s) ∈ la -> a + s <= addr) /\ (forall a s, (a, s) ∈ lb -> addr + sz <= a).
Proof.
  unfold SIZEOF_FreeBlock. intros Hok Hd Hsz Hla Hlb. split.
  - intros a s Hin. rewrite Forall_forall in Hla. specialize (Hla _ Hin). simpl in Hla.
    destruct (Hd a s) as [?|?]; [apply elem_of_app; by left|done|lia].
  - intros a s Hin. destruct (blocks_ok_app _ _ _ _ Hok) as (_ & lo' & _ & Hok2 & _).
    destruct (Hd a s) as [Hle|?]; [apply elem_of_app; by right| |done].
    destruct lb as [|[b t] lb]; [by apply not_elem_of_nil in Hin|]. simpl in Hlb, Hok2.
    destruct Hok2 as (_ & Ht & _ & Hok3). unfold SIZEOF_FreeBlock in *.
    apply elem_of_cons in Hin as [[= -> ->]|Hin]; [lia|].
    destruct (blocks_ok_elem _ _ _ _ _ Hok3 Hin) as (? & ? & ?). unfold SIZEOF_FreeBlock in *. lia.
Qed.

Lemma dealloc_refines lay ptr h l : layout_ok lay -> represents h l -> blocks_ok lo hi l ->
  block_in ptr (block_size lay) -> disjoint_from ptr (block_size lay) l ->
  exists h', dealloc_impl ptr lay h = Some h' /\
    represents h' (dealloc_list ptr (block_size lay) l) /\
    allocated h' = allocated h -[64] block_size lay.
Proof.
  intros Hl Hr Hok (Hp & Hsz & Hend) Hd. unfold dealloc_impl.
  set (sz := block_size lay) in *.
  destruct (find_slot_spec ptr (heap_mem h) (fuel_of h) l [] (free_list h) (free_list h) eq_refl Hr)
    as (la & lb & -> & Hla & Hlb & Hfs & Hseg & Hseg2).
  { unfold fuel_of. pose proof (seg_length _ _ _ _ _ _ Hok Hr). lia. }
  change (last_addr []) with (@None Z) in Hfs. cbn [app] in Hfs, Hseg. rewrite Hfs. rewrite dealloc_list_split by done.
  destruct (blocks_before _ _ _ _ Hok Hd Hsz Hla Hlb) as [Hbef Haft].
  destruct (blocks_ok_app _ _ _ _ Hok) as (Hok1 & lo' & _ & Hok2 & _).
  destruct (push_front_shape _ ptr sz lb _ lo' Hseg2 Haft Hok2 Hend)
    as (n & tail & -> & Htail & Hst & Hn1 & Hn2 & Hn).
  destruct (app_disjoint _ _ Hok) as [Hnd Hdis]. unfold SIZEOF_FreeBlock in *.
  rewrite (wrap_small 64 (ptr + sz)) by (unfold in_width; lia).
  assert (NonNull_new ptr = Some ptr) as -> by (unfold NonNull_new; destruct (Z.eqb_spec ptr 0); [lia|done]).
  assert (ptr ∉ addrs la) as Hpa.
  { unfold addrs. rewrite list_elem_of_fmap. intros ([a s] & -> & Hin). simpl in *.
    specialize (Hbef _ _ Hin). destruct (blocks_ok_elem _ _ _ _ _ Hok1 Hin). unfold SIZEOF_FreeBlock in *. lia. }
  assert (ptr ∉ addrs tail) as Hpt.
  { intros Hin%Htail. unfold addrs in Hin. apply list_elem_of_fmap in Hin as ([a s] & -> & Hin).
    specialize (Haft _ _ Hin). simpl in *. lia. }
  rewrite (new_header_exact (heap_mem h) ptr sz lb n (head_addr tail)) by (done || lia).
  set (h1 := write_header ptr _ h).
  assert (seg (heap_mem h1) (free_list h1) la (head_addr lb)) as Hla1 by (by apply seg_frame).
  assert (seg (heap_mem h1) (Some ptr) ((ptr, n) :: tail) None) as Hnew.
  { simpl. split; [done|]. exists (head_addr tail). rewrite lookup_insert_eq. split; [done|].
    by apply seg_frame. }
  assert (header (heap_mem h1) ptr = mkFree n (head_addr tail)) as Hhp
    by (apply header_Some; simpl; by rewrite lookup_insert_eq).
  unfold last_addr. destruct (last la) as [[pa ps]|] eqn:El; cbn [fmap option_fmap option_map fst].
  - apply last_Some in El as [la' ->]. rewrite removelast_last.
    assert (pa ∈ addrs (la' ++ [(pa, ps)])) as Hin
      by (unfold addrs; rewrite fmap_app; apply elem_of_app; right; left).
    destruct (blocks_ok_elem _ _ _ pa ps Hok1) as (Hpa1 & Hpa2 & Hpa3);
      [apply elem_of_app; right; left|]. unfold SIZEOF_FreeBlock in *.
    destruct (glue_spec _ _ la' pa ps _ ptr n tail Hla1 Hnew Hnd) as [-> Hg].
    { intros ->. done. }
    { intros Hx%Htail. exact (Hdis _ Hx Hin). }
    rewrite Hhp. cbn [fb_size fb_next].
    assert (pa + ps <= ptr) by (apply Hbef, elem_of_app; right; left).
    rewrite (wrap_small 64 (pa + ps)), (wrap_small 64 (ps + n)) by (unfold in_width; lia).
    eexists. split; [reflexivity|]. split; [|by destruct (pa + ps =? ptr)].
    unfold represents. destruct (pa + ps =? ptr); exact Hg.
  - apply last_None in El as ->.
    eexists. split; [reflexivity|]. split; [|done]. exact Hnew.
Qed.

(** ** The list operations keep the free list well formed *)

(** The bytes of [l]'s blocks. *)
Definition covered (l : list (Z * Z)) (x : Z) : Prop := exists a s, (a, s) ∈ l /\ a <= x < a + s.

Lemma covered_cons a s l x : covered ((a, s) :: l) x <-> a <= x < a + s \/ covered l x.
Proof.
  unfold covered. split.
  - intros (a' & s' & [[= -> ->]|H]%elem_of_cons & Hx); [by left|right; eauto].
  - intros [H|(a' & s' & H & Hx)]; [exists a, s|exists a', s']; (split; [|done]); [left|by right].
Qed.

Lemma covered_nil x : ~ covered [] x.
Proof. intros (? & ? & ?%not_elem_of_nil & _). done. Qed.

Lemma alloc_list_ok sz k : 0 < k -> SIZEOF_FreeBlock <= sz ->
  forall l b p l', blocks_ok b hi l -> alloc_list sz k l = Some (p, l') ->
  blocks_ok b hi l' /\ (k | p) /\ b <= p /\ p + sz <= hi /\
  (forall x, p <= x < p + sz -> covered l x /\ ~ covered l' x) /\
  (forall x, covered l' x -> covered l x).
Proof.
  unfold SIZEOF_FreeBlock. intros Hk Hsz.
  induction l as [|[a s] l IH]; intros b p l'; simpl; [done|].
  intros (Ha & Hs & He & Hok). unfold SIZEOF_FreeBlock in *.
  destruct (round_up_spec a k Hk) as [Hp Hdiv]. set (q := round_up a k) in *.
  assert (forall x, covered l x -> a + s < x) as Hcov.
  { intros x (a' & s' & Hin & Hx). destruct (blocks_ok_elem _ _ _ _ _ Hok Hin). lia. }
  destruct (Z.leb_spec (q - a + sz) s) as [Hfit|Hno].
  - intros [= <- <-]. destruct (Z.ltb_spec (q - a + sz + 16) s); simpl; unfold SIZEOF_FreeBlock;
      (split; [|split; [done|split; [lia|split; [lia|]]]]).
    + split; [lia|]. split; [lia|]. split; [lia|]. by replace (q + sz + (s - (q - a + sz)) + 1) with (a + s + 1) by lia.
    + split; intros x; rewrite !covered_cons.
      * intros Hx. split; [left; lia|]. intros [?|?%Hcov]; lia.
      * intros [?|?]; [left; lia|by right].
    + eapply blocks_ok_weaken; [|exact Hok]. lia.
    + split; intros x; rewrite !covered_cons; [|by right].
      intros Hx. split; [left; lia|]. intros ?%Hcov. lia.
  - destruct (alloc_list sz k l) as [[p' r']|] eqn:Er; [|done]. intros [= <- <-].
    destruct (IH _ _ _ Hok eq_refl) as (H1 & H2 & H3 & H4 & H5 & H6). simpl. unfold SIZEOF_FreeBlock.
    split; [done|]. split; [done|]. split; [lia|]. split; [lia|]. split; intros x; rewrite !covered_cons.
    + intros Hx. destruct (H5 x Hx). split; [by right|]. intros [?|?]; [lia|done].
    + intros [?|?%H6]; [by left|by right].
Qed.

Lemma push_front_ok b addr sz l : b <= addr -> SIZEOF_FreeBlock <= sz -> addr + sz <= hi ->
  blocks_ok (addr + sz) hi l ->
  blocks_ok b hi (push_front addr sz l) /\
  (forall x, covered (push_front addr sz l) x <-> addr <= x < addr + sz \/ covered l x).
Proof.
  unfold SIZEOF_FreeBlock. intros Hb Hsz He Hok. destruct l as [|[a s] l]; simpl in *; unfold SIZEOF_FreeBlock in *.
  - split; [lia|]. intros x. by rewrite covered_cons.
  - destruct Hok as (Ha & Hs & Hh & Hok). destruct (Z.eqb_spec a (addr + sz)) as [->|Hne].
    + simpl. unfold SIZEOF_FreeBlock. split.
      * replace (addr + (sz + s) + 1) with (addr + sz + s + 1) by lia. repeat split; try lia. done.
      * intros x. rewrite !covered_cons. split; [intros [?|?]; [|by right; right]|
          intros [?|[?|?]]; [left; lia|left; lia|by right]].
        destruct (Z.lt_ge_cases x (addr + sz)); [left; lia|right; left; lia].
    + split; [|intros x; by rewrite !covered_cons]. cbn [blocks_ok]. unfold SIZEOF_FreeBlock. repeat split; try lia. done.
Qed.

Lemma glue_ok b a s l : b <= a -> SIZEOF_FreeBlock <= s -> a + s <= hi -> blocks_ok (a + s) hi l ->
  blocks_ok b hi (glue (a, s) l) /\ (forall x, covered (glue (a, s) l) x <-> a <= x < a + s \/ covered l x).
Proof.
  intros Hb Hs He Hok. assert (glue (a, s) l = push_front a s l) as ->.
  { destruct l as [|[a' s'] l]; [done|]. simpl. by rewrite Z.eqb_sym. }
  by apply push_front_ok.
Qed.

Lemma dealloc_list_ok addr sz : SIZEOF_FreeBlock <= sz -> addr + sz <= hi ->
  forall l b, b <= addr -> blocks_ok b hi l -> disjoint_from addr sz l ->
  blocks_ok b hi (dealloc_list addr sz l) /\
  (forall x, covered (dealloc_list addr sz l) x <-> addr <= x < addr + sz \/ covered l x).
Proof.
  intros Hsz He. induction l as [|[a s] l IH]; intros b Hb Hok Hd.
  - apply (push_front_ok b addr sz []); done.
  - cbn [dealloc_list]. pose proof Hok as Hok'. cbn [blocks_ok] in Hok. destruct Hok as (Ha & Hs & Hh & Hok).
    assert (disjoint_from addr sz l) as Hd' by (intros ? ? Hin; apply Hd; by right).
    unfold SIZEOF_FreeBlock in *. destruct (Hd a s) as [Hle|Hge]; [left| |].
    + destruct (Z.ltb_spec addr a); [lia|].
      assert (forall x, a <= x < a + s \/ addr <= x < addr + sz \/ covered l x <->
                        addr <= x < addr + sz \/ covered ((a, s) :: l) x) as Hperm
        by (intros x; rewrite covered_cons; tauto).
      destruct l as [|[a' s'] l].
      * destruct (push_front_ok (a + s) addr sz []) as [Hp Hc]; [lia|done|done|done|].
        destruct (glue_ok b a s _ Ha Hs Hh Hp) as [Hg Hcg]. split; [done|]. intros x. rewrite Hcg, Hc. apply Hperm.
      * destruct (Z.ltb_spec addr a') as [Hlt|Hlt].
        -- destruct (push_front_ok (a + s) addr sz ((a', s') :: l)) as [Hp Hc]; [lia|done|done| |].
           { cbn [blocks_ok] in *. destruct Hok as (? & ? & ? & ?). unfold SIZEOF_FreeBlock in *.
             destruct (Hd' a' s'); [left|lia|]. repeat split; (lia || done). }
           destruct (glue_ok b a s _ Ha Hs Hh Hp) as [Hg Hcg]. split; [done|]. intros x. rewrite Hcg, Hc. apply Hperm.
        -- destruct (IH (a + s + 1)) as [Hi Hc]; [|done|done|].
           { cbn [blocks_ok] in Hok. lia. }
           split; [split; [lia|]; split; [unfold SIZEOF_FreeBlock; lia|]; split; [lia|done]|].
           intros x. rewrite covered_cons, Hc. apply Hperm.
    + destruct (Z.ltb_spec addr a); [|lia]. apply push_front_ok; [done|unfold SIZEOF_FreeBlock; lia|done|].
      cbn [blocks_ok]. unfold SIZEOF_FreeBlock in *. repeat split; (lia || done).
Qed.

Lemma disjoint_not_covered addr sz l x : disjoint_from addr sz l -> addr <= x < addr + sz -> ~ covered l x.
Proof. intros H Hx (a & s & Hin & Hc). destruct (H a s Hin); lia. Qed.

Lemma covered_disjoint addr sz l : 0 < sz -> blocks_ok lo hi l ->
  (forall x, addr <= x < addr + sz -> ~ covered l x) -> disjoint_from addr sz l.
Proof.
  intros Hsz Hok H a s Hin. destruct (blocks_ok_elem _ _ _ _ _ Hok Hin) as (_ & Hs & _).
  unfold SIZEOF_FreeBlock in Hs.
  destruct (Z.le_gt_cases (a + s) addr); [by left|]. destruct (Z.le_gt_cases (addr + sz) a); [by right|].
  exfalso. apply (H (Z.max addr a)); [lia|]. exists a, s. split; [done|lia].
Qed.

End Refinement.

(** ** Clients of the heap

    The states a program reaches by allocating and by freeing, with the layout
    it allocated it with, a block it still holds. *)

Definition HEAP_END : Z := HEAP_START + KERNEL_HEAP_SIZE.

Inductive client : LinkedListAllocator -> list (Z * Layout) -> Prop :=
| client_init : client (init_free_list new) []
| client_alloc h live lay p h' :
    client h live -> layout_ok lay -> alloc_impl lay h = Some (p, h') -> p <> 0 ->
    client h' ((p, lay) :: live)
| client_alloc_null h live lay h' :
    client h live -> layout_ok lay -> alloc_impl lay h = Some (0, h') -> client h' live
| client_dealloc h l1 p lay l2 h' :
    client h (l1 ++ (p, lay) :: l2) -> dealloc_impl p lay h = Some h' -> client h' (l1 ++ l2).

Definition live_bytes (live : list (Z * Layout)) : Z :=
  foldr (fun b n => block_size b.2 + n) 0 live.

(** Two blocks share no byte. *)
Definition apart (b c : Z * Layout) : Prop :=
  b.1 + block_size b.2 <= c.1 \/ c.1 + block_size c.2 <= b.1.

Definition live_ok (b : Z * Layout) : Prop :=
  layout_ok b.2 /\ (l_align b.2 | b.1) /\ HEAP_START <= b.1 /\ b.1 + block_size b.2 <= HEAP_END.

Fixpoint all_apart (live : list (Z * Layout)) : Prop :=
  match live with
  | [] => True
  | b :: r => Forall (apart b) r /\ all_apart r
  end.

Definition heap_inv (h : LinkedListAllocator) (live : list (Z * Layout)) (l : list (Z * Z)) : Prop :=
  represents h l /\ blocks_ok HEAP_START HEAP_END l /\ Forall live_ok live /\ all_apart live /\
  Forall (fun b => disjoint_from b.1 (block_size b.2) l) live /\
  allocated h = wrap 64 (live_bytes live).

Lemma heap_lo : 0 < HEAP_START.
Proof. reflexivity. Qed.
Lemma heap_hi : HEAP_END + 2 ^ 46 <= 2 ^ 64.
Proof. by vm_compute. Qed.

Lemma apart_sym b c : apart b c -> apart c b.
Proof. unfold apart. tauto. Qed.

Lemma all_apart_remove l1 b l2 : all_apart (l1 ++ b :: l2) ->
  all_apart (l1 ++ l2) /\ Forall (apart b) (l1 ++ l2).
Proof.
  induction l1 as [|c l1 IH]; simpl; [by intros [? ?]|].
  intros [Hc [H1 H2]%IH]. apply Forall_app in Hc as [Hc1 Hc2].
  inversion Hc2; subst. split; [split; [by apply Forall_app|done]|].
  constructor; [by apply apart_sym|done].
Qed.

Lemma live_bytes_remove l1 b l2 :
  live_bytes (l1 ++ b :: l2) = block_size b.2 + live_bytes (l1 ++ l2).
Proof. unfold live_bytes. induction l1 as [|c l1 IH]; simpl; [done|]. rewrite IH. lia. Qed.

Lemma Forall_remove {A} (P : A -> Prop) l1 b l2 :
  Forall P (l1 ++ b :: l2) -> P b /\ Forall P (l1 ++ l2).
Proof. rewrite !Forall_app, Forall_cons. tauto. Qed.

Lemma heap_inv_init : heap_inv (init_free_list new) [] [(HEAP_START, KERNEL_HEAP_SIZE)].
Proof.
  unfold heap_inv, represents. split.
  { split; [done|]. exists None. split; [|done]. simpl. by rewrite lookup_insert_eq. }
  split; [cbn [blocks_ok]; unfold HEAP_END, SIZEOF_FreeBlock, KERNEL_HEAP_SIZE; lia|].
  split; [constructor|]. split; [exact I|]. split; [constructor|reflexivity].
Qed.

Lemma heap_inv_alloc h live l lay p h' : heap_inv h live l -> layout_ok lay ->
  alloc_impl lay h = Some (p, h') ->
  (p = 0 /\ h' = h) \/ (p <> 0 /\ exists l', heap_inv h' ((p, lay) :: live) l').
Proof.
  intros (Hr & Hok & Hlive & Hap & Hd & Hal) Hlay Ha.
  pose proof (alloc_refines _ _ heap_lo heap_hi lay h l Hlay Hr Hok) as Href.
  destruct (alloc_list (block_size lay) (l_align lay) l) as [[q l']|] eqn:El;
    [|left; rewrite Href in Ha; by simplify_eq].
  destruct Href as (h2 & Ha' & Hr' & Hal'). rewrite Ha' in Ha. injection Ha as <- <-.
  destruct (block_size_spec lay Hlay) as (Hsz & _ & _). unfold SIZEOF_FreeBlock in Hsz.
  assert (0 < l_align lay) as Hpos.
  { destruct Hlay as (k & Hk & -> & _). apply Z.pow_pos_nonneg; lia. }
  destruct (alloc_list_ok _ _ _ Hpos (proj1 Hsz) _ _ _ _ Hok El) as (Hok' & Hdiv & Hb & He & Hfree & Hsub).
  right. split; [pose proof heap_lo; lia|]. exists l'.
  split; [done|]. split; [done|]. split; [by constructor|]. split; [|split].
  - split; [|done]. rewrite Forall_forall in Hd |- *. intros [c lc] Hin. unfold apart. simpl.
    specialize (Hd _ Hin). simpl in Hd. rewrite Forall_forall in Hlive.
    destruct (Hlive _ Hin) as (Hlc & _). destruct (block_size_spec lc Hlc) as ([Hslc _] & _).
    unfold SIZEOF_FreeBlock in Hslc. simpl in *.
    destruct (Z.le_gt_cases (q + block_size lay) c); [by left|].
    destruct (Z.le_gt_cases (c + block_size lc) q); [by right|]. exfalso.
    destruct (Hfree (Z.max q c)) as [Hcov _]; [lia|].
    eapply disjoint_not_covered; [exact Hd| |exact Hcov]. lia.
  - constructor.
    + eapply covered_disjoint; [|exact Hok'|]; [simpl; lia|]. intros x Hx. apply Hfree. exact Hx.
    + rewrite Forall_forall in Hd, Hlive |- *. intros c Hin. destruct (Hlive _ Hin) as (Hlc & _).
      destruct (block_size_spec _ Hlc) as ([Hslc _] & _). unfold SIZEOF_FreeBlock in Hslc.
      eapply covered_disjoint; [|exact Hok'|]; [lia|]. intros x Hx Hc%Hsub.
      exact (disjoint_not_covered _ _ _ _ (Hd _ Hin) Hx Hc).
  - rewrite Hal', Hal. unfold wrap. rewrite Zplus_mod_idemp_l. f_equal. unfold live_bytes. cbn [foldr snd]. lia.
Qed.

Lemma heap_inv_dealloc h l1 p lay l2 l : heap_inv h (l1 ++ (p, lay) :: l2) l ->
  exists h' l', dealloc_impl p lay h = Some h' /\ heap_inv h' (l1 ++ l2) l'.
Proof.
  intros (Hr & Hok & Hlive & Hap & Hd & Hal).
  apply Forall_remove in Hlive as [(Hlay & Hdiv & Hb & He) Hlive].
  apply Forall_remove in Hd as [Hdp Hd]. apply all_apart_remove in Hap as [Hap Hpap].
  cbn [fst snd] in *. destruct (block_size_spec lay Hlay) as ([Hsz _] & _).
  destruct (dealloc_refines _ _ heap_lo heap_hi lay p h l Hlay Hr Hok) as (h' & Hde & Hr' & Hal'); [done..|].
  destruct (dealloc_list_ok _ _ _ Hsz He l _ Hb Hok Hdp) as [Hok' Hcov]. unfold SIZEOF_FreeBlock in Hsz.
  exists h', (dealloc_list p (block_size lay) l). split; [done|].
  split; [done|]. split; [done|]. split; [done|]. split; [done|]. split.
  - rewrite Forall_forall in Hd, Hlive, Hpap |- *. intros c Hin. destruct (Hlive _ Hin) as (Hlc & _).
    destruct (block_size_spec _ Hlc) as ([Hslc _] & _). unfold SIZEOF_FreeBlock in Hslc.
    eapply covered_disjoint; [|exact Hok'|]; [lia|]. intros x Hx [Hx'|Hc]%Hcov.
    + destruct (Hpap _ Hin); simpl in *; lia.
    + exact (disjoint_not_covered _ _ _ _ (Hd _ Hin) Hx Hc).
  - rewrite Hal', Hal, live_bytes_remove. unfold wrap. rewrite Zminus_mod_idemp_l. f_equal. cbn [snd]. lia.
Qed.

Lemma client_inv h live : client h live -> exists l, heap_inv h live l.
Proof.
  induction 1 as [|h live lay p h' _ [l IH] Hl Ha Hp|h live lay h' _ [l IH] Hl Ha|h l1 p lay l2 h' _ [l IH] Hd].
  - exists [(HEAP_START, KERNEL_HEAP_SIZE)]. apply heap_inv_init.
  - destruct (heap_inv_alloc _ _ _ _ _ _ IH Hl Ha) as [[? _]|[_ ?]]; done.
  - destruct (heap_inv_alloc _ _ _ _ _ _ IH Hl Ha) as [[_ ->]|[? _]]; [by exists l|done].
  - destruct (heap_inv_dealloc _ _ _ _ _ _ IH) as (h2 & l' & Hd' & Hi). exists l'. congruence.
Qed.

(** C2: The pointer code implements the list specification.  On a well-formed
    free list, [alloc_impl] terminates and returns the first fitting block of
    [alloc_list] (or null and no change when there is none), and [dealloc_impl]
    of a block that is not free terminates and leaves the coalesced list of
    [dealloc_list]; both keep the list well formed and count the bytes. *)
Theorem heap_refines_list lay ptr h l :
  layout_ok lay -> represents h l -> blocks_ok HEAP_START HEAP_END l ->
  match alloc_list (block_size lay) (l_align lay) l with
  | None => alloc_impl lay h = Some (0, h)
  | Some (p, l') => exists h', alloc_impl lay h = Some (p, h') /\ represents h' l' /\
      blocks_ok HEAP_START HEAP_END l' /\ allocated h' = allocated h +[64] block_size lay
  end /\
  (block_in HEAP_START HEAP_END ptr (block_size lay) -> disjoint_from ptr (block_size lay) l ->
   exists h', dealloc_impl ptr lay h = Some h' /\
     represents h' (dealloc_list ptr (block_size lay) l) /\
     blocks_ok HEAP_START HEAP_END (dealloc_list ptr (block_size lay) l) /\
     (forall x, covered (dealloc_list ptr (block_size lay) l) x <->
        ptr <= x < ptr + block_size lay \/ covered l x) /\
     allocated h' = allocated h -[64] block_size lay).
Proof.
  intros Hlay Hr Hok. destruct (block_size_spec lay Hlay) as ([Hsz _] & _). split.
  - pose proof (alloc_refines _ _ heap_lo heap_hi lay h l Hlay Hr Hok) as Href.
    destruct (alloc_list _ _ l) as [[p l']|] eqn:El; [|done].
    destruct Href as (h' & Ha & Hr' & Hal). exists h'. split; [done|]. split; [done|]. split; [|done].
    assert (0 < l_align lay) as Hpos.
    { destruct Hlay as (k & Hk & -> & _). apply Z.pow_pos_nonneg; lia. }
    by destruct (alloc_list_ok _ _ _ Hpos Hsz _ _ _ _ Hok El).
  - intros Hin Hd.
    destruct (dealloc_refines _ _ heap_lo heap_hi lay ptr h l Hlay Hr Hok Hin Hd) as (h' & Hde & Hr' & Hal).
    destruct Hin as (Hb & _ & He). destruct (dealloc_list_ok _ _ _ Hsz He l _ Hb Hok Hd) as [Hok' Hcov].
    exists h'. split; [done|]. split; [done|]. split; [done|]. by split.
Qed.

(** In every state a client reaches, the blocks it holds are aligned as
    asked, inside the heap and pairwise disjoint, the counter of allocated bytes
    is their total, a further allocation always terminates, and every held block
    can be freed. *)
Theorem heap_client_safe h live : client h live ->
  Forall live_ok live /\ all_apart live /\ allocated h = wrap 64 (live_bytes live) /\
  (forall lay, layout_ok lay -> exists p h', alloc_impl lay h = Some (p, h')) /\
  (forall p lay, (p, lay) ∈ live -> exists h', dealloc_impl p lay h = Some h').
Proof.
  intros [l Hi]%client_inv. pose proof Hi as (Hr & Hok & Hlive & Hap & _ & Hal).
  split; [done|]. split; [done|]. split; [done|]. split.
  - intros lay Hlay. pose proof (alloc_refines _ _ heap_lo heap_hi lay h l Hlay Hr Hok) as Href.
    destruct (alloc_list _ _ l) as [[p l']|]; [|eauto]. destruct Href as (h' & Ha & _). eauto.
  - intros p lay Hin. apply list_elem_of_split in Hin as (l1 & l2 & ->).
    destruct (heap_inv_dealloc _ _ _ _ _ _ Hi) as (h' & _ & ? & _). eauto.
Qed.

(** ** What the kernel's buffers ask of the heap

    A vector of [n] bytes has room if [alloc_impl] does not answer null. *)
Definition heap_answer (h : LinkedListAllocator) : KernelHeap := fun n =>
  match alloc_impl (mkLayout n 1) h with Some (p, _) => negb (p =? 0) | None => false end.

(** However the heap was used before, no buffer is larger than the heap. *)
Lemma heap_too_small h live n : client h live -> KERNEL_HEAP_SIZE < n <= 2 ^ 40 -> heap_answer h n = false.
Proof.
  intros [l Hi]%client_inv [Hn Hn2]. unfold heap_answer. destruct (alloc_impl (mkLayout n 1) h) as [[p h']|] eqn:E; [|done].
  assert (layout_ok (mkLayout n 1)) as Hlay by (exists 0; cbn; unfold KERNEL_HEAP_SIZE in Hn; split; [lia|split; [done|lia]]).
  destruct (heap_inv_alloc h live l (mkLayout n 1) p h' Hi Hlay E) as [[-> _]|(_ & l' & _ & _ & Hlive & _)]; [done|]. exfalso.
  apply Forall_cons in Hlive as [(_ & _ & Hlo & Hhi) _]. cbn [fst snd] in *. destruct (block_size_spec _ Hlay) as (_ & Hs & _). cbn in Hs. unfold HEAP_END in Hhi. lia.
Qed.

(** ** Examples *)

Definition lay16 : Layout := mkLayout 16 16.
Definition lay64 : Layout := mkLayout 64 64.

Lemma lay16_ok : layout_ok lay16.
Proof. exists 4. split; [lia|]. split; [done|simpl; lia]. Qed.
Lemma lay64_ok : layout_ok lay64.
Proof. exists 6. split; [lia|]. split; [done|simpl; lia]. Qed.

(** The heap after [alloc(16, 16)] and then [alloc(64, 64)], and after freeing both again. *)
Definition two_blocks : option (Z * Z * LinkedListAllocator) :=
  match alloc_impl lay16 (init_free_list new) with
  | Some (p, h) =>
      match alloc_impl lay64 h with Some (q, h') => Some (p, q, h') | None => None end
  | None => None
  end.

Definition freed_again : option LinkedListAllocator :=
  match two_blocks with
  | Some (p, q, h) =>
      match dealloc_impl q lay64 h with Some h' => dealloc_impl p lay16 h' | None => None end
  | None => None
  end.

(** The free blocks by following the links, as a list. *)
Fixpoint walk (fuel : nat) (m : gmap Z FreeBlock) (p : option Z) : list (Z * Z) :=
  match fuel, p with
  | S f, Some a => (a, fb_size (header m a)) :: walk f m (fb_next (header m a))
  | _, _ => []
  end.

(** Padding in front of an aligned block is never given back.  After a
    16-byte and a 64-byte-aligned allocation are both freed nothing is allocated,
    yet the free list covers 48 bytes less than the heap and is no longer one
    block. *)
Theorem padding_is_lost :
  match freed_again with
  | Some h => allocated h = 0 /\
      walk (fuel_of h) (heap_mem h) (free_list h) =
        [(HEAP_START, 16); (HEAP_START + 64, KERNEL_HEAP_SIZE - 64)]
  | None => False
  end.
Proof. vm_compute. by split. Qed.

Lemma heap_refines_list_witness :
  match alloc_list (block_size lay16) (l_align lay16) [(HEAP_START, KERNEL_HEAP_SIZE)] with
  | None => alloc_impl lay16 (init_free_list new) = Some (0, init_free_list new)
  | Some (p, l') => exists h', alloc_impl lay16 (init_free_list new) = Some (p, h') /\ represents h' l' /\
      blocks_ok HEAP_START HEAP_END l' /\ allocated h' = allocated (init_free_list new) +[64] block_size lay16
  end.
Proof.
  destruct heap_inv_init as (Hr & Hok & _).
  apply (heap_refines_list lay16 HEAP_START (init_free_list new) [(HEAP_START, KERNEL_HEAP_SIZE)] lay16_ok Hr Hok).
Defined.

Lemma client_two : exists h, client h [(HEAP_START + 64, lay64); (HEAP_START, lay16)].
Proof.
  assert (exists h1, alloc_impl lay16 (init_free_list new) = Some (HEAP_START, h1) /\
    exists h2, alloc_impl lay64 h1 = Some (HEAP_START + 64, h2)) as (h1 & H1 & h2 & H2).
  { eexists. split; [vm_compute; reflexivity|]. eexists. vm_compute. reflexivity. }
  exists h2. eapply client_alloc; [|exact lay64_ok|exact H2|by vm_compute].
  eapply client_alloc; [constructor|exact lay16_ok|exact H1|by vm_compute].
Qed.

Lemma heap_client_safe_witness :
  Forall live_ok [(HEAP_START + 64, lay64); (HEAP_START, lay16)] /\
  all_apart [(HEAP_START + 64, lay64); (HEAP_START, lay16)].
Proof.
  destruct client_two as [h Hc]. destruct (heap_client_safe _ _ Hc) as (H1 & H2 & _). exact (conj H1 H2).
Defined.
