(* ===== verification/Slab.v ===== *)
(** * Slab allocator ([kernel/src/memory/slab.rs])

    Caches of fixed-size objects.  A slab is one page: its header at the start,
    then its objects, the free ones linked through their first word.  Slabs hang
    on two lists through the [next] field of their headers.  Frames come from any
    [FramePool].  The operations of a cache take no lock, so besides the
    sequential functions the lock-free loops of [Slab::alloc] and [Slab::free]
    are also given as the atomic steps of a transition system.  List traversals
    run on fuel, one more than the number of slabs. *)

From Stdlib Require Import ZArith Lia Bool.
From stdpp Require Import base numbers option list gmap sets.
From S2P Require Import Prelude.
From S2P Require Import Frame.

(** ** Data *)

Definition SLAB_SIZES : list Z := [32; 64; 128; 256; 512; 1024; 2048; 4096].

Definition objects_per_slab (size : Z) : Z := PAGE_SIZE / size.

(** Pointers are addresses, null is 0. *)
Record Slab : Type := mkSlab {
  phys_addr : Z; virt_addr : Z; object_size : Z; s_allocated : Z; total_objects : Z; s_free_list : Z; s_next : Z }.

(** [core::mem::size_of::<Slab>()]: seven words. *)
Definition SIZEOF_Slab : Z := 56.

Record SizeClassCache : Type := mkCache {
  c_size : Z; partial_slabs : Z; full_slabs : Z; total_allocs : Z; total_frees : Z }.

Definition SizeClassCache_new (size : Z) : SizeClassCache := mkCache size 0 0 0 0.

(** The memory slabs live in: their headers, the first words of free objects,
    and where frames come from. *)
Record Slabs (S : Type) : Type := mkSlabs { headers : gmap Z Slab; links : gmap Z Z; pool : S }.
Arguments mkSlabs {S} _ _ _.
Arguments headers {S} _.
Arguments links {S} _.
Arguments pool {S} _.

Definition null_slab : Slab := mkSlab 0 0 0 0 0 0 0.
Definition header_at (hs : gmap Z Slab) (p : Z) : Slab := default null_slab (hs !! p).
Definition link_at (ls : gmap Z Z) (o : Z) : Z := default 0 (ls !! o).

Definition with_free_list (n p : Z) (s : Slab) : Slab :=
  mkSlab (phys_addr s) (virt_addr s) (object_size s) n (total_objects s) p (s_next s).
Definition with_next (p : Z) (s : Slab) : Slab :=
  mkSlab (phys_addr s) (virt_addr s) (object_size s) (s_allocated s) (total_objects s) (s_free_list s) p.

(** The header's size rounded up to a multiple of the object size. *)
Definition aligned_header (size : Z) : Z := (SIZEOF_Slab + size - 1) / size * size.
Definition usable_objects (size : Z) : Z := (PAGE_SIZE - aligned_header size) / size.

Definition is_full (s : Slab) : bool := total_objects s <=? s_allocated s.
Definition slab_is_empty (s : Slab) : bool := s_allocated s =? 0.
Definition slab_contains (s : Slab) (ptr : Z) : bool := (virt_addr s <=? ptr) && (ptr <? virt_addr s +[64] PAGE_SIZE).

(** The loop of [Slab::new] that links object [i] in front of the list. *)
Fixpoint link_objects (objects_start size : Z) (is_ : list Z) (head : Z) (ls : gmap Z Z) : Z * gmap Z Z :=
  match is_ with
  | [] => (head, ls)
  | i :: r =>
      let obj := objects_start +[64] i *[64] size in
      link_objects objects_start size r obj (<[obj := head]> ls)
  end.

Section Operations.
Context {S : Type} `{FP : FramePool S}.

(** The offset of the direct map. *)
Context (hhdm : Z).

Definition to_virt (p : Z) : Z := p +[64] hhdm.

Definition Slab_new (size : Z) (m : Slabs S) : option Z * Slabs S :=
  match fs_alloc (pool m) with
  | (None, f) => (None, mkSlabs (headers m) (links m) f)
  | (Some frame, f) =>
      let virt := to_virt frame in
      let usable := usable_objects size in
      if usable =? 0 then (None, mkSlabs (headers m) (links m) (fs_dealloc frame f))
      else
        let (head, ls) := link_objects (virt +[64] aligned_header size) size (seqZ 0 usable) 0 (links m) in
        (Some virt, mkSlabs (<[virt := mkSlab frame virt size 0 usable head 0]> (headers m)) ls f)
  end.

(** [Slab::alloc] and [Slab::free] when nothing interferes. *)
Definition Slab_alloc (p : Z) (m : Slabs S) : option Z * Slabs S :=
  let s := header_at (headers m) p in
  let head := s_free_list s in
  if head =? 0 then (None, m)
  else (Some head, mkSlabs (<[p := with_free_list (s_allocated s +[64] 1) (link_at (links m) head) s]> (headers m))
                     (links m) (pool m)).

Definition Slab_free (p obj : Z) (m : Slabs S) : Slabs S :=
  let s := header_at (headers m) p in
  mkSlabs (<[p := with_free_list (s_allocated s -[64] 1) obj s]> (headers m))
    (<[obj := s_free_list s]> (links m)) (pool m).

Definition set_slab_next (p q : Z) (m : Slabs S) : Slabs S :=
  mkSlabs (<[p := with_next q (header_at (headers m) p)]> (headers m)) (links m) (pool m).

Definition next_of (m : Slabs S) (p : Z) : Z := s_next (header_at (headers m) p).

(** Unlinking [slab] from the list that starts at [list]: the new head and the
    memory, or [None] when it is not on it.  Both moves search this way. *)
Fixpoint unlink (fuel : nat) (slab list prev current : Z) (m : Slabs S) : option (Z * Slabs S) :=
  match fuel with
  | O => None
  | Datatypes.S fuel =>
      if current =? 0 then None
      else if current =? slab then
        let next := next_of m slab in
        if prev =? 0 then Some (next, m) else Some (list, set_slab_next prev next m)
      else unlink fuel slab list current (next_of m current) m
  end.

Definition fuel_of (m : Slabs S) : nat := Datatypes.S (size (headers m)).

Definition move_to_full (slab : Z) (c : SizeClassCache) (m : Slabs S) : SizeClassCache * Slabs S :=
  match unlink (fuel_of m) slab (partial_slabs c) 0 (partial_slabs c) m with
  | None => (c, m)
  | Some (head, m1) =>
      (mkCache (c_size c) head slab (total_allocs c) (total_frees c), set_slab_next slab (full_slabs c) m1)
  end.

Definition move_to_partial (slab : Z) (c : SizeClassCache) (m : Slabs S) : SizeClassCache * Slabs S :=
  match unlink (fuel_of m) slab (full_slabs c) 0 (full_slabs c) m with
  | None => (c, m)
  | Some (head, m1) =>
      (mkCache (c_size c) slab head (total_allocs c) (total_frees c), set_slab_next slab (partial_slabs c) m1)
  end.

Definition count_alloc (c : SizeClassCache) : SizeClassCache :=
  mkCache (c_size c) (partial_slabs c) (full_slabs c) (total_allocs c +[64] 1) (total_frees c).
Definition count_free (c : SizeClassCache) : SizeClassCache :=
  mkCache (c_size c) (partial_slabs c) (full_slabs c) (total_allocs c) (total_frees c +[64] 1).

(** [SizeClassCache::alloc]: the search of the partial slabs. *)
Fixpoint alloc_from (fuel : nat) (current : Z) (c : SizeClassCache) (m : Slabs S) : option (Z * SizeClassCache * Slabs S) :=
  match fuel with
  | O => None
  | Datatypes.S fuel =>
      if current =? 0 then None
      else match Slab_alloc current m with
           | (Some ptr, m1) =>
               let c1 := count_alloc c in
               let (c2, m2) := if is_full (header_at (headers m1) current) then move_to_full current c1 m1 else (c1, m1) in
               Some (ptr, c2, m2)
           | (None, m1) => alloc_from fuel (next_of m1 current) c m1
           end
  end.

Definition cache_alloc (c : SizeClassCache) (m : Slabs S) : option Z * SizeClassCache * Slabs S :=
  match alloc_from (fuel_of m) (partial_slabs c) c m with
  | Some (ptr, c', m') => (Some ptr, c', m')
  | None =>
      match Slab_new (c_size c) m with
      | (None, m1) => (None, c, m1)
      | (Some new_slab, m1) =>
          let m2 := set_slab_next new_slab (partial_slabs c) m1 in
          let c1 := mkCache (c_size c) new_slab (full_slabs c) (total_allocs c) (total_frees c) in
          let (ptr, m3) := Slab_alloc new_slab m2 in
          (ptr, count_alloc c1, m3)
      end
  end.

(** The slab of the list that contains the pointer. *)
Fixpoint find_slab (fuel : nat) (ptr current : Z) (m : Slabs S) : option Z :=
  match fuel with
  | O => None
  | Datatypes.S fuel =>
      if current =? 0 then None
      else if slab_contains (header_at (headers m) current) ptr then Some current
      else find_slab fuel ptr (next_of m current) m
  end.

Definition cache_free (ptr : Z) (c : SizeClassCache) (m : Slabs S) : SizeClassCache * Slabs S :=
  match find_slab (fuel_of m) ptr (partial_slabs c) m with
  | Some s => (count_free c, Slab_free s ptr m)
  | None =>
      match find_slab (fuel_of m) ptr (full_slabs c) m with
      | Some s => move_to_partial s (count_free c) (Slab_free s ptr m)
      | None => (c, m)
      end
  end.

(** *** The global allocator *)

Record SlabAllocator : Type := mkAllocator { caches : list SizeClassCache; initialized : bool }.

Definition SlabAllocator_new : SlabAllocator := mkAllocator (SizeClassCache_new <$> SLAB_SIZES) false.
Definition slab_init (a : SlabAllocator) : SlabAllocator := mkAllocator (caches a) true.

Definition find_size_class (size : Z) : option nat := fst <$> list_find (fun class => size <= class) SLAB_SIZES.

Definition slab_alloc (size : Z) (a : SlabAllocator) (m : Slabs S) : option Z * SlabAllocator * Slabs S :=
  if negb (initialized a) then (None, a, m) else
  match find_size_class size with
  | None => (None, a, m)
  | Some k =>
      match caches a !! k with
      | None => (None, a, m)
      | Some c => let '(r, c', m') := cache_alloc c m in (r, mkAllocator (<[k := c']> (caches a)) true, m')
      end
  end.

Definition slab_alloc_layout (size align : Z) : SlabAllocator -> Slabs S -> option Z * SlabAllocator * Slabs S :=
  slab_alloc (Z.max size align).

Definition slab_free (ptr size : Z) (a : SlabAllocator) (m : Slabs S) : SlabAllocator * Slabs S :=
  match find_size_class size with
  | None => (a, m)
  | Some k =>
      match caches a !! k with
      | None => (a, m)
      | Some c => let (c', m') := cache_free ptr c m in (mkAllocator (<[k := c']> (caches a)) (initialized a), m')
      end
  end.

Definition slab_free_layout (ptr size align : Z) : SlabAllocator -> Slabs S -> SlabAllocator * Slabs S :=
  slab_free ptr (Z.max size align).

Record SlabStats : Type := mkStats { st_allocs : Z; st_frees : Z; active_objects : Z }.
Definition slab_stats (a : SlabAllocator) : SlabStats :=
  let sum f := foldl (fun acc c => acc +[64] f c) 0 (caches a) in
  mkStats (sum total_allocs) (sum total_frees) (sat_sub (sum total_allocs) (sum total_frees)).

Definition can_handle (size : Z) : bool := size <=? 4096.

End Operations.

(** ** The lock-free steps

    A slab shared by threads: one free-list word, the links in the objects, and a
    counter.  A thread runs [alloc] (reading the head, reading its link, then the
    compare-exchange) or [free] of an object it holds (reading the head, writing
    the link, then the compare-exchange). *)

Inductive slab_pc : Type :=
| Idle
| AllocHead                       (* about to load the head *)
| AllocNext (head : Z)            (* about to load the head's link *)
| AllocCas (head next : Z)
| AllocCount (head : Z)           (* about to add to the counter *)
| FreeHead (obj : Z)
| FreeLink (obj head : Z)         (* about to store the link *)
| FreeCas (obj head : Z)
| FreeCount.

Record Shared : Type := mkShared {
  head : Z; link : gmap Z Z; count : Z;
  pcs : list slab_pc;
  held : list (nat * Z)           (* the objects each thread was given and has not begun to free *)
}.

Inductive slab_call : Type := CallAlloc | CallFree (obj : Z) | Continue (spurious : bool).

Definition goto (t : nat) (p : slab_pc) (s : Shared) : Shared := mkShared (head s) (link s) (count s) (<[t := p]> (pcs s)) (held s).

Definition drop_held (t : nat) (o : Z) (l : list (nat * Z)) : list (nat * Z) :=
  filter (fun x => ~ (x = (t, o))) l.

(** One step of thread [t]; [None] when it cannot take it. *)
Definition slab_step (t : nat) (c : slab_call) (s : Shared) : option Shared :=
  match pcs s !! t, c with
  | Some Idle, CallAlloc => Some (goto t AllocHead s)
  | Some Idle, CallFree o =>
      if bool_decide ((t, o) ∈ held s)
      then Some (mkShared (head s) (link s) (count s) (<[t := FreeHead o]> (pcs s)) (drop_held t o (held s)))
      else None
  | Some AllocHead, Continue _ => Some (goto t (if head s =? 0 then Idle else AllocNext (head s)) s)
  | Some (AllocNext h), Continue _ => Some (goto t (AllocCas h (link_at (link s) h)) s)
  | Some (AllocCas h n), Continue spurious =>
      if (head s =? h) && negb spurious
      then Some (mkShared n (link s) (count s) (<[t := AllocCount h]> (pcs s)) ((t, h) :: held s))
      else Some (goto t AllocHead s)
  | Some (AllocCount h), Continue _ =>
      Some (mkShared (head s) (link s) (count s +[64] 1) (<[t := Idle]> (pcs s)) (held s))
  | Some (FreeHead o), Continue _ => Some (goto t (FreeLink o (head s)) s)
  | Some (FreeLink o h), Continue _ =>
      Some (mkShared (head s) (<[o := h]> (link s)) (count s) (<[t := FreeCas o h]> (pcs s)) (held s))
  | Some (FreeCas o h), Continue spurious =>
      if (head s =? h) && negb spurious
      then Some (mkShared o (link s) (count s) (<[t := FreeCount]> (pcs s)) (held s))
      else Some (goto t (FreeHead o) s)
  | Some FreeCount, Continue _ =>
      Some (mkShared (head s) (link s) (count s -[64] 1) (<[t := Idle]> (pcs s)) (held s))
  | _, _ => None
  end.

Fixpoint slab_run (sched : list (nat * slab_call)) (s : Shared) : option Shared :=
  match sched with
  | [] => Some s
  | (t, c) :: r => match slab_step t c s with Some s' => slab_run r s' | None => None end
  end.

(** ** Chains of pointers *)

(** Following [nx] from [p] visits [l] and ends in null. *)
Fixpoint chain (nx : Z -> Z) (p : Z) (l : list Z) : Prop :=
  match l with [] => p = 0 | a :: r => p = a /\ a <> 0 /\ chain nx (nx a) r end.

Lemma chain_ext nx nx' l : forall p, (forall a, a ∈ l -> nx a = nx' a) -> chain nx p l -> chain nx' p l.
Proof.
  induction l as [|a l IH]; intros p E C; [done|]. destruct C as (-> & Ha & C). split; [done|]. split; [done|].
  rewrite <- E by left. apply IH; [|done]. intros b Hb. apply E. by right.
Qed.

Lemma chain_app nx l1 l2 : forall p, chain nx p (l1 ++ l2) -> exists q, chain nx q l2.
Proof. induction l1 as [|a l1 IH]; intros p C; [by exists p|]. destruct C as (_ & _ & C). by apply (IH (nx a)). Qed.

Lemma chain_head nx p a l : chain nx p (a :: l) -> p = a /\ a <> 0 /\ chain nx (nx a) l.
Proof. done. Qed.

(** Redirecting the last element of a prefix. *)
Lemma chain_redirect nx nx' b q l1 l2 l3 : forall p, chain nx p (l1 ++ b :: l2) -> chain nx q l3 -> nx' b = q ->
  (forall a, a <> b -> nx' a = nx a) -> b ∉ l1 -> b ∉ l3 -> chain nx' p (l1 ++ b :: l3).
Proof.
  induction l1 as [|a l1 IH]; intros p C C3 Eb E N1 N3.
  - destruct C as (-> & Hb & _). split; [done|]. split; [done|]. rewrite Eb. apply (chain_ext nx); [|done].
    intros a Ha. symmetry. apply E. by intros ->.
  - destruct C as (-> & Ha & C). apply not_elem_of_cons in N1 as [Hab N1]. split; [done|]. split; [done|].
    rewrite E by done. by apply IH.
Qed.

Lemma nodup_length_size {A} (m : gmap Z A) (l : list Z) :
  NoDup l -> (forall a, a ∈ l -> is_Some (m !! a)) -> (length l <= size m)%nat.
Proof.
  intros N Hl. rewrite <- size_dom. rewrite <- (size_list_to_set (C := gset Z)) by done.
  apply subseteq_size. intros a Ha. apply elem_of_list_to_set in Ha. apply elem_of_dom. by apply Hl.
Qed.

(** ** Size classes *)

Definition class (size : Z) : Prop := size ∈ SLAB_SIZES.

Lemma class_facts size : class size ->
  32 <= size /\ (size | 4096) /\ (size | aligned_header size) /\ SIZEOF_Slab <= aligned_header size /\
  0 <= usable_objects size /\ aligned_header size + usable_objects size * size <= PAGE_SIZE /\
  (usable_objects size = 0 <-> size = 4096).
Proof.
  unfold class, SLAB_SIZES. rewrite !elem_of_cons, elem_of_nil. intros [->|[->|[->|[->|[->|[->|[->|[->|[]]]]]]]]];
    (split; [lia|]; split; [by apply Z.mod_divide|]; split; [by apply Z.mod_divide|]; split; [by vm_compute|];
     split; [by vm_compute|]; split; [by vm_compute|]; split; [by vm_compute|done]).
Qed.

(** The addresses of a slab's objects. *)
Definition grid (size s : Z) : list Z :=
  (fun i => s + aligned_header size + i * size) <$> seqZ 0 (usable_objects size).

Lemma elem_of_grid size s o : class size -> o ∈ grid size s ->
  s + SIZEOF_Slab <= o /\ o + size <= s + PAGE_SIZE /\ ((4096 | s) -> (size | o)).
Proof.
  intros Hc Ho. destruct (class_facts size Hc) as (F1 & F2 & F3 & F4 & F5 & F6 & _).
  apply list_elem_of_fmap in Ho as (i & -> & Hi). apply elem_of_seqZ in Hi. split; [nia|]. split; [nia|].
  intros Hs. apply Z.divide_add_r; [apply Z.divide_add_r; [by transitivity 4096|done]|]. by apply Z.divide_factor_r.
Qed.

Lemma grid_spread size s o o' : class size -> o ∈ grid size s -> o' ∈ grid size s -> o <> o' -> o + size <= o' \/ o' + size <= o.
Proof.
  intros Hc Ho Ho' Hne. destruct (class_facts size Hc) as (F1 & _).
  apply list_elem_of_fmap in Ho as (i & -> & _). apply list_elem_of_fmap in Ho' as (j & -> & _).
  assert (i <> j) by congruence. destruct (Z.lt_ge_cases i j); [left|right]; nia.
Qed.

Lemma grid_nodup size s : class size -> NoDup (grid size s).
Proof.
  intros Hc. destruct (class_facts size Hc) as (F1 & _). apply NoDup_fmap_2_strong; [|apply NoDup_seqZ].
  intros i j _ _ E. nia.
Qed.

Lemma length_grid size s : class size -> Z.of_nat (length (grid size s)) = usable_objects size.
Proof.
  intros Hc. destruct (class_facts size Hc) as (_ & _ & _ & _ & F5 & _). unfold grid. rewrite length_fmap, length_seqZ. lia.
Qed.

Lemma link_objects_spec start size addr is_ : forall hd ls l0,
  (forall i, i ∈ is_ -> start +[64] i *[64] size = addr i /\ addr i <> 0) -> NoDup (addr <$> is_) ->
  (forall i, i ∈ is_ -> addr i ∉ l0) -> chain (link_at ls) hd l0 ->
  exists hd' ls', link_objects start size is_ hd ls = (hd', ls') /\
    chain (link_at ls') hd' (reverse (addr <$> is_) ++ l0) /\
    forall o, o ∉ addr <$> is_ -> link_at ls' o = link_at ls o.
Proof.
  induction is_ as [|i is_ IH]; intros hd ls l0 Ha Hn H0 C; [by exists hd, ls|].
  cbn [link_objects]. destruct (Ha i) as [E Hnz]; [by left|]. rewrite E. rewrite fmap_cons in Hn. apply NoDup_cons in Hn as [Hi Hn].
  assert (chain (link_at (<[addr i := hd]> ls)) (addr i) (addr i :: l0)) as C'.
  { split; [done|]. split; [done|]. assert (link_at (<[addr i := hd]> ls) (addr i) = hd) as -> by
      (unfold link_at; by rewrite lookup_insert_eq).
    apply (chain_ext (link_at ls)); [|done]. intros a Hal. unfold link_at. rewrite lookup_insert_ne; [done|].
    intros <-. by apply (H0 i); [left|]. }
  destruct (IH (addr i) (<[addr i := hd]> ls) (addr i :: l0)) as (hd' & ls' & E' & C2 & K); [|done| |done|].
  - intros j Hj. apply Ha. by right.
  - intros j Hj. apply not_elem_of_cons. split; [|by apply H0; right]. intros Eq. apply Hi. rewrite <- Eq. apply list_elem_of_fmap. eauto.
  - exists hd', ls'. split; [done|]. split.
    + rewrite fmap_cons, reverse_cons, <- app_assoc. done.
    + intros o Ho. rewrite fmap_cons in Ho. apply not_elem_of_cons in Ho as [Ho1 Ho]. rewrite K by done. unfold link_at. by rewrite lookup_insert_ne.
Qed.

(** ** The invariant of a cache *)

Section Proofs.
Context {S : Type} `{FP : FramePool S}.
Context (hhdm : Z).

(** Every page that may still be handed out maps to a proper address. *)
Definition room (m : Slabs S) : Prop :=
  fs_ok (pool m) /\ (4096 | hhdm) /\ forall p, p ∈ fs_free (pool m) -> 0 < p + hhdm /\ p + hhdm + PAGE_SIZE < 2 ^ 64.

Lemma room_virt m p : room m -> p ∈ fs_free (pool m) ->
  to_virt hhdm p = p + hhdm /\ 0 < p + hhdm /\ p + hhdm + PAGE_SIZE < 2 ^ 64 /\ (4096 | p + hhdm).
Proof.
  intros (Hok & Hd & Hr) Hp. destruct (Hr p Hp) as [R1 R2]. unfold PAGE_SIZE in *. split; [|split; [done|split; [done|]]].
  - unfold to_virt. apply wrap_small. unfold in_width. lia.
  - apply Z.divide_add_r; [|done]. apply Z.mod_divide; [done|]. by apply (fs_page (pool m) p Hok Hp).
Qed.

(** The slab at [s] has the free objects [objs]. *)
Record slab_ok (size : Z) (m : Slabs S) (s : Z) (objs : list Z) : Prop := {
  so_dom : is_Some (headers m !! s);
  so_virt : virt_addr (header_at (headers m) s) = s;
  so_total : total_objects (header_at (headers m) s) = usable_objects size;
  so_addr : 0 < s /\ s + PAGE_SIZE < 2 ^ 64 /\ (4096 | s);
  so_chain : chain (link_at (links m)) (s_free_list (header_at (headers m) s)) objs;
  so_nodup : NoDup objs;
  so_grid : forall o, o ∈ objs -> o ∈ grid size s;
  so_count : s_allocated (header_at (headers m) s) = usable_objects size - Z.of_nat (length objs);
  so_page : s - hhdm ∉ fs_free (pool m);
}.

(** [pl] and [fl] are the slabs on the two lists, [F] the free objects of each,
    and [live] the objects clients hold. *)
Record cache_inv (c : SizeClassCache) (m : Slabs S) (pl fl : list Z) (F : Z -> list Z) (live : gset Z) : Prop := {
  ci_class : class (c_size c);
  ci_partial : chain (next_of m) (partial_slabs c) pl;
  ci_full : chain (next_of m) (full_slabs c) fl;
  ci_nodup : NoDup (pl ++ fl);
  ci_slabs : forall s, s ∈ pl ++ fl -> slab_ok (c_size c) m s (F s);
  ci_filled : forall s, s ∈ fl -> F s = [];
  ci_live : forall o, o ∈ live <-> exists s, s ∈ pl ++ fl /\ o ∈ grid (c_size c) s /\ o ∉ F s;
  ci_room : room m;
}.

Lemma slab_pages size m s s' objs objs' : slab_ok size m s objs -> slab_ok size m s' objs' -> s <> s' ->
  s + PAGE_SIZE <= s' \/ s' + PAGE_SIZE <= s.
Proof.
  intros H1 H2 Hne. destruct (so_addr _ _ _ _ H1) as (_ & _ & [k ->]), (so_addr _ _ _ _ H2) as (_ & _ & [k' ->]).
  unfold PAGE_SIZE. destruct (Z.lt_ge_cases k k'); [left|right]; nia.
Qed.

Lemma grid_slab size m s s' objs objs' o : class size -> slab_ok size m s objs -> slab_ok size m s' objs' ->
  o ∈ grid size s -> o ∈ grid size s' -> s = s'.
Proof.
  intros Hc H1 H2 O1 O2. destruct (decide (s = s')) as [|Hne]; [done|]. exfalso.
  destruct (elem_of_grid size s o Hc O1) as (A1 & A2 & _), (elem_of_grid size s' o Hc O2) as (B1 & B2 & _).
  destruct (class_facts size Hc) as (F1 & _). unfold SIZEOF_Slab in *.
  destruct (slab_pages _ _ _ _ _ _ H1 H2 Hne); lia.
Qed.

Lemma grid_nonzero size m s objs o : class size -> slab_ok size m s objs -> o ∈ grid size s -> o <> 0.
Proof.
  intros Hc H1 Ho. destruct (so_addr _ _ _ _ H1) as (A & _). destruct (elem_of_grid size s o Hc Ho) as (B & _).
  unfold SIZEOF_Slab in B. lia.
Qed.

(** ** Moving slabs between the lists *)

Lemma header_insert hs p q s : header_at (<[p := s]> hs) q = if decide (p = q) then s else header_at hs q.
Proof.
  unfold header_at. destruct (decide (p = q)) as [->|]; [by rewrite lookup_insert_eq|by rewrite lookup_insert_ne].
Qed.

Lemma next_set p q (m : Slabs S) a : next_of (set_slab_next p q m) a = if decide (p = a) then q else next_of m a.
Proof. unfold next_of, set_slab_next. cbn [headers]. rewrite header_insert. by destruct (decide (p = a)) as [->|]. Qed.

(** Two memories that differ in [next] fields only. *)
Definition same_slabs (m m' : Slabs S) : Prop :=
  links m' = links m /\ pool m' = pool m /\
  (forall p, with_next 0 (header_at (headers m') p) = with_next 0 (header_at (headers m) p)) /\
  (forall p, is_Some (headers m !! p) -> is_Some (headers m' !! p)).

Lemma same_slabs_refl m : same_slabs m m.
Proof. by split. Qed.

Lemma same_slabs_trans m1 m2 m3 : same_slabs m1 m2 -> same_slabs m2 m3 -> same_slabs m1 m3.
Proof.
  intros (A1 & A2 & A3 & A4) (B1 & B2 & B3 & B4). split; [congruence|]. split; [congruence|].
  split; [intros p; by rewrite B3|auto].
Qed.

Lemma same_slabs_set p q (m : Slabs S) : same_slabs m (set_slab_next p q m).
Proof.
  split; [done|]. split; [done|]. unfold set_slab_next. cbn [headers]. split.
  - intros a. rewrite header_insert. by destruct (decide (p = a)) as [->|].
  - intros a Ha. destruct (decide (p = a)) as [->|]; [by rewrite lookup_insert_eq|by rewrite lookup_insert_ne].
Qed.

Lemma same_slabs_ok size m m' s objs : same_slabs m m' -> slab_ok size m s objs -> slab_ok size m' s objs.
Proof.
  intros (L & P & Hh & Hd) H1. pose proof (Hh s) as E. destruct H1. unfold with_next in E.
  injection E as E1 E2 E3 E4 E5 E6. split; try done.
  - by apply Hd.
  - congruence.
  - congruence.
  - by rewrite E6, L.
  - congruence.
  - by rewrite P.
Qed.

Lemma unlink_spec a (m : Slabs S) list l1 l2 : forall fuel pre prev current,
  chain (next_of m) list (pre ++ l1 ++ a :: l2) -> chain (next_of m) current (l1 ++ a :: l2) ->
  NoDup (pre ++ l1 ++ a :: l2) -> prev = default 0 (last pre) -> (length l1 < fuel)%nat ->
  exists head m', unlink fuel a list prev current m = Some (head, m') /\ same_slabs m m' /\
    chain (next_of m') head (pre ++ l1 ++ l2) /\ next_of m' a = next_of m a /\
    forall b, b ∉ pre ++ l1 -> next_of m' b = next_of m b.
Proof.
  induction l1 as [|b l1 IH]; intros [|fuel] pre prev current C Cc Nd Ep Hf; try (simpl in Hf; lia).
  - destruct Cc as (-> & Ha & C2). cbn [unlink]. rewrite (proj2 (Z.eqb_neq a 0)), Z.eqb_refl by done.
    destruct (last pre) as [b|] eqn:El; cbn in Ep; subst prev.
    + apply last_Some in El as [l ->]. assert (b <> 0) as Hb.
      { rewrite <- app_assoc in C. destruct (chain_app _ l ([b] ++ [] ++ a :: l2) list C) as (q & _ & Hb & _). done. }
      rewrite (proj2 (Z.eqb_neq b 0)) by done. eexists _, _. split; [done|]. split; [apply same_slabs_set|].
      rewrite <- app_assoc in C, Nd |- *. simpl in C, Nd |- *.
      apply NoDup_app in Nd as (N1 & N2 & N3). apply NoDup_cons in N3 as [N3 N4]. apply NoDup_cons in N4 as [N4 N5].
      split; [|split].
      * apply (chain_redirect (next_of m) _ b (next_of m a) l (a :: l2) l2); [done|done| | | |].
        -- rewrite next_set. by rewrite decide_True.
        -- intros x Hx. rewrite next_set. by rewrite decide_False.
        -- intros Hin. apply (N2 b Hin). by left.
        -- intros Hin. apply N3. by right.
      * rewrite next_set, decide_False; [done|]. intros ->. apply N3. by left.
      * intros x Hx. rewrite next_set, decide_False; [done|]. intros ->. apply Hx. rewrite app_nil_r. apply elem_of_app. right. by left.
    + apply last_None in El as ->. eexists _, _. split; [done|]. split; [apply same_slabs_refl|]. by split.
  - pose proof Cc as (-> & Hb & Cn). cbn [unlink]. rewrite (proj2 (Z.eqb_neq b 0)) by done.
    assert (b <> a) as Hba.
    { intros ->. apply NoDup_app in Nd as (_ & _ & Nd). apply NoDup_cons in Nd as [Nd _]. apply Nd. apply elem_of_app. right. by left. }
    rewrite (proj2 (Z.eqb_neq b a)) by done.
    destruct (IH fuel (pre ++ [b]) b (next_of m b)) as (hd & m' & E & Hs & C' & Ea & K).
    + by rewrite <- app_assoc.
    + done.
    + by rewrite <- app_assoc.
    + by rewrite last_snoc.
    + simpl in Hf. lia.
    + exists hd, m'. split; [done|]. split; [done|]. rewrite <- app_assoc in C', K. by split.
Qed.

Lemma fuel_enough (m : Slabs S) l : NoDup l -> (forall s, s ∈ l -> is_Some (headers m !! s)) -> (length l < fuel_of m)%nat.
Proof. intros Hn Hd. unfold fuel_of. pose proof (nodup_length_size _ _ Hn Hd). lia. Qed.

(** Taking a slab off one list and putting it in front of the other. *)
Lemma transfer (m : Slabs S) a hx hy l1 l2 ly : chain (next_of m) hx (l1 ++ a :: l2) -> chain (next_of m) hy ly ->
  NoDup ((l1 ++ a :: l2) ++ ly) -> (forall s, s ∈ l1 ++ a :: l2 -> is_Some (headers m !! s)) ->
  exists hx' m1, unlink (fuel_of m) a hx 0 hx m = Some (hx', m1) /\ same_slabs m (set_slab_next a hy m1) /\
    chain (next_of (set_slab_next a hy m1)) hx' (l1 ++ l2) /\ chain (next_of (set_slab_next a hy m1)) a (a :: ly).
Proof.
  intros Cx Cy Nd Hdom. apply NoDup_app in Nd as (Nx & Nxy & Ny).
  destruct (unlink_spec a m hx l1 l2 (fuel_of m) [] 0 hx Cx Cx Nx eq_refl) as (hx' & m1 & E & Hs & C & _ & K).
  { pose proof (fuel_enough m _ Nx Hdom) as Hf. rewrite length_app in Hf. lia. }
  exists hx', m1. split; [done|]. split; [eapply same_slabs_trans; [done|apply same_slabs_set]|].
  pose proof Nx as Nx'. apply NoDup_app in Nx' as (_ & N2 & N3). apply NoDup_cons in N3 as [N3 _]. simpl in C, K.
  assert (a ≠ 0) as Ha by (destruct (chain_app _ l1 (a :: l2) hx Cx) as (q & _ & Ha & _); done).
  split.
  - apply (chain_ext (next_of m1)); [|done]. intros b Hb. rewrite next_set, decide_False; [done|]. intros <-.
    apply elem_of_app in Hb as [Hb|Hb]; [|done]. apply (N2 a Hb). by left.
  - split; [done|]. split; [done|]. rewrite next_set, decide_True by done. apply (chain_ext (next_of m)); [|done].
    intros b Hb. rewrite next_set, decide_False.
    + symmetry. apply K. intros Hin. apply (Nxy b); [|done]. apply elem_of_app. by left.
    + intros <-. apply (Nxy a); [|done]. apply elem_of_app. right. by left.
Qed.

(** ** One slab *)

Lemma slab_count_small size n : class size -> (0 <= n) -> n <= usable_objects size -> wrap 64 n = n.
Proof.
  intros Hc H0 H1. apply wrap_small. destruct (class_facts size Hc) as (F1 & _ & _ & _ & _ & F6 & _). unfold in_width, PAGE_SIZE in *.
  assert (aligned_header size >= 0) by (destruct (class_facts size Hc) as (_ & _ & _ & F4 & _); unfold SIZEOF_Slab in F4; lia). nia.
Qed.

Lemma objs_bound size m s objs : class size -> slab_ok size m s objs -> Z.of_nat (length objs) <= usable_objects size.
Proof.
  intros Hc H1. rewrite <- (length_grid size s Hc). apply inj_le. apply submseteq_length.
  apply NoDup_submseteq; [apply (so_nodup _ _ _ _ H1)|apply (so_grid _ _ _ _ H1)].
Qed.

(** Operations on slab [p] leave the others alone. *)
Lemma slab_other size m m' p objs s : s <> p -> slab_ok size m s objs ->
  headers m' !! s = headers m !! s -> pool m' = pool m -> (forall o, o ∈ objs -> link_at (links m') o = link_at (links m) o) ->
  slab_ok size m' s objs.
Proof.
  intros Hne [] Eh Ep El. assert (header_at (headers m') s = header_at (headers m) s) as E by (unfold header_at; by rewrite Eh).
  split; rewrite ?E, ?Eh, ?Ep; try done. apply (chain_ext (link_at (links m))); [|done]. intros o Ho. symmetry. by apply El.
Qed.

Lemma Slab_alloc_none size (m : Slabs S) s : slab_ok size m s [] -> Slab_alloc s m = (None, m).
Proof. intros H1. unfold Slab_alloc. pose proof (so_chain _ _ _ _ H1) as C. simpl in C. by rewrite C. Qed.

Lemma Slab_alloc_some size (m : Slabs S) s o objs : class size -> slab_ok size m s (o :: objs) ->
  exists m', Slab_alloc s m = (Some o, m') /\ slab_ok size m' s objs /\ (forall p, next_of m' p = next_of m p) /\ pool m' = pool m /\
    (forall s' objs', s' <> s -> slab_ok size m s' objs' -> slab_ok size m' s' objs') /\
    (is_full (header_at (headers m') s) = true <-> objs = []).
Proof.
  intros Hc H1. pose proof (objs_bound _ _ _ _ Hc H1) as Hb. destruct H1 as [D V T A C N G Ct P].
  apply chain_head in C as (Eh & Ho & C). unfold Slab_alloc. rewrite Eh, (proj2 (Z.eqb_neq o 0)) by done.
  eexists. split; [done|]. cbn [headers links pool length] in *.
  assert (s_allocated (header_at (headers m) s) +[64] 1 = usable_objects size - Z.of_nat (length objs)) as Ec.
  { rewrite Ct. replace (usable_objects size - Z.of_nat (Datatypes.S (length objs)) + 1) with (usable_objects size - Z.of_nat (length objs)) by lia.
    apply (slab_count_small size); lia || done. }
  apply NoDup_cons in N as [N1 N2]. split; [|split; [|split; [done|split]]].
  - split; cbn [headers links pool]; rewrite ?header_insert, ?decide_True by done; cbn; try done.
    + by rewrite lookup_insert_eq.
    + intros x Hx. apply G. by right.
  - intros p. unfold next_of. cbn [headers]. rewrite header_insert. by destruct (decide (s = p)) as [->|].
  - intros s' objs' Hne H2. apply (slab_other size m _ s objs' s'); try done. cbn [headers]. by rewrite lookup_insert_ne.
  - rewrite header_insert, decide_True by done. unfold is_full. cbn. rewrite T, Ec, Z.leb_le. destruct objs; simpl; split; (done || lia).
Qed.

Lemma Slab_free_spec size (m : Slabs S) s o objs : class size -> slab_ok size m s objs -> o ∈ grid size s -> o ∉ objs ->
  let m' := Slab_free s o m in
  slab_ok size m' s (o :: objs) /\ (forall p, next_of m' p = next_of m p) /\ pool m' = pool m /\
  (forall s' objs', s' <> s -> slab_ok size m s' objs' -> slab_ok size m' s' objs').
Proof.
  intros Hc H1 Ho Hn. cbv zeta. pose proof (grid_nonzero _ _ _ _ _ Hc H1 Ho) as Hz. pose proof H1 as [D V T A C N G Ct P].
  assert (Z.of_nat (length (o :: objs)) <= usable_objects size) as Hb.
  { rewrite <- (length_grid size s Hc). apply inj_le. apply submseteq_length. apply NoDup_submseteq; [by apply NoDup_cons|].
    intros x Hx. apply elem_of_cons in Hx as [->|Hx]; [done|by apply G]. }
  unfold Slab_free. split; [|split; [|split; [done|]]].
  - split; cbn [headers links pool]; rewrite ?header_insert, ?decide_True by done; cbn; try done.
    + by rewrite lookup_insert_eq.
    + split; [done|]. split; [done|]. unfold link_at at 2. rewrite lookup_insert_eq. cbn.
      apply (chain_ext (link_at (links m))); [|done]. intros a Ha. unfold link_at. rewrite lookup_insert_ne; [done|]. by intros <-.
    + by apply NoDup_cons.
    + intros x Hx. apply elem_of_cons in Hx as [->|Hx]; [done|by apply G].
    + rewrite Ct. cbn [length] in Hb. replace (usable_objects size - Z.of_nat (length objs) - 1) with
        (usable_objects size - Z.of_nat (Datatypes.S (length objs))) by lia.
      apply (slab_count_small size); lia || done.
  - intros p. unfold next_of. cbn [headers]. rewrite header_insert. by destruct (decide (s = p)) as [->|].
  - intros s' objs' Hne H2. apply (slab_other size m _ s objs' s'); try done.
    + cbn [headers]. by rewrite lookup_insert_ne.
    + intros a Ha. cbn [links]. unfold link_at. rewrite lookup_insert_ne; [done|]. intros <-.
      apply Hne. apply (grid_slab size m s' s objs' objs o Hc H2 H1); [by apply (so_grid _ _ _ _ H2)|done].
Qed.

(** ** A new slab *)

Lemma object_address size s i : class size -> 0 < s -> s + PAGE_SIZE < 2 ^ 64 -> 0 <= i < usable_objects size ->
  (s +[64] aligned_header size) +[64] i *[64] size = s + aligned_header size + i * size.
Proof.
  intros Hc Hs He Hi. destruct (class_facts size Hc) as (F1 & _ & _ & F4 & _ & F6 & _). unfold SIZEOF_Slab in F4.
  assert (0 <= i * size <= usable_objects size * size) by nia. unfold PAGE_SIZE in *.
  rewrite (wrap_small 64 (s + aligned_header size)), (wrap_small 64 (i * size)), wrap_small by (unfold in_width; lia). done.
Qed.

Lemma room_pool m f p f' hs ls : room m -> fs_alloc (pool m) = (Some p, f) -> f' = f -> room (mkSlabs hs ls f').
Proof.
  intros (Hok & Hd & Hr) E ->. destruct (fs_alloc_some _ _ _ Hok E) as (_ & Ef & Hok'). split; [done|]. split; [done|].
  cbn [pool]. intros q Hq. apply Hr. rewrite Ef in Hq. set_solver.
Qed.

Lemma Slab_new_spec size m : class size -> room m ->
  match Slab_new hhdm size m with
  | (None, m') => headers m' = headers m /\ links m' = links m /\ room m' /\ fs_free (pool m') = fs_free (pool m) /\
      (fs_free (pool m) = ∅ \/ size = 4096)
  | (Some s, m') => slab_ok size m' s (reverse (grid size s)) /\ next_of m' s = 0 /\ room m' /\
      usable_objects size <> 0 /\
      (forall a, a <> s -> next_of m' a = next_of m a) /\
      (forall s' objs, slab_ok size m s' objs -> s' <> s /\ slab_ok size m' s' objs)
  end.
Proof.
  intros Hc R. pose proof R as (Hok & Hd & Hr). unfold Slab_new.
  destruct (fs_alloc (pool m)) as [[frame|] f] eqn:E.
  - destruct (fs_alloc_some _ _ _ Hok E) as (Hin & Ef & Hok'). destruct (room_virt m frame R Hin) as (-> & V1 & V2 & V3).
    set (s := frame + hhdm) in *. destruct (class_facts size Hc) as (F1 & F2 & F3 & F4 & F5 & F6 & F7).
    destruct (Z.eqb_spec (usable_objects size) 0) as [Hu|Hu].
    + destruct (fs_dealloc_back _ _ _ Hok E) as [Hok2 Ef2]. split; [done|]. split; [done|]. split; [|split; [done|right; by apply F7]].
      split; [done|]. split; [done|]. cbn [pool]. by rewrite Ef2.
    + destruct (link_objects_spec (s +[64] aligned_header size) size (fun i => s + aligned_header size + i * size)
        (seqZ 0 (usable_objects size)) 0 (links m) []) as (hd & ls & El & C & K).
      { intros i Hi. apply elem_of_seqZ in Hi. split; [apply object_address; (done || lia)|]. unfold SIZEOF_Slab in *. nia. }
      { by apply grid_nodup. } { intros i _. apply not_elem_of_nil. } { done. }
      rewrite El. fold (grid size s) in C, K. rewrite app_nil_r in C.
      assert (forall a, a <> s -> header_at (<[s := mkSlab frame s size 0 (usable_objects size) hd 0]> (headers m)) a = header_at (headers m) a) as Hh
        by (intros a Ha; by rewrite header_insert, decide_False).
      split; [|split; [|split; [|split; [done|split]]]].
      * split; cbn [headers links pool]; rewrite ?header_insert, ?decide_True by done; cbn; try done.
        -- by rewrite lookup_insert_eq.
        -- rewrite reverse_Permutation. by apply grid_nodup.
        -- intros o Ho. by rewrite elem_of_reverse in Ho.
        -- rewrite length_reverse, length_grid by done. lia.
        -- replace (s - hhdm) with frame by (unfold s; lia). rewrite Ef. set_solver.
      * unfold next_of. cbn [headers]. by rewrite header_insert, decide_True.
      * by eapply room_pool.
      * intros a Ha. unfold next_of. cbn [headers]. by rewrite Hh.
      * intros s' objs H1. assert (s' <> s) as Hne.
        { intros ->. apply (so_page _ _ _ _ H1). by replace (s - hhdm) with frame by (unfold s; lia). }
        split; [done|]. destruct H1 as [D V T A Ch N G Ct P].
        split; cbn [headers links pool]; rewrite ?Hh by done; try done.
        -- by rewrite lookup_insert_ne.
        -- apply (chain_ext (link_at (links m))); [|done]. intros o Ho. symmetry. apply K. intros Hg.
           destruct (elem_of_grid size s o Hc Hg) as (B1 & B2 & _), (elem_of_grid size s' o Hc (G o Ho)) as (B3 & B4 & _).
           destruct A as (_ & _ & [k' ->]), V3 as [k Hk]. fold s in Hk. unfold SIZEOF_Slab, PAGE_SIZE in *.
           destruct (Z.lt_trichotomy k k') as [|[->|]]; [nia|by apply Hne|nia].
        -- rewrite Ef. set_solver.
  - destruct (fs_alloc_none _ _ Hok E) as (Ee & Ef & Hok'). split; [done|]. split; [done|].
    split; [|split; [cbn; by rewrite Ef|by left]]. split; [done|]. split; [done|]. cbn [pool]. by rewrite Ef.
Qed.

(** ** The cache *)

Definition upd (F : Z -> list Z) (s : Z) (l : list Z) : Z -> list Z := fun x => if decide (x = s) then l else F x.

Lemma upd_eq F s l : upd F s l s = l.
Proof. unfold upd. by rewrite decide_True. Qed.
Lemma upd_ne F s l x : x <> s -> upd F s l x = F x.
Proof. intros. unfold upd. by rewrite decide_False. Qed.

(** Rearranging the two lists. *)
Lemma inv_rearrange c m pl fl F live p' f' m' pl' fl' a b : cache_inv c m pl fl F live -> same_slabs m m' ->
  chain (next_of m') p' pl' -> chain (next_of m') f' fl' -> pl' ++ fl' ≡ₚ pl ++ fl -> (forall s, s ∈ fl' -> F s = []) ->
  cache_inv (mkCache (c_size c) p' f' a b) m' pl' fl' F live.
Proof.
  intros [Hc Cp Cf N Sl Fi L R] Hs Cp' Cf' P Fi'. split; try done; cbn [c_size].
  - by rewrite P.
  - intros s Hin. apply (same_slabs_ok _ m); [done|]. apply Sl. by rewrite <- P.
  - intros o. rewrite L. split; intros (s & S1 & S2); exists s; (split; [|done]); [by rewrite P|by rewrite <- P].
  - destruct Hs as (_ & Hp & _). unfold room. by rewrite Hp.
Qed.

Lemma slab_contains_spec size m s objs x objsx o : class size -> slab_ok size m s objs -> slab_ok size m x objsx -> o ∈ grid size s ->
  slab_contains (header_at (headers m) x) o = bool_decide (x = s).
Proof.
  intros Hc Hs Hx Ho. destruct (elem_of_grid size s o Hc Ho) as (B1 & B2 & _). destruct (class_facts size Hc) as (F1 & _).
  unfold slab_contains. rewrite (so_virt _ _ _ _ Hx). destruct (so_addr _ _ _ _ Hx) as (A1 & A2 & _).
  unfold SIZEOF_Slab, PAGE_SIZE in *. rewrite wrap_small by (unfold in_width; lia). destruct (decide (x = s)) as [->|Hne].
  - rewrite bool_decide_eq_true_2 by done. rewrite (proj2 (Z.leb_le _ _)), (proj2 (Z.ltb_lt _ _)) by lia. done.
  - rewrite bool_decide_eq_false_2 by done. destruct (slab_pages _ _ _ _ _ _ Hs Hx) as [Hp|Hp]; [by intros ->| |]; unfold PAGE_SIZE in Hp.
    + rewrite (proj2 (Z.leb_gt x o)) by lia. done.
    + rewrite (proj2 (Z.ltb_ge _ _)) by lia. apply andb_false_r.
Qed.

Lemma find_slab_spec (m : Slabs S) o s rest : forall fuel current, chain (next_of m) current rest -> (length rest < fuel)%nat ->
  (forall x, x ∈ rest -> slab_contains (header_at (headers m) x) o = bool_decide (x = s)) ->
  find_slab fuel o current m = if decide (s ∈ rest) then Some s else None.
Proof.
  induction rest as [|x rest IH]; intros [|fuel] current C Hf Hx; try (simpl in Hf; lia); cbn [find_slab].
  - simpl in C. subst. rewrite decide_False by apply not_elem_of_nil. done.
  - destruct C as (-> & Hz & C). rewrite (proj2 (Z.eqb_neq x 0)), Hx by (done || left). destruct (decide (x = s)) as [->|Hne].
    + rewrite bool_decide_eq_true_2 by done. rewrite decide_True by left. done.
    + rewrite bool_decide_eq_false_2 by done. rewrite IH; [|done|simpl in Hf; lia|intros y Hy; apply Hx; by right].
      destruct (decide (s ∈ rest)) as [Hin|Hin]; [by rewrite decide_True by (by right)|].
      rewrite decide_False; [done|]. intros [|]%elem_of_cons; [by subst|done].
Qed.

Lemma alloc_from_spec size (F : Z -> list Z) c (m : Slabs S) rest : class size -> (forall s, s ∈ rest -> slab_ok size m s (F s)) ->
  forall fuel current, chain (next_of m) current rest -> (length rest < fuel)%nat ->
  (alloc_from fuel current c m = None /\ forall s, s ∈ rest -> F s = []) \/
  exists s o objs, s ∈ rest /\ F s = o :: objs /\
    alloc_from fuel current c m =
      let m1 := (Slab_alloc s m).2 in
      let (c2, m2) := if is_full (header_at (headers m1) s) then move_to_full s (count_alloc c) m1 else (count_alloc c, m1) in
      Some (o, c2, m2).
Proof.
  intros Hc. induction rest as [|x rest IH]; intros Hok [|fuel] current C Hf; try (simpl in Hf; lia); cbn [alloc_from].
  - simpl in C. subst. left. split; [done|]. intros s Hs. by apply not_elem_of_nil in Hs.
  - destruct C as (-> & Hz & C). rewrite (proj2 (Z.eqb_neq x 0)) by done. assert (slab_ok size m x (F x)) as Hx by (apply Hok; left).
    destruct (F x) as [|o objs] eqn:Ex.
    + rewrite (Slab_alloc_none size) by done. destruct (IH ltac:(intros s Hs; apply Hok; by right) fuel (next_of m x) C)
        as [[E A]|(s & o & objs & Hs & Es & E)]; [simpl in Hf; lia| |].
      * left. split; [done|]. intros s [->|Hs]%elem_of_cons; [done|by apply A].
      * right. exists s, o, objs. split; [by right|]. by split.
    + right. exists x, o, objs. split; [left|]. split; [done|].
      destruct (Slab_alloc_some size m x o objs Hc Hx) as (m' & E & _). rewrite E. reflexivity.
Qed.

(** An object leaves or joins the free list of one slab. *)
Lemma inv_take c m pl fl F live s o objs m' : cache_inv c m pl fl F live -> s ∈ pl -> F s = o :: objs ->
  slab_ok (c_size c) m' s objs -> (forall p, next_of m' p = next_of m p) -> pool m' = pool m ->
  (forall s' objs', s' <> s -> slab_ok (c_size c) m s' objs' -> slab_ok (c_size c) m' s' objs') ->
  o ∉ live /\ cache_inv c m' pl fl (upd F s objs) ({[o]} ∪ live).
Proof.
  intros [Hc Cp Cf N Sl Fi L R] Hs EF Hok Hn Hp Ho. assert (s ∈ pl ++ fl) as Hs' by (apply elem_of_app; by left).
  pose proof (Sl s Hs') as Hs1. rewrite EF in Hs1. assert (o ∈ grid (c_size c) s) as Hog by (apply (so_grid _ _ _ _ Hs1); left).
  assert (o ∉ objs) as Hnin by (pose proof (so_nodup _ _ _ _ Hs1) as Hnd; by apply NoDup_cons in Hnd as [? _]).
  assert (s ∉ fl) as Hsf by (intros Hin; apply NoDup_app in N as (_ & N & _); by apply (N s)).
  split.
  - rewrite L. intros (s' & S1 & S2 & S3). assert (s' = s) as -> by (by eapply (grid_slab _ m); eauto).
    apply S3. rewrite EF. by left.
  - split; try done.
    + by apply (chain_ext (next_of m)).
    + by apply (chain_ext (next_of m)).
    + intros s' Hin. destruct (decide (s' = s)) as [->|Hne]; [by rewrite upd_eq|]. rewrite upd_ne by done. apply Ho; [done|by apply Sl].
    + intros s' Hin. rewrite upd_ne; [by apply Fi|]. by intros ->.
    + intros x. rewrite elem_of_union, elem_of_singleton, L. split.
      * intros [->|(s' & S1 & S2 & S3)]; [exists s; by rewrite upd_eq|]. exists s'. split; [done|]. split; [done|].
        destruct (decide (s' = s)) as [->|Hne]; [|by rewrite upd_ne]. rewrite upd_eq. intros Hx. apply S3. rewrite EF. by right.
      * intros (s' & S1 & S2 & S3). destruct (decide (s' = s)) as [->|Hne].
        -- rewrite upd_eq in S3. destruct (decide (x = o)) as [->|]; [by left|]. right. exists s. split; [done|]. split; [done|].
           rewrite EF. apply not_elem_of_cons. by split.
        -- rewrite upd_ne in S3 by done. right. by exists s'.
    + unfold room. by rewrite Hp.
Qed.

Lemma cache_alloc_spec c m pl fl F live : cache_inv c m pl fl F live ->
  match cache_alloc hhdm c m with
  | (Some o, c', m') => o ∉ live /\ exists pl' fl' F', cache_inv c' m' pl' fl' F' ({[o]} ∪ live)
  | (None, c', m') => c' = c /\ (exists F', cache_inv c' m' pl fl F' live) /\ (forall s, s ∈ pl -> F s = []) /\
      (fs_free (pool m) = ∅ \/ c_size c = 4096)
  end.
Proof.
  intros I. pose proof I as [Hc Cp Cf N Sl Fi L R]. unfold cache_alloc.
  assert (NoDup pl) as Np by (by apply NoDup_app in N as (? & _ & _)).
  assert (forall s, s ∈ pl -> slab_ok (c_size c) m s (F s)) as Slp by (intros s Hs; apply Sl, elem_of_app; by left).
  destruct (alloc_from_spec (c_size c) F c m pl Hc Slp (fuel_of m) (partial_slabs c) Cp) as [[-> A]|(s & o & objs & Hs & EF & ->)].
  { apply fuel_enough; [done|]. intros s Hs. apply (so_dom _ _ _ _ (Slp s Hs)). }
  - pose proof (Slab_new_spec (c_size c) m Hc R) as Hnew. destruct (Slab_new hhdm (c_size c) m) as [[s|] m1].
    + destruct Hnew as (Hok & Hn0 & R1 & Hu & Hn & Ho). set (m2 := set_slab_next s (partial_slabs c) m1).
      assert (s ∉ pl ++ fl) as Hsn by (intros Hin; by destruct (Ho s (F s) (Sl s Hin))).
      set (c1 := mkCache (c_size c) s (full_slabs c) (total_allocs c) (total_frees c)).
      assert (forall a, a ∈ pl ++ fl -> next_of m a = next_of m2 a) as Hnn.
      { intros a Ha. assert (a <> s) by (by intros ->). unfold m2. by rewrite next_set, decide_False, Hn. }
      assert (cache_inv c1 m2 (s :: pl) fl (upd F s (reverse (grid (c_size c) s))) live) as I2.
      { split; try done; cbn [c_size c1 partial_slabs full_slabs].
        - split; [done|]. split; [pose proof (so_addr _ _ _ _ Hok); lia|]. unfold m2. rewrite next_set, decide_True by done.
          apply (chain_ext (next_of m)); [|done]. intros a Ha. apply Hnn, elem_of_app. by left.
        - apply (chain_ext (next_of m)); [|done]. intros a Ha. apply Hnn, elem_of_app. by right.
        - by apply NoDup_cons.
        - intros x Hx. apply (same_slabs_ok _ m1); [apply same_slabs_set|]. simpl in Hx. apply elem_of_cons in Hx as [->|Hx]; [by rewrite upd_eq|].
          rewrite upd_ne by (by intros ->). by apply Ho, Sl.
        - intros x Hx. rewrite upd_ne; [by apply Fi|]. intros ->. apply Hsn, elem_of_app. by right.
        - intros o. rewrite L. split.
          + intros (x & X1 & X2 & X3). exists x. split; [by right|]. split; [done|]. rewrite upd_ne; [done|]. by intros ->.
          + intros (x & X1 & X2 & X3). simpl in X1. apply elem_of_cons in X1 as [->|X1].
            * rewrite upd_eq, elem_of_reverse in X3. done.
            * exists x. split; [done|]. split; [done|]. rewrite upd_ne in X3; [done|]. by intros ->. }
      assert (exists o objs, reverse (grid (c_size c) s) = o :: objs) as (o & objs & Eo).
      { destruct (reverse (grid (c_size c) s)) as [|o objs] eqn:Eg; [|eauto]. exfalso. apply Hu.
        rewrite <- (length_grid _ s Hc), <- length_reverse, Eg. done. }
      assert (slab_ok (c_size c) m2 s (o :: objs)) as Hok2 by (rewrite <- Eo; apply (same_slabs_ok _ m1); [apply same_slabs_set|done]).
      destruct (Slab_alloc_some (c_size c) m2 s o objs Hc Hok2) as (m3 & E3 & Hok3 & Hn3 & Hp3 & Ho3 & _). rewrite E3.
      destruct (inv_take c1 m2 (s :: pl) fl _ live s o objs m3 I2) as [Hnl I3]; try done; [by left|by rewrite upd_eq|].
      split; [done|]. exists (s :: pl), fl, (upd (upd F s (reverse (grid (c_size c) s))) s objs).
      destruct I3. by split.
    + destruct Hnew as (Hh & Hl & R1 & Hp & Hwhy). split; [done|]. split; [|by split]. exists F. unfold next_of in *.
      split; try done; unfold next_of; try (by rewrite Hh).
      intros s Hs. destruct (Sl s Hs) as [D V T Ad Ch Nd G Ct P]. split; rewrite ?Hh, ?Hl, ?Hp; done.
  - assert (slab_ok (c_size c) m s (o :: objs)) as Hok by (rewrite <- EF; by apply Slp).
    destruct (Slab_alloc_some (c_size c) m s o objs Hc Hok) as (m1 & E1 & Hok1 & Hn1 & Hp1 & Ho1 & Hfull).
    destruct (inv_take c m pl fl F live s o objs m1 I Hs EF Hok1 Hn1 Hp1 Ho1) as [Hnl I1]. rewrite E1. cbn [snd].
    destruct (is_full (header_at (headers m1) s)).
    + assert (objs = []) as -> by by apply Hfull. pose proof I1 as [_ Cp1 Cf1 _ Sl1 Fi1 _ _].
      apply list_elem_of_split in Hs as (l1 & l2 & ->).
      destruct (transfer m1 s (partial_slabs c) (full_slabs c) l1 l2 fl Cp1 Cf1 N) as (hx & m2 & E2 & Hs2 & C2 & C3).
      { intros x Hx. apply (so_dom _ _ _ _ (Sl1 x (proj2 (elem_of_app _ _ _) (or_introl Hx)))). }
      unfold move_to_full. change (partial_slabs (count_alloc c)) with (partial_slabs c). rewrite E2. split; [done|].
      exists (l1 ++ l2), (s :: fl), (upd F s []). eapply (inv_rearrange c m1); try done.
      * rewrite <- !app_assoc. apply Permutation_app_head. cbn [app]. symmetry. apply Permutation_middle.
      * intros x [->|Hx]%elem_of_cons; [by rewrite upd_eq|by apply Fi1].
    + split; [done|]. exists pl, fl, (upd F s objs). destruct I1. by split.
Qed.

(** Freeing a held object: it goes back to its slab, which can then serve an
    allocation. *)
Lemma cache_free_spec c m pl fl F live o : cache_inv c m pl fl F live -> o ∈ live ->
  let (c', m') := cache_free o c m in
  exists pl' fl' F' s, cache_inv c' m' pl' fl' F' (live ∖ {[o]}) /\ s ∈ pl' /\ F' s <> [].
Proof.
  intros I Ho. pose proof I as [Hc Cp Cf N Sl Fi L R]. apply L in Ho as (s & Hs & Hg & Hn). pose proof (Sl s Hs) as Hok.
  destruct (Slab_free_spec (c_size c) m s o (F s) Hc Hok Hg Hn) as (Hok1 & Hn1 & Hp1 & Ho1).
  set (m1 := Slab_free s o m) in *. pose proof N as Nd. apply NoDup_app in Nd as (Np & Npf & Nf).
  assert (forall x, x ∈ pl ++ fl -> is_Some (headers m !! x)) as Hdom by (intros x Hx; apply (so_dom _ _ _ _ (Sl x Hx))).
  assert (forall x, x ∈ pl ++ fl -> slab_contains (header_at (headers m) x) o = bool_decide (x = s)) as Hcon
    by (intros x Hx; by eapply slab_contains_spec; eauto).
  assert (forall x, x ∈ pl ++ fl -> slab_ok (c_size c) m1 x (upd F s (o :: F s) x)) as Sl1.
  { intros x Hx. destruct (decide (x = s)) as [->|Hne]; [by rewrite upd_eq|]. rewrite upd_ne by done. apply Ho1; [done|by apply Sl]. }
  assert (forall x, x ∈ live ∖ {[o]} <-> exists s', s' ∈ pl ++ fl /\ x ∈ grid (c_size c) s' /\ x ∉ upd F s (o :: F s) s') as L1.
  { intros x. rewrite elem_of_difference, elem_of_singleton, L. split.
    - intros ((s' & S1 & S2 & S3) & Hx). exists s'. split; [done|]. split; [done|].
      destruct (decide (s' = s)) as [->|]; [rewrite upd_eq; by apply not_elem_of_cons|by rewrite upd_ne].
    - intros (s' & S1 & S2 & S3). destruct (decide (s' = s)) as [->|Hne].
      + rewrite upd_eq in S3. apply not_elem_of_cons in S3 as [S3 S4]. split; [by exists s|done].
      + rewrite upd_ne in S3 by done. split; [by exists s'|]. intros ->.
        apply Hne. by eapply (grid_slab _ m); eauto. }
  assert (chain (next_of m1) (partial_slabs c) pl) as Cp1 by (apply (chain_ext (next_of m)); [by intros|done]).
  assert (chain (next_of m1) (full_slabs c) fl) as Cf1 by (apply (chain_ext (next_of m)); [by intros|done]).
  assert (forall x, x ∈ pl -> x ∈ pl ++ fl) as Inl by (intros; apply elem_of_app; by left).
  assert (forall x, x ∈ fl -> x ∈ pl ++ fl) as Inr by (intros; apply elem_of_app; by right).
  unfold cache_free. rewrite (find_slab_spec m o s pl (fuel_of m)); [|done|apply fuel_enough; auto|auto].
  destruct (decide (s ∈ pl)) as [Hsp|Hsp].
  - exists pl, fl, (upd F s (o :: F s)), s. split; [|split; [done|by rewrite upd_eq]].
    split; try done. intros x Hx. rewrite upd_ne; [by apply Fi|]. intros ->. by apply (Npf s).
  - assert (s ∈ fl) as Hsf by (apply elem_of_app in Hs as [|]; done).
    rewrite (find_slab_spec m o s fl (fuel_of m)); [|done|apply fuel_enough; auto|auto]. rewrite decide_True by done.
    apply list_elem_of_split in Hsf as (l1 & l2 & ->).
    destruct (transfer m1 s (full_slabs c) (partial_slabs c) l1 l2 pl Cf1 Cp1) as (hx & m2 & E2 & Hs2 & C2 & C3).
    { by rewrite Permutation_app_comm. } { intros x Hx. apply (so_dom _ _ _ _ (Sl1 x (Inr x Hx))). }
    unfold move_to_partial. fold m1. change (full_slabs (count_free c)) with (full_slabs c). rewrite E2.
    exists (s :: pl), (l1 ++ l2), (upd F s (o :: F s)), s. split; [|split; [by left|by rewrite upd_eq]].
    assert (s :: pl ++ l1 ++ l2 ≡ₚ pl ++ l1 ++ s :: l2) as P by (rewrite Permutation_middle; by rewrite (Permutation_middle l1 l2 s)).
    assert (forall x, x ∈ (s :: pl) ++ l1 ++ l2 <-> x ∈ pl ++ l1 ++ s :: l2) as Pin by (intros x; cbn [app]; by rewrite P).
    split; try done; cbn [c_size partial_slabs full_slabs count_free].
    + cbn [app]. by rewrite P.
    + intros x Hx. apply (same_slabs_ok _ m1); [done|]. by apply Sl1, Pin.
    + intros x Hx. rewrite upd_ne; [apply Fi|].
      * apply elem_of_app in Hx as [Hx|Hx]; apply elem_of_app; [by left|right; by right].
      * intros ->. apply NoDup_app in Nf as (_ & N2 & N3). apply NoDup_cons in N3 as [N3 _].
        apply elem_of_app in Hx as [Hx|Hx]; [|done]. apply (N2 s Hx). by left.
    + intros x. rewrite L1. by setoid_rewrite Pin.
    + destruct Hs2 as (_ & Hp2 & _). unfold room. by rewrite Hp2, Hp1.
Qed.

(** ** Clients of a cache

    A client holds the objects it was given until it frees them. *)
Inductive slab_client : SizeClassCache -> Slabs S -> gset Z -> Prop :=
| sc_new size f : class size -> room (mkSlabs ∅ ∅ f) -> slab_client (SizeClassCache_new size) (mkSlabs ∅ ∅ f) ∅
| sc_alloc c m live o c' m' : slab_client c m live -> cache_alloc hhdm c m = (Some o, c', m') -> slab_client c' m' ({[o]} ∪ live)
| sc_null c m live c' m' : slab_client c m live -> cache_alloc hhdm c m = (None, c', m') -> slab_client c' m' live
| sc_free c m live o : slab_client c m live -> o ∈ live ->
    slab_client (cache_free o c m).1 (cache_free o c m).2 (live ∖ {[o]}).

Lemma slab_client_inv c m live : slab_client c m live -> exists pl fl F, cache_inv c m pl fl F live.
Proof.
  induction 1 as [size f Hc R|c m live o c' m' _ (pl & fl & F & I) E|c m live c' m' _ (pl & fl & F & I) E|c m live o _ (pl & fl & F & I) Ho].
  - exists [], [], (fun _ => []). split; try done; [apply NoDup_nil_2|by intros s Hs%not_elem_of_nil|].
    intros o. split; [by intros Ho%not_elem_of_empty|by intros (s & Hs%not_elem_of_nil & _)].
  - pose proof (cache_alloc_spec c m pl fl F live I) as A. rewrite E in A. destruct A as (_ & pl' & fl' & F' & I'). eauto.
  - pose proof (cache_alloc_spec c m pl fl F live I) as A. rewrite E in A. destruct A as (_ & (F' & I') & _). eauto.
  - pose proof (cache_free_spec c m pl fl F live o I Ho) as A. destruct (cache_free o c m) as [c' m'].
    destruct A as (pl' & fl' & F' & _ & I' & _). cbn. eauto.
Qed.

(** C30: To one client whose calls run without interference, a slab cache never hands out an
    object twice; threads that interleave inside the lock-free loops can get one object
    twice ([aba_double_allocation]).  In every state such a client reaches, the objects it
    holds are pairwise disjoint,
    multiples of the object size, and clear of the header of their page; a new
    allocation gives an object that is not held; it fails only when no frame is
    left or the size class is 4096; and after any held object is freed the next
    allocation succeeds. *)
Theorem slab_cache_safe c m live : slab_client c m live ->
  (forall o, o ∈ live -> (c_size c | o) /\ exists s, (4096 | s) /\ s + SIZEOF_Slab <= o /\ o + c_size c <= s + PAGE_SIZE) /\
  (forall o o', o ∈ live -> o' ∈ live -> o <> o' -> o + c_size c <= o' \/ o' + c_size c <= o) /\
  match (cache_alloc hhdm c m).1.1 with
  | Some o => o ∉ live
  | None => fs_free (pool m) = ∅ \/ c_size c = 4096
  end /\
  (forall o, o ∈ live -> let (c', m') := cache_free o c m in is_Some (cache_alloc hhdm c' m').1.1).
Proof.
  intros (pl & fl & F & I)%slab_client_inv. pose proof I as [Hc Cp Cf N Sl Fi L R]. split; [|split; [|split]].
  - intros o (s & Hs & Hg & _)%L. destruct (so_addr _ _ _ _ (Sl s Hs)) as (_ & _ & Hd).
    destruct (elem_of_grid _ _ _ Hc Hg) as (B1 & B2 & B3). split; [by apply B3|by exists s].
  - intros o o' (s & Hs & Hg & _)%L (s' & Hs' & Hg' & _)%L Hne. destruct (decide (s = s')) as [->|Hss].
    + by apply (grid_spread (c_size c) s').
    + destruct (elem_of_grid _ _ _ Hc Hg) as (B1 & B2 & _), (elem_of_grid _ _ _ Hc Hg') as (B3 & B4 & _). unfold SIZEOF_Slab in *.
      destruct (slab_pages _ _ _ _ _ _ (Sl s Hs) (Sl s' Hs') Hss); lia.
  - pose proof (cache_alloc_spec c m pl fl F live I) as A. destruct (cache_alloc hhdm c m) as [[[o|] c'] m']; cbn.
    + by destruct A as [A _].
    + by destruct A as (_ & _ & _ & A).
  - intros o Ho. pose proof (cache_free_spec c m pl fl F live o I Ho) as A. destruct (cache_free o c m) as [c' m'].
    destruct A as (pl' & fl' & F' & s & I' & Hs & Hne). pose proof (cache_alloc_spec c' m' _ _ _ _ I') as B.
    destruct (cache_alloc hhdm c' m') as [[[x|] c''] m'']; cbn; [done|]. destruct B as (_ & _ & B & _). by destruct Hne; apply B.
Qed.
End Proofs.

(** ** Steps and functions *)

(** A slab as the threads see it. *)
Definition shared_of {S} (m : Slabs S) (p : Z) (ps : list slab_pc) (hs : list (nat * Z)) : Shared :=
  mkShared (s_free_list (header_at (headers m) p)) (links m) (s_allocated (header_at (headers m) p)) ps hs.

(** One step of a thread whose program counter [L] tells. *)
Ltac do_step L :=
  unfold slab_step at 1, goto; cbn [pcs head link count held andb negb]; rewrite ?list_insert_insert_eq, L;
  unfold goto; cbn [pcs head link count held andb negb]; rewrite ?list_insert_insert_eq.

(** The lock-free loops are the sequential functions.  When no other thread
    moves and no compare-exchange fails spuriously, the steps of a thread's
    [alloc] end with exactly the result and the slab of [Slab_alloc], and those
    of its [free] with the slab of [Slab_free]. *)
Theorem steps_equal_functions {S} (m : Slabs S) p t ps hs : ps !! t = Some Idle ->
  slab_run ((t, CallAlloc) :: replicate (if s_free_list (header_at (headers m) p) =? 0 then 1 else 4) (t, Continue false))
    (shared_of m p ps hs) =
    (let (r, m') := Slab_alloc p m in Some (shared_of m' p ps (match r with Some o => (t, o) :: hs | None => hs end))) /\
  forall o, (t, o) ∈ hs ->
    slab_run ((t, CallFree o) :: replicate 4 (t, Continue false)) (shared_of m p ps hs) =
    Some (shared_of (Slab_free p o m) p ps (drop_held t o hs)).
Proof.
  intros Ht. assert (t < length ps)%nat as Hlt by by eapply lookup_lt_Some.
  assert (forall x : slab_pc, <[t := x]> ps !! t = Some x) as L by (intros; by apply list_lookup_insert_eq).
  unfold shared_of. set (h := header_at (headers m) p). split.
  - unfold Slab_alloc. fold h. destruct (Z.eqb_spec (s_free_list h) 0) as [E0|Hne]; cbn [slab_run replicate].
    + do_step Ht. do_step L. rewrite E0. cbn [Z.eqb]. unfold goto; cbn [pcs head link count held].
      rewrite ?list_insert_insert_eq, list_insert_id by done. fold h. by rewrite E0.
    + do_step Ht. do_step L. rewrite (proj2 (Z.eqb_neq _ _)) by done. do_step L. do_step L.
      rewrite Z.eqb_refl. do_step L. rewrite list_insert_id by done.
      cbn [headers links pool]. by rewrite header_insert, decide_True.
  - intros o Ho. unfold Slab_free. fold h. cbn [slab_run replicate].
    do_step Ht. rewrite bool_decide_eq_true_2 by done. do_step L. do_step L. do_step L. rewrite Z.eqb_refl. do_step L.
    rewrite list_insert_id by done.
      cbn [headers links pool]. by rewrite header_insert, decide_True.
Qed.

(** ** Interference *)

(** A slab with three free objects and three idle threads. *)
Definition three_objects : Shared :=
  mkShared 0x1080 {[ 0x1080 := 0x1060; 0x1060 := 0x1040; 0x1040 := 0 ]} 0 [Idle; Idle; Idle] [].

Definition run_alloc (t : nat) : list (nat * slab_call) := (t, CallAlloc) :: replicate 4 (t, Continue false).
Definition run_free (t : nat) (o : Z) : list (nat * slab_call) := (t, CallFree o) :: replicate 4 (t, Continue false).

(** Thread 0 stops before its compare-exchange; thread 1 takes two objects and
    returns the first; thread 0 goes on, and thread 2 allocates. *)
Definition aba_schedule : list (nat * slab_call) :=
  [(0%nat, CallAlloc); (0%nat, Continue false); (0%nat, Continue false)] ++
  run_alloc 1 ++ run_alloc 1 ++ run_free 1 0x1080 ++
  [(0%nat, Continue false); (0%nat, Continue false)] ++ run_alloc 2.

(** The free list is not safe under interference.  [Slab::alloc] compares
    only the address of the head, so a slab whose first object is taken, its
    successor taken and the first returned between a thread's reading the link
    and its compare-exchange gets the old successor as its head: from a slab of
    three free objects the schedule ends with threads 1 and 2 holding the same
    object. *)
Theorem aba_double_allocation : exists s, slab_run aba_schedule three_objects = Some s /\
  (1%nat, 0x1060) ∈ held s /\ (2%nat, 0x1060) ∈ held s.
Proof. eexists. split; [vm_compute; reflexivity|]. split; by apply (bool_decide_unpack _). Qed.

(** ** Witnesses *)

Definition demo_hhdm : Z := 0xFFFF800000000000.
Definition demo_slabs : Slabs FrameAllocator := mkSlabs ∅ ∅ one_page.
Definition demo_cache : SizeClassCache := SizeClassCache_new 1024.

Lemma room_of_one a : wf a -> free_set a = {[512]} -> room demo_hhdm (mkSlabs ∅ ∅ a).
Proof.
  intros W E. split; [exact W|]. split; [by apply Z.mod_divide|]. intros p (f & -> & Hf)%elem_of_page_set.
  cbn [pool] in Hf. rewrite E in Hf. apply elem_of_singleton in Hf as ->. split; vm_compute; reflexivity.
Qed.

Lemma class_1024 : class 1024.
Proof. unfold class. by apply (bool_decide_unpack _). Qed.

Lemma demo_room : room demo_hhdm demo_slabs.
Proof. exact (room_of_one one_page one_page_wf one_page_free_set). Qed.

Lemma demo_client : slab_client demo_hhdm (cache_alloc demo_hhdm demo_cache demo_slabs).1.2 (cache_alloc demo_hhdm demo_cache demo_slabs).2
  ({[demo_hhdm + 0x200000 + 3072]} ∪ ∅).
Proof.
  apply (sc_alloc demo_hhdm demo_cache demo_slabs ∅); [exact (sc_new _ 1024 one_page class_1024 demo_room)|].
  assert ((cache_alloc demo_hhdm demo_cache demo_slabs).1.1 = Some (demo_hhdm + 0x200000 + 3072)) as E by (vm_compute; reflexivity).
  destruct (cache_alloc demo_hhdm demo_cache demo_slabs) as [[r c] m]. cbn in E. by subst.
Qed.

Lemma slab_cache_safe_witness : (1024 | demo_hhdm + 0x200000 + 3072).
Proof.
  pose proof demo_client as C. apply slab_cache_safe in C as (A & _).
  destruct (A (demo_hhdm + 0x200000 + 3072)) as [B _]; [apply elem_of_union; left; by apply elem_of_singleton|].
  assert (c_size (cache_alloc demo_hhdm demo_cache demo_slabs).1.2 = 1024) as E by (vm_compute; reflexivity).
  rewrite E in B. exact B.
Defined.

Lemma steps_equal_functions_witness : let m := mkSlabs {[ 0x1000 := mkSlab 0x1000 0x1000 64 0 63 0x1040 0 ]} {[ 0x1040 := 0 ]} tt in
  slab_run (run_alloc 0) (shared_of m 0x1000 [Idle] []) = Some (shared_of (Slab_alloc 0x1000 m).2 0x1000 [Idle] [(0%nat, 0x1040)]).
Proof. intros m. destruct (steps_equal_functions m 0x1000 0 [Idle] [] eq_refl) as [A _]. exact A. Defined.

(** The largest size class: no object fits beside the header, so no request of
    more than 2048 bytes is ever served although [can_handle] accepts it. *)
Theorem largest_class_never_allocates {S} `{FramePool S} hhdm (m : Slabs S) : room hhdm m ->
  can_handle 4096 = true /\ find_size_class 4096 = Some 7%nat /\ (Slab_new hhdm 4096 m).1 = None.
Proof.
  intros R. split; [done|]. split; [done|]. assert (class 4096) as Hc by (unfold class; by apply (bool_decide_unpack _)).
  pose proof (Slab_new_spec hhdm 4096 m Hc R) as N. destruct (Slab_new hhdm 4096 m) as [[s|] m']; [|done].
  destruct N as (_ & _ & _ & Hu & _). by destruct Hu.
Qed.
