(* ===== verification/Process.v ===== *)
(** * Processes ([kernel/src/process/mod.rs])

    The process control block and the process table.  The table is an array of
    optional slots; its specification is a finite map from process identifiers
    to control blocks, and [as_map] is the abstraction function. *)

From Stdlib Require Import ZArith Lia Bool.
From stdpp Require Import base numbers option list gmap sets.
From S2P Require Import Prelude.

Inductive ProcessState : Type := Ready | Running | Blocked | Zombie.

#[global] Instance ProcessState_eq_dec : EqDecision ProcessState.
Proof. solve_decision. Defined.

Record Registers : Type := mkRegisters {
  r15 : Z; r14 : Z; r13 : Z; r12 : Z; rbx : Z; rbp : Z; r11 : Z; r10 : Z; r9 : Z; r8 : Z;
  rsi : Z; rdi : Z; rdx : Z; rcx : Z; rax : Z; rip : Z; cs : Z; rflags : Z; rsp : Z; ss : Z
}.

Definition Registers_new : Registers :=
  mkRegisters 0 0 0 0 0 0 0 0 0 0 0 0 0 0 0 0 0x08 0x202 0 0x10.

Inductive PriorityClass : Type := RealTime | Interactive | Normal | Background | Dream.

#[global] Instance PriorityClass_eq_dec : EqDecision PriorityClass.
Proof. solve_decision. Defined.

(** The discriminant, [priority as usize]. *)
Definition prio_idx (p : PriorityClass) : nat :=
  match p with RealTime => 0 | Interactive => 1 | Normal => 2 | Background => 3 | Dream => 4 end.

Definition PriorityClass_try_from (value : Z) : option PriorityClass :=
  match value with
  | 0 => Some RealTime | 1 => Some Interactive | 2 => Some Normal
  | 3 => Some Background | 4 => Some Dream | _ => None
  end.

Inductive ProcessIntent : Type :=
| NoIntent | Compute_ | IoWait | MemoryIntensive | Network | Graphics | FileSystem
| RealityBranch | InteractiveIntent.

#[global] Instance ProcessIntent_eq_dec : EqDecision ProcessIntent.
Proof. solve_decision. Defined.

Record Process : Type := mkProcess {
  pid : Z;
  uid : Z;
  state : ProcessState;
  registers : Registers;
  page_table : Z;
  kernel_stack : Z;
  user_stack : Z;
  is_user_process : bool;
  p_heap_start : Z;
  p_heap_end : Z;
  mmap_base : Z;
  priority : PriorityClass;
  intent : ProcessIntent;
  reality_id : Z;
  cpu_affinity : Z;
  time_slice : Z;
  total_runtime : Z;
  last_scheduled : Z;
  wait_reason : Z;
}.

Definition Process_new (p : Z) : Process :=
  mkProcess p 0 Ready Registers_new 0 0 0 false 0 0 0 Normal NoIntent 0 0 10 0 0 0.

(** Assignments to single fields. *)
Definition with_state (s : ProcessState) (p : Process) : Process :=
  mkProcess (pid p) (uid p) s (registers p) (page_table p) (kernel_stack p) (user_stack p)
    (is_user_process p) (p_heap_start p) (p_heap_end p) (mmap_base p) (priority p) (intent p)
    (reality_id p) (cpu_affinity p) (time_slice p) (total_runtime p) (last_scheduled p) (wait_reason p).
Definition with_prio (c : PriorityClass) (slice : Z) (p : Process) : Process :=
  mkProcess (pid p) (uid p) (state p) (registers p) (page_table p) (kernel_stack p) (user_stack p)
    (is_user_process p) (p_heap_start p) (p_heap_end p) (mmap_base p) c (intent p)
    (reality_id p) (cpu_affinity p) slice (total_runtime p) (last_scheduled p) (wait_reason p).
Definition with_intent (i : ProcessIntent) (p : Process) : Process :=
  mkProcess (pid p) (uid p) (state p) (registers p) (page_table p) (kernel_stack p) (user_stack p)
    (is_user_process p) (p_heap_start p) (p_heap_end p) (mmap_base p) (priority p) i
    (reality_id p) (cpu_affinity p) (time_slice p) (total_runtime p) (last_scheduled p) (wait_reason p).
Definition with_wait (s : ProcessState) (w : Z) (p : Process) : Process :=
  mkProcess (pid p) (uid p) s (registers p) (page_table p) (kernel_stack p) (user_stack p)
    (is_user_process p) (p_heap_start p) (p_heap_end p) (mmap_base p) (priority p) (intent p)
    (reality_id p) (cpu_affinity p) (time_slice p) (total_runtime p) (last_scheduled p) w.

Definition time_slice_for_priority (c : PriorityClass) : Z :=
  match c with RealTime => 20 | Interactive => 5 | Normal => 10 | Background => 15 | Dream => 50 end.

Definition with_priority (p : Z) (c : PriorityClass) : Process :=
  with_prio c (time_slice_for_priority c) (Process_new p).

Definition set_intent (i : ProcessIntent) (p : Process) : Process :=
  let p := with_intent i p in
  match i with
  | Graphics | InteractiveIntent =>
      if (prio_idx Interactive <? prio_idx (priority p))%nat
      then with_prio Interactive (time_slice p) p else p
  | _ => p
  end.

(** ** The process table *)

Definition MAX_PROCESSES : nat := 256.

Record ProcessTable : Type := mkTable { processes : list (option Process); count : Z }.

Definition ProcessTable_new : ProcessTable := mkTable (replicate MAX_PROCESSES None) 0.

(** The loop of [add]: the first empty slot takes the process. *)
Fixpoint add_slot (p : Process) (l : list (option Process)) : option (list (option Process)) :=
  match l with
  | [] => None
  | None :: r => Some (Some p :: r)
  | Some q :: r => cons (Some q) <$> add_slot p r
  end.

Inductive TableError : Type := ProcessTableFull.

Definition add (p : Process) (t : ProcessTable) : Result unit TableError * ProcessTable :=
  match add_slot p (processes t) with
  | Some l => (Ok tt, mkTable l (count t +[64] 1))
  | None => (Err ProcessTableFull, t)
  end.

Fixpoint remove_slot (q : Z) (l : list (option Process)) : option (Process * list (option Process)) :=
  match l with
  | [] => None
  | Some p :: r =>
      if pid p =? q then Some (p, None :: r)
      else match remove_slot q r with Some (x, r') => Some (x, Some p :: r') | None => None end
  | None :: r =>
      match remove_slot q r with Some (x, r') => Some (x, None :: r') | None => None end
  end.

Definition remove (q : Z) (t : ProcessTable) : option Process * ProcessTable :=
  match remove_slot q (processes t) with
  | Some (p, l) => (Some p, mkTable l (sat_sub (count t) 1))
  | None => (None, t)
  end.

Fixpoint find_pid (q : Z) (l : list (option Process)) : option Process :=
  match l with
  | [] => None
  | Some p :: r => if pid p =? q then Some p else find_pid q r
  | None :: r => find_pid q r
  end.

Definition get (q : Z) (t : ProcessTable) : option Process := find_pid q (processes t).

(** An assignment through [table.get_mut(q)], when it is [Some]. *)
Fixpoint update_pid (q : Z) (f : Process -> Process) (l : list (option Process)) : list (option Process) :=
  match l with
  | [] => []
  | Some p :: r => if pid p =? q then Some (f p) :: r else Some p :: update_pid q f r
  | None :: r => None :: update_pid q f r
  end.

Definition update (q : Z) (f : Process -> Process) (t : ProcessTable) : ProcessTable :=
  mkTable (update_pid q f (processes t)) (count t).

(** [iter]: the processes in slot order. *)
Definition entries (t : ProcessTable) : list Process := omap id (processes t).

(** ** Specification: a finite map *)

Definition slots_map (l : list (option Process)) : gmap Z Process :=
  list_to_map ((fun p => (pid p, p)) <$> omap id l).
Definition as_map (t : ProcessTable) : gmap Z Process := slots_map (processes t).

Definition pids (l : list (option Process)) : list Z := pid <$> omap id l.

Record table_ok (t : ProcessTable) : Prop := mk_table_ok {
  table_len : length (processes t) = MAX_PROCESSES;
  table_nodup : NoDup (pids (processes t));
  table_count : count t = Z.of_nat (length (entries t));
}.

Lemma find_pid_spec q l : find_pid q l = slots_map l !! q.
Proof.
  unfold slots_map. induction l as [|[p|] l IH]; cbn [find_pid]; [done| |exact IH].
  change (omap id (Some p :: l)) with (p :: omap id l). cbn [fmap list_fmap list_to_map foldr].
  rewrite lookup_insert, IH. destruct (Z.eqb_spec (pid p) q); destruct (decide _); done.
Qed.

Lemma slots_map_dom q l : slots_map l !! q = None <-> q ∉ pids l.
Proof.
  unfold slots_map, pids. rewrite <- not_elem_of_list_to_map.
  by rewrite <- list_fmap_compose.
Qed.

Lemma slots_cons p l : slots_map (Some p :: l) = <[pid p := p]> (slots_map l).
Proof. done. Qed.
Lemma slots_none l : slots_map (None :: l) = slots_map l.
Proof. done. Qed.

Lemma add_slot_spec p l : pid p ∉ pids l ->
  match add_slot p l with
  | Some l' => slots_map l' = <[pid p := p]> (slots_map l) /\ length l' = length l /\
      Permutation (omap id l') (p :: omap id l)
  | None => length (omap id l) = length l
  end.
Proof.
  induction l as [|[q|] l IH]; intros Hn; cbn [add_slot]; [done| |by repeat split].
  assert (pid p <> pid q /\ pid p ∉ pids l) as [Hne Hn'].
  { unfold pids in Hn. change (omap id (Some q :: l)) with (q :: omap id l) in Hn.
    cbn [fmap list_fmap] in Hn. by apply not_elem_of_cons in Hn. }
  specialize (IH Hn'). destruct (add_slot p l) as [l'|]; cbn [fmap option_fmap option_map].
  - destruct IH as (H1 & H2 & H3). split; [|split].
    + rewrite !slots_cons, H1. by apply insert_insert_ne.
    + cbn. by rewrite H2.
    + change (Permutation (q :: omap id l') (p :: q :: omap id l)). rewrite H3. apply Permutation_swap.
  - change (omap id (Some q :: l)) with (q :: omap id l). cbn [length]. by rewrite IH.
Qed.

Lemma remove_slot_spec q l : NoDup (pids l) ->
  match remove_slot q l with
  | Some (p, l') => slots_map l !! q = Some p /\ slots_map l' = delete q (slots_map l) /\
      length l' = length l /\ Permutation (omap id l) (p :: omap id l')
  | None => slots_map l !! q = None
  end.
Proof.
  induction l as [|[p|] l IH]; intros Hnd; cbn [remove_slot]; [done| |].
  - change (pids (Some p :: l)) with (pid p :: pids l) in Hnd. apply NoDup_cons in Hnd as [Hp Hnd].
    destruct (Z.eqb_spec (pid p) q) as [<-|Hne].
    + rewrite slots_cons, slots_none, lookup_insert_eq, delete_insert_id by (by apply slots_map_dom).
      by repeat split.
    + specialize (IH Hnd). destruct (remove_slot q l) as [[x r']|].
      * destruct IH as (H1 & H2 & H3 & H4). rewrite !slots_cons, H2, lookup_insert_ne by done.
        split; [done|]. split; [by rewrite delete_insert_ne|]. split; [cbn; by rewrite H3|].
        change (Permutation (p :: omap id l) (x :: p :: omap id r')). rewrite H4. apply Permutation_swap.
      * by rewrite slots_cons, lookup_insert_ne.
  - specialize (IH Hnd). rewrite slots_none. destruct (remove_slot q l) as [[x r']|]; [|done].
    destruct IH as (H1 & H2 & H3 & H4). rewrite slots_none. repeat split; [done|done|cbn; by rewrite H3|done].
Qed.

Lemma update_pid_spec q f l : (forall p, pid (f p) = pid p) -> NoDup (pids l) ->
  slots_map (update_pid q f l) = alter f q (slots_map l) /\
  length (update_pid q f l) = length l /\ pids (update_pid q f l) = pids l.
Proof.
  intros Hf. induction l as [|[p|] l IH]; intros Hnd; cbn [update_pid].
  - split; [|done]. unfold slots_map. simpl. symmetry. apply alter_id', lookup_empty.
  - change (pids (Some p :: l)) with (pid p :: pids l) in *. apply NoDup_cons in Hnd as [Hp Hnd].
    destruct (Z.eqb_spec (pid p) q) as [<-|Hne].
    + rewrite !slots_cons. split; [|split; [done|]].
      * rewrite alter_insert_eq. by rewrite Hf.
      * change (pid (f p) :: pids l = pid p :: pids l). by rewrite Hf.
    + destruct (IH Hnd) as (H1 & H2 & H3). rewrite !slots_cons, H1. split; [|split].
      * by rewrite alter_insert_ne.
      * cbn. by rewrite H2.
      * change (pid p :: pids (update_pid q f l) = pid p :: pids l). by rewrite H3.
  - rewrite !slots_none. destruct (IH Hnd) as (H1 & H2 & H3). split; [done|]. split; [cbn; by rewrite H2|exact H3].
Qed.

Lemma pids_perm l l' : Permutation (omap id l) (omap id l') -> Permutation (pids l) (pids l').
Proof. intros H. unfold pids. by rewrite H. Qed.

Lemma get_spec q t : get q t = as_map t !! q.
Proof. apply find_pid_spec. Qed.

Lemma update_ok q f t : (forall p, pid (f p) = pid p) -> table_ok t ->
  table_ok (update q f t) /\ as_map (update q f t) = alter f q (as_map t).
Proof.
  intros Hf [Hl Hnd Hc]. destruct (update_pid_spec q f (processes t) Hf Hnd) as (H1 & H2 & H3).
  split; [|exact H1]. constructor; cbn [update processes count].
  - by rewrite H2.
  - by rewrite H3.
  - rewrite Hc. unfold entries, update. cbn [processes]. unfold pids in H3.
    by rewrite <- (length_fmap pid (omap id (update_pid q f _))), <- (length_fmap pid (omap id (processes t))), <- H3.
Qed.

Lemma occupied_le (l : list (option Process)) : (length (omap id l) <= length l)%nat.
Proof. induction l as [|[x|] l IH]; cbn in *; lia. Qed.

Lemma occupied_lt p l l' : add_slot p l = Some l' -> (length (omap id l) < length l)%nat.
Proof.
  revert l'. induction l as [|[q|] l IH]; intros l'; cbn [add_slot]; [done| |].
  - destruct (add_slot p l) as [r|]; [|done]. intros _. specialize (IH _ eq_refl). cbn in *. lia.
  - intros _. pose proof (occupied_le l). cbn in *. lia.
Qed.

Lemma table_add p t : table_ok t -> as_map t !! pid p = None ->
  let (r, t') := add p t in
  (is_ok r = true -> as_map t' = <[pid p := p]> (as_map t) /\ table_ok t' /\ count t < 256) /\
  (is_ok r = false -> t' = t /\ count t = 256).
Proof.
  intros [Hl Hnd Hc] Hfresh. unfold add. apply slots_map_dom in Hfresh.
  pose proof (add_slot_spec p (processes t) Hfresh) as Hs.
  destruct (add_slot p (processes t)) as [l|] eqn:Ea.
  - destruct Hs as (H1 & H2 & H3). pose proof (occupied_lt _ _ _ Ea) as Hlt.
    rewrite Hl in Hlt. change MAX_PROCESSES with 256%nat in Hlt.
    split; [|done]. intros _. split; [exact H1|]. unfold entries in Hc. split; [|lia].
    constructor; cbn [processes count].
    + congruence.
    + apply (NoDup_Permutation_proper _ _ (fmap_Permutation pid _ _ H3)). cbn. by constructor.
    + unfold entries. cbn [processes]. rewrite H3, Hc. cbn [length].
      rewrite wrap_small by (unfold in_width; lia). lia.
  - split; [done|]. intros _. split; [done|]. unfold entries in Hc. rewrite Hc, Hs, Hl. done.
Qed.

Lemma table_remove q t : table_ok t ->
  let (r, t') := remove q t in
  r = as_map t !! q /\ as_map t' = delete q (as_map t) /\ table_ok t'.
Proof.
  intros [Hl Hnd Hc]. unfold remove. pose proof (remove_slot_spec q (processes t) Hnd) as Hs.
  destruct (remove_slot q (processes t)) as [[p l]|].
  - destruct Hs as (H1 & H2 & H3 & H4). split; [by rewrite <- H1|]. split; [exact H2|].
    constructor; cbn [processes count].
    + congruence.
    + assert (NoDup (pids (Some p :: l))) as Hn
        by (apply (NoDup_Permutation_proper _ _ (fmap_Permutation pid _ _ H4)); exact Hnd).
      change (pids (Some p :: l)) with (pid p :: pids l) in Hn. by apply NoDup_cons in Hn as [_ Hn].
    + unfold entries in *. cbn [processes]. rewrite Hc, H4. unfold sat_sub. cbn [length]. lia.
  - split; [by rewrite <- Hs|]. split; [|by constructor]. symmetry. apply delete_id. exact Hs.
Qed.

Lemma table_new_ok : table_ok ProcessTable_new /\ as_map ProcessTable_new = ∅.
Proof.
  assert (omap id (replicate MAX_PROCESSES (None : option Process)) = []) as He by reflexivity.
  split; [constructor|].
  - reflexivity.
  - unfold pids. cbn [processes ProcessTable_new]. rewrite He. constructor.
  - unfold entries. cbn [processes count ProcessTable_new]. by rewrite He.
  - unfold as_map, slots_map. cbn [processes ProcessTable_new]. by rewrite He.
Qed.

(** C14: The process table implements a finite map of at most 256 processes.
    A process with a fresh identifier is added unless all slots are taken, and
    then nothing changes; removal returns the entry and deletes it; lookup reads
    the map; updates through [get_mut] change that one entry; and the slot
    invariant (unique identifiers, exact count) is kept throughout. *)
Theorem process_table_refines_map t p q f : table_ok t -> as_map t !! pid p = None ->
  (forall x, pid (f x) = pid x) ->
  (let (r, t') := add p t in
   (is_ok r = true -> as_map t' = <[pid p := p]> (as_map t) /\ table_ok t' /\ count t < 256) /\
   (is_ok r = false -> t' = t /\ count t = 256)) /\
  (let (r, t') := remove q t in
   r = as_map t !! q /\ as_map t' = delete q (as_map t) /\ table_ok t') /\
  get q t = as_map t !! q /\
  (table_ok (update q f t) /\ as_map (update q f t) = alter f q (as_map t)).
Proof.
  intros Hok Hp Hf. split; [by apply table_add|]. split; [by apply table_remove|].
  split; [apply get_spec|by apply update_ok].
Qed.

Lemma process_table_refines_map_witness :
  let t := ProcessTable_new in let p := Process_new 7 in
  let (r, t') := add p t in
   (is_ok r = true -> as_map t' = <[pid p := p]> (as_map t) /\ table_ok t' /\ count t < 256) /\
   (is_ok r = false -> t' = t /\ count t = 256).
Proof.
  apply (process_table_refines_map ProcessTable_new (Process_new 7) 7 (with_state Zombie)).
  - exact (proj1 table_new_ok).
  - rewrite (proj2 table_new_ok). reflexivity.
  - reflexivity.
Defined.
