(* ===== verification/Scheduler.v ===== *)
(** * AstralScheduler ([kernel/src/process/scheduler.rs], [exit_process])

    Per-CPU run queues with one FIFO per priority class and a bitmap of the
    non-empty ones.  The globals of the module (the array of CPU schedulers, the
    idle flag and counters) and of [process/mod.rs] (the process table and the
    current pid) form one state; the CPU an operation runs on is an argument. *)

From Stdlib Require Import ZArith Lia Bool.
From stdpp Require Import base numbers option list gmap sets.
From S2P Require Import Prelude.
From S2P Require Import Process.

Create HintDb sched.

(** ** One run queue *)

Definition NUM_PRIORITIES : nat := 5.

Record PriorityQueue : Type := mkQueue { queue : list Z; active : bool }.

Definition PriorityQueue_new : PriorityQueue := mkQueue [] false.

Definition q_push (p : Z) (q : PriorityQueue) : PriorityQueue :=
  if bool_decide (p ∈ queue q) then q else mkQueue (queue q ++ [p]) true.

Definition q_is_empty (q : PriorityQueue) : bool :=
  match queue q with [] => true | _ => false end.

Definition q_pop (q : PriorityQueue) : option Z * PriorityQueue :=
  let rest := tail (queue q) in
  (head (queue q), mkQueue rest (match rest with [] => false | _ => active q end)).

Definition q_remove (p : Z) (q : PriorityQueue) : PriorityQueue :=
  let rest := filter (fun x => x <> p) (queue q) in
  mkQueue rest (match rest with [] => false | _ => active q end).

Definition q_len (q : PriorityQueue) : nat := length (queue q).

(** ** One CPU *)

Record CpuScheduler : Type := mkCpu {
  queues : list PriorityQueue;
  active_bitmap : Z;
  current : option Z;
  cpu_time_slice : Z;
  context_switches : Z;
  idle_ticks : Z;
}.

Definition CpuScheduler_new : CpuScheduler :=
  mkCpu (replicate NUM_PRIORITIES PriorityQueue_new) 0 None 0 0 0.

Definition set_queues (qs : list PriorityQueue) (b : Z) (s : CpuScheduler) : CpuScheduler :=
  mkCpu qs b (current s) (cpu_time_slice s) (context_switches s) (idle_ticks s).

Definition the_queue (i : nat) (s : CpuScheduler) : PriorityQueue :=
  default PriorityQueue_new (queues s !! i).

Definition enqueue (p : Z) (prio : PriorityClass) (s : CpuScheduler) : CpuScheduler :=
  let idx := prio_idx prio in
  set_queues (alter (q_push p) idx (queues s)) (Z.lor (active_bitmap s) (mask (Z.of_nat idx))) s.

(** Clear the bit of queue [i] if it is empty, [active_bitmap &= !(1 << i)]. *)
Definition clear_if_empty (i : nat) (s : CpuScheduler) : CpuScheduler :=
  if q_is_empty (the_queue i s)
  then set_queues (queues s) (Z.land (active_bitmap s) (wnot 8 (mask (Z.of_nat i)))) s
  else s.

(** The loop body of [dequeue], and the loop. *)
Definition dequeue_at (p : Z) (s : CpuScheduler) (i : nat) : CpuScheduler :=
  clear_if_empty i (set_queues (alter (q_remove p) i (queues s)) (active_bitmap s) s).
Definition dequeue (p : Z) (s : CpuScheduler) : CpuScheduler :=
  foldl (dequeue_at p) s (seq 0 NUM_PRIORITIES).

(** [trailing_zeros] of a [u8]; 8 for zero. *)
Definition trailing_zeros8 (b : Z) : nat :=
  match list_find (fun i => Z.testbit b (Z.of_nat i) = true) (seq 0 8) with
  | Some (i, _) => i
  | None => 8
  end.

Definition pick_next (system_idle : bool) (s : CpuScheduler) : option Z * CpuScheduler :=
  if active_bitmap s =? 0 then (None, s) else
  let highest := trailing_zeros8 (active_bitmap s) in
  if (NUM_PRIORITIES <=? highest)%nat then (None, s) else
  if (highest =? prio_idx Dream)%nat && negb system_idle then (None, s) else
  let s' := set_queues (alter (fun q => (q_pop q).2) highest (queues s)) (active_bitmap s) s in
  match (q_pop (the_queue highest s)).1 with
  | Some p => (Some p, clear_if_empty highest s')
  | None => (None, s')
  end.

Definition total_load (s : CpuScheduler) : nat := sum_list (q_len <$> queues s).

(** ** The machine *)

Definition MAX_CPUS : nat := 256.

Record Kernel : Type := mkKernel {
  cpus : list CpuScheduler;
  cpu_count : nat;
  table : ProcessTable;
  current_pid : Z;               (* [CURRENT_PID], 0 for none *)
  system_idle : bool;
  global_idle_ticks : Z;
  total_context_switches : Z;
}.

Definition cpu_at (c : nat) (k : Kernel) : CpuScheduler := default CpuScheduler_new (cpus k !! c).

Definition set_cpu (c : nat) (s : CpuScheduler) (k : Kernel) : Kernel :=
  mkKernel (<[c := s]> (cpus k)) (cpu_count k) (table k) (current_pid k) (system_idle k)
    (global_idle_ticks k) (total_context_switches k).
Definition set_table (t : ProcessTable) (k : Kernel) : Kernel :=
  mkKernel (cpus k) (cpu_count k) t (current_pid k) (system_idle k) (global_idle_ticks k)
    (total_context_switches k).
Definition set_globals (idle : bool) (ticks switches : Z) (k : Kernel) : Kernel :=
  mkKernel (cpus k) (cpu_count k) (table k) (current_pid k) idle ticks switches.

Definition USIZE_MAX : Z := 2 ^ 64 - 1.

(** The least loaded CPU among [cs], the first one on a tie and 0 when there is none. *)
Definition min_step (k : Kernel) (acc : Z * nat) (c : nat) : Z * nat :=
  let load := Z.of_nat (total_load (cpu_at c k)) in
  if load <? acc.1 then (load, c) else acc.
Definition least_loaded (cs : list nat) (k : Kernel) : nat := (foldl (min_step k) (USIZE_MAX, 0%nat) cs).2.

Definition affinity_target (affinity : Z) (n : nat) (dflt : nat) : nat :=
  if affinity =? 0 then dflt else
  match list_find (fun c => Z.land affinity (mask (Z.of_nat c mod 64)) <> 0) (seq 0 n) with
  | Some (_, c) => c
  | None => dflt
  end.

Definition add_to_scheduler_with_priority (p : Z) (prio : PriorityClass) (k : Kernel) : Kernel :=
  let least := least_loaded (seq 0 (cpu_count k)) k in
  let target :=
    match get p (table k) with
    | Some proc => affinity_target (cpu_affinity proc) (cpu_count k) least
    | None => least
    end in
  set_cpu target (enqueue p prio (cpu_at target k)) k.

Definition add_to_scheduler (p : Z) (k : Kernel) : Kernel := add_to_scheduler_with_priority p Normal k.

Definition remove_from_scheduler (p : Z) (k : Kernel) : Kernel :=
  foldl (fun k c => set_cpu c (dequeue p (cpu_at c k)) k) k (seq 0 (cpu_count k)).

(** [schedule], called on a timer tick on CPU [c]. *)
Definition set_slice (n : Z) (s : CpuScheduler) : CpuScheduler :=
  mkCpu (queues s) (active_bitmap s) (current s) n (context_switches s) (idle_ticks s).

Definition still_running (s : CpuScheduler) (k : Kernel) : option Z :=
  match current s with
  | Some p =>
      match get p (table k) with
      | Some proc => if bool_decide (state proc = Running) then Some p else None
      | None => None
      end
  | None => None
  end.

Definition requeue_current (s : CpuScheduler) (k : Kernel) : CpuScheduler :=
  match current s with
  | Some p =>
      match get p (table k) with
      | Some proc =>
          if bool_decide (state proc = Running) || bool_decide (state proc = Ready)
          then enqueue p (priority proc) s else s
      | None => s
      end
  | None => s
  end.

Definition schedule (c : nat) (k : Kernel) : option Z * Kernel :=
  let s := cpu_at c k in
  let s1 := if cpu_time_slice s >? 0 then set_slice (cpu_time_slice s - 1) s else s in
  match (if (cpu_time_slice s >? 0) && (cpu_time_slice s1 >? 0) then still_running s1 k else None) with
  | Some p => (Some p, set_cpu c s1 k)
  | None =>
      let s2 := requeue_current s1 k in
      let '(next, s3) := pick_next (system_idle k) s2 in
      let idle :=
        let s4 := mkCpu (queues s3) (active_bitmap s3) None (cpu_time_slice s3) (context_switches s3)
                    (idle_ticks s3 +[64] 1) in
        (None, set_globals (if global_idle_ticks k >? 100 then true else system_idle k)
                 (global_idle_ticks k +[64] 1) (total_context_switches k) (set_cpu c s4 k)) in
      match next with
      | Some p =>
          match get p (table k) with
          | Some proc =>
              let s4 := mkCpu (queues s3) (active_bitmap s3) (Some p) (time_slice proc)
                          (context_switches s3 +[64] 1) (idle_ticks s3) in
              (Some p, set_globals false 0 (total_context_switches k +[64] 1) (set_cpu c s4 k))
          | None => idle
          end
      | None => idle
      end
  end.

Definition get_current_pid (k : Kernel) : option Z :=
  if current_pid k =? 0 then None else Some (current_pid k).

Definition yield_cpu (c : nat) (k : Kernel) : Kernel :=
  match get_current_pid k with
  | Some p =>
      let s := set_slice 0 (cpu_at c k) in
      set_cpu c (match get p (table k) with Some proc => enqueue p (priority proc) s | None => s end) k
  | None => k
  end.

Definition set_priority (p : Z) (prio : PriorityClass) (k : Kernel) : Kernel :=
  let k1 := remove_from_scheduler p k in
  let k2 := set_table (update p (with_prio prio (time_slice_for_priority prio)) (table k1)) k1 in
  add_to_scheduler_with_priority p prio k2.

Definition sched_set_intent (p : Z) (i : ProcessIntent) (k : Kernel) : Kernel :=
  set_table (update p (set_intent i) (table k)) k.

Definition exit_process (c : nat) (k : Kernel) : Kernel :=
  match get_current_pid k with
  | Some p =>
      let k1 :=
        match get p (table k) with
        | Some _ => remove_from_scheduler p (set_table (update p (with_state Zombie) (table k)) k)
        | None => k
        end in
      yield_cpu c k1
  | None => k
  end.

(** [balance_load].  The inner [while] pops a process, finds the least loaded
    other CPU and enqueues it there; [load] is the value read before the loop.
    [None] is out of fuel. *)
Definition migrate (c i : nat) (p : Z) (k : Kernel) : Kernel :=
  let target := least_loaded (filter (fun x => x <> c) (seq 0 (cpu_count k))) k in
  set_cpu target
    (enqueue p (default Normal (PriorityClass_try_from (Z.of_nat i))) (cpu_at target k)) k.

Fixpoint steal (fuel : nat) (c i load avg : nat) (k : Kernel) : option Kernel :=
  let s := cpu_at c k in
  if (0 <? q_len (the_queue i s))%nat && (avg <? load)%nat then
    match fuel with
    | O => None
    | S fuel' =>
        match q_pop (the_queue i s) with
        | (Some p, _) =>
            let s' := clear_if_empty i (set_queues (alter (fun q => (q_pop q).2) i (queues s)) (active_bitmap s) s) in
            steal fuel' c i load avg (migrate c i p (set_cpu c s' k))
        | (None, _) => steal fuel' c i load avg k
        end
    end
  else Some k.

Fixpoint steal_queues (c load avg : nat) (idxs : list nat) (k : Kernel) : option Kernel :=
  match idxs with
  | [] => Some k
  | i :: r =>
      match steal (q_len (the_queue i (cpu_at c k))) c i load avg k with
      | Some k' => steal_queues c load avg r k'
      | None => None
      end
  end.

Fixpoint balance_cpus (avg : nat) (cs : list nat) (k : Kernel) : option Kernel :=
  match cs with
  | [] => Some k
  | c :: r =>
      let load := total_load (cpu_at c k) in
      match (if (avg + 1 <? load)%nat then steal_queues c load avg (reverse (seq 0 NUM_PRIORITIES)) k
             else Some k) with
      | Some k' => balance_cpus avg r k'
      | None => None
      end
  end.

Definition balance_load (k : Kernel) : option Kernel :=
  let n := cpu_count k in
  if (n <=? 1)%nat then Some k else
  let total := sum_list ((fun c => total_load (cpu_at c k)) <$> seq 0 n) in
  if (total =? 0)%nat then Some k else balance_cpus (total / n)%nat (seq 0 n) k.

(** ** Statistics *)

Definition get_cpu_stats (c : nat) (k : Kernel) : nat * Z * Z :=
  let s := cpu_at c k in (total_load s, context_switches s, idle_ticks s).

Record SchedulerStats : Type := mkStats {
  st_processes : nat; st_switches : Z; st_idle_ticks : Z; st_is_idle : bool }.

Definition stats_step (k : Kernel) (acc : SchedulerStats) (c : nat) : SchedulerStats :=
  let s := cpu_at c k in
  mkStats (st_processes acc + total_load s) (st_switches acc +[64] context_switches s)
    (st_idle_ticks acc +[64] idle_ticks s) (st_is_idle acc).
Definition get_global_stats (k : Kernel) : SchedulerStats :=
  foldl (stats_step k) (mkStats 0 0 0 (system_idle k)) (seq 0 (cpu_count k)).

Definition is_dream_mode (k : Kernel) : bool := system_idle k.

(** ** The run-queue invariant *)

Definition queue_ok (q : PriorityQueue) : Prop :=
  NoDup (queue q) /\ active q = negb (q_is_empty q).

Record cpu_ok (s : CpuScheduler) : Prop := mk_cpu_ok {
  cpu_len : length (queues s) = NUM_PRIORITIES;
  cpu_queues : Forall queue_ok (queues s);
  cpu_bitmap_width : in_width 5 (active_bitmap s);
  cpu_bitmap : forall i, (i < NUM_PRIORITIES)%nat ->
    Z.testbit (active_bitmap s) (Z.of_nat i) = negb (q_is_empty (the_queue i s));
}.

Definition in_queue (s : CpuScheduler) (i : nat) (p : Z) : Prop := p ∈ queue (the_queue i s).

Lemma the_queue_some s i : cpu_ok s -> (i < NUM_PRIORITIES)%nat ->
  queues s !! i = Some (the_queue i s) /\ queue_ok (the_queue i s).
Proof.
  intros Hok Hi. unfold the_queue. rewrite <- (cpu_len _ Hok) in Hi.
  apply lookup_lt_is_Some in Hi as [q Hq]. rewrite Hq. split; [done|].
  by apply (Forall_lookup_1 _ _ _ _ (cpu_queues _ Hok) Hq).
Qed.

Lemma the_queue_alter s i f b j : cpu_ok s -> (i < NUM_PRIORITIES)%nat ->
  the_queue j (set_queues (alter f i (queues s)) b s) =
    if decide (j = i) then f (the_queue i s) else the_queue j s.
Proof.
  intros Hok Hi. destruct (the_queue_some s i Hok Hi) as [Hq _].
  unfold the_queue at 1. cbn [set_queues queues]. destruct (decide (j = i)) as [->|Hne].
  - by rewrite list_lookup_alter_eq, Hq.
  - by rewrite list_lookup_alter_ne.
Qed.

(** Replacing queue [i] and setting its bit to "non-empty". *)
Lemma put_ok s i f b : cpu_ok s -> (i < NUM_PRIORITIES)%nat -> queue_ok (f (the_queue i s)) ->
  in_width 5 b ->
  (forall j, (j < NUM_PRIORITIES)%nat -> Z.testbit b (Z.of_nat j) =
     if decide (j = i) then negb (q_is_empty (f (the_queue i s))) else Z.testbit (active_bitmap s) (Z.of_nat j)) ->
  cpu_ok (set_queues (alter f i (queues s)) b s).
Proof.
  intros Hok Hi Hf Hw Hb. pose proof Hok as [Hlen Hqs Hw' Hbm]. constructor; cbn [set_queues queues active_bitmap].
  - by rewrite length_alter.
  - apply Forall_lookup. intros j q Hj. destruct (decide (j = i)) as [->|Hne].
    + rewrite list_lookup_alter_eq in Hj. destruct (the_queue_some s i Hok Hi) as [Hq _].
      rewrite Hq in Hj. simpl in Hj. by simplify_eq.
    + rewrite list_lookup_alter_ne in Hj by done. by apply (Forall_lookup_1 _ _ _ _ Hqs Hj).
  - done.
  - intros j Hj. rewrite Hb, the_queue_alter by done. destruct (decide (j = i)); [done|by apply Hbm].
Qed.

Lemma q_push_ok p q : queue_ok q -> queue_ok (q_push p q) /\ q_is_empty (q_push p q) = false /\
  (forall x, x ∈ queue (q_push p q) <-> x ∈ queue q \/ x = p).
Proof.
  intros [Hnd Ha]. unfold q_push. case_bool_decide as Hin.
  - split; [done|]. split; [unfold q_is_empty; by destruct (queue q); [apply not_elem_of_nil in Hin|]|].
    intros x. split; [by left|]. by intros [?| ->].
  - split; [split; cbn [queue active]|split; cbn [queue]].
    + apply NoDup_app. split; [done|]. split; [|apply NoDup_singleton].
      by intros x Hx ->%list_elem_of_singleton.
    + unfold q_is_empty. cbn [queue]. by destruct (queue q).
    + unfold q_is_empty. cbn [queue]. by destruct (queue q).
    + intros x. by rewrite elem_of_app, list_elem_of_singleton.
Qed.

Lemma q_pop_ok q : queue_ok q -> queue_ok (q_pop q).2.
Proof.
  intros [Hnd Ha]. unfold q_pop, queue_ok, q_is_empty in *. cbn [snd queue active].
  destruct (queue q) as [|x l]; [done|]. cbn [tail]. apply NoDup_cons in Hnd as [_ Hnd].
  split; [done|]. destruct l; [done|]. by rewrite Ha.
Qed.

Lemma q_remove_ok p q : queue_ok q -> queue_ok (q_remove p q) /\
  (forall x, x ∈ queue (q_remove p q) <-> x ∈ queue q /\ x <> p).
Proof.
  intros [Hnd Ha]. unfold q_remove. split; [split|]; cbn [queue active].
  - by apply NoDup_filter.
  - unfold q_is_empty. cbn [queue]. destruct (filter _ (queue q)) as [|y l] eqn:E; [done|].
    rewrite Ha. unfold q_is_empty. destruct (queue q); [done|done].
  - intros x. rewrite list_elem_of_filter. tauto.
Qed.

Lemma in_width_bit8 b : in_width 5 b -> in_width 8 b.
Proof. unfold in_width. lia. Qed.

Lemma enqueue_ok p prio s : cpu_ok s -> cpu_ok (enqueue p prio s) /\
  (forall j x, in_queue (enqueue p prio s) j x <-> in_queue s j x \/ (j = prio_idx prio /\ x = p)).
Proof.
  intros Hok. assert (prio_idx prio < NUM_PRIORITIES)%nat as Hi by (destruct prio; cbn; unfold NUM_PRIORITIES; lia).
  destruct (the_queue_some s _ Hok Hi) as [_ Hq]. destruct (q_push_ok p _ Hq) as (Hq' & He & Hx).
  split.
  - apply put_ok; [done|done|done| |].
    + apply lor_mask_in_width; [unfold NUM_PRIORITIES in Hi; lia|apply Hok].
    + intros j Hj. rewrite lor_mask_spec, He by lia.
      destruct (decide (j = _)) as [->|Hne]; [by rewrite Z.eqb_refl|].
      destruct (Z.eqb_spec (Z.of_nat j) (Z.of_nat (prio_idx prio))); [lia|done].
  - intros j x. unfold in_queue, enqueue. rewrite the_queue_alter by done.
    destruct (decide (j = _)) as [->|Hne]; [rewrite Hx; naive_solver|naive_solver].
Qed.

Lemma clear_pop_ok f i s : cpu_ok s -> (i < NUM_PRIORITIES)%nat -> queue_ok (f (the_queue i s)) ->
  (q_is_empty (the_queue i s) = true -> q_is_empty (f (the_queue i s)) = true) ->
  let s' := clear_if_empty i (set_queues (alter f i (queues s)) (active_bitmap s) s) in
  cpu_ok s' /\ (forall j, the_queue j s' = if decide (j = i) then f (the_queue i s) else the_queue j s).
Proof.
  intros Hok Hi Hq He. unfold clear_if_empty. rewrite (the_queue_alter s i f _ i) by done.
  rewrite decide_True by done. destruct (q_is_empty (f (the_queue i s))) eqn:Ef.
  - cbn zeta.
    change (set_queues (queues (set_queues (alter f i (queues s)) (active_bitmap s) s))
      (Z.land (active_bitmap (set_queues (alter f i (queues s)) (active_bitmap s) s)) (wnot 8 (mask (Z.of_nat i))))
      (set_queues (alter f i (queues s)) (active_bitmap s) s))
      with (set_queues (alter f i (queues s)) (Z.land (active_bitmap s) (wnot 8 (mask (Z.of_nat i)))) s).
    split.
    + apply put_ok; [done..| |].
      * apply land_in_width; [done|apply Hok].
      * intros j Hj.
        rewrite (land_wnot_mask_spec 8) by (try lia; apply in_width_bit8, Hok). rewrite Ef.
        destruct (decide (j = i)) as [->|Hne]; [by rewrite Z.eqb_refl|].
        destruct (Z.eqb_spec (Z.of_nat j) (Z.of_nat i)); [lia|done].
    + intros j. by apply (the_queue_alter s i f).
  - split; [|intros j; by apply (the_queue_alter s i f)].
    apply put_ok; [done..|apply Hok|]. intros j Hj. rewrite Ef. destruct (decide (j = i)) as [->|]; [|done].
    rewrite (cpu_bitmap _ Hok) by done. destruct (q_is_empty (the_queue i s)); [by specialize (He eq_refl)|done].
Qed.

Lemma dequeue_at_ok p s i : cpu_ok s -> (i < NUM_PRIORITIES)%nat -> cpu_ok (dequeue_at p s i) /\
  (forall j x, in_queue (dequeue_at p s i) j x <-> in_queue s j x /\ ~ (j = i /\ x = p)).
Proof.
  intros Hok Hi. destruct (the_queue_some s _ Hok Hi) as [_ Hq]. destruct (q_remove_ok p _ Hq) as [Hq' Hx].
  destruct (clear_pop_ok (q_remove p) i s Hok Hi Hq') as [Hok' Ht].
  { unfold q_is_empty, q_remove. cbn [queue]. by destruct (queue (the_queue i s)). }
  split; [done|]. intros j x. unfold in_queue, dequeue_at. rewrite Ht.
  destruct (decide (j = i)) as [->|]; [rewrite Hx; naive_solver|naive_solver].
Qed.

Lemma dequeue_ok p s : cpu_ok s -> cpu_ok (dequeue p s) /\
  (forall j x, (j < NUM_PRIORITIES)%nat -> in_queue (dequeue p s) j x <-> in_queue s j x /\ x <> p).
Proof.
  intros Hok. unfold dequeue.
  assert (forall l s, Forall (fun i => (i < NUM_PRIORITIES)%nat) l -> cpu_ok s ->
    cpu_ok (foldl (dequeue_at p) s l) /\ (forall j x, in_queue (foldl (dequeue_at p) s l) j x <->
      in_queue s j x /\ ~ (j ∈ l /\ x = p))) as H.
  { induction l as [|i l IH]; intros t Hl Ht; cbn [foldl].
    - split; [done|]. intros j x. rewrite elem_of_nil. tauto.
    - apply Forall_cons in Hl as [Hi Hl]. destruct (dequeue_at_ok p t i Ht Hi) as [H1 H2].
      destruct (IH _ Hl H1) as [H3 H4]. split; [done|]. intros j x.
      rewrite H4, H2, elem_of_cons. tauto. }
  destruct (H (seq 0 NUM_PRIORITIES) s) as [H1 H2]; [|done|].
  { apply Forall_forall. intros i Hi%elem_of_seq. lia. }
  split; [done|]. intros j x Hj. rewrite H2. rewrite elem_of_seq. split; [|tauto].
  intros [? Hn]. split; [done|]. intros ->. apply Hn. split; [lia|done].
Qed.

Lemma pop_ok i s p : cpu_ok s -> (i < NUM_PRIORITIES)%nat -> (q_pop (the_queue i s)).1 = Some p ->
  let s' := clear_if_empty i (set_queues (alter (fun q => (q_pop q).2) i (queues s)) (active_bitmap s) s) in
  cpu_ok s' /\ (forall j, queue (the_queue j s') = if decide (j = i) then tail (queue (the_queue i s)) else queue (the_queue j s)) /\
  (forall j x, in_queue s j x <-> in_queue s' j x \/ (j = i /\ x = p)).
Proof.
  intros Hok Hi Hp. destruct (the_queue_some s _ Hok Hi) as [_ Hq].
  destruct (clear_pop_ok (fun q => (q_pop q).2) i s Hok Hi (q_pop_ok _ Hq)) as [Hok' Ht].
  { unfold q_is_empty, q_pop. cbn [snd queue]. by destruct (queue (the_queue i s)). }
  cbn zeta. split; [exact Hok'|].
  assert (forall j, queue (the_queue j (clear_if_empty i (set_queues (alter (fun q => (q_pop q).2) i (queues s)) (active_bitmap s) s)))
    = if decide (j = i) then tail (queue (the_queue i s)) else queue (the_queue j s)) as Hq'.
  { intros j. rewrite Ht. by destruct (decide (j = i)). }
  split; [exact Hq'|]. intros j x. unfold in_queue. rewrite Hq'. destruct (decide (j = i)) as [->|]; [|naive_solver].
  unfold q_pop in Hp. cbn [fst] in Hp. destruct (queue (the_queue i s)) as [|y l]; [done|]. cbn in Hp. simplify_eq.
  cbn [tail]. rewrite elem_of_cons. naive_solver.
Qed.

(** ** Choosing the next process *)

Lemma trailing_zeros8_spec b i : in_width 8 b -> (i < 8)%nat -> Z.testbit b (Z.of_nat i) = true ->
  (forall j, (j < i)%nat -> Z.testbit b (Z.of_nat j) = false) -> trailing_zeros8 b = i.
Proof.
  intros Hw Hi Hb Hlt. unfold trailing_zeros8.
  assert (list_find (fun i => Z.testbit b (Z.of_nat i) = true) (seq 0 8) = Some (i, i)) as ->; [|done].
  apply list_find_Some. rewrite lookup_seq_lt by done. split; [done|]. split; [done|].
  intros j x Hx Hj. apply lookup_seq in Hx as [-> _]. by rewrite Hlt.
Qed.

Lemma lowest_bit b : in_width 5 b -> b <> 0 ->
  exists i, (i < NUM_PRIORITIES)%nat /\ Z.testbit b (Z.of_nat i) = true /\
    forall j, (j < i)%nat -> Z.testbit b (Z.of_nat j) = false.
Proof.
  intros Hw Hne. destruct (list_find (fun i => Z.testbit b (Z.of_nat i) = true) (seq 0 5)) as [[i x]|] eqn:E.
  - apply list_find_Some in E as (Hl & Hb & Hlt). apply lookup_seq in Hl as [-> Hi].
    exists i. split; [unfold NUM_PRIORITIES; lia|]. split; [done|]. intros j Hj.
    assert (seq 0 5 !! j = Some j) as Hs by (rewrite lookup_seq_lt by lia; done).
    specialize (Hlt _ _ Hs Hj). by destruct (Z.testbit b (Z.of_nat j)).
  - exfalso. apply Hne. apply (in_width_eq 5); [done|unfold in_width; lia|].
    intros i Hi. rewrite Z.testbit_0_l. apply list_find_None in E. rewrite Forall_forall in E.
    specialize (E (Z.to_nat i)). rewrite Z2Nat.id in E by lia.
    destruct (Z.testbit b i); [|done]. exfalso. apply E; [apply elem_of_seq; lia|done].
Qed.

Lemma q_empty_nil q : q_is_empty q = true <-> queue q = [].
Proof. unfold q_is_empty. by destruct (queue q). Qed.

Definition picked (idle : bool) (s : CpuScheduler) (p : Z) (s' : CpuScheduler) : Prop :=
  exists i, (i < NUM_PRIORITIES)%nat /\ head (queue (the_queue i s)) = Some p /\
    (forall j, (j < i)%nat -> queue (the_queue j s) = []) /\ (i = prio_idx Dream -> idle = true) /\
    cpu_ok s' /\
    (forall j, queue (the_queue j s') = if decide (j = i) then tail (queue (the_queue i s)) else queue (the_queue j s)).

Definition nothing_to_pick (idle : bool) (s : CpuScheduler) : Prop :=
  forall j, (j < NUM_PRIORITIES)%nat -> j = prio_idx Dream /\ idle = false \/ queue (the_queue j s) = [].

Lemma pick_next_cases idle s : cpu_ok s ->
  match pick_next idle s with
  | (Some p, s') => picked idle s p s'
  | (None, s') => s' = s /\ nothing_to_pick idle s
  end.
Proof.
  intros Hok. unfold pick_next. destruct (Z.eqb_spec (active_bitmap s) 0) as [H0|H0].
  { split; [done|]. intros j Hj. right. apply q_empty_nil.
    pose proof (cpu_bitmap _ Hok j Hj) as Hb. rewrite H0, Z.testbit_0_l in Hb. by destruct (q_is_empty _). }
  destruct (lowest_bit _ (cpu_bitmap_width _ Hok) H0) as (i & Hi & Hb & Hlt).
  rewrite (trailing_zeros8_spec _ i) by
    (try (unfold NUM_PRIORITIES in Hi; lia); try done; apply in_width_bit8, Hok).
  assert ((NUM_PRIORITIES <=? i)%nat = false) as -> by (apply Nat.leb_gt; lia).
  assert (forall j, (j < i)%nat -> queue (the_queue j s) = []) as Hemp.
  { intros j Hj. specialize (Hlt j Hj). rewrite (cpu_bitmap _ Hok) in Hlt by lia.
    apply q_empty_nil. by destruct (q_is_empty (the_queue j s)). }
  destruct ((i =? prio_idx Dream)%nat && negb idle) eqn:Ed.
  { apply andb_true_iff in Ed as [->%Nat.eqb_eq Hid]. split; [done|]. intros j Hj.
    destruct (decide (j = prio_idx Dream)) as [->|Hne]; [left; by destruct idle|]. right. apply Hemp.
    unfold NUM_PRIORITIES in Hj. cbn in *. lia. }
  rewrite (cpu_bitmap _ Hok) in Hb by done.
  destruct ((q_pop (the_queue i s)).1) as [p|] eqn:Ep.
  - destruct (pop_ok i s p Hok Hi Ep) as (Hok' & Hq & _). exists i. split; [done|]. split; [exact Ep|].
    split; [done|]. split; [|by split]. intros ->. rewrite Nat.eqb_refl in Ed. by destruct idle.
  - unfold q_pop, q_is_empty in *. cbn [fst] in Ep. by destruct (queue (the_queue i s)).
Qed.

(** ** The machine invariant *)

Record kernel_ok (k : Kernel) : Prop := mk_kernel_ok {
  k_len : length (cpus k) = MAX_CPUS;
  k_count : (0 < cpu_count k < MAX_CPUS)%nat;
  k_cpus : Forall cpu_ok (cpus k);
  k_table : table_ok (table k);
}.

Lemma new_cpu_ok : cpu_ok CpuScheduler_new.
Proof.
  constructor; [done| |unfold in_width; cbn; lia|].
  - apply Forall_replicate. split; [constructor|done].
  - intros i Hi. unfold the_queue, CpuScheduler_new, NUM_PRIORITIES in *. cbn [queues active_bitmap].
    rewrite Z.testbit_0_l. rewrite lookup_replicate_2 by done. done.
Qed.

Lemma cpu_at_ok c k : kernel_ok k -> cpu_ok (cpu_at c k).
Proof.
  intros Hk. unfold cpu_at. destruct (cpus k !! c) eqn:E; [|exact new_cpu_ok].
  exact (Forall_lookup_1 _ _ _ _ (k_cpus _ Hk) E).
Qed.

Lemma set_cpu_ok c s k : kernel_ok k -> cpu_ok s -> kernel_ok (set_cpu c s k).
Proof.
  intros [H1 H2 H3 H4] Hs. constructor; cbn [set_cpu cpus cpu_count table]; [by rewrite length_insert|done| |done].
  by apply Forall_insert.
Qed.

Lemma cpu_at_set c c' s k : kernel_ok k -> (c < MAX_CPUS)%nat ->
  cpu_at c' (set_cpu c s k) = if decide (c' = c) then s else cpu_at c' k.
Proof.
  intros Hk Hc. unfold cpu_at. cbn [set_cpu cpus]. rewrite <- (k_len _ Hk) in Hc.
  destruct (decide (c' = c)) as [->|Hne]; [by rewrite list_lookup_insert_eq|by rewrite list_lookup_insert_ne].
Qed.

Lemma set_table_ok t k : kernel_ok k -> table_ok t -> kernel_ok (set_table t k).
Proof. intros [H1 H2 H3 H4] Ht. by constructor. Qed.
Lemma set_globals_ok a b c k : kernel_ok k -> kernel_ok (set_globals a b c k).
Proof. intros [H1 H2 H3 H4]. by constructor. Qed.
Lemma set_slice_ok n s : cpu_ok s -> cpu_ok (set_slice n s).
Proof. intros [H1 H2 H3 H4]. by constructor. Qed.
Lemma cpu_fields_ok s c n w t : cpu_ok s -> cpu_ok (mkCpu (queues s) (active_bitmap s) c n w t).
Proof. intros [H1 H2 H3 H4]. by constructor. Qed.

#[export] Hint Resolve cpu_at_ok set_cpu_ok set_table_ok set_globals_ok set_slice_ok cpu_fields_ok : sched.

Lemma enqueue_cpu_ok p prio s : cpu_ok s -> cpu_ok (enqueue p prio s).
Proof. intros H. by apply enqueue_ok. Qed.
Lemma dequeue_cpu_ok p s : cpu_ok s -> cpu_ok (dequeue p s).
Proof. intros H. by apply dequeue_ok. Qed.
#[export] Hint Resolve enqueue_cpu_ok dequeue_cpu_ok : sched.

Lemma pick_next_ok idle s : cpu_ok s -> cpu_ok (pick_next idle s).2.
Proof.
  intros Hok. pose proof (pick_next_cases idle s Hok) as H. destruct (pick_next idle s) as [[p|] s'].
  - by destruct H as (? & _ & _ & _ & _ & ? & _).
  - by destruct H as [-> _].
Qed.

Lemma requeue_ok s k : cpu_ok s -> cpu_ok (requeue_current s k).
Proof.
  intros H. unfold requeue_current. destruct (current s); [|done]. destruct (get _ _); [|done].
  destruct (_ || _); auto with sched.
Qed.

Lemma schedule_ok c k : kernel_ok k -> kernel_ok (schedule c k).2.
Proof.
  intros Hk. unfold schedule.
  set (s1 := if _ >? 0 then set_slice _ _ else _).
  assert (cpu_ok s1) as Hs1 by (unfold s1; destruct (_ >? 0); auto with sched).
  destruct (if _ && _ then _ else _) as [p|]; [cbn [snd]; auto with sched|].
  pose proof (pick_next_ok (system_idle k) _ (requeue_ok _ k Hs1)) as Hp.
  destruct (pick_next _ _) as [[p|] s3]; cbn [snd] in Hp; [|cbn [snd]; auto with sched].
  destruct (get p (table k)); cbn [snd]; auto with sched.
Qed.

Lemma add_ok p prio k : kernel_ok k -> kernel_ok (add_to_scheduler_with_priority p prio k).
Proof. intros Hk. unfold add_to_scheduler_with_priority. auto with sched. Qed.

(** Removing from the CPUs [0..n). *)
Lemma remove_loop p cs k : kernel_ok k -> Forall (fun c => (c < MAX_CPUS)%nat) cs ->
  let k' := foldl (fun k c => set_cpu c (dequeue p (cpu_at c k)) k) k cs in
  kernel_ok k' /\ cpu_count k' = cpu_count k /\ table k' = table k /\ current_pid k' = current_pid k /\
  (forall c, c ∈ cs -> forall j, (j < NUM_PRIORITIES)%nat -> ~ in_queue (cpu_at c k') j p) /\
  (forall c j, (j < NUM_PRIORITIES)%nat -> ~ in_queue (cpu_at c k) j p -> ~ in_queue (cpu_at c k') j p).
Proof.
  revert k. induction cs as [|c cs IH]; intros k Hk Hcs; cbn [foldl].
  - split; [done|]. repeat split; [|done]. by intros ? ?%not_elem_of_nil.
  - apply Forall_cons in Hcs as [Hc Hcs]. set (k1 := set_cpu c _ k).
    assert (kernel_ok k1) as Hk1 by (unfold k1; auto with sched).
    destruct (IH k1 Hk1 Hcs) as (H1 & H2 & H3 & H4 & H5 & H6).
    assert (forall c' j, (j < NUM_PRIORITIES)%nat -> c' = c \/ ~ in_queue (cpu_at c' k) j p ->
      ~ in_queue (cpu_at c' k1) j p) as Hd.
    { intros c' j Hj Hor. unfold k1. rewrite cpu_at_set by done. destruct (decide (c' = c)) as [->|]; [|by destruct Hor].
      rewrite (proj2 (dequeue_ok p _ (cpu_at_ok c k Hk)) j p Hj). tauto. }
    split; [done|]. split; [done|]. split; [done|]. split; [done|]. split.
    + intros c' [->|Hin]%elem_of_cons j Hj; [|by apply H5]. apply H6; [done|]. apply Hd; [done|by left].
    + intros c' j Hj Hn. apply H6; [done|]. apply Hd; [done|by right].
Qed.

Lemma cpus_below n : (n <= MAX_CPUS)%nat -> Forall (fun c => (c < MAX_CPUS)%nat) (seq 0 n).
Proof. intros Hn. apply Forall_forall. intros c Hc%elem_of_seq. lia. Qed.

Lemma remove_ok p k : kernel_ok k ->
  let k' := remove_from_scheduler p k in
  kernel_ok k' /\ cpu_count k' = cpu_count k /\ table k' = table k /\ current_pid k' = current_pid k /\
  (forall c, (c < cpu_count k)%nat -> forall j, (j < NUM_PRIORITIES)%nat -> ~ in_queue (cpu_at c k') j p).
Proof.
  intros Hk. pose proof (k_count _ Hk) as Hcnt. unfold remove_from_scheduler.
  destruct (remove_loop p (seq 0 (cpu_count k)) k Hk) as (H1 & H2 & H3 & H4 & H5 & _); [apply cpus_below; lia|].
  split; [done|]. split; [done|]. split; [done|]. split; [done|]. intros c Hc. apply H5, elem_of_seq. lia.
Qed.

Lemma yield_ok c k : kernel_ok k -> kernel_ok (yield_cpu c k).
Proof.
  intros Hk. unfold yield_cpu. destruct (get_current_pid k); [|done].
  apply set_cpu_ok; [done|]. destruct (get _ _); auto with sched.
Qed.

Lemma set_intent_pid i p : pid (set_intent i p) = pid p.
Proof. unfold set_intent. destruct i; try done; by destruct (_ <? _)%nat. Qed.

Lemma update_kernel_ok q f k : (forall p, pid (f p) = pid p) -> kernel_ok k ->
  kernel_ok (set_table (update q f (table k)) k).
Proof. intros Hf Hk. apply set_table_ok; [done|]. by apply update_ok; [|apply Hk]. Qed.

Lemma set_priority_ok p prio k : kernel_ok k -> kernel_ok (set_priority p prio k).
Proof.
  intros Hk. destruct (remove_ok p k Hk) as (H1 & _). unfold set_priority.
  apply add_ok, update_kernel_ok; [by intros []|done].
Qed.

Lemma exit_ok c k : kernel_ok k -> kernel_ok (exit_process c k).
Proof.
  intros Hk. unfold exit_process. destruct (get_current_pid k); [|done]. apply yield_ok.
  destruct (get _ _); [|done]. apply remove_ok, update_kernel_ok; [by intros []|done].
Qed.

(** ** Load balancing *)

(** [p] waits at priority [i] on some CPU. *)
Definition queued (k : Kernel) (i : nat) (p : Z) : Prop := exists c, in_queue (cpu_at c k) i p.

Definition all_load (k : Kernel) : nat := sum_list (total_load <$> cpus k).

Lemma load_alter s i f b : cpu_ok s -> (i < NUM_PRIORITIES)%nat ->
  (total_load (set_queues (alter f i (queues s)) b s) + q_len (the_queue i s) =
   total_load s + q_len (f (the_queue i s)))%nat.
Proof.
  intros Hok Hi. destruct (the_queue_some s i Hok Hi) as [Hq _]. unfold total_load. cbn [set_queues queues].
  rewrite (alter_as_insert _ _ _ _ Hq). by apply sum_insert.
Qed.

Lemma enqueue_load p prio s : cpu_ok s -> (total_load (enqueue p prio s) <= total_load s + 1)%nat.
Proof.
  intros Hok. assert (prio_idx prio < NUM_PRIORITIES)%nat as Hi by (destruct prio; cbn; unfold NUM_PRIORITIES; lia).
  pose proof (load_alter s _ (q_push p) (Z.lor (active_bitmap s) (mask (Z.of_nat (prio_idx prio)))) Hok Hi).
  unfold enqueue. enough (q_len (q_push p (the_queue (prio_idx prio) s)) <= q_len (the_queue (prio_idx prio) s) + 1)%nat by lia.
  unfold q_push, q_len. case_bool_decide; [lia|]. cbn. rewrite length_app. cbn. lia.
Qed.

Lemma set_cpu_load c s k : kernel_ok k -> (c < MAX_CPUS)%nat ->
  (all_load (set_cpu c s k) + total_load (cpu_at c k) = all_load k + total_load s)%nat.
Proof.
  intros Hk Hc. unfold all_load, cpu_at. cbn [set_cpu cpus]. rewrite <- (k_len _ Hk) in Hc.
  apply lookup_lt_is_Some in Hc as [x Hx]. rewrite Hx. by apply sum_insert.
Qed.

Lemma cpu_load_le c k : (total_load (cpu_at c k) <= all_load k)%nat.
Proof.
  unfold all_load, cpu_at. destruct (cpus k !! c) as [s|] eqn:E; [|cbn; lia].
  cbn [default]. by apply (sum_le total_load) in E.
Qed.

(** The least loaded CPU is one of the candidates and no candidate is less loaded. *)
Lemma min_fold k cs acc : let r := foldl (min_step k) acc cs in
  (r = acc \/ r.2 ∈ cs /\ r.1 = Z.of_nat (total_load (cpu_at r.2 k))) /\ r.1 <= acc.1 /\
  (forall c, c ∈ cs -> r.1 <= Z.of_nat (total_load (cpu_at c k))).
Proof.
  revert acc. induction cs as [|c cs IH]; intros acc; cbn [foldl].
  - split; [by left|]. split; [lia|]. by intros ? ?%not_elem_of_nil.
  - destruct (IH (min_step k acc c)) as (H1 & H2 & H3). unfold min_step in *.
    destruct (Z.ltb_spec (Z.of_nat (total_load (cpu_at c k))) acc.1) as [Hlt|Hge]; cbn [fst snd] in *.
    + split.
      * right. destruct H1 as [->|[? ?]]; [split; [left|done]|split; [by right|done]].
      * split; [lia|]. intros c' [->|?]%elem_of_cons; [lia|by apply H3].
    + split; [destruct H1 as [?|[? ?]]; [by left|right; split; [by right|done]]|].
      split; [lia|]. intros c' [->|?]%elem_of_cons; [lia|by apply H3].
Qed.

Lemma least_loaded_spec k cs : cs <> [] -> Z.of_nat (all_load k) < USIZE_MAX ->
  least_loaded cs k ∈ cs /\
  forall c, c ∈ cs -> (total_load (cpu_at (least_loaded cs k) k) <= total_load (cpu_at c k))%nat.
Proof.
  intros Hne Hl. unfold least_loaded. destruct (min_fold k cs (USIZE_MAX, 0%nat)) as (H1 & H2 & H3).
  destruct H1 as [Heq|[Hin Hr]].
  - exfalso. destruct cs as [|c cs]; [done|]. specialize (H3 c ltac:(left)). rewrite Heq in H3. cbn [fst] in H3.
    pose proof (cpu_load_le c k). lia.
  - split; [done|]. intros c Hc. specialize (H3 c Hc). lia.
Qed.

Lemma try_from_idx i : (i < NUM_PRIORITIES)%nat ->
  prio_idx (default Normal (PriorityClass_try_from (Z.of_nat i))) = i.
Proof. unfold NUM_PRIORITIES. intros Hi. by do 5 (destruct i as [|i]; [reflexivity|]); lia. Qed.

(** One iteration of the stealing loop. *)
Definition steal_step (c i : nat) (p : Z) (k : Kernel) : Kernel :=
  let s := cpu_at c k in
  migrate c i p (set_cpu c (clear_if_empty i
    (set_queues (alter (fun q => (q_pop q).2) i (queues s)) (active_bitmap s) s)) k).

Lemma default_lt k cs c : (forall x, x ∈ cs -> (x < MAX_CPUS)%nat) -> least_loaded cs k = c -> (c < MAX_CPUS)%nat.
Proof.
  intros H <-. unfold least_loaded. destruct (min_fold k cs (USIZE_MAX, 0%nat)) as ([->|[Hin _]] & _); [|by apply H].
  cbn. unfold MAX_CPUS. lia.
Qed.

Lemma steal_step_ok c i p k : kernel_ok k -> (c < MAX_CPUS)%nat -> (i < NUM_PRIORITIES)%nat ->
  (q_pop (the_queue i (cpu_at c k))).1 = Some p ->
  let k' := steal_step c i p k in
  kernel_ok k' /\ cpu_count k' = cpu_count k /\ table k' = table k /\ (all_load k' <= all_load k)%nat /\
  (forall j x, queued k' j x <-> queued k j x) /\
  ((2 <= cpu_count k)%nat -> Z.of_nat (all_load k) < USIZE_MAX ->
   (q_len (the_queue i (cpu_at c k')) < q_len (the_queue i (cpu_at c k)))%nat).
Proof.
  intros Hk Hc Hi Hp. unfold steal_step. set (s := cpu_at c k) in *.
  pose proof (cpu_at_ok c k Hk) as Hs. destruct (pop_ok i s p Hs Hi Hp) as (Hok' & Hq & Hin).
  set (s' := clear_if_empty i _) in *. set (k1 := set_cpu c s' k).
  assert (kernel_ok k1) as Hk1 by (unfold k1; auto with sched).
  assert (total_load s' + 1 <= total_load s /\ q_len (the_queue i s') < q_len (the_queue i s))%nat as [Hld Hlen].
  { pose proof (load_alter s i (fun q => (q_pop q).2) (active_bitmap s') Hs Hi) as Hla.
    assert (total_load s' = total_load (set_queues (alter (fun q => (q_pop q).2) i (queues s)) (active_bitmap s') s)) as Hl'
      by (unfold s', clear_if_empty; by destruct (q_is_empty _)).
    rewrite <- Hl' in Hla. clear Hl'. clearbody s'. specialize (Hq i). rewrite decide_True in Hq by done.
    unfold q_len, q_pop in *. cbn [fst snd queue] in *. rewrite Hq.
    destruct (queue (the_queue i s)); [done|]. cbn [tail length] in *. lia. }
  unfold migrate. set (t := least_loaded _ k1). set (prio := default Normal _).
  assert (t < MAX_CPUS)%nat as Ht.
  { eapply default_lt; [|done]. intros x [_ Hx%elem_of_seq]%list_elem_of_filter.
    pose proof (k_count _ Hk1). lia. }
  pose proof (cpu_at_ok t k1 Hk1) as Hst. destruct (enqueue_ok p prio _ Hst) as [Heo Hein].
  split; [auto with sched|]. split; [done|]. split; [done|]. split; [|split].
  - pose proof (set_cpu_load c s' k Hk Hc). pose proof (set_cpu_load t (enqueue p prio (cpu_at t k1)) k1 Hk1 Ht).
    pose proof (enqueue_load p prio _ Hst). fold k1 in H. fold s in H. lia.
  - assert (forall j x, queued k j x <-> queued k1 j x \/ (j = i /\ x = p)) as Hq1.
    { intros j x. unfold queued. split.
      - intros [d Hd]. destruct (decide (d = c)) as [->|Hne].
        + fold s in Hd. apply Hin in Hd as [Hd|Hd]; [left|by right]. exists c. unfold k1.
          by rewrite cpu_at_set, decide_True by done.
        + left. exists d. unfold k1. by rewrite cpu_at_set, decide_False by done.
      - intros [[d Hd]|[-> ->]].
        + exists d. unfold k1 in Hd. rewrite cpu_at_set in Hd by done.
          destruct (decide (d = c)) as [->|]; [|done]. apply Hin. by left.
        + exists c. fold s. apply Hin. by right. }
    intros j x. rewrite Hq1. unfold queued. split.
    + intros [d Hd]. rewrite cpu_at_set in Hd by done. destruct (decide (d = t)) as [->|]; [|left; eauto].
      apply Hein in Hd as [Hd|[-> ->]]; [left; eauto|right]. unfold prio. by rewrite try_from_idx.
    + intros [[d Hd]|[-> ->]].
      * exists d. rewrite cpu_at_set by done. destruct (decide (d = t)) as [->|]; [|done]. apply Hein. by left.
      * exists t. rewrite cpu_at_set, decide_True by done. apply Hein. right. unfold prio. by rewrite try_from_idx.
  - intros Hcnt Hsm. assert (t <> c) as Htc.
    { assert (all_load k1 <= all_load k)%nat.
      { pose proof (set_cpu_load c s' k Hk Hc). fold k1 s in H. lia. }
      destruct (least_loaded_spec k1 (filter (fun x => x <> c) (seq 0 (cpu_count k1)))) as [Hf _]; [|lia|].
      - intros Hnil. assert ((if decide (c = 0) then 1 else 0)%nat ∈ filter (fun x => x <> c) (seq 0 (cpu_count k1))) as Hx.
        { apply list_elem_of_filter. split; [destruct (decide (c = 0)%nat); lia|]. apply elem_of_seq.
          change (cpu_count k1) with (cpu_count k). destruct (decide (c = 0)%nat); lia. }
        rewrite Hnil in Hx. by apply not_elem_of_nil in Hx.
      - fold t in Hf. by apply list_elem_of_filter in Hf as [? _]. }
    rewrite cpu_at_set, decide_False by done. unfold k1. by rewrite cpu_at_set, decide_True by done.
Qed.

(** What the loops of [balance_load] keep. *)
Definition balanced_from (k k' : Kernel) : Prop :=
  kernel_ok k' /\ cpu_count k' = cpu_count k /\ table k' = table k /\ (all_load k' <= all_load k)%nat /\
  (forall j x, queued k' j x <-> queued k j x).

Lemma balanced_refl k : kernel_ok k -> balanced_from k k.
Proof. intros. split; [done|]. split; [done|]. split; [done|]. by split. Qed.

Lemma balanced_trans k1 k2 k3 : balanced_from k1 k2 -> balanced_from k2 k3 -> balanced_from k1 k3.
Proof.
  intros (A1 & A2 & A3 & A4 & A5) (B1 & B2 & B3 & B4 & B5). split; [done|]. split; [congruence|].
  split; [congruence|]. split; [lia|]. intros j x. by rewrite B5.
Qed.

Lemma steal_ok fuel : forall c i load avg k, kernel_ok k -> (c < MAX_CPUS)%nat -> (i < NUM_PRIORITIES)%nat ->
  (2 <= cpu_count k)%nat -> Z.of_nat (all_load k) < USIZE_MAX ->
  (q_len (the_queue i (cpu_at c k)) <= fuel)%nat ->
  exists k', steal fuel c i load avg k = Some k' /\ balanced_from k k' /\
    ((avg < load)%nat -> queue (the_queue i (cpu_at c k')) = []).
Proof.
  induction fuel as [|fuel IH]; intros c i load avg k Hk Hc Hi Hcnt Hsm Hf; cbn [steal];
    destruct ((0 <? q_len (the_queue i (cpu_at c k)))%nat && (avg <? load)%nat) eqn:E.
  - apply andb_true_iff in E as [E%Nat.ltb_lt _]. lia.
  - exists k. split; [done|]. split; [by apply balanced_refl|]. intros _. unfold q_len in Hf. by destruct (queue _); [|cbn in Hf; lia].
  - apply andb_true_iff in E as [E%Nat.ltb_lt _].
    destruct ((q_pop (the_queue i (cpu_at c k))).1) as [p|] eqn:Ep.
    2:{ unfold q_pop, q_len in *. cbn in Ep. by destruct (queue _); [cbn in E; lia|]. }
    assert (q_pop (the_queue i (cpu_at c k)) = (Some p, (q_pop (the_queue i (cpu_at c k))).2)) as ->
      by (rewrite <- Ep; apply surjective_pairing).
    destruct (steal_step_ok c i p k Hk Hc Hi Ep) as (H1 & H2 & H3 & H4 & H5 & H6).
    change (migrate c i p _) with (steal_step c i p k).
    destruct (IH c i load avg (steal_step c i p k)) as (k' & Hs & Hb & He);
      [done|done|done|lia|lia|specialize (H6 Hcnt Hsm); lia|].
    exists k'. split; [done|]. split; [|done]. eapply balanced_trans; [|exact Hb].
    split; [done|]. split; [done|]. split; [done|]. by split.
  - exists k. split; [done|]. split; [by apply balanced_refl|]. intros Hlt. apply andb_false_iff in E as [E%Nat.ltb_ge|E%Nat.ltb_ge]; [|lia].
    unfold q_len in E. by destruct (queue _); [|cbn in E; lia].
Qed.

Lemma steal_queues_ok c load avg is_ : forall k, kernel_ok k -> (c < MAX_CPUS)%nat ->
  Forall (fun i => (i < NUM_PRIORITIES)%nat) is_ -> (2 <= cpu_count k)%nat -> Z.of_nat (all_load k) < USIZE_MAX ->
  exists k', steal_queues c load avg is_ k = Some k' /\ balanced_from k k'.
Proof.
  induction is_ as [|i r IH]; intros k Hk Hc Hi Hcnt Hsm; cbn [steal_queues].
  - exists k. split; [done|by apply balanced_refl].
  - apply Forall_cons in Hi as [Hi Hr].
    destruct (steal_ok (q_len (the_queue i (cpu_at c k))) c i load avg k) as (k1 & -> & Hb1 & _); [done..|].
    pose proof Hb1 as (K1 & K2 & _ & K4 & _). destruct (IH k1) as (k2 & -> & Hb); [done|done|done|lia|lia|]. exists k2. split; [done|].
    by eapply balanced_trans.
Qed.

Lemma balance_cpus_ok avg cs : forall k, kernel_ok k -> Forall (fun c => (c < MAX_CPUS)%nat) cs ->
  (2 <= cpu_count k)%nat -> Z.of_nat (all_load k) < USIZE_MAX ->
  exists k', balance_cpus avg cs k = Some k' /\ balanced_from k k'.
Proof.
  induction cs as [|c cs IH]; intros k Hk Hcs Hcnt Hsm; cbn [balance_cpus].
  - exists k. split; [done|by apply balanced_refl].
  - apply Forall_cons in Hcs as [Hc Hcs].
    assert (exists k1, (if (avg + 1 <? total_load (cpu_at c k))%nat
        then steal_queues c (total_load (cpu_at c k)) avg (reverse (seq 0 NUM_PRIORITIES)) k else Some k) = Some k1 /\
        balanced_from k k1) as (k1 & -> & Hb1).
    { destruct (_ <? _)%nat; [|exists k; split; [done|by apply balanced_refl]].
      apply steal_queues_ok; [done..| |done|done]. apply Forall_reverse, Forall_forall.
      intros i Hi%elem_of_seq. lia. }
    pose proof Hb1 as (H1 & H2 & _ & H4 & _).
    destruct (IH k1) as (k2 & -> & Hb2); [done|done|lia|lia|]. exists k2. split; [done|].
    by eapply balanced_trans.
Qed.

Lemma balance_load_ok k : kernel_ok k -> Z.of_nat (all_load k) < USIZE_MAX ->
  exists k', balance_load k = Some k' /\ balanced_from k k'.
Proof.
  intros Hk Hsm. unfold balance_load. destruct (Nat.leb_spec (cpu_count k) 1).
  { exists k. split; [done|by apply balanced_refl]. }
  destruct (_ =? 0)%nat; [exists k; split; [done|by apply balanced_refl]|].
  pose proof (k_count _ Hk). apply balance_cpus_ok; [done|apply cpus_below; lia|lia|done].
Qed.

(** ** Reachable states *)

Definition boot (n : nat) : Kernel :=
  mkKernel (replicate MAX_CPUS CpuScheduler_new) n ProcessTable_new 0 false 0 0.

Definition set_current_pid (p : Z) (k : Kernel) : Kernel :=
  mkKernel (cpus k) (cpu_count k) (table k) p (system_idle k) (global_idle_ticks k) (total_context_switches k).

(** One call into the scheduler or the process table.  The guard of [step_balance]
    says that the run queues hold fewer than [usize::MAX] entries. *)
Inductive kstep : Kernel -> Kernel -> Prop :=
| step_tick c k : kstep k (schedule c k).2
| step_yield c k : kstep k (yield_cpu c k)
| step_add p prio k : kstep k (add_to_scheduler_with_priority p prio k)
| step_remove p k : kstep k (remove_from_scheduler p k)
| step_priority p prio k : kstep k (set_priority p prio k)
| step_intent p i k : kstep k (sched_set_intent p i k)
| step_exit c k : kstep k (exit_process c k)
| step_current p k : kstep k (set_current_pid p k)
| step_spawn proc k : as_map (table k) !! pid proc = None -> kstep k (set_table (add proc (table k)).2 k)
| step_reap p k : kstep k (set_table (remove p (table k)).2 k)
| step_balance k k' : Z.of_nat (all_load k) < USIZE_MAX -> balance_load k = Some k' -> kstep k k'.

Lemma boot_ok n : (0 < n < MAX_CPUS)%nat -> kernel_ok (boot n).
Proof.
  intros Hn. constructor; cbn [boot cpus cpu_count table].
  - by rewrite length_replicate.
  - done.
  - apply Forall_replicate, new_cpu_ok.
  - exact (proj1 table_new_ok).
Qed.

Lemma kstep_ok k k' : kstep k k' -> kernel_ok k -> kernel_ok k'.
Proof.
  intros Hs Hk. destruct Hs.
  - by apply schedule_ok.
  - by apply yield_ok.
  - by apply add_ok.
  - by apply remove_ok.
  - by apply set_priority_ok.
  - apply update_kernel_ok; [apply set_intent_pid|done].
  - by apply exit_ok.
  - by destruct Hk.
  - apply set_table_ok; [done|]. pose proof (table_add proc (table k) (k_table _ Hk) H) as Ha.
    destruct (add proc (table k)) as [r t']. destruct Ha as [H1 H2].
    destruct (is_ok r); [by destruct H1 as (_ & ? & _)|by destruct H2 as [-> _]; [|apply Hk]].
  - apply set_table_ok; [done|]. pose proof (table_remove p (table k) (k_table _ Hk)) as Ha.
    destruct (remove p (table k)) as [r t']. apply Ha.
  - destruct (balance_load_ok k Hk H) as (k2 & Hb & Hbf). rewrite H0 in Hb. simplify_eq. apply Hbf.
Qed.

(** C4: In every state reached from boot by scheduler ticks, yields, spawns,
    priority and intent changes, removals, exits and load balancing, every CPU's
    active bitmap has exactly the bits of its non-empty queues set, each
    queue's active flag agrees, no queue holds a process twice, and the process
    table keeps its own invariant. *)
Theorem scheduler_invariant n k : (0 < n < MAX_CPUS)%nat -> rtc kstep (boot n) k ->
  Forall cpu_ok (cpus k) /\ table_ok (table k).
Proof.
  intros Hn Hr. assert (kernel_ok k) as Hk; [|by split; apply Hk].
  revert Hr. generalize (boot_ok n Hn). generalize (boot n). intros k0 H0 Hr.
  induction Hr as [|x y z Hs _ IH]; [done|]. by apply IH, (kstep_ok x).
Qed.

(** The constant-time pick is right: [pick_next] returns the head of the
    highest-priority non-empty queue and removes it and nothing else, the Dream
    class runs only while the system is idle, and it returns nothing exactly
    when no eligible process waits. *)
Theorem pick_next_correct idle s : cpu_ok s ->
  match pick_next idle s with
  | (Some p, s') => picked idle s p s' /\ ~ nothing_to_pick idle s
  | (None, s') => s' = s /\ nothing_to_pick idle s
  end.
Proof.
  intros Hok. pose proof (pick_next_cases idle s Hok) as H. destruct (pick_next idle s) as [[p|] s']; [|done].
  split; [done|]. destruct H as (i & Hi & Hh & _ & Hd & _). intros Hn.
  destruct (Hn i Hi) as [[-> Hf]|He]; [by rewrite Hd in Hf|by rewrite He in Hh].
Qed.

(** The scheduler of CPU [c] after the slice was counted down. *)
Definition ticked (c : nat) (k : Kernel) : CpuScheduler :=
  let s := cpu_at c k in if cpu_time_slice s >? 0 then set_slice (cpu_time_slice s - 1) s else s.

(** A timer tick either lets the current process continue (it is Running and
    its slice is not used up; the queues do not change), or puts a runnable
    current process back in its queue and dispatches the process [pick_next]
    chooses with a full slice, clearing the idle state, or records an idle tick
    when nothing is eligible or the chosen process no longer exists.  The process
    table and the other CPUs are not touched. *)
Theorem schedule_correct c k : kernel_ok k -> (c < MAX_CPUS)%nat ->
  let (r, k') := schedule c k in
  let s1 := ticked c k in
  let s2 := requeue_current s1 k in
  table k' = table k /\ (forall d, d <> c -> cpu_at d k' = cpu_at d k) /\
  current (cpu_at c k') = r /\
  match r with
  | Some p =>
      (exists proc, get p (table k) = Some proc /\ state proc = Running /\ current s1 = Some p /\
         0 < cpu_time_slice s1 /\ cpu_at c k' = s1) \/
      (exists proc s3, get p (table k) = Some proc /\ picked (system_idle k) s2 p s3 /\
         queues (cpu_at c k') = queues s3 /\ cpu_time_slice (cpu_at c k') = time_slice proc /\
         system_idle k' = false)
  | None =>
      (nothing_to_pick (system_idle k) s2 \/
       exists p s3, picked (system_idle k) s2 p s3 /\ get p (table k) = None) /\
      global_idle_ticks k' = global_idle_ticks k +[64] 1
  end.
Proof.
  intros Hk Hc. unfold schedule. fold (ticked c k).
  assert (cpu_ok (ticked c k)) as Hs1 by (unfold ticked; destruct (_ >? 0); auto with sched).
  assert (forall d s, d <> c -> cpu_at d (set_cpu c s k) = cpu_at d k) as Hoth
    by (intros d s Hd; by rewrite cpu_at_set, decide_False by done).
  assert (forall s, cpu_at c (set_cpu c s k) = s) as Hself by (intros s; by rewrite cpu_at_set, decide_True by done).
  destruct (if _ && _ then _ else _) as [p|] eqn:Er.
  - destruct (_ && _) eqn:Ea; [|done]. apply andb_true_iff in Ea as [_ Hpos%Z.gtb_lt].
    unfold still_running in Er. destruct (current (ticked c k)) as [q|] eqn:Ec; [|done].
    destruct (get q (table k)) as [proc|] eqn:Eg; [|done]. case_bool_decide; [|done]. simplify_eq.
    split; [done|]. split; [auto|]. rewrite Hself. split; [done|]. left. by exists proc.
  - clear Er. pose proof (pick_next_cases (system_idle k) _ (requeue_ok _ k Hs1)) as Hp.
    destruct (pick_next _ _) as [[p|] s3].
    + destruct (get p (table k)) as [proc|] eqn:Eg.
      * split; [done|]. split; [intros d Hd; exact (Hoth d _ Hd)|].
        match goal with |- current ?x = _ /\ _ => change x with (cpu_at c (set_cpu c (mkCpu (queues s3) (active_bitmap s3) (Some p) (time_slice proc) (context_switches s3 +[64] 1) (idle_ticks s3)) k)) end.
        rewrite Hself. split; [done|]. right. exists proc, s3. by repeat split.
      * split; [done|]. split; [intros d Hd; exact (Hoth d _ Hd)|]. split.
        { match goal with |- current ?x = _ => change x with (cpu_at c (set_cpu c (mkCpu (queues s3) (active_bitmap s3) None (cpu_time_slice s3) (context_switches s3) (idle_ticks s3 +[64] 1)) k)) end.
          by rewrite Hself. }
        split; [right; eauto|done].
    + split; [done|]. split; [intros d Hd; exact (Hoth d _ Hd)|]. split.
      { match goal with |- current ?x = _ => change x with (cpu_at c (set_cpu c (mkCpu (queues s3) (active_bitmap s3) None (cpu_time_slice s3) (context_switches s3) (idle_ticks s3 +[64] 1)) k)) end.
        by rewrite Hself. }
      split; [left; apply Hp|done].
Qed.

(** Load balancing terminates and loses nobody: the processes waiting at each
    priority, on some CPU, are the same before and after, the process table is
    unchanged and every run queue stays consistent. *)
Theorem balance_load_preserves k : kernel_ok k -> Z.of_nat (all_load k) < USIZE_MAX ->
  exists k', balance_load k = Some k' /\ (forall i p, queued k' i p <-> queued k i p) /\
    table k' = table k /\ kernel_ok k'.
Proof.
  intros Hk Hl. destruct (balance_load_ok k Hk Hl) as (k' & Hb & H1 & _ & H3 & _ & H5).
  exists k'. split; [done|]. split; [done|]. by split.
Qed.

Lemma affinity_target_spec a n d : in_width 64 a -> (n <= 64)%nat ->
  (exists c, (c < n)%nat /\ Z.testbit a (Z.of_nat c) = true /\ affinity_target a n d = c /\
     forall c', (c' < c)%nat -> Z.testbit a (Z.of_nat c') = false) \/
  ((forall c, (c < n)%nat -> Z.testbit a (Z.of_nat c) = false) /\ affinity_target a n d = d).
Proof.
  intros Hw Hn. unfold affinity_target. destruct (Z.eqb_spec a 0) as [->|Hne].
  { right. split; [intros; apply Z.testbit_0_l|done]. }
  assert (forall c, (c < n)%nat -> Z.land a (mask (Z.of_nat c mod 64)) <> 0 <-> Z.testbit a (Z.of_nat c) = true) as Hb.
  { intros c Hc. rewrite Z.mod_small by lia. rewrite <- Z.eqb_neq, land_mask_zero by lia.
    by destruct (Z.testbit a (Z.of_nat c)). }
  destruct (list_find _ (seq 0 n)) as [[i c]|] eqn:E.
  - apply list_find_Some in E as (Hl & Hc & Hlt). apply lookup_seq in Hl as [-> Hi]. left. exists i.
    split; [done|]. split; [by apply Hb|]. split; [done|]. intros c' Hc'.
    specialize (Hlt c' (0 + c')%nat ltac:(apply lookup_seq; split; [done|lia]) Hc'). cbn in Hlt.
    destruct (Z.testbit a (Z.of_nat c')) eqn:Et; [|done]. exfalso. apply Hlt. apply Hb; [lia|done].
  - right. apply list_find_None in E. rewrite Forall_forall in E. split; [|done]. intros c Hc.
    destruct (Z.testbit a (Z.of_nat c)) eqn:Et; [|done]. exfalso. apply (E c); [apply elem_of_seq; lia|].
    by apply Hb.
Qed.

(** A new process lands on the lowest-numbered online CPU its affinity mask
    names, or, without such a CPU, on one whose load no online CPU undercuts; it
    is queued there at the priority asked for and no other CPU changes. *)
Theorem add_to_scheduler_placement p prio k proc : kernel_ok k -> (cpu_count k <= 64)%nat ->
  Z.of_nat (all_load k) < USIZE_MAX -> get p (table k) = Some proc -> in_width 64 (cpu_affinity proc) ->
  let k' := add_to_scheduler_with_priority p prio k in
  exists c, (c < cpu_count k)%nat /\ in_queue (cpu_at c k') (prio_idx prio) p /\
    (forall d, d <> c -> cpu_at d k' = cpu_at d k) /\
    ((Z.testbit (cpu_affinity proc) (Z.of_nat c) = true /\
      forall d, (d < c)%nat -> Z.testbit (cpu_affinity proc) (Z.of_nat d) = false) \/
     (forall d, (d < cpu_count k)%nat -> Z.testbit (cpu_affinity proc) (Z.of_nat d) = false /\
        (total_load (cpu_at c k) <= total_load (cpu_at d k))%nat)).
Proof.
  intros Hk Hn Hl Hg Hw. pose proof (k_count _ Hk) as Hcnt. cbn zeta. unfold add_to_scheduler_with_priority.
  rewrite Hg. set (least := least_loaded _ k).
  destruct (least_loaded_spec k (seq 0 (cpu_count k))) as [Hin Hmin]; [destruct (cpu_count k); [lia|done]|done|].
  fold least in Hin, Hmin. apply elem_of_seq in Hin.
  set (t := affinity_target _ _ _).
  assert (t < cpu_count k)%nat as Ht.
  { unfold t. destruct (affinity_target_spec (cpu_affinity proc) (cpu_count k) least Hw Hn)
      as [(c & Hc & _ & -> & _)|[_ ->]]; lia. }
  exists t. split; [done|]. split; [|split].
  - rewrite cpu_at_set, decide_True by (done || lia). apply enqueue_ok; [auto with sched|by right].
  - intros d Hd. by rewrite cpu_at_set, decide_False by (done || lia).
  - unfold t. destruct (affinity_target_spec (cpu_affinity proc) (cpu_count k) least Hw Hn)
      as [(c & Hc & Hb & -> & Hlt)|[Hno ->]]; [by left|right].
    intros d Hd. split; [by apply Hno|]. apply Hmin, elem_of_seq. lia.
Qed.

(** Exiting does not take a process off the run queues: [exit_process] marks
    it Zombie and dequeues it, and its final [yield_cpu] enqueues it again, so
    the zombie waits in its priority queue on the exiting CPU. *)
Theorem exit_requeues_zombie c k p proc : kernel_ok k -> (c < cpu_count k)%nat ->
  get_current_pid k = Some p -> get p (table k) = Some proc ->
  let k' := exit_process c k in
  get p (table k') = Some (with_state Zombie proc) /\
  in_queue (cpu_at c k') (prio_idx (priority proc)) p.
Proof.
  intros Hk Hc Hp Hg. pose proof (k_count _ Hk) as Hcnt. cbn zeta. unfold exit_process. rewrite Hp, Hg.
  set (k1 := set_table _ k).
  assert (kernel_ok k1) as Hk1 by (by apply update_kernel_ok; [intros []|]).
  destruct (remove_ok p k1 Hk1) as (H1 & H2 & H3 & H4 & _). set (k2 := remove_from_scheduler p k1) in *.
  assert (get p (table k2) = Some (with_state Zombie proc)) as Hz.
  { rewrite H3, get_spec. unfold k1. cbn [set_table table].
    rewrite (proj2 (update_ok p (with_state Zombie) (table k) ltac:(by intros []) (k_table _ Hk))).
    rewrite lookup_alter_eq, <- get_spec, Hg. done. }
  unfold yield_cpu, get_current_pid in *. rewrite H4. change (current_pid k1) with (current_pid k).
  destruct (current_pid k =? 0); [done|]. simplify_eq. rewrite Hz. split; [done|].
  rewrite cpu_at_set, decide_True by (done || lia). apply enqueue_ok; [auto with sched|by right].
Qed.

(** ** Examples *)

Definition spawn (p : Z) (k : Kernel) : Kernel :=
  add_to_scheduler p (set_table (add (Process_new p) (table k)).2 k).

(** One CPU on which process 1 runs, then exits. *)
Definition demo_k : Kernel := set_current_pid 1 (schedule 0 (spawn 1 (boot 1))).2.

Lemma demo_k_ok : kernel_ok demo_k.
Proof.
  assert (kernel_ok (boot 1)) as H0 by (apply boot_ok; unfold MAX_CPUS; lia).
  apply (kstep_ok (schedule 0 (spawn 1 (boot 1))).2); [apply step_current|].
  apply schedule_ok. apply add_ok. eapply kstep_ok; [apply step_spawn|exact H0].
  change (as_map ProcessTable_new !! 1 = None). by rewrite (proj2 table_new_ok).
Qed.

(** The exited process is dispatched again at the next tick. *)
Example zombie_is_dispatched :
  (schedule 0 (exit_process 0 demo_k)).1 = Some 1 /\
  (state <$> get 1 (table (exit_process 0 demo_k))) = Some Zombie.
Proof. vm_compute. by split. Qed.

Definition fill (n : nat) (k : Kernel) : Kernel :=
  set_cpu 0 (foldl (fun s p => enqueue (Z.of_nat p) Normal s) (cpu_at 0 k) (seq 1 n)) k.

(** Balancing two CPUs with four processes on the first and none on the second
    changes nothing: [load] is not recomputed while stealing, so all four move to
    the second CPU, which is then overloaded in turn and sends all four back. *)
Theorem balance_load_swaps_back :
  match balance_load (fill 4 (boot 2)) with
  | Some k => (total_load (cpu_at 0 k), total_load (cpu_at 1 k)) = (4, 0)%nat
  | None => False
  end.
Proof. vm_compute. reflexivity. Qed.

Lemma scheduler_invariant_witness : Forall cpu_ok (cpus (yield_cpu 0 (boot 2))).
Proof.
  apply (scheduler_invariant 2 (yield_cpu 0 (boot 2))).
  - unfold MAX_CPUS. lia.
  - eapply rtc_l; [apply (step_yield 0)|apply rtc_refl].
Defined.

Lemma pick_next_correct_witness :
  match pick_next false (enqueue 9 Normal CpuScheduler_new) with
  | (Some p, s') => p = 9 /\ picked false (enqueue 9 Normal CpuScheduler_new) p s'
  | (None, _) => False
  end.
Proof.
  pose proof (pick_next_correct false (enqueue 9 Normal CpuScheduler_new)
    (enqueue_cpu_ok 9 Normal _ new_cpu_ok)) as H.
  assert ((pick_next false (enqueue 9 Normal CpuScheduler_new)).1 = Some 9) as E by (vm_compute; reflexivity).
  destruct (pick_next false (enqueue 9 Normal CpuScheduler_new)) as [[p|] s']; [|discriminate E].
  split; [by injection E|apply H].
Defined.

Lemma schedule_correct_witness :
  let (r, k') := schedule 0 demo_k in r = Some 1 /\ current (cpu_at 0 k') = r /\ table k' = table demo_k.
Proof.
  pose proof (schedule_correct 0 demo_k demo_k_ok ltac:(unfold MAX_CPUS; lia)) as H.
  assert ((schedule 0 demo_k).1 = Some 1) as E by (vm_compute; reflexivity).
  destruct (schedule 0 demo_k) as [r k']. split; [exact E|]. destruct H as (H1 & _ & H2 & _). by split.
Defined.

Lemma balance_load_preserves_witness : exists k', balance_load demo_k = Some k' /\ kernel_ok k'.
Proof.
  destruct (balance_load_preserves demo_k demo_k_ok) as (k' & H1 & _ & _ & H2); [by vm_compute|].
  by exists k'.
Defined.

Lemma add_to_scheduler_placement_witness :
  exists c, (c < cpu_count demo_k)%nat /\
    in_queue (cpu_at c (add_to_scheduler_with_priority 1 Dream demo_k)) (prio_idx Dream) 1.
Proof.
  destruct (add_to_scheduler_placement 1 Dream demo_k (Process_new 1) demo_k_ok) as (c & H1 & H2 & _);
    [vm_compute; lia|by vm_compute|by vm_compute|by vm_compute|]. by exists c.
Defined.

Lemma exit_requeues_zombie_witness :
  in_queue (cpu_at 0 (exit_process 0 demo_k)) (prio_idx Normal) 1.
Proof.
  apply (exit_requeues_zombie 0 demo_k 1 (Process_new 1) demo_k_ok);
    [vm_compute; lia|by vm_compute|by vm_compute].
Defined.
