(* ===== verification/X86.v ===== *)
(** * The instructions of the kernel's assembly

    The assembly in the kernel saves and restores registers around calls and
    switches.  Here are the instructions it uses, on a processor with sixteen general registers,
    flags, byte-addressed memory and the SSE state as one value (the kernel is compiled with
    +sse,+sse2 and [main.rs] enables it), and what sequences of them do.  Used by [Context]
    and [Entry]. *)

From Stdlib Require Import ZArith Lia Bool.
From stdpp Require Import base numbers option list gmap.
From S2P Require Import Prelude Bytes.

Open Scope Z_scope.

(** ** The processor *)

Inductive Reg : Type := RAX | RBX | RCX | RDX | RSI | RDI | RBP | RSP | R8 | R9 | R10 | R11 | R12 | R13 | R14 | R15.

#[global] Instance Reg_eq_dec : EqDecision Reg.
Proof. solve_decision. Defined.

Record Cpu : Type := mkCpuState {
  reg : Reg -> Z; flags : Z; pc : Z; code_seg : Z; stack_seg : Z; gs_base : Z; kernel_gs : Z;
  sse : Z;  (* the registers xmm0 to xmm15 and mxcsr, as one value: compiled code uses them, the assembly never names them *)
  memory : Mem
}.

Definition set_reg (r : Reg) (v : Z) (s : Cpu) : Cpu :=
  mkCpuState (fun q => if bool_decide (q = r) then v else reg s q) (flags s) (pc s) (code_seg s) (stack_seg s) (gs_base s) (kernel_gs s) (sse s) (memory s).
Definition set_flags (v : Z) (s : Cpu) : Cpu := mkCpuState (reg s) v (pc s) (code_seg s) (stack_seg s) (gs_base s) (kernel_gs s) (sse s) (memory s).
Definition set_pc (v : Z) (s : Cpu) : Cpu := mkCpuState (reg s) (flags s) v (code_seg s) (stack_seg s) (gs_base s) (kernel_gs s) (sse s) (memory s).
Definition set_segs (cs ss : Z) (s : Cpu) : Cpu := mkCpuState (reg s) (flags s) (pc s) cs ss (gs_base s) (kernel_gs s) (sse s) (memory s).
Definition set_gs (a b : Z) (s : Cpu) : Cpu := mkCpuState (reg s) (flags s) (pc s) (code_seg s) (stack_seg s) a b (sse s) (memory s).
Definition set_memory (m : Mem) (s : Cpu) : Cpu := mkCpuState (reg s) (flags s) (pc s) (code_seg s) (stack_seg s) (gs_base s) (kernel_gs s) (sse s) m.

(** A word of memory. *)
Definition word (a : Z) (s : Cpu) : Z := load 8 a (memory s).
Definition set_word (a v : Z) (s : Cpu) : Cpu := set_memory (store 8 a v (memory s)) s.

(** ** Instructions *)

Inductive Instr : Type :=
| Mov (d r : Reg)                       (* mov d, r *)
| Load (d b : Reg) (off : Z)            (* mov d, [b + off] *)
| Store (b : Reg) (off : Z) (r : Reg)   (* mov [b + off], r *)
| Lea (d b : Reg) (off : Z)             (* lea d, [b + off] *)
| LoadGs (d : Reg) (off : Z)            (* mov d, gs:[off] *)
| StoreGs (off : Z) (r : Reg)           (* mov gs:[off], r *)
| Push (r : Reg)
| PushWord (b : Reg) (off : Z)          (* push qword ptr [b + off] *)
| Pop (r : Reg)
| Pushf
| Popf
| AddRsp (n : Z)
| Swapgs
| Ret
| Iretq
| Sysretq (cs ss : Z).                  (* the selectors come from a model register *)

Definition push_value (v : Z) (s : Cpu) : Cpu :=
  let a := reg s RSP -[64] 8 in set_word a v (set_reg RSP a s).
Definition top (s : Cpu) : Z := word (reg s RSP) s.
Definition drop_top (s : Cpu) : Cpu := set_reg RSP (reg s RSP +[64] 8) s.

Definition exec (i : Instr) (s : Cpu) : Cpu :=
  match i with
  | Mov d r => set_reg d (reg s r) s
  | Load d b off => set_reg d (word (reg s b +[64] off) s) s
  | Store b off r => set_word (reg s b +[64] off) (reg s r) s
  | Lea d b off => set_reg d (reg s b +[64] off) s
  | LoadGs d off => set_reg d (word (gs_base s +[64] off) s) s
  | StoreGs off r => set_word (gs_base s +[64] off) (reg s r) s
  | Push r => push_value (reg s r) s
  | PushWord b off => push_value (word (reg s b +[64] off) s) s
  | Pop r => set_reg r (top s) (drop_top s)
  | Pushf => push_value (flags s) s
  | Popf => set_flags (top s) (drop_top s)
  | AddRsp n => set_reg RSP (reg s RSP +[64] n) s
  | Swapgs => set_gs (kernel_gs s) (gs_base s) s
  | Ret => set_pc (top s) (drop_top s)
  | Iretq =>
      let f := reg s RSP in
      set_reg RSP (word (f +[64] 24) s) (set_flags (word (f +[64] 16) s) (set_segs (word (f +[64] 8) s) (word (f +[64] 32) s) (set_pc (word f s) s)))
  | Sysretq cs ss => set_segs cs ss (set_flags (reg s R11) (set_pc (reg s RCX) s))
  end.

Definition run (code : list Instr) (s : Cpu) : Cpu := foldl (fun s i => exec i s) s code.

Lemma run_app code code' s : run (code ++ code') s = run code' (run code s).
Proof. apply foldl_app. Qed.

Lemma run_cons i code s : run (i :: code) s = run code (exec i s).
Proof. reflexivity. Qed.

Lemma run_sse code : forall s, sse (run code s) = sse s.
Proof. induction code as [|i code IH]; intros s; [done|]. rewrite run_cons, IH. by destruct i. Qed.

(** ** States that agree *)

(** The words of a processor are words, and its stack pointer leaves room. *)
Definition wide (s : Cpu) : Prop := (forall r, in_width 64 (reg s r)) /\ in_width 64 (flags s).

(** Memory outside of [[a, b)] is as before. *)
Definition same_outside (a b : Z) (m m' : Mem) : Prop := forall x, ~ (a <= x < b) -> byte m' x = byte m x.

(** Everything but registers, memory and the SSE state, which no instruction here changes. *)
Definition same_rest (s s' : Cpu) : Prop :=
  flags s' = flags s /\ pc s' = pc s /\ code_seg s' = code_seg s /\ stack_seg s' = stack_seg s /\ gs_base s' = gs_base s /\ kernel_gs s' = kernel_gs s.

Lemma word_outside a b m m' x : same_outside a b m m' -> x + 8 <= a \/ b <= x -> load 8 x m' = load 8 x m.
Proof. intros H Hx. apply load_ext. intros y Hy. apply H. lia. Qed.

Lemma store_outside a v m : same_outside a (a + 8) m (store 8 a v m).
Proof.
  intros x Hx. unfold store. rewrite byte_store, length_le. destruct (Z.leb_spec a x), (Z.ltb_spec x (a + Z.of_nat 8)); try done. lia.
Qed.

Lemma same_outside_trans a b m m1 m2 : same_outside a b m m1 -> same_outside a b m1 m2 -> same_outside a b m m2.
Proof. intros H1 H2 x Hx. by rewrite H2, H1. Qed.

Lemma same_outside_mono a b c d m m' : same_outside a b m m' -> c <= a -> b <= d -> same_outside c d m m'.
Proof. intros H Hc Hd x Hx. apply H. lia. Qed.

Lemma same_outside_refl a b m : same_outside a b m m.
Proof. by intros x Hx. Qed.

Lemma reg_set_reg r v s q : reg (set_reg r v s) q = if bool_decide (q = r) then v else reg s q.
Proof. done. Qed.

Lemma push_value_spec v s : reg (push_value v s) RSP = reg s RSP -[64] 8 /\ (forall r, r <> RSP -> reg (push_value v s) r = reg s r) /\
  memory (push_value v s) = store 8 (reg s RSP -[64] 8) v (memory s).
Proof. split; [done|]. split; [|done]. intros r Hr. unfold push_value, set_word, set_memory, set_reg. cbn [reg]. by rewrite bool_decide_eq_false_2. Qed.

(** ** Blocks of pushes and pops *)

Lemma pushes_spec rs : forall s, RSP ∉ rs -> wide s -> 8 * Z.of_nat (length rs) <= reg s RSP ->
  let s' := run (Push <$> rs) s in
  reg s' RSP = reg s RSP - 8 * Z.of_nat (length rs) /\ (forall r, r <> RSP -> reg s' r = reg s r) /\ same_rest s s' /\ wide s' /\
  same_outside (reg s RSP - 8 * Z.of_nat (length rs)) (reg s RSP) (memory s) (memory s') /\
  forall i r, rs !! i = Some r -> word (reg s RSP - 8 * (Z.of_nat i + 1)) s' = reg s r.
Proof.
  induction rs as [|r0 rs IH]; intros s Hn Hw Hr; cbn zeta.
  { cbn [fmap list_fmap run foldl length]. split; [lia|]. split; [done|]. split; [by repeat split|]. split; [done|]. split; [apply same_outside_refl|done]. }
  apply not_elem_of_cons in Hn as [Hn0 Hn]. cbn [length] in Hr. destruct Hw as [Hreg Hfl]. pose proof (Hreg RSP) as Hsp. unfold in_width in Hsp.
  set (a := reg s RSP - 8). set (s1 := exec (Push r0) s). assert (reg s RSP -[64] 8 = a) as Ea by (apply wrap_small; unfold in_width; lia).
  destruct (push_value_spec (reg s r0) s) as (E1 & E1' & Em). change (push_value (reg s r0) s) with s1 in E1, E1', Em. rewrite Ea in E1, Em.
  assert (wide s1) as Hw1.
  { split; [|done]. intros r. destruct (decide (r = RSP)) as [->|Hne]; [rewrite E1; unfold in_width; lia|by rewrite E1']. }
  destruct (IH s1 Hn Hw1 ltac:(rewrite E1; lia)) as (I1 & I2 & I3 & I4 & I5 & I6). change (run (Push <$> r0 :: rs) s) with (run (Push <$> rs) s1). set (s' := run (Push <$> rs) s1) in *.
  rewrite E1 in I1, I5, I6. cbn [length]. split; [lia|]. split; [intros r Hne; by rewrite I2, E1'|]. split; [exact I3|]. split; [exact I4|]. split.
  - apply (same_outside_trans _ _ _ (memory s1)); [rewrite Em|]; (eapply same_outside_mono; [first [apply store_outside|exact I5]|lia..]).
  - intros [|i] r Hi; [injection Hi as <-|].
    + unfold word. rewrite (word_outside _ _ _ _ _ I5) by lia. rewrite Em. replace (reg s RSP - 8 * (Z.of_nat 0 + 1)) with a by lia. by apply load_store_eq.
    + cbn in Hi. specialize (I6 i r Hi). replace (reg s RSP - 8 * (Z.of_nat (S i) + 1)) with (a - 8 * (Z.of_nat i + 1)) by lia. rewrite I6. apply E1'.
      intros ->. apply Hn. by eapply list_elem_of_lookup_2.
Qed.

Lemma pops_spec rs : forall s, RSP ∉ rs -> NoDup rs -> 0 <= reg s RSP -> reg s RSP + 8 * Z.of_nat (length rs) < 2 ^ 64 ->
  let s' := run (Pop <$> rs) s in
  reg s' RSP = reg s RSP + 8 * Z.of_nat (length rs) /\ (forall r, r <> RSP -> r ∉ rs -> reg s' r = reg s r) /\ same_rest s s' /\ memory s' = memory s /\
  forall i r, rs !! i = Some r -> reg s' r = word (reg s RSP + 8 * Z.of_nat i) s.
Proof.
  induction rs as [|r0 rs IH]; intros s Hn Hd Hlo Hhi; cbn zeta.
  { cbn [fmap list_fmap run foldl length]. split; [lia|]. split; [done|]. split; [by repeat split|]. by split. }
  apply not_elem_of_cons in Hn as [Hn0 Hn]. apply NoDup_cons in Hd as [Hd0 Hd]. cbn [length] in Hhi. set (s1 := exec (Pop r0) s).
  assert (reg s RSP +[64] 8 = reg s RSP + 8) as Ea by (apply wrap_small; unfold in_width; lia).
  assert (reg s1 RSP = reg s RSP + 8) as E1 by (unfold s1; unfold exec, drop_top, set_reg; cbn [reg]; rewrite bool_decide_eq_false_2, bool_decide_eq_true_2 by done; exact Ea).
  assert (reg s1 r0 = word (reg s RSP) s) as E0 by (unfold s1, exec, drop_top, set_reg; cbn [reg]; by rewrite bool_decide_eq_true_2).
  assert (forall r, r <> RSP -> r <> r0 -> reg s1 r = reg s r) as E1' by (intros r H1 H2; unfold s1, exec, drop_top, set_reg; cbn [reg]; by rewrite !bool_decide_eq_false_2).
  destruct (IH s1 Hn Hd ltac:(lia) ltac:(lia)) as (I1 & I2 & I3 & I4 & I5). change (run (Pop <$> r0 :: rs) s) with (run (Pop <$> rs) s1). set (s' := run (Pop <$> rs) s1) in *.
  cbn [length]. split; [lia|]. split; [|split; [exact I3|split; [exact I4|]]].
  - intros r H1 [H2 H3]%not_elem_of_cons. rewrite I2 by done. by apply E1'.
  - intros [|i] r Hi; [injection Hi as <-|].
    + rewrite I2 by done. rewrite E0. f_equal. lia.
    + cbn in Hi. rewrite (I5 i r Hi). unfold word. change (memory s1) with (memory s). f_equal. lia.
Qed.

(** ** Blocks of stores to a save area and of loads from one *)

Definition stores (b : Reg) (l : list (Z * Reg)) : list Instr := (fun x => Store b x.1 x.2) <$> l.
Definition loads (b : Reg) (l : list (Z * Reg)) : list Instr := (fun x => Load x.2 b x.1) <$> l.

(** Offsets of a save area of [n] words, each its own word. *)
Definition slots (n : Z) (l : list (Z * Reg)) : Prop := Forall (fun x => 0 <= x.1 /\ x.1 + 8 <= 8 * n /\ x.1 mod 8 = 0) l /\ NoDup l.*1.

Lemma stores_spec n b l : forall s, slots n l -> wide s -> reg s b + 8 * n < 2 ^ 64 ->
  let s' := run (stores b l) s in
  reg s' = reg s /\ same_rest s s' /\ same_outside (reg s b) (reg s b + 8 * n) (memory s) (memory s') /\
  (forall x, ~ (exists o, o ∈ l.*1 /\ reg s b + o <= x < reg s b + o + 8) -> byte (memory s') x = byte (memory s) x) /\
  (forall o r, (o, r) ∈ l -> word (reg s b + o) s' = reg s r).
Proof.
  induction l as [|[o0 r0] l IH]; intros s [Hf Hd] Hw Hb; cbn zeta.
  { cbn [stores fmap list_fmap run foldl]. split; [done|]. split; [by repeat split|]. split; [apply same_outside_refl|]. split; [done|]. intros o r H. by apply not_elem_of_nil in H. }
  apply Forall_cons in Hf as [(H0 & H1 & H2) Hf]. cbn in Hd. apply NoDup_cons in Hd as [Hd0 Hd]. cbn [fst snd] in *. set (s1 := exec (Store b o0 r0) s). destruct Hw as [Hreg Hfl]. pose proof (Hreg b) as Hbw. unfold in_width in Hbw.
  assert (memory s1 = store 8 (reg s b + o0) (reg s r0) (memory s)) as Em.
  { unfold s1. cbn [exec set_word set_memory memory]. by rewrite wrap_small by (unfold in_width; lia). }
  destruct (IH s1 (conj Hf Hd) (conj Hreg Hfl) Hb) as (I1 & I2 & I3 & I4 & I5). change (run (stores b ((o0, r0) :: l)) s) with (run (stores b l) s1). set (s' := run (stores b l) s1) in *. change (reg s1) with (reg s) in *.
  split; [exact I1|]. split; [exact I2|]. split; [|split].
  - apply (same_outside_trans _ _ _ (memory s1)); [|exact I3]. rewrite Em. eapply same_outside_mono; [apply store_outside|lia..].
  - intros x Hx. rewrite I4 by (intros (o & Ho & ?); apply Hx; exists o; split; [by right|done]). rewrite Em. apply store_outside. intros Hin. apply Hx. exists o0. split; [by left|done].
  - intros o r [E|Hin]%elem_of_cons; [|by apply I5]. injection E as -> ->. unfold word.
    transitivity (load 8 (reg s b + o0) (memory s1)); [|rewrite Em; by apply load_store_eq].
    apply load_ext. intros x Hx. apply I4. intros (o & Ho & Hxo). assert (o mod 8 = 0) as Hm.
    { apply list_elem_of_fmap in Ho as ([o' r'] & -> & Hin). rewrite Forall_forall in Hf. by destruct (Hf _ Hin) as (_ & _ & ?). }
    assert (o = o0) as -> by (Z.to_euclidean_division_equations; lia). done.
Qed.

Lemma loads_spec b l : forall s, b ∉ l.*2 -> NoDup l.*2 -> (forall o r, (o, r) ∈ l -> 0 <= reg s b + o < 2 ^ 64) ->
  let s' := run (loads b l) s in
  (forall r, r ∉ l.*2 -> reg s' r = reg s r) /\ same_rest s s' /\ memory s' = memory s /\
  forall o r, (o, r) ∈ l -> reg s' r = word (reg s b + o) s.
Proof.
  induction l as [|[o0 r0] l IH]; intros s Hb Hd Hw; cbn zeta.
  { cbn [loads fmap list_fmap run foldl]. split; [done|]. split; [by repeat split|]. split; [done|]. intros o r H. by apply not_elem_of_nil in H. }
  cbn in Hb, Hd. apply not_elem_of_cons in Hb as [Hb0 Hb]. apply NoDup_cons in Hd as [Hd0 Hd]. set (s1 := exec (Load r0 b o0) s).
  assert (reg s1 b = reg s b) as Eb by (unfold s1; cbn [exec]; rewrite reg_set_reg; by rewrite bool_decide_eq_false_2).
  destruct (IH s1 Hb Hd) as (I1 & I2 & I3 & I4); [intros o r Hin; rewrite Eb; apply (Hw o r); by right|]. change (run (loads b ((o0, r0) :: l)) s) with (run (loads b l) s1). set (s' := run (loads b l) s1) in *.
  split; [|split; [exact I2|split; [exact I3|]]].
  - intros r [H1 H2]%not_elem_of_cons. rewrite I1 by done. unfold s1. cbn [exec]. rewrite reg_set_reg. by rewrite bool_decide_eq_false_2.
  - intros o r [E|Hin]%elem_of_cons.
    + injection E as -> ->. rewrite I1 by done. unfold s1. cbn [exec]. rewrite reg_set_reg, bool_decide_eq_true_2 by done. f_equal. apply wrap_small, (Hw o0 r0). by left.
    + rewrite (I4 o r Hin), Eb. done.
Qed.
