(* ===== verification/Context.v ===== *)
(** * Context switches ([process/context.rs])

    The assembly that saves the registers of one process and takes up another, as a
    program of [X86], and the function that prepares it with the process table.
    Theorems: the switch writes the registers where the structure has them, continues with
    exactly the registers that were saved, and two switches bring a process back to
    where it was; the function makes the new process the running one.  The switch does
    not set the code segment: a program that is taken up for the first time runs in the
    ring of the kernel. *)

From Stdlib Require Import ZArith Lia Bool.
From stdpp Require Import base numbers option list gmap sets.
From S2P Require Import Prelude Bytes X86 Process Scheduler.

Open Scope Z_scope.

#[local] Opaque load store.

(** ** The registers in memory *)

(** The structure, field by field. *)
Definition register_words (r : Registers) : list Z :=
  [r15 r; r14 r; r13 r; r12 r; rbx r; rbp r; r11 r; r10 r; r9 r; r8 r; rsi r; rdi r; rdx r; rcx r; rax r; rip r; cs r; rflags r; rsp r; ss r].

Definition registers_at (m : Mem) (a : Z) (r : Registers) : Prop :=
  forall i v, register_words r !! i = Some v -> load 8 (a + 8 * Z.of_nat i) m = v.

Definition REGISTERS_SIZE : Z := 160.

Definition field_of (q : Reg) (r : Registers) : Z :=
  match q with
  | RAX => rax r | RBX => rbx r | RCX => rcx r | RDX => rdx r | RSI => rsi r | RDI => rdi r | RBP => rbp r | RSP => rsp r
  | R8 => r8 r | R9 => r9 r | R10 => r10 r | R11 => r11 r | R12 => r12 r | R13 => r13 r | R14 => r14 r | R15 => r15 r
  end.

(** ** The switch *)

(** [rdi] is where the old registers go and [rsi] where the new ones come from. *)
Definition save_slots : list (Z * Reg) :=
  [(0x00, R15); (0x08, R14); (0x10, R13); (0x18, R12); (0x20, RBX); (0x28, RBP); (0x30, R11); (0x38, R10); (0x40, R9); (0x48, R8);
   (0x50, RSI); (0x60, RDX); (0x68, RCX); (0x70, RAX)].

Definition restore_slots : list (Z * Reg) :=
  [(0x00, R15); (0x08, R14); (0x10, R13); (0x18, R12); (0x20, RBX); (0x28, RBP); (0x30, R11); (0x38, R10); (0x40, R9); (0x48, R8);
   (0x58, RDI); (0x60, RDX); (0x68, RCX); (0x70, RAX)].

Definition save_rest : list Instr :=
  [Load RAX RSP 0; Store RDI 0x78 RAX;      (* the return address *)
   Lea RAX RSP 8; Store RDI 0x90 RAX;
   Pushf; Pop RAX; Store RDI 0x88 RAX;
   Store RDI 0x58 RDI].

Definition restore_rest : list Instr :=
  [Load RSP RSI 0x90; PushWord RSI 0x78; PushWord RSI 0x88; Popf; Load RSI RSI 0x50; Ret].

Definition context_switch : list Instr := stores RDI save_slots ++ save_rest ++ loads RSI restore_slots ++ restore_rest.

(** ** The function *)

(** What becomes of a call: nothing, the panic of [expect], or a switch from the registers
    of one process, if there is one, to those of another, with its page table if it has
    one. *)
Inductive Switch : Type := Stay | NotFound | SwitchTo (old : option Z) (regs : Registers) (cr3 : option Z).

Definition set_current (q : Z) (k : Kernel) : Kernel :=
  mkKernel (cpus k) (cpu_count k) (table k) q (system_idle k) (global_idle_ticks k) (total_context_switches k).

Definition switch_to_process (new_pid : Z) (k : Kernel) : Switch * Kernel :=
  let current := get_current_pid k in
  if bool_decide (current = Some new_pid) then (Stay, k)
  else
    let old := match current with Some p => pid <$> Process.get p (table k) | None => None end in
    let k := match current with Some p => set_table (update p (with_state Ready) (table k)) k | None => k end in
    match Process.get new_pid (table k) with
    | None => (NotFound, k)
    | Some p =>
        let k := set_current new_pid (set_table (update new_pid (with_state Running) (table k)) k) in
        (SwitchTo old (registers p) (if page_table p =? 0 then None else Some (page_table p)), k)
    end.

(** ** Saving *)

(** Two ranges of memory have no byte in common. *)
Definition apart (a n b k : Z) : Prop := a + n <= b \/ b + k <= a.

(** The registers that a switch saves. *)
Definition saved_registers (s : Cpu) (code stack : Z) : Registers :=
  mkRegisters (reg s R15) (reg s R14) (reg s R13) (reg s R12) (reg s RBX) (reg s RBP) (reg s R11) (reg s R10) (reg s R9) (reg s R8)
    (reg s RSI) (reg s RDI) (reg s RDX) (reg s RCX) (reg s RAX) (word (reg s RSP) s) code (flags s) (reg s RSP + 8) stack.

Lemma save_slots_ok : slots 20 save_slots.
Proof. split; [apply (bool_decide_unpack _); vm_compute; exact I|apply (bool_decide_unpack _); vm_compute; exact I]. Qed.

(** The stack and the save area of the process that calls the switch. *)
Record caller_ok (s : Cpu) : Prop := {
  co_wide : wide s;
  co_area : reg s RDI + REGISTERS_SIZE < 2 ^ 64;
  co_stack : 8 <= reg s RSP /\ reg s RSP + 8 < 2 ^ 64;
  co_apart : apart (reg s RDI) REGISTERS_SIZE (reg s RSP - 8) 16;
  co_return : in_width 64 (word (reg s RSP) s)
}.

(** Symbolic execution of straight code from a state given by its parts, and reading the
    memory that a chain of stores leaves. *)
Ltac execute := lazy - [wrap load store Z.add Z.sub Z.mul].
Ltac unwrap := repeat match goal with |- context [wrap 64 ?a] => rewrite (wrap_small 64 a) by (unfold in_width; lia) end.
Ltac read := repeat first [rewrite load_store_eq by done | rewrite (load_store_ne 8 8) by lia].

Lemma save_rest_run s : wide s -> 0 <= reg s RDI -> reg s RDI + REGISTERS_SIZE < 2 ^ 64 -> 8 <= reg s RSP -> reg s RSP + 8 < 2 ^ 64 ->
  let s' := run save_rest s in
  memory s' = store 8 (reg s RDI + 0x58) (reg s RDI) (store 8 (reg s RDI + 0x88) (flags s) (store 8 (reg s RSP - 8) (flags s)
    (store 8 (reg s RDI + 0x90) (reg s RSP + 8) (store 8 (reg s RDI + 0x78) (word (reg s RSP) s) (memory s))))) /\
  reg s' RSP = reg s RSP /\ reg s' RSI = reg s RSI /\ same_rest s s'.
Proof.
  intros [Hreg Hfl] HA HA' Hsp Hsp' s'. unfold REGISTERS_SIZE in HA'. destruct s as [f fl ip c1 c2 g kg xs m]. cbn [reg flags] in *.
  unfold word. cbn [memory]. split; [|split; [|split]].
  - unfold s'. execute. unwrap. rewrite load_store_eq, Z.add_0_r by done. reflexivity.
  - unfold s'. execute. unwrap. lia.
  - reflexivity.
  - unfold s'. execute. done.
Qed.

Lemma word_of i o m a r v : registers_at m a r -> register_words r !! i = Some v -> o = 8 * Z.of_nat i -> load 8 (a + o) m = v.
Proof. intros Hr Hv ->. by apply Hr. Qed.

Lemma restore_rest_run r s : in_width 64 (reg s RSI) -> reg s RSI + REGISTERS_SIZE < 2 ^ 64 -> registers_at (memory s) (reg s RSI) r -> in_width 64 (rip r) -> in_width 64 (rflags r) ->
  16 <= rsp r < 2 ^ 64 -> apart (reg s RSI) REGISTERS_SIZE (rsp r - 16) 16 ->
  let s' := run restore_rest s in
  reg s' RSP = rsp r /\ reg s' RSI = rsi r /\ (forall q, q <> RSP -> q <> RSI -> reg s' q = reg s q) /\ flags s' = rflags r /\ pc s' = rip r /\
  code_seg s' = code_seg s /\ stack_seg s' = stack_seg s /\ same_outside (rsp r - 16) (rsp r) (memory s) (memory s').
Proof.
  intros [HB0 _] HB Hr Hip Hfl Hsp Hap s'. unfold REGISTERS_SIZE, apart in *. destruct s as [f fl ip c1 c2 g kg xs m]. cbn [reg memory code_seg stack_seg] in *.
  pose proof (word_of 18 0x90 _ _ _ _ Hr eq_refl eq_refl) as Esp. pose proof (word_of 15 0x78 _ _ _ _ Hr eq_refl eq_refl) as Eip.
  pose proof (word_of 17 0x88 _ _ _ _ Hr eq_refl eq_refl) as Efl. pose proof (word_of 10 0x50 _ _ _ _ Hr eq_refl eq_refl) as Esi.
  set (m1 := store 8 (rsp r - 8) (rip r) m). set (m2 := store 8 (rsp r - 16) (rflags r) m1).
  assert (f RSI +[64] 0x90 = f RSI + 0x90 /\ f RSI +[64] 0x78 = f RSI + 0x78 /\ f RSI +[64] 0x88 = f RSI + 0x88 /\ f RSI +[64] 0x50 = f RSI + 0x50) as (A90 & A78 & A88 & A50)
    by (split; [|split; [|split]]; apply wrap_small; unfold in_width; lia).
  assert (rsp r -[64] 8 = rsp r - 8) as S8 by (apply wrap_small; unfold in_width; lia). assert ((rsp r - 8) -[64] 8 = rsp r - 16) as S16 by (rewrite wrap_small; unfold in_width; lia).
  assert ((rsp r - 16) +[64] 8 = rsp r - 8) as U8 by (rewrite wrap_small; unfold in_width; lia). assert ((rsp r - 8) +[64] 8 = rsp r) as U16 by (rewrite wrap_small; unfold in_width; lia).
  (* what the two pushes see *)
  assert (load 8 (f RSI +[64] 0x88) m1 = rflags r) as Efl1 by (rewrite A88; unfold m1; by rewrite (load_store_ne 8 8) by lia).
  assert (load 8 (f RSI +[64] 0x50) m2 = rsi r) as Esi2 by (rewrite A50; unfold m2, m1; by rewrite !(load_store_ne 8 8) by lia).
  set (sp1 := load 8 (f RSI +[64] 0x90) m -[64] 8). set (n1 := store 8 sp1 (load 8 (f RSI +[64] 0x78) m) m). set (n2 := store 8 (sp1 -[64] 8) (load 8 (f RSI +[64] 0x88) n1) n1).
  assert (sp1 = rsp r - 8) as Es1 by (unfold sp1; by rewrite A90, Esp). assert (n1 = m1) as En1 by (unfold n1, m1; by rewrite Es1, A78, Eip).
  assert (n2 = m2) as En2 by (unfold n2, m2; by rewrite En1, Efl1, Es1, S16).
  assert (memory s' = n2) as Em by reflexivity. assert (reg s' RSP = ((sp1 -[64] 8) +[64] 8) +[64] 8) as Er by reflexivity.
  assert (reg s' RSI = load 8 (f RSI +[64] 0x50) n2) as Ei by reflexivity. assert (flags s' = load 8 (sp1 -[64] 8) n2) as Ef by reflexivity.
  assert (pc s' = load 8 ((sp1 -[64] 8) +[64] 8) n2) as Ep by reflexivity. rewrite Es1, S16 in Er, Ef, Ep. rewrite U8 in Er, Ep. rewrite En2 in Em, Ei, Ef, Ep.
  split; [by rewrite Er, U16|]. split; [by rewrite Ei|]. split.
  { intros q H1 H2. destruct q; first [destruct (H1 eq_refl)|destruct (H2 eq_refl)|reflexivity]. }
  split; [rewrite Ef; apply (load_store_eq 8); exact Hfl|]. split; [rewrite Ep; unfold m2; rewrite (load_store_ne 8 8) by lia; apply (load_store_eq 8); exact Hip|].
  split; [done|]. split; [done|]. rewrite Em. apply (same_outside_trans _ _ _ m1); unfold m2, m1; (eapply same_outside_mono; [apply store_outside|lia..]).
Qed.

Lemma saved_words r a sp m : in_width 64 (rdi r) -> in_width 64 (rflags r) -> in_width 64 (rsp r) -> in_width 64 (rip r) -> apart a REGISTERS_SIZE (sp - 8) 16 ->
  (forall o q, (o, q) ∈ save_slots -> load 8 (a + o) m = field_of q r) -> load 8 (a + 0x80) m = cs r -> load 8 (a + 0x98) m = ss r ->
  registers_at (store 8 (a + 0x58) (rdi r) (store 8 (a + 0x88) (rflags r) (store 8 (sp - 8) (rflags r) (store 8 (a + 0x90) (rsp r) (store 8 (a + 0x78) (rip r) m))))) a r.
Proof.
  unfold apart, REGISTERS_SIZE. intros H1 H2 H3 H4 Hap Hs Hcs Hss.
  assert (Forall (fun x : Z * Reg => load 8 (a + x.1) m = field_of x.2 r) save_slots) as Hall by (apply Forall_forall; intros [o q] Hin; by apply Hs). clear Hs.
  unfold save_slots in Hall. repeat (apply Forall_cons in Hall as [? Hall]). clear Hall. cbn [fst snd field_of] in *.
  intros i v Hi. do 20 (destruct i as [|i]; [injection Hi as <-; match goal with |- load 8 (_ + ?t) _ = _ => let c := eval vm_compute in t in change t with c end; read; assumption || reflexivity|]). discriminate Hi.
Qed.

Definition save_code : list Instr := stores RDI save_slots ++ save_rest.

Lemma save_spec s : caller_ok s ->
  let s' := run save_code s in
  registers_at (memory s') (reg s RDI) (saved_registers s (word (reg s RDI + 0x80) s) (word (reg s RDI + 0x98) s)) /\ reg s' RSI = reg s RSI /\ same_rest s s' /\
  (forall x, ~ (reg s RDI <= x < reg s RDI + REGISTERS_SIZE) -> ~ (reg s RSP - 8 <= x < reg s RSP) -> byte (memory s') x = byte (memory s) x).
Proof.
  intros [Hw HA [Hs1 Hs2] Hap Hret] s'. pose proof Hap as Hap'. unfold REGISTERS_SIZE, apart in HA, Hap' |- *. set (s1 := run (stores RDI save_slots) s). pose proof (proj1 Hw RDI) as [HA0 _].
  destruct (stores_spec 20 RDI save_slots s save_slots_ok Hw ltac:(lia)) as (I1 & I2 & I3 & I4 & I5). fold s1 in I1, I2, I3, I4, I5.
  assert (s' = run save_rest s1) as Es by apply run_app. assert (wide s1) as Hw1 by (split; [rewrite I1; apply Hw|destruct I2 as (-> & _); apply Hw]).
  assert (flags s1 = flags s) as Ef by apply I2. assert (word (reg s RSP) s1 = word (reg s RSP) s) as Er by (apply (word_outside _ _ _ _ _ I3); lia).
  assert (word (reg s RDI + 0x80) s1 = word (reg s RDI + 0x80) s /\ word (reg s RDI + 0x98) s1 = word (reg s RDI + 0x98) s) as [E80 E98].
  { assert (forall o, (forall p, p ∈ save_slots.*1 -> p + 8 <= o \/ o + 8 <= p) -> word (reg s RDI + o) s1 = word (reg s RDI + o) s) as Ho.
    { intros o Ho. apply load_ext. intros x Hx. apply I4. intros (p & Hp & Hxp). destruct (Ho p Hp); lia. }
    split; apply Ho; apply Forall_forall; apply (bool_decide_unpack _); vm_compute; exact I. }
  pose proof (save_rest_run s1 Hw1) as Hrun. rewrite I1 in Hrun. destruct (Hrun HA0 ltac:(unfold REGISTERS_SIZE; lia) Hs1 Hs2) as (Em & _ & Ei & Erest). clear Hrun. rewrite <- Es in Em, Ei, Erest. rewrite Ef, Er in Em.
  pose proof (proj1 Hw RDI) as Hrdi. pose proof (proj2 Hw) as Hfl. assert (in_width 64 (reg s RSP + 8)) as Hsp8 by (unfold in_width; lia).
  split; [|split; [exact Ei|split]].
  - rewrite Em. apply (saved_words (saved_registers s _ _)); [exact Hrdi|exact Hfl|exact Hsp8|exact Hret|exact Hap| |exact E80|exact E98].
    intros o q Hin. etransitivity; [exact (I5 o q Hin)|]. unfold save_slots in Hin. by repeat (apply elem_of_cons in Hin as [[= -> ->]|Hin]; [reflexivity|]); apply not_elem_of_nil in Hin.
  - destruct I2 as (? & ? & ? & ? & ? & ?), Erest as (? & ? & ? & ? & ? & ?). repeat split; congruence.
  - intros x Hx Hx'. rewrite Em. rewrite !(fun a v m => store_outside a v m x) by lia. apply I3. lia.
Qed.

(** ** The whole switch *)

Lemma registers_at_same r a m m' : (forall x, a <= x < a + REGISTERS_SIZE -> byte m' x = byte m x) -> registers_at m a r -> registers_at m' a r.
Proof.
  intros Hm Hr i v Hi. pose proof (lookup_lt_Some _ _ _ Hi) as Hl. change (length (register_words r)) with 20%nat in Hl. rewrite <- (Hr i v Hi). apply load_ext. intros x Hx. apply Hm. unfold REGISTERS_SIZE. lia.
Qed.

(** The process that is taken up: where its registers are, and its stack. *)
Record target_ok (s : Cpu) (r : Registers) : Prop := {
  to_area : in_width 64 (reg s RSI) /\ reg s RSI + REGISTERS_SIZE < 2 ^ 64;
  to_registers : registers_at (memory s) (reg s RSI) r;
  to_words : in_width 64 (rip r) /\ in_width 64 (rflags r);
  to_stack : 16 <= rsp r < 2 ^ 64;
  to_apart : apart (reg s RSI) REGISTERS_SIZE (rsp r - 16) 16;
  to_old : apart (reg s RDI) REGISTERS_SIZE (reg s RSI) REGISTERS_SIZE /\ apart (reg s RDI) REGISTERS_SIZE (rsp r - 16) 16 /\ apart (reg s RSI) REGISTERS_SIZE (reg s RSP - 8) 8
}.

Lemma restored_slot q : q <> RSP -> q <> RSI -> exists o, (o, q) ∈ restore_slots.
Proof.
  intros H1 H2. assert (q ∈ restore_slots.*2) as (x & -> & Hx)%list_elem_of_fmap; [|exists x.1; by destruct x].
  destruct q; first [destruct (H1 eq_refl)|destruct (H2 eq_refl)|apply (bool_decide_unpack _); vm_compute; exact I].
Qed.

Lemma context_switch_spec s r : caller_ok s -> target_ok s r ->
  let s' := run context_switch s in
  registers_at (memory s') (reg s RDI) (saved_registers s (word (reg s RDI + 0x80) s) (word (reg s RDI + 0x98) s)) /\
  (forall q, reg s' q = field_of q r) /\ flags s' = rflags r /\ pc s' = rip r /\ code_seg s' = code_seg s /\ stack_seg s' = stack_seg s /\
  (forall x, ~ (reg s RDI <= x < reg s RDI + REGISTERS_SIZE) -> ~ (reg s RSP - 8 <= x < reg s RSP) -> ~ (rsp r - 16 <= x < rsp r) -> byte (memory s') x = byte (memory s) x).
Proof.
  intros Hc [[HB HB'] Hr [Hip Hfl] Hsp Hap (Hold & Hold2 & Hold3)] s'. destruct (save_spec s Hc) as (Sr & Si & Srest & Sm). set (s1 := run save_code s) in *.
  assert (registers_at (memory s1) (reg s1 RSI) r) as Hr1.
  { rewrite Si. apply (registers_at_same r (reg s RSI) (memory s)); [|exact Hr]. intros x Hx. apply Sm; unfold apart, REGISTERS_SIZE in *; lia. }
  assert (RSI ∉ restore_slots.*2) as Hn by (apply (bool_decide_unpack _); vm_compute; exact I). assert (NoDup restore_slots.*2) as Hnd by (apply (bool_decide_unpack _); vm_compute; exact I).
  assert (forall o q, (o, q) ∈ restore_slots -> 0 <= o < REGISTERS_SIZE /\ word (reg s1 RSI + o) s1 = field_of q r) as Hslots.
  { intros o q Hin. unfold restore_slots in Hin. repeat (apply elem_of_cons in Hin as [[= -> ->]|Hin]; [split; [done|]|]); [..|by apply not_elem_of_nil in Hin];
      match goal with |- word (_ + ?c) _ = _ => let i := eval vm_compute in (Z.to_nat (c / 8)) in apply (word_of i c _ _ r); [exact Hr1|reflexivity|reflexivity] end. }
  destruct (loads_spec RSI restore_slots s1 Hn Hnd) as (L1 & L2 & L3 & L4).
  { intros o q Hin. destruct (Hslots o q Hin). rewrite Si. destruct HB. lia. }
  set (s2 := run (loads RSI restore_slots) s1) in *. assert (reg s2 RSI = reg s RSI) as E2 by (rewrite L1 by exact Hn; exact Si).
  assert (s' = run restore_rest s2) as Es. { unfold s', s2, s1, context_switch, save_code. rewrite <- !run_app. f_equal. }
  pose proof (restore_rest_run r s2) as Hrest. rewrite E2, L3 in Hrest. rewrite Si in Hr1. destruct (Hrest HB HB' Hr1 Hip Hfl Hsp Hap) as (R1 & R2 & R3 & R4 & R5 & R6 & R7 & R8). clear Hrest. rewrite <- Es in R1, R2, R3, R4, R5, R6, R7, R8.
  destruct L2 as (_ & _ & L5 & L6 & _), Srest as (_ & _ & S5 & S6 & _). split; [|split; [|split; [exact R4|split; [exact R5|split; [congruence|split; [congruence|]]]]]].
  - apply (registers_at_same _ _ (memory s1)); [|exact Sr]. intros x Hx. apply R8. unfold apart, REGISTERS_SIZE in *. lia.
  - intros q. destruct (decide (q = RSP)) as [->|H1]; [exact R1|]. destruct (decide (q = RSI)) as [->|H2]; [exact R2|]. rewrite R3 by done.
    destruct (restored_slot q H1 H2) as [o Ho]. rewrite (L4 o q Ho). by apply Hslots.
  - intros x Hx Hx' Hx''. rewrite R8 by done. by apply Sm.
Qed.

(** The switch: the registers of the caller - with the address it is to return to and the
    stack as it is after the return - go to their places in the old structure, and
    execution goes on with what the new structure holds.  Nothing else in memory
    changes, and neither do the segments: whatever [cs] the new structure holds, its
    program is taken up in the ring of the caller. *)
Theorem context_switch_correct s r : caller_ok s -> target_ok s r ->
  let s' := run context_switch s in
  registers_at (memory s') (reg s RDI) (saved_registers s (word (reg s RDI + 0x80) s) (word (reg s RDI + 0x98) s)) /\
  (forall q, reg s' q = field_of q r) /\ flags s' = rflags r /\ pc s' = rip r /\ code_seg s' = code_seg s /\ stack_seg s' = stack_seg s /\
  (forall x, ~ (reg s RDI <= x < reg s RDI + REGISTERS_SIZE) -> ~ (reg s RSP - 8 <= x < reg s RSP) -> ~ (rsp r - 16 <= x < rsp r) -> byte (memory s') x = byte (memory s) x).
Proof. intros Hc Ht. by apply context_switch_spec. Qed.

(** C8: A process that switches away and is taken up again, by whichever process and however
    much later, finds itself behind its call: every register, the flags and the stack are
    as if the call had returned at once. *)
Theorem switch_and_back s0 r s2 : caller_ok s0 -> target_ok s0 r -> caller_ok s2 ->
  (forall x, reg s0 RDI <= x < reg s0 RDI + REGISTERS_SIZE -> byte (memory s2) x = byte (memory (run context_switch s0)) x) ->
  reg s2 RSI = reg s0 RDI -> apart (reg s2 RDI) REGISTERS_SIZE (reg s0 RDI) REGISTERS_SIZE -> apart (reg s2 RDI) REGISTERS_SIZE (reg s0 RSP - 8) 16 ->
  apart (reg s0 RDI) REGISTERS_SIZE (reg s2 RSP - 8) 8 ->
  let s3 := run context_switch s2 in
  (forall q, q <> RSP -> reg s3 q = reg s0 q) /\ reg s3 RSP = reg s0 RSP + 8 /\ flags s3 = flags s0 /\ pc s3 = word (reg s0 RSP) s0.
Proof.
  intros Hc Ht Hc2 Hm Hsi Ha1 Ha2 Ha3 s3. destruct (context_switch_spec s0 r Hc Ht) as (Hr & _). set (saved := saved_registers s0 _ _) in Hr.
  destruct Hc as [Hw HA [Hs1 Hs2] Hap Hret]. assert (target_ok s2 saved) as Ht2.
  { split; rewrite ?Hsi.
    - split; [apply Hw|exact HA].
    - by apply (registers_at_same _ _ (memory (run context_switch s0))).
    - split; [exact Hret|apply Hw].
    - cbn [saved saved_registers rsp]. lia.
    - cbn [saved saved_registers rsp]. unfold apart in *. lia.
    - cbn [saved saved_registers rsp]. unfold apart in *. split; [exact Ha1|]. split; lia. }
  destruct (context_switch_spec s2 saved Hc2 Ht2) as (_ & Hq & Hf & Hp & _). fold s3 in Hq, Hf, Hp.
  split; [|split; [exact (Hq RSP)|split; [exact Hf|exact Hp]]]. intros q Hne. rewrite Hq. destruct q; first [destruct (Hne eq_refl)|reflexivity].
Qed.

(** ** The process table *)

Lemma get_current_set q k : q <> 0 -> get_current_pid (set_current q k) = Some q.
Proof. intros Hq. unfold get_current_pid, set_current. cbn [current_pid]. by rewrite (proj2 (Z.eqb_neq q 0)). Qed.

(** A call does nothing for the process that runs, panics for one that is not there, and
    otherwise makes the new process the running and current one.  The old process becomes
    ready whatever it was before - a process that has exited too. *)
Theorem switch_to_process_correct q k : q <> 0 -> table_ok (table k) ->
  match switch_to_process q k with
  | (Stay, k') => get_current_pid k = Some q /\ k' = k
  | (NotFound, k') => get_current_pid k <> Some q /\ as_map (table k) !! q = None
  | (SwitchTo old regs cr3, k') =>
      get_current_pid k <> Some q /\ table_ok (table k') /\ get_current_pid k' = Some q /\ cpus k' = cpus k /\
      (exists p, as_map (table k) !! q = Some p /\ regs = registers p /\ cr3 = (if page_table p =? 0 then None else Some (page_table p)) /\
         as_map (table k') !! q = Some (with_state Running p)) /\
      (forall c, get_current_pid k = Some c -> old = pid <$> as_map (table k) !! c /\ as_map (table k') !! c = with_state Ready <$> as_map (table k) !! c) /\
      (forall p, p <> q -> get_current_pid k <> Some p -> as_map (table k') !! p = as_map (table k) !! p)
  end.
Proof.
  intros Hq Hok. unfold switch_to_process. case_bool_decide as Hcur; [done|].
  set (k1 := match get_current_pid k with Some p => set_table (update p (with_state Ready) (table k)) k | None => k end).
  assert (table_ok (table k1) /\ as_map (table k1) !! q = as_map (table k) !! q /\ cpus k1 = cpus k /\
    (forall c, get_current_pid k = Some c -> as_map (table k1) !! c = with_state Ready <$> as_map (table k) !! c) /\
    (forall p, get_current_pid k <> Some p -> as_map (table k1) !! p = as_map (table k) !! p)) as (Hok1 & Eq & Ec & Hc & Ho).
  { subst k1. destruct (get_current_pid k) as [c|]; [|done]. destruct (update_ok c (with_state Ready) (table k) (fun _ => eq_refl) Hok) as [H1 H2]. cbn [table set_table cpus].
    split; [exact H1|]. rewrite H2. split; [apply lookup_alter_ne; congruence|]. split; [done|]. split; [intros c' [= <-]; apply lookup_alter_eq|]. intros p Hp. apply lookup_alter_ne. congruence. }
  rewrite get_spec, Eq. destruct (as_map (table k) !! q) as [p|] eqn:Ep; [|done].
  destruct (update_ok q (with_state Running) (table k1) (fun _ => eq_refl) Hok1) as [H1 H2]. cbn [table set_current set_table cpus].
  split; [done|]. split; [exact H1|]. split; [by apply get_current_set|]. split; [exact Ec|]. split; [|split].
  - exists p. split; [done|]. split; [done|]. split; [done|]. by rewrite H2, lookup_alter_eq, Eq.
  - intros c Hcc. rewrite Hcc, get_spec. split; [done|]. rewrite H2, lookup_alter_ne by congruence. by apply Hc.
  - intros x Hx Hxc. rewrite H2, lookup_alter_ne by congruence. by apply Ho.
Qed.

(** ** The timer *)

(** The clock, the idle counters of the processors, and the kernel. *)
Record Clock : Type := mkClock { SYSTEM_TICKS : Z; per_cpu_idle : list Z; kernel : Kernel }.

(** The handler on processor [c]; the end of the interrupt is announced to the device. *)
Definition timer_interrupt_handler (c : nat) (t : Clock) : Switch * Clock :=
  let ticks := SYSTEM_TICKS t +[64] 1 in
  let idle := alter (fun n => n +[64] 1) c (per_cpu_idle t) in
  match schedule c (kernel t) with
  | (Some next_pid, k) => let '(sw, k) := switch_to_process next_pid k in (sw, mkClock ticks idle k)
  | (None, k) => (Stay, mkClock ticks idle k)
  end.

Lemma schedule_current c k : current_pid (schedule c k).2 = current_pid k.
Proof.
  unfold schedule. destruct (if _ && _ then _ else _) as [p|]; [done|]. destruct (pick_next _ _) as [[p|] s3]; [|done]. by destruct (Process.get p (table k)).
Qed.

Lemma set_current_ok q k : kernel_ok k -> kernel_ok (set_current q k).
Proof. intros [H1 H2 H3 H4]. by split. Qed.

Lemma switch_ok q k : kernel_ok k -> kernel_ok (switch_to_process q k).2.
Proof.
  intros Hk. unfold switch_to_process. case_bool_decide; [done|].
  assert (forall p f k, (forall x, pid (f x) = pid x) -> kernel_ok k -> kernel_ok (set_table (update p f (table k)) k)) as Hu.
  { intros p f k0 Hf H0. apply set_table_ok; [done|]. by apply update_ok; [|apply H0]. }
  set (k1 := match get_current_pid k with Some p => _ | None => k end). assert (kernel_ok k1) as Hk1 by (unfold k1; destruct (get_current_pid k); [by apply Hu|done]).
  destruct (Process.get q (table k1)); [|done]. apply set_current_ok. by apply Hu.
Qed.


(** ** Witnesses *)

(** Two processes: the first at the address 0x1000 with its stack below 0x8000, the second
    saved at 0x2000 with its stack below 0x9000. *)
Definition second_registers : Registers := mkRegisters 1 2 3 4 5 6 7 8 9 10 11 12 13 14 15 0x400000 0x23 0x202 0x9000 0x1B.

Definition demo_words : Mem := foldl (fun m (x : nat * Z) => store 8 (0x2000 + 8 * Z.of_nat x.1) x.2 m) (store 8 0x8000 0x7777 ∅) (imap pair (register_words second_registers)).

Definition first_cpu : Cpu :=
  mkCpuState (fun q => match q with RDI => 0x1000 | RSI => 0x2000 | RSP => 0x8000 | RBX => 42 | _ => 0 end) 0x246 0x5000 0x08 0x10 0 0 0 demo_words.

Lemma first_caller : caller_ok first_cpu.
Proof.
  split; [split; [|done]| | | |].
  - intros []; done.
  - done.
  - done.
  - unfold apart. left. cbn. unfold REGISTERS_SIZE. lia.
  - vm_compute. split; [discriminate|reflexivity].
Qed.

Lemma first_target : target_ok first_cpu second_registers.
Proof.
  split; try done.
  - intros i v Hi. do 20 (destruct i as [|i]; [injection Hi as <-; vm_compute; reflexivity|]). discriminate Hi.
  - unfold apart. left. cbn. unfold REGISTERS_SIZE. lia.
  - unfold apart, REGISTERS_SIZE. cbn. lia.
Qed.

Lemma context_switch_correct_witness : pc (run context_switch first_cpu) = 0x400000 /\ code_seg (run context_switch first_cpu) = 0x08 /\
  registers_at (memory (run context_switch first_cpu)) 0x1000 (saved_registers first_cpu 0 0).
Proof.
  destruct (context_switch_correct first_cpu second_registers first_caller first_target) as (Hr & _ & _ & Hp & Hc & _). split; [exact Hp|]. split; [exact Hc|].
  assert (word (reg first_cpu RDI + 0x80) first_cpu = 0) as E1 by (vm_compute; reflexivity). assert (word (reg first_cpu RDI + 0x98) first_cpu = 0) as E2 by (vm_compute; reflexivity).
  rewrite E1, E2 in Hr. exact Hr.
Defined.

(** The second process, later, switches back. *)
Definition later_cpu (m : Mem) : Cpu :=
  mkCpuState (fun q => match q with RDI => 0x2000 | RSI => 0x1000 | RSP => 0x8F00 | _ => 9 end) 0x202 0x400010 0x08 0x10 0 0 0 m.

Lemma later_memory m : memory (later_cpu m) = m.
Proof. reflexivity. Qed.

Lemma later_caller m : in_width 64 (load 8 0x8F00 m) -> caller_ok (later_cpu m).
Proof.
  intros Hm. split; [split; [|done]|done|done| |exact Hm].
  - intros []; done.
  - unfold apart. left. cbn. unfold REGISTERS_SIZE. lia.
Qed.

Lemma switch_and_back_witness : let s3 := run context_switch (later_cpu (memory (run context_switch first_cpu))) in reg s3 RBX = 42 /\ reg s3 RSP = 0x8008 /\ pc s3 = 0x7777.
Proof.
  assert (in_width 64 (load 8 0x8F00 (memory (run context_switch first_cpu)))) as Hw by (vm_compute; split; [discriminate|reflexivity]).
  pose proof (switch_and_back first_cpu second_registers (later_cpu (memory (run context_switch first_cpu))) first_caller first_target (later_caller _ Hw)) as H. rewrite later_memory in H.
  assert (word (reg first_cpu RSP) first_cpu = 0x7777) as E by (vm_compute; reflexivity). rewrite E in H. revert H. generalize (memory (run context_switch first_cpu)). intros m H.
  destruct H as (Hq & Hs & _ & Hp); [intros x _; reflexivity|reflexivity|unfold apart, REGISTERS_SIZE; cbn; lia..|].
  split; [exact (Hq RBX ltac:(discriminate))|]. split; [exact Hs|exact Hp].
Defined.

Definition two_processes : Kernel :=
  mkKernel [] 1 (add (Process_new 2) (add (with_state Zombie (Process_new 1)) ProcessTable_new).2).2 1 false 0 0.

Lemma two_processes_ok : table_ok (table two_processes).
Proof. split; [reflexivity|apply (bool_decide_unpack _); vm_compute; exact I|reflexivity]. Qed.

Lemma switch_to_process_correct_witness : exists k', switch_to_process 2 two_processes = (SwitchTo (Some 1) Registers_new None, k') /\
  as_map (table k') !! 1 = Some (with_state Ready (Process_new 1)).
Proof.
  pose proof (switch_to_process_correct 2 two_processes ltac:(discriminate) two_processes_ok) as H.
  destruct (switch_to_process 2 two_processes) as [[| |old regs cr3] k'] eqn:E.
  - exfalso. assert ((switch_to_process 2 two_processes).1 <> Stay) as Hn by (vm_compute; discriminate). rewrite E in Hn. by apply Hn.
  - exfalso. assert ((switch_to_process 2 two_processes).1 <> NotFound) as Hn by (vm_compute; discriminate). rewrite E in Hn. by apply Hn.
  - assert ((switch_to_process 2 two_processes).1 = SwitchTo (Some 1) Registers_new None) as E1 by (vm_compute; reflexivity). rewrite E in E1. cbn [fst] in E1. rewrite E1. exists k'. split; [reflexivity|].
    destruct H as (_ & _ & _ & _ & _ & Hc & _). destruct (Hc 1 eq_refl) as [_ ->]. vm_compute. reflexivity.
Defined.

(** The second process of the two waits; the first, a zombie, runs. *)
Definition waiting_kernel : Kernel := add_to_scheduler_with_priority 2 Normal (mkKernel (replicate MAX_CPUS CpuScheduler_new) 1 (table two_processes) 1 false 0 0).

Lemma waiting_ok : kernel_ok waiting_kernel.
Proof.
  apply add_ok. split; [done|split; [apply Nat.lt_0_succ|apply Nat.ltb_lt; vm_compute; reflexivity]| |exact two_processes_ok].
  apply Forall_replicate. exact new_cpu_ok.
Qed.

