(* ===== verification/Entry.v ===== *)
(** * Entry and exit of the kernel ([arch/x86_64/syscall.rs], [interrupts/handlers.rs])

    The assembly around every handler: the fast system call, the system call by
    interrupt, and the exceptions and device interrupts with and without an error code.
    Each saves registers, calls a handler compiled from Rust and restores them.
    Theorems: handlers get their arguments in the registers where they expect them, and
    the interrupted program continues where it was with the general registers it had.
    No entry saves the SSE registers. *)

From Stdlib Require Import ZArith Lia Bool.
From stdpp Require Import base numbers option list gmap.
From S2P Require Import Prelude Bytes X86.

Open Scope Z_scope.

#[local] Opaque load store.

(** ** Registers that are saved around a call *)

(** A block that pushed [pre ++ post] and whose frame is untouched gives [post] back. *)
Lemma restore_spec pre post s s2 : RSP ∉ pre ++ post -> NoDup post -> wide s -> 8 * Z.of_nat (length (pre ++ post)) <= reg s RSP ->
  reg s2 RSP = reg s RSP - 8 * Z.of_nat (length (pre ++ post)) ->
  (forall x, reg s2 RSP <= x < reg s RSP - 8 * Z.of_nat (length pre) -> byte (memory s2) x = byte (memory (run (Push <$> (pre ++ post)) s)) x) ->
  let s3 := run (Pop <$> reverse post) s2 in
  reg s3 RSP = reg s RSP - 8 * Z.of_nat (length pre) /\ (forall r, r ∈ post -> reg s3 r = reg s r) /\
  (forall r, r <> RSP -> r ∉ post -> reg s3 r = reg s2 r) /\ same_rest s2 s3 /\ memory s3 = memory s2.
Proof.
  intros Hn Hd Hw Hr Hsp Hm s3. destruct (pushes_spec (pre ++ post) s Hn Hw Hr) as (P1 & _ & _ & _ & _ & P6). set (s1 := run (Push <$> pre ++ post) s) in *.
  rewrite length_app in *. pose proof (proj1 Hw RSP) as Hwsp. unfold in_width in Hwsp.
  assert (RSP ∉ reverse post) as Hn' by (rewrite elem_of_reverse; intros Hin; apply Hn, elem_of_app; by right).
  destruct (pops_spec (reverse post) s2 Hn') as (Q1 & Q2 & Q3 & Q4 & Q5); [by rewrite reverse_Permutation|lia|rewrite length_reverse; lia|]. fold s3 in Q1, Q2, Q3, Q4, Q5. rewrite length_reverse in Q1.
  split; [lia|]. split; [|split; [|by split]].
  - intros r Hin. apply list_elem_of_lookup in Hin as [j Hj]. pose proof (lookup_lt_Some _ _ _ Hj) as Hlt.
    assert (reverse post !! (length post - S j)%nat = Some r) as Hj' by (rewrite reverse_lookup by lia; replace (length post - S (length post - S j))%nat with j by lia; exact Hj).
    rewrite (Q5 _ _ Hj'). rewrite <- (P6 (length pre + j)%nat r) by (rewrite lookup_app_r by lia; by replace (length pre + j - length pre)%nat with j by lia).
    unfold word. replace (reg s RSP - 8 * (Z.of_nat (length pre + j) + 1)) with (reg s2 RSP + 8 * Z.of_nat (length post - S j)) by lia.
    apply load_ext. intros x Hx. apply Hm. lia.
  - intros r H1 H2. apply Q2; [done|]. by rewrite elem_of_reverse.
Qed.

(** ** Handlers *)

(** What the calling convention promises of a call to compiled code in the state [s]: the stack pointer and
    the registers that belong to the caller come back, and so does the caller's part of
    the stack, [n] bytes here.  [kept] is memory that the handler has no reason to touch.
    Nothing is promised of the SSE registers: they belong to the called function. *)
Definition callee_saved : list Reg := [RBX; RBP; R12; R13; R14; R15].

Record Callee (handler : Cpu -> Cpu) (n : Z) (kept : Z -> Prop) (s : Cpu) : Prop := {
  ca_stack : reg (handler s) RSP = reg s RSP;
  ca_saved : forall r, r ∈ callee_saved -> reg (handler s) r = reg s r;
  ca_frame : forall x, reg s RSP <= x < reg s RSP + n \/ kept x -> byte (memory (handler s)) x = byte (memory s) x;
  ca_gs : gs_base (handler s) = gs_base s /\ kernel_gs (handler s) = kernel_gs s
}.

(** A call: the return address, the body, the return. *)
Section Handlers.
Context (handler : Cpu -> Cpu).

(** ** The fast system call *)

Definition entry_pushes : list Reg := [RAX; RDI; RSI; RDX; R10; R8; R9; RCX; R11; RBX; RBP; R12; R13; R14; R15].
Definition entry_args : list (Z * Reg) := [(112, RDI); (104, RSI); (96, RDX); (88, RCX); (80, R8); (72, R9)].

Definition syscall_before : list Instr := [Swapgs; StoreGs 0 RSP; LoadGs RSP 8] ++ (Push <$> entry_pushes) ++ loads RSP entry_args.
Definition syscall_after (cs ss : Z) : list Instr :=
  (Pop <$> [R15; R14; R13; R12; RBP; RBX; R11; RCX]) ++ [AddRsp 56; LoadGs RSP 0; Swapgs; Sysretq cs ss].

Definition syscall_entry (cs ss : Z) (s : Cpu) : Cpu := run (syscall_after cs ss) (handler (run syscall_before s)).

(** ** The system call by interrupt *)

Definition wrapper_pushes : list Reg := [RAX; RBX; RCX; RDX; RSI; RDI; RBP; R8; R9; R10; R11; R12; R13; R14; R15].

Definition wrapper_before : list Instr :=
  (Push <$> wrapper_pushes) ++
  [Mov R10 RDX; Mov R11 RSI; Mov R12 RDI; Mov RDI RAX; Mov RSI RBX; Mov RDX RCX; Mov RCX R10; Mov R8 R11; Mov R9 R12].
Definition wrapper_after : list Instr :=
  [Store RSP (14 * 8) RAX] ++ (Pop <$> [R15; R14; R13; R12; R11; R10; R9; R8; RBP; RDI; RSI; RDX; RCX; RBX; RAX]) ++ [Iretq].

Definition syscall_wrapper (s : Cpu) : Cpu := run wrapper_after (handler (run wrapper_before s)).

(** ** Exceptions and interrupts of devices *)

Definition exception_pushes : list Reg := [RAX; RCX; RDX; RSI; RDI; R8; R9; R10; R11].

Definition exception_wrapper (s : Cpu) : Cpu :=
  run ((Pop <$> [R11; R10; R9; R8; RDI; RSI; RDX; RCX; RAX]) ++ [Iretq]) (handler (run (Push <$> exception_pushes) s)).

Definition exception_with_error_wrapper (s : Cpu) : Cpu :=
  run ((Pop <$> [R11; R10; R9; R8; RDI; RSI; RDX; RCX; RAX]) ++ [AddRsp 8; Iretq])
    (handler (run ((Push <$> exception_pushes) ++ [Load RDI RSP 72; Lea RSI RSP 80]) s)).
End Handlers.

(** What [iretq] takes from the stack at [a]: where to go on. *)
Record resumes (a : Z) (s s' : Cpu) : Prop := {
  re_pc : pc s' = word a s;
  re_cs : code_seg s' = word (a + 8) s;
  re_flags : flags s' = word (a + 16) s;
  re_rsp : reg s' RSP = word (a + 24) s;
  re_ss : stack_seg s' = word (a + 32) s
}.

Lemma iretq_spec s : 0 <= reg s RSP -> reg s RSP + 40 < 2 ^ 64 -> let s' := exec Iretq s in
  resumes (reg s RSP) s s' /\ (forall r, r <> RSP -> reg s' r = reg s r) /\ memory s' = memory s /\ gs_base s' = gs_base s /\ kernel_gs s' = kernel_gs s.
Proof.
  intros H0 H1 s'. assert (forall k, 0 <= k <= 32 -> reg s RSP +[64] k = reg s RSP + k) as Ha by (intros k Hk; apply wrap_small; unfold in_width; lia).
  split; [|split; [|done]].
  - constructor; unfold s'; cbn [exec]; unfold set_reg, set_flags, set_segs, set_pc; cbn [pc code_seg stack_seg flags reg]; rewrite ?Ha by lia; done.
  - intros r Hr. unfold s'. cbn [exec]. rewrite reg_set_reg, bool_decide_eq_false_2 by done. done.
Qed.

Lemma add_rsp_spec n s : 0 <= reg s RSP + n < 2 ^ 64 -> let s' := exec (AddRsp n) s in
  reg s' RSP = reg s RSP + n /\ (forall r, r <> RSP -> reg s' r = reg s r) /\ memory s' = memory s /\ same_rest s s'.
Proof.
  intros Hn s'. unfold s'. cbn [exec]. split; [rewrite reg_set_reg, bool_decide_eq_true_2 by done; by apply wrap_small|].
  split; [intros r Hr; by rewrite reg_set_reg, bool_decide_eq_false_2|done].
Qed.

Lemma resumes_same a s s1 s' : 0 <= a -> (forall x, a <= x < a + 40 -> byte (memory s1) x = byte (memory s) x) -> resumes a s1 s' -> resumes a s s'.
Proof.
  intros Ha Hm [H1 H2 H3 H4 H5]. assert (forall k, 0 <= k <= 32 -> word (a + k) s1 = word (a + k) s) as Hw by (intros k Hk; apply load_ext; intros x Hx; apply Hm; lia).
  pose proof (Hw 0 ltac:(lia)) as H0. rewrite Z.add_0_r in H0. constructor; [by rewrite <- H0|..]; rewrite <- Hw by lia; done.
Qed.

(** ** Exceptions *)

Definition interrupted (room frame : Z) (s : Cpu) : Prop := wide s /\ room <= reg s RSP /\ reg s RSP + frame < 2 ^ 64.

Lemma exception_registers_ok : RSP ∉ exception_pushes /\ NoDup exception_pushes /\ forall r, r ∈ exception_pushes \/ r ∈ callee_saved \/ r = RSP.
Proof.
  split; [apply (bool_decide_unpack _); vm_compute; exact I|]. split; [apply (bool_decide_unpack _); vm_compute; exact I|].
  intros r. apply (bool_decide_unpack _). destruct r; vm_compute; exact I.
Qed.

Section Returns.
Context (handler : Cpu -> Cpu).

(** The common part: the registers after the handler and the pops. *)
Lemma exception_body n kept s mid : Callee handler n kept (mid (run (Push <$> exception_pushes) s)) -> 72 <= n -> interrupted 72 0 s ->
  (forall s1, reg (mid s1) RSP = reg s1 RSP /\ (forall r, r ∈ callee_saved -> reg (mid s1) r = reg s1 r) /\ memory (mid s1) = memory s1) ->
  let s2 := handler (mid (run (Push <$> exception_pushes) s)) in
  let s3 := run (Pop <$> reverse exception_pushes) s2 in
  reg s3 RSP = reg s RSP /\ (forall r, r <> RSP -> reg s3 r = reg s r) /\ (forall x, reg s RSP <= x < reg s RSP - 72 + n -> byte (memory s3) x = byte (memory s) x).
Proof.
  intros [Cs Cr Cf _] Hn (Hw & Hroom & _) Hmid s2 s3. destruct exception_registers_ok as (Hno & Hnd & Hall). set (s1 := run (Push <$> exception_pushes) s) in *.
  destruct (pushes_spec exception_pushes s Hno Hw ltac:(cbn; lia)) as (P1 & P2 & _ & _ & P5 & _). fold s1 in P1, P2, P5. change (8 * Z.of_nat (length exception_pushes)) with 72 in *.
  destruct (Hmid s1) as (M1 & M2 & M3). set (sm := mid s1) in *. assert (reg s2 RSP = reg s RSP - 72) as E2 by (unfold s2; rewrite Cs, M1; exact P1).
  assert (forall x, reg s RSP - 72 <= x < reg s RSP - 72 + n -> byte (memory s2) x = byte (memory s1) x) as Em2 by (intros x Hx; unfold s2; rewrite <- M3; apply Cf; left; rewrite M1, P1; exact Hx).
  destruct (restore_spec [] exception_pushes s s2 Hno Hnd Hw) as (R1 & R2 & R3 & _ & R5).
  { change (8 * Z.of_nat (length ([] ++ exception_pushes))) with 72. lia. }
  { change (8 * Z.of_nat (length ([] ++ exception_pushes))) with 72. exact E2. }
  { intros x Hx. apply Em2. rewrite E2 in Hx. cbn [length Z.of_nat] in Hx. lia. }
  fold s3 in R1, R2, R3, R5. split; [rewrite R1; cbn; lia|]. split.
  - intros r Hr. destruct (decide (r ∈ exception_pushes)) as [Hin|Hout]; [by apply R2|]. rewrite R3 by done. destruct (Hall r) as [?|[Hc|?]]; [done| |done].
    unfold s2. rewrite Cr, M2 by done. by apply P2.
  - intros x Hx. rewrite R5, Em2 by lia. apply P5. lia.
Qed.

(** An exception or a device interrupt is invisible to the program that it interrupts: the
    program goes on where it was, with all its registers. *)
Lemma exception_wrapper_spec kept s : Callee handler 112 kept (run (Push <$> exception_pushes) s) -> interrupted 72 40 s ->
  let s' := exception_wrapper handler s in resumes (reg s RSP) s s' /\ forall r, r <> RSP -> reg s' r = reg s r.
Proof.
  intros Hc (Hw & H1 & H2) s'. destruct (exception_body 112 kept s (fun s => s) Hc ltac:(lia)) as (B1 & B2 & B3); [split; [done|lia]|done|].
  set (s3 := run (Pop <$> reverse exception_pushes) _) in *. assert (s' = exec Iretq s3) as Es by (unfold s', exception_wrapper; by rewrite run_app).
  destruct (iretq_spec s3 ltac:(rewrite B1; lia) ltac:(rewrite B1; lia)) as (I1 & I2 & _). rewrite <- Es in I1, I2. rewrite B1 in I1. split.
  - apply (resumes_same _ s s3); [lia| |done]. intros x Hx. apply B3. lia.
  - intros r Hr. rewrite I2 by done. by apply B2.
Qed.

(** The same with an error code, which the handler gets with a pointer to the frame. *)
Lemma exception_with_error_spec kept s : interrupted 72 48 s ->
  let s1 := run ((Push <$> exception_pushes) ++ [Load RDI RSP 72; Lea RSI RSP 80]) s in Callee handler 120 kept s1 ->
  let s' := exception_with_error_wrapper handler s in
  reg s1 RDI = word (reg s RSP) s /\ reg s1 RSI = reg s RSP + 8 /\ resumes (reg s RSP + 8) s s' /\ forall r, r <> RSP -> reg s' r = reg s r.
Proof.
  intros (Hw & H1 & H2) s1 Hc s'. set (mid := run [Load RDI RSP 72; Lea RSI RSP 80]).
  assert (forall q, reg (mid q) RDI = word (reg q RSP +[64] 72) q /\ reg (mid q) RSI = reg q RSP +[64] 80) as Hmid by (intros q; split; reflexivity). set (s0 := run (Push <$> exception_pushes) s).
  assert (s1 = mid s0) as E1 by apply run_app. destruct exception_registers_ok as (Hno & _ & _).
  destruct (pushes_spec exception_pushes s Hno Hw ltac:(cbn; lia)) as (P1 & _ & _ & _ & P5 & _). fold s0 in P1, P5. change (8 * Z.of_nat (length exception_pushes)) with 72 in *.
  destruct (exception_body 120 kept s mid Hc ltac:(lia)) as (B1 & B2 & B3); [split; [done|lia]| |].
  { intros q. split; [reflexivity|]. split; [|reflexivity]. intros r Hr. unfold callee_saved in Hr. repeat (apply elem_of_cons in Hr as [->|Hr]; [reflexivity|]). by apply not_elem_of_nil in Hr. }
  fold s0 in B1, B2, B3. rewrite <- E1 in B1, B2, B3. set (s3 := run (Pop <$> reverse exception_pushes) (handler s1)) in *.
  assert (s' = exec Iretq (exec (AddRsp 8) s3)) as Es by (unfold s', exception_with_error_wrapper; by rewrite run_app). set (s4 := exec (AddRsp 8) s3) in *.
  destruct (add_rsp_spec 8 s3 ltac:(rewrite B1; lia)) as (E4 & E4' & M4 & _). fold s4 in E4, E4', M4. rewrite B1 in E4.
  destruct (iretq_spec s4 ltac:(rewrite E4; lia) ltac:(rewrite E4; lia)) as (I1 & I2 & _). rewrite <- Es in I1, I2. rewrite E4 in I1.
  split; [|split; [|split]].
  - rewrite E1, (proj1 (Hmid s0)), P1, wrap_small by (unfold in_width; lia).
    replace (reg s RSP - 72 + 72) with (reg s RSP) by lia. apply (word_outside _ _ _ _ _ P5). lia.
  - rewrite E1, (proj2 (Hmid s0)), P1, wrap_small by (unfold in_width; lia). lia.
  - apply (resumes_same _ s s4); [lia| |done]. intros x Hx. rewrite M4. apply B3. lia.
  - intros r Hr. rewrite I2, E4' by done. by apply B2.
Qed.

(** ** The system call by interrupt *)

Definition wrapper_moves : list Instr := [Mov R10 RDX; Mov R11 RSI; Mov R12 RDI; Mov RDI RAX; Mov RSI RBX; Mov RDX RCX; Mov RCX R10; Mov R8 R11; Mov R9 R12].

Lemma wrapper_moves_spec q : let q' := run wrapper_moves q in
  (reg q' RDI = reg q RAX /\ reg q' RSI = reg q RBX /\ reg q' RDX = reg q RCX /\ reg q' RCX = reg q RDX /\ reg q' R8 = reg q RSI /\ reg q' R9 = reg q RDI) /\
  reg q' RSP = reg q RSP /\ memory q' = memory q.
Proof. repeat split. Qed.

Lemma wrapper_registers_ok : RSP ∉ wrapper_pushes /\ NoDup (tail wrapper_pushes) /\ forall r, r <> RSP -> r <> RAX -> r ∈ tail wrapper_pushes.
Proof.
  split; [apply (bool_decide_unpack _); vm_compute; exact I|]. split; [apply (bool_decide_unpack _); vm_compute; exact I|].
  intros r H1 H2. destruct r; first [destruct (H1 eq_refl)|destruct (H2 eq_refl)|apply (bool_decide_unpack _); vm_compute; exact I].
Qed.

Lemma syscall_wrapper_spec kept s : interrupted 120 40 s -> let s1 := run wrapper_before s in Callee handler 160 kept s1 -> let s' := syscall_wrapper handler s in in_width 64 (reg (handler s1) RAX) ->
  (reg s1 RDI = reg s RAX /\ reg s1 RSI = reg s RBX /\ reg s1 RDX = reg s RCX /\ reg s1 RCX = reg s RDX /\ reg s1 R8 = reg s RSI /\ reg s1 R9 = reg s RDI) /\
  resumes (reg s RSP) s s' /\ reg s' RAX = reg (handler s1) RAX /\ forall r, r <> RSP -> r <> RAX -> reg s' r = reg s r.
Proof.
  intros (Hw & H1 & H2) s1 [Cs _ Cf _] s' Hv. destruct wrapper_registers_ok as (Hno & Hnd & Hall).
  destruct (pushes_spec wrapper_pushes s Hno Hw ltac:(cbn; lia)) as (P1 & P2 & _ & _ & P5 & _). set (s0 := run (Push <$> wrapper_pushes) s) in *. change (8 * Z.of_nat (length wrapper_pushes)) with 120 in *.
  assert (s1 = run wrapper_moves s0) as E1 by apply run_app. destruct (wrapper_moves_spec s0) as ((A1 & A2 & A3 & A4 & A5 & A6) & A7 & A8). rewrite <- E1 in *.
  set (s2 := handler s1) in *. assert (reg s2 RSP = reg s RSP - 120) as E2 by (rewrite Cs, A7; exact P1).
  assert (forall x, reg s RSP - 120 <= x < reg s RSP + 40 -> byte (memory s2) x = byte (memory s0) x) as Em2 by (intros x Hx; rewrite <- A8; apply Cf; left; rewrite A7, P1; lia).
  set (s2' := exec (Store RSP (14 * 8) RAX) s2). assert (reg s2' = reg s2) as Er by done.
  assert (memory s2' = store 8 (reg s RSP - 8) (reg s2 RAX) (memory s2)) as Em.
  { unfold s2'. cbn [exec]. unfold set_word, set_memory. cbn [memory]. f_equal. rewrite E2, wrap_small by (unfold in_width; lia). lia. }
  destruct (restore_spec [RAX] (tail wrapper_pushes) s s2' Hno Hnd Hw) as (R1 & R2 & R3 & _ & R5).
  { change (8 * Z.of_nat (length ([RAX] ++ tail wrapper_pushes))) with 120. lia. }
  { change (8 * Z.of_nat (length ([RAX] ++ tail wrapper_pushes))) with 120. by rewrite Er. }
  { intros x Hx. change (Push <$> [RAX] ++ tail wrapper_pushes) with (Push <$> wrapper_pushes). fold s0. rewrite Er, E2 in Hx. change (8 * Z.of_nat (length [RAX])) with 8 in Hx.
    rewrite Em, (store_outside (reg s RSP - 8) (reg s2 RAX) (memory s2)) by lia. apply Em2. lia. }
  set (s3 := run (Pop <$> reverse (tail wrapper_pushes)) s2') in *. change (8 * Z.of_nat (length [RAX])) with 8 in R1.
  destruct (pops_spec [RAX] s3) as (Q1 & Q2 & _ & Q4 & Q5).
  { apply (bool_decide_unpack _); vm_compute; exact I. }
  { apply (bool_decide_unpack _); vm_compute; exact I. }
  { rewrite R1. lia. }
  { rewrite R1. change (8 * Z.of_nat (length [RAX])) with 8. lia. }
  set (s4 := run (Pop <$> [RAX]) s3) in *. change (8 * Z.of_nat (length [RAX])) with 8 in Q1.
  assert (s' = exec Iretq s4) as Es. { unfold s', syscall_wrapper. fold s1 s2. unfold s4, s3, s2', wrapper_after. change (Pop <$> [R15; R14; R13; R12; R11; R10; R9; R8; RBP; RDI; RSI; RDX; RCX; RBX; RAX]) with ((Pop <$> reverse (tail wrapper_pushes)) ++ (Pop <$> [RAX])). by rewrite !run_app. }
  assert (reg s4 RSP = reg s RSP) as E4 by (rewrite Q1, R1; lia). destruct (iretq_spec s4) as (I1 & I2 & _); [rewrite E4; lia|rewrite E4; lia|]. rewrite <- Es in I1, I2. rewrite E4 in I1.
  split; [rewrite A1, A2, A3, A4, A5, A6, !P2 by done; done|]. split; [|split].
  - apply (resumes_same _ s s4); [lia| |done]. intros x Hx. rewrite Q4, R5, Em. rewrite (store_outside (reg s RSP - 8) (reg s2 RAX) (memory s2)) by lia. rewrite Em2 by lia. apply P5. lia.
  - rewrite I2 by done. rewrite (Q5 0%nat RAX eq_refl). unfold word. rewrite R5, Em, R1. replace (reg s RSP - 8 + 8 * Z.of_nat 0) with (reg s RSP - 8) by lia. by apply (load_store_eq 8).
  - intros r Hr Ha. rewrite I2 by done. rewrite Q2; [|done|intros ->%list_elem_of_singleton; by apply Ha]. apply R2. by apply Hall.
Qed.

(** ** The fast system call *)

(** The per-processor area at [kernel_gs]: the saved stack pointer of the program, and
    the top of a kernel stack with room for the frame. *)
Record entry_ok (s : Cpu) : Prop := {
  eo_wide : wide s;
  eo_data : 0 <= kernel_gs s /\ kernel_gs s + 16 < 2 ^ 64;
  eo_stack : 120 <= word (kernel_gs s + 8) s < 2 ^ 64;
  eo_apart : word (kernel_gs s + 8) s <= kernel_gs s \/ kernel_gs s + 16 <= word (kernel_gs s + 8) s - 120
}.

Lemma entry_registers_ok : RSP ∉ entry_pushes /\ RSP ∉ entry_args.*2 /\ NoDup entry_args.*2 /\ NoDup (drop 7 entry_pushes) /\ forall r, r ∈ RCX :: R11 :: callee_saved -> r ∈ drop 7 entry_pushes.
Proof.
  split; [apply (bool_decide_unpack _); vm_compute; exact I|]. split; [apply (bool_decide_unpack _); vm_compute; exact I|]. split; [apply (bool_decide_unpack _); vm_compute; exact I|].
  split; [apply (bool_decide_unpack _); vm_compute; exact I|]. intros r Hr. exact Hr.
Qed.

(** The first three instructions: on the kernel's stack. *)
Definition to_kernel : list Instr := [Swapgs; StoreGs 0 RSP; LoadGs RSP 8].

Lemma to_kernel_spec s : entry_ok s -> let a := run to_kernel s in
  reg a RSP = word (kernel_gs s + 8) s /\ (forall r, r <> RSP -> reg a r = reg s r) /\ wide a /\ memory a = store 8 (kernel_gs s) (reg s RSP) (memory s) /\
  gs_base a = kernel_gs s /\ kernel_gs a = gs_base s /\ flags a = flags s.
Proof.
  intros [[Hr Hf] Hd Hs Hap] a. assert (reg a RSP = load 8 (kernel_gs s +[64] 8) (store 8 (kernel_gs s +[64] 0) (reg s RSP) (memory s)) /\ memory a = store 8 (kernel_gs s +[64] 0) (reg s RSP) (memory s)) as [E1 E2] by (split; reflexivity).
  rewrite Z.add_0_r in E1, E2. rewrite !(wrap_small 64 (kernel_gs s)) in E1, E2 by (unfold in_width; lia). rewrite wrap_small in E1 by (unfold in_width; lia). rewrite (load_store_ne 8 8) in E1 by lia.
  assert (forall r, r <> RSP -> reg a r = reg s r) as E3.
  { intros r Hne. unfold a, to_kernel, run. cbn [foldl exec]. rewrite reg_set_reg, bool_decide_eq_false_2 by done. reflexivity. }
  split; [exact E1|]. split; [exact E3|]. split; [|split; [exact E2|done]]. split; [|exact Hf]. intros r. destruct (decide (r = RSP)) as [->|Hne]; [rewrite E1; change (load 8 (kernel_gs s + 8) (memory s)) with (word (kernel_gs s + 8) s); unfold in_width; lia|by rewrite E3].
Qed.

(** The last: back on the stack of the program, and back to it. *)
Lemma to_user_spec cs ss q : 0 <= gs_base q < 2 ^ 64 -> let q' := run [LoadGs RSP 0; Swapgs; Sysretq cs ss] q in
  reg q' RSP = word (gs_base q) q /\ (forall r, r <> RSP -> reg q' r = reg q r) /\ pc q' = reg q RCX /\ flags q' = reg q R11 /\ code_seg q' = cs /\ stack_seg q' = ss /\
  gs_base q' = kernel_gs q /\ kernel_gs q' = gs_base q /\ memory q' = memory q.
Proof.
  intros Hg q'. assert (reg q' RSP = word (gs_base q +[64] 0) q) as E by reflexivity. rewrite Z.add_0_r, wrap_small in E by (unfold in_width; lia). split; [exact E|].
  split; [|by repeat split]. intros r Hr. destruct r; first [destruct (Hr eq_refl)|reflexivity].
Qed.

Lemma syscall_entry_spec cs ss s : entry_ok s -> let s1 := run syscall_before s in
  Callee handler 120 (fun x => kernel_gs s <= x < kernel_gs s + 8) s1 -> let s' := syscall_entry handler cs ss s in
  (reg s1 RDI = reg s RAX /\ reg s1 RSI = reg s RDI /\ reg s1 RDX = reg s RSI /\ reg s1 RCX = reg s RDX /\ reg s1 R8 = reg s R10 /\ reg s1 R9 = reg s R8) /\
  (forall x, ~ (kernel_gs s <= x < kernel_gs s + 8) -> ~ (word (kernel_gs s + 8) s - 120 <= x < word (kernel_gs s + 8) s) -> byte (memory s1) x = byte (memory s) x) /\
  pc s' = reg s RCX /\ flags s' = reg s R11 /\ reg s' RSP = reg s RSP /\ (forall r, r ∈ callee_saved -> reg s' r = reg s r) /\
  reg s' RAX = reg (handler s1) RAX /\ gs_base s' = gs_base s /\ kernel_gs s' = kernel_gs s /\ code_seg s' = cs /\ stack_seg s' = ss.
Proof.
  intros Hok s1 [Cs _ Cf Cg] s'. destruct (to_kernel_spec s Hok) as (K1 & K2 & K3 & K4 & K5 & K6 & _). set (a := run to_kernel s) in *. destruct Hok as [Hw Hd Hst Hap].
  set (top := word (kernel_gs s + 8) s) in *. destruct entry_registers_ok as (Hno & Hna & Hda & Hdd & Hall).
  destruct (pushes_spec entry_pushes a Hno K3 ltac:(rewrite K1; cbn; lia)) as (P1 & P2 & P3 & P4 & P5 & P6). change (8 * Z.of_nat (length entry_pushes)) with 120 in *. rewrite K1 in P1, P5, P6.
  set (b := run (Push <$> entry_pushes) a) in *. destruct P3 as (_ & _ & _ & _ & P3g & P3k).
  destruct (loads_spec RSP entry_args b Hna Hda) as (L1 & (_ & _ & _ & _ & Lg & Lk) & L3 & L4).
  { intros o r Hin. rewrite P1. assert (0 <= o <= 112) by (unfold entry_args in Hin; repeat (apply elem_of_cons in Hin as [[= -> ->]|Hin]; [lia|]); by apply not_elem_of_nil in Hin). lia. }
  assert (s1 = run (loads RSP entry_args) b) as Es1 by (unfold s1, syscall_before, b, a; by rewrite <- !run_app). rewrite <- Es1 in L1, Lg, Lk, L3, L4. assert (b = run (Push <$> entry_pushes) a) as Eb by reflexivity.
  assert (s' = run (syscall_after cs ss) (handler s1)) as Es' by reflexivity. clearbody b s1 s'.
  assert (forall o r i q, (o, r) ∈ entry_args -> entry_pushes !! i = Some q -> q <> RSP -> o = 112 - 8 * Z.of_nat i -> reg s1 r = reg s q) as Harg.
  { intros o r i q Hin Hi Hq ->. rewrite (L4 _ _ Hin), P1. replace (top - 120 + (112 - 8 * Z.of_nat i)) with (top - 8 * (Z.of_nat i + 1)) by lia. rewrite (P6 i q Hi). by apply K2. }
  set (s2 := handler s1) in *. assert (reg s1 RSP = top - 120) as E1 by (rewrite L1 by exact Hna; exact P1). assert (reg s2 RSP = top - 120) as E2 by (by rewrite Cs).
  assert (forall x, top - 120 <= x < top -> byte (memory s2) x = byte (memory b) x) as Em2 by (intros x Hx; rewrite <- L3; apply Cf; left; rewrite E1; lia).
  assert (word (kernel_gs s) s2 = reg s RSP) as Ed2.
  { transitivity (load 8 (kernel_gs s) (memory a)); [|rewrite K4; apply (load_store_eq 8); apply Hw]. apply load_ext. intros x Hx. rewrite Cf by (right; lia). rewrite L3. apply P5. lia. }
  destruct Cg as [G1 G2]. fold s2 in G1, G2. rewrite Lg, P3g, K5 in G1. rewrite Lk, P3k, K6 in G2. clearbody s2.
  destruct (restore_spec (take 7 entry_pushes) (drop 7 entry_pushes) a s2) as (R1 & R2 & R3 & R4 & R5); [exact Hno|exact Hdd|exact K3| | | |].
  { change (8 * Z.of_nat (length (take 7 entry_pushes ++ drop 7 entry_pushes))) with 120. rewrite K1. lia. }
  { change (8 * Z.of_nat (length (take 7 entry_pushes ++ drop 7 entry_pushes))) with 120. by rewrite K1. }
  { intros x Hx. rewrite take_drop, <- Eb. apply Em2. rewrite E2, K1 in Hx. change (8 * Z.of_nat (length (take 7 entry_pushes))) with 56 in Hx. lia. }
  change (8 * Z.of_nat (length (take 7 entry_pushes))) with 56 in R1. rewrite K1 in R1.
  assert (s' = run [LoadGs RSP 0; Swapgs; Sysretq cs ss] (exec (AddRsp 56) (run (Pop <$> reverse (drop 7 entry_pushes)) s2))) as Es3.
  { rewrite Es'. unfold syscall_after. change (Pop <$> [R15; R14; R13; R12; RBP; RBX; R11; RCX]) with (Pop <$> reverse (drop 7 entry_pushes)). rewrite run_app, run_cons. exact eq_refl. }
  set (s3 := run (Pop <$> reverse (drop 7 entry_pushes)) s2) in *. clearbody s3. destruct (add_rsp_spec 56 s3) as (A1 & A2 & A3 & (_ & _ & _ & _ & A4 & A5)); [rewrite R1; lia|]. set (s4 := exec (AddRsp 56) s3) in *. clearbody s4.
  destruct R4 as (_ & _ & _ & _ & R4g & R4k). destruct (to_user_spec cs ss s4) as (U1 & U2 & U3 & U4 & U5 & U6 & U7 & U8 & _); [rewrite A4, R4g, G1; lia|]. rewrite <- Es3 in U1, U2, U3, U4, U5, U6, U7, U8.
  assert (forall r, r ∈ RCX :: R11 :: callee_saved -> r <> RSP) as Hnsp by (intros r Hr ->; revert Hr; apply (bool_decide_unpack (RSP ∉ RCX :: R11 :: callee_saved)); vm_compute; exact I).
  assert (forall r, r ∈ RCX :: R11 :: callee_saved -> reg s4 r = reg s r) as Hback by (intros r Hr; rewrite A2, R2, K2; [done|by apply Hnsp|by apply Hall|by apply Hnsp]).
  assert (forall r, r ∈ callee_saved -> r ∈ RCX :: R11 :: callee_saved) as Hin by (intros r Hr; by right; right).
  split; [|split; [|split; [|split; [|split; [|split; [|split; [|split; [|split; [|by split]]]]]]]]].
  - split; [refine (Harg 112 RDI 0%nat RAX _ eq_refl _ eq_refl)|split; [refine (Harg 104 RSI 1%nat RDI _ eq_refl _ eq_refl)|split; [refine (Harg 96 RDX 2%nat RSI _ eq_refl _ eq_refl)|split; [refine (Harg 88 RCX 3%nat RDX _ eq_refl _ eq_refl)|split; [refine (Harg 80 R8 4%nat R10 _ eq_refl _ eq_refl)|refine (Harg 72 R9 5%nat R8 _ eq_refl _ eq_refl)]]]]];
      first [discriminate|apply (bool_decide_unpack _); vm_compute; exact I].
  - intros x Hx Hx'. rewrite L3, (P5 x Hx'), K4. apply store_outside. exact Hx.
  - rewrite U3. apply Hback. by left.
  - rewrite U4. apply Hback. by right; left.
  - rewrite U1, A4, R4g, G1. unfold word. rewrite A3, R5. exact Ed2.
  - intros r Hr. rewrite U2 by (by apply Hnsp, Hin). by apply Hback, Hin.
  - rewrite U2, A2, R3; [done|done|apply (bool_decide_unpack _); vm_compute; exact I|done|done].
  - rewrite U7, A5, R4k. exact G2.
  - rewrite U8, A4, R4g. exact G1.
Qed.

End Returns.

(** ** What the entries promise *)

(** C40: What an exception or a device interrupt gives back to the program that it
    interrupts: whatever the handler does within the calling convention, the program
    goes on at the instruction, in the ring, with the flags and on the stack that the
    processor pushed, and every other general register has its value again.  When the
    processor pushes an error code, the handler gets the code and a pointer to the frame,
    and the return skips it.  The SSE registers are not saved: the program finds in them
    what the handler left there, which the convention lets it change
    ([interrupts_lose_sse]). *)
Theorem interrupts_transparent handler kept s : interrupted 72 48 s ->
  (let s1 := run (Push <$> exception_pushes) s in
   Callee handler 112 kept s1 ->
     let s' := exception_wrapper handler s in
     resumes (reg s RSP) s s' /\ (forall r, r <> RSP -> reg s' r = reg s r) /\ sse s' = sse (handler s1)) /\
  (let s1 := run ((Push <$> exception_pushes) ++ [Load RDI RSP 72; Lea RSI RSP 80]) s in
   Callee handler 120 kept s1 ->
     let s' := exception_with_error_wrapper handler s in
     reg s1 RDI = word (reg s RSP) s /\ reg s1 RSI = reg s RSP + 8 /\
     resumes (reg s RSP + 8) s s' /\ (forall r, r <> RSP -> reg s' r = reg s r) /\ sse s' = sse (handler s1)).
Proof.
  intros Hi. split; intros s1 Hc s'; (assert (sse s' = sse (handler s1)) as Hx by apply run_sse).
  - destruct (exception_wrapper_spec handler kept s Hc) as [Hr Hg]; [destruct Hi as (? & ? & ?); split; [done|lia]|]. done.
  - destruct (exception_with_error_spec handler kept s Hi Hc) as (H1 & H2 & H3 & H4). done.
Qed.

(** A handler that keeps to the calling convention and uses one SSE register changes it
    for the interrupted program. *)
Definition set_sse (v : Z) (s : Cpu) : Cpu := mkCpuState (reg s) (flags s) (pc s) (code_seg s) (stack_seg s) (gs_base s) (kernel_gs s) v (memory s).

Theorem interrupts_lose_sse v kept s : (forall s0, Callee (set_sse v) 112 kept s0) /\ sse (exception_wrapper (set_sse v) s) = v.
Proof. split; [done|]. unfold exception_wrapper. by rewrite run_sse. Qed.

(** A system call by interrupt passes the number and five arguments from rax, rbx, rcx,
    rdx, rsi and rdi to the handler in the order of the calling convention, and returns
    its result in rax; every other register is as before the call. *)
Theorem interrupt_call_correct handler kept s : interrupted 120 40 s -> let s1 := run wrapper_before s in
  Callee handler 160 kept s1 -> in_width 64 (reg (handler s1) RAX) -> let s' := syscall_wrapper handler s in
  (reg s1 RDI = reg s RAX /\ reg s1 RSI = reg s RBX /\ reg s1 RDX = reg s RCX /\ reg s1 RCX = reg s RDX /\ reg s1 R8 = reg s RSI /\ reg s1 R9 = reg s RDI) /\
  resumes (reg s RSP) s s' /\ reg s' RAX = reg (handler s1) RAX /\ forall r, r <> RSP -> r <> RAX -> reg s' r = reg s r.
Proof. intros Hi s1 Hc Hv. exact (syscall_wrapper_spec handler kept s Hi Hc Hv). Qed.

(** C9: A fast system call runs on the stack of the processor's area and not on the caller's,
    touches nothing but the first word of that area and the frame until the handler
    runs, passes the number and the first five arguments, and returns to the caller's
    instruction with its flags, its stack pointer, the registers the convention preserves
    and the result in rax.  The sixth argument is pushed but not passed. *)
Theorem fast_call_correct handler cs ss s : entry_ok s -> let s1 := run syscall_before s in
  Callee handler 120 (fun x => kernel_gs s <= x < kernel_gs s + 8) s1 -> let s' := syscall_entry handler cs ss s in
  (reg s1 RDI = reg s RAX /\ reg s1 RSI = reg s RDI /\ reg s1 RDX = reg s RSI /\ reg s1 RCX = reg s RDX /\ reg s1 R8 = reg s R10 /\ reg s1 R9 = reg s R8) /\
  (forall x, ~ (kernel_gs s <= x < kernel_gs s + 8) -> ~ (word (kernel_gs s + 8) s - 120 <= x < word (kernel_gs s + 8) s) -> byte (memory s1) x = byte (memory s) x) /\
  pc s' = reg s RCX /\ flags s' = reg s R11 /\ reg s' RSP = reg s RSP /\ (forall r, r ∈ callee_saved -> reg s' r = reg s r) /\
  reg s' RAX = reg (handler s1) RAX /\ gs_base s' = gs_base s /\ kernel_gs s' = kernel_gs s /\ code_seg s' = cs /\ stack_seg s' = ss.
Proof. intros Hok s1 Hc. exact (syscall_entry_spec handler cs ss s Hok Hc). Qed.

(** ** Witnesses *)

(** A handler that overwrites registers it may use and the word below its stack. *)
Definition demo_handler (s : Cpu) : Cpu := set_word (reg s RSP - 8) 0xAB (set_reg RAX 7 (set_reg RDI 0 (set_reg R10 0 s))).

Lemma demo_callee n kept s : (forall x, kept x -> ~ (reg s RSP - 8 <= x < reg s RSP)) -> Callee demo_handler n kept s.
Proof.
  intros Hk. split; [done| | |done].
  - intros r Hr. unfold callee_saved in Hr. repeat (apply elem_of_cons in Hr as [->|Hr]; [reflexivity|]). by apply not_elem_of_nil in Hr.
  - intros x Hx. unfold demo_handler, set_word, set_memory. cbn [memory]. apply (store_outside (reg s RSP - 8)).
    destruct Hx as [Hx|Hx%Hk]; lia.
Qed.

(** A program interrupted at 0x400100, with the frame of the processor at 0x8000. *)
Definition frame_words (a : Z) (l : list Z) (m : Mem) : Mem := foldl (fun m (x : nat * Z) => store 8 (a + 8 * Z.of_nat x.1) x.2 m) m (imap pair l).

Definition program_cpu (l : list Z) : Cpu :=
  mkCpuState (fun q => match q with RSP => 0x8000 | RAX => 1 | RDI => 2 | R10 => 3 | RBX => 4 | RCX => 0x400200 | R11 => 0x246 | _ => 5 end)
    0x246 0xFFFF000000001000 0x08 0x10 0 0x1000 0x5E5E (frame_words 0x8000 l (store 8 0x1008 0x9000 ∅)).

Lemma program_wide l : wide (program_cpu l).
Proof. split; [intros []; done|done]. Qed.

Lemma program_interrupted room frame l : room <= 0x8000 -> frame <= 0x1000 -> interrupted room frame (program_cpu l).
Proof. intros H1 H2. split; [apply program_wide|]. cbn. lia. Qed.

Lemma program_frame : word 0x8000 (program_cpu [0x400100; 0x23; 0x202; 0x700000; 0x1B]) = 0x400100 /\ word (0x8000 + 8) (program_cpu [9; 0x400100; 0x23; 0x202; 0x700000; 0x1B]) = 0x400100.
Proof. split; vm_compute; reflexivity. Qed.

Lemma interrupts_transparent_witness :
  (let s' := exception_wrapper demo_handler (program_cpu [0x400100; 0x23; 0x202; 0x700000; 0x1B]) in pc s' = 0x400100 /\ reg s' RDI = 2) /\
  (let s' := exception_with_error_wrapper demo_handler (program_cpu [9; 0x400100; 0x23; 0x202; 0x700000; 0x1B]) in pc s' = 0x400100 /\ reg s' RDI = 2).
Proof.
  pose proof program_frame as [F1 F2]. split.
  - generalize dependent (program_interrupted 72 48 [0x400100; 0x23; 0x202; 0x700000; 0x1B] ltac:(lia) ltac:(lia)). intros Hi.
    destruct (interrupts_transparent demo_handler (fun _ => False) _ Hi) as [H _]. destruct H as ([Hp _ _ _ _] & Hr & _); [by apply demo_callee|].
    split; [rewrite Hp; exact F1|exact (Hr RDI ltac:(discriminate))].
  - generalize dependent (program_interrupted 72 48 [9; 0x400100; 0x23; 0x202; 0x700000; 0x1B] ltac:(lia) ltac:(lia)). intros Hi.
    destruct (interrupts_transparent demo_handler (fun _ => False) _ Hi) as [_ H]. destruct H as (_ & _ & [Hp _ _ _ _] & Hr & _); [by apply demo_callee|].
    split; [rewrite Hp; exact F2|exact (Hr RDI ltac:(discriminate))].
Defined.

Lemma interrupt_call_correct_witness :
  let s' := syscall_wrapper demo_handler (program_cpu [0x400100; 0x23; 0x202; 0x700000; 0x1B]) in pc s' = 0x400100 /\ reg s' RAX = 7 /\ reg s' RDI = 2.
Proof.
  pose proof program_frame as [F1 _]. revert F1.
  generalize (program_interrupted 120 40 [0x400100; 0x23; 0x202; 0x700000; 0x1B] ltac:(lia) ltac:(lia)). intros Hi F1.
  destruct (interrupt_call_correct demo_handler (fun _ => False) _ Hi) as (_ & [Hp _ _ _ _] & Ha & Hr); [by apply demo_callee|split; [discriminate|reflexivity]|].
  split; [rewrite Hp; exact F1|]. split; [rewrite Ha; reflexivity|exact (Hr RDI ltac:(discriminate) ltac:(discriminate))].
Defined.

Lemma program_entry : entry_ok (program_cpu []).
Proof.
  assert (word (kernel_gs (program_cpu []) + 8) (program_cpu []) = 0x9000) as E by (vm_compute; reflexivity).
  split; [apply program_wide|cbn; lia|rewrite E; lia|rewrite E; right; cbn; lia].
Qed.

Lemma program_stack : reg (run syscall_before (program_cpu [])) RSP = 0x9000 - 120.
Proof. vm_compute. reflexivity. Qed.

Lemma fast_call_correct_witness :
  let s' := syscall_entry demo_handler 0x23 0x1B (program_cpu []) in pc s' = 0x400200 /\ reg s' RAX = 7 /\ reg s' RSP = 0x8000 /\ reg s' RBX = 4.
Proof.
  destruct (fast_call_correct demo_handler 0x23 0x1B (program_cpu []) program_entry) as (_ & _ & Hp & _ & Hs & Hr & Ha & _).
  { apply demo_callee. intros x Hx. rewrite program_stack. cbn [kernel_gs program_cpu] in Hx. lia. }
  split; [rewrite Hp; reflexivity|]. split; [rewrite Ha; reflexivity|]. split; [rewrite Hs; reflexivity|]. rewrite Hr; [reflexivity|by left].
Defined.
