(* ===== verification/Apic.v ===== *)
(** * The interrupt controllers ([arch/x86_64/{apic,ioapic}.rs], [interrupts/pic.rs])

    The commands that the kernel gives to the local controller of a processor (in its two
    modes), to the controller of the devices' lines, and to the old pair of controllers,
    against how these read them.  Theorems: an interrupt between processors reaches the
    ones it is meant for; after the start-up exactly the lines of the keyboard and the
    mouse are open, with the vectors of their gates; the old controllers are silent. *)

From Stdlib Require Import ZArith Lia Bool String.
From stdpp Require Import base numbers option list gmap.
From S2P Require Import Prelude.

Open Scope Z_scope.

(** ** The local controller *)

Definition APIC_REG_ID : Z := 0x20.
Definition APIC_REG_TPR : Z := 0x80.
Definition APIC_REG_EOI : Z := 0xB0.
Definition APIC_REG_SPURIOUS : Z := 0xF0.
Definition APIC_REG_ICR_LOW : Z := 0x300.
Definition APIC_REG_ICR_HIGH : Z := 0x310.
Definition APIC_REG_LVT_TIMER : Z := 0x320.
Definition APIC_REG_LVT_LINT0 : Z := 0x350.
Definition APIC_REG_LVT_LINT1 : Z := 0x360.
Definition APIC_REG_LVT_ERROR : Z := 0x370.
Definition APIC_REG_TIMER_INITIAL : Z := 0x380.
Definition APIC_REG_TIMER_DIVIDE : Z := 0x3E0.

Definition X2APIC_MSR_BASE : Z := 0x800.
Definition X2APIC_MSR_ID : Z := X2APIC_MSR_BASE + 0x02.
Definition X2APIC_MSR_TPR : Z := X2APIC_MSR_BASE + 0x08.
Definition X2APIC_MSR_EOI : Z := X2APIC_MSR_BASE + 0x0B.
Definition X2APIC_MSR_SPURIOUS : Z := X2APIC_MSR_BASE + 0x0F.
Definition X2APIC_MSR_ICR : Z := X2APIC_MSR_BASE + 0x30.
Definition X2APIC_MSR_LVT_TIMER : Z := X2APIC_MSR_BASE + 0x32.
Definition X2APIC_MSR_LVT_LINT0 : Z := X2APIC_MSR_BASE + 0x35.
Definition X2APIC_MSR_LVT_LINT1 : Z := X2APIC_MSR_BASE + 0x36.
Definition X2APIC_MSR_LVT_ERROR : Z := X2APIC_MSR_BASE + 0x37.
Definition X2APIC_MSR_TIMER_INITIAL : Z := X2APIC_MSR_BASE + 0x38.
Definition X2APIC_MSR_TIMER_DIVIDE : Z := X2APIC_MSR_BASE + 0x3E.

Definition IA32_APIC_BASE : Z := 0x1B.
Definition APIC_BASE_ENABLE : Z := Z.shiftl 1 11.
Definition APIC_BASE_X2APIC : Z := Z.shiftl 1 10.

Definition APIC_SPURIOUS_VECTOR : Z := 0xFF.
Definition APIC_SPURIOUS_ENABLE : Z := Z.shiftl 1 8.

Definition APIC_TIMER_ONESHOT : Z := 0.
Definition APIC_TIMER_PERIODIC : Z := Z.shiftl 1 17.

Definition IPI_DELIVERY_FIXED : Z := Z.shiftl 0 8.
Definition IPI_DELIVERY_INIT : Z := Z.shiftl 5 8.
Definition IPI_DELIVERY_STARTUP : Z := Z.shiftl 6 8.
Definition IPI_DEST_PHYSICAL : Z := Z.shiftl 0 11.
Definition IPI_DEST_LOGICAL : Z := Z.shiftl 1 11.
Definition IPI_LEVEL_ASSERT : Z := Z.shiftl 1 14.
Definition IPI_TRIGGER_EDGE : Z := Z.shiftl 0 15.
Definition IPI_TRIGGER_LEVEL : Z := Z.shiftl 1 15.
Definition IPI_DEST_NO_SHORTHAND : Z := Z.shiftl 0 18.
Definition IPI_DEST_ALL : Z := Z.shiftl 2 18.
Definition IPI_DEST_ALL_EXCEPT_SELF : Z := Z.shiftl 3 18.

Inductive ApicMode : Type := Disabled | XApic | X2Apic.

Inductive IpiDestination : Type :=
| Single (apic_id : Z)
| All
| AllExceptSelf
| Logical (mask : Z).

(** The two global variables: the mode and the base address of the registers. *)
Record Apic : Type := mkApic { APIC_MODE : ApicMode; APIC_BASE_ADDR : Z }.

(** What the kernel does to the machine: a register of the processor or a word of memory is
    written.  Reads are answered by the machine and appear as arguments. *)
Inductive Command : Type :=
| Wrmsr (msr value : Z)
| Store (addr value : Z).

(** The registers in memory, through the direct map at [hhdm]. *)
Definition apic_ptr (hhdm : Z) (s : Apic) : Z := APIC_BASE_ADDR s +[64] hhdm.
Definition write_apic_reg (base offset value : Z) : Command := Store (base +[64] offset / 4 * 4) value.

Definition init_xapic (hhdm : Z) (s : Apic) : list Command :=
  let ptr := apic_ptr hhdm s in
  let spurious := Z.lor APIC_SPURIOUS_ENABLE APIC_SPURIOUS_VECTOR in
  [write_apic_reg ptr APIC_REG_SPURIOUS spurious;
   write_apic_reg ptr APIC_REG_TPR 0;
   write_apic_reg ptr APIC_REG_LVT_TIMER (Z.shiftl 1 16);
   write_apic_reg ptr APIC_REG_LVT_LINT0 (Z.shiftl 1 16);
   write_apic_reg ptr APIC_REG_LVT_LINT1 (Z.shiftl 1 16);
   write_apic_reg ptr APIC_REG_LVT_ERROR (Z.shiftl 1 16)].

Definition init_x2apic : list Command :=
  let spurious := Z.lor APIC_SPURIOUS_ENABLE APIC_SPURIOUS_VECTOR in
  [Wrmsr X2APIC_MSR_SPURIOUS spurious;
   Wrmsr X2APIC_MSR_TPR 0;
   Wrmsr X2APIC_MSR_LVT_TIMER (Z.shiftl 1 16);
   Wrmsr X2APIC_MSR_LVT_LINT0 (Z.shiftl 1 16);
   Wrmsr X2APIC_MSR_LVT_LINT1 (Z.shiftl 1 16);
   Wrmsr X2APIC_MSR_LVT_ERROR (Z.shiftl 1 16)].

(** [ecx] and [edx] are what the processor says of itself; [base] is what it reads in the
    base register before, and [reread] in the same register after a value was written. *)
Definition init_apic (hhdm ecx edx base : Z) (reread : Z -> Z) (s : Apic) : Result unit string * Apic * list Command :=
  if Z.land edx (Z.shiftl 1 9) =? 0 then (Err "APIC not supported"%string, s, []) else
  let x2apic_supported := negb (Z.land ecx (Z.shiftl 1 21) =? 0) in
  let base_addr := Z.land base 0xFFFFFFFFFFFFF000 in
  let s := mkApic (APIC_MODE s) base_addr in
  let apic_base := Z.lor base APIC_BASE_ENABLE in
  let xapic (apic_base : Z) (before : list Command) :=
    let s := mkApic XApic base_addr in
    (Ok tt, s, before ++ [Wrmsr IA32_APIC_BASE apic_base] ++ init_xapic hhdm s) in
  if x2apic_supported then
    let apic_base := Z.lor apic_base APIC_BASE_X2APIC in
    let w := [Wrmsr IA32_APIC_BASE apic_base] in
    if negb (Z.land (reread apic_base) APIC_BASE_X2APIC =? 0) then (Ok tt, mkApic X2Apic base_addr, w ++ init_x2apic)
    else xapic apic_base w
  else xapic apic_base [].

Definition local_apic_eoi (hhdm : Z) (s : Apic) : list Command :=
  match APIC_MODE s with
  | X2Apic => [Wrmsr X2APIC_MSR_EOI 0]
  | XApic => [write_apic_reg (apic_ptr hhdm s) APIC_REG_EOI 0]
  | Disabled => []
  end.

(** [rdmsr] and [load] answer the reads. *)
Definition get_apic_id (rdmsr load : Z -> Z) (hhdm : Z) (s : Apic) : Z :=
  match APIC_MODE s with
  | X2Apic => wrap 32 (rdmsr X2APIC_MSR_ID)
  | XApic => Z.shiftr (load (apic_ptr hhdm s +[64] APIC_REG_ID / 4 * 4)) 24
  | Disabled => 0
  end.

Definition send_ipi_x2apic (dest : IpiDestination) (vector : Z) : list Command :=
  let icr := vector in
  let icr := Z.lor icr IPI_DELIVERY_FIXED in
  let icr := Z.lor icr IPI_DEST_PHYSICAL in
  let icr := Z.lor icr IPI_LEVEL_ASSERT in
  let icr := Z.lor icr IPI_TRIGGER_EDGE in
  let icr := match dest with
    | Single apic_id => Z.lor (Z.lor icr IPI_DEST_NO_SHORTHAND) (Z.shiftl apic_id 32)
    | All => Z.lor icr IPI_DEST_ALL
    | AllExceptSelf => Z.lor icr IPI_DEST_ALL_EXCEPT_SELF
    | Logical dest_mask => Z.lor (Z.lor (Z.lor icr IPI_DEST_LOGICAL) IPI_DEST_NO_SHORTHAND) (Z.shiftl dest_mask 32)
    end in
  [Wrmsr X2APIC_MSR_ICR icr].

(** The loop that waits for the previous interrupt: [reads i] is what the [i]-th read of the
    command register answers.  [None] while it still waits. *)
Fixpoint wait_idle (fuel : nat) (reads : nat -> Z) (i : nat) : option nat :=
  match fuel with
  | O => None
  | S fuel => if negb (Z.land (reads i) (Z.shiftl 1 12) =? 0) then wait_idle fuel reads (S i) else Some i
  end.

Definition send_ipi_xapic (fuel : nat) (reads : nat -> Z) (hhdm : Z) (s : Apic) (dest : IpiDestination) (vector : Z) : option (list Command) :=
  let ptr := apic_ptr hhdm s in
  match wait_idle fuel reads 0 with
  | None => None
  | Some _ =>
      let icr_low := vector in
      let icr_low := Z.lor icr_low (Z.land (wrap 32 IPI_DELIVERY_FIXED) 0xFFFFFFFF) in
      let icr_low := Z.lor icr_low (Z.land (wrap 32 IPI_DEST_PHYSICAL) 0xFFFFFFFF) in
      let icr_low := Z.lor icr_low (Z.land (wrap 32 IPI_LEVEL_ASSERT) 0xFFFFFFFF) in
      let icr_low := Z.lor icr_low (Z.land (wrap 32 IPI_TRIGGER_EDGE) 0xFFFFFFFF) in
      Some match dest with
      | Single apic_id =>
          let icr_high := wrap 32 (Z.shiftl apic_id 24) in
          [write_apic_reg ptr APIC_REG_ICR_HIGH icr_high; write_apic_reg ptr APIC_REG_ICR_LOW icr_low]
      | All => [write_apic_reg ptr APIC_REG_ICR_LOW (Z.lor icr_low (Z.land (wrap 32 IPI_DEST_ALL) 0xFFFFFFFF))]
      | AllExceptSelf => [write_apic_reg ptr APIC_REG_ICR_LOW (Z.lor icr_low (Z.land (wrap 32 IPI_DEST_ALL_EXCEPT_SELF) 0xFFFFFFFF))]
      | Logical dest_mask =>
          let icr_low := Z.lor icr_low (Z.land (wrap 32 IPI_DEST_LOGICAL) 0xFFFFFFFF) in
          [write_apic_reg ptr APIC_REG_ICR_HIGH dest_mask; write_apic_reg ptr APIC_REG_ICR_LOW icr_low]
      end
  end.

Definition send_ipi (fuel : nat) (reads : nat -> Z) (hhdm : Z) (s : Apic) (dest : IpiDestination) (vector : Z) : option (list Command) :=
  match APIC_MODE s with
  | X2Apic => Some (send_ipi_x2apic dest vector)
  | XApic => send_ipi_xapic fuel reads hhdm s dest vector
  | Disabled => Some []
  end.

Definition send_init_ipi (hhdm : Z) (s : Apic) (apic_id : Z) : list Command :=
  match APIC_MODE s with
  | X2Apic =>
      let icr := 0 in
      let icr := Z.lor icr IPI_DELIVERY_INIT in
      let icr := Z.lor icr IPI_DEST_PHYSICAL in
      let icr := Z.lor icr IPI_LEVEL_ASSERT in
      let icr := Z.lor icr IPI_TRIGGER_LEVEL in
      let icr := Z.lor icr (Z.shiftl apic_id 32) in
      [Wrmsr X2APIC_MSR_ICR icr]
  | XApic =>
      let ptr := apic_ptr hhdm s in
      let icr_high := wrap 32 (Z.shiftl apic_id 24) in
      let icr_low := wrap 32 (Z.lor (Z.lor IPI_DELIVERY_INIT IPI_LEVEL_ASSERT) IPI_TRIGGER_LEVEL) in
      [write_apic_reg ptr APIC_REG_ICR_HIGH icr_high; write_apic_reg ptr APIC_REG_ICR_LOW icr_low]
  | Disabled => []
  end.

Definition send_startup_ipi (hhdm : Z) (s : Apic) (apic_id vector : Z) : list Command :=
  match APIC_MODE s with
  | X2Apic =>
      let icr := vector in
      let icr := Z.lor icr IPI_DELIVERY_STARTUP in
      let icr := Z.lor icr IPI_DEST_PHYSICAL in
      let icr := Z.lor icr IPI_LEVEL_ASSERT in
      let icr := Z.lor icr IPI_TRIGGER_EDGE in
      let icr := Z.lor icr (Z.shiftl apic_id 32) in
      [Wrmsr X2APIC_MSR_ICR icr]
  | XApic =>
      let ptr := apic_ptr hhdm s in
      let icr_high := wrap 32 (Z.shiftl apic_id 24) in
      let icr_low := Z.lor vector (wrap 32 (Z.lor (Z.lor IPI_DELIVERY_STARTUP IPI_LEVEL_ASSERT) IPI_TRIGGER_EDGE)) in
      [write_apic_reg ptr APIC_REG_ICR_HIGH icr_high; write_apic_reg ptr APIC_REG_ICR_LOW icr_low]
  | Disabled => []
  end.

Definition setup_timer (hhdm : Z) (s : Apic) (vector initial_count : Z) (periodic : bool) : list Command :=
  let mode := if periodic then APIC_TIMER_PERIODIC else APIC_TIMER_ONESHOT in
  match APIC_MODE s with
  | X2Apic => [Wrmsr X2APIC_MSR_TIMER_DIVIDE 0x03; Wrmsr X2APIC_MSR_LVT_TIMER (Z.lor vector mode); Wrmsr X2APIC_MSR_TIMER_INITIAL initial_count]
  | XApic =>
      let ptr := apic_ptr hhdm s in
      [write_apic_reg ptr APIC_REG_TIMER_DIVIDE 0x03; write_apic_reg ptr APIC_REG_LVT_TIMER (Z.lor vector mode);
       write_apic_reg ptr APIC_REG_TIMER_INITIAL initial_count]
  | Disabled => []
  end.

(** ** What the command register sends

    The processor manual's reading of the command register: the interrupt it describes,
    and the writes that send one.  In memory the destination is the top byte of the upper
    half, and writing the lower half sends; as a register of the processor the upper half
    is the destination. *)
Inductive Target : Type := ToPhysical (id : Z) | ToLogical (mask : Z) | ToSelf | ToAll | ToOthers.

Record Ipi : Type := mkIpi { ipi_vector : Z; ipi_delivery : Z; ipi_assert : bool; ipi_level : bool; ipi_target : Target }.

Definition icr_target (low dest : Z) : Target :=
  match Z.land (Z.shiftr low 18) 3 with
  | 0 => if Z.testbit low 11 then ToLogical dest else ToPhysical dest
  | 1 => ToSelf
  | 2 => ToAll
  | _ => ToOthers
  end.

Definition icr_ipi (low dest : Z) : Ipi :=
  mkIpi (Z.land low 0xFF) (Z.land (Z.shiftr low 8) 7) (Z.testbit low 14) (Z.testbit low 15) (icr_target low dest).

Fixpoint ipis (ptr high : Z) (l : list Command) : list Ipi :=
  match l with
  | [] => []
  | Wrmsr msr v :: l => if msr =? X2APIC_MSR_ICR then icr_ipi v (Z.shiftr v 32) :: ipis ptr high l else ipis ptr high l
  | Store a v :: l =>
      if a =? ptr +[64] APIC_REG_ICR_HIGH then ipis ptr v l
      else if a =? ptr +[64] APIC_REG_ICR_LOW then icr_ipi v (Z.shiftr high 24) :: ipis ptr high l
      else ipis ptr high l
  end.

(** The fields of a command: a vector, flags above it, and a destination above these. *)
Lemma icr_fields v c d dest : in_width 8 v -> in_width 32 c -> Z.land c 0xFF = 0 ->
  icr_ipi (Z.lor (Z.lor v c) (Z.shiftl d 32)) dest = mkIpi v (Z.land (Z.shiftr c 8) 7) (Z.testbit c 14) (Z.testbit c 15) (icr_target c dest).
Proof.
  intros Hv Hc H0. set (x := Z.lor (Z.lor v c) (Z.shiftl d 32)).
  assert (forall n, 8 <= n < 32 -> Z.testbit x n = Z.testbit c n) as Hbit.
  { intros n Hn. unfold x. rewrite !Z.lor_spec, Z.shiftl_spec_low, (in_width_testbit 8 v n), orb_false_r by (done || lia). done. }
  assert (forall k m w, m = Z.ones w -> 0 <= w -> 8 <= k -> k + w <= 32 -> Z.land (Z.shiftr x k) m = Z.land (Z.shiftr c k) m) as Hfield.
  { intros k m w -> Hw Hk Hkw. apply Z.bits_inj'. intros n Hn. rewrite !Z.land_spec, !Z.shiftr_spec by done. rewrite Z.testbit_ones_nonneg by done.
    destruct (Z.ltb_spec n w); [by rewrite Hbit by lia|by rewrite !andb_false_r]. }
  assert (Z.land x 0xFF = v) as Elow.
  { apply Z.bits_inj'. intros n Hn. rewrite Z.land_spec. change 0xFF with (Z.ones 8). rewrite Z.testbit_ones_nonneg by done. destruct (Z.ltb_spec n 8).
    - assert (Z.testbit c n = false) as Ec. { pose proof (f_equal (fun y => Z.testbit y n) H0) as Hn0. cbn beta in Hn0. rewrite Z.land_spec, Z.bits_0 in Hn0. change 0xFF with (Z.ones 8) in Hn0. rewrite Z.testbit_ones_nonneg in Hn0 by done. destruct (Z.ltb_spec n 8); [|lia]. by rewrite andb_true_r in Hn0. }
      unfold x. rewrite !Z.lor_spec, Z.shiftl_spec_low, Ec, !orb_false_r, andb_true_r by lia. done.
    - rewrite andb_false_r. symmetry. by apply (in_width_testbit 8). }
  unfold icr_ipi, icr_target. rewrite Elow, (Hfield 8 7 3), (Hfield 18 3 2), !Hbit by (done || lia). done.
Qed.

Lemma icr_destination v c d : in_width 8 v -> in_width 32 c -> Z.shiftr (Z.lor (Z.lor v c) (Z.shiftl d 32)) 32 = d.
Proof.
  intros Hv Hc. rewrite Z.shiftr_lor, Z.shiftr_shiftl_l, Z.sub_diag, Z.shiftl_0_r by done. assert (in_width 32 (Z.lor v c)) as Hw by (apply lor_in_width; [done| |done]; unfold in_width in *; lia).
  rewrite Z.shiftr_div_pow2, Z.div_small by (done || exact Hw). apply Z.lor_0_l.
Qed.

Lemma icr_low_fields v c dest : in_width 8 v -> in_width 32 c -> Z.land c 0xFF = 0 ->
  icr_ipi (Z.lor v c) dest = mkIpi v (Z.land (Z.shiftr c 8) 7) (Z.testbit c 14) (Z.testbit c 15) (icr_target c dest).
Proof. intros Hv Hc H0. pose proof (icr_fields v c 0 dest Hv Hc H0) as H. rewrite Z.shiftl_0_l, Z.lor_0_r in H. exact H. Qed.

(** What the caller asks for, and the part of it that the narrow destination of the
    registers in memory can hold. *)
Definition asked (mode : ApicMode) (dest : IpiDestination) : Target :=
  match mode, dest with
  | XApic, Single id => ToPhysical (id mod 256)
  | XApic, Logical m => ToLogical (m / 2 ^ 24)
  | _, Single id => ToPhysical id
  | _, Logical m => ToLogical m
  | _, All => ToAll
  | _, AllExceptSelf => ToOthers
  end.

Lemma wait_idle_some fuel reads i k : (i <= k < i + fuel)%nat -> Z.testbit (reads k) 12 = false -> exists j, wait_idle fuel reads i = Some j.
Proof.
  revert i. induction fuel as [|fuel IH]; intros i Hk Hb; [lia|]. cbn [wait_idle]. destruct (negb (Z.land (reads i) (Z.shiftl 1 12) =? 0)) eqn:E; [|eauto].
  destruct (decide (i = k)) as [->|Hne]; [|apply IH; [lia|done]]. change (Z.shiftl 1 12) with (mask 12) in E. rewrite land_mask_zero, Hb in E by done. discriminate.
Qed.

Lemma wait_idle_busy fuel reads i : (forall k, Z.testbit (reads k) 12 = true) -> wait_idle fuel reads i = None.
Proof.
  intros Hb. revert i. induction fuel as [|fuel IH]; intros i; [done|]. cbn [wait_idle]. change (Z.shiftl 1 12) with (mask 12). rewrite land_mask_zero, Hb by done. apply IH.
Qed.

(** Registers of one page are told apart wherever the page lies. *)
Lemma reg_eqb p a b : 0 <= a < 4096 -> 0 <= b < 4096 -> (p +[64] a =? p +[64] b) = (a =? b).
Proof.
  intros Ha Hb. destruct (Z.eqb_spec a b) as [->|Hne]; [apply Z.eqb_refl|]. apply Z.eqb_neq. unfold wrap. Z.to_euclidean_division_equations. lia.
Qed.

Lemma high_byte id : Z.shiftr (wrap 32 (Z.shiftl id 24)) 24 = id mod 256.
Proof.
  rewrite Z.shiftl_mul_pow2, Z.shiftr_div_pow2 by done. unfold wrap. change (2 ^ 32) with (256 * 2 ^ 24). rewrite Z.mul_mod_distr_r by done. by rewrite Z.div_mul.
Qed.

(** Two writes to the registers in memory send one interrupt. *)
Lemma send_pair p high d low :
  ipis p high [write_apic_reg p APIC_REG_ICR_HIGH d; write_apic_reg p APIC_REG_ICR_LOW low] = [icr_ipi low (Z.shiftr d 24)].
Proof.
  unfold write_apic_reg. cbn [ipis]. change (APIC_REG_ICR_HIGH / 4 * 4) with APIC_REG_ICR_HIGH. change (APIC_REG_ICR_LOW / 4 * 4) with APIC_REG_ICR_LOW.
  by rewrite Z.eqb_refl, reg_eqb, Z.eqb_refl.
Qed.

Lemma send_one p high low : ipis p high [write_apic_reg p APIC_REG_ICR_LOW low] = [icr_ipi low (Z.shiftr high 24)].
Proof. unfold write_apic_reg. cbn [ipis]. change (APIC_REG_ICR_LOW / 4 * 4) with APIC_REG_ICR_LOW. by rewrite reg_eqb, Z.eqb_refl. Qed.

Lemma send_msr p high v : ipis p high [Wrmsr X2APIC_MSR_ICR v] = [icr_ipi v (Z.shiftr v 32)].
Proof. done. Qed.

Lemma icr_word v c d x : x = Z.lor v c -> in_width 8 v -> in_width 32 c -> Z.land c 0xFF = 0 ->
  icr_ipi (Z.lor x (Z.shiftl d 32)) (Z.shiftr (Z.lor x (Z.shiftl d 32)) 32) = mkIpi v (Z.land (Z.shiftr c 8) 7) (Z.testbit c 14) (Z.testbit c 15) (icr_target c d).
Proof. intros -> Hv Hc H0. by rewrite icr_destination, icr_fields. Qed.

Lemma icr_half v c dest x : x = Z.lor v c -> in_width 8 v -> in_width 32 c -> Z.land c 0xFF = 0 ->
  icr_ipi x dest = mkIpi v (Z.land (Z.shiftr c 8) 7) (Z.testbit c 14) (Z.testbit c 15) (icr_target c dest).
Proof. intros ->. apply icr_low_fields. Qed.

(** Reads the fields of a command whose flags are [c]. *)
Ltac icr c :=
  (erewrite (icr_word _ c) || erewrite (icr_half _ c));
  [reflexivity | by rewrite <- ?Z.lor_assoc | done || exact eq_refl | split; done | done].

(** An interrupt to other processors is sent once, with its vector, as a fixed edge-triggered
    interrupt, and goes to the processors that [asked] names: in the newer mode the ones the
    caller means; with the registers in memory also, as long as the number fits a byte, but
    a logical mask is not moved to the byte that the controller reads, so a mask below
    [2 ^ 24] names nobody.  The wait before it ends with the first read that finds the
    command register idle, and never while it stays busy.  The interrupts that start a
    processor are the two that the manual asks for. *)
Theorem ipi_correct hhdm s fuel reads high dest vector k : in_width 8 vector -> APIC_MODE s <> Disabled -> (k < fuel)%nat -> Z.testbit (reads k) 12 = false ->
  (exists l, send_ipi fuel reads hhdm s dest vector = Some l /\
     ipis (apic_ptr hhdm s) high l = [mkIpi vector 0 true false (asked (APIC_MODE s) dest)]) /\
  (forall id, ipis (apic_ptr hhdm s) high (send_init_ipi hhdm s id) = [mkIpi 0 5 true true (asked (APIC_MODE s) (Single id))] /\
     ipis (apic_ptr hhdm s) high (send_startup_ipi hhdm s id vector) = [mkIpi vector 6 true false (asked (APIC_MODE s) (Single id))]) /\
  (APIC_MODE s = XApic -> forall busy, (forall k, Z.testbit (busy k) 12 = true) -> send_ipi fuel busy hhdm s dest vector = None).
Proof.
  intros Hv Hm Hk Hidle.
  destruct (wait_idle_some fuel reads 0 k ltac:(lia) Hidle) as [j Hj]. split; [|split].
  - unfold send_ipi, send_ipi_xapic. rewrite Hj. destruct (APIC_MODE s) eqn:E; [done| |]; (eexists; split; [reflexivity|]).
    + destruct dest; rewrite ?send_pair, ?send_one, ?high_byte, ?Z.shiftr_div_pow2 by done; [icr 0x4000|icr 0x84000|icr 0xC4000|icr 0x4800].
    + unfold send_ipi_x2apic. rewrite send_msr. destruct dest; [icr 0x4000|icr 0x84000|icr 0xC4000|icr 0x4800].
  - intros id. unfold send_init_ipi, send_startup_ipi. destruct (APIC_MODE s) eqn:E; [done| |]; rewrite ?send_pair, ?send_msr, ?high_byte by done; (split; [icr 0xC500|icr 0x4600]).
  - intros Hx busy Hb. unfold send_ipi, send_ipi_xapic. by rewrite Hx, (wait_idle_busy _ _ _ Hb).
Qed.

(** ** The start of the local controller *)

(** The value a register holds after the commands, when one of them writes it. *)
Fixpoint last_write (hit : Command -> option Z) (l : list Command) : option Z :=
  match l with
  | [] => None
  | c :: l => match last_write hit l with Some v => Some v | None => hit c end
  end.

Definition msr_is (m : Z) (c : Command) : option Z := match c with Wrmsr m' v => if m' =? m then Some v else None | Store _ _ => None end.
Definition reg_is (ptr r : Z) (c : Command) : option Z := match c with Store a v => if a =? ptr +[64] r then Some v else None | Wrmsr _ _ => None end.

(** A register by its offset in memory; the newer mode numbers the same registers in steps
    of sixteen. *)
Definition register (hhdm : Z) (s : Apic) (r : Z) (l : list Command) : option Z :=
  match APIC_MODE s with
  | X2Apic => last_write (msr_is (X2APIC_MSR_BASE + r / 16)) l
  | _ => last_write (reg_is (apic_ptr hhdm s) r) l
  end.

Lemma last_write_app hit l1 l2 : last_write hit (l1 ++ l2) = match last_write hit l2 with Some v => Some v | None => last_write hit l1 end.
Proof. induction l1 as [|c l1 IH]; cbn [app last_write]; [by destruct (last_write hit l2)|]. rewrite IH. by destruct (last_write hit l2). Qed.

Lemma xapic_base hhdm s l v : last_write (msr_is IA32_APIC_BASE) (l ++ [Wrmsr IA32_APIC_BASE v] ++ init_xapic hhdm s) = Some v.
Proof. by rewrite !last_write_app. Qed.

Lemma xapic_registers hhdm a l v : let s := mkApic XApic a in let l' := l ++ [Wrmsr IA32_APIC_BASE v] ++ init_xapic hhdm s in
  register hhdm s APIC_REG_SPURIOUS l' = Some 0x1FF /\ register hhdm s APIC_REG_TPR l' = Some 0 /\
  (forall r, r ∈ [APIC_REG_LVT_TIMER; APIC_REG_LVT_LINT0; APIC_REG_LVT_LINT1; APIC_REG_LVT_ERROR] -> register hhdm s r l' = Some 0x10000).
Proof.
  intros s l'. assert (forall r, 0 <= r < 4096 -> last_write (reg_is (apic_ptr hhdm s) r) (init_xapic hhdm s) =
    if 0x370 =? r then Some 0x10000 else if 0x360 =? r then Some 0x10000 else if 0x350 =? r then Some 0x10000 else if 0x320 =? r then Some 0x10000 else
    if 0x80 =? r then Some 0 else if 0xF0 =? r then Some 0x1FF else None) as H.
  { intros r Hr. unfold init_xapic, write_apic_reg. cbn [last_write reg_is]. rewrite !reg_eqb by (done || exact Hr).
    change (APIC_REG_LVT_ERROR / 4 * 4) with 0x370. change (APIC_REG_LVT_LINT1 / 4 * 4) with 0x360. change (APIC_REG_LVT_LINT0 / 4 * 4) with 0x350.
    change (APIC_REG_LVT_TIMER / 4 * 4) with 0x320. change (APIC_REG_TPR / 4 * 4) with 0x80. change (APIC_REG_SPURIOUS / 4 * 4) with 0xF0.
    destruct (0x370 =? r), (0x360 =? r), (0x350 =? r), (0x320 =? r), (0x80 =? r), (0xF0 =? r); reflexivity. }
  unfold register, l'. cbn [APIC_MODE s]. split; [|split; [|intros r Hr; rewrite !elem_of_cons, elem_of_nil in Hr; destruct_or! Hr; subst]]; by rewrite !last_write_app, H.
Qed.

(** Where there is a controller it is started: switched on in the base register, whose other
    bits but the mode are kept, with every local source masked, every priority accepted
    and the vector 255 for spurious interrupts.  The mode that the kernel remembers is the
    one that the machine confirmed.  Where there is none nothing is touched. *)
Theorem init_apic_correct hhdm ecx edx base reread s :
  let '(r, s', l) := init_apic hhdm ecx edx base reread s in
  if Z.testbit edx 9 then
    r = Ok tt /\ APIC_BASE_ADDR s' = Z.land base 0xFFFFFFFFFFFFF000 /\
    (exists v, last_write (msr_is IA32_APIC_BASE) l = Some v /\ Z.testbit v 11 = true /\ (forall n, 0 <= n -> n <> 10 -> n <> 11 -> Z.testbit v n = Z.testbit base n) /\
       (APIC_MODE s' = X2Apic <-> Z.testbit ecx 21 = true /\ Z.testbit (reread v) 10 = true)) /\
    APIC_MODE s' <> Disabled /\
    register hhdm s' APIC_REG_SPURIOUS l = Some 0x1FF /\ register hhdm s' APIC_REG_TPR l = Some 0 /\
    (forall r, r ∈ [APIC_REG_LVT_TIMER; APIC_REG_LVT_LINT0; APIC_REG_LVT_LINT1; APIC_REG_LVT_ERROR] -> register hhdm s' r l = Some 0x10000)
  else (exists e, r = Err e) /\ s' = s /\ l = [].
Proof.
  unfold init_apic. change (Z.shiftl 1 9) with (mask 9). change (Z.shiftl 1 21) with (mask 21). rewrite !land_mask_zero, !negb_involutive by done.
  destruct (Z.testbit edx 9); cbn [negb]; [|split; [by eexists|done]].
  assert (forall v, APIC_BASE_X2APIC = mask 10 /\ Z.testbit (Z.lor v APIC_BASE_ENABLE) 11 = true /\ Z.testbit (Z.lor (Z.lor v APIC_BASE_ENABLE) APIC_BASE_X2APIC) 11 = true) as Hen.
  { intros v. unfold APIC_BASE_ENABLE, APIC_BASE_X2APIC. by rewrite !Z.lor_spec, orb_true_r. }
  assert (forall v n, 0 <= n -> n <> 10 -> n <> 11 -> Z.testbit (Z.lor v APIC_BASE_ENABLE) n = Z.testbit v n /\ Z.testbit (Z.lor (Z.lor v APIC_BASE_ENABLE) APIC_BASE_X2APIC) n = Z.testbit v n) as Hkeep.
  { intros v n Hn H10 H11. change APIC_BASE_ENABLE with (mask 11). change APIC_BASE_X2APIC with (mask 10). rewrite !Z.lor_spec, !mask_spec by done. destruct (Z.eqb_spec n 11), (Z.eqb_spec n 10); try done. by rewrite !orb_false_r. }
  destruct (Z.testbit ecx 21); [change APIC_BASE_X2APIC with (mask 10) at 2; rewrite land_mask_zero, negb_involutive by done; destruct (Z.testbit (reread _) 10) eqn:Er|].
  - split; [done|]. split; [done|]. split; [|split; [done|split; [vm_compute; reflexivity|split; [vm_compute; reflexivity|]]]].
    + eexists. split; [reflexivity|]. split; [apply Hen|]. split; [intros; by apply Hkeep|done].
    + intros r Hr. rewrite !elem_of_cons, elem_of_nil in Hr. destruct_or! Hr; try done; subst; vm_compute; reflexivity.
  - split; [done|]. split; [done|]. split; [|split; [done|apply xapic_registers]].
    eexists. rewrite xapic_base. split; [reflexivity|]. split; [apply Hen|]. split; [intros; by apply Hkeep|]. rewrite Er. naive_solver.
  - split; [done|]. split; [done|]. split; [|split; [done|apply xapic_registers]].
    eexists. rewrite xapic_base. split; [reflexivity|]. split; [apply (Hen base)|]. split; [intros; by apply Hkeep|]. naive_solver.
Qed.

(** ** The controller of the devices' lines *)

Definition IOAPIC_REG_VER : Z := 0x01.
Definition IOAPIC_REDTBL_BASE : Z := 0x10.

Record IoApic : Type := mkIoApic { IOAPIC_BASE : Z; IOAPIC_GSI_BASE : Z; IOAPIC_MAX_REDIRECTS : Z }.

Definition IoApic_new : IoApic := mkIoApic 0 0 0.

(** Words of a device in memory. *)
Class Mmio (D : Type) : Type := { store32 : Z -> Z -> D -> D; load32 : Z -> D -> Z * D }.

Definition ioapic_read `{Mmio D} (s : IoApic) (reg : Z) (d : D) : Z * D :=
  let base := IOAPIC_BASE s in load32 (base +[64] 16) (store32 base reg d).

Definition ioapic_write `{Mmio D} (s : IoApic) (reg value : Z) (d : D) : D :=
  let base := IOAPIC_BASE s in store32 (base +[64] 16) value (store32 base reg d).

(** The index is a byte: [irq * 2] and the sum wrap. *)
Definition redtbl (irq : Z) : Z := IOAPIC_REDTBL_BASE +[8] (irq *[8] 2).

Definition ioapic_set_irq `{Mmio D} (s : IoApic) (irq vector apic_id : Z) (active_low level_triggered : bool) (d : D) : D :=
  let low := vector in
  let high := wrap 32 (Z.shiftl apic_id 24) in
  let low := if active_low then Z.lor low (Z.shiftl 1 13) else low in
  let low := if level_triggered then Z.lor low (Z.shiftl 1 15) else low in
  ioapic_write s (redtbl irq +[8] 1) high (ioapic_write s (redtbl irq) low d).

Definition ioapic_mask_irq `{Mmio D} (s : IoApic) (irq : Z) (d : D) : D :=
  let '(low, d) := ioapic_read s (redtbl irq) d in
  ioapic_write s (redtbl irq) (Z.lor low (Z.shiftl 1 16)) d.

Definition ioapic_unmask_irq `{Mmio D} (s : IoApic) (irq : Z) (d : D) : D :=
  let '(low, d) := ioapic_read s (redtbl irq) d in
  ioapic_write s (redtbl irq) (Z.land low (wnot 32 (Z.shiftl 1 16))) d.

Definition init_ioapic `{Mmio D} (hhdm phys_addr gsi_base : Z) (d : D) : IoApic * D :=
  let s := mkIoApic (phys_addr +[64] hhdm) gsi_base 0 in
  let '(version, d) := ioapic_read s IOAPIC_REG_VER d in
  let max_redirects := Z.land (Z.shiftr version 16) 0xFF + 1 in
  let s := mkIoApic (IOAPIC_BASE s) gsi_base max_redirects in
  (s, foldl (fun d i => ioapic_mask_irq s (wrap 8 i) d) d (seqZ 0 max_redirects)).

(** The routing of the keyboard and the mouse at the start of the kernel. *)
Definition boot_routes `{Mmio D} (s : IoApic) (d : D) : D :=
  let d := ioapic_set_irq s 1 33 0 false false d in
  let d := ioapic_unmask_irq s 1 d in
  let d := ioapic_set_irq s 12 44 0 false false d in
  ioapic_unmask_irq s 12 d.

(** The behaviour of the controller: a word selects a register and a window reads and
    writes it.  A redirection register keeps the bits that can be written; no access changes
    another register. *)
Definition writable (reg n : Z) : bool :=
  if Z.even reg then (0 <=? n) && (n <=? 16) && negb (n =? 12) && negb (n =? 14) else (24 <=? n) && (n <=? 31).

Class IoApicLaws (D : Type) `{Mmio D} (base : Z) : Type := {
  selected : D -> Z;
  reg_of : D -> Z -> Z;
  select_law : forall r d, in_width 8 r -> selected (store32 base r d) = r /\ forall x, reg_of (store32 base r d) x = reg_of d x;
  load_law : forall d, let '(v, d') := load32 (base +[64] 16) d in v = reg_of d (selected d) /\ selected d' = selected d /\ forall x, reg_of d' x = reg_of d x;
  store_law : forall v d, in_width 32 v -> let d' := store32 (base +[64] 16) v d in
    selected d' = selected d /\ (forall x, x <> selected d -> reg_of d' x = reg_of d x) /\
    (IOAPIC_REDTBL_BASE <= selected d < IOAPIC_REDTBL_BASE + 2 * (Z.land (Z.shiftr (reg_of d IOAPIC_REG_VER) 16) 0xFF + 1) ->
     forall n, writable (selected d) n = true -> Z.testbit (reg_of d' (selected d)) n = Z.testbit v n);
  reg_width : forall d x, in_width 32 (reg_of d x)
}.

(** What a line does, read from its two registers. *)
Record Route : Type := mkRoute { route_vector : Z; route_low : bool; route_level : bool; route_masked : bool; route_dest : Z }.

Definition route_of (low high : Z) : Route :=
  mkRoute (Z.land low 0xFF) (Z.testbit low 13) (Z.testbit low 15) (Z.testbit low 16) (Z.land (Z.shiftr high 24) 0xFF).

Section IoApicProofs.
Context {D : Type} `{Mmio D} (base : Z) `{!IoApicLaws D base}.

Definition entries (d : D) : Z := Z.land (Z.shiftr (reg_of d IOAPIC_REG_VER) 16) 0xFF + 1.
Definition route (d : D) (irq : Z) : Route := route_of (reg_of d (IOAPIC_REDTBL_BASE + 2 * irq)) (reg_of d (IOAPIC_REDTBL_BASE + 2 * irq + 1)).

Context (s : IoApic) (Hs : IOAPIC_BASE s = base).

Lemma read_spec r d : in_width 8 r -> exists d', ioapic_read s r d = (reg_of d r, d') /\ forall x, reg_of d' x = reg_of d x.
Proof.
  intros Hr. unfold ioapic_read. rewrite Hs. destruct (select_law r d Hr) as [Hsel Hx]. pose proof (load_law (store32 base r d)) as Hl.
  destruct (load32 _ _) as [v d']. destruct Hl as (-> & _ & Hx'). exists d'. split; [by rewrite Hsel, Hx|]. intros x. by rewrite Hx', Hx.
Qed.

Lemma write_spec r v d : in_width 8 r -> in_width 32 v -> IOAPIC_REDTBL_BASE <= r < IOAPIC_REDTBL_BASE + 2 * entries d ->
  (forall x, x <> r -> reg_of (ioapic_write s r v d) x = reg_of d x) /\ (forall n, writable r n = true -> Z.testbit (reg_of (ioapic_write s r v d) r) n = Z.testbit v n).
Proof.
  intros Hr Hv Hin. unfold ioapic_write. rewrite Hs. destruct (select_law r d Hr) as [Hsel Hx]. destruct (store_law v (store32 base r d) Hv) as (_ & Ho & Hw).
  rewrite Hsel in Ho, Hw. split; [intros x Hne; by rewrite Ho, Hx|]. apply Hw. unfold entries in Hin. by rewrite Hx.
Qed.
Lemma redtbl_small irq : 0 <= irq < 120 -> redtbl irq = IOAPIC_REDTBL_BASE + 2 * irq /\ redtbl irq +[8] 1 = IOAPIC_REDTBL_BASE + 2 * irq + 1.
Proof. intros Hi. unfold redtbl, IOAPIC_REDTBL_BASE. rewrite (wrap_small 8 (irq * 2)), !wrap_small by (unfold in_width; lia). rewrite ?wrap_small by (unfold in_width; lia). lia. Qed.

(** The bits that can be written determine the route. *)
Lemma route_bits low low' high high' : (forall n, writable 0 n = true -> Z.testbit low n = Z.testbit low' n) -> (forall n, writable 1 n = true -> Z.testbit high n = Z.testbit high' n) ->
  route_of low high = route_of low' high'.
Proof.
  intros Hl Hh. unfold route_of. rewrite !(Hl 13), !(Hl 15), !(Hl 16) by done. f_equal.
  - apply Z.bits_inj'. intros n Hn. rewrite !Z.land_spec. change 0xFF with (Z.ones 8). rewrite Z.testbit_ones_nonneg by done. destruct (Z.ltb_spec n 8); [|by rewrite !andb_false_r].
    rewrite Hl; [done|]. unfold writable. cbn. lia.
  - apply Z.bits_inj'. intros n Hn. rewrite !Z.land_spec, !Z.shiftr_spec by done. change 0xFF with (Z.ones 8). rewrite Z.testbit_ones_nonneg by done. destruct (Z.ltb_spec n 8); [|by rewrite !andb_false_r].
    rewrite Hh; [done|]. unfold writable. cbn. lia.
Qed.

Lemma writable_low irq n : writable (IOAPIC_REDTBL_BASE + 2 * irq) n = writable 0 n.
Proof. unfold writable, IOAPIC_REDTBL_BASE. by rewrite Z.add_comm, Z.even_add, Z.even_mul. Qed.

Lemma writable_high irq n : writable (IOAPIC_REDTBL_BASE + 2 * irq + 1) n = writable 1 n.
Proof. unfold writable, IOAPIC_REDTBL_BASE. by rewrite !Z.even_add, Z.even_mul. Qed.

(** Every write of the driver goes to one line. *)
Definition only_line (irq : Z) (d d' : D) : Prop :=
  entries d' = entries d /\ forall j, 0 <= j -> j <> irq -> route d' j = route d j.

Lemma write_line irq r v d : 0 <= irq < entries d -> irq < 120 -> in_width 32 v -> r = IOAPIC_REDTBL_BASE + 2 * irq \/ r = IOAPIC_REDTBL_BASE + 2 * irq + 1 ->
  only_line irq d (ioapic_write s r v d).
Proof.
  intros Hi H120 Hv Hr. destruct (write_spec r v d) as [Ho _]; [unfold in_width, IOAPIC_REDTBL_BASE in *; lia|done|unfold IOAPIC_REDTBL_BASE in *; lia|].
  split; [unfold entries; by rewrite Ho by (unfold IOAPIC_REG_VER, IOAPIC_REDTBL_BASE in *; lia)|]. intros j Hj Hne. unfold route. by rewrite !Ho by lia.
Qed.

Lemma only_line_trans irq d1 d2 d3 : only_line irq d1 d2 -> only_line irq d2 d3 -> only_line irq d1 d3.
Proof. intros [E1 H1] [E2 H2]. split; [congruence|]. intros j Hj Hne. rewrite H2, H1; done. Qed.

(** Rewriting the lower half of a line with one of its bits changed. *)
Lemma relow_spec irq f d : 0 <= irq < entries d -> irq < 120 -> (forall x, in_width 32 x -> in_width 32 (f x)) ->
  let d' := (let '(low, d1) := ioapic_read s (redtbl irq) d in ioapic_write s (redtbl irq) (f low) d1) in
  only_line irq d d' /\ route d' irq = route_of (f (reg_of d (IOAPIC_REDTBL_BASE + 2 * irq))) (reg_of d (IOAPIC_REDTBL_BASE + 2 * irq + 1)).
Proof.
  intros Hi H120 Hf. destruct (redtbl_small irq ltac:(lia)) as [-> _]. set (r := IOAPIC_REDTBL_BASE + 2 * irq).
  assert (in_width 8 r) as Hr by (unfold r, IOAPIC_REDTBL_BASE, in_width; lia). destruct (read_spec r d Hr) as (d1 & -> & Hx). cbv beta iota zeta.
  assert (entries d1 = entries d) as He by (unfold entries; by rewrite Hx). assert (in_width 32 (f (reg_of d r))) as Hv by apply Hf, reg_width.
  split.
  - apply (only_line_trans _ _ d1); [split; [done|]; intros j _ _; unfold route; by rewrite !Hx|]. apply write_line; [lia|lia|done|by left].
  - destruct (write_spec r (f (reg_of d r)) d1 Hr Hv) as [Ho Hw]; [unfold r; rewrite He; lia|]. unfold route. fold r. rewrite (Ho (r + 1)), Hx by lia.
    apply route_bits; [|done]. intros n Hn. apply Hw. unfold r. by rewrite writable_low.
Qed.

Definition with_mask (b : bool) (r : Route) : Route := mkRoute (route_vector r) (route_low r) (route_level r) b (route_dest r).

Lemma land_ff x y : (forall n, 0 <= n < 8 -> Z.testbit x n = Z.testbit y n) -> Z.land x 0xFF = Z.land y 0xFF.
Proof.
  intros Hxy. apply Z.bits_inj'. intros n Hn. rewrite !Z.land_spec. change 0xFF with (Z.ones 8). rewrite Z.testbit_ones_nonneg by done. destruct (Z.ltb_spec n 8); [by rewrite Hxy|by rewrite !andb_false_r].
Qed.

Lemma mask_spec_line irq d : 0 <= irq < entries d -> irq < 120 -> only_line irq d (ioapic_mask_irq s irq d) /\ route (ioapic_mask_irq s irq d) irq = with_mask true (route d irq).
Proof.
  intros Hi H120. destruct (relow_spec irq (fun low => Z.lor low (Z.shiftl 1 16)) d Hi H120) as [Ho Hr]; [intros x Hx; apply lor_mask_in_width; [lia|done]|].
  split; [exact Ho|]. unfold ioapic_mask_irq. rewrite Hr. unfold route, route_of, with_mask. cbn [route_vector route_low route_level route_masked route_dest]. change (Z.shiftl 1 16) with (mask 16). rewrite !lor_mask_spec by done. f_equal. apply land_ff. intros n Hn. rewrite lor_mask_spec by lia. by destruct (Z.eqb_spec n 16); [lia|].
Qed.

Lemma unmask_spec_line irq d : 0 <= irq < entries d -> irq < 120 -> only_line irq d (ioapic_unmask_irq s irq d) /\ route (ioapic_unmask_irq s irq d) irq = with_mask false (route d irq).
Proof.
  intros Hi H120. destruct (relow_spec irq (fun low => Z.land low (wnot 32 (Z.shiftl 1 16))) d Hi H120) as [Ho Hr]; [intros x Hx; by apply land_in_width|].
  split; [exact Ho|]. unfold ioapic_unmask_irq. rewrite Hr. unfold route, route_of, with_mask. cbn [route_vector route_low route_level route_masked route_dest]. change (Z.shiftl 1 16) with (mask 16).
  pose proof (reg_width d (IOAPIC_REDTBL_BASE + 2 * irq)) as Hw. rewrite !(land_wnot_mask_spec 32) by (done || lia). f_equal. apply land_ff. intros n Hn. rewrite (land_wnot_mask_spec 32) by (done || lia). by destruct (Z.eqb_spec n 16); [lia|].
Qed.

Lemma set_spec_line irq v id (al lt : bool) d : 0 <= irq < entries d -> irq < 120 -> in_width 8 v ->
  let d' := ioapic_set_irq s irq v id al lt d in only_line irq d d' /\ route d' irq = mkRoute v al lt false (id mod 256).
Proof.
  intros Hi H120 Hv. unfold ioapic_set_irq. destruct (redtbl_small irq ltac:(lia)) as [-> ->]. cbv zeta.
  set (low := if lt then _ else _). set (high := wrap 32 (Z.shiftl id 24)). set (r := IOAPIC_REDTBL_BASE + 2 * irq).
  assert (in_width 32 v) as Hv32 by (unfold in_width in *; lia). assert (in_width 32 low) as Hlow. { assert (in_width 32 (if al then Z.lor v (Z.shiftl 1 13) else v)) as Ha by (destruct al; [by apply lor_mask_in_width|done]). unfold low. destruct lt; [by apply lor_mask_in_width|done]. }
  assert (in_width 32 high) as Hhigh by (by apply wrap_in_width). assert (in_width 8 r /\ in_width 8 (r + 1)) as [Hr Hr1] by (unfold r, IOAPIC_REDTBL_BASE, in_width; lia).
  destruct (write_line irq r low d Hi H120 Hlow (or_introl eq_refl)) as [E1 H1]. set (d1 := ioapic_write s r low d) in *.
  destruct (write_line irq (r + 1) high d1 ltac:(lia) H120 Hhigh (or_intror eq_refl)) as [E2 H2]. split; [apply (only_line_trans _ _ d1); by split|].
  destruct (write_spec r low d Hr Hlow) as [_ W1]; [unfold r; lia|]. destruct (write_spec (r + 1) high d1 Hr1 Hhigh) as [O2 W2]; [unfold r in *; lia|].
  unfold route. fold r. rewrite (O2 r) by lia. rewrite (route_bits _ low _ high); [| |].
  - unfold route_of. replace (Z.land (Z.shiftr high 24) 0xFF) with (id mod 256) by (unfold high; rewrite high_byte; change 0xFF with (2 ^ 8 - 1); rewrite low_bits by done; change (2 ^ 8) with 256; by rewrite Z.mod_mod).
    assert (forall n, 0 <= n -> Z.testbit low n = (lt && (n =? 15)) || (al && (n =? 13)) || Z.testbit v n) as Hb. { intros n Hn. unfold low. change (Z.shiftl 1 13) with (mask 13). change (Z.shiftl 1 15) with (mask 15). destruct lt, al; rewrite ?lor_mask_spec by done; cbn [andb orb]; by rewrite ?orb_assoc, ?orb_false_r. }
    rewrite !Hb, !(in_width_testbit 8 v) by done. f_equal; [|by destruct lt, al..].
    apply Z.bits_inj'. intros n Hn. rewrite Z.land_spec. change 0xFF with (Z.ones 8). rewrite Z.testbit_ones_nonneg by done. destruct (Z.ltb_spec n 8); [|rewrite andb_false_r; symmetry; by apply (in_width_testbit 8)].
    rewrite Hb by done. destruct (Z.eqb_spec n 15), (Z.eqb_spec n 13); try lia. by rewrite !andb_false_r, andb_true_r.
  - intros n Hn. apply W1. unfold r. by rewrite writable_low.
  - intros n Hn. apply W2. unfold r. by rewrite writable_high.
Qed.

Lemma mask_all l d : (forall i, i ∈ l -> 0 <= i < entries d /\ i < 120) ->
  let d' := foldl (fun d i => ioapic_mask_irq s (wrap 8 i) d) d l in
  entries d' = entries d /\ forall j, 0 <= j -> if decide (j ∈ l) then route_masked (route d' j) = true else route d' j = route d j.
Proof.
  revert d. induction l as [|i l IH]; intros d Hl; [split; [done|]; intros j _; by rewrite decide_False by apply not_elem_of_nil|]. cbn [foldl].
  destruct (Hl i ltac:(left)) as [Hi H120]. rewrite (wrap_small 8 i) by (unfold in_width; lia). destruct (mask_spec_line i d Hi H120) as [[E Ho] Hr].
  destruct (IH (ioapic_mask_irq s i d)) as [E' IH']; [intros x Hx; rewrite E; apply Hl; by right|]. split; [congruence|]. intros j Hj. specialize (IH' j Hj).
  destruct (decide (j ∈ l)) as [Hin|Hin]; [by rewrite decide_True by (by right)|]. destruct (decide (j = i)) as [->|Hne].
  - rewrite decide_True by left. by rewrite IH', Hr.
  - rewrite decide_False by (rewrite elem_of_cons; naive_solver). by rewrite IH', Ho.
Qed.
End IoApicProofs.

(** Exactly two lines of the controller at [base] are open, the keyboard's and the mouse's.
    They lead to the vectors 33 and 44 of the first processor and are edge-triggered. *)
Definition boot_lines {D} `{Mmio D} (base : Z) `{!IoApicLaws D base} (before : D) (s : IoApic) (d : D) : Prop :=
  IOAPIC_BASE s = base /\ IOAPIC_MAX_REDIRECTS s = entries base before /\
  route base d 1 = mkRoute 33 false false false 0 /\ route base d 12 = mkRoute 44 false false false 0 /\
  (forall j, 0 <= j < entries base before -> j <> 1 -> j <> 12 -> route_masked (route base d j) = true).

(** Whatever the firmware left in the other lines, they are masked.  The index of a line is
    a byte, so this needs at most 120 lines. *)
Lemma boot_routes_spec {D} `{Mmio D} hhdm phys gsi `{!IoApicLaws D (phys +[64] hhdm)} (d : D) :
  let base := phys +[64] hhdm in 13 <= entries base d <= 120 ->
  let '(s, d1) := init_ioapic hhdm phys gsi d in boot_lines base d s (boot_routes s d1).
Proof.
  intros base Hn. unfold init_ioapic. fold base.
  destruct (read_spec base (mkIoApic base gsi 0) eq_refl IOAPIC_REG_VER d ltac:(split; done)) as (d0 & -> & Hx). cbn [IOAPIC_BASE].
  assert (entries base d0 = entries base d) as E0 by (unfold entries; by rewrite Hx). fold (entries base d). set (s := mkIoApic base gsi (entries base d)).
  destruct (mask_all base s eq_refl (seqZ 0 (entries base d)) d0) as [E1 Hm]; [intros i Hi; apply elem_of_seqZ in Hi; lia|]. set (d1 := foldl _ d0 _) in *. unfold boot_routes.
  destruct (set_spec_line base s eq_refl 1 33 0 false false d1) as [[E2 O2] R2]; [lia|lia|split; [discriminate|reflexivity]|]. set (d2 := ioapic_set_irq s 1 33 0 false false d1) in *.
  destruct (unmask_spec_line base s eq_refl 1 d2) as [[E3 O3] R3]; [lia|lia|]. set (d3 := ioapic_unmask_irq s 1 d2) in *.
  destruct (set_spec_line base s eq_refl 12 44 0 false false d3) as [[E4 O4] R4]; [lia|lia|split; [discriminate|reflexivity]|]. set (d4 := ioapic_set_irq s 12 44 0 false false d3) in *.
  destruct (unmask_spec_line base s eq_refl 12 d4) as [[E5 O5] R5]; [lia|lia|]. split; [done|]. split; [done|]. split; [by rewrite O5, O4, R3, R2 by lia|]. split; [by rewrite R5, R4|].
  intros j Hj H1 H12. rewrite O5, O4, O3, O2 by lia. specialize (Hm j ltac:(lia)). by rewrite decide_True in Hm by (apply elem_of_seqZ; lia).
Qed.

(** A controller with 24 lines at its usual address. *)
Record Lines : Type := mkLines { line_select : Z; line_regs : Z -> Z }.

#[export] Instance lines_mmio : Mmio Lines := {|
  store32 a v l :=
    if a =? 0xFEC00000 then mkLines (v mod 256) (line_regs l)
    else if (a =? 0xFEC00010) && (0x10 <=? line_select l) && (line_select l <? 0x40) then
      mkLines (line_select l) (fun x => if x =? line_select l then wrap 32 v else line_regs l x)
    else l;
  load32 a l := (wrap 32 (if line_select l =? 1 then 0x170011 else line_regs l (line_select l)), l)
|}.

Definition lines_reg (l : Lines) (x : Z) : Z := wrap 32 (if x =? 1 then 0x170011 else line_regs l x).

#[export, refine] Instance lines_laws : IoApicLaws Lines (0xFEC00000 +[64] 0) := {| selected := line_select; reg_of := lines_reg |}.
Proof.
  - intros r d Hr. cbn. split; [by apply Z.mod_small|done].
  - intros d. done.
  - intros v d Hv. change (wrap 64 (wrap 64 (0xFEC00000 + 0) + 16)) with 0xFEC00010. unfold store32, lines_mmio. change (0xFEC00010 =? 0xFEC00000) with false. change (0xFEC00010 =? 0xFEC00010) with true. cbv zeta iota.
    assert (forall l, Z.land (Z.shiftr (lines_reg l IOAPIC_REG_VER) 16) 0xFF + 1 = 24) as -> by done. unfold IOAPIC_REDTBL_BASE, lines_reg.
    destruct (Z.leb_spec 16 (line_select d)), (Z.ltb_spec (line_select d) 64); cbn [line_select line_regs andb Z.eqb]; (split; [done|]); (split; [intros x Hx; try done|intros Hr; try lia]).
    + by rewrite (proj2 (Z.eqb_neq x (line_select d)) Hx).
    + intros n Hn. rewrite Z.eqb_refl, (proj2 (Z.eqb_neq (line_select d) 1)) by lia. by rewrite !(wrap_small 32 v) by done.
  - intros d x. by apply wrap_in_width.
Defined.

(** ** The old controllers *)

Definition PIC1_COMMAND : Z := 0x20.
Definition PIC1_DATA : Z := 0x21.
Definition PIC2_COMMAND : Z := 0xA0.
Definition PIC2_DATA : Z := 0xA1.
Definition ICW1_ICW4 : Z := 0x01.
Definition ICW1_INIT : Z := 0x10.
Definition ICW4_8086 : Z := 0x01.

(** [util::io_wait]: a write to an unused port. *)
Definition io_wait : list (Z * Z) := [(0x80, 0)].

(** The values written to ports; the two masks read at the beginning are not used. *)
Definition disable_pic : list (Z * Z) :=
  [(PIC1_COMMAND, Z.lor ICW1_INIT ICW1_ICW4)] ++ io_wait ++ [(PIC2_COMMAND, Z.lor ICW1_INIT ICW1_ICW4)] ++ io_wait ++
  [(PIC1_DATA, 32)] ++ io_wait ++ [(PIC2_DATA, 40)] ++ io_wait ++
  [(PIC1_DATA, 4)] ++ io_wait ++ [(PIC2_DATA, 2)] ++ io_wait ++
  [(PIC1_DATA, ICW4_8086)] ++ io_wait ++ [(PIC2_DATA, ICW4_8086)] ++ io_wait ++
  [(PIC1_DATA, 0xFF)] ++ io_wait ++ [(PIC2_DATA, 0xFF)] ++ io_wait.

Definition init_pic : list (Z * Z) := disable_pic.

Definition pic_send_eoi (irq : Z) : list (Z * Z) :=
  (if 8 <=? irq then [(PIC2_COMMAND, 0x20)] else []) ++ [(PIC1_COMMAND, 0x20)].

(** [inb] answers a read after the writes before it. *)
Definition is_spurious_irq (inb : list (Z * Z) -> Z -> Z) (irq : Z) : bool * list (Z * Z) :=
  if irq =? 7 then
    let w := [(PIC1_COMMAND, 0x0B)] in (Z.land (inb w PIC1_COMMAND) 0x80 =? 0, w)
  else if irq =? 15 then
    let w := [(PIC2_COMMAND, 0x0B)] in
    if Z.land (inb w PIC2_COMMAND) 0x80 =? 0 then (true, w ++ [(PIC1_COMMAND, 0x20)]) else (false, w)
  else (false, []).

(** One controller as its data sheet describes it: the word of the initialization that it
    expects next (0 when it runs), its first vector, its place in the cascade, the masked
    lines, the lines in service, and whether a read of the command port answers these. *)
Record Pic : Type := mkPic { pic_expects : nat; pic_base : Z; pic_cascade : Z; pic_8086 : bool; pic_mask : Z; pic_isr : Z; pic_reads_isr : bool }.

(** The line of the highest priority in service is the lowest bit; an end of interrupt
    clears it. *)
Definition pic_command (v : Z) (p : Pic) : Pic :=
  if Z.testbit v 4 then mkPic 2 (pic_base p) (pic_cascade p) (pic_8086 p) 0 0 false
  else if v =? 0x20 then mkPic (pic_expects p) (pic_base p) (pic_cascade p) (pic_8086 p) (pic_mask p) (Z.land (pic_isr p) (pic_isr p - 1)) (pic_reads_isr p)
  else if v =? 0x0B then mkPic (pic_expects p) (pic_base p) (pic_cascade p) (pic_8086 p) (pic_mask p) (pic_isr p) true
  else p.

Definition pic_data (v : Z) (p : Pic) : Pic :=
  match pic_expects p with
  | 2%nat => mkPic 3 (Z.land v 0xF8) (pic_cascade p) (pic_8086 p) (pic_mask p) (pic_isr p) (pic_reads_isr p)
  | 3%nat => mkPic 4 (pic_base p) v (pic_8086 p) (pic_mask p) (pic_isr p) (pic_reads_isr p)
  | 4%nat => mkPic 0 (pic_base p) (pic_cascade p) (Z.testbit v 0) (pic_mask p) (pic_isr p) (pic_reads_isr p)
  | _ => mkPic (pic_expects p) (pic_base p) (pic_cascade p) (pic_8086 p) v (pic_isr p) (pic_reads_isr p)
  end.

Definition pics_out (s : Pic * Pic) (w : Z * Z) : Pic * Pic :=
  let '(port, v) := w in
  if port =? PIC1_COMMAND then (pic_command v s.1, s.2) else if port =? PIC1_DATA then (pic_data v s.1, s.2)
  else if port =? PIC2_COMMAND then (s.1, pic_command v s.2) else if port =? PIC2_DATA then (s.1, pic_data v s.2) else s.

Definition pics_in (s : Pic * Pic) (ws : list (Z * Z)) (port : Z) : Z :=
  let '(p1, p2) := foldl pics_out s ws in
  if port =? PIC1_COMMAND then pic_isr p1 else if port =? PIC2_COMMAND then pic_isr p2 else 0xFF.

(** The vector a line is delivered with, when it is not masked. *)
Definition pic_delivers (s : Pic * Pic) (irq : Z) : option Z :=
  let p := if irq <? 8 then s.1 else s.2 in
  if (pic_expects p =? 0)%nat && negb (Z.testbit (pic_mask p) (irq mod 8)) then Some (pic_base p + irq mod 8) else None.

(** Whatever state the firmware left the two controllers in, they are then initialized as
    master and slave with the vectors from 32, clear of the exceptions, and deliver no
    line.  An interrupt 7 or 15 is recognised as spurious exactly when its line is not in
    service, and for a spurious interrupt of the slave the master alone is released.  The
    end of an interrupt releases the line of the highest priority, of the slave too when the
    line is one of its own. *)
Theorem old_controllers_silent s :
  (let s' := foldl pics_out s disable_pic in
   s' = (mkPic 0 32 4 true 0xFF 0 false, mkPic 0 40 2 true 0xFF 0 false) /\ forall irq, 0 <= irq < 16 -> pic_delivers s' irq = None) /\
  (let '(b, ws) := is_spurious_irq (pics_in s) 7 in b = negb (Z.testbit (pic_isr s.1) 7) /\ pic_isr (foldl pics_out s ws).1 = pic_isr s.1) /\
  (let '(b, ws) := is_spurious_irq (pics_in s) 15 in b = negb (Z.testbit (pic_isr s.2) 7) /\ pic_isr (foldl pics_out s ws).2 = pic_isr s.2 /\
     pic_isr (foldl pics_out s ws).1 = if b then Z.land (pic_isr s.1) (pic_isr s.1 - 1) else pic_isr s.1) /\
  (forall irq, 0 <= irq < 16 -> let s' := foldl pics_out s (pic_send_eoi irq) in
     pic_isr s'.1 = Z.land (pic_isr s.1) (pic_isr s.1 - 1) /\ pic_isr s'.2 = if 8 <=? irq then Z.land (pic_isr s.2) (pic_isr s.2 - 1) else pic_isr s.2).
Proof.
  destruct s as [p1 p2]. split; [|split; [|split]].
  - assert (foldl pics_out (p1, p2) disable_pic = (mkPic 0 32 4 true 0xFF 0 false, mkPic 0 40 2 true 0xFF 0 false)) as -> by (destruct p1, p2; vm_compute; reflexivity).
    split; [done|]. intros irq Hi. assert (forallb (fun i => match pic_delivers (mkPic 0 32 4 true 0xFF 0 false, mkPic 0 40 2 true 0xFF 0 false) i with None => true | _ => false end) (seqZ 0 16) = true) as Hall by (vm_compute; reflexivity).
    rewrite forallb_forall in Hall. specialize (Hall irq). rewrite <- list_elem_of_In, elem_of_seqZ in Hall. specialize (Hall ltac:(lia)). by destruct (pic_delivers _ _).
  - cbn. change 0x80 with (mask 7). by rewrite land_mask_zero.
  - change (is_spurious_irq (pics_in (p1, p2)) 15) with (if Z.land (pic_isr p2) (mask 7) =? 0 then (true, [(PIC2_COMMAND, 0x0B); (PIC1_COMMAND, 0x20)]) else (false, [(PIC2_COMMAND, 0x0B)])).
    rewrite land_mask_zero by done. change (pic_isr (p1, p2).2) with (pic_isr p2). by destruct (Z.testbit (pic_isr p2) 7).
  - intros irq Hi. unfold pic_send_eoi. by destruct (8 <=? irq).
Qed.

(** ** Concrete machines *)

Lemma ipi_correct_witness :
  ipis (apic_ptr 0x1000 (mkApic XApic 0xFEE00000)) 0 (match send_ipi 3 (fun i => if (i =? 2)%nat then 0 else 0x1000) 0x1000 (mkApic XApic 0xFEE00000) (Single 2) 0x40 with Some l => l | None => [] end) =
  [mkIpi 0x40 0 true false (ToPhysical 2)].
Proof.
  destruct (ipi_correct 0x1000 (mkApic XApic 0xFEE00000) 3 (fun i => if (i =? 2)%nat then 0 else 0x1000) 0 (Single 2) 0x40 2) as [(l & E & H) _]; [split; reflexivity || discriminate|discriminate|repeat constructor|reflexivity|].
  rewrite E. exact H.
Defined.
