(* ===== verification/Descriptors.v ===== *)
(** * The tables of the processor ([arch/x86_64/{gdt,tss,syscall}.rs], [interrupts/idt.rs])

    Segment descriptors, the task state, the interrupt gates and the registers of the
    fast system call, as the kernel packs them, against how the processor reads them.
    Theorems: every selector, gate and stack that the kernel uses is read back as it was
    meant, with the handler of an exception matching what the processor pushes, and each
    processor's area for system calls is what the entry code relies on.  The table of the
    other processors has its two user segments in the wrong order. *)

From Stdlib Require Import ZArith Lia Bool.
From stdpp Require Import base numbers option list gmap.
From S2P Require Import Prelude Bytes Elf X86 Entry.
From S2P Require Apic.

Open Scope Z_scope.

#[local] Opaque X86.word.

(** ** Segment descriptors *)

Definition KERNEL_CODE_SELECTOR : Z := 0x08.
Definition KERNEL_DATA_SELECTOR : Z := 0x10.
Definition USER_DATA_SELECTOR : Z := Z.lor 0x18 3.
Definition USER_CODE_SELECTOR : Z := Z.lor 0x20 3.
Definition TSS_SELECTOR : Z := 0x28.

(** [GdtEntry], field by field. *)
Record GdtEntry : Type := mkGdtEntry { limit_low : Z; base_low : Z; base_middle : Z; access : Z; granularity : Z; base_high : Z }.

Definition gdt_entry_bytes (e : GdtEntry) : list Z :=
  pack [(2%nat, limit_low e); (2%nat, base_low e); (1%nat, base_middle e); (1%nat, access e); (1%nat, granularity e); (1%nat, base_high e)].

Definition gdt_null : GdtEntry := mkGdtEntry 0 0 0 0 0 0.
Definition gdt_kernel_code : GdtEntry := mkGdtEntry 0xFFFF 0 0 0x9A 0xAF 0.
Definition gdt_kernel_data : GdtEntry := mkGdtEntry 0xFFFF 0 0 0x92 0xCF 0.
Definition gdt_user_data : GdtEntry := mkGdtEntry 0xFFFF 0 0 0xF2 0xCF 0.
Definition gdt_user_code : GdtEntry := mkGdtEntry 0xFFFF 0 0 0xFA 0xAF 0.

(** [TssEntry] for a task state of [size] bytes at [ptr]. *)
Definition tss_entry_bytes (ptr size : Z) : list Z :=
  pack [(2%nat, wrap 16 size -[16] 1); (2%nat, Z.land ptr 0xFFFF); (1%nat, Z.land (Z.shiftr ptr 16) 0xFF); (1%nat, 0x89); (1%nat, 0x00);
        (1%nat, Z.land (Z.shiftr ptr 24) 0xFF); (4%nat, Z.land (Z.shiftr ptr 32) 0xFFFFFFFF); (4%nat, 0)].

(** The table of [gdt.rs], which the first processor uses. *)
Definition gdt_bytes (tss_ptr tss_size : Z) : list Z :=
  gdt_entry_bytes gdt_null ++ gdt_entry_bytes gdt_kernel_code ++ gdt_entry_bytes gdt_kernel_data ++
  gdt_entry_bytes gdt_user_data ++ gdt_entry_bytes gdt_user_code ++ tss_entry_bytes tss_ptr tss_size.

(** The table of [idt.rs], which the others load. *)
Definition KERNEL_GDT_code : Z := 0x00AF9A000000FFFF.
Definition KERNEL_GDT_data : Z := 0x00CF92000000FFFF.
Definition KERNEL_GDT_user_code : Z := 0x00AFFA000000FFFF.
Definition KERNEL_GDT_user_data : Z := 0x00CFF2000000FFFF.

Definition tss_low (addr limit : Z) : Z :=
  Z.lor (Z.lor (Z.lor (Z.lor (Z.land limit 0xFFFF) (wrap 64 (Z.shiftl (Z.land addr 0xFFFF) 16))) (wrap 64 (Z.shiftl (Z.land (Z.shiftr addr 16) 0xFF) 32)))
    (Z.shiftl 0x89 40)) (wrap 64 (Z.shiftl (Z.shiftr addr 24) 56)).
Definition tss_high (addr : Z) : Z := Z.shiftr addr 32.

Definition kernel_gdt_bytes (tss_addr tss_size : Z) : list Z :=
  pack [(8%nat, 0); (8%nat, KERNEL_GDT_code); (8%nat, KERNEL_GDT_data); (8%nat, KERNEL_GDT_user_code); (8%nat, KERNEL_GDT_user_data);
        (8%nat, tss_low tss_addr (tss_size - 1)); (8%nat, tss_high tss_addr)].

(** How the processor reads a descriptor: eight bytes at the index of the selector. *)
Record Segment : Type := mkSegment { seg_present : bool; seg_dpl : Z; seg_system : bool; seg_code : bool; seg_writable : bool; seg_long : bool }.

Definition segment_of (w : Z) : Segment :=
  mkSegment (Z.testbit w 47) (Z.land (Z.shiftr w 45) 3) (negb (Z.testbit w 44)) (Z.testbit w 43) (Z.testbit w 41) (Z.testbit w 53).

Definition descriptor (table : list Z) (selector : Z) : Z := get (Z.to_nat (selector / 8 * 8)) 8 table.
Definition segment (table : list Z) (selector : Z) : Segment := segment_of (descriptor table selector).

(** The base, the limit and the type of the task state's descriptor, which has sixteen bytes. *)
Definition tss_base (table : list Z) (selector : Z) : Z :=
  let d := descriptor table selector in
  Z.land (Z.shiftr d 16) 0xFFFFFF + Z.shiftl (Z.land (Z.shiftr d 56) 0xFF) 24 + Z.shiftl (Z.land (get (Z.to_nat (selector / 8 * 8) + 8) 8 table) 0xFFFFFFFF) 32.
Definition tss_limit (table : list Z) (selector : Z) : Z :=
  let d := descriptor table selector in Z.land d 0xFFFF + Z.shiftl (Z.land (Z.shiftr d 48) 0xF) 16.
Definition tss_type (table : list Z) (selector : Z) : Z := Z.land (Z.shiftr (descriptor table selector) 40) 0xFF.

Definition kernel_code_segment : Segment := mkSegment true 0 false true true true.
Definition kernel_data_segment : Segment := mkSegment true 0 false false true false.
Definition user_code_segment : Segment := mkSegment true 3 false true true true.
Definition user_data_segment : Segment := mkSegment true 3 false false true false.

(** ** The task state *)

Record Tss : Type := mkTss { rsp0 : Z; rsp1 : Z; rsp2 : Z; ists : list Z; iomap_base : Z }.

Definition TSS_SIZE : Z := 104.

Definition Tss_new : Tss := mkTss 0 0 0 (replicate 7 0) TSS_SIZE.

Definition set_kernel_stack (stack : Z) (t : Tss) : Tss := mkTss stack (rsp1 t) (rsp2 t) (ists t) (iomap_base t).
Definition set_ist (index stack : Z) (t : Tss) : Tss :=
  if (1 <=? index) && (index <=? 7) then mkTss (rsp0 t) (rsp1 t) (rsp2 t) (<[Z.to_nat (index - 1) := stack]> (ists t)) (iomap_base t) else t.

Definition KERNEL_STACK_SIZE : Z := 16384.
Definition tss_init (kernel_stack : Z) (t : Tss) : Tss :=
  let stack_top := kernel_stack +[64] KERNEL_STACK_SIZE in set_ist 1 (stack_top -[64] 4096) (set_kernel_stack stack_top t).

Definition update_kernel_stack : Z -> Tss -> Tss := set_kernel_stack.
Definition get_kernel_stack (t : Tss) : Z := rsp0 t.

(** The packed structure, and where the processor finds the stacks. *)
Definition tss_fields (t : Tss) : list (nat * Z) :=
  [(4%nat, 0); (8%nat, rsp0 t); (8%nat, rsp1 t); (8%nat, rsp2 t); (8%nat, 0)] ++ ((fun v => (8%nat, v)) <$> ists t) ++ [(8%nat, 0); (2%nat, 0); (2%nat, iomap_base t)].
Definition tss_bytes (t : Tss) : list Z := pack (tss_fields t).
Definition stack_of_ring (ring : nat) (bytes : list Z) : Z := get (4 + 8 * ring) 8 bytes.
Definition stack_of_ist (i : nat) (bytes : list Z) : Z := get (28 + 8 * i) 8 bytes.

(** ** Interrupt gates *)

Record IdtEntry : Type := mkIdtEntry { offset_low : Z; selector : Z; ist : Z; idt_flags : Z; offset_mid : Z; offset_high : Z }.

Definition IdtEntry_new : IdtEntry := mkIdtEntry 0 0 0 0 0 0.

Definition set_handler (handler ist : Z) (_ : IdtEntry) : IdtEntry :=
  mkIdtEntry (wrap 16 handler) 0x08 ist 0x8E (wrap 16 (Z.shiftr handler 16)) (wrap 32 (Z.shiftr handler 32)).

Definition set_user_handler (handler ist : Z) (e : IdtEntry) : IdtEntry :=
  let e := set_handler handler ist e in mkIdtEntry (offset_low e) (selector e) (Descriptors.ist e) 0xEE (offset_mid e) (offset_high e).

(** The entry points in assembly: around a handler of an exception or a device, of an
    exception with an error code, and of the system call. *)
Inductive Wrapper : Type :=
| divide_error | debug | nmi | breakpoint | overflow | bound_range | invalid_opcode | device_not_available | double_fault | invalid_tss
| segment_not_present | stack_segment_fault | general_protection_fault | page_fault | x87_fpu_error | alignment_check | machine_check
| simd_exception | virtualization_exception | timer_interrupt | keyboard_interrupt | mouse_interrupt | syscall.

(** Which of them was made with [exception_with_error_wrapper]. *)
Definition with_error (w : Wrapper) : bool :=
  match w with
  | double_fault | invalid_tss | segment_not_present | stack_segment_fault | general_protection_fault | page_fault | alignment_check => true
  | _ => false
  end.

(** The assignments of [init_idt]: vector, wrapper, stack of the table, open to programs. *)
Definition gates : list (Z * (Wrapper * Z * bool)) :=
  [(0, (divide_error, 0, false)); (1, (debug, 0, false)); (2, (nmi, 0, false)); (3, (breakpoint, 0, false)); (4, (overflow, 0, false));
   (5, (bound_range, 0, false)); (6, (invalid_opcode, 0, false)); (7, (device_not_available, 0, false)); (8, (double_fault, 1, false));
   (10, (invalid_tss, 0, false)); (11, (segment_not_present, 0, false)); (12, (stack_segment_fault, 0, false));
   (13, (general_protection_fault, 0, false)); (14, (page_fault, 0, false)); (16, (x87_fpu_error, 0, false)); (17, (alignment_check, 0, false));
   (18, (machine_check, 0, false)); (19, (simd_exception, 0, false)); (20, (virtualization_exception, 0, false));
   (32, (timer_interrupt, 0, false)); (33, (keyboard_interrupt, 0, false)); (44, (mouse_interrupt, 0, false)); (128, (syscall, 0, true))].

Section Idt.
(** Where the linker puts the wrappers. *)
Context (address : Wrapper -> Z).

Definition set_gate (idt : list IdtEntry) (g : Z * (Wrapper * Z * bool)) : list IdtEntry :=
  let '(v, (w, stack, user)) := g in alter (if user then set_user_handler (address w) stack else set_handler (address w) stack) (Z.to_nat v) idt.

Definition init_idt : list IdtEntry := foldl set_gate (replicate 256 IdtEntry_new) gates.

(** How the processor reads a gate: absent, or the address, the code segment, the stack of
    the table and the least privileged ring that may call it. *)
Definition gate_of (e : IdtEntry) : option (Z * Z * Z * Z) :=
  if Z.testbit (idt_flags e) 7 then
    Some (offset_low e + Z.shiftl (offset_mid e) 16 + Z.shiftl (offset_high e) 32, selector e, Z.land (ist e) 7, Z.land (Z.shiftr (idt_flags e) 5) 3)
  else None.

Definition gate (v : Z) : option (Z * Z * Z * Z) := match init_idt !! Z.to_nat v with Some e => gate_of e | None => None end.
End Idt.

(** The exceptions for which the processor pushes an error code. *)
Definition pushes_error_code (v : Z) : bool := bool_decide (v ∈ [8; 10; 11; 12; 13; 14; 17; 21; 29; 30]).


(** ** The fast system call *)

Definition SYSCALL_MAX_CPUS : Z := 8.
Definition SYSCALL_STACK_SIZE : Z := 16384.
Definition SIZEOF_CpuSyscallData : Z := 16 + SYSCALL_STACK_SIZE.

(** The registers that [init_for_cpu] writes. *)
Record SyscallMsrs : Type := mkMsrs { KERNEL_GS_BASE : Z; EFER : Z; STAR : Z; LSTAR : Z; FMASK : Z }.

(** [data] is the address of the areas, [entry] that of [syscall_entry]. *)
Definition area_of (data cpu_id : Z) : Z := data + SIZEOF_CpuSyscallData * (if SYSCALL_MAX_CPUS <=? cpu_id then 0 else cpu_id).

Definition init_for_cpu (data entry cpu_id : Z) (m : Mem) (r : SyscallMsrs) : Mem * SyscallMsrs :=
  let cpu_data_ptr := area_of data cpu_id in
  let stack_top := cpu_data_ptr + 16 + SYSCALL_STACK_SIZE in
  let kernel_cs := KERNEL_CODE_SELECTOR in
  let user_cs := USER_CODE_SELECTOR in
  (store 8 (cpu_data_ptr + 8) stack_top m,
   mkMsrs cpu_data_ptr (Z.lor (EFER r) 1) (Z.lor (wrap 64 (Z.shiftl kernel_cs 32)) (wrap 64 (Z.shiftl (user_cs -[64] 16) 48))) entry 0x200).

(** The selectors that [syscall] and [sysretq] load. *)
Definition syscall_cs (r : SyscallMsrs) : Z := Z.land (Z.shiftr (STAR r) 32) 0xFFFC.
Definition syscall_ss (r : SyscallMsrs) : Z := Z.land (Z.shiftr (STAR r) 32) 0xFFFF + 8.
Definition sysret_cs (r : SyscallMsrs) : Z := Z.lor (Z.land (Z.shiftr (STAR r) 48) 0xFFFF + 16) 3.
Definition sysret_ss (r : SyscallMsrs) : Z := Z.lor (Z.land (Z.shiftr (STAR r) 48) 0xFFFF + 8) 3.

(** ** Packed words *)

Lemma unle_app a b : unle (a ++ b) = unle a + 2 ^ (8 * Z.of_nat (length a)) * unle b.
Proof.
  induction a as [|x a IH]; cbn [app unle length]; [lia|]. rewrite IH. replace (8 * Z.of_nat (S (length a))) with (8 + 8 * Z.of_nat (length a)) by lia. rewrite Z.pow_add_r by lia. lia.
Qed.

(** The value of packed fields. *)
Lemma unle_pack l : fits l -> unle (pack l) = foldr (fun p v => p.2 + 2 ^ (8 * Z.of_nat p.1) * v) 0 l.
Proof.
  induction l as [|[n x] l IH]; intros Hf; cbn [pack foldr fst snd]; [done|]. apply Forall_cons in Hf as [Hx Hf]. by rewrite unle_app, unle_le, length_le, IH.
Qed.

(** The pieces of an address of 64 bits. *)
Lemma pieces ptr : Z.land ptr 0xFFFF = ptr mod 2 ^ 16 /\ Z.land (Z.shiftr ptr 16) 0xFF = ptr / 2 ^ 16 mod 2 ^ 8 /\ Z.land (Z.shiftr ptr 24) 0xFF = ptr / 2 ^ 24 mod 2 ^ 8 /\
  Z.land (Z.shiftr ptr 32) 0xFFFFFFFF = ptr / 2 ^ 32 mod 2 ^ 32.
Proof.
  rewrite !Z.shiftr_div_pow2 by done. change 0xFFFF with (2 ^ 16 - 1). change 0xFF with (2 ^ 8 - 1). change 0xFFFFFFFF with (2 ^ 32 - 1). by rewrite !low_bits by done.
Qed.

(** The two halves of the task state's descriptor. *)
Definition tss_word (ptr : Z) : Z := 103 + 2 ^ 16 * (ptr mod 2 ^ 24) + 0x89 * 2 ^ 40 + 2 ^ 56 * (ptr / 2 ^ 24 mod 2 ^ 8).

Lemma tss_read table off ptr : in_width 64 ptr -> Z.to_nat (TSS_SELECTOR / 8 * 8) = off -> get off 8 table = tss_word ptr -> Z.land (get (off + 8) 8 table) 0xFFFFFFFF = ptr / 2 ^ 32 ->
  tss_base table TSS_SELECTOR = ptr /\ tss_limit table TSS_SELECTOR = TSS_SIZE - 1 /\ tss_type table TSS_SELECTOR = 0x89.
Proof.
  intros Hw Ho H1 H2. unfold tss_base, tss_limit, tss_type, descriptor, TSS_SIZE. rewrite Ho, H1, H2. rewrite !Z.shiftl_mul_pow2, !Z.shiftr_div_pow2 by done.
  change 0xFFFFFF with (2 ^ 24 - 1). change 0xFFFF with (2 ^ 16 - 1). change 0xFF with (2 ^ 8 - 1). change 0xF with (2 ^ 4 - 1). rewrite !low_bits by done. unfold tss_word, in_width in *.
  split; [|split]; Z.to_euclidean_division_equations; lia.
Qed.

Lemma tss_entry_value ptr : in_width 64 ptr -> unle (take 8 (tss_entry_bytes ptr TSS_SIZE)) = tss_word ptr /\ unle (take 8 (drop 8 (tss_entry_bytes ptr TSS_SIZE))) = ptr / 2 ^ 32.
Proof.
  intros Hw. unfold tss_entry_bytes. destruct (pieces ptr) as (-> & -> & -> & ->). unfold TSS_SIZE. change (wrap 16 104 -[16] 1) with 103.
  set (p0 := ptr mod 2 ^ 16). set (p2 := ptr / 2 ^ 16 mod 2 ^ 8). set (p3 := ptr / 2 ^ 24 mod 2 ^ 8). set (p4 := ptr / 2 ^ 32 mod 2 ^ 32).
  assert (0 <= p0 < 2 ^ 16 /\ 0 <= p2 < 2 ^ 8 /\ 0 <= p3 < 2 ^ 8 /\ 0 <= p4 < 2 ^ 32) as (B0 & B2 & B3 & B4) by (repeat split; apply Z.mod_pos_bound; lia).
  change (take 8 (pack _)) with (pack [(2%nat, 103); (2%nat, p0); (1%nat, p2); (1%nat, 0x89); (1%nat, 0); (1%nat, p3)]). change (take 8 (drop 8 (pack _))) with (pack [(4%nat, p4); (4%nat, 0)]).
  rewrite !unle_pack by (repeat constructor; unfold in_width; cbn; lia). cbn [foldr fst snd]. unfold tss_word, in_width in *. subst p0 p2 p3 p4. split; Z.to_euclidean_division_equations; lia.
Qed.

Lemma tss_low_value ptr : in_width 64 ptr -> tss_low ptr (TSS_SIZE - 1) = tss_word ptr.
Proof.
  intros Hw. unfold tss_low. destruct (pieces ptr) as (-> & -> & _). change (Z.land (TSS_SIZE - 1) 0xFFFF) with 103. rewrite !Z.shiftr_div_pow2 by done.
  set (p0 := ptr mod 2 ^ 16). set (p2 := ptr / 2 ^ 16 mod 2 ^ 8). assert (0 <= p0 < 2 ^ 16 /\ 0 <= p2 < 2 ^ 8) as (B0 & B2) by (split; apply Z.mod_pos_bound; lia).
  assert (wrap 64 (Z.shiftl p0 16) = Z.shiftl p0 16) as -> by (rewrite Z.shiftl_mul_pow2 by done; apply wrap_small; unfold in_width; lia).
  assert (wrap 64 (Z.shiftl p2 32) = Z.shiftl p2 32) as -> by (rewrite Z.shiftl_mul_pow2 by done; apply wrap_small; unfold in_width; lia).
  assert (wrap 64 (Z.shiftl (ptr / 2 ^ 24) 56) = Z.shiftl (ptr / 2 ^ 24 mod 2 ^ 8) 56) as -> by (rewrite !Z.shiftl_mul_pow2 by done; unfold wrap; change (2 ^ 64) with (2 ^ 8 * 2 ^ 56); by rewrite Z.mul_mod_distr_r by done).
  assert (0 <= ptr / 2 ^ 24 mod 2 ^ 8 < 2 ^ 8) as B3 by (apply Z.mod_pos_bound; lia). unfold in_width in *.
  rewrite (lor_add 103 p0 16) by (done || (unfold in_width; lia)). rewrite (lor_add (103 + p0 * 2 ^ 16) p2 32) by (done || (unfold in_width; lia)).
  rewrite (lor_add (103 + p0 * 2 ^ 16 + p2 * 2 ^ 32) 0x89 40) by (done || (unfold in_width; lia)). rewrite lor_add by (done || (unfold in_width; lia)).
  unfold tss_word. subst p0 p2. Z.to_euclidean_division_equations; lia.
Qed.

(** Both tables give the kernel's selectors the segments they are meant for, and the task
    state its address, its size and its type, wherever the linker put it.  The user's
    selectors are right in the table of the first processor; in the one of the others
    the two segments are exchanged, so that returning to a program there loads a
    segment of data as its code. *)
Theorem segments_correct ptr : in_width 64 ptr ->
  let t := gdt_bytes ptr TSS_SIZE in let k := kernel_gdt_bytes ptr TSS_SIZE in
  (segment t KERNEL_CODE_SELECTOR = kernel_code_segment /\ segment t KERNEL_DATA_SELECTOR = kernel_data_segment /\
   segment t USER_CODE_SELECTOR = user_code_segment /\ segment t USER_DATA_SELECTOR = user_data_segment /\
   tss_base t TSS_SELECTOR = ptr /\ tss_limit t TSS_SELECTOR = TSS_SIZE - 1 /\ tss_type t TSS_SELECTOR = 0x89) /\
  (segment k KERNEL_CODE_SELECTOR = kernel_code_segment /\ segment k KERNEL_DATA_SELECTOR = kernel_data_segment /\
   segment k USER_CODE_SELECTOR = user_data_segment /\ segment k USER_DATA_SELECTOR = user_code_segment /\
   tss_base k TSS_SELECTOR = ptr /\ tss_limit k TSS_SELECTOR = TSS_SIZE - 1 /\ tss_type k TSS_SELECTOR = 0x89).
Proof.
  intros Hw t k. assert (0 <= ptr / 2 ^ 32 < 2 ^ 32) as Hhi by (unfold in_width in Hw; Z.to_euclidean_division_equations; lia).
  assert (Z.land (ptr / 2 ^ 32) 0xFFFFFFFF = ptr / 2 ^ 32) as Eh by (change 0xFFFFFFFF with (2 ^ 32 - 1); rewrite low_bits by done; by apply Z.mod_small). split.
  - do 4 (split; [vm_compute; reflexivity|]). destruct (tss_entry_value ptr Hw) as [E1 E2]. apply (tss_read t 40 ptr Hw eq_refl); [exact E1|]. change (get (40 + 8) 8 t) with (unle (take 8 (drop 8 (tss_entry_bytes ptr TSS_SIZE)))). by rewrite E2.
  - do 4 (split; [vm_compute; reflexivity|]). apply (tss_read k 40 ptr Hw eq_refl).
    + change (get 40 8 k) with (unle (le 8 (tss_low ptr (TSS_SIZE - 1)))). rewrite tss_low_value by done. apply unle_le. unfold tss_word, in_width in *. Z.to_euclidean_division_equations; lia.
    + change (get (40 + 8) 8 k) with (unle (le 8 (Z.shiftr ptr 32))). rewrite Z.shiftr_div_pow2 by done. rewrite unle_le by (unfold in_width; lia). exact Eh.
Qed.

(** ** Stacks *)

(** Fields fit when each does. *)
Ltac fits_all := unfold fits; repeat (apply Forall_cons; split; [assumption|]); constructor.

(** What the task state holds is where the processor looks for it: the stack for interrupts
    of programs follows every update and the stacks of the table every setting, without
    touching one another.  After the start the interrupt stack is the top of the kernel's
    stack and the first stack of the table, for double faults, lies a page below it. *)
Theorem tss_correct t : length (ists t) = 7%nat -> fits (tss_fields t) ->
  Z.of_nat (length (tss_bytes t)) = TSS_SIZE /\
  (forall s, in_width 64 s -> stack_of_ring 0 (tss_bytes (update_kernel_stack s t)) = s /\ get_kernel_stack (update_kernel_stack s t) = s /\
     forall i, (1 <= i <= 7)%nat -> stack_of_ist i (tss_bytes (update_kernel_stack s t)) = stack_of_ist i (tss_bytes t)) /\
  (forall i s, (1 <= i <= 7)%nat -> in_width 64 s -> stack_of_ist i (tss_bytes (set_ist (Z.of_nat i) s t)) = s /\
     stack_of_ring 0 (tss_bytes (set_ist (Z.of_nat i) s t)) = rsp0 t /\
     forall j, (1 <= j <= 7)%nat -> j <> i -> stack_of_ist j (tss_bytes (set_ist (Z.of_nat i) s t)) = stack_of_ist j (tss_bytes t)).
Proof.
  destruct t as [r0 r1 r2 l io]. cbn [ists]. intros Hl Hf. destruct l as [|i1 [|i2 [|i3 [|i4 [|i5 [|i6 [|i7 [|]]]]]]]]; try discriminate Hl. clear Hl.
  assert (forall t k n x a, tss_fields t !! k = Some (n, x) -> a = packed_size (take k (tss_fields t)) -> fits (tss_fields t) -> get a n (tss_bytes t) = x) as Hg.
  { intros t k n x a Hk Ha Ht. unfold tss_bytes. rewrite <- (app_nil_r (pack (tss_fields t))). by apply (get_pack (tss_fields t) k []). }
  unfold fits, tss_fields in Hf. cbn [ists rsp0 rsp1 rsp2 iomap_base app fmap list_fmap] in Hf. rewrite !Forall_cons in Hf. destruct Hf as (F0 & F1 & F2 & F3 & F4 & F5 & F6 & F7 & F8 & F9 & F10 & F11 & F12 & F13 & F14 & _).
  split; [unfold tss_bytes; by rewrite length_pack|]. split.
  - intros s Hs. assert (fits (tss_fields (update_kernel_stack s (mkTss r0 r1 r2 [i1; i2; i3; i4; i5; i6; i7] io)))) as Ht by fits_all.
    assert (fits (tss_fields (mkTss r0 r1 r2 [i1; i2; i3; i4; i5; i6; i7] io))) as Ht0 by fits_all.
    split; [by apply (Hg _ 1%nat)|]. split; [done|]. intros i Hi. unfold stack_of_ist.
    destruct i as [|[|[|[|[|[|[|[|]]]]]]]]; try lia; [rewrite !(Hg _ 5%nat 8%nat i1)|rewrite !(Hg _ 6%nat 8%nat i2)|rewrite !(Hg _ 7%nat 8%nat i3)|rewrite !(Hg _ 8%nat 8%nat i4)|rewrite !(Hg _ 9%nat 8%nat i5)|rewrite !(Hg _ 10%nat 8%nat i6)|rewrite !(Hg _ 11%nat 8%nat i7)]; done.
  - intros i s Hi Hs. assert (fits (tss_fields (mkTss r0 r1 r2 [i1; i2; i3; i4; i5; i6; i7] io))) as Ht0 by fits_all.
    assert (fits (tss_fields (set_ist (Z.of_nat i) s (mkTss r0 r1 r2 [i1; i2; i3; i4; i5; i6; i7] io)))) as Ht by (destruct i as [|[|[|[|[|[|[|[|]]]]]]]]; try lia; fits_all).
    set (t := mkTss r0 r1 r2 [i1; i2; i3; i4; i5; i6; i7] io) in *.
    assert (forall j v, (1 <= j <= 7)%nat -> [i1; i2; i3; i4; i5; i6; i7] !! (j - 1)%nat = Some v -> stack_of_ist j (tss_bytes t) = v) as H0.
    { intros j v Hj Hv. apply (Hg t (j + 4)%nat); [|destruct j as [|[|[|[|[|[|[|[|]]]]]]]]; try lia; reflexivity|done]. destruct j as [|[|[|[|[|[|[|[|]]]]]]]]; try lia; by injection Hv as <-. }
    assert (forall j v, (1 <= j <= 7)%nat -> ists (set_ist (Z.of_nat i) s t) !! (j - 1)%nat = Some v -> stack_of_ist j (tss_bytes (set_ist (Z.of_nat i) s t)) = v) as H1.
    { intros j v Hj Hv. apply (Hg _ (j + 4)%nat); [| |done]; (destruct i as [|[|[|[|[|[|[|[|]]]]]]]]; try lia; (destruct j as [|[|[|[|[|[|[|[|]]]]]]]]; try lia; first [by injection Hv as <-|reflexivity])). }
    split; [|split].
    + apply H1; [done|]. destruct i as [|[|[|[|[|[|[|[|]]]]]]]]; try lia; reflexivity.
    + apply (Hg _ 1%nat); [|reflexivity|done]. destruct i as [|[|[|[|[|[|[|[|]]]]]]]]; try lia; reflexivity.
    + intros j Hj Hne. destruct (lookup_lt_is_Some_2 [i1; i2; i3; i4; i5; i6; i7] (j - 1)) as [v Hv]; [cbn; lia|]. rewrite (H0 j v Hj Hv). apply H1; [done|].
      unfold set_ist. rewrite (proj2 (Z.leb_le 1 _)), (proj2 (Z.leb_le _ 7)) by lia. cbn [andb ists]. rewrite list_lookup_insert_ne by lia. exact Hv.
Qed.

(** ** Gates *)

Lemma address_pieces a : in_width 64 a -> wrap 16 a + Z.shiftl (wrap 16 (Z.shiftr a 16)) 16 + Z.shiftl (wrap 32 (Z.shiftr a 32)) 32 = a.
Proof. intros Hw. unfold wrap, in_width in *. rewrite !Z.shiftl_mul_pow2, !Z.shiftr_div_pow2 by done. Z.to_euclidean_division_equations. lia. Qed.

Section Gates.
Context (address : Wrapper -> Z) (Haddr : forall w, in_width 64 (address w)).

Definition gate_entry (g : Z * (Wrapper * Z * bool)) : IdtEntry :=
  let '(_, (w, stack, user)) := g in (if user then set_user_handler else set_handler) (address w) stack IdtEntry_new.

Lemma set_gates_lookup l : forall idt v, NoDup (Z.to_nat <$> l.*1) -> foldl (set_gate address) idt l !! v =
  match List.find (fun g => bool_decide (Z.to_nat g.1 = v)) l with Some g => (fun _ => gate_entry g) <$> idt !! v | None => idt !! v end.
Proof.
  induction l as [|g l IH]; intros idt v Hd; cbn [foldl List.find]; [done|]. cbn in Hd. apply NoDup_cons in Hd as [Hn Hd]. rewrite IH by done.
  destruct g as [n [[w stack] user]]. cbn [fst set_gate] in *. case_bool_decide as E.
  - subst v. assert (List.find (fun g => bool_decide (Z.to_nat g.1 = Z.to_nat n)) l = None) as ->.
    { destruct (List.find _ l) as [[n' x]|] eqn:Ef; [|done]. apply List.find_some in Ef as [Hin Hb%bool_decide_eq_true]. exfalso. apply Hn. cbn [fst] in Hb. rewrite <- Hb.
      apply list_elem_of_fmap. exists n'. split; [done|]. apply list_elem_of_fmap. exists (n', x). split; [done|]. by apply list_elem_of_In. }
    rewrite list_lookup_alter_eq. destruct (idt !! Z.to_nat n); [|done]. cbn. by destruct user.
  - rewrite list_lookup_alter_ne by done. done.
Qed.

Lemma gate_entry_read v w stack user : 0 <= stack < 8 -> gate_of (gate_entry (v, (w, stack, user))) = Some (address w, KERNEL_CODE_SELECTOR, stack, if user then 3 else 0).
Proof.
  intros Hs. pose proof (address_pieces (address w) (Haddr w)) as Ha. assert (Z.land stack 7 = stack) as El by (change 7 with (2 ^ 3 - 1); rewrite low_bits by done; apply Z.mod_small; lia).
  destruct user; unfold gate_entry, gate_of, set_user_handler, set_handler; cbn [idt_flags offset_low offset_mid offset_high selector ist]; rewrite Ha, El; reflexivity.
Qed.

Lemma gates_ok : NoDup (Z.to_nat <$> gates.*1) /\ Forall (fun g => 0 <= g.1 < 256 /\ 0 <= g.2.1.2 < 8) gates.
Proof. split; apply (bool_decide_unpack _); vm_compute; exact I. Qed.

Lemma gate_spec v : 0 <= v < 256 -> gate address v =
  match List.find (fun g => bool_decide (Z.to_nat g.1 = Z.to_nat v)) gates with
  | Some (_, (w, stack, user)) => Some (address w, KERNEL_CODE_SELECTOR, stack, if user then 3 else 0)
  | None => None
  end.
Proof.
  intros Hv. destruct gates_ok as [Hd Hf]. unfold gate, init_idt. rewrite set_gates_lookup by done. rewrite lookup_replicate_2 by lia.
  destruct (List.find _ gates) as [g|] eqn:Ef; [|done]. apply List.find_some in Ef as [Hin _]. rewrite Forall_forall in Hf. destruct (Hf g ltac:(by apply list_elem_of_In)) as [_ Hs]. destruct g as [n [[w stack] user]].
  cbn [fmap option_fmap option_map]. by apply gate_entry_read.
Qed.
End Gates.

(** C35: The table has a gate for exactly the vectors that [init_idt] sets.  Each leads to its
    wrapper in the kernel's code segment, wherever the linker put it; programs can call
    the system call and no other; the stack of the table is used for double faults only;
    and the wrapper expects an error code exactly for the exceptions with which the
    processor pushes one.  There is no gate for the vector that the interrupt controller
    is told to use for spurious interrupts. *)
Theorem gates_correct address : (forall w, in_width 64 (address w)) ->
  (forall v w stack (user : bool), (v, (w, stack, user)) ∈ gates -> gate address v = Some (address w, KERNEL_CODE_SELECTOR, stack, if user then 3 else 0)) /\
  (forall v, 0 <= v < 256 -> (forall g, (v, g) ∉ gates) -> gate address v = None) /\
  (forall v a cs stack, 0 <= v < 256 -> gate address v = Some (a, cs, stack, 3) -> v = 0x80) /\
  (forall v a cs stack dpl, 0 <= v < 256 -> gate address v = Some (a, cs, stack, dpl) -> stack <> 0 -> v = 8) /\
  (forall v w stack (user : bool), (v, (w, stack, user)) ∈ gates -> with_error w = pushes_error_code v) /\
  gate address Apic.APIC_SPURIOUS_VECTOR = None.
Proof.
  intros Ha. destruct gates_ok as [Hd Hf].
  assert (forall v w stack user, (v, (w, stack, user)) ∈ gates -> 0 <= v < 256 /\ List.find (fun g => bool_decide (Z.to_nat g.1 = Z.to_nat v)) gates = Some (v, (w, stack, user))) as Hfind.
  { intros v w stack user Hin. rewrite Forall_forall in Hf. destruct (Hf _ Hin) as [Hv _]. split; [exact Hv|]. revert Hin. clear Hf.
    induction gates as [|g l IH]; [by intros Hn%not_elem_of_nil|]. cbn in Hd. apply NoDup_cons in Hd as [Hn Hd]. intros [<-|Hin]%elem_of_cons; cbn [List.find fst].
    - by rewrite bool_decide_eq_true_2.
    - rewrite bool_decide_eq_false_2; [by apply IH|]. intros E. apply Hn. rewrite E. apply list_elem_of_fmap. exists v. split; [done|]. apply list_elem_of_fmap. by exists (v, (w, stack, user)). }
  assert (forall v a cs stack dpl, 0 <= v < 256 -> gate address v = Some (a, cs, stack, dpl) -> exists w (user : bool), (v, (w, stack, user)) ∈ gates /\ dpl = if user then 3 else 0) as Hback.
  { intros v a cs stack dpl Hv Hg. rewrite gate_spec in Hg by done. destruct (List.find _ gates) as [[n [[w st] user]]|] eqn:Ef; [|done]. injection Hg as <- <- <- <-.
    apply List.find_some in Ef as [Hin Hb%bool_decide_eq_true]. cbn [fst] in Hb. apply list_elem_of_In in Hin. destruct (Hfind n w st user Hin) as [Hn _]. assert (n = v) as -> by lia. by exists w, user. }
  split; [|split; [|split; [|split; [|split]]]].
  - intros v w stack user Hin. destruct (Hfind v w stack user Hin) as [Hv E]. by rewrite gate_spec, E by done.
  - intros v Hv Hno. destruct (gate address v) as [[[[a cs] stack] dpl]|] eqn:Eg; [|done]. destruct (Hback v a cs stack dpl Hv Eg) as (w & user & Hin & _). by destruct (Hno _ Hin).
  - intros v a cs stack Hv Hg. destruct (Hback v a cs stack 3 Hv Hg) as (w & user & Hin & Hu). destruct user; [|done].
    assert (Forall (fun g : Z * (Wrapper * Z * bool) => g.2.2 = true -> g.1 = 0x80) gates) as Hall by (repeat (constructor; [done|]); constructor). rewrite Forall_forall in Hall. exact (Hall _ Hin eq_refl).
  - intros v a cs stack dpl Hv Hg Hs. destruct (Hback v a cs stack dpl Hv Hg) as (w & user & Hin & _).
    assert (Forall (fun g : Z * (Wrapper * Z * bool) => g.2.1.2 <> 0 -> g.1 = 8) gates) as Hall by (repeat (constructor; [done|]); constructor). rewrite Forall_forall in Hall. exact (Hall _ Hin Hs).
  - intros v w stack user Hin. assert (Forall (fun g : Z * (Wrapper * Z * bool) => with_error g.2.1.1 = pushes_error_code g.1) gates) as Hall by (repeat (constructor; [done|]); constructor).
    rewrite Forall_forall in Hall. exact (Hall _ Hin).
  - rewrite gate_spec by done. reflexivity.
Qed.

(** ** Areas for system calls *)

(** After the set-up the two instructions load the kernel's and the user's selectors,
    interrupts are masked during the entry, and the entry finds what it relies on: the
    area behind the second base of [gs] with the top of a stack that holds its frame and
    does not reach the area's first words.  The areas of two of the first eight
    processors have nothing in common; the others use the area of the first. *)
Theorem syscall_setup_correct data entry cpu_id m r : 0 <= data -> data + SIZEOF_CpuSyscallData * SYSCALL_MAX_CPUS < 2 ^ 64 -> 0 <= cpu_id ->
  let '(m', r') := init_for_cpu data entry cpu_id m r in
  (syscall_cs r' = KERNEL_CODE_SELECTOR /\ syscall_ss r' = KERNEL_DATA_SELECTOR /\ sysret_cs r' = USER_CODE_SELECTOR /\ sysret_ss r' = USER_DATA_SELECTOR) /\
  Z.testbit (EFER r') 0 = true /\ Z.testbit (FMASK r') 9 = true /\ LSTAR r' = entry /\
  (forall s, wide s -> kernel_gs s = KERNEL_GS_BASE r' -> memory s = m' -> entry_ok s) /\
  (forall other, 0 <= other < SYSCALL_MAX_CPUS -> cpu_id < SYSCALL_MAX_CPUS -> other <> cpu_id ->
     area_of data other + SIZEOF_CpuSyscallData <= area_of data cpu_id \/ area_of data cpu_id + SIZEOF_CpuSyscallData <= area_of data other) /\
  (SYSCALL_MAX_CPUS <= cpu_id -> area_of data cpu_id = area_of data 0).
Proof.
  intros Hd Hend Hc. unfold init_for_cpu. set (area := area_of data cpu_id). assert (data <= area /\ area + SIZEOF_CpuSyscallData < 2 ^ 64) as [Ha1 Ha2].
  { unfold area, area_of, SYSCALL_MAX_CPUS, SIZEOF_CpuSyscallData, SYSCALL_STACK_SIZE in *. destruct (Z.leb_spec 8 cpu_id); lia. }
  unfold SIZEOF_CpuSyscallData, SYSCALL_STACK_SIZE in *. split; [by repeat split|]. split; [cbn [EFER]; rewrite Z.lor_spec; apply orb_true_r|]. split; [done|]. split; [done|]. split; [|split].
  - intros s Hw Hg Hm. cbn [KERNEL_GS_BASE] in Hg. assert (word (kernel_gs s + 8) s = area + 16 + 16384) as E.
    { Transparent X86.word. unfold word. rewrite Hg, Hm. apply (load_store_eq 8). unfold in_width. lia. }
    split; [done|rewrite Hg; lia|rewrite E; lia|rewrite E, Hg; right; lia].
  - intros other Ho Hcp Hne. unfold area, area_of, SYSCALL_MAX_CPUS, SIZEOF_CpuSyscallData, SYSCALL_STACK_SIZE in *. destruct (Z.leb_spec 8 cpu_id), (Z.leb_spec 8 other); lia.
  - intros Hbig. unfold area, area_of. by rewrite (proj2 (Z.leb_le SYSCALL_MAX_CPUS cpu_id)) by done.
Qed.

(** ** Witnesses *)

Lemma segments_correct_witness : tss_base (gdt_bytes 0xFFFFFFFF80123456 TSS_SIZE) TSS_SELECTOR = 0xFFFFFFFF80123456 /\
  segment (kernel_gdt_bytes 0xFFFFFFFF80123456 TSS_SIZE) USER_CODE_SELECTOR = user_data_segment.
Proof. destruct (segments_correct 0xFFFFFFFF80123456 ltac:(split; [discriminate|reflexivity])) as [(_ & _ & _ & _ & H & _) (_ & _ & H' & _)]. split; [exact H|exact H']. Defined.

Lemma tss_correct_witness : stack_of_ist 1 (tss_bytes (set_ist 1 0xFFFF800000005000 Tss_new)) = 0xFFFF800000005000.
Proof.
  destruct (tss_correct Tss_new eq_refl) as (_ & _ & H); [unfold fits; repeat (apply Forall_cons; split; [split; [discriminate|reflexivity]|]); constructor|].
  destruct (H 1%nat 0xFFFF800000005000 ltac:(lia) ltac:(split; [discriminate|reflexivity])) as [E _]. change (Z.of_nat 1) with 1 in E. exact E.
Defined.

Lemma gates_correct_witness : gate (fun _ => 0xFFFFFFFF80001000) 14 = Some (0xFFFFFFFF80001000, KERNEL_CODE_SELECTOR, 0, 0).
Proof.
  assert (forall w : Wrapper, in_width 64 0xFFFFFFFF80001000) as Hw by (intros w; split; [discriminate|reflexivity]).
  pose proof (proj1 (gates_correct (fun _ => 0xFFFFFFFF80001000) Hw) 14 page_fault 0 false) as H. apply H.
  apply list_elem_of_lookup. by exists 13%nat.
Defined.

Lemma syscall_setup_correct_witness : entry_ok (mkCpuState (fun _ => 0) 0 0 0 0 0 (area_of 0x10000 1) 0 (init_for_cpu 0x10000 0x5000 1 ∅ (mkMsrs 0 0 0 0 0)).1).
Proof.
  pose proof (syscall_setup_correct 0x10000 0x5000 1 ∅ (mkMsrs 0 0 0 0 0) ltac:(discriminate) eq_refl ltac:(discriminate)) as H.
  destruct (init_for_cpu 0x10000 0x5000 1 ∅ (mkMsrs 0 0 0 0 0)) as [m' r'] eqn:E. destruct H as (_ & _ & _ & _ & H & _). apply H; [split; [intros; by split|by split]| |reflexivity].
  unfold init_for_cpu in E. by injection E as _ <-.
Defined.
