(* ===== verification/Spawn.v ===== *)
(** * Starting programs ([usermode/spawn.rs])

    A process from an ELF file: its address space, its kernel stack, its control
    block in the process table and its place in the scheduler.  Theorem: a process
    that is spawned is ready to run at the entry point of its file, sees its file,
    and has its heap above its segments; a spawn that fails leaves the table, the
    scheduler and the kernel's translations alone.  The frames of a kernel stack
    need not lie together. *)

From Stdlib Require Import ZArith Lia Bool.
From stdpp Require Import base numbers option list gmap sets strings.
From S2P Require Import Prelude Bytes Util Frame Paging Mapping UserSpace Elf Loader Process Scheduler.

Open Scope Z_scope.

Definition KERNEL_STACK_SIZE : Z := 16384.
Definition USER_DATA_SELECTOR : Z := Z.lor 0x18 3.
Definition USER_CODE_SELECTOR : Z := Z.lor 0x20 3.
Definition MMAP_BASE : Z := 0x0000400000000000.

Record SpawnedProcess : Type := mkSpawned { sp_pid : Z; sp_entry_point : Z; sp_user_stack : Z; sp_page_table_phys : Z }.

(** The process that [spawn_user_process] fills in. *)
Definition user_process (p entry_point stack_top page_table_phys kernel_stack heap_start : Z) : Process :=
  let r := Registers_new in
  let registers := mkRegisters (r15 r) (r14 r) (r13 r) (r12 r) (rbx r) (rbp r) (r11 r) (r10 r) (r9 r) (r8 r)
    (rsi r) (rdi r) (rdx r) (rcx r) (rax r) entry_point USER_CODE_SELECTOR 0x202 stack_top USER_DATA_SELECTOR in
  let q := Process_new p in
  mkProcess p (uid q) Ready registers page_table_phys kernel_stack stack_top true heap_start heap_start MMAP_BASE Interactive
    (intent q) (reality_id q) (cpu_affinity q) (time_slice q) (total_runtime q) (last_scheduled q) (wait_reason q).

Definition heap_start_of (highest_addr : Z) : Z := align_up (highest_addr +[64] 0x1000) PAGE_SIZE.

Record System (S : Type) : Type := mkSystem { sy_space : Space S; sy_kernel : Kernel; NEXT_PID : Z }.
Arguments mkSystem {S} _ _ _.
Arguments sy_space {S} _.
Arguments sy_kernel {S} _.
Arguments NEXT_PID {S} _.

Section Spawn.
Context {S : Type} `{FS : FrameSource S}.

(** Frames that are taken and cleared one after the other. *)
Definition clear_frame (msg : string) : Load (S := S) Z :=
  do frame <- take_frame msg;
  do_ on_bytes (zero_page frame);
  ret frame.

Fixpoint clear_frames (n : nat) (msg : string) : Load (S := S) unit :=
  match n with O => ret tt | Datatypes.S n => do_ clear_frame msg; clear_frames n msg end.

Definition allocate_kernel_stack (hhdm : Z) : Load (S := S) Z :=
  let num_pages := KERNEL_STACK_SIZE / PAGE_SIZE in
  do base_frame <- clear_frame "Out of memory for kernel stack";
  do_ clear_frames (Z.to_nat (num_pages - 1)) "Out of memory for kernel stack";
  ret ((base_frame +[64] hhdm) +[64] KERNEL_STACK_SIZE).

(** The part of [spawn_user_process] before the process is made: the entry point,
    the address space, the highest address and the kernel stack. *)
Definition load_image (beyond : Z -> Z) (hhdm k : Z) (elf_data : list Z) : Load (S := S) (Z * Z * Z * Z * Z) :=
  do header <- lift_result (parse elf_data);
  let entry := entry_point header in
  if 0x0000800000000000 <=? entry then fail (Error "ELF entry point is not in user space"%string)
  else
    do us <- create_user_address_space k;
    do phs <- lift_result (program_headers beyond header elf_data);
    do highest_addr <- load_program phs elf_data us.1 ∅ 0;
    do kernel_stack <- allocate_kernel_stack hhdm;
    ret (entry, us.1, us.2, highest_addr, kernel_stack).

Definition spawn_user_process (beyond : Z -> Z) (hhdm k : Z) (elf_data : list Z) : M (System S) (Failure string) SpawnedProcess := fun s =>
  match load_image beyond hhdm k elf_data (sy_space s) with
  | (Err e, sp) => (Err e, mkSystem sp (sy_kernel s) (NEXT_PID s))
  | (Ok (entry, page_table_phys, stack_top, highest_addr, kernel_stack), sp) =>
      let p := NEXT_PID s in
      let process := user_process p entry stack_top page_table_phys kernel_stack (heap_start_of highest_addr) in
      match add process (table (sy_kernel s)) with
      | (Err _, t) => (Err (Error "Process table full"%string), mkSystem sp (set_table t (sy_kernel s)) (p +[64] 1))
      | (Ok _, t) =>
          (Ok (mkSpawned p entry stack_top page_table_phys),
           mkSystem sp (add_to_scheduler_with_priority p Interactive (set_table t (sy_kernel s))) (p +[64] 1))
      end
  end.

(** [launch_user_shell] and [launch_shell_from_fs] up to the switch to the program:
    the process is the current one and its kernel stack the one for interrupts. *)
Definition launch (beyond : Z -> Z) (hhdm k : Z) (elf_data : list Z) : M (System S) (Failure string) (SpawnedProcess * Z) := fun s =>
  match spawn_user_process beyond hhdm k elf_data s with
  | (Err e, s) => (Err e, s)
  | (Ok spawned, s) =>
      let kern := set_current_pid (sp_pid spawned) (sy_kernel s) in
      let rsp0 := match get (sp_pid spawned) (table kern) with Some p => kernel_stack p | None => 0 end in
      (Ok (spawned, rsp0), mkSystem (sy_space s) kern (NEXT_PID s))
  end.

Definition launch_shell_from_fs (beyond : Z -> Z) (hhdm k : Z) (file : option (list Z)) : M (System S) (Failure string) (SpawnedProcess * Z) :=
  match file with
  | None => throw (Error "Shell binary not found in filesystem"%string)
  | Some elf_data => launch beyond hhdm k elf_data
  end.

(** *** Kernel stacks show nowhere *)

(** A change that a program does not see. *)
Definition unseen (u : Z) (s s' : Space S) : Prop :=
  pages_ok u s' /\ user_step u (sp_vm s) (sp_vm s') /\ (forall w, translate u w (sp_vm s') = translate u w (sp_vm s)) /\
  (forall w, user_half w -> user_byte u w s' = user_byte u w s).

Lemma unseen_refl u s : pages_ok u s -> unseen u s s.
Proof. intros H. split; [done|]. split; [apply user_step_refl|]. done. Qed.

Lemma unseen_trans u s1 s2 s3 : unseen u s1 s2 -> unseen u s2 s3 -> unseen u s1 s3.
Proof.
  intros (P1 & U1 & T1 & B1) (P2 & U2 & T2 & B2). split; [done|]. split; [by apply (user_step_trans u _ (sp_vm s2))|].
  split; [intros w; by rewrite T2|]. intros w Hw. by rewrite B2, B1.
Qed.

Lemma clear_frame_unseen u msg (s : Space S) : pages_ok u s -> unseen u s (clear_frame msg s).2.
Proof.
  intros Hok. unfold clear_frame, bindM. pose proof (take_frame_spec u msg s Hok) as H.
  destruct (take_frame msg s) as [[f|e] s1]; destruct H as (Hok1 & U1 & Em & Eb & R);
    assert (forall w, translate u w (sp_vm s1) = translate u w (sp_vm s)) as Et by (intros w; unfold translate; by rewrite Em).
  - destruct R as (Hin & Ef & H0 & Hm & _). unfold on_bytes, ret. cbn [snd]. split; [|split; [done|split; [done|]]].
    + by apply (pages_kept u s1); [|apply (po_tree u s1 Hok1)|unfold free_frames|].
    + intros w Hw. rewrite Eb. by apply zero_free_frame.
  - split; [done|]. split; [done|]. split; [done|]. intros w _. cbn [snd]. unfold user_byte. by rewrite Et, Eb.
Qed.

Lemma clear_frames_unseen u msg n : forall s : Space S, pages_ok u s -> unseen u s (clear_frames n msg s).2.
Proof.
  induction n as [|n IH]; intros s Hok; cbn [clear_frames]; [by apply unseen_refl|]. unfold bindM.
  pose proof (clear_frame_unseen u msg s Hok) as H. destruct (clear_frame msg s) as [[f|e] s1]; cbn [snd] in H; [|exact H].
  apply (unseen_trans u s s1); [done|]. by apply IH, H.
Qed.

Lemma allocate_kernel_stack_unseen u hhdm (s : Space S) : pages_ok u s -> unseen u s (allocate_kernel_stack hhdm s).2.
Proof.
  intros Hok. unfold allocate_kernel_stack, bindM. pose proof (clear_frame_unseen u "Out of memory for kernel stack" s Hok) as H.
  destruct (clear_frame _ s) as [[f|e] s1]; cbn [snd] in H; [|exact H]. apply (unseen_trans u s s1); [done|].
  pose proof (clear_frames_unseen u "Out of memory for kernel stack" (Z.to_nat (KERNEL_STACK_SIZE / PAGE_SIZE - 1)) s1 (proj1 H)) as H2.
  by destruct (clear_frames _ _ s1) as [[[]|e] s2].
Qed.

(** *** Spawning *)

(** The file, its entry point, and its program headers, as spawning reads them. *)
Definition readable (beyond : Z -> Z) (elf_data : list Z) (entry : Z) (phs : list Elf64ProgramHeader) : Prop :=
  exists h, parse elf_data = Ok h /\ entry = entry_point h /\ program_headers beyond h elf_data = Ok phs.

Lemma load_image_new_program beyond hhdm k elf_data entry phs (s : Space S) : readable beyond elf_data entry phs -> entry < 0x0000800000000000 ->
  load_image beyond hhdm k elf_data s =
  (do r <- new_program k phs elf_data; do kernel_stack <- allocate_kernel_stack hhdm; ret (entry, r.1.1, r.1.2, r.2, kernel_stack)) s.
Proof.
  intros (h & Hp & -> & Hphs) He. unfold load_image, new_program, bindM, lift_result. rewrite Hp.
  rewrite (proj2 (Z.leb_gt _ _)) by done. destruct (create_user_address_space k s) as [[us|e] s1]; [|done]. rewrite Hphs.
  by destruct (load_program phs elf_data us.1 ∅ 0 s1) as [[h'|e] s2].
Qed.

Lemma load_image_spec beyond hhdm k elf_data entry phs (s : Space S) : tree_ok k (sp_vm s) -> readable beyond elf_data entry phs -> program_ok phs ->
  entry < 0x0000800000000000 ->
  let '(r, s') := load_image beyond hhdm k elf_data s in
  tree_ok k (sp_vm s') /\ (forall w, translate k w (sp_vm s') = translate k w (sp_vm s)) /\
  match r with
  | Ok (e, u, stack_top, highest_addr, kernel_stack) =>
      e = entry /\ stack_top = USER_STACK_BASE + USER_STACK_SIZE /\
      highest_addr = foldl (fun h ph => if p_type ph =? PT_LOAD then Z.max h (p_vaddr ph + p_memsz ph) else h) 0 phs /\
      (forall w, ~ user_half w -> translate u w (sp_vm s') = translate k w (sp_vm s)) /\
      (forall w, 0 <= w < 2 ^ 47 ->
         user_byte u w s' = image phs elf_data (fun w => if decide (on_stack w) then Some 0 else None) w)
  | Err _ => True
  end.
Proof.
  intros Hok Hr Hp He. rewrite (load_image_new_program beyond hhdm k elf_data entry phs s Hr He). unfold bindM.
  pose proof (new_program_spec k phs elf_data s Hok Hp) as H1.
  destruct (new_program k phs elf_data s) as [[[[u top] h]|e] s1]; destruct H1 as (K1 & TK1 & R1); [|done].
  destruct R1 as (P1 & A1 & -> & -> & H1 & B1). cbn [fst snd].
  pose proof (allocate_kernel_stack_unseen u hhdm s1 P1) as (P2 & U2 & T2 & B2).
  destruct (kernel_kept k u (sp_vm s1) (sp_vm (allocate_kernel_stack hhdm s1).2) K1 A1 U2 (tree_frames _ _ (po_tree u _ P2))) as (K2 & A2 & TK2).
  destruct (allocate_kernel_stack hhdm s1) as [[st|e] s2]; cbn [snd] in *; unfold ret; cbv beta iota;
    (split; [done|]; split; [intros w; by rewrite TK2, TK1|]); [|done].
  repeat (split; [done|]). split; [intros w Hw; by rewrite T2, H1|]. intros w Hw. rewrite B2 by (by apply user_half_small). by apply B1.
Qed.

Lemma highest_spec phs : program_ok phs -> forall h0, 0 <= h0 <= USER_STACK_BASE ->
  let h := foldl (fun h ph => if p_type ph =? PT_LOAD then Z.max h (p_vaddr ph + p_memsz ph) else h) h0 phs in
  h0 <= h <= USER_STACK_BASE /\ (forall ph, ph ∈ phs -> p_type ph = PT_LOAD -> p_vaddr ph + p_memsz ph <= h).
Proof.
  intros Hp. induction Hp as [|ph phs Hs Hp IH]; intros h0 H0; cbn [foldl]; [split; [lia|]; intros ? H%not_elem_of_nil; done|].
  destruct (Z.eqb_spec (p_type ph) PT_LOAD) as [E|E].
  - specialize (Hs E). pose proof (so_vaddr ph Hs). pose proof (so_filesz ph Hs). pose proof (so_end ph Hs).
    destruct (IH (Z.max h0 (p_vaddr ph + p_memsz ph)) ltac:(lia)) as [I1 I2]. split; [lia|].
    intros q [->|Hq]%elem_of_cons Hqt; [lia|by apply I2].
  - destruct (IH h0 H0) as [I1 I2]. split; [done|]. intros q [->|Hq]%elem_of_cons Hqt; [done|by apply I2].
Qed.

Lemma heap_start_spec h : 0 <= h <= USER_STACK_BASE -> heap_start_of h mod PAGE_SIZE = 0 /\ h + 0x1000 <= heap_start_of h < h + 0x2000.
Proof.
  unfold USER_STACK_BASE, heap_start_of. intros Hh. rewrite wrap_small by (unfold in_width; lia). change PAGE_SIZE with (2 ^ 12).
  rewrite align_up_exact by lia. destruct (round_up_spec (h + 0x1000) (2 ^ 12) ltac:(lia)) as [H1 [q E]]. rewrite E in *. change (2 ^ 12) with 4096 in *. rewrite Z.mod_mul by done. split; [done|lia].
Qed.

(** C11: A process that is spawned from a readable file is in the table under a new
    number, ready, at the entry point, with the stack and the tables that were made
    for it; it is queued as interactive; it sees its file as [program_image] says;
    its heap is empty, begins on a page and leaves every segment at least a page
    below; and the kernel's half is the kernel's.  When spawning fails the process
    table and the scheduler are as they were.  Either way the kernel's translations
    stay. *)
Theorem spawn_correct beyond hhdm k elf_data entry phs (s : System S) : tree_ok k (sp_vm (sy_space s)) -> kernel_ok (sy_kernel s) ->
  as_map (table (sy_kernel s)) !! NEXT_PID s = None -> readable beyond elf_data entry phs -> program_ok phs -> entry < 0x0000800000000000 ->
  let '(r, s') := spawn_user_process beyond hhdm k elf_data s in
  kernel_ok (sy_kernel s') /\ (forall w, translate k w (sp_vm (sy_space s')) = translate k w (sp_vm (sy_space s))) /\
  match r with
  | Ok spawned =>
      let u := sp_page_table_phys spawned in
      sp_pid spawned = NEXT_PID s /\ NEXT_PID s' = NEXT_PID s +[64] 1 /\
      (exists kernel_stack heap_start t,
         let process := user_process (NEXT_PID s) entry (USER_STACK_BASE + USER_STACK_SIZE) u kernel_stack heap_start in
         as_map t = <[NEXT_PID s := process]> (as_map (table (sy_kernel s))) /\
         sy_kernel s' = add_to_scheduler_with_priority (NEXT_PID s) Interactive (set_table t (sy_kernel s)) /\
         heap_start mod PAGE_SIZE = 0 /\
         (forall ph, ph ∈ phs -> p_type ph = PT_LOAD -> p_vaddr ph + p_memsz ph + 0x1000 <= heap_start)) /\
      (forall w, ~ user_half w -> translate u w (sp_vm (sy_space s')) = translate k w (sp_vm (sy_space s))) /\
      (forall w, 0 <= w < 2 ^ 47 ->
         user_byte u w (sy_space s') = image phs elf_data (fun w => if decide (on_stack w) then Some 0 else None) w)
  | Err _ => as_map (table (sy_kernel s')) = as_map (table (sy_kernel s)) /\ cpus (sy_kernel s') = cpus (sy_kernel s)
  end.
Proof.
  intros Hok Hk Hfresh Hr Hp He. unfold spawn_user_process.
  pose proof (load_image_spec beyond hhdm k elf_data entry phs (sy_space s) Hok Hr Hp He) as H.
  destruct (load_image beyond hhdm k elf_data (sy_space s)) as [[[[[[e u] top] h] st]|e] sp]; destruct H as (_ & TK & R); cbn [sy_space sy_kernel NEXT_PID]; [|done].
  destruct R as (-> & -> & -> & HK & HI). set (h := foldl _ 0 phs). set (p := user_process _ _ _ _ _ _).
  destruct (highest_spec phs Hp 0 ltac:(unfold USER_STACK_BASE; lia)) as [Hh Hsegs]. fold h in Hh, Hsegs.
  destruct (heap_start_spec h Hh) as [Hm Hge]. pose proof (table_add p (table (sy_kernel s)) (k_table _ Hk) Hfresh) as HT.
  destruct (add p (table (sy_kernel s))) as [[[]|[]] t]; cbn [is_ok sy_space sy_kernel NEXT_PID] in *.
  - destruct HT as [HT _]. destruct (HT eq_refl) as (Em & Ht & _). split; [by apply add_ok, set_table_ok|]. split; [done|]. cbn [sp_pid sp_page_table_phys].
    split; [done|]. split; [done|]. split; [|done]. exists st, (heap_start_of h), t. repeat (split; [done|]).
    intros ph Hph Hpt. specialize (Hsegs ph Hph Hpt). lia.
  - destruct HT as [_ HT]. destruct (HT eq_refl) as [-> _]. split; [by apply set_table_ok; [|apply (k_table _ Hk)]|]. done.
Qed.
End Spawn.

(** The frames of a kernel stack are taken one by one, and the stack is then used
    as one range that begins at the first.  When that range is not what was taken
    it is other memory: here the next three pages belong to no frame at all. *)
Definition scattered : Space FrameAllocator :=
  mkSpace (mkVM ∅ (init [mkEntry 0x200000 0x1000 true; mkEntry 0x300000 0x3000 true] new)) ∅.

Theorem kernel_stack_outside_its_frames : let r := allocate_kernel_stack kernel_page scattered in
  r.1 = Ok (kernel_page + 0x200000 + KERNEL_STACK_SIZE) /\
  (fst <$> [take_frame "" scattered; take_frame "" (take_frame "" scattered).2]) = [Ok 0x200000; Ok 0x300000].
Proof. vm_compute. split; reflexivity. Qed.

(** ** Witnesses *)

Definition shell_file : list Z := elf_file demo_header [demo_ph] [10; 20; 30].
Definition before : System FrameAllocator := mkSystem kernel_space (boot 1) 7.

Lemma spawn_correct_witness : readable (fun _ => 0) shell_file 0x400000 [demo_ph] /\
  match spawn_user_process (fun _ => 0) kernel_page kernel_p4 shell_file before with
  | (Ok spawned, s') => sp_pid spawned = 7 /\ user_byte (sp_page_table_phys spawned) 0x400001 (sy_space s') = Some 20
  | (Err _, _) => False
  end.
Proof.
  assert (readable (fun _ => 0) shell_file 0x400000 [demo_ph]) as Hr.
  { exists demo_header. split; [reflexivity|]. split; reflexivity. }
  split; [exact Hr|]. assert (program_ok [demo_ph]) as Hp by (repeat constructor; cbn; unfold USER_STACK_BASE; lia).
  pose proof (spawn_correct (fun _ => 0) kernel_page kernel_p4 shell_file 0x400000 [demo_ph] before kernel_vm_ok
    (boot_ok 1 ltac:(unfold MAX_CPUS; lia)) eq_refl Hr Hp ltac:(lia)) as H.
  assert (is_ok (spawn_user_process (fun _ => 0) kernel_page kernel_p4 shell_file before).1 = true) as E by (vm_compute; reflexivity).
  destruct (spawn_user_process (fun _ => 0) kernel_page kernel_p4 shell_file before) as [[spawned|e] s']; [|discriminate E].
  destruct H as (_ & _ & Hpid & _ & _ & _ & Hi). split; [exact Hpid|]. rewrite (Hi 0x400001) by lia. vm_compute. reflexivity.
Defined.
