(* ===== verification/Sync.v ===== *)
(** * Synchronization primitives ([kernel/src/sync/mod.rs])

    Every primitive is a transition system: a shared state of atomics and one
    program counter per thread, with one step per atomic operation of the source
    under sequential consistency.  Spurious failures of the weak
    compare-exchanges and spinning are steps that change nothing.  A list of
    program counters is the set of threads, thread [t] being its [t]-th element. *)

From Stdlib Require Import ZArith Lia Bool.
From stdpp Require Import base numbers option list gmap sets.
From S2P Require Import Prelude.

(** The number of threads whose program counter satisfies [f]. *)
Definition cnt {A} (f : A -> bool) (l : list A) : nat := sum_list ((fun x => if f x then 1%nat else 0%nat) <$> l).

Lemma cnt_step {A} (f : A -> bool) (l : list A) t x y : l !! t = Some x ->
  (cnt f (<[t := y]> l) + (if f x then 1 else 0) = cnt f l + (if f y then 1 else 0))%nat.
Proof. intros H. unfold cnt. by rewrite (sum_insert (fun x => if f x then 1%nat else 0%nat) l t x y H). Qed.

Lemma cnt_ge {A} (f : A -> bool) (l : list A) t x : l !! t = Some x -> f x = true -> (1 <= cnt f l)%nat.
Proof.
  intros H Hf. unfold cnt. pose proof (sum_le (fun x => if f x then 1%nat else 0%nat) l t x H) as Hs.
  cbn beta in Hs. by rewrite Hf in Hs.
Qed.

Lemma cnt_le_length {A} (f : A -> bool) (l : list A) : (cnt f l <= length l)%nat.
Proof.
  unfold cnt. induction l as [|x l IH]; [done|]. rewrite fmap_cons. simpl. destruct (f x); lia.
Qed.

Lemma cnt_replicate {A} (f : A -> bool) n x : f x = false -> cnt f (replicate n x) = 0%nat.
Proof.
  intros Hf. unfold cnt. induction n as [|n IH]; [done|].
  rewrite replicate_S, fmap_cons. simpl. by rewrite Hf.
Qed.

Lemma cnt_imp {A} (f g : A -> bool) (l : list A) : (forall x, f x = true -> g x = true) -> (cnt f l <= cnt g l)%nat.
Proof.
  intros H. unfold cnt. induction l as [|x l IH]; [done|]. rewrite !fmap_cons. simpl. specialize (H x).
  destruct (f x); [rewrite H by done; lia|destruct (g x); lia].
Qed.

(** ** RwLock *)

Inductive rw_pc : Type :=
| RwIdle
| RdWait     (* spinning while [writer] is set *)
| RdInc      (* saw no writer, about to increment [readers] *)
| RdCheck    (* incremented, about to check [writer] again *)
| RdBackoff  (* a writer appeared, about to decrement *)
| Reading    (* holds a [RwLockReadGuard] *)
| WrCas      (* spinning on the compare-exchange of [writer] *)
| WrDrain    (* owns [writer], waiting for the readers to leave *)
| Writing.   (* holds a [RwLockWriteGuard] *)

Record RwLock : Type := mkRw { rw_readers : Z; rw_writer : bool; rw_pcs : list rw_pc }.

Definition rw_new (n : nat) : RwLock := mkRw 0 false (replicate n RwIdle).

Definition rw_goto (t : nat) (pc : rw_pc) (s : RwLock) : RwLock :=
  mkRw (rw_readers s) (rw_writer s) (<[t := pc]> (rw_pcs s)).
Definition rw_add (t : nat) (d : Z) (pc : rw_pc) (s : RwLock) : RwLock :=
  mkRw (rw_readers s +[64] d) (rw_writer s) (<[t := pc]> (rw_pcs s)).
Definition rw_set (t : nat) (w : bool) (pc : rw_pc) (s : RwLock) : RwLock :=
  mkRw (rw_readers s) w (<[t := pc]> (rw_pcs s)).

(** The next atomic operation of thread [t]; [write] chooses which lock an idle
    thread asks for and [spurious] makes a weak compare-exchange fail. *)
Definition rw_step (t : nat) (write spurious : bool) (s : RwLock) : option RwLock :=
  match rw_pcs s !! t with
  | None => None
  | Some pc => Some
      match pc with
      | RwIdle => rw_goto t (if write then WrCas else RdWait) s
      | RdWait => if rw_writer s then s else rw_goto t RdInc s
      | RdInc => rw_add t 1 RdCheck s
      | RdCheck => rw_goto t (if negb (rw_writer s) then Reading else RdBackoff) s
      | RdBackoff => rw_add t (-1) RdWait s
      | Reading => rw_add t (-1) RwIdle s
      | WrCas => if rw_writer s || spurious then s else rw_set t true WrDrain s
      | WrDrain => if negb (rw_readers s =? 0) then s else rw_goto t Writing s
      | Writing => rw_set t false RwIdle s
      end
  end.

Definition rw_trans (s s' : RwLock) : Prop := exists t write spurious, rw_step t write spurious s = Some s'.

Definition is_counted (pc : rw_pc) : bool := match pc with RdCheck | RdBackoff | Reading => true | _ => false end.
Definition is_reading (pc : rw_pc) : bool := match pc with Reading => true | _ => false end.
Definition is_owner (pc : rw_pc) : bool := match pc with WrDrain | Writing => true | _ => false end.
Definition is_writing (pc : rw_pc) : bool := match pc with Writing => true | _ => false end.

Record rw_inv (s : RwLock) : Prop := mk_rw_inv {
  rwi_bound : Z.of_nat (length (rw_pcs s)) < 2 ^ 64;
  rwi_readers : rw_readers s = Z.of_nat (cnt is_counted (rw_pcs s));
  rwi_owner : cnt is_owner (rw_pcs s) = if rw_writer s then 1%nat else 0%nat;
  rwi_excl : (0 < cnt is_writing (rw_pcs s) -> cnt is_reading (rw_pcs s) = 0)%nat;
}.

Lemma rw_new_inv n : Z.of_nat n < 2 ^ 64 -> rw_inv (rw_new n).
Proof.
  intros Hn. constructor; cbn [rw_new rw_pcs rw_readers rw_writer].
  - by rewrite length_replicate.
  - by rewrite cnt_replicate.
  - by rewrite cnt_replicate.
  - rewrite !cnt_replicate by done. lia.
Qed.

Lemma rw_step_inv t w sp s s' : rw_inv s -> rw_step t w sp s = Some s' -> rw_inv s'.
Proof.
  intros [Hb Hr Ho He] Hs. unfold rw_step in Hs. destruct (rw_pcs s !! t) as [pc|] eqn:Ht; [|done].
  injection Hs as <-.
  assert (forall pc', (cnt is_counted (<[t := pc']> (rw_pcs s)) <= length (rw_pcs s))%nat) as Hlen.
  { intros pc'. rewrite <- (length_insert (rw_pcs s) t pc'). apply cnt_le_length. }
  assert (forall pc', let l := <[t := pc']> (rw_pcs s) in
    (cnt is_counted l + (if is_counted pc then 1 else 0) = cnt is_counted (rw_pcs s) + (if is_counted pc' then 1 else 0) /\
     cnt is_owner l + (if is_owner pc then 1 else 0) = cnt is_owner (rw_pcs s) + (if is_owner pc' then 1 else 0) /\
     cnt is_writing l + (if is_writing pc then 1 else 0) = cnt is_writing (rw_pcs s) + (if is_writing pc' then 1 else 0) /\
     cnt is_reading l + (if is_reading pc then 1 else 0) = cnt is_reading (rw_pcs s) + (if is_reading pc' then 1 else 0))%nat) as Hc.
  { intros pc'. cbn zeta. rewrite !(cnt_step _ _ _ _ pc' Ht). done. }
  assert (cnt is_writing (rw_pcs s) <= cnt is_owner (rw_pcs s))%nat as Hwo by (apply cnt_imp; by intros []).
  assert (cnt is_reading (rw_pcs s) <= cnt is_counted (rw_pcs s))%nat as Hrc by (apply cnt_imp; by intros []).
  destruct pc; cbn [is_counted is_owner is_writing is_reading] in Hc.
  - specialize (Hc (if w then WrCas else RdWait)). destruct w; cbn in Hc;
      constructor; cbn [rw_goto rw_pcs rw_readers rw_writer]; rewrite ?length_insert; lia.
  - destruct (rw_writer s) eqn:Ew; [by constructor; rewrite ?Ew in *|]. rewrite ?Ew in Ho. specialize (Hc RdInc). cbn in Hc.
    constructor; cbn [rw_goto rw_pcs rw_readers rw_writer]; rewrite ?length_insert, ?Ew; lia.
  - specialize (Hc RdCheck). specialize (Hlen RdCheck). cbn in Hc.
    constructor; cbn [rw_add rw_pcs rw_readers rw_writer]; rewrite ?length_insert; [lia| |lia|lia].
    rewrite Hr, wrap_small by (unfold in_width; lia). lia.
  - destruct (rw_writer s) eqn:Ew; cbn [negb]; rewrite ?Ew in Ho.
    + specialize (Hc RdBackoff). cbn in Hc. constructor; cbn [rw_goto rw_pcs rw_readers rw_writer]; rewrite ?length_insert, ?Ew; lia.
    + specialize (Hc Reading). cbn in Hc. constructor; cbn [rw_goto rw_pcs rw_readers rw_writer]; rewrite ?length_insert, ?Ew; lia.
  - specialize (Hc RdWait). cbn in Hc.
    constructor; cbn [rw_add rw_pcs rw_readers rw_writer]; rewrite ?length_insert; [lia| |lia|lia].
    rewrite Hr, wrap_small; [lia|]. pose proof (cnt_le_length is_counted (rw_pcs s)). unfold in_width. lia.
  - specialize (Hc RwIdle). cbn in Hc.
    constructor; cbn [rw_add rw_pcs rw_readers rw_writer]; rewrite ?length_insert; [lia| |lia|lia].
    rewrite Hr, wrap_small; [lia|]. pose proof (cnt_le_length is_counted (rw_pcs s)). unfold in_width. lia.
  - destruct (rw_writer s) eqn:Ew; cbn [orb]; [by constructor; rewrite ?Ew in *|].
    destruct sp; [by constructor; rewrite ?Ew in *|]. rewrite ?Ew in Ho.
    specialize (Hc WrDrain). cbn in Hc. cbn [orb].
    constructor; cbn [rw_set rw_pcs rw_readers rw_writer]; rewrite ?length_insert; lia.
  - destruct (Z.eqb_spec (rw_readers s) 0); cbn [negb]; [|by constructor].
    specialize (Hc Writing). cbn in Hc. constructor; cbn [rw_goto rw_pcs rw_readers rw_writer]; rewrite ?length_insert; lia.
  - specialize (Hc RwIdle). cbn in Hc. pose proof (cnt_ge is_owner _ _ _ Ht eq_refl).
    destruct (rw_writer s); [|lia].
    constructor; cbn [rw_set rw_pcs rw_readers rw_writer]; rewrite ?length_insert; lia.
Qed.

(** C12: Readers and writers exclude each other.  For any number of threads and
    any interleaving of the lock's atomic operations, at most one thread holds a
    write guard, none holds a read guard at the same time, and [readers] counts
    the read guards plus the readers that have registered but not yet checked. *)
Theorem rwlock_mutual_exclusion n s : Z.of_nat n < 2 ^ 64 -> rtc rw_trans (rw_new n) s ->
  (cnt is_writing (rw_pcs s) <= 1)%nat /\
  ((0 < cnt is_writing (rw_pcs s))%nat -> cnt is_reading (rw_pcs s) = 0%nat) /\
  rw_readers s = Z.of_nat (cnt is_counted (rw_pcs s)).
Proof.
  intros Hn Hr. assert (rw_inv s) as [_ H1 H2 H3].
  { revert Hr. generalize (rw_new_inv n Hn). generalize (rw_new n). intros s0 H0 Hr.
    induction Hr as [|x y z (t & w & sp & Hs) _ IH]; [done|]. by apply IH, (rw_step_inv t w sp x). }
  split; [|by split]. assert (cnt is_writing (rw_pcs s) <= cnt is_owner (rw_pcs s))%nat by (apply cnt_imp; by intros []).
  destruct (rw_writer s); lia.
Qed.

(** ** IrqSpinlock

    One thread per CPU; [irq] holds the interrupt-enable flag of each CPU and the
    flag saved by [save_and_disable_irq] travels with the program counter. *)

Inductive spin_pc : Type :=
| SpIdle
| SpTry (flags : bool)      (* interrupts off, about to compare-exchange *)
| SpSpin (flags : bool)     (* spinning on the relaxed load *)
| SpTryOnce (flags : bool)  (* [try_lock] before its compare-exchange *)
| SpHeld (flags : bool)     (* holds the guard *)
| SpRestore (flags : bool). (* about to [restore_irq] *)

Record IrqSpinlock : Type := mkSpin { sp_locked : bool; sp_irq : list bool; sp_pcs : list spin_pc }.

Definition sp_new (irq : list bool) : IrqSpinlock := mkSpin false irq (replicate (length irq) SpIdle).

Inductive spin_call : Type := CallLock | CallTryLock | CallSetIrq (b : bool).

(** The next operation of CPU [t]; [c] is what an idle CPU does (lock, try_lock, or
    change its own interrupt flag) and [spurious] a failure of the weak compare-exchange. *)
Definition sp_step (t : nat) (c : spin_call) (spurious : bool) (s : IrqSpinlock) : option IrqSpinlock :=
  match sp_pcs s !! t, sp_irq s !! t with
  | Some pc, Some irq =>
      let go pc' := mkSpin (sp_locked s) (sp_irq s) (<[t := pc']> (sp_pcs s)) in
      Some
      match pc with
      | SpIdle =>
          match c with
          | CallLock => mkSpin (sp_locked s) (<[t := false]> (sp_irq s)) (<[t := SpTry irq]> (sp_pcs s))
          | CallTryLock => mkSpin (sp_locked s) (<[t := false]> (sp_irq s)) (<[t := SpTryOnce irq]> (sp_pcs s))
          | CallSetIrq b => mkSpin (sp_locked s) (<[t := b]> (sp_irq s)) (sp_pcs s)
          end
      | SpTry f =>
          if sp_locked s || spurious then go (SpSpin f)
          else mkSpin true (sp_irq s) (<[t := SpHeld f]> (sp_pcs s))
      | SpSpin f => if sp_locked s then s else go (SpTry f)
      | SpTryOnce f =>
          if sp_locked s then go (SpRestore f)
          else mkSpin true (sp_irq s) (<[t := SpHeld f]> (sp_pcs s))
      | SpHeld f => mkSpin false (sp_irq s) (<[t := SpRestore f]> (sp_pcs s))
      | SpRestore f => mkSpin (sp_locked s) (<[t := f || irq]> (sp_irq s)) (<[t := SpIdle]> (sp_pcs s))
      end
  | _, _ => None
  end.

Definition sp_trans (s s' : IrqSpinlock) : Prop := exists t c sp, sp_step t c sp s = Some s'.

Definition is_held (pc : spin_pc) : bool := match pc with SpHeld _ => true | _ => false end.

Record sp_inv (s : IrqSpinlock) : Prop := mk_sp_inv {
  spi_len : length (sp_irq s) = length (sp_pcs s);
  spi_held : cnt is_held (sp_pcs s) = if sp_locked s then 1%nat else 0%nat;
  spi_irq : forall t pc, sp_pcs s !! t = Some pc -> pc <> SpIdle -> sp_irq s !! t = Some false;
}.

Lemma sp_new_inv irq : sp_inv (sp_new irq).
Proof.
  constructor; cbn [sp_new sp_irq sp_pcs sp_locked].
  - by rewrite length_replicate.
  - by rewrite cnt_replicate.
  - intros t pc [-> _]%lookup_replicate. done.
Qed.

(** Updating CPU [t]'s own program counter and flag keeps the per-CPU part. *)
Lemma sp_irq_update irq pcs t i p : length irq = length pcs -> (t < length pcs)%nat ->
  (forall t' pc, pcs !! t' = Some pc -> pc <> SpIdle -> irq !! t' = Some false) ->
  (p <> SpIdle -> i = false) ->
  forall t' pc, <[t := p]> pcs !! t' = Some pc -> pc <> SpIdle -> <[t := i]> irq !! t' = Some false.
Proof.
  intros Hl Ht H Hp t' pc Hpc Hne. destruct (decide (t' = t)) as [->|Hd].
  - rewrite list_lookup_insert_eq in Hpc by lia. rewrite list_lookup_insert_eq by lia.
    f_equal. apply Hp. by simplify_eq.
  - rewrite list_lookup_insert_ne in Hpc by done. rewrite list_lookup_insert_ne by done. by apply (H _ pc).
Qed.

Lemma sp_step_inv t c sp s s' : sp_inv s -> sp_step t c sp s = Some s' -> sp_inv s'.
Proof.
  intros [Hl Hh Hi] Hs. unfold sp_step in Hs.
  destruct (sp_pcs s !! t) as [pc|] eqn:Ht; [|done]. destruct (sp_irq s !! t) as [irq|] eqn:Hirq; [|done].
  injection Hs as <-. assert (t < length (sp_pcs s))%nat as Hlt by (by apply lookup_lt_Some in Ht).
  assert (forall p, (cnt is_held (<[t := p]> (sp_pcs s)) + (if is_held pc then 1 else 0) =
    cnt is_held (sp_pcs s) + (if is_held p then 1 else 0))%nat) as Hc by (intros p; by apply cnt_step).
  assert (forall p i, (p <> SpIdle -> i = false) -> forall t' pc', <[t := p]> (sp_pcs s) !! t' = Some pc' -> pc' <> SpIdle ->
    <[t := i]> (sp_irq s) !! t' = Some false) as Hu.
  { intros p i Hp. by apply sp_irq_update. }
  assert (pc <> SpIdle -> <[t := false]> (sp_irq s) = sp_irq s) as Hsame.
  { intros Hne. apply list_insert_id. by apply (Hi t pc). }
  destruct pc as [|f|f|f|f|f]; cbn [is_held] in Hc.
  - destruct c as [| |b].
    + specialize (Hc (SpTry irq)). cbn in Hc. constructor; cbn [sp_irq sp_pcs sp_locked];
        [by rewrite !length_insert|lia|by apply Hu].
    + specialize (Hc (SpTryOnce irq)). cbn in Hc. constructor; cbn [sp_irq sp_pcs sp_locked];
        [by rewrite !length_insert|lia|by apply Hu].
    + constructor; cbn [sp_irq sp_pcs sp_locked]; [by rewrite length_insert|done|].
      intros t' pc Hpc Hne. destruct (decide (t' = t)) as [->|]; [congruence|].
      rewrite list_lookup_insert_ne by done. by apply (Hi _ pc).
  - destruct (sp_locked s) eqn:El; cbn [orb]; [|destruct sp].
    1,2: specialize (Hc (SpSpin f)); cbn in Hc; constructor; cbn [sp_irq sp_pcs sp_locked];
        [by rewrite length_insert|lia|rewrite <- Hsame by done; by apply Hu].
    specialize (Hc (SpHeld f)). cbn in Hc. constructor; cbn [sp_irq sp_pcs sp_locked];
      [by rewrite length_insert|lia|rewrite <- Hsame by done; by apply Hu].
  - destruct (sp_locked s) eqn:El; [by constructor; rewrite ?El|].
    specialize (Hc (SpTry f)). cbn in Hc. constructor; cbn [sp_irq sp_pcs sp_locked];
      [by rewrite length_insert|lia|rewrite <- Hsame by done; by apply Hu].
  - destruct (sp_locked s) eqn:El.
    + specialize (Hc (SpRestore f)). cbn in Hc. constructor; cbn [sp_irq sp_pcs sp_locked];
        [by rewrite length_insert|lia|rewrite <- Hsame by done; by apply Hu].
    + specialize (Hc (SpHeld f)). cbn in Hc. constructor; cbn [sp_irq sp_pcs sp_locked];
        [by rewrite length_insert|lia|rewrite <- Hsame by done; by apply Hu].
  - specialize (Hc (SpRestore f)). cbn in Hc. constructor; cbn [sp_irq sp_pcs sp_locked];
      [by rewrite length_insert| |rewrite <- Hsame by done; by apply Hu].
    destruct (sp_locked s); [lia|]. pose proof (cnt_ge is_held _ _ _ Ht eq_refl). lia.
  - specialize (Hc SpIdle). cbn in Hc. constructor; cbn [sp_irq sp_pcs sp_locked];
      [by rewrite !length_insert|lia|by apply Hu].
Qed.

Lemma sp_reach_inv irq s : rtc sp_trans (sp_new irq) s -> sp_inv s.
Proof.
  generalize (sp_new_inv irq). generalize (sp_new irq). intros s0 H0 Hr.
  induction Hr as [|x y z (t & c & sp & Hs) _ IH]; [done|]. by apply IH, (sp_step_inv t c sp x).
Qed.

(** The interrupt-safe spinlock excludes: in every interleaving at most one
    CPU holds the guard; a CPU that is taking, holding or releasing the lock has
    interrupts disabled, so no handler on that CPU can find it held; and the step
    that finishes the release puts back the interrupt flag that was saved. *)
Theorem irq_spinlock_exclusion irq s : rtc sp_trans (sp_new irq) s ->
  (cnt is_held (sp_pcs s) <= 1)%nat /\
  (forall t pc, sp_pcs s !! t = Some pc -> pc <> SpIdle -> sp_irq s !! t = Some false) /\
  (forall t f c sp, sp_pcs s !! t = Some (SpRestore f) ->
     exists s', sp_step t c sp s = Some s' /\ sp_irq s' !! t = Some f /\ sp_pcs s' !! t = Some SpIdle).
Proof.
  intros [Hl Hh Hi]%sp_reach_inv. split; [destruct (sp_locked s); lia|]. split; [done|].
  intros t f c sp Ht. pose proof (Hi t _ Ht ltac:(done)) as Hf. unfold sp_step. rewrite Ht, Hf.
  pose proof (lookup_lt_Some _ _ _ Ht). eexists. split; [reflexivity|]. cbn [sp_irq sp_pcs].
  rewrite !list_lookup_insert_eq by lia. by rewrite orb_false_r.
Qed.

(** ** Semaphore

    [sm_acquired] and [sm_released] count the acquisitions and the releases that
    took effect; they are not part of the code. *)

Inductive sem_pc : Type :=
| SmIdle | AcqLoad | AcqCas (cur : Z) | TryLoad | TryCas (cur : Z) | RelLoad | RelCas (cur : Z).

Record Semaphore : Type := mkSem {
  sm_count : Z; sm_max : Z; sm_pcs : list sem_pc; sm_acquired : Z; sm_released : Z }.

Definition sem_bounded (initial max : Z) (n : nat) : Semaphore := mkSem initial max (replicate n SmIdle) 0 0.
Definition sem_new (initial : Z) (n : nat) : Semaphore := sem_bounded initial (2 ^ 64 - 1) n.

Inductive sem_call : Type := CallAcquire | CallTryAcquire | CallRelease.

Definition sem_step (t : nat) (c : sem_call) (spurious : bool) (s : Semaphore) : option Semaphore :=
  match sm_pcs s !! t with
  | None => None
  | Some pc =>
      let go pc' := mkSem (sm_count s) (sm_max s) (<[t := pc']> (sm_pcs s)) (sm_acquired s) (sm_released s) in
      let took := mkSem (sm_count s -[64] 1) (sm_max s) (<[t := SmIdle]> (sm_pcs s)) (sm_acquired s + 1) (sm_released s) in
      Some
      match pc with
      | SmIdle => go (match c with CallAcquire => AcqLoad | CallTryAcquire => TryLoad | CallRelease => RelLoad end)
      | AcqLoad => if sm_count s >? 0 then go (AcqCas (sm_count s)) else s
      | AcqCas cur => if (sm_count s =? cur) && negb spurious then took else go AcqLoad
      | TryLoad => if sm_count s >? 0 then go (TryCas (sm_count s)) else go SmIdle
      | TryCas cur => if sm_count s =? cur then took else go SmIdle
      | RelLoad => if sm_count s >=? sm_max s then go SmIdle else go (RelCas (sm_count s))
      | RelCas cur =>
          if (sm_count s =? cur) && negb spurious then
            mkSem (cur +[64] 1) (sm_max s) (<[t := SmIdle]> (sm_pcs s)) (sm_acquired s) (sm_released s + 1)
          else go RelLoad
      end
  end.

Definition sem_trans (s s' : Semaphore) : Prop := exists t c sp, sem_step t c sp s = Some s'.

Definition sem_pc_ok (max : Z) (pc : sem_pc) : Prop :=
  match pc with AcqCas c | TryCas c => 0 < c | RelCas c => c < max | _ => True end.

Record sem_inv (initial : Z) (s : Semaphore) : Prop := mk_sem_inv {
  smi_max : sm_max s < 2 ^ 64;
  smi_bound : 0 <= sm_count s <= sm_max s;
  smi_conserve : sm_count s + sm_acquired s = initial + sm_released s;
  smi_pcs : Forall (sem_pc_ok (sm_max s)) (sm_pcs s);
}.

Lemma sem_go_inv i s t pc : sem_inv i s -> sem_pc_ok (sm_max s) pc ->
  sem_inv i (mkSem (sm_count s) (sm_max s) (<[t := pc]> (sm_pcs s)) (sm_acquired s) (sm_released s)).
Proof. intros [H1 H2 H3 H4] Hp. constructor; cbn; [done..|]. by apply Forall_insert. Qed.

Lemma sem_took_inv i s t : sem_inv i s -> 0 < sm_count s ->
  sem_inv i (mkSem (sm_count s -[64] 1) (sm_max s) (<[t := SmIdle]> (sm_pcs s)) (sm_acquired s + 1) (sm_released s)).
Proof.
  intros [H1 H2 H3 H4] Hp. assert (sm_count s -[64] 1 = sm_count s - 1) as Hw
    by (apply wrap_small; unfold in_width; lia).
  constructor; cbn; [done|lia|lia|]. by apply Forall_insert.
Qed.

Lemma sem_step_inv i t c sp s s' : sem_inv i s -> sem_step t c sp s = Some s' -> sem_inv i s'.
Proof.
  intros Hi Hs. pose proof Hi as [H1 H2 H3 H4]. unfold sem_step in Hs.
  destruct (sm_pcs s !! t) as [pc|] eqn:Ht; [|done]. injection Hs as <-.
  pose proof (Forall_lookup_1 _ _ _ _ H4 Ht) as Hpc. destruct pc as [| |cur| |cur| |cur]; cbn in Hpc.
  - apply sem_go_inv; [done|]. by destruct c.
  - rewrite Z.gtb_ltb. destruct (Z.ltb_spec 0 (sm_count s)); [by apply sem_go_inv|done].
  - destruct (Z.eqb_spec (sm_count s) cur); cbn [andb]; [|by apply sem_go_inv].
    destruct sp; cbn [negb]; [by apply sem_go_inv|]. apply sem_took_inv; [done|lia].
  - rewrite Z.gtb_ltb. destruct (Z.ltb_spec 0 (sm_count s)); by apply sem_go_inv.
  - destruct (Z.eqb_spec (sm_count s) cur); [|by apply sem_go_inv]. apply sem_took_inv; [done|lia].
  - rewrite Z.geb_leb. destruct (Z.leb_spec (sm_max s) (sm_count s)); by apply sem_go_inv.
  - destruct (Z.eqb_spec (sm_count s) cur); cbn [andb]; [|by apply sem_go_inv].
    destruct sp; cbn [negb]; [by apply sem_go_inv|].
    assert (cur +[64] 1 = cur + 1) as Hw by (apply wrap_small; unfold in_width; lia).
    constructor; cbn; [done|lia|lia|]. by apply Forall_insert.
Qed.

(** The counting semaphore conserves permits: under every interleaving the
    count stays between 0 and its maximum and equals the initial count plus the
    effective releases minus the acquisitions, so at most [initial + releases]
    acquisitions ever succeed. *)
Theorem semaphore_conserves_permits initial max n s : 0 <= initial <= max -> max < 2 ^ 64 ->
  rtc sem_trans (sem_bounded initial max n) s ->
  0 <= sm_count s <= sm_max s /\ sm_acquired s = initial + sm_released s - sm_count s /\
  sm_acquired s <= initial + sm_released s.
Proof.
  intros Hi Hm Hr. assert (sem_inv initial s) as [_ H2 H3 _]; [|lia].
  assert (sem_inv initial (sem_bounded initial max n)) as H0.
  { constructor; cbn; [done|lia|lia|]. by apply Forall_replicate. }
  revert H0 Hr. generalize (sem_bounded initial max n). intros s0 H0 Hr.
  induction Hr as [|x y z (t & c & sp & Hs) _ IH]; [done|]. by apply IH, (sem_step_inv initial t c sp x).
Qed.

(** ** Once

    [on_runs] counts how often the closure was run. *)

Inductive once_pc : Type := OnStart | OnCas | OnRun | OnStore | OnWait | OnDone.

Record Once : Type := mkOnce { on_state : Z; on_runs : nat; on_pcs : list once_pc }.

Definition ONCE_UNINIT : Z := 0.
Definition ONCE_RUNNING : Z := 1.
Definition ONCE_COMPLETE : Z := 2.

Definition once_new (n : nat) : Once := mkOnce ONCE_UNINIT 0 (replicate n OnStart).

Definition once_step (t : nat) (s : Once) : option Once :=
  match on_pcs s !! t with
  | None => None
  | Some pc =>
      let go st runs pc' := mkOnce st runs (<[t := pc']> (on_pcs s)) in
      Some
      match pc with
      | OnStart => go (on_state s) (on_runs s) (if on_state s =? ONCE_COMPLETE then OnDone else OnCas)
      | OnCas =>
          if on_state s =? ONCE_UNINIT then go ONCE_RUNNING (on_runs s) OnRun
          else go (on_state s) (on_runs s) OnWait
      | OnRun => go (on_state s) (S (on_runs s)) OnStore
      | OnStore => go ONCE_COMPLETE (on_runs s) OnDone
      | OnWait => if on_state s =? ONCE_COMPLETE then go (on_state s) (on_runs s) OnDone else s
      | OnDone => s
      end
  end.

Definition once_trans (s s' : Once) : Prop := exists t, once_step t s = Some s'.
Definition is_complete (s : Once) : bool := on_state s =? ONCE_COMPLETE.

Definition on_before (pc : once_pc) : bool := match pc with OnRun => true | _ => false end.
Definition on_after (pc : once_pc) : bool := match pc with OnStore => true | _ => false end.
Definition on_done (pc : once_pc) : bool := match pc with OnDone => true | _ => false end.

(** The three phases of the flag. *)
Definition once_inv (s : Once) : Prop :=
  let b := cnt on_before (on_pcs s) in let a := cnt on_after (on_pcs s) in let d := cnt on_done (on_pcs s) in
  (on_state s = ONCE_UNINIT /\ on_runs s = 0 /\ b = 0 /\ a = 0 /\ d = 0)%nat \/
  (on_state s = ONCE_RUNNING /\ on_runs s = a /\ b + a = 1 /\ d = 0)%nat \/
  (on_state s = ONCE_COMPLETE /\ on_runs s = 1 /\ b = 0 /\ a = 0)%nat.

Lemma once_step_inv t s s' : once_inv s -> once_step t s = Some s' -> once_inv s'.
Proof.
  intros Hi Hs. unfold once_step in Hs. destruct (on_pcs s !! t) as [pc|] eqn:Ht; [|done].
  injection Hs as <-.
  pose proof (fun y => cnt_step on_before _ _ _ y Ht) as Cb. pose proof (fun y => cnt_step on_after _ _ _ y Ht) as Ca.
  pose proof (fun y => cnt_step on_done _ _ _ y Ht) as Cd.
  pose proof (cnt_ge on_before _ _ _ Ht) as Gb. pose proof (cnt_ge on_after _ _ _ Ht) as Ga.
  unfold once_inv, ONCE_UNINIT, ONCE_RUNNING, ONCE_COMPLETE in *. cbn zeta in Hi.
  destruct pc; cbn [on_before on_after on_done] in *.
  - destruct (Z.eqb_spec (on_state s) 2);
      [specialize (Cb OnDone); specialize (Ca OnDone); specialize (Cd OnDone)|specialize (Cb OnCas); specialize (Ca OnCas); specialize (Cd OnCas)];
      cbn [on_before on_after on_done on_state on_runs on_pcs] in *; lia.
  - destruct (Z.eqb_spec (on_state s) 0);
      [specialize (Cb OnRun); specialize (Ca OnRun); specialize (Cd OnRun)|specialize (Cb OnWait); specialize (Ca OnWait); specialize (Cd OnWait)];
      cbn [on_before on_after on_done on_state on_runs on_pcs] in *; lia.
  - specialize (Cb OnStore); specialize (Ca OnStore); specialize (Cd OnStore). cbn [on_before on_after on_done on_state on_runs on_pcs] in *. specialize (Gb eq_refl). lia.
  - specialize (Cb OnDone); specialize (Ca OnDone); specialize (Cd OnDone). cbn [on_before on_after on_done on_state on_runs on_pcs] in *. specialize (Ga eq_refl). lia.
  - destruct (Z.eqb_spec (on_state s) 2); [|exact Hi].
    specialize (Cb OnDone); specialize (Ca OnDone); specialize (Cd OnDone). cbn [on_before on_after on_done on_state on_runs on_pcs] in *. lia.
  - exact Hi.
Qed.

(** [call_once] runs its closure at most once whatever the interleaving, and
    when any caller has returned it has run exactly once and the flag says complete. *)
Theorem once_runs_exactly_once n s : rtc once_trans (once_new n) s ->
  (on_runs s <= 1)%nat /\
  (forall t, on_pcs s !! t = Some OnDone -> on_runs s = 1%nat /\ is_complete s = true).
Proof.
  intros Hr. assert (once_inv s) as Hi.
  { assert (once_inv (once_new n)) as H0.
    { left. cbn [once_new on_state on_runs on_pcs]. by rewrite !cnt_replicate. }
    revert H0 Hr. generalize (once_new n). intros s0 H0 Hr.
    induction Hr as [|x y z (t & Hs) _ IH]; [done|]. by apply IH, (once_step_inv t x). }
  unfold once_inv in Hi. cbn zeta in Hi. split; [lia|]. intros t Ht.
  pose proof (cnt_ge on_done _ _ _ Ht eq_refl). unfold is_complete, ONCE_COMPLETE, ONCE_UNINIT, ONCE_RUNNING in *.
  rewrite Z.eqb_eq. lia.
Qed.

(** ** Condvar *)

Inductive cv_pc : Type :=
| CvIdle
| CvEnter         (* about to increment [waiters] *)
| CvSwap          (* in the loop on [notified.swap(false)] *)
| CvLeave         (* saw the flag, about to decrement [waiters] *)
| CvReturned      (* [wait] returned *)
| CvNotifyOne     (* about to store [true] *)
| CvNotifyAll     (* about to read [waiters] *)
| CvStores (k : nat). (* [k] more stores in the loop of [notify_all] *)

Record Condvar : Type := mkCv { cv_notified : bool; cv_waiters : Z; cv_pcs : list cv_pc }.

Inductive cv_call : Type := CallWait | CallNotifyOne | CallNotifyAll.

Definition cv_new (n : nat) : Condvar := mkCv false 0 (replicate n CvIdle).

Definition cv_step (t : nat) (c : cv_call) (s : Condvar) : option Condvar :=
  match cv_pcs s !! t with
  | None => None
  | Some pc =>
      let go nf w pc' := mkCv nf w (<[t := pc']> (cv_pcs s)) in
      Some
      match pc with
      | CvIdle | CvReturned =>
          go (cv_notified s) (cv_waiters s)
             (match c with CallWait => CvEnter | CallNotifyOne => CvNotifyOne | CallNotifyAll => CvNotifyAll end)
      | CvEnter => go (cv_notified s) (cv_waiters s +[64] 1) CvSwap
      | CvSwap => if cv_notified s then go false (cv_waiters s) CvLeave else s
      | CvLeave => go (cv_notified s) (cv_waiters s -[64] 1) CvReturned
      | CvNotifyOne => go true (cv_waiters s) CvIdle
      | CvNotifyAll => go (cv_notified s) (cv_waiters s) (CvStores (Z.to_nat (cv_waiters s)))
      | CvStores 0 => go (cv_notified s) (cv_waiters s) CvIdle
      | CvStores (S k) => go true (cv_waiters s) (CvStores k)
      end
  end.

Definition has_waiters (s : Condvar) : bool := cv_waiters s >? 0.

(** Running a schedule: the thread and, for an idle thread, the call it makes. *)
Fixpoint cv_run (sched : list (nat * cv_call)) (s : Condvar) : option Condvar :=
  match sched with
  | [] => Some s
  | (t, c) :: r => match cv_step t c s with Some s' => cv_run r s' | None => None end
  end.

(** Two threads wait, a third one calls [notify_all] and finishes before either waiter looks. *)
Definition cv_schedule : list (nat * cv_call) :=
  [(0, CallWait); (0, CallWait); (1, CallWait); (1, CallWait);
   (2, CallNotifyAll); (2, CallNotifyAll); (2, CallNotifyAll); (2, CallNotifyAll); (2, CallNotifyAll);
   (0, CallWait); (0, CallWait)]%nat.

(** [notify_all] need not wake all.  Two threads wait; [notify_all] reads a
    waiter count of two, stores the one flag twice and returns; the first waiter
    takes the flag and returns, and the second is left spinning in a state no
    further step of its own can leave. *)
Theorem notify_all_wakes_one :
  match cv_run cv_schedule (cv_new 3) with
  | Some s => cv_pcs s = [CvReturned; CvSwap; CvIdle] /\ cv_notified s = false /\
      has_waiters s = true /\ forall c, cv_step 1 c s = Some s
  | None => False
  end.
Proof. vm_compute. done. Qed.

(** ** Barrier

    Each thread carries the number of rounds it has completed; [ba_round] is the
    number of completed rounds of the barrier.  Neither is part of the code. *)

Inductive ba_pc : Type :=
| BaIdle
| BaLoad            (* about to read [generation] *)
| BaAdd (gen : Z)   (* about to increment [count] *)
| BaReset           (* last to arrive, about to store 0 *)
| BaBump            (* about to advance [generation] *)
| BaSpin (gen : Z). (* waiting for [generation] to change *)

Record Barrier : Type := mkBarrier {
  ba_threshold : Z; ba_count : Z; ba_generation : Z; ba_threads : list (ba_pc * nat); ba_round : nat }.

Definition barrier_new (n : nat) : Barrier := mkBarrier (Z.of_nat n) 0 0 (replicate n (BaIdle, 0%nat)) 0.

Definition barrier_step (t : nat) (s : Barrier) : option Barrier :=
  match ba_threads s !! t with
  | None => None
  | Some (pc, r) =>
      let go c g rd pc' r' := mkBarrier (ba_threshold s) c g (<[t := (pc', r')]> (ba_threads s)) rd in
      Some
      match pc with
      | BaIdle => go (ba_count s) (ba_generation s) (ba_round s) BaLoad r
      | BaLoad => go (ba_count s) (ba_generation s) (ba_round s) (BaAdd (ba_generation s)) r
      | BaAdd gen =>
          go (ba_count s +[64] 1) (ba_generation s) (ba_round s)
             (if ba_count s +[64] 1 >=? ba_threshold s then BaReset else BaSpin gen) r
      | BaReset => go 0 (ba_generation s) (ba_round s) BaBump r
      | BaBump => go (ba_count s) (ba_generation s +[64] 1) (S (ba_round s)) BaIdle (S r)
      | BaSpin gen =>
          if ba_generation s =? gen then s else go (ba_count s) (ba_generation s) (ba_round s) BaIdle (S r)
      end
  end.

Definition barrier_trans (s s' : Barrier) : Prop := exists t, barrier_step t s = Some s'.

(** Rounds a thread has entered (incremented [count] for) and rounds it has left. *)
Definition entered (x : ba_pc * nat) : nat :=
  match x.1 with BaReset | BaBump | BaSpin _ => S x.2 | _ => x.2 end.
Definition left_rounds (x : ba_pc * nat) : nat := x.2.

(** A thread that waits in the current round [G]. *)
Definition waits_in (G : nat) (x : ba_pc * nat) : bool :=
  match x.1 with BaSpin _ => (x.2 =? G)%nat | _ => false end.
Definition is_last (x : ba_pc * nat) : bool := match x.1 with BaReset | BaBump => true | _ => false end.

Definition thread_ok (G : nat) (x : ba_pc * nat) : Prop :=
  match x.1 with
  | BaIdle | BaLoad | BaReset | BaBump => x.2 = G
  | BaAdd gen => x.2 = G /\ gen = wrap 64 (Z.of_nat G)
  | BaSpin gen => gen = wrap 64 (Z.of_nat x.2) /\ (x.2 = G \/ S x.2 = G)
  end.

Record barrier_inv (s : Barrier) : Prop := mk_barrier_inv {
  bai_n : ba_threshold s = Z.of_nat (length (ba_threads s)) /\ ba_threshold s < 2 ^ 63;
  bai_gen : ba_generation s = wrap 64 (Z.of_nat (ba_round s));
  bai_threads : Forall (thread_ok (ba_round s)) (ba_threads s);
  bai_phase :
    let w := cnt (waits_in (ba_round s)) (ba_threads s) in
    (cnt is_last (ba_threads s) = 0%nat /\ ba_count s = Z.of_nat w /\ (w < length (ba_threads s) \/ w = 0)%nat) \/
    (cnt is_last (ba_threads s) = 1 /\ S w = length (ba_threads s))%nat /\
      (forall t r, ba_threads s !! t = Some (BaBump, r) -> ba_count s = 0);
}.

Lemma cnt_zero {A} (f : A -> bool) (l : list A) : Forall (fun x => f x = false) l -> cnt f l = 0%nat.
Proof. unfold cnt. induction 1 as [|x l Hx _ IH]; [done|]. rewrite fmap_cons. simpl. by rewrite Hx. Qed.

Lemma cnt_unique {A} (f : A -> bool) (l : list A) t t' x x' : (cnt f l <= 1)%nat ->
  l !! t = Some x -> l !! t' = Some x' -> f x = true -> f x' = true -> t = t'.
Proof.
  unfold cnt. revert t t'. induction l as [|y l IH]; intros t t' Hc Ht Ht' Hx Hx'; [done|].
  rewrite fmap_cons in Hc. simpl in Hc. destruct t as [|t], t' as [|t']; cbn in Ht, Ht'; simplify_eq; [done| | |].
  - rewrite Hx in Hc. pose proof (cnt_ge f l t' x' Ht' Hx'). unfold cnt in H. lia.
  - rewrite Hx' in Hc. pose proof (cnt_ge f l t x Ht Hx). unfold cnt in H. lia.
  - f_equal. apply (IH t t'); [lia|done..].
Qed.

Lemma cnt_partition {A} (f g : A -> bool) (l : list A) : (forall x, f x = true -> g x = false) ->
  (cnt f l + cnt g l + cnt (fun x => negb (f x) && negb (g x)) l = length l)%nat.
Proof.
  intros H. unfold cnt. induction l as [|x l IH]; [done|]. rewrite !fmap_cons. simpl. specialize (H x).
  destruct (f x); [rewrite H by done|destruct (g x)]; simpl; lia.
Qed.

(** While the last thread releases the others, every thread waits or is the last one. *)
Lemma phase_two_all s t x : barrier_inv s -> cnt is_last (ba_threads s) = 1%nat ->
  ba_threads s !! t = Some x -> waits_in (ba_round s) x = true \/ is_last x = true.
Proof.
  intros [_ _ _ Hp] Hl Ht. cbn zeta in Hp. destruct Hp as [Hp|[[H1 Hw] _]]; [lia|].
  pose proof (cnt_partition is_last (waits_in (ba_round s)) (ba_threads s)) as Hsum.
  rewrite <- Hsum in Hw by (intros [[] ?]; done).
  destruct (waits_in (ba_round s) x) eqn:Ew; [by left|]. destruct (is_last x) eqn:El; [by right|].
  pose proof (cnt_ge (fun x => negb (is_last x) && negb (waits_in (ba_round s) x)) _ _ _ Ht) as Hge.
  cbn beta in Hge. rewrite Ew, El in Hge. specialize (Hge eq_refl). lia.
Qed.

Lemma wrap_succ_ne n : wrap 64 (Z.of_nat (S n)) <> wrap 64 (Z.of_nat n).
Proof.
  unfold wrap. intros H. rewrite Nat2Z.inj_succ in H. unfold Z.succ in H.
  pose proof (Z.div_mod (Z.of_nat n + 1) (2 ^ 64) ltac:(lia)). pose proof (Z.div_mod (Z.of_nat n) (2 ^ 64) ltac:(lia)).
  rewrite H in H0. lia.
Qed.

Lemma barrier_go_inv s t x x' c : barrier_inv s -> ba_threads s !! t = Some x ->
  thread_ok (ba_round s) x' ->
  (let l := <[t := x']> (ba_threads s) in let w := cnt (waits_in (ba_round s)) l in
    (cnt is_last l = 0%nat /\ c = Z.of_nat w /\ (w < length (ba_threads s) \/ w = 0)%nat) \/
    (cnt is_last l = 1 /\ S w = length (ba_threads s))%nat /\
      (forall t r, l !! t = Some (BaBump, r) -> c = 0)) ->
  barrier_inv (mkBarrier (ba_threshold s) c (ba_generation s) (<[t := x']> (ba_threads s)) (ba_round s)).
Proof.
  intros [H1 H2 H3 _] Ht Hx Hp. constructor; cbn [ba_threshold ba_threads ba_generation ba_round ba_count];
    rewrite ?length_insert; [done|done| |exact Hp].
  by apply Forall_insert.
Qed.

Lemma barrier_step_inv t s s' : barrier_inv s -> barrier_step t s = Some s' -> barrier_inv s'.
Proof.
  intros Hi Hs. pose proof Hi as [[Hn Hn2] Hg Hth Hp]. unfold barrier_step in Hs.
  destruct (ba_threads s !! t) as [[pc r]|] eqn:Ht; [|done]. injection Hs as <-.
  pose proof (Forall_lookup_1 _ _ _ _ Hth Ht) as Hok. unfold thread_ok in Hok.
  pose proof (fun y => cnt_step is_last _ _ _ y Ht) as Cl.
  pose proof (fun y => cnt_step (waits_in (ba_round s)) _ _ _ y Ht) as Cw.
  pose proof (fun H => phase_two_all s t _ Hi H Ht) as Hall.
  cbn zeta in Hp. destruct pc; cbn [fst snd waits_in is_last] in *.
  - destruct Hp as [Hp|(H1 & _)]; [|by destruct (Hall ltac:(lia))].
    specialize (Cl (BaLoad, r)). specialize (Cw (BaLoad, r)). cbn [waits_in is_last fst snd] in Cl, Cw.
    eapply barrier_go_inv; [done|exact Ht|done|]. cbn zeta. left. lia.
  - destruct Hp as [Hp|(H1 & _)]; [|by destruct (Hall ltac:(lia))].
    specialize (Cl (BaAdd (ba_generation s), r)). specialize (Cw (BaAdd (ba_generation s), r)). cbn [waits_in is_last fst snd] in Cl, Cw.
    eapply barrier_go_inv; [done|exact Ht|by split|]. cbn zeta. left. lia.
  - destruct Hp as [Hp|(H1 & _)]; [|by destruct (Hall ltac:(lia))]. destruct Hok as [-> ->].
    pose proof (lookup_lt_Some _ _ _ Ht) as Hlt.
    rewrite wrap_small by (unfold in_width; lia). rewrite Z.geb_leb.
    destruct (Z.leb_spec (ba_threshold s) (ba_count s + 1)).
    + specialize (Cl (BaReset, ba_round s)). specialize (Cw (BaReset, ba_round s)). cbn [waits_in is_last fst snd] in Cl, Cw.
      eapply barrier_go_inv; [done|exact Ht|done|]. cbn zeta. right. split; [lia|].
      intros t' r' Hl. exfalso. destruct (decide (t' = t)) as [->|Hne].
      * rewrite list_lookup_insert_eq in Hl by done. by simplify_eq.
      * rewrite list_lookup_insert_ne in Hl by done. pose proof (cnt_ge is_last _ _ _ Hl eq_refl). lia.
    + specialize (Cl (BaSpin (wrap 64 (Z.of_nat (ba_round s))), ba_round s)).
      specialize (Cw (BaSpin (wrap 64 (Z.of_nat (ba_round s))), ba_round s)).
      cbn [waits_in is_last fst snd] in Cl, Cw. rewrite Nat.eqb_refl in Cw.
      eapply barrier_go_inv; [done|exact Ht|split; [done|by left]|]. cbn zeta. left. lia.
  - pose proof (cnt_ge is_last _ _ _ Ht eq_refl). destruct Hp as [Hp|(H1 & _)]; [lia|].
    specialize (Cl (BaBump, r)). specialize (Cw (BaBump, r)). cbn [waits_in is_last fst snd] in Cl, Cw.
    eapply barrier_go_inv; [done|exact Ht|done|]. cbn zeta. right. split; [lia|done].
  - pose proof (cnt_ge is_last _ _ _ Ht eq_refl). destruct Hp as [Hp|(H1 & H2)]; [lia|].
    assert (Forall (fun x => thread_ok (S (ba_round s)) x /\ waits_in (S (ba_round s)) x = false)
      (<[t := (BaIdle, S r)]> (ba_threads s))) as Hnew.
    { apply Forall_lookup. intros t' [pc' r'] Hl. destruct (decide (t' = t)) as [->|Hne].
      - rewrite list_lookup_insert_eq in Hl by (by apply lookup_lt_Some in Ht). simplify_eq. by split.
      - rewrite list_lookup_insert_ne in Hl by done.
        destruct (phase_two_all s t' _ Hi ltac:(lia) Hl) as [Hw|Hl'].
        2:{ exfalso. apply Hne. eapply (cnt_unique is_last (ba_threads s)); [lia|exact Hl|exact Ht|done|done]. }
        pose proof (Forall_lookup_1 _ _ _ _ Hth Hl) as Hok'. unfold waits_in, thread_ok in *. cbn [fst snd] in *.
        destruct pc'; try done. apply Nat.eqb_eq in Hw as ->. destruct Hok' as [-> _].
        split; [split; [done|by right]|]. apply Nat.eqb_neq. lia. }
    rewrite Forall_and in Hnew. destruct Hnew as [Hnew1 Hnew2].
    specialize (Cl (BaIdle, S r)). cbn [is_last fst snd] in Cl.
    constructor; cbn [ba_threshold ba_threads ba_generation ba_round ba_count]; rewrite ?length_insert; [done| |done|].
    + rewrite Hg. unfold wrap. rewrite Zplus_mod_idemp_l. f_equal. lia.
    + rewrite (cnt_zero (waits_in (S (ba_round s)))) by done. left. split; [lia|]. split; [|lia].
      by rewrite (H2 t r Ht).
  - destruct Hok as [-> Hr]. destruct (Z.eqb_spec (ba_generation s) (wrap 64 (Z.of_nat r))) as [_|Hne]; [done|].
    destruct Hr as [->|Hr]; [done|]. destruct (Nat.eqb_spec r (ba_round s)); [lia|].
    destruct Hp as [Hp|(H1 & _)]; [|by destruct (Hall ltac:(lia))].
    specialize (Cl (BaIdle, S r)). specialize (Cw (BaIdle, S r)). cbn [waits_in is_last fst snd] in Cl, Cw.
    assert ((r =? ba_round s)%nat = false) as Hrf by (by apply Nat.eqb_neq). rewrite ?Hrf in Cw.
    eapply barrier_go_inv; [done|exact Ht|done|]. cbn zeta. left. lia.
Qed.

(** The barrier synchronises: with as many threads as its threshold, no thread
    has left more rounds than any other thread has entered, in any interleaving,
    so nobody passes a round before everybody has arrived in it. *)
Theorem barrier_synchronises n s t t' x x' : (0 < n)%nat -> Z.of_nat n < 2 ^ 63 ->
  rtc barrier_trans (barrier_new n) s ->
  ba_threads s !! t = Some x -> ba_threads s !! t' = Some x' -> (left_rounds x <= entered x')%nat.
Proof.
  intros Hn Hb Hr Hx Hx'. assert (barrier_inv s) as [_ _ Hth _].
  { assert (barrier_inv (barrier_new n)) as H0.
    { constructor; cbn [barrier_new ba_threshold ba_threads ba_generation ba_round ba_count]; rewrite ?length_replicate.
      - done.
      - done.
      - by apply Forall_replicate.
      - left. rewrite !cnt_replicate by done. lia. }
    revert H0 Hr. generalize (barrier_new n). intros s0 H0 Hr.
    induction Hr as [|y z w (u & Hs) _ IH]; [done|]. by apply IH, (barrier_step_inv u y). }
  pose proof (Forall_lookup_1 _ _ _ _ Hth Hx) as H1. pose proof (Forall_lookup_1 _ _ _ _ Hth Hx') as H2.
  destruct x as [[] r], x' as [[] r']; unfold thread_ok, left_rounds, entered in *; cbn [fst snd] in *; lia.
Qed.

(** ** Runs that reach the interesting states *)

Fixpoint rw_run (sched : list (nat * bool)) (s : RwLock) : option RwLock :=
  match sched with
  | [] => Some s
  | (t, w) :: r => match rw_step t w false s with Some s' => rw_run r s' | None => None end
  end.

Lemma rw_run_reach sched : forall s s', rw_run sched s = Some s' -> rtc rw_trans s s'.
Proof.
  induction sched as [|[t w] r IH]; intros s s'; cbn [rw_run]; [by intros [= ->]|].
  destruct (rw_step t w false s) as [s1|] eqn:E; [|done]. intros H. eapply rtc_l; [|by apply IH].
  by exists t, w, false.
Qed.

(** Thread 1 writes while thread 0, a reader, is held off. *)
Definition rw_demo : RwLock := mkRw 0 true [RdWait; Writing].

Lemma rwlock_mutual_exclusion_witness :
  (cnt is_writing (rw_pcs rw_demo) <= 1)%nat /\ cnt is_reading (rw_pcs rw_demo) = 0%nat.
Proof.
  destruct (rwlock_mutual_exclusion 2 rw_demo) as (H1 & H2 & _); [done| |].
  - apply (rw_run_reach [(1, true); (1, true); (1, true); (0, false); (0, false)]%nat). reflexivity.
  - split; [exact H1|apply H2; vm_compute; lia].
Defined.

Lemma irq_spinlock_exclusion_witness :
  (cnt is_held (sp_pcs (mkSpin true [false; true] [SpHeld true; SpIdle])) <= 1)%nat.
Proof.
  apply (irq_spinlock_exclusion [true; true]).
  eapply (rtc_l _ _ (mkSpin false [false; true] [SpTry true; SpIdle])); [by exists 0%nat, CallLock, false|].
  eapply rtc_l; [by exists 0%nat, CallLock, false|]. apply rtc_refl.
Defined.

Lemma semaphore_conserves_permits_witness :
  let s := mkSem 1 2 [SmIdle] 1 0 in sm_acquired s = 2 + sm_released s - sm_count s.
Proof.
  apply (semaphore_conserves_permits 2 2 1 (mkSem 1 2 [SmIdle] 1 0)); [lia|lia|].
  eapply (rtc_l _ _ (mkSem 2 2 [AcqLoad] 0 0)); [by exists 0%nat, CallAcquire, false|].
  eapply (rtc_l _ _ (mkSem 2 2 [AcqCas 2] 0 0)); [by exists 0%nat, CallAcquire, false|].
  eapply rtc_l; [by exists 0%nat, CallAcquire, false|]. apply rtc_refl.
Defined.

Lemma once_runs_exactly_once_witness : (on_runs (mkOnce 2 1 [OnDone; OnStart]) = 1)%nat.
Proof.
  apply (once_runs_exactly_once 2 (mkOnce 2 1 [OnDone; OnStart])) with (t := 0%nat); [|done].
  eapply (rtc_l _ _ (mkOnce 0 0 [OnCas; OnStart])); [by exists 0%nat|].
  eapply (rtc_l _ _ (mkOnce 1 0 [OnRun; OnStart])); [by exists 0%nat|].
  eapply (rtc_l _ _ (mkOnce 1 1 [OnStore; OnStart])); [by exists 0%nat|].
  eapply rtc_l; [by exists 0%nat|]. apply rtc_refl.
Defined.

Fixpoint barrier_run (sched : list nat) (s : Barrier) : option Barrier :=
  match sched with
  | [] => Some s
  | t :: r => match barrier_step t s with Some s' => barrier_run r s' | None => None end
  end.

Lemma barrier_run_reach sched : forall s s', barrier_run sched s = Some s' -> rtc barrier_trans s s'.
Proof.
  induction sched as [|t r IH]; intros s s'; cbn [barrier_run]; [by intros [= ->]|].
  destruct (barrier_step t s) as [s1|] eqn:E; [|done]. intros H. eapply rtc_l; [|by apply IH]. by exists t.
Qed.

(** Thread 1 arrived last and has left round 0; thread 0 has not noticed yet. *)
Lemma barrier_synchronises_witness :
  (left_rounds (BaIdle, 1%nat) <= entered (BaSpin 0, 0%nat))%nat.
Proof.
  apply (barrier_synchronises 2 (mkBarrier 2 0 1 [(BaSpin 0, 0%nat); (BaIdle, 1%nat)] 1) 1 0 _ _);
    [lia|lia| |reflexivity|reflexivity].
  apply (barrier_run_reach [0; 0; 0; 1; 1; 1; 1; 1]%nat). reflexivity.
Defined.
