(* ===== verification/Ipc.v ===== *)
(** * Inter-process communication ([kernel/src/ipc/mod.rs])

    Ring buffers of messages, wait queues that block and unblock processes in the
    process table, and channels.  The loops of [send] and [recv] interleave with
    other processes whenever they block, so one iteration of a loop is one step
    and a system is a sequence of such steps. *)

From Stdlib Require Import ZArith Lia Bool.
From stdpp Require Import base numbers option list gmap sets.
From S2P Require Import Prelude.
From S2P Require Import Process.
From S2P Require Import Scheduler.

Definition CHANNEL_CAPACITY : nat := 64.
Definition MESSAGE_SIZE : nat := 256.

(** ** Messages *)

Record Message : Type := mkMessage { msg_type : Z; sender : Z; msg_bytes : list Z; msg_len : nat }.

Definition Message_new (ty from : Z) (data : list Z) : Message :=
  let len := Nat.min (length data) MESSAGE_SIZE in
  mkMessage ty from (take len data ++ replicate (MESSAGE_SIZE - len) 0) len.

Definition message_data (m : Message) : list Z := take (msg_len m) (msg_bytes m).

(** ** The ring buffer *)

Record MessageBuffer : Type := mkBuffer {
  messages : list (option Message); buf_head : nat; buf_tail : nat; buf_count : nat }.

Definition MessageBuffer_new : MessageBuffer := mkBuffer (replicate CHANNEL_CAPACITY None) 0 0 0.

Definition buf_push (m : Message) (b : MessageBuffer) : bool * MessageBuffer :=
  if (CHANNEL_CAPACITY <=? buf_count b)%nat then (false, b) else
  (true, mkBuffer (<[buf_tail b := Some m]> (messages b)) (buf_head b)
           ((buf_tail b + 1) mod CHANNEL_CAPACITY) (buf_count b + 1)).

Definition buf_pop (b : MessageBuffer) : option Message * MessageBuffer :=
  if (buf_count b =? 0)%nat then (None, b) else
  (default None (messages b !! buf_head b),
   mkBuffer (<[buf_head b := None]> (messages b)) ((buf_head b + 1) mod CHANNEL_CAPACITY)
     (buf_tail b) (buf_count b - 1)).

Definition buf_is_full (b : MessageBuffer) : bool := (CHANNEL_CAPACITY <=? buf_count b)%nat.
Definition buf_is_empty (b : MessageBuffer) : bool := (buf_count b =? 0)%nat.

(** ** Wait queues *)

Inductive WaitReason : Type := WNone | IpcSend | IpcRecv | WMutex | WSleep | WInput.
Definition wait_code (w : WaitReason) : Z :=
  match w with WNone => 0 | IpcSend => 1 | IpcRecv => 2 | WMutex => 3 | WSleep => 4 | WInput => 5 end.

Definition WaitQueue : Type := list Z.

(** [wait] on CPU [c]: join the queue, then (under the table's lock) mark the
    process blocked, and yield. *)
Definition wait_enqueue (p : Z) (q : WaitQueue) : WaitQueue := q ++ [p].
Definition wait_block (c : nat) (p : Z) (k : Kernel) : Kernel :=
  yield_cpu c (set_table (update p (with_wait Blocked (wait_code IpcRecv)) (table k)) k).

Definition unblock (p : Z) (k : Kernel) : Kernel := set_table (update p (with_wait Ready 0) (table k)) k.

Definition wake_one (q : WaitQueue) (k : Kernel) : option Z * WaitQueue * Kernel :=
  match q with
  | [] => (None, [], k)
  | p :: r => (Some p, r, unblock p k)
  end.

Definition wake_all (q : WaitQueue) (k : Kernel) : WaitQueue * Kernel :=
  ([], foldl (fun k p => unblock p k) k q).

(** ** Channels *)

Inductive IpcError : Type := ChannelClosed | WouldBlock | InvalidChannel | PermissionDenied.

Record Channel : Type := mkChannel {
  chan_id : Z; buffer : MessageBuffer; send_waiters : WaitQueue; recv_waiters : WaitQueue; closed : bool }.

Definition Channel_new (id : Z) : Channel := mkChannel id MessageBuffer_new [] [] false.

Definition with_buffer (b : MessageBuffer) (ch : Channel) : Channel :=
  mkChannel (chan_id ch) b (send_waiters ch) (recv_waiters ch) (closed ch).
Definition with_send_waiters (q : WaitQueue) (ch : Channel) : Channel :=
  mkChannel (chan_id ch) (buffer ch) q (recv_waiters ch) (closed ch).
Definition with_recv_waiters (q : WaitQueue) (ch : Channel) : Channel :=
  mkChannel (chan_id ch) (buffer ch) (send_waiters ch) q (closed ch).

(** ** Operations as atomic steps

    A caller is between two atomic actions of [send], [recv] or [close]; an action
    is what the code does under one lock or with one atomic access. *)
Inductive ipc_pc : Type :=
| IcIdle
| SndCheck (m : Message)   (* about to read [closed] *)
| SndPush (m : Message)    (* about to lock the buffer and push *)
| SndWake                  (* pushed, about to wake a receiver *)
| SndEnq (m : Message)     (* buffer was full, about to join [send_waiters] *)
| SndBlock (m : Message)   (* about to mark itself blocked and yield *)
| RcvPop                   (* about to lock the buffer and pop *)
| RcvWake (m : Message)    (* popped, about to wake a sender *)
| RcvClosed                (* buffer was empty, about to read [closed] *)
| RcvEnq
| RcvBlock
| ClsWakeSend              (* stored [closed], about to wake the senders *)
| ClsWakeRecv
| SndDone (r : Result unit IpcError)
| RcvDone (r : Result Message IpcError).

Definition try_recv (ch : Channel) (k : Kernel) : Result Message IpcError * Channel * Kernel :=
  match buf_pop (buffer ch) with
  | (Some m, b) =>
      let '(_, q, k') := wake_one (send_waiters ch) k in (Ok m, with_send_waiters q (with_buffer b ch), k')
  | (None, b) => (Err (if closed ch then ChannelClosed else WouldBlock), with_buffer b ch, k)
  end.

Definition set_closed (ch : Channel) : Channel :=
  mkChannel (chan_id ch) (buffer ch) (send_waiters ch) (recv_waiters ch) true.

Inductive ipc_call : Type := CallSend (m : Message) | CallRecv | CallTryRecv | CallClose.

(** A channel and its callers; [sent] and [received] log the messages in the order
    in which they entered and left the buffer. *)
Record System : Type := mkSystem {
  sys_chan : Channel; sys_kern : Kernel; sys_pcs : list ipc_pc; sent : list Message; received : list Message }.

(** The next action of caller [t], which runs as process [p] on CPU [c]
    ([p = 0] when no process is current); an idle caller makes [call]. *)
Definition ipc_step (t c : nat) (p : Z) (call : ipc_call) (s : System) : option System :=
  let ch := sys_chan s in
  let k := set_current_pid p (sys_kern s) in
  let go ch' k' pc := mkSystem ch' k' (<[t := pc]> (sys_pcs s)) (sent s) (received s) in
  let wake q := wake_one q k in
  match sys_pcs s !! t with
  | None => None
  | Some pc => Some
      match pc with
      | IcIdle | SndDone _ | RcvDone _ =>
          match call with
          | CallSend m => go ch k (SndCheck m)
          | CallRecv => go ch k RcvPop
          | CallTryRecv =>
              let '(r, ch', k') := try_recv ch k in
              mkSystem ch' k' (<[t := RcvDone r]> (sys_pcs s)) (sent s)
                (received s ++ match r with Ok m => [m] | Err _ => [] end)
          | CallClose => go (set_closed ch) k ClsWakeSend
          end
      | SndCheck m => if closed ch then go ch k (SndDone (Err ChannelClosed)) else go ch k (SndPush m)
      | SndPush m =>
          match buf_push m (buffer ch) with
          | (true, b) => mkSystem (with_buffer b ch) k (<[t := SndWake]> (sys_pcs s)) (sent s ++ [m]) (received s)
          | (false, b) =>
              if p =? 0 then go (with_buffer b ch) k (SndDone (Err WouldBlock))
              else go (with_buffer b ch) k (SndEnq m)
          end
      | SndWake => let '(_, q, k') := wake (recv_waiters ch) in go (with_recv_waiters q ch) k' (SndDone (Ok tt))
      | SndEnq m => go (with_send_waiters (wait_enqueue p (send_waiters ch)) ch) k (SndBlock m)
      | SndBlock m => go ch (wait_block c p k) (SndCheck m)
      | RcvPop =>
          match buf_pop (buffer ch) with
          | (Some m, b) =>
              mkSystem (with_buffer b ch) k (<[t := RcvWake m]> (sys_pcs s)) (sent s) (received s ++ [m])
          | (None, b) => go (with_buffer b ch) k RcvClosed
          end
      | RcvWake m => let '(_, q, k') := wake (send_waiters ch) in go (with_send_waiters q ch) k' (RcvDone (Ok m))
      | RcvClosed =>
          if closed ch then go ch k (RcvDone (Err ChannelClosed))
          else if p =? 0 then go ch k (RcvDone (Err WouldBlock)) else go ch k RcvEnq
      | RcvEnq => go (with_recv_waiters (wait_enqueue p (recv_waiters ch)) ch) k RcvBlock
      | RcvBlock => go ch (wait_block c p k) RcvPop
      | ClsWakeSend => let '(q, k') := wake_all (send_waiters ch) k in go (with_send_waiters q ch) k' ClsWakeRecv
      | ClsWakeRecv => let '(q, k') := wake_all (recv_waiters ch) k in go (with_recv_waiters q ch) k' IcIdle
      end
  end.

Definition ipc_trans (s s' : System) : Prop := exists t c p call, ipc_step t c p call s = Some s'.

Definition system_new (id : Z) (n : nat) (k : Kernel) : System :=
  mkSystem (Channel_new id) k (replicate n IcIdle) [] [].

(** ** The channel registry *)

Record Ipc : Type := mkIpc { channels : gmap Z Channel; next_channel_id : Z; kern : Kernel }.

Definition create_channel (s : Ipc) : Z * Ipc :=
  let id := next_channel_id s in
  (id, mkIpc (<[id := Channel_new id]> (channels s)) (next_channel_id s +[64] 1) (kern s)).

(** The lookup of [channel_send] and [channel_recv]; the operation then runs on the channel.
    The code keeps a raw pointer into the registry's tree after dropping its lock; here
    the channel is taken to stay where it is, so what a channel created or closed during
    the operation does to that pointer is not modelled. *)
Definition find_channel (id : Z) (s : Ipc) : Result Channel IpcError :=
  match channels s !! id with
  | Some ch => Ok ch
  | None => Err InvalidChannel
  end.

(** [close_channel] drops the channel from the registry and closes it. *)
Definition close_channel (id : Z) (s : Ipc) : Ipc :=
  match channels s !! id with
  | Some ch =>
      let '(_, k1) := wake_all (send_waiters ch) (kern s) in
      let '(_, k2) := wake_all (recv_waiters ch) k1 in
      mkIpc (delete id (channels s)) (next_channel_id s) k2
  | None => s
  end.

(** ** The ring buffer is a bounded queue *)

Definition slot (b : MessageBuffer) (i : nat) : option Message :=
  default None (messages b !! ((buf_head b + i) mod CHANNEL_CAPACITY)%nat).

(** The queued messages, oldest first. *)
Definition contents (b : MessageBuffer) : list Message := omap (slot b) (seq 0 (buf_count b)).

Record buffer_ok (b : MessageBuffer) : Prop := mk_buffer_ok {
  bo_len : length (messages b) = CHANNEL_CAPACITY;
  bo_count : (buf_count b <= CHANNEL_CAPACITY)%nat;
  bo_head : (buf_head b < CHANNEL_CAPACITY)%nat;
  bo_tail : buf_tail b = ((buf_head b + buf_count b) mod CHANNEL_CAPACITY)%nat;
  bo_full : forall i, (i < buf_count b)%nat -> is_Some (slot b i);
}.

Lemma omap_seq_length {A} (f : nat -> option A) n k : (forall i, (i < n)%nat -> is_Some (f (k + i)%nat)) ->
  length (omap f (seq k n)) = n.
Proof.
  revert k. induction n as [|n IH]; intros k H; cbn; [done|].
  destruct (H 0%nat ltac:(lia)) as [x Hx]. rewrite Nat.add_0_r in Hx. rewrite Hx. cbn. f_equal. apply IH.
  intros i Hi. replace (S k + i)%nat with (k + S i)%nat by lia. apply H. lia.
Qed.

Lemma omap_ext_seq {A} (f g : nat -> option A) k k' n :
  (forall i, (i < n)%nat -> f (k + i)%nat = g (k' + i)%nat) -> omap f (seq k n) = omap g (seq k' n).
Proof.
  revert k k'. induction n as [|n IH]; intros k k' H; cbn; [done|].
  pose proof (H 0%nat ltac:(lia)) as H0. rewrite !Nat.add_0_r in H0. rewrite H0.
  rewrite (IH (S k) (S k')); [done|]. intros i Hi.
  replace (S k + i)%nat with (k + S i)%nat by lia. replace (S k' + i)%nat with (k' + S i)%nat by lia. apply H. lia.
Qed.

Lemma ring_inj h i j : (i < CHANNEL_CAPACITY)%nat -> (j < CHANNEL_CAPACITY)%nat ->
  ((h + i) mod CHANNEL_CAPACITY = (h + j) mod CHANNEL_CAPACITY)%nat -> i = j.
Proof.
  unfold CHANNEL_CAPACITY. intros Hi Hj H.
  pose proof (Nat.div_mod (h + i) 64 ltac:(lia)). pose proof (Nat.div_mod (h + j) 64 ltac:(lia)).
  rewrite H in *. nia.
Qed.

Lemma ring_lt x : (x mod CHANNEL_CAPACITY < CHANNEL_CAPACITY)%nat.
Proof. apply Nat.mod_upper_bound. unfold CHANNEL_CAPACITY. lia. Qed.

Lemma push_spec m b : buffer_ok b ->
  let (r, b') := buf_push m b in
  buffer_ok b' /\
  (r = true <-> (length (contents b) < CHANNEL_CAPACITY)%nat) /\
  contents b' = if r then contents b ++ [m] else contents b.
Proof.
  intros Hok. pose proof Hok as [H1 H2 H3 H4 H5].
  assert (length (contents b) = buf_count b) as Hlen by (by apply omap_seq_length).
  unfold buf_push. destruct (Nat.leb_spec CHANNEL_CAPACITY (buf_count b)) as [Hfull|Hroom].
  { split; [done|]. rewrite Hlen. split; [split; [done|lia]|done]. }
  set (b' := mkBuffer _ _ _ _).
  assert (forall i, (i < buf_count b)%nat -> slot b' i = slot b i) as Hold.
  { intros i Hi. unfold slot, b'. cbn [messages buf_head]. rewrite H4, list_lookup_insert_ne; [done|].
    intros He%ring_inj; lia. }
  assert (slot b' (buf_count b) = Some m) as Hnew.
  { unfold slot, b'. cbn [messages buf_head]. rewrite H4, list_lookup_insert_eq; [done|]. rewrite H1. apply ring_lt. }
  split; [|split; [rewrite Hlen; split; [done|done]|]].
  - constructor; cbn [b' messages buf_head buf_tail buf_count].
    + by rewrite length_insert.
    + lia.
    + done.
    + rewrite H4. unfold CHANNEL_CAPACITY. rewrite Nat.Div0.add_mod_idemp_l. f_equal. lia.
    + intros i Hi. destruct (decide (i = buf_count b)) as [->|]; [by rewrite Hnew|]. rewrite Hold by lia. apply H5. lia.
  - unfold contents. change (buf_count b') with (buf_count b + 1)%nat.
    rewrite seq_app, omap_app. cbn [seq omap list_omap Nat.add]. rewrite Hnew. f_equal.
    apply omap_ext_seq. intros i Hi. by apply Hold.
Qed.

Lemma pop_spec b : buffer_ok b ->
  let (r, b') := buf_pop b in
  buffer_ok b' /\ r = head (contents b) /\ contents b' = tail (contents b).
Proof.
  intros Hok. pose proof Hok as [H1 H2 H3 H4 H5]. unfold buf_pop.
  destruct (Nat.eqb_spec (buf_count b) 0) as [H0|H0].
  { split; [done|]. unfold contents. rewrite H0. done. }
  set (b' := mkBuffer _ _ _ _).
  assert (default None (messages b !! buf_head b) = slot b 0) as Hfst.
  { unfold slot. by rewrite Nat.add_0_r, Nat.mod_small by done. }
  assert (forall i, (i < buf_count b - 1)%nat -> slot b' i = slot b (S i)) as Hold.
  { intros i Hi. unfold slot, b'. cbn [messages buf_head].
    assert (((buf_head b + 1) mod CHANNEL_CAPACITY + i) mod CHANNEL_CAPACITY = (buf_head b + S i) mod CHANNEL_CAPACITY)%nat as ->.
    { unfold CHANNEL_CAPACITY. rewrite Nat.Div0.add_mod_idemp_l. f_equal. lia. }
    rewrite list_lookup_insert_ne; [done|]. intros He.
    rewrite <- (Nat.mod_small (buf_head b) CHANNEL_CAPACITY), <- (Nat.add_0_r (buf_head b)) in He at 1 by done.
    apply ring_inj in He; lia. }
  assert (contents b = omap (slot b) [0%nat] ++ omap (slot b) (seq 1 (buf_count b - 1))) as Hc.
  { unfold contents. rewrite <- omap_app. f_equal. destruct (buf_count b) as [|n]; [done|].
    cbn. by rewrite Nat.sub_0_r. }
  destruct (H5 0%nat ltac:(lia)) as [m Hm]. cbn [omap list_omap] in Hc. rewrite Hm in Hc. cbn [app] in Hc.
  split; [|rewrite Hc, Hfst, Hm; cbn [head tail]; split; [done|]].
  - constructor; cbn [b' messages buf_head buf_tail buf_count].
    + by rewrite length_insert.
    + lia.
    + apply ring_lt.
    + rewrite H4. unfold CHANNEL_CAPACITY. rewrite Nat.Div0.add_mod_idemp_l. f_equal. lia.
    + intros i Hi. rewrite Hold by done. apply H5. lia.
  - apply omap_ext_seq. intros i Hi. by apply Hold.
Qed.

(** ** First in, first out *)

Lemma new_buffer_ok : buffer_ok MessageBuffer_new /\ contents MessageBuffer_new = [].
Proof.
  split; [|reflexivity]. constructor; cbn [MessageBuffer_new messages buf_head buf_tail buf_count].
  - by rewrite length_replicate.
  - lia.
  - unfold CHANNEL_CAPACITY. lia.
  - done.
  - intros i Hi. lia.
Qed.

Definition fifo_inv (s : System) : Prop :=
  buffer_ok (buffer (sys_chan s)) /\ sent s = received s ++ contents (buffer (sys_chan s)).

(** Steps that touch neither the buffer nor the logs. *)
Lemma fifo_same s ch k pcs : fifo_inv s -> buffer ch = buffer (sys_chan s) ->
  fifo_inv (mkSystem ch k pcs (sent s) (received s)).
Proof. unfold fifo_inv. cbn. by intros H ->. Qed.

Lemma wake_one_chan q k : exists r q' k', wake_one q k = (r, q', k').
Proof. destruct q; cbn; eauto. Qed.

Lemma fifo_pop s k pcs ch m b : fifo_inv s -> buf_pop (buffer (sys_chan s)) = (Some m, b) -> buffer ch = b ->
  fifo_inv (mkSystem ch k pcs (sent s) (received s ++ [m])).
Proof.
  intros [Hok Hs] Hp <-. pose proof (pop_spec _ Hok) as H. rewrite Hp in H. destruct H as (H1 & H2 & H3).
  split; [done|]. cbn [sent received sys_chan buffer]. rewrite Hs, H3, <- app_assoc. f_equal.
  destruct (contents _); [done|]. cbn in H2. by simplify_eq.
Qed.

Lemma pop_none b b' : buf_pop b = (None, b') -> buffer_ok b -> b' = b.
Proof.
  unfold buf_pop. destruct (Nat.eqb_spec (buf_count b) 0) as [|H0]; [by intros [= <-]|].
  intros Hp Hok. exfalso. pose proof (bo_full _ Hok 0%nat ltac:(lia)) as [m Hm]. unfold slot in Hm.
  rewrite Nat.add_0_r, Nat.mod_small in Hm by apply Hok. injection Hp as H1 H2. congruence.
Qed.

Lemma fifo_step t c p call s s' : fifo_inv s -> ipc_step t c p call s = Some s' -> fifo_inv s'.
Proof.
  intros Hi Hs. unfold ipc_step in Hs. destruct (sys_pcs s !! t) as [pc|]; [|done]. injection Hs as <-.
  destruct pc.
  1,14,15: destruct call as [m| | |]; try (by apply fifo_same); unfold try_recv;
    destruct (buf_pop (buffer (sys_chan s))) as [[m|] b] eqn:Ep;
    [destruct (wake_one_chan (send_waiters (sys_chan s)) (set_current_pid p (sys_kern s))) as (? & ? & ? & ->);
     by eapply fifo_pop
    |rewrite app_nil_r; apply fifo_same; [done|]; exact (pop_none _ _ Ep (proj1 Hi))].
  - destruct (closed (sys_chan s)); by apply fifo_same.
  - destruct Hi as [Hok Hs]. pose proof (push_spec m _ Hok) as Hp.
    destruct (buf_push m (buffer (sys_chan s))) as [[] b] eqn:Eb; destruct Hp as (H1 & _ & H3).
    + split; [done|]. cbn [sent received sys_chan buffer with_buffer]. by rewrite H3, Hs, app_assoc.
    + destruct (p =? 0); (split; [done|]; cbn [sent received sys_chan buffer with_buffer]; by rewrite H3).
  - destruct (wake_one_chan (recv_waiters (sys_chan s)) (set_current_pid p (sys_kern s))) as (? & ? & ? & ->).
    by apply fifo_same.
  - by apply fifo_same.
  - by apply fifo_same.
  - destruct (buf_pop (buffer (sys_chan s))) as [[m|] b] eqn:Ep; [by eapply fifo_pop|].
    apply fifo_same; [done|]. exact (pop_none _ _ Ep (proj1 Hi)).
  - destruct (wake_one_chan (send_waiters (sys_chan s)) (set_current_pid p (sys_kern s))) as (? & ? & ? & ->).
    by apply fifo_same.
  - destruct (closed (sys_chan s)); [by apply fifo_same|]. destruct (p =? 0); by apply fifo_same.
  - by apply fifo_same.
  - by apply fifo_same.
  - by apply fifo_same.
  - by apply fifo_same.
Qed.

(** The ring buffer is a bounded FIFO queue: [push] appends and is refused
    exactly when 64 messages are queued, [pop] removes the oldest message and
    returns it, and both keep the index invariant. *)
Theorem ring_buffer_refines_queue b m : buffer_ok b ->
  (let (r, b') := buf_push m b in
   buffer_ok b' /\ (r = true <-> (length (contents b) < CHANNEL_CAPACITY)%nat) /\
   contents b' = if r then contents b ++ [m] else contents b) /\
  (let (r, b') := buf_pop b in
   buffer_ok b' /\ r = head (contents b) /\ contents b' = tail (contents b)).
Proof. intros Hok. split; [by apply push_spec|by apply pop_spec]. Qed.

(** C29: Channels neither lose, duplicate nor reorder messages.  However senders,
    receivers, non-blocking receivers and closers interleave, the messages pushed
    so far are the messages received so far followed by the buffered ones, in
    order, and at most 64 are buffered. *)
Theorem channel_fifo id n k s : rtc ipc_trans (system_new id n k) s ->
  sent s = received s ++ contents (buffer (sys_chan s)) /\
  (length (contents (buffer (sys_chan s))) <= CHANNEL_CAPACITY)%nat.
Proof.
  intros Hr. assert (fifo_inv s) as [Hok Hs].
  { assert (fifo_inv (system_new id n k)) as H0.
    { split; [exact (proj1 new_buffer_ok)|]. cbn [system_new sent received sys_chan buffer Channel_new].
      by rewrite (proj2 new_buffer_ok). }
    revert H0 Hr. generalize (system_new id n k). intros s0 H0 Hr.
    induction Hr as [|x y z (t & c & p & call & Hs) _ IH]; [done|]. by apply IH, (fifo_step t c p call x). }
  split; [done|]. unfold contents. rewrite omap_seq_length; apply Hok.
Qed.

(** A message carries at most the first 256 bytes of the data it is made from,
    and those unchanged. *)
Theorem message_data_truncates ty p data :
  message_data (Message_new ty p data) = take MESSAGE_SIZE data /\
  length (msg_bytes (Message_new ty p data)) = MESSAGE_SIZE.
Proof.
  unfold message_data, Message_new. cbn [msg_len msg_bytes].
  set (n := Nat.min (length data) MESSAGE_SIZE).
  assert (length (take n data) = n) as Hl by (rewrite length_take; lia).
  split; [|rewrite length_app, length_replicate, Hl; lia].
  rewrite take_app_length' by done. unfold n.
  destruct (Nat.min_spec (length data) MESSAGE_SIZE) as [[Hlt ->]|[_ ->]]; [|done].
  by rewrite !take_ge by lia.
Qed.

Lemma blocked_pid w q p : pid (with_wait w q p) = pid p.
Proof. by destruct p. Qed.

(** Blocking does not take a process off the CPU: [wait] marks it Blocked (with
    the reason for receivers, whoever waits) and its [yield_cpu] puts it back in
    the run queue it would be dispatched from. *)
Theorem wait_requeues_blocked c k p proc : kernel_ok k -> (c < cpu_count k)%nat ->
  get_current_pid k = Some p -> get p (table k) = Some proc ->
  let k' := wait_block c p k in
  get p (table k') = Some (with_wait Blocked (wait_code IpcRecv) proc) /\
  in_queue (cpu_at c k') (prio_idx (priority proc)) p.
Proof.
  intros Hk Hc Hp Hg. pose proof (k_count _ Hk) as Hcnt. cbn zeta. unfold wait_block, yield_cpu.
  change (get_current_pid (set_table ?t k)) with (get_current_pid k). rewrite Hp.
  set (k1 := set_table _ k).
  assert (kernel_ok k1) as Hk1 by (apply update_kernel_ok; [intros x; apply blocked_pid|done]).
  assert (get p (table k1) = Some (with_wait Blocked (wait_code IpcRecv) proc)) as Hz.
  { rewrite get_spec. unfold k1. cbn [set_table table].
    rewrite (proj2 (update_ok p _ (table k) (blocked_pid _ _) (k_table _ Hk))).
    rewrite lookup_alter_eq, <- get_spec, Hg. done. }
  rewrite Hz. split; [done|]. rewrite cpu_at_set, decide_True by (done || lia).
  apply enqueue_ok; [auto with sched|by right].
Qed.

(** ** A lost wake-up *)

Definition msg0 : Message := Message_new 0 2 [].

Fixpoint ipc_run (sched : list (nat * Z * ipc_call)) (s : System) : option System :=
  match sched with
  | [] => Some s
  | (t, p, call) :: r => match ipc_step t 0 p call s with Some s' => ipc_run r s' | None => None end
  end.

Lemma ipc_run_reach sched : forall s s', ipc_run sched s = Some s' -> rtc ipc_trans s s'.
Proof.
  induction sched as [|[[t p] call] r IH]; intros s s'; cbn [ipc_run]; [by intros [= ->]|].
  destruct (ipc_step t 0 p call s) as [s1|] eqn:E; [|done]. intros H. eapply rtc_l; [|by apply IH].
  by exists t, 0%nat, p, call.
Qed.

(** The receiver (process 1) finds the buffer empty; before it joins the wait queue
    the sender (process 2) pushes and wakes nobody. *)
Definition lost_wakeup_schedule : list (nat * Z * ipc_call) :=
  [(0%nat, 1, CallRecv); (0%nat, 1, CallRecv); (0%nat, 1, CallRecv);
   (1%nat, 2, CallSend msg0); (1%nat, 2, CallRecv); (1%nat, 2, CallRecv); (1%nat, 2, CallRecv);
   (0%nat, 1, CallRecv); (0%nat, 1, CallRecv)].

(** A receiver can block although a message is waiting: [recv] releases the
    buffer between finding it empty and joining the wait queue, so a [send] in
    between wakes nobody, returns success, and the receiver ends up Blocked in the
    wait queue with the message in the buffer. *)
Theorem recv_lost_wakeup :
  match ipc_run lost_wakeup_schedule (system_new 1 2 (spawn 1 (boot 1))) with
  | Some s =>
      sys_pcs s = [RcvPop; SndDone (Ok tt)] /\ length (contents (buffer (sys_chan s))) = 1%nat /\
      recv_waiters (sys_chan s) = [1] /\ (state <$> get 1 (table (sys_kern s))) = Some Blocked
  | None => False
  end.
Proof. vm_compute. done. Qed.

Lemma channel_fifo_witness :
  match ipc_run lost_wakeup_schedule (system_new 1 2 (boot 1)) with
  | Some s => sent s = received s ++ contents (buffer (sys_chan s))
  | None => False
  end.
Proof.
  pose proof (ipc_run_reach lost_wakeup_schedule (system_new 1 2 (boot 1))) as Hr.
  assert (is_Some (ipc_run lost_wakeup_schedule (system_new 1 2 (boot 1)))) as [s Hs].
  { eexists. vm_compute. reflexivity. }
  rewrite Hs. apply (channel_fifo 1 2 (boot 1) s), Hr, Hs.
Defined.

Lemma ring_buffer_refines_queue_witness :
  contents (buf_push msg0 MessageBuffer_new).2 = [msg0].
Proof.
  destruct (ring_buffer_refines_queue MessageBuffer_new msg0 (proj1 new_buffer_ok)) as [H _].
  assert ((buf_push msg0 MessageBuffer_new).1 = true) as Hr by reflexivity.
  destruct (buf_push msg0 MessageBuffer_new) as [r b]. cbn [fst snd] in *. subst r.
  destruct H as (_ & _ & H). rewrite H. by rewrite (proj2 new_buffer_ok).
Defined.

Lemma wait_requeues_blocked_witness :
  in_queue (cpu_at 0 (wait_block 0 1 demo_k)) (prio_idx Normal) 1.
Proof.
  apply (wait_requeues_blocked 0 demo_k 1 (Process_new 1) demo_k_ok);
    [vm_compute; lia|by vm_compute|by vm_compute].
Defined.
