(* ===== verification/Net.v ===== *)
(** * Packet formats ([kernel/src/network/{ethernet,arp,ip,udp,tcp}.rs])

    Parsers and serializers of the network stack over byte lists, the Internet
    checksum, the ARP cache and the TCP connection state.  A parser that indexes
    out of range panics; [UdpDatagram::parse] is the one that can, so its result
    type has that case. *)

From Stdlib Require Import ZArith Lia Bool.
From stdpp Require Import base numbers option list gmap sets.
From S2P Require Import Prelude.

(** ** Bytes *)

Definition is_byte (b : Z) : Prop := 0 <= b < 256.
Definition bytes (l : list Z) : Prop := Forall is_byte l.

(** [data[i]] below the length, and the slice [data[i..j]]. *)
Definition at_ (data : list Z) (i : nat) : Z := nth i data 0.
Definition slice (i j : nat) (data : list Z) : list Z := take (j - i) (drop i data).

Definition be16 (a b : Z) : Z := a * 256 + b.
Definition be32 (a b c d : Z) : Z := ((a * 256 + b) * 256 + c) * 256 + d.
Definition to_be16 (x : Z) : list Z := [x / 256 mod 256; x mod 256].
Definition to_be32 (x : Z) : list Z :=
  [x / 16777216 mod 256; x / 65536 mod 256; x / 256 mod 256; x mod 256].

(** ** Ethernet *)

Definition ETHERTYPE_IPV4 : Z := 0x0800.
Definition ETHERTYPE_ARP : Z := 0x0806.

Definition mac_broadcast : list Z := replicate 6 0xFF.
Definition is_broadcast (m : list Z) : bool := bool_decide (m = mac_broadcast).
Definition is_multicast (m : list Z) : bool := negb (Z.land (at_ m 0) 0x01 =? 0).

Record EthernetFrame : Type := mkFrame { dst_mac : list Z; src_mac : list Z; ethertype : Z; eth_payload : list Z }.

Definition eth_parse (data : list Z) : option EthernetFrame :=
  if (length data <? 14)%nat then None else
  Some (mkFrame (slice 0 6 data) (slice 6 12 data) (be16 (at_ data 12) (at_ data 13)) (drop 14 data)).

Definition eth_to_bytes (f : EthernetFrame) : list Z :=
  let frame := dst_mac f ++ src_mac f ++ to_be16 (ethertype f) ++ eth_payload f in
  frame ++ replicate (60 - length frame) 0.

(** ** ARP *)

Definition ARP_REQUEST : Z := 1.
Definition ARP_REPLY : Z := 2.

Record ArpPacket : Type := mkArp {
  hw_type : Z; proto_type : Z; hw_addr_len : Z; proto_addr_len : Z; operation : Z;
  sender_hw_addr : list Z; sender_proto_addr : list Z; target_hw_addr : list Z; target_proto_addr : list Z }.

Definition arp_parse (data : list Z) : option ArpPacket :=
  if (length data <? 28)%nat then None else
  Some (mkArp (be16 (at_ data 0) (at_ data 1)) (be16 (at_ data 2) (at_ data 3)) (at_ data 4) (at_ data 5)
          (be16 (at_ data 6) (at_ data 7)) (slice 8 14 data) (slice 14 18 data) (slice 18 24 data) (slice 24 28 data)).

Definition arp_new_request (smac sip tip : list Z) : ArpPacket :=
  mkArp 1 0x0800 6 4 ARP_REQUEST smac sip (replicate 6 0) tip.
Definition arp_new_reply (smac sip tmac tip : list Z) : ArpPacket :=
  mkArp 1 0x0800 6 4 ARP_REPLY smac sip tmac tip.

Definition arp_to_bytes (p : ArpPacket) : list Z :=
  to_be16 (hw_type p) ++ to_be16 (proto_type p) ++ [hw_addr_len p] ++ [proto_addr_len p] ++ to_be16 (operation p) ++
  sender_hw_addr p ++ sender_proto_addr p ++ target_hw_addr p ++ target_proto_addr p.

(** The cache, keyed by [Ipv4Address::to_u32]. *)
Definition ip_to_u32 (a : list Z) : Z := be32 (at_ a 0) (at_ a 1) (at_ a 2) (at_ a 3).
Definition ip_from_u32 (x : Z) : list Z := to_be32 x.
Definition ArpCache : Type := gmap Z (list Z).
Definition arp_insert (ip mac : list Z) (c : ArpCache) : ArpCache := <[ip_to_u32 ip := mac]> c.
Definition arp_lookup (ip : list Z) (c : ArpCache) : option (list Z) := c !! ip_to_u32 ip.
Definition arp_remove (ip : list Z) (c : ArpCache) : ArpCache := delete (ip_to_u32 ip) c.

(** ** The Internet checksum

    The loop folds the carry after every word. *)

Definition fold_carry (sum : Z) : Z := if sum >? 0xFFFF then Z.land sum 0xFFFF + Z.shiftr sum 16 else sum.

Fixpoint sum_words (fuel : nat) (sum : Z) (data : list Z) : Z :=
  match fuel, data with
  | S f, a :: b :: r => sum_words f (fold_carry (sum +[32] be16 a b)) r
  | S f, [a] => fold_carry (sum +[32] Z.shiftl a 8)
  | _, _ => sum
  end.

Definition calculate_checksum (data : list Z) : Z := wnot 32 (sum_words (length data) 0 data) mod 2 ^ 16.

(** ** IPv4 *)

Definition PROTOCOL_ICMP : Z := 1.
Definition PROTOCOL_TCP : Z := 6.
Definition PROTOCOL_UDP : Z := 17.

Record Ipv4Packet : Type := mkIp {
  version : Z; ihl : Z; dscp : Z; ecn : Z; total_length : Z; identification : Z; ip_flags : Z;
  fragment_offset : Z; ttl : Z; protocol : Z; ip_checksum : Z; src_addr : list Z; dst_addr : list Z;
  ip_payload : list Z }.

Definition ip_parse (data : list Z) : option Ipv4Packet :=
  if (length data <? 20)%nat then None else
  let version := Z.shiftr (at_ data 0) 4 in
  let ihl := Z.land (at_ data 0) 0x0F in
  let header_len := Z.to_nat (ihl *[8] 4) in
  if negb (version =? 4) || (length data <? header_len)%nat then None else
  Some (mkIp version ihl (Z.shiftr (at_ data 1) 2) (Z.land (at_ data 1) 0x03) (be16 (at_ data 2) (at_ data 3))
          (be16 (at_ data 4) (at_ data 5)) (Z.shiftr (at_ data 6) 5)
          (be16 (Z.land (at_ data 6) 0x1F) (at_ data 7)) (at_ data 8) (at_ data 9)
          (be16 (at_ data 10) (at_ data 11)) (slice 12 16 data) (slice 16 20 data) (drop header_len data)).

Definition ip_new (src dst : list Z) (proto : Z) (payload : list Z) : Ipv4Packet :=
  mkIp 4 5 0 0 (Z.of_nat (20 + length payload) mod 2 ^ 16) 0 0 0 64 proto 0 src dst payload.

(** The 20 header bytes around a checksum field. *)
Definition ip_header (p : Ipv4Packet) (ck : list Z) : list Z :=
  [Z.lor (Z.shiftl (version p) 4 mod 256) (ihl p); Z.lor (Z.shiftl (dscp p) 2 mod 256) (ecn p)] ++
  to_be16 (total_length p) ++ to_be16 (identification p) ++
  to_be16 (Z.lor (Z.shiftl (ip_flags p) 13 mod 2 ^ 16) (fragment_offset p)) ++
  [ttl p; protocol p] ++ ck ++ src_addr p ++ dst_addr p.

Definition ip_to_bytes (p : Ipv4Packet) : list Z :=
  let checksum := calculate_checksum (take 20 (ip_header p [0; 0])) in
  ip_header p [Z.shiftr checksum 8 mod 256; checksum mod 256] ++ ip_payload p.

(** ** UDP *)

Inductive Parsed (A : Type) : Type := Rejected | Accepted (a : A) | Panicked.
Arguments Rejected {A}.
Arguments Accepted {A} a.
Arguments Panicked {A}.

Record UdpDatagram : Type := mkUdp {
  udp_src_port : Z; udp_dst_port : Z; udp_length : Z; udp_checksum : Z; udp_payload : list Z }.

(** [&data[8..length]] panics when [length < 8]. *)
Definition udp_parse (data : list Z) : Parsed UdpDatagram :=
  if (length data <? 8)%nat then Rejected else
  let len := be16 (at_ data 4) (at_ data 5) in
  if Z.of_nat (length data) <? len then Rejected else
  if len <? 8 then Panicked else
  Accepted (mkUdp (be16 (at_ data 0) (at_ data 1)) (be16 (at_ data 2) (at_ data 3)) len
              (be16 (at_ data 6) (at_ data 7)) (slice 8 (Z.to_nat len) data)).

Definition udp_new (sp dp : Z) (payload : list Z) : UdpDatagram :=
  mkUdp sp dp (Z.of_nat (8 + length payload) mod 2 ^ 16) 0 payload.

Definition udp_to_bytes (d : UdpDatagram) : list Z :=
  to_be16 (udp_src_port d) ++ to_be16 (udp_dst_port d) ++ to_be16 (udp_length d) ++ to_be16 (udp_checksum d) ++ udp_payload d.

(** ** TCP *)

Definition TCP_FLAG_FIN : Z := 0x01.
Definition TCP_FLAG_SYN : Z := 0x02.
Definition TCP_FLAG_ACK : Z := 0x10.

Inductive TcpState : Type :=
| Closed | Listen | SynSent | SynReceived | Established | FinWait1 | FinWait2 | CloseWait | Closing | LastAck | TimeWait.

#[global] Instance TcpState_eq_dec : EqDecision TcpState.
Proof. solve_decision. Defined.

Record TcpSegment : Type := mkTcp {
  tcp_src_port : Z; tcp_dst_port : Z; sequence : Z; acknowledgment : Z; data_offset : Z; tcp_flags : Z;
  window : Z; tcp_checksum : Z; urgent_ptr : Z; tcp_payload : list Z }.

Definition tcp_parse (data : list Z) : option TcpSegment :=
  if (length data <? 20)%nat then None else
  let data_offset := Z.shiftr (at_ data 12) 4 in
  let header_len := Z.to_nat (data_offset *[8] 4) in
  if (length data <? header_len)%nat then None else
  Some (mkTcp (be16 (at_ data 0) (at_ data 1)) (be16 (at_ data 2) (at_ data 3))
          (be32 (at_ data 4) (at_ data 5) (at_ data 6) (at_ data 7))
          (be32 (at_ data 8) (at_ data 9) (at_ data 10) (at_ data 11)) data_offset (at_ data 13)
          (be16 (at_ data 14) (at_ data 15)) (be16 (at_ data 16) (at_ data 17)) (be16 (at_ data 18) (at_ data 19))
          (drop header_len data)).

Definition has_flag (s : TcpSegment) (flag : Z) : bool := negb (Z.land (tcp_flags s) flag =? 0).

Record TcpConnection : Type := mkConn {
  c_state : TcpState; local_addr : list Z; local_port : Z; remote_addr : list Z; remote_port : Z;
  send_next : Z; send_unack : Z; recv_next : Z; send_buffer : list Z; recv_buffer : list Z;
  send_window : Z; recv_window : Z }.

Definition TcpConnection_new (addr : list Z) (port : Z) : TcpConnection :=
  mkConn Closed addr port [0; 0; 0; 0] 0 0 0 0 [] [] 65535 65535.

(** Assignments of [handle_segment]. *)
Definition conn_state (s : TcpState) (c : TcpConnection) : TcpConnection :=
  mkConn s (local_addr c) (local_port c) (remote_addr c) (remote_port c) (send_next c) (send_unack c) (recv_next c)
    (send_buffer c) (recv_buffer c) (send_window c) (recv_window c).
Definition conn_recv (next : Z) (buf : list Z) (c : TcpConnection) : TcpConnection :=
  mkConn (c_state c) (local_addr c) (local_port c) (remote_addr c) (remote_port c) (send_next c) (send_unack c) next
    (send_buffer c) buf (send_window c) (recv_window c).
Definition conn_unack (u : Z) (c : TcpConnection) : TcpConnection :=
  mkConn (c_state c) (local_addr c) (local_port c) (remote_addr c) (remote_port c) (send_next c) u (recv_next c)
    (send_buffer c) (recv_buffer c) (send_window c) (recv_window c).

Definition handle_segment (s : TcpSegment) (c : TcpConnection) : TcpConnection :=
  match c_state c with
  | Listen =>
      if has_flag s TCP_FLAG_SYN then conn_state SynReceived (conn_recv (sequence s +[32] 1) (recv_buffer c) c) else c
  | Established =>
      let c1 := if has_flag s TCP_FLAG_ACK then conn_unack (acknowledgment s) c else c in
      let c2 :=
        match tcp_payload s with
        | [] => c1
        | _ => conn_recv (recv_next c1 +[32] (Z.of_nat (length (tcp_payload s)) mod 2 ^ 32))
                 (recv_buffer c1 ++ tcp_payload s) c1
        end in
      if has_flag s TCP_FLAG_FIN then conn_state CloseWait c2 else c2
  | _ => c
  end.

(** ** Fields and bytes *)

Lemma to_be16_be16 x : in_width 16 x -> be16 (x / 256 mod 256) (x mod 256) = x.
Proof.
  unfold in_width, be16. intros H. rewrite (Z.mod_small (x / 256)) by (split; [apply Z.div_pos; lia|apply Z.div_lt_upper_bound; lia]).
  pose proof (Z.div_mod x 256 ltac:(lia)). lia.
Qed.

Lemma to_be32_be32 x : in_width 32 x ->
  be32 (x / 16777216 mod 256) (x / 65536 mod 256) (x / 256 mod 256) (x mod 256) = x.
Proof.
  unfold in_width, be32. intros H.
  pose proof (Z.div_mod x 256 ltac:(lia)). pose proof (Z.div_mod (x / 256) 256 ltac:(lia)).
  pose proof (Z.div_mod (x / 65536) 256 ltac:(lia)).
  rewrite (Z.div_div x 256 256) in * by lia. change (256 * 256) with 65536 in *.
  rewrite (Z.div_div x 65536 256) in * by lia. change (65536 * 256) with 16777216 in *.
  rewrite (Z.mod_small (x / 16777216)) by (split; [apply Z.div_pos; lia|apply Z.div_lt_upper_bound; lia]). lia.
Qed.

Lemma lor_shift_add a b k : 0 <= a -> 0 <= k -> 0 <= b < 2 ^ k -> Z.lor (Z.shiftl a k) b = a * 2 ^ k + b.
Proof.
  intros Ha Hk Hb. rewrite <- Z.shiftl_mul_pow2 by done. symmetry.
  rewrite Z.add_nocarry_lxor; [apply Z.lxor_lor|]; apply Z.bits_inj'; intros j Hj;
    rewrite Z.land_spec, Z.testbit_0_l; (destruct (Z.lt_ge_cases j k);
      [by rewrite Z.shiftl_spec_low|by rewrite (in_width_testbit k b), andb_false_r by done]).
Qed.

(** A high and a low bit field packed in one word of [w] bits. *)
Lemma pack_fields w k a b : 0 <= k <= w -> in_width (w - k) a -> in_width k b ->
  let x := Z.lor (Z.shiftl a k mod 2 ^ w) b in
  in_width w x /\ Z.shiftr x k = a /\ Z.land x (Z.ones k) = b.
Proof.
  unfold in_width. intros Hk Ha Hb. cbn zeta.
  assert (0 < 2 ^ k) by (apply Z.pow_pos_nonneg; lia).
  assert (2 ^ w = 2 ^ (w - k) * 2 ^ k) as Hw by (rewrite <- Z.pow_add_r by lia; f_equal; lia).
  rewrite Z.mod_small by (rewrite Z.shiftl_mul_pow2 by lia; nia). rewrite lor_shift_add by lia.
  split; [nia|]. split.
  - rewrite Z.shiftr_div_pow2 by lia. rewrite Z.div_add_l, Z.div_small; lia.
  - rewrite Z.land_ones by lia. rewrite Z.add_comm, Z.mod_add by lia. apply Z.mod_small. lia.
Qed.

Lemma len4 {A} (l : list A) : length l = 4%nat -> exists a b c d, l = [a; b; c; d].
Proof. destruct l as [|a [|b [|c [|d [|]]]]]; try done. eauto 10. Qed.
Lemma len6 {A} (l : list A) : length l = 6%nat -> exists a b c d e f, l = [a; b; c; d; e; f].
Proof. destruct l as [|a [|b [|c [|d [|e [|f [|]]]]]]]; try done. eauto 10. Qed.

(** Splits fixed-length address lists into their bytes. *)
Ltac split_addrs :=
  repeat match goal with
  | H : length ?l = 4%nat |- _ => apply len4 in H as (? & ? & ? & ? & ?)
  | H : length ?l = 6%nat |- _ => apply len6 in H as (? & ? & ? & ? & ? & ? & ?)
  end.

Definition eth_ok (f : EthernetFrame) : Prop :=
  length (dst_mac f) = 6%nat /\ length (src_mac f) = 6%nat /\ in_width 16 (ethertype f).

Lemma eth_roundtrip f : eth_ok f ->
  eth_parse (eth_to_bytes f) =
    Some (mkFrame (dst_mac f) (src_mac f) (ethertype f) (eth_payload f ++ replicate (46 - length (eth_payload f)) 0)).
Proof.
  destruct f as [d s e p]. unfold eth_ok. cbn [dst_mac src_mac ethertype eth_payload]. intros (Hd & Hs & He).
  split_addrs. subst. unfold eth_to_bytes, eth_parse. cbn - [Nat.sub replicate Z.div Z.modulo be16].
  unfold at_, slice. cbn - [Z.div Z.modulo be16 replicate]. by rewrite to_be16_be16.
Qed.

Definition arp_ok (p : ArpPacket) : Prop :=
  in_width 16 (hw_type p) /\ in_width 16 (proto_type p) /\ in_width 16 (operation p) /\
  length (sender_hw_addr p) = 6%nat /\ length (sender_proto_addr p) = 4%nat /\
  length (target_hw_addr p) = 6%nat /\ length (target_proto_addr p) = 4%nat.

(** Bytes after the 28 of the packet (padding) are ignored. *)
Lemma arp_roundtrip p rest : arp_ok p -> arp_parse (arp_to_bytes p ++ rest) = Some p.
Proof.
  destruct p as [h pr hl pl op sh sp th tp]. unfold arp_ok.
  cbn [hw_type proto_type operation sender_hw_addr sender_proto_addr target_hw_addr target_proto_addr].
  intros (H1 & H2 & H3 & H4 & H5 & H6 & H7). split_addrs. subst.
  unfold arp_to_bytes, arp_parse, at_, slice. cbn - [Z.div Z.modulo be16]. by rewrite !to_be16_be16.
Qed.

Definition ip_ok (p : Ipv4Packet) : Prop :=
  version p = 4 /\ ihl p = 5 /\ in_width 6 (dscp p) /\ in_width 2 (ecn p) /\ in_width 16 (total_length p) /\
  in_width 16 (identification p) /\ in_width 3 (ip_flags p) /\ in_width 13 (fragment_offset p) /\
  is_byte (ttl p) /\ is_byte (protocol p) /\ length (src_addr p) = 4%nat /\ length (dst_addr p) = 4%nat /\
  bytes (src_addr p) /\ bytes (dst_addr p).

(** The checksum [to_bytes] writes. *)
Definition header_checksum (p : Ipv4Packet) : Z := calculate_checksum (take 20 (ip_header p [0; 0])).

Lemma checksum_width data : in_width 16 (calculate_checksum data).
Proof. unfold calculate_checksum, in_width. by apply Z.mod_pos_bound. Qed.

Lemma ip_roundtrip p : ip_ok p ->
  ip_parse (ip_to_bytes p) =
    Some (mkIp (version p) (ihl p) (dscp p) (ecn p) (total_length p) (identification p) (ip_flags p)
            (fragment_offset p) (ttl p) (protocol p) (header_checksum p) (src_addr p) (dst_addr p) (ip_payload p)).
Proof.
  intros Hok. unfold ip_to_bytes. fold (header_checksum p). pose proof (checksum_width (take 20 (ip_header p [0; 0]))) as Hc.
  fold (header_checksum p) in Hc. set (ck := header_checksum p) in *. clearbody ck.
  destruct p as [v i ds ec tl id fl fo t pr cs sa da pl]. unfold ip_ok, is_byte in Hok.
  cbn [version ihl dscp ecn total_length identification ip_flags fragment_offset ttl protocol src_addr dst_addr ip_payload] in *.
  destruct Hok as (-> & -> & H1 & H2 & H3 & H4 & H5 & H6 & H7 & H8 & H9 & H10 & H11 & H12). split_addrs. subst.
  destruct (pack_fields 8 2 ds ec ltac:(lia) H1 H2) as (_ & P1 & P2).
  destruct (pack_fields 16 13 fl fo ltac:(lia) H5 H6) as (P0 & P3 & P4).
  unfold ip_parse, ip_header, at_, slice. cbn [version ihl dscp ecn total_length identification ip_flags fragment_offset ttl protocol src_addr dst_addr].
  change (2 ^ 8) with 256 in *.
  set (wds := Z.lor (Z.shiftl ds 2 mod 256) ec) in *. set (wfo := Z.lor (Z.shiftl fl 13 mod 2 ^ 16) fo) in *.
  change (Z.lor (Z.shiftl 4 4 mod 256) 5) with 69.
  cbn - [Z.div Z.modulo be16 wds wfo Z.shiftr Z.land drop]. change (Z.shiftr 69 4) with 4. change (Z.land 69 15) with 5.
  cbn - [Z.div Z.modulo be16 wds wfo Z.shiftr Z.land].
  assert (Z.shiftr (wfo / 256 mod 256) 5 = fl) as ->.
  { rewrite <- P3. unfold in_width in P0. rewrite (Z.mod_small (wfo / 256)) by (split; [apply Z.div_pos; lia|apply Z.div_lt_upper_bound; lia]).
    rewrite !Z.shiftr_div_pow2 by lia. rewrite Z.div_div by lia. done. }
  assert (be16 (Z.land (wfo / 256 mod 256) 31) (wfo mod 256) = fo) as ->.
  { rewrite <- P4. change 31 with (Z.ones 5). rewrite !Z.land_ones by lia. unfold be16, in_width in *.
    pose proof (Z.div_mod wfo 256 ltac:(lia)). pose proof (Z.div_mod (wfo / 256) 32 ltac:(lia)). pose proof (Z.div_mod wfo 8192 ltac:(lia)).
    rewrite Z.div_div in * by lia. change (256 * 32) with 8192 in *.
    rewrite (Z.mod_small (wfo / 256) 256) by (split; [apply Z.div_pos; lia|apply Z.div_lt_upper_bound; lia]).
    change (2 ^ 5) with 32. change (2 ^ 13) with 8192. lia. }
  rewrite P1. change 3 with (Z.ones 2). rewrite P2.
  rewrite !to_be16_be16 by done.
  assert (be16 (Z.shiftr ck 8 mod 256) (ck mod 256) = ck) as ->
    by (rewrite Z.shiftr_div_pow2 by lia; by apply to_be16_be16).
  done.
Qed.

Lemma udp_roundtrip sp dp payload rest : in_width 16 sp -> in_width 16 dp ->
  Z.of_nat (8 + length payload) < 2 ^ 16 ->
  udp_parse (udp_to_bytes (udp_new sp dp payload) ++ rest) = Accepted (udp_new sp dp payload).
Proof.
  intros Hs Hd Hl. unfold udp_new, udp_to_bytes, udp_parse. cbn [udp_src_port udp_dst_port udp_length udp_checksum udp_payload].
  rewrite (Z.mod_small (Z.of_nat (8 + length payload))) by lia. set (n := Z.of_nat (8 + length payload)) in *.
  assert (in_width 16 n) as Hn by (unfold in_width; lia).
  unfold at_, slice. cbn - [Z.div Z.modulo be16 n Z.of_nat drop take].
  rewrite !to_be16_be16 by done. rewrite length_app.
  destruct (Z.ltb_spec (Z.of_nat (S (S (S (S (S (S (S (S (length payload + length rest)))))))))) n); [lia|].
  destruct (Z.ltb_spec n 8); [lia|]. repeat f_equal.
  replace (Z.to_nat n - 8)%nat with (length payload) by lia. cbn [drop]. by apply take_app_length'.
Qed.

(** ** The checksum *)

(** The sum of the 16-bit words, an odd last byte counting as the high half. *)
Fixpoint wsum (fuel : nat) (data : list Z) : Z :=
  match fuel, data with
  | S f, a :: b :: r => be16 a b + wsum f r
  | S f, [a] => a * 256
  | _, _ => 0
  end.

Definition carries (s r : Z) : Prop := 0 <= r <= 65535 /\ (exists k, s = r + 65535 * k) /\ (r = 0 <-> s = 0).

Lemma fold_carry_spec s w : 0 <= s <= 65535 -> 0 <= w <= 65535 -> carries (s + w) (fold_carry (s +[32] w)).
Proof.
  intros Hs Hw. unfold carries, fold_carry. rewrite wrap_small by (unfold in_width; lia). rewrite Z.gtb_ltb.
  destruct (Z.ltb_spec 0xFFFF (s + w)).
  - change (Z.land (s + w) 0xFFFF) with (Z.land (s + w) (Z.ones 16)).
    rewrite Z.land_ones, Z.shiftr_div_pow2 by lia.
    pose proof (Z.div_mod (s + w) (2 ^ 16) ltac:(lia)) as Hdm.
    pose proof (Z.mod_pos_bound (s + w) (2 ^ 16) ltac:(lia)) as Hm.
    assert ((s + w) / 2 ^ 16 = 1) as Hq by (symmetry; apply (Z.div_unique _ _ 1 (s + w - 2 ^ 16)); lia).
    rewrite Hq in Hdm |- *. set (q := (s + w) mod 2 ^ 16) in *. clearbody q. split; [lia|]. split; [|lia]. exists 1. lia.
  - split; [lia|]. split; [exists 0; lia|lia].
Qed.

Lemma carries_trans s r w t : carries s r -> 0 <= w -> carries (r + w) t -> 0 <= s -> carries (s + w) t.
Proof.
  intros (H1 & [k Hk] & H3) Hw (H4 & [j Hj] & H6) Hs. split; [done|]. split; [exists (k + j); lia|lia].
Qed.

Lemma be16_range a b : is_byte a -> is_byte b -> 0 <= be16 a b <= 65535.
Proof. unfold is_byte, be16. lia. Qed.

Lemma wsum_nonneg fuel : forall data, bytes data -> 0 <= wsum fuel data.
Proof.
  induction fuel as [|f IH]; intros data Hb; [done|]. destruct data as [|a [|b r]]; cbn [wsum]; [lia| |].
  - apply Forall_cons in Hb as [Ha _]. unfold is_byte in Ha. lia.
  - apply Forall_cons in Hb as [Ha [Hb Hr]%Forall_cons]. pose proof (be16_range a b Ha Hb). specialize (IH r Hr). lia.
Qed.

Lemma sum_words_spec fuel : forall data s, bytes data -> 0 <= s <= 65535 ->
  carries (s + wsum fuel data) (sum_words fuel s data).
Proof.
  induction fuel as [|f IH]; intros data s Hb Hs; cbn [sum_words wsum].
  { split; [lia|]. split; [exists 0; lia|lia]. }
  destruct data as [|a [|b r]].
  - split; [lia|]. split; [exists 0; lia|lia].
  - apply Forall_cons in Hb as [Ha _]. unfold is_byte in Ha. rewrite Z.shiftl_mul_pow2 by lia.
    apply fold_carry_spec; [done|lia].
  - apply Forall_cons in Hb as [Ha [Hb Hr]%Forall_cons]. pose proof (be16_range a b Ha Hb) as Hw.
    pose proof (fold_carry_spec s (be16 a b) Hs Hw) as Hc. rewrite Z.add_assoc.
    apply (carries_trans _ (fold_carry (s +[32] be16 a b))); [done|by apply wsum_nonneg| |lia].
    apply IH; [done|apply Hc].
Qed.

Lemma wsum_more d n m : (length d <= n)%nat -> (n <= m)%nat -> wsum m d = wsum n d.
Proof.
  revert d m. induction n as [|n IH]; intros [|a [|b r]] m Hl Hm; destruct m; cbn in *; try lia; try done.
  rewrite (IH r m) by lia. done.
Qed.

Lemma wsum_app f : forall d1 d2 g, Nat.Even (length d1) -> (length d1 <= f)%nat -> (length d2 <= g)%nat ->
  wsum (f + g) (d1 ++ d2) = wsum f d1 + wsum g d2.
Proof.
  induction f as [|f IH]; intros [|a [|b r]] d2 g He Hl Hg; cbn [app]; cbn in Hl; try lia.
  - done.
  - rewrite (wsum_more d2 g) by lia. cbn [wsum]. lia.
  - destruct He as [k Hk]. cbn in Hk. lia.
  - cbn [Nat.add wsum]. rewrite IH; [lia| |lia|lia]. destruct He as [k Hk]. exists (k - 1)%nat. cbn in Hk. lia.
Qed.

Lemma checksum_of_sum data : bytes data -> exists r, carries (wsum (length data) data) r /\ calculate_checksum data = 65535 - r.
Proof.
  intros Hb. exists (sum_words (length data) 0 data). pose proof (sum_words_spec (length data) data 0 Hb ltac:(lia)) as Hc.
  rewrite Z.add_0_l in Hc. split; [done|]. destruct Hc as [Hr _]. unfold calculate_checksum.
  rewrite wnot_sub by (unfold in_width; lia).
  symmetry. apply (Z.mod_unique_pos _ _ 65535); lia.
Qed.

(** Filling a zeroed, word-aligned checksum field makes the checksum of the whole 0. *)
Lemma checksum_patch d1 d2 : bytes d1 -> bytes d2 -> Nat.Even (length d1) ->
  let c := calculate_checksum (d1 ++ [0; 0] ++ d2) in
  calculate_checksum (d1 ++ [Z.shiftr c 8 mod 256; c mod 256] ++ d2) = 0.
Proof.
  intros H1 H2 He. cbn zeta. set (c := calculate_checksum (d1 ++ [0; 0] ++ d2)).
  pose proof (checksum_width (d1 ++ [0; 0] ++ d2)) as Hcw. fold c in Hcw.
  assert (forall a b, wsum (length (d1 ++ [a; b] ++ d2)) (d1 ++ [a; b] ++ d2) =
    wsum (length d1) d1 + (be16 a b + wsum (length d2) d2)) as Hsum.
  { intros a b. rewrite length_app, wsum_app by (done || cbn; lia). f_equal.
    change (wsum (length ([a; b] ++ d2)) ([a; b] ++ d2)) with (be16 a b + wsum (S (length d2)) d2).
    f_equal. apply wsum_more; lia. }
  assert (forall a b, is_byte a -> is_byte b -> bytes (d1 ++ [a; b] ++ d2)) as Hbytes.
  { intros a b Ha Hb. apply Forall_app. split; [done|]. cbn [app].
    apply Forall_cons. split; [done|]. apply Forall_cons. by split. }
  destruct (checksum_of_sum (d1 ++ [0; 0] ++ d2)) as (r & Hr & Hc); [by apply Hbytes|]. fold c in Hc.
  rewrite Hsum in Hr. change (be16 0 0) with 0 in Hr.
  destruct (checksum_of_sum (d1 ++ [Z.shiftr c 8 mod 256; c mod 256] ++ d2)) as (r' & Hr' & ->).
  { apply Hbytes; unfold is_byte; apply Z.mod_pos_bound; lia. }
  rewrite Hsum, Z.shiftr_div_pow2, to_be16_be16 in Hr' by (done || lia).
  pose proof (wsum_nonneg (length d1) d1 H1). pose proof (wsum_nonneg (length d2) d2 H2).
  destruct Hr as (R1 & [k Hk] & R3), Hr' as (R1' & [k' Hk'] & R3'). unfold in_width in Hcw. lia.
Qed.

Lemma to_be16_bytes x : bytes (to_be16 x).
Proof.
  apply Forall_cons. split; [apply Z.mod_pos_bound; lia|]. apply Forall_cons. split; [apply Z.mod_pos_bound; lia|done].
Qed.

Lemma ip_header_bytes p : ip_ok p ->
  exists d1 d2, bytes d1 /\ bytes d2 /\ length d1 = 10%nat /\ length d2 = 8%nat /\
    forall ck, ip_header p ck = d1 ++ ck ++ d2.
Proof.
  intros (Hv & Hi & H1 & H2 & H3 & H4 & H5 & H6 & H7 & H8 & H9 & H10 & H11 & H12).
  destruct (pack_fields 8 4 (version p) (ihl p)) as [P1 _]; [lia|rewrite Hv; unfold in_width; lia|rewrite Hi; unfold in_width; lia|].
  destruct (pack_fields 8 2 (dscp p) (ecn p) ltac:(lia) H1 H2) as [P2 _].
  eexists ([_; _] ++ to_be16 (total_length p) ++ to_be16 (identification p) ++ to_be16 _ ++ [_; _]),
    (src_addr p ++ dst_addr p).
  split; [|split; [|split; [|split]]].
  5:{ intros ck. unfold ip_header. rewrite <- !app_assoc. reflexivity. }
  - apply Forall_app. split; [apply Forall_cons; split; [exact P1|apply Forall_cons; by split]|].
    apply Forall_app. split; [apply to_be16_bytes|]. apply Forall_app. split; [apply to_be16_bytes|].
    apply Forall_app. split; [apply to_be16_bytes|]. apply Forall_cons. split; [done|]. apply Forall_cons. by split.
  - apply Forall_app. by split.
  - done.
  - rewrite length_app. lia.
Qed.

(** Serialized headers carry a valid Internet checksum: recomputing it over
    the 20 header bytes that [to_bytes] produces gives zero. *)
Theorem ip_header_checksum_valid p : ip_ok p -> calculate_checksum (take 20 (ip_to_bytes p)) = 0.
Proof.
  intros Hok. destruct (ip_header_bytes p Hok) as (d1 & d2 & H1 & H2 & L1 & L2 & Hh).
  unfold ip_to_bytes. rewrite !Hh.
  rewrite (take_ge (d1 ++ [0; 0] ++ d2) 20) by (rewrite !length_app; cbn; lia).
  rewrite take_app_le by (rewrite !length_app; cbn; lia). rewrite take_ge by (rewrite !length_app; cbn; lia).
  apply checksum_patch; [done|done|]. rewrite L1. by exists 5%nat.
Qed.

(** C27: Every wire format reads back what it writes.  Ethernet returns the payload
    with the padding to the minimum frame size, ARP and UDP ignore bytes after the
    packet, IPv4 returns the packet with the computed checksum. *)
Theorem wire_formats_roundtrip f a rest p sp dp payload :
  eth_ok f -> arp_ok a -> ip_ok p -> in_width 16 sp -> in_width 16 dp -> Z.of_nat (8 + length payload) < 2 ^ 16 ->
  eth_parse (eth_to_bytes f) =
    Some (mkFrame (dst_mac f) (src_mac f) (ethertype f) (eth_payload f ++ replicate (46 - length (eth_payload f)) 0)) /\
  arp_parse (arp_to_bytes a ++ rest) = Some a /\
  ip_parse (ip_to_bytes p) =
    Some (mkIp (version p) (ihl p) (dscp p) (ecn p) (total_length p) (identification p) (ip_flags p)
            (fragment_offset p) (ttl p) (protocol p) (header_checksum p) (src_addr p) (dst_addr p) (ip_payload p)) /\
  udp_parse (udp_to_bytes (udp_new sp dp payload) ++ rest) = Accepted (udp_new sp dp payload).
Proof.
  intros Hf Ha Hp Hs Hd Hl. split; [by apply eth_roundtrip|]. split; [by apply arp_roundtrip|].
  split; [by apply ip_roundtrip|by apply udp_roundtrip].
Qed.

(** A datagram whose length field is below 8 makes [UdpDatagram::parse] panic
    instead of being rejected. *)
Theorem udp_short_length_panics data : (8 <= length data)%nat -> bytes data ->
  be16 (at_ data 4) (at_ data 5) < 8 -> udp_parse data = Panicked.
Proof.
  intros Hl Hb Hlen. unfold udp_parse. destruct (Nat.ltb_spec (length data) 8); [lia|].
  destruct (Z.ltb_spec (Z.of_nat (length data)) (be16 (at_ data 4) (at_ data 5))); [lia|].
  destruct (Z.ltb_spec (be16 (at_ data 4) (at_ data 5)) 8); [done|lia].
Qed.

(** Appending bytes to a packet appends them to the payload [parse] returns. *)
Lemma ip_parse_app data rest p : ip_parse data = Some p ->
  exists p', ip_parse (data ++ rest) = Some p' /\ ip_payload p' = ip_payload p ++ rest /\ total_length p' = total_length p /\
    src_addr p' = src_addr p /\ dst_addr p' = dst_addr p /\ protocol p' = protocol p.
Proof.
  unfold ip_parse. destruct (Nat.ltb_spec (length data) 20) as [|Hl]; [done|].
  set (hl := Z.to_nat _).
  assert (forall i, (i < 20)%nat -> at_ (data ++ rest) i = at_ data i) as Hat
    by (intros i Hi; unfold at_; apply app_nth1; lia).
  rewrite !Hat by lia. fold hl.
  destruct (negb _ || _) eqn:E; [done|]. intros [= <-]. apply orb_false_iff in E as [E1 E2%Nat.ltb_ge].
  rewrite length_app. destruct (Nat.ltb_spec (length data + length rest) 20); [lia|]. rewrite E1.
  destruct (Nat.ltb_spec (length data + length rest) hl); [lia|]. cbn [orb].
  eexists. split; [reflexivity|]. cbn [ip_payload total_length src_addr dst_addr protocol].
  split; [by rewrite drop_app_le by lia|]. split; [done|].
  assert (forall i j, (j <= 20)%nat -> slice i j (data ++ rest) = slice i j data) as Hsl; [|by rewrite !Hsl by lia].
  intros i j Hj. unfold slice. destruct (Nat.le_gt_cases i (length data)).
  - rewrite drop_app_le by lia. rewrite take_app_le; [done|]. rewrite length_drop. lia.
  - by replace (j - i)%nat with 0%nat by lia.
Qed.

(** The padding of short frames is passed up as data.  An IPv4 packet of fewer
    than 46 bytes that travels in an Ethernet frame comes back with the padding
    zeros appended to its payload although its total length excludes them. *)
Theorem padding_becomes_payload f p : eth_ok f -> ip_ok p -> eth_payload f = ip_to_bytes p ->
  match eth_parse (eth_to_bytes f) with
  | Some f' => exists p', ip_parse (eth_payload f') = Some p' /\
      ip_payload p' = ip_payload p ++ replicate (46 - length (ip_to_bytes p)) 0 /\ total_length p' = total_length p
  | None => False
  end.
Proof.
  intros Hf Hp He. rewrite eth_roundtrip by done. cbn [eth_payload]. rewrite He.
  destruct (ip_parse_app _ (replicate (46 - length (ip_to_bytes p)) 0) _ (ip_roundtrip p Hp)) as (p' & H1 & H2 & H3 & _).
  exists p'. by split.
Qed.

(** Sequence numbers are not checked: an established connection that receives
    the same data segment twice delivers its payload twice. *)
Theorem duplicate_segment_delivered_twice s c : c_state c = Established -> has_flag s TCP_FLAG_FIN = false ->
  recv_buffer (handle_segment s (handle_segment s c)) = recv_buffer c ++ tcp_payload s ++ tcp_payload s.
Proof.
  intros Hc Hf. unfold handle_segment at 2. rewrite Hc, Hf.
  destruct (tcp_payload s) as [|b l] eqn:Ep.
  - destruct (has_flag s TCP_FLAG_ACK) eqn:Ea; unfold handle_segment; cbn [conn_unack c_state]; rewrite ?Hc, ?Hf, ?Ea, Ep;
      cbn; by rewrite app_nil_r.
  - destruct (has_flag s TCP_FLAG_ACK) eqn:Ea; unfold handle_segment; cbn [conn_unack conn_recv c_state]; rewrite ?Hc, ?Hf, ?Ea, Ep;
      cbn [conn_unack conn_recv recv_buffer]; by rewrite app_assoc.
Qed.

(** ** Examples *)

Definition ip_demo : Ipv4Packet := ip_new [10; 0; 2; 15] [10; 0; 2; 2] PROTOCOL_ICMP [8; 0; 0; 0; 0; 1; 0; 1].

Lemma ip_demo_ok : ip_ok ip_demo.
Proof.
  unfold ip_ok, in_width, is_byte, bytes.
  split; [done|]. split; [done|]. do 8 (split; [by vm_compute|]). split; [done|]. split; [done|].
  split; by (repeat constructor; vm_compute).
Qed.

Lemma ip_header_checksum_valid_witness : calculate_checksum (take 20 (ip_to_bytes ip_demo)) = 0.
Proof. exact (ip_header_checksum_valid ip_demo ip_demo_ok). Defined.

Lemma wire_formats_roundtrip_witness :
  udp_parse (udp_to_bytes (udp_new 53 4000 [1; 2; 3]) ++ [9]) = Accepted (udp_new 53 4000 [1; 2; 3]).
Proof.
  apply (wire_formats_roundtrip (mkFrame mac_broadcast mac_broadcast ETHERTYPE_ARP [])
    (arp_new_request mac_broadcast [1; 2; 3; 4] [5; 6; 7; 8]) [9] ip_demo 53 4000 [1; 2; 3]).
  - split; [done|]. split; [done|]. by vm_compute.
  - do 3 (split; [by vm_compute|]). by vm_compute.
  - exact ip_demo_ok.
  - unfold in_width. lia.
  - unfold in_width. lia.
  - cbn. lia.
Defined.

Lemma udp_short_length_panics_witness : udp_parse [0; 53; 0; 53; 0; 7; 0; 0] = Panicked.
Proof.
  apply udp_short_length_panics; [cbn; lia| |by vm_compute].
  by (repeat constructor; vm_compute).
Defined.

Lemma padding_becomes_payload_witness :
  match eth_parse (eth_to_bytes (mkFrame mac_broadcast mac_broadcast ETHERTYPE_IPV4 (ip_to_bytes ip_demo))) with
  | Some f' => exists p', ip_parse (eth_payload f') = Some p' /\
      ip_payload p' = ip_payload ip_demo ++ replicate (46 - length (ip_to_bytes ip_demo)) 0 /\
      total_length p' = total_length ip_demo
  | None => False
  end.
Proof.
  apply (padding_becomes_payload (mkFrame mac_broadcast mac_broadcast ETHERTYPE_IPV4 (ip_to_bytes ip_demo)) ip_demo).
  - split; [done|]. split; [done|]. by vm_compute.
  - exact ip_demo_ok.
  - reflexivity.
Defined.

Lemma duplicate_segment_delivered_twice_witness :
  let c := conn_state Established (TcpConnection_new [10; 0; 2; 15] 80) in
  let s := mkTcp 1000 80 7 0 5 TCP_FLAG_ACK 0 0 0 [65] in
  recv_buffer (handle_segment s (handle_segment s c)) = [65; 65].
Proof.
  cbn zeta. apply (duplicate_segment_delivered_twice (mkTcp 1000 80 7 0 5 TCP_FLAG_ACK 0 0 0 [65])
    (conn_state Established (TcpConnection_new [10; 0; 2; 15] 80))); reflexivity.
Defined.
