(* ===== verification/NetStack.v ===== *)
(** * The network stack ([kernel/src/network/{mod,socket,device}.rs])

    Sockets, the receive path from a frame to ARP, ICMP, TCP and UDP handling, and
    the replies it sends.  Devices implement the trait [NetworkDevice], here a
    class; the stack's theorems hold for every implementation.  [None] is a panic. *)

From Stdlib Require Import ZArith Lia Bool.
From stdpp Require Import base numbers option list gmap sets.
From S2P Require Import Prelude.
From S2P Require Import Net.

(** ** Sockets *)

Record UdpSocket : Type := mkUdpSocket {
  u_local_addr : list Z; u_local_port : Z; recv_queue : list (list Z * Z * list Z) }.

Inductive Socket : Type := TcpSocket (c : TcpConnection) | UdpSock (u : UdpSocket).

(** The map from handles, in handle order: handles only grow, so insertion appends. *)
Record SocketTable : Type := mkSockets { sockets : list (Z * Socket); next_handle : Z }.

Definition SocketTable_new : SocketTable := mkSockets [] 1.

Definition create_tcp (addr : list Z) (port : Z) (t : SocketTable) : Z * SocketTable :=
  let handle := next_handle t in
  (handle, mkSockets (sockets t ++ [(handle, TcpSocket (TcpConnection_new addr port))]) (next_handle t +[64] 1)).

Fixpoint deliver_tcp_list (s : TcpSegment) (l : list (Z * Socket)) : list (Z * Socket) :=
  match l with
  | [] => []
  | (h, TcpSocket c) :: r =>
      if local_port c =? tcp_dst_port s then (h, TcpSocket (handle_segment s c)) :: r
      else (h, TcpSocket c) :: deliver_tcp_list s r
  | x :: r => x :: deliver_tcp_list s r
  end.
Definition deliver_tcp (s : TcpSegment) (t : SocketTable) : SocketTable :=
  mkSockets (deliver_tcp_list s (sockets t)) (next_handle t).

Fixpoint deliver_udp_list (src : list Z) (d : UdpDatagram) (l : list (Z * Socket)) : list (Z * Socket) :=
  match l with
  | [] => []
  | (h, UdpSock u) :: r =>
      if u_local_port u =? udp_dst_port d
      then (h, UdpSock (mkUdpSocket (u_local_addr u) (u_local_port u)
                 (recv_queue u ++ [(src, udp_src_port d, udp_payload d)]))) :: r
      else (h, UdpSock u) :: deliver_udp_list src d r
  | x :: r => x :: deliver_udp_list src d r
  end.
Definition deliver_udp (src : list Z) (d : UdpDatagram) (t : SocketTable) : SocketTable :=
  mkSockets (deliver_udp_list src d (sockets t)) (next_handle t).

(** ** Devices and the stack *)

Inductive NetError : Type := NoDevice | NotInitialized | DeviceError (code : Z).

Class NetworkDevice (D : Type) : Type := {
  mac_address : D -> list Z;
  dev_send : list Z -> D -> Result unit NetError * D;
  dev_receive : D -> option (list Z) * D;
}.

Record IpConfig : Type := mkConfig { address : list Z; netmask : list Z; gateway : list Z }.
Definition IpConfig_default : IpConfig := mkConfig [10; 0; 2; 15] [255; 255; 255; 0] [10; 0; 2; 2].

Record NetworkStack (D : Type) : Type := mkStack {
  devices : list D; arp_cache : ArpCache; socket_table : SocketTable; ip_config : IpConfig }.
Arguments mkStack {D} _ _ _ _.
Arguments devices {D} _.
Arguments arp_cache {D} _.
Arguments socket_table {D} _.
Arguments ip_config {D} _.

Section Stack.
Context {D : Type} `{ND : NetworkDevice D}.

Definition NetworkStack_new : NetworkStack D := mkStack [] ∅ SocketTable_new IpConfig_default.
Definition add_device (d : D) (s : NetworkStack D) : NetworkStack D :=
  mkStack (devices s ++ [d]) (arp_cache s) (socket_table s) (ip_config s).
Definition set_ip_config (c : IpConfig) (s : NetworkStack D) : NetworkStack D :=
  mkStack (devices s) (arp_cache s) (socket_table s) c.

Definition send_packet (packet : list Z) (s : NetworkStack D) : Result unit NetError * NetworkStack D :=
  match devices s with
  | d :: r =>
      let (res, d') := dev_send packet d in
      (res, mkStack (d' :: r) (arp_cache s) (socket_table s) (ip_config s))
  | [] => (Err NoDevice, s)
  end.

Definition get_mac_address (s : NetworkStack D) : list Z :=
  match devices s with d :: _ => mac_address d | [] => [0; 0; 0; 0; 0; 0] end.

(** The frame [send_arp_reply] sends. *)
Definition arp_reply_frame (request : ArpPacket) (s : NetworkStack D) : list Z :=
  let reply := arp_new_reply (get_mac_address s) (address (ip_config s))
                 (sender_hw_addr request) (sender_proto_addr request) in
  eth_to_bytes (mkFrame (sender_hw_addr request) (get_mac_address s) ETHERTYPE_ARP (arp_to_bytes reply)).

Definition send_arp_reply (request : ArpPacket) (s : NetworkStack D) : NetworkStack D :=
  (send_packet (arp_reply_frame request s) s).2.

Definition handle_arp_packet (payload : list Z) (s : NetworkStack D) : NetworkStack D :=
  match arp_parse payload with
  | None => s
  | Some p =>
      if operation p =? ARP_REQUEST then
        if bool_decide (target_proto_addr p = address (ip_config s)) then send_arp_reply p s else s
      else if operation p =? ARP_REPLY then
        mkStack (devices s) (arp_insert (sender_proto_addr p) (sender_hw_addr p) (arp_cache s))
          (socket_table s) (ip_config s)
      else s
  end.

(** The payload of an echo reply: type 0 and a recomputed checksum. *)
Definition echo_reply_payload (request : list Z) : list Z :=
  let zeroed := <[3%nat := 0]> (<[2%nat := 0]> (<[0%nat := 0]> request)) in
  let checksum := calculate_checksum zeroed in
  <[3%nat := checksum mod 256]> (<[2%nat := Z.shiftr checksum 8 mod 256]> zeroed).

Definition icmp_reply_frame (request : Ipv4Packet) (mac : list Z) (s : NetworkStack D) : list Z :=
  let ip_reply := ip_new (address (ip_config s)) (src_addr request) PROTOCOL_ICMP (echo_reply_payload (ip_payload request)) in
  eth_to_bytes (mkFrame mac (get_mac_address s) ETHERTYPE_IPV4 (ip_to_bytes ip_reply)).

Definition send_icmp_reply (request : Ipv4Packet) (s : NetworkStack D) : NetworkStack D :=
  match arp_lookup (src_addr request) (arp_cache s) with
  | Some mac => (send_packet (icmp_reply_frame request mac s) s).2
  | None => s
  end.

Definition handle_icmp_packet (p : Ipv4Packet) (s : NetworkStack D) : NetworkStack D :=
  if (8 <=? length (ip_payload p))%nat && (at_ (ip_payload p) 0 =? 8) then send_icmp_reply p s else s.

Definition with_sockets (t : SocketTable) (s : NetworkStack D) : NetworkStack D :=
  mkStack (devices s) (arp_cache s) t (ip_config s).

Definition handle_tcp_packet (p : Ipv4Packet) (s : NetworkStack D) : NetworkStack D :=
  match tcp_parse (ip_payload p) with
  | Some seg => with_sockets (deliver_tcp seg (socket_table s)) s
  | None => s
  end.

Definition handle_udp_packet (p : Ipv4Packet) (s : NetworkStack D) : option (NetworkStack D) :=
  match udp_parse (ip_payload p) with
  | Accepted d => Some (with_sockets (deliver_udp (src_addr p) d (socket_table s)) s)
  | Rejected => Some s
  | Panicked => None
  end.

Definition handle_ip_packet (payload : list Z) (s : NetworkStack D) : option (NetworkStack D) :=
  match ip_parse payload with
  | None => Some s
  | Some p =>
      if bool_decide (dst_addr p <> address (ip_config s)) then Some s
      else if protocol p =? PROTOCOL_ICMP then Some (handle_icmp_packet p s)
      else if protocol p =? PROTOCOL_TCP then Some (handle_tcp_packet p s)
      else if protocol p =? PROTOCOL_UDP then handle_udp_packet p s
      else Some s
  end.

Definition process_packet (packet : list Z) (s : NetworkStack D) : option (NetworkStack D) :=
  match eth_parse packet with
  | None => Some s
  | Some f =>
      if ethertype f =? ETHERTYPE_ARP then Some (handle_arp_packet (eth_payload f) s)
      else if ethertype f =? ETHERTYPE_IPV4 then handle_ip_packet (eth_payload f) s
      else Some s
  end.

(** [poll]: drain every device (fuel bounds the packets one device delivers), then
    process what was collected. *)
Fixpoint drain (fuel : nat) (d : D) : option (list (list Z) * D) :=
  match fuel with
  | O => None
  | S f =>
      match dev_receive d with
      | (Some p, d') => match drain f d' with Some (ps, d2) => Some (p :: ps, d2) | None => None end
      | (None, d') => Some ([], d')
      end
  end.

Fixpoint drain_all (fuel : nat) (ds : list D) : option (list (list Z) * list D) :=
  match ds with
  | [] => Some ([], [])
  | d :: r =>
      match drain fuel d with
      | Some (ps, d') =>
          match drain_all fuel r with Some (qs, r') => Some (ps ++ qs, d' :: r') | None => None end
      | None => None
      end
  end.

Fixpoint process_all (ps : list (list Z)) (s : NetworkStack D) : option (NetworkStack D) :=
  match ps with
  | [] => Some s
  | p :: r => match process_packet p s with Some s' => process_all r s' | None => None end
  end.

Definition poll (fuel : nat) (s : NetworkStack D) : option (NetworkStack D) :=
  match drain_all fuel (devices s) with
  | Some (ps, ds) => process_all ps (mkStack ds (arp_cache s) (socket_table s) (ip_config s))
  | None => None
  end.

End Stack.

(** ** A device with queues *)

Record QueueDevice : Type := mkQueueDevice { qd_mac : list Z; rx : list (list Z); tx : list (list Z) }.

#[global] Instance QueueDevice_net : NetworkDevice QueueDevice := {
  mac_address := qd_mac;
  dev_send p d := (Ok tt, mkQueueDevice (qd_mac d) (rx d) (tx d ++ [p]));
  dev_receive d := (head (rx d), mkQueueDevice (qd_mac d) (tail (rx d)) (tx d));
}.

(** ** Answering ARP *)

Lemma arp_padding a : arp_ok a -> forall n, arp_parse (arp_to_bytes a ++ replicate n 0) = Some a.
Proof. intros Ha n. by apply arp_roundtrip. Qed.

Section Answers.
Context {D : Type} `{ND : NetworkDevice D}.

Definition stack_ok (s : NetworkStack D) : Prop :=
  length (address (ip_config s)) = 4%nat /\ bytes (address (ip_config s)) /\ length (get_mac_address s) = 6%nat /\
  (forall ip mac, arp_lookup ip (arp_cache s) = Some mac -> length mac = 6%nat).

(** ARP works.  A request for our address that arrives in a frame makes the
    stack send exactly one frame through its first device; that frame parses as an
    ARP reply from our addresses to the requester and nothing else changes.  A
    request for another address sends nothing, and a reply is entered in the
    cache, where it is found for its address. *)
Theorem arp_answered d r f a s : devices s = d :: r -> stack_ok s -> eth_ok f -> arp_ok a ->
  ethertype f = ETHERTYPE_ARP -> eth_payload f = arp_to_bytes a ->
  (operation a = ARP_REQUEST -> target_proto_addr a = address (ip_config s) ->
   exists frame, process_packet (eth_to_bytes f) s =
       Some (mkStack ((dev_send frame d).2 :: r) (arp_cache s) (socket_table s) (ip_config s)) /\
     exists e, eth_parse frame = Some e /\ dst_mac e = sender_hw_addr a /\ src_mac e = mac_address d /\
       ethertype e = ETHERTYPE_ARP /\
       arp_parse (eth_payload e) = Some (arp_new_reply (mac_address d) (address (ip_config s))
                                           (sender_hw_addr a) (sender_proto_addr a))) /\
  (operation a = ARP_REQUEST -> target_proto_addr a <> address (ip_config s) ->
   process_packet (eth_to_bytes f) s = Some s) /\
  (operation a = ARP_REPLY -> exists s', process_packet (eth_to_bytes f) s = Some s' /\
     arp_lookup (sender_proto_addr a) (arp_cache s') = Some (sender_hw_addr a)).
Proof.
  intros Hd (Ha1 & _ & Hm & _) Hf Ha Ht Hp. unfold process_packet. rewrite eth_roundtrip by done.
  cbn [ethertype eth_payload]. rewrite Ht, Hp. cbn [Z.eqb]. change (ETHERTYPE_ARP =? ETHERTYPE_ARP) with true.
  cbv iota. unfold handle_arp_packet. rewrite arp_padding by done.
  pose proof Ha as (_ & _ & _ & L1 & L2 & L3 & L4).
  assert (get_mac_address s = mac_address d) as Hmac by (unfold get_mac_address; by rewrite Hd).
  split; [|split].
  - intros Ho Htgt. rewrite Ho, Htgt. change (ARP_REQUEST =? ARP_REQUEST) with true. cbv iota.
    rewrite bool_decide_eq_true_2 by done. unfold send_arp_reply, send_packet. rewrite Hd.
    exists (arp_reply_frame a s). split; [by destruct (dev_send _ _)|].
    unfold arp_reply_frame. rewrite eth_roundtrip by (split; [done|]; split; [done|by vm_compute]).
    cbn [dst_mac src_mac ethertype eth_payload].
    eexists. split; [reflexivity|]. cbn [dst_mac src_mac ethertype eth_payload].
    split; [done|]. split; [done|]. split; [done|]. rewrite arp_padding; [by rewrite Hmac|].
    repeat split; (done || by vm_compute).
  - intros Ho Htgt. rewrite Ho. change (ARP_REQUEST =? ARP_REQUEST) with true. cbv iota.
    by rewrite bool_decide_eq_false_2.
  - intros Ho. rewrite Ho. change (ARP_REPLY =? ARP_REQUEST) with false.
    change (ARP_REPLY =? ARP_REPLY) with true. cbv iota. eexists. split; [reflexivity|].
    cbn [arp_cache]. apply (lookup_insert_eq (M:=gmap Z)).
Qed.

(** ** Answering pings *)

Lemma echo_reply_split a b c e l : echo_reply_payload (a :: b :: c :: e :: l) =
  let ck := calculate_checksum ([0; b] ++ [0; 0] ++ l) in
  [0; b] ++ [Z.shiftr ck 8 mod 256; ck mod 256] ++ l.
Proof. reflexivity. Qed.

(** Pings are answered.  An echo request for our address from a host in the
    ARP cache makes the stack send one frame that parses as an IPv4 packet from us
    to the requester, whose ICMP payload is the request's with type 0 and a valid
    checksum, followed by nothing but frame padding; without a cache entry nothing
    is sent. *)
Theorem echo_request_answered d r q s : devices s = d :: r -> stack_ok s ->
  length (src_addr q) = 4%nat -> bytes (src_addr q) -> bytes (ip_payload q) ->
  (8 <= length (ip_payload q))%nat -> at_ (ip_payload q) 0 = 8 ->
  (arp_lookup (src_addr q) (arp_cache s) = None -> handle_icmp_packet q s = s) /\
  (forall mac, arp_lookup (src_addr q) (arp_cache s) = Some mac ->
   exists frame, handle_icmp_packet q s =
       mkStack ((dev_send frame d).2 :: r) (arp_cache s) (socket_table s) (ip_config s) /\
     exists e p, eth_parse frame = Some e /\ dst_mac e = mac /\ ip_parse (eth_payload e) = Some p /\
       src_addr p = address (ip_config s) /\ dst_addr p = src_addr q /\ protocol p = PROTOCOL_ICMP /\
       exists n reply, ip_payload p = reply ++ replicate n 0 /\ calculate_checksum reply = 0 /\
         at_ reply 0 = 0 /\ length reply = length (ip_payload q) /\
         forall i, (i = 1 \/ 4 <= i)%nat -> at_ reply i = at_ (ip_payload q) i).
Proof.
  intros Hd (Ha1 & Ha2 & Hm & Hc) Hs1 Hs2 Hb Hl H8. unfold handle_icmp_packet.
  assert ((8 <=? length (ip_payload q))%nat = true) as -> by (by apply Nat.leb_le). rewrite H8. cbn [andb Z.eqb].
  change (8 =? 8) with true. unfold send_icmp_reply. split; [by intros ->|]. intros mac Hmac. rewrite Hmac.
  unfold send_packet. rewrite Hd. exists (icmp_reply_frame q mac s). split; [by destruct (dev_send _ _)|].
  unfold icmp_reply_frame. set (reply := echo_reply_payload (ip_payload q)).
  set (p := ip_new _ _ _ reply).
  rewrite eth_roundtrip by (split; [by eapply Hc|]; split; [done|by vm_compute]).
  assert (ip_ok p) as Hp.
  { unfold ip_ok, p, ip_new. cbn [version ihl dscp ecn total_length identification ip_flags fragment_offset ttl protocol src_addr dst_addr].
    split; [done|]. split; [done|]. do 2 (split; [by vm_compute|]).
    split; [apply Z.mod_pos_bound; lia|]. do 5 (split; [by vm_compute|]). done. }
  cbn [eth_payload]. pose proof (ip_roundtrip p Hp) as Hip.
  destruct (ip_parse_app _ (replicate (46 - length (ip_to_bytes p)) 0) _ Hip) as (p' & H1 & H2 & H3 & H4 & H5 & H6).
  eexists _, p'. split; [reflexivity|]. cbn [dst_mac eth_payload]. split; [done|]. split; [exact H1|].
  rewrite H4, H5, H6, H2. cbn [src_addr dst_addr protocol ip_payload p ip_new]. split; [done|]. split; [done|]. split; [done|].
  exists (46 - length (ip_to_bytes p))%nat, reply. split; [done|]. unfold reply.
  destruct (ip_payload q) as [|a [|b [|c [|e l]]]]; cbn [length] in Hl; [lia..|].
  rewrite echo_reply_split. cbn zeta. set (ck := calculate_checksum _).
  split; [|split; [done|split; [done|]]].
  - apply checksum_patch; [| |by exists 1%nat].
    + apply Forall_cons in Hb as [_ [Hb _]%Forall_cons]. apply Forall_cons. split; [by vm_compute|].
      apply Forall_cons. by split.
    + by do 4 apply Forall_cons in Hb as [_ Hb].
  - intros [|[|[|[|i]]]] Hi; [lia|done|lia|lia|done].
Qed.

End Answers.

(** ** Examples *)

Definition our_ip : list Z := [10; 0; 2; 15].
Definition our_mac : list Z := [0x52; 0x54; 0; 0x12; 0x34; 0x56].
Definition peer_ip : list Z := [10; 0; 2; 2].
Definition peer_mac : list Z := [2; 2; 2; 2; 2; 2].

Definition demo_stack : NetworkStack QueueDevice :=
  mkStack [mkQueueDevice our_mac [] []] (arp_insert peer_ip peer_mac ∅) SocketTable_new IpConfig_default.

(** A datagram of 8 bytes with a length field of 7, in IPv4, in Ethernet. *)
Definition bad_udp_frame : list Z :=
  eth_to_bytes (mkFrame our_mac peer_mac ETHERTYPE_IPV4
    (ip_to_bytes (ip_new peer_ip our_ip PROTOCOL_UDP [0; 53; 0; 53; 0; 7; 0; 0]))).

(** One packet stops the kernel: a well-formed frame to our address with a UDP
    length field of 7 makes [process_packet] panic, and with it [poll]. *)
Theorem remote_packet_panics :
  process_packet bad_udp_frame demo_stack = None /\
  poll 2 (mkStack [mkQueueDevice our_mac [bad_udp_frame] []] ∅ SocketTable_new IpConfig_default) = None.
Proof. split; vm_compute; reflexivity. Qed.

Lemma demo_stack_ok : stack_ok demo_stack.
Proof.
  split; [done|]. split; [by (repeat constructor; vm_compute)|]. split; [done|].
  intros ip mac H. change (({[ip_to_u32 peer_ip := peer_mac]} : gmap Z (list Z)) !! ip_to_u32 ip = Some mac) in H.
  by apply lookup_singleton_Some in H as [_ <-].
Qed.

Definition arp_demo : ArpPacket := arp_new_request peer_mac peer_ip our_ip.

Lemma arp_answered_witness :
  exists frame, process_packet (eth_to_bytes (mkFrame mac_broadcast peer_mac ETHERTYPE_ARP (arp_to_bytes arp_demo))) demo_stack =
    Some (mkStack [mkQueueDevice our_mac [] [frame]] (arp_cache demo_stack) SocketTable_new IpConfig_default).
Proof.
  destruct (arp_answered (mkQueueDevice our_mac [] []) [] (mkFrame mac_broadcast peer_mac ETHERTYPE_ARP (arp_to_bytes arp_demo))
    arp_demo demo_stack eq_refl demo_stack_ok) as (H & _ & _).
  - split; [done|]. split; [done|by vm_compute].
  - repeat split; (done || by vm_compute).
  - done.
  - done.
  - destruct (H eq_refl eq_refl) as (frame & Hp & _). exists frame. exact Hp.
Defined.

Lemma echo_request_answered_witness :
  exists frame, handle_icmp_packet (ip_new peer_ip our_ip PROTOCOL_ICMP [8; 0; 0; 0; 0; 1; 0; 1]) demo_stack =
    mkStack [mkQueueDevice our_mac [] [frame]] (arp_cache demo_stack) SocketTable_new IpConfig_default.
Proof.
  destruct (echo_request_answered (mkQueueDevice our_mac [] []) []
    (ip_new peer_ip our_ip PROTOCOL_ICMP [8; 0; 0; 0; 0; 1; 0; 1]) demo_stack eq_refl demo_stack_ok) as [_ H].
  - done.
  - by (repeat constructor; vm_compute).
  - by (repeat constructor; vm_compute).
  - cbn. lia.
  - done.
  - destruct (H peer_mac) as (frame & Hf & _); [by vm_compute|]. exists frame. exact Hf.
Defined.
