(* ===== verification/Text.v ===== *)
(** * Strings

    Rust's string slices as lists of characters, with the splitting operations of
    the standard library that the kernel's parsers use. *)

From Stdlib Require Import ZArith Lia Bool Ascii String.
From stdpp Require Import base numbers option list strings.
From S2P Require Import Prelude.

Definition str : Type := list ascii.

(** A string literal. *)
Definition lit (s : string) : str := list_ascii_of_string s.

(** [s.split(c)]: the pieces between the separators, at least one. *)
Fixpoint split_on (c : ascii) (s : str) : list str :=
  match s with
  | [] => [[]]
  | x :: r =>
      if bool_decide (x = c) then [] :: split_on c r
      else match split_on c r with
           | p :: ps => (x :: p) :: ps
           | [] => [[x]]
           end
  end.

(** [s.splitn(2, c)]: the text before the first separator and the rest after it. *)
Fixpoint split_once (c : ascii) (s : str) : str * option str :=
  match s with
  | [] => ([], None)
  | x :: r =>
      if bool_decide (x = c) then ([], Some r)
      else let '(a, b) := split_once c r in (x :: a, b)
  end.

(** Pieces joined by a separator. *)
Fixpoint join (c : ascii) (ps : list str) : str :=
  match ps with
  | [] => []
  | [p] => p
  | p :: r => p ++ c :: join c r
  end.

Fixpoint starts_with (prefix s : str) : bool :=
  match prefix, s with
  | [], _ => true
  | x :: p, y :: r => bool_decide (x = y) && starts_with p r
  | _ :: _, [] => false
  end.

Lemma split_on_nonempty c s : split_on c s <> [].
Proof. destruct s as [|x r]; simpl; [done|]. case_bool_decide; [done|]. by destruct (split_on c r). Qed.

Lemma split_on_piece c p s : c ∉ p -> split_on c (p ++ c :: s) = p :: split_on c s.
Proof.
  induction p as [|x p IH]; intros Hn; simpl.
  - by rewrite bool_decide_eq_true_2.
  - apply not_elem_of_cons in Hn as [Hx Hn]. rewrite bool_decide_eq_false_2 by done. by rewrite IH.
Qed.

Lemma split_on_none c p : c ∉ p -> split_on c p = [p].
Proof.
  induction p as [|x p IH]; intros Hn; simpl; [done|].
  apply not_elem_of_cons in Hn as [Hx Hn]. rewrite bool_decide_eq_false_2 by done. by rewrite IH.
Qed.

Lemma split_join c ps : ps <> [] -> Forall (fun p => c ∉ p) ps -> split_on c (join c ps) = ps.
Proof.
  induction ps as [|p ps IH]; [done|]. intros _ H. apply Forall_cons in H as [Hp Hps].
  destruct ps as [|q ps]; [by apply split_on_none|].
  change (join c (p :: q :: ps)) with (p ++ c :: join c (q :: ps)).
  rewrite split_on_piece by done. by rewrite IH.
Qed.

Lemma split_once_some c a b : c ∉ a -> split_once c (a ++ c :: b) = (a, Some b).
Proof.
  induction a as [|x a IH]; intros Hn; simpl.
  - by rewrite bool_decide_eq_true_2.
  - apply not_elem_of_cons in Hn as [Hx Hn]. rewrite bool_decide_eq_false_2 by done. by rewrite IH.
Qed.

Lemma split_once_none c a : c ∉ a -> split_once c a = (a, None).
Proof.
  induction a as [|x a IH]; intros Hn; simpl; [done|].
  apply not_elem_of_cons in Hn as [Hx Hn]. rewrite bool_decide_eq_false_2 by done. by rewrite IH.
Qed.

Lemma split_on_no_sep c s : Forall (fun p => c ∉ p) (split_on c s).
Proof.
  induction s as [|x r IH]; simpl; [apply Forall_singleton, not_elem_of_nil|].
  case_bool_decide as Hx; [apply Forall_cons; split; [apply not_elem_of_nil|done]|].
  destruct (split_on c r) as [|p ps] eqn:E; [by apply split_on_nonempty in E|].
  apply Forall_cons in IH as [Hp Hps]. apply Forall_cons. split; [|done].
  apply not_elem_of_cons. by split.
Qed.

Lemma starts_with_spec p s : starts_with p s = true <-> exists r, s = p ++ r.
Proof.
  revert s. induction p as [|x p IH]; intros s; simpl.
  - split; [by exists s|done].
  - destruct s as [|y s]; [split; [done|by intros [r ?]]|].
    rewrite andb_true_iff, bool_decide_eq_true, IH. split.
    + intros [-> [r ->]]. by exists r.
    + intros [r [= -> ->]]. eauto.
Qed.
