(* ===== verification/Auth.v ===== *)
(** * Accounts and login ([auth/])

    Users with hashed passwords, sessions, and the login screen over the characters
    that are typed.  Theorems: the login screen lets in exactly who types a name and
    password of the database within three tries, whatever else is typed; and two
    passwords of at most nineteen characters never have the same hash. *)

From Stdlib Require Import ZArith Lia Bool.
From stdpp Require Import base numbers option list.
From S2P Require Import Prelude.

Open Scope Z_scope.

(** ** Users ([users.rs])

    Strings are the bytes they are made of. *)

Notation str := (list Z).

(** [u8::rotate_left]. *)
Definition rotl8 (k x : Z) : Z := wrap 8 (Z.lor (Z.shiftl x k) (Z.shiftr x (8 - k))).

Definition at_ (h : list Z) (i : nat) : Z := default 0 (h !! (i mod 32)%nat).
Definition put (h : list Z) (i : nat) (x : Z) : list Z := <[(i mod 32)%nat := x]> h.

(** One byte of the password. *)
Definition absorb (h : list Z) (i : nat) (byte : Z) : list Z :=
  let h := put h i (Z.lxor (at_ h i) byte) in
  let h := put h (i + 7) (at_ h (i + 7) +[8] byte) in
  put h (i + 13) (rotl8 3 (at_ h (i + 13))).

Fixpoint absorb_all (h : list Z) (i : nat) (bytes : str) : list Z :=
  match bytes with [] => h | b :: bytes => absorb_all (absorb h i b) (S i) bytes end.

Definition mix_round (h : list Z) : list Z :=
  foldl (fun h i => put h i (at_ h i +[8] rotl8 5 (at_ h (i + 1)))) h (seq 0 32).

Definition hash_password (password : str) : list Z := Nat.iter 64 mix_round (absorb_all (replicate 32 0) 0 password).

Record User : Type := mkUser { uid : Z; username : str; password_hash : list Z; groups : list Z; home_dir : str }.

Definition slash_root : str := [47; 114; 111; 111; 116].
Definition slash_home : str := [47; 104; 111; 109; 101; 47].

Definition User_new (uid : Z) (username password : str) : User :=
  mkUser uid username (hash_password password) [] (if uid =? 0 then slash_root else slash_home ++ username).

Definition User_is_root (u : User) : bool := uid u =? 0.
Definition verify_password (u : User) (password : str) : bool := bool_decide (password_hash u = hash_password password).

Definition UserDatabase : Type := list User.

Definition push_group (g : Z) (u : User) : User := mkUser (uid u) (username u) (password_hash u) (groups u ++ [g]) (home_dir u).

Definition root_name : str := [114; 111; 111; 116].
Definition root_password : str := [97; 115; 116; 114; 97; 108].
Definition user_name : str := [117; 115; 101; 114].
Definition user_password : str := [112; 97; 115; 115; 119; 111; 114; 100].

Definition init (db : UserDatabase) : UserDatabase :=
  let root := push_group 0 (User_new 0 root_name root_password) in
  let user := push_group 1000 (User_new 1000 user_name user_password) in
  db ++ [root; user].

Definition matches (name password : str) (u : User) : bool := bool_decide (username u = name) && verify_password u password.

Definition authenticate (name password : str) (db : UserDatabase) : option User := List.find (matches name password) db.

Definition get_user (name : str) (db : UserDatabase) : option User := List.find (fun u => bool_decide (username u = name)) db.

(** ** Sessions ([session.rs]) *)

Record Session : Type := mkSession { user : option User; logged_in : bool }.

Definition Session_new : Session := mkSession None false.
Definition login (u : User) (s : Session) : Session := mkSession (Some u) true.
Definition logout (s : Session) : Session := mkSession None false.
Definition is_root (s : Session) : bool := match user s with Some u => User_is_root u | None => false end.
Definition session_username (s : Session) : str := match user s with Some u => username u | None => [103; 117; 101; 115; 116] end.

(** ** The login screen ([login.rs]) *)

Definition MAX_ATTEMPTS : Z := 3.

Definition is_ascii_graphic (c : Z) : bool := (0x21 <=? c) && (c <=? 0x7E).

(** A line from the characters that are typed, and the characters after it;
    [None] while no line has been ended. *)
Fixpoint read_until (accepted : Z -> bool) (buffer : str) (input : list Z) : option (str * list Z) :=
  match input with
  | [] => None
  | ch :: input =>
      if (ch =? 10) || (ch =? 13) then Some (buffer, input)
      else if ch =? 8 then read_until accepted (List.removelast buffer) input
      else if accepted ch then read_until accepted (buffer ++ [ch]) input
      else read_until accepted buffer input
  end.

Definition read_line : list Z -> option (str * list Z) := read_until (fun c => is_ascii_graphic c || (c =? 32)) [].
Definition read_password : list Z -> option (str * list Z) := read_until is_ascii_graphic [].

(** The screen ends with a session or a locked machine, or waits for more. *)
Inductive LoginScreen : Type :=
| LoggedIn (s : Session) (rest : list Z)
| Locked
| Waiting.

(** [None] when the rounds of [fuel] were not enough. *)
Fixpoint login_loop (fuel : nat) (db : UserDatabase) (session : Session) (attempts : Z) (input : list Z) : option LoginScreen :=
  match fuel with
  | O => None
  | S fuel =>
      match read_line input with
      | None => Some Waiting
      | Some ([], input) => login_loop fuel db session attempts input
      | Some (name, input) =>
          match read_password input with
          | None => Some Waiting
          | Some (password, input) =>
              match authenticate name password db with
              | Some u => Some (LoggedIn (login u session) input)
              | None =>
                  let attempts := attempts +[32] 1 in
                  if MAX_ATTEMPTS <=? attempts then Some Locked else login_loop fuel db session attempts input
              end
          end
      end
  end.

(** Every round takes at least one character. *)
Definition show_login (db : UserDatabase) (session : Session) (input : list Z) : option LoginScreen :=
  login_loop (S (length input)) db session 0 input.

(** ** Who gets in *)

(** The names and passwords that are entered, empty names aside. *)
Inductive entered : list Z -> list (str * str) -> Prop :=
| entered_none input : read_line input = None -> entered input []
| entered_blank input rest l : read_line input = Some ([], rest) -> entered rest l -> entered input l
| entered_half input name rest : read_line input = Some (name, rest) -> name <> [] -> read_password rest = None -> entered input []
| entered_try input name rest password rest' l : read_line input = Some (name, rest) -> name <> [] ->
    read_password rest = Some (password, rest') -> entered rest' l -> entered input ((name, password) :: l).

Lemma read_until_shorter accepted input : forall buffer line rest, read_until accepted buffer input = Some (line, rest) ->
  (length rest < length input)%nat.
Proof.
  induction input as [|ch input IH]; intros buffer line rest; cbn [read_until length]; [done|].
  destruct (_ || _); [intros [= _ <-]; lia|]. destruct (ch =? 8); [intros H%IH; lia|]. destruct (accepted ch); intros H%IH; lia.
Qed.

Lemma entered_total input : exists l, entered input l.
Proof.
  remember (length input) as n eqn:Hn. revert input Hn. induction n as [n IH] using lt_wf_ind. intros input ->.
  destruct (read_line input) as [[[|c name] rest]|] eqn:E1.
  - destruct (IH (length rest) (read_until_shorter _ _ _ _ _ E1) rest eq_refl) as [l Hl]. exists l. by apply (entered_blank _ rest).
  - destruct (read_password rest) as [[password rest']|] eqn:E2; [|exists []; by apply (entered_half _ (c :: name) rest)].
    pose proof (read_until_shorter _ _ _ _ _ E1). pose proof (read_until_shorter _ _ _ _ _ E2).
    destruct (IH (length rest') ltac:(lia) rest' eq_refl) as [l Hl]. exists ((c :: name, password) :: l). by apply (entered_try _ _ rest password rest').
  - exists []. by apply entered_none.
Qed.

(** The users that a list of names and passwords stands for. *)
Definition granted (db : UserDatabase) (l : list (str * str)) : list User := omap (fun e => authenticate e.1 e.2 db) l.

Lemma login_loop_spec db session input l : entered input l -> forall fuel attempts, (length input < fuel)%nat -> 0 <= attempts < MAX_ATTEMPTS ->
  match head (granted db (take (Z.to_nat (MAX_ATTEMPTS - attempts)) l)) with
  | Some u => exists rest, login_loop fuel db session attempts input = Some (LoggedIn (login u session) rest)
  | None => login_loop fuel db session attempts input =
              Some (if MAX_ATTEMPTS - attempts <=? Z.of_nat (length l) then Locked else Waiting)
  end.
Proof.
  unfold MAX_ATTEMPTS. induction 1 as [input E|input rest l E _ IH|input name rest E Hn E2|input name rest password rest' l E Hn E2 _ IH];
    intros [|fuel] attempts Hf Ha; try lia; cbn [login_loop]; rewrite E.
  - rewrite take_nil. cbn. by rewrite (proj2 (Z.leb_gt _ _)) by lia.
  - apply IH; [|done]. pose proof (read_until_shorter _ _ _ _ _ E). lia.
  - destruct name; [done|]. rewrite E2, take_nil. cbn. by rewrite (proj2 (Z.leb_gt _ _)) by lia.
  - destruct name as [|c name]; [done|]. rewrite E2. replace (Z.to_nat (3 - attempts)) with (S (Z.to_nat (2 - attempts))) by lia.
    cbn [take]. unfold granted. cbn [omap list_omap fst snd]. destruct (authenticate (c :: name) password db) as [u|]; [by exists rest'|].
    rewrite wrap_small by (unfold in_width; lia). unfold MAX_ATTEMPTS. cbn [length].
    pose proof (read_until_shorter _ _ _ _ _ E). pose proof (read_until_shorter _ _ _ _ _ E2).
    destruct (Z.leb_spec 3 (attempts + 1)) as [H3|H3].
    + replace (Z.to_nat (2 - attempts)) with 0%nat by lia. cbn [take omap list_omap head]. by rewrite (proj2 (Z.leb_le _ _)) by lia.
    + specialize (IH fuel (attempts + 1) ltac:(lia) ltac:(lia)). replace (3 - (attempts + 1)) with (2 - attempts) in IH by lia. unfold granted in IH.
      destruct (head _) as [u|]; [done|]. rewrite IH. destruct (Z.leb_spec (2 - attempts) (Z.of_nat (length l))), (Z.leb_spec (3 - attempts) (Z.of_nat (S (length l)))); lia || done.
Qed.

(** The login screen always answers.  It gives a session to the first of the first
    three entries - lines that are not empty, with the password after them - whose
    name and password belong to a user, and to nobody else; after three entries
    without one the machine is locked, and before that it waits. *)
Theorem login_correct db session input l : entered input l ->
  match head (granted db (take 3 l)) with
  | Some u => u ∈ db /\ exists rest, show_login db session input = Some (LoggedIn (mkSession (Some u) true) rest)
  | None => show_login db session input = Some (if (3 <=? length l)%nat then Locked else Waiting)
  end.
Proof.
  intros Hl. pose proof (login_loop_spec db session input l Hl (S (length input)) 0 ltac:(lia) ltac:(unfold MAX_ATTEMPTS; lia)) as H.
  change (Z.to_nat (MAX_ATTEMPTS - 0)) with 3%nat in H. change (MAX_ATTEMPTS - 0) with 3 in H. fold (show_login db session input) in H.
  destruct (head (granted db (take 3 l))) as [u|] eqn:E.
  - split; [|exact H]. apply head_Some_elem_of in E. unfold granted in E. apply list_elem_of_omap in E as (e & _ & He).
    apply List.find_some in He as [He _]. by apply list_elem_of_In.
  - rewrite H. destruct (Z.leb_spec 3 (Z.of_nat (length l))), (Nat.leb_spec 3 (length l)); lia || done.
Qed.

(** ** The hash *)

Definition bytes (h : list Z) : Prop := Forall (in_width 8) h /\ length h = 32%nat.

Lemma at_lt h i : (i < 32)%nat -> at_ h i = default 0 (h !! i).
Proof. intros Hi. unfold at_. by rewrite Nat.mod_small. Qed.

Lemma put_lt h i x : (i < 32)%nat -> put h i x = <[i := x]> h.
Proof. intros Hi. unfold put. by rewrite Nat.mod_small. Qed.

Lemma at_put h i j x : length h = 32%nat -> at_ (put h i x) j = if decide (i mod 32 = j mod 32)%nat then x else at_ h j.
Proof.
  intros Hl. unfold at_, put. pose proof (Nat.mod_upper_bound i 32 ltac:(lia)). destruct (decide _) as [E|E].
  - rewrite <- E, list_lookup_insert_eq by lia. done.
  - by rewrite list_lookup_insert_ne.
Qed.

Lemma length_put h i x : length (put h i x) = length h.
Proof. apply length_insert. Qed.

Lemma at_ext h h' : length h = 32%nat -> length h' = 32%nat -> (forall j, (j < 32)%nat -> at_ h j = at_ h' j) -> h = h'.
Proof.
  intros Hl Hl' H. apply list_eq. intros j. destruct (decide (j < 32)%nat) as [Hj|Hj].
  - specialize (H j Hj). rewrite !at_lt in H by done.
    destruct (lookup_lt_is_Some_2 h j) as [x Hx]; [lia|]. destruct (lookup_lt_is_Some_2 h' j) as [y Hy]; [lia|].
    rewrite Hx, Hy in *. cbn in H. by subst.
  - by rewrite !lookup_ge_None_2 by lia.
Qed.

Lemma at_byte h i : bytes h -> in_width 8 (at_ h i).
Proof.
  intros [Hf Hl]. unfold at_. destruct (h !! (i mod 32)%nat) as [x|] eqn:E; [by eapply Forall_lookup_1|]. cbn. unfold in_width. lia.
Qed.

(** One step of a round can be undone: it adds to a byte what depends on another. *)
Definition mix_step (h : list Z) (i : nat) : list Z := put h i (at_ h i +[8] rotl8 5 (at_ h (i + 1))).

Lemma mix_step_bytes h i : bytes h -> bytes (mix_step h i).
Proof.
  intros [Hf Hl]. unfold mix_step, put. split; [|by rewrite length_insert]. apply Forall_insert; [done|]. by apply wrap_in_width.
Qed.

Lemma mix_step_inj h h' i : bytes h -> bytes h' -> (i < 32)%nat -> mix_step h i = mix_step h' i -> h = h'.
Proof.
  intros Hb Hb' Hi E. assert (forall j, at_ (mix_step h i) j = at_ (mix_step h' i) j) as Hat by (intros; by rewrite E).
  assert (forall j, (j < 32)%nat -> i <> j -> at_ h j = at_ h' j) as Hother.
  { intros j Hj Hne. specialize (Hat j). unfold mix_step in Hat. rewrite !at_put, !decide_False in Hat by (rewrite ?Nat.mod_small by lia; done || apply Hb || apply Hb'). done. }
  assert (at_ h (i + 1) = at_ h' (i + 1)) as Hnext.
  { assert (at_ h ((i + 1) mod 32) = at_ h' ((i + 1) mod 32)) as H.
    { apply Hother; [by apply Nat.mod_upper_bound|]. destruct (decide (i = 31)%nat) as [->|]; [done|]. rewrite Nat.mod_small by lia. lia. }
    unfold at_ in *. by rewrite !Nat.Div0.mod_mod in H. }
  apply at_ext; [apply Hb|apply Hb'|]. intros j Hj. destruct (decide (i = j)) as [<-|Hne]; [|by apply Hother].
  specialize (Hat i). unfold mix_step in Hat. rewrite !at_put, !decide_True in Hat by (done || apply Hb || apply Hb'). rewrite Hnext in Hat.
  pose proof (at_byte h i Hb) as H1. pose proof (at_byte h' i Hb') as H2. unfold in_width, wrap in *. set (c := rotl8 5 _) in *.
  change (2 ^ 8) with 256 in *. clear -Hat H1 H2. Z.to_euclidean_division_equations. lia.
Qed.

Lemma mix_steps_inj l : forall h h', Forall (fun i => i < 32)%nat l -> bytes h -> bytes h' -> foldl mix_step h l = foldl mix_step h' l -> h = h'.
Proof.
  induction l as [|i l IH]; intros h h' Hl Hb Hb' E; cbn [foldl] in E; [done|]. apply Forall_cons in Hl as [Hi Hl].
  apply (mix_step_inj h h' i Hb Hb' Hi). apply IH; try done; by apply mix_step_bytes.
Qed.

Lemma mix_round_inj h h' : bytes h -> bytes h' -> mix_round h = mix_round h' -> h = h'.
Proof. apply mix_steps_inj. apply Forall_forall. intros i Hi%elem_of_seq. lia. Qed.

Lemma mix_round_bytes h : bytes h -> bytes (mix_round h).
Proof.
  unfold mix_round. fold mix_step. generalize (seq 0 32). intros l. revert h. induction l as [|i l IH]; intros h Hb; cbn [foldl]; [done|].
  by apply IH, mix_step_bytes.
Qed.

Lemma mix_rounds_inj n h h' : bytes h -> bytes h' -> Nat.iter n mix_round h = Nat.iter n mix_round h' -> h = h'.
Proof.
  intros Hb Hb'. assert (forall m g, bytes g -> bytes (Nat.iter m mix_round g)) as Hit.
  { intros m g Hg. induction m as [|m IH]; cbn [Nat.iter nat_rect]; [done|]. by apply mix_round_bytes. }
  induction n as [|n IH]; cbn [Nat.iter nat_rect]; [done|]. intros E. apply IH. apply mix_round_inj; [by apply Hit|by apply Hit|done].
Qed.

(** What nineteen characters leave: each at its place, over the one seven before. *)
Definition absorbed (p : str) : list Z :=
  (fun k => Z.lxor (default 0 (p !! k)) (if (k <? 7)%nat then 0 else default 0 (p !! (k - 7)%nat))) <$> seq 0 32.

Lemma at_absorbed p k : (k < 32)%nat ->
  at_ (absorbed p) k = Z.lxor (default 0 (p !! k)) (if (k <? 7)%nat then 0 else default 0 (p !! (k - 7)%nat)).
Proof. intros Hk. rewrite at_lt by done. unfold absorbed. by rewrite list_lookup_fmap, lookup_seq_lt by done. Qed.

Lemma absorb_absorbed p b : (length p < 19)%nat -> in_width 8 b -> absorb (absorbed p) (length p) b = absorbed (p ++ [b]).
Proof.
  intros Hl Hb. set (n := length p) in *. assert (length (absorbed p) = 32%nat) as Hlen by (unfold absorbed; by rewrite length_fmap, length_seq).
  assert (forall k, (n <= k)%nat -> default 0 (p !! k) = 0) as Hnone by (intros k Hk; by rewrite lookup_ge_None_2).
  assert (forall k, default 0 ((p ++ [b]) !! k) = if decide (k = n) then b else default 0 (p !! k)) as Hsnoc.
  { intros k. destruct (decide (k = n)) as [->|Hne]; [by rewrite lookup_app_r, Nat.sub_diag by (unfold n; lia)|].
    destruct (decide (k < n)%nat); [by rewrite lookup_app_l|]. rewrite lookup_ge_None_2, Hnone by (rewrite ?length_app; cbn; lia). done. }
  unfold absorb. cbv zeta. set (h1 := put (absorbed p) n _). assert (length h1 = 32%nat) as Hl1 by (unfold h1; by rewrite length_put).
  set (h2 := put h1 (n + 7) _). assert (length h2 = 32%nat) as Hl2 by (unfold h2; by rewrite length_put).
  apply at_ext; [by rewrite length_put|unfold absorbed; by rewrite length_fmap, length_seq|]. intros k Hk.
  rewrite at_put by done. unfold h2. rewrite !at_put by done. unfold h1. rewrite !at_put by done.
  rewrite (Nat.mod_small n), (Nat.mod_small (n + 7)), (Nat.mod_small (n + 13)), (Nat.mod_small k) by lia.
  rewrite !at_absorbed by lia. rewrite !Hsnoc, !(Hnone n), !(Hnone (n + 7)%nat), !(Hnone (n + 13)%nat), !(Hnone (n + 13 - 7)%nat), !(Hnone (n + 7 - 7)%nat) by lia.
  rewrite !Z.lxor_0_l. replace (if (n + 13 <? 7)%nat then 0 else 0) with 0 by (by destruct (n + 13 <? 7)%nat).
  replace (if (n + 7 <? 7)%nat then 0 else 0) with 0 by (by destruct (n + 7 <? 7)%nat).
  rewrite !(decide_False (P := (n + 7)%nat = (n + 13)%nat)), !(decide_False (P := n = (n + 13)%nat)), !(decide_False (P := n = (n + 7)%nat)) by lia.
  destruct (decide ((n + 13)%nat = k)) as [<-|H13]; [|destruct (decide ((n + 7)%nat = k)) as [<-|H7]; [|destruct (decide (n = k)) as [<-|H0]]].
  - rewrite !decide_False by lia. rewrite !Hnone by lia. by destruct (_ <? _)%nat.
  - rewrite (decide_False (P := (n + 7)%nat = n)) by lia. rewrite Hnone by lia. destruct (Nat.ltb_spec (n + 7) 7); [lia|].
    replace (n + 7 - 7)%nat with n by lia. rewrite decide_True by done. rewrite Z.lxor_0_l. by apply wrap_small.
  - rewrite decide_True by done. destruct (Nat.ltb_spec n 7); [by rewrite Z.lxor_comm|]. rewrite decide_False by lia. by rewrite Z.lxor_comm.
  - rewrite (decide_False (P := k = n)) by lia. destruct (Nat.ltb_spec k 7); [done|]. by rewrite decide_False by lia.
Qed.

Lemma absorb_all_absorbed q : forall p, (length p + length q <= 19)%nat -> Forall (in_width 8) q ->
  absorb_all (absorbed p) (length p) q = absorbed (p ++ q).
Proof.
  induction q as [|b q IH]; intros p Hl Hq; cbn [absorb_all]; [by rewrite app_nil_r|]. apply Forall_cons in Hq as [Hb Hq]. cbn [length] in Hl.
  rewrite absorb_absorbed by (done || lia). replace (S (length p)) with (length (p ++ [b])) by (rewrite length_app; cbn; lia).
  rewrite IH; [by rewrite <- app_assoc|rewrite length_app; cbn; lia|done].
Qed.

Lemma absorbed_bytes p : Forall (in_width 8) p -> bytes (absorbed p).
Proof.
  intros Hp. split; [|unfold absorbed; by rewrite length_fmap, length_seq]. unfold absorbed. apply Forall_fmap, Forall_true. intros k. unfold compose.
  assert (forall i, in_width 8 (default 0 (p !! i))) as Hd.
  { intros i. destruct (p !! i) as [x|] eqn:E; [by eapply Forall_lookup_1|]. cbn. unfold in_width. lia. }
  apply lxor_in_width; [done|apply Hd|]. destruct (k <? 7)%nat; [unfold in_width; lia|apply Hd].
Qed.

(** Two passwords of at most nineteen characters with the same hash are the same
    password; the check of a password is then a check of the password itself. *)
Theorem hash_injective p q : (length p <= 19)%nat -> (length q <= 19)%nat -> Forall (fun b => 0 < b < 256) p -> Forall (fun b => 0 < b < 256) q ->
  hash_password p = hash_password q -> p = q.
Proof.
  intros Lp Lq Hp Hq. assert (Forall (in_width 8) p /\ Forall (in_width 8) q) as [Wp Wq].
  { split; eapply Forall_impl; [exact Hp| |exact Hq|]; unfold in_width; cbn; lia. }
  unfold hash_password. change (replicate 32 0) with (absorbed []). change 0%nat with (length (@nil Z)). rewrite !absorb_all_absorbed by (done || cbn; lia).
  cbn [app]. intros E. apply mix_rounds_inj in E; [|by apply absorbed_bytes|by apply absorbed_bytes].
  assert (forall k, (k < 32)%nat -> default 0 (p !! k) = default 0 (q !! k)) as Hd.
  { induction k as [k IH] using lt_wf_ind. intros Hk. pose proof (f_equal (fun h => at_ h k) E) as Ek. cbn beta in Ek. rewrite !at_absorbed in Ek by done.
    destruct (Nat.ltb_spec k 7); [by rewrite !Z.lxor_0_r in Ek|]. rewrite (IH (k - 7)%nat) in Ek by lia.
    apply (f_equal (fun x => Z.lxor x (default 0 (q !! (k - 7)%nat)))) in Ek. by rewrite !Z.lxor_assoc, Z.lxor_nilpotent, !Z.lxor_0_r in Ek. }
  apply list_eq. intros k. destruct (decide (k < 32)%nat) as [Hk|Hk]; [|by rewrite !lookup_ge_None_2 by lia]. specialize (Hd k Hk).
  destruct (p !! k) as [x|] eqn:Ep, (q !! k) as [y|] eqn:Eq; cbn in Hd.
  - by subst.
  - pose proof (Forall_lookup_1 _ _ _ _ Hp Ep) as H. cbn in H. lia.
  - pose proof (Forall_lookup_1 _ _ _ _ Hq Eq) as H. cbn in H. lia.
  - done.
Qed.

(** ** Witnesses *)

Definition demo_db : UserDatabase := init [].

(** A blank line, a mistake that is taken back, a wrong password, and the right one. *)
Definition demo_typed : list Z := [10] ++ user_name ++ [120; 8; 10] ++ root_password ++ [10] ++ user_name ++ [13] ++ user_password ++ [10].

Lemma login_correct_witness : entered demo_typed [(user_name, root_password); (user_name, user_password)] /\
  exists u rest, uid u = 1000 /\ show_login demo_db Session_new demo_typed = Some (LoggedIn (mkSession (Some u) true) rest).
Proof.
  assert (entered demo_typed [(user_name, root_password); (user_name, user_password)]) as He.
  { eapply entered_blank; [reflexivity|]. eapply entered_try; [reflexivity|discriminate|reflexivity|].
    eapply entered_try; [reflexivity|discriminate|reflexivity|]. apply entered_none. reflexivity. }
  split; [exact He|]. pose proof (login_correct demo_db Session_new demo_typed _ He) as H.
  assert (uid <$> head (granted demo_db (take 3 [(user_name, root_password); (user_name, user_password)])) = Some 1000) as Eu by (vm_compute; reflexivity).
  destruct (head _) as [u|]; [|discriminate Eu]. destruct H as (_ & rest & H). exists u, rest. injection Eu as Eu. split; [exact Eu|exact H].
Defined.

Lemma hash_injective_witness : hash_password root_password <> hash_password user_password.
Proof.
  intros E. assert (Forall (fun b => 0 < b < 256) root_password /\ Forall (fun b => 0 < b < 256) user_password) as [H1 H2].
  { split; apply (bool_decide_unpack _); vm_compute; exact I. }
  pose proof (hash_injective root_password user_password ltac:(cbn; lia) ltac:(cbn; lia) H1 H2 E) as H. discriminate H.
Defined.
