(* ===== verification/Surface.v ===== *)
(** * Surfaces: the pixels of an application

    [graphics/surface.rs].  A surface owns [width * height] pixels as bytes, in one
    of three formats, a position on the screen and the rectangles that changed
    since it was last drawn.  Indexing a vector out of its bounds panics. *)

From Stdlib Require Import ZArith Lia Bool.
From stdpp Require Import base numbers option list.
From S2P Require Import Prelude.

Open Scope Z_scope.

(** ** Data *)

Inductive PixelFormat : Type := RGBA8888 | RGB888 | BGRA8888.

Definition bytes_per_pixel (f : PixelFormat) : Z :=
  match f with RGBA8888 | BGRA8888 => 4 | RGB888 => 3 end.

Record DirtyRect : Type := mkDirtyRect { dirty_x : Z; dirty_y : Z; dirty_width : Z; dirty_height : Z }.

(** [pos_x], [pos_y] and [z_order] are [i32]; [width] and [height] are [u32]. *)
Record Surface : Type := mkSurface {
  id : Z; width : Z; height : Z; pos_x : Z; pos_y : Z; z_order : Z; visible : bool;
  format : PixelFormat; pixels : list Z; dirty : bool; present_requested : bool; dirty_rects : list DirtyRect
}.

Inductive SurfaceError : Type :=
| InvalidSurfaceDimensions | SurfaceTooLarge | InvalidPixelDataSize | RegionOutOfBounds | InvalidDimensions.

(** What ends the kernel: an index the compiler checks, an access through a raw
    pointer outside the buffer it was made from, or a buffer that the heap has no room
    for. *)
Inductive Fault : Type := IndexPanic | WildAccess | OutOfHeap.

(** ** Access to the bytes *)

Definition load (l : list Z) (i : Z) : Result Z Fault :=
  match l !! Z.to_nat i with Some v => Ok v | None => Err IndexPanic end.

(** [l[off..off + n].copy_from_slice(&src[from..from + n])] *)
Definition copy_slice (src : list Z) (from off n : Z) (l : list Z) : Result (list Z) Fault :=
  if (off + n <=? Z.of_nat (length l)) && (from + n <=? Z.of_nat (length src)) then
    Ok (list_inserts (Z.to_nat off) (take (Z.to_nat n) (drop (Z.to_nat from) src)) l)
  else Err IndexPanic.

(** [l[off] = ..; l[off + 1] = ..] *)
Definition store_bytes (off : Z) (bs : list Z) (l : list Z) : Result (list Z) Fault :=
  copy_slice bs 0 off (Z.of_nat (length bs)) l.

(** [vec![0u8; n]] *)
Definition zeroed `{KernelHeap} (n : Z) : Result (list Z) Fault :=
  if heap_has n then Ok (replicate (Z.to_nat n) 0) else Err OutOfHeap.

(** ** Operations *)

Definition Surface_new `{KernelHeap} (i w h : Z) : Result (Result Surface SurfaceError) Fault :=
  if (w =? 0) || (h =? 0) then Ok (Err InvalidSurfaceDimensions)
  else if (8192 <? w) || (8192 <? h) then Ok (Err SurfaceTooLarge)
  else match zeroed ((w *[32] h) * bytes_per_pixel RGBA8888) with
       | Err e => Err e
       | Ok p => Ok (Ok (mkSurface i w h 0 0 0 true RGBA8888 p true false []))
       end.

Definition set_pixels (p : list Z) (s : Surface) : Surface :=
  mkSurface (id s) (width s) (height s) (pos_x s) (pos_y s) (z_order s) (visible s) (format s) p (dirty s) (present_requested s) (dirty_rects s).
Definition set_dirty (d : bool) (r : list DirtyRect) (s : Surface) : Surface :=
  mkSurface (id s) (width s) (height s) (pos_x s) (pos_y s) (z_order s) (visible s) (format s) (pixels s) d (present_requested s) r.

Definition mark_dirty (s : Surface) : Surface := set_dirty true (dirty_rects s) s.
Definition is_dirty (s : Surface) : bool := dirty s.
Definition clear_dirty (s : Surface) : Surface := set_dirty false [] s.

Definition set_position (x y : Z) (s : Surface) : Surface :=
  mark_dirty (mkSurface (id s) (width s) (height s) x y (z_order s) (visible s) (format s) (pixels s) (dirty s) (present_requested s) (dirty_rects s)).
Definition set_z_order (z : Z) (s : Surface) : Surface :=
  mark_dirty (mkSurface (id s) (width s) (height s) (pos_x s) (pos_y s) z (visible s) (format s) (pixels s) (dirty s) (present_requested s) (dirty_rects s)).
Definition set_visible (v : bool) (s : Surface) : Surface :=
  mark_dirty (mkSurface (id s) (width s) (height s) (pos_x s) (pos_y s) (z_order s) v (format s) (pixels s) (dirty s) (present_requested s) (dirty_rects s)).

(** [self.pixels.copy_from_slice(data)] wants equal lengths. *)
Definition update_pixels (data : list Z) (s : Surface) : Result (Result unit SurfaceError * Surface) Fault :=
  if negb (Z.of_nat (length data) =? (width s *[32] height s) * bytes_per_pixel (format s)) then Ok (Err InvalidPixelDataSize, s)
  else if negb (Z.of_nat (length data) =? Z.of_nat (length (pixels s))) then Err IndexPanic
  else Ok (Ok tt, mark_dirty (set_pixels data s)).

(** One row of the region. *)
Definition copy_row (s : Surface) (x y w : Z) (data : list Z) (row : Z) (p : list Z) : Result (list Z) Fault :=
  let bpp := bytes_per_pixel (format s) in
  copy_slice data ((row *[32] w) * bpp) ((((y +[32] row) *[32] width s) +[32] x) * bpp) (w * bpp) p.

Definition update_region (x y w h : Z) (data : list Z) (s : Surface) : Result (Result unit SurfaceError * Surface) Fault :=
  if (width s <? x +[32] w) || (height s <? y +[32] h) then Ok (Err RegionOutOfBounds, s)
  else if negb (Z.of_nat (length data) =? (w *[32] h) * bytes_per_pixel (format s)) then Ok (Err InvalidPixelDataSize, s)
  else match for_range 0 h (copy_row s x y w data) (pixels s) with
       | Err e => Err e
       | Ok p => Ok (Ok tt, mark_dirty (set_dirty (dirty s) (dirty_rects s ++ [mkDirtyRect x y w h]) (set_pixels p s)))
       end.

Definition resize `{KernelHeap} (w h : Z) (s : Surface) : Result (Result unit SurfaceError * Surface) Fault :=
  if (w =? 0) || (h =? 0) || (8192 <? w) || (8192 <? h) then Ok (Err InvalidDimensions, s)
  else if (width s =? w) && (height s =? h) then Ok (Ok tt, s)
  else match zeroed ((w *[32] h) * bytes_per_pixel (format s)) with
       | Err e => Err e
       | Ok p => Ok (Ok tt, mkSurface (id s) w h (pos_x s) (pos_y s) (z_order s) (visible s) (format s) p true (present_requested s) [])
       end.

(** The byte of [color] at bit [k]. *)
Definition channel (color k : Z) : Z := Z.land (Z.shiftr color k) 0xFF.

(** The bytes that [clear] writes for a pixel. *)
Definition encode_color (f : PixelFormat) (color : Z) : list Z :=
  match f with
  | RGBA8888 => [channel color 24; channel color 16; channel color 8; channel color 0]
  | BGRA8888 => [channel color 8; channel color 16; channel color 24; channel color 0]
  | RGB888 => [channel color 16; channel color 8; channel color 0]
  end.

Definition clear (color : Z) (s : Surface) : Result Surface Fault :=
  match for_range 0 (width s *[32] height s) (fun i => store_bytes (i * bytes_per_pixel (format s)) (encode_color (format s) color)) (pixels s) with
  | Ok p => Ok (mark_dirty (set_pixels p s))
  | Err e => Err e
  end.

(** The red, green, blue and alpha bytes at an offset; 24-bit pixels are opaque. *)
Definition channels (f : PixelFormat) (p : list Z) (off : Z) : Result (Z * Z * Z * Z) Fault :=
  match load p off, load p (off + 1), load p (off + 2), (match f with RGB888 => Ok 255 | _ => load p (off + 3) end) with
  | Ok c0, Ok c1, Ok c2, Ok c3 => Ok (match f with BGRA8888 => (c2, c1, c0, c3) | _ => (c0, c1, c2, c3) end)
  | _, _, _, _ => Err IndexPanic
  end.

Definition pack_color (f : PixelFormat) (c : Z * Z * Z * Z) : Z :=
  let '(r, g, b, a) := c in
  match f with
  | RGB888 => Z.lor (Z.lor (Z.shiftl r 16) (Z.shiftl g 8)) b
  | _ => Z.lor (Z.lor (Z.lor (Z.shiftl r 24) (Z.shiftl g 16)) (Z.shiftl b 8)) a
  end.

Definition get_pixel (x y : Z) (s : Surface) : Result (option Z) Fault :=
  if (width s <=? x) || (height s <=? y) then Ok None
  else match channels (format s) (pixels s) (((y *[32] width s) +[32] x) * bytes_per_pixel (format s)) with
       | Ok c => Ok (Some (pack_color (format s) c))
       | Err e => Err e
       end.

(** ** Slices and runs of pixels *)

Lemma load_some l i v : l !! Z.to_nat i = Some v -> load l i = Ok v.
Proof. unfold load. by intros ->. Qed.

Lemma copy_slice_spec src from off n l : 0 <= from -> 0 <= off -> 0 <= n -> off + n <= Z.of_nat (length l) -> from + n <= Z.of_nat (length src) ->
  exists l', copy_slice src from off n l = Ok l' /\ length l' = length l /\
    forall k, 0 <= k -> l' !! Z.to_nat k = if (off <=? k) && (k <? off + n) then src !! Z.to_nat (from + (k - off)) else l !! Z.to_nat k.
Proof.
  intros Hf Ho Hn Hl Hs. unfold copy_slice. destruct (Z.leb_spec (off + n) (Z.of_nat (length l))); [|lia].
  destruct (Z.leb_spec (from + n) (Z.of_nat (length src))); [|lia]. eexists. split; [done|]. split; [apply length_inserts|].
  assert (length (take (Z.to_nat n) (drop (Z.to_nat from) src)) = Z.to_nat n) as Hlen by (rewrite length_take, length_drop; lia).
  intros k Hk. destruct (Z.leb_spec off k), (Z.ltb_spec k (off + n)); cbn [andb].
  - rewrite list_lookup_inserts by lia. rewrite lookup_take_lt by lia. rewrite lookup_drop. f_equal. lia.
  - by rewrite list_lookup_inserts_ge by lia.
  - by rewrite list_lookup_inserts_lt by lia.
  - lia.
Qed.

Lemma copy_slice_bytes src from off n l l' : Forall (in_width 8) src -> Forall (in_width 8) l -> copy_slice src from off n l = Ok l' -> Forall (in_width 8) l'.
Proof.
  unfold copy_slice. intros Hs Hl. destruct (_ && _); [|done]. intros [= <-]. apply Forall_inserts; [done|]. by apply Forall_take, Forall_drop.
Qed.

(** A copy keeps the length and the bytes, or its slices are out of bounds. *)
Lemma copy_slice_keeps src from off n l (k : nat) : Forall (in_width 8) src -> length l = k /\ Forall (in_width 8) l ->
  match copy_slice src from off n l with Ok l' => length l' = k /\ Forall (in_width 8) l' | Err e => e = IndexPanic end.
Proof.
  intros Hs [Hl Hb]. destruct (copy_slice src from off n l) as [l'|e] eqn:E; [|unfold copy_slice in E; destruct (_ && _); [done|by injection E]].
  split; [|exact (copy_slice_bytes src from off n l l' Hs Hb E)]. unfold copy_slice in E. destruct (_ && _); [|done]. injection E as <-. by rewrite length_inserts.
Qed.

(** Position [i] of row [j] lies in a run of row [r] exactly if the rows agree. *)
Lemma in_run W r x n j i : 0 <= i < W -> 0 <= x -> x + n <= W ->
  (r * W + x <=? j * W + i) && (j * W + i <? r * W + x + n) = (j =? r) && (x <=? i) && (i <? x + n).
Proof.
  intros Hi Hx Hn. destruct (Z.eqb_spec j r) as [->|Hj]; cbn [andb].
  - destruct (Z.leb_spec (r * W + x) (r * W + i)), (Z.ltb_spec (r * W + i) (r * W + x + n)), (Z.leb_spec x i), (Z.ltb_spec i (x + n)); cbn; lia.
  - apply andb_false_iff. destruct (Z.lt_ge_cases j r); [left; apply Z.leb_gt|right; apply Z.ltb_ge]; nia.
Qed.

Lemma channels_ext f p off p' off' : 0 <= off -> 0 <= off' ->
  (forall c, 0 <= c < bytes_per_pixel f -> p !! Z.to_nat (off + c) = p' !! Z.to_nat (off' + c)) -> channels f p off = channels f p' off'.
Proof.
  intros Ho Ho' H. unfold channels, load. pose proof (H 0) as H0. rewrite !Z.add_0_r in H0.
  rewrite H0, (H 1), (H 2) by (destruct f; cbn; lia). destruct f; try done; by rewrite (H 3) by (cbn; lia).
Qed.

(** The loads of a pixel that is there succeed. *)
Lemma channels_ok f p off : Forall (in_width 8) p -> 0 <= off -> off + bytes_per_pixel f <= Z.of_nat (length p) ->
  exists r g b a, channels f p off = Ok (r, g, b, a) /\ in_width 8 r /\ in_width 8 g /\ in_width 8 b /\ in_width 8 a.
Proof.
  intros Hp Ho Hl. assert (forall c, 0 <= c < bytes_per_pixel f -> exists v, load p (off + c) = Ok v /\ in_width 8 v) as H.
  { intros c Hc. destruct (lookup_lt_is_Some_2 p (Z.to_nat (off + c))) as [v Hv]; [lia|]. exists v. split; [by apply load_some|]. by eapply Forall_lookup_1. }
  unfold channels. destruct (H 0) as (v0 & E0 & W0); [destruct f; cbn; lia|]. rewrite Z.add_0_r in E0.
  destruct (H 1) as (v1 & E1 & W1); [destruct f; cbn; lia|]. destruct (H 2) as (v2 & E2 & W2); [destruct f; cbn; lia|]. rewrite E0, E1, E2.
  assert (exists v3, match f with RGB888 => Ok 255 | _ => load p (off + 3) end = Ok v3 /\ in_width 8 v3) as (v3 & -> & W3).
  { destruct f; [apply H; cbn; lia|by exists 255|apply H; cbn; lia]. }
  destruct f; eauto 12.
Qed.

(** ** Well-formed surfaces *)

Definition is_i32 (x : Z) : Prop := - 2 ^ 31 <= x < 2 ^ 31.

Record wf (s : Surface) : Prop := mkWf {
  wf_width : 0 < width s <= 8192;
  wf_height : 0 < height s <= 8192;
  wf_x : is_i32 (pos_x s);
  wf_y : is_i32 (pos_y s);
  wf_z : is_i32 (z_order s);
  wf_length : Z.of_nat (length (pixels s)) = width s * height s * bytes_per_pixel (format s);
  wf_bytes : Forall (in_width 8) (pixels s) }.

Lemma area_small w h : 0 <= w <= 8192 -> 0 <= h <= 8192 -> w *[32] h = w * h.
Proof. intros. apply wrap_small. unfold in_width. nia. Qed.

Lemma bpp_pos f : 3 <= bytes_per_pixel f <= 4.
Proof. destruct f; cbn; lia. Qed.

Lemma wf_set_pixels p s : wf s -> length p = length (pixels s) -> Forall (in_width 8) p -> wf (set_pixels p s).
Proof. intros [] Hl Hp. constructor; cbn; try done. by rewrite Hl. Qed.

Lemma wf_set_dirty d r s : wf s -> wf (set_dirty d r s).
Proof. by intros []. Qed.

(** The bytes of a fresh image. *)
Lemma wf_blank w h f : 0 < w <= 8192 -> 0 < h <= 8192 ->
  Z.of_nat (length (replicate (Z.to_nat ((w *[32] h) * bytes_per_pixel f)) 0)) = w * h * bytes_per_pixel f /\
  Forall (in_width 8) (replicate (Z.to_nat ((w *[32] h) * bytes_per_pixel f)) 0).
Proof.
  intros Hw Hh. rewrite area_small by lia. pose proof (bpp_pos f). split; [rewrite length_replicate; nia|].
  apply Forall_replicate. unfold in_width. lia.
Qed.

#[export] Hint Resolve wf_set_pixels wf_set_dirty : surface.

(** ** Regions *)

(** Where a byte of a pixel lies. *)
Lemma byte_in_run bpp q c m n : 0 <= c < bpp -> (q * bpp <=? m * bpp + c) && (m * bpp + c <? q * bpp + n * bpp) = (q <=? m) && (m <? q + n).
Proof.
  intros Hc. destruct (Z.leb_spec (q * bpp) (m * bpp + c)), (Z.leb_spec q m); cbn [andb]; try done; try nia.
Qed.

Section Region.
Context (s : Surface) (x y w h : Z) (data : list Z).
Context (Hs : wf s) (Hx : 0 <= x) (Hy : 0 <= y) (Hw : 0 <= w) (Hh : 0 <= h) (Hxw : x + w <= width s) (Hyh : y + h <= height s).
Notation bpp := (bytes_per_pixel (format s)).
Context (Hlen : Z.of_nat (length data) = w * h * bpp) (Hdata : Forall (in_width 8) data).

(** The bytes after the first [n] rows. *)
Definition copied (n : Z) (p : list Z) : Prop :=
  (length p = length (pixels s) /\ Forall (in_width 8) p) /\ forall i j c, 0 <= i < width s -> 0 <= j -> 0 <= c < bpp ->
    p !! Z.to_nat ((j * width s + i) * bpp + c) =
      if (y <=? j) && (j <? y + n) && (x <=? i) && (i <? x + w) then data !! Z.to_nat (((j - y) * w + (i - x)) * bpp + c)
      else pixels s !! Z.to_nat ((j * width s + i) * bpp + c).

Lemma copy_row_copied n p : 0 <= n < h -> copied n p -> exists p', copy_row s x y w data n p = Ok p' /\ copied (n + 1) p'.
Proof.
  intros Hn [[Hp Hpb] Hc]. pose proof (wf_width _ Hs). pose proof (wf_height _ Hs). pose proof (wf_length _ Hs). pose proof (bpp_pos (format s)).
  assert (0 <= n * w /\ n * w + w <= w * h) as [B1 B2] by (pose proof (Z.mul_le_mono_nonneg_r (n + 1) h w); nia).
  assert (0 <= (y + n) * width s /\ (y + n) * width s + width s <= width s * height s) as [B3 B4]
    by (pose proof (Z.mul_le_mono_nonneg_r (y + n + 1) (height s) (width s)); nia).
  assert (width s * height s <= 8192 * 8192) as B5 by (apply Z.mul_le_mono_nonneg; lia).
  assert (w * h <= 8192 * 8192) as B6 by (apply Z.mul_le_mono_nonneg; lia).
  unfold copy_row. rewrite (wrap_small 32 (n * w)), (wrap_small 32 (y + n)), (wrap_small 32 ((y + n) * width s)), wrap_small by (unfold in_width; lia).
  destruct (copy_slice_spec data (n * w * bpp) (((y + n) * width s + x) * bpp) (w * bpp) p) as (p' & E & L & Hk);
    [apply Z.mul_nonneg_nonneg; lia|apply Z.mul_nonneg_nonneg; lia|apply Z.mul_nonneg_nonneg; lia| | |].
  { rewrite <- Z.mul_add_distr_r, Hp. pose proof (Z.mul_le_mono_nonneg_r ((y + n) * width s + x + w) (width s * height s) bpp). lia. }
  { rewrite <- Z.mul_add_distr_r. pose proof (Z.mul_le_mono_nonneg_r (n * w + w) (w * h) bpp). lia. }
  exists p'. split; [done|]. split; [rewrite L; split; [done|eapply copy_slice_bytes; [| |exact E]; done]|]. intros i j c Hi Hj Hcb. rewrite Hk by nia. rewrite byte_in_run, in_run by lia. rewrite Hc by done.
  destruct (Z.eqb_spec j (y + n)) as [->|Hne]; cbn [andb].
  - destruct (Z.leb_spec x i), (Z.ltb_spec i (x + w)); cbn [andb]; rewrite ?andb_false_r; try done.
    destruct (Z.leb_spec y (y + n)); [|lia]. destruct (Z.ltb_spec (y + n) (y + (n + 1))); [|lia]. cbn [andb]. f_equal. nia.
  - destruct (Z.ltb_spec j (y + n)), (Z.ltb_spec j (y + (n + 1))); lia || done.
Qed.

Lemma copy_rows : exists p, for_range 0 h (copy_row s x y w data) (pixels s) = Ok p /\ copied h p.
Proof.
  apply (for_range_inv copied); [done| |].
  - split; [split; [done|apply wf_bytes; done]|]. intros i j c Hi Hj Hcb. rewrite Z.add_0_r. destruct (Z.leb_spec y j), (Z.ltb_spec j y); cbn [andb]; done || lia.
  - intros n p Hn. by apply copy_row_copied.
Qed.
End Region.


(** An image of [w] by [h] pixels in the format of a surface. *)
Definition image (s : Surface) (w h : Z) (data : list Z) : Surface := mkSurface 0 w h 0 0 0 true (format s) data false false [].

(** The offset of a pixel fits the arithmetic that computes it. *)
Lemma pixel_offset w h f i j : 0 <= w <= 8192 -> 0 <= h <= 8192 -> 0 <= i < w -> 0 <= j < h ->
  (j *[32] w) +[32] i = j * w + i /\ 0 <= (j * w + i) * bytes_per_pixel f /\
  (j * w + i) * bytes_per_pixel f + bytes_per_pixel f <= w * h * bytes_per_pixel f.
Proof.
  intros Hw Hh Hi Hj. pose proof (bpp_pos f). assert (0 <= j * w /\ j * w + w <= w * h) as [B1 B2] by (pose proof (Z.mul_le_mono_nonneg_r (j + 1) h w); nia).
  assert (w * h <= 8192 * 8192) as B3 by (apply Z.mul_le_mono_nonneg; lia).
  split; [rewrite (wrap_small 32 (j * w)), wrap_small by (unfold in_width; lia); done|]. split; [apply Z.mul_nonneg_nonneg; lia|].
  pose proof (Z.mul_le_mono_nonneg_r (j * w + i + 1) (w * h) (bytes_per_pixel f)). lia.
Qed.

Lemma get_pixel_in i j s : wf s -> 0 <= i < width s -> 0 <= j < height s ->
  get_pixel i j s = match channels (format s) (pixels s) ((j * width s + i) * bytes_per_pixel (format s)) with
                    | Ok c => Ok (Some (pack_color (format s) c)) | Err e => Err e end.
Proof.
  intros Hs Hi Hj. pose proof (wf_width _ Hs). pose proof (wf_height _ Hs). unfold get_pixel.
  destruct (Z.leb_spec (width s) i), (Z.leb_spec (height s) j); try lia. cbn [orb].
  by destruct (pixel_offset (width s) (height s) (format s) i j) as [-> _]; [lia..|].
Qed.

Lemma update_region_spec x y w h data s : wf s -> 0 <= x -> 0 <= y -> 0 <= w -> 0 <= h -> x + w <= width s -> y + h <= height s ->
  Z.of_nat (length data) = w * h * bytes_per_pixel (format s) -> Forall (in_width 8) data ->
  exists p, update_region x y w h data s = Ok (Ok tt, set_dirty true (dirty_rects s ++ [mkDirtyRect x y w h]) (set_pixels p s)) /\
    length p = length (pixels s) /\ Forall (in_width 8) p /\
    forall i j, 0 <= i < width s -> 0 <= j < height s ->
      get_pixel i j (set_pixels p s) = if (y <=? j) && (j <? y + h) && (x <=? i) && (i <? x + w) then get_pixel (i - x) (j - y) (image s w h data) else get_pixel i j s.
Proof.
  intros Hs Hx Hy Hw Hh Hxw Hyh Hlen Hdata. pose proof (wf_width _ Hs). pose proof (wf_height _ Hs).
  destruct (copy_rows s x y w h data) as (p & E & [Hp Hpb] & Hc); [done|lia..|done|done|]. exists p. unfold update_region.
  rewrite (wrap_small 32 (x + w)), (wrap_small 32 (y + h)), area_small by (unfold in_width; lia).
  destruct (Z.ltb_spec (width s) (x + w)), (Z.ltb_spec (height s) (y + h)); try lia. cbn [orb]. rewrite Hlen, Z.eqb_refl. cbn [negb]. rewrite E.
  split; [done|]. split; [done|]. split; [done|]. intros i j Hi Hj.
  rewrite get_pixel_in by (auto with surface). cbn [set_pixels format pixels width].
  destruct (pixel_offset (width s) (height s) (format s) i j) as (_ & B1 & B2); [lia..|].
  destruct ((y <=? j) && (j <? y + h) && (x <=? i) && (i <? x + w)) eqn:In.
  - apply andb_prop in In as [In I4]. apply andb_prop in In as [In I3]. apply andb_prop in In as [I1 I2].
    apply Z.leb_le in I1, I3. apply Z.ltb_lt in I2, I4. destruct (pixel_offset w h (format s) (i - x) (j - y)) as (Eo & B3 & B4); [lia..|].
    unfold get_pixel, image. cbn [width height format pixels]. rewrite Eo. destruct (Z.leb_spec w (i - x)), (Z.leb_spec h (j - y)); try lia. cbn [orb].
    rewrite (channels_ext (format s) p _ data ((((j - y) * w) + (i - x)) * bytes_per_pixel (format s))); [done|done|done|].
    intros c Hcb. rewrite Hc by lia. destruct (Z.leb_spec y j), (Z.ltb_spec j (y + h)), (Z.leb_spec x i), (Z.ltb_spec i (x + w)); try lia. done.
  - rewrite get_pixel_in by done. rewrite (channels_ext (format s) p _ (pixels s) ((j * width s + i) * bytes_per_pixel (format s))); [done|done|done|].
    intros c Hcb. rewrite Hc by lia. by rewrite In.
Qed.

(** ** Filling *)

Section Fill.
Context (s : Surface) (Hs : wf s) (color : Z) (Hcolor : 0 <= color).
Notation bpp := (bytes_per_pixel (format s)).
Notation area := (width s * height s).

Lemma length_encode : Z.of_nat (length (encode_color (format s) color)) = bpp.
Proof. by destruct (format s). Qed.

Lemma channel_byte c k : in_width 8 (channel c k).
Proof. unfold channel. change 0xFF with (Z.ones 8). rewrite Z.land_ones by lia. unfold in_width. apply Z.mod_pos_bound. lia. Qed.

Lemma encode_bytes : Forall (in_width 8) (encode_color (format s) color).
Proof. destruct (format s); repeat (apply Forall_cons_2; [apply channel_byte|]); apply Forall_nil_2. Qed.

Definition filled (n : Z) (p : list Z) : Prop :=
  (length p = length (pixels s) /\ Forall (in_width 8) p) /\
  forall q c, 0 <= q < n -> 0 <= c < bpp -> p !! Z.to_nat (q * bpp + c) = encode_color (format s) color !! Z.to_nat c.

Lemma fill_pixels : exists p, for_range 0 area (fun i => store_bytes (i * bpp) (encode_color (format s) color)) (pixels s) = Ok p /\ filled area p.
Proof.
  pose proof (wf_width _ Hs). pose proof (wf_height _ Hs). pose proof (wf_length _ Hs). pose proof (bpp_pos (format s)) as Hb. apply for_range_inv; [nia| |].
  - split; [split; [done|by apply wf_bytes]|]. lia.
  - intros n p Hn [[Hp Hpb] Hc]. unfold store_bytes. rewrite length_encode. pose proof (Z.mul_le_mono_nonneg_r (n + 1) area bpp).
    destruct (copy_slice_spec (encode_color (format s) color) 0 (n * bpp) bpp p) as (p' & E & L & Hk); [lia|lia|lia|lia|rewrite length_encode; lia|].
    exists p'. split; [done|]. split; [split; [lia|eapply copy_slice_bytes; [apply encode_bytes|exact Hpb|exact E]]|].
    intros q c Hq Hcb. rewrite Hk by nia. pose proof (byte_in_run bpp n c q 1 Hcb) as Hr. rewrite Z.mul_1_l in Hr. rewrite Hr.
    destruct (Z.leb_spec n q), (Z.ltb_spec q (n + 1)); cbn [andb]; try lia; [|by apply Hc; lia]. f_equal. assert (q = n) as -> by lia. lia.
Qed.

Lemma clear_spec : exists p, clear color s = Ok (mark_dirty (set_pixels p s)) /\ filled area p.
Proof.
  pose proof (wf_width _ Hs). pose proof (wf_height _ Hs). destruct fill_pixels as (p & E & H1). exists p. split; [|done].
  unfold clear. rewrite area_small by lia. by rewrite E.
Qed.
End Fill.

(** The bytes of a colour give it back; 24-bit pixels lose the top byte. *)
Definition shown_color (f : PixelFormat) (color : Z) : Z := match f with RGB888 => color mod 2 ^ 24 | _ => color end.

Lemma channel_testbit c k n : 0 <= k -> Z.testbit (channel c k) n = (0 <=? n) && (n <? 8) && Z.testbit c (n + k).
Proof.
  intros Hk. unfold channel. change 0xFF with (Z.ones 8). rewrite Z.land_spec, Z.testbit_ones by lia. destruct (Z.leb_spec 0 n); cbn [andb].
  - rewrite Z.shiftr_spec by done. apply andb_comm.
  - by rewrite andb_false_r.
Qed.

Lemma pack_channels c : in_width 32 c ->
  Z.lor (Z.lor (Z.lor (Z.shiftl (channel c 24) 24) (Z.shiftl (channel c 16) 16)) (Z.shiftl (channel c 8) 8)) (channel c 0) = c /\
  Z.lor (Z.lor (Z.shiftl (channel c 16) 16) (Z.shiftl (channel c 8) 8)) (channel c 0) = c mod 2 ^ 24.
Proof.
  intros Hc. split; apply Z.bits_inj'; intros n Hn; rewrite ?Z.lor_spec, !Z.shiftl_spec, !channel_testbit by lia; rewrite Z.add_0_r, !Z.sub_add.
  - destruct (Z.lt_ge_cases n 32) as [H|H]; [|rewrite (in_width_testbit 32 c n) by done; by rewrite !andb_false_r].
    destruct (Z.leb_spec 0 (n - 24)), (Z.leb_spec 0 (n - 16)), (Z.leb_spec 0 (n - 8)), (Z.leb_spec 0 n),
      (Z.ltb_spec (n - 24) 8), (Z.ltb_spec (n - 16) 8), (Z.ltb_spec (n - 8) 8), (Z.ltb_spec n 8); try lia; cbn [andb orb]; by rewrite ?orb_false_r, ?orb_diag.
  - destruct (Z.lt_ge_cases n 24) as [H|H].
    + rewrite Z.mod_pow2_bits_low by lia. destruct (Z.leb_spec 0 (n - 16)), (Z.leb_spec 0 (n - 8)), (Z.leb_spec 0 n),
        (Z.ltb_spec (n - 16) 8), (Z.ltb_spec (n - 8) 8), (Z.ltb_spec n 8); try lia; cbn [andb orb]; by rewrite ?orb_false_r, ?orb_diag.
    + rewrite Z.mod_pow2_bits_high by lia. destruct (Z.ltb_spec (n - 16) 8), (Z.ltb_spec (n - 8) 8), (Z.ltb_spec n 8); lia.
Qed.

Lemma pack_encode f color : in_width 32 color -> match channels f (encode_color f color) 0 with Ok c => pack_color f c = shown_color f color | Err _ => False end.
Proof. intros H. pose proof (pack_channels color H) as [H1 H2]. destruct f; cbn; done. Qed.

Lemma clear_pixels color s i j : wf s -> in_width 32 color -> 0 <= i < width s -> 0 <= j < height s ->
  exists s', clear color s = Ok s' /\ get_pixel i j s' = Ok (Some (shown_color (format s) color)).
Proof.
  intros Hs Hc Hi Hj. pose proof (wf_width _ Hs). pose proof (wf_height _ Hs). destruct (clear_spec s Hs color) as (p & E & [Hp Hpb] & Hq).
  eexists. split; [exact E|]. rewrite get_pixel_in by (unfold mark_dirty; auto with surface). cbn [mark_dirty set_dirty set_pixels format pixels width].
  destruct (pixel_offset (width s) (height s) (format s) i j) as (_ & B1 & B2); [lia..|]. pose proof (bpp_pos (format s)).
  rewrite (channels_ext (format s) p _ (encode_color (format s) color) 0) by (try lia; intros c Hcb; apply Hq; nia).
  pose proof (pack_encode (format s) color Hc) as Hk. destruct (channels _ _ 0); [by rewrite Hk|done].
Qed.

(** ** Theorems *)

Inductive SurfaceOp : Type :=
| UpdatePixels (data : list Z) | UpdateRegion (x y w h : Z) (data : list Z) | Resize (w h : Z) | Clear (color : Z)
| SetPosition (x y : Z) | SetZOrder (z : Z) | SetVisible (v : bool) | MarkDirty | ClearDirty.

Definition run_op `{KernelHeap} (o : SurfaceOp) (s : Surface) : Result Surface Fault :=
  match o with
  | UpdatePixels data => match update_pixels data s with Ok (_, s') => Ok s' | Err e => Err e end
  | UpdateRegion x y w h data => match update_region x y w h data s with Ok (_, s') => Ok s' | Err e => Err e end
  | Resize w h => match resize w h s with Ok (_, s') => Ok s' | Err e => Err e end
  | Clear color => clear color s
  | SetPosition x y => Ok (set_position x y s)
  | SetZOrder z => Ok (set_z_order z s)
  | SetVisible v => Ok (set_visible v s)
  | MarkDirty => Ok (mark_dirty s)
  | ClearDirty => Ok (clear_dirty s)
  end.

(** Each call finds the heap in a state of its own. *)
Definition run_ops : list (KernelHeap * SurfaceOp) -> Surface -> Result Surface Fault := fun l => for_each l (fun c s => run_op (H := c.1) c.2 s).

(** The arguments have their types. *)
Definition op_typed (o : SurfaceOp) : Prop :=
  match o with
  | UpdatePixels data => Forall (in_width 8) data
  | UpdateRegion x y w h data => Forall (in_width 8) data /\ in_width 32 x /\ in_width 32 y /\ in_width 32 w /\ in_width 32 h
  | Resize w h => in_width 32 w /\ in_width 32 h
  | Clear color => in_width 32 color
  | SetPosition x y => is_i32 x /\ is_i32 y
  | SetZOrder z => is_i32 z
  | SetVisible _ | MarkDirty | ClearDirty => True
  end.

Definition size_ok (w h : Z) : Prop := 0 < w <= 8192 /\ 0 < h <= 8192.

(** The calls that end the kernel: a region one of whose far corners wraps around in 32
    bits, and a change of size for which the heap has no room. *)
Inductive halts (s : Surface) : KernelHeap * SurfaceOp -> Fault -> Prop :=
| HaltsRegion heap x y w h data : 2 ^ 32 <= x + w \/ 2 ^ 32 <= y + h -> halts s (heap, UpdateRegion x y w h data) IndexPanic
| HaltsResize (heap : KernelHeap) w h : size_ok w h -> heap_has (w * h * bytes_per_pixel (format s)) = false -> halts s (heap, Resize w h) OutOfHeap.

Lemma zeroed_spec `{KernelHeap} w h f : size_ok w h ->
  match zeroed ((w *[32] h) * bytes_per_pixel f) with
  | Ok p => Z.of_nat (length p) = w * h * bytes_per_pixel f /\ Forall (in_width 8) p
  | Err e => e = OutOfHeap /\ heap_has (w * h * bytes_per_pixel f) = false
  end.
Proof.
  intros [Hw Hh]. unfold zeroed. destruct (wf_blank w h f Hw Hh) as [H1 H2]. rewrite area_small in * by lia. by destruct (heap_has _).
Qed.

Lemma surface_new_spec `{KernelHeap} i w h : in_width 32 w -> in_width 32 h ->
  match Surface_new i w h with
  | Ok (Ok s) => size_ok w h /\ wf s /\ id s = i /\ format s = RGBA8888 /\ pos_x s = 0 /\ pos_y s = 0 /\ dirty_rects s = []
  | Ok (Err _) => ~ size_ok w h
  | Err e => e = OutOfHeap /\ size_ok w h /\ heap_has (w * h * 4) = false
  end.
Proof.
  unfold Surface_new, in_width. intros Hw Hh. destruct (Z.eqb_spec w 0), (Z.eqb_spec h 0); cbn [orb]; try (unfold size_ok; lia).
  destruct (Z.ltb_spec 8192 w), (Z.ltb_spec 8192 h); cbn [orb]; try (unfold size_ok; lia). assert (size_ok w h) as Hs by (unfold size_ok; lia).
  pose proof (zeroed_spec w h RGBA8888 Hs) as Hz. destruct (zeroed _) as [p|e]; [|by destruct Hz]. destruct Hz as [Hpl Hpb], Hs as [Hw' Hh'].
  split; [by split|]. split; [|done]. constructor; cbn; try done; unfold is_i32; lia.
Qed.

Lemma surface_new_wf `{KernelHeap} i w h s : in_width 32 w -> in_width 32 h -> Surface_new i w h = Ok (Ok s) -> wf s /\ id s = i.
Proof. intros Hw Hh E. pose proof (surface_new_spec i w h Hw Hh) as Hn. rewrite E in Hn. naive_solver. Qed.

Lemma update_region_wf x y w h data s : wf s -> op_typed (UpdateRegion x y w h data) ->
  match update_region x y w h data s with
  | Ok (_, s') => wf s' /\ id s' = id s /\ format s' = format s
  | Err e => e = IndexPanic /\ (2 ^ 32 <= x + w \/ 2 ^ 32 <= y + h)
  end.
Proof.
  intros Hs (Hd & Hx & Hy & Hw & Hh). unfold in_width in *. pose proof (wf_width _ Hs). pose proof (wf_height _ Hs).
  assert ((2 ^ 32 <= x + w \/ 2 ^ 32 <= y + h) \/ (x + w < 2 ^ 32 /\ y + h < 2 ^ 32)) as [Hwrap|[Bx By]] by lia.
  - unfold update_region. destruct (_ || _); [done|]. destruct (negb _); [done|].
    pose proof (for_range_keeps (fun p => length p = length (pixels s) /\ Forall (in_width 8) p) IndexPanic 0 h (copy_row s x y w data) (pixels s)) as Hk.
    destruct (for_range 0 h (copy_row s x y w data) (pixels s)) as [p|e].
    + destruct Hk as [Hl Hb]; [by split; [|apply wf_bytes]| |]. { intros i p' Hp. by apply copy_slice_keeps. }
      split; [|done]. by apply wf_set_dirty, wf_set_dirty, wf_set_pixels.
    + split; [|done]. apply Hk; [by split; [|apply wf_bytes]|]. intros i p' Hp. by apply copy_slice_keeps.
  - destruct (decide (x + w <= width s /\ y + h <= height s /\ Z.of_nat (length data) = w * h * bytes_per_pixel (format s))) as [(A & B & E)|Hn].
    + destruct (update_region_spec x y w h data s) as (p & -> & Hp & Hb & _); [done|lia..|done|done|]. split; [|done]. by apply wf_set_dirty, wf_set_pixels.
    + unfold update_region. rewrite (wrap_small 32 (x + w)), (wrap_small 32 (y + h)) by (unfold in_width; lia).
      destruct (Z.ltb_spec (width s) (x + w)), (Z.ltb_spec (height s) (y + h)); cbn [orb]; try done. rewrite area_small by lia.
      destruct (Z.eqb_spec (Z.of_nat (length data)) (w * h * bytes_per_pixel (format s))) as [E|E]; [|done]. exfalso. by apply Hn.
Qed.

Lemma run_op_wf (c : KernelHeap * SurfaceOp) s : wf s -> op_typed c.2 ->
  match run_op (H := c.1) c.2 s with Ok s' => wf s' /\ id s' = id s /\ format s' = format s | Err e => halts s c e end.
Proof.
  destruct c as [heap o]. cbn [fst snd]. intros Hs Ho. pose proof (wf_width _ Hs) as Hw. pose proof (wf_height _ Hs) as Hh. pose proof (wf_length _ Hs) as Hl.
  destruct o as [data|x y w h data|w h|color|x y|z|v| |]; cbn [run_op op_typed] in *.
  - unfold update_pixels. rewrite area_small by lia. rewrite Hl. destruct (Z.eqb_spec (Z.of_nat (length data)) (width s * height s * bytes_per_pixel (format s))) as [E|]; cbn [negb]; [|done].
    split; [|done]. unfold mark_dirty. apply wf_set_dirty, wf_set_pixels; [done|lia|done].
  - pose proof (update_region_wf x y w h data s Hs Ho) as Hr. destruct (update_region x y w h data s) as [[r s']|e]; [done|]. destruct Hr as [-> Hr]. by constructor.
  - destruct Ho as [Ho1 Ho2]. unfold resize, in_width in *. destruct (Z.eqb_spec w 0), (Z.eqb_spec h 0), (Z.ltb_spec 8192 w), (Z.ltb_spec 8192 h); cbn [orb]; try done.
    destruct ((width s =? w) && (height s =? h)); [done|]. assert (size_ok w h) as Hsz by (unfold size_ok; lia).
    pose proof (zeroed_spec w h (format s) Hsz) as Hz. destruct (zeroed _) as [p|e]; [|destruct Hz as [-> Hz]; by constructor].
    destruct Hz, Hsz, Hs. split; [|done]. constructor; cbn; done || lia.
  - destruct (clear_spec s Hs color) as (p & -> & [Hp Hpb] & _). split; [|done]. unfold mark_dirty. by apply wf_set_dirty, wf_set_pixels.
  - destruct Ho, Hs. by split; [constructor|].
  - destruct Hs. by split; [constructor|].
  - destruct Hs. by split; [constructor|].
  - split; [|done]. by apply wf_set_dirty.
  - split; [|done]. by apply wf_set_dirty.
Qed.

Lemma get_pixel_total x y s : wf s -> in_width 32 x -> in_width 32 y ->
  (width s <= x \/ height s <= y) /\ get_pixel x y s = Ok None \/ (x < width s /\ y < height s /\ exists c, get_pixel x y s = Ok (Some c)).
Proof.
  intros Hs Hx Hy. unfold in_width in *. destruct (Z.lt_ge_cases x (width s)) as [A|A]; [destruct (Z.lt_ge_cases y (height s)) as [B|B]|].
  - right. split; [done|]. split; [done|]. rewrite get_pixel_in by (done || lia). pose proof (wf_width _ Hs). pose proof (wf_height _ Hs). pose proof (wf_length _ Hs).
    destruct (pixel_offset (width s) (height s) (format s) x y) as (_ & B1 & B2); [lia..|].
    destruct (channels_ok (format s) (pixels s) ((y * width s + x) * bytes_per_pixel (format s))) as (? & ? & ? & ? & -> & _); [by apply wf_bytes|done|lia|]. eauto.
  - left. split; [by right|]. unfold get_pixel. destruct (Z.leb_spec (height s) y); [|lia]. by rewrite orb_true_r.
  - left. split; [by left|]. unfold get_pixel. by destruct (Z.leb_spec (width s) x); [|lia].
Qed.

(** C22: Surfaces keep their type.  A surface is made if and only if its sides are from 1
    to 8192, with a buffer of the size of its image, unless the heap has no room for that.
    Every sequence of calls with arguments of their types, each on whatever heap, then ends
    with a surface whose buffer has the size of its image, with its identifier, and every
    pixel of which can be read - or the kernel ends at a call on such a surface, and this
    call is the update of a region one of whose far corners wraps around in 32 bits, or a
    change of size for which the heap has no room. *)
Theorem surface_typed `{KernelHeap} i w h ops : in_width 32 w -> in_width 32 h -> Forall (fun c => op_typed c.2) ops ->
  match Surface_new i w h with
  | Err e => e = OutOfHeap /\ size_ok w h /\ heap_has (w * h * 4) = false
  | Ok (Err _) => ~ size_ok w h
  | Ok (Ok s) => size_ok w h /\
      match run_ops ops s with
      | Ok s' => wf s' /\ id s' = i /\ forall x y, in_width 32 x -> in_width 32 y ->
          (width s' <= x \/ height s' <= y) /\ get_pixel x y s' = Ok None \/ (x < width s' /\ y < height s' /\ exists c, get_pixel x y s' = Ok (Some c))
      | Err e => exists before c after s1, ops = before ++ c :: after /\ run_ops before s = Ok s1 /\ wf s1 /\ id s1 = i /\ halts s1 c e
      end
  end.
Proof.
  intros Hw Hh Hops. pose proof (surface_new_spec i w h Hw Hh) as Hn. destruct (Surface_new i w h) as [[s|e]|e]; [|done|done].
  destruct Hn as (Hsz & Hs & Hi & _). split; [done|]. unfold run_ops.
  pose proof (for_each_inv (fun c : KernelHeap * SurfaceOp => op_typed c.2) (fun _ s => wf s /\ id s = i) halts (fun c s => run_op (H := c.1) c.2 s)) as Hf.
  assert (forall (n : nat) c s1, op_typed c.2 -> wf s1 /\ id s1 = i -> match run_op (H := c.1) c.2 s1 with Ok s' => wf s' /\ id s' = i | Err e => halts s1 c e end) as Hstep.
  { intros _ c s1 Hc [Hs1 <-]. pose proof (run_op_wf c s1 Hs1 Hc) as Hr. by destruct (run_op (H := c.1) c.2 s1) as [s2|]; [destruct Hr as (? & ? & _)|]. }
  specialize (Hf Hstep ops s Hops (conj Hs Hi)). destruct (for_each ops _ s) as [s'|e].
  - destruct Hf as [Hs' Hi']. split; [done|]. split; [done|]. intros x y. by apply get_pixel_total.
  - destruct Hf as (before & c & after & s1 & E & Eb & [Hs1 Hi1] & Hh'). by exists before, c, after, s1.
Qed.

(** A region update replaces exactly the pixels of its rectangle by those of the data
    read as an image of that size; a rectangle that leaves the surface and data of the
    wrong length are refused and change nothing. *)
Theorem update_region_correct x y w h data s : wf s -> in_width 32 x -> in_width 32 y -> in_width 32 w -> in_width 32 h ->
  x + w < 2 ^ 32 -> y + h < 2 ^ 32 -> Forall (in_width 8) data ->
  if negb ((x + w <=? width s) && (y + h <=? height s)) then update_region x y w h data s = Ok (Err RegionOutOfBounds, s)
  else if negb (Z.of_nat (length data) =? w * h * bytes_per_pixel (format s)) then update_region x y w h data s = Ok (Err InvalidPixelDataSize, s)
  else exists s', update_region x y w h data s = Ok (Ok tt, s') /\ is_dirty s' = true /\ dirty_rects s' = dirty_rects s ++ [mkDirtyRect x y w h] /\
    forall i j, 0 <= i < width s -> 0 <= j < height s ->
      get_pixel i j s' = if (y <=? j) && (j <? y + h) && (x <=? i) && (i <? x + w) then get_pixel (i - x) (j - y) (image s w h data) else get_pixel i j s.
Proof.
  intros Hs Hx Hy Hw Hh Bx By Hd. unfold in_width in *. destruct (Z.leb_spec (x + w) (width s)), (Z.leb_spec (y + h) (height s)); cbn [andb negb].
  2-4: unfold update_region; rewrite (wrap_small 32 (x + w)), (wrap_small 32 (y + h)) by (unfold in_width; lia); destruct (Z.ltb_spec (width s) (x + w)), (Z.ltb_spec (height s) (y + h)); try lia; done.
  pose proof (wf_width _ Hs). pose proof (wf_height _ Hs). destruct (Z.eqb_spec (Z.of_nat (length data)) (w * h * bytes_per_pixel (format s))) as [E|E]; cbn [negb].
  - destruct (update_region_spec x y w h data s) as (p & -> & _ & _ & Hp); [done|lia..|done|done|]. eexists. split; [done|]. split; [done|]. split; [done|]. exact Hp.
  - unfold update_region. rewrite (wrap_small 32 (x + w)), (wrap_small 32 (y + h)), area_small by (unfold in_width; lia).
    destruct (Z.ltb_spec (width s) (x + w)), (Z.ltb_spec (height s) (y + h)); try lia. cbn [orb]. by apply Z.eqb_neq in E as ->.
Qed.

(** The bounds check of a region adds in 32 bits: a rectangle at the last column wraps
    to zero, passes, and the copy indexes past the image and panics. *)
Theorem update_region_wraps s : wf s -> format s = RGBA8888 -> update_region (2 ^ 32 - 1) 0 1 1 [1; 2; 3; 4] s = Err IndexPanic.
Proof.
  intros Hs Hf. pose proof (wf_width _ Hs). pose proof (wf_height _ Hs). pose proof (wf_length _ Hs) as Hl. rewrite Hf in Hl. cbn [bytes_per_pixel] in Hl.
  unfold update_region. rewrite Hf. change ((2 ^ 32 - 1) +[32] 1) with 0. change (0 +[32] 1) with 1. destruct (Z.ltb_spec (width s) 0), (Z.ltb_spec (height s) 1); try lia.
  cbn [orb]. change (negb _) with false. cbn beta iota.
  assert (copy_row s (2 ^ 32 - 1) 0 1 [1; 2; 3; 4] 0 (pixels s) = Err IndexPanic) as E.
  { unfold copy_row. rewrite Hf. cbn [bytes_per_pixel]. change (0 +[32] 0) with 0. rewrite !Z.mul_0_l. change (wrap 32 0) with 0. change (0 +[32] (2 ^ 32 - 1)) with (2 ^ 32 - 1).
    unfold copy_slice. assert (((2 ^ 32 - 1) * 4 + 1 * 4 <=? Z.of_nat (length (pixels s))) = false) as -> by (apply Z.leb_gt; nia). reflexivity. }
  unfold for_range. change (Z.to_nat (1 - 0)) with 1%nat. cbn [for_from]. by rewrite E.
Qed.

(** ** Witnesses *)

Definition demo_surface : Surface := mkSurface 7 2 2 0 0 0 true RGB888 (replicate 12 0) true false [].

Lemma demo_wf : wf demo_surface.
Proof. constructor; try (cbn; unfold is_i32; lia). apply (bool_decide_unpack _). vm_compute. exact I. Qed.

(** A heap with so many bytes in one piece. *)
Definition room (n : Z) : KernelHeap := fun m => m <=? n.

(** A region that fits, a size that does not, and a region at the last column. *)
Lemma surface_typed_witness : exists s s1,
  Surface_new (H := room 16) 7 2 2 = Ok (Ok s) /\
  run_ops [(room 0, UpdateRegion 1 1 1 1 [9; 8; 7; 6])] s = Ok s1 /\ wf s1 /\
  halts s1 (room 100, Resize 10 10) OutOfHeap /\ halts s1 (room 0, UpdateRegion (2 ^ 32 - 1) 0 1 1 [9; 8; 7; 6]) IndexPanic.
Proof.
  pose proof (surface_typed (H := room 16) 7 2 2 [(room 0, UpdateRegion 1 1 1 1 [9; 8; 7; 6])] ltac:(unfold in_width; lia) ltac:(unfold in_width; lia)) as H.
  destruct H as [_ H]; [repeat constructor; cbn; lia|]. eexists. eexists. split; [reflexivity|]. split; [reflexivity|]. split; [exact (proj1 H)|].
  split; [|apply HaltsRegion; left; lia]. apply HaltsResize; [split; lia|reflexivity].
Defined.

Lemma update_region_correct_witness : wf demo_surface /\ exists s', update_region 1 0 1 2 [1; 2; 3; 4; 5; 6] demo_surface = Ok (Ok tt, s') /\ get_pixel 1 1 s' = Ok (Some 0x040506).
Proof.
  split; [exact demo_wf|]. pose proof (update_region_correct 1 0 1 2 [1; 2; 3; 4; 5; 6] demo_surface demo_wf) as H.
  destruct H as (s' & E & _ & _ & Hp); try (unfold in_width; lia).
  - apply (bool_decide_unpack _). vm_compute. exact I.
  - exists s'. split; [exact E|]. rewrite (Hp 1 1) by (cbn; lia). reflexivity.
Defined.

Lemma update_region_wraps_witness : exists s, wf s /\ update_region (2 ^ 32 - 1) 0 1 1 [1; 2; 3; 4] s = Err IndexPanic.
Proof.
  destruct (surface_new_wf (H := room 16) 1 2 2 (mkSurface 1 2 2 0 0 0 true RGBA8888 (replicate 16 0) true false [])) as [Hw _]; [unfold in_width; lia..|reflexivity|].
  eexists. split; [exact Hw|]. apply update_region_wraps; [exact Hw|reflexivity].
Defined.
