(* ===== verification/Compositor.v ===== *)
(** * The compositor and the graphics server

    [graphics/compositor.rs], [graphics/mod.rs].  Surfaces are blended in the order
    of their depth into a back buffer, which is copied to the framebuffer at the end
    of the frame.  Both are written through raw pointers: an access outside the
    buffer is the fault [WildAccess]. *)

From Stdlib Require Import ZArith Lia Bool.
From stdpp Require Import base numbers option list sorting.
From S2P Require Import Prelude Surface.

Open Scope Z_scope.

(** ** Damage *)

Record DamageRect : Type := mkDamageRect { rect_x : Z; rect_y : Z; rect_width : Z; rect_height : Z }.

(** [x + width as i32] *)
Definition edge (x w : Z) : Z := to_i32 (x + to_i32 w).

Definition merge (a b : DamageRect) : DamageRect :=
  let x1 := Z.min (rect_x a) (rect_x b) in
  let y1 := Z.min (rect_y a) (rect_y b) in
  let x2 := Z.max (edge (rect_x a) (rect_width a)) (edge (rect_x b) (rect_width b)) in
  let y2 := Z.max (edge (rect_y a) (rect_height a)) (edge (rect_y b) (rect_height b)) in
  mkDamageRect x1 y1 (wrap 32 (to_i32 (x2 - x1))) (wrap 32 (to_i32 (y2 - y1))).

Definition overlaps (a b : DamageRect) : bool :=
  (rect_x a <? edge (rect_x b) (rect_width b)) && (rect_x b <? edge (rect_x a) (rect_width a)) &&
  (rect_y a <? edge (rect_y b) (rect_height b)) && (rect_y b <? edge (rect_y a) (rect_height a)).

(** ** The compositor *)

(** [framebuffer]: the words behind the pointer.  [c_pitch] counts words. *)
Record Compositor : Type := mkCompositor {
  framebuffer : list Z; c_width : Z; c_height : Z; c_pitch : Z;
  back_buffer : option (list Z); double_buffered : bool;
  damage_rects : list DamageRect; full_redraw : bool;
  frame_count : Z; surface_count : Z; pixels_composited : Z; blend_operations : Z
}.

Definition Compositor_new (fb : list Z) (w h pitch : Z) : Compositor :=
  mkCompositor fb w h (pitch / 4) (Some (replicate (Z.to_nat (w *[64] h)) 0)) true [] true 0 0 0 0.

Definition set_framebuffer (fb : list Z) (c : Compositor) : Compositor :=
  mkCompositor fb (c_width c) (c_height c) (c_pitch c) (back_buffer c) (double_buffered c) (damage_rects c) (full_redraw c)
    (frame_count c) (surface_count c) (pixels_composited c) (blend_operations c).
Definition set_back_buffer (b : option (list Z)) (c : Compositor) : Compositor :=
  mkCompositor (framebuffer c) (c_width c) (c_height c) (c_pitch c) b (double_buffered c) (damage_rects c) (full_redraw c)
    (frame_count c) (surface_count c) (pixels_composited c) (blend_operations c).
Definition set_damage (d : list DamageRect) (full : bool) (c : Compositor) : Compositor :=
  mkCompositor (framebuffer c) (c_width c) (c_height c) (c_pitch c) (back_buffer c) (double_buffered c) d full
    (frame_count c) (surface_count c) (pixels_composited c) (blend_operations c).
Definition set_stats (frames surfaces composited : Z) (c : Compositor) : Compositor :=
  mkCompositor (framebuffer c) (c_width c) (c_height c) (c_pitch c) (back_buffer c) (double_buffered c) (damage_rects c) (full_redraw c)
    frames surfaces composited (blend_operations c).

(** The buffer that is drawn into. *)
Definition dest (c : Compositor) : list Z := match back_buffer c with Some b => b | None => framebuffer c end.
Definition set_dest (d : list Z) (c : Compositor) : Compositor :=
  match back_buffer c with Some _ => set_back_buffer (Some d) c | None => set_framebuffer d c end.

Fixpoint merge_into (rect : DamageRect) (l : list DamageRect) : option (list DamageRect) :=
  match l with
  | [] => None
  | r :: l => if overlaps r rect then Some (merge r rect :: l) else match merge_into rect l with Some l' => Some (r :: l') | None => None end
  end.

Definition add_damage (rect : DamageRect) (c : Compositor) : Compositor :=
  set_damage (match merge_into rect (damage_rects c) with Some l => l | None => damage_rects c ++ [rect] end) (full_redraw c) c.

Definition mark_full_redraw (c : Compositor) : Compositor := set_damage [] true c.

Definition begin_frame (c : Compositor) : Compositor :=
  let c := match back_buffer c with
           | Some b => if full_redraw c then set_back_buffer (Some (replicate (length b) 0xFF000000)) c else c
           | None => c
           end in
  set_stats (frame_count c) 0 0 c.

(** [ptr::copy_nonoverlapping(src.add(from), dst.add(off), n)] *)
Definition copy_words (src : list Z) (from off n : Z) (dst : list Z) : Result (list Z) Fault :=
  if (off + n <=? Z.of_nat (length dst)) && (from + n <=? Z.of_nat (length src)) then
    Ok (list_inserts (Z.to_nat off) (take (Z.to_nat n) (drop (Z.to_nat from) src)) dst)
  else Err WildAccess.

(** [x as usize] of an [i32]: a negative number becomes a huge one. *)
Definition as_usize (x : Z) : Z := wrap 64 x.

Definition copy_frame (b : list Z) (c : Compositor) (fb : list Z) : Result (list Z) Fault :=
  for_range 0 (c_height c) (fun y => copy_words b (y *[64] c_width c) (y *[64] c_pitch c) (c_width c)) fb.

Definition copy_damage (b : list Z) (c : Compositor) (rect : DamageRect) (fb : list Z) : Result (list Z) Fault :=
  let start_y := as_usize (Z.max (rect_y rect) 0) in
  let end_y := as_usize (Z.min (edge (rect_y rect) (rect_height rect)) (to_i32 (c_height c))) in
  let start_x := as_usize (Z.max (rect_x rect) 0) in
  let end_x := as_usize (Z.min (edge (rect_x rect) (rect_width rect)) (to_i32 (c_width c))) in
  for_range start_y end_y (fun y => copy_words b ((y *[64] c_width c) +[64] start_x) ((y *[64] c_pitch c) +[64] start_x) (end_x -[64] start_x)) fb.

Definition end_frame (c : Compositor) : Result Compositor Fault :=
  let copied := match back_buffer c with
                | Some b => if full_redraw c then copy_frame b c (framebuffer c) else for_each (damage_rects c) (copy_damage b c) (framebuffer c)
                | None => Ok (framebuffer c)
                end in
  match copied with
  | Err e => Err e
  | Ok fb => let c := set_damage [] false (set_framebuffer fb c) in Ok (set_stats (frame_count c +[64] 1) (surface_count c) (pixels_composited c) c)
  end.

(** ** Blending *)

Definition opaque (r g b : Z) : Z := Z.lor (Z.lor (Z.lor (Z.shiftl 0xFF 24) (Z.shiftl r 16)) (Z.shiftl g 8)) b.

Definition blend_pixel (r g b a dst : Z) : Z :=
  if a =? 255 then opaque r g b
  else if a =? 0 then dst
  else
    let dst_r := channel dst 16 in
    let dst_g := channel dst 8 in
    let dst_b := channel dst 0 in
    let inv_alpha := 255 - a in
    opaque ((r * a + dst_r * inv_alpha) / 255) ((g * a + dst_g * inv_alpha) / 255) ((b * a + dst_b * inv_alpha) / 255).

(** Reads and writes through the pointer to the buffer. *)
Definition peek (d : list Z) (off : Z) : Result Z Fault := match d !! Z.to_nat off with Some v => Ok v | None => Err WildAccess end.
Definition poke (off v : Z) (d : list Z) : Result (list Z) Fault := if off <? Z.of_nat (length d) then Ok (<[Z.to_nat off := v]> d) else Err WildAccess.

(** ** Drawing a surface *)

(** The buffer and the count of pixels written to it. *)
Definition canvas : Type := list Z * Z.

(** One pixel of an opaque surface, at offsets computed by [blit_surface]. *)
Definition blit_opaque (s : Surface) (src_offset dst_offset : Z) (p : canvas) : Result canvas Fault :=
  match channels (format s) (pixels s) src_offset with
  | Err e => Err e
  | Ok (r, g, b, _) => match poke dst_offset (opaque r g b) p.1 with Ok d => Ok (d, p.2) | Err e => Err e end
  end.

(** One pixel of a surface with alpha. *)
Definition blit_alpha (s : Surface) (src_offset dst_offset : Z) (p : canvas) : Result canvas Fault :=
  match channels (format s) (pixels s) src_offset with
  | Err e => Err e
  | Ok (r, g, b, a) =>
      if a =? 0 then Ok p
      else match (if a =? 255 then Ok (opaque r g b) else match peek p.1 dst_offset with Ok v => Ok (blend_pixel r g b a v) | Err e => Err e end) with
           | Err e => Err e
           | Ok color => match poke dst_offset color p.1 with Ok d => Ok (d, p.2 +[64] 1) | Err e => Err e end
           end
  end.

(** Row [row] of the visible part of a surface. *)
Definition blit_row (c : Compositor) (s : Surface) (start_x start_y src_offset_x src_offset_y copy_width : Z) (row : Z) (p : canvas) : Result canvas Fault :=
  let src_y := src_offset_y +[64] row in
  let dst_y := start_y +[64] row in
  let src_offset col := ((src_y *[64] width s) +[64] (src_offset_x +[64] col)) *[64] bytes_per_pixel (format s) in
  let dst_offset col := ((dst_y *[64] c_width c) +[64] start_x) +[64] col in
  match format s with
  | RGB888 =>
      match for_range 0 copy_width (fun col => blit_opaque s (src_offset col) (dst_offset col)) p with
      | Ok (d, n) => Ok (d, n +[64] copy_width)
      | Err e => Err e
      end
  | _ => for_range 0 copy_width (fun col => blit_alpha s (src_offset col) (dst_offset col)) p
  end.

Definition draw (c : Compositor) (r : Result canvas Fault) : Result Compositor Fault :=
  match r with
  | Ok (d, n) => Ok (set_stats (frame_count c) (surface_count c) n (set_dest d c))
  | Err e => Err e
  end.

Definition blit_surface (s : Surface) (c : Compositor) : Result Compositor Fault :=
  let start_x := as_usize (Z.max (pos_x s) 0) in
  let start_y := as_usize (Z.max (pos_y s) 0) in
  let end_x := as_usize (Z.min (edge (pos_x s) (width s)) (to_i32 (c_width c))) in
  let end_y := as_usize (Z.min (edge (pos_y s) (height s)) (to_i32 (c_height c))) in
  if (end_x <=? start_x) || (end_y <=? start_y) then Ok c
  else
    let src_offset_x := if pos_x s <? 0 then as_usize (to_i32 (- pos_x s)) else 0 in
    let src_offset_y := if pos_y s <? 0 then as_usize (to_i32 (- pos_y s)) else 0 in
    let copy_width := end_x -[64] start_x in
    let copy_height := end_y -[64] start_y in
    draw c (for_range 0 copy_height (blit_row c s start_x start_y src_offset_x src_offset_y copy_width) (dest c, pixels_composited c)).

(** One pixel of a dirty rectangle, and its rows; pixels off the screen are skipped. *)
Definition region_pixel (s : Surface) (c : Compositor) (screen_y y x : Z) (p : canvas) : Result canvas Fault :=
  let screen_x := to_i32 (pos_x s + to_i32 x) in
  if (screen_x <? 0) || (to_i32 (c_width c) <=? screen_x) then Ok p
  else
    let src_offset := ((y *[32] width s) +[32] x) * bytes_per_pixel (format s) in
    let dst_offset := (screen_y *[64] c_width c) +[64] screen_x in
    match channels (format s) (pixels s) src_offset with
    | Err e => Err e
    | Ok (r, g, b, a) =>
        match (match format s with RGB888 => Ok (opaque r g b) | _ => match peek p.1 dst_offset with Ok v => Ok (blend_pixel r g b a v) | Err e => Err e end end) with
        | Err e => Err e
        | Ok color => match poke dst_offset color p.1 with Ok d => Ok (d, p.2) | Err e => Err e end
        end
    end.

Definition region_row (s : Surface) (c : Compositor) (rect : DirtyRect) (y : Z) (p : canvas) : Result canvas Fault :=
  let screen_y := to_i32 (pos_y s + to_i32 y) in
  if (screen_y <? 0) || (to_i32 (c_height c) <=? screen_y) then Ok p
  else for_range (dirty_x rect) (dirty_x rect +[32] dirty_width rect) (region_pixel s c screen_y y) p.

Definition blit_region (s : Surface) (rect : DirtyRect) (c : Compositor) : Result Compositor Fault :=
  draw c (for_range (dirty_y rect) (dirty_y rect +[32] dirty_height rect) (region_row s c rect) (dest c, pixels_composited c)).

Definition composite_surface (s : Surface) (c : Compositor) : Result Compositor Fault :=
  if negb (visible s) then Ok c
  else
    let c := set_stats (frame_count c) (surface_count c +[64] 1) (pixels_composited c) c in
    match dirty_rects s with
    | [] => blit_surface s c
    | rects => for_each rects (blit_region s) c
    end.

(** [fill_rect] counts over [i32]: a size of 2^31 or more draws nothing. *)
Definition fill_row (c : Compositor) (x w color : Z) (screen_y : Z) (d : list Z) : Result (list Z) Fault :=
  for_range 0 (to_i32 w) (fun dx d =>
    let screen_x := to_i32 (x + dx) in
    if (screen_x <? 0) || (to_i32 (c_width c) <=? screen_x) then Ok d
    else poke ((screen_y *[64] c_width c) +[64] screen_x) color d) d.

Definition fill_rect (x y w h color : Z) (c : Compositor) : Result Compositor Fault :=
  match for_range 0 (to_i32 h) (fun dy d =>
      let screen_y := to_i32 (y + dy) in
      if (screen_y <? 0) || (to_i32 (c_height c) <=? screen_y) then Ok d else fill_row c x w color screen_y d) (dest c) with
  | Ok d => Ok (set_dest d c)
  | Err e => Err e
  end.

Definition Compositor_clear (color : Z) (c : Compositor) : Result Compositor Fault :=
  let cleared := match back_buffer c with
    | Some b => Ok (set_back_buffer (Some (replicate (length b) color)) c)
    | None => match for_range 0 (c_height c) (fun y fb => for_range 0 (c_width c) (fun x => poke ((y *[64] c_pitch c) +[64] x) color) fb) (framebuffer c) with
              | Ok fb => Ok (set_framebuffer fb c) | Err e => Err e end
    end in
  match cleared with Ok c => Ok (set_damage (damage_rects c) true c) | Err e => Err e end.

(** ** Painting: loops that change each pixel at most once *)

(** The screen position [(X, Y)] of a buffer with rows of [W] words. *)
Notation at_pixel W X Y := (Z.to_nat (Y * W + X)).

(** [p'] is [p] with the function [f X Y] applied to the pixels in [R]. *)
Definition repaint (W : Z) (f : Z -> Z -> Z -> Z) (R : Z -> Z -> bool) (p p' : list Z) : Prop :=
  length p' = length p /\ forall X Y, 0 <= X < W -> 0 <= Y -> p' !! at_pixel W X Y = (if R X Y then f X Y else (fun v => v)) <$> p !! at_pixel W X Y.

Lemma repaint_none W f (R : Z -> Z -> bool) p : (forall X Y, 0 <= X < W -> R X Y = false) -> repaint W f R p p.
Proof. intros H. split; [done|]. intros X Y HX HY. rewrite H by done. by rewrite option_fmap_id. Qed.

Lemma repaint_ext W f g (R T : Z -> Z -> bool) p p' : (forall X Y, 0 <= X < W -> R X Y = T X Y) -> (forall X Y, 0 <= X < W -> 0 <= Y -> T X Y = true -> f X Y = g X Y) ->
  repaint W f R p p' -> repaint W g T p p'.
Proof.
  intros H Hf [Hl Hp]. split; [done|]. intros X Y HX HY. rewrite Hp, H by done. destruct (T X Y) eqn:E; [|done]. by rewrite Hf.
Qed.

Lemma repaint_compose W f (R S T : Z -> Z -> bool) p p' p'' : (forall X Y, 0 <= X < W -> T X Y = R X Y || S X Y) -> (forall X Y, 0 <= X < W -> R X Y && S X Y = false) ->
  repaint W f R p p' -> repaint W f S p' p'' -> repaint W f T p p''.
Proof.
  intros HT Hd [L1 H1] [L2 H2]. split; [congruence|]. intros X Y HX HY. rewrite H2, H1, HT by done. specialize (Hd X Y HX).
  destruct (R X Y), (S X Y); try done; cbn [orb]; by rewrite ?option_fmap_id.
Qed.

(** A loop whose round [i] repaints [R i], none of it repainted by an earlier round. *)
Lemma paint_range W f (T : Z -> Z -> Z -> bool) (R : Z -> Z -> Z -> bool) a b (body : Z -> canvas -> Result canvas Fault) p : a <= b ->
  (forall X Y, 0 <= X < W -> T a X Y = false) ->
  (forall i X Y, 0 <= X < W -> a <= i < b -> T (i + 1) X Y = T i X Y || R i X Y) ->
  (forall i X Y, 0 <= X < W -> a <= i < b -> T i X Y && R i X Y = false) ->
  (forall i q, a <= i < b -> length q.1 = length p.1 -> exists q', body i q = Ok q' /\ repaint W f (R i) q.1 q'.1) ->
  exists p', for_range a b body p = Ok p' /\ repaint W f (T b) p.1 p'.1.
Proof.
  intros Hab Ha Hs Hd Hb. apply (for_range_inv (fun i q => repaint W f (T i) p.1 q.1)); [done|by apply repaint_none|].
  intros i q Hi Hq. destruct (Hb i q Hi) as (q' & E & Hq'); [apply Hq|]. exists q'. split; [done|].
  eapply repaint_compose; [|..|exact Hq|exact Hq']; intros X Y HX; [by apply Hs|by apply Hd].
Qed.

Lemma at_pixel_inj W X Y X' Y' : 0 <= X < W -> 0 <= X' < W -> 0 <= Y -> 0 <= Y' -> at_pixel W X Y = at_pixel W X' Y' <-> X = X' /\ Y = Y'.
Proof.
  intros HX HX' HY HY'. split; [|by intros [-> ->]]. intros H. apply Z2Nat.inj in H; [|nia..].
  assert (Y = Y') as -> by (destruct (Z.lt_trichotomy Y Y') as [?|[?|?]]; [nia|done|nia]). split; [lia|done].
Qed.

(** Writing one pixel. *)
Lemma repaint_one W f p X Y v : 0 <= X < W -> 0 <= Y -> p !! at_pixel W X Y = Some v ->
  repaint W f (fun X' Y' => (Y' =? Y) && (X' =? X)) p (<[at_pixel W X Y := f X Y v]> p).
Proof.
  intros HX HY Hv. split; [apply length_insert|]. intros X' Y' HX' HY'. destruct (Z.eqb_spec Y' Y) as [->|Hne]; [destruct (Z.eqb_spec X' X) as [->|Hne]|]; cbn [andb].
  - rewrite list_lookup_insert_eq by (by eapply lookup_lt_Some). by rewrite Hv.
  - rewrite list_lookup_insert_ne, option_fmap_id; [done|]. rewrite at_pixel_inj by done. naive_solver.
  - rewrite list_lookup_insert_ne, option_fmap_id; [done|]. rewrite at_pixel_inj by done. naive_solver.
Qed.

(** ** A screen and the surfaces on it *)

(** The machine's screen: the sizes fit [i32] and the buffers have their sizes. *)
Record screen (c : Compositor) : Prop := mkScreen {
  scr_width : 0 < c_width c <= 2 ^ 16;
  scr_height : 0 < c_height c <= 2 ^ 16;
  scr_pitch : c_width c <= c_pitch c <= 2 ^ 16;
  scr_fb : c_pitch c * c_height c <= Z.of_nat (length (framebuffer c));
  scr_back : exists b, back_buffer c = Some b /\ Z.of_nat (length b) = c_width c * c_height c }.

(** The position does not overflow [i32], and no surface lies beyond the left or the
    upper edge. *)
Definition placed (s : Surface) : Prop := 0 <= pos_x s + width s < 2 ^ 31 /\ 0 <= pos_y s + height s < 2 ^ 31.

(** What drawing a surface does to the pixel at a screen position inside it. *)
Definition paint (s : Surface) (X Y v : Z) : Z :=
  match channels (format s) (pixels s) (((Y - pos_y s) * width s + (X - pos_x s)) * bytes_per_pixel (format s)) with
  | Ok (r, g, b, a) => blend_pixel r g b a v
  | Err _ => v
  end.

Definition in_rect (x y w h X Y : Z) : bool := (y <=? Y) && (Y <? y + h) && (x <=? X) && (X <? x + w).

Section Blit.
Context (c : Compositor) (s : Surface) (Hc : screen c) (Hs : wf s) (Hp : placed s).
Notation W := (c_width c).
Notation HT := (c_height c).
Notation area := (Z.to_nat (W * HT)).

Lemma pixel_word X Y (p : list Z) : length p = area -> 0 <= X < W -> 0 <= Y < HT -> exists v, p !! at_pixel W X Y = Some v.
Proof.
  intros Hl HX HY. apply lookup_lt_is_Some_2. rewrite Hl. apply Z2Nat.inj_lt; [nia..|].
  pose proof (Z.mul_le_mono_nonneg_r (Y + 1) HT W). lia.
Qed.

Lemma pixel_channels i j : 0 <= i < width s -> 0 <= j < height s ->
  exists r g b a, channels (format s) (pixels s) ((j * width s + i) * bytes_per_pixel (format s)) = Ok (r, g, b, a).
Proof.
  intros Hi Hj. pose proof (wf_width _ Hs). pose proof (wf_height _ Hs). pose proof (wf_length _ Hs).
  destruct (pixel_offset (width s) (height s) (format s) i j) as (_ & B1 & B2); [lia..|].
  destruct (channels_ok (format s) (pixels s) ((j * width s + i) * bytes_per_pixel (format s))) as (r & g & b & a & E & _); [by apply wf_bytes|done|lia|]. eauto.
Qed.

Lemma poke_ok X Y v (p : list Z) : length p = area -> 0 <= X < W -> 0 <= Y < HT -> poke (Y * W + X) v p = Ok (<[at_pixel W X Y := v]> p).
Proof.
  intros Hl HX HY. destruct (pixel_word X Y p Hl HX HY) as [u Hu]. apply lookup_lt_Some in Hu. unfold poke.
  destruct (Z.ltb_spec (Y * W + X) (Z.of_nat (length p))); [done|]. exfalso. assert (0 <= Y * W + X) by nia. lia.
Qed.

Lemma blit_alpha_paints i j n (p : list Z) : length p = area -> 0 <= i < width s -> 0 <= j < height s -> 0 <= pos_x s + i < W -> 0 <= pos_y s + j < HT ->
  exists q, blit_alpha s ((j * width s + i) * bytes_per_pixel (format s)) ((pos_y s + j) * W + (pos_x s + i)) (p, n) = Ok q /\
    repaint W (paint s) (fun X Y => (Y =? pos_y s + j) && (X =? pos_x s + i)) p q.1.
Proof.
  intros Hl Hi Hj HX HY. destruct (pixel_word _ _ p Hl HX HY) as [v Hv]. destruct (pixel_channels i j Hi Hj) as (r & g & b & a & E).
  assert (paint s (pos_x s + i) (pos_y s + j) v = blend_pixel r g b a v) as Ef.
  { unfold paint. rewrite !Z.add_simpl_l, E. done. }
  pose proof (repaint_one W (paint s) p _ _ v HX (proj1 HY) Hv) as Hr. rewrite Ef in Hr. unfold blit_alpha, peek. cbn [fst snd]. rewrite E, Hv.
  unfold blend_pixel in *. destruct (Z.eqb_spec a 0) as [->|Ha].
  - exists (p, n). split; [done|]. cbn in *. by rewrite list_insert_id in Hr.
  - destruct (Z.eqb_spec a 255) as [->|Ha'].
    all: rewrite poke_ok by done; eexists; split; [done|exact Hr].
Qed.

Lemma blit_opaque_paints i j n (p : list Z) : format s = RGB888 -> length p = area -> 0 <= i < width s -> 0 <= j < height s -> 0 <= pos_x s + i < W -> 0 <= pos_y s + j < HT ->
  exists q, blit_opaque s ((j * width s + i) * bytes_per_pixel (format s)) ((pos_y s + j) * W + (pos_x s + i)) (p, n) = Ok q /\
    repaint W (paint s) (fun X Y => (Y =? pos_y s + j) && (X =? pos_x s + i)) p q.1.
Proof.
  intros Hf Hl Hi Hj HX HY. destruct (pixel_word _ _ p Hl HX HY) as [v Hv]. destruct (pixel_channels i j Hi Hj) as (r & g & b & a & E).
  assert (a = 255) as ->. { unfold channels in E. rewrite Hf in E. repeat case_match; naive_solver. }
  assert (paint s (pos_x s + i) (pos_y s + j) v = opaque r g b) as Ef.
  { unfold paint. rewrite !Z.add_simpl_l, E. done. }
  pose proof (repaint_one W (paint s) p _ _ v HX (proj1 HY) Hv) as Hr. rewrite Ef in Hr. unfold blit_opaque. cbn [fst snd]. rewrite E.
  rewrite poke_ok by done. eexists. split; [done|exact Hr].
Qed.

(** The clipped rectangle of the surface on the screen. *)
Notation sx := (Z.max (pos_x s) 0).
Notation sy := (Z.max (pos_y s) 0).
Notation ex := (Z.min (pos_x s + width s) W).
Notation ey := (Z.min (pos_y s + height s) HT).

Lemma edge_placed : edge (pos_x s) (width s) = pos_x s + width s /\ edge (pos_y s) (height s) = pos_y s + height s.
Proof.
  pose proof (wf_width _ Hs). pose proof (wf_height _ Hs). destruct Hp. unfold edge. rewrite (to_i32_small (width s)), (to_i32_small (height s)), !to_i32_small by lia. done.
Qed.

Lemma usize_small x : 0 <= x < 2 ^ 64 -> as_usize x = x.
Proof. apply wrap_small. Qed.

Lemma row_offsets row col : 0 <= row < ey - sy -> 0 <= col < ex - sx ->
  ((((sy - pos_y s) +[64] row) *[64] width s) +[64] ((sx - pos_x s) +[64] col)) *[64] bytes_per_pixel (format s) =
    ((sy - pos_y s + row) * width s + (sx - pos_x s + col)) * bytes_per_pixel (format s) /\
  (((sy +[64] row) *[64] W) +[64] sx) +[64] col = (pos_y s + (sy - pos_y s + row)) * W + (pos_x s + (sx - pos_x s + col)) /\
  0 <= sx - pos_x s + col < width s /\ 0 <= sy - pos_y s + row < height s.
Proof.
  intros Hr Hcl. pose proof (wf_width _ Hs). pose proof (wf_height _ Hs). pose proof (scr_width _ Hc). pose proof (scr_height _ Hc). destruct Hp.
  assert (0 <= sx - pos_x s + col < width s /\ 0 <= sy - pos_y s + row < height s) as [I J] by lia.
  destruct (pixel_offset (width s) (height s) (format s) (sx - pos_x s + col) (sy - pos_y s + row)) as (_ & B1 & B2); [lia..|].
  assert (0 <= (sy - pos_y s + row) * width s <= 8192 * 8192) as B3 by (split; [apply Z.mul_nonneg_nonneg; lia|apply Z.mul_le_mono_nonneg; lia]).
  assert (width s * height s * bytes_per_pixel (format s) <= 8192 * 8192 * 4) as B4.
  { pose proof (bpp_pos (format s)). apply Z.mul_le_mono_nonneg; [nia| |lia|lia]. apply Z.mul_le_mono_nonneg; lia. }
  assert (0 <= (sy + row) * W <= 2 ^ 16 * 2 ^ 16) as B5 by (split; [apply Z.mul_nonneg_nonneg; lia|apply Z.mul_le_mono_nonneg; lia]).
  split; [|split; [|done]].
  - rewrite (wrap_small 64 (sy - pos_y s + row)), (wrap_small 64 (sx - pos_x s + col)) by (unfold in_width; lia).
    rewrite (wrap_small 64 ((sy - pos_y s + row) * width s)) by (unfold in_width; lia). rewrite (wrap_small 64 (_ + _)) by (unfold in_width; lia).
    pose proof (bpp_pos (format s)). set (o := ((sy - pos_y s + row) * width s + (sx - pos_x s + col)) * bytes_per_pixel (format s)) in *. clearbody o.
    apply wrap_small. unfold in_width. lia.
  - rewrite (wrap_small 64 (sy + row)) by (unfold in_width; lia). rewrite (wrap_small 64 ((sy + row) * W)) by (unfold in_width; lia).
    rewrite (wrap_small 64 (_ + sx)), wrap_small by (unfold in_width; lia). replace (pos_y s + (sy - pos_y s + row)) with (sy + row) by lia. lia.
Qed.

Lemma blit_row_paints row (p : canvas) : length p.1 = area -> 0 <= row < ey - sy -> sx < ex ->
  exists q, blit_row c s sx sy (sx - pos_x s) (sy - pos_y s) (ex - sx) row p = Ok q /\
    repaint W (paint s) (fun X Y => (Y =? sy + row) && (sx <=? X) && (X <? ex)) p.1 q.1.
Proof.
  intros Hl Hr Hx. pose proof (wf_width _ Hs). pose proof (wf_height _ Hs). destruct Hp.
  assert (forall cell : Z -> Z -> canvas -> Result canvas Fault,
    (forall i j n (p : list Z), length p = area -> 0 <= i < width s -> 0 <= j < height s -> 0 <= pos_x s + i < W -> 0 <= pos_y s + j < HT ->
      exists q, cell ((j * width s + i) * bytes_per_pixel (format s)) ((pos_y s + j) * W + (pos_x s + i)) (p, n) = Ok q /\
        repaint W (paint s) (fun X Y => (Y =? pos_y s + j) && (X =? pos_x s + i)) p q.1) ->
    exists q, for_range 0 (ex - sx) (fun col => cell
        (((((sy - pos_y s) +[64] row) *[64] width s) +[64] ((sx - pos_x s) +[64] col)) *[64] bytes_per_pixel (format s))
        ((((sy +[64] row) *[64] W) +[64] sx) +[64] col)) p = Ok q /\
      repaint W (paint s) (fun X Y => (Y =? sy + row) && (sx <=? X) && (X <? ex)) p.1 q.1) as Hcells.
  { intros cell Hcell.
    destruct (paint_range W (paint s) (fun n X Y => (Y =? sy + row) && (sx <=? X) && (X <? sx + n)) (fun n X Y => (Y =? sy + row) && (X =? sx + n)) 0 (ex - sx)
      (fun col => cell (((((sy - pos_y s) +[64] row) *[64] width s) +[64] ((sx - pos_x s) +[64] col)) *[64] bytes_per_pixel (format s)) ((((sy +[64] row) *[64] W) +[64] sx) +[64] col)) p) as (q & E & Hq); [lia|lia|lia|lia| |].
    - intros col [t m] Hcol Ht. destruct (row_offsets row col Hr Hcol) as (-> & -> & I & J). cbn [fst] in *.
      destruct (Hcell (sx - pos_x s + col) (sy - pos_y s + row) m t) as (q & E & Hq); [congruence|lia..|]. exists q. split; [done|].
      eapply repaint_ext; [| |exact Hq]; intros X Y HX; [cbn beta; lia|done].
    - exists q. split; [done|]. eapply repaint_ext; [| |exact Hq]; intros X Y HX; [cbn beta; lia|done]. }
  unfold blit_row. destruct (format s) eqn:Ef; rewrite <- Ef in *.
  - apply (Hcells (blit_alpha s)). intros. by apply blit_alpha_paints.
  - destruct (Hcells (blit_opaque s)) as ([d n] & E & Hq); [intros; by apply blit_opaque_paints|]. rewrite E. eexists. split; [done|exact Hq].
  - apply (Hcells (blit_alpha s)). intros. by apply blit_alpha_paints.
Qed.

(** The compositor after drawing. *)
Definition drawn (d : list Z) (n : Z) : Compositor := set_stats (frame_count c) (surface_count c) n (set_dest d c).

Lemma dest_length : length (dest c) = area.
Proof. destruct (scr_back _ Hc) as (b & E & Hb). unfold dest. rewrite E. lia. Qed.

Lemma drawn_same : drawn (dest c) (pixels_composited c) = c.
Proof. destruct (scr_back _ Hc) as (b & E & Hb). unfold drawn, set_dest, dest. rewrite E. destruct c. cbn in *. by subst. Qed.

Lemma blit_surface_paints : exists d n, blit_surface s c = Ok (drawn d n) /\
  repaint W (paint s) (fun X Y => in_rect (pos_x s) (pos_y s) (width s) (height s) X Y && (0 <=? Y) && (Y <? HT)) (dest c) d.
Proof.
  pose proof (wf_width _ Hs). pose proof (wf_height _ Hs). pose proof (scr_width _ Hc). pose proof (scr_height _ Hc). destruct edge_placed as [Ex Ey]. destruct Hp as [P1 P2].
  unfold blit_surface. rewrite Ex, Ey, (to_i32_small W), (to_i32_small HT), !(usize_small (Z.max _ _)), !(usize_small (Z.min _ _)) by lia.
  assert ((if pos_x s <? 0 then as_usize (to_i32 (- pos_x s)) else 0) = sx - pos_x s) as ->.
  { destruct (Z.ltb_spec (pos_x s) 0); [|lia]. rewrite to_i32_small, usize_small by lia. lia. }
  assert ((if pos_y s <? 0 then as_usize (to_i32 (- pos_y s)) else 0) = sy - pos_y s) as ->.
  { destruct (Z.ltb_spec (pos_y s) 0); [|lia]. rewrite to_i32_small, usize_small by lia. lia. }
  destruct (Z.leb_spec ex sx) as [Cx|Cx]; [|destruct (Z.leb_spec ey sy) as [Cy|Cy]]; cbn [orb].
  1,2: exists (dest c), (pixels_composited c); rewrite drawn_same; split; [done|]; apply repaint_none; unfold in_rect; lia.
  rewrite !(wrap_small 64) by (unfold in_width; lia).
  destruct (paint_range W (paint s) (fun n X Y => (sy <=? Y) && (Y <? sy + n) && (sx <=? X) && (X <? ex)) (fun n X Y => (Y =? sy + n) && (sx <=? X) && (X <? ex)) 0 (ey - sy)
    (blit_row c s sx sy (sx - pos_x s) (sy - pos_y s) (ex - sx)) (dest c, pixels_composited c)) as ([d n] & E & Hq); [lia|lia|lia|lia| |].
  - intros row q Hrow Hl. apply blit_row_paints; [|done|done]. rewrite Hl. apply dest_length.
  - exists d, n. rewrite E. split; [done|]. eapply repaint_ext; [| |exact Hq]; [|done]. intros X Y HX. unfold in_rect. cbn beta. lia.
Qed.
End Blit.

(** ** Rectangles and whole surfaces *)

Definition rect_inside (s : Surface) (r : DirtyRect) : Prop :=
  0 <= dirty_x r /\ 0 <= dirty_width r /\ dirty_x r + dirty_width r <= width s /\ 0 <= dirty_y r /\ 0 <= dirty_height r /\ dirty_y r + dirty_height r <= height s.

Lemma repaint_seq W f g R p p' p'' : repaint W f R p p' -> repaint W g R p' p'' -> repaint W (fun X Y v => g X Y (f X Y v)) R p p''.
Proof.
  intros [L1 H1] [L2 H2]. split; [congruence|]. intros X Y HX HY. rewrite H2, H1 by done. rewrite <- option_fmap_compose. by destruct (R X Y).
Qed.

Lemma repaint_guard W f (R T : Z -> Z -> bool) p p' : repaint W f (fun X Y => R X Y && T X Y) p p' ->
  repaint W (fun X Y v => if R X Y then f X Y v else v) T p p'.
Proof.
  intros [L H1]. split; [done|]. intros X Y HX HY. rewrite H1 by done. destruct (R X Y), (T X Y); done.
Qed.

(** [c'] is [c] with another drawing and other counters. *)
Definition redrawn (c : Compositor) (d : list Z) (c' : Compositor) : Prop := exists surfaces n, c' = set_stats (frame_count c) surfaces n (set_dest d c).

Lemma screen_redrawn c d c' : screen c -> length d = length (dest c) -> redrawn c d c' -> screen c' /\ dest c' = d /\ c_width c' = c_width c /\ c_height c' = c_height c.
Proof.
  intros [] Hl (m & n & ->). destruct scr_back0 as (b & E & Hb). unfold dest, set_dest in *. rewrite E in *. split; [|done].
  constructor; cbn; try done. eexists. split; [done|lia].
Qed.

Lemma redrawn_self c m n : screen c -> redrawn c (dest c) (set_stats (frame_count c) m n c).
Proof. intros Hc. exists m, n. destruct (scr_back _ Hc) as (b & E & _). unfold set_dest, dest. rewrite E. destruct c. cbn in *. by subst. Qed.

Lemma redrawn_trans c d c' d' c'' : redrawn c d c' -> redrawn c' d' c'' -> redrawn c d' c''.
Proof.
  intros (m & n & ->) (m' & n' & ->). exists m', n'. destruct c. unfold set_dest. cbn. destruct back_buffer0; done.
Qed.

Section Composite.
Context (s : Surface) (Hs : wf s) (Hp : placed s).

(** The rows of the screen. *)
Definition on_screen (c : Compositor) (X Y : Z) : bool := (0 <=? Y) && (Y <? c_height c).

Definition paint_rect (r : DirtyRect) (X Y v : Z) : Z :=
  if in_rect (pos_x s + dirty_x r) (pos_y s + dirty_y r) (dirty_width r) (dirty_height r) X Y then paint s X Y v else v.

(** What compositing does to the pixel at [(X, Y)]: the whole surface is drawn if no
    rectangle is marked, and the marked rectangles otherwise. *)
Definition paint_surface (X Y v : Z) : Z :=
  match dirty_rects s with
  | [] => if in_rect (pos_x s) (pos_y s) (width s) (height s) X Y then paint s X Y v else v
  | rects => foldl (fun v r => paint_rect r X Y v) v rects
  end.

Lemma region_pixel_paints c x y (p : canvas) : screen c -> length p.1 = Z.to_nat (c_width c * c_height c) -> 0 <= x < width s -> 0 <= y < height s -> 0 <= pos_y s + y < c_height c ->
  exists q, region_pixel s c (pos_y s + y) y x p = Ok q /\ repaint (c_width c) (paint s) (fun X Y => (Y =? pos_y s + y) && (X =? pos_x s + x)) p.1 q.1.
Proof.
  intros Hc Hl Hx Hy HY. pose proof (wf_width _ Hs). pose proof (wf_height _ Hs). pose proof (scr_width _ Hc). pose proof (scr_height _ Hc). destruct Hp as [P1 P2].
  unfold region_pixel. rewrite (to_i32_small x), (to_i32_small (pos_x s + x)), (to_i32_small (c_width c)) by lia.
  destruct (Z.ltb_spec (pos_x s + x) 0); [|destruct (Z.leb_spec (c_width c) (pos_x s + x))]; cbn [orb].
  1,2: exists p; split; [done|]; apply repaint_none; lia.
  destruct (pixel_offset (width s) (height s) (format s) x y) as (-> & _); [lia..|]. destruct (pixel_channels s Hs x y Hx Hy) as (r & g & b & a & E).
  destruct (pixel_word c (pos_x s + x) (pos_y s + y) p.1 Hl) as [v Hv]; [lia..|].
  assert (0 <= (pos_y s + y) * c_width c <= 2 ^ 16 * 2 ^ 16) as B by (split; [apply Z.mul_nonneg_nonneg; lia|apply Z.mul_le_mono_nonneg; lia]).
  rewrite (wrap_small 64 ((pos_y s + y) * c_width c)), wrap_small by (unfold in_width; lia). rewrite E.
  assert (paint s (pos_x s + x) (pos_y s + y) v = blend_pixel r g b a v) as Ef by (unfold paint; by rewrite !Z.add_simpl_l, E).
  pose proof (repaint_one (c_width c) (paint s) p.1 (pos_x s + x) (pos_y s + y) v ltac:(lia) ltac:(lia) Hv) as Hr. rewrite Ef in Hr.
  assert (match format s with RGB888 => Ok (opaque r g b) | _ => match peek p.1 ((pos_y s + y) * c_width c + (pos_x s + x)) with Ok v => Ok (blend_pixel r g b a v) | Err e => Err e end end
    = Ok (E := Fault) (blend_pixel r g b a v)) as ->.
  { unfold peek. rewrite Hv. destruct (format s) eqn:Ef'; try done. assert (a = 255) as -> by (unfold channels in E; repeat case_match; naive_solver). done. }
  rewrite (poke_ok c) by (done || lia). eexists. split; [done|exact Hr].
Qed.

Lemma blit_region_paints c r : screen c -> rect_inside s r -> exists d c', blit_region s r c = Ok c' /\ redrawn c d c' /\
  repaint (c_width c) (paint_rect r) (on_screen c) (dest c) d.
Proof.
  intros Hc (R1 & R2 & R3 & R4 & R5 & R6). pose proof (wf_width _ Hs). pose proof (wf_height _ Hs). pose proof (scr_width _ Hc). pose proof (scr_height _ Hc). destruct Hp as [P1 P2].
  unfold blit_region. rewrite wrap_small by (unfold in_width; lia).
  destruct (paint_range (c_width c) (paint s)
    (fun n X Y => (pos_y s + dirty_y r <=? Y) && (Y <? pos_y s + n) && (pos_x s + dirty_x r <=? X) && (X <? pos_x s + (dirty_x r + dirty_width r)) && on_screen c X Y)
    (fun n X Y => (Y =? pos_y s + n) && (pos_x s + dirty_x r <=? X) && (X <? pos_x s + (dirty_x r + dirty_width r)) && on_screen c X Y)
    (dirty_y r) (dirty_y r + dirty_height r) (region_row s c r) (dest c, pixels_composited c)) as ([d n] & E & Hq); [lia|unfold on_screen; lia..| |].
  - intros y q Hy Hl. cbn [fst] in Hl. rewrite (dest_length c Hc) in Hl. unfold region_row. rewrite (to_i32_small y), (to_i32_small (pos_y s + y)), (to_i32_small (c_height c)) by lia.
    destruct (Z.ltb_spec (pos_y s + y) 0); [|destruct (Z.leb_spec (c_height c) (pos_y s + y))]; cbn [orb].
    1,2: exists q; split; [done|]; apply repaint_none; unfold on_screen; lia.
    rewrite wrap_small by (unfold in_width; lia).
    destruct (paint_range (c_width c) (paint s) (fun n X Y => (Y =? pos_y s + y) && (pos_x s + dirty_x r <=? X) && (X <? pos_x s + n)) (fun n X Y => (Y =? pos_y s + y) && (X =? pos_x s + n))
      (dirty_x r) (dirty_x r + dirty_width r) (region_pixel s c (pos_y s + y) y) q) as (q' & E & Hq); [lia|lia|lia|lia| |].
    + intros x q' Hx Hl'. apply region_pixel_paints; done || lia || congruence.
    + exists q'. split; [done|]. eapply repaint_ext; [| |exact Hq]; intros X Y HX; [unfold on_screen; cbn beta; lia|done].
  - exists d. eexists. split; [by rewrite E|]. split; [by exists (surface_count c), n|]. unfold paint_rect. apply (repaint_guard _ _ (fun X Y => in_rect _ _ _ _ X Y)).
    eapply repaint_ext; [| |exact Hq]; intros X Y HX; [unfold in_rect; cbn beta; by rewrite !Z.add_assoc|done].
Qed.

Lemma blit_regions_paint l : Forall (rect_inside s) l -> forall c, screen c -> exists d c', for_each l (blit_region s) c = Ok c' /\ redrawn c d c' /\
  repaint (c_width c) (fun X Y v => foldl (fun v r => paint_rect r X Y v) v l) (on_screen c) (dest c) d.
Proof.
  induction 1 as [|r l Hr Hl IH]; intros c Hc; cbn [for_each].
  - exists (dest c), c. split; [done|]. split; [exists (surface_count c), (pixels_composited c); symmetry; by apply drawn_same|].
    split; [done|]. intros X Y HX HY. cbn [foldl]. destruct (on_screen c X Y); by rewrite option_fmap_id.
  - destruct (blit_region_paints c r Hc Hr) as (d & c1 & -> & H1 & Hd). destruct (screen_redrawn c d c1 Hc (proj1 Hd) H1) as (Hc1 & <- & Ew & Eh).
    destruct (IH c1 Hc1) as (d' & c2 & -> & H2 & Hd'). exists d', c2. split; [done|]. split; [by eapply redrawn_trans|].
    assert (on_screen c1 = on_screen c) as Eo by (unfold on_screen; by rewrite Eh). rewrite Ew, Eo in Hd'. exact (repaint_seq _ _ _ _ _ _ _ Hd Hd').
Qed.

Lemma composite_surface_paints c : screen c -> visible s = true -> Forall (rect_inside s) (dirty_rects s) ->
  exists d c', composite_surface s c = Ok c' /\ redrawn c d c' /\ repaint (c_width c) paint_surface (on_screen c) (dest c) d.
Proof.
  intros Hc Hv Hr. unfold composite_surface, paint_surface. rewrite Hv. cbn [negb]. set (c1 := set_stats _ _ _ c).
  pose proof (redrawn_self c (surface_count c +[64] 1) (pixels_composited c) Hc : redrawn c (dest c) c1) as H1.
  destruct (screen_redrawn c _ _ Hc eq_refl H1) as (Hc1 & Ed & Ew & Eh). assert (on_screen c1 = on_screen c) as Eo by (unfold on_screen; by rewrite Eh).
  destruct (dirty_rects s) as [|r0 l].
  - destruct (blit_surface_paints c1 s Hc1 Hs Hp) as (d & n & -> & Hd). exists d, (drawn c1 d n). split; [done|].
    split; [eapply redrawn_trans; [exact H1|]; by exists (surface_count c1), n|]. rewrite <- Ed, <- Ew, <- Eo.
    apply (repaint_guard _ _ (fun X Y => in_rect _ _ _ _ X Y)). eapply repaint_ext; [| |exact Hd]; intros X Y HX; [unfold on_screen; cbn beta; by rewrite andb_assoc|done].
  - destruct (blit_regions_paint _ Hr c1 Hc1) as (d & c2 & -> & H2 & Hd). exists d, c2. split; [done|]. split; [by eapply redrawn_trans|].
    by rewrite <- Ed, <- Ew, <- Eo.
Qed.
End Composite.
