(* ===== verification/Fill.v ===== *)
(** * Filled rectangles ([sys_graphics_fill_rect], [usermode/syscall.rs])

    The system call draws into the surface itself, pixel by pixel, with 32-bit
    coordinates that wrap around.  The pixels that it paints are those whose distance
    from the corner - again modulo 2^32 - is within the rectangle. *)

From Stdlib Require Import ZArith Lia Bool.
From stdpp Require Import base numbers option list.
From S2P Require Import Prelude Surface.

Open Scope Z_scope.

(** One pixel. *)
Definition fill_pixel (sf : Surface) (x y color dy dx : Z) (p : list Z) : Result (list Z) Fault :=
  let px := x +[32] dx in
  let py := y +[32] dy in
  if (px <? width sf) && (py <? height sf) then
    let offset := ((py *[32] width sf) +[32] px) * bytes_per_pixel (format sf) in
    if offset + 3 <? Z.of_nat (length p)
    then store_bytes offset [channel color 24; channel color 16; channel color 8; channel color 0] p
    else Ok p
  else Ok p.

Definition fill_row (sf : Surface) (x y w color dy : Z) : list Z -> Result (list Z) Fault :=
  for_range 0 w (fill_pixel sf x y color dy).

Definition fill_surface (x y w h color : Z) (sf : Surface) : Result Surface Fault :=
  match for_range 0 h (fill_row sf x y w color) (pixels sf) with
  | Ok p => Ok (mark_dirty (set_pixels p sf))
  | Err e => Err e
  end.

Section Fill.
Context (sf : Surface) (Hs : wf sf) (x y color : Z).

(** The image keeps its size and holds bytes. *)
Definition good (p : list Z) : Prop := length p = length (pixels sf) /\ Forall (in_width 8) p.

Lemma fill_pixel_good dy dx p : good p -> exists p', fill_pixel sf x y color dy dx p = Ok p' /\ good p'.
Proof.
  intros [Hl Hb]. unfold fill_pixel. destruct (_ && _); [|by exists p]. set (off := _ * _). destruct (Z.ltb_spec (off + 3) (Z.of_nat (length p))) as [Ho|]; [|by exists p].
  set (bs := [_; _; _; _]). assert (0 <= off) as H0.
  { unfold off. apply Z.mul_nonneg_nonneg; [apply wrap_in_width; lia|]. pose proof (bpp_pos (format sf)). lia. }
  destruct (copy_slice_spec bs 0 off 4 p) as (p' & E & L & _); [lia|done|lia|lia|cbn; lia|]. exists p'. split; [exact E|]. split; [congruence|].
  eapply copy_slice_bytes; [|exact Hb|exact E]. unfold bs. repeat (apply Forall_cons_2; [apply channel_byte|]). apply Forall_nil_2.
Qed.

Lemma fill_row_good w dy p : 0 <= w -> good p -> exists p', fill_row sf x y w color dy p = Ok p' /\ good p'.
Proof. intros Hw Hp. apply (for_range_inv (fun _ => good)); [done|done|]. intros dx q _ Hq. by apply fill_pixel_good. Qed.

Lemma fill_rows_good w h p : 0 <= w -> 0 <= h -> good p -> exists p', for_range 0 h (fill_row sf x y w color) p = Ok p' /\ good p'.
Proof. intros Hw Hh Hp. apply (for_range_inv (fun _ => good)); [done|done|]. intros dy q _ Hq. by apply fill_row_good. Qed.

(** ** The pixels of an RGBA surface *)

Context (Hf : format sf = RGBA8888).

Definition inside (i j c : Z) : Prop := 0 <= i < width sf /\ 0 <= j < height sf /\ 0 <= c < 4.

Definition at_byte (i j c : Z) : nat := Z.to_nat ((j * width sf + i) * 4 + c).

Definition color_byte (c : Z) : option Z := encode_color RGBA8888 color !! Z.to_nat c.

Lemma at_byte_bound i j c : inside i j c -> 0 <= (j * width sf + i) * 4 /\ (j * width sf + i) * 4 + c < Z.of_nat (length (pixels sf)).
Proof.
  intros (Hi & Hj & Hc). pose proof (wf_width _ Hs). pose proof (wf_height _ Hs). rewrite (wf_length _ Hs), Hf. cbn [bytes_per_pixel].
  assert (j * width sf + i + 1 <= width sf * height sf) by nia. nia.
Qed.

(** A pixel is the target of exactly one step. *)
Lemma wrapped_place a d i : 0 <= i < 2 ^ 32 -> 0 <= d < 2 ^ 32 -> (a +[32] d =? i) = (i -[32] a =? d).
Proof.
  intros Hi Hd. unfold wrap. destruct (Z.eqb_spec ((a + d) mod 2 ^ 32) i) as [E|E]; symmetry; [apply Z.eqb_eq|apply Z.eqb_neq].
  - rewrite <- E. rewrite Zminus_mod_idemp_l. replace (a + d - a) with d by lia. by apply Z.mod_small.
  - intros E'. apply E. rewrite <- E'. rewrite Zplus_mod_idemp_r. replace (a + (i - a)) with i by lia. by apply Z.mod_small.
Qed.

Lemma fill_pixel_spec dy dx p : 0 <= dx < 2 ^ 32 -> 0 <= dy < 2 ^ 32 -> good p ->
  exists p', fill_pixel sf x y color dy dx p = Ok p' /\ good p' /\
    forall i j c, inside i j c -> p' !! at_byte i j c = if (j -[32] y =? dy) && (i -[32] x =? dx) then color_byte c else p !! at_byte i j c.
Proof.
  intros Hdx Hdy Hp. destruct (fill_pixel_good dy dx p Hp) as (p' & E & Hp'). exists p'. split; [done|]. split; [done|]. intros i j c Hin.
  pose proof (wf_width _ Hs) as Hw. pose proof (wf_height _ Hs) as Hh. pose proof (at_byte_bound i j c Hin) as [B1 B2]. destruct Hin as (Hi & Hj & Hc).
  rewrite <- !wrapped_place by lia. revert E. unfold fill_pixel. rewrite Hf. cbn [bytes_per_pixel].
  pose proof (wrap_in_width 32 (x + dx) ltac:(lia)) as Rx. pose proof (wrap_in_width 32 (y + dy) ltac:(lia)) as Ry. generalize dependent (x +[32] dx). intros X Rx. generalize dependent (y +[32] dy). intros Y Ry.
  unfold in_width in *. destruct (Z.ltb_spec X (width sf)) as [HX|HX]; [destruct (Z.ltb_spec Y (height sf)) as [HY|HY]|]; cbn [andb].
  2, 3: intros [= <-]; destruct (Z.eqb_spec Y j), (Z.eqb_spec X i); cbn [andb]; done || lia.
  assert (inside X Y 3) as HXY by (unfold inside; lia). pose proof (at_byte_bound X Y 3 HXY) as [C1 C2].
  destruct (pixel_offset (width sf) (height sf) RGBA8888 X Y) as (-> & _); [lia..|]. destruct Hp as [Hl _]. rewrite Hl. destruct (Z.ltb_spec ((Y * width sf + X) * 4 + 3) (Z.of_nat (length (pixels sf)))); [|lia].
  intros E. unfold store_bytes in E. destruct (copy_slice_spec (encode_color RGBA8888 color) 0 ((Y * width sf + X) * 4) 4 p) as (q & E' & _ & L); [lia|lia|lia|lia|cbn; lia|].
  change (copy_slice (encode_color RGBA8888 color) 0 ((Y * width sf + X) * 4) 4 p = Ok p') in E. rewrite E in E'. injection E' as <-. unfold at_byte. rewrite L by lia.
  pose proof (byte_in_run 4 (Y * width sf + X) c (j * width sf + i) 1 Hc) as Hr. replace ((Y * width sf + X) * 4 + 1 * 4) with ((Y * width sf + X) * 4 + 4) in Hr by lia. rewrite Hr.
  destruct (Z.eqb_spec Y j) as [->|Hy]; [destruct (Z.eqb_spec X i) as [->|Hx]|]; cbn [andb].
  - destruct (Z.leb_spec (j * width sf + i) (j * width sf + i)), (Z.ltb_spec (j * width sf + i) (j * width sf + i + 1)); try lia. cbn [andb]. unfold color_byte. do 2 f_equal. lia.
  - destruct (Z.leb_spec (j * width sf + X) (j * width sf + i)), (Z.ltb_spec (j * width sf + i) (j * width sf + X + 1)); cbn [andb]; done || lia.
  - destruct (Z.leb_spec (Y * width sf + X) (j * width sf + i)), (Z.ltb_spec (j * width sf + i) (Y * width sf + X + 1)); cbn [andb]; try done. exfalso. apply Hy. nia.
Qed.

Lemma fill_row_spec w dy p : 0 <= w < 2 ^ 32 -> 0 <= dy < 2 ^ 32 -> good p ->
  exists p', fill_row sf x y w color dy p = Ok p' /\ good p' /\
    forall i j c, inside i j c -> p' !! at_byte i j c = if (j -[32] y =? dy) && (i -[32] x <? w) then color_byte c else p !! at_byte i j c.
Proof.
  intros Hw Hdy Hp. destruct (for_range_inv (fun n q => good q /\ forall i j c, inside i j c -> q !! at_byte i j c = if (j -[32] y =? dy) && (i -[32] x <? n) then color_byte c else p !! at_byte i j c)
    0 w (fill_pixel sf x y color dy) p) as (p' & E & G & L); [lia| | |by exists p'].
  - split; [done|]. intros i j c _. pose proof (wrap_in_width 32 (i - x) ltac:(lia)) as R. unfold in_width in R. destruct (Z.ltb_spec (i -[32] x) 0); [lia|]. by rewrite andb_false_r.
  - intros n q Hn [Gq Lq]. destruct (fill_pixel_spec dy n q) as (q' & E & G & L); [lia|lia|done|]. exists q'. split; [done|]. split; [done|].
    intros i j c Hin. rewrite L, Lq by done. destruct (Z.eqb_spec (j -[32] y) dy), (Z.eqb_spec (i -[32] x) n), (Z.ltb_spec (i -[32] x) n), (Z.ltb_spec (i -[32] x) (n + 1)); cbn [andb]; done || lia.
Qed.

Lemma fill_rows_spec w h : 0 <= w < 2 ^ 32 -> 0 <= h < 2 ^ 32 ->
  exists p, for_range 0 h (fill_row sf x y w color) (pixels sf) = Ok p /\ good p /\
    forall i j c, inside i j c -> p !! at_byte i j c = if (j -[32] y <? h) && (i -[32] x <? w) then color_byte c else pixels sf !! at_byte i j c.
Proof.
  intros Hw Hh. destruct (for_range_inv (fun n q => good q /\ forall i j c, inside i j c -> q !! at_byte i j c = if (j -[32] y <? n) && (i -[32] x <? w) then color_byte c else pixels sf !! at_byte i j c)
    0 h (fill_row sf x y w color) (pixels sf)) as (p' & E & G & L); [lia| | |by exists p'].
  - split; [split; [done|apply (wf_bytes _ Hs)]|]. intros i j c _. pose proof (wrap_in_width 32 (j - y) ltac:(lia)) as R. unfold in_width in R. by destruct (Z.ltb_spec (j -[32] y) 0); [lia|].
  - intros n q Hn [Gq Lq]. destruct (fill_row_spec w n q) as (q' & E & G & L); [lia|lia|done|]. exists q'. split; [done|]. split; [done|].
    intros i j c Hin. rewrite L, Lq by done. destruct (Z.eqb_spec (j -[32] y) n), (Z.ltb_spec (j -[32] y) n), (Z.ltb_spec (j -[32] y) (n + 1)), (Z.ltb_spec (i -[32] x) w); cbn [andb]; done || lia.
Qed.
End Fill.

(** ** The surface afterwards *)

Lemma fill_surface_wf x y w h color sf : wf sf -> 0 <= w -> 0 <= h ->
  exists p, fill_surface x y w h color sf = Ok (mark_dirty (set_pixels p sf)) /\ wf (mark_dirty (set_pixels p sf)).
Proof.
  intros Hs Hw Hh. destruct (fill_rows_good sf x y color w h (pixels sf) Hw Hh) as (p & E & [Hl Hb]); [split; [done|apply (wf_bytes _ Hs)]|].
  exists p. unfold fill_surface. rewrite E. split; [done|]. apply wf_set_dirty, wf_set_pixels; done.
Qed.

Lemma fill_surface_pixels x y w h color sf : wf sf -> format sf = RGBA8888 -> 0 <= w < 2 ^ 32 -> 0 <= h < 2 ^ 32 -> in_width 32 color ->
  exists sf', fill_surface x y w h color sf = Ok sf' /\ wf sf' /\ is_dirty sf' = true /\ id sf' = id sf /\
    forall i j, 0 <= i < width sf -> 0 <= j < height sf ->
      get_pixel i j sf' = if (i -[32] x <? w) && (j -[32] y <? h) then Ok (Some color) else get_pixel i j sf.
Proof.
  intros Hs Hf Hw Hh Hc. destruct (fill_rows_spec sf Hs x y color Hf w h Hw Hh) as (p & E & [Hl Hb] & L). exists (mark_dirty (set_pixels p sf)).
  unfold fill_surface. rewrite E. split; [done|]. assert (wf (mark_dirty (set_pixels p sf))) as Hwf by (apply wf_set_dirty, wf_set_pixels; done).
  split; [done|]. split; [done|]. split; [done|]. intros i j Hi Hj. rewrite !get_pixel_in by done. cbn [pixels mark_dirty set_dirty set_pixels width format]. rewrite Hf. cbn [bytes_per_pixel].
  assert (0 <= (j * width sf + i) * 4) as H0 by (apply (at_byte_bound sf Hs Hf i j 0); unfold inside; lia).
  destruct ((i -[32] x <? w) && (j -[32] y <? h)) eqn:Eb.
  - rewrite (channels_ext RGBA8888 p ((j * width sf + i) * 4) (encode_color RGBA8888 color) 0); [|lia..|].
    + pose proof (pack_encode RGBA8888 color Hc) as Hp. destruct (channels RGBA8888 (encode_color RGBA8888 color) 0); [by rewrite Hp|done].
    + intros c Hcb. pose proof (L i j c) as Lc. unfold at_byte in Lc. rewrite Lc by (unfold inside; cbn in Hcb; lia). rewrite andb_comm, Eb. unfold color_byte. f_equal.
  - rewrite (channels_ext RGBA8888 p ((j * width sf + i) * 4) (pixels sf) ((j * width sf + i) * 4)); [done|lia..|].
    intros c Hcb. pose proof (L i j c) as Lc. unfold at_byte in Lc. rewrite Lc by (unfold inside; cbn in Hcb; lia). by rewrite andb_comm, Eb.
Qed.
