(* ===== verification/Graphics.v ===== *)
(** * The graphics server

    [graphics/mod.rs]: the surfaces of all programs and the frame loop over the
    compositor.  The global server sits behind a lock, so its calls are functions of
    the state; before [init] there is none.  The buffer of a new surface comes from the
    kernel's heap ([KernelHeap]), and the kernel panics if the heap has no room for it. *)

From Stdlib Require Import ZArith Lia Bool.
From stdpp Require Import base numbers option list sorting.
From S2P Require Import Prelude Heap Surface Compositor Fill.

Open Scope Z_scope.

Record GraphicsServer : Type := mkServer { compositor : Compositor; surfaces : list Surface; next_surface_id : Z }.

Inductive ServerError : Type := SurfaceFailed (e : SurfaceError) | SurfaceNotFound | ServerNotInitialized.

Definition GraphicsServer_new (fb : list Z) (w h pitch : Z) : GraphicsServer := mkServer (Compositor_new fb w h pitch) [] 1.

Definition create_surface `{KernelHeap} (w h : Z) (g : GraphicsServer) : Result (Result Z ServerError * GraphicsServer) Fault :=
  let i := next_surface_id g in
  match Surface_new i w h with
  | Err e => Err e
  | Ok (Err e) => Ok (Err (SurfaceFailed e), mkServer (compositor g) (surfaces g) (i +[64] 1))
  | Ok (Ok s) => Ok (Ok i, mkServer (compositor g) (surfaces g ++ [s]) (i +[64] 1))
  end.

Definition destroy_surface (i : Z) (g : GraphicsServer) : Result unit ServerError * GraphicsServer :=
  (Ok tt, mkServer (compositor g) (filter (fun s => id s <> i) (surfaces g)) (next_surface_id g)).

(** The place of the first surface with an identifier: [iter_mut().find(|s| s.id == id)] *)
Definition find_surface (i : Z) (g : GraphicsServer) : option (nat * Surface) := list_find (fun s => id s = i) (surfaces g).

Definition put_surface (k : nat) (s : Surface) (g : GraphicsServer) : GraphicsServer := mkServer (compositor g) (<[k := s]> (surfaces g)) (next_surface_id g).

Definition update_surface (i : Z) (data : list Z) (g : GraphicsServer) : Result (Result unit ServerError * GraphicsServer) Fault :=
  match find_surface i g with
  | None => Ok (Err SurfaceNotFound, g)
  | Some (k, s) =>
      match update_pixels data s with
      | Err e => Err e
      | Ok (Err e, s') => Ok (Err (SurfaceFailed e), put_surface k s' g)
      | Ok (Ok _, s') => Ok (Ok tt, put_surface k (mark_dirty s') g)
      end
  end.

Definition present_surface (i : Z) (g : GraphicsServer) : Result unit ServerError * GraphicsServer :=
  match find_surface i g with
  | None => (Err SurfaceNotFound, g)
  | Some (k, s) => (Ok tt, put_surface k (mkSurface (id s) (width s) (height s) (pos_x s) (pos_y s) (z_order s) (visible s) (format s) (pixels s) (dirty s) true (dirty_rects s)) g)
  end.

(** [sort_by_key(|s| s.z_order)]. *)
Definition sort_by_z : list Surface -> list Surface := sort_by z_order.

Fixpoint composite_all (l : list Surface) (c : Compositor) : Result (list Surface * Compositor) Fault :=
  match l with
  | [] => Ok ([], c)
  | s :: l =>
      match (if visible s && is_dirty s then match composite_surface s c with Ok c' => Ok (clear_dirty s, c') | Err e => Err e end else Ok (s, c)) with
      | Err e => Err e
      | Ok (s', c') => match composite_all l c' with Ok (l', c'') => Ok (s' :: l', c'') | Err e => Err e end
      end
  end.

Definition composite_frame (g : GraphicsServer) : Result GraphicsServer Fault :=
  match composite_all (sort_by_z (surfaces g)) (begin_frame (compositor g)) with
  | Err e => Err e
  | Ok (l, c) => match end_frame c with Ok c' => Ok (mkServer c' l (next_surface_id g)) | Err e => Err e end
  end.

(** ** The global server *)

Definition with_server {R} (f : GraphicsServer -> R * GraphicsServer) (g : option GraphicsServer) : option R * option GraphicsServer :=
  match g with Some g => let '(r, g') := f g in (Some r, Some g') | None => (None, None) end.

Definition if_initialized {R} (f : GraphicsServer -> Result R ServerError * GraphicsServer) (g : option GraphicsServer) : Result R ServerError * option GraphicsServer :=
  match g with Some g => let '(r, g') := f g in (r, Some g') | None => (Err ServerNotInitialized, None) end.

(** The same for the calls that can end the kernel. *)
Definition if_initialized_or {R} (f : GraphicsServer -> Result (Result R ServerError * GraphicsServer) Fault) (g : option GraphicsServer)
  : Result (Result R ServerError * option GraphicsServer) Fault :=
  match g with
  | Some g => match f g with Ok (r, g') => Ok (r, Some g') | Err e => Err e end
  | None => Ok (Err ServerNotInitialized, None)
  end.

Definition graphics_init (fb : list Z) (w h pitch : Z) (_ : option GraphicsServer) : option GraphicsServer := Some (GraphicsServer_new fb w h pitch).
Definition graphics_create_surface `{KernelHeap} (w h : Z) : option GraphicsServer -> Result (Result Z ServerError * option GraphicsServer) Fault := if_initialized_or (create_surface w h).
Definition graphics_destroy_surface (i : Z) : option GraphicsServer -> Result unit ServerError * option GraphicsServer := if_initialized (destroy_surface i).
Definition graphics_present_surface (i : Z) : option GraphicsServer -> Result unit ServerError * option GraphicsServer := if_initialized (present_surface i).
Definition graphics_update_surface (i : Z) (data : list Z) : option GraphicsServer -> Result (Result unit ServerError * option GraphicsServer) Fault := if_initialized_or (update_surface i data).
Definition graphics_composite_frame (g : option GraphicsServer) : Result (option GraphicsServer) Fault :=
  match g with
  | None => Ok None
  | Some g => match composite_frame g with Ok g' => Ok (Some g') | Err e => Err e end
  end.

(** ** Frames *)

Definition drawable (s : Surface) : Prop := wf s /\ placed s /\ Forall (rect_inside s) (dirty_rects s).

Definition needs_drawing (s : Surface) : bool := visible s && is_dirty s.

(** A surface after the frame. *)
Definition after_frame (s : Surface) : Surface := if needs_drawing s then clear_dirty s else s.

Lemma after_frame_sorted l : StronglySorted (fun a b => z_order a <= z_order b) l -> StronglySorted (fun a b => z_order a <= z_order b) (after_frame <$> l).
Proof.
  induction 1 as [|s l Hs IH Hf]; [constructor|]. cbn. constructor; [done|]. apply Forall_fmap. eapply Forall_impl; [exact Hf|].
  intros t. unfold compose, after_frame. by destruct (needs_drawing s), (needs_drawing t).
Qed.

Lemma composite_all_paints l : Forall drawable l -> forall c, screen c -> exists d c', composite_all l c = Ok (after_frame <$> l, c') /\ redrawn c d c' /\
  repaint (c_width c) (fun X Y v => foldl (fun v s => paint_surface s X Y v) v (filter (fun s => needs_drawing s = true) l)) (on_screen c) (dest c) d.
Proof.
  induction 1 as [|s l (Hs & Hp & Hr) Hl IH]; intros c Hc; cbn [composite_all].
  - exists (dest c), c. split; [done|]. split; [exists (surface_count c), (pixels_composited c); symmetry; by apply drawn_same|].
    split; [done|]. intros X Y HX HY. cbn. destruct (on_screen c X Y); by rewrite option_fmap_id.
  - fold (needs_drawing s). rewrite fmap_cons, filter_cons. unfold after_frame at 1. destruct (needs_drawing s) eqn:En.
    + rewrite decide_True by done. apply andb_prop in En as En'. destruct En' as [Hv _].
      destruct (composite_surface_paints s Hs Hp c Hc Hv Hr) as (d & c1 & -> & H1 & Hd). destruct (screen_redrawn c d c1 Hc (proj1 Hd) H1) as (Hc1 & <- & Ew & Eh).
      destruct (IH c1 Hc1) as (d' & c2 & -> & H2 & Hd'). exists d', c2. split; [done|]. split; [by eapply redrawn_trans|].
      assert (on_screen c1 = on_screen c) as Eo by (unfold on_screen; by rewrite Eh). rewrite Ew, Eo in Hd'. exact (repaint_seq _ _ _ _ _ _ _ Hd Hd').
    + rewrite decide_False by done. destruct (IH c Hc) as (d & c1 & -> & H1 & Hd). by exists d, c1.
Qed.

Lemma copy_words_ok src from off n l l' : copy_slice src from off n l = Ok l' -> copy_words src from off n l = Ok l'.
Proof. unfold copy_slice, copy_words. by destruct (_ && _). Qed.

(** The copy of a whole frame: the words of the screen come from the back buffer, and
    those between the end of a line and the next one stay. *)
Lemma copy_frame_spec c b : screen c -> back_buffer c = Some b -> exists fb, copy_frame b c (framebuffer c) = Ok fb /\ length fb = length (framebuffer c) /\
  forall X Y, 0 <= X < c_pitch c -> 0 <= Y < c_height c ->
    fb !! at_pixel (c_pitch c) X Y = if X <? c_width c then b !! at_pixel (c_width c) X Y else framebuffer c !! at_pixel (c_pitch c) X Y.
Proof.
  intros Hc Eb. pose proof (scr_width _ Hc). pose proof (scr_height _ Hc). pose proof (scr_pitch _ Hc). pose proof (scr_fb _ Hc) as Hfb. destruct (scr_back _ Hc) as (b' & Eb' & Hb).
  rewrite Eb in Eb'. injection Eb' as <-. unfold copy_frame.
  destruct (for_range_inv (fun n fb => length fb = length (framebuffer c) /\ forall X Y, 0 <= X < c_pitch c -> 0 <= Y < c_height c ->
    fb !! at_pixel (c_pitch c) X Y = if (Y <? n) && (X <? c_width c) then b !! at_pixel (c_width c) X Y else framebuffer c !! at_pixel (c_pitch c) X Y) 0 (c_height c)
    (fun y => copy_words b (y *[64] c_width c) (y *[64] c_pitch c) (c_width c)) (framebuffer c)) as (fb & E & L & Hk); [lia| | |].
  - split; [done|]. intros X Y HX HY. by destruct (Z.ltb_spec Y 0); [lia|].
  - intros n fb Hn [L Hk]. assert (0 <= n * c_width c /\ n * c_width c + c_width c <= c_width c * c_height c) as [B1 B2] by (pose proof (Z.mul_le_mono_nonneg_r (n + 1) (c_height c) (c_width c)); nia).
    assert (0 <= n * c_pitch c /\ n * c_pitch c + c_pitch c <= c_pitch c * c_height c) as [B3 B4] by (pose proof (Z.mul_le_mono_nonneg_r (n + 1) (c_height c) (c_pitch c)); nia).
    assert (c_pitch c * c_height c <= 2 ^ 16 * 2 ^ 16) as B5 by (apply Z.mul_le_mono_nonneg; lia). assert (c_width c * c_height c <= 2 ^ 16 * 2 ^ 16) as B6 by (apply Z.mul_le_mono_nonneg; lia).
    rewrite !(wrap_small 64) by (unfold in_width; lia). destruct (copy_slice_spec b (n * c_width c) (n * c_pitch c) (c_width c) fb) as (fb' & E & L' & Hk'); [lia..|].
    exists fb'. split; [by apply copy_words_ok|]. split; [congruence|]. intros X Y HX HY. rewrite Hk' by nia.
    pose proof (in_run (c_pitch c) n 0 (c_width c) Y X HX ltac:(lia) ltac:(lia)) as Hr. rewrite Z.add_0_r, Z.add_0_l in Hr. rewrite Hr, Hk by done.
    destruct (Z.eqb_spec Y n) as [->|Hne]; cbn [andb].
    + destruct (Z.leb_spec 0 X); [|lia]. destruct (Z.ltb_spec X (c_width c)); cbn [andb]; [|by rewrite !andb_false_r].
      destruct (Z.ltb_spec n (n + 1)); [|lia]. cbn [andb]. f_equal. lia.
    + destruct (Z.ltb_spec Y n), (Z.ltb_spec Y (n + 1)); lia || done.
  - exists fb. split; [done|]. split; [done|]. intros X Y HX HY. rewrite Hk by done. by destruct (Z.ltb_spec Y (c_height c)); [|lia].
Qed.

Definition server_ok (g : GraphicsServer) : Prop := screen (compositor g) /\ Forall drawable (surfaces g).

(** The back buffer that a frame starts from. *)
Definition background (c : Compositor) : list Z := if full_redraw c then replicate (length (dest c)) 0xFF000000 else dest c.

Lemma begin_frame_redrawn c : screen c -> redrawn c (background c) (begin_frame c).
Proof.
  intros Hc. destruct (scr_back _ Hc) as (b & Eb & _). unfold begin_frame, background, redrawn, set_dest, dest. exists 0, 0. rewrite Eb.
  destruct (full_redraw c); [done|]. destruct c. cbn in *. by rewrite Eb.
Qed.

Lemma end_frame_shows c : screen c -> full_redraw c = true \/ damage_rects c = [] -> exists c', end_frame c = Ok c' /\ back_buffer c' = back_buffer c /\ screen c' /\
  full_redraw c' = false /\ damage_rects c' = [] /\ frame_count c' = frame_count c +[64] 1 /\ c_width c' = c_width c /\ c_height c' = c_height c /\ c_pitch c' = c_pitch c /\
  (full_redraw c = false -> framebuffer c' = framebuffer c) /\
  (full_redraw c = true -> forall X Y, 0 <= X < c_pitch c -> 0 <= Y < c_height c ->
    framebuffer c' !! at_pixel (c_pitch c) X Y = if X <? c_width c then dest c !! at_pixel (c_width c) X Y else framebuffer c !! at_pixel (c_pitch c) X Y).
Proof.
  intros Hc Hd. destruct (scr_back _ Hc) as (b & Eb & Hb). unfold end_frame, dest. rewrite Eb. destruct (full_redraw c) eqn:Ef.
  - destruct (copy_frame_spec c b Hc Eb) as (fb & -> & L & Hk). eexists. split; [done|]. cbn. rewrite Eb. split; [done|]. split; [|naive_solver].
    destruct Hc. constructor; cbn; rewrite ?L; eauto.
  - destruct Hd as [|Hd]; [done|]. rewrite Hd. cbn [for_each]. eexists. split; [done|]. cbn. rewrite Eb. split; [done|]. split; [|naive_solver].
    destruct Hc. constructor; cbn; eauto.
Qed.

Lemma frame_spec g : server_ok g -> full_redraw (compositor g) = true \/ damage_rects (compositor g) = [] ->
  exists g', composite_frame g = Ok g' /\ server_ok g' /\ next_surface_id g' = next_surface_id g /\ full_redraw (compositor g') = false /\ damage_rects (compositor g') = [] /\
    (full_redraw (compositor g) = false -> framebuffer (compositor g') = framebuffer (compositor g)) /\
    StronglySorted (fun a b => z_order a <= z_order b) (surfaces g') /\ surfaces g' = after_frame <$> sort_by_z (surfaces g) /\
    sort_by_z (surfaces g) ≡ₚ surfaces g /\ (forall z, filter (fun s => z_order s = z) (sort_by_z (surfaces g)) = filter (fun s => z_order s = z) (surfaces g)) /\
    forall X Y, 0 <= X < c_width (compositor g) -> 0 <= Y < c_height (compositor g) ->
      let old := default 0 (background (compositor g) !! at_pixel (c_width (compositor g)) X Y) in
      let new := foldl (fun v s => paint_surface s X Y v) old (filter (fun s => needs_drawing s = true) (sort_by_z (surfaces g))) in
      dest (compositor g') !! at_pixel (c_width (compositor g)) X Y = Some new /\
      framebuffer (compositor g') !! at_pixel (c_pitch (compositor g)) X Y =
        if full_redraw (compositor g) then Some new else framebuffer (compositor g) !! at_pixel (c_pitch (compositor g)) X Y.
Proof.
  intros [Hc Hl] Hd. set (c := compositor g) in *. pose proof (begin_frame_redrawn c Hc) as H0.
  assert (length (background c) = length (dest c)) as Lb by (unfold background; destruct (full_redraw c); [apply length_replicate|done]).
  destruct (screen_redrawn c _ _ Hc Lb H0) as (Hc0 & E0 & Ew & Eh). unfold composite_frame. fold c.
  assert (Forall drawable (sort_by_z (surfaces g))) as Hl' by (by unfold sort_by_z; rewrite sort_by_perm).
  destruct (composite_all_paints _ Hl' (begin_frame c) Hc0) as (d & c1 & -> & H1 & Hp). pose proof (redrawn_trans _ _ _ _ _ H0 H1) as H2.
  destruct (screen_redrawn _ _ _ Hc0 (proj1 Hp) H1) as (Hc1 & E1 & Ew1 & Eh1).
  assert (full_redraw c1 = full_redraw c /\ damage_rects c1 = damage_rects c /\ framebuffer c1 = framebuffer c /\ c_pitch c1 = c_pitch c) as (F1 & D1 & B1 & P1).
  { destruct H2 as (m & n & ->). destruct (scr_back _ Hc) as (b & Eb & _). unfold set_dest. rewrite Eb. done. }
  destruct (end_frame_shows c1 Hc1) as (c2 & -> & Eb2 & Hc2 & R2 & D2 & _ & _ & _ & _ & Hsame & Hshow); [by rewrite F1, D1|].
  eexists. split; [done|]. cbn [compositor surfaces]. split; [split; [done|]|].
  { cbn. apply Forall_fmap. eapply Forall_impl; [exact Hl'|]. intros s (W1 & W2 & W3). unfold compose, after_frame. destruct (needs_drawing s); [|done].
    split; [by apply wf_set_dirty|]. split; [done|]. by constructor. }
  split; [done|]. split; [done|]. split; [done|]. split; [intros Hf; by rewrite Hsame, B1 by congruence|].
  split; [apply after_frame_sorted, sort_by_sorted|].
  split; [done|]. split; [apply sort_by_perm|]. split; [intros z; apply sort_by_stable|]. intros X Y HX HY. cbn zeta.
  assert (dest c2 = d) as Ed. { unfold dest in *. rewrite Eb2. destruct (scr_back _ Hc1) as (b & Eb & _). rewrite Eb in *. done. }
  assert (dest c2 !! at_pixel (c_width c) X Y = Some (foldl (fun v s => paint_surface s X Y v) (default 0 (background c !! at_pixel (c_width c) X Y)) (filter (fun s => needs_drawing s = true) (sort_by_z (surfaces g))))) as Hnew.
  { rewrite Ed. rewrite Ew, E0 in Hp. rewrite (proj2 Hp X Y) by lia. unfold on_screen. rewrite Eh. destruct (Z.leb_spec 0 Y), (Z.ltb_spec Y (c_height c)); try lia. cbn [andb].
    destruct (pixel_word c X Y (background c)) as [v Hv]; [rewrite Lb; by apply dest_length|done|done|]. by rewrite Hv. }
  split; [done|]. pose proof (scr_pitch _ Hc). rewrite <- F1. destruct (full_redraw c1) eqn:Ef.
  - rewrite <- P1, Hshow by (done || lia). rewrite E1, <- Ed. rewrite Ew1, Ew. destruct (Z.ltb_spec X (c_width c)); [done|lia].
  - by rewrite (Hsame eq_refl), B1.
Qed.

(** C10: A frame does not fault.  The surfaces end up in the order of their depth, and those
    of one depth in the order in which they were; each pixel of the back buffer is the
    composition, in that order, of what the visible changed surfaces do to it; and the
    screen shows it if the whole screen was to be drawn. *)
Theorem frame_correct g : server_ok g -> full_redraw (compositor g) = true \/ damage_rects (compositor g) = [] ->
  exists g', composite_frame g = Ok g' /\ server_ok g' /\
    StronglySorted (fun a b => z_order a <= z_order b) (surfaces g') /\ surfaces g' = after_frame <$> sort_by_z (surfaces g) /\
    sort_by_z (surfaces g) ≡ₚ surfaces g /\ (forall z, filter (fun s => z_order s = z) (sort_by_z (surfaces g)) = filter (fun s => z_order s = z) (surfaces g)) /\
    forall X Y, 0 <= X < c_width (compositor g) -> 0 <= Y < c_height (compositor g) ->
      let old := default 0 (background (compositor g) !! at_pixel (c_width (compositor g)) X Y) in
      let new := foldl (fun v s => paint_surface s X Y v) old (filter (fun s => needs_drawing s = true) (sort_by_z (surfaces g))) in
      dest (compositor g') !! at_pixel (c_width (compositor g)) X Y = Some new /\
      framebuffer (compositor g') !! at_pixel (c_pitch (compositor g)) X Y =
        if full_redraw (compositor g) then Some new else framebuffer (compositor g) !! at_pixel (c_pitch (compositor g)) X Y.
Proof.
  intros Hg Hd. destruct (frame_spec g Hg Hd) as (g' & E & Hok & _ & _ & _ & _ & H). by exists g'.
Qed.

(** ** Sequences of calls *)

Inductive ServerOp : Type :=
| Create (w h : Z) | Destroy (i : Z) | Update (i : Z) (data : list Z) | Present (i : Z) | FillRect (i x y w h color : Z) | Composite.

(** What a program fills is its surface ([sys_graphics_fill_rect]). *)
Definition run_server `{KernelHeap} (o : ServerOp) (g : GraphicsServer) : Result GraphicsServer Fault :=
  match o with
  | Create w h => match create_surface w h g with Ok (_, g') => Ok g' | Err e => Err e end
  | Destroy i => Ok (destroy_surface i g).2
  | Update i data => match update_surface i data g with Ok (_, g') => Ok g' | Err e => Err e end
  | Present i => Ok (present_surface i g).2
  | FillRect i x y w h color =>
      match find_surface i g with
      | None => Ok g
      | Some (k, s) => match fill_surface x y w h color s with Ok s' => Ok (put_surface k s' g) | Err e => Err e end
      end
  | Composite => composite_frame g
  end.

(** Each call finds the heap in a state of its own. *)
Definition run_servers : list (KernelHeap * ServerOp) -> GraphicsServer -> Result GraphicsServer Fault := fun l => for_each l (fun c g => run_server (H := c.1) c.2 g).

Definition server_op_typed (o : ServerOp) : Prop :=
  match o with
  | Create w h => in_width 32 w /\ in_width 32 h
  | Update _ data => Forall (in_width 8) data
  | FillRect _ x y w h color => in_width 32 x /\ in_width 32 y /\ in_width 32 w /\ in_width 32 h /\ in_width 32 color
  | Destroy _ | Present _ | Composite => True
  end.

(** The one call that ends the kernel. *)
Inductive server_halts : KernelHeap * ServerOp -> Fault -> Prop :=
| HaltsCreate (heap : KernelHeap) w h : size_ok w h -> heap_has (w * h * 4) = false -> server_halts (heap, Create w h) OutOfHeap.

(** Surfaces have distinct identifiers, and the next one is new. *)
Definition ids_fresh (g : GraphicsServer) : Prop :=
  0 < next_surface_id g /\ NoDup (id <$> surfaces g) /\ Forall (fun s => 0 < id s < next_surface_id g) (surfaces g).

Lemma Forall_filter_keep (P Q : Surface -> Prop) `{forall s, Decision (Q s)} l : Forall P l -> Forall P (filter Q l).
Proof. rewrite !Forall_forall. intros Hl s Hs. apply list_elem_of_filter in Hs as [_ Hs]. by apply Hl. Qed.

Lemma filter_ids (Q : Surface -> Prop) `{forall s, Decision (Q s)} l : id <$> filter Q l `sublist_of` id <$> l.
Proof. induction l as [|s l IH]; [done|]. rewrite filter_cons. destruct (decide (Q s)); cbn; by constructor. Qed.

Lemma ids_insert (l : list Surface) k s s' : l !! k = Some s -> id s' = id s -> id <$> (<[k := s']> l) = id <$> l.
Proof.
  intros Hk Hi. rewrite list_fmap_insert, Hi. apply list_insert_id. by rewrite list_lookup_fmap, Hk.
Qed.

Lemma put_surface_ids k s s' g : surfaces g !! k = Some s -> id s' = id s -> ids_fresh g -> ids_fresh (put_surface k s' g).
Proof.
  intros Hk Hi (F0 & F1 & F2). split; [done|]. cbn. rewrite (ids_insert _ _ s) by done. split; [done|].
  apply Forall_insert; [done|]. rewrite Hi. by eapply (Forall_lookup_1 _ _ _ _ F2).
Qed.

Lemma new_drawable `{KernelHeap} i w h : in_width 32 w -> in_width 32 h ->
  match Surface_new i w h with
  | Ok (Ok s) => drawable s /\ id s = i
  | Ok (Err _) => ~ size_ok w h
  | Err e => e = OutOfHeap /\ size_ok w h /\ heap_has (w * h * 4) = false
  end.
Proof.
  intros Hw Hh. pose proof (surface_new_spec i w h Hw Hh) as Hn. destruct (Surface_new i w h) as [[s|e]|e]; [|done|done].
  destruct Hn as (_ & Hs & Hi & _ & Hx & Hy & Hr). split; [|done]. split; [done|]. unfold placed. rewrite Hx, Hy, Hr. pose proof (wf_width _ Hs). pose proof (wf_height _ Hs).
  split; [split; lia|constructor].
Qed.

Lemma update_pixels_drawable data s : drawable s -> Forall (in_width 8) data ->
  exists r s', update_pixels data s = Ok (r, s') /\ drawable s' /\ drawable (mark_dirty s') /\ id s' = id s.
Proof.
  intros (Hs & Hp & Hr) Hd. destruct (update_pixels data s) as [[r s']|e] eqn:Eu.
  2:{ exfalso. pose proof (run_op_wf (fun _ => true, UpdatePixels data) s Hs Hd) as Ho. cbn [fst snd run_op] in Ho. rewrite Eu in Ho. inversion Ho. }
  pose proof (run_op_wf (fun _ => true, UpdatePixels data) s Hs Hd) as Ho. cbn [fst snd run_op] in Ho. rewrite Eu in Ho. destruct Ho as (Hs' & Hi & _). exists r, s'. split; [done|].
  assert (placed s' /\ Forall (rect_inside s') (dirty_rects s')) as [Hp' Hr'].
  { unfold update_pixels in Eu. repeat case_match; try done; injection Eu as <- <-; done. }
  split; [done|]. split; [|done]. split; [by apply wf_set_dirty|done].
Qed.

Lemma filled_drawable x y w h color sf : drawable sf -> 0 <= w -> 0 <= h -> exists sf', fill_surface x y w h color sf = Ok sf' /\ drawable sf' /\ id sf' = id sf.
Proof.
  intros (Hw & Hp & Hr) H1 H2. destruct (fill_surface_wf x y w h color sf Hw H1 H2) as (p & E & Hw'). eexists. split; [exact E|]. split; [|done]. by split.
Qed.

(** A surface of the server is replaced by another one with its identifier. *)
Lemma put_surface_ok k s s' g : server_ok g -> ids_fresh g -> surfaces g !! k = Some s -> drawable s' -> id s' = id s ->
  server_ok (put_surface k s' g) /\ ids_fresh (put_surface k s' g).
Proof. intros [Hc Hl] Hid Hk Hs Hi. split; [split; [done|by apply Forall_insert]|by apply (put_surface_ids k s)]. Qed.

Lemma find_surface_some i g k s : server_ok g -> find_surface i g = Some (k, s) -> surfaces g !! k = Some s /\ drawable s.
Proof. intros [_ Hl] E. apply list_find_Some in E as (Hk & _ & _). split; [done|]. by eapply (Forall_lookup_1 _ _ _ _ Hl). Qed.

(** One call: it leaves a server in order, or it ends the kernel as it may. *)
Definition stepped (o : ServerOp) (g g' : GraphicsServer) : Prop :=
  server_ok g' /\ ids_fresh g' /\ next_surface_id g' <= next_surface_id g + 1 /\
  match o with Composite => full_redraw (compositor g') = false /\ damage_rects (compositor g') = [] /\ (full_redraw (compositor g) = false -> framebuffer (compositor g') = framebuffer (compositor g))
  | _ => compositor g' = compositor g end.

Lemma stepped_same o g : o <> Composite -> server_ok g -> ids_fresh g -> stepped o g g.
Proof. intros Ho Hok Hid. split; [done|]. split; [done|]. split; [lia|]. by destruct o. Qed.

Lemma create_surface_ok `{KernelHeap} w h g : server_ok g -> ids_fresh g -> in_width 32 w -> in_width 32 h -> next_surface_id g + 1 < 2 ^ 64 ->
  match create_surface w h g with
  | Ok (Ok i, g') => i = next_surface_id g /\ stepped (Create w h) g g'
  | Ok (Err _, g') => ~ size_ok w h /\ stepped (Create w h) g g'
  | Err e => e = OutOfHeap /\ size_ok w h /\ heap_has (w * h * 4) = false
  end.
Proof.
  intros [Hc Hl] (F0 & F1 & F2) Hw Hh Hn. unfold create_surface. pose proof (new_drawable (next_surface_id g) w h Hw Hh) as Hs.
  destruct (Surface_new (next_surface_id g) w h) as [[s|e]|e]; [| |done]; rewrite wrap_small by (unfold in_width; lia); (split; [done|]).
  - destruct Hs as [Hs Hi]. split; [split; [done|]; apply Forall_app_2; [done|by constructor]|]. split; [|split; [cbn; lia|done]].
    split; [cbn; lia|]. split; cbn.
    + rewrite fmap_app. apply NoDup_app. split; [done|]. split; [|by apply NoDup_singleton]. intros j Hj Hj'. apply list_elem_of_singleton in Hj' as ->.
      apply list_elem_of_fmap in Hj as (t & Et & Ht). rewrite Forall_forall in F2. specialize (F2 t Ht). lia.
    + apply Forall_app_2; [eapply Forall_impl; [exact F2|]; cbn; lia|]. constructor; [lia|done].
  - split; [by split|]. split; [|split; [cbn; lia|done]]. split; [cbn; lia|]. split; [done|]. eapply Forall_impl; [exact F2|]; cbn; lia.
Qed.

Lemma update_surface_ok i data g : server_ok g -> ids_fresh g -> Forall (in_width 8) data -> exists r g', update_surface i data g = Ok (r, g') /\ stepped (Update i data) g g'.
Proof.
  intros Hok Hid Hd. unfold update_surface. destruct (find_surface i g) as [[k s]|] eqn:E; [|eexists; exists g; split; [done|by apply stepped_same]].
  apply find_surface_some in E as [Hk Hs]; [|done]. destruct (update_pixels_drawable data s Hs Hd) as (r & s' & -> & D1 & D2 & Hi).
  destruct r; (eexists; eexists; split; [done|]; split; [by apply (put_surface_ok k s)|]; split; [by apply (put_surface_ok k s)|]; split; [cbn; lia|done]).
Qed.

Lemma run_server_ok (c : KernelHeap * ServerOp) g : server_ok g -> ids_fresh g -> server_op_typed c.2 -> next_surface_id g + 1 < 2 ^ 64 ->
  (c.2 = Composite -> full_redraw (compositor g) = true \/ damage_rects (compositor g) = []) ->
  match run_server (H := c.1) c.2 g with Ok g' => stepped c.2 g g' | Err e => server_halts c e end.
Proof.
  intros Hok Hid Ht Hn Hd. destruct c as [heap o]. cbn [fst snd] in *. destruct o as [w h|i|i data|i|i x y w h color|]; cbn [run_server].
  - destruct Ht as [Hw Hh]. pose proof (create_surface_ok w h g Hok Hid Hw Hh Hn) as Hc. destruct (create_surface w h g) as [[[i|e] g']|e]; [by destruct Hc..|]. destruct Hc as (-> & Hs & Hf). by constructor.
  - destruct Hok as [Hc Hl], Hid as (F0 & F1 & F2). split; [split; [done|]; by apply Forall_filter_keep|]. split; [|split; [cbn; lia|done]]. split; [done|]. split; [|by apply Forall_filter_keep].
    cbn. eapply sublist_NoDup; [exact F1|]. apply filter_ids.
  - by destruct (update_surface_ok i data g Hok Hid Ht) as (r & g' & -> & Hs).
  - unfold present_surface. destruct (find_surface i g) as [[k s]|] eqn:E; [|by apply stepped_same]. apply find_surface_some in E as [Hk Hs]; [|done]. destruct Hs as ([] & Hp & Hr).
    destruct (put_surface_ok k s (mkSurface (id s) (width s) (height s) (pos_x s) (pos_y s) (z_order s) (visible s) (format s) (pixels s) (dirty s) true (dirty_rects s)) g) as [H1 H2]; [done|done|done| |done|].
    + split; [by constructor|by split].
    + split; [done|]. split; [done|]. split; [cbn; lia|done].
  - destruct (find_surface i g) as [[k s]|] eqn:E; [|by apply stepped_same]. apply find_surface_some in E as [Hk Hs]; [|done]. unfold server_op_typed, in_width in Ht.
    destruct (filled_drawable x y w h color s Hs) as (s' & -> & Hs' & Hi); [lia..|]. destruct (put_surface_ok k s s' g) as [H1 H2]; [done..|]. split; [done|]. split; [done|]. split; [cbn; lia|done].
  - destruct (frame_spec g Hok (Hd eq_refl)) as (g' & -> & Hok' & En & Hf & Hdm & Hfb & _ & Hp & _). split; [done|]. destruct Hid as (F0 & F1 & F2).
    split; [|split; [lia|done]]. split; [lia|]. rewrite En, Hp. split.
    + rewrite <- list_fmap_compose. erewrite list_fmap_ext; [by unfold sort_by_z; rewrite sort_by_perm|]. intros k s _. unfold compose, after_frame. by destruct (needs_drawing s).
    + apply Forall_fmap. unfold sort_by_z. rewrite sort_by_perm. eapply Forall_impl; [exact F2|]. intros s. unfold compose, after_frame. by destruct (needs_drawing s).
Qed.

(** A server in use, with so many calls to come; [fb] is the screen since the first frame. *)
Definition in_use (fb : option (list Z)) (n : nat) (g : GraphicsServer) : Prop :=
  server_ok g /\ ids_fresh g /\ next_surface_id g + Z.of_nat n < 2 ^ 64 /\ (full_redraw (compositor g) = true \/ damage_rects (compositor g) = []) /\
  match fb with Some l => full_redraw (compositor g) = false /\ framebuffer (compositor g) = l | None => True end.

Lemma run_servers_ok fb l g : Forall (fun c => server_op_typed c.2) l -> in_use fb (length l) g ->
  match run_servers l g with
  | Ok g' => in_use fb 0 g'
  | Err e => exists before c after g1, l = before ++ c :: after /\ run_servers before g = Ok g1 /\ in_use fb (S (length after)) g1 /\ server_halts c e
  end.
Proof.
  intros Hl Hg. apply (for_each_inv (fun c : KernelHeap * ServerOp => server_op_typed c.2) (in_use fb) (fun _ => server_halts) (fun c g => run_server (H := c.1) c.2 g)); [|done..].
  intros n c g1 Hc (Hok & Hid & Hn & Hd & Hfb). pose proof (run_server_ok c g1 Hok Hid Hc ltac:(lia) (fun _ => Hd)) as Hr. destruct (run_server (H := c.1) c.2 g1) as [g2|e]; [|done].
  destruct Hr as (Hok2 & Hid2 & Hn2 & Hc2). split; [done|]. split; [done|]. split; [lia|]. destruct c.2; try (rewrite Hc2; done). destruct Hc2 as (E1 & E2 & E3). split; [by right|].
  destruct fb as [fb|]; [|done]. destruct Hfb as [F1 <-]. split; [done|by apply E3].
Qed.

Lemma server_start fb w h pitch (n : nat) : 0 < w <= 2 ^ 16 -> 0 < h <= 2 ^ 16 -> w <= pitch / 4 <= 2 ^ 16 -> pitch / 4 * h <= Z.of_nat (length fb) ->
  Z.of_nat n < 2 ^ 64 - 1 -> in_use None n (GraphicsServer_new fb w h pitch).
Proof.
  intros Hw Hh Hp Hfb Hn. split; [|split; [split; [cbn; lia|split; constructor]|split; [cbn; lia|split; [by left|done]]]].
  split; [|constructor]. assert (w * h <= 2 ^ 16 * 2 ^ 16) by (apply Z.mul_le_mono_nonneg; lia). constructor; cbn; try lia.
  eexists. split; [done|]. rewrite length_replicate, wrap_small by (unfold in_width; lia). lia.
Qed.

(** C23: The server faults only when memory runs out: from a start on a screen of the size
    of its framebuffer, every sequence of typed calls of programs, each on whatever heap,
    succeeds or is refused with an error, every surface keeps its type and stays where the
    compositor can draw it, and no two surfaces have the same identifier - or the kernel
    ends, the server being in order, at the creation of a surface with sides from 1 to 8192
    for whose four bytes a pixel the heap has no room. *)
Theorem server_safe fb w h pitch l : 0 < w <= 2 ^ 16 -> 0 < h <= 2 ^ 16 -> w <= pitch / 4 <= 2 ^ 16 -> pitch / 4 * h <= Z.of_nat (length fb) ->
  Forall (fun c => server_op_typed c.2) l -> Z.of_nat (length l) < 2 ^ 64 - 1 ->
  match run_servers l (GraphicsServer_new fb w h pitch) with
  | Ok g => server_ok g /\ ids_fresh g
  | Err e => exists before c after g, l = before ++ c :: after /\ run_servers before (GraphicsServer_new fb w h pitch) = Ok g /\ server_ok g /\ ids_fresh g /\ server_halts c e
  end.
Proof.
  intros Hw Hh Hp Hfb Hl Hn. pose proof (run_servers_ok None l _ Hl (server_start fb w h pitch _ Hw Hh Hp Hfb Hn)) as Hr.
  destruct (run_servers l _) as [g|e]; [by destruct Hr as (? & ? & _)|]. destruct Hr as (before & c & after & g & E & Eb & (Hok & Hid & _) & Hh'). by exists before, c, after, g.
Qed.

(** A program can end the kernel: it may ask for a surface of 8192 by 8192 pixels, for
    which the heap has no room in any state that its use leads to. *)
Theorem largest_surface_halts h live g : Heap.client h live -> graphics_create_surface (H := heap_answer h) 8192 8192 (Some g) = Err OutOfHeap.
Proof.
  intros Hc. unfold graphics_create_surface, if_initialized_or, create_surface, Surface_new, zeroed. change ((8192 =? 0) || (8192 =? 0)) with false. change ((8192 <? 8192) || (8192 <? 8192)) with false.
  cbn beta iota. assert (@heap_has (heap_answer h) ((8192 *[32] 8192) * bytes_per_pixel RGBA8888) = false) as ->; [|done]. by apply (heap_too_small h live).
Qed.

(** Only the first frame reaches the screen: nothing marks damage, so after it the
    framebuffer stays as it is whatever programs draw and present. *)
Theorem later_frames_not_shown g l : server_ok g -> ids_fresh g -> full_redraw (compositor g) = false -> damage_rects (compositor g) = [] ->
  Forall (fun c => server_op_typed c.2) l -> next_surface_id g + Z.of_nat (length l) < 2 ^ 64 ->
  match run_servers l g with Ok g' => framebuffer (compositor g') = framebuffer (compositor g) | Err e => exists c, c ∈ l /\ server_halts c e end.
Proof.
  intros Hok Hid Hf Hd Hl Hn. pose proof (run_servers_ok (Some (framebuffer (compositor g))) l g Hl) as Hr. destruct (run_servers l g) as [g'|e].
  - apply Hr. split; [done|]. split; [done|]. split; [done|]. split; [by right|done].
  - destruct Hr as (before & c & after & g1 & -> & _ & _ & Hh); [split; [done|]; split; [done|]; split; [done|]; split; [by right|done]|]. exists c. split; [|done].
    apply elem_of_app. right. apply list_elem_of_here.
Qed.

(** Drawing a surface that lies wholly beyond the left edge ends the kernel: its right
    edge is negative and becomes a huge number. *)
Theorem offscreen_left_faults c s : screen c -> wf s -> - 2 ^ 31 < pos_x s -> pos_x s + width s < 0 -> 0 <= pos_y s < c_height c -> exists e, blit_surface s c = Err e.
Proof.
  intros Hc Hs Hx Hxw Hy. pose proof (wf_width _ Hs). pose proof (wf_height _ Hs). pose proof (scr_width _ Hc). pose proof (scr_height _ Hc). pose proof (wf_length _ Hs) as Hl. pose proof (bpp_pos (format s)).
  assert (as_usize (pos_x s + width s) = 2 ^ 64 + (pos_x s + width s)) as Hu.
  { unfold as_usize, wrap. symmetry. apply (Z.mod_unique_pos _ _ (-1)); lia. }
  unfold blit_surface, edge. cbv zeta. rewrite (to_i32_small (width s)), (to_i32_small (height s)), (to_i32_small (pos_x s + width s)), (to_i32_small (pos_y s + height s)), (to_i32_small (c_width c)), (to_i32_small (c_height c)), (to_i32_small (- pos_x s)) by lia.
  rewrite (Z.max_r (pos_x s)), (Z.max_l (pos_y s)), (Z.min_l (pos_x s + width s)) by lia. rewrite Hu, !usize_small by lia.
  destruct (Z.leb_spec (2 ^ 64 + (pos_x s + width s)) 0), (Z.leb_spec (Z.min (pos_y s + height s) (c_height c)) (pos_y s)); try lia. cbn [orb].
  destruct (Z.ltb_spec (pos_x s) 0), (Z.ltb_spec (pos_y s) 0); try lia. rewrite (wrap_small 64 (_ - 0)) by (unfold in_width; lia).
  set (row := blit_row _ _ _ _ _ _ _). set (p := (dest c, pixels_composited c)). set (n := _ - pos_y s).
  assert (exists e, for_range 0 n row p = Err e) as [e ->]; [|by exists e].
  apply (for_range_err 0 0); [lia|]. intros q. unfold row, blit_row.
  assert (0 < width s * height s <= 8192 * 8192) as B by (split; [nia|apply Z.mul_le_mono_nonneg; lia]).
  set (col := width s * height s) in *.
  assert (channels (format s) (pixels s) ((((0 +[64] 0) *[64] width s) +[64] (- pos_x s +[64] col)) *[64] bytes_per_pixel (format s)) = Err IndexPanic) as Ec.
  { change (0 +[64] 0) with 0. rewrite Z.mul_0_l. change (wrap 64 0) with 0. rewrite (wrap_small 64 (- pos_x s + col)) by (unfold in_width; lia). rewrite Z.add_0_l.
    rewrite (wrap_small 64 (- pos_x s + col)) by (unfold in_width; lia). rewrite wrap_small by (unfold in_width; nia).
    unfold channels, load. rewrite lookup_ge_None_2; [done|]. apply Nat2Z.inj_le. rewrite Hl, Z2Nat.id by nia. nia. }
  assert (exists e, for_range 0 (2 ^ 64 + (pos_x s + width s) - 0) (fun col => blit_alpha s ((((0 +[64] 0) *[64] width s) +[64] (- pos_x s +[64] col)) *[64] bytes_per_pixel (format s)) ((((pos_y s +[64] 0) *[64] c_width c) +[64] 0) +[64] col)) q = Err e) as [e1 E1].
  { apply (for_range_err 0 col); [lia|]. intros q'. unfold blit_alpha. rewrite Ec. by eexists. }
  assert (exists e, for_range 0 (2 ^ 64 + (pos_x s + width s) - 0) (fun col => blit_opaque s ((((0 +[64] 0) *[64] width s) +[64] (- pos_x s +[64] col)) *[64] bytes_per_pixel (format s)) ((((pos_y s +[64] 0) *[64] c_width c) +[64] 0) +[64] col)) q = Err e) as [e2 E2].
  { apply (for_range_err 0 col); [lia|]. intros q'. unfold blit_opaque. rewrite Ec. by eexists. }
  destruct (format s); rewrite ?E1, ?E2; by eexists.
Qed.

(** ** Witnesses *)

(** Calls that all find a heap with room for them. *)
Definition roomy : list ServerOp -> list (KernelHeap * ServerOp) := map (pair (room 1024)).

(** A 2 by 2 screen and a red surface of one pixel. *)
Definition demo_server : Result GraphicsServer Fault := run_servers (roomy [Create 1 1; Update 1 [255; 0; 0; 255]]) (GraphicsServer_new (replicate 4 7) 2 2 8).

Lemma demo_start n : Z.of_nat n < 2 ^ 64 - 1 -> in_use None n (GraphicsServer_new (replicate 4 7) 2 2 8).
Proof. intros Hn. apply server_start; change (8 / 4) with 2; cbn [length replicate]; lia. Qed.

Lemma demo_server_ok : exists g, demo_server = Ok g /\ server_ok g /\ ids_fresh g.
Proof.
  pose proof (run_servers_ok None (roomy [Create 1 1; Update 1 [255; 0; 0; 255]]) (GraphicsServer_new (replicate 4 7) 2 2 8)) as H.
  destruct demo_server as [g|e] eqn:E; [|vm_compute in E; discriminate E]. exists g. split; [reflexivity|]. unfold demo_server in E. rewrite E in H.
  destruct H as (Hok & Hid & _); [repeat constructor; cbn; unfold in_width; lia|by apply demo_start|]. by split.
Qed.

Lemma demo_screen v : screen (Compositor_new (replicate 4 v) 2 2 8).
Proof. unfold Compositor_new. change (8 / 4) with 2. constructor; cbn [c_width c_height c_pitch framebuffer back_buffer]; rewrite ?length_replicate; try lia. by eexists. Qed.

Lemma server_safe_witness : exists g,
  run_servers (roomy [Create 1 1; Composite; FillRect 1 0 0 1 1 0xFFFFFFFF; Composite; Destroy 1]) (GraphicsServer_new (replicate 4 7) 2 2 8) = Ok g /\ server_ok g /\ ids_fresh g.
Proof.
  pose proof (server_safe (replicate 4 7) 2 2 8 (roomy [Create 1 1; Composite; FillRect 1 0 0 1 1 0xFFFFFFFF; Composite; Destroy 1])) as H.
  destruct (run_servers _ _) as [g|e] eqn:E in H; [|vm_compute in E; discriminate E]. exists g. split; [exact E|].
  apply H; change (8 / 4) with 2; try (cbn [length replicate roomy map]; lia). repeat constructor; cbn; unfold in_width; lia.
Defined.

Lemma largest_surface_halts_witness : exists h, Heap.client h [] /\ graphics_create_surface (H := heap_answer h) 8192 8192 (Some (GraphicsServer_new (replicate 4 7) 2 2 8)) = Err OutOfHeap.
Proof. eexists. split; [exact Heap.client_init|]. apply (largest_surface_halts _ []). exact Heap.client_init. Defined.

Lemma frame_correct_witness : exists g g', demo_server = Ok g /\ server_ok g /\ composite_frame g = Ok g' /\ framebuffer (compositor g') = [0xFFFF0000; 0xFF000000; 0xFF000000; 0xFF000000].
Proof.
  destruct demo_server_ok as (g & E & Hok & _). vm_compute in E. injection E as <-. eexists. eexists. split; [reflexivity|]. split; [exact Hok|].
  destruct (frame_correct _ Hok (or_introl eq_refl)) as (g' & E & _). split; [vm_compute; reflexivity|reflexivity].
Defined.

Lemma later_frames_not_shown_witness : exists g g', run_servers (roomy [Update 1 [0; 255; 0; 255]; Composite]) g = Ok g' /\ server_ok g /\ framebuffer (compositor g') = framebuffer (compositor g).
Proof.
  pose proof (run_servers_ok None (roomy [Create 1 1; Composite]) (GraphicsServer_new (replicate 4 7) 2 2 8) ltac:(repeat constructor; cbn; unfold in_width; lia) ltac:(by apply demo_start)) as H.
  destruct (run_servers (roomy [Create 1 1; Composite]) _) as [g|e] eqn:E in H; [|vm_compute in E; discriminate E]. destruct H as (Hok & Hid & _).
  vm_compute in E. injection E as <-. eexists. eexists. split; [|split; [exact Hok|]]; [vm_compute; reflexivity|].
  pose proof (later_frames_not_shown _ (roomy [Update 1 [0; 255; 0; 255]; Composite]) Hok Hid eq_refl eq_refl) as Hl. apply Hl; [repeat constructor; cbn; unfold in_width; lia|cbn; lia].
Defined.

Lemma offscreen_left_faults_witness : exists c s e, screen c /\ wf s /\ blit_surface s c = Err e.
Proof.
  destruct (surface_new_wf (H := room 16) 1 2 2 (mkSurface 1 2 2 0 0 0 true RGBA8888 (replicate 16 0) true false [])) as [Hw _]; [unfold in_width; lia..|reflexivity|].
  pose proof (demo_screen 0) as Hc.
  destruct (offscreen_left_faults (Compositor_new (replicate 4 0) 2 2 8) (set_position (-5) 0 (mkSurface 1 2 2 0 0 0 true RGBA8888 (replicate 16 0) true false []))) as [e E];
    [exact Hc|destruct Hw; by constructor|cbn; lia..|]. eexists. eexists. exists e. split; [exact Hc|]. split; [|exact E]. destruct Hw. by constructor.
Defined.
