(* ===== verification/Keyboard.v ===== *)
(** * The keyboard

    [interrupts/handlers.rs] (scancodes, modifiers and the ring buffer) and
    [drivers/keyboard.rs].  The interrupt handler is the only writer of the buffer
    and the program that reads characters the only reader; they may run at the same
    time, so besides the functions there is a step relation with one step per access
    to a shared variable. *)

From Stdlib Require Import ZArith Lia Bool.
From stdpp Require Import base numbers option list relations.
From S2P Require Import Prelude.

Open Scope Z_scope.

(** ** The state *)

Definition KB_BUFFER_SIZE : Z := 256.

Record Keyboard : Type := mkKb {
  KB_BUFFER : list Z; KB_WRITE_POS : Z; KB_READ_POS : Z; ESCAPE_SEQUENCE : Z;
  SHIFT_PRESSED : bool; CTRL_PRESSED : bool; ALT_PRESSED : bool
}.

Definition Keyboard_start : Keyboard := mkKb (replicate 256 0) 0 0 0 false false false.

Definition KB_ARROW_UP : Z := 0x80.
Definition KB_ARROW_DOWN : Z := 0x81.
Definition KB_ARROW_LEFT : Z := 0x82.
Definition KB_ARROW_RIGHT : Z := 0x83.
Definition KB_HOME : Z := 0x84.
Definition KB_END : Z := 0x85.
Definition KB_DELETE : Z := 0x86.

Definition set_ring (buffer : list Z) (w r : Z) (k : Keyboard) : Keyboard :=
  mkKb buffer w r (ESCAPE_SEQUENCE k) (SHIFT_PRESSED k) (CTRL_PRESSED k) (ALT_PRESSED k).
Definition set_escape (e : Z) (k : Keyboard) : Keyboard :=
  mkKb (KB_BUFFER k) (KB_WRITE_POS k) (KB_READ_POS k) e (SHIFT_PRESSED k) (CTRL_PRESSED k) (ALT_PRESSED k).
Definition set_modifiers (s c a : bool) (k : Keyboard) : Keyboard :=
  mkKb (KB_BUFFER k) (KB_WRITE_POS k) (KB_READ_POS k) (ESCAPE_SEQUENCE k) s c a.

(** ** The ring buffer *)

Definition next_pos (p : Z) : Z := (p + 1) mod KB_BUFFER_SIZE.

Definition ring_full (write read : Z) : bool := next_pos write =? read.

Definition push_to_buffer (byte : Z) (k : Keyboard) : Keyboard :=
  let write := KB_WRITE_POS k in
  if ring_full write (KB_READ_POS k) then k else set_ring (<[Z.to_nat write := byte]> (KB_BUFFER k)) (next_pos write) (KB_READ_POS k) k.

Definition getchar (k : Keyboard) : option Z * Keyboard :=
  let read := KB_READ_POS k in
  if read =? KB_WRITE_POS k then (None, k)
  else (Some (nth (Z.to_nat read) (KB_BUFFER k) 0), set_ring (KB_BUFFER k) (KB_WRITE_POS k) (next_pos read) k).

(** [try_read_char]: the byte as a [char]. *)
Definition try_read_char : Keyboard -> option Z * Keyboard := getchar.

(** ** Scancodes *)

Definition SCANCODE_TO_ASCII : list Z :=
  [0; 27; 49; 50; 51; 52; 53; 54; 55; 56; 57; 48; 45; 61; 8;
   9; 113; 119; 101; 114; 116; 121; 117; 105; 111; 112; 91; 93; 10;
   0; 97; 115; 100; 102; 103; 104; 106; 107; 108; 59; 39; 96;
   0; 92; 122; 120; 99; 118; 98; 110; 109; 44; 46; 47; 0;
   42; 0; 32; 0]
  ++ replicate 12 0 ++ [55; 56; 57; 45; 52; 53; 54; 43; 49; 50; 51; 48; 46] ++ replicate 44 0.

Definition SCANCODE_TO_ASCII_SHIFT : list Z :=
  [0; 27; 33; 64; 35; 36; 37; 94; 38; 42; 40; 41; 95; 43; 8;
   9; 81; 87; 69; 82; 84; 89; 85; 73; 79; 80; 123; 125; 10;
   0; 65; 83; 68; 70; 71; 72; 74; 75; 76; 58; 34; 126;
   0; 124; 90; 88; 67; 86; 66; 78; 77; 60; 62; 63; 0;
   42; 0; 32; 0]
  ++ replicate 12 0 ++ [55; 56; 57; 45; 52; 53; 54; 43; 49; 50; 51; 48; 46] ++ replicate 44 0.

Definition special_key (scancode : Z) : option Z :=
  if scancode =? 0x48 then Some KB_ARROW_UP
  else if scancode =? 0x50 then Some KB_ARROW_DOWN
  else if scancode =? 0x4B then Some KB_ARROW_LEFT
  else if scancode =? 0x4D then Some KB_ARROW_RIGHT
  else if scancode =? 0x47 then Some KB_HOME
  else if scancode =? 0x4F then Some KB_END
  else if scancode =? 0x53 then Some KB_DELETE
  else None.

Definition ctrl_keys : list (Z * Z) :=
  [(0x1E, 1); (0x2E, 3); (0x20, 4); (0x12, 5); (0x25, 11); (0x26, 12); (0x16, 21); (0x2F, 22); (0x11, 23); (0x2D, 24); (0x15, 25); (0x2C, 26)].

Definition ctrl_key (scancode : Z) : option Z :=
  match List.find (fun e => e.1 =? scancode) ctrl_keys with Some e => Some e.2 | None => None end.

(** [match scancode] on the modifier keys, with the value to store. *)
Definition modifier (scancode : Z) (pressed : bool) (k : Keyboard) : option Keyboard :=
  if (scancode =? 0x2A) || (scancode =? 0x36) then Some (set_modifiers pressed (CTRL_PRESSED k) (ALT_PRESSED k) k)
  else if scancode =? 0x1D then Some (set_modifiers (SHIFT_PRESSED k) pressed (ALT_PRESSED k) k)
  else if scancode =? 0x38 then Some (set_modifiers (SHIFT_PRESSED k) (CTRL_PRESSED k) pressed k)
  else None.

(** The character of a key that is no modifier, if it has one. *)
Definition key_char (k : Keyboard) (scancode : Z) : option Z :=
  if CTRL_PRESSED k then ctrl_key scancode
  else if scancode <? 128 then
    let ascii := nth (Z.to_nat scancode) (if SHIFT_PRESSED k then SCANCODE_TO_ASCII_SHIFT else SCANCODE_TO_ASCII) 0 in
    if negb (ascii =? 0) then Some ascii else None
  else None.

Definition push_some (key : option Z) (k : Keyboard) : Keyboard := match key with Some key => push_to_buffer key k | None => k end.

(** The byte read from port 0x60 is the argument; the end-of-interrupt write is left out. *)
Definition keyboard_interrupt_handler (scancode : Z) (k : Keyboard) : Keyboard :=
  if scancode =? 0xE0 then set_escape 1 k
  else if ESCAPE_SEQUENCE k =? 1 then
    let k := set_escape 0 k in
    if Z.land scancode 0x80 =? 0 then push_some (special_key scancode) k else k
  else if negb (Z.land scancode 0x80 =? 0) then
    match modifier (Z.land scancode 0x7F) false k with Some k' => k' | None => k end
  else
    match modifier scancode true k with
    | Some k' => k'
    | None => push_some (key_char k scancode) k
    end.

Definition type_scancodes (codes : list Z) (k : Keyboard) : Keyboard := foldl (fun k c => keyboard_interrupt_handler c k) k codes.

Fixpoint drain (fuel : nat) (k : Keyboard) : list Z * Keyboard :=
  match fuel with
  | O => ([], k)
  | S fuel => match getchar k with (Some c, k') => let '(l, k'') := drain fuel k' in (c :: l, k'') | (None, k') => ([], k') end
  end.

(** ** The queue that the ring holds *)

Definition held (w r : Z) : Z := (w - r) mod KB_BUFFER_SIZE.

Definition ring_at (buffer : list Z) (r : Z) (i : nat) : Z := nth (Z.to_nat ((r + Z.of_nat i) mod KB_BUFFER_SIZE)) buffer 0.

Definition ring (buffer : list Z) (w r : Z) : list Z := ring_at buffer r <$> seq 0 (Z.to_nat (held w r)).

Definition pos_ok (p : Z) : Prop := 0 <= p < KB_BUFFER_SIZE.

Record ring_ok (k : Keyboard) : Prop := mk_ring_ok {
  rk_write : pos_ok (KB_WRITE_POS k); rk_read : pos_ok (KB_READ_POS k); rk_buffer : length (KB_BUFFER k) = 256%nat }.

Definition kb_queue (k : Keyboard) : list Z := ring (KB_BUFFER k) (KB_WRITE_POS k) (KB_READ_POS k).

Lemma held_range w r : 0 <= held w r < 256.
Proof. unfold held, KB_BUFFER_SIZE. apply Z.mod_pos_bound. lia. Qed.

Lemma held_cases w r : pos_ok w -> pos_ok r -> held w r = w - r /\ r <= w \/ held w r = w - r + 256 /\ w < r.
Proof. unfold pos_ok, held, KB_BUFFER_SIZE. intros. Z.to_euclidean_division_equations. lia. Qed.

Lemma next_pos_cases p : pos_ok p -> pos_ok (next_pos p) /\ (next_pos p = p + 1 /\ p < 255 \/ next_pos p = 0 /\ p = 255).
Proof. unfold pos_ok, next_pos, KB_BUFFER_SIZE. intros. Z.to_euclidean_division_equations. lia. Qed.

Lemma held_next_write w r : pos_ok w -> pos_ok r -> next_pos w <> r -> held (next_pos w) r = held w r + 1.
Proof.
  intros Hw Hr Hn. destruct (next_pos_cases w Hw) as [Hw' Hc]. pose proof (held_cases w r Hw Hr). pose proof (held_cases _ r Hw' Hr).
  unfold pos_ok, KB_BUFFER_SIZE in *. lia.
Qed.

Lemma held_next_read w r : pos_ok w -> pos_ok r -> r <> w -> held w (next_pos r) = held w r - 1.
Proof.
  intros Hw Hr Hn. destruct (next_pos_cases r Hr) as [Hr' Hc]. pose proof (held_cases w r Hw Hr). pose proof (held_cases w _ Hw Hr').
  unfold pos_ok, KB_BUFFER_SIZE in *. lia.
Qed.

Lemma held_zero w r : pos_ok w -> pos_ok r -> held w r = 0 <-> r = w.
Proof. intros Hw Hr. pose proof (held_cases w r Hw Hr). unfold pos_ok, KB_BUFFER_SIZE in *. lia. Qed.

Lemma held_full w r : pos_ok w -> pos_ok r -> next_pos w = r <-> held w r = 255.
Proof.
  intros Hw Hr. destruct (next_pos_cases w Hw) as [Hw' Hc]. pose proof (held_cases w r Hw Hr). unfold pos_ok, KB_BUFFER_SIZE in *. lia.
Qed.

(** A write outside the held part does not show; committing it appends. *)
Lemma ring_write buffer w r v : pos_ok w -> pos_ok r -> ring (<[Z.to_nat w := v]> buffer) w r = ring buffer w r.
Proof.
  intros Hw Hr. apply list_fmap_ext. intros i j Hij. apply lookup_seq in Hij as [-> Hi]. unfold ring_at.
  rewrite !nth_lookup. rewrite list_lookup_insert_ne; [done|]. pose proof (held_cases w r Hw Hr). pose proof (held_range w r). unfold pos_ok, KB_BUFFER_SIZE in *.
  intros E. apply Z2Nat.inj in E; [|lia|apply Z.mod_pos_bound; lia]. cbn in *. Z.to_euclidean_division_equations. lia.
Qed.

Lemma ring_commit buffer w r : pos_ok w -> pos_ok r -> next_pos w <> r -> ring buffer (next_pos w) r = ring buffer w r ++ [nth (Z.to_nat w) buffer 0].
Proof.
  intros Hw Hr Hn. unfold ring. rewrite held_next_write by done. pose proof (held_range w r). rewrite Z2Nat.inj_add by lia. rewrite seq_app, fmap_app. f_equal.
  change (Z.to_nat 1) with 1%nat. rewrite Nat.add_0_l. cbn [seq fmap list_fmap]. unfold ring_at. do 2 f_equal. pose proof (held_cases w r Hw Hr). rewrite Z2Nat.id by lia. unfold pos_ok, KB_BUFFER_SIZE in *. f_equal. Z.to_euclidean_division_equations. lia.
Qed.

Lemma ring_pop buffer w r : pos_ok w -> pos_ok r -> r <> w -> ring buffer w r = nth (Z.to_nat r) buffer 0 :: ring buffer w (next_pos r).
Proof.
  intros Hw Hr Hn. unfold ring. rewrite held_next_read by done. pose proof (held_range w r). pose proof (held_zero w r Hw Hr).
  replace (Z.to_nat (held w r)) with (S (Z.to_nat (held w r - 1))) by lia. cbn [seq fmap list_fmap]. f_equal.
  - unfold ring_at. do 2 f_equal. rewrite Z.add_0_r. unfold pos_ok in Hr. by rewrite Z.mod_small.
  - rewrite <- fmap_S_seq, <- list_fmap_compose. apply list_fmap_ext. intros i j _. unfold compose, ring_at, next_pos, KB_BUFFER_SIZE. do 2 f_equal.
    rewrite Zplus_mod_idemp_l. f_equal. lia.
Qed.

Lemma ring_empty buffer w r : pos_ok w -> pos_ok r -> ring buffer w r = [] <-> r = w.
Proof.
  intros Hw Hr. rewrite <- held_zero by done. pose proof (held_range w r). unfold ring. split.
  - intros E. apply (f_equal length) in E. rewrite length_fmap, length_seq in E. cbn in E. lia.
  - by intros ->.
Qed.

Lemma length_ring buffer w r : Z.of_nat (length (ring buffer w r)) = held w r.
Proof. unfold ring. rewrite length_fmap, length_seq. pose proof (held_range w r). lia. Qed.

(** The functions on their own: a queue of at most 255 characters. *)
Lemma push_queue byte k : ring_ok k -> ring_ok (push_to_buffer byte k) /\
  kb_queue (push_to_buffer byte k) = if (length (kb_queue k) <? 255)%nat then kb_queue k ++ [byte] else kb_queue k.
Proof.
  intros Hk. destruct Hk as [Hw Hr Hb]. unfold push_to_buffer, ring_full, kb_queue. pose proof (length_ring (KB_BUFFER k) _ _ : _ = held (KB_WRITE_POS k) (KB_READ_POS k)) as Hl.
  pose proof (held_range (KB_WRITE_POS k) (KB_READ_POS k)). pose proof (held_full _ _ Hw Hr) as Hf.
  destruct (Z.eqb_spec (next_pos (KB_WRITE_POS k)) (KB_READ_POS k)) as [E|E], (Nat.ltb_spec (length (ring (KB_BUFFER k) (KB_WRITE_POS k) (KB_READ_POS k))) 255); try lia.
  - split; [by constructor|done].
  - cbn. split; [constructor; cbn; [apply next_pos_cases; done|done|by rewrite length_insert]|]. rewrite ring_commit, ring_write by done. do 2 f_equal.
    rewrite nth_lookup, list_lookup_insert_eq; [done|]. unfold pos_ok, KB_BUFFER_SIZE in Hw. lia.
Qed.

Lemma getchar_queue k : ring_ok k -> let '(c, k') := getchar k in ring_ok k' /\ kb_queue k = match c with Some c => c :: kb_queue k' | None => [] end /\ (c = None -> k' = k).
Proof.
  intros Hk. destruct Hk as [Hw Hr Hb]. unfold getchar, kb_queue. destruct (Z.eqb_spec (KB_READ_POS k) (KB_WRITE_POS k)) as [E|E].
  - split; [by constructor|]. split; [by apply ring_empty|done].
  - cbn. split; [constructor; cbn; [done|by apply next_pos_cases|done]|]. split; [by apply ring_pop|done].
Qed.

(** ** The handler and a reader at the same time

    One step per access to a variable that the other side uses. *)

Inductive WriterPc : Type :=
| WIdle
| WLoaded (byte write : Z)
| WChecked (byte write : Z)
| WWritten (byte write : Z).

Inductive ReaderPc : Type :=
| RIdle
| RLoaded (read : Z)
| RReady (read : Z)
| RGot (read c : Z).

(** [accepted]: the characters committed to the buffer; [got]: those handed out. *)
Record Shared : Type := mkShared { kb : Keyboard; writer : WriterPc; reader : ReaderPc; accepted : list Z; got : list Z }.

Inductive kb_step : Shared -> Shared -> Prop :=
| push_start k r a g byte : kb_step (mkShared k WIdle r a g) (mkShared k (WLoaded byte (KB_WRITE_POS k)) r a g)
| push_full k r a g byte w : next_pos w = KB_READ_POS k -> kb_step (mkShared k (WLoaded byte w) r a g) (mkShared k WIdle r a g)
| push_room k r a g byte w : next_pos w <> KB_READ_POS k -> kb_step (mkShared k (WLoaded byte w) r a g) (mkShared k (WChecked byte w) r a g)
| push_write k r a g byte w : kb_step (mkShared k (WChecked byte w) r a g)
    (mkShared (set_ring (<[Z.to_nat w := byte]> (KB_BUFFER k)) (KB_WRITE_POS k) (KB_READ_POS k) k) (WWritten byte w) r a g)
| push_commit k r a g byte w : kb_step (mkShared k (WWritten byte w) r a g)
    (mkShared (set_ring (KB_BUFFER k) (next_pos w) (KB_READ_POS k) k) WIdle r (a ++ [byte]) g)
| get_start k w a g : kb_step (mkShared k w RIdle a g) (mkShared k w (RLoaded (KB_READ_POS k)) a g)
| get_empty k w a g r : r = KB_WRITE_POS k -> kb_step (mkShared k w (RLoaded r) a g) (mkShared k w RIdle a g)
| get_some k w a g r : r <> KB_WRITE_POS k -> kb_step (mkShared k w (RLoaded r) a g) (mkShared k w (RReady r) a g)
| get_fetch k w a g r : kb_step (mkShared k w (RReady r) a g) (mkShared k w (RGot r (nth (Z.to_nat r) (KB_BUFFER k) 0)) a g)
| get_commit k w a g r c : kb_step (mkShared k w (RGot r c) a g)
    (mkShared (set_ring (KB_BUFFER k) (KB_WRITE_POS k) (next_pos r) k) w RIdle a (g ++ [c])).

(** Keys that change no character also run in the handler: the modifiers. *)
Definition kb_start : Shared := mkShared Keyboard_start WIdle RIdle [] [].

Definition writer_ok (k : Keyboard) (w : WriterPc) : Prop :=
  match w with
  | WIdle => True
  | WLoaded _ p => p = KB_WRITE_POS k
  | WChecked _ p => p = KB_WRITE_POS k /\ held p (KB_READ_POS k) < 255
  | WWritten byte p => p = KB_WRITE_POS k /\ held p (KB_READ_POS k) < 255 /\ KB_BUFFER k !! Z.to_nat p = Some byte
  end.

Definition reader_ok (k : Keyboard) (r : ReaderPc) : Prop :=
  match r with
  | RIdle => True
  | RLoaded p => p = KB_READ_POS k
  | RReady p => p = KB_READ_POS k /\ 0 < held (KB_WRITE_POS k) p
  | RGot p c => p = KB_READ_POS k /\ 0 < held (KB_WRITE_POS k) p /\ c = nth (Z.to_nat p) (KB_BUFFER k) 0
  end.

Record shared_ok (s : Shared) : Prop := mk_shared_ok {
  sk_ring : ring_ok (kb s);
  sk_writer : writer_ok (kb s) (writer s);
  sk_reader : reader_ok (kb s) (reader s);
  sk_queue : got s ++ kb_queue (kb s) = accepted s }.

Lemma held_distinct w r : pos_ok w -> pos_ok r -> 0 < held w r -> Z.to_nat w <> Z.to_nat r.
Proof. intros Hw Hr H E. pose proof (held_cases w r Hw Hr). unfold pos_ok, KB_BUFFER_SIZE in *. lia. Qed.

Lemma kb_step_ok s s' : kb_step s s' -> shared_ok s -> shared_ok s'.
Proof.
  intros Hstep [Hk Hwr Hrd Hq]. destruct Hstep; cbn in *; pose proof (rk_write _ Hk) as Hw; pose proof (rk_read _ Hk) as Hr; pose proof (rk_buffer _ Hk) as Hb.
  - by constructor.
  - by constructor.
  - constructor; cbn; try done. subst w. split; [done|]. pose proof (held_full _ _ Hw Hr). pose proof (held_range (KB_WRITE_POS k) (KB_READ_POS k)). lia.
  - destruct Hwr as [-> Hh]. constructor; cbn.
    + constructor; cbn; [done|done|by rewrite length_insert].
    + split; [done|]. split; [done|]. apply list_lookup_insert_eq. unfold pos_ok, KB_BUFFER_SIZE in Hw. lia.
    + destruct r; cbn in *; try done. destruct Hrd as (-> & H0 & ->). split; [done|]. split; [done|]. rewrite !nth_lookup, list_lookup_insert_ne; [done|]. by apply held_distinct.
    + unfold kb_queue in *. cbn. by rewrite ring_write.
  - destruct Hwr as (-> & Hh & Hv). assert (next_pos (KB_WRITE_POS k) <> KB_READ_POS k) as Hn by (rewrite held_full by done; lia).
    constructor; cbn; [constructor; cbn; [by apply next_pos_cases|done..]|done| |].
    + destruct r; cbn in *; [done|done|destruct Hrd as [-> Hh0]|destruct Hrd as (-> & Hh0 & ->)]; (rewrite held_next_write by done); (split; [done|]); [lia|split; [lia|done]].
    + unfold kb_queue in *. cbn. rewrite ring_commit, app_assoc, Hq by done. by rewrite nth_lookup, Hv.
  - by constructor.
  - by constructor.
  - constructor; cbn; try done. subst r. split; [done|]. pose proof (held_zero _ _ Hw Hr). pose proof (held_range (KB_WRITE_POS k) (KB_READ_POS k)). lia.
  - constructor; cbn; try done. by destruct Hrd.
  - destruct Hrd as (-> & Hh & ->). assert (KB_READ_POS k <> KB_WRITE_POS k) as Hn by (intros E; apply (held_zero _ _ Hw Hr) in E; lia).
    constructor; cbn; [constructor; cbn; [done|by apply next_pos_cases|done]| |done|].
    + destruct w; cbn in *; try done; destruct Hwr as [-> Hwr]; (split; [done|]); (rewrite held_next_read by done); [lia|split; [lia|apply Hwr]].
    + unfold kb_queue in *. cbn. rewrite ring_pop in Hq by done. by rewrite <- app_assoc.
Qed.

(** ** Typing *)

(** Where a table has a character. *)
Fixpoint index_of (c : Z) (i : Z) (l : list Z) : option Z :=
  match l with [] => None | x :: l => if x =? c then Some i else index_of c (i + 1) l end.

(** The scancodes of a key press and release that give a character, with the left
    shift key around them if it needs one. *)
Definition scancodes (c : Z) : list Z :=
  match index_of c 0 SCANCODE_TO_ASCII with
  | Some i => [i; i + 0x80]
  | None => match index_of c 0 SCANCODE_TO_ASCII_SHIFT with Some i => [0x2A; i; i + 0x80; 0xAA] | None => [] end
  end.

Definition typable : list Z := seqZ 32 95 ++ [8; 9; 10; 27].

Definition released (k : Keyboard) : Prop := ESCAPE_SEQUENCE k = 0 /\ SHIFT_PRESSED k = false /\ CTRL_PRESSED k = false.

Lemma type_char : Forall (fun c => forall b w r a, type_scancodes (scancodes c) (mkKb b w r 0 false false a) = push_to_buffer c (mkKb b w r 0 false false a)) typable.
Proof.
  unfold typable. vm_compute seqZ. cbn [app].
  repeat (apply Forall_cons_2; [intros b w r a; destruct (ring_full w r) eqn:E; cbv - [ring_full next_pos]; rewrite ?E; reflexivity|]). apply Forall_nil_2.
Qed.

Lemma push_released byte k : released k -> released (push_to_buffer byte k).
Proof. intros H. unfold push_to_buffer. by destruct (ring_full _ _). Qed.

Lemma type_released c k : released k -> c ∈ typable -> type_scancodes (scancodes c) k = push_to_buffer c k.
Proof.
  intros (E1 & E2 & E3) Hc. destruct k as [b w r e s ct a]. cbn in E1, E2, E3. subst. pose proof type_char as H. rewrite Forall_forall in H. by apply H.
Qed.

Lemma type_text text : Forall (.∈ typable) text -> forall k, ring_ok k -> released k -> (length (kb_queue k) + length text <= 255)%nat ->
  let k' := type_scancodes (concat (scancodes <$> text)) k in ring_ok k' /\ kb_queue k' = kb_queue k ++ text.
Proof.
  induction 1 as [|c text Hc Ht IH]; intros k Hk Hr Hl; cbn [fmap list_fmap concat]; [split; [done|by rewrite app_nil_r]|].
  unfold type_scancodes in *. rewrite foldl_app. fold (type_scancodes (scancodes c) k). rewrite type_released by done.
  destruct (push_queue c k Hk) as [Hk' Eq]. cbn [length] in Hl. destruct (Nat.ltb_spec (length (kb_queue k)) 255); [|lia].
  destruct (IH (push_to_buffer c k) Hk' (push_released c k Hr)) as [H1 H2]; [rewrite Eq, length_app; cbn; lia|]. split; [done|]. by rewrite H2, Eq, <- app_assoc.
Qed.

Lemma drain_queue k : ring_ok k -> forall fuel, (length (kb_queue k) < fuel)%nat -> (drain fuel k).1 = kb_queue k.
Proof.
  intros Hk fuel. revert k Hk. induction fuel as [|fuel IH]; intros k Hk Hf; [lia|]. cbn [drain]. pose proof (getchar_queue k Hk) as H.
  destruct (getchar k) as [[c|] k']; destruct H as (Hk' & Eq & _); rewrite Eq in *; [|done]. cbn [length] in Hf.
  specialize (IH k' Hk' ltac:(lia)). destruct (drain fuel k'). cbn in *. by rewrite IH.
Qed.

(** ** Theorems *)

(** C24: The keyboard is a first-in first-out queue: however the interrupt handler and a
    reader interleave, the characters read so far and those in the buffer are, in
    order, the characters the handler has accepted; the buffer holds at most 255. *)
Theorem keyboard_fifo s : rtc kb_step kb_start s -> got s ++ kb_queue (kb s) = accepted s /\ (length (kb_queue (kb s)) <= 255)%nat.
Proof.
  intros Hr. assert (shared_ok s) as [Hk _ _ Hq].
  { remember kb_start as s0 eqn:E0. assert (shared_ok s0) as H0 by (subst; constructor; [constructor; cbn; unfold pos_ok, KB_BUFFER_SIZE; lia || done|done..]).
    clear E0. induction Hr as [|s1 s2 s3 H12 H23 IH]; [done|]. apply IH. by eapply kb_step_ok. }
  split; [done|]. unfold kb_queue. pose proof (length_ring (KB_BUFFER (kb s)) (KB_WRITE_POS (kb s)) (KB_READ_POS (kb s))) as Hl.
  pose proof (held_range (KB_WRITE_POS (kb s)) (KB_READ_POS (kb s))). lia.
Qed.

(** What is typed is what is read: for every text of up to 255 characters that the
    keyboard has, the scancodes of its keys - with the shift key where a character
    needs it - put exactly that text into an empty buffer. *)
Theorem typed_text_read text k : Forall (.∈ typable) text -> (length text <= 255)%nat -> ring_ok k -> released k -> kb_queue k = [] ->
  (drain 256 (type_scancodes (concat (scancodes <$> text)) k)).1 = text.
Proof.
  intros Ht Hl Hk Hr He. destruct (type_text text Ht k Hk Hr) as [Hk' Eq]; [rewrite He; done|]. rewrite He in Eq. cbn [app] in Eq.
  rewrite drain_queue; [done|done|]. rewrite Eq. lia.
Qed.

(** ** Witnesses *)

Lemma start_ok : ring_ok Keyboard_start.
Proof. constructor; cbn; unfold pos_ok, KB_BUFFER_SIZE; lia || done. Qed.

Lemma keyboard_fifo_witness : exists s, rtc kb_step kb_start s /\ got s = [65] /\ got s ++ kb_queue (kb s) = accepted s.
Proof.
  eexists (mkShared _ WIdle RIdle _ _). assert (forall s, rtc kb_step kb_start s -> got s = [65] -> rtc kb_step kb_start s /\ got s = [65] /\ got s ++ kb_queue (kb s) = accepted s) as H.
  { intros s Hs E. split; [exact Hs|]. split; [exact E|]. exact (proj1 (keyboard_fifo s Hs)). }
  apply H.
  - eapply rtc_l; [apply (push_start _ _ _ _ 65)|]. eapply rtc_l; [apply push_room; vm_compute; congruence|]. eapply rtc_l; [apply push_write|].
    eapply rtc_l; [apply push_commit|]. eapply rtc_l; [apply get_start|]. eapply rtc_l; [apply get_some; vm_compute; congruence|]. eapply rtc_l; [apply get_fetch|].
    eapply rtc_l; [apply get_commit|]. apply rtc_refl.
  - vm_compute. reflexivity.
Defined.

Lemma typed_text_read_witness : (drain 256 (type_scancodes (concat (scancodes <$> [72; 105; 33])) Keyboard_start)).1 = [72; 105; 33].
Proof.
  apply (typed_text_read [72; 105; 33] Keyboard_start); [|cbn; lia|exact start_ok|repeat split|reflexivity].
  apply (bool_decide_unpack _). vm_compute. exact I.
Defined.
