(* ===== verification/Devices.v ===== *)
(** * The mouse and the clock

    [drivers/mouse.rs]: the packets of the mouse and the position of the pointer;
    [drivers/rtc.rs]: the date in the clock's registers.  The bytes that the devices
    give are arguments; the set-up of the mouse controller is port output and is
    left out, except for what it stores. *)

From Stdlib Require Import ZArith Lia Bool.
From stdpp Require Import base numbers option list.
From S2P Require Import Prelude.

Open Scope Z_scope.

(** ** The mouse *)

Module Mouse.

Record Mouse : Type := mkMouse {
  MOUSE_X : Z; MOUSE_Y : Z; MOUSE_BUTTONS : Z; MOUSE_INITIALIZED : bool;
  SCREEN_WIDTH : Z; SCREEN_HEIGHT : Z; PACKET : list Z; PACKET_INDEX : Z
}.

Definition start : Mouse := mkMouse 400 300 0 false 800 600 [0; 0; 0] 0.

Definition BUTTON_LEFT : Z := 1.
Definition BUTTON_RIGHT : Z := 2.
Definition BUTTON_MIDDLE : Z := 4.

(** What [init] stores: the size of the screen, and the pointer in its middle. *)
Definition init (w h : Z) (m : Mouse) : Mouse :=
  mkMouse (Z.quot (to_i32 w) 2) (Z.quot (to_i32 h) 2) (MOUSE_BUTTONS m) true (to_i32 w) (to_i32 h) (PACKET m) (PACKET_INDEX m).

Definition bit_set (b : Z) (flag : Z) : bool := negb (Z.land b flag =? 0).

Definition delta_x (packet : list Z) : Z := if bit_set (nth 0 packet 0) 0x10 then nth 1 packet 0 - 256 else nth 1 packet 0.
Definition delta_y (packet : list Z) : Z := if bit_set (nth 0 packet 0) 0x20 then 256 - nth 2 packet 0 else - nth 2 packet 0.

(** [(pos + d).max(0).min(size - 1)] *)
Definition clamp (pos d size : Z) : Z := Z.min (Z.max (to_i32 (pos + d)) 0) (to_i32 (size - 1)).

Definition process_packet (packet : list Z) (m : Mouse) : Mouse :=
  mkMouse (clamp (MOUSE_X m) (delta_x packet) (SCREEN_WIDTH m)) (clamp (MOUSE_Y m) (delta_y packet) (SCREEN_HEIGHT m)) (Z.land (nth 0 packet 0) 7)
    (MOUSE_INITIALIZED m) (SCREEN_WIDTH m) (SCREEN_HEIGHT m) (PACKET m) (PACKET_INDEX m).

Definition set_packet (p : list Z) (i : Z) (m : Mouse) : Mouse :=
  mkMouse (MOUSE_X m) (MOUSE_Y m) (MOUSE_BUTTONS m) (MOUSE_INITIALIZED m) (SCREEN_WIDTH m) (SCREEN_HEIGHT m) p i.

Definition handle_interrupt (byte : Z) (m : Mouse) : Mouse :=
  let idx := PACKET_INDEX m in
  if (idx =? 0) && (Z.land byte 0x08 =? 0) then m
  else
    let packet := <[Z.to_nat idx := byte]> (PACKET m) in
    if idx =? 2 then set_packet packet 0 (process_packet packet m)
    else set_packet packet (wrap 8 (idx + 1)) m.

Definition get_position (m : Mouse) : Z * Z := (MOUSE_X m, MOUSE_Y m).
Definition get_buttons (m : Mouse) : Z := MOUSE_BUTTONS m.
Definition is_left_pressed (m : Mouse) : bool := bit_set (MOUSE_BUTTONS m) BUTTON_LEFT.
Definition is_right_pressed (m : Mouse) : bool := bit_set (MOUSE_BUTTONS m) BUTTON_RIGHT.
Definition is_initialized (m : Mouse) : bool := MOUSE_INITIALIZED m.

(** The packet of a movement: 9-bit differences, the vertical one upwards. *)
Definition packet_of (buttons dx up : Z) : list Z :=
  [Z.lor (Z.lor (Z.lor buttons 0x08) (if dx <? 0 then 0x10 else 0)) (if up <? 0 then 0x20 else 0); wrap 8 dx; wrap 8 up].

Record mouse_ok (m : Mouse) : Prop := mk_mouse_ok {
  mo_width : 0 < SCREEN_WIDTH m < 2 ^ 30;
  mo_height : 0 < SCREEN_HEIGHT m < 2 ^ 30;
  mo_x : 0 <= MOUSE_X m < SCREEN_WIDTH m;
  mo_y : 0 <= MOUSE_Y m < SCREEN_HEIGHT m;
  mo_buttons : 0 <= MOUSE_BUTTONS m < 8;
  mo_packet : length (PACKET m) = 3%nat /\ Forall (in_width 8) (PACKET m);
  mo_index : 0 <= PACKET_INDEX m < 3 }.

Lemma nth_byte p i : Forall (in_width 8) p -> 0 <= nth i p 0 < 256.
Proof.
  intros H. rewrite nth_lookup. destruct (p !! i) as [b|] eqn:E; [|cbn; lia]. by eapply (Forall_lookup_1 _ _ _ _ H) in E.
Qed.

Lemma delta_range p : Forall (in_width 8) p -> - 256 <= delta_x p <= 255 /\ - 255 <= delta_y p <= 256.
Proof.
  intros H. pose proof (nth_byte p 1 H). pose proof (nth_byte p 2 H). unfold delta_x, delta_y. repeat case_match; lia.
Qed.

Lemma clamp_spec pos d size : 0 <= pos < size -> size < 2 ^ 30 -> - 256 <= d <= 256 -> clamp pos d size = Z.max 0 (Z.min (pos + d) (size - 1)).
Proof. intros. unfold clamp. rewrite !to_i32_small by lia. lia. Qed.

Lemma buttons_range b : 0 <= b -> 0 <= Z.land b 7 < 8.
Proof. intros Hb. change 7 with (Z.ones 3). rewrite Z.land_ones by lia. apply Z.mod_pos_bound. lia. Qed.

Lemma handle_ok byte m : mouse_ok m -> in_width 8 byte -> mouse_ok (handle_interrupt byte m).
Proof.
  intros Hm Hb. pose proof Hm as [Hw Hh Hx Hy Hbu [Hl Hp] Hi]. unfold handle_interrupt. destruct (_ && _); [done|].
  assert (Forall (in_width 8) (<[Z.to_nat (PACKET_INDEX m) := byte]> (PACKET m))) as Hp' by (by apply Forall_insert). destruct (delta_range _ Hp').
  destruct (Z.eqb_spec (PACKET_INDEX m) 2).
  - constructor; cbn; [done|done|rewrite clamp_spec; lia|rewrite clamp_spec; lia|apply buttons_range; by apply nth_byte|split; [by rewrite length_insert|done]|lia].
  - constructor; cbn; [done|done|done|done|done|split; [by rewrite length_insert|done]|]. rewrite wrap_small by (unfold in_width; lia). lia.
Qed.

(** The pointer never leaves the screen, whatever bytes the device sends. *)
Theorem pointer_on_screen bytes m : mouse_ok m -> Forall (in_width 8) bytes -> mouse_ok (foldl (fun m b => handle_interrupt b m) m bytes).
Proof. intros Hm Hb. revert m Hm. induction Hb as [|b l Hb Hl IH]; intros m Hm; [done|]. cbn. apply IH. by apply handle_ok. Qed.

(** The flags of a packet can be read back. *)
Lemma packet_flags buttons dx up : 0 <= buttons < 8 ->
  let b := nth 0 (packet_of buttons dx up) 0 in
  Z.land b 0x08 = 8 /\ Z.land b 7 = buttons /\ bit_set b 0x10 = (dx <? 0) /\ bit_set b 0x20 = (up <? 0) /\ in_width 8 b.
Proof.
  intros Hb. assert (Forall (fun b => forall f g, let v := Z.lor (Z.lor (Z.lor b 0x08) (if f : bool then 0x10 else 0)) (if g : bool then 0x20 else 0) in
    Z.land v 0x08 = 8 /\ Z.land v 7 = b /\ bit_set v 0x10 = f /\ bit_set v 0x20 = g /\ in_width 8 v) (seqZ 0 8)) as H.
  { vm_compute seqZ. repeat (apply Forall_cons_2; [intros [] []; vm_compute; repeat split; congruence|]). apply Forall_nil_2. }
  rewrite Forall_forall in H. exact (H buttons ltac:(apply elem_of_seqZ; lia) (dx <? 0) (up <? 0)).
Qed.

(** A movement arrives: from the beginning of a packet, the three bytes of a movement
    of up to 255 in each direction move the pointer by it, as far as the screen goes,
    and set the buttons; a byte that cannot begin a packet is dropped. *)
Theorem movement_applied m buttons dx up : mouse_ok m -> PACKET_INDEX m = 0 -> 0 <= buttons < 8 -> - 256 <= dx <= 255 -> - 256 <= up <= 255 ->
  let m' := foldl (fun m b => handle_interrupt b m) m (packet_of buttons dx up) in
  get_position m' = (Z.max 0 (Z.min (MOUSE_X m + dx) (SCREEN_WIDTH m - 1)), Z.max 0 (Z.min (MOUSE_Y m - up) (SCREEN_HEIGHT m - 1))) /\
  get_buttons m' = buttons /\ PACKET_INDEX m' = 0 /\
  (forall byte, Z.land byte 0x08 = 0 -> handle_interrupt byte m = m).
Proof.
  intros Hm Hi Hb Hdx Hup. destruct (packet_flags buttons dx up Hb) as (F1 & F2 & F3 & F4 & F5). pose proof Hm as [Hw Hh Hx Hy _ [Hl _] _].
  destruct m as [x y bu ini w h pk ix]. cbn in *. subst ix. destruct pk as [|p0 [|p1 [|p2 [|]]]]; try done. set (b0 := Z.lor _ _) in *. clearbody b0.
  assert (handle_interrupt b0 (mkMouse x y bu ini w h [p0; p1; p2] 0) = mkMouse x y bu ini w h [b0; p1; p2] 1) as E1 by (unfold handle_interrupt; cbn; by rewrite F1).
  assert (forall v, handle_interrupt v (mkMouse x y bu ini w h [b0; p1; p2] 1) = mkMouse x y bu ini w h [b0; v; p2] 2) as E2 by reflexivity.
  assert (forall v u, handle_interrupt u (mkMouse x y bu ini w h [b0; v; p2] 2) =
    mkMouse (clamp x (delta_x [b0; v; u]) w) (clamp y (delta_y [b0; v; u]) h) (Z.land b0 7) ini w h [b0; v; u] 0) as E3 by reflexivity.
  rewrite E1, E2, E3, F2. unfold get_position. cbn [MOUSE_X MOUSE_Y]. split; [|split; [done|split; [done|]]].
  - unfold delta_x, delta_y. cbn [nth]. rewrite F3, F4. unfold wrap. change (2 ^ 8) with 256. f_equal.
    + destruct (Z.ltb_spec dx 0); rewrite clamp_spec by (Z.to_euclidean_division_equations; lia); Z.to_euclidean_division_equations; lia.
    + destruct (Z.ltb_spec up 0); rewrite clamp_spec by (Z.to_euclidean_division_equations; lia); Z.to_euclidean_division_equations; lia.
  - intros byte Hbyte. unfold handle_interrupt. cbn - [Z.land]. by rewrite Hbyte.
Qed.

Lemma start_mouse_ok : mouse_ok start.
Proof. constructor; cbn; try lia. split; [done|]. apply (bool_decide_unpack _). vm_compute. exact I. Qed.

Lemma movement_applied_witness : mouse_ok start /\ get_position (foldl (fun m b => handle_interrupt b m) start (packet_of 1 (-5) 255)) = (395, 45).
Proof.
  split; [exact start_mouse_ok|]. destruct (movement_applied start 1 (-5) 255 start_mouse_ok eq_refl) as [H _]; [lia..|]. etransitivity; [exact H|reflexivity].
Defined.

Lemma pointer_on_screen_witness : mouse_ok (foldl (fun m b => handle_interrupt b m) start [0; 0x38; 1; 1; 255]).
Proof. apply (pointer_on_screen [0; 0x38; 1; 1; 255] start); [exact start_mouse_ok|]. apply (bool_decide_unpack _). vm_compute. exact I. Defined.
End Mouse.

(** ** The clock *)

Module Rtc.

Record DateTime : Type := mkDateTime { year : Z; month : Z; day : Z; hour : Z; minute : Z; second : Z }.

Definition bcd_to_binary (bcd : Z) : Z := ((bcd / 16) *[8] 10) +[8] Z.land bcd 0x0F.

(** [cmos]: what each register holds once the update flag in register 0x0A is clear,
    which [read_rtc] waits for. *)
Definition read_rtc (cmos : Z -> Z) : DateTime :=
  let is_bcd := Z.land (cmos 0x0B) 0x04 =? 0 in
  let decode v := if is_bcd then bcd_to_binary v else v in
  mkDateTime (2000 + decode (cmos 0x09)) (decode (cmos 0x08)) (decode (cmos 0x07)) (decode (cmos 0x04)) (decode (cmos 0x02)) (decode (cmos 0x00)).

(** [{:02}] *)
Definition two_digits (n : Z) : list Z :=
  if n <? 100 then [48 + n / 10; 48 + n mod 10] else [48 + n / 100; 48 + n / 10 mod 10; 48 + n mod 10].

Definition format_time (cmos : Z -> Z) : list Z := let dt := read_rtc cmos in two_digits (hour dt) ++ [58] ++ two_digits (minute dt).

Definition to_bcd (n : Z) : Z := n / 10 * 16 + n mod 10.

(** The registers of a clock that shows a date, in the two modes and on 24 hours. *)
Definition shows (bcd : bool) (d : DateTime) (r : Z) : Z :=
  let enc v := if bcd then to_bcd v else v in
  if r =? 0x00 then enc (second d) else if r =? 0x02 then enc (minute d) else if r =? 0x04 then enc (hour d)
  else if r =? 0x07 then enc (day d) else if r =? 0x08 then enc (month d) else if r =? 0x09 then enc (year d - 2000)
  else if r =? 0x0B then (if bcd then 0x02 else 0x06) else 0.

Lemma bcd_roundtrip n : 0 <= n < 100 -> bcd_to_binary (to_bcd n) = n.
Proof.
  intros Hn. unfold bcd_to_binary, to_bcd. change 0x0F with (Z.ones 4). rewrite Z.land_ones by lia. unfold wrap. Z.to_euclidean_division_equations. lia.
Qed.

(** The date that the clock shows is read, in either mode, for the years 2000 to 2099. *)
Theorem date_read bcd d : 2000 <= year d < 2100 -> 0 <= month d < 100 -> 0 <= day d < 100 -> 0 <= hour d < 100 -> 0 <= minute d < 100 -> 0 <= second d < 100 ->
  read_rtc (shows bcd d) = d.
Proof.
  intros. destruct d as [y mo dd h mi s]. cbn [year month day hour minute second] in *.
  unfold read_rtc, shows. cbn [year month day hour minute second Z.eqb Pos.eqb]. destruct bcd.
  - change (Z.land 0x02 0x04 =? 0) with true. cbn iota. rewrite !bcd_roundtrip by lia. f_equal; lia.
  - change (Z.land 0x06 0x04 =? 0) with false. cbn iota. f_equal; lia.
Qed.

Lemma date_read_witness : read_rtc (shows true (mkDateTime 2025 11 18 13 4 59)) = mkDateTime 2025 11 18 13 4 59.
Proof. apply (date_read true (mkDateTime 2025 11 18 13 4 59)); cbn; lia. Defined.

(** A clock set to twelve hours marks the afternoon in the top bit of the hour; it is
    read as a digit, and one in the afternoon becomes hour 81. *)
Theorem afternoon_misread cmos : cmos 0x0B = 0x00 -> cmos 0x04 = Z.lor 0x80 (to_bcd 1) -> hour (read_rtc cmos) = 81.
Proof. intros HB H4. unfold read_rtc. cbn. by rewrite HB, H4. Qed.
End Rtc.
