(* ===== verification/Brk.v ===== *)
(** * The memory of a program ([usermode/syscall.rs]: [sys_brk], [sys_sbrk])

    The heap of a program grows page by page: each page of the new part that is not
    mapped gets a frame of zeros.  Theorems: after [sys_brk] every address of the heap
    is there, with the bytes that were there before and zeros elsewhere, and neither
    the rest of the program nor the kernel has changed; [sys_sbrk] gives the old end.
    Shrinking unmaps nothing, and the end is rounded up to a page. *)

From Stdlib Require Import ZArith Lia Bool.
From stdpp Require Import base numbers option list gmap sets strings.
From S2P Require Import Prelude Bytes Util Frame Paging Mapping UserSpace Process Scheduler Spawn.

Open Scope Z_scope.

Inductive SyscallError : Type :=
| InvalidSyscall | InvalidArgument | PermissionDenied | NotFound | AlreadyExists | SysOutOfMemory | Interrupted | IoError | NotImplemented.

Definition error_number (e : SyscallError) : Z :=
  match e with
  | InvalidSyscall => 1 | InvalidArgument => 2 | PermissionDenied => 3 | NotFound => 4 | AlreadyExists => 5
  | SysOutOfMemory => 6 | Interrupted => 7 | IoError => 8 | NotImplemented => 9
  end.

Definition as_errno (e : SyscallError) : Z := wrap 64 (- error_number e).

(** [proc.heap_end = e] *)
Definition with_heap_end (e : Z) (p : Process) : Process :=
  mkProcess (pid p) (uid p) (state p) (registers p) (page_table p) (kernel_stack p) (user_stack p)
    (is_user_process p) (p_heap_start p) e (mmap_base p) (priority p) (intent p)
    (reality_id p) (cpu_affinity p) (time_slice p) (total_runtime p) (last_scheduled p) (wait_reason p).

Definition BRK_LIMIT : Z := 0x0000700000000000.
Definition HEAP_FLAGS : Z := Z.lor (Z.lor (Z.lor PRESENT WRITABLE) USER) NO_EXECUTE.

Section Brk.
Context {S : Type} `{FS : FrameSource S}.

(** One round of the loop: a page that is mapped already is skipped. *)
Definition grow_page (u v : Z) : Load (S := S) unit := fun s =>
  match translate u v (sp_vm s) with
  | Some _ => (Ok tt, s)
  | None => (do_ place_page false "Out of memory" u HEAP_FLAGS v; ret tt) s
  end.

Fixpoint grow_pages (u : Z) (vs : list Z) : Load (S := S) unit :=
  match vs with [] => ret tt | v :: vs => do_ grow_page u v; grow_pages u vs end.

(** The pages between the old end and the new one. *)
Definition heap_pages (old_end new_end : Z) : list Z :=
  let start_page := align_up old_end PAGE_SIZE in
  let num_pages := ((new_end -[64] start_page) +[64] PAGE_SIZE -[64] 1) / PAGE_SIZE in
  (fun i => start_page +[64] (i *[64] PAGE_SIZE)) <$> seqZ 0 num_pages.

Definition set_heap_end (p e : Z) (s : System S) : System S :=
  mkSystem (sy_space s) (set_table (update p (with_heap_end e) (table (sy_kernel s))) (sy_kernel s)) (NEXT_PID s).

Definition sys_brk (addr : Z) : M (System S) SyscallError Z := fun s =>
  match get_current_pid (sy_kernel s) with
  | None => (Err InvalidArgument, s)
  | Some p =>
      match get p (table (sy_kernel s)) with
      | None => (Err InvalidArgument, s)
      | Some proc =>
          if addr =? 0 then (Ok (p_heap_end proc), s)
          else if (addr <? p_heap_start proc) || (BRK_LIMIT <=? addr) then (Err InvalidArgument, s)
          else
            let old_end := p_heap_end proc in
            let new_end := align_up addr PAGE_SIZE in
            if old_end <? new_end then
              match grow_pages (page_table proc) (heap_pages old_end new_end) (sy_space s) with
              | (Err _, sp) => (Err SysOutOfMemory, mkSystem sp (sy_kernel s) (NEXT_PID s))
              | (Ok _, sp) => (Ok new_end, set_heap_end p new_end (mkSystem sp (sy_kernel s) (NEXT_PID s)))
              end
            else if new_end <? old_end then (Ok new_end, set_heap_end p new_end s)
            else (Ok new_end, s)
      end
  end.

(** [increment] is an [i64]. *)
Definition sys_sbrk (increment : Z) : M (System S) SyscallError Z := fun s =>
  match get_current_pid (sy_kernel s) with
  | None => (Err InvalidArgument, s)
  | Some p =>
      match get p (table (sy_kernel s)) with
      | None => (Err InvalidArgument, s)
      | Some proc =>
          let old := p_heap_end proc in
          let new := if 0 <=? increment then (if old + increment <? 2 ^ 64 then Some (old + increment) else None)
                     else (if wrap 64 (- increment) <=? old then Some (old - wrap 64 (- increment)) else None) in
          match new with
          | None => (Err InvalidArgument, s)
          | Some new_break =>
              if increment =? 0 then (Ok old, s)
              else match sys_brk new_break s with (Err e, s') => (Err e, s') | (Ok _, s') => (Ok old, s') end
          end
      end
  end.

(** ** Growing *)

(** What making the pages [vs] does: bytes that were there stay, and nothing else
    appears. *)
Record grown (u : Z) (vs : list Z) (s s' : Space S) : Prop := {
  gr_ok : pages_ok u s';
  gr_user : user_step u (sp_vm s) (sp_vm s');
  gr_kept w : user_half w -> is_Some (translate u w (sp_vm s)) -> translate u w (sp_vm s') = translate u w (sp_vm s) /\ user_byte u w s' = user_byte u w s;
  gr_other w : user_half w -> (forall v, v ∈ vs -> ~ same_page v w) -> translate u w (sp_vm s') = translate u w (sp_vm s) /\ user_byte u w s' = user_byte u w s
}.

Lemma grown_refl u vs s : pages_ok u s -> grown u vs s s.
Proof. intros H. constructor; [done|apply user_step_refl|done|done]. Qed.

Lemma grown_trans u vs s1 s2 s3 v : grown u [v] s1 s2 -> grown u vs s2 s3 -> grown u (v :: vs) s1 s3.
Proof.
  intros [O1 U1 K1 T1] [O2 U2 K2 T2]. constructor; [done|by eapply user_step_trans| |].
  - intros w Hw Hs. destruct (K1 w Hw Hs) as [E1 B1]. destruct (K2 w Hw) as [E2 B2]; [by rewrite E1|]. by rewrite E2, B2.
  - intros w Hw Hn. destruct (T1 w Hw) as [E1 B1]; [set_solver|]. destruct (T2 w Hw) as [E2 B2]; [set_solver|]. by rewrite E2, B2.
Qed.

Lemma heap_flags_present : is_present HEAP_FLAGS = true.
Proof. reflexivity. Qed.

Lemma grow_page_spec u v (s : Space S) : pages_ok u s -> user_half v ->
  let '(r, s') := grow_page u v s in
  grown u [v] s s' /\ (is_ok r = true -> forall w, same_page v w -> user_byte u w s' = Some (default 0 (user_byte u w s))).
Proof.
  intros Hok Hv. unfold grow_page. destruct (translate u v (sp_vm s)) as [f|] eqn:Et.
  - split; [by apply grown_refl|]. intros _ w Hw. unfold user_byte. by rewrite (translate_same_page u v w _ Hw), Et.
  - unfold bindM. pose proof (place_page_spec false "Out of memory" u HEAP_FLAGS v s Hok heap_flags_present Hv ltac:(done)) as H.
    destruct (place_page false "Out of memory" u HEAP_FLAGS v s) as [r s'] eqn:Ep. destruct H as [(O & U & T & B) R].
    assert (forall w, same_page v w -> translate u w (sp_vm s) = None) as Hn by (intros w Hw; by rewrite (translate_same_page u v w _ Hw)).
    assert (grown u [v] s s') as G.
    { constructor; [done|done| |].
      - intros w Hw [f Hf]. assert (~ same_page v w) as Hvw by (intros E; rewrite (Hn w E) in Hf; done). split; [by apply T|by apply B].
      - intros w Hw Ho. assert (~ same_page v w) as Hvw by (apply Ho; set_solver). split; [by apply T|by apply B]. }
    destruct r as [f|e]; (split; [done|]); [|done]. intros _ w Hw. destruct R as (_ & _ & _ & R). rewrite (proj2 (R w Hw)). unfold user_byte. by rewrite (Hn w Hw).
Qed.

Lemma grow_pages_spec u vs : forall s : Space S, pages_ok u s -> Forall user_half vs ->
  let '(r, s') := grow_pages u vs s in
  grown u vs s s' /\ (is_ok r = true -> forall v w, v ∈ vs -> same_page v w -> user_byte u w s' = Some (default 0 (user_byte u w s))).
Proof.
  induction vs as [|v vs IH]; intros s Hok Hvs; cbn [grow_pages].
  - split; [by apply grown_refl|]. intros _ v w Hv. by apply not_elem_of_nil in Hv.
  - apply Forall_cons in Hvs as [Hv Hvs]. unfold bindM. pose proof (grow_page_spec u v s Hok Hv) as H. destruct (grow_page u v s) as [[[]|e] s1].
    + destruct H as [G1 B1]. specialize (IH s1 (gr_ok _ _ _ _ G1) Hvs). destruct (grow_pages u vs s1) as [r s2]. destruct IH as [G2 B2].
      split; [by eapply grown_trans|]. intros Hr v' w Hv' Hw. destruct (decide (same_page v w)) as [E|E].
      * assert (user_half w) as Huw by (by eapply user_half_page). specialize (B1 eq_refl w E).
        destruct (gr_kept _ _ _ _ G2 w Huw) as [_ ->]; [|done]. unfold user_byte in B1. destruct (translate u w (sp_vm s1)); done.
      * apply list_elem_of_In in Hv'. destruct Hv' as [->|Hv']; [done|]. apply list_elem_of_In in Hv'. rewrite (B2 Hr v' w Hv' Hw).
        destruct (gr_other _ _ _ _ G1 w) as [_ ->]; [|set_solver|done]. rewrite Forall_forall in Hvs. eapply user_half_page; [exact Hw|by apply Hvs].
    + destruct H as [G1 _]. split; [|done]. eapply grown_trans; [exact G1|]. apply grown_refl. apply (gr_ok _ _ _ _ G1).
Qed.

(** ** The pages of a heap *)

Lemma align_up_heap a : 0 <= a <= BRK_LIMIT -> align_up a PAGE_SIZE = round_up a 4096 /\ a <= round_up a 4096 < a + 4096 /\ (4096 | round_up a 4096).
Proof.
  unfold BRK_LIMIT. intros Ha. destruct (round_up_spec a 4096 ltac:(lia)) as [H1 H2]. split; [|done]. change PAGE_SIZE with (2 ^ 12). apply align_up_exact; lia.
Qed.

Lemma round_up_multiple a : (4096 | a) -> round_up a 4096 = a.
Proof. intros [k ->]. unfold round_up. Z.to_euclidean_division_equations. lia. Qed.

Lemma round_up_limit a : a < BRK_LIMIT -> round_up a 4096 <= BRK_LIMIT.
Proof. unfold BRK_LIMIT, round_up. intros. Z.to_euclidean_division_equations. lia. Qed.

Lemma heap_pages_list old_end new_end : 0 <= old_end < new_end -> new_end <= BRK_LIMIT -> (4096 | old_end) -> (4096 | new_end) ->
  heap_pages old_end new_end = (fun i => old_end + i * 4096) <$> seqZ 0 ((new_end - old_end) / 4096).
Proof.
  intros Ho Hn Do Dn. unfold heap_pages. destruct (align_up_heap old_end) as (-> & _ & _); [lia|]. rewrite round_up_multiple by done. unfold BRK_LIMIT, PAGE_SIZE in *.
  rewrite (wrap_small 64 (new_end - old_end)) by (unfold in_width; lia). rewrite (wrap_small 64 (_ + 4096)), (wrap_small 64 (_ - 1)) by (unfold in_width; lia).
  assert ((new_end - old_end + 4096 - 1) / 4096 = (new_end - old_end) / 4096) as ->.
  { destruct Do as [a ->], Dn as [b ->]. Z.to_euclidean_division_equations. lia. }
  apply list_fmap_ext. intros k i Hi. apply lookup_seqZ in Hi as [-> Hk].
  assert (0 <= Z.of_nat k * 4096 < new_end - old_end) as B by (Z.to_euclidean_division_equations; lia).
  rewrite Z.add_0_l. rewrite (wrap_small 64 (Z.of_nat k * 4096)), wrap_small by (unfold in_width; lia). done.
Qed.

Lemma heap_page_bounds old_end new_end v : 0 <= old_end < new_end -> new_end <= BRK_LIMIT -> (4096 | old_end) -> (4096 | new_end) ->
  v ∈ heap_pages old_end new_end -> old_end <= v /\ v + 4096 <= new_end /\ v mod PAGE_SIZE = 0.
Proof.
  intros Ho Hn Do Dn Hv. rewrite heap_pages_list in Hv by done. apply list_elem_of_fmap in Hv as (i & -> & Hi). apply elem_of_seqZ in Hi.
  destruct Do as [a ->], Dn as [b ->]. unfold PAGE_SIZE. Z.to_euclidean_division_equations. lia.
Qed.

Lemma in_heap_pages old_end new_end w : 0 <= old_end < new_end -> new_end <= BRK_LIMIT -> (4096 | old_end) -> (4096 | new_end) ->
  old_end <= w < new_end -> exists v, v ∈ heap_pages old_end new_end /\ same_page v w.
Proof.
  intros Ho Hn Do Dn Hw. exists (old_end + (w - old_end) / 4096 * 4096). split.
  - rewrite heap_pages_list by done. apply list_elem_of_fmap. exists ((w - old_end) / 4096). split; [done|]. apply elem_of_seqZ.
    destruct Do as [a ->], Dn as [b ->]. Z.to_euclidean_division_equations. lia.
  - replace w with (old_end + (w - old_end) / 4096 * 4096 + (w - old_end) mod 4096) at 2 by (Z.to_euclidean_division_equations; lia).
    apply same_page_offset; [|unfold PAGE_SIZE; apply Z.mod_pos_bound; lia]. destruct Do as [a ->]. unfold PAGE_SIZE. Z.to_euclidean_division_equations. lia.
Qed.

Lemma off_heap_pages old_end new_end v w : 0 <= old_end < new_end -> new_end <= BRK_LIMIT -> (4096 | old_end) -> (4096 | new_end) ->
  0 <= w < 2 ^ 47 -> ~ (old_end <= w < new_end) -> v ∈ heap_pages old_end new_end -> ~ same_page v w.
Proof.
  intros Ho Hn Do Dn Hw Hno Hv E. destruct (heap_page_bounds _ _ _ Ho Hn Do Dn Hv) as (B1 & B2 & B3). unfold BRK_LIMIT, PAGE_SIZE in *.
  apply same_page_small in E; [|lia..]. rewrite !Z.shiftr_div_pow2 in E by lia. change (2 ^ 12) with 4096 in E. Z.to_euclidean_division_equations. lia.
Qed.

(** ** [sys_brk] *)

(** A program whose heap can grow: its pages are in order, and its heap ends at a page
    in the part of the address space that is for heaps. *)
Record heap_ok (proc : Process) (s : System S) : Prop := {
  ho_pages : pages_ok (page_table proc) (sy_space s);
  ho_table : table_ok (table (sy_kernel s));
  ho_end : 0 <= p_heap_start proc <= p_heap_end proc /\ p_heap_end proc <= BRK_LIMIT;
  ho_aligned : (4096 | p_heap_end proc) }.

Lemma heap_pages_user old_end new_end : 0 <= old_end < new_end -> new_end <= BRK_LIMIT -> (4096 | old_end) -> (4096 | new_end) ->
  Forall user_half (heap_pages old_end new_end).
Proof.
  intros Ho Hn Do Dn. apply Forall_forall. intros v Hv. destruct (heap_page_bounds _ _ _ Ho Hn Do Dn Hv) as (B1 & B2 & _).
  apply user_half_small. unfold BRK_LIMIT in Hn. lia.
Qed.

(** The end of the heap in the process table, and nothing else of it. *)
Definition heap_end_set (p e : Z) (s s' : System S) : Prop :=
  as_map (table (sy_kernel s')) = alter (with_heap_end e) p (as_map (table (sy_kernel s))) /\ NEXT_PID s' = NEXT_PID s.

Lemma set_heap_end_spec p e s : table_ok (table (sy_kernel s)) -> heap_end_set p e s (set_heap_end p e s) /\ sy_space (set_heap_end p e s) = sy_space s.
Proof. intros Ht. split; [|done]. split; [|done]. by apply update_ok. Qed.

Lemma sys_brk_spec p proc addr (s : System S) : get_current_pid (sy_kernel s) = Some p -> get p (table (sy_kernel s)) = Some proc -> heap_ok proc s ->
  p_heap_start proc <= addr < BRK_LIMIT -> addr <> 0 ->
  let '(r, s') := sys_brk addr s in
  let old := p_heap_end proc in let new := round_up addr 4096 in let u := page_table proc in
  pages_ok u (sy_space s') /\ user_step u (sp_vm (sy_space s)) (sp_vm (sy_space s')) /\
  (forall w, 0 <= w < 2 ^ 47 -> is_Some (user_byte u w (sy_space s)) \/ ~ (old <= w < new) -> user_byte u w (sy_space s') = user_byte u w (sy_space s)) /\
  match r with
  | Ok e => e = new /\ (forall w, old <= w < new -> user_byte u w (sy_space s') = Some (default 0 (user_byte u w (sy_space s)))) /\ heap_end_set p new s s'
  | Err e => e = SysOutOfMemory /\ sy_kernel s' = sy_kernel s
  end.
Proof.
  intros Hp Hg [Hok Ht [He1 He2] Ha] Hr H0. unfold sys_brk. rewrite Hp, Hg. destruct (Z.eqb_spec addr 0); [done|].
  destruct (Z.ltb_spec addr (p_heap_start proc)), (Z.leb_spec BRK_LIMIT addr); try lia. cbn [orb].
  destruct (align_up_heap addr) as (-> & Hb & Hd); [lia|]. pose proof (round_up_limit addr ltac:(lia)) as Hlim.
  destruct (Z.ltb_spec (p_heap_end proc) (round_up addr 4096)) as [G|G].
  - assert (0 <= p_heap_end proc < round_up addr 4096) as Ho by lia. pose proof (heap_pages_user _ _ Ho Hlim Ha Hd) as Hu.
    pose proof (grow_pages_spec (page_table proc) (heap_pages (p_heap_end proc) (round_up addr 4096)) (sy_space s) Hok Hu) as HG.
    destruct (grow_pages _ _ (sy_space s)) as [r sp]. destruct HG as [[O U K T] B].
    assert (forall w, 0 <= w < 2 ^ 47 -> is_Some (user_byte (page_table proc) w (sy_space s)) \/ ~ (p_heap_end proc <= w < round_up addr 4096) ->
      user_byte (page_table proc) w sp = user_byte (page_table proc) w (sy_space s)) as Hkeep.
    { intros w Hw [Hs|Hs].
      - apply K; [by apply user_half_small|]. unfold user_byte in Hs. by apply fmap_is_Some in Hs.
      - apply T; [by apply user_half_small|]. intros v Hv. exact (off_heap_pages _ _ v w Ho Hlim Ha Hd Hw Hs Hv). }
    destruct r as [[]|e].
    + cbn zeta. destruct (set_heap_end_spec p (round_up addr 4096) (mkSystem sp (sy_kernel s) (NEXT_PID s)) Ht) as [E1 E2]. rewrite E2. cbn [sy_space].
      split; [done|]. split; [done|]. split; [done|]. split; [done|]. split; [|exact E1].
      intros w Hw. destruct (in_heap_pages _ _ w Ho Hlim Ha Hd Hw) as (v & Hv & Hvw). by apply (B eq_refl v w).
    + cbn zeta. cbn [sy_space sy_kernel]. done.
  - assert (forall s' : System S, sy_space s' = sy_space s -> pages_ok (page_table proc) (sy_space s') /\ user_step (page_table proc) (sp_vm (sy_space s)) (sp_vm (sy_space s')) /\
      (forall w, 0 <= w < 2 ^ 47 -> is_Some (user_byte (page_table proc) w (sy_space s)) \/ ~ (p_heap_end proc <= w < round_up addr 4096) ->
      user_byte (page_table proc) w (sy_space s') = user_byte (page_table proc) w (sy_space s))) as Hsame.
    { intros s' ->. split; [done|]. split; [apply user_step_refl|done]. }
    destruct (Z.ltb_spec (round_up addr 4096) (p_heap_end proc)); cbn zeta.
    + destruct (set_heap_end_spec p (round_up addr 4096) s Ht) as [E1 E2]. destruct (Hsame _ E2) as (X1 & X2 & X3).
      split; [done|]. split; [done|]. split; [done|]. split; [done|]. split; [lia|done].
    + destruct (Hsame s eq_refl) as (X1 & X2 & X3). split; [done|]. split; [done|]. split; [done|]. split; [done|]. split; [lia|].
      split; [|done]. assert (round_up addr 4096 = p_heap_end proc) as -> by lia. rewrite get_spec in Hg. apply map_eq. intros i.
      destruct (decide (i = p)) as [->|Hi]; [|by rewrite lookup_alter_ne]. rewrite lookup_alter_eq, Hg. cbn. f_equal. by destruct proc.
Qed.
End Brk.

(** ** Theorems *)

Section Theorems.
Context {S : Type} `{FS : FrameSource S}.

(** C26: Asking for the end of the heap gives it, and an end below the heap's beginning or
    beyond the part for heaps is refused; neither changes anything.  Any other end is
    rounded up to a page.  If there is memory the heap then has every address up to
    it: bytes that the program had stay, new ones are zero, and the new end is in the
    process table.  If there is not, the end of the heap stays.  In both cases no
    other address of the program changes, and the tables of others are left alone. *)
Theorem brk_correct p proc addr (s : System S) : get_current_pid (sy_kernel s) = Some p -> get p (table (sy_kernel s)) = Some proc -> heap_ok proc s ->
  0 <= addr ->
  let u := page_table proc in let old := p_heap_end proc in let new := round_up addr 4096 in
  if decide (addr = 0) then sys_brk addr s = (Ok old, s)
  else if decide (p_heap_start proc <= addr < BRK_LIMIT) then
    let '(r, s') := sys_brk addr s in
    pages_ok u (sy_space s') /\ user_step u (sp_vm (sy_space s)) (sp_vm (sy_space s')) /\
    (forall w, 0 <= w < 2 ^ 47 -> is_Some (user_byte u w (sy_space s)) \/ ~ (old <= w < new) -> user_byte u w (sy_space s') = user_byte u w (sy_space s)) /\
    match r with
    | Ok e => e = new /\ (forall w, old <= w < new -> user_byte u w (sy_space s') = Some (default 0 (user_byte u w (sy_space s)))) /\ heap_end_set p new s s'
    | Err e => e = SysOutOfMemory /\ sy_kernel s' = sy_kernel s
    end
  else sys_brk addr s = (Err InvalidArgument, s).
Proof.
  intros Hp Hg Hok H0. destruct (decide (addr = 0)) as [->|Hne]; [unfold sys_brk; by rewrite Hp, Hg|].
  destruct (decide (p_heap_start proc <= addr < BRK_LIMIT)) as [Hr|Hr]; [by apply sys_brk_spec|].
  unfold sys_brk. rewrite Hp, Hg. destruct (Z.eqb_spec addr 0); [done|]. by destruct (Z.ltb_spec addr (p_heap_start proc)), (Z.leb_spec BRK_LIMIT addr); try lia.
Qed.

(** [sys_sbrk] gives the old end of the heap, and at least the memory asked for lies
    there. *)
Theorem sbrk_gives_memory p proc n (s s' : System S) r : get_current_pid (sy_kernel s) = Some p -> get p (table (sy_kernel s)) = Some proc -> heap_ok proc s ->
  0 < n -> p_heap_end proc + n < BRK_LIMIT -> sys_sbrk n s = (Ok r, s') ->
  r = p_heap_end proc /\ (forall w, r <= w < r + n -> is_Some (user_byte (page_table proc) w (sy_space s'))) /\
  exists e, r + n <= e < r + n + 4096 /\ heap_end_set p e s s'.
Proof.
  intros Hp Hg Hok Hn Hl. unfold sys_sbrk. rewrite Hp, Hg. destruct (Z.leb_spec 0 n); [|lia]. pose proof (ho_end _ _ Hok). unfold BRK_LIMIT in Hl.
  destruct (Z.ltb_spec (p_heap_end proc + n) (2 ^ 64)); [|lia]. destruct (Z.eqb_spec n 0); [lia|].
  pose proof (sys_brk_spec p proc (p_heap_end proc + n) s Hp Hg Hok ltac:(unfold BRK_LIMIT; lia) ltac:(lia)) as HB.
  destruct (sys_brk (p_heap_end proc + n) s) as [[e|e] s1]; intros [= <- <-]. destruct HB as (_ & _ & _ & -> & Hw & He).
  destruct (align_up_heap (p_heap_end proc + n)) as (_ & Hb & _); [unfold BRK_LIMIT; lia|]. split; [done|]. split; [|by exists (round_up (p_heap_end proc + n) 4096)].
  intros w Hwr. rewrite Hw by lia. by eexists.
Qed.

(** Giving back the whole address space below the end succeeds and does nothing: the
    new end is zero, which [sys_brk] takes for a question. *)
Theorem sbrk_to_zero p proc (s : System S) : get_current_pid (sy_kernel s) = Some p -> get p (table (sy_kernel s)) = Some proc ->
  0 < p_heap_end proc < 2 ^ 63 -> sys_sbrk (- p_heap_end proc) s = (Ok (p_heap_end proc), s).
Proof.
  intros Hp Hg He. unfold sys_sbrk. rewrite Hp, Hg, Z.opp_involutive. destruct (Z.leb_spec 0 (- p_heap_end proc)); [lia|].
  rewrite wrap_small by (unfold in_width; lia). rewrite Z.leb_refl, Z.sub_diag. destruct (Z.eqb_spec (- p_heap_end proc) 0); [lia|].
  unfold sys_brk. rewrite Hp, Hg. reflexivity.
Qed.
End Theorems.

(** ** Witnesses *)

Definition demo_process : Process := user_process 7 0x400000 0 user_p4 0 0x500000.
Definition demo_kernel : Kernel := set_current_pid 7 (set_table (add demo_process ProcessTable_new).2 (boot 1)).
Definition demo_system : System FrameAllocator := mkSystem user_space demo_kernel 8.

Lemma user_space_ok : pages_ok user_p4 user_space.
Proof.
  pose proof (create_user_address_space_spec kernel_p4 kernel_space kernel_vm_ok) as H. rewrite user_space_made in H. destruct H as (_ & _ & H & _). exact H.
Qed.

Lemma demo_heap_ok : heap_ok demo_process demo_system.
Proof.
  constructor; [exact user_space_ok| |cbn; unfold BRK_LIMIT; lia|by exists 1280].
  change (table (sy_kernel demo_system)) with (add demo_process ProcessTable_new).2.
  constructor; [reflexivity|apply (bool_decide_unpack _); vm_compute; exact I|vm_compute; reflexivity].
Qed.

Lemma brk_correct_witness : heap_ok demo_process demo_system /\ exists s', sys_brk 0x501001 demo_system = (Ok 0x502000, s') /\ user_byte user_p4 0x501FFF (sy_space s') = Some 0.
Proof.
  split; [exact demo_heap_ok|].
  assert ((sys_brk 0x501001 demo_system).1 = Ok 0x502000) as E by (vm_compute; reflexivity).
  assert (user_byte user_p4 0x501FFF (sy_space demo_system) = None) as E0 by (vm_compute; reflexivity).
  pose proof (brk_correct 7 demo_process 0x501001 demo_system eq_refl eq_refl demo_heap_ok ltac:(lia)) as H.
  revert E E0 H. change (page_table demo_process) with user_p4. change (p_heap_end demo_process) with 0x500000. change (p_heap_start demo_process) with 0x500000.
  generalize demo_system. intros s E E0. cbn zeta. destruct (decide (0x501001 = 0)); [discriminate|].
  destruct (decide (0x500000 <= 0x501001 < BRK_LIMIT)) as [_|Hn]; [|exfalso; apply Hn; split; vm_compute; congruence]. intros H.
  exists (sys_brk 0x501001 s).2. split; [by apply pair_fst|]. destruct (sys_brk 0x501001 s) as [[e|e] s']; [|discriminate E]. cbn [snd].
  destruct H as (_ & _ & _ & _ & Hw & _). rewrite (Hw 0x501FFF) by (split; vm_compute; congruence). by rewrite E0.
Defined.

Lemma sbrk_gives_memory_witness : exists s', sys_sbrk 16 demo_system = (Ok 0x500000, s') /\ is_Some (user_byte user_p4 0x50000F (sy_space s')).
Proof.
  assert ((sys_sbrk 16 demo_system).1 = Ok 0x500000) as E by (vm_compute; reflexivity). exists (sys_sbrk 16 demo_system).2. pose proof (pair_fst _ _ E) as E'. split; [exact E'|].
  destruct (sbrk_gives_memory 7 demo_process 16 demo_system _ _ eq_refl eq_refl demo_heap_ok ltac:(lia) ltac:(cbn; unfold BRK_LIMIT; lia) E') as (_ & H & _).
  apply H. lia.
Defined.

Lemma sbrk_to_zero_witness : sys_sbrk (- 0x500000) demo_system = (Ok 0x500000, demo_system).
Proof. apply (sbrk_to_zero 7 demo_process demo_system eq_refl eq_refl). cbn. lia. Defined.
