(* ===== verification/Security.v ===== *)
(** * Security ([kernel/src/security/])

    Capability sets as bit masks, intents and their textual form, the security
    context of a process with its trust score, and sandboxes. *)

From Stdlib Require Import ZArith Lia Bool Ascii String.
From stdpp Require Import base numbers option list strings gmap sets.
From S2P Require Import Prelude.
From S2P Require Import Text.

(** ** Capabilities ([capability.rs]) *)

Inductive Capability : Type :=
| FileRead | FileWrite | FileExecute | FileCreate | FileDelete
| NetConnect | NetBind | NetRawSocket
| ProcessSpawn | ProcessKill | ProcessDebug
| MemoryAllocate | MemoryMap | MemoryExecute
| GraphicsCreate | GraphicsBlit | GraphicsPresent
| SystemShutdown | SystemReboot | SystemTime
| RealityFork | RealityMerge | CausalityQuery.

#[global] Instance Capability_eq_dec : EqDecision Capability.
Proof. solve_decision. Defined.

Definition cap_index (c : Capability) : Z :=
  match c with
  | FileRead => 0 | FileWrite => 1 | FileExecute => 2 | FileCreate => 3 | FileDelete => 4
  | NetConnect => 10 | NetBind => 11 | NetRawSocket => 12
  | ProcessSpawn => 20 | ProcessKill => 21 | ProcessDebug => 22
  | MemoryAllocate => 30 | MemoryMap => 31 | MemoryExecute => 32
  | GraphicsCreate => 40 | GraphicsBlit => 41 | GraphicsPresent => 42
  | SystemShutdown => 50 | SystemReboot => 51 | SystemTime => 52
  | RealityFork => 60 | RealityMerge => 61 | CausalityQuery => 62
  end.
Definition cap_bit (c : Capability) : Z := mask (cap_index c).

Definition is_sensitive (c : Capability) : bool :=
  match c with
  | FileExecute | NetRawSocket | ProcessDebug | MemoryExecute | SystemShutdown | SystemReboot => true
  | _ => false
  end.

(** A [CapabilitySet] is its [bits]. *)
Definition CapabilitySet : Type := Z.
Definition caps_new : CapabilitySet := 0.
Definition caps_all : CapabilitySet := wnot 64 0.
Definition caps_has (s : CapabilitySet) (c : Capability) : bool := negb (Z.land s (cap_bit c) =? 0).
Definition caps_add (c : Capability) (s : CapabilitySet) : CapabilitySet := Z.lor s (cap_bit c).
Definition caps_remove (c : Capability) (s : CapabilitySet) : CapabilitySet := Z.land s (wnot 64 (cap_bit c)).
Definition caps_clear (s : CapabilitySet) : CapabilitySet := 0.
Definition caps_union (s t : CapabilitySet) : CapabilitySet := Z.lor s t.
Definition caps_intersection (s t : CapabilitySet) : CapabilitySet := Z.land s t.
Definition caps_default : CapabilitySet :=
  caps_add GraphicsPresent (caps_add GraphicsBlit (caps_add GraphicsCreate (caps_add MemoryAllocate (caps_add FileRead caps_new)))).

(** ** Intents ([intent.rs]) *)

Inductive IntentAction : Type :=
| ReadFile | WriteFile | ExecuteFile | CreateFile | DeleteFile | ConnectNetwork | BindNetwork | SpawnProcess
| AllocateMemory | CreateGraphics | Shutdown | Reboot | ForkReality | MergeReality | QueryCausality | Custom.

#[global] Instance IntentAction_eq_dec : EqDecision IntentAction.
Proof. solve_decision. Defined.

Inductive IntentPriority : Type := PrioLow | PrioNormal | PrioHigh | PrioCritical.

Record Intent : Type := mkIntent {
  action : IntentAction; target : option str; parameters : list (str * str); int_priority : IntentPriority }.

Definition Intent_new (a : IntentAction) : Intent := mkIntent a None [] PrioNormal.
Definition with_target (t : str) (i : Intent) : Intent := mkIntent (action i) (Some t) (parameters i) (int_priority i).
Definition with_int_priority (p : IntentPriority) (i : Intent) : Intent := mkIntent (action i) (target i) (parameters i) p.
Definition add_parameter (k v : str) (i : Intent) : Intent :=
  mkIntent (action i) (target i) (parameters i ++ [(k, v)]) (int_priority i).

Definition matches_capability (i : Intent) (c : Capability) : bool :=
  match action i, c with
  | ReadFile, FileRead | WriteFile, FileWrite | ExecuteFile, FileExecute | CreateFile, FileCreate
  | DeleteFile, FileDelete | ConnectNetwork, NetConnect | BindNetwork, NetBind | SpawnProcess, ProcessSpawn
  | AllocateMemory, MemoryAllocate | CreateGraphics, GraphicsCreate | Shutdown, SystemShutdown
  | Reboot, SystemReboot | ForkReality, RealityFork | MergeReality, RealityMerge
  | QueryCausality, CausalityQuery => true
  | _, _ => false
  end.

Definition required_capability (i : Intent) : option Capability :=
  match action i with
  | ReadFile => Some FileRead | WriteFile => Some FileWrite | ExecuteFile => Some FileExecute
  | CreateFile => Some FileCreate | DeleteFile => Some FileDelete | ConnectNetwork => Some NetConnect
  | BindNetwork => Some NetBind | SpawnProcess => Some ProcessSpawn | AllocateMemory => Some MemoryAllocate
  | CreateGraphics => Some GraphicsCreate | Shutdown => Some SystemShutdown | Reboot => Some SystemReboot
  | ForkReality => Some RealityFork | MergeReality => Some RealityMerge | QueryCausality => Some CausalityQuery
  | Custom => None
  end.

Definition action_names : list (str * IntentAction) :=
  [(lit "read", ReadFile); (lit "write", WriteFile); (lit "exec", ExecuteFile); (lit "create", CreateFile);
   (lit "delete", DeleteFile); (lit "connect", ConnectNetwork); (lit "bind", BindNetwork); (lit "spawn", SpawnProcess);
   (lit "alloc", AllocateMemory); (lit "graphics", CreateGraphics); (lit "shutdown", Shutdown); (lit "reboot", Reboot);
   (lit "reality.fork", ForkReality); (lit "reality.merge", MergeReality); (lit "causality.query", QueryCausality)].

Definition parse_action (s : str) : IntentAction :=
  match list_find (fun p => p.1 = s) action_names with
  | Some (_, (_, a)) => a
  | None => Custom
  end.

(** The loop over the parameters: a piece without [=] is dropped. *)
Fixpoint parse_params (ps : list str) : list (str * str) :=
  match ps with
  | [] => []
  | p :: r =>
      match split_once "="%char p with
      | (k, Some v) => (k, v) :: parse_params r
      | (_, None) => parse_params r
      end
  end.

Definition nonempty (t : str) : option str := match t with [] => None | _ => Some t end.

(** [action:target?k=v&k=v]; [parts] is never empty, so the parser never fails. *)
Definition parse_intent (s : str) : option Intent :=
  let '(name, rest) := split_once ":"%char s in
  let a := parse_action name in
  Some
  match rest with
  | None => Intent_new a
  | Some r =>
      let '(t, ps) := split_once "?"%char r in
      mkIntent a (nonempty t)
        (match ps with Some p => parse_params (split_on "&"%char p) | None => [] end) PrioNormal
  end.

(** ** Contexts ([mod.rs]) *)

Inductive SandboxLevel : Type := SbNone | SbLow | SbMedium | SbHigh | SbMaximum.
Definition sandbox_code (l : SandboxLevel) : Z :=
  match l with SbNone => 0 | SbLow => 1 | SbMedium => 2 | SbHigh => 3 | SbMaximum => 4 end.

Record BehaviorPatterns : Type := mkPatterns {
  file_access_count : Z; network_access_count : Z; process_spawn_count : Z; memory_allocations : Z;
  syscall_distribution : gmap Z Z; anomaly_score : Z }.

Definition BehaviorPatterns_new : BehaviorPatterns := mkPatterns 0 0 0 0 ∅ 0.

Definition record_syscall (n : Z) (b : BehaviorPatterns) : BehaviorPatterns :=
  mkPatterns (file_access_count b) (network_access_count b) (process_spawn_count b) (memory_allocations b)
    (<[n := default 0 (syscall_distribution b !! n) +[32] 1]> (syscall_distribution b)) (anomaly_score b).

Definition total_syscalls (b : BehaviorPatterns) : Z :=
  map_fold (fun _ v acc => acc +[32] v) 0 (syscall_distribution b).

Definition update_anomaly_score (b : BehaviorPatterns) : BehaviorPatterns :=
  let score := if total_syscalls b >? 10000 then anomaly_score b +[32] 1 else anomaly_score b in
  mkPatterns (file_access_count b) (network_access_count b) (process_spawn_count b) (memory_allocations b)
    (syscall_distribution b) (if score >? 100 then 100 else score).

Record CapabilityRequest : Type := mkRequest {
  req_capability : Capability; req_intent : Intent; req_timestamp : Z; granted : bool; reason : option str }.

Record SecurityContext : Type := mkContext {
  sc_pid : Z; capabilities : CapabilitySet; intent_history : list Intent; trust_score : Z;
  sandbox_level : SandboxLevel; behavior_patterns : BehaviorPatterns; capability_requests : list CapabilityRequest }.

Definition SecurityContext_new (p : Z) : SecurityContext :=
  mkContext p caps_default [] 50 SbMedium BehaviorPatterns_new [].
Definition new_trusted (p : Z) : SecurityContext := mkContext p caps_all [] 100 SbNone BehaviorPatterns_new [].

Definition with_caps (s : CapabilitySet) (c : SecurityContext) : SecurityContext :=
  mkContext (sc_pid c) s (intent_history c) (trust_score c) (sandbox_level c) (behavior_patterns c) (capability_requests c).
Definition with_requests (r : list CapabilityRequest) (c : SecurityContext) : SecurityContext :=
  mkContext (sc_pid c) (capabilities c) (intent_history c) (trust_score c) (sandbox_level c) (behavior_patterns c) r.
Definition with_trust (t : Z) (l : SandboxLevel) (c : SecurityContext) : SecurityContext :=
  mkContext (sc_pid c) (capabilities c) (intent_history c) t l (behavior_patterns c) (capability_requests c).

Definition check_capability (c : SecurityContext) (cap : Capability) : bool := caps_has (capabilities c) cap.

(** [if let Some(last_req) = capability_requests.last_mut() ...]. *)
Fixpoint mark_last (cap : Capability) (why : str) (l : list CapabilityRequest) : list CapabilityRequest :=
  match l with
  | [] => []
  | [r] =>
      if bool_decide (req_capability r = cap) && negb (granted r)
      then [mkRequest (req_capability r) (req_intent r) (req_timestamp r) true (Some why)] else [r]
  | r :: l' => r :: mark_last cap why l'
  end.

Definition grant_capability (cap : Capability) (why : str) (c : SecurityContext) : SecurityContext :=
  with_requests (mark_last cap why (capability_requests c)) (with_caps (caps_add cap (capabilities c)) c).
Definition revoke_capability (cap : Capability) (c : SecurityContext) : SecurityContext :=
  with_caps (caps_remove cap (capabilities c)) c.

Definition evaluate_capability_request (c : SecurityContext) (cap : Capability) (i : Intent) : bool :=
  if trust_score c >=? 80 then true
  else if negb (matches_capability i cap) then false
  else if anomaly_score (behavior_patterns c) >? 70 then false
  else if is_sensitive cap && (trust_score c <? 60) then false
  else trust_score c >=? 50.

(** [now] is [crate::get_timestamp()]. *)
Definition request_capability (now : Z) (cap : Capability) (i : Intent) (c : SecurityContext) : bool * SecurityContext :=
  let c1 := with_requests (capability_requests c ++ [mkRequest cap i now false None]) c in
  if evaluate_capability_request c1 cap i
  then (true, grant_capability cap (lit "Intent-based grant") c1) else (false, c1).

Definition record_intent (i : Intent) (c : SecurityContext) : SecurityContext :=
  let h := intent_history c ++ [i] in
  mkContext (sc_pid c) (capabilities c) (if (1000 <? length h)%nat then tail h else h) (trust_score c)
    (sandbox_level c) (behavior_patterns c) (capability_requests c).

(** [i32] arithmetic: the score is cast, the sum wraps. *)

Definition level_of (t : Z) : SandboxLevel :=
  if (0 <=? t) && (t <=? 20) then SbMaximum
  else if (21 <=? t) && (t <=? 40) then SbHigh
  else if (41 <=? t) && (t <=? 60) then SbMedium
  else if (61 <=? t) && (t <=? 80) then SbLow
  else if (81 <=? t) && (t <=? 100) then SbNone
  else SbMedium.

Definition adjust_trust_score (delta : Z) (c : SecurityContext) : SecurityContext :=
  let sum := to_i32 (to_i32 (trust_score c) + delta) in
  let t := Z.max 0 (Z.min 100 sum) mod 2 ^ 32 in
  with_trust t (level_of t) c.

(** The manager: contexts by pid. *)
Definition SecurityManager : Type := gmap Z SecurityContext.
Definition create_security_context (p : Z) (m : SecurityManager) : SecurityManager := <[p := SecurityContext_new p]> m.
Definition create_trusted_context (p : Z) (m : SecurityManager) : SecurityManager := <[p := new_trusted p]> m.
Definition remove_context (p : Z) (m : SecurityManager) : SecurityManager := delete p m.
Definition mgr_check_capability (p : Z) (cap : Capability) (m : SecurityManager) : bool :=
  match m !! p with Some c => check_capability c cap | None => false end.
Definition mgr_request_capability (now p : Z) (cap : Capability) (i : Intent) (m : SecurityManager) : bool * SecurityManager :=
  match m !! p with
  | Some c => let (r, c') := request_capability now cap i c in (r, <[p := c']> m)
  | None => (false, m)
  end.
Definition mgr_record_syscall (p n : Z) (m : SecurityManager) : SecurityManager :=
  alter (fun c => mkContext (sc_pid c) (capabilities c) (intent_history c) (trust_score c) (sandbox_level c)
                    (record_syscall n (behavior_patterns c)) (capability_requests c)) p m.
Definition get_trust_score (p : Z) (m : SecurityManager) : Z :=
  match m !! p with Some c => trust_score c | None => 0 end.
Definition mgr_adjust_trust_score (p delta : Z) (m : SecurityManager) : SecurityManager := alter (adjust_trust_score delta) p m.

(** ** Sandboxes ([sandbox.rs]) *)

Record Sandbox : Type := mkSandbox {
  sb_level : SandboxLevel; allowed_syscalls : list bool; allowed_files : list str; network_enabled : bool }.

Definition Sandbox_new (l : SandboxLevel) : Sandbox :=
  mkSandbox l
    (match l with
     | SbNone => replicate 256 true
     | SbLow => <[60%nat := true]> (<[1%nat := true]> (<[0%nat := true]> (replicate 256 false)))
     | _ => replicate 256 false
     end) [] (sandbox_code l <? sandbox_code SbHigh).

Definition check_syscall (s : Sandbox) (n : Z) : bool :=
  if n >=? 256 then false else nth (Z.to_nat n) (allowed_syscalls s) false.

(** ** Capability sets are sets *)

Lemma cap_index_range c : 0 <= cap_index c < 63.
Proof. destruct c; cbn; lia. Qed.

Lemma cap_index_inj c d : cap_index c = cap_index d -> c = d.
Proof. destruct c, d; cbn; (done || lia). Qed.

Lemma caps_has_bit s c : caps_has s c = Z.testbit s (cap_index c).
Proof.
  unfold caps_has, cap_bit. rewrite land_mask_zero by apply cap_index_range. apply negb_involutive.
Qed.

Lemma cap_index_eqb c d : (cap_index c =? cap_index d) = bool_decide (c = d).
Proof.
  destruct (Z.eqb_spec (cap_index c) (cap_index d)) as [H|H]; case_bool_decide as Hd; try done.
  - exfalso. by apply Hd, cap_index_inj.
  - exfalso. apply H. by rewrite Hd.
Qed.

(** A [CapabilitySet] behaves as a set of capabilities: membership after each
    operation is what set theory says, the capability bits being distinct, and the
    default set holds exactly the five default capabilities. *)
Theorem capability_set_algebra s t c d : in_width 64 s -> in_width 64 t ->
  caps_has caps_new d = false /\ caps_has caps_all d = true /\
  caps_has (caps_add c s) d = bool_decide (d = c) || caps_has s d /\
  caps_has (caps_remove c s) d = negb (bool_decide (d = c)) && caps_has s d /\
  caps_has (caps_union s t) d = caps_has s d || caps_has t d /\
  caps_has (caps_intersection s t) d = caps_has s d && caps_has t d /\
  (caps_has caps_default d = true <-> d ∈ [FileRead; MemoryAllocate; GraphicsCreate; GraphicsBlit; GraphicsPresent]).
Proof.
  intros Hs Ht. rewrite !caps_has_bit. pose proof (cap_index_range c). pose proof (cap_index_range d).
  split; [apply Z.testbit_0_l|]. split; [by destruct d|].
  split; [unfold caps_add, cap_bit; rewrite lor_mask_spec by lia; by rewrite cap_index_eqb|].
  split; [unfold caps_remove, cap_bit; rewrite (land_wnot_mask_spec 64) by (done || lia); by rewrite cap_index_eqb|].
  split; [apply Z.lor_spec|]. split; [apply Z.land_spec|].
  destruct d; vm_compute; split; intros Hx; first [done | (repeat constructor; fail) | (by repeat (apply elem_of_cons in Hx as [Hx|Hx]; [done|])) | set_solver].
Qed.

(** ** Requests *)

Lemma matches_required i c : matches_capability i c = true <-> required_capability i = Some c.
Proof. destruct i as [a t p pr]. destruct a, c; cbn; split; congruence. Qed.

Definition allowed (c : SecurityContext) (cap : Capability) (i : Intent) : Prop :=
  80 <= trust_score c \/
  (required_capability i = Some cap /\ anomaly_score (behavior_patterns c) <= 70 /\
   (is_sensitive cap = true -> 60 <= trust_score c) /\ 50 <= trust_score c).

Lemma evaluate_allowed c cap i : evaluate_capability_request c cap i = true <-> allowed c cap i.
Proof.
  unfold evaluate_capability_request, allowed. rewrite <- matches_required, !Z.geb_leb, Z.gtb_ltb.
  destruct (Z.leb_spec 80 (trust_score c)); [split; [by left|done]|].
  destruct (matches_capability i cap); cbn [negb]; [|split; [done|intros [?|[? _]]; [lia|done]]].
  destruct (Z.ltb_spec 70 (anomaly_score (behavior_patterns c))); [split; [done|intros [?|(_ & ? & _)]; lia]|].
  destruct (is_sensitive cap); cbn [andb].
  - destruct (Z.ltb_spec (trust_score c) 60); [split; [done|intros [?|(_ & _ & Hs & _)]; [lia|specialize (Hs eq_refl); lia]]|].
    rewrite Z.leb_le. split; [intros ?; right; repeat split; (done || lia)|intros [?|(_ & _ & _ & ?)]; lia].
  - rewrite Z.leb_le. split; [intros ?; right; repeat split; (done || lia)|intros [?|(_ & _ & _ & ?)]; lia].
Qed.

Lemma mark_last_app cap why l r : mark_last cap why (l ++ [r]) = l ++ mark_last cap why [r].
Proof.
  induction l as [|x l IH]; [done|]. cbn [app]. rewrite <- IH. by destruct l.
Qed.

(** C28: Capability requests are decided by the documented policy and nothing else.
    A request is granted exactly when the trust score is at least 80, or the intent
    is one that needs this capability, the anomaly score is at most 70, the trust
    score at least 50, and at least 60 for a sensitive capability.  A grant adds
    this one capability, a refusal adds none, and either way exactly one record is
    logged, with its outcome. *)
Theorem request_capability_policy now cap i c : in_width 64 (capabilities c) ->
  let (r, c') := request_capability now cap i c in
  (r = true <-> allowed c cap i) /\
  (forall d, check_capability c' d = (r && bool_decide (d = cap)) || check_capability c d) /\
  (exists req, capability_requests c' = capability_requests c ++ [req] /\ req_capability req = cap /\
     req_intent req = i /\ req_timestamp req = now /\ granted req = r) /\
  trust_score c' = trust_score c /\ sandbox_level c' = sandbox_level c.
Proof.
  intros Hw. unfold request_capability. set (c1 := with_requests _ c).
  pose proof (evaluate_allowed c1 cap i) as He. change (allowed c1 cap i) with (allowed c cap i) in He.
  destruct (evaluate_capability_request c1 cap i).
  - split; [done|]. split; [|split].
    + intros d. unfold check_capability, grant_capability. cbn [with_requests with_caps capabilities c1].
      rewrite !caps_has_bit. unfold caps_add, cap_bit. rewrite lor_mask_spec by apply cap_index_range.
      by rewrite cap_index_eqb.
    + unfold grant_capability. cbn [with_requests with_caps capability_requests c1]. rewrite mark_last_app.
      cbn [mark_last req_capability granted]. rewrite bool_decide_eq_true_2 by done. eexists. by split.
    + done.
  - split; [done|]. split; [done|]. split; [|done]. eexists. by split.
Qed.

(** ** Trust *)

(** Trust stays a percentage and the sandbox follows it: for any adjustment that
    does not overflow an [i32], the new score is the sum clamped to 0..100 and the
    sandbox level is the one of its band. *)
Theorem adjust_trust_clamps delta c : 0 <= trust_score c <= 100 -> - 2 ^ 31 <= delta < 2 ^ 31 - 100 ->
  let c' := adjust_trust_score delta c in
  trust_score c' = Z.max 0 (Z.min 100 (trust_score c + delta)) /\ 0 <= trust_score c' <= 100 /\
  sandbox_level c' = (if trust_score c' <=? 20 then SbMaximum else if trust_score c' <=? 40 then SbHigh
    else if trust_score c' <=? 60 then SbMedium else if trust_score c' <=? 80 then SbLow else SbNone).
Proof.
  intros Ht Hd. cbn zeta.
  unfold adjust_trust_score. cbn [with_trust trust_score sandbox_level].
  rewrite (to_i32_small (trust_score c)), to_i32_small by lia. set (t := Z.max 0 (Z.min 100 (trust_score c + delta))).
  assert (0 <= t <= 100) as Hr by lia. rewrite Z.mod_small by lia. split; [done|]. split; [done|].
  unfold level_of. clearbody t.
  destruct (Z.leb_spec 0 t); [|lia]. destruct (Z.leb_spec t 20), (Z.leb_spec t 40), (Z.leb_spec t 60), (Z.leb_spec t 80),
    (Z.leb_spec 21 t), (Z.leb_spec 41 t), (Z.leb_spec 61 t), (Z.leb_spec 81 t), (Z.leb_spec t 100); cbn; (done || lia).
Qed.

(** ** The text form of intents *)

Definition print_action (a : IntentAction) : str :=
  match list_find (fun p => p.2 = a) action_names with
  | Some (_, (s, _)) => s
  | None => lit "custom"
  end.

Definition print_param (kv : str * str) : str := kv.1 ++ "="%char :: kv.2.

Definition print_intent (i : Intent) : str :=
  print_action (action i) ++ ":"%char :: default [] (target i) ++
    match parameters i with [] => [] | ps => "?"%char :: join "&"%char (print_param <$> ps) end.

(** Texts that can be told apart from the separators. *)
Definition param_ok (kv : str * str) : Prop :=
  "="%char ∉ kv.1 /\ "&"%char ∉ kv.1 /\ "&"%char ∉ kv.2.
Definition intent_ok (i : Intent) : Prop :=
  target i <> Some [] /\ "?"%char ∉ default [] (target i) /\ Forall param_ok (parameters i).

Lemma parse_print_action a : parse_action (print_action a) = a /\ ":"%char ∉ print_action a.
Proof. split; [by destruct a|]. apply (bool_decide_unpack _). by destruct a. Qed.

Lemma parse_print_params ps : Forall param_ok ps -> parse_params (print_param <$> ps) = ps.
Proof.
  induction 1 as [|[k v] ps (Hk & _ & _) _ IH]; [done|]. cbn [fmap list_fmap parse_params].
  unfold print_param at 1. cbn [fst snd]. rewrite split_once_some by done. by rewrite IH.
Qed.

(** [parse_intent] reads back what the syntax it documents writes: printing an
    intent as [action:target?k=v&...] and parsing it gives the action, target and
    parameters again (with the default priority), for texts free of the
    separators. *)
Theorem parse_intent_roundtrip i : intent_ok i ->
  parse_intent (print_intent i) = Some (mkIntent (action i) (target i) (parameters i) PrioNormal).
Proof.
  destruct i as [a t ps pr]. intros (H1 & H2 & H3). cbn [target parameters action] in *.
  unfold parse_intent, print_intent. cbn [target parameters action].
  destruct (parse_print_action a) as [Ha Hc]. rewrite split_once_some by done. rewrite Ha.
  assert (nonempty (default [] t) = t) as Ht.
  { destruct t as [[|x t]|]; done. }
  destruct ps as [|p ps].
  - rewrite app_nil_r, split_once_none by done. by rewrite Ht.
  - rewrite split_once_some by done. rewrite Ht. rewrite split_join; [|done|].
    + by rewrite parse_print_params.
    + apply Forall_fmap. eapply Forall_impl; [exact H3|]. intros [k v] (Hk1 & Hk2 & Hk3).
      unfold print_param. cbn [compose fst snd]. rewrite not_elem_of_app, not_elem_of_cons. done.
Qed.

(** ** Examples *)

(** A very large increase of trust overflows to the lowest score. *)
Example huge_increase_lowers_trust :
  trust_score (adjust_trust_score (2 ^ 31 - 1) (SecurityContext_new 1)) = 0.
Proof. reflexivity. Qed.

Lemma capability_set_algebra_witness : caps_has (caps_add NetBind caps_default) NetBind = true.
Proof.
  rewrite (proj1 (proj2 (proj2 (capability_set_algebra caps_default caps_new NetBind NetBind ltac:(by vm_compute) ltac:(by vm_compute))))).
  by vm_compute.
Defined.

Lemma request_capability_policy_witness :
  (request_capability 7 NetConnect (Intent_new ConnectNetwork) (SecurityContext_new 1)).1 = true.
Proof.
  pose proof (request_capability_policy 7 NetConnect (Intent_new ConnectNetwork) (SecurityContext_new 1) ltac:(by vm_compute)) as H.
  destruct (request_capability 7 NetConnect (Intent_new ConnectNetwork) (SecurityContext_new 1)) as [r c'].
  destruct H as [H _]. apply H. right. split; [done|]. split; [by vm_compute|]. split; [done|by vm_compute].
Defined.

Lemma adjust_trust_clamps_witness :
  trust_score (adjust_trust_score 30 (SecurityContext_new 1)) = 80 /\
  sandbox_level (adjust_trust_score 30 (SecurityContext_new 1)) = SbLow.
Proof.
  destruct (adjust_trust_clamps 30 (SecurityContext_new 1)) as (H1 & _ & H3); [by vm_compute|by vm_compute|].
  rewrite H3, H1. by vm_compute.
Defined.

Lemma parse_intent_roundtrip_witness :
  parse_intent (lit "read:/etc/motd?mode=r&lines=3") =
    Some (mkIntent ReadFile (Some (lit "/etc/motd")) [(lit "mode", lit "r"); (lit "lines", lit "3")] PrioNormal).
Proof.
  apply (parse_intent_roundtrip (mkIntent ReadFile (Some (lit "/etc/motd"))
    [(lit "mode", lit "r"); (lit "lines", lit "3")] PrioNormal)).
  split; [done|]. split; [by apply (bool_decide_unpack _)|].
  apply Forall_cons. split; [split; [|split]; by apply (bool_decide_unpack _)|].
  apply Forall_cons. split; [split; [|split]; by apply (bool_decide_unpack _)|done].
Defined.
