(* ===== verification/Vfs.v ===== *)
(** * Virtual file system ([kernel/src/fs/vfs.rs])

    Path normalization, the mount table with longest-prefix resolution, its LRU
    cache of resolved paths, and the file operations that go through them.
    Filesystems implement the trait [Filesystem], here a class; boxed filesystems
    of several kinds are one type [F].  The locks make every operation atomic. *)

From Stdlib Require Import ZArith Lia Bool Ascii String Sorted.
From stdpp Require Import base numbers option list strings gmap sets.
From S2P Require Import Prelude.
From S2P Require Import Text.

(** ** Data *)

Inductive FileType : Type := Regular | Directory | SymLink | Device | SocketFile | Pipe.

#[global] Instance FileType_eq_dec : EqDecision FileType.
Proof. solve_decision. Defined.

Record Permissions : Type := mkPerm { p_read : bool; p_write : bool; p_execute : bool }.

Definition from_mode (mode : Z) : Permissions :=
  mkPerm (negb (Z.land mode 256 =? 0)) (negb (Z.land mode 128 =? 0)) (negb (Z.land mode 64 =? 0)).
Definition to_mode (p : Permissions) : Z :=
  Z.lor (Z.lor (if p_read p then 256 else 0) (if p_write p then 128 else 0)) (if p_execute p then 64 else 0).
Definition Permissions_default : Permissions := mkPerm true true false.

Record FileAttr : Type := mkAttr {
  file_type : FileType; size : Z; permissions : Permissions; created : Z; modified : Z; accessed : Z; a_inode : Z }.
Definition FileAttr_default : FileAttr := mkAttr Regular 0 Permissions_default 0 0 0 0.

Record DirEntry : Type := mkDirEntry { d_name : str; d_type : FileType; d_inode : Z }.

Record OpenFlags : Type := mkFlags { f_read : bool; f_write : bool; f_create : bool; f_truncate : bool; f_append : bool }.
Definition read_only : OpenFlags := mkFlags true false false false false.
Definition write_only : OpenFlags := mkFlags false true true true false.
Definition read_write : OpenFlags := mkFlags true true true false false.
Definition append_flags : OpenFlags := mkFlags false true true false true.

Inductive VfsError : Type :=
| NotFound | AlreadyExists | NotDirectory | IsDirectory | PermissionDenied | InvalidPath | NoSpace | IoError
| NotMounted | Busy | InvalidOperation | TooLarge | NotEmpty.

#[global] Instance VfsError_eq_dec : EqDecision VfsError.
Proof. solve_decision. Defined.

Definition VfsResult (A : Type) : Type := Result A VfsError.

Record FileHandle : Type := mkHandle { h_inode : Z; h_position : Z; h_flags : OpenFlags; h_fs_id : Z }.
Definition FileHandle_new (inode : Z) (flags : OpenFlags) (fs_id : Z) : FileHandle := mkHandle inode 0 flags fs_id.
Definition advance (n : Z) (h : FileHandle) : FileHandle :=
  mkHandle (h_inode h) (h_position h +[64] n) (h_flags h) (h_fs_id h).

Record FsStats : Type := mkFsStats {
  total_blocks : Z; free_blocks : Z; block_size : Z; total_inodes : Z; free_inodes : Z; fs_type : Z }.

Class Filesystem (F : Type) : Type := {
  fs_name : F -> str;
  fs_is_mounted : F -> bool;
  fs_mount : F -> VfsResult unit * F;
  fs_unmount : F -> VfsResult unit * F;
  fs_sync : F -> VfsResult unit * F;
  fs_getattr : str -> F -> VfsResult FileAttr;
  fs_readdir : str -> F -> VfsResult (list DirEntry);
  fs_create : str -> Permissions -> F -> VfsResult Z * F;
  fs_mkdir : str -> Permissions -> F -> VfsResult unit * F;
  fs_unlink : str -> F -> VfsResult unit * F;
  fs_rmdir : str -> F -> VfsResult unit * F;
  fs_rename : str -> str -> F -> VfsResult unit * F;
  fs_read : Z -> Z -> Z -> F -> VfsResult (list Z);   (* inode, offset, buffer length *)
  fs_write : Z -> Z -> list Z -> F -> VfsResult Z * F;
  fs_truncate : str -> Z -> F -> VfsResult unit * F;
  fs_statfs : F -> VfsResult FsStats;
}.

(** ** Paths *)

Definition slash : ascii := "/"%char.

(** The loop body of [normalize_path]. *)
Definition push_component (cs : list str) (c : str) : list str :=
  if bool_decide (c = []) || bool_decide (c = lit ".") then cs
  else if bool_decide (c = lit "..") then removelast cs
  else cs ++ [c].

Definition render (cs : list str) : str :=
  match cs with
  | [] => [slash]
  | _ => mjoin ((fun c => slash :: c) <$> cs)
  end.

Definition normalize_path (path : str) : str :=
  if bool_decide (path = []) || bool_decide (path = [slash]) then [slash]
  else render (foldl push_component [] (split_on slash path)).

(** [rfind('/')] and the text before it. *)
Fixpoint before_last_slash (s : str) : option str :=
  match s with
  | [] => None
  | x :: r =>
      match before_last_slash r with
      | Some p => Some (x :: p)
      | None => if bool_decide (x = slash) then Some [] else None
      end
  end.

Definition parent_path (path : str) : option str :=
  let n := normalize_path path in
  if bool_decide (n = [slash]) then None else
  match before_last_slash n with
  | Some [] => Some [slash]
  | Some p => Some p
  | None => Some [slash]
  end.

Definition file_name (path : str) : option str :=
  if bool_decide (normalize_path path = [slash]) then None else
  match last (split_on slash path) with
  | Some [] => None
  | r => r
  end.

(** ** The manager *)

Definition MAX_PATH_CACHE_SIZE : nat := 256.

Record MountPoint (F : Type) : Type := mkMount { mp_path : str; mp_fs : F; mp_id : Z }.
Arguments mkMount {F} _ _ _.
Arguments mp_path {F} _.
Arguments mp_fs {F} _.
Arguments mp_id {F} _.

Record VfsManager (F : Type) : Type := mkVfs {
  mounts : list (MountPoint F); next_fs_id : Z; path_cache : gmap str (Z * str); cache_lru : list str }.
Arguments mkVfs {F} _ _ _ _.
Arguments mounts {F} _.
Arguments next_fs_id {F} _.
Arguments path_cache {F} _.
Arguments cache_lru {F} _.

Section Manager.
Context {F : Type} `{FS : Filesystem F}.

Definition VfsManager_new : VfsManager F := mkVfs [] 1 ∅ [].

Definition with_mounts (ms : list (MountPoint F)) (v : VfsManager F) : VfsManager F :=
  mkVfs ms (next_fs_id v) (path_cache v) (cache_lru v).

(** The stable sort by path length, longest first. *)
Fixpoint insert_by_len (x : MountPoint F) (l : list (MountPoint F)) : list (MountPoint F) :=
  match l with
  | [] => [x]
  | y :: r => if (length (mp_path y) <? length (mp_path x))%nat then x :: y :: r else y :: insert_by_len x r
  end.
Definition sort_by_len (l : list (MountPoint F)) : list (MountPoint F) := foldl (fun acc x => insert_by_len x acc) [] l.

Definition mount (mount_path : str) (fs : F) (v : VfsManager F) : VfsResult unit * VfsManager F :=
  let path := normalize_path mount_path in
  match fs_mount fs with
  | (Err e, _) => (Err e, v)
  | (Ok _, fs') =>
      let id := next_fs_id v in
      let v1 := mkVfs (mounts v) (id +[64] 1) (path_cache v) (cache_lru v) in
      if existsb (fun m => bool_decide (mp_path m = path)) (mounts v) then (Err AlreadyExists, v1)
      else (Ok tt, mkVfs (sort_by_len (mounts v ++ [mkMount path fs' id])) (id +[64] 1) ∅ [])
  end.

(** The mount point at [path] and the others. *)
Fixpoint take_mount (path : str) (l : list (MountPoint F)) : option (MountPoint F * list (MountPoint F)) :=
  match l with
  | [] => None
  | m :: r =>
      if bool_decide (mp_path m = path) then Some (m, r)
      else match take_mount path r with Some (x, r') => Some (x, m :: r') | None => None end
  end.

(** An error of the filesystem's own [unmount] returns early, before the caches are cleared. *)
Definition unmount (mount_path : str) (v : VfsManager F) : VfsResult unit * VfsManager F :=
  match take_mount (normalize_path mount_path) (mounts v) with
  | Some (m, r) =>
      match fs_unmount (mp_fs m) with
      | (Ok _, _) => (Ok tt, mkVfs r (next_fs_id v) ∅ [])
      | (Err e, _) => (Err e, with_mounts r v)
      end
  | None => (Err NotMounted, v)
  end.

(** The two loops over the mounts. *)
Definition covers (n : str) (m : MountPoint F) : bool :=
  bool_decide (n = mp_path m) || starts_with (mp_path m ++ [slash]) n.

Fixpoint find_mount (f : MountPoint F -> bool) (l : list (MountPoint F)) : option (MountPoint F) :=
  match l with
  | [] => None
  | m :: r => if f m then Some m else find_mount f r
  end.

Definition lookup_mounts (n : str) (l : list (MountPoint F)) : option (Z * str) :=
  match find_mount (covers n) l with
  | Some m => Some (mp_id m, if bool_decide (n = mp_path m) then [slash] else drop (length (mp_path m)) n)
  | None =>
      match find_mount (fun m => bool_decide (mp_path m = [slash])) l with
      | Some m => Some (mp_id m, n)
      | None => None
      end
  end.

(** [position] and [remove] of a path in the LRU list. *)
Fixpoint remove_first (p : str) (l : list str) : list str :=
  match l with
  | [] => []
  | x :: r => if bool_decide (x = p) then r else x :: remove_first p r
  end.

(** The eviction loop; the list shrinks with every round. *)
Fixpoint evict (cache : gmap str (Z * str)) (lru : list str) : gmap str (Z * str) * list str :=
  match lru with
  | [] => (cache, [])
  | oldest :: r => if (MAX_PATH_CACHE_SIZE <=? length lru)%nat then evict (delete oldest cache) r else (cache, lru)
  end.

Definition cache_insert (path : str) (value : Z * str) (v : VfsManager F) : VfsManager F :=
  let '(c, l) := evict (path_cache v) (cache_lru v) in
  mkVfs (mounts v) (next_fs_id v) (<[path := value]> c) (l ++ [path]).

Definition resolve_path (path : str) (v : VfsManager F) : VfsResult (Z * str) * VfsManager F :=
  let n := normalize_path path in
  match path_cache v !! n with
  | Some r => (Ok r, mkVfs (mounts v) (next_fs_id v) (path_cache v) (remove_first n (cache_lru v) ++ [n]))
  | None =>
      match lookup_mounts n (mounts v) with
      | Some r => (Ok r, cache_insert n r v)
      | None => (Err NotMounted, v)
      end
  end.

(** [mounts.iter().find(|m| m.fs_id == id)], and a change of that filesystem. *)
Definition get_fs (id : Z) (v : VfsManager F) : VfsResult F :=
  match find_mount (fun m => mp_id m =? id) (mounts v) with
  | Some m => Ok (mp_fs m)
  | None => Err NotMounted
  end.

Fixpoint set_fs (id : Z) (fs : F) (l : list (MountPoint F)) : list (MountPoint F) :=
  match l with
  | [] => []
  | m :: r => if mp_id m =? id then mkMount (mp_path m) fs (mp_id m) :: r else m :: set_fs id fs r
  end.

Definition on_fs {A} (id : Z) (op : F -> VfsResult A * F) (v : VfsManager F) : VfsResult A * VfsManager F :=
  match get_fs id v with
  | Err e => (Err e, v)
  | Ok fs => let (r, fs') := op fs in (r, with_mounts (set_fs id fs' (mounts v)) v)
  end.

Definition query_fs {A} (id : Z) (op : F -> VfsResult A) (v : VfsManager F) : VfsResult A * VfsManager F :=
  match get_fs id v with
  | Err e => (Err e, v)
  | Ok fs => (op fs, v)
  end.

(** Resolve, then run on the filesystem that was found. *)
Definition at_path {A} (path : str) (k : Z -> str -> VfsManager F -> VfsResult A * VfsManager F)
    (v : VfsManager F) : VfsResult A * VfsManager F :=
  match resolve_path path v with
  | (Ok (id, rel), v') => k id rel v'
  | (Err e, v') => (Err e, v')
  end.

Definition open (path : str) (flags : OpenFlags) : VfsManager F -> VfsResult FileHandle * VfsManager F :=
  at_path path (fun id rel v =>
    match get_fs id v with
    | Err e => (Err e, v)
    | Ok fs =>
        match fs_getattr rel fs with
        | Ok attr =>
            if bool_decide (file_type attr = Directory) then (Err IsDirectory, v)
            else (Ok (FileHandle_new (a_inode attr) flags id), v)
        | Err e =>
            if bool_decide (e = NotFound) && f_create flags then
              match on_fs id (fs_create rel Permissions_default) v with
              | (Ok inode, v') => (Ok (FileHandle_new inode flags id), v')
              | (Err e, v') => (Err e, v')
              end
            else (Err e, v)
        end
    end).

Definition read (h : FileHandle) (len : Z) (v : VfsManager F) : VfsResult (list Z) * FileHandle * VfsManager F :=
  if negb (f_read (h_flags h)) then (Err PermissionDenied, h, v) else
  match query_fs (h_fs_id h) (fs_read (h_inode h) (h_position h) len) v with
  | (Ok data, v') => (Ok data, advance (Z.of_nat (length data)) h, v')
  | (Err e, v') => (Err e, h, v')
  end.

Definition write (h : FileHandle) (data : list Z) (v : VfsManager F) : VfsResult Z * FileHandle * VfsManager F :=
  if negb (f_write (h_flags h)) then (Err PermissionDenied, h, v) else
  match get_fs (h_fs_id h) v with
  | Err e => (Err e, h, v)
  | Ok fs =>
      match (if f_append (h_flags h)
             then match fs_getattr [slash] fs with Ok attr => Ok (size attr) | Err e => Err e end
             else Ok (h_position h)) with
      | Err e => (Err e, h, v)
      | Ok pos =>
          match on_fs (h_fs_id h) (fs_write (h_inode h) pos data) v with
          | (Ok n, v') => (Ok n, advance n h, v')
          | (Err e, v') => (Err e, h, v')
          end
      end
  end.

Definition create (path : str) (p : Permissions) : VfsManager F -> VfsResult Z * VfsManager F :=
  at_path path (fun id rel => on_fs id (fs_create rel p)).
Definition unlink (path : str) : VfsManager F -> VfsResult unit * VfsManager F :=
  at_path path (fun id rel => on_fs id (fs_unlink rel)).
Definition mkdir (path : str) (p : Permissions) : VfsManager F -> VfsResult unit * VfsManager F :=
  at_path path (fun id rel => on_fs id (fs_mkdir rel p)).
Definition readdir (path : str) : VfsManager F -> VfsResult (list DirEntry) * VfsManager F :=
  at_path path (fun id rel => query_fs id (fs_readdir rel)).
Definition stat (path : str) : VfsManager F -> VfsResult FileAttr * VfsManager F :=
  at_path path (fun id rel => query_fs id (fs_getattr rel)).

(** [sync_all] stops at the first error. *)
Fixpoint sync_list (l : list (MountPoint F)) : VfsResult unit * list (MountPoint F) :=
  match l with
  | [] => (Ok tt, [])
  | m :: r =>
      match fs_sync (mp_fs m) with
      | (Ok _, fs') => let (res, r') := sync_list r in (res, mkMount (mp_path m) fs' (mp_id m) :: r')
      | (Err e, fs') => (Err e, mkMount (mp_path m) fs' (mp_id m) :: r)
      end
  end.
Definition sync_all (v : VfsManager F) : VfsResult unit * VfsManager F :=
  let (res, l) := sync_list (mounts v) in (res, with_mounts l v).

Definition list_mounts (v : VfsManager F) : list (str * str) :=
  (fun m => (mp_path m, fs_name (mp_fs m))) <$> mounts v.

End Manager.

(** ** Normal forms of paths *)

Definition good_component (c : str) : Prop := c <> [] /\ c <> lit "." /\ c <> lit ".." /\ slash ∉ c.

Lemma Forall_removelast {A} (P : A -> Prop) l : Forall P l -> Forall P (removelast l).
Proof.
  induction 1 as [|x l Hx Hl IH]; [constructor|]. destruct l; [constructor|]. simpl in *. by constructor.
Qed.

Lemma fold_push_good pieces : forall cs, Forall (fun p => slash ∉ p) pieces -> Forall good_component cs ->
  Forall good_component (foldl push_component cs pieces).
Proof.
  induction pieces as [|p ps IH]; intros cs Hp Hc; cbn [foldl]; [done|].
  apply Forall_cons in Hp as [Hp Hps]. apply IH; [done|]. unfold push_component.
  case_bool_decide; cbn [orb]; [done|]. case_bool_decide; [done|].
  case_bool_decide; [by apply Forall_removelast|].
  apply Forall_app. split; [done|]. by apply Forall_singleton.
Qed.

Lemma fold_push_id cs : forall acc, Forall good_component cs -> foldl push_component acc cs = acc ++ cs.
Proof.
  induction cs as [|c cs IH]; intros acc H; cbn [foldl]; [by rewrite app_nil_r|].
  apply Forall_cons in H as [(H1 & H2 & H3 & _) H]. rewrite IH by done.
  unfold push_component. rewrite !bool_decide_eq_false_2 by done. cbn [orb]. by rewrite <- app_assoc.
Qed.

Lemma render_join c cs : render (c :: cs) = slash :: join slash (c :: cs).
Proof.
  unfold render. revert c. induction cs as [|d cs IH]; intros c.
  - cbn. by rewrite app_nil_r.
  - change (mjoin ((fun c => slash :: c) <$> c :: d :: cs)) with ((slash :: c) ++ mjoin ((fun c => slash :: c) <$> d :: cs)).
    rewrite IH. done.
Qed.

Lemma split_render c cs : Forall good_component (c :: cs) -> split_on slash (render (c :: cs)) = [] :: c :: cs.
Proof.
  intros H. rewrite render_join. cbn [split_on]. rewrite bool_decide_eq_true_2 by done. f_equal.
  apply split_join; [done|]. eapply Forall_impl; [exact H|]. by intros x (_ & _ & _ & ?).
Qed.

Lemma normalize_render cs : Forall good_component cs -> normalize_path (render cs) = render cs.
Proof.
  intros H. destruct cs as [|c cs]; [done|]. unfold normalize_path.
  assert (render (c :: cs) <> [] /\ render (c :: cs) <> [slash]) as [H1 H2].
  { rewrite render_join. split; [done|]. intros [= Hj]. apply Forall_cons in H as [(Hc & _) _].
    destruct c as [|x c]; [done|]. by destruct cs. }
  rewrite !bool_decide_eq_false_2 by done. cbn [orb]. rewrite split_render by done.
  change (foldl push_component [] ([] :: c :: cs)) with (foldl push_component [] (c :: cs)). by rewrite fold_push_id.
Qed.

Lemma normalize_is_render p : exists cs, Forall good_component cs /\ normalize_path p = render cs.
Proof.
  unfold normalize_path. destruct (_ || _); [by exists []|]. eexists. split; [|done].
  apply fold_push_good; [apply split_on_no_sep|constructor].
Qed.

(** [normalize_path] computes a canonical form: every result is "/" or a chain
    of "/"-prefixed components none of which is empty, "." or "..", normalizing
    again changes nothing, and two canonical forms are equal only if their
    components are. *)
Theorem normalize_path_canonical p :
  (exists cs, Forall good_component cs /\ normalize_path p = render cs) /\
  normalize_path (normalize_path p) = normalize_path p /\
  (forall cs ds, Forall good_component cs -> Forall good_component ds -> render cs = render ds -> cs = ds).
Proof.
  split; [apply normalize_is_render|]. split.
  - destruct (normalize_is_render p) as (cs & Hc & ->). by apply normalize_render.
  - assert (forall c cs, Forall good_component (c :: cs) -> render (c :: cs) <> [slash]) as Hne.
    { intros c cs H Hr. pose proof (split_render c cs H) as Hs. rewrite Hr in Hs. injection Hs as <- _.
      apply Forall_cons in H as [(Hc & _) _]. done. }
    intros [|c cs] [|d ds] Hc Hd He; [done|by apply Hne in Hd|by apply Hne in Hc|].
    pose proof (split_render c cs Hc) as H1. rewrite He, split_render in H1 by done. by injection H1 as <- <-.
Qed.

(** ** Resolution *)

Section Resolution.
Context {F : Type} `{FS : Filesystem F}.
Implicit Types (v : VfsManager F) (m : MountPoint F) (l : list (MountPoint F)).

(** Resolution looks at the paths and identifiers of the mounts only. *)
Definition mount_key m : str * Z := (mp_path m, mp_id m).

Lemma find_mount_some (f : MountPoint F -> bool) l m : find_mount f l = Some m -> m ∈ l /\ f m = true.
Proof.
  induction l as [|x l IH]; cbn [find_mount]; [done|]. destruct (f x) eqn:E.
  - intros [= ->]. split; [left|done].
  - intros H. destruct (IH H). split; [by right|done].
Qed.

Lemma find_mount_none (f : MountPoint F -> bool) l m : find_mount f l = None -> m ∈ l -> f m = false.
Proof.
  induction l as [|x l IH]; cbn [find_mount]; [by intros _ ?%not_elem_of_nil|].
  destruct (f x) eqn:E; [done|]. intros H [->|Hm]%elem_of_cons; [done|]. by apply IH.
Qed.

Lemma lookup_mounts_key n l l' : mount_key <$> l = mount_key <$> l' -> lookup_mounts n l = lookup_mounts n l'.
Proof.
  intros He. unfold lookup_mounts.
  assert (forall f, (forall m m', mount_key m = mount_key m' -> f m = f m') ->
    mount_key <$> find_mount f l = mount_key <$> find_mount f l') as H.
  { intros f Hf. revert l' He. induction l as [|x l IH]; intros [|y l'] He; try done.
    rewrite !fmap_cons in He. injection He as Hx1 Hx2 Hl. assert (mount_key x = mount_key y) as Hx by (unfold mount_key; congruence).
    cbn [find_mount]. rewrite (Hf x y Hx). destruct (f y); [cbn; by rewrite Hx|by apply IH]. }
  pose proof (H (covers n)) as H1. pose proof (H (fun m => bool_decide (mp_path m = [slash]))) as H2.
  assert (forall m m', mount_key m = mount_key m' -> mp_path m = mp_path m' /\ mp_id m = mp_id m') as Hk
    by (intros m m' [= ? ?]; done).
  specialize (H1 ltac:(intros m m' Hm; unfold covers; by destruct (Hk _ _ Hm) as [-> _])).
  specialize (H2 ltac:(intros m m' Hm; by destruct (Hk _ _ Hm) as [-> _])).
  destruct (find_mount (covers n) l) as [a|], (find_mount (covers n) l') as [b|]; try done.
  - cbn in H1. apply (inj Some) in H1. by destruct (Hk _ _ H1) as [-> ->].
  - destruct (find_mount _ l) as [a|], (find_mount _ l') as [b|]; try done.
    cbn in H2. apply (inj Some) in H2. by destruct (Hk _ _ H2) as [_ ->].
Qed.

(** ** The mount table *)

Definition longer m m' : Prop := (length (mp_path m') <= length (mp_path m))%nat.

Record mounts_ok l : Prop := mk_mounts_ok {
  mo_sorted : StronglySorted longer l;
  mo_nodup : NoDup (mp_path <$> l);
}.

Lemma insert_perm m l : Permutation (insert_by_len m l) (m :: l).
Proof.
  induction l as [|y l IH]; cbn [insert_by_len]; [done|]. destruct (_ <? _)%nat; [done|].
  rewrite IH. apply Permutation_swap.
Qed.

Lemma insert_sorted m l : StronglySorted longer l -> StronglySorted longer (insert_by_len m l).
Proof.
  induction 1 as [|y l Hs IH Hy]; cbn [insert_by_len]; [repeat constructor|].
  destruct (Nat.ltb_spec (length (mp_path y)) (length (mp_path m))).
  - constructor; [by constructor|]. constructor; [unfold longer; lia|].
    eapply Forall_impl; [exact Hy|]. unfold longer. intros z Hz. lia.
  - constructor; [done|]. rewrite (insert_perm m l). constructor; [unfold longer; lia|done].
Qed.

Lemma sort_spec l : StronglySorted longer (sort_by_len l) /\ Permutation (sort_by_len l) l.
Proof.
  unfold sort_by_len.
  assert (forall l acc, StronglySorted longer acc ->
    StronglySorted longer (foldl (fun acc x => insert_by_len x acc) acc l) /\
    Permutation (foldl (fun acc x => insert_by_len x acc) acc l) (acc ++ l)) as H.
  { induction l0 as [|x l0 IH]; intros acc Ha; cbn [foldl]; [by rewrite app_nil_r|].
    destruct (IH (insert_by_len x acc) (insert_sorted x acc Ha)) as [I1 I2]. split; [done|].
    rewrite I2, (insert_perm x acc). cbn [app]. by rewrite Permutation_middle. }
  destruct (H l []) as [H1 H2]; [constructor|]. by split.
Qed.

Lemma mounts_ok_key l l' : mount_key <$> l = mount_key <$> l' -> mounts_ok l -> mounts_ok l'.
Proof.
  intros He [H1 H2]. assert (mp_path <$> l = mp_path <$> l') as Hp.
  { assert (forall x : list (MountPoint F), mp_path <$> x = fst <$> (mount_key <$> x)) as Hf
      by (intros x; by rewrite <- list_fmap_compose). by rewrite !Hf, He. }
  constructor; [|by rewrite <- Hp]. clear He H2. revert l' Hp.
  induction H1 as [|x l Hs IH Hx]; intros [|y l'] Hp; try done; [constructor|].
  rewrite !fmap_cons in Hp. injection Hp as Hxy Hp. constructor; [by apply IH|].
  apply Forall_forall. intros z Hz. rewrite Forall_forall in Hx. unfold longer in *. rewrite <- Hxy.
  assert (mp_path z ∈ mp_path <$> l) as Hin by (rewrite Hp; by apply list_elem_of_fmap_2).
  apply list_elem_of_fmap in Hin as (w & -> & Hw). by apply Hx.
Qed.

Lemma find_mount_longest (f : MountPoint F -> bool) l m : StronglySorted longer l -> find_mount f l = Some m ->
  forall m', m' ∈ l -> f m' = true -> (length (mp_path m') <= length (mp_path m))%nat.
Proof.
  induction 1 as [|x l Hs IH Hx]; cbn [find_mount]; [done|]. destruct (f x) eqn:E.
  - intros [= <-] m' [->|Hm]%elem_of_cons _; [done|]. rewrite Forall_forall in Hx. by apply Hx.
  - intros Hf m' [->|Hm]%elem_of_cons Hm'; [congruence|]. by apply IH.
Qed.

(** What resolving means: the longest mount whose path is a prefix of the path by
    whole components, else the root mount; the rest of the path is relative to it. *)
Definition prefix_of n m : Prop := n = mp_path m \/ exists r, n = mp_path m ++ slash :: r.

Definition resolves l n (r : option (Z * str)) : Prop :=
  match r with
  | Some (id, rel) => exists m, m ∈ l /\ mp_id m = id /\
      ((prefix_of n m /\ (forall m', m' ∈ l -> prefix_of n m' -> (length (mp_path m') <= length (mp_path m))%nat) /\
        (n = mp_path m /\ rel = [slash] \/ n <> mp_path m /\ n = mp_path m ++ rel)) \/
       (mp_path m = [slash] /\ rel = n /\ forall m', m' ∈ l -> ~ prefix_of n m'))
  | None => forall m, m ∈ l -> ~ prefix_of n m /\ mp_path m <> [slash]
  end.

Lemma covers_spec n m : covers n m = true <-> prefix_of n m.
Proof.
  unfold covers, prefix_of. rewrite orb_true_iff, bool_decide_eq_true, starts_with_spec.
  split; (intros [?|[r ->]]; [by left|right; exists r]); [by rewrite <- app_assoc|by rewrite <- app_assoc].
Qed.

Lemma lookup_resolves l n : mounts_ok l -> resolves l n (lookup_mounts n l).
Proof.
  intros [Hs _]. unfold lookup_mounts. destruct (find_mount (covers n) l) as [m|] eqn:E1.
  - destruct (find_mount_some _ _ _ E1) as [Hm Hc%covers_spec]. exists m. split; [done|]. split; [done|]. left.
    split; [done|]. split.
    + intros m' Hm' Hp%covers_spec. by apply (find_mount_longest _ _ _ Hs E1).
    + case_bool_decide as Hn; [by left|right]. split; [done|]. destruct Hc as [?|[r Hr]]; [done|].
      rewrite Hr at 2. rewrite drop_app_length. exact Hr.
  - assert (forall m', m' ∈ l -> ~ prefix_of n m') as Hno.
    { intros m' Hm' Hp%covers_spec. by rewrite (find_mount_none _ _ _ E1 Hm') in Hp. }
    destruct (find_mount (fun m => bool_decide (mp_path m = [slash])) l) as [m|] eqn:E2.
    + destruct (find_mount_some _ _ _ E2) as [Hm Hr%bool_decide_eq_true]. exists m. split; [done|]. split; [done|].
      right. by split.
    + intros m Hm. split; [by apply Hno|]. pose proof (find_mount_none _ _ _ E2 Hm) as Hf.
      by apply bool_decide_eq_false in Hf.
Qed.

(** ** The cache

    [failing] says whether unmounts may have failed: a failed one takes its mount from
    the table and leaves the cache.  A cached answer is then that of a table from which mounts may
    since have gone. *)

(** Which tables may have given an answer. *)
Definition Past : Type := list (MountPoint F) -> Prop.

Definition answer (P : Past) (failing : bool) v n (x : Z * str) : Prop :=
  exists l, P l /\ mounts_ok l /\ sublist (mount_key <$> mounts v) (mount_key <$> l) /\ (failing = false -> mount_key <$> l = mount_key <$> mounts v) /\ lookup_mounts n l = Some x.

Lemma answer_lookup (P : Past) failing v n x : P (mounts v) -> mounts_ok (mounts v) -> lookup_mounts n (mounts v) = Some x -> answer P failing v n x.
Proof. intros HP Hm Hl. by exists (mounts v). Qed.

Record cache_ok (P : Past) (failing : bool) v : Prop := mk_cache_ok {
  co_agree : forall n r, path_cache v !! n = Some r -> answer P failing v n r;
  co_dom : forall n, is_Some (path_cache v !! n) <-> n ∈ cache_lru v;
  co_nodup : NoDup (cache_lru v);
  co_bound : (length (cache_lru v) <= MAX_PATH_CACHE_SIZE)%nat;
}.

Lemma cache_ok_empty (P : Past) failing l id : cache_ok P failing (mkVfs l id ∅ []).
Proof.
  constructor; cbn [path_cache cache_lru mounts].
  - intros n r H. by rewrite lookup_empty in H.
  - intros n. rewrite lookup_empty. split; [by intros [? ?]|by intros ?%not_elem_of_nil].
  - constructor.
  - cbn. lia.
Qed.

(** Changing mounts without changing paths and identifiers, or the id counter. *)
Lemma cache_ok_mounts (P : Past) failing v l id : cache_ok P failing v -> mount_key <$> l = mount_key <$> mounts v ->
  cache_ok P failing (mkVfs l id (path_cache v) (cache_lru v)).
Proof.
  intros [H1 H2 H3 H4] Hk. constructor; cbn [path_cache cache_lru mounts]; try done.
  intros n r Hn. destruct (H1 n r Hn) as (l0 & A). exists l0. cbn [mounts]. by rewrite Hk.
Qed.

(** Taking mounts from the table. *)
Lemma cache_ok_sublist (P : Past) v l id : cache_ok P true v -> sublist l (mounts v) -> cache_ok P true (mkVfs l id (path_cache v) (cache_lru v)).
Proof.
  intros [H1 H2 H3 H4] Hl. constructor; cbn [path_cache cache_lru mounts]; try done.
  intros n r Hn. destruct (H1 n r Hn) as (l0 & A0 & A1 & A2 & _ & A4). exists l0. split; [done|]. split; [done|]. split; [|done]. etrans; [by apply fmap_sublist|exact A2].
Qed.

Lemma remove_first_elem (p : str) (l : list str) : NoDup l -> forall x, x ∈ remove_first p l <-> x ∈ l /\ x <> p.
Proof.
  induction 1 as [|y l Hy Hnd IH]; intros x; cbn [remove_first].
  - rewrite elem_of_nil. tauto.
  - case_bool_decide as Hp.
    + subst y. rewrite elem_of_cons. split; [intros Hx; split; [by right|by intros ->]|by intros [[?|?] ?]].
    + rewrite !elem_of_cons, IH. split; [|tauto]. intros [->|[? ?]]; [|tauto]. split; [by left|done].
Qed.

Lemma remove_first_nodup (p : str) (l : list str) : NoDup l -> NoDup (remove_first p l).
Proof.
  induction 1 as [|y l Hy Hnd IH]; cbn [remove_first]; [constructor|]. case_bool_decide; [done|].
  constructor; [|done]. rewrite remove_first_elem by done. by intros [? _].
Qed.

Lemma remove_first_length (p : str) (l : list str) : p ∈ l -> S (length (remove_first p l)) = length l.
Proof.
  induction l as [|y l IH]; [by intros ?%not_elem_of_nil|]. intros Hp. cbn [remove_first].
  case_bool_decide; [done|]. cbn [length]. f_equal. apply IH. by apply elem_of_cons in Hp as [->|?].
Qed.

Lemma evict_spec lru : forall c, NoDup lru -> (forall n, is_Some (c !! n) <-> n ∈ lru) ->
  (length lru <= MAX_PATH_CACHE_SIZE)%nat ->
  let '(c', lru') := evict c lru in
  NoDup lru' /\ (forall n, is_Some (c' !! n) <-> n ∈ lru') /\ (length lru' < MAX_PATH_CACHE_SIZE)%nat /\
  (forall n r, c' !! n = Some r -> c !! n = Some r).
Proof.
  induction lru as [|o r IH]; intros c Hnd Hd Hl; cbn [evict].
  - split; [done|]. split; [done|]. split; [|done]. unfold MAX_PATH_CACHE_SIZE. cbn. lia.
  - destruct (Nat.leb_spec MAX_PATH_CACHE_SIZE (length (o :: r))) as [Hge|Hlt]; [|done].
    apply NoDup_cons in Hnd as [Ho Hnd]. cbn [length] in *.
    specialize (IH (delete o c) Hnd). destruct (evict (delete o c) r) as [c' lru'].
    destruct IH as (I1 & I2 & I3 & I4); [|lia|].
    + intros n. destruct (decide (n = o)) as [->|Hne].
      * rewrite lookup_delete_eq. split; [by intros [? ?]|done].
      * rewrite lookup_delete_ne, Hd, elem_of_cons by done. split; [by intros [?|?]|by right].
    + split; [done|]. split; [done|]. split; [done|]. intros n x Hn. apply I4 in Hn.
      by apply lookup_delete_Some in Hn as [_ ?].
Qed.

Lemma cache_insert_ok (P : Past) failing v n r : cache_ok P failing v -> path_cache v !! n = None -> answer P failing v n r ->
  cache_ok P failing (cache_insert n r v) /\ mounts (cache_insert n r v) = mounts v.
Proof.
  intros [H1 H2 H3 H4] Hn Hr. unfold cache_insert.
  pose proof (evict_spec (cache_lru v) (path_cache v) H3 H2 H4) as He.
  destruct (evict (path_cache v) (cache_lru v)) as [c l]. destruct He as (E1 & E2 & E3 & E4).
  assert (n ∉ l) as Hnl.
  { intros Hin. apply E2 in Hin as [x Hx]. apply E4 in Hx. congruence. }
  split; [|done]. constructor; cbn [path_cache cache_lru mounts].
  - intros n' r' H. destruct (decide (n' = n)) as [->|].
    + rewrite lookup_insert_eq in H. injection H as <-. exact Hr.
    + rewrite lookup_insert_ne in H by done. by apply H1, E4.
  - intros n'. rewrite elem_of_app, list_elem_of_singleton, <- E2.
    destruct (decide (n' = n)) as [->|].
    + rewrite lookup_insert_eq. split; [by right|by eexists].
    + rewrite lookup_insert_ne by done. split; [by left|by intros [?|?]].
  - apply NoDup_app. split; [done|]. split; [|apply NoDup_singleton]. by intros x Hx ->%list_elem_of_singleton.
  - rewrite length_app. cbn. lia.
Qed.

Lemma resolve_spec (P : Past) failing p v : P (mounts v) -> cache_ok P failing v -> mounts_ok (mounts v) ->
  let (r, v') := resolve_path p v in
  match r with
  | Ok x => answer P failing v (normalize_path p) x
  | Err e => e = NotMounted /\ lookup_mounts (normalize_path p) (mounts v) = None
  end /\ mounts v' = mounts v /\ cache_ok P failing v'.
Proof.
  intros HP Hok Hm. pose proof Hok as [H1 H2 H3 H4]. unfold resolve_path.
  destruct (path_cache v !! normalize_path p) as [x|] eqn:Ec.
  - split; [by apply H1|]. split; [done|].
    assert (normalize_path p ∈ cache_lru v) as Hin by (apply H2; by rewrite Ec).
    constructor; cbn [path_cache cache_lru mounts]; [done| | |].
    + intros n. rewrite elem_of_app, list_elem_of_singleton, remove_first_elem, H2 by done.
      destruct (decide (n = normalize_path p)) as [->|]; tauto.
    + apply NoDup_app. split; [by apply remove_first_nodup|]. split; [|apply NoDup_singleton].
      intros y Hy ->%list_elem_of_singleton. by apply remove_first_elem in Hy as [_ ?].
    + rewrite length_app. cbn. pose proof (remove_first_length _ _ Hin). lia.
  - destruct (lookup_mounts (normalize_path p) (mounts v)) as [x|] eqn:El; [|split; [done|]; by split].
    pose proof (answer_lookup P failing v _ x HP Hm El) as Ha. destruct (cache_insert_ok P failing v _ x Hok Ec Ha) as [? ?]. split; [done|]. by split.
Qed.

(** ** Every operation keeps the table and the cache consistent *)

Definition vfs_ok (P : Past) (failing : bool) v : Prop := cache_ok P failing v /\ mounts_ok (mounts v).

(** The filesystem mounted at [p] unmounts without an error. *)
Definition unmounts_cleanly (p : str) v : Prop :=
  forall m r, take_mount (normalize_path p) (mounts v) = Some (m, r) -> is_ok (fs_unmount (mp_fs m)).1 = true.

(** The operations; unmounts may fail if [failing]. *)
Inductive vfs_step (failing : bool) : VfsManager F -> VfsManager F -> Prop :=
| vs_mount p fs v : vfs_step failing v (mount p fs v).2
| vs_unmount p v : (failing = false -> unmounts_cleanly p v) -> vfs_step failing v (unmount p v).2
| vs_open p flags v : vfs_step failing v (open p flags v).2
| vs_read h n v : vfs_step failing v (read h n v).2
| vs_write h data v : vfs_step failing v (write h data v).2
| vs_create p perm v : vfs_step failing v (create p perm v).2
| vs_unlink p v : vfs_step failing v (unlink p v).2
| vs_mkdir p perm v : vfs_step failing v (mkdir p perm v).2
| vs_readdir p v : vfs_step failing v (readdir p v).2
| vs_stat p v : vfs_step failing v (stat p v).2
| vs_sync v : vfs_step failing v (sync_all v).2.

Lemma set_fs_key id fs l : mount_key <$> set_fs id fs l = mount_key <$> l.
Proof.
  induction l as [|m l IH]; cbn [set_fs]; [done|]. destruct (_ =? _); [done|]. by rewrite !fmap_cons, IH.
Qed.

Lemma vfs_ok_mounts (P : Past) failing v l id : vfs_ok P failing v -> mount_key <$> l = mount_key <$> mounts v ->
  vfs_ok P failing (mkVfs l id (path_cache v) (cache_lru v)).
Proof. intros [H1 H2] Hk. split; [by apply cache_ok_mounts|]. by apply (mounts_ok_key (mounts v)). Qed.

Lemma on_fs_ok {A} (P : Past) failing id (op : F -> VfsResult A * F) v : vfs_ok P failing v -> vfs_ok P failing (on_fs id op v).2.
Proof.
  intros Hv. unfold on_fs. destruct (get_fs id v) as [fs|e]; [|done]. destruct (op fs) as [r fs'].
  apply vfs_ok_mounts; [done|apply set_fs_key].
Qed.

Lemma query_fs_ok {A} (P : Past) failing id (op : F -> VfsResult A) v : vfs_ok P failing v -> vfs_ok P failing (query_fs id op v).2.
Proof. intros Hv. unfold query_fs. by destruct (get_fs id v). Qed.

Lemma resolve_ok (P : Past) failing p v : P (mounts v) -> vfs_ok P failing v -> vfs_ok P failing (resolve_path p v).2.
Proof.
  intros HP [H1 H2]. pose proof (resolve_spec P failing p v HP H1 H2) as H. destruct (resolve_path p v) as [r v'].
  destruct H as (_ & Hm & Hc). split; [done|]. cbn [snd]. by rewrite Hm.
Qed.

Lemma at_path_ok {A} (P : Past) failing p (k : Z -> str -> VfsManager F -> VfsResult A * VfsManager F) v :
  (forall id rel w, vfs_ok P failing w -> vfs_ok P failing (k id rel w).2) -> P (mounts v) -> vfs_ok P failing v -> vfs_ok P failing (at_path p k v).2.
Proof.
  intros Hk HP Hv. pose proof (resolve_ok P failing p v HP Hv) as Hr. unfold at_path.
  destruct (resolve_path p v) as [[[id rel]|e] v']; [by apply Hk|done].
Qed.

Lemma take_mount_perm p l m r : take_mount p l = Some (m, r) ->
  sublist r l /\ m ∈ l /\ mp_path m = p.
Proof.
  revert r. induction l as [|x l IH]; intros r; cbn [take_mount]; [done|]. case_bool_decide as Hx.
  - intros [= <- <-]. split; [by apply sublist_cons|]. split; [left|done].
  - destruct (take_mount p l) as [[y r']|]; [|done]. intros [= <- <-].
    destruct (IH _ eq_refl) as (H1 & H2 & H3). split; [by apply sublist_skip|]. split; [by right|done].
Qed.

Lemma mounts_ok_sublist r l : sublist r l -> mounts_ok l -> mounts_ok r.
Proof.
  intros Hs [H1 H2]. constructor; [|eapply sublist_NoDup; [exact H2|]; by apply fmap_sublist].
  induction Hs as [|x r l Hs IH|x r l Hs IH]; [done| |].
  - inversion H1 as [|? ? Hs1 Hx]; subst. rewrite fmap_cons in H2. apply NoDup_cons in H2 as [_ H2].
    constructor; [by apply IH|]. apply Forall_forall. intros y Hy.
    rewrite Forall_forall in Hx. apply Hx. by eapply elem_of_sublist.
  - inversion H1; subst. rewrite fmap_cons in H2. apply NoDup_cons in H2 as [_ H2]. by apply IH.
Qed.

Lemma existsb_path p l : existsb (fun m => bool_decide (mp_path m = p)) l = false -> p ∉ mp_path <$> l.
Proof.
  intros H Hin. apply list_elem_of_fmap in Hin as (m & -> & Hm).
  assert (existsb (fun x => bool_decide (mp_path x = mp_path m)) l = true) as Ht; [|congruence].
  apply existsb_exists. exists m. split; [by apply list_elem_of_In|]. by apply bool_decide_eq_true.
Qed.

Lemma mount_ok (P : Past) failing p fs v : vfs_ok P failing v -> vfs_ok P failing (mount p fs v).2.
Proof.
  intros Hv. pose proof Hv as [Hc Hm]. unfold mount. destruct (fs_mount fs) as [[u|e] fs']; [|done].
  destruct (existsb _ (mounts v)) eqn:E; cbn [snd]; [by apply vfs_ok_mounts|].
  split; [apply cache_ok_empty|]. cbn [mounts].
  destruct (sort_spec (mounts v ++ [mkMount (normalize_path p) fs' (next_fs_id v)])) as [Hs Hp].
  constructor; [done|]. rewrite Hp, fmap_app. apply NoDup_app. split; [apply Hm|]. split; [|apply NoDup_singleton].
  intros x Hx ->%list_elem_of_singleton. by apply (existsb_path _ _ E).
Qed.

Lemma unmount_ok (P : Past) failing p v : (failing = false -> unmounts_cleanly p v) -> vfs_ok P failing v -> vfs_ok P failing (unmount p v).2.
Proof.
  intros Hcl Hv. unfold unmount. destruct (take_mount _ (mounts v)) as [[m r]|] eqn:E; [|done].
  destruct (take_mount_perm _ _ _ _ E) as (Hs & _). destruct Hv as [Hc Hm]. pose proof (mounts_ok_sublist _ _ Hs Hm) as Hr.
  destruct (fs_unmount (mp_fs m)) as [[u|e] fs'] eqn:Eu; [by split; [apply cache_ok_empty|]|].
  destruct failing; [by split; [apply cache_ok_sublist|]|]. pose proof (Hcl eq_refl m r E) as Hok. by rewrite Eu in Hok.
Qed.

Lemma sync_list_key l : mount_key <$> (sync_list l).2 = mount_key <$> l.
Proof.
  induction l as [|m l IH]; cbn [sync_list]; [done|]. destruct (fs_sync (mp_fs m)) as [[u|e] fs']; [|done].
  destruct (sync_list l) as [res r']. cbn [snd] in *. by rewrite !fmap_cons, IH.
Qed.

Lemma vfs_step_ok (P : Past) failing v v' : vfs_step failing v v' -> P (mounts v) -> vfs_ok P failing v -> vfs_ok P failing v'.
Proof.
  destruct 1; intros HP Hv.
  - by apply mount_ok.
  - by apply unmount_ok.
  - apply at_path_ok; [|done|done]. intros id rel w Hw. destruct (get_fs id w) as [fs|e]; [|done].
    destruct (fs_getattr rel fs) as [attr|e]; [by case_bool_decide|].
    destruct (_ && _); [|done]. pose proof (on_fs_ok P failing id (fs_create rel Permissions_default) w Hw) as Ho.
    by destruct (on_fs id _ w) as [[i|e'] w'].
  - unfold read. destruct (f_read _); cbn [negb]; [|done].
    pose proof (query_fs_ok P failing (h_fs_id h) (fs_read (h_inode h) (h_position h) n) v Hv) as Hq.
    by destruct (query_fs _ _ v) as [[d|e] v'].
  - unfold write. destruct (f_write _); cbn [negb]; [|done]. destruct (get_fs _ v) as [fs|e]; [|done].
    destruct (if f_append _ then _ else _) as [pos|e]; [|done].
    pose proof (on_fs_ok P failing (h_fs_id h) (fs_write (h_inode h) pos data) v Hv) as Ho.
    by destruct (on_fs _ _ v) as [[d|e] v'].
  - apply at_path_ok; [|done|done]. intros. by apply on_fs_ok.
  - apply at_path_ok; [|done|done]. intros. by apply on_fs_ok.
  - apply at_path_ok; [|done|done]. intros. by apply on_fs_ok.
  - apply at_path_ok; [|done|done]. intros. by apply query_fs_ok.
  - apply at_path_ok; [|done|done]. intros. by apply query_fs_ok.
  - unfold sync_all. pose proof (sync_list_key (mounts v)) as Hk. destruct (sync_list (mounts v)) as [r l].
    by apply vfs_ok_mounts.
Qed.

Lemma vfs_new_ok (P : Past) failing : vfs_ok P failing VfsManager_new.
Proof. split; [apply cache_ok_empty|]. constructor; constructor. Qed.

Lemma vfs_ok_mono (P Q : Past) failing v : (forall l, P l -> Q l) -> vfs_ok P failing v -> vfs_ok Q failing v.
Proof.
  intros HPQ [[H1 H2 H3 H4] Hm]. split; [|done]. constructor; try done. intros n r Hn. destruct (H1 n r Hn) as (l & A & Hl). exists l. split; [by apply HPQ|done].
Qed.

(** An answer is that of the table, or of a mount that has gone from it. *)
Lemma answer_resolves (P : Past) failing v n x : mounts_ok (mounts v) -> answer P failing v n x ->
  resolves (mounts v) n (Some x) \/
  (failing = true /\ exists l m, P l /\ resolves l n (Some x) /\ m ∈ l /\ mp_id m = x.1 /\ mount_key m ∉ mount_key <$> mounts v).
Proof.
  intros Hv (l & HP & Hm & Hsub & Heq & Hl). pose proof (lookup_resolves l n Hm) as Hr. rewrite Hl in Hr. destruct x as [id rel]. pose proof Hr as Hr'.
  destruct Hr as (m & Hin & Hid & Hcase). assert (forall m', m' ∈ mounts v -> exists m0, m0 ∈ l /\ mp_path m0 = mp_path m') as Hup.
  { intros m' Hm'. assert (mount_key m' ∈ mount_key <$> l) as Hk by (eapply elem_of_sublist; [|exact Hsub]; by apply list_elem_of_fmap_2).
    apply list_elem_of_fmap in Hk as (m0 & E & H0). exists m0. split; [done|]. injection E as E _. by rewrite E. }
  destruct (decide (mount_key m ∈ mount_key <$> mounts v)) as [Hk|Hk].
  - left. apply list_elem_of_fmap in Hk as (m1 & E & H1). injection E as Ep Ei. exists m1. split; [done|]. split; [by rewrite <- Ei|].
    assert (forall m' m0, mp_path m0 = mp_path m' -> prefix_of n m' -> prefix_of n m0) as Hpre by (intros m' m0 E; unfold prefix_of; by rewrite E).
    rewrite <- Ep. destruct Hcase as [(Hp & Hlong & Hrel)|(Hp & -> & Hno)]; [left|right].
    + split; [by apply (Hpre m m1)|]. split; [|done]. intros m' Hm' Hp'. destruct (Hup m' Hm') as (m0 & H0 & E). rewrite <- E. apply Hlong; [done|]. by apply (Hpre m').
    + split; [done|]. split; [done|]. intros m' Hm' Hp'. destruct (Hup m' Hm') as (m0 & H0 & E). by apply (Hno m0), (Hpre m' m0).
  - destruct failing; [|exfalso; apply Hk; rewrite <- (Heq eq_refl); by apply list_elem_of_fmap_2]. right. split; [done|]. by exists l, m.
Qed.

(** The tables of a run up to [v]. *)
Definition table_of_run failing v : Past := fun l => exists v0, rtc (vfs_step failing) VfsManager_new v0 /\ rtc (vfs_step failing) v0 v /\ mounts v0 = l.

Lemma run_ok failing v : rtc (vfs_step failing) VfsManager_new v -> vfs_ok (table_of_run failing v) failing v.
Proof.
  revert v. apply (rtc_ind_r (fun v => vfs_ok (table_of_run failing v) failing v)); [apply vfs_new_ok|]. intros y z Hr Hs IH. apply (vfs_step_ok _ failing y z Hs); [exists y; split; [done|]; split; [by apply rtc_once|done]|].
  eapply vfs_ok_mono; [|exact IH]. intros l (v0 & H0 & H1 & E). exists v0. split; [done|]. split; [by eapply rtc_r|done].
Qed.

(** C13: Path resolution.  After any sequence of mounts, unmounts and file operations that
    begins with no mounts, resolving a path, cached or not, gives the longest mount of
    the table that is a prefix of the normalized path by whole components and the rest
    of the path, else the root mount and the whole path, and NotMounted exactly when
    there is neither.  If unmounts may fail ([failing] is true), there is one exception: the
    answer can be one that was right earlier in the sequence, of a mount that has gone from the
    table since.  The cache and its LRU list hold the same at most 256 paths. *)
Theorem resolution_correct failing v p : rtc (vfs_step failing) VfsManager_new v ->
  let (r, v') := resolve_path p v in
  let n := normalize_path p in
  match r with
  | Ok x =>
      resolves (mounts v) n (Some x) \/
      (failing = true /\ exists v0 m, rtc (vfs_step failing) VfsManager_new v0 /\ rtc (vfs_step failing) v0 v /\ resolves (mounts v0) n (Some x) /\
        m ∈ mounts v0 /\ mp_id m = x.1 /\ mount_key m ∉ mount_key <$> mounts v)
  | Err e => e = NotMounted /\ resolves (mounts v) n None
  end /\
  mounts v' = mounts v /\
  (length (cache_lru v') <= MAX_PATH_CACHE_SIZE)%nat /\
  (forall q, is_Some (path_cache v' !! q) <-> q ∈ cache_lru v').
Proof.
  intros Hr. destruct (run_ok failing v Hr) as [Hc Hm]. assert (table_of_run failing v (mounts v)) as Ht by (exists v; by split).
  pose proof (resolve_spec _ failing p v Ht Hc Hm) as H. destruct (resolve_path p v) as [r v'].
  destruct H as (H & H2 & H3). split; [|split; [done|]; split; apply H3]. destruct r as [x|e].
  - destruct (answer_resolves _ failing v _ x Hm H) as [|(Hf & l & m & (v0 & R0 & R1 & <-) & R)]; [by left|right]. split; [done|]. by exists v0, m.
  - destruct H as [-> Hn]. split; [done|]. rewrite <- Hn. by apply lookup_resolves.
Qed.

(** Appending goes to the wrong place: a handle opened for appending writes at
    the size of the mount's root directory, whatever the size of its file. *)
Theorem append_uses_root_size h data v fs attr n fs' : f_write (h_flags h) = true -> f_append (h_flags h) = true ->
  get_fs (h_fs_id h) v = Ok fs -> fs_getattr [slash] fs = Ok attr ->
  fs_write (h_inode h) (size attr) data fs = (Ok n, fs') ->
  write h data v = (Ok n, advance n h, with_mounts (set_fs (h_fs_id h) fs' (mounts v)) v).
Proof.
  intros Hw Ha Hg Hr Hf. unfold write, on_fs. rewrite Hw, Hg, Ha, Hr. cbn [negb]. by rewrite Hf.
Qed.

End Resolution.

(** ** A small filesystem for the examples *)

(** [sf_stuck] makes unmounting fail; the files are by path. *)
Record SmallFs : Type := mkSmall { sf_stuck : bool; sf_files : gmap str Z }.

#[global] Instance SmallFs_fs : Filesystem SmallFs := {
  fs_name _ := lit "small";
  fs_is_mounted _ := true;
  fs_mount f := (Ok tt, f);
  fs_unmount f := (if sf_stuck f then Err Busy else Ok tt, f);
  fs_sync f := (Ok tt, f);
  fs_getattr p f :=
    match sf_files f !! p with Some i => Ok (mkAttr Regular 0 Permissions_default 0 0 0 i) | None => Err NotFound end;
  fs_readdir p f := Ok [];
  fs_create p _ f := (Ok 1, mkSmall (sf_stuck f) (<[p := 1]> (sf_files f)));
  fs_mkdir p _ f := (Err InvalidOperation, f);
  fs_unlink p f := (Ok tt, mkSmall (sf_stuck f) (delete p (sf_files f)));
  fs_rmdir p f := (Err InvalidOperation, f);
  fs_rename p q f := (Err InvalidOperation, f);
  fs_read _ _ _ f := Ok [];
  fs_write _ _ d f := (Ok (Z.of_nat (length d)), f);
  fs_truncate _ _ f := (Ok tt, f);
  fs_statfs f := Err InvalidOperation;
}.

Definition two_mounts : VfsManager SmallFs :=
  (mount (lit "/mnt/") (mkSmall true ∅) (mount (lit "/") (mkSmall false ∅) VfsManager_new).2).2.

(** A failed unmount leaves the path cache stale: the mount is gone from the
    table, yet a path resolved before still resolves to it, while an uncached one
    goes to the root mount. *)
Theorem failed_unmount_leaves_stale_cache :
  let v1 := (resolve_path (lit "/mnt/a") two_mounts).2 in
  let v2 := (unmount (lit "/mnt") v1).2 in
  (resolve_path (lit "/mnt/a") v1).1 = Ok (2, lit "/a") /\
  (unmount (lit "/mnt") v1).1 = Err Busy /\ (mp_id <$> mounts v2) = [1] /\
  (resolve_path (lit "/mnt/a") v2).1 = Ok (2, lit "/a") /\
  (resolve_path (lit "/mnt/b") v2).1 = Ok (1, lit "/mnt/b").
Proof. vm_compute. done. Qed.

Lemma resolution_correct_witness :
  resolves (mounts two_mounts) (lit "/mnt/x/y") (Some (2, lit "/x/y")).
Proof.
  pose proof (resolution_correct false two_mounts (lit "/mnt/x/../x/./y")) as H.
  assert ((resolve_path (lit "/mnt/x/../x/./y") two_mounts).1 = Ok (2, lit "/x/y")) as E by (vm_compute; reflexivity).
  destruct (resolve_path (lit "/mnt/x/../x/./y") two_mounts) as [r v']. cbn [fst] in E. subst r.
  destruct H as ([H|[H _]] & _); [|exact H|discriminate H]. eapply rtc_l; [apply (vs_mount false (lit "/") (mkSmall false ∅))|].
  eapply rtc_l; [apply (vs_mount false (lit "/mnt/") (mkSmall true ∅))|]. apply rtc_refl.
Defined.

Lemma append_uses_root_size_witness :
  let v := mkVfs [mkMount [slash] (mkSmall false (<[[slash] := 0]> ∅)) 1] 2 ∅ [] in
  (write (FileHandle_new 5 append_flags 1) [65; 66] v).1.1 = Ok 2.
Proof.
  cbn zeta. rewrite (append_uses_root_size (FileHandle_new 5 append_flags 1) [65; 66]
    (mkVfs [mkMount [slash] (mkSmall false (<[[slash] := 0]> ∅)) 1] 2 ∅ [])
    (mkSmall false (<[[slash] := 0]> ∅)) (mkAttr Regular 0 Permissions_default 0 0 0 0) 2
    (mkSmall false (<[[slash] := 0]> ∅))); reflexivity.
Defined.
