(* ===== verification/BlockDevice.v ===== *)
(** * Disks of 512-byte sectors

    The interface between the filesystem and what it is stored on
    ([disk_read_sector], [disk_write_sector] and [disk_is_present] of
    [drivers/virtio/mod.rs]), and the disk in memory that is its specification:
    [VirtioBlk] shows that the driver behaves as one as long as its device reports
    success. *)

From Stdlib Require Import ZArith Lia Bool.
From stdpp Require Import base numbers option list gmap.
From S2P Require Import Prelude.

(** ** The interface

    [disk_read] is a sector as [disk_read_sector] fills it, [None] when it
    returns [false]; reading leaves the contents alone. *)

Class BlockDevice (D : Type) : Type := {
  disk_is_present : D -> bool;
  disk_read : Z -> D -> option (list Z);
  disk_write : Z -> list Z -> D -> bool * D;
}.

(** What a disk of [capacity] sectors promises. *)
Class BlockDeviceLaws (D : Type) `{BlockDevice D} : Type := {
  disk_capacity : D -> Z;
  bl_present d : 0 < disk_capacity d -> disk_is_present d = true;
  bl_read d s : 0 <= s < disk_capacity d -> exists b, disk_read s d = Some b /\ length b = 512%nat;
  bl_write d s b : 0 <= s < disk_capacity d -> length b = 512%nat ->
    exists d', disk_write s b d = (true, d') /\ disk_capacity d' = disk_capacity d /\
               forall s', disk_read s' d' = if s' =? s then Some b else disk_read s' d;
}.

(** ** A disk in memory *)

Record MemDisk : Type := mkMem { mem_capacity : Z; sectors : gmap Z (list Z) }.

Definition mem_read (s : Z) (d : MemDisk) : option (list Z) :=
  if (0 <=? s) && (s <? mem_capacity d) then Some (resize 512 0 (default [] (sectors d !! s))) else None.
Definition mem_write (s : Z) (b : list Z) (d : MemDisk) : bool * MemDisk :=
  if (0 <=? s) && (s <? mem_capacity d) then (true, mkMem (mem_capacity d) (<[s := b]> (sectors d))) else (false, d).

#[global] Instance MemDisk_device : BlockDevice MemDisk := {
  disk_is_present d := 0 <? mem_capacity d; disk_read := mem_read; disk_write := mem_write }.

#[global] Program Instance MemDisk_laws : BlockDeviceLaws MemDisk := {| disk_capacity := mem_capacity |}.
Next Obligation. intros d H. simpl. by apply Z.ltb_lt. Qed.
Next Obligation.
  intros d s [H1 H2]. simpl. unfold mem_read. rewrite (proj2 (Z.leb_le _ _)), (proj2 (Z.ltb_lt _ _)) by done.
  eexists. split; [done|]. apply length_resize.
Qed.
Next Obligation.
  intros d s b [H1 H2] Hb. simpl. unfold mem_write, mem_read.
  rewrite (proj2 (Z.leb_le _ _)), (proj2 (Z.ltb_lt _ _)) by done. eexists. split; [done|]. split; [done|]. simpl. intros s'.
  destruct (Z.eqb_spec s' s) as [->|Hne].
  - rewrite (proj2 (Z.leb_le _ _)), (proj2 (Z.ltb_lt _ _)), lookup_insert_eq by done. simpl. f_equal. by apply resize_all_alt.
  - by rewrite lookup_insert_ne.
Qed.
