(* ===== verification/Virtqueue.v ===== *)
(** * The split virtqueue of the disk driver ([drivers/virtio/queue.rs])

    One page shared with the device holds the descriptor table, the ring of
    available chains and the ring of used ones.  [Virtqueue] keeps their
    addresses and which descriptors are free.  The driver reaches the page
    through the direct map at [hhdm]; memory is addressed by physical address.
    The theorems: the page layout is in bounds, descriptors are neither lost nor
    shared, the chain that [add_buf] writes is the one the device reads, and
    [get_used] gives it back. *)

From Stdlib Require Import ZArith Lia Bool.
From stdpp Require Import base numbers option list gmap strings.
From S2P Require Import Prelude Bytes.
From S2P Require Import Util.
From S2P Require Frame.

Notation PAGE_SIZE := Frame.PAGE_SIZE.

Open Scope Z_scope.

Definition QUEUE_SIZE : Z := 128.
Definition VIRTQ_DESC_F_NEXT : Z := 1.
Definition VIRTQ_DESC_F_WRITE : Z := 2.
Definition VIRTQ_AVAIL_F_NO_INTERRUPT : Z := 1.

(** ** The queue *)

Record VirtqDesc : Type := mkDesc { addr : Z; len : Z; flags : Z; next : Z }.

Record Virtqueue : Type := mkQueue {
  queue_size : Z;
  desc : Z; avail : Z; used : Z;                       (* virtual addresses *)
  free_descs : list bool;
  last_used_idx : Z;
  next_avail_idx : Z;
  desc_phys : Z; avail_phys : Z; used_phys : Z
}.

Definition set_free (f : list bool) (q : Virtqueue) : Virtqueue :=
  mkQueue (queue_size q) (desc q) (avail q) (used q) f (last_used_idx q) (next_avail_idx q)
          (desc_phys q) (avail_phys q) (used_phys q).
Definition set_next_avail (i : Z) (q : Virtqueue) : Virtqueue :=
  mkQueue (queue_size q) (desc q) (avail q) (used q) (free_descs q) (last_used_idx q) i
          (desc_phys q) (avail_phys q) (used_phys q).
Definition set_last_used (i : Z) (q : Virtqueue) : Virtqueue :=
  mkQueue (queue_size q) (desc q) (avail q) (used q) (free_descs q) i (next_avail_idx q)
          (desc_phys q) (avail_phys q) (used_phys q).

(** A buffer of a chain: address, length, and whether the device writes it. *)
Definition Buffer : Type := Z * Z * bool.

Section Operations.
Variable hhdm : Z.

(** The physical address behind a virtual one of the direct map. *)
Definition phys (v : Z) : Z := v -[64] hhdm.
Definition vload (n : nat) (v : Z) (m : Mem) : Z := load n (phys v) m.
Definition vstore (n : nat) (v x : Z) (m : Mem) : Mem := store n (phys v) x m.

(** [size_requirements]: the size of the descriptor table and the offsets of the
    two rings.  A [u16] times 16 does not overflow. *)
Definition size_requirements (queue_size : Z) : Z * Z * Z :=
  let desc_size := 16 * queue_size in
  let avail_size := 6 + 2 * queue_size in
  let avail_offset := desc_size in
  let used_offset := align_up (avail_offset + avail_size) 4 in
  (desc_size, avail_offset, used_offset).

Definition is_power_of_two (x : Z) : bool := (0 <? x) && (Z.land x (x - 1) =? 0).

(** The sizes of the Rust structures, rings of 128 entries. *)
Definition SIZEOF_desc_table : nat := 2048.
Definition SIZEOF_VirtqAvail : nat := 262.
Definition SIZEOF_VirtqUsed : nat := 1032.

Definition zero (v : Z) (n : nat) (m : Mem) : Mem := store_bytes (phys v) (replicate n 0) m.

Definition Virtqueue_new (base_virt base_phys queue_size : Z) : M Mem string Virtqueue := fun m =>
  if negb (is_power_of_two queue_size) || (QUEUE_SIZE <? queue_size) then (Err "Invalid queue size"%string, m)
  else
    let '(_, avail_offset, used_offset) := size_requirements queue_size in
    let total_required := used_offset + 6 + 8 * queue_size in
    if PAGE_SIZE <? total_required then (Err "Queue too large for one page"%string, m)
    else
      let desc := base_virt in
      let avail := base_virt +[64] avail_offset in
      let used := base_virt +[64] used_offset in
      let m := zero desc SIZEOF_desc_table m in
      let m := zero avail SIZEOF_VirtqAvail m in
      let m := zero used SIZEOF_VirtqUsed m in
      let m := vstore 2 avail VIRTQ_AVAIL_F_NO_INTERRUPT m in
      (Ok (mkQueue queue_size desc avail used
             (replicate (Z.to_nat queue_size) true ++ replicate (Z.to_nat (QUEUE_SIZE - queue_size)) false)
             0 0 base_phys (base_phys +[64] avail_offset) (base_phys +[64] used_offset)), m).

(** *** Descriptors *)

Fixpoint first_free (l : list bool) : option nat :=
  match l with
  | [] => None
  | b :: r => if b then Some O else S <$> first_free r
  end.

Definition alloc_desc (q : Virtqueue) : option Z * Virtqueue :=
  match first_free (take (Z.to_nat (queue_size q)) (free_descs q)) with
  | Some i => (Some (Z.of_nat i), set_free (<[i := false]> (free_descs q)) q)
  | None => (None, q)
  end.

Definition free_desc (idx : Z) (q : Virtqueue) : Virtqueue :=
  if idx <? queue_size q then set_free (<[Z.to_nat idx := true]> (free_descs q)) q else q.

(** *** Adding a chain *)

(** The loop [for _i in 1..buffers.len()]: [n] more descriptors, all given back
    when there are not enough. *)
Fixpoint push_descs (n : nat) (desc_indices : list Z) (q : Virtqueue) : Result (list Z) string * Virtqueue :=
  match n with
  | O => (Ok desc_indices, q)
  | S n =>
      match alloc_desc q with
      | (Some idx, q) => push_descs n (desc_indices ++ [idx]) q
      | (None, q) => (Err "Out of descriptors"%string, foldl (fun q idx => free_desc idx q) q (tail desc_indices))
      end
  end.

Definition desc_at (q : Virtqueue) (idx : Z) : Z := desc q +[64] (16 * idx).

(** One entry of the table; [rest] are the indices after it. *)
Definition write_desc (q : Virtqueue) (desc_idx : Z) (b : Buffer) (rest : list Z) (m : Mem) : Mem :=
  let '(addr, len, writable) := b in
  let d := desc_at q desc_idx in
  let m := vstore 8 d addr m in
  let m := vstore 4 (d +[64] 8) len m in
  let flags := if writable then Z.lor 0 VIRTQ_DESC_F_WRITE else 0 in
  let '(flags, m) :=
    match rest with
    | nxt :: _ => (Z.lor flags VIRTQ_DESC_F_NEXT, vstore 2 (d +[64] 14) nxt m)
    | [] => (flags, vstore 2 (d +[64] 14) 0 m)
    end in
  vstore 2 (d +[64] 12) flags m.

(** The loop over the buffers; [None] is an index outside the table. *)
Fixpoint write_chain (q : Virtqueue) (desc_indices : list Z) (buffers : list Buffer) (m : Mem) : option Mem :=
  match desc_indices, buffers with
  | idx :: rest, b :: buffers =>
      if idx <? QUEUE_SIZE then write_chain q rest buffers (write_desc q idx b rest m) else None
  | _, _ => Some m
  end.

Definition avail_slot (q : Virtqueue) (k : Z) : Z := avail q +[64] (4 + 2 * (k mod QUEUE_SIZE)).

Definition publish (head_idx : Z) (q : Virtqueue) (m : Mem) : Virtqueue * Mem :=
  let m := vstore 2 (avail_slot q (next_avail_idx q)) head_idx m in
  let m := vstore 2 (avail q +[64] 2) (vload 2 (avail q +[64] 2) m +[16] 1) m in
  (set_next_avail (next_avail_idx q +[16] 1) q, m).

Definition add_buf (head_idx : Z) (buffers : list Buffer) : M (Virtqueue * Mem) (Failure string) unit := fun '(q, m) =>
  if bool_decide (buffers = []) then (Err (Error "Empty buffer list"%string), (q, m))
  else if existsb (fun '(addr, len, _) => (len =? 0) || (addr =? 0)) buffers then (Err (Error "Invalid buffer"%string), (q, m))
  else
    match push_descs (length buffers - 1) [head_idx] q with
    | (Err e, q) => (Err (Error e), (q, m))
    | (Ok desc_indices, q) =>
        match write_chain q desc_indices buffers m with
        | None => (Err Panic, (q, m))
        | Some m => (Ok tt, publish head_idx q m)
        end
    end.

(** *** Taking back a chain *)

Definition read_desc (q : Virtqueue) (idx : Z) (m : Mem) : VirtqDesc :=
  let d := desc_at q idx in
  mkDesc (vload 8 d m) (vload 4 (d +[64] 8) m) (vload 2 (d +[64] 12) m) (vload 2 (d +[64] 14) m).

Definition has_next (d : VirtqDesc) : bool := negb (Z.land (flags d) VIRTQ_DESC_F_NEXT =? 0).

(** The loop that follows [next].  After 129 rounds inside the table a descriptor
    has been visited twice, and the loop never ends. *)
Fixpoint free_chain (fuel : nat) (desc_idx : Z) (m : Mem) (q : Virtqueue) : Result unit (Failure string) * Virtqueue :=
  match fuel with
  | O => (Err Diverges, q)
  | S fuel =>
      if desc_idx <? QUEUE_SIZE then
        let d := read_desc q desc_idx m in
        let q := free_desc desc_idx q in
        if negb (has_next d) then (Ok tt, q) else free_chain fuel (next d) m q
      else (Err Panic, q)
  end.

Definition used_elem (q : Virtqueue) (k : Z) : Z := used q +[64] (4 + 8 * (k mod QUEUE_SIZE)).

Definition get_used : M (Virtqueue * Mem) (Failure string) (option (Z * Z)) := fun '(q, m) =>
  if last_used_idx q =? vload 2 (used q +[64] 2) m then (Ok None, (q, m))
  else
    let e := used_elem q (last_used_idx q) in
    let id := vload 4 e m in
    let len := vload 4 (e +[64] 4) m in
    let q := set_last_used (last_used_idx q +[16] 1) q in
    match free_chain 129 (id mod 2 ^ 16) m q with
    | (Ok _, q) => (Ok (Some (id mod 2 ^ 16, len)), (q, m))
    | (Err e, q) => (Err e, (q, m))
    end.

Definition get_addresses (q : Virtqueue) : Z * Z * Z := (desc_phys q, avail_phys q, used_phys q).

End Operations.

(** ** The device's side

    What the device reads from the page, by physical address. *)

Definition dev_desc (table i : Z) (m : Mem) : VirtqDesc :=
  mkDesc (load 8 (table + 16 * i) m) (load 4 (table + 16 * i + 8) m) (load 2 (table + 16 * i + 12) m)
         (load 2 (table + 16 * i + 14) m).

Definition writable (d : VirtqDesc) : bool := negb (Z.land (flags d) VIRTQ_DESC_F_WRITE =? 0).

Fixpoint dev_chain (fuel : nat) (table i : Z) (m : Mem) : list Buffer :=
  match fuel with
  | O => []
  | S fuel =>
      let d := dev_desc table i m in
      (addr d, len d, writable d) :: (if has_next d then dev_chain fuel table (next d) m else [])
  end.

(** The head of chain number [k], as the virtio specification has it: the ring
    has as many slots as the queue. *)
Definition dev_head (queue_size avail_phys k : Z) (m : Mem) : Z := load 2 (avail_phys + 4 + 2 * (k mod queue_size)) m.
Definition dev_avail_idx (avail_phys : Z) (m : Mem) : Z := load 2 (avail_phys + 2) m.

(** ** Layout *)

Record layout (hhdm base : Z) (q : Virtqueue) : Prop := {
  lay_page : 0 <= base < 2 ^ 52 /\ base mod PAGE_SIZE = 0;
  lay_size : queue_size q ∈ [1; 2; 4; 8; 16; 32; 64; 128];
  lay_desc : desc q = base +[64] hhdm /\ desc_phys q = base;
  lay_avail : avail q = desc q +[64] (16 * queue_size q) /\ avail_phys q = base + 16 * queue_size q;
  lay_used : used q = desc q +[64] (align_up (18 * queue_size q + 6) 4) /\
             used_phys q = base + align_up (18 * queue_size q + 6) 4;
}.

Lemma powers_of_two x : is_power_of_two x = true -> x <= 128 -> x ∈ [1; 2; 4; 8; 16; 32; 64; 128].
Proof.
  intros H Hx. assert (0 < x) by (unfold is_power_of_two in H; destruct (Z.ltb_spec 0 x); [lia|done]).
  assert (forallb (fun x => negb (is_power_of_two x) || bool_decide (x ∈ [1; 2; 4; 8; 16; 32; 64; 128])) (seqZ 1 128) = true) as Hall
    by (vm_compute; reflexivity).
  rewrite forallb_forall in Hall. specialize (Hall x). rewrite H in Hall. cbn [negb orb] in Hall.
  assert (In x (seqZ 1 128)) as Hin by (apply list_elem_of_In, elem_of_seqZ; lia). specialize (Hall Hin).
  by apply bool_decide_eq_true in Hall.
Qed.

(** What a proof by cases on the size of the queue needs. *)
Lemma size_bounds x : x ∈ [1; 2; 4; 8; 16; 32; 64; 128] ->
  1 <= x <= 128 /\ 18 * x + 6 <= align_up (18 * x + 6) 4 <= 18 * x + 9 /\ align_up (18 * x + 6) 4 mod 4 = 0.
Proof.
  intros H. repeat (apply elem_of_cons in H as [->|H]; [vm_compute; repeat split; discriminate|]).
  by apply elem_of_nil in H.
Qed.

Section Layout.
Variable hhdm : Z.

Lemma phys_direct base k : 0 <= base + k < 2 ^ 64 -> phys hhdm (base + hhdm +[64] k) = base + k.
Proof.
  intros H. unfold phys. unfold wrap at 1. rewrite <- Zminus_mod_idemp_l. unfold wrap. rewrite Z.mod_mod, Zminus_mod_idemp_l by lia.
  replace (base + hhdm + k - hhdm) with (base + k) by lia. by apply Z.mod_small.
Qed.

Lemma phys_desc base q k : layout hhdm base q -> 0 <= k < PAGE_SIZE -> phys hhdm (desc q +[64] k) = base + k.
Proof.
  intros L Hk. destruct (lay_page _ _ _ L), (lay_desc _ _ _ L) as [-> _]. rewrite wrap_add_l. apply phys_direct.
  unfold PAGE_SIZE in *. lia.
Qed.

Lemma phys_desc_at base q i k : layout hhdm base q -> 0 <= i < 128 -> 0 <= k < 16 ->
  phys hhdm (desc_at q i +[64] k) = base + 16 * i + k.
Proof.
  intros L Hi Hk. unfold desc_at. rewrite wrap_add_l, <- Z.add_assoc, (phys_desc base) by (done || unfold PAGE_SIZE; lia). lia.
Qed.

Lemma phys_desc_at_0 base q i : layout hhdm base q -> 0 <= i < 128 -> phys hhdm (desc_at q i) = base + 16 * i.
Proof. intros L Hi. unfold desc_at. apply phys_desc; [done|]. unfold PAGE_SIZE. lia. Qed.

Lemma phys_avail base q k : layout hhdm base q -> 0 <= k < 262 -> phys hhdm (avail q +[64] k) = avail_phys q + k.
Proof.
  intros L Hk. destruct (lay_avail _ _ _ L) as [-> ->]. pose proof (size_bounds _ (lay_size _ _ _ L)).
  rewrite wrap_add_l, <- Z.add_assoc, (phys_desc base) by (done || unfold PAGE_SIZE; lia). lia.
Qed.

Lemma phys_used base q k : layout hhdm base q -> 0 <= k < 1032 -> phys hhdm (used q +[64] k) = used_phys q + k.
Proof.
  intros L Hk. destruct (lay_used _ _ _ L) as [-> ->]. pose proof (size_bounds _ (lay_size _ _ _ L)).
  rewrite wrap_add_l, <- Z.add_assoc, (phys_desc base) by (done || unfold PAGE_SIZE; lia). lia.
Qed.

(** What [Virtqueue_new] makes has this layout. *)
Lemma new_layout base qs m q m' : 0 <= base < 2 ^ 52 -> base mod PAGE_SIZE = 0 ->
  Virtqueue_new hhdm (base +[64] hhdm) base qs m = (Ok q, m') -> layout hhdm base q /\ queue_size q = qs /\
  length (free_descs q) = 128%nat.
Proof.
  intros Hb Hm. unfold Virtqueue_new. destruct (is_power_of_two qs) eqn:Hp; [|done].
  destruct (Z.ltb_spec QUEUE_SIZE qs) as [|Hq]; [done|]. cbn [negb orb]. unfold size_requirements.
  pose proof (size_bounds _ (powers_of_two qs Hp Hq)) as (? & ? & ?).
  replace (16 * qs + (6 + 2 * qs)) with (18 * qs + 6) by lia.
  destruct (Z.ltb_spec PAGE_SIZE (align_up (18 * qs + 6) 4 + 6 + 8 * qs)); [done|]. intros [= <- _].
  split; [constructor; cbn|split; [done|cbn]].
  - done.
  - by apply powers_of_two.
  - done.
  - split; [done|]. apply wrap_small. unfold in_width. lia.
  - split; [done|]. apply wrap_small. unfold in_width. lia.
  - rewrite length_app, !length_replicate. unfold QUEUE_SIZE in *. lia.
Qed.
End Layout.

(** ** Descriptors *)

Lemma first_free_some l i : first_free l = Some i -> l !! i = Some true.
Proof.
  revert i. induction l as [|b l IH]; intros i H; cbn in H; [done|]. destruct b; [by simplify_eq|].
  destruct (first_free l); simplify_eq/=. by apply IH.
Qed.

Lemma first_free_none l : first_free l = None -> forall i : nat, l !! i <> Some true.
Proof.
  induction l as [|b l IH]; intros H i; [by rewrite lookup_nil|]. cbn in H. destruct b; [done|].
  destruct (first_free l); [done|]. destruct i as [|i]; [done|]. by apply IH.
Qed.

(** Descriptor [i] of the queue is free. *)
Definition is_free (q : Virtqueue) (i : Z) : Prop := 0 <= i < queue_size q /\ free_descs q !! Z.to_nat i = Some true.

Record queue_wf (q : Virtqueue) : Prop := {
  qw_size : 1 <= queue_size q <= QUEUE_SIZE;
  qw_len : length (free_descs q) = Z.to_nat QUEUE_SIZE;
}.

Lemma set_free_wf q f : queue_wf q -> length f = length (free_descs q) -> queue_wf (set_free f q).
Proof. intros [? Hl] E. split; [done|]. cbn. congruence. Qed.

Lemma alloc_desc_some q i q' : queue_wf q -> alloc_desc q = (Some i, q') ->
  is_free q i /\ q' = set_free (<[Z.to_nat i := false]> (free_descs q)) q /\ queue_wf q'.
Proof.
  intros W. unfold alloc_desc. destruct (first_free _) as [j|] eqn:E; [|done]. intros [= <- <-].
  apply first_free_some in E. apply lookup_take_Some in E as [E Hj]. rewrite Nat2Z.id.
  split; [|split; [done|apply set_free_wf; [done|apply length_insert]]].
  split; [lia|]. by rewrite Nat2Z.id.
Qed.

Lemma alloc_desc_none q q' : alloc_desc q = (None, q') -> q' = q /\ forall i, ~ is_free q i.
Proof.
  unfold alloc_desc. destruct (first_free _) as [j|] eqn:E; [done|]. intros [= <-]. split; [done|].
  intros i [Hi E']. apply (first_free_none _ E (Z.to_nat i)). rewrite lookup_take_lt by lia. done.
Qed.

(** Marking every descriptor of a list. *)
Definition mark (b : bool) (l : list Z) (f : list bool) : list bool := foldr (fun i f => <[Z.to_nat i := b]> f) f l.

Lemma length_mark b l f : length (mark b l f) = length f.
Proof. induction l as [|i l IH]; [done|]. cbn. by rewrite length_insert. Qed.

Lemma lookup_mark b l f (i : nat) : (i < length f)%nat -> Forall (fun x => 0 <= x) l ->
  mark b l f !! i = if decide (Z.of_nat i ∈ l) then Some b else f !! i.
Proof.
  intros Hi. induction 1 as [|x l Hx _ IH]; cbn [mark foldr]; [by rewrite decide_False by apply not_elem_of_nil|].
  fold (mark b l f). destruct (decide (Z.to_nat x = i)) as [<-|Hne].
  - rewrite list_lookup_insert_eq by (by rewrite length_mark). rewrite Z2Nat.id by done. rewrite decide_True; [done|]. by left.
  - rewrite list_lookup_insert_ne, IH by done. destruct (decide (Z.of_nat i ∈ l)) as [?|Hn].
    + rewrite decide_True; [done|]. by right.
    + rewrite decide_False; [done|]. rewrite elem_of_cons. intros [Hix|?]; [lia|done].
Qed.

Lemma mark_reverse_cons b i l f : mark b (reverse (i :: l)) f = mark b (reverse l) (<[Z.to_nat i := b]> f).
Proof. rewrite reverse_cons. unfold mark. by rewrite foldr_app. Qed.

Lemma set_free_id q : set_free (free_descs q) q = q.
Proof. by destruct q. Qed.

(** Freeing the descriptors one by one, in any order. *)
Lemma free_all l q : queue_wf q -> Forall (fun i => 0 <= i < queue_size q) l ->
  foldl (fun q i => free_desc i q) q l = set_free (mark true (reverse l) (free_descs q)) q.
Proof.
  intros W Hl. revert q W Hl. induction l as [|i l IH]; intros q W Hl; [by destruct q|]. inversion_clear Hl as [|? ? Hi Hl'].
  cbn [foldl]. unfold free_desc at 2. rewrite (proj2 (Z.ltb_lt _ _)) by lia.
  rewrite IH; [|apply set_free_wf; [done|apply length_insert]|done].
  by rewrite mark_reverse_cons.
Qed.

(** Taking descriptors and giving them back leaves the list as it was. *)
Lemma mark_undo l f : Forall (fun i => 0 <= i /\ f !! Z.to_nat i = Some true) l ->
  forall l', l' ≡ₚ l -> mark true l' (mark false l f) = f.
Proof.
  intros Hl l' Hp. assert (Forall (fun x => 0 <= x) l) as H0 by (eapply Forall_impl; [exact Hl|]; by intros ? []).
  apply list_eq. intros i. destruct (decide (i < length f)%nat) as [Hi|Hi].
  - rewrite lookup_mark by (by rewrite ?length_mark, ?Hp). rewrite lookup_mark by done.
    destruct (decide (Z.of_nat i ∈ l')) as [Hin|Hin]; rewrite Hp in Hin.
    + rewrite Forall_forall in Hl. destruct (Hl _ Hin) as [_ E]. by rewrite Nat2Z.id in E.
    + by rewrite decide_False.
  - rewrite !lookup_ge_None_2; [done|lia|rewrite !length_mark; lia].
Qed.

Lemma push_descs_spec n : forall acc q, queue_wf q -> acc <> [] ->
  Forall (fun i => 0 <= i < queue_size q) (tail acc) ->
  match push_descs n acc q with
  | (Ok ds, q') => exists new, ds = acc ++ new /\ length new = n /\ NoDup new /\ Forall (is_free q) new /\
                   q' = set_free (mark false (reverse new) (free_descs q)) q
  | (Err e, q') => e = "Out of descriptors"%string /\
      exists new, (length new < n)%nat /\ NoDup new /\ Forall (is_free q) new /\ (forall i, is_free q i -> i ∈ new) /\
        q' = set_free (mark true (reverse (tail acc ++ new)) (mark false (reverse new) (free_descs q))) q
  end.
Proof.
  induction n as [|n IH]; intros acc q W Hne Hacc; cbn [push_descs].
  - exists []. rewrite app_nil_r. repeat split; [constructor|constructor|by destruct q].
  - destruct (alloc_desc q) as [[i|] q1] eqn:E.
    + destruct (alloc_desc_some _ _ _ W E) as (Hf & E1 & W1).
      assert (tail (acc ++ [i]) = tail acc ++ [i]) as Ht by (destruct acc; [done|reflexivity]).
      assert (queue_size q1 = queue_size q) as Hq by (by subst q1).
      assert (forall x, is_free q1 x -> is_free q x /\ x <> i) as Hsub.
      { intros x [Hx Ex]. rewrite Hq in Hx. subst q1. cbn in Ex. apply list_lookup_insert_Some in Ex as [(? & ? & ?)|[? ?]]; [done|].
        split; [by split|]. by intros ->. }
      assert (forall x, is_free q x -> x <> i -> is_free q1 x) as Hsup.
      { intros x [Hx Ex] Hxi. split; [by rewrite Hq|]. subst q1. cbn. rewrite list_lookup_insert_ne; [done|].
        destruct Hf. intros ?%Z2Nat.inj; lia. }
      specialize (IH (acc ++ [i]) q1 W1). destruct (push_descs n (acc ++ [i]) q1) as [[ds|e] q']; destruct IH as (new & IH).
      * intros ?%app_eq_nil. naive_solver.
      * rewrite Ht, Hq. apply Forall_app; split; [done|]. repeat constructor; apply Hf.
      * destruct IH as (-> & Hlen & Hnd & Hfree & ->). exists (i :: new). rewrite <- app_assoc. split; [done|].
        split; [cbn; lia|]. split; [|split].
        -- constructor; [|done]. intros Hin. rewrite Forall_forall in Hfree. by destruct (Hsub _ (Hfree _ Hin)).
        -- constructor; [done|]. eapply Forall_impl; [exact Hfree|]. intros x Hx. apply (Hsub x Hx).
        -- subst q1. by rewrite mark_reverse_cons.
      * intros ?%app_eq_nil. naive_solver.
      * rewrite Ht, Hq. apply Forall_app; split; [done|]. repeat constructor; apply Hf.
      * subst e. destruct IH as (new' & Hlen & Hnd & Hfree & Hall & ->). split; [done|]. exists (i :: new'). split; [cbn; lia|].
        split; [|split; [|split]].
        -- constructor; [|done]. intros Hin. rewrite Forall_forall in Hfree. by destruct (Hsub _ (Hfree _ Hin)).
        -- constructor; [done|]. eapply Forall_impl; [exact Hfree|]. intros x Hx. apply (Hsub x Hx).
        -- intros x Hx. destruct (decide (x = i)) as [->|Hxi]; [by left|]. right. auto.
        -- subst q1. rewrite Ht, <- app_assoc, mark_reverse_cons. reflexivity.
    + destruct (alloc_desc_none _ _ E) as [-> Hnone]. split; [done|]. exists []. split; [cbn; lia|].
      split; [constructor|]. split; [constructor|]. split; [intros i Hi; by apply Hnone in Hi|].
      rewrite app_nil_r. by apply free_all.
Qed.

(** ** Chains in memory *)

(** The entry that describes buffer [b] when the indices [rest] come after it. *)
Definition entry (b : Buffer) (rest : list Z) : VirtqDesc :=
  let '(addr, len, w) := b in
  mkDesc addr len (Z.lor (if w : bool then VIRTQ_DESC_F_WRITE else 0) (if rest then 0 else VIRTQ_DESC_F_NEXT)) (hd 0 rest).

(** The descriptors [ds] of the table hold the chain of [bs]. *)
Fixpoint chain_ok (table : Z) (m : Mem) (ds : list Z) (bs : list Buffer) : Prop :=
  match ds, bs with
  | [], [] => True
  | d :: rest, b :: bs => dev_desc table d m = entry b rest /\ chain_ok table m rest bs
  | _, _ => False
  end.

Definition buffer_ok (b : Buffer) : Prop := let '(addr, len, _) := b in in_width 64 addr /\ in_width 32 len.

Lemma dev_desc_ext table i m m' : (forall x, table + 16 * i <= x < table + 16 * i + 16 -> byte m' x = byte m x) ->
  dev_desc table i m' = dev_desc table i m.
Proof. intros H. unfold dev_desc. f_equal; apply load_ext; intros x Hx; apply H; lia. Qed.

Lemma chain_ok_ext table m m' ds : forall bs,
  (forall d x, d ∈ ds -> table + 16 * d <= x < table + 16 * d + 16 -> byte m' x = byte m x) ->
  chain_ok table m ds bs -> chain_ok table m' ds bs.
Proof.
  induction ds as [|d ds IH]; intros [|b bs] H; cbn; try done. intros [E Hc]. split.
  - rewrite <- E. apply dev_desc_ext. intros. apply (H d); [by left|lia].
  - apply IH; [|done]. intros d' x Hd. apply (H d' x). by right.
Qed.

Lemma chain_ok_length table m ds : forall bs, chain_ok table m ds bs -> length ds = length bs.
Proof. induction ds as [|d ds IH]; intros [|b bs]; cbn; try done. intros [_ H]. f_equal. by apply IH. Qed.

Lemma entry_spec b rest : addr (entry b rest) = b.1.1 /\ len (entry b rest) = b.1.2 /\ writable (entry b rest) = b.2 /\
  has_next (entry b rest) = negb (bool_decide (rest = [])) /\ next (entry b rest) = hd 0 rest.
Proof. destruct b as [[a l] [|]], rest; repeat split. Qed.

(** The device reads the chain back. *)
Lemma chain_read table m ds : forall bs fuel d, chain_ok table m (d :: ds) bs -> (length bs <= fuel)%nat ->
  dev_chain fuel table d m = bs.
Proof.
  induction ds as [|d' ds IH]; intros [|b bs] [|fuel] d Hc Hf; cbn in Hf; try (lia || done); destruct Hc as [E Hc];
    cbn [dev_chain]; rewrite E;
    match goal with |- context [entry ?b ?r] => destruct (entry_spec b r) as (Ha & Hl & Hw & Hn & Hx) end; rewrite Ha, Hl, Hw, Hn.
  - destruct bs; [|done]. by destruct b as [[? ?] [|]].
  - rewrite Hx. change (bool_decide (d' :: ds = [])) with false. cbn [negb hd].
    rewrite (IH bs); [|done|lia]. by destruct b as [[? ?] ?].
Qed.

Section Chain.
Variable hhdm : Z.

Lemma write_desc_spec base q i b rest m : layout hhdm base q -> 0 <= i < 128 -> buffer_ok b ->
  Forall (in_width 16) rest ->
  dev_desc base i (write_desc hhdm q i b rest m) = entry b rest /\
  forall x, ~ (base + 16 * i <= x < base + 16 * i + 16) -> byte (write_desc hhdm q i b rest m) x = byte m x.
Proof.
  intros L Hi Hb Hr. destruct b as [[a l] w]. destruct Hb as [Ha Hl].
  assert (in_width 16 (hd 0 rest)) as Hn by (destruct Hr; [done|done]).
  unfold write_desc, vstore. rewrite (phys_desc_at_0 hhdm base) by done.
  assert (forall n k v, 0 <= k < 16 -> store n (phys hhdm (desc_at q i +[64] k)) v = store n (base + 16 * i + k) v) as Hs
    by (intros; by rewrite (phys_desc_at hhdm base)).
  set (fl := Z.lor (if w then VIRTQ_DESC_F_WRITE else 0) (if rest then 0 else VIRTQ_DESC_F_NEXT)).
  assert (in_width 16 fl) as Hfl by (by subst fl; destruct w, rest).
  match goal with |- dev_desc base i ?M = _ /\ _ => assert (M = store 2 (base + 16 * i + 12) fl
    (store 2 (base + 16 * i + 14) (hd 0 rest) (store 4 (base + 16 * i + 8) l (store 8 (base + 16 * i) a m)))) as -> end.
  { destruct rest, w; cbv beta iota zeta; by rewrite !Hs by lia. }
  split.
  - unfold dev_desc, entry. fold fl. f_equal.
    + rewrite 3!load_store_ne by lia. by apply load_store_eq.
    + rewrite 2!load_store_ne by lia. by apply load_store_eq.
    + by apply load_store_eq.
    + rewrite load_store_ne by lia. by apply load_store_eq.
  - intros x Hx. unfold store. rewrite !byte_store, !length_le.
    repeat match goal with |- context [(?u <=? x) && (x <? ?v)] => replace ((u <=? x) && (x <? v)) with false by (symmetry; apply andb_false_iff; rewrite Z.leb_gt, Z.ltb_ge; lia) end.
    done.
Qed.

Lemma write_chain_spec base q ds : forall bs m, layout hhdm base q -> NoDup ds -> Forall (fun d => 0 <= d < 128) ds ->
  Forall buffer_ok bs -> length ds = length bs -> exists m', write_chain hhdm q ds bs m = Some m' /\
  chain_ok base m' ds bs /\
  forall x, (forall d, d ∈ ds -> ~ (base + 16 * d <= x < base + 16 * d + 16)) -> byte m' x = byte m x.
Proof.
  induction ds as [|d ds IH]; intros [|b bs] m L Hnd Hds Hbs Hlen; try done; cbn [write_chain]; [by exists m|].
  inversion_clear Hnd as [|? ? Hd Hnd']. inversion_clear Hds as [|? ? Hdr Hds']. inversion_clear Hbs as [|? ? Hb Hbs'].
  unfold QUEUE_SIZE. rewrite (proj2 (Z.ltb_lt _ _)) by lia.
  destruct (write_desc_spec base q d b ds m L Hdr Hb) as [He Hout].
  { eapply Forall_impl; [exact Hds'|]. cbn. unfold in_width. lia. }
  destruct (IH bs (write_desc hhdm q d b ds m) L) as (m' & -> & Hc & Hx); [done..|by injection Hlen|].
  exists m'. split; [done|]. split; [split; [|done]|].
  - rewrite <- He. apply dev_desc_ext. intros x Hr. apply Hx. intros d' Hd' Hr'.
    assert (d = d') as <- by lia. done.
  - intros x H. rewrite Hx; [|intros d' Hd'; apply H; by right]. apply Hout. apply H. by left.
Qed.

(** [free_chain] gives back the descriptors of the chain. *)
Lemma free_chain_spec base m ds : forall d bs q fuel, layout hhdm base q -> queue_wf q ->
  Forall (fun d => 0 <= d < queue_size q) (d :: ds) -> chain_ok base m (d :: ds) bs -> (length ds < fuel)%nat ->
  free_chain hhdm fuel d m q = (Ok tt, set_free (mark true (reverse (d :: ds)) (free_descs q)) q).
Proof.
  induction ds as [|d' ds IH]; intros d bs q [|fuel] L W Hds Hc Hf; try lia; cbn [free_chain];
    inversion_clear Hds as [|? ? Hd Hds']; destruct W as [Hqs Hql]; unfold QUEUE_SIZE in *;
    rewrite (proj2 (Z.ltb_lt d 128)) by lia.
  all: assert (read_desc hhdm q d m = dev_desc base d m) as ->
    by (unfold read_desc, vload, dev_desc; rewrite (phys_desc_at_0 hhdm base), !(phys_desc_at hhdm base) by (done || lia); done).
  all: destruct bs as [|b bs]; [done|]; destruct Hc as [-> Hc].
  all: assert (free_desc d q = set_free (<[Z.to_nat d := true]> (free_descs q)) q) as Efd
    by (unfold free_desc; rewrite (proj2 (Z.ltb_lt _ _)) by lia; done); rewrite Efd.
  - destruct bs; [|done]. destruct (entry_spec b []) as (_ & _ & _ & -> & _). done.
  - destruct (entry_spec b (d' :: ds)) as (_ & _ & _ & -> & ->). cbn [hd].
    change (bool_decide (d' :: ds = [])) with false. cbn [negb].
    rewrite (IH d' bs); [|by destruct L|apply set_free_wf; [done|apply length_insert]|done|done|cbn in Hf; lia].
    by rewrite (mark_reverse_cons true d).
Qed.

Lemma publish_spec base q head m : layout hhdm base q -> in_width 16 head -> in_width 16 (dev_avail_idx (avail_phys q) m) ->
  let '(q', m') := publish hhdm head q m in
  q' = set_next_avail (next_avail_idx q +[16] 1) q /\
  dev_head 128 (avail_phys q) (next_avail_idx q) m' = head /\
  dev_avail_idx (avail_phys q) m' = dev_avail_idx (avail_phys q) m +[16] 1 /\
  forall x, ~ (avail_phys q + 2 <= x < avail_phys q + 260) -> byte m' x = byte m x.
Proof.
  intros L Hh Hi. unfold publish, vload, vstore, avail_slot, QUEUE_SIZE, dev_head, dev_avail_idx.
  pose proof (Z.mod_pos_bound (next_avail_idx q) 128). set (k := next_avail_idx q mod 128) in *.
  rewrite !(phys_avail hhdm base) by (done || lia). cbv zeta. rewrite (load_store_ne 2 2 (avail_phys q + 2) (avail_phys q + (4 + 2 * k))) by lia.
  split; [done|]. split; [|split].
  - rewrite load_store_ne by lia. rewrite Z.add_assoc. by apply load_store_eq.
  - apply load_store_eq. by apply wrap_in_width.
  - intros x Hx. unfold store. rewrite !byte_store, !length_le.
    repeat match goal with |- context [(?u <=? x) && (x <? ?v)] => replace ((u <=? x) && (x <? v)) with false by (symmetry; apply andb_false_iff; rewrite Z.leb_gt, Z.ltb_ge; lia) end.
    done.
Qed.
End Chain.

(** ** The operations *)

Lemma buffers_valid bs : existsb (fun '(addr, len, _) => (len =? 0) || (addr =? 0)) bs = false <->
  Forall (fun b : Buffer => b.1.1 <> 0 /\ b.1.2 <> 0) bs.
Proof.
  induction bs as [|[[a l] w] bs IH]; cbn [existsb]; [by split|]. rewrite Forall_cons, <- IH, !orb_false_iff, !Z.eqb_neq. cbn. tauto.
Qed.

(** No [n] different descriptors are free. *)
Definition fewer_free (q : Virtqueue) (n : nat) : Prop :=
  forall l, NoDup l -> Forall (is_free q) l -> (length l < n)%nat.

Lemma free_nonneg q l : Forall (is_free q) l ->
  Forall (fun i => 0 <= i /\ free_descs q !! Z.to_nat i = Some true) (reverse l) /\ Forall (fun i => 0 <= i < queue_size q) l.
Proof.
  intros H. split; [apply Forall_reverse|]; (eapply Forall_impl; [exact H|]); intros x [? ?]; [split; [lia|done]|done].
Qed.

Lemma add_buf_spec hhdm base q m head bs : layout hhdm base q -> queue_wf q ->
  0 <= head < queue_size q -> ~ is_free q head -> Forall buffer_ok bs -> in_width 16 (dev_avail_idx (avail_phys q) m) ->
  match add_buf hhdm head bs (q, m) with
  | (Ok _, (q', m')) => exists rest,
      length (head :: rest) = length bs /\ NoDup (head :: rest) /\ Forall (is_free q) rest /\
      q' = set_next_avail (next_avail_idx q +[16] 1) (set_free (mark false (reverse rest) (free_descs q)) q) /\
      chain_ok base m' (head :: rest) bs /\
      dev_head 128 (avail_phys q) (next_avail_idx q) m' = head /\
      dev_avail_idx (avail_phys q) m' = dev_avail_idx (avail_phys q) m +[16] 1 /\
      Forall (fun b : Buffer => b.1.1 <> 0 /\ b.1.2 <> 0) bs /\
      forall x, ~ (base <= x < avail_phys q + 260) -> byte m' x = byte m x
  | (Err e, (q', m')) => q' = q /\ m' = m /\
      (bs = [] /\ e = Error "Empty buffer list"%string \/
       ~ Forall (fun b : Buffer => b.1.1 <> 0 /\ b.1.2 <> 0) bs /\ e = Error "Invalid buffer"%string \/
       fewer_free q (length bs - 1) /\ e = Error "Out of descriptors"%string)
  end.
Proof.
  intros L W Hh Hnf Hbs Hi. unfold add_buf. destruct (bool_decide_reflect (bs = [])) as [->|Hne]; [naive_solver|].
  match goal with |- context [existsb ?f bs] => destruct (existsb f bs) eqn:Hv end.
  { split; [done|]. split; [done|]. right; left. split; [|done]. intros ?%buffers_valid. congruence. }
  pose proof (size_bounds _ (lay_size _ _ _ L)) as [Hqs _].
  pose proof (push_descs_spec (length bs - 1) [head] q W) as Hp. destruct (push_descs _ _ q) as [[ds|e] q1].
  - destruct Hp as (rest & -> & Hlen & Hnd & Hfree & ->); [done|constructor|].
    assert (layout hhdm base (set_free (mark false (reverse rest) (free_descs q)) q)) as L1 by (by destruct L).
    assert (length (head :: rest) = length bs) as Hl by (destruct bs; [done|]; cbn in *; lia).
    assert (NoDup (head :: rest)) as Hnd'.
    { constructor; [|done]. intros Hin. rewrite Forall_forall in Hfree. by apply Hnf, Hfree. }
    assert (Forall (fun d => 0 <= d < queue_size q) (head :: rest)) as Hr by (constructor; [done|by apply free_nonneg]).
    destruct (write_chain_spec hhdm base _ (head :: rest) bs m L1 Hnd') as (m1 & E & Hc & Hout); [|done|done|].
    { eapply Forall_impl; [exact Hr|]. cbn. lia. }
    change ([head] ++ rest) with (head :: rest). rewrite E. set (q1 := set_free _ q) in *.
    assert (forall x, base + 16 * queue_size q <= x -> byte m1 x = byte m x) as Hge.
    { intros x Hx. apply Hout. intros d Hd. rewrite Forall_forall in Hr. specialize (Hr _ Hd). cbn in Hr. lia. }
    pose proof (lay_avail _ _ _ L) as [_ Ha].
    assert (dev_avail_idx (avail_phys q1) m1 = dev_avail_idx (avail_phys q) m) as Hidx.
    { unfold dev_avail_idx. apply load_ext. intros x Hx. change (avail_phys q1) with (avail_phys q) in Hx. apply Hge. lia. }
    pose proof (publish_spec hhdm base q1 head m1 L1) as Hpub. destruct (publish hhdm head q1 m1) as [q2 m2].
    destruct Hpub as (-> & Hd & Hx & Hby); [unfold in_width; lia|by rewrite Hidx|]. change (avail_phys q1) with (avail_phys q) in *.
    exists rest. split; [done|]. split; [done|]. split; [done|]. split; [done|]. split; [|split; [done|split; [congruence|split; [by apply buffers_valid|]]]].
    + apply (chain_ok_ext base m1); [|done]. intros d x Hd' Hx'. apply Hby. rewrite Forall_forall in Hr. specialize (Hr _ Hd'). cbn in Hr. lia.
    + intros x Hx'. rewrite Hby by lia. apply Hout. intros d Hd'. rewrite Forall_forall in Hr. specialize (Hr _ Hd'). cbn in Hr. lia.
  - destruct Hp as (-> & new & Hlen & Hnd & Hfree & Hall & ->); [done|constructor|]. cbn [tail app].
    rewrite mark_undo; [|by apply free_nonneg|done]. rewrite set_free_id. split; [done|]. split; [done|]. right; right. split; [|done].
    intros l Hl1 Hl2. enough (length l <= length new)%nat by lia. apply submseteq_length, NoDup_submseteq; [done|].
    intros x Hx. apply Hall. rewrite Forall_forall in Hl2. by apply Hl2.
Qed.

(** What [add_buf] stores are bytes. *)
Lemma write_chain_mem_ok hhdm q ds : forall bs m m', mem_ok m -> write_chain hhdm q ds bs m = Some m' -> mem_ok m'.
Proof.
  induction ds as [|d ds IH]; intros [|[[a l] w] bs] m m' Hm; cbn [write_chain]; try (by intros [= <-]).
  destruct (d <? QUEUE_SIZE); [|done]. apply IH. unfold write_desc, vstore.
  destruct ds; repeat apply store_ok; done.
Qed.

Lemma add_buf_mem_ok hhdm head bs q m : mem_ok m -> mem_ok (add_buf hhdm head bs (q, m)).2.2.
Proof.
  intros Hm. unfold add_buf. destruct (bool_decide _); [done|]. destruct (existsb _ _); [done|].
  destruct (push_descs _ _ _) as [[ds|e] q1]; [|done]. destruct (write_chain _ _ _ _ _) as [m1|] eqn:E; [|done].
  unfold publish, vstore. cbn [fst snd]. apply store_ok, store_ok. by apply (write_chain_mem_ok _ _ _ _ _ _ Hm E).
Qed.

(** [add_buf] either publishes the chain, or changes nothing: on success the
    device, following the table from the head it finds in the next slot of the
    available ring, reads exactly the buffers of the call, the descriptors used
    were free and are different, and only the queue's page has changed; it fails
    only for an empty list, for a buffer without address or length, or when not
    enough descriptors are free, and then gives back those it had taken. *)
Theorem add_buf_correct hhdm base q m head bs : layout hhdm base q -> queue_wf q ->
  0 <= head < queue_size q -> ~ is_free q head -> Forall buffer_ok bs -> in_width 16 (dev_avail_idx (avail_phys q) m) ->
  match add_buf hhdm head bs (q, m) with
  | (Ok _, (q', m')) =>
      dev_chain 128 (desc_phys q) (dev_head 128 (avail_phys q) (next_avail_idx q) m') m' = bs /\
      dev_avail_idx (avail_phys q) m' = dev_avail_idx (avail_phys q) m +[16] 1 /\
      next_avail_idx q' = next_avail_idx q +[16] 1 /\
      (forall x, ~ (base <= x < base + PAGE_SIZE) -> byte m' x = byte m x) /\
      exists rest, length rest = (length bs - 1)%nat /\ NoDup (head :: rest) /\ Forall (is_free q) rest /\
        forall i, is_free q' i <-> is_free q i /\ i ∉ rest
  | (Err e, (q', m')) => q' = q /\ m' = m /\
      (bs = [] /\ e = Error "Empty buffer list"%string \/
       ~ Forall (fun b : Buffer => b.1.1 <> 0 /\ b.1.2 <> 0) bs /\ e = Error "Invalid buffer"%string \/
       fewer_free q (length bs - 1) /\ e = Error "Out of descriptors"%string)
  end.
Proof.
  intros L W Hh Hnf Hbs Hi. pose proof (add_buf_spec hhdm base q m head bs L W Hh Hnf Hbs Hi) as H.
  destruct (add_buf hhdm head bs (q, m)) as [[[]|e] [q' m']]; [|done].
  destruct H as (rest & Hlen & Hnd & Hfree & -> & Hc & Hd & Hx & _ & Hout).
  pose proof (size_bounds _ (lay_size _ _ _ L)) as (? & ? & _). pose proof (lay_avail _ _ _ L) as [_ Ha].
  destruct (free_nonneg _ _ Hfree) as [Hf1 Hf2].
  split; [|split; [done|split; [done|split]]].
  - rewrite Hd, (proj2 (lay_desc _ _ _ L)). apply (chain_read _ _ rest); [done|]. rewrite <- Hlen.
    transitivity (length (seqZ 0 128)); [|by rewrite length_seqZ].
    apply submseteq_length, NoDup_submseteq; [done|]. intros i Hi'. apply elem_of_seqZ.
    apply elem_of_cons in Hi' as [->|Hi']; [lia|]. rewrite Forall_forall in Hf2. specialize (Hf2 _ Hi'). cbn in Hf2. lia.
  - intros x Hx'. apply Hout. unfold PAGE_SIZE in Hx'. lia.
  - exists rest. split; [cbn in Hlen; lia|]. split; [done|]. split; [done|]. intros i. unfold is_free. cbn.
    destruct (decide (0 <= i < queue_size q)) as [Hr|]; [|naive_solver].
    rewrite lookup_mark; [|rewrite (qw_len _ W); unfold QUEUE_SIZE; lia|apply Forall_reverse; eapply Forall_impl; [exact Hf2|cbn; lia]].
    rewrite Z2Nat.id by lia. destruct (decide (i ∈ reverse rest)) as [Hin|Hin]; rewrite elem_of_reverse in Hin; naive_solver.
Qed.

Lemma range_length l : NoDup l -> Forall (fun i => 0 <= i < 128) l -> (length l <= 128)%nat.
Proof.
  intros Hnd H. transitivity (length (seqZ 0 128)); [|by rewrite length_seqZ].
  apply submseteq_length, NoDup_submseteq; [done|]. intros i Hi. apply elem_of_seqZ.
  rewrite Forall_forall in H. specialize (H _ Hi). cbn in H. lia.
Qed.

Lemma get_used_spec hhdm base q m head rest bs : layout hhdm base q -> queue_wf q ->
  NoDup (head :: rest) -> Forall (fun d => 0 <= d < queue_size q) (head :: rest) -> chain_ok base m (head :: rest) bs ->
  load 2 (used_phys q + 2) m <> last_used_idx q ->
  load 4 (used_phys q + 4 + 8 * (last_used_idx q mod 128)) m = head ->
  get_used hhdm (q, m) =
    (Ok (Some (head, load 4 (used_phys q + 4 + 8 * (last_used_idx q mod 128) + 4) m)),
     (set_free (mark true (reverse (head :: rest)) (free_descs q)) (set_last_used (last_used_idx q +[16] 1) q), m)).
Proof.
  intros L W Hnd Hr Hc Hidx Hid. unfold get_used, vload, used_elem, QUEUE_SIZE.
  pose proof (Z.mod_pos_bound (last_used_idx q) 128 ltac:(lia)). set (k := last_used_idx q mod 128) in *.
  pose proof (size_bounds _ (lay_size _ _ _ L)) as (Hqs & _).
  rewrite wrap_add_l, <- Z.add_assoc. rewrite !(phys_used hhdm base) by (done || lia).
  destruct (Z.eqb_spec (last_used_idx q) (load 2 (used_phys q + 2) m)); [congruence|].
  replace (used_phys q + (4 + 8 * k)) with (used_phys q + 4 + 8 * k) by lia. rewrite Hid.
  assert (0 <= head < queue_size q) as Hh by (by inversion Hr).
  rewrite Z.mod_small by lia.
  rewrite (free_chain_spec hhdm base m rest head bs (set_last_used (last_used_idx q +[16] 1) q) 129); [|by destruct L|by destruct W|done|done|].
  - cbn [free_descs set_last_used]. by replace (used_phys q + (4 + 8 * k + 4)) with (used_phys q + 4 + 8 * k + 4) by lia.
  - assert (length (head :: rest) <= 128)%nat; [|cbn in *; lia]. apply range_length; [done|].
    eapply Forall_impl; [exact Hr|]. cbn. lia.
Qed.

Lemma mark_alloc_undo (head : Z) rest f : 0 <= head -> f !! Z.to_nat head = Some true ->
  Forall (fun i => 0 <= i /\ <[Z.to_nat head := false]> f !! Z.to_nat i = Some true) rest ->
  mark true (reverse (head :: rest)) (mark false (reverse rest) (<[Z.to_nat head := false]> f)) = f.
Proof.
  intros Hh Ef Hr. rewrite <- (mark_reverse_cons false). apply mark_undo; [|done]. apply Forall_reverse.
  constructor; [done|]. eapply Forall_impl; [exact Hr|]. intros x [Hx E]. split; [done|].
  by apply list_lookup_insert_Some in E as [(? & ? & ?)|[? ?]].
Qed.

(** A chain goes round: when the device has put the chain that [add_buf]
    published into the used ring - whatever it wrote elsewhere, as long as it left
    the table alone - [get_used] reports its head, and exactly the descriptors
    that were free before the chain was built are free again. *)
Theorem chain_roundtrip hhdm base q m head q1 bs q2 m2 m3 : layout hhdm base q -> queue_wf q ->
  alloc_desc q = (Some head, q1) -> Forall buffer_ok bs -> in_width 16 (dev_avail_idx (avail_phys q) m) ->
  add_buf hhdm head bs (q1, m) = (Ok tt, (q2, m2)) ->
  (forall x, base <= x < base + 16 * queue_size q -> byte m3 x = byte m2 x) ->
  load 2 (used_phys q + 2) m3 <> last_used_idx q ->
  load 4 (used_phys q + 4 + 8 * (last_used_idx q mod 128)) m3 = head ->
  exists q3 len, get_used hhdm (q2, m3) = (Ok (Some (head, len)), (q3, m3)) /\
    free_descs q3 = free_descs q /\ last_used_idx q3 = last_used_idx q +[16] 1.
Proof.
  intros L W Ha Hbs Hi Hadd Htab Hidx Hid. destruct (alloc_desc_some _ _ _ W Ha) as ([Hr Ef] & -> & W1).
  pose proof (size_bounds _ (lay_size _ _ _ L)) as (Hqs & _).
  set (q1 := set_free _ q) in *. assert (layout hhdm base q1) as L1 by (by destruct L).
  assert (~ is_free q1 head) as Hnf.
  { intros [_ E]. cbn in E. rewrite list_lookup_insert_eq in E; [done|]. by eapply lookup_lt_Some. }
  pose proof (add_buf_spec hhdm base q1 m head bs L1 W1 Hr Hnf Hbs Hi) as H. rewrite Hadd in H.
  destruct H as (rest & Hlen & Hnd & Hfree & -> & Hc & _). destruct (free_nonneg _ _ Hfree) as [Hf1 Hf2].
  assert (Forall (fun d => 0 <= d < queue_size q) (head :: rest)) as Hds by (by constructor).
  set (q2 := set_next_avail _ _). assert (layout hhdm base q2) as L2 by (by destruct L).
  assert (queue_wf q2) as W2 by (split; [done|]; cbn; rewrite length_mark; apply W1).
  eexists _, _. split; [apply (get_used_spec hhdm base q2 m3 head rest bs); try done|].
  - apply (chain_ok_ext base m2); [|done]. intros d x Hd Hx. apply Htab. rewrite Forall_forall in Hds. specialize (Hds _ Hd). cbn in Hds. lia.
  - split; [|done]. cbn [free_descs set_free set_last_used q2 set_next_avail q1]. apply mark_alloc_undo; [lia|done|].
    rewrite <- (reverse_involutive rest). by apply Forall_reverse.
Qed.

(** ** The loop of [get_used] *)

Section Walk.
Variables (hhdm : Z) (m : Mem) (q : Virtqueue).

(** The descriptor after [k] rounds. *)
Definition step_desc (d : Z) : Z := next (read_desc hhdm q d m).
Definition goes_on (d : Z) : Prop := d < QUEUE_SIZE /\ has_next (read_desc hhdm q d m) = true.

Lemma free_chain_goes_on fuel : forall d f, (free_chain hhdm fuel d m (set_free f q)).1 = Err Diverges <->
  forall k, (k < fuel)%nat -> goes_on (Nat.iter k step_desc d).
Proof.
  induction fuel as [|fuel IH]; intros d f; cbn [free_chain]; [split; [lia|done]|].
  change (read_desc hhdm (set_free f q) d m) with (read_desc hhdm q d m).
  assert (exists f', free_desc d (set_free f q) = set_free f' q) as [f' ->].
  { unfold free_desc. destruct (d <? _); by eexists. }
  destruct (Z.ltb_spec d QUEUE_SIZE) as [Hd|Hd].
  2:{ split; [done|]. intros H. destruct (H 0%nat); [lia|]. cbn in *. lia. }
  destruct (has_next (read_desc hhdm q d m)) eqn:E; cbn [negb].
  - rewrite (IH (step_desc d) f'). split; intros H k Hk.
    + destruct k as [|k]; [by split|]. rewrite Nat.iter_succ_r. apply H. lia.
    + rewrite <- Nat.iter_succ_r. apply H. lia.
  - split; [done|]. intros H. destruct (H 0%nat) as [_ H0]; [lia|]. cbn in H0. congruence.
Qed.

End Walk.

(** The loop of [get_used] is followed far enough: when 129 rounds do not end it,
    no number of rounds does - the descriptors of the chain form a cycle. *)
Theorem free_chain_fuel hhdm m q d : mem_ok m -> 0 <= d -> (free_chain hhdm 129 d m q).1 = Err Diverges ->
  forall fuel, (free_chain hhdm fuel d m q).1 = Err Diverges.
Proof.
  intros Hm Hd H fuel. rewrite <- (set_free_id q) in *. rewrite free_chain_goes_on in *. intros k _.
  set (f := fun k => Nat.iter k (step_desc hhdm m q) d) in *.
  destruct (pigeonhole f (seqZ 0 128)) as (i & j & Hij & E).
  { intros k' Hk'. rewrite length_seqZ in Hk'. apply elem_of_seqZ. destruct (H k') as [Hlt _]; [lia|]. change (f k' < 128) in Hlt. split; [|done].
    subst f. destruct k' as [|k']; [done|]. cbn. unfold step_desc at 1. cbn.
    apply (load_in_width 2 _ m Hm). }
  destruct (iter_periodic (step_desc hhdm m q) d i j) with (k := k) as (k' & Hk' & ->); [lia|done|]. apply H.
  rewrite length_seqZ in Hij. lia.
Qed.

(** ** Setting up *)

Lemma load_zero n a m : (forall x, a <= x < a + Z.of_nat n -> byte m x = 0) -> load n a m = 0.
Proof.
  unfold load. revert a. induction n as [|n IH]; intros a H; [done|]. cbn [load_bytes unle]. rewrite H by lia.
  rewrite IH; [lia|]. intros. apply H. lia.
Qed.

Lemma byte_zero hhdm v n m x : byte (zero hhdm v n m) x =
  if (phys hhdm v <=? x) && (x <? phys hhdm v + Z.of_nat n) then 0 else byte m x.
Proof.
  unfold zero. rewrite byte_store, length_replicate. destruct (_ && _) eqn:E; [|done].
  apply andb_true_iff in E as [? ?]. rewrite lookup_replicate_2 by lia. done.
Qed.

Definition region (a n : Z) (x : Z) : bool := (a <=? x) && (x <? a + n).

Lemma region_in a n x : a <= x < a + n -> region a n x = true.
Proof. intros. unfold region. apply andb_true_iff. lia. Qed.
Lemma region_out a n x : ~ (a <= x < a + n) -> region a n x = false.
Proof. intros. unfold region. apply andb_false_iff. lia. Qed.

(** The memory that [Virtqueue_new] leaves. *)
Lemma new_memory hhdm base qs m q m' : 0 <= base < 2 ^ 52 -> base mod PAGE_SIZE = 0 ->
  Virtqueue_new hhdm (base +[64] hhdm) base qs m = (Ok q, m') ->
  forall x, byte m' x =
    if region (avail_phys q) 2 x then byte m' x
    else if region base 2048 x || region (avail_phys q) 262 x || region (used_phys q) 1032 x then 0 else byte m x.
Proof.
  intros Hb Hm E. destruct (new_layout hhdm base qs m q m' Hb Hm E) as (L & Hqs & _). revert E. unfold Virtqueue_new, size_requirements.
  destruct (negb _ || _); [done|]. destruct (PAGE_SIZE <? _); [done|]. intros [= Eq <-] x.
  assert (forall k, 0 <= k < 262 -> phys hhdm (avail q +[64] k) = avail_phys q + k) as Ha by (intros; by apply (phys_avail hhdm base)).
  assert (forall k, 0 <= k < 1032 -> phys hhdm (used q +[64] k) = used_phys q + k) as Hu by (intros; by apply (phys_used hhdm base)).
  assert (forall k, 0 <= k < PAGE_SIZE -> phys hhdm (desc q +[64] k) = base + k) as Hd by (intros; by apply (phys_desc hhdm base)).
  specialize (Ha 0 ltac:(lia)). specialize (Hu 0 ltac:(lia)). specialize (Hd 0 ltac:(unfold PAGE_SIZE; lia)).
  assert (forall v y, phys hhdm (v +[64] 0) = y + 0 -> phys hhdm v = y) as Hz.
  { intros v y. unfold phys, wrap. rewrite <- Zminus_mod_idemp_l, Z.mod_mod, Zminus_mod_idemp_l, !Z.add_0_r by lia. done. }
  apply Hz in Ha, Hu, Hd. subst q. cbn [avail used desc avail_phys used_phys] in *.
  unfold vstore, store. rewrite byte_store, length_le, !byte_zero, Ha, Hu, Hd.
  unfold region.
  change (Z.of_nat 2) with 2. change (Z.of_nat SIZEOF_desc_table) with 2048.
  change (Z.of_nat SIZEOF_VirtqAvail) with 262. change (Z.of_nat SIZEOF_VirtqUsed) with 1032.
  repeat match goal with |- context [(?u <=? x) && ?v] => destruct ((u <=? x) && v); try done end.
Qed.

Lemma new_empty hhdm base qs m q m' : 0 <= base < 2 ^ 52 -> base mod PAGE_SIZE = 0 ->
  Virtqueue_new hhdm (base +[64] hhdm) base qs m = (Ok q, m') ->
  dev_avail_idx (avail_phys q) m' = 0 /\ load 2 (used_phys q + 2) m' = 0.
Proof.
  intros Hb Hm E. pose proof (new_memory hhdm base qs m q m' Hb Hm E) as Hby.
  destruct (new_layout hhdm base qs m q m' Hb Hm E) as (L & _).
  pose proof (size_bounds _ (lay_size _ _ _ L)) as (Hqs & Hal & _).
  pose proof (lay_avail _ _ _ L) as [_ Ha]. pose proof (lay_used _ _ _ L) as [_ Hu].
  split; apply load_zero; intros x Hx; rewrite Hby, (region_out (avail_phys q) 2) by lia.
  - rewrite (region_in (avail_phys q) 262) by lia. by rewrite orb_true_r.
  - rewrite (region_in (used_phys q) 1032) by lia. by rewrite orb_true_r.
Qed.

(** C34: A queue is accepted exactly when its size is a power of two up to 128.
    Everything that the driver ever addresses in it, and everything it clears,
    lies in the queue's page; the three parts that the device knows of do not
    overlap and are aligned as it requires. *)
Theorem queue_in_page hhdm base qs m r m' : 0 <= base < 2 ^ 52 -> base mod PAGE_SIZE = 0 ->
  Virtqueue_new hhdm (base +[64] hhdm) base qs m = (r, m') ->
  let in_page a n := base <= a /\ a + n <= base + PAGE_SIZE in
  (is_ok r = true <-> is_power_of_two qs = true /\ qs <= 128) /\
  (forall x, ~ in_page x 1 -> byte m' x = byte m x) /\
  forall q, r = Ok q ->
    (forall i, 0 <= i < 128 -> in_page (phys hhdm (desc_at q i)) 16) /\
    (forall k, in_page (phys hhdm (avail_slot q k)) 2 /\ in_page (phys hhdm (used_elem q k)) 8) /\
    (desc_phys q + 16 * qs <= avail_phys q /\ avail_phys q + 6 + 2 * qs <= used_phys q /\
     in_page (used_phys q) (6 + 8 * qs)) /\
    desc_phys q mod 16 = 0 /\ avail_phys q mod 2 = 0 /\ used_phys q mod 4 = 0.
Proof.
  intros Hb Hm E in_page.
  assert (forall q, r = Ok q -> Virtqueue_new hhdm (base +[64] hhdm) base qs m = (Ok q, m')) as HE by (by intros q <-).
  split; [|split].
  - clear HE. revert E. unfold Virtqueue_new, size_requirements. destruct (is_power_of_two qs) eqn:Hp; cbn [negb orb]; [|intros [= <- <-]; naive_solver].
    destruct (Z.ltb_spec QUEUE_SIZE qs) as [Hq|Hq]; unfold QUEUE_SIZE in Hq; [intros [= <- <-]; cbn; naive_solver lia|].
    pose proof (size_bounds _ (powers_of_two qs Hp Hq)) as (? & ? & ?).
    replace (16 * qs + (6 + 2 * qs)) with (18 * qs + 6) by lia.
    destruct (Z.ltb_spec PAGE_SIZE (align_up (18 * qs + 6) 4 + 6 + 8 * qs)); [unfold PAGE_SIZE in *; lia|].
    intros [= <- _]. cbn. naive_solver.
  - intros x Hx. destruct r as [q|e].
    + specialize (HE q eq_refl). destruct (new_layout hhdm base qs m q m' Hb Hm HE) as (L & _).
      pose proof (size_bounds _ (lay_size _ _ _ L)) as (Hqs & Hal & _).
      pose proof (lay_avail _ _ _ L) as [_ Ha]. pose proof (lay_used _ _ _ L) as [_ Hu].
      unfold in_page, PAGE_SIZE in Hx. rewrite (new_memory hhdm base qs m q m' Hb Hm HE), !region_out by lia. done.
    + clear HE. revert E. unfold Virtqueue_new. destruct (negb _ || _); [by intros [= <- <-]|].
      destruct (size_requirements qs) as [[? ?] ?]. destruct (_ <? _); [by intros [= <- <-]|done].
  - intros q ->. destruct (new_layout hhdm base qs m q m' Hb Hm E) as (L & <- & _).
    pose proof (size_bounds _ (lay_size _ _ _ L)) as (Hqs & Hal & Hal4).
    pose proof (lay_avail _ _ _ L) as [_ Ha]. pose proof (lay_used _ _ _ L) as [_ Hu]. pose proof (lay_desc _ _ _ L) as [_ Hd].
    unfold in_page, PAGE_SIZE in *. split; [|split; [|split; [lia|]]].
    + intros i Hi. rewrite (phys_desc_at_0 hhdm base) by done. lia.
    + intros k. unfold avail_slot, used_elem, QUEUE_SIZE. pose proof (Z.mod_pos_bound k 128 ltac:(lia)).
      rewrite (phys_avail hhdm base), (phys_used hhdm base) by (done || lia). lia.
    + rewrite Hd, Ha, Hu. set (U := align_up _ 4) in *. apply Z.mod_divide in Hm as [c ->]; [|done].
      apply Z.mod_divide in Hal4 as [u Hu4]; [|done]. rewrite Hu4.
      split; [|split]; apply Z.mod_divide; try done; [exists (256 * c)|exists (2048 * c + 8 * queue_size q)|exists (1024 * c + u)]; lia.
Qed.

(** A queue smaller than 128 is addressed with 128-entry rings: entry
    [queue_size + 3] of the available ring is the index of the used ring.  When
    the driver publishes that chain it overwrites the count of finished requests
    with the head it publishes. *)
Theorem small_queue_corrupts_used_ring hhdm base q head m : layout hhdm base q -> queue_size q ∈ [2; 4; 8; 16; 32; 64] ->
  in_width 16 head -> next_avail_idx q mod 128 = queue_size q + 3 ->
  load 2 (used_phys q + 2) (publish hhdm head q m).2 = head.
Proof.
  intros L Hq Hh Hk. unfold publish, vload, vstore, avail_slot, QUEUE_SIZE. rewrite Hk. cbn [snd].
  pose proof (size_bounds _ (lay_size _ _ _ L)) as (Hqs & Hal & _).
  assert (queue_size q <= 64) as H64.
  { clear -Hq. repeat (apply elem_of_cons in Hq as [->|Hq]; [lia|]). by apply elem_of_nil in Hq. }
  assert (used_phys q = avail_phys q + (4 + 2 * (queue_size q + 3)) - 2) as E.
  { rewrite (proj2 (lay_used _ _ _ L)), (proj2 (lay_avail _ _ _ L)).
    enough (align_up (18 * queue_size q + 6) 4 = 18 * queue_size q + 8) as -> by lia.
    clear -Hq. repeat (apply elem_of_cons in Hq as [->|Hq]; [reflexivity|]). by apply elem_of_nil in Hq. }
  rewrite !(phys_avail hhdm base) by (done || lia). rewrite E. rewrite load_store_ne by lia.
  replace (avail_phys q + (4 + 2 * (queue_size q + 3)) - 2 + 2) with (avail_phys q + (4 + 2 * (queue_size q + 3))) by lia.
  by apply load_store_eq.
Qed.

(** ** Examples *)

Definition demo_hhdm : Z := 0xFFFF800000000000.
Definition demo_base : Z := 0x100000.

Definition demo_new (qs : Z) : Result Virtqueue string * Mem := Virtqueue_new demo_hhdm (demo_base +[64] demo_hhdm) demo_base qs ∅.
Definition demo_queue : Virtqueue :=
  mkQueue 128 0xFFFF800000100000 0xFFFF800000100800 0xFFFF800000100908 (replicate 128 true) 0 0 0x100000 0x100800 0x100908.
Definition demo_mem : Mem := (demo_new 128).2.
Definition demo_chain : list Buffer := [(0x200000, 16, false); (0x201000, 512, true); (0x202000, 1, true)].

Lemma demo_new_ok : demo_new 128 = (Ok demo_queue, demo_mem).
Proof.
  assert ((demo_new 128).1 = Ok demo_queue) as H by (vm_compute; reflexivity).
  unfold demo_mem. destruct (demo_new 128). cbn in *. by subst.
Qed.

Lemma demo_layout : layout demo_hhdm demo_base demo_queue /\ queue_wf demo_queue.
Proof.
  destruct (new_layout demo_hhdm demo_base 128 ∅ demo_queue demo_mem) as (L & Hq & Hl);
    [unfold demo_base; lia|reflexivity|exact demo_new_ok|]. split; [done|]. split; [rewrite Hq; unfold QUEUE_SIZE; lia|done].
Qed.

(** The queue after its first descriptor was taken, and a cycle of one descriptor. *)
Definition demo_taken : Virtqueue := set_free (<[0%nat := false]> (free_descs demo_queue)) demo_queue.
Definition demo_cycle : Mem := store 2 (demo_base + 12) 1 (store 2 (demo_base + 14) 0 ∅).

Lemma demo_taken_ok : layout demo_hhdm demo_base demo_taken /\ queue_wf demo_taken /\ ~ is_free demo_taken 0 /\
  alloc_desc demo_queue = (Some 0, demo_taken) /\ dev_avail_idx (avail_phys demo_queue) demo_mem = 0.
Proof.
  destruct demo_layout as [L W].
  destruct (new_empty demo_hhdm demo_base 128 ∅ demo_queue demo_mem) as [Hi _]; [unfold demo_base; lia|reflexivity|exact demo_new_ok|].
  assert (free_descs demo_queue = replicate 128 true) as E by (vm_compute; reflexivity).
  assert (queue_size demo_queue = 128) as Eq by (vm_compute; reflexivity).
  split; [destruct L; constructor; assumption|]. split; [apply set_free_wf; [assumption|apply length_insert]|]. split; [|split; [|assumption]].
  - intros [_ H]. unfold demo_taken in H. rewrite E in H. discriminate H.
  - unfold alloc_desc. by rewrite E, Eq.
Qed.

Lemma demo_buffers_ok : Forall buffer_ok demo_chain.
Proof. repeat constructor; done. Qed.

Lemma demo_add_ok : is_ok (add_buf demo_hhdm 0 demo_chain (demo_taken, demo_mem)).1 = true.
Proof. vm_compute. reflexivity. Qed.

Lemma add_buf_correct_witness : exists q' m', add_buf demo_hhdm 0 demo_chain (demo_taken, demo_mem) = (Ok tt, (q', m')) /\
  dev_chain 128 demo_base (dev_head 128 (avail_phys demo_taken) 0 m') m' = demo_chain.
Proof.
  destruct demo_taken_ok as (L & W & Hf & _ & Hi). pose proof demo_add_ok as Hok.
  pose proof (add_buf_correct demo_hhdm demo_base demo_taken demo_mem 0 demo_chain L W) as H.
  destruct (add_buf demo_hhdm 0 demo_chain (demo_taken, demo_mem)) as [[[]|e] [q' m']]; [|discriminate Hok].
  exists q', m'. split; [reflexivity|]. apply H; [vm_compute; split; [discriminate|reflexivity]|exact Hf|exact demo_buffers_ok|].
  change (avail_phys demo_taken) with (avail_phys demo_queue). rewrite Hi. split; [discriminate|reflexivity].
Defined.

(** The device finishes the chain: head 0, one byte written, one request done. *)
Definition demo_finish (m : Mem) : Mem :=
  store 4 (used_phys demo_queue + 4) 0 (store 4 (used_phys demo_queue + 8) 513 (store 2 (used_phys demo_queue + 2) 1 m)).

Lemma chain_roundtrip_witness : exists q2 m2 q3 len,
  add_buf demo_hhdm 0 demo_chain (demo_taken, demo_mem) = (Ok tt, (q2, m2)) /\
  get_used demo_hhdm (q2, demo_finish m2) = (Ok (Some (0, len)), (q3, demo_finish m2)) /\
  free_descs q3 = free_descs demo_queue.
Proof.
  destruct demo_taken_ok as (L & W & Hf & Ha & Hi). pose proof demo_add_ok as Hok.
  destruct (add_buf demo_hhdm 0 demo_chain (demo_taken, demo_mem)) as [[[]|e] [q2 m2]] eqn:E; [|discriminate Hok].
  destruct demo_layout as [L0 W0].
  assert (used_phys demo_queue = demo_base + 2312) as Hu by (vm_compute; reflexivity).
  assert (last_used_idx demo_queue = 0) as Hl by (vm_compute; reflexivity).
  assert (queue_size demo_queue = 128) as Hq by (vm_compute; reflexivity).
  destruct (chain_roundtrip demo_hhdm demo_base demo_queue demo_mem 0 demo_taken demo_chain q2 m2 (demo_finish m2) L0 W0 Ha) as (q3 & len & H1 & H2 & _).
  - exact demo_buffers_ok.
  - rewrite Hi. split; [discriminate|reflexivity].
  - exact E.
  - intros x Hx. unfold demo_finish, store. rewrite !byte_store, !length_le, Hu. rewrite Hq in Hx. unfold demo_base in *.
    repeat match goal with |- context [(?u <=? x) && ?v] => replace ((u <=? x) && v) with false by (symmetry; apply andb_false_iff; rewrite Z.leb_gt, Z.ltb_ge; lia) end.
    reflexivity.
  - rewrite Hl. unfold demo_finish. rewrite !(load_store_ne 2 4), load_store_eq by (try split; lia). discriminate.
  - rewrite Hl. unfold demo_finish. rewrite Z.mod_0_l, Z.mul_0_r, Z.add_0_r by lia. apply load_store_eq. split; [discriminate|reflexivity].
  - exists q2, m2, q3, len. split; [reflexivity|]. split; [exact H1|exact H2].
Defined.

Lemma free_chain_fuel_witness : (free_chain demo_hhdm 1000 0 demo_cycle demo_queue).1 = Err Diverges.
Proof.
  apply free_chain_fuel; [|discriminate|vm_compute; reflexivity].
  apply store_ok, store_ok. intros a. unfold byte. rewrite lookup_empty. split; [discriminate|reflexivity].
Defined.

Lemma queue_in_page_witness : is_ok (demo_new 128).1 = true /\
  demo_base <= phys demo_hhdm (avail_slot demo_queue 1000) /\ used_phys demo_queue mod 4 = 0.
Proof.
  pose proof demo_new_ok as E.
  destruct (queue_in_page demo_hhdm demo_base 128 ∅ (Ok demo_queue) demo_mem) as (H1 & _ & H2);
    [unfold demo_base; lia|reflexivity|exact E|].
  split; [by rewrite E|]. destruct (H2 demo_queue eq_refl) as (_ & Ha & _ & _ & _ & Hu). split; [apply Ha|exact Hu].
Defined.
