(* ===== verification/VirtioBlk.v ===== *)
(** * The virtio disk driver ([drivers/virtio/block.rs], [mod.rs])

    One request at a time: three frames for header, data and status, a chain of
    three descriptors, and a loop that polls until the device has answered or five
    seconds have passed.  The device is a parameter: what it does to memory
    between two polls ([dev_run]) and the tick counter it lets the driver see.
    [VirtioBlkLaws] is all that is asked of it: any status and any delay are allowed.
    The main theorem: over a queue of 128 entries and any frame pool the driver acts as
    a disk whose operations can fail, up to the first timeout. *)

From Stdlib Require Import ZArith Lia Bool.
From stdpp Require Import base numbers option list gmap sets strings.
From S2P Require Import Prelude Bytes Frame BlockDevice Virtqueue.

Open Scope Z_scope.

Definition VIRTIO_BLK_T_IN : Z := 0.
Definition VIRTIO_BLK_T_OUT : Z := 1.
Definition VIRTIO_BLK_S_OK : Z := 0.
Definition VIRTIO_BLK_S_IOERR : Z := 1.
Definition VIRTIO_BLK_S_UNSUPP : Z := 2.

(** ** The device as the driver meets it *)

Class VirtioDevice (D : Type) : Type := {
  dev_notify : D -> D;                 (* the write to the notification register *)
  dev_run : D -> Mem -> D * Mem;       (* what the device does until the next poll *)
  dev_clock : D -> Z;                  (* the tick counter, as [get_timestamp] reads it *)
}.

(** ** The driver *)

Record VirtioBlkReq : Type := mkReq { req_type : Z; reserved : Z; req_sector : Z }.
Definition new_read (sector : Z) : VirtioBlkReq := mkReq VIRTIO_BLK_T_IN 0 sector.
Definition new_write (sector : Z) : VirtioBlkReq := mkReq VIRTIO_BLK_T_OUT 0 sector.

Record VirtioBlockDevice : Type := mkBlk {
  queue : Virtqueue;
  queue_notify_off : Z;
  capacity : Z;
  initialized : bool
}.

Definition set_queue (q : Virtqueue) (b : VirtioBlockDevice) : VirtioBlockDevice :=
  mkBlk q (queue_notify_off b) (capacity b) (initialized b).

(** The driver with what it works on: memory, the frame pool, the device. *)
Record Disk (S D : Type) : Type := mkDisk { blk : VirtioBlockDevice; mem : Mem; frames : S; dev : D }.
Arguments mkDisk {S D} _ _ _ _.
Arguments blk {S D} _.
Arguments mem {S D} _.
Arguments frames {S D} _.
Arguments dev {S D} _.

Section Driver.
Context {S D : Type} `{FP : FramePool S} `{VD : VirtioDevice D}.
Variable hhdm : Z.
(** A bound on the polls that fit in the five seconds of a timeout. *)
Variable max_polls : nat.

Notation Disk := (Disk S D).
Definition Io : Type -> Type := M Disk (Failure string).

Definition with_mem (m : Mem) (w : Disk) : Disk := mkDisk (blk w) m (frames w) (dev w).
Definition with_frames (f : S) (w : Disk) : Disk := mkDisk (blk w) (mem w) f (dev w).
Definition with_dev (d : D) (w : Disk) : Disk := mkDisk (blk w) (mem w) (frames w) d.
Definition with_queue (q : Virtqueue) (w : Disk) : Disk := mkDisk (set_queue q (blk w)) (mem w) (frames w) (dev w).

(** A method of the queue. *)
Definition on_queue {A} (f : M (Virtqueue * Mem) (Failure string) A) : Io A := fun w =>
  let '(r, (q, m)) := f (queue (blk w), mem w) in (r, with_queue q (with_mem m w)).

Definition take_desc : Io Z := fun w =>
  match alloc_desc (queue (blk w)) with
  | (Some i, q) => (Ok i, with_queue q w)
  | (None, q) => (Err (Error "No free descriptors"%string), with_queue q w)
  end.

Definition take_frame : Io Z := fun w =>
  match fs_alloc (frames w) with
  | (Some p, f) => (Ok p, with_frames f w)
  | (None, f) => (Err (Error "Out of memory"%string), with_frames f w)
  end.

Definition drop_frames (ps : list Z) (w : Disk) : Disk :=
  with_frames (foldl (fun f p => fs_dealloc p f) (frames w) ps) w.

Definition write_req (virt : Z) (r : VirtioBlkReq) (m : Mem) : Mem :=
  vstore hhdm 8 (virt +[64] 8) (req_sector r) (vstore hhdm 4 (virt +[64] 4) (reserved r) (vstore hhdm 4 virt (req_type r) m)).

(** The header, the data and a status the device never writes. *)
Definition prepare (header_virt data_virt status_virt sector : Z) (buffer : list Z) (is_read : bool) (m : Mem) : Mem :=
  let m := write_req header_virt (if is_read then new_read sector else new_write sector) m in
  let m := store_bytes (phys hhdm data_virt) (if is_read then replicate 512 0 else buffer) m in
  vstore hhdm 1 status_virt 0xFF m.

Definition run_device (w : Disk) : Disk :=
  let (d, m) := dev_run (dev w) (mem w) in with_dev d (with_mem m w).

Definition status_result (status : Z) (buffer : list Z) : Result (list Z) (Failure string) :=
  if status =? VIRTIO_BLK_S_OK then Ok buffer
  else if status =? VIRTIO_BLK_S_IOERR then Err (Error "I/O error"%string)
  else if status =? VIRTIO_BLK_S_UNSUPP then Err (Error "Unsupported operation"%string)
  else Err (Error "Unknown error"%string).

(** The polling loop; the device runs before each poll. *)
Fixpoint poll (fuel : nat) (head_desc header_frame data_frame status_frame start_time : Z)
              (buffer : list Z) (is_read : bool) : Io (list Z) := fun w =>
  match fuel with
  | O => (Err Diverges, w)
  | Datatypes.S fuel =>
      match on_queue (get_used hhdm) (run_device w) with
      | (Err e, w) => (Err e, w)
      | (Ok completed, w) =>
          if (match completed with Some (completed_id, _) => completed_id =? head_desc | None => false end) then
            let status := vload hhdm 1 (status_frame +[64] hhdm) (mem w) in
            let buffer := if is_read && (status =? VIRTIO_BLK_S_OK)
                          then load_bytes 512 (phys hhdm (data_frame +[64] hhdm)) (mem w) else buffer in
            (status_result status buffer, drop_frames [header_frame; data_frame; status_frame] w)
          else if 5000 <? dev_clock (dev w) -[64] start_time then
            (Err (Error "Timeout"%string), drop_frames [header_frame; data_frame; status_frame] w)
          else poll fuel head_desc header_frame data_frame status_frame start_time buffer is_read w
      end
  end.

(** [self.queue.add_buf], with the clean-up of its error branch. *)
Definition submit (head_desc header_frame data_frame status_frame : Z) (buffers : list Buffer) : Io unit := fun w =>
  match on_queue (add_buf hhdm head_desc buffers) w with
  | (Ok _, w) => (Ok tt, w)
  | (Err (Error e), w) =>
      let w := with_queue (free_desc head_desc (queue (blk w))) w in
      (Err (Error e), drop_frames [header_frame; data_frame; status_frame] w)
  | (Err e, w) => (Err e, w)
  end.

Definition notify_queue : Io unit := fun w => (Ok tt, with_dev (dev_notify (dev w)) w).
Definition get_timestamp : Io Z := fun w => (Ok (dev_clock (dev w)), w).
Definition on_mem (f : Mem -> Mem) : Io unit := fun w => (Ok tt, with_mem (f (mem w)) w).

(** [do_io]; the value is the caller's buffer afterwards, which an error leaves
    as it was. *)
Definition do_io (sector : Z) (buffer : list Z) (is_read : bool) : Io (list Z) :=
  do head_desc <- take_desc;
  do header_frame <- take_frame;
  do data_frame <- take_frame;
  do status_frame <- take_frame;
  do_ on_mem (prepare (header_frame +[64] hhdm) (data_frame +[64] hhdm) (status_frame +[64] hhdm) sector buffer is_read);
  do_ submit head_desc header_frame data_frame status_frame
        [(header_frame, 16, false); (data_frame, 512, is_read); (status_frame, 1, true)];
  do_ notify_queue;
  do start_time <- get_timestamp;
  poll max_polls head_desc header_frame data_frame status_frame start_time buffer is_read.

Definition not_initialized : Failure string := Error "Device not initialized"%string.

Definition read_sector (sector : Z) (buffer : list Z) : Io (list Z) := fun w =>
  if initialized (blk w) then do_io sector buffer true w else (Err not_initialized, w).

Definition write_sector (sector : Z) (buffer : list Z) : Io unit := fun w =>
  if initialized (blk w) then (do_ do_io sector buffer false; ret tt) w else (Err not_initialized, w).

(** [drivers/virtio/mod.rs]: the global driver, [None] before it is set up. *)
Definition disk_read_sector (sector : Z) (buffer : list Z) (g : option Disk) : bool * list Z * option Disk :=
  match g with
  | None => (false, buffer, None)
  | Some w => match read_sector sector buffer w with
              | (Ok b, w) => (true, b, Some w)
              | (Err _, w) => (false, buffer, Some w)
              end
  end.

Definition disk_write_sector (sector : Z) (buffer : list Z) (g : option Disk) : bool * option Disk :=
  match g with
  | None => (false, None)
  | Some w => let (r, w) := write_sector sector buffer w in (is_ok r, Some w)
  end.

Definition disk_is_present (g : option Disk) : bool := default false ((fun w => initialized (blk w)) <$> g).
Definition disk_get_capacity (g : option Disk) : Z := default 0 ((fun w => capacity (blk w)) <$> g).
Definition disk_get_capacity_mb (g : option Disk) : Z := (disk_get_capacity g *[64] 512) / (1024 * 1024).

End Driver.

(** ** What the virtio specification promises

    The device knows the queue of 128 entries whose addresses it was given. *)

Record QueueAddrs : Type := mkAddrs { table : Z; avail_ring : Z; used_ring : Z }.

Definition apart (a n b k : Z) : Prop := a + n <= b \/ b + k <= a.

(** The memory changes at most where [P] holds. *)
Definition changes (P : Z -> Prop) (m m' : Mem) : Prop := forall x, ~ P x -> byte m' x = byte m x.

(** A request with header [hdr], data [dat] and status byte [st] waits as chain
    number [k] behind [head]; [is_read] tells whether the device writes the data. *)
Record pending (l : QueueAddrs) (k head hdr dat st sector : Z) (is_read : bool) (m : Mem) : Prop := {
  pe_idx : dev_avail_idx (avail_ring l) m = k +[16] 1;
  pe_head : dev_head 128 (avail_ring l) k m = head;
  pe_chain : dev_chain 128 (table l) head m = [(hdr, 16, false); (dat, 512, is_read); (st, 1, true)];
  pe_type : load 4 hdr m = if is_read then VIRTIO_BLK_T_IN else VIRTIO_BLK_T_OUT;
  pe_sector : load 8 (hdr + 8) m = sector;
  pe_apart : apart dat 512 st 1 /\ apart dat 512 (used_ring l) 1030 /\ apart st 1 (used_ring l) 1030;
}.

Definition used_slot (l : QueueAddrs) (k : Z) : Z := used_ring l + 4 + 8 * (k mod 128).

(** The bytes a read may fill, and all bytes an answer may touch. *)
Definition answer_bytes (dat st : Z) (is_read : bool) (x : Z) : Prop := (is_read = true /\ dat <= x < dat + 512) \/ x = st.
Definition used_bytes (l : QueueAddrs) (k x : Z) : Prop :=
  used_ring l + 2 <= x < used_ring l + 4 \/ used_slot l k <= x < used_slot l k + 8.

(** What is asked of the device, and no more: a request may take as long as it
    likes and end with any status.  While it waits, the device touches only the bytes
    meant for the answer and, for a write, the sector that is written, whose contents are then
    open.  It answers by writing the status, the data of a read, and one element of the
    used ring; the status OK means that the sector exists and was read or written.  Of
    the clock: it does not run backwards, and the five seconds of a timeout pass within
    [max_polls] polls. *)
Class VirtioBlkLaws (D : Type) `{VirtioDevice D} (max_polls : nat) : Type := {
  dv_addrs : D -> QueueAddrs;
  dv_seen : D -> Z;                    (* the chains answered so far, a [u16] *)
  dv_capacity : D -> Z;
  dv_sector : D -> Z -> list Z;        (* the contents of the disk *)
  dv_status : D -> Z;                  (* the status of the last answer *)
  dv_started : D -> Z;                 (* the clock at the last notification *)
  dv_polls : D -> nat;                 (* the polls that fit in what is left of the five seconds *)
  dv_sector_length : forall d s, length (dv_sector d s) = 512%nat;
  dv_notify_law : forall d, let d' := dev_notify d in
    dv_addrs d' = dv_addrs d /\ dv_seen d' = dv_seen d /\ dv_capacity d' = dv_capacity d /\
    (forall s, dv_sector d' s = dv_sector d s) /\ (dv_polls d' < max_polls)%nat /\
    dv_started d' = dev_clock d' /\ 0 <= dev_clock d' < 2 ^ 64;
  dv_run_law : forall d m head hdr dat st sector is_read, mem_ok m ->
    pending (dv_addrs d) (dv_seen d) head hdr dat st sector is_read m -> dv_started d <= dev_clock d < 2 ^ 64 ->
    let '(d', m') := dev_run d m in let k := dv_seen d in
    dv_addrs d' = dv_addrs d /\ dv_capacity d' = dv_capacity d /\ mem_ok m' /\
    dv_started d' = dv_started d /\ dv_started d <= dev_clock d' < 2 ^ 64 /\
    (forall s, is_read = true \/ s <> sector -> dv_sector d' s = dv_sector d s) /\
    ( (* still waiting *)
     (dv_seen d' = k /\ changes (answer_bytes dat st is_read) m m' /\
      (5000 < dev_clock d' - dv_started d \/ (dv_polls d' < dv_polls d)%nat)) \/
     (* answered *)
     (dv_seen d' = k +[16] 1 /\
      changes (fun x => answer_bytes dat st is_read x \/ used_bytes (dv_addrs d) k x) m m' /\
      byte m' st = dv_status d' /\
      (dv_status d' = VIRTIO_BLK_S_OK -> 0 <= sector < dv_capacity d /\
        if is_read then load_bytes 512 dat m' = dv_sector d sector else dv_sector d' sector = load_bytes 512 dat m) /\
      load 2 (used_ring (dv_addrs d) + 2) m' = k +[16] 1 /\ load 4 (used_slot (dv_addrs d) k) m' = head));
}.

(** ** Requests *)

Section Correct.
Context {S D : Type} `{FP : FramePool S} `{VD : VirtioDevice D}.
Variables (hhdm : Z) (max_polls : nat).
Context `{VL : !VirtioBlkLaws D max_polls}.

Notation Disk := (Disk S D).

(** At least [n] descriptors are free. *)
Definition enough_free (q : Virtqueue) (n : nat) : Prop := exists l, NoDup l /\ Forall (is_free q) l /\ (n <= length l)%nat.

(** The driver between two requests: queue, device and memory agree on the
    number of requests answered; three descriptors and three frames are free. *)
Record disk_ok (base : Z) (w : Disk) : Prop := {
  ok_init : initialized (blk w) = true;
  ok_layout : layout hhdm base (queue (blk w));
  ok_wf : queue_wf (queue (blk w));
  ok_size : queue_size (queue (blk w)) = 128;
  ok_free : enough_free (queue (blk w)) 3;
  ok_mem : mem_ok (mem w);
  ok_addrs : dv_addrs (dev w) = mkAddrs base (avail_phys (queue (blk w))) (used_phys (queue (blk w)));
  ok_seen : in_width 16 (dv_seen (dev w));
  ok_next : next_avail_idx (queue (blk w)) = dv_seen (dev w);
  ok_last : last_used_idx (queue (blk w)) = dv_seen (dev w);
  ok_avail : dev_avail_idx (avail_phys (queue (blk w))) (mem w) = dv_seen (dev w);
  ok_used : load 2 (used_phys (queue (blk w)) + 2) (mem w) = dv_seen (dev w);
  ok_frames : fs_ok (frames w);
  ok_three : (3 <= size (fs_free (frames w)))%nat;
  ok_pages : 0 ∉ fs_free (frames w) /\ base ∉ fs_free (frames w);
}.

(** *** Waiting *)

(** A request [head :: rest] is on its way since [start]. *)
Record waiting (base start head hdr dat st sector : Z) (is_read : bool) (rest : list Z) (w : Disk) : Prop := {
  wt_layout : layout hhdm base (queue (blk w));
  wt_wf : queue_wf (queue (blk w));
  wt_nodup : NoDup (head :: rest);
  wt_range : Forall (fun d => 0 <= d < queue_size (queue (blk w))) (head :: rest);
  wt_chain : chain_ok base (mem w) (head :: rest) [(hdr, 16, false); (dat, 512, is_read); (st, 1, true)];
  wt_pending : pending (dv_addrs (dev w)) (dv_seen (dev w)) head hdr dat st sector is_read (mem w);
  wt_mem : mem_ok (mem w);
  wt_addrs : dv_addrs (dev w) = mkAddrs base (avail_phys (queue (blk w))) (used_phys (queue (blk w)));
  wt_seen : in_width 16 (dv_seen (dev w));
  wt_last : last_used_idx (queue (blk w)) = dv_seen (dev w);
  wt_used : load 2 (used_phys (queue (blk w)) + 2) (mem w) = dv_seen (dev w);
  wt_time : 0 <= start <= dev_clock (dev w) /\ dev_clock (dev w) < 2 ^ 64 /\ dv_started (dev w) = start;
  wt_pages : Forall (fun p => 0 <= p < 2 ^ 52 /\ apart p PAGE_SIZE base PAGE_SIZE) [hdr; dat; st] /\
             apart hdr PAGE_SIZE dat PAGE_SIZE /\ apart hdr PAGE_SIZE st PAGE_SIZE /\ apart dat PAGE_SIZE st PAGE_SIZE;
}.

(** Memory that an answer leaves alone. *)
Lemma load_changes (P : Z -> Prop) n a m m' : changes P m m' -> (forall x, a <= x < a + Z.of_nat n -> ~ P x) -> load n a m' = load n a m.
Proof. intros Hc Hp. apply load_ext. intros x Hx. apply Hc. by apply Hp. Qed.

Lemma ring_addresses base q : layout hhdm base q ->
  base + 16 * queue_size q <= avail_phys q /\ avail_phys q + 6 + 2 * queue_size q <= used_phys q /\ used_phys q + 1032 <= base + PAGE_SIZE /\
  1 <= queue_size q <= 128.
Proof.
  intros L. pose proof (size_bounds _ (lay_size _ _ _ L)) as (Hqs & Hal & _).
  rewrite (proj2 (lay_avail _ _ _ L)), (proj2 (lay_used _ _ _ L)). unfold PAGE_SIZE. lia.
Qed.

Ltac split_apart := unfold apart, answer_bytes, used_bytes, used_slot, PAGE_SIZE in *; naive_solver lia.

(** Where a request's answer may write is outside the table, the available ring
    and the header. *)
Lemma answer_apart base start head hdr dat st sector is_read rest w : waiting base start head hdr dat st sector is_read rest w ->
  forall x, answer_bytes dat st is_read x \/ used_bytes (dv_addrs (dev w)) (dv_seen (dev w)) x ->
  ~ (base <= x < used_phys (queue (blk w))) /\ ~ (hdr <= x < hdr + 16).
Proof.
  intros W x Hx. destruct (ring_addresses base _ (wt_layout _ _ _ _ _ _ _ _ _ _ W)) as (R1 & R2 & R3 & R4).
  pose proof (wt_addrs _ _ _ _ _ _ _ _ _ _ W) as Ea. rewrite Ea in Hx.
  pose proof (wt_pages _ _ _ _ _ _ _ _ _ _ W) as (Hp & H1 & H2 & H3).
  pose proof (Z.mod_pos_bound (dv_seen (dev w)) 128 ltac:(lia)).
  rewrite !Forall_cons in Hp. unfold apart, answer_bytes, used_bytes, used_slot, PAGE_SIZE in *. cbn [used_ring] in Hx. lia.
Qed.

Lemma chain_kept base q hdr (ds : list Z) bs m m' (P : Z -> Prop) : changes P m m' ->
  (forall x, P x -> ~ (base <= x < used_phys q) /\ ~ (hdr <= x < hdr + 16)) -> layout hhdm base q ->
  Forall (fun d => 0 <= d < queue_size q) ds -> chain_ok base m ds bs -> chain_ok base m' ds bs.
Proof.
  intros Hc HP L Hr. apply chain_ok_ext. intros d x Hd Hx. apply Hc. intros Hp. destruct (HP _ Hp) as [Hn _].
  destruct (ring_addresses base q L) as (? & ? & ? & ?). rewrite Forall_forall in Hr. specialize (Hr _ Hd). cbn in Hr. lia.
Qed.

Lemma pending_kept l k head hdr dat st sector is_read m m' : 
  changes (answer_bytes dat st is_read) m m' ->
  dev_chain 128 (table l) head m' = dev_chain 128 (table l) head m ->
  (forall x, answer_bytes dat st is_read x -> ~ (avail_ring l <= x < avail_ring l + 262) /\ ~ (hdr <= x < hdr + 16)) ->
  pending l k head hdr dat st sector is_read m -> pending l k head hdr dat st sector is_read m'.
Proof.
  intros Hc Hch HP [H1 H2 H3 H4 H5 H6]. pose proof (Z.mod_pos_bound k 128 ltac:(lia)).
  constructor; [| |congruence| | |done].
  - rewrite <- H1. apply (load_changes _ _ _ _ _ Hc). intros x Hx Hp. destruct (HP _ Hp). lia.
  - rewrite <- H2. apply (load_changes _ _ _ _ _ Hc). intros x Hx Hp. destruct (HP _ Hp). lia.
  - rewrite <- H4. apply (load_changes _ _ _ _ _ Hc). intros x Hx Hp. destruct (HP _ Hp). lia.
  - rewrite <- H5. apply (load_changes _ _ _ _ _ Hc). intros x Hx Hp. destruct (HP _ Hp). lia.
Qed.

Lemma waiting_still base start head hdr dat st sector is_read rest w d' m' :
  waiting base start head hdr dat st sector is_read rest w ->
  dv_addrs d' = dv_addrs (dev w) -> dv_seen d' = dv_seen (dev w) -> mem_ok m' ->
  changes (answer_bytes dat st is_read) (mem w) m' -> dv_started d' = dv_started (dev w) ->
  dv_started (dev w) <= dev_clock d' < 2 ^ 64 ->
  waiting base start head hdr dat st sector is_read rest (mkDisk (blk w) m' (frames w) d').
Proof.
  intros W E1 E2 Hm Hc Ed Ht. pose proof (answer_apart _ _ _ _ _ _ _ _ _ _ W) as HP.
  destruct W as [L Wq Hnd Hr Hch Hpe Hmm Ea Hs Hl Hu Htime Hp].
  assert (chain_ok base m' (head :: rest) [(hdr, 16, false); (dat, 512, is_read); (st, 1, true)]) as Hch'.
  { apply (chain_kept base (queue (blk w)) hdr _ _ (mem w) m' _ Hc); [|done..]. intros x Hx. apply HP. by left. }
  assert (forall x, answer_bytes dat st is_read x -> ~ (used_phys (queue (blk w)) <= x < used_phys (queue (blk w)) + 1032)) as Hus.
  { destruct (ring_addresses base _ L) as (? & ? & ? & ?). destruct Hp as [Hp _]. rewrite !Forall_cons in Hp.
    unfold answer_bytes, apart, PAGE_SIZE in *. intros x Hx. lia. }
  constructor; cbn [blk mem frames dev]; try done.
  - rewrite E1, E2. apply (pending_kept _ _ _ _ _ _ _ _ (mem w) m' Hc); [| |done].
    + rewrite Ea. cbn [table]. by rewrite !(chain_read base _ rest [(hdr, 16, false); (dat, 512, is_read); (st, 1, true)]) by (done || cbn; lia).
    + intros x Hx. destruct (HP x (or_introl Hx)) as [Hn1 Hn2]. split; [|done]. rewrite Ea. cbn [avail_ring].
      specialize (Hus _ Hx). destruct (ring_addresses base _ L) as (? & ? & ? & ?). lia.
  - congruence.
  - by rewrite E2.
  - congruence.
  - rewrite E2, <- Hu. apply (load_changes _ _ _ _ _ Hc). intros x Hx Hp'. specialize (Hus _ Hp'). lia.
  - lia.
Qed.

(** *** The answer *)

Definition in_range (d : D) (sector : Z) : bool := (0 <=? sector) && (sector <? dv_capacity d).

(** The result for the status that the device gave. *)
Definition io_result (d : D) (status sector : Z) (buffer : list Z) (is_read : bool) : Result (list Z) (Failure string) :=
  status_result status (if is_read then dv_sector d sector else buffer).

(** The disk after a request: a write that went well has stored [data]; one that failed
    leaves its sector open. *)
Record io_sectors (d d' : D) (sector : Z) (data : list Z) (is_read : bool) : Prop := {
  is_range : dv_status d' = VIRTIO_BLK_S_OK -> in_range d sector = true;
  is_others s : is_read = true \/ s <> sector -> dv_sector d' s = dv_sector d s;
  is_written : dv_status d' = VIRTIO_BLK_S_OK -> is_read = false -> dv_sector d' sector = data;
}.

(** The queue after the answer. *)
Definition answered_queue (head : Z) (rest : list Z) (q : Virtqueue) : Virtqueue :=
  set_free (mark true (reverse (head :: rest)) (free_descs q)) (set_last_used (last_used_idx q +[16] 1) q).

Record answered (head hdr dat st sector : Z) (is_read : bool) (rest : list Z) (w w' : Disk) : Prop := {
  an_blk : blk w' = set_queue (answered_queue head rest (queue (blk w))) (blk w);
  an_frames : frames w' = foldl (fun f p => fs_dealloc p f) (frames w) [hdr; dat; st];
  an_mem : mem_ok (mem w');
  an_addrs : dv_addrs (dev w') = dv_addrs (dev w);
  an_capacity : dv_capacity (dev w') = dv_capacity (dev w);
  an_seen : dv_seen (dev w') = dv_seen (dev w) +[16] 1;
  an_avail : dev_avail_idx (avail_phys (queue (blk w))) (mem w') = dv_seen (dev w) +[16] 1;
  an_used : load 2 (used_phys (queue (blk w)) + 2) (mem w') = dv_seen (dev w) +[16] 1;
  an_sector : io_sectors (dev w) (dev w') sector (load_bytes 512 dat (mem w)) is_read;
}.

Lemma wrap16_succ k : in_width 16 k -> k +[16] 1 <> k.
Proof. unfold in_width, wrap. intros Hk. destruct (Z.eq_dec k 65535) as [->|]; [done|]. rewrite Z.mod_small; lia. Qed.

Lemma phys_frame p : 0 <= p < 2 ^ 52 -> phys hhdm (p +[64] hhdm) = p.
Proof.
  intros Hp. unfold phys. unfold wrap at 1. rewrite <- Zminus_mod_idemp_l. unfold wrap. rewrite Z.mod_mod, Zminus_mod_idemp_l by lia.
  replace (p + hhdm - hhdm) with p by lia. apply Z.mod_small. lia.
Qed.

Lemma load_byte a m : mem_ok m -> load 1 a m = byte m a.
Proof. intros _. unfold load. cbn. lia. Qed.

(** The poll that finds the answer. *)
Lemma poll_answer base start head hdr dat st sector is_read rest w d' m' fuel buffer :
  waiting base start head hdr dat st sector is_read rest w ->
  dv_addrs d' = dv_addrs (dev w) -> dv_capacity d' = dv_capacity (dev w) -> mem_ok m' ->
  dev_run (dev w) (mem w) = (d', m') -> dv_seen d' = dv_seen (dev w) +[16] 1 ->
  io_sectors (dev w) d' sector (load_bytes 512 dat (mem w)) is_read ->
  changes (fun x => answer_bytes dat st is_read x \/ used_bytes (dv_addrs (dev w)) (dv_seen (dev w)) x) (mem w) m' ->
  byte m' st = dv_status d' ->
  (dv_status d' = VIRTIO_BLK_S_OK -> is_read = true -> load_bytes 512 dat m' = dv_sector (dev w) sector) ->
  load 2 (used_ring (dv_addrs (dev w)) + 2) m' = dv_seen (dev w) +[16] 1 ->
  load 4 (used_slot (dv_addrs (dev w)) (dv_seen (dev w))) m' = head ->
  let '(r, w') := poll hhdm (Datatypes.S fuel) head hdr dat st start buffer is_read w in
  r = io_result (dev w) (dv_status (dev w')) sector buffer is_read /\ answered head hdr dat st sector is_read rest w w'.
Proof.
  intros W Ea Ec Hm Erun Es Esec Hc Hst Hdat Hidx Hid. pose proof (answer_apart _ _ _ _ _ _ _ _ _ _ W) as HP.
  destruct W as [L Wq Hnd Hr Hch Hpe Hmm Ead Hs Hl Hu Htime [Hp _]]. rewrite !Forall_cons in Hp. destruct Hp as ([H1 _] & [H2 _] & [H3 _] & _).
  pose proof (ring_addresses base _ L) as (R1 & R2 & R3 & R4). rewrite Ead in Hidx, Hid. unfold used_slot in Hid. cbn [used_ring] in Hidx, Hid.
  assert (chain_ok base m' (head :: rest) [(hdr, 16, false); (dat, 512, is_read); (st, 1, true)]) as Hch'.
  { apply (chain_kept base (queue (blk w)) hdr _ _ (mem w) m' _ Hc); done. }
  assert (dev_avail_idx (avail_phys (queue (blk w))) m' = dv_seen (dev w) +[16] 1) as Hav.
  { rewrite <- (pe_idx _ _ _ _ _ _ _ _ _ Hpe), Ead. apply (load_changes _ _ _ _ _ Hc). intros x Hx Hp. destruct (HP _ Hp). lia. }
  cbn [poll]. unfold run_device, on_queue. rewrite Erun. cbn [blk mem frames dev with_mem with_dev].
  rewrite (get_used_spec hhdm base (queue (blk w)) m' head rest [(hdr, 16, false); (dat, 512, is_read); (st, 1, true)] L Wq Hnd Hr Hch');
    [|rewrite Hidx, Hl; by apply wrap16_succ|by rewrite Hl]. cbv beta iota zeta.
  rewrite Z.eqb_refl. cbn [blk mem frames dev with_mem with_dev with_queue]. unfold vload. rewrite !phys_frame by done.
  rewrite (load_byte st m' Hm), Hst. split.
  - unfold io_result, status_result. cbn [dev drop_frames with_frames with_queue with_mem with_dev].
    destruct (Z.eqb_spec (dv_status d') VIRTIO_BLK_S_OK) as [E|E]; [|done].
    destruct is_read; cbn [andb]; [|done]. f_equal. by apply Hdat.
  - constructor; try done.
Qed.

(** No answer for more than five seconds. *)
Record gave_up (start : Z) (w w' : Disk) : Prop := {
  gu_seen : dv_seen (dev w') = dv_seen (dev w);
  gu_clock : 5000 < dev_clock (dev w') - start;
}.

(** The disk during a request. *)
Lemma io_sectors_later (d d' d'' : D) sector data is_read : dv_capacity d' = dv_capacity d ->
  (forall s, is_read = true \/ s <> sector -> dv_sector d' s = dv_sector d s) ->
  io_sectors d' d'' sector data is_read -> io_sectors d d'' sector data is_read.
Proof.
  intros Hc Hs [H1 H2 H3]. constructor; [|intros s Hor; by rewrite H2, Hs|done]. intros Ho. specialize (H1 Ho). unfold in_range in *. by rewrite <- Hc.
Qed.

(** From submission to answer or timeout, within the polls that the timeout allows. *)
Lemma poll_spec fuel : forall base start head hdr dat st sector is_read rest w buffer,
  waiting base start head hdr dat st sector is_read rest w -> (dv_polls (dev w) < fuel)%nat ->
  let '(r, w') := poll hhdm fuel head hdr dat st start buffer is_read w in
  (r = io_result (dev w) (dv_status (dev w')) sector buffer is_read /\ answered head hdr dat st sector is_read rest w w') \/
  (r = Err (Error "Timeout"%string) /\ gave_up start w w').
Proof.
  induction fuel as [|fuel IH]; intros base start head hdr dat st sector is_read rest w buffer W Hf; [lia|].
  assert (dv_started (dev w) <= dev_clock (dev w) < 2 ^ 64) as Hnow by (destruct (wt_time _ _ _ _ _ _ _ _ _ _ W) as (? & ? & ->); lia).
  pose proof (dv_run_law (dev w) (mem w) head hdr dat st sector is_read (wt_mem _ _ _ _ _ _ _ _ _ _ W) (wt_pending _ _ _ _ _ _ _ _ _ _ W) Hnow) as Hrun.
  destruct (dev_run (dev w) (mem w)) as [d' m'] eqn:Erun. cbv zeta in Hrun.
  destruct Hrun as (Ea & Ec & Hm & Est & Hclk & Hsec & [(Es & Hc & Hw)|(Es & Hc & Hst & Hok & Hidx & Hid)]).
  2:{ assert (io_sectors (dev w) d' sector (load_bytes 512 dat (mem w)) is_read) as Hio.
      { constructor; [|done|]; intros Ho; destruct (Hok Ho) as [Hr Hd]; [|by intros ->]. unfold in_range. apply andb_true_iff. split; [apply Z.leb_le|apply Z.ltb_lt]; lia. }
      assert (dv_status d' = VIRTIO_BLK_S_OK -> is_read = true -> load_bytes 512 dat m' = dv_sector (dev w) sector) as Hdat by (intros Ho ->; by destruct (Hok Ho)).
      pose proof (poll_answer base start head hdr dat st sector is_read rest w d' m' fuel buffer W Ea Ec Hm Erun Es Hio Hc Hst Hdat Hidx Hid) as Hp.
      destruct (poll _ _ _ _ _ _ _ _ _ _) as [r w']. by left. }
  pose proof (waiting_still _ _ _ _ _ _ _ _ _ w d' m' W Ea Es Hm Hc Est Hclk) as W'.
  pose proof W' as [L _ _ _ _ _ _ _ _ Hl Hu (Ht & Hmax & Hstart) _]. cbn [blk mem dev] in L, Hl, Hu, Ht, Hmax, Hstart.
  cbn [poll]. unfold run_device, on_queue. rewrite Erun. cbn [blk mem frames dev with_mem with_dev].
  unfold get_used, vload. rewrite (phys_used hhdm base) by (done || lia). rewrite Hu, Hl, Z.eqb_refl. cbv beta iota zeta.
  cbn [blk mem frames dev with_mem with_dev with_queue]. unfold wrap. rewrite Z.mod_small by lia.
  destruct (Z.ltb_spec 5000 (dev_clock d' - start)); [by right|].
  specialize (IH base start head hdr dat st sector is_read rest _ buffer W'). cbn [dev] in IH. specialize (IH ltac:(lia)).
  unfold with_queue, with_mem, with_dev in *. cbn [blk mem frames dev] in *.
  assert (set_queue (queue (blk w)) (blk w) = blk w) as Hq by (by destruct w as [[] ? ? ?]). rewrite ?Hq.
  destruct (poll hhdm fuel head hdr dat st start buffer is_read _) as [r w'] eqn:Ep.
  destruct IH as [[-> A]|[-> G]]; [left|right; split; [done|]; destruct G as [G1 G2]; constructor; [by rewrite G1|done]].
  split; [unfold io_result; destruct is_read; [rewrite Hsec by (by left)|]; done|]. destruct A as [A1 A2 A3 A4 A5 A6 A7 A8 A9]. cbn [blk mem frames dev] in *.
  assert (load_bytes 512 dat m' = load_bytes 512 dat (mem w) \/ is_read = true) as Hdata.
  { destruct is_read; [by right|left]. apply load_bytes_ext. intros x Hx. apply Hc. intros [[? ?]| ->]; [done|].
    pose proof (wt_pages _ _ _ _ _ _ _ _ _ _ W) as (_ & _ & _ & Hds). unfold apart, PAGE_SIZE in Hds. lia. }
  constructor; try done; try congruence. apply (io_sectors_later _ d'); [done|done|]. destruct A9 as [B1 B2 B3]. constructor; [done|done|].
  intros Ho Hr. destruct Hdata as [<-| ->]; [by apply B3|done].
Qed.

(** *** Getting ready *)

Lemma take_frame_some (f : S) : fs_ok f -> (0 < size (fs_free f))%nat -> exists p f', fs_alloc f = (Some p, f') /\
  p ∈ fs_free f /\ fs_free f' = fs_free f ∖ {[p]} /\ fs_ok f' /\ fs_managed p /\ 0 <= p < 2 ^ 52 /\ p mod PAGE_SIZE = 0 /\
  size (fs_free f) = Datatypes.S (size (fs_free f')).
Proof.
  intros Hok Hs. destruct (fs_alloc f) as [[p|] f'] eqn:E.
  - destruct (fs_alloc_some f p f' Hok E) as (Hin & Ef & Hok'). destruct (fs_page f p Hok Hin) as [? ?].
    exists p, f'. repeat (split; [done|]). split; [by apply (fs_free_managed f)|]. split; [done|]. split; [done|].
    rewrite Ef, size_difference, size_singleton by set_solver. pose proof (size_singleton (C := gset Z) p).
    assert (size ({[p]} : gset Z) <= size (fs_free f))%nat by (apply subseteq_size; set_solver). lia.
  - destruct (fs_alloc_none f f' Hok E) as (He & _). rewrite He, size_empty in Hs. lia.
Qed.

Lemma pages_apart p q : p mod PAGE_SIZE = 0 -> q mod PAGE_SIZE = 0 -> p <> q -> apart p PAGE_SIZE q PAGE_SIZE.
Proof.
  unfold apart, PAGE_SIZE. intros [a ->]%Z.mod_divide [b ->]%Z.mod_divide Hne; [|done|done].
  assert (a <> b) by congruence. lia.
Qed.

Lemma three_frames (f : S) : fs_ok f -> (3 <= size (fs_free f))%nat -> exists p1 p2 p3 f1 f2 f3,
  fs_alloc f = (Some p1, f1) /\ fs_alloc f1 = (Some p2, f2) /\ fs_alloc f2 = (Some p3, f3) /\
  Forall (fun p => 0 <= p < 2 ^ 52 /\ p mod PAGE_SIZE = 0 /\ p ∈ fs_free f) [p1; p2; p3] /\
  p1 <> p2 /\ p1 <> p3 /\ p2 <> p3 /\
  let f' := foldl (fun f p => fs_dealloc p f) f3 [p1; p2; p3] in fs_ok f' /\ fs_free f' = fs_free f.
Proof.
  intros Hok Hs. destruct (take_frame_some f Hok) as (p1 & f1 & E1 & I1 & F1 & O1 & M1 & R1 & A1 & S1); [lia|].
  destruct (take_frame_some f1 O1) as (p2 & f2 & E2 & I2 & F2 & O2 & M2 & R2 & A2 & S2); [lia|].
  destruct (take_frame_some f2 O2) as (p3 & f3 & E3 & I3 & F3 & O3 & M3 & R3 & A3 & S3); [lia|].
  exists p1, p2, p3, f1, f2, f3. split; [done|]. split; [done|]. split; [done|].
  assert (p2 ∈ fs_free f /\ p2 <> p1) as [? ?] by set_solver. assert (p3 ∈ fs_free f /\ p3 <> p1 /\ p3 <> p2) as (? & ? & ?) by set_solver.
  split; [repeat constructor; (done || lia)|]. split; [done|]. split; [done|]. split; [done|]. cbn [foldl].
  destruct (fs_dealloc_held f3 p1 O3 M1) as [O4 F4]; [set_solver|].
  destruct (fs_dealloc_held _ p2 O4 M2) as [O5 F5]; [set_solver|].
  destruct (fs_dealloc_held _ p3 O5 M3) as [O6 F6].
  { rewrite F5, F4, F3, !elem_of_union, elem_of_difference, !elem_of_singleton. naive_solver. } split; [done|].
  rewrite F6, F5, F4, F3, F2, F1. apply set_eq. intros x. set_unfold.
  destruct (decide (x = p1)), (decide (x = p2)), (decide (x = p3)); naive_solver.
Qed.

Lemma prepare_spec hdr dat st sector buffer is_read m : mem_ok m ->
  Forall (fun p => 0 <= p < 2 ^ 52) [hdr; dat; st] ->
  apart hdr PAGE_SIZE dat PAGE_SIZE -> apart hdr PAGE_SIZE st PAGE_SIZE -> apart dat PAGE_SIZE st PAGE_SIZE ->
  in_width 64 sector -> length buffer = 512%nat -> Forall (fun b => 0 <= b < 256) buffer ->
  let m' := prepare hhdm (hdr +[64] hhdm) (dat +[64] hhdm) (st +[64] hhdm) sector buffer is_read m in
  mem_ok m' /\ load 4 hdr m' = (if is_read then VIRTIO_BLK_T_IN else VIRTIO_BLK_T_OUT) /\ load 8 (hdr + 8) m' = sector /\
  (is_read = false -> load_bytes 512 dat m' = buffer) /\
  changes (fun x => hdr <= x < hdr + 16 \/ dat <= x < dat + 512 \/ x = st) m m'.
Proof.
  intros Hm Hp A1 A2 A3 Hs Hl Hb. rewrite !Forall_cons in Hp. destruct Hp as (P1 & P2 & P3 & _). unfold apart, PAGE_SIZE in *.
  assert (forall k, 0 <= k < 16 -> phys hhdm (hdr +[64] hhdm +[64] k) = hdr + k) as Hk.
  { intros k Hk. rewrite wrap_add_l. apply phys_direct. lia. }
  unfold prepare, write_req, vstore. rewrite !Hk, !phys_frame by (done || lia).
  set (ty := req_type _). set (rv := reserved _). set (se := req_sector _). set (data := if is_read then _ else _).
  assert (se = sector) as -> by (by destruct is_read). assert (in_width 32 ty) as Hty by (by destruct is_read).
  assert (length data = 512%nat) as Hdl by (by destruct is_read).
  set (m1 := store 8 _ _ _). set (m2 := store_bytes dat data m1).
  assert (mem_ok m2) as Hm2.
  { apply store_bytes_ok; [repeat apply store_ok; done|]. subst data. destruct is_read; [|done].
    apply Forall_replicate. lia. }
  assert (forall n a, apart a (Z.of_nat n) dat 512 -> load n a m2 = load n a m1) as Hskip.
  { intros n a Ha. unfold load, m2. rewrite load_bytes_store_ne; [done|]. rewrite Hdl. unfold apart in Ha. lia. }
  split; [by apply store_ok|]. split; [|split; [|split]].
  - rewrite load_store_ne by lia. rewrite Hskip by (unfold apart; lia). unfold m1. rewrite 2!load_store_ne by lia.
    rewrite load_store_eq by done. by destruct is_read.
  - rewrite load_store_ne by lia. rewrite Hskip by (unfold apart; lia). by apply load_store_eq.
  - intros ->. unfold store. rewrite load_bytes_store_ne by (rewrite length_le; lia). unfold m2, data. rewrite <- Hl. apply load_store_bytes.
  - intros x Hx. unfold m2, m1, store. rewrite !byte_store, !length_le, Hdl.
    repeat match goal with |- context [(?u <=? x) && (x <? ?v)] => replace ((u <=? x) && (x <? v)) with false by (symmetry; apply andb_false_iff; rewrite Z.leb_gt, Z.ltb_ge; lia) end.
    done.
Qed.

Lemma enough_left q i : 0 <= i -> enough_free q 3 -> enough_free (set_free (<[Z.to_nat i := false]> (free_descs q)) q) 2.
Proof.
  intros Hi (l & Hnd & Hl & Hlen). exists (filter (fun x => x <> i) l). split; [by apply NoDup_filter|]. split.
  - apply Forall_forall. intros x [Hx Hin]%list_elem_of_filter. rewrite Forall_forall in Hl. destruct (Hl _ Hin) as [Hr E].
    split; [done|]. cbn. rewrite list_lookup_insert_ne; [done|]. intros He%Z2Nat.inj; lia.
  - enough (length l <= length (i :: filter (fun x => x <> i) l))%nat by (cbn in *; lia). apply submseteq_length, NoDup_submseteq; [done|].
    intros x Hx. destruct (decide (x = i)) as [->|]; [by left|]. right. by apply list_elem_of_filter.
Qed.

Lemma request_buffers hdr dat st is_read : Forall (fun p => 0 <= p < 2 ^ 52) [hdr; dat; st] -> hdr <> 0 -> dat <> 0 -> st <> 0 ->
  Forall buffer_ok [(hdr, 16, false); (dat, 512, is_read); (st, 1, true)] /\
  Forall (fun b : Buffer => b.1.1 <> 0 /\ b.1.2 <> 0) [(hdr, 16, false); (dat, 512, is_read); (st, 1, true)].
Proof.
  rewrite !Forall_cons. intros (? & ? & ? & _) ? ? ?. unfold buffer_ok, in_width. cbn.
  repeat (split || apply Forall_nil); try lia; exact I.
Qed.

(** The chain of a request goes out: the queue and memory after [submit]. *)
Lemma submit_ok base head hdr dat st is_read (w : Disk) q : layout hhdm base q -> queue_wf q -> alloc_desc q = (Some head, queue (blk w)) ->
  enough_free q 3 -> Forall (fun p => 0 <= p < 2 ^ 52) [hdr; dat; st] -> hdr <> 0 -> dat <> 0 -> st <> 0 ->
  in_width 16 (dev_avail_idx (avail_phys q) (mem w)) ->
  exists rest m', let bs := [(hdr, 16, false); (dat, 512, is_read); (st, 1, true)] in
    let q' := set_next_avail (next_avail_idx q +[16] 1) (set_free (mark false (reverse rest) (<[Z.to_nat head := false]> (free_descs q))) q) in
    submit hhdm head hdr dat st bs w = (Ok tt, mkDisk (set_queue q' (blk w)) m' (frames w) (dev w)) /\
    NoDup (head :: rest) /\ Forall (fun d => 0 <= d < queue_size q) (head :: rest) /\ chain_ok base m' (head :: rest) bs /\
    mark true (reverse (head :: rest)) (free_descs q') = free_descs q /\
    dev_head 128 (avail_phys q) (next_avail_idx q) m' = head /\
    dev_avail_idx (avail_phys q) m' = dev_avail_idx (avail_phys q) (mem w) +[16] 1 /\
    (forall x, ~ (base <= x < avail_phys q + 260) -> byte m' x = byte (mem w) x) /\
    (mem_ok (mem w) -> mem_ok m').
Proof.
  intros L W Ha Hen Hp N1 N2 N3 Hi. destruct (alloc_desc_some _ _ _ W Ha) as ([Hr Ef] & Eq & W1).
  destruct (request_buffers hdr dat st is_read Hp N1 N2 N3) as [Hb1 Hb2].
  assert (layout hhdm base (queue (blk w))) as L1 by (rewrite Eq; by destruct L).
  assert (~ is_free (queue (blk w)) head) as Hnf.
  { rewrite Eq. intros [_ E]. cbn in E. rewrite list_lookup_insert_eq in E; [done|]. by eapply lookup_lt_Some. }
  set (bs := [(hdr, 16, false); (dat, 512, is_read); (st, 1, true)]) in *.
  pose proof (add_buf_spec hhdm base (queue (blk w)) (mem w) head bs L1 W1) as Hadd. rewrite Eq in Hadd at 1.
  specialize (Hadd Hr Hnf Hb1). rewrite Eq in Hadd at 1. specialize (Hadd Hi).
  pose proof (add_buf_mem_ok hhdm head bs (queue (blk w)) (mem w)) as Hmok.
  unfold submit, on_queue. destruct (add_buf hhdm head bs (queue (blk w), mem w)) as [[[]|e] [q' m']].
  2:{ destruct Hadd as (_ & _ & [[? _]|[[? _]|[Hf _]]]); [done|done|].
      destruct (enough_left q head) as (l & Hl1 & Hl2 & Hl3); [lia|done|]. rewrite Eq in Hf. specialize (Hf l Hl1 Hl2). cbn in Hf. lia. }
  destruct Hadd as (rest & Hlen & Hnd & Hfree & -> & Hc & Hd & Hx & _ & Hout). destruct (free_nonneg _ _ Hfree) as [Hf1 Hf2].
  exists rest, m'. rewrite Eq in Hd, Hx, Hout, Hf1, Hf2 |- *. cbn [blk mem frames dev next_avail_idx avail_phys free_descs queue_size set_free] in *.
  split; [done|]. split; [done|]. split; [by constructor|]. split; [done|]. split; [|by split; [|split; [|split]]].
  cbn [free_descs set_next_avail set_free]. apply mark_alloc_undo; [lia|done|]. rewrite <- (reverse_involutive rest). by apply Forall_reverse.
Qed.

(** *** One request *)

(** What a request leaves as it was. *)
Record same_disk (w w' : Disk) : Prop := {
  sd_capacity : dv_capacity (dev w') = dv_capacity (dev w) /\ capacity (blk w') = capacity (blk w);
  sd_free : free_descs (queue (blk w')) = free_descs (queue (blk w));
  sd_frames : fs_free (frames w') = fs_free (frames w);
}.

Lemma do_io_spec base w sector buffer is_read : disk_ok base w -> in_width 64 sector ->
  length buffer = 512%nat -> Forall (fun b => 0 <= b < 256) buffer ->
  let '(r, w') := do_io hhdm max_polls sector buffer is_read w in
  (r = io_result (dev w) (dv_status (dev w')) sector buffer is_read /\ disk_ok base w' /\ same_disk w w' /\ io_sectors (dev w) (dev w') sector buffer is_read) \/
  (r = Err (Error "Timeout"%string) /\ gave_up (dev_clock (dev_notify (dev w))) w w').
Proof.
  intros [Oi L Wq Oq Oen Om Oa Os On Ol Oav Ou Of O3 [Oz Ob]] Hsec Hbl Hbb.
  unfold do_io, bindM, take_desc, take_frame.
  destruct (alloc_desc (queue (blk w))) as [[head|] q1] eqn:Ead.
  2:{ destruct (alloc_desc_none _ _ Ead) as [_ Hno]. destruct Oen as ([|i l] & _ & Hl & Hlen); [cbn in Hlen; lia|].
      inversion Hl as [|? ? Hi _]. by apply Hno in Hi. }
  destruct (three_frames (frames w) Of O3) as (hdr & dat & st & f1 & f2 & f3 & E1 & E2 & E3 & Hp & D12 & D13 & D23 & Hback).
  cbn [blk mem frames dev with_queue with_frames]. rewrite E1. cbn [blk mem frames dev with_frames]. rewrite E2.
  cbn [blk mem frames dev with_frames]. rewrite E3. cbn [blk mem frames dev with_frames on_mem with_mem].
  rewrite !Forall_cons in Hp. destruct Hp as ((P1 & A1 & I1) & (P2 & A2 & I2) & (P3 & A3 & I3) & _).
  assert (Forall (fun p => 0 <= p < 2 ^ 52) [hdr; dat; st]) as Hp by (do 3 (apply Forall_cons; split; [done|]); by apply Forall_nil).
  assert (base mod PAGE_SIZE = 0) as Hbase by apply (lay_page _ _ _ L).
  pose proof (pages_apart hdr dat A1 A2 D12) as B12. pose proof (pages_apart hdr st A1 A3 D13) as B13. pose proof (pages_apart dat st A2 A3 D23) as B23.
  assert (apart hdr PAGE_SIZE base PAGE_SIZE /\ apart dat PAGE_SIZE base PAGE_SIZE /\ apart st PAGE_SIZE base PAGE_SIZE) as (B1 & B2 & B3).
  { split; [|split]; apply pages_apart; try done; by intros <-. }
  destruct (prepare_spec hdr dat st sector buffer is_read (mem w) Om Hp B12 B13 B23 Hsec Hbl Hbb) as (Mm & Mty & Mse & Mda & Mch).
  set (m1 := prepare _ _ _ _ _ _ _ _) in *. destruct (ring_addresses base _ L) as (R1 & R2 & R3 & R4).
  assert (forall x, base <= x < base + PAGE_SIZE -> byte m1 x = byte (mem w) x) as Hq1.
  { intros x Hx. apply Mch. unfold apart, PAGE_SIZE in *. lia. }
  assert (dev_avail_idx (avail_phys (queue (blk w))) m1 = dv_seen (dev w)) as Hav1.
  { rewrite <- Oav. apply load_ext. intros x Hx. apply Hq1. unfold PAGE_SIZE in *. lia. }
  set (w1 := mkDisk (set_queue q1 (blk w)) m1 f3 (dev w)).
  destruct (submit_ok base head hdr dat st is_read w1 (queue (blk w)) L Wq Ead Oen Hp) as (rest & m2 & Esub & Hnd & Hr & Hch & Hmark & Hhd & Hx & Hout & Mm2);
    [by intros ->|by intros ->|by intros ->|change (mem w1) with m1; by rewrite Hav1|].
  change (with_mem m1 (with_frames f3 (with_frames f2 (with_frames f1 (with_queue q1 w))))) with w1.
  rewrite Esub. cbn [notify_queue get_timestamp with_dev blk mem frames dev w1]. clear Esub.
  destruct (dv_notify_law (dev w)) as (N1 & N2 & N3 & N4 & N5 & N6 & N7). set (d1 := dev_notify (dev w)) in *.
  set (q2 := set_next_avail _ _) in *. set (w2 := mkDisk (set_queue q2 (set_queue q1 (blk w))) m2 f3 d1).
  assert (layout hhdm base q2) as L2 by (by destruct L).
  assert (queue_wf q2) as W2.
  { destruct Wq as [? Hl]. split; [done|]. cbn [free_descs q2 set_next_avail set_free]. by rewrite length_mark, length_insert. }
  assert (forall x, hdr <= x < hdr + 16 \/ dat <= x < dat + 512 -> byte m2 x = byte m1 x) as Hbuf.
  { intros x Hx'. apply Hout. unfold apart, PAGE_SIZE in *. lia. }
  change (mem w1) with m1 in Hx, Hout. rewrite Hav1 in Hx. rewrite On in Hhd.
  specialize (Mm2 Mm).
  assert (waiting base (dev_clock d1) head hdr dat st sector is_read rest w2) as Wt.
  { constructor; cbn [blk mem frames dev w2 queue set_queue]; try done.
    - rewrite N1, N2, Oa. constructor; cbn [table avail_ring used_ring].
      + done.
      + done.
      + apply (chain_read base _ rest); [done|cbn; lia].
      + rewrite <- Mty. apply load_ext. intros x Hx'. apply Hbuf. lia.
      + rewrite <- Mse. apply load_ext. intros x Hx'. apply Hbuf. lia.
      + unfold apart, PAGE_SIZE in *. lia.
    - by rewrite N1.
    - by rewrite N2.
    - cbn. by rewrite N2.
    - rewrite N2, <- Ou. cbn [q2 used_phys set_next_avail set_free]. transitivity (load 2 (used_phys (queue (blk w)) + 2) m1);
        apply load_ext; intros x Hx'; [apply Hout|apply Hq1]; unfold PAGE_SIZE in *; lia.
    - lia.
    - split; [|done]. do 3 (apply Forall_cons; split; [done|]). by apply Forall_nil. }
  change (with_dev d1 _) with w2.
  pose proof (poll_spec max_polls base (dev_clock d1) head hdr dat st sector is_read rest w2 buffer Wt N5) as Hpoll.
  destruct (poll hhdm max_polls head hdr dat st (dev_clock d1) buffer is_read w2) as [r w'].
  destruct Hpoll as [[-> [F1 F2 F3 F4 F5 F6 F7 F8 F9]]|[-> [G1 G2]]]; cbn [w2 blk mem frames dev queue set_queue] in *;
    [left|right; split; [done|]; constructor; [by rewrite G1, N2|done]].
  destruct Hback as [Hok3 Hfree3]. rewrite <- F2 in Hok3, Hfree3.
  assert (free_descs (queue (blk w')) = free_descs (queue (blk w))) as Hfd by (by rewrite F1).
  split; [unfold io_result; by rewrite N4|]. split; [|split].
  - constructor; rewrite ?F1; cbn [queue set_queue answered_queue set_free set_last_used initialized blk]; try done.
    + by destruct L2.
    + destruct W2 as [? Hl]. split; [done|]. cbn [answered_queue free_descs set_free set_last_used]. by rewrite length_mark.
    + rewrite F1 in Hfd. destruct Oen as (l & ? & Hl & ?). exists l. split; [assumption|]. split; [|assumption].
      eapply Forall_impl; [exact Hl|]. intros x [Hx1 Hx2]. split; [exact Hx1|]. rewrite <- Hx2. f_equal. exact Hfd.
    + by rewrite F4, N1.
    + rewrite F6, N2. by apply wrap_in_width.
    + rewrite F6, N2, <- On. done.
    + rewrite F6, N2, <- Ol. done.
    + rewrite F6. exact F7.
    + rewrite F6. exact F8.
    + by rewrite Hfree3.
    + by rewrite Hfree3.
  - constructor; [rewrite F5, N3, F1; done|done|done].
  - apply (io_sectors_later _ d1); [done|by intros; rewrite N4|]. destruct F9 as [S1 S2 S3]. constructor; [done|done|].
    intros Ho Hwr. rewrite (S3 Ho Hwr), <- (Mda Hwr). apply load_bytes_ext. intros x Hx'. apply Hbuf. lia.
Qed.
End Correct.

(** ** The driver as a disk *)

(** The calls of [mod.rs], and what the caller sees of them. *)
Inductive disk_op : Type := OpRead (sector : Z) (buffer : list Z) | OpWrite (sector : Z) (buffer : list Z).

Definition op_ok (o : disk_op) : Prop :=
  match o with OpRead s b | OpWrite s b => in_width 64 s /\ length b = 512%nat /\ Forall (fun x => 0 <= x < 256) b end.

(** What a disk may answer when the device gives the status [c]: it did what was asked, or
    the status is that of a failure and the caller's buffer comes back as it was.  A write that
    failed leaves its sector open. *)
Inductive disk_answers : Z -> disk_op -> MemDisk -> bool * list Z -> MemDisk -> Prop :=
| da_read s b d bs : mem_read s d = Some bs -> disk_answers VIRTIO_BLK_S_OK (OpRead s b) d (true, bs) d
| da_write s b d d' : mem_write s b d = (true, d') -> disk_answers VIRTIO_BLK_S_OK (OpWrite s b) d (true, b) d'
| da_read_failed c s b d : c <> VIRTIO_BLK_S_OK -> disk_answers c (OpRead s b) d (false, b) d
| da_write_failed c s b d d' : c <> VIRTIO_BLK_S_OK -> mem_capacity d' = mem_capacity d -> (forall s', s' <> s -> mem_read s' d' = mem_read s' d) ->
    disk_answers c (OpWrite s b) d (false, b) d'.

Section Refinement.
Context {S D : Type} `{FP : FramePool S} `{VD : VirtioDevice D}.
Variables (hhdm : Z) (max_polls : nat).
Context `{VL : !VirtioBlkLaws D max_polls}.
(** The page of the queue. *)
Variable base : Z.

Notation Disk := (Disk S D).
Notation Io := (Io (S:=S) (D:=D)).
Notation disk_ok := (disk_ok hhdm max_polls).
Notation same_disk := (same_disk max_polls).
Notation in_range := (in_range max_polls).

Definition driver_op (o : disk_op) (g : option Disk) : (bool * list Z) * option Disk :=
  match o with
  | OpRead s b => disk_read_sector hhdm max_polls s b g
  | OpWrite s b => let (r, g) := disk_write_sector hhdm max_polls s b g in ((r, b), g)
  end.

(** The disk in memory has what the device stores. *)
Record same_contents (w : Disk) (d : MemDisk) : Prop := {
  sc_capacity : mem_capacity d = dv_capacity (dev w);
  sc_sectors : forall s, 0 <= s < mem_capacity d -> mem_read s d = Some (dv_sector (dev w) s);
}.

Definition buffer_of (o : disk_op) : list Z := match o with OpRead _ b => b | OpWrite _ b => b end.

Lemma status_result_cases status (b : list Z) : if status =? VIRTIO_BLK_S_OK then status_result status b = Ok b else exists e, status_result status b = Err (Error e).
Proof. unfold status_result. destruct (status =? VIRTIO_BLK_S_OK); [done|]. destruct (status =? VIRTIO_BLK_S_IOERR); [by eexists|]. destruct (status =? VIRTIO_BLK_S_UNSUPP); by eexists. Qed.

(** The stored sectors after a write that failed. *)
Lemma open_sector w w' d sector data : disk_ok base w' -> same_contents w d -> dv_capacity (dev w') = dv_capacity (dev w) ->
  io_sectors max_polls (dev w) (dev w') sector data false ->
  exists d', mem_capacity d' = mem_capacity d /\ (forall s', s' <> sector -> mem_read s' d' = mem_read s' d) /\ same_contents w' d'.
Proof.
  intros Hok [Ec Hs] Hc [_ Ho _]. exists (mkMem (mem_capacity d) (<[sector := dv_sector (dev w') sector]> (sectors d))). split; [done|]. split.
  - intros s' Hne. unfold mem_read. cbn [mem_capacity sectors]. by rewrite lookup_insert_ne.
  - constructor; cbn [mem_capacity]; [by rewrite Hc|]. intros s Hr. unfold mem_read. cbn [mem_capacity sectors]. rewrite (proj2 (Z.leb_le _ _)), (proj2 (Z.ltb_lt _ _)) by lia. cbn [andb].
    destruct (decide (s = sector)) as [->|Hne]; [rewrite lookup_insert_eq; cbn; f_equal; apply resize_all_alt; by rewrite dv_sector_length|].
    rewrite lookup_insert_ne by done. rewrite Ho by (by right). rewrite <- (Hs s Hr). unfold mem_read. by rewrite (proj2 (Z.leb_le _ _)), (proj2 (Z.ltb_lt _ _)) by lia.
Qed.

(** The request of a call. *)
Definition op_io (o : disk_op) : Io (list Z) :=
  match o with OpRead s b => do_io hhdm max_polls s b true | OpWrite s b => do_io hhdm max_polls s b false end.

Lemma driver_step o w d : disk_ok base w -> same_contents w d -> op_ok o ->
  (exists a w' d', driver_op o (Some w) = (a, Some w') /\ disk_answers (dv_status (dev w')) o d a d' /\ disk_ok base w' /\ same_disk w w' /\ same_contents w' d') \/
  (exists w', driver_op o (Some w) = ((false, buffer_of o), Some w') /\ op_io o w = (Err (Error "Timeout"%string), w') /\ gave_up max_polls (dev_clock (dev_notify (dev w))) w w').
Proof.
  intros Hok Hsame Ho. pose proof Hsame as [Ec Hs].
  destruct o as [s b|s b]; destruct Ho as (Hw & Hl & Hb); cbn [driver_op op_io buffer_of].
  - unfold disk_read_sector, read_sector. rewrite (ok_init _ _ _ _ Hok).
    pose proof (do_io_spec hhdm max_polls base w s b true Hok Hw Hl Hb) as H1. destruct (do_io _ _ _ _ _ _) as [r w'].
    destruct H1 as [(-> & Hok' & Hsd & [B1 B2 _])|[-> G]]; [left|right; by exists w']. unfold io_result.
    assert (same_contents w' d) as Hsame' by (constructor; [by rewrite (proj1 (sd_capacity _ _ _ Hsd))|]; intros s' Hs'; rewrite B2 by (by left); by apply Hs).
    pose proof (status_result_cases (dv_status (dev w')) (dv_sector (dev w) s)) as Hst. destruct (Z.eqb_spec (dv_status (dev w')) VIRTIO_BLK_S_OK) as [E|E].
    + rewrite Hst. exists (true, dv_sector (dev w) s), w', d. split; [done|]. split; [|done]. rewrite E. apply da_read. apply Hs. specialize (B1 E). unfold in_range in B1. rewrite Ec. lia.
    + destruct Hst as [e ->]. exists (false, b), w', d. split; [done|]. split; [by apply da_read_failed|done].
  - unfold disk_write_sector, write_sector, bindM. rewrite (ok_init _ _ _ _ Hok).
    pose proof (do_io_spec hhdm max_polls base w s b false Hok Hw Hl Hb) as H1. destruct (do_io _ _ _ _ _ _) as [r w'].
    destruct H1 as [(-> & Hok' & Hsd & B)|[-> G]]; [left|right; by exists w']. unfold io_result. pose proof B as [B1 B2 B3].
    pose proof (status_result_cases (dv_status (dev w')) b) as Hst. destruct (Z.eqb_spec (dv_status (dev w')) VIRTIO_BLK_S_OK) as [E|E].
    + rewrite Hst. exists (true, b), w', (mem_write s b d).2. split; [done|]. specialize (B1 E). unfold in_range in B1.
      assert (mem_write s b d = (true, mkMem (mem_capacity d) (<[s := b]> (sectors d)))) as Ew by (unfold mem_write; rewrite Ec; by rewrite B1).
      rewrite Ew. split; [rewrite E; by apply da_write|]. split; [done|]. split; [done|]. constructor; cbn [snd mem_capacity]; [by rewrite (proj1 (sd_capacity _ _ _ Hsd))|].
      intros s' Hs'. specialize (Hs s' Hs'). unfold mem_read in *. cbn [mem_capacity sectors]. rewrite (proj2 (Z.leb_le _ _)), (proj2 (Z.ltb_lt _ _)) in * by lia. cbn [andb] in *.
      destruct (decide (s' = s)) as [->|Hne]; [rewrite lookup_insert_eq; cbn; rewrite (B3 E eq_refl); f_equal; by apply resize_all_alt|].
      rewrite lookup_insert_ne by done. rewrite B2 by (by right). exact Hs.
    + destruct Hst as [e ->]. destruct (open_sector w w' d s b Hok' Hsame (proj1 (sd_capacity _ _ _ Hsd)) B) as (d' & C1 & C2 & C3). exists (false, b), w', d'.
      split; [done|]. split; [by apply da_write_failed|done].
Qed.

(** A sequence of calls on a disk in memory: each is answered, and the driver is again in
    working order with the descriptors and frames it had, or the device has not answered it
    for five seconds, the caller is told that it failed, and nothing is said of later calls. *)
Inductive served : list disk_op -> Disk -> MemDisk -> Prop :=
| served_all w d : disk_ok base w -> same_contents w d -> served [] w d
| served_next o ops w d a w' d' : driver_op o (Some w) = (a, Some w') -> disk_answers (dv_status (dev w')) o d a d' ->
    disk_ok base w' -> same_disk w w' -> same_contents w' d' -> served ops w' d' -> served (o :: ops) w d
| served_timeout o ops w d w' : driver_op o (Some w) = ((false, buffer_of o), Some w') -> op_io o w = (Err (Error "Timeout"%string), w') ->
    gave_up max_polls (dev_clock (dev_notify (dev w))) w w' -> served (o :: ops) w d.

End Refinement.

(** ** A device

    A disk that answers at the second poll after a notification, and with an error for
    the sectors of a list; its clock counts in 32 bits. *)

Record DemoDevice : Type := mkDemo {
  dd_addrs : QueueAddrs; dd_seen : Z; dd_capacity : Z; dd_sectors : gmap Z (list Z);
  dd_clock : Z; dd_started : Z; dd_wait : nat; dd_bad : list Z; dd_status : Z
}.

Definition dd_sector (d : DemoDevice) (s : Z) : list Z := (fun b => b mod 256) <$> resize 512 0 (default [] (dd_sectors d !! s)).

Definition demo_notify (d : DemoDevice) : DemoDevice :=
  let c := dd_clock d mod 2 ^ 32 in mkDemo (dd_addrs d) (dd_seen d) (dd_capacity d) (dd_sectors d) c c 1 (dd_bad d) (dd_status d).

Definition demo_answer (head dat st sector : Z) (is_read : bool) (d : DemoDevice) (m : Mem) : DemoDevice * Mem :=
  let ok := (0 <=? sector) && (sector <? dd_capacity d) && negb (bool_decide (sector ∈ dd_bad d)) in
  let status := if ok then VIRTIO_BLK_S_OK else VIRTIO_BLK_S_IOERR in
  let k := dd_seen d in
  let u := used_ring (dd_addrs d) in
  let m1 := if ok && is_read then store_bytes dat (dd_sector d sector) m else m in
  let m1 := store_bytes st [status] m1 in
  let m1 := store 4 (used_slot (dd_addrs d) k + 4) 513 (store 4 (used_slot (dd_addrs d) k) head m1) in
  let m1 := store 2 (u + 2) (k +[16] 1) m1 in
  (mkDemo (dd_addrs d) (k +[16] 1) (dd_capacity d)
     (if ok && negb is_read then <[sector := load_bytes 512 dat m]> (dd_sectors d) else dd_sectors d)
     (dd_clock d) (dd_started d) 0 (dd_bad d) status, m1).

Definition demo_run (d : DemoDevice) (m : Mem) : DemoDevice * Mem :=
  if dev_avail_idx (avail_ring (dd_addrs d)) m =? dd_seen d then (d, m)
  else if (0 <? dd_wait d)%nat
  then (mkDemo (dd_addrs d) (dd_seen d) (dd_capacity d) (dd_sectors d) (Z.min (dd_clock d + 1) (2 ^ 64 - 1)) (dd_started d) (dd_wait d - 1) (dd_bad d) (dd_status d), m)
  else
    let head := dev_head 128 (avail_ring (dd_addrs d)) (dd_seen d) m in
    match dev_chain 128 (table (dd_addrs d)) head m with
    | [(hdr, _, _); (dat, _, is_read); (st, _, _)] => demo_answer head dat st (load 8 (hdr + 8) m) is_read d m
    | _ => (d, m)
    end.

#[global] Instance DemoDevice_device : VirtioDevice DemoDevice :=
  { dev_notify := demo_notify; dev_run := demo_run; dev_clock := dd_clock }.

Lemma dd_sector_length d s : length (dd_sector d s) = 512%nat.
Proof. unfold dd_sector. by rewrite length_fmap, length_resize. Qed.

Lemma dd_sector_bytes d s : Forall (fun b => 0 <= b < 256) (dd_sector d s).
Proof. unfold dd_sector. apply Forall_fmap, Forall_forall. intros b _. by apply Z.mod_pos_bound. Qed.

Lemma load_bytes_range n a m : mem_ok m -> Forall (fun b => 0 <= b < 256) (load_bytes n a m).
Proof.
  intros H. apply Forall_lookup. intros i x E. rewrite lookup_load_bytes in E. destruct (decide _); [|done].
  injection E as <-. apply H.
Qed.

Lemma mod_bytes bs : Forall (fun b => 0 <= b < 256) bs -> (fun b => b mod 256) <$> bs = bs.
Proof. induction 1 as [|b bs Hb _ IH]; [done|]. rewrite fmap_cons, IH. f_equal. by apply Z.mod_small. Qed.

(** The answer is the one the specification asks for. *)
Lemma demo_answer_spec head hdr dat st sector is_read d m : mem_ok m ->
  pending (dd_addrs d) (dd_seen d) head hdr dat st sector is_read m ->
  let '(d', m') := demo_answer head dat st sector is_read d m in
  let ok := (0 <=? sector) && (sector <? dd_capacity d) && negb (bool_decide (sector ∈ dd_bad d)) in let k := dd_seen d in
  mem_ok m' /\ dd_clock d' = dd_clock d /\ dd_started d' = dd_started d /\ dd_addrs d' = dd_addrs d /\ dd_capacity d' = dd_capacity d /\ dd_seen d' = k +[16] 1 /\
  (forall s, dd_sector d' s = if ok && negb is_read && (s =? sector) then load_bytes 512 dat m else dd_sector d s) /\
  changes (fun x => answer_bytes dat st is_read x \/ used_bytes (dd_addrs d) k x) m m' /\
  dd_status d' = (if ok then VIRTIO_BLK_S_OK else VIRTIO_BLK_S_IOERR) /\ byte m' st = dd_status d' /\
  (ok = true -> is_read = true -> load_bytes 512 dat m' = dd_sector d sector) /\
  load 2 (used_ring (dd_addrs d) + 2) m' = k +[16] 1 /\ load 4 (used_slot (dd_addrs d) k) m' = head.
Proof.
  intros Hm [_ Phead _ _ _ (A1 & A2 & A3)]. unfold demo_answer. cbn [dd_addrs dd_capacity dd_seen dd_sectors dd_clock dd_started dd_status].
  set (ok := (0 <=? sector) && _ && _). set (k := dd_seen d) in *. set (l := dd_addrs d) in *. unfold apart in *.
  assert (used_slot l k = used_ring l + 4 + 8 * (k mod 128)) as Eu by done.
  pose proof (Z.mod_pos_bound k 128 ltac:(lia)) as Hk.
  assert (in_width 32 head) as Hhead by (rewrite <- Phead; pose proof (load_in_width 2 (avail_ring l + 4 + 2 * (k mod 128)) m Hm) as Hx; unfold dev_head, in_width in *; lia).
  set (code := if ok then _ else _). assert (0 <= code < 256) as Hcode by (by subst code; destruct ok).
  set (m1 := if ok && is_read then _ else m). set (m2 := store_bytes st [code] m1).
  assert (mem_ok m1) as Hm1 by (subst m1; destruct (ok && is_read); [apply store_bytes_ok; [done|apply dd_sector_bytes]|done]).
  assert (mem_ok m2) as Hm2 by (apply store_bytes_ok; [done|by constructor]).
  assert (forall x, ~ (used_bytes l k x) -> byte (store 2 (used_ring l + 2) (k +[16] 1) (store 4 (used_slot l k + 4) 513 (store 4 (used_slot l k) head m2))) x = byte m2 x) as Hskip.
  { intros x Hx. unfold used_bytes in Hx. unfold store. rewrite !byte_store, !length_le.
    repeat match goal with |- context [(?u <=? x) && (x <? ?v)] => replace ((u <=? x) && (x <? v)) with false by (symmetry; apply andb_false_iff; rewrite Z.leb_gt, Z.ltb_ge; lia) end. done. }
  split; [by repeat apply store_ok|]. do 5 (split; [done|]). split; [|split; [|split; [done|split; [|split; [|split]]]]].
  - intros s. unfold dd_sector at 1. cbn [dd_sectors]. destruct (ok && negb is_read); cbn [andb]; [|done].
    destruct (Z.eqb_spec s sector) as [->|Hne]; [|by rewrite lookup_insert_ne].
    rewrite lookup_insert_eq. change (default [] (Some (load_bytes 512 dat m))) with (load_bytes 512 dat m).
    rewrite resize_all_alt by (by rewrite length_load_bytes). by apply mod_bytes, load_bytes_range.
  - intros x Hx. rewrite Hskip by tauto. unfold m2. rewrite byte_store. cbn [length].
    destruct (Z.leb_spec st x), (Z.ltb_spec x (st + Z.of_nat 1)); cbn [andb]; try (exfalso; apply Hx; left; right; lia);
    (unfold m1; destruct (ok && is_read) eqn:E; [|done]; apply andb_true_iff in E as [_ ->]; rewrite byte_store, dd_sector_length;
    destruct (Z.leb_spec dat x), (Z.ltb_spec x (dat + Z.of_nat 512)); cbn [andb]; try done; exfalso; apply Hx; left; left; split; [done|lia]).
  - rewrite Hskip by (unfold used_bytes; rewrite Eu; lia). unfold m2. rewrite byte_store. cbn [length].
    rewrite Z.leb_refl, (proj2 (Z.ltb_lt _ _)) by lia. cbn [andb]. by rewrite Z.sub_diag.
  - intros Hok ->. rewrite (load_bytes_ext 512 dat m1); [|].
    + unfold m1. rewrite Hok. cbn [andb]. rewrite <- (dd_sector_length d sector) at 1. apply load_store_bytes.
    + intros x Hx. rewrite Hskip by (unfold used_bytes; rewrite Eu; lia). unfold m2. rewrite byte_store. cbn [length].
      destruct (Z.leb_spec st x), (Z.ltb_spec x (st + Z.of_nat 1)); cbn [andb]; done || lia.
  - apply load_store_eq. by apply wrap_in_width.
  - rewrite 2!load_store_ne by (rewrite Eu; lia). by apply load_store_eq.
Qed.

#[global] Instance DemoDevice_laws : VirtioBlkLaws DemoDevice 2.
Proof.
  refine {| dv_addrs := dd_addrs; dv_seen := dd_seen; dv_capacity := dd_capacity; dv_sector := dd_sector; dv_status := dd_status;
            dv_started := dd_started; dv_polls := dd_wait |}.
  - exact dd_sector_length.
  - intros d. cbn. pose proof (Z.mod_pos_bound (dd_clock d) (2 ^ 32) ltac:(lia)). repeat (split; [done || lia|]). lia.
  - intros d m head hdr dat st sector is_read Hm P Hclk. pose proof P as [P1 P2 P3 _ P5 _]. cbn [dev_run dev_clock DemoDevice_device] in *. unfold demo_run.
    rewrite P1. destruct (Z.eqb_spec (dd_seen d +[16] 1) (dd_seen d)) as [E|_].
    { exfalso. apply (wrap16_succ (dd_seen d)); [|done]. rewrite <- E. by apply wrap_in_width. }
    destruct (0 <? dd_wait d)%nat eqn:Ew.
    + apply Nat.ltb_lt in Ew. cbn [dd_addrs dd_seen dd_capacity dd_started dd_clock dd_wait].
      do 4 (split; [done|]). split; [lia|]. split; [done|]. left. split; [done|]. split; [done|]. right. lia.
    + cbv zeta. rewrite P2, P3, P5. pose proof (demo_answer_spec head hdr dat st sector is_read d m Hm P) as Ha.
      destruct (demo_answer head dat st sector is_read d m) as [d' m']. cbv zeta in Ha. destruct Ha as (H1 & Hc & Hs & H2 & H3 & H4 & H5 & H6 & Hst & H7 & H8 & H9 & H10).
      split; [done|]. split; [done|]. split; [done|]. split; [done|]. split; [by rewrite Hc|]. split.
      { intros s Hor. rewrite H5. destruct (_ && negb is_read) eqn:En; cbn [andb]; [|done]. apply andb_true_iff in En as [_ En]. destruct (Z.eqb_spec s sector) as [->|]; [|done]. by destruct Hor as [->|]. }
      right. split; [done|]. split; [done|]. split; [done|]. split; [|done]. intros Ho.
      assert ((0 <=? sector) && (sector <? dd_capacity d) && negb (bool_decide (sector ∈ dd_bad d)) = true) as Eok by (apply not_false_iff_true; intros E; rewrite E in Hst; by rewrite Hst in Ho).
      specialize (H8 Eok). rewrite Eok in H5.
      apply andb_true_iff in Eok as [Eok _]. split; [lia|]. destruct is_read; [by apply H8|]. rewrite H5. cbn [andb negb]. by rewrite Z.eqb_refl.
Defined.

(** ** From set-up to requests *)

(** A queue of 128 entries on a fresh page, given to a device that has answered
    nothing, is a driver in working order. *)
Lemma disk_start {S D} `{FP : FramePool S} `{VD : VirtioDevice D} hhdm max_polls `{VL : !VirtioBlkLaws D max_polls}
    base m q m' notify_off cap (f : S) (d : D) :
  0 <= base < 2 ^ 52 -> base mod PAGE_SIZE = 0 -> mem_ok m ->
  Virtqueue_new hhdm (base +[64] hhdm) base 128 m = (Ok q, m') ->
  dv_addrs d = mkAddrs base (avail_phys q) (used_phys q) -> dv_seen d = 0 ->
  fs_ok f -> (3 <= size (fs_free f))%nat -> 0 ∉ fs_free f -> base ∉ fs_free f ->
  disk_ok hhdm max_polls base (mkDisk (mkBlk q notify_off cap true) m' f d).
Proof.
  intros Hb Hmod Hm E Ea Es Hf H3 Hz Hpage. destruct (new_layout hhdm base 128 m q m' Hb Hmod E) as (L & Hq & Hlen).
  destruct (new_empty hhdm base 128 m q m' Hb Hmod E) as [Hav Hus].
  assert (free_descs q = replicate 128 true /\ next_avail_idx q = 0 /\ last_used_idx q = 0 /\ mem_ok m') as (Efd & En & El & Hm').
  { revert E. unfold Virtqueue_new, size_requirements. destruct (negb _ || _); [done|]. destruct (PAGE_SIZE <? _); [done|].
    intros [= <- <-]. cbn [free_descs next_avail_idx last_used_idx]. repeat (split; [done|]). unfold vstore, zero.
    apply store_ok. repeat (apply store_bytes_ok; [|apply Forall_replicate; lia]). done. }
  constructor; cbn [blk mem frames dev initialized queue]; rewrite ?Es; try done.
  - split; [rewrite Hq; unfold QUEUE_SIZE; lia|]. by rewrite Efd.
  - exists [0; 1; 2]. split; [by apply (bool_decide_unpack _)|]. split; [|done].
    repeat (apply Forall_cons; split; [split; [rewrite Hq; lia|by rewrite Efd]|]). by apply Forall_nil.
Qed.

(** ** Witnesses and counterexamples *)

(** A machine with three usable pages at 2 MiB. *)

Definition three_pages_map : list MemoryMapEntry := [mkEntry 0x200000 0x3000 true].

Definition three_pages : FrameAllocator := init three_pages_map new.

Lemma three_pages_map_ok : Forall entry_ok three_pages_map.
Proof. apply Forall_singleton. by vm_compute. Qed.

Lemma three_pages_wf : wf three_pages.
Proof. exact (proj1 (init_meets_spec three_pages_map new new_wf three_pages_map_ok)). Qed.

Lemma three_pages_free : page_set three_pages = {[0x200000; 0x201000; 0x202000]}.
Proof.
  apply set_eq. intros p. rewrite elem_of_page_set.
  setoid_rewrite (proj2 (init_meets_spec three_pages_map new new_wf three_pages_map_ok)). setoid_rewrite list_elem_of_singleton.
  unfold in_region, LOW_FRAMES, MAX_FRAMES, PAGE_SIZE. rewrite !elem_of_union, !elem_of_singleton. split.
  - intros (f & -> & Hr & e & -> & _ & Hin). cbn in Hin.
    change (2097152 / 4096) with 512 in Hin. change (12288 / 4096) with 3 in Hin. lia.
  - intros Hp. assert (exists f, p = f * 4096 /\ 512 <= f < 515) as (f & -> & Hr).
    { destruct Hp as [[->| ->]| ->]; [exists 512|exists 513|exists 514]; lia. }
    exists f. split; [done|]. split; [change ((1024 * 1024) `div` 4096) with 256; lia|]. eexists. split; [done|]. cbn.
    change (2097152 / 4096) with 512. change (12288 / 4096) with 3. split; [done|lia].
Qed.

Lemma three_pages_ok : fs_ok three_pages /\ fs_free three_pages = {[0x200000; 0x201000; 0x202000]}.
Proof. split; [exact three_pages_wf|exact three_pages_free]. Qed.

Definition demo_device : DemoDevice := mkDemo (mkAddrs demo_base (avail_phys demo_queue) (used_phys demo_queue)) 0 8192 ∅ 0 0 0 [8] 0.
Definition demo_disk : Disk FrameAllocator DemoDevice := mkDisk (mkBlk demo_queue 0 8192 true) demo_mem three_pages demo_device.
Definition demo_sector : list Z := replicate 512 42.

Lemma demo_disk_ok : disk_ok demo_hhdm 2 demo_base demo_disk.
Proof.
  destruct three_pages_ok as [W E].
  refine (disk_start demo_hhdm 2 demo_base ∅ demo_queue demo_mem 0 8192 three_pages demo_device _ _ _ demo_new_ok _ _ W _ _ _).
  - unfold demo_base. lia.
  - vm_compute. reflexivity.
  - intros a. unfold byte. rewrite lookup_empty. split; [discriminate|reflexivity].
  - reflexivity.
  - reflexivity.
  - rewrite E. apply (bool_decide_unpack _). vm_compute. exact I.
  - rewrite E. apply (bool_decide_unpack _). vm_compute. exact I.
  - rewrite E. apply (bool_decide_unpack _). vm_compute. exact I.
Qed.

Lemma demo_contents : same_contents 2 demo_disk (mkMem 8192 ∅).
Proof.
  constructor; [reflexivity|]. intros s Hs. cbn [mem_capacity] in Hs. unfold mem_read. cbn [mem_capacity sectors].
  rewrite (proj2 (Z.leb_le _ _)), (proj2 (Z.ltb_lt _ _)) by lia. cbn [andb]. rewrite lookup_empty.
  assert (dd_sector demo_device s = replicate 512 0) as E.
  { unfold dd_sector, demo_device. cbn [dd_sectors]. rewrite lookup_empty. vm_compute. reflexivity. }
  change (Some (resize 512 0 (default [] (None : option (list Z)))) = Some (dd_sector demo_device s)). rewrite E.
  vm_compute. reflexivity.
Qed.

(** The answers of a sequence of calls, and the state after it. *)
Fixpoint run_ops {T} (step : disk_op -> T -> (bool * list Z) * T) (ops : list disk_op) (t : T) : list (bool * list Z) * T :=
  match ops with
  | [] => ([], t)
  | o :: ops => let (a, t) := step o t in let (l, t) := run_ops step ops t in (a :: l, t)
  end.

(** A write, a read of what was written, a read of a sector that does not exist and
    one of a sector that cannot be read. *)
Definition demo_ops : list disk_op := [OpWrite 7 demo_sector; OpRead 7 (replicate 512 0); OpRead 9000 (replicate 512 1); OpRead 8 (replicate 512 2)].

Lemma op_ok_const s c : in_width 64 s -> 0 <= c < 256 -> op_ok (OpRead s (replicate 512 c)) /\ op_ok (OpWrite s (replicate 512 c)).
Proof. intros Hs Hc. split; (split; [exact Hs|split; [apply length_replicate|by apply Forall_replicate]]). Qed.

Lemma demo_ops_ok : Forall op_ok demo_ops.
Proof.
  apply Forall_cons; split; [apply (op_ok_const 7 42); by vm_compute|].
  apply Forall_cons; split; [apply (op_ok_const 7 0); by vm_compute|].
  apply Forall_cons; split; [apply (op_ok_const 9000 1); by vm_compute|].
  apply Forall_cons; split; [apply (op_ok_const 8 2); by vm_compute|]. by apply Forall_nil.
Qed.


(** When no frame is left, the descriptor that [do_io] has already taken is not
    given back: each such failure takes one for good. *)
Theorem out_of_memory_leaks_descriptor {S D} `{FP : FramePool S} `{VD : VirtioDevice D} hhdm max_polls
    (w : Disk S D) sector buffer is_read i q f :
  queue_wf (queue (blk w)) -> alloc_desc (queue (blk w)) = (Some i, q) -> fs_alloc (frames w) = (None, f) ->
  let '(r, w') := do_io hhdm max_polls sector buffer is_read w in
  r = Err (Error "Out of memory"%string) /\ is_free (queue (blk w)) i /\ ~ is_free (queue (blk w')) i.
Proof.
  intros W Ea Ef. unfold do_io, bindM, take_desc, take_frame. rewrite Ea. cbn [frames with_queue]. rewrite Ef.
  destruct (alloc_desc_some _ _ _ W Ea) as ([Hr E] & -> & _). split; [done|]. split; [done|].
  intros [_ H']. cbn in H'. rewrite list_lookup_insert_eq in H'; [done|]. by eapply lookup_lt_Some.
Qed.

(** A device that never answers. *)
#[global] Instance dead_device : VirtioDevice Z := { dev_notify c := c; dev_run c m := (c + 1000, m); dev_clock c := c }.
Definition dead_disk : Disk FrameAllocator Z := mkDisk (mkBlk demo_queue 0 8192 true) demo_mem three_pages 0.
Definition timed_out : Result (list Z) (Failure string) * Disk FrameAllocator Z := do_io demo_hhdm 10 7 (replicate 512 0) true dead_disk.

(** After a time-out the frames of the request are handed to the next caller
    while the request still stands in the ring: the device may yet write the data
    buffer, and the frame is already somebody else's. *)
Theorem timeout_frees_buffers_in_use :
  timed_out.1 = Err (Error "Timeout"%string) /\
  dev_avail_idx (avail_phys demo_queue) (mem timed_out.2) = 1 /\
  dev_chain 128 demo_base (dev_head 128 (avail_phys demo_queue) 0 (mem timed_out.2)) (mem timed_out.2) =
    [(0x200000, 16, false); (0x201000, 512, true); (0x202000, 1, true)] /\
  (fs_alloc (fs_alloc (frames timed_out.2)).2).1 = Some 0x201000 /\
  take 4 (free_descs (queue (blk timed_out.2))) = [false; false; false; true].
Proof. vm_compute. repeat split. Qed.
