(* ===== verification/VirtioInit.v ===== *)
(** * Finding and starting the disk ([drivers/virtio/pci.rs], [block.rs])

    PCI configuration space through the two ports, the search for the disk, its
    capability list, and the start of the device through its registers up to a
    working queue.  The bus and the registers are parameters. *)

From Stdlib Require Import ZArith Lia Bool.
From stdpp Require Import base numbers option list gmap sets strings.
From S2P Require Import Prelude Bytes Frame Virtqueue VirtioBlk.

Open Scope Z_scope.

(** ** PCI configuration space *)

Definition PCI_VENDOR_ID : Z := 0x00.
Definition PCI_DEVICE_ID : Z := 0x02.
Definition PCI_COMMAND : Z := 0x04.
Definition PCI_BAR0 : Z := 0x10.
Definition PCI_COMMAND_MEMORY : Z := 0x02.
Definition PCI_COMMAND_MASTER : Z := 0x04.
Definition VIRTIO_VENDOR_ID : Z := 0x1AF4.
Definition VIRTIO_BLOCK_DEVICE_ID : Z := 0x1042.

(** A read or write of the data port after its address went to the address port. *)
Class PciBus (B : Type) : Type := {
  bus_read : Z -> B -> Z;
  bus_write : Z -> Z -> B -> B;
}.

Definition pci_config_address (bus device func offset : Z) : Z :=
  Z.lor (Z.lor (Z.lor (Z.lor (Z.shiftl 1 31) (Z.shiftl bus 16)) (Z.shiftl device 11)) (Z.shiftl func 8)) (Z.land offset 0xFC).

Record PciLocation : Type := mkLoc { bus : Z; device : Z; function : Z }.

Section Config.
Context {B : Type} `{PciBus B}.

Definition pci_config_read32 (bus device func offset : Z) (b : B) : Z :=
  bus_read (pci_config_address bus device func offset) b.

Definition pci_config_read16 (bus device func offset : Z) (b : B) : Z :=
  let val := pci_config_read32 bus device func (Z.land offset 0xFC) b in
  let shift := Z.land offset 2 * 8 in
  Z.land (Z.shiftr val shift) 0xFFFF.

Definition pci_config_read8 (bus device func offset : Z) (b : B) : Z :=
  let val := pci_config_read32 bus device func (Z.land offset 0xFC) b in
  let shift := Z.land offset 3 * 8 in
  Z.land (Z.shiftr val shift) 0xFF.

Definition pci_config_write32 (bus device func offset value : Z) (b : B) : B :=
  bus_write (pci_config_address bus device func offset) value b.

Definition pci_config_write16 (bus device func offset value : Z) (b : B) : B :=
  let aligned_offset := Z.land offset 0xFC in
  let val := pci_config_read32 bus device func aligned_offset b in
  let shift := Z.land offset 2 * 8 in
  let mask := wrap 32 (Z.shiftl 0xFFFF shift) in
  let val := Z.lor (Z.land val (wnot 32 mask)) (wrap 32 (Z.shiftl value shift)) in
  pci_config_write32 bus device func aligned_offset val b.

Definition read32 (l : PciLocation) (offset : Z) (b : B) : Z := pci_config_read32 (bus l) (device l) (function l) offset b.
Definition read16 (l : PciLocation) (offset : Z) (b : B) : Z := pci_config_read16 (bus l) (device l) (function l) offset b.
Definition read8 (l : PciLocation) (offset : Z) (b : B) : Z := pci_config_read8 (bus l) (device l) (function l) offset b.
Definition write32 (l : PciLocation) (offset value : Z) (b : B) : B := pci_config_write32 (bus l) (device l) (function l) offset value b.
Definition write16 (l : PciLocation) (offset value : Z) (b : B) : B := pci_config_write16 (bus l) (device l) (function l) offset value b.

Definition enable_bus_mastering (l : PciLocation) (b : B) : B :=
  let cmd := read16 l PCI_COMMAND b in
  write16 l PCI_COMMAND (Z.lor cmd (Z.lor PCI_COMMAND_MEMORY PCI_COMMAND_MASTER)) b.

(** [None] is the failed assertion on the index. *)
Definition read_bar (l : PciLocation) (bar_index : Z) (b : B) : option Z :=
  if bar_index <? 6 then
    let offset := PCI_BAR0 +[8] (bar_index *[8] 4) in
    let bar_low := read32 l offset b in
    Some (if negb (Z.land bar_low 0x04 =? 0) then
            let bar_high := read32 l (offset +[8] 4) b in
            Z.lor (Z.shiftl bar_high 32) (Z.land bar_low (wnot 32 0xF))
          else Z.land bar_low (wnot 32 0xF))
  else None.

(** *** The search

    The three nested loops; [break] leaves the loop over the functions. *)

Fixpoint scan_functions (bus device : Z) (functions : list Z) (b : B) : option PciLocation :=
  match functions with
  | [] => None
  | function :: rest =>
      let vendor := pci_config_read16 bus device function PCI_VENDOR_ID b in
      if vendor =? 0xFFFF then
        if function =? 0 then None else scan_functions bus device rest b
      else if vendor =? VIRTIO_VENDOR_ID then
        if pci_config_read16 bus device function PCI_DEVICE_ID b =? VIRTIO_BLOCK_DEVICE_ID
        then Some (mkLoc bus device function) else scan_functions bus device rest b
      else scan_functions bus device rest b
  end.

Fixpoint scan_devices (bus : Z) (devices : list Z) (b : B) : option PciLocation :=
  match devices with
  | [] => None
  | device :: rest =>
      match scan_functions bus device (seqZ 0 8) b with Some l => Some l | None => scan_devices bus rest b end
  end.

Fixpoint scan_buses (buses : list Z) (b : B) : option PciLocation :=
  match buses with
  | [] => None
  | bus :: rest =>
      match scan_devices (bus mod 2 ^ 8) (seqZ 0 32) b with Some l => Some l | None => scan_buses rest b end
  end.

Definition scan_for_virtio_block (b : B) : option PciLocation := scan_buses (seqZ 0 256) b.

(** *** Capabilities *)

Record VirtioCapabilities : Type := mkCaps {
  common_bar_addr : Z; notify_bar_addr : Z; device_bar_addr : Z; isr_bar_addr : Z; notify_off_multiplier : Z
}.
Definition caps_default : VirtioCapabilities := mkCaps 0 0 0 0 0.

(** The [match] on the type of a virtio capability at [cap_ptr]. *)
Definition add_capability (l : PciLocation) (b : B) (cap_ptr cfg_type addr : Z) (c : VirtioCapabilities) : VirtioCapabilities :=
  if cfg_type =? 1 then mkCaps addr (notify_bar_addr c) (device_bar_addr c) (isr_bar_addr c) (notify_off_multiplier c)
  else if cfg_type =? 2 then mkCaps (common_bar_addr c) addr (device_bar_addr c) (isr_bar_addr c) (read32 l (cap_ptr +[8] 16) b)
  else if cfg_type =? 4 then mkCaps (common_bar_addr c) (notify_bar_addr c) addr (isr_bar_addr c) (notify_off_multiplier c)
  else if cfg_type =? 3 then mkCaps (common_bar_addr c) (notify_bar_addr c) (device_bar_addr c) addr (notify_off_multiplier c)
  else c.

(** One round; [read_bar] is called only with an index below 6. *)
Definition one_capability (l : PciLocation) (b : B) (cap_ptr : Z) (c : VirtioCapabilities) : VirtioCapabilities :=
  if read8 l cap_ptr b =? 0x09 then
    let cfg_type := read8 l (cap_ptr +[8] 3) b in
    let bar := read8 l (cap_ptr +[8] 4) b in
    let offset := read32 l (cap_ptr +[8] 8) b in
    match read_bar l bar b with
    | None => c
    | Some bar_addr =>
        if bar_addr =? 0 then c else add_capability l b cap_ptr cfg_type (bar_addr +[64] offset) c
    end
  else c.

Fixpoint walk_capabilities (rounds : nat) (l : PciLocation) (b : B) (cap_ptr : Z) (c : VirtioCapabilities) : VirtioCapabilities :=
  match rounds with
  | O => c
  | S rounds =>
      if (cap_ptr =? 0) || (cap_ptr =? 0xFF) then c
      else walk_capabilities rounds l b (read8 l (cap_ptr +[8] 1) b) (one_capability l b cap_ptr c)
  end.

Definition parse_capabilities (l : PciLocation) (b : B) : Result VirtioCapabilities string :=
  let cap_ptr := read8 l 0x34 b in
  if (cap_ptr =? 0) || (cap_ptr =? 0xFF) then Err "No capability list"%string
  else
    let caps := walk_capabilities 64 l b cap_ptr caps_default in
    if common_bar_addr caps =? 0 then Err "Common config not found"%string else Ok caps.

End Config.

(** ** The registers *)

Definition VIRTIO_STATUS_ACKNOWLEDGE : Z := 1.
Definition VIRTIO_STATUS_DRIVER : Z := 2.
Definition VIRTIO_STATUS_FEATURES_OK : Z := 8.
Definition VIRTIO_STATUS_DRIVER_OK : Z := 4.
Definition VIRTIO_STATUS_FAILED : Z := 128.
Definition VIRTIO_F_VERSION_1 : Z := Z.shiftl 1 32.

Inductive CommonCfgOffset : Type :=
| DeviceFeatureSelect | DeviceFeature | DriverFeatureSelect | DriverFeature | ConfigMsixVector | NumQueues
| DeviceStatus | ConfigGeneration | QueueSelect | QueueSize | QueueMsixVector | QueueEnable | QueueNotifyOff
| QueueDesc | QueueAvail | QueueUsed.

(** The registers of the common configuration, which may change by themselves,
    and the capacity in the device configuration. *)
Class VirtioRegs (D : Type) : Type := {
  reg_read : CommonCfgOffset -> D -> Z * D;
  reg_write : CommonCfgOffset -> Z -> D -> D;
  config_capacity : D -> Z;
}.

Section Start.
Context {S D : Type} `{FP : FramePool S} `{VR : VirtioRegs D}.
Variable hhdm : Z.
Notation Disk := (Disk S D).
Notation Init := (M Disk string).

Definition read_common (r : CommonCfgOffset) : Init Z := fun w => let (v, d) := reg_read r (dev w) in (Ok v, with_dev d w).
Definition write_common (r : CommonCfgOffset) (v : Z) : Init unit := fun w => (Ok tt, with_dev (reg_write r v (dev w)) w).

(** [for _ in 0..n]: read the status until [done] tells how to leave the loop. *)
Fixpoint poll_status (n : nat) (done : Z -> option (Result unit string)) : Init (option (Result unit string)) :=
  match n with
  | O => ret None
  | Datatypes.S n =>
      do status <- read_common DeviceStatus;
      match done status with Some r => ret (Some r) | None => poll_status n done end
  end.

(** How the loop ended, with the error after it. *)
Definition finish (r : option (Result unit string)) (otherwise : Result unit string) : Init unit :=
  fun w => (default otherwise r, w).

Definition reset : Init unit :=
  do_ write_common DeviceStatus 0;
  do_ poll_status 10000 (fun s => if s =? 0 then Some (Ok tt) else None);
  do_ write_common DeviceStatus VIRTIO_STATUS_ACKNOWLEDGE;
  do status <- read_common DeviceStatus;
  write_common DeviceStatus (Z.lor status VIRTIO_STATUS_DRIVER).

Definition negotiate_features : Init unit :=
  do_ write_common DeviceFeatureSelect 0;
  do_ read_common DeviceFeature;
  do_ write_common DeviceFeatureSelect 1;
  do_ read_common DeviceFeature;
  do_ write_common DriverFeatureSelect 0;
  do_ write_common DriverFeature (VIRTIO_F_VERSION_1 mod 2 ^ 32);
  do_ write_common DriverFeatureSelect 1;
  do_ write_common DriverFeature (Z.shiftr VIRTIO_F_VERSION_1 32 mod 2 ^ 32);
  do status <- read_common DeviceStatus;
  do_ write_common DeviceStatus (Z.lor status VIRTIO_STATUS_FEATURES_OK);
  do r <- poll_status 1000 (fun s => if negb (Z.land s VIRTIO_STATUS_FEATURES_OK =? 0) then Some (Ok tt) else None);
  finish r (Err "Device rejected features"%string).

(** The loop that halves the queue until it fits a page; [None] is its error. *)
Fixpoint fit_queue (fuel : nat) (queue_size : Z) : option Z :=
  match fuel with
  | O => None
  | Datatypes.S fuel =>
      let '(_, _, used_offset) := size_requirements queue_size in
      if used_offset + (6 + 8 * queue_size) <=? PAGE_SIZE then Some queue_size
      else if queue_size <=? 16 then None else fit_queue fuel (queue_size / 2)
  end.

Definition take_page : Init Z := fun w =>
  match fs_alloc (frames w) with
  | (Some p, f) => (Ok p, with_frames f w)
  | (None, f) => (Err "Out of memory"%string, with_frames f w)
  end.

Definition make_queue (queue_phys queue_size : Z) : Init unit := fun w =>
  let queue_virt := queue_phys +[64] hhdm in
  let m := zero hhdm queue_virt 4096 (mem w) in
  match Virtqueue_new hhdm queue_virt queue_phys queue_size m with
  | (Ok q, m) => (Ok tt, with_queue q (with_mem m w))
  | (Err e, m) => (Err e, with_mem m w)
  end.

Definition set_notify_off (n : Z) : Init unit := fun w =>
  (Ok tt, mkDisk (mkBlk (queue (blk w)) n (capacity (blk w)) (initialized (blk w))) (mem w) (frames w) (dev w)).
Definition set_capacity (c : Z) : Init unit := fun w =>
  (Ok tt, mkDisk (mkBlk (queue (blk w)) (queue_notify_off (blk w)) c (initialized (blk w))) (mem w) (frames w) (dev w)).

Definition setup_queue : Init unit :=
  do_ write_common QueueSelect 0;
  do max_queue_size <- read_common QueueSize;
  if max_queue_size =? 0 then throw "Queue not available"%string
  else
    match fit_queue 5 (Z.min max_queue_size 128) with
    | None => throw "Cannot fit queue in one page"%string
    | Some queue_size =>
        do queue_phys <- take_page;
        do_ make_queue queue_phys queue_size;
        fun w =>
          let '(desc_phys, avail_phys, used_phys) := get_addresses (queue (blk w)) in
          (do_ write_common QueueSize queue_size;
           do_ write_common QueueDesc desc_phys;
           do_ write_common QueueAvail avail_phys;
           do_ write_common QueueUsed used_phys;
           do off <- read_common QueueNotifyOff;
           do_ set_notify_off off;
           do_ write_common QueueEnable 1;
           do enabled <- read_common QueueEnable;
           if negb (enabled =? 1) then throw "Failed to enable queue"%string else ret tt) w
    end.

Definition read_device_config : Init unit := fun w =>
  let c := config_capacity (dev w) in
  if c =? 0 then (throw "Device reported zero capacity"%string) (set_capacity c w).2 else set_capacity c w.

Definition set_driver_ok : Init unit :=
  do status <- read_common DeviceStatus;
  do_ write_common DeviceStatus (Z.lor status VIRTIO_STATUS_DRIVER_OK);
  do r <- poll_status 1000 (fun s => if negb (Z.land s VIRTIO_STATUS_FAILED =? 0) then Some (Err "Device failed"%string)
                                     else if negb (Z.land s VIRTIO_STATUS_DRIVER_OK =? 0) then Some (Ok tt) else None);
  finish r (Err "Device did not become ready"%string).

Definition set_initialized : Init unit := fun w =>
  (Ok tt, mkDisk (mkBlk (queue (blk w)) (queue_notify_off (blk w)) (capacity (blk w)) true) (mem w) (frames w) (dev w)).

(** The part of [VirtioBlockDevice::new] after the registers were mapped. *)
Definition bring_up : Init unit :=
  do_ reset; do_ negotiate_features; do_ setup_queue; do_ read_device_config; do_ set_driver_ok; set_initialized.

End Start.

(** ** The search, as one search of a list *)

Section Scan.
Context {B : Type} `{PciBus B}.

(** A function that the search looks at, and one it is looking for. *)
Definition present (b : B) (l : PciLocation) : bool :=
  negb (pci_config_read16 (bus l) (device l) 0 PCI_VENDOR_ID b =? 0xFFFF) &&
  negb (pci_config_read16 (bus l) (device l) (function l) PCI_VENDOR_ID b =? 0xFFFF).
Definition is_disk (b : B) (l : PciLocation) : bool :=
  present b l && (pci_config_read16 (bus l) (device l) (function l) PCI_VENDOR_ID b =? VIRTIO_VENDOR_ID) &&
  (pci_config_read16 (bus l) (device l) (function l) PCI_DEVICE_ID b =? VIRTIO_BLOCK_DEVICE_ID).

Definition functions_of (bus device : Z) : list PciLocation := mkLoc bus device <$> seqZ 0 8.
Definition devices_of (bus : Z) : list PciLocation := seqZ 0 32 ≫= functions_of bus.
Definition all_locations : list PciLocation := seqZ 0 256 ≫= devices_of.

Lemma find_app {A} (p : A -> bool) (l1 l2 : list A) :
  List.find p (l1 ++ l2) = match List.find p l1 with Some x => Some x | None => List.find p l2 end.
Proof. induction l1 as [|x l1 IH]; cbn; [done|]. by destruct (p x). Qed.

Lemma scan_functions_find b bus device fs : Forall (fun f => f <> 0) fs ->
  pci_config_read16 bus device 0 PCI_VENDOR_ID b =? 0xFFFF = false ->
  scan_functions bus device fs b = List.find (is_disk b) (mkLoc bus device <$> fs).
Proof.
  intros Hfs H0. induction Hfs as [|f fs Hf _ IH]; [done|]. rewrite fmap_cons. cbn [scan_functions List.find]. rewrite <- IH.
  unfold is_disk, present. cbn [VirtioInit.bus VirtioInit.device VirtioInit.function]. rewrite H0. cbn [negb andb].
  destruct (Z.eqb_spec (pci_config_read16 bus device f PCI_VENDOR_ID b) 0xFFFF) as [->|Hv]; [by rewrite (proj2 (Z.eqb_neq f 0))|].
  cbn [negb andb]. destruct (_ =? VIRTIO_VENDOR_ID); [|done]. cbn [andb]. by destruct (_ =? VIRTIO_BLOCK_DEVICE_ID).
Qed.

Lemma scan_device_find b bus device : scan_functions bus device (seqZ 0 8) b = List.find (is_disk b) (functions_of bus device).
Proof.
  unfold functions_of. change (seqZ 0 8) with ([0] ++ seqZ 1 7). rewrite fmap_app, find_app. cbn [app scan_functions fmap list_fmap List.find].
  destruct (pci_config_read16 bus device 0 PCI_VENDOR_ID b =? 0xFFFF) eqn:E.
  - assert (forall f, is_disk b (mkLoc bus device f) = false) as Hno
      by (intros; unfold is_disk, present; cbn [VirtioInit.bus VirtioInit.device VirtioInit.function]; by rewrite E).
    rewrite Hno. change (0 =? 0) with true. symmetry. destruct (List.find _ _) as [l|] eqn:F; [|done].
    apply List.find_some in F as [Hin F]. apply list_elem_of_In, list_elem_of_fmap in Hin as (f & -> & _). by rewrite Hno in F.
  - assert (Forall (fun f => f <> 0) (seqZ 1 7)) as Hs by (by apply (bool_decide_unpack _)).
    rewrite <- (scan_functions_find b bus device _ Hs E).
    unfold is_disk, present. cbn [VirtioInit.bus VirtioInit.device VirtioInit.function]. rewrite E. cbn [negb andb].
    destruct (_ =? VIRTIO_VENDOR_ID); [|done]. cbn [andb]. by destruct (_ =? VIRTIO_BLOCK_DEVICE_ID).
Qed.

Lemma scan_devices_find b bus ds : scan_devices bus ds b = List.find (is_disk b) (ds ≫= functions_of bus).
Proof.
  induction ds as [|d ds IH]; [done|]. cbn [scan_devices]. rewrite scan_device_find, bind_cons, find_app, IH. done.
Qed.

(** The three nested loops, with their [break], find the first location in the
    order of bus, device and function that is the disk; functions behind an absent
    function 0 are not looked at. *)
Theorem scan_is_find (b : B) : scan_for_virtio_block b = List.find (is_disk b) all_locations.
Proof.
  unfold scan_for_virtio_block, all_locations.
  assert (Forall (fun i => i mod 2 ^ 8 = i) (seqZ 0 256)) as Hb by (apply (bool_decide_unpack _); vm_compute; exact I).
  induction Hb as [|i l Hi _ IH]; [done|]. cbn [scan_buses]. rewrite Hi, scan_devices_find, bind_cons, find_app, IH. done.
Qed.
End Scan.

(** ** Starting the device *)

Section Started.
Context {S D : Type} `{FP : FramePool S} `{VR : VirtioRegs D}.
Variable hhdm : Z.
Notation Disk := (Disk S D).

(** Only the device has changed. *)
Definition only_dev (w w' : Disk) : Prop := blk w' = blk w /\ mem w' = mem w /\ frames w' = frames w.

Lemma only_dev_trans w1 w2 w3 : only_dev w1 w2 -> only_dev w2 w3 -> only_dev w1 w3.
Proof. unfold only_dev. intros (? & ? & ?) (? & ? & ?). split; [|split]; congruence. Qed.

(** A computation that talks to the device only. *)
Definition device_only {A} (f : M Disk string A) : Prop := forall w, only_dev w (f w).2.

Lemma device_only_bind {A B} (f : M Disk string A) (g : A -> M Disk string B) :
  device_only f -> (forall a, device_only (g a)) -> device_only (bindM f g).
Proof.
  intros Hf Hg w. unfold bindM. specialize (Hf w). destruct (f w) as [[a|e] w1]; [|done].
  apply (only_dev_trans w w1); [done|]. apply Hg.
Qed.

Lemma device_only_read r : device_only (read_common (S := S) r).
Proof. intros w. unfold read_common. by destruct (reg_read r (dev w)). Qed.
Lemma device_only_write r v : device_only (write_common (S := S) r v).
Proof. done. Qed.
Lemma device_only_ret {A} (a : A) : device_only (ret a).
Proof. done. Qed.
Lemma device_only_throw {A} e : device_only (throw e : M Disk string A).
Proof. done. Qed.
Lemma device_only_finish r o : device_only (finish (S := S) (D := D) r o).
Proof. done. Qed.

Lemma device_only_poll n done : device_only (poll_status (S := S) n done).
Proof.
  induction n as [|n IH]; cbn [poll_status]; [apply device_only_ret|]. apply device_only_bind; [apply device_only_read|].
  intros s. destruct (done s); [apply device_only_ret|apply IH].
Qed.

Hint Resolve device_only_bind device_only_read device_only_write device_only_ret device_only_throw device_only_finish device_only_poll : device.

Lemma device_only_reset : device_only (reset (S := S)).
Proof. unfold reset. auto 10 with device. Qed.
Lemma device_only_negotiate : device_only (negotiate_features (S := S)).
Proof. unfold negotiate_features. auto 20 with device. Qed.
Lemma device_only_driver_ok : device_only (set_driver_ok (S := S)).
Proof. unfold set_driver_ok. auto 10 with device. Qed.

Lemma device_only_ok (f : M Disk string unit) w w' a : device_only f -> f w = (Ok a, w') -> only_dev w w'.
Proof. intros Hf E. specialize (Hf w). by rewrite E in Hf. Qed.

(** The halving loop never goes round: every size up to 128 fits. *)
Lemma fit_queue_fits q : 1 <= q <= 128 -> fit_queue 5 q = Some q.
Proof.
  intros Hq. assert (forallb (fun q => bool_decide (fit_queue 5 q = Some q)) (seqZ 1 128) = true) as Hall by (vm_compute; reflexivity).
  rewrite forallb_forall in Hall. assert (In q (seqZ 1 128)) as Hin by (apply list_elem_of_In, elem_of_seqZ; lia).
  specialize (Hall q Hin). by apply bool_decide_eq_true in Hall.
Qed.

(** What is done with the queue once it exists talks to the device only, but for
    the notification offset. *)
Lemma finish_queue_ok d1 d2 d3 queue_size (w w' : Disk) :
  (do_ write_common QueueSize queue_size;
   do_ write_common QueueDesc d1;
   do_ write_common QueueAvail d2;
   do_ write_common QueueUsed d3;
   do off <- read_common QueueNotifyOff;
   do_ set_notify_off off;
   do_ write_common QueueEnable 1;
   do enabled <- read_common QueueEnable;
   if negb (enabled =? 1) then throw "Failed to enable queue"%string else ret tt) w = (Ok tt, w') ->
  queue (blk w') = queue (blk w) /\ mem w' = mem w /\ frames w' = frames w.
Proof.
  unfold bindM, write_common, read_common, set_notify_off, with_dev. cbn [blk mem frames dev].
  destruct (reg_read QueueNotifyOff _) as [off d]. cbn [blk mem frames dev]. destruct (reg_read QueueEnable _) as [en d'].
  destruct (negb _); [done|]. intros [= <-]. done.
Qed.

(** [q] is a fresh queue on the page [base]. *)
Record fresh_queue (base : Z) (q : Virtqueue) (m : Mem) : Prop := {
  fq_layout : layout hhdm base q;
  fq_wf : queue_wf q;
  fq_free : forall i, 0 <= i < queue_size q -> is_free q i;
  fq_counters : next_avail_idx q = 0 /\ last_used_idx q = 0 /\ dev_avail_idx (avail_phys q) m = 0 /\ load 2 (used_phys q + 2) m = 0;
}.

Lemma new_fresh base qs m q m' : 0 <= base < 2 ^ 52 -> base mod PAGE_SIZE = 0 ->
  Virtqueue_new hhdm (base +[64] hhdm) base qs m = (Ok q, m') -> fresh_queue base q m'.
Proof.
  intros Hb Hm E. destruct (new_layout hhdm base qs m q m' Hb Hm E) as (L & Hq & Hlen).
  destruct (new_empty hhdm base qs m q m' Hb Hm E) as [Hav Hus].
  pose proof (size_bounds _ (lay_size _ _ _ L)) as (Hs & _). constructor.
  - done.
  - split; [unfold QUEUE_SIZE; lia|done].
  - intros i Hi. split; [done|]. rewrite Hq in Hi. revert E. unfold Virtqueue_new, size_requirements.
    destruct (negb _ || _); [done|]. destruct (PAGE_SIZE <? _); [done|]. intros [= <- _]. cbn [free_descs].
    rewrite lookup_app_l by (rewrite length_replicate; lia). apply lookup_replicate_2. lia.
  - split; [|split; [|done]]; revert E; unfold Virtqueue_new, size_requirements;
      (destruct (negb _ || _); [done|]; destruct (PAGE_SIZE <? _); [done|]; intros [= <- _]; done).
Qed.

Lemma setup_queue_ok (w w' : Disk) : fs_ok (frames w) -> (forall d, 0 <= (reg_read QueueSize d).1) ->
  setup_queue hhdm w = (Ok tt, w') ->
  exists base, base ∈ fs_free (frames w) /\ fs_free (frames w') = fs_free (frames w) ∖ {[base]} /\ fs_ok (frames w') /\
    fresh_queue base (queue (blk w')) (mem w') /\
    forall x, ~ (base <= x < base + PAGE_SIZE) -> byte (mem w') x = byte (mem w) x.
Proof.
  intros Hok Hreg. unfold setup_queue, bindM at 1 2, write_common, read_common. cbn [blk mem frames dev with_dev].
  destruct (reg_read QueueSize _) as [mq d] eqn:Er. cbn [blk mem frames dev with_dev].
  specialize (Hreg (reg_write QueueSelect 0 (dev w))). rewrite Er in Hreg. cbn [fst] in Hreg.
  destruct (Z.eqb_spec mq 0) as [|Hz]; [done|]. rewrite fit_queue_fits by lia.
  unfold bindM at 1, take_page. cbn [blk mem frames dev with_dev].
  destruct (fs_alloc (frames w)) as [[base|] f] eqn:Ea; [|done].
  destruct (fs_alloc_some _ _ _ Hok Ea) as (Hin & Ef & Hok'). destruct (fs_page _ _ Hok Hin) as [Hb Hm].
  unfold bindM at 1, make_queue. cbn [blk mem frames dev with_dev with_frames].
  destruct (Virtqueue_new hhdm (base +[64] hhdm) base _ _) as [[q|e] m] eqn:En; [|done].
  intros E. apply finish_queue_ok in E as (Eq & Em & Efr). cbn [blk mem frames dev with_queue with_mem with_dev with_frames queue set_queue] in *.
  exists base. rewrite Efr, Eq, Em. split; [done|]. split; [done|]. split; [done|].
  split; [by apply (new_fresh base _ _ q m Hb Hm En)|]. intros x Hx.
  destruct (new_layout hhdm base _ _ q m Hb Hm En) as (L & _). destruct (ring_addresses hhdm base q L) as (R1 & R2 & R3 & R4).
  rewrite (new_memory hhdm base _ _ q m Hb Hm En). unfold PAGE_SIZE in *.
  rewrite !region_out by lia. cbn [orb]. rewrite byte_zero, (phys_frame hhdm base Hb).
  destruct (Z.leb_spec base x), (Z.ltb_spec x (base + Z.of_nat 4096)); cbn [andb]; done || lia.
Qed.

(** When the start-up succeeds, exactly one frame has been taken from the pool,
    the queue on it is in its initial state with every descriptor free and its
    size and layout as the device expects, memory outside that frame is as before,
    and the driver is marked ready with a capacity that is not zero. *)
Theorem bring_up_correct (w w' : Disk) : fs_ok (frames w) -> (forall d, 0 <= (reg_read QueueSize d).1) ->
  bring_up hhdm w = (Ok tt, w') ->
  exists base, base ∈ fs_free (frames w) /\ fs_free (frames w') = fs_free (frames w) ∖ {[base]} /\ fs_ok (frames w') /\
    fresh_queue base (queue (blk w')) (mem w') /\
    (forall x, ~ (base <= x < base + PAGE_SIZE) -> byte (mem w') x = byte (mem w) x) /\
    initialized (blk w') = true /\ capacity (blk w') <> 0.
Proof.
  intros Hok Hreg E. unfold bring_up in E.
  apply bindM_ok in E as ([] & w1 & E1 & E). apply (device_only_ok _ _ _ _ device_only_reset) in E1 as (B1 & M1 & F1).
  apply bindM_ok in E as ([] & w2 & E2 & E). apply (device_only_ok _ _ _ _ device_only_negotiate) in E2 as (B2 & M2 & F2).
  apply bindM_ok in E as ([] & w3 & E3 & E). apply setup_queue_ok in E3 as (base & Hin & Hfree & Hok3 & Hq & Hm); [|by rewrite F2, F1|done].
  apply bindM_ok in E as ([] & w4 & E4 & E). apply bindM_ok in E as ([] & w5 & E5 & E).
  apply (device_only_ok _ _ _ _ device_only_driver_ok) in E5 as (B5 & M5 & F5).
  unfold read_device_config, set_capacity in E4. destruct (Z.eqb_spec (config_capacity (dev w3)) 0) as [|Hc]; [done|].
  injection E4 as <-. injection E as <-. cbn [blk mem frames dev queue capacity initialized] in *.
  exists base. rewrite F5, M5, B5. cbn [queue capacity]. rewrite <- F1, <- F2, <- M1, <- M2. done.
Qed.
End Started.

(** ** Witness *)

(** A device whose status register keeps what is written to it. *)
Record DemoRegs : Type := mkRegs { r_status : Z; r_enable : Z }.

#[global] Instance DemoRegs_regs : VirtioRegs DemoRegs := {
  reg_read r d := (match r with DeviceStatus => r_status d | QueueSize => 256 | QueueEnable => r_enable d | _ => 0 end, d);
  reg_write r v d := match r with DeviceStatus => mkRegs v (r_enable d) | QueueEnable => mkRegs (r_status d) v | _ => d end;
  config_capacity _ := 8192 }.

Definition cold_disk : Disk FrameAllocator DemoRegs := mkDisk (mkBlk demo_queue 0 0 false) ∅ three_pages (mkRegs 0 0).

Lemma bring_up_correct_witness : exists w', bring_up demo_hhdm cold_disk = (Ok tt, w') /\ initialized (blk w') = true /\ capacity (blk w') <> 0.
Proof.
  assert (is_ok (bring_up demo_hhdm cold_disk).1 = true) as Hok by (vm_compute; reflexivity).
  destruct (bring_up demo_hhdm cold_disk) as [[[]|e] w'] eqn:E; [|discriminate Hok].
  exists w'. split; [reflexivity|].
  destruct (bring_up_correct demo_hhdm cold_disk w') as (base & _ & _ & _ & _ & _ & H1 & H2).
  - exact three_pages_wf.
  - intros d. discriminate.
  - exact E.
  - split; [exact H1|exact H2].
Defined.
