(* ===== verification/PsychicFs.v ===== *)
(** * PsychicFS ([kernel/src/fs/psychicfs.rs])

    The extent-based filesystem: its on-disk structures as bytes, the block
    cache, the block bitmap, and the file operations.  The disk under it is any
    [BlockDevice]; [Machine] holds what the compiler and the interrupts leave
    undetermined.  Operations that return [bool] or [Option] are in the state
    and error monad: [false] and [None] are [Err tt]. *)

From Stdlib Require Import ZArith Lia Bool Ascii.
From stdpp Require Import base numbers option list gmap.
From S2P Require Import Prelude Bytes BlockDevice.

(** ** The machine

    [padding] is what padding bytes of a structure hold when it is copied as
    raw memory, [stack] the memory after a buffer on the stack, and [tick] moves
    the clock from one reading to the next. *)
Class Machine : Type := { padding : nat -> Z; stack : list Z; tick : Z -> Z }.

(** ** Constants *)

Definition FS_MAGIC : Z := 0x50535946.
Definition FS_VERSION : Z := 3.
Definition SUPERBLOCK_SECTOR : Z := 0.
Definition INODE_TABLE_START : Z := 1.
Definition INODE_TABLE_SECTORS : Z := 64.
Definition BITMAP_SECTOR : Z := 65.
Definition DATA_BLOCKS_START : Z := 128.
Definition MAX_FILENAME_LEN : nat := 48.
Definition MAX_FILES : Z := 256.
Definition BLOCK_SIZE : nat := 512.
Definition INLINE_EXTENTS : nat := 4.
Definition CACHE_SIZE : nat := 32.

(** ** Extents *)

Record Extent : Type := mkExtent { logical_block : Z; physical_block : Z; count : Z }.

Definition Extent_empty : Extent := mkExtent 0 0 0.
Definition is_empty (e : Extent) : bool := count e =? 0.
Definition contains (logical : Z) (e : Extent) : bool :=
  negb (is_empty e) && (logical_block e <=? logical) && (logical <? logical_block e +[16] count e).
Definition translate (logical : Z) (e : Extent) : option Z :=
  if contains logical e then Some (physical_block e +[32] (logical -[16] logical_block e)) else None.

(** ** Inodes *)

Record Inode : Type := mkInode {
  in_use : Z; file_type : Z; permissions : Z; size : Z; created_time : Z; modified_time : Z;
  extents : list Extent; extent_indirect : Z; last_extent_idx : Z; extent_count : Z;
  name : list Z; dirty : Z; reserved : list Z }.

(** [0o644] is 420. *)
Definition Inode_new : Inode :=
  mkInode 0 0 420 0 0 0 (replicate INLINE_EXTENTS Extent_empty) 0 0 0
          (replicate MAX_FILENAME_LEN 0) 0 (replicate 7 0).

(** [core::str::from_utf8] accepts a byte string. *)
Definition cont (b : Z) : bool := (128 <=? b) && (b <=? 191).
Definition second3 (a b : Z) : bool :=
  if a =? 0xE0 then (0xA0 <=? b) && (b <=? 0xBF) else if a =? 0xED then (0x80 <=? b) && (b <=? 0x9F) else cont b.
Definition second4 (a b : Z) : bool :=
  if a =? 0xF0 then (0x90 <=? b) && (b <=? 0xBF) else if a =? 0xF4 then (0x80 <=? b) && (b <=? 0x8F) else cont b.
Fixpoint utf8_valid (s : list Z) : bool :=
  match s with
  | [] => true
  | a :: r =>
      if a <? 128 then utf8_valid r else
      match r with
      | [] => false
      | b :: r1 =>
          if (0xC2 <=? a) && (a <=? 0xDF) then cont b && utf8_valid r1 else
          match r1 with
          | [] => false
          | c :: r2 =>
              if (0xE0 <=? a) && (a <=? 0xEF) then second3 a b && cont c && utf8_valid r2 else
              match r2 with
              | [] => false
              | d :: r3 => (0xF0 <=? a) && (a <=? 0xF4) && second4 a b && cont c && cont d && utf8_valid r3
              end
          end
      end
  end.

(** [name[..len]] up to the first zero byte. *)
Fixpoint until_zero (s : list Z) : list Z :=
  match s with [] => [] | b :: r => if b =? 0 then [] else b :: until_zero r end.

Definition get_name (i : Inode) : list Z :=
  let s := until_zero (name i) in if utf8_valid s then s else [].

Definition set_name (n : list Z) (i : Inode) : Inode :=
  let len := Nat.min (length n) (MAX_FILENAME_LEN - 1) in
  mkInode (in_use i) (file_type i) (permissions i) (size i) (created_time i) (modified_time i)
          (extents i) (extent_indirect i) (last_extent_idx i) (extent_count i)
          (<[len := 0]> (blit 0 (take len n) (name i))) (dirty i) (reserved i).

Definition with_extents (es : list Extent) (indirect last cnt : Z) (i : Inode) : Inode :=
  mkInode (in_use i) (file_type i) (permissions i) (size i) (created_time i) (modified_time i)
          es indirect last cnt (name i) (dirty i) (reserved i).

Fixpoint first_some {A B} (f : A -> option B) (l : list A) : option B :=
  match l with [] => None | x :: r => match f x with Some y => Some y | None => first_some f r end end.

Definition get_physical_block (logical : Z) (i : Inode) : option Z := first_some (translate logical) (extents i).

(** The slot of the first empty inline extent. *)
Definition free_slot (es : list Extent) : option nat := fst <$> list_find (fun e => is_empty e = true) es.

(** The end of the last extent; [None] where the code returns [false]. *)
Definition next_logical (i : Inode) : option Z :=
  if extent_count i =? 0 then Some 0
  else match extents i !! Z.to_nat (last_extent_idx i) with
       | Some e => Some (logical_block e +[16] count e)
       | None => None
       end.

Definition add_extent (physical_start cnt : Z) (i : Inode) : bool * Inode :=
  match next_logical i with
  | None => (false, i)
  | Some logical_start =>
      let fresh :=
        match free_slot (extents i) with
        | Some k => (true, with_extents (<[k := mkExtent logical_start physical_start cnt]> (extents i))
                             (extent_indirect i) (Z.of_nat k) (extent_count i +[16] 1) i)
        | None => (false, i)
        end in
      if 0 <? extent_count i then
        match extents i !! Z.to_nat (last_extent_idx i) with
        | Some e =>
            if physical_block e +[32] count e =? physical_start
            then (true, with_extents
                    (<[Z.to_nat (last_extent_idx i) := mkExtent (logical_block e) (physical_block e) (count e +[16] cnt)]>
                       (extents i)) (extent_indirect i) (last_extent_idx i) (extent_count i) i)
            else fresh
        | None => fresh
        end
      else fresh
  end.

Definition clear_extents (i : Inode) : Inode :=
  with_extents ((fun _ => Extent_empty) <$> extents i) 0 0 0 i.

(** ** Structures as bytes

    [repr(C)] places the fields of [Extent] at 0, 4 and 8 (12 bytes, the last two
    padding), so an [Inode] takes 136 bytes and a [Superblock] 516: both are
    larger than the buffers they are copied to and read from.  The bytes a copy
    writes after its buffer are not part of the result; the bytes a read takes
    from after its buffer are the ones that happen to be there. *)

Record Superblock : Type := mkSuper {
  magic : Z; version : Z; total_blocks : Z; free_blocks : Z; total_inodes : Z; free_inodes : Z;
  first_data_block : Z; block_size : Z; sb_dirty : Z; sb_reserved : list Z }.

Section Layout.
Context `{Machine}.

Definition extent_bytes (k : nat) (e : Extent) : list Z :=
  le 2 (logical_block e) ++ [padding (4 * k); padding (4 * k + 1)] ++
  le 4 (physical_block e) ++ le 2 (count e) ++ [padding (4 * k + 2); padding (4 * k + 3)].

Definition inode_repr (i : Inode) : list Z :=
  [in_use i; file_type i] ++ le 2 (permissions i) ++ le 4 (size i) ++
  le 8 (created_time i) ++ le 8 (modified_time i) ++
  mjoin (imap extent_bytes (extents i)) ++
  le 4 (extent_indirect i) ++ le 2 (last_extent_idx i) ++ le 2 (extent_count i) ++
  name i ++ [dirty i] ++ reserved i.

Definition inode_to_bytes (i : Inode) : list Z := take 128 (inode_repr i).

Definition bytes_to_extent (bs : list Z) : Extent := mkExtent (get 0 2 bs) (get 4 4 bs) (get 8 2 bs).

(** [buffer] runs from the inode's first byte to the end of the sector. *)
Definition bytes_to_inode (buffer : list Z) : Inode :=
  let m := buffer ++ stack in
  mkInode (get 0 1 m) (get 1 1 m) (get 2 2 m) (get 4 4 m) (get 8 8 m) (get 16 8 m)
          ((fun k => bytes_to_extent (field (24 + 12 * k) 12 m)) <$> seq 0 INLINE_EXTENTS)
          (get 72 4 m) (get 76 2 m) (get 78 2 m)
          (field 80 MAX_FILENAME_LEN m) (get 128 1 m) (field 129 7 m).

Definition superblock_repr (sb : Superblock) : list Z :=
  le 4 (magic sb) ++ le 2 (version sb) ++ [padding 0; padding 1] ++
  le 4 (total_blocks sb) ++ le 4 (free_blocks sb) ++ le 4 (total_inodes sb) ++
  le 4 (free_inodes sb) ++ le 4 (first_data_block sb) ++ le 2 (block_size sb) ++
  [sb_dirty sb] ++ sb_reserved sb.

Definition superblock_to_bytes (sb : Superblock) : list Z := take 512 (superblock_repr sb).

Definition bytes_to_superblock (buffer : list Z) : Superblock :=
  let m := buffer ++ stack in
  mkSuper (get 0 4 m) (get 4 2 m) (get 8 4 m) (get 12 4 m) (get 16 4 m) (get 20 4 m) (get 24 4 m)
          (get 28 2 m) (get 30 1 m) (field 31 485 m).
End Layout.

(** ** The mounted filesystem *)

Record CacheEntry : Type := mkCache {
  block_num : Z; data : list Z; c_dirty : bool; access_count : Z; last_access : Z }.
Definition CacheEntry_empty : CacheEntry := mkCache 0 (replicate BLOCK_SIZE 0) false 0 0.

Record AccessPattern : Type := mkPattern { p_inode : Z; last_block : Z; p_count : Z; sequential_count : Z }.
Definition AccessPattern_empty : AccessPattern := mkPattern 0 0 0 0.

Record PsychicFs : Type := mkFs {
  mounted : bool; superblock : Superblock; block_bitmap : list Z; bitmap_dirty : bool; superblock_dirty : bool;
  cache : list CacheEntry; cache_hits : Z; cache_misses : Z; patterns : list AccessPattern }.

Definition PsychicFs_new : PsychicFs :=
  mkFs false (mkSuper 0 0 0 0 0 0 0 0 0 (replicate 485 0)) (replicate 1024 0) false false
       (replicate CACHE_SIZE CacheEntry_empty) 0 0 (replicate 16 AccessPattern_empty).

Definition with_super (sb : Superblock) (p : PsychicFs) : PsychicFs :=
  mkFs (mounted p) sb (block_bitmap p) (bitmap_dirty p) (superblock_dirty p) (cache p) (cache_hits p) (cache_misses p)
       (patterns p).
Definition with_bitmap (bm : list Z) (p : PsychicFs) : PsychicFs :=
  mkFs (mounted p) (superblock p) bm (bitmap_dirty p) (superblock_dirty p) (cache p) (cache_hits p) (cache_misses p)
       (patterns p).
Definition with_flags (b s : bool) (p : PsychicFs) : PsychicFs :=
  mkFs (mounted p) (superblock p) (block_bitmap p) b s (cache p) (cache_hits p) (cache_misses p) (patterns p).
Definition with_cache (c : list CacheEntry) (hits misses : Z) (p : PsychicFs) : PsychicFs :=
  mkFs (mounted p) (superblock p) (block_bitmap p) (bitmap_dirty p) (superblock_dirty p) c hits misses (patterns p).
Definition with_patterns (ps : list AccessPattern) (p : PsychicFs) : PsychicFs :=
  mkFs (mounted p) (superblock p) (block_bitmap p) (bitmap_dirty p) (superblock_dirty p) (cache p) (cache_hits p)
       (cache_misses p) ps.
Definition with_mounted (m : bool) (p : PsychicFs) : PsychicFs :=
  mkFs m (superblock p) (block_bitmap p) (bitmap_dirty p) (superblock_dirty p) (cache p) (cache_hits p)
       (cache_misses p) (patterns p).

Definition with_free (n : Z) (sb : Superblock) : Superblock :=
  mkSuper (magic sb) (version sb) (total_blocks sb) n (total_inodes sb) (free_inodes sb) (first_data_block sb)
          (block_size sb) (sb_dirty sb) (sb_reserved sb).
Definition with_dirty (d : Z) (sb : Superblock) : Superblock :=
  mkSuper (magic sb) (version sb) (total_blocks sb) (free_blocks sb) (total_inodes sb) (free_inodes sb)
          (first_data_block sb) (block_size sb) d (sb_reserved sb).

Definition mark_dirty (p : PsychicFs) : PsychicFs := with_flags true true p.

(** The bit [idx] of the bitmap. *)
Definition bm_byte (bm : list Z) (byte_idx : Z) : Z := nth (Z.to_nat byte_idx) bm 0.
Definition bm_test (bm : list Z) (idx : Z) : bool :=
  negb (Z.land (bm_byte bm (idx / 8)) (mask (idx mod 8)) =? 0).
Definition bm_set (bm : list Z) (idx : Z) : list Z :=
  alter (fun b => Z.lor b (mask (idx mod 8))) (Z.to_nat (idx / 8)) bm.
Definition bm_clear (bm : list Z) (idx : Z) : list Z :=
  alter (fun b => Z.land b (wnot 8 (mask (idx mod 8)))) (Z.to_nat (idx / 8)) bm.

Definition is_block_allocated (b : Z) (p : PsychicFs) : bool :=
  if b <? DATA_BLOCKS_START then true else
  let idx := b - DATA_BLOCKS_START in
  if 1024 <=? idx / 8 then true else bm_test (block_bitmap p) idx.

(** [8192 - DATA_BLOCKS_START]. *)
Definition max_blocks : Z := 8064.

Definition count_free_blocks (p : PsychicFs) : Z :=
  Z.of_nat (length (filter (fun i => bm_test (block_bitmap p) i = false) (seqZ 0 max_blocks))).

(** Predictive loading. *)
Definition same_pattern (inode : Z) (a : AccessPattern) : bool := p_inode a =? inode.

(** The first slot with the smallest count below [min]. *)
Fixpoint least_used (k : nat) (best : Z * nat) (ps : list AccessPattern) : nat :=
  match ps with
  | [] => best.2
  | a :: r => least_used (S k) (if p_count a <? best.1 then (p_count a, k) else best) r
  end.

Definition record_access (inode block : Z) (p : PsychicFs) : PsychicFs :=
  match list_find (fun a => same_pattern inode a = true) (patterns p) with
  | Some (k, a) =>
      let seqn := if block =? last_block a +[32] 1 then sequential_count a +[32] 1 else sequential_count a in
      with_patterns (<[k := mkPattern (p_inode a) block (p_count a +[32] 1) seqn]> (patterns p)) p
  | None =>
      with_patterns (<[least_used 0 (2 ^ 32 - 1, 0%nat) (patterns p) := mkPattern inode block 1 0]> (patterns p)) p
  end.

Definition predict_prefetch (inode : Z) (p : PsychicFs) : option Z :=
  match list_find (fun a => same_pattern inode a && (2 <? sequential_count a) = true) (patterns p) with
  | Some (_, a) => Some (last_block a +[32] 1)
  | None => None
  end.

(** ** Operations *)

Record World (D : Type) : Type := mkWorld { disk : D; ticks : Z; PSYCHIC_FS : option PsychicFs }.
Arguments mkWorld {D} _ _ _.
Arguments disk {D} _.
Arguments ticks {D} _.
Arguments PSYCHIC_FS {D} _.

Section Ops.
Context `{Machine} {D : Type} `{BlockDevice D}.

Definition Fs : Type -> Type := M (World D) unit.

Definition put_fs (p : PsychicFs) (w : World D) : World D := mkWorld (disk w) (ticks w) (Some p).

Definition get_timestamp : Fs Z := fun w => (Ok (ticks w), mkWorld (disk w) (tick (ticks w)) (PSYCHIC_FS w)).

Definition disk_read_sector (s : Z) : Fs (list Z) := fun w =>
  match disk_read s (disk w) with Some b => (Ok b, w) | None => (Err tt, w) end.

Definition disk_write_sector (s : Z) (b : list Z) : Fs unit := fun w =>
  let (r, d') := disk_write s b (disk w) in
  (if r then Ok tt else Err tt, mkWorld d' (ticks w) (PSYCHIC_FS w)).

(** *** The block cache

    The methods of a mounted filesystem [p]; the caller stores the result. *)

Definition hit (b : Z) (e : CacheEntry) : bool := (block_num e =? b) && (0 <? access_count e).

(** The slot [cache_insert] picks: the first empty one, else the least
    recently used one. *)
Fixpoint victim (k : nat) (best : Z * nat) (c : list CacheEntry) : nat :=
  match c with
  | [] => best.2
  | e :: r =>
      if access_count e =? 0 then k
      else victim (S k) (if last_access e <? best.1 then (last_access e, k) else best) r
  end.

Definition cache_insert (b : Z) (bytes : list Z) (is_dirty : bool) (p : PsychicFs) (w : World D) : PsychicFs * World D :=
  let k := victim 0 (2 ^ 64 - 1, 0%nat) (cache p) in
  let w1 := match cache p !! k with
            | Some e => if c_dirty e && (0 <? access_count e)
                        then (disk_write_sector (block_num e) (data e) w).2 else w
            | None => w
            end in
  (with_cache (<[k := mkCache b bytes is_dirty 1 (ticks w1)]> (cache p)) (cache_hits p) (cache_misses p) p,
   (get_timestamp w1).2).

Definition cached_read (b : Z) (p : PsychicFs) (w : World D) : option (list Z) * PsychicFs * World D :=
  match list_find (fun e => hit b e = true) (cache p) with
  | Some (k, e) =>
      (Some (data e),
       with_cache (<[k := mkCache (block_num e) (data e) (c_dirty e) (access_count e +[32] 1) (ticks w)]> (cache p))
                  (cache_hits p +[64] 1) (cache_misses p) p,
       (get_timestamp w).2)
  | None =>
      let p1 := with_cache (cache p) (cache_hits p) (cache_misses p +[64] 1) p in
      match disk_read b (disk w) with
      | None => (None, p1, w)
      | Some bytes => let (p2, w2) := cache_insert b bytes false p1 w in (Some bytes, p2, w2)
      end
  end.

(** It always returns [true]. *)
Definition cached_write (b : Z) (bytes : list Z) (p : PsychicFs) (w : World D) : PsychicFs * World D :=
  match list_find (fun e => hit b e = true) (cache p) with
  | Some (k, e) =>
      (with_cache (<[k := mkCache (block_num e) bytes true (access_count e +[32] 1) (ticks w)]> (cache p))
                  (cache_hits p) (cache_misses p) p,
       (get_timestamp w).2)
  | None => cache_insert b bytes true p w
  end.

Fixpoint flush_entries (c : list CacheEntry) (w : World D) : bool * list CacheEntry * World D :=
  match c with
  | [] => (true, [], w)
  | e :: r =>
      if c_dirty e && (0 <? access_count e) then
        let (res, w1) := disk_write_sector (block_num e) (data e) w in
        let e1 := if is_ok res then mkCache (block_num e) (data e) false (access_count e) (last_access e) else e in
        let '(ok, r', w2) := flush_entries r w1 in (is_ok res && ok, e1 :: r', w2)
      else let '(ok, r', w2) := flush_entries r w in (ok, e :: r', w2)
  end.

Definition flush_cache (p : PsychicFs) (w : World D) : bool * PsychicFs * World D :=
  let '(ok, c, w') := flush_entries (cache p) w in
  (ok, with_cache c (cache_hits p) (cache_misses p) p, w').

(** *** Bitmap and superblock on disk *)

Definition write_bitmap_to_disk (p : PsychicFs) : Fs unit :=
  (do_ disk_write_sector BITMAP_SECTOR (take 512 (block_bitmap p));
   disk_write_sector (BITMAP_SECTOR + 1) (take 512 (drop 512 (block_bitmap p))))%st.

Definition read_bitmap_from_disk (p : PsychicFs) : Fs PsychicFs :=
  (do s1 <- disk_read_sector BITMAP_SECTOR;
   do s2 <- disk_read_sector (BITMAP_SECTOR + 1);
   ret (with_bitmap (s1 ++ s2) p))%st.

(** The two flags are independent: a failure of one part leaves its flag set
    and the other part is still written. *)
Definition sync (p : PsychicFs) (w : World D) : bool * PsychicFs * World D :=
  if negb (mounted p) then (true, p, w) else
  let '(ok1, p1, w1) :=
    if bitmap_dirty p then
      let (r, w') := write_bitmap_to_disk p w in
      if is_ok r then (true, with_flags false (superblock_dirty p) p, w') else (false, p, w')
    else (true, p, w) in
  if superblock_dirty p1 then
    let p2 := with_super (with_dirty 0 (superblock p1)) p1 in
    let (r, w') := disk_write_sector SUPERBLOCK_SECTOR (superblock_to_bytes (superblock p2)) w1 in
    if is_ok r then (ok1, with_flags (bitmap_dirty p2) false p2, w') else (false, p2, w')
  else (ok1, p1, w1).

Definition zero_sector : list Z := replicate 512 0.

Definition format_superblock : Superblock :=
  mkSuper FS_MAGIC FS_VERSION 8192 (8192 - DATA_BLOCKS_START) MAX_FILES MAX_FILES DATA_BLOCKS_START
          (Z.of_nat BLOCK_SIZE) 0 (replicate 485 0).

Fixpoint write_all (sectors : list Z) (b : list Z) : Fs unit :=
  match sectors with
  | [] => ret tt
  | s :: r => (do_ disk_write_sector s b; write_all r b)%st
  end.

Definition fs_format : Fs unit := fun w =>
  if negb (disk_is_present (disk w)) then (Err tt, w) else
  (do_ disk_write_sector SUPERBLOCK_SECTOR (superblock_to_bytes format_superblock);
   do_ write_all (seqZ INODE_TABLE_START INODE_TABLE_SECTORS) zero_sector;
   do_ disk_write_sector BITMAP_SECTOR zero_sector;
   disk_write_sector (BITMAP_SECTOR + 1) zero_sector)%st w.

Definition fs_mount : Fs unit := fun w =>
  if negb (disk_is_present (disk w)) then (Err tt, w) else
  (do sb_buffer <- disk_read_sector SUPERBLOCK_SECTOR;
   let superblock := bytes_to_superblock sb_buffer in
   if negb (magic superblock =? FS_MAGIC) then throw tt else
   do pfs <- read_bitmap_from_disk PsychicFs_new;
   let p := with_flags (bitmap_dirty pfs) true
              (with_mounted true (with_super (with_dirty 1 superblock) pfs)) in
   fun w => (Ok tt, put_fs p w))%st w.

Definition fs_sync : Fs unit := fun w =>
  match PSYCHIC_FS w with
  | Some p => let '(_, p', w') := sync p w in (Ok tt, put_fs p' w')
  | None => (Ok tt, w)
  end.

Definition fs_unmount : Fs unit := fun w =>
  let w' := (fs_sync w).2 in (Ok tt, mkWorld (disk w') (ticks w') None).

(** *** The inode table *)

(** Four inodes per sector; [buffer] holds the sector. *)
Definition sector_inodes (s : Z) (buffer : list Z) : list (Z * Inode) :=
  (fun i => (s * 4 + Z.of_nat i, bytes_to_inode (drop (i * 128) buffer))) <$> seq 0 4.

(** The slots of the table in the order the loops visit them; a sector that
    cannot be read is skipped. *)
Definition inode_slots (d : D) : list (Z * Inode) :=
  mjoin ((fun s => match disk_read (INODE_TABLE_START + s) d with
                   | Some buffer => sector_inodes s buffer
                   | None => []
                   end) <$> seqZ 0 INODE_TABLE_SECTORS).

Definition named (n : list Z) (x : Z * Inode) : bool :=
  negb (in_use x.2 =? 0) && bool_decide (get_name x.2 = n).

Definition find_inode_by_name (n : list Z) : Fs (Z * Inode) := fun w =>
  match list_find (fun x => named n x = true) (inode_slots (disk w)) with
  | Some (_, x) => (Ok x, w)
  | None => (Err tt, w)
  end.

Definition find_free_inode : Fs Z := fun w =>
  match list_find (fun x : Z * Inode => in_use x.2 = 0) (inode_slots (disk w)) with
  | Some (_, x) => (Ok x.1, w)
  | None => (Err tt, w)
  end.

Definition write_inode (inode_num : Z) (inode : Inode) : Fs unit :=
  let sector := INODE_TABLE_START + inode_num / 4 in
  let offset := Z.to_nat (inode_num mod 4 * 128) in
  (do buffer <- disk_read_sector sector;
   do_ disk_write_sector sector (blit offset (inode_to_bytes inode) buffer);
   do verify_buffer <- disk_read_sector sector;
   if in_use (bytes_to_inode (drop offset verify_buffer)) =? in_use inode then ret tt else throw tt)%st.

(** *** Blocks *)

Definition allocate_block : Fs Z := fun w =>
  match PSYCHIC_FS w with
  | None => (Err tt, w)
  | Some p =>
      match list_find (fun i => bm_test (block_bitmap p) i = false) (seqZ 0 max_blocks) with
      | None => (Err tt, w)
      | Some (_, i) =>
          let free := free_blocks (superblock p) in
          let p1 := with_super (with_free (if 0 <? free then free - 1 else free) (superblock p))
                      (with_bitmap (bm_set (block_bitmap p) i) p) in
          let '(ok, p2, w') := sync (mark_dirty p1) w in
          if ok then (Ok (DATA_BLOCKS_START + i), put_fs p2 w')
          else (Err tt, put_fs (with_super (with_free (free_blocks (superblock p2) +[32] 1) (superblock p2))
                                  (with_bitmap (bm_clear (block_bitmap p2) i) p2)) w')
      end
  end.

Definition free_block (b : Z) (w : World D) : World D :=
  match PSYCHIC_FS w with
  | None => w
  | Some p =>
      if b <? DATA_BLOCKS_START then w else
      let idx := b - DATA_BLOCKS_START in
      if idx / 8 <? 1024 then
        if negb (bm_test (block_bitmap p) idx) then w else
        let p1 := with_super (with_free (free_blocks (superblock p) +[32] 1) (superblock p))
                    (with_bitmap (bm_clear (block_bitmap p) idx) p) in
        let '(_, p2, w') := sync (mark_dirty p1) w in put_fs p2 w'
      else w
  end.

Definition free_block_range (start cnt : Z) (w : World D) : World D :=
  foldl (fun w i => free_block (start +[32] i) w) w (seqZ 0 cnt).

Definition free_extents (es : list Extent) (w : World D) : World D :=
  foldl (fun w e => if is_empty e then w else free_block_range (physical_block e) (count e) w) w es.

(** The scan of [find_contiguous_blocks]; [run] is [(run_start, run_len)]. *)
Fixpoint find_run (p : PsychicFs) (n : Z) (run : Z * Z) (blocks : list Z) : option Z :=
  match blocks with
  | [] => None
  | b :: r =>
      if is_block_allocated b p then find_run p n (run.1, 0) r else
      let start := if run.2 =? 0 then b else run.1 in
      if n <=? run.2 + 1 then Some start else find_run p n (start, run.2 + 1) r
  end.

Definition data_blocks (p : PsychicFs) : list Z :=
  seqZ DATA_BLOCKS_START (total_blocks (superblock p) - DATA_BLOCKS_START).

Definition find_contiguous_blocks (n : Z) : Fs Z := fun w =>
  match PSYCHIC_FS w with
  | None => (Err tt, w)
  | Some p =>
      if total_blocks (superblock p) <=? DATA_BLOCKS_START then (Err tt, w) else
      match find_run p n (0, 0) (data_blocks p) with
      | Some start => (Ok start, w)
      | None =>
          if n =? 1 then
            match list_find (fun b => is_block_allocated b p = false) (data_blocks p) with
            | Some (_, b) => (Ok b, w)
            | None => (Err tt, w)
            end
          else (Err tt, w)
      end
  end.

(** It sets the bits [start, start + n) of the bitmap, counted from block 0. *)
Definition allocate_contiguous_blocks (start n : Z) (w : World D) : World D :=
  match PSYCHIC_FS w with
  | None => w
  | Some p =>
      let bm := foldl (fun bm i => bm_set bm (start +[32] i)) (block_bitmap p) (seqZ 0 n) in
      put_fs (with_super (with_free (sat_sub (free_blocks (superblock p)) n) (superblock p)) (with_bitmap bm p)) w
  end.

(** *** Files *)

Definition with_meta (use_ sz created modified_ dirty_ : Z) (i : Inode) : Inode :=
  mkInode use_ (file_type i) (permissions i) sz created modified_ (extents i) (extent_indirect i)
          (last_extent_idx i) (extent_count i) (name i) dirty_ (reserved i).

Definition fs_create (n : list Z) : Fs unit := fun w =>
  if Z.of_nat MAX_FILENAME_LEN <=? Z.of_nat (length n) then (Err tt, w) else
  if is_ok (find_inode_by_name n w).1 then (Err tt, w) else
  (do inode_num <- find_free_inode;
   do t1 <- get_timestamp;
   do t2 <- get_timestamp;
   let i := set_name n Inode_new in
   write_inode inode_num (with_meta 1 (size i) t1 t2 (dirty i) i))%st w.

(** The allocation loop of [fs_write]; every round allocates at least one
    block, so [blocks_needed] rounds are enough. *)
Fixpoint allocate_loop (fuel : nat) (remaining : Z) (i : Inode) : Fs Inode :=
  if remaining <=? 0 then ret i else
  match fuel with
  | O => throw tt
  | S fuel => fun w =>
      let chunk_size := Z.min remaining 65535 in
      match find_contiguous_blocks chunk_size w with
      | (Ok start_block, _) =>
          let w1 := allocate_contiguous_blocks start_block chunk_size w in
          match add_extent start_block chunk_size i with
          | (true, i1) => allocate_loop fuel (remaining - chunk_size) i1 w1
          | (false, _) => (Err tt, w1)
          end
      | (Err _, _) =>
          if 1 <? chunk_size then
            match find_contiguous_blocks 1 w with
            | (Ok start_block, _) =>
                let w1 := allocate_contiguous_blocks start_block 1 w in
                match add_extent start_block 1 i with
                | (true, i1) => allocate_loop fuel (remaining - 1) i1 w1
                | (false, _) => (Err tt, w1)
                end
            | (Err _, _) => (Err tt, w)
            end
          else (Err tt, w)
      end
  end.

(** The bytes of block [b] of the data, padded with zeros. *)
Definition block_of (bytes : list Z) (b : Z) : list Z :=
  let c := field (Z.to_nat b * BLOCK_SIZE) BLOCK_SIZE bytes in c ++ replicate (BLOCK_SIZE - length c) 0.

Fixpoint write_blocks (bytes : list Z) (i : Inode) (blocks : list Z) : Fs unit :=
  match blocks with
  | [] => ret tt
  | b :: r =>
      match get_physical_block (b mod 2 ^ 16) i with
      | Some phys => (do_ disk_write_sector phys (block_of bytes b); write_blocks bytes i r)%st
      | None => throw tt
      end
  end.

(** [(len + BLOCK_SIZE - 1) / BLOCK_SIZE]. *)
Definition blocks_for (len : Z) : Z := (len + 511) / 512.

(** The part of [fs_write] after the inode has been found. *)
Definition write_contents (inode_num : Z) (inode : Inode) (bytes : list Z) : Fs unit :=
  let len := Z.of_nat (length bytes) in
  let blocks_needed := blocks_for len in
  if blocks_needed =? 0
  then write_inode inode_num
         (clear_extents (with_meta (in_use inode) 0 (created_time inode) (modified_time inode) (dirty inode) inode))
  else fun w =>
    (do i1 <- allocate_loop (Z.to_nat blocks_needed) blocks_needed (clear_extents inode);
     do_ write_blocks bytes i1 (seqZ 0 blocks_needed);
     do now <- get_timestamp;
     do_ write_inode inode_num (with_meta (in_use i1) (len mod 2 ^ 32) (created_time i1) now 1 i1);
     fs_sync)%st (free_extents (extents inode) w).

Definition fs_write (n bytes : list Z) : Fs unit := fun w =>
  match find_inode_by_name n w with
  | (Ok (num, i), _) => write_contents num i bytes w
  | (Err _, _) =>
      (do_ fs_create n;
       do x <- find_inode_by_name n;
       write_contents x.1 x.2 bytes)%st w
  end.

(** The loop of [fs_read]: [left] bytes remain. *)
Fixpoint read_blocks (i : Inode) (left : Z) (blocks : list Z) : Fs (list Z) :=
  match blocks with
  | [] => ret []
  | b :: r =>
      let to_read := Z.min left 512 in
      match get_physical_block (b mod 2 ^ 16) i with
      | Some phys =>
          (do buffer <- disk_read_sector phys;
           do rest <- read_blocks i (left - to_read) r;
           ret (take (Z.to_nat to_read) buffer ++ rest))%st
      | None =>
          (do rest <- read_blocks i (left - to_read) r;
           ret (replicate (Z.to_nat to_read) 0 ++ rest))%st
      end
  end.

Definition fs_read (n : list Z) : Fs (list Z) :=
  (do x <- find_inode_by_name n;
   if size x.2 =? 0 then ret []
   else read_blocks x.2 (size x.2) (seqZ 0 (blocks_for (size x.2))))%st.

Definition fs_delete (n : list Z) : Fs unit :=
  (do x <- find_inode_by_name n;
   fun w =>
     let w1 := free_extents (extents x.2) w in
     let w2 := if extent_indirect x.2 =? 0 then w1 else free_block (extent_indirect x.2) w1 in
     let i := clear_extents x.2 in
     write_inode x.1 (with_meta 0 0 (created_time i) (modified_time i) (dirty i) i) w2)%st.

Definition fs_list (w : World D) : list (list Z) :=
  (fun x => get_name x.2) <$> filter (fun x : Z * Inode => in_use x.2 <> 0) (inode_slots (disk w)).
End Ops.

(** ** Inodes as bytes *)

Definition wf_extent (e : Extent) : Prop :=
  in_width 16 (logical_block e) /\ in_width 32 (physical_block e) /\ in_width 16 (count e).

(** What the name and data of a file depend on. *)
Definition view (i : Inode) : Z * Z * list Extent * list Z := (in_use i, size i, extents i, name i).

(** The inode up to the eight bytes that do not fit in its slot. *)
Definition core (i : Inode) : Inode :=
  mkInode (in_use i) (file_type i) (permissions i) (size i) (created_time i) (modified_time i) (extents i)
          (extent_indirect i) (last_extent_idx i) (extent_count i) (name i) 0 [].

Record wf_inode (i : Inode) : Prop := {
  wi_size : in_width 32 (size i);
  wi_extents : length (extents i) = INLINE_EXTENTS;
  wi_wf : Forall wf_extent (extents i);
  wi_name : length (name i) = MAX_FILENAME_LEN;
}.

Record wf_numbers (i : Inode) : Prop := {
  wn_perm : in_width 16 (permissions i);
  wn_created : in_width 64 (created_time i);
  wn_modified : in_width 64 (modified_time i);
  wn_indirect : in_width 32 (extent_indirect i);
  wn_last : in_width 16 (last_extent_idx i);
  wn_count : in_width 16 (extent_count i);
}.

Lemma list_len4 {A} (l : list A) : length l = 4%nat -> exists a b c d, l = [a; b; c; d].
Proof. destruct l as [|a [|b [|c [|d [|e l]]]]]; intros; simplify_eq/=; eauto. Qed.

Section Bytes.
Context `{Machine}.

(** The reading of an inode depends on the first 128 bytes only, up to the
    eight that follow. *)
Lemma decode_core x y : (128 <= length x)%nat -> (128 <= length y)%nat -> take 128 x = take 128 y ->
  core (bytes_to_inode x) = core (bytes_to_inode y).
Proof.
  intros Hx Hy E.
  assert (forall a n, (a + n <= 128)%nat -> field a n (x ++ stack) = field a n (y ++ stack)) as F.
  { intros a n Hn. rewrite !field_app_l by lia. by rewrite <- (field_take a n x 128), E, field_take by lia. }
  unfold core, bytes_to_inode, get; cbn [in_use file_type permissions size created_time modified_time extents
    extent_indirect last_extent_idx extent_count name fmap list_fmap seq INLINE_EXTENTS].
  by rewrite !F by (unfold MAX_FILENAME_LEN; lia).
Qed.

(** The eighty bytes before the name. *)
Definition inode_head (i : Inode) : list Z :=
  [in_use i; file_type i] ++ le 2 (permissions i) ++ le 4 (size i) ++ le 8 (created_time i) ++ le 8 (modified_time i) ++
  mjoin (imap extent_bytes (extents i)) ++ le 4 (extent_indirect i) ++ le 2 (last_extent_idx i) ++ le 2 (extent_count i).

Lemma length_inode_head i : length (extents i) = INLINE_EXTENTS -> length (inode_head i) = 80%nat.
Proof.
  intros He. destruct (list_len4 _ He) as (e0 & e1 & e2 & e3 & E). unfold inode_head. rewrite E.
  cbn [imap mjoin list_join]. unfold extent_bytes. rewrite !length_app, !length_le. done.
Qed.

Lemma inode_to_bytes_head i : wf_inode i -> inode_to_bytes i = inode_head i ++ name i.
Proof.
  intros [_ He _ Hn]. unfold inode_to_bytes.
  assert (inode_repr i = (inode_head i ++ name i) ++ [dirty i] ++ reserved i) as ->
    by (unfold inode_repr, inode_head; by rewrite <- !app_assoc).
  apply take_app_length'. by rewrite length_app, length_inode_head, Hn by done.
Qed.

Lemma length_inode_to_bytes i : wf_inode i -> length (inode_to_bytes i) = 128%nat.
Proof. intros H1. rewrite inode_to_bytes_head by done. destruct H1. by rewrite length_app, length_inode_head, wi_name0 by done. Qed.

Lemma get_head i a n rest : length (extents i) = INLINE_EXTENTS -> (a + n <= 80)%nat ->
  field a n (inode_head i ++ rest) = field a n (inode_head i).
Proof. intros. apply field_app_l. by rewrite length_inode_head. Qed.

(** An extent's bytes read back. *)
Lemma bytes_to_extent_bytes k e : wf_extent e -> bytes_to_extent (extent_bytes k e) = e.
Proof.
  intros (H1 & H2 & H3). destruct e as [l p c]. unfold bytes_to_extent, extent_bytes, get, field; cbn [logical_block physical_block count] in *.
  f_equal; [exact (unle_le 2 l H1)|exact (unle_le 4 p H2)|exact (unle_le 2 c H3)].
Qed.

Lemma decode_encode (i : Inode) rest : wf_inode i ->
  view (bytes_to_inode (inode_to_bytes i ++ rest)) = view i /\
  (wf_numbers i -> core (bytes_to_inode (inode_to_bytes i ++ rest)) = core i).
Proof.
  intros Hwf. rewrite inode_to_bytes_head by done. unfold bytes_to_inode, get. rewrite <- !app_assoc.
  destruct Hwf as [Hs He Hw Hn]. pose proof (length_inode_head i He) as Hl.
  assert (field 80 MAX_FILENAME_LEN (inode_head i ++ name i ++ rest ++ stack) = name i) as En.
  { unfold field. rewrite drop_app_length' by done. by apply take_app_length'. }
  rewrite En. clear En. cbn [seq INLINE_EXTENTS fmap list_fmap]. rewrite !get_head by (done || (cbn; lia)). clear Hl.
  destruct i as [iu ft pe sz ct mt es ei li ec nm di re]. cbn [size extents name] in *.
  destruct (list_len4 es He) as (e0 & e1 & e2 & e3 & ->). unfold inode_head; cbn [in_use file_type permissions size
    created_time modified_time extents extent_indirect last_extent_idx extent_count].
  apply Forall_cons in Hw as [W0 Hw]. apply Forall_cons in Hw as [W1 Hw]. apply Forall_cons in Hw as [W2 Hw].
  apply Forall_cons in Hw as [W3 _].
  match goal with |- context [field (24 + 12 * 0) 12 ?m] => change (field (24 + 12 * 0) 12 m) with (extent_bytes 0 e0);
    change (field (24 + 12 * 1) 12 m) with (extent_bytes 1 e1); change (field (24 + 12 * 2) 12 m) with (extent_bytes 2 e2);
    change (field (24 + 12 * 3) 12 m) with (extent_bytes 3 e3) end.
  rewrite !bytes_to_extent_bytes by done. unfold view, core; cbn [in_use file_type permissions size created_time
    modified_time extents extent_indirect last_extent_idx extent_count name].
  match goal with |- context [unle (field 0 1 ?m)] => 
    change (field 0 1 m) with [iu]; change (field 1 1 m) with [ft]; change (field 2 2 m) with (le 2 pe);
    change (field 4 4 m) with (le 4 sz); change (field 8 8 m) with (le 8 ct); change (field 16 8 m) with (le 8 mt);
    change (field 72 4 m) with (le 4 ei); change (field 76 2 m) with (le 2 li); change (field 78 2 m) with (le 2 ec) end.
  cbn [unle]. rewrite !Z.mul_0_r, !Z.add_0_r, (unle_le 4 sz) by done. split; [done|].
  intros []. cbn [permissions created_time modified_time extent_indirect last_extent_idx extent_count] in *.
  by rewrite (unle_le 2 pe), (unle_le 8 ct), (unle_le 8 mt), (unle_le 4 ei), (unle_le 2 li), (unle_le 2 ec) by done.
Qed.
End Bytes.

(** ** The inode table *)

Section Table.
Context `{Machine} {D : Type} `{BlockDeviceLaws D}.

(** Every sector the filesystem uses exists. *)
Definition big (d : D) : Prop := DATA_BLOCKS_START < disk_capacity d.

Definition sector (d : D) (s : Z) : list Z := default [] (disk_read s d).
Definition slot_bytes (d : D) (k : Z) : list Z :=
  drop (Z.to_nat (k mod 4 * 128)) (sector d (INODE_TABLE_START + k / 4)).
Definition slot (d : D) (k : Z) : Inode := bytes_to_inode (slot_bytes d k).

Lemma sector_read d s : 0 <= s < disk_capacity d -> disk_read s d = Some (sector d s) /\ length (sector d s) = 512%nat.
Proof. intros Hs. destruct (bl_read d s Hs) as (b & E & Hb). unfold sector. by rewrite E. Qed.

Lemma slot_sector d k : big d -> 0 <= k < 256 -> 0 <= INODE_TABLE_START + k / 4 < disk_capacity d /\ k / 4 < 64.
Proof.
  unfold big, DATA_BLOCKS_START, INODE_TABLE_START. intros Hb Hk.
  assert (0 <= k / 4 < 64) by (split; [apply Z.div_pos; lia|apply Z.div_lt_upper_bound; lia]). lia.
Qed.

Lemma length_slot_bytes d k : big d -> 0 <= k < 256 -> (128 <= length (slot_bytes d k))%nat.
Proof.
  intros Hb Hk. unfold slot_bytes. destruct (slot_sector d k Hb Hk) as [Hs _]. rewrite length_drop, (proj2 (sector_read d _ Hs)).
  pose proof (Z.mod_pos_bound k 4). lia.
Qed.

Lemma inode_slots_eq d : big d -> inode_slots d = (fun k => (k, slot d k)) <$> seqZ 0 256.
Proof.
  intros Hb. unfold inode_slots.
  assert (forall m a, 0 <= a -> a + Z.of_nat m <= 64 ->
    mjoin ((fun s => match disk_read (INODE_TABLE_START + s) d with Some buffer => sector_inodes s buffer | None => [] end)
             <$> seqZ a (Z.of_nat m)) = (fun k => (k, slot d k)) <$> seqZ (a * 4) (Z.of_nat m * 4)) as G;
    [|exact (G 64%nat 0 ltac:(lia) ltac:(lia))].
  induction m as [|m IH]; intros a Ha Hm; [done|].
  replace (Z.of_nat (S m) * 4) with (4 + Z.of_nat m * 4) by lia.
  rewrite (seqZ_app (a * 4) 4 (Z.of_nat m * 4)) by lia. rewrite (seqZ_cons a) by lia. rewrite fmap_app, fmap_cons. cbn [mjoin list_join].
  f_equal.
  - destruct (sector_read d (INODE_TABLE_START + a)) as [E _].
    { unfold big, DATA_BLOCKS_START, INODE_TABLE_START in *. lia. }
    rewrite E. unfold sector_inodes. change (seqZ (a * 4) 4) with [Z.of_nat 0 + a * 4; Z.of_nat 1 + a * 4; Z.of_nat 2 + a * 4; Z.of_nat 3 + a * 4].
    cbn [seq fmap list_fmap]. unfold slot, slot_bytes.
    assert (forall i, 0 <= i < 4 -> (i + a * 4) mod 4 = i /\ (i + a * 4) / 4 = a) as M.
    { intros i Hi. rewrite Z.mod_add, Z.div_add by lia. rewrite Z.mod_small, Z.div_small by lia. lia. }
    destruct (M (Z.of_nat 0) ltac:(lia)) as [-> ->], (M (Z.of_nat 1) ltac:(lia)) as [-> ->],
      (M (Z.of_nat 2) ltac:(lia)) as [-> ->], (M (Z.of_nat 3) ltac:(lia)) as [-> ->].
    by rewrite !(Z.add_comm (a * 4)).
  - replace (Z.pred (Z.of_nat (S m))) with (Z.of_nat m) by lia.
    rewrite IH by lia. f_equal. f_equal. lia.
Qed.

Lemma core_view i j : core i = core j -> view i = view j.
Proof. intros E. exact (f_equal view E). Qed.

Lemma view_fields i j : view i = view j ->
  in_use i = in_use j /\ size i = size j /\ extents i = extents j /\ name i = name j.
Proof. unfold view. intros E. by injection E as -> -> -> ->. Qed.

(** Writing an inode changes its slot and nothing else. *)
Lemma write_inode_spec w num i : big (disk w) -> 0 <= num < 256 -> wf_inode i ->
  exists d', write_inode num i w = (Ok tt, mkWorld d' (ticks w) (PSYCHIC_FS w)) /\
  disk_capacity d' = disk_capacity (disk w) /\
  (forall s, s < 1 \/ 65 <= s -> disk_read s d' = disk_read s (disk w)) /\
  view (slot d' num) = view i /\ (wf_numbers i -> core (slot d' num) = core i) /\
  forall k, 0 <= k < 256 -> k <> num -> core (slot d' k) = core (slot (disk w) k).
Proof.
  intros Hb Hk Hi. destruct w as [d tk g]; cbn [disk ticks PSYCHIC_FS] in *.
  destruct (slot_sector d num Hb Hk) as [Hs Hs'].
  destruct (sector_read d _ Hs) as [E Hl]. pose proof (Z.mod_pos_bound num 4 ltac:(lia)) as Hmod.
  assert (0 <= num / 4) as Hq by (apply Z.div_pos; lia).
  set (off := Z.to_nat (num mod 4 * 128)). set (buf := sector d (INODE_TABLE_START + num / 4)) in *.
  assert (off + 128 <= 512)%nat as Hoff by (unfold off; lia).
  set (out := blit off (inode_to_bytes i) buf).
  assert (length (inode_to_bytes i) = 128%nat) as Hib by by apply length_inode_to_bytes.
  assert (length out = 512%nat) as Hout by (unfold out; rewrite length_blit; lia).
  destruct (bl_write d _ out Hs Hout) as (d' & Ew & Hc & Hr).
  assert (disk_read (INODE_TABLE_START + num / 4) d' = Some out) as Er by (by rewrite Hr, Z.eqb_refl).
  assert (field off 128 out = inode_to_bytes i) as Ef.
  { rewrite <- Hib at 1. unfold out. apply field_blit_eq. lia. }
  assert (core (bytes_to_inode (drop off out)) = core (bytes_to_inode (inode_to_bytes i ++ []))) as Ec.
  { apply decode_core; [rewrite length_drop; lia|rewrite length_app; lia|]. rewrite take_app_le by lia.
    rewrite (take_ge (inode_to_bytes i)) by lia. exact Ef. }
  destruct (decode_encode i [] Hi) as [Dv Dc].
  assert (slot d' num = bytes_to_inode (drop off out)) as Es by (unfold slot, slot_bytes, sector; by rewrite Er).
  exists d'. split; [|split; [done|split; [|split; [|split]]]].
  - unfold write_inode, bindM, disk_read_sector, disk_write_sector; cbn [disk]. rewrite E. fold off. fold buf. fold out.
    cbn [disk]. rewrite Ew. cbn [disk]. rewrite Er. cbn [disk].
    assert (in_use (bytes_to_inode (drop off out)) = in_use i) as ->.
    { pose proof (core_view _ _ Ec) as V. rewrite Dv in V. by injection V. }
    by rewrite Z.eqb_refl.
  - intros s Hs2. rewrite Hr. destruct (Z.eqb_spec s (INODE_TABLE_START + num / 4)); [|done].
    unfold INODE_TABLE_START in *. lia.
  - rewrite Es, <- Dv. by apply core_view.
  - intros Hn. by rewrite Es, Ec, Dc.
  - intros k Hk2 Hne. destruct (slot_sector d k Hb Hk2) as [Hsk _].
    assert (big d') as Hb' by (unfold big; by rewrite Hc).
    apply decode_core; [by apply length_slot_bytes..|].
    unfold slot_bytes, sector. rewrite Hr.
    destruct (Z.eqb_spec (INODE_TABLE_START + k / 4) (INODE_TABLE_START + num / 4)) as [Eq|]; [|done].
    change (default [] (Some out)) with out. rewrite Eq. fold (sector d (INODE_TABLE_START + num / 4)). fold buf.
    apply (field_blit_ne off (inode_to_bytes i) buf (Z.to_nat (k mod 4 * 128)) 128); rewrite Hib; [lia|].
    pose proof (Z.mod_pos_bound k 4 ltac:(lia)). pose proof (Z.div_mod k 4). pose proof (Z.div_mod num 4).
    assert (k mod 4 <> num mod 4) by lia. unfold off. lia.
Qed.

(** *** Looking a name up *)

Definition is_named (n : list Z) (i : Inode) : Prop := in_use i <> 0 /\ get_name i = n.

Lemma named_spec n x : named n x = true <-> is_named n x.2.
Proof. unfold named, is_named. by rewrite andb_true_iff, negb_true_iff, Z.eqb_neq, bool_decide_eq_true. Qed.

(** [k] is the first slot named [n]. *)
Definition first_named (n : list Z) (d : D) (k : Z) : Prop :=
  0 <= k < 256 /\ is_named n (slot d k) /\ forall j, 0 <= j < k -> ~ is_named n (slot d j).
Definition unnamed (n : list Z) (d : D) : Prop := forall k, 0 <= k < 256 -> ~ is_named n (slot d k).

Lemma find_slot (P : Z * Inode -> Prop) `{!forall x, Decision (P x)} d : big d ->
  match list_find P (inode_slots d) with
  | Some (_, x) => x = (x.1, slot d x.1) /\ 0 <= x.1 < 256 /\ P x /\ forall j, 0 <= j < x.1 -> ~ P (j, slot d j)
  | None => forall j, 0 <= j < 256 -> ~ P (j, slot d j)
  end.
Proof.
  intros Hb. rewrite inode_slots_eq by done.
  assert (forall j, 0 <= j < 256 -> ((fun k => (k, slot d k)) <$> seqZ 0 256) !! Z.to_nat j = Some (j, slot d j)) as L.
  { intros j Hj. rewrite list_lookup_fmap, lookup_seqZ_lt by lia. simpl. by rewrite Z2Nat.id by lia. }
  destruct (list_find P _) as [[a x]|] eqn:E.
  - apply list_find_Some in E as (E & HP & Hn). apply list_lookup_fmap_Some in E as (k & -> & E).
    apply lookup_seqZ in E as [-> E]. simpl. split; [done|]. split; [lia|]. split; [done|].
    intros j Hj. apply (Hn (Z.to_nat j)); [apply L; lia|lia].
  - apply list_find_None in E. rewrite Forall_forall in E. intros j Hj. apply E. eapply list_elem_of_lookup_2, L, Hj.
Qed.

Lemma find_inode_some n w k : big (disk w) -> first_named n (disk w) k ->
  find_inode_by_name n w = (Ok (k, slot (disk w) k), w).
Proof.
  intros Hb (Hk & Hn & Hf). unfold find_inode_by_name.
  pose proof (find_slot (fun x => named n x = true) (disk w) Hb) as F.
  destruct (list_find _ _) as [[a [j i]]|]; simpl in F.
  - destruct F as (E & Hj & HP & Hlt). injection E as ->. apply named_spec in HP. simpl in HP.
    assert (j = k) as ->; [|done]. destruct (Z.lt_trichotomy j k) as [Hl|[|Hl]]; [|done|].
    + by destruct (Hf j ltac:(lia)).
    + destruct (Hlt k ltac:(lia)). by apply named_spec.
  - destruct (F k Hk). by apply named_spec.
Qed.

Lemma find_inode_none n w : big (disk w) -> unnamed n (disk w) -> find_inode_by_name n w = (Err tt, w).
Proof.
  intros Hb Hu. unfold find_inode_by_name. pose proof (find_slot (fun x => named n x = true) (disk w) Hb) as F.
  destruct (list_find _ _) as [[a [j i]]|]; simpl in F; [|done].
  destruct F as (E & Hj & HP & _). injection E as ->. apply named_spec in HP. by destruct (Hu j Hj).
Qed.

Lemma find_inode_cases n d : big d -> (exists k, first_named n d k) \/ unnamed n d.
Proof.
  intros Hb. pose proof (find_slot (fun x => named n x = true) d Hb) as F. destruct (list_find _ _) as [[a [j i]]|].
  - destruct F as (E & Hj & HP & Hlt). injection E as ->. left. exists j. split; [done|]. split; [by apply named_spec in HP|].
    intros k Hk Hn. apply (Hlt k Hk). by apply named_spec.
  - right. intros k Hk Hn. apply (F k Hk). by apply named_spec.
Qed.

Lemma find_free_some w : big (disk w) -> (exists k, 0 <= k < 256 /\ in_use (slot (disk w) k) = 0) ->
  exists k, find_free_inode w = (Ok k, w) /\ 0 <= k < 256 /\ in_use (slot (disk w) k) = 0.
Proof.
  intros Hb (k & Hk & Hz). unfold find_free_inode.
  pose proof (find_slot (fun x : Z * Inode => in_use x.2 = 0) (disk w) Hb) as F.
  destruct (list_find _ _) as [[a [j i]]|]; simpl in F.
  - destruct F as (E & Hj & HP & _). injection E as ->. exists j. by split.
  - by destruct (F k Hk).
Qed.
End Table.

(** ** Blocks *)

Section Blocks.
Context `{Machine} {D : Type} `{BlockDeviceLaws D}.

(** [b, b+n) is free space of the disk. *)
Definition free_run (p : PsychicFs) (n b : Z) : Prop :=
  DATA_BLOCKS_START <= b /\ b + n <= total_blocks (superblock p) /\
  forall x, b <= x < b + n -> is_block_allocated x p = false.

Lemma find_run_sound p n : 0 < n -> forall m b s l, 0 <= l < n -> (0 < l -> s + l = b) ->
  (forall x, s <= x < s + l -> is_block_allocated x p = false) -> 
  forall r, find_run p n (s, l) (seqZ b (Z.of_nat m)) = Some r ->
  (if l =? 0 then b else s) <= r /\ r + n <= b + Z.of_nat m /\ forall x, r <= x < r + n -> is_block_allocated x p = false.
Proof.
  intros Hn. induction m as [|m IH]; intros b s l Hl Hs Hf r; [done|].
  rewrite seqZ_cons by lia. replace (Z.pred (Z.of_nat (S m))) with (Z.of_nat m) by lia. cbn [find_run fst snd].
  destruct (is_block_allocated b p) eqn:Eb.
  - intros E. apply (IH (Z.succ b) s 0) in E as (E1 & E2 & E3); [|lia|lia|lia]. simpl in E1.
    split; [destruct (Z.eqb_spec l 0); lia|]. split; [lia|done].
  - set (st := if l =? 0 then b else s). 
    assert (st + (l + 1) = Z.succ b /\ forall x, st <= x < st + (l + 1) -> is_block_allocated x p = false) as [E1 E2].
    { unfold st. destruct (Z.eqb_spec l 0) as [->|].
      - split; [lia|]. intros x Hx. by replace x with b by lia.
      - split; [lia|]. intros x Hx. destruct (Z.eq_dec x b) as [->|]; [done|]. apply Hf. lia. }
    destruct (Z.leb_spec n (l + 1)).
    + intros [= <-]. split; [lia|]. split; [lia|]. intros x Hx. apply E2. lia.
    + intros E. apply (IH (Z.succ b) st (l + 1)) in E as (F1 & F2 & F3); [|lia|lia|done].
      destruct (Z.eqb_spec (l + 1) 0); [lia|]. split; [done|]. split; [lia|done].
Qed.

Lemma find_run_complete p n : 0 < n -> forall m b s l, 0 <= l < n -> (0 < l -> s + l = b) ->
  find_run p n (s, l) (seqZ b (Z.of_nat m)) = None ->
  forall x, (if l =? 0 then b else s) <= x -> x + n <= b + Z.of_nat m ->
  exists y, x <= y < x + n /\ is_block_allocated y p = true.
Proof.
  intros Hn. induction m as [|m IH]; intros b s l Hl Hs.
  - intros _ x Hx Hx2. exfalso. destruct (Z.eqb_spec l 0); lia.
  - rewrite seqZ_cons by lia. replace (Z.pred (Z.of_nat (S m))) with (Z.of_nat m) by lia. cbn [find_run fst snd].
    destruct (is_block_allocated b p) eqn:Eb.
    + intros E x Hx Hx2. destruct (Z.le_gt_cases (Z.succ b) x) as [Hge|Hlt].
      * apply (IH (Z.succ b) s 0 ltac:(lia) ltac:(lia) E x); simpl; lia.
      * exists b. split; [|done]. destruct (Z.eqb_spec l 0); lia.
    + set (st := if l =? 0 then b else s). destruct (Z.leb_spec n (l + 1)); [done|]. intros E x Hx Hx2.
      assert (st + (l + 1) = Z.succ b) as Est by (unfold st; destruct (Z.eqb_spec l 0); lia).
      apply (IH (Z.succ b) st (l + 1) ltac:(lia) ltac:(lia) E x); [|lia].
      destruct (Z.eqb_spec (l + 1) 0); lia.
Qed.

(** A run of free blocks is found when there is one. *)
Lemma find_contiguous_some p n (w : World D) b : PSYCHIC_FS w = Some p -> 0 < n -> free_run p n b ->
  exists start, find_contiguous_blocks n w = (Ok start, w) /\ free_run p n start.
Proof.
  intros Hp Hn (Hb1 & Hb2 & Hf). unfold find_contiguous_blocks. rewrite Hp.
  rewrite (proj2 (Z.leb_gt _ _)) by lia. unfold data_blocks.
  set (m := total_blocks (superblock p) - DATA_BLOCKS_START) in *.
  replace m with (Z.of_nat (Z.to_nat m)) by (unfold m; lia).
  destruct (find_run p n (0, 0) _) as [r|] eqn:E.
  - exists r. split; [done|]. apply find_run_sound in E as (E1 & E2 & E3); [|lia|lia|lia|lia].
    split; [done|]. split; [unfold m in *; lia|done].
  - destruct (find_run_complete p n Hn (Z.to_nat m) DATA_BLOCKS_START 0 0 ltac:(lia) ltac:(lia) E b) as (y & Hy & Hy2); [done|lia|].
    by rewrite Hf in Hy2.
Qed.

(** ** The bitmap *)

Record wf_fs (p : PsychicFs) : Prop := {
  wf_bitmap : length (block_bitmap p) = 1024%nat;
  wf_reserved : length (sb_reserved (superblock p)) = 485%nat;
}.

Lemma bm_test_spec bm idx : bm_test bm idx = Z.testbit (bm_byte bm (idx / 8)) (idx mod 8).
Proof. unfold bm_test. rewrite land_mask_zero by (apply Z.mod_pos_bound; lia). apply negb_involutive. Qed.

Lemma bm_byte_alter f bm j k : 0 <= j < Z.of_nat (length bm) -> 0 <= k ->
  bm_byte (alter f (Z.to_nat j) bm) k = if k =? j then f (bm_byte bm k) else bm_byte bm k.
Proof.
  intros Hj Hk. unfold bm_byte. rewrite !nth_lookup. destruct (Z.eqb_spec k j) as [->|Hne].
  - rewrite list_lookup_alter_eq. destruct (lookup_lt_is_Some_2 bm (Z.to_nat j)) as [x ->]; [lia|done].
  - by rewrite list_lookup_alter_ne by lia.
Qed.

Lemma byte_range idx n : 0 <= idx < 8 * n -> 0 <= idx / 8 < n /\ 0 <= idx mod 8 < 8.
Proof. intros. split; [|apply Z.mod_pos_bound; lia]. split; [apply Z.div_pos; lia|apply Z.div_lt_upper_bound; lia]. Qed.

Lemma same_bit i j : i / 8 = j / 8 -> i mod 8 = j mod 8 -> i = j.
Proof. intros. pose proof (Z.div_mod i 8). pose proof (Z.div_mod j 8). lia. Qed.

Lemma bm_set_spec bm i j : length bm = 1024%nat -> 0 <= i < 8192 -> 0 <= j ->
  bm_test (bm_set bm i) j = (j =? i) || bm_test bm j.
Proof.
  intros Hl Hi Hj. rewrite !bm_test_spec. unfold bm_set. destruct (byte_range i 1024) as [R1 R2]; [lia|].
  rewrite bm_byte_alter by (rewrite ?Hl; lia || apply Z.div_pos; lia).
  destruct (Z.eqb_spec (j / 8) (i / 8)) as [E|Hne].
  - rewrite lor_mask_spec by lia. f_equal. destruct (Z.eqb_spec (j mod 8) (i mod 8)) as [E2|], (Z.eqb_spec j i) as [->|]; try done.
    by destruct n; apply same_bit.
  - by destruct (Z.eqb_spec j i) as [->|].
Qed.

Lemma bm_clear_test bm i j : length bm = 1024%nat -> 0 <= i < 8192 -> 0 <= j ->
  bm_test bm j = false -> bm_test (bm_clear bm i) j = false.
Proof.
  intros Hl Hi Hj. rewrite !bm_test_spec. unfold bm_clear. destruct (byte_range i 1024) as [R1 R2]; [lia|].
  rewrite bm_byte_alter by (rewrite ?Hl; lia || apply Z.div_pos; lia). destruct (_ =? _); [|done].
  intros E. by rewrite Z.land_spec, E.
Qed.

Lemma length_bm_set bm i : length (bm_set bm i) = length bm.
Proof. apply length_alter. Qed.
Lemma length_bm_clear bm i : length (bm_clear bm i) = length bm.
Proof. apply length_alter. Qed.
End Blocks.

(** ** Metadata writes

    Freeing blocks and syncing touch the superblock and the two bitmap sectors
    only, and never take a free block. *)

Section Metadata.
Context `{Machine} {D : Type} `{BlockDeviceLaws D}.

Lemma length_superblock sb : length (sb_reserved sb) = 485%nat -> length (superblock_to_bytes sb) = 512%nat.
Proof.
  intros E. unfold superblock_to_bytes, superblock_repr. rewrite length_take, !length_app, !length_le, E. done.
Qed.

(** The file sectors of two disks agree. *)
Definition same_files (d d' : D) : Prop :=
  disk_capacity d' = disk_capacity d /\
  forall s, s <> SUPERBLOCK_SECTOR -> s <> BITMAP_SECTOR -> s <> BITMAP_SECTOR + 1 -> disk_read s d' = disk_read s d.

#[export] Instance same_files_preorder : PreOrder same_files.
Proof.
  split; [by intros d|]. intros d1 d2 d3 [C1 R1] [C2 R2]. split; [congruence|].
  intros s S1 S2 S3. by rewrite R2, R1.
Qed.

Lemma big_same d d' : same_files d d' -> big d -> big d'.
Proof. intros [C _]. unfold big. by rewrite C. Qed.

Lemma write_meta (w : World D) s b : big (disk w) -> length b = 512%nat ->
  s = SUPERBLOCK_SECTOR \/ s = BITMAP_SECTOR \/ s = BITMAP_SECTOR + 1 ->
  exists d', disk_write_sector s b w = (Ok tt, mkWorld d' (ticks w) (PSYCHIC_FS w)) /\ same_files (disk w) d' /\
             (forall s', disk_read s' d' = if s' =? s then Some b else disk_read s' (disk w)).
Proof.
  intros Hb Hl Hs. assert (0 <= s < disk_capacity (disk w)) as R
    by (unfold big, DATA_BLOCKS_START, SUPERBLOCK_SECTOR, BITMAP_SECTOR in *; lia).
  destruct (bl_write (disk w) s b R Hl) as (d' & E & Hc & Hr). exists d'. unfold disk_write_sector. rewrite E.
  split; [done|]. split; [|done]. split; [done|]. intros s' S1 S2 S3. rewrite Hr.
  destruct (Z.eqb_spec s' s) as [->|]; [|done]. by destruct Hs as [|[|]].
Qed.

(** A sync succeeds, leaves no flag set, and stores the bitmap when it was
    dirty. *)
Lemma sync_spec p (w : World D) : big (disk w) -> wf_fs p -> mounted p = true ->
  exists p' d', sync p w = (true, p', mkWorld d' (ticks w) (PSYCHIC_FS w)) /\ same_files (disk w) d' /\ wf_fs p' /\
    block_bitmap p' = block_bitmap p /\ mounted p' = true /\ bitmap_dirty p' = false /\ superblock_dirty p' = false /\
    total_blocks (superblock p') = total_blocks (superblock p) /\
    free_blocks (superblock p') = free_blocks (superblock p) /\
    (bitmap_dirty p = true -> sector d' BITMAP_SECTOR ++ sector d' (BITMAP_SECTOR + 1) = block_bitmap p).
Proof.
  intros Hb Hw Hm. pose proof Hw as [W1 W2]. unfold sync. rewrite Hm. cbn [negb].
  assert (exists d1, (if bitmap_dirty p then let (r, w') := write_bitmap_to_disk p w in
      if is_ok r then (true, with_flags false (superblock_dirty p) p, w') else (false, p, w') else (true, p, w)) =
      (true, with_flags false (superblock_dirty p) p, mkWorld d1 (ticks w) (PSYCHIC_FS w)) /\ same_files (disk w) d1 /\
      (bitmap_dirty p = true -> sector d1 BITMAP_SECTOR ++ sector d1 (BITMAP_SECTOR + 1) = block_bitmap p))
    as (d1 & -> & S1 & B1).
  { destruct (bitmap_dirty p) eqn:Ed.
    - destruct (write_meta w BITMAP_SECTOR (take 512 (block_bitmap p)) Hb) as (d1 & E1 & S1 & R1);
        [by rewrite length_take, W1|auto|].
      set (w1 := mkWorld d1 (ticks w) (PSYCHIC_FS w)) in *.
      destruct (write_meta w1 (BITMAP_SECTOR + 1) (take 512 (drop 512 (block_bitmap p)))) as (d2 & E2 & S2 & R2);
        [by apply (big_same _ _ S1)|by rewrite length_take, length_drop, W1|auto|].
      exists d2. split; [|split; [by transitivity d1|]].
      + unfold write_bitmap_to_disk, bindM. rewrite E1, E2. done.
      + intros _. unfold sector. rewrite !R2. cbn [disk w1]. rewrite R1. change (BITMAP_SECTOR =? BITMAP_SECTOR + 1) with false.
        rewrite !Z.eqb_refl. cbn [default]. rewrite (take_ge (drop 512 _)) by (rewrite length_drop; lia). apply take_drop.
    - exists (disk w). split; [|by split]. destruct w, p. cbn in *. by subst. }
  cbn [superblock_dirty with_flags superblock]. destruct (superblock_dirty p) eqn:Es.
  - set (w1 := mkWorld d1 (ticks w) (PSYCHIC_FS w)).
    set (p2 := with_super (with_dirty 0 (superblock p)) (with_flags false true p)).
    destruct (write_meta w1 SUPERBLOCK_SECTOR (superblock_to_bytes (superblock p2))) as (d2 & E2 & S2 & R2);
      [by apply (big_same _ _ S1)|by apply length_superblock|auto|].
    rewrite E2. cbn [is_ok]. exists (with_flags (bitmap_dirty p2) false p2), d2.
    split; [done|]. split; [by transitivity d1|]. split; [by constructor|]. do 6 (split; [done|]).
    intros E. rewrite <- (B1 E). unfold sector. by rewrite !R2.
  - exists (with_flags false false p), d1. split; [done|]. split; [done|]. split; [by constructor|]. by do 6 (split; [done|]).
Qed.

(** What freeing blocks keeps. *)
Definition keeps (f : World D -> World D) : Prop := forall w p, big (disk w) -> PSYCHIC_FS w = Some p -> wf_fs p -> mounted p = true ->
  same_files (disk w) (disk (f w)) /\ exists p', PSYCHIC_FS (f w) = Some p' /\ wf_fs p' /\ mounted p' = true /\
    total_blocks (superblock p') = total_blocks (superblock p) /\
    forall b, is_block_allocated b p = false -> is_block_allocated b p' = false.

Lemma keeps_id : keeps (fun w => w).
Proof. intros w p Hb Hp Hw Hm. split; [done|]. exists p. by do 4 (split; [done|]). Qed.

Lemma keeps_comp f g : keeps f -> keeps g -> keeps (fun w => g (f w)).
Proof.
  intros F G w p Hb Hp Hw Hm. destruct (F w p Hb Hp Hw Hm) as (S1 & p1 & P1 & W1 & M1 & T1 & A1).
  destruct (G (f w) p1) as (S2 & p2 & P2 & W2 & M2 & T2 & A2); [by apply (big_same _ _ S1)|done..|].
  split; [by transitivity (disk (f w))|]. exists p2. do 3 (split; [done|]). split; [congruence|]. auto.
Qed.

Lemma keeps_foldl {A} (f : World D -> A -> World D) l : (forall x, keeps (fun w => f w x)) -> keeps (fun w => foldl f w l).
Proof.
  intros F. induction l as [|x l IH]; [exact keeps_id|]. exact (keeps_comp _ _ (F x) IH).
Qed.

Lemma keeps_free_block b : keeps (free_block b).
Proof.
  intros w p Hb Hp Hw Hm. pose proof (keeps_id w p Hb Hp Hw Hm) as Id. unfold free_block. rewrite Hp.
  destruct (Z.ltb_spec b DATA_BLOCKS_START) as [|Hge]; [done|].
  destruct (Z.ltb_spec ((b - DATA_BLOCKS_START) / 8) 1024) as [Hlt|]; [|done].
  destruct (negb _); [done|]. set (idx := b - DATA_BLOCKS_START) in *.
  set (p1 := with_super _ _). destruct Hw as [W1 W2].
  destruct (sync_spec (mark_dirty p1) w) as (p2 & d' & E & S & W' & B & M & _ & _ & T & _); [done| |done|].
  { constructor; [|done]. cbn. by rewrite length_bm_clear. }
  rewrite E. cbn [disk put_fs PSYCHIC_FS]. split; [done|]. exists p2. do 3 (split; [done|]). split; [done|].
  intros x. unfold is_block_allocated. rewrite B. destruct (Z.ltb_spec x DATA_BLOCKS_START); [done|].
  destruct (Z.leb_spec 1024 ((x - DATA_BLOCKS_START) / 8)); [done|].
  cbn [block_bitmap mark_dirty with_flags p1 with_super with_bitmap]. apply bm_clear_test; [done| |lia].
  split; [lia|]. pose proof (Z.div_mod idx 8). pose proof (Z.mod_pos_bound idx 8). lia.
Qed.

Lemma keeps_free_extents es : keeps (free_extents es).
Proof.
  apply keeps_foldl. intros e. destruct (is_empty e); [apply keeps_id|].
  apply keeps_foldl. intros i. apply keeps_free_block.
Qed.
End Metadata.

(** ** Writing and reading a file *)

Section Files.
Context `{Machine} {D : Type} `{BlockDeviceLaws D}.

Definition one_extent (start n : Z) : list Extent :=
  mkExtent 0 start n :: replicate 3 Extent_empty.

Lemma add_first_extent i start n : length (extents i) = INLINE_EXTENTS ->
  add_extent start n (clear_extents i) = (true, with_extents (one_extent start n) 0 0 1 (clear_extents i)).
Proof. intros Hl. destruct (list_len4 _ Hl) as (a & b & c & d & E). unfold add_extent, clear_extents. by rewrite E. Qed.

Lemma one_extent_block start n b i : in_width 32 start -> in_width 32 (start + n) -> 0 <= b < n -> n < 2 ^ 16 ->
  extents i = one_extent start n -> get_physical_block (b mod 2 ^ 16) i = Some (start + b).
Proof.
  intros Hs He Hb Hn E. unfold get_physical_block. rewrite E, Z.mod_small by lia. unfold one_extent. cbn [first_some].
  assert (translate b (mkExtent 0 start n) = Some (start + b)) as ->; [|done].
  unfold in_width in *. unfold translate, contains, is_empty. cbn [logical_block physical_block count].
  rewrite Z.sub_0_r, Z.add_0_l, !wrap_small by (unfold in_width; rewrite ?wrap_small by (unfold in_width; lia); lia).
  rewrite (proj2 (Z.eqb_neq _ _)), (proj2 (Z.leb_le _ _)), (proj2 (Z.ltb_lt _ _)) by lia. done.
Qed.

Lemma alloc_contiguous_world start n (w : World D) :
  disk (allocate_contiguous_blocks start n w) = disk w /\ ticks (allocate_contiguous_blocks start n w) = ticks w.
Proof. unfold allocate_contiguous_blocks. by destruct (PSYCHIC_FS w). Qed.

Lemma length_bm_sets start l bm : length (foldl (fun bm i => bm_set bm (start +[32] i)) bm l) = length bm.
Proof. revert bm. induction l as [|i l IH]; intros bm; simpl; [done|]. by rewrite IH, length_bm_set. Qed.

Lemma alloc_contiguous_fs start n (w : World D) p : PSYCHIC_FS w = Some p -> wf_fs p -> mounted p = true ->
  exists p', PSYCHIC_FS (allocate_contiguous_blocks start n w) = Some p' /\ wf_fs p' /\ mounted p' = true.
Proof.
  intros E [W1 W2] M. unfold allocate_contiguous_blocks. rewrite E. eexists. split; [done|]. split; [|done].
  constructor; [|done]. cbn. by rewrite length_bm_sets.
Qed.

(** With a free run the loop is over after one round. *)
Lemma allocate_loop_once i n (w : World D) p b : PSYCHIC_FS w = Some p -> 0 < n <= 65535 -> free_run p n b ->
  length (extents i) = INLINE_EXTENTS ->
  exists start, free_run p n start /\
    allocate_loop (Z.to_nat n) n (clear_extents i) w =
    (Ok (with_extents (one_extent start n) 0 0 1 (clear_extents i)), allocate_contiguous_blocks start n w).
Proof.
  intros Hp Hn Hf Hl. destruct (find_contiguous_some p n w b Hp) as (start & E & Hs); [lia|done|].
  exists start. split; [done|]. replace (Z.to_nat n) with (S (Z.to_nat (n - 1))) by lia. cbn [allocate_loop].
  rewrite (proj2 (Z.leb_gt _ _)), Z.min_l, E, add_first_extent by (lia || done).
  rewrite Z.sub_diag. by destruct (Z.to_nat (n - 1)).
Qed.

Lemma length_block_of bytes b : length (block_of bytes b) = 512%nat.
Proof.
  unfold block_of. rewrite length_app, length_replicate. unfold BLOCK_SIZE.
  assert (length (field (Z.to_nat b * 512) 512 bytes) <= 512)%nat; [|lia]. unfold field. rewrite length_take. lia.
Qed.

Lemma write_blocks_spec bytes i start n : in_width 32 start -> in_width 32 (start + n) -> n < 2 ^ 16 ->
  extents i = one_extent start n -> forall m b (w : World D), 0 <= b -> b + Z.of_nat m = n -> 0 <= start ->
  start + n <= disk_capacity (disk w) ->
  exists d', write_blocks bytes i (seqZ b (Z.of_nat m)) w = (Ok tt, mkWorld d' (ticks w) (PSYCHIC_FS w)) /\
    disk_capacity d' = disk_capacity (disk w) /\
    forall s, disk_read s d' = if (start + b <=? s) && (s <? start + n) then Some (block_of bytes (s - start)) else disk_read s (disk w).
Proof.
  intros W1 W2 Hn E. induction m as [|m IH]; intros b w Hb Hm Hs Hc.
  - exists (disk w). split; [by destruct w|]. split; [done|]. intros s.
    destruct (Z.leb_spec (start + b) s), (Z.ltb_spec s (start + n)); simpl; [lia|done..].
  - rewrite seqZ_cons by lia. replace (Z.pred (Z.of_nat (S m))) with (Z.of_nat m) by lia. cbn [write_blocks].
    rewrite (one_extent_block start n b i) by (done || lia).
    destruct (bl_write (disk w) (start + b) (block_of bytes b)) as (d1 & E1 & C1 & R1); [lia|apply length_block_of|].
    destruct (IH (Z.succ b) (mkWorld d1 (ticks w) (PSYCHIC_FS w))) as (d2 & E2 & C2 & R2); [lia|lia|lia|cbn; lia|].
    exists d2. split; [|split; [cbn in C2; congruence|]].
    + unfold bindM, disk_write_sector. rewrite E1. exact E2.
    + intros s. rewrite R2. cbn [disk]. rewrite R1.
      destruct (Z.leb_spec (start + Z.succ b) s), (Z.leb_spec (start + b) s), (Z.ltb_spec s (start + n)), (Z.eqb_spec s (start + b));
        simpl; try lia; try done. subst s. by replace (start + b - start) with b by lia.
Qed.

Lemma take_block bytes b : 0 <= b -> b * 512 <= Z.of_nat (length bytes) ->
  take (Z.to_nat (Z.min (Z.of_nat (length bytes) - b * 512) 512)) (block_of bytes b) ++ drop (Z.to_nat (Z.succ b * 512)) bytes =
  drop (Z.to_nat (b * 512)) bytes.
Proof.
  intros Hb Hl. unfold block_of, field, BLOCK_SIZE.
  replace (Z.to_nat b * 512)%nat with (Z.to_nat (b * 512)) by lia. set (x := drop (Z.to_nat (b * 512)) bytes).
  replace (drop (Z.to_nat (Z.succ b * 512)) bytes) with (drop 512 x) by (unfold x; rewrite drop_drop; f_equal; lia).
  assert (length x = Z.to_nat (Z.of_nat (length bytes) - b * 512)) as Hx by (unfold x; rewrite length_drop; lia).
  rewrite take_app_le by (rewrite length_take; lia). rewrite take_take.
  destruct (Nat.le_gt_cases (length x) 512).
  - rewrite (drop_ge x 512), app_nil_r by done. apply take_ge. lia.
  - replace (Init.Nat.min _ _) with 512%nat by lia. apply take_drop.
Qed.

Lemma read_blocks_spec bytes i start n : in_width 32 start -> in_width 32 (start + n) -> n < 2 ^ 16 ->
  extents i = one_extent start n -> n = blocks_for (Z.of_nat (length bytes)) -> forall (w : World D),
  (forall b, 0 <= b < n -> disk_read (start + b) (disk w) = Some (block_of bytes b)) ->
  forall m b, 0 <= b -> b + Z.of_nat m = n ->
  read_blocks i (Z.of_nat (length bytes) - b * 512) (seqZ b (Z.of_nat m)) w = (Ok (drop (Z.to_nat (b * 512)) bytes), w).
Proof.
  intros W1 W2 Hn E Hlen w R. unfold blocks_for in Hlen.
  pose proof (Z.div_mod (Z.of_nat (length bytes) + 511) 512 ltac:(lia)) as DM.
  pose proof (Z.mod_pos_bound (Z.of_nat (length bytes) + 511) 512 ltac:(lia)) as MB. rewrite <- Hlen in DM.
  induction m as [|m IH]; intros b Hb Hm.
  - cbn [Z.of_nat seqZ]. rewrite seqZ_nil by lia. cbn [read_blocks]. unfold ret. by rewrite drop_ge by lia.
  - rewrite seqZ_cons by lia. replace (Z.pred (Z.of_nat (S m))) with (Z.of_nat m) by lia. cbn [read_blocks].
    rewrite (one_extent_block start n b i) by (done || lia).
    unfold bindM at 1, disk_read_sector. rewrite R by lia.
    destruct (Nat.eq_dec m 0%nat) as [->|Hne].
    + cbn [Z.of_nat]. rewrite seqZ_nil by lia. cbn [read_blocks]. unfold bindM, ret. repeat f_equal. 
      rewrite <- (take_block bytes b) by lia. f_equal. by rewrite drop_ge by lia.
    + replace (Z.of_nat (length bytes) - b * 512 - Z.min (Z.of_nat (length bytes) - b * 512) 512)
        with (Z.of_nat (length bytes) - Z.succ b * 512) by lia.
      unfold bindM at 1. rewrite IH by lia. unfold ret. f_equal. f_equal. apply take_block; lia.
Qed.
End Files.

(** ** Whole operations *)

Section Whole.
Context `{Machine} {D : Type} `{BlockDeviceLaws D}.

Lemma slot_same d d' k : (forall s, 1 <= s < 65 -> disk_read s d' = disk_read s d) -> 0 <= k < 256 -> slot d' k = slot d k.
Proof.
  intros R Hk. unfold slot, slot_bytes, sector. rewrite R; [done|]. unfold INODE_TABLE_START.
  assert (0 <= k / 4 < 64) by (split; [apply Z.div_pos; lia|apply Z.div_lt_upper_bound; lia]). lia.
Qed.

Lemma files_slot d d' k : same_files d d' -> 0 <= k < 256 -> slot d' k = slot d k.
Proof.
  intros [_ R]. apply slot_same. intros s Hs. apply R; unfold SUPERBLOCK_SECTOR, BITMAP_SECTOR; lia.
Qed.

Record ready (w : World D) (p : PsychicFs) : Prop := {
  r_big : big (disk w);
  r_fs : PSYCHIC_FS w = Some p;
  r_wf : wf_fs p;
  r_mounted : mounted p = true;
  r_total : total_blocks (superblock p) <= disk_capacity (disk w);
}.

Lemma free_block_bound b p : DATA_BLOCKS_START <= b -> is_block_allocated b p = false -> b < 8320.
Proof.
  unfold is_block_allocated. intros Hb. rewrite (proj2 (Z.ltb_ge _ _)) by done.
  destruct (Z.leb_spec 1024 ((b - DATA_BLOCKS_START) / 8)); [done|]. intros _.
  unfold DATA_BLOCKS_START in *. pose proof (Z.div_mod (b - 128) 8). pose proof (Z.mod_pos_bound (b - 128) 8). lia.
Qed.

Lemma free_run_bound p n b : 0 < n -> free_run p n b -> 128 <= b /\ b + n <= 8320 /\ n <= 65535 /\ in_width 32 b /\ in_width 32 (b + n).
Proof.
  intros Hn (H1' & H2 & H3). unfold DATA_BLOCKS_START in *. pose proof (free_block_bound (b + n - 1) p) as B.
  unfold DATA_BLOCKS_START in B. specialize (B ltac:(lia) ltac:(apply H3; lia)). unfold in_width. lia.
Qed.

(** The inode of slot [num] reads as [bytes] on [d]. *)
Definition stores (d : D) (num : Z) (bytes : list Z) : Prop :=
  size (slot d num) = Z.of_nat (length bytes) /\
  forall w : World D, disk w = d -> bytes <> [] ->
    read_blocks (slot d num) (Z.of_nat (length bytes)) (seqZ 0 (blocks_for (Z.of_nat (length bytes)))) w = (Ok bytes, w).

(** [d'] differs from [d] in slot [num], where the name and the use stay. *)
Definition updates (d d' : D) (num : Z) (i : Inode) : Prop :=
  disk_capacity d' = disk_capacity d /\
  in_use (slot d' num) = in_use i /\ name (slot d' num) = name i /\
  forall k, 0 <= k < 256 -> k <> num -> core (slot d' k) = core (slot d k).

Lemma blocks_for_zero (bytes : list Z) : blocks_for (Z.of_nat (length bytes)) = 0 -> bytes = [].
Proof.
  unfold blocks_for. intros E. destruct bytes as [|b r]; [done|]. apply Z.div_small_iff in E; [|lia]. simpl in E. lia.
Qed.

(** Truncating a file to nothing. *)
Lemma truncate_spec (w : World D) num i created modified_ : big (disk w) -> 0 <= num < 256 ->
  length (extents i) = INLINE_EXTENTS -> length (name i) = MAX_FILENAME_LEN ->
  exists w', write_inode num (clear_extents (with_meta (in_use i) 0 created modified_ (dirty i) i)) w = (Ok tt, w') /\
    updates (disk w) (disk w') num i /\ stores (disk w') num [].
Proof.
  intros Hb Hnum He Hname. set (i' := clear_extents _).
  destruct (write_inode_spec w num i') as (d' & E & C & _ & V & _ & O); [done..| |].
  { constructor; [done|cbn; by rewrite length_fmap| |done]. destruct (list_len4 _ He) as (?&?&?&?&E). cbn. rewrite E.
    by repeat constructor. }
  eexists. split; [exact E|]. apply view_fields in V as (V1 & V2 & V3 & V4). split; [by split|].
  split; [cbn [disk]; by rewrite V2|]. done.
Qed.

(** Storing an inode and syncing. *)
Lemma commit_spec (w : World D) p num i : big (disk w) -> PSYCHIC_FS w = Some p -> wf_fs p -> mounted p = true ->
  0 <= num < 256 -> wf_inode i ->
  exists w', bindM (write_inode num i) (fun _ => fs_sync) w = (Ok tt, w') /\
    disk_capacity (disk w') = disk_capacity (disk w) /\
    (forall s, DATA_BLOCKS_START <= s -> disk_read s (disk w') = disk_read s (disk w)) /\
    view (slot (disk w') num) = view i /\
    forall k, 0 <= k < 256 -> k <> num -> core (slot (disk w') k) = core (slot (disk w) k).
Proof.
  intros Hb Hp Hw Hm Hnum Hi. destruct (write_inode_spec w num i Hb Hnum Hi) as (d3 & E3 & C3 & R3 & V3 & _ & O3).
  destruct (sync_spec p (mkWorld d3 (ticks w) (Some p))) as (p4 & d4 & E4 & S4 & _);
    [unfold big; cbn [disk]; by rewrite C3|done..|]. cbn [disk] in S4.
  exists (mkWorld d4 (ticks w) (Some p4)). cbn [disk]. split; [|split; [by rewrite (proj1 S4)|split; [|split]]].
  - unfold bindM. rewrite E3, Hp. unfold fs_sync. cbn [PSYCHIC_FS]. by rewrite E4.
  - unfold DATA_BLOCKS_START. intros s Hs. rewrite (proj2 S4) by (unfold SUPERBLOCK_SECTOR, BITMAP_SECTOR; lia).
    apply R3. lia.
  - by rewrite (files_slot d3 d4).
  - intros k Hk Hne. rewrite (files_slot d3 d4) by done. by apply O3.
Qed.

(** Allocating one extent and writing the data into it: the inode table stays
    as it was and the extent holds the data. *)
Lemma fill_spec w p i bytes n b : ready w p -> length (extents i) = INLINE_EXTENTS ->
  n = blocks_for (Z.of_nat (length bytes)) -> 0 < n -> free_run p n b ->
  exists start w2 p2, let i1 := with_extents (one_extent start n) 0 0 1 (clear_extents i) in
    bindM (allocate_loop (Z.to_nat n) n (clear_extents i)) (fun i1 => bindM (write_blocks bytes i1 (seqZ 0 n)) (fun _ => ret i1)) w =
      (Ok i1, w2) /\
    PSYCHIC_FS w2 = Some p2 /\ wf_fs p2 /\ mounted p2 = true /\ disk_capacity (disk w2) = disk_capacity (disk w) /\
    in_width 32 start /\ in_width 32 (start + n) /\ n < 2 ^ 16 /\ 128 <= start /\
    (forall x, 0 <= x < n -> disk_read (start + x) (disk w2) = Some (block_of bytes x)) /\
    (forall k, 0 <= k < 256 -> slot (disk w2) k = slot (disk w) k).
Proof.
  intros [Hb Hp Hw Hm Ht] He Hlen Hn Hf.
  destruct (allocate_loop_once i n w p b Hp) as (start & Hs & Eloop); [destruct (free_run_bound p n b Hn Hf); lia|done..|].
  destruct (free_run_bound p n start Hn Hs) as (Q1 & Q2 & Q3 & Q4 & Q5).
  destruct (alloc_contiguous_fs start n w p Hp Hw Hm) as (p1 & P1 & W1 & M1).
  destruct (alloc_contiguous_world start n w) as [D1 _].
  set (w1 := allocate_contiguous_blocks start n w) in *.
  set (i1 := with_extents (one_extent start n) 0 0 1 (clear_extents i)) in *.
  destruct (write_blocks_spec bytes i1 start n Q4 Q5 ltac:(lia) eq_refl (Z.to_nat n) 0 w1) as (d2 & E2 & C2 & R2);
    [lia|lia|lia|destruct Hs as (_ & Hs & _); rewrite D1; lia|].
  rewrite Z2Nat.id in E2 by lia. rewrite Z.add_0_r in R2.
  exists start, (mkWorld d2 (ticks w1) (PSYCHIC_FS w1)), p1. cbn [disk PSYCHIC_FS]. split.
  { unfold bindM. rewrite Eloop. by rewrite E2. }
  do 3 (split; [done|]). split; [by rewrite C2, D1|]. do 2 (split; [done|]). split; [lia|]. split; [done|]. split.
  - intros x Hx. rewrite R2, (proj2 (Z.leb_le _ _)), (proj2 (Z.ltb_lt _ _)) by lia. cbn [andb]. f_equal. f_equal. lia.
  - intros k Hk. rewrite <- D1. apply slot_same; [|done]. intros s Hs1. rewrite R2. by rewrite (proj2 (Z.leb_gt _ _)) by lia.
Qed.

Lemma write_contents_spec w p num i bytes b :
  ready w p -> 0 <= num < 256 -> length (extents i) = INLINE_EXTENTS -> length (name i) = MAX_FILENAME_LEN ->
  free_run p (blocks_for (Z.of_nat (length bytes))) b ->
  exists w', write_contents num i bytes w = (Ok tt, w') /\ updates (disk w) (disk w') num i /\ stores (disk w') num bytes.
Proof.
  intros [Hb Hp Hw Hm Ht] Hnum He Hname Hf. unfold write_contents.
  set (n := blocks_for (Z.of_nat (length bytes))) in *. destruct (Z.eqb_spec n 0) as [Ez|Hne].
  - rewrite (blocks_for_zero bytes Ez). by apply truncate_spec.
  - assert (0 < n) as Hn by (unfold n, blocks_for in *; pose proof (Z.div_pos (Z.of_nat (length bytes) + 511) 512); lia).
    destruct (keeps_free_extents (extents i) w p Hb Hp Hw Hm) as (S0 & p0 & P0 & W0 & M0 & T0 & A0).
    set (w0 := free_extents (extents i) w) in *.
    destruct (fill_spec w0 p0 i bytes n b) as (start & w2 & p2 & E2 & P2 & W2 & M2 & C2 & Q4 & Q5 & Q6 & Q7 & R2 & S2).
    { split; [by apply (big_same _ _ S0)|done..|]. by rewrite T0, (proj1 S0). }
    { done. } { done. } { done. }
    { destruct Hf as (F1 & F2 & F3). split; [done|]. split; [by rewrite T0|]. auto. }
    set (i1 := with_extents (one_extent start n) 0 0 1 (clear_extents i)) in *.
    assert (Z.of_nat (length bytes) < 2 ^ 32) as Hlen.
    { unfold n, blocks_for in Q6. pose proof (Z.div_mod (Z.of_nat (length bytes) + 511) 512).
      pose proof (Z.mod_pos_bound (Z.of_nat (length bytes) + 511) 512). lia. }
    set (w3 := mkWorld (disk w2) (tick (ticks w2)) (PSYCHIC_FS w2)).
    set (i2 := with_meta (in_use i1) (Z.of_nat (length bytes) mod 2 ^ 32) (created_time i1) (ticks w2) 1 i1).
    destruct (commit_spec w3 p2 num i2) as (w4 & E4 & C4 & R4 & V4 & O4); [|done..| |].
    { unfold big. cbn [w3 disk]. rewrite C2, (proj1 S0). exact Hb. }
    { constructor; [apply wrap_in_width; lia|done| |done]. unfold in_width in *.
      apply Forall_cons. split; [unfold wf_extent, in_width; cbn; lia|]. by repeat constructor. }
    apply view_fields in V4 as (V4a & V4b & V4c & V4d).
    exists w4. split; [|split].
    + unfold bindM in E2 |- *. destruct (allocate_loop _ _ _ w0) as [[j|] wa]; [|done].
      destruct (write_blocks bytes j _ wa) as [[[]|] wb]; [|done]. unfold ret in E2. injection E2 as -> ->.
      exact E4.
    + split; [rewrite C4; cbn [w3 disk]; by rewrite C2, (proj1 S0)|]. split; [done|]. split; [done|].
      intros k Hk Hk2. rewrite O4 by done. cbn [disk w3]. by rewrite S2, (files_slot (disk w) (disk w0)).
    + split; [rewrite V4b; unfold i2; cbn [size with_meta]; by rewrite Z.mod_small by lia|]. intros w' Ew _. fold n.
      pose proof (read_blocks_spec bytes (slot (disk w4) num) start n Q4 Q5 Q6 V4c eq_refl w') as R.
      specialize (R ltac:(intros x Hx; rewrite Ew, R4 by (unfold DATA_BLOCKS_START; lia); by apply R2)
        (Z.to_nat n) 0 ltac:(lia) ltac:(lia)).
      rewrite Z2Nat.id in R by lia. by rewrite Z.mul_0_l, Z.sub_0_r in R.
Qed.

(** *** Names *)

(** The names [fs_create] accepts and [get_name] reads back. *)
Definition valid_name (n : list Z) : Prop := (length n < MAX_FILENAME_LEN)%nat /\ utf8_valid n = true /\ 0 ∉ n.

Lemma until_zero_app n r : 0 ∉ n -> until_zero (n ++ 0 :: r) = n.
Proof.
  induction n as [|b n IH]; intros Hn; [done|]. apply not_elem_of_cons in Hn as [Hb Hn]. cbn [until_zero app].
  rewrite (proj2 (Z.eqb_neq _ _)) by done. by rewrite IH.
Qed.

Lemma set_name_spec n : valid_name n ->
  get_name (set_name n Inode_new) = n /\ length (name (set_name n Inode_new)) = MAX_FILENAME_LEN.
Proof.
  unfold MAX_FILENAME_LEN. intros (Hl & Hu & Hz). unfold MAX_FILENAME_LEN in Hl.
  assert (name (set_name n Inode_new) = n ++ 0 :: replicate (47 - length n) 0) as E.
  { unfold set_name, Inode_new, MAX_FILENAME_LEN, blit; cbn [name]. rewrite Nat.min_l, (take_ge n) by lia. cbn [take app Nat.add].
    rewrite drop_replicate. replace (48 - length n)%nat with (S (47 - length n)) by lia. cbn [replicate].
    rewrite firstn_O, app_nil_l, insert_app_r_alt by done. by rewrite Nat.sub_diag. }
  unfold get_name. rewrite E, until_zero_app by done. rewrite Hu. split; [done|].
  rewrite length_app. cbn [length]. rewrite length_replicate. lia.
Qed.

Lemma slot_shape d k : big d -> 0 <= k < 256 ->
  length (extents (slot d k)) = INLINE_EXTENTS /\ length (name (slot d k)) = MAX_FILENAME_LEN.
Proof.
  intros Hb Hk. split; [done|]. unfold slot, bytes_to_inode; cbn [name]. apply length_field.
  pose proof (length_slot_bytes d k Hb Hk). rewrite length_app. unfold MAX_FILENAME_LEN. lia.
Qed.

Lemma fs_create_spec n (w : World D) : big (disk w) -> valid_name n -> unnamed n (disk w) ->
  (exists k, 0 <= k < 256 /\ in_use (slot (disk w) k) = 0) ->
  exists num w', fs_create n w = (Ok tt, w') /\ 0 <= num < 256 /\ in_use (slot (disk w) num) = 0 /\
    PSYCHIC_FS w' = PSYCHIC_FS w /\ disk_capacity (disk w') = disk_capacity (disk w) /\
    is_named n (slot (disk w') num) /\ size (slot (disk w') num) = 0 /\
    forall k, 0 <= k < 256 -> k <> num -> core (slot (disk w') k) = core (slot (disk w) k).
Proof.
  intros Hb Hn Hu Hfree. destruct (set_name_spec n Hn) as [N1 N2]. pose proof Hn as (Hl & _).
  unfold fs_create. rewrite (proj2 (Z.leb_gt _ _)) by lia. rewrite find_inode_none by done. cbn [is_ok fst].
  destruct (find_free_some w Hb Hfree) as (num & E & Hnum & Hz).
  set (i := with_meta 1 (size (set_name n Inode_new)) (ticks w) (tick (ticks w)) (dirty (set_name n Inode_new)) (set_name n Inode_new)).
  destruct (write_inode_spec (mkWorld (disk w) (tick (tick (ticks w))) (PSYCHIC_FS w)) num i)
    as (d' & E2 & C & _ & V & _ & O); [done|done| |].
  { constructor; [done|done|by repeat constructor|done]. }
  exists num. eexists. split; [unfold bindM; rewrite E; exact E2|]. cbn [disk PSYCHIC_FS].
  apply view_fields in V as (V1 & V2 & V3 & V4). do 4 (split; [done|]). split; [|by split].
  split; [by rewrite V1|]. transitivity (get_name i); [|exact N1]. unfold get_name. by rewrite V4.
Qed.

(** *** The directory *)

(** What looking up [m] gives. *)
Definition lookup_file (m : list Z) (w : World D) : option (Z * Inode) :=
  match find_inode_by_name m w with (Ok x, _) => Some (x.1, core x.2) | (Err _, _) => None end.

Lemma core_named m i j : core i = core j -> is_named m i <-> is_named m j.
Proof. intros E. apply core_view, view_fields in E as (E1 & _ & _ & E4). unfold is_named, get_name. by rewrite E1, E4. Qed.

Lemma lookup_other m num w w' : big (disk w) -> big (disk w') -> 0 <= num < 256 ->
  ~ is_named m (slot (disk w) num) -> ~ is_named m (slot (disk w') num) ->
  (forall k, 0 <= k < 256 -> k <> num -> core (slot (disk w') k) = core (slot (disk w) k)) ->
  lookup_file m w' = lookup_file m w.
Proof.
  intros Hb Hb' Hnum N1 N2 O.
  assert (forall k, 0 <= k < 256 -> is_named m (slot (disk w') k) <-> is_named m (slot (disk w) k)) as I.
  { intros k Hk. destruct (Z.eq_dec k num) as [->|]; [by split|]. apply core_named. by apply O. }
  unfold lookup_file. destruct (find_inode_cases m (disk w) Hb) as [(k & Hk & K1 & K2)|Hu].
  - assert (first_named m (disk w) k) as F1 by by split.
    assert (first_named m (disk w') k) as F2.
    { split; [done|]. split; [by apply I|]. intros j Hj Hn. apply (K2 j Hj). apply I; [lia|done]. }
    rewrite (find_inode_some m w k Hb F1), (find_inode_some m w' k Hb' F2). cbn [fst snd].
    rewrite O; [done|done|]. by intros ->.
  - assert (unnamed m (disk w')) as Hu' by (intros k Hk Hn; apply (Hu k Hk); by apply I).
    by rewrite (find_inode_none m w Hb Hu), (find_inode_none m w' Hb' Hu').
Qed.

Lemma updates_named d d' num i n : updates d d' num i -> is_named n i -> is_named n (slot d' num).
Proof. intros (_ & U1 & U2 & _) [I1 I2]. unfold is_named, get_name. by rewrite U1, U2. Qed.

(** A name that was in no other slot is found in the slot that has it. *)
Lemma first_after n d d' num : big d' -> 0 <= num < 256 -> is_named n (slot d' num) ->
  (forall j, 0 <= j < num -> ~ is_named n (slot d j)) ->
  (forall k, 0 <= k < 256 -> k <> num -> core (slot d' k) = core (slot d k)) -> first_named n d' num.
Proof.
  intros Hb Hnum Hn Hlt O. split; [done|]. split; [done|]. intros j Hj Hj2. apply (Hlt j Hj).
  apply (core_named n (slot d' j)); [|done]. apply O; lia.
Qed.

Lemma stores_read n (w : World D) num bytes : big (disk w) -> first_named n (disk w) num -> stores (disk w) num bytes ->
  fs_read n w = (Ok bytes, w).
Proof.
  intros Hb Hf [S1 S2]. unfold fs_read, bindM. rewrite (find_inode_some n w num) by done. cbn [fst snd]. rewrite S1.
  destruct (Z.eqb_spec (Z.of_nat (length bytes)) 0) as [E|Hne].
  - by destruct bytes.
  - apply S2; [done|]. by intros ->.
Qed.
End Whole.

(** ** Writing a file and reading it back *)

Section Properties.
Context `{Machine} {D : Type} `{BlockDeviceLaws D}.

Lemma named_other m n i : m <> n -> is_named n i -> ~ is_named m i.
Proof. intros Hne [_ <-] [_ E]. by apply Hne. Qed.

(** Writing over a file found in slot [num]. *)
Lemma overwrite_spec (w : World D) p n num bytes b : ready w p -> first_named n (disk w) num ->
  free_run p (blocks_for (Z.of_nat (length bytes))) b ->
  exists w', write_contents num (slot (disk w) num) bytes w = (Ok tt, w') /\ fs_read n w' = (Ok bytes, w') /\
    big (disk w') /\ first_named n (disk w') num /\ updates (disk w) (disk w') num (slot (disk w) num).
Proof.
  intros R Hfst Hf. pose proof (r_big _ _ R) as Hb. pose proof Hfst as (Hnum & Hn & Hlt).
  destruct (slot_shape (disk w) num Hb Hnum) as [L1 L2].
  destruct (write_contents_spec w p num _ bytes b R Hnum L1 L2 Hf) as (w' & E & U & S).
  assert (big (disk w')) as Hb' by (unfold big; by rewrite (proj1 U)).
  assert (first_named n (disk w') num) as Hf' by
    (apply (first_after n (disk w)); [done|done|by eapply updates_named|done|apply U]).
  exists w'. split; [done|]. split; [by apply (stores_read n w' num)|done].
Qed.

Lemma fs_write_read_spec (w : World D) p n bytes b : ready w p -> valid_name n ->
  (exists k, 0 <= k < 256 /\ in_use (slot (disk w) k) = 0) \/ (exists k, first_named n (disk w) k) ->
  free_run p (blocks_for (Z.of_nat (length bytes))) b ->
  exists w', fs_write n bytes w = (Ok tt, w') /\ fs_read n w' = (Ok bytes, w') /\
    forall m, m <> n -> lookup_file m w' = lookup_file m w.
Proof.
  intros R Hn Hroom Hf. pose proof (r_big _ _ R) as Hb.
  destruct (find_inode_cases n (disk w) Hb) as [(num & Hfst)|Hu].
  - destruct (overwrite_spec w p n num bytes b R Hfst Hf) as (w' & E & Er & Hb' & Hfst' & U).
    exists w'. split; [unfold fs_write; by rewrite (find_inode_some n w num Hb Hfst)|]. split; [done|].
    intros m Hm. apply (lookup_other m num); [done|done|apply Hfst| | |apply U].
    + apply (named_other m n); [done|apply Hfst].
    + apply (named_other m n); [done|apply Hfst'].
  - destruct Hroom as [Hfree|(k & Hk & Hk2 & _)]; [|by destruct (Hu k Hk)].
    destruct (fs_create_spec n w Hb Hn Hu Hfree) as (num & w1 & E1 & Hnum & Hz & P1 & C1 & N1 & _ & O1).
    assert (ready w1 p) as R1.
    { destruct R. split; [unfold big; by rewrite C1|by rewrite P1|done|done|by rewrite C1]. }
    assert (first_named n (disk w1) num) as F1
      by (apply (first_after n (disk w)); [apply R1|done|done|intros j Hj; apply Hu; lia|done]).
    destruct (overwrite_spec w1 p n num bytes b R1 F1 Hf) as (w' & E & Er & Hb' & Hfst' & U).
    exists w'. split; [|split; [done|]].
    + unfold fs_write. rewrite (find_inode_none n w Hb Hu). unfold bindM. rewrite E1.
      rewrite (find_inode_some n w1 num (r_big _ _ R1) F1). exact E.
    + intros m Hm. transitivity (lookup_file m w1).
      * apply (lookup_other m num); [apply R1|done|done| | |apply U].
        -- by apply (named_other m n).
        -- apply (named_other m n); [done|apply Hfst'].
      * apply (lookup_other m num); [done|apply R1|done| | |done].
        -- intros [Hi _]. done.
        -- by apply (named_other m n).
Qed.

(** C5: Writing a file and reading it back gives the data, and no other name
    of the directory changes.  Given a mounted filesystem on a healthy disk, a
    name [fs_create] accepts, an inode for it (its own or a free one) and one
    run of free blocks long enough for the data, [fs_write] succeeds;
    [fs_read] of the name then returns exactly the bytes written, whatever the
    file held before, and leaves the state alone; every other name looks up
    to the same inode.  (The contents of other files are not promised: see
    [second_file_shares_blocks].) *)
Theorem fs_write_read (w : World D) p n bytes b : ready w p -> valid_name n ->
  (exists k, 0 <= k < 256 /\ in_use (slot (disk w) k) = 0) \/ (exists k, first_named n (disk w) k) ->
  free_run p (blocks_for (Z.of_nat (length bytes))) b ->
  exists w', fs_write n bytes w = (Ok tt, w') /\ fs_read n w' = (Ok bytes, w') /\
    forall m, m <> n -> lookup_file m w' = lookup_file m w.
Proof. intros R Hn. by apply fs_write_read_spec. Qed.

(** *** Formatting and mounting *)

Lemma write_at (w : World D) s b : 0 <= s < disk_capacity (disk w) -> length b = 512%nat ->
  exists d', disk_write_sector s b w = (Ok tt, mkWorld d' (ticks w) (PSYCHIC_FS w)) /\
    disk_capacity d' = disk_capacity (disk w) /\
    forall s', disk_read s' d' = if s' =? s then Some b else disk_read s' (disk w).
Proof.
  intros Hs Hl. destruct (bl_write (disk w) s b Hs Hl) as (d' & E & C & R). exists d'.
  unfold disk_write_sector. by rewrite E.
Qed.

Lemma write_all_spec b : length b = 512%nat -> forall m s (w : World D), 0 <= s -> s + Z.of_nat m <= disk_capacity (disk w) ->
  exists d', write_all (seqZ s (Z.of_nat m)) b w = (Ok tt, mkWorld d' (ticks w) (PSYCHIC_FS w)) /\
    disk_capacity d' = disk_capacity (disk w) /\
    forall s', disk_read s' d' = if (s <=? s') && (s' <? s + Z.of_nat m) then Some b else disk_read s' (disk w).
Proof.
  intros Hl. induction m as [|m IH]; intros s w Hs Hm.
  - exists (disk w). split; [by destruct w|]. split; [done|]. intros s'.
    destruct (Z.leb_spec s s'), (Z.ltb_spec s' (s + Z.of_nat 0)); simpl; [lia|done..].
  - rewrite seqZ_cons by lia. replace (Z.pred (Z.of_nat (S m))) with (Z.of_nat m) by lia. cbn [write_all].
    destruct (write_at w s b) as (d1 & E1 & C1 & R1); [lia|done|].
    destruct (IH (Z.succ s) (mkWorld d1 (ticks w) (PSYCHIC_FS w))) as (d2 & E2 & C2 & R2); [lia|cbn [disk]; lia|].
    exists d2. split; [unfold bindM; by rewrite E1|]. split; [cbn [disk] in C2; congruence|]. intros s'. rewrite R2. cbn [disk].
    rewrite R1. destruct (Z.leb_spec (Z.succ s) s'), (Z.leb_spec s s'), (Z.ltb_spec s' (Z.succ s + Z.of_nat m)),
      (Z.ltb_spec s' (s + Z.of_nat (S m))), (Z.eqb_spec s' s); simpl; (done || lia).
Qed.

(** The sectors [fs_format] leaves. *)
Lemma fs_format_spec (w : World D) : big (disk w) ->
  exists d', fs_format w = (Ok tt, mkWorld d' (ticks w) (PSYCHIC_FS w)) /\
    disk_capacity d' = disk_capacity (disk w) /\
    disk_read SUPERBLOCK_SECTOR d' = Some (superblock_to_bytes format_superblock) /\
    forall s, 1 <= s < 67 -> disk_read s d' = Some zero_sector.
Proof.
  intros Hb. pose proof Hb as Hcap. unfold big, DATA_BLOCKS_START in Hcap. unfold fs_format.
  rewrite (bl_present (disk w)) by lia. cbn [negb].
  assert (length zero_sector = 512%nat) as Hz by done.
  assert (length (superblock_to_bytes format_superblock) = 512%nat) as Hsb by by apply length_superblock.
  destruct (write_at w SUPERBLOCK_SECTOR (superblock_to_bytes format_superblock)) as (d1 & E1 & C1 & R1);
    [unfold SUPERBLOCK_SECTOR; lia|done|].
  destruct (write_all_spec zero_sector Hz 64 INODE_TABLE_START (mkWorld d1 (ticks w) (PSYCHIC_FS w))) as (d2 & E2 & C2 & R2);
    [done|cbn [disk]; unfold INODE_TABLE_START; lia|].
  destruct (write_at (mkWorld d2 (ticks w) (PSYCHIC_FS w)) BITMAP_SECTOR zero_sector) as (d3 & E3 & C3 & R3);
    [cbn [disk] in *; unfold BITMAP_SECTOR; lia|done|].
  destruct (write_at (mkWorld d3 (ticks w) (PSYCHIC_FS w)) (BITMAP_SECTOR + 1) zero_sector) as (d4 & E4 & C4 & R4);
    [cbn [disk] in *; unfold BITMAP_SECTOR; lia|done|].
  cbn [disk ticks PSYCHIC_FS] in *. exists d4. split; [|split; [congruence|split]].
  - unfold bindM. rewrite E1. change (Z.of_nat 64) with INODE_TABLE_SECTORS in E2. rewrite E2, E3. exact E4.
  - rewrite R4, R3, R2, R1. done.
  - intros s Hs. rewrite R4, R3, R2, R1. unfold SUPERBLOCK_SECTOR, INODE_TABLE_START, BITMAP_SECTOR.
    destruct (Z.eqb_spec s (65 + 1)), (Z.eqb_spec s 65), (Z.leb_spec 1 s), (Z.ltb_spec s (1 + Z.of_nat 64)); simpl; (done || lia).
Qed.

Lemma bm_zero idx : 0 <= idx -> bm_test (zero_sector ++ zero_sector) idx = false.
Proof.
  intros Hi. rewrite bm_test_spec. assert (bm_byte (zero_sector ++ zero_sector) (idx / 8) = 0) as ->; [|apply Z.testbit_0_l].
  unfold bm_byte. change (zero_sector ++ zero_sector) with (replicate 1024 0). rewrite nth_lookup.
  destruct (replicate 1024 0 !! _) eqn:E; [|done]. by apply lookup_replicate in E as [-> _].
Qed.

(** A formatted disk mounts as an empty filesystem.  On a disk of at
    least 8192 sectors [fs_format] then [fs_mount] succeed whatever the disk
    held; the mounted state satisfies the invariant [ready] that the file
    operations need, its superblock counts 8192 blocks, no file has any name,
    all 256 inodes are free, and every block from 128 on is free. *)
Theorem format_mount_empty (w : World D) : 8192 <= disk_capacity (disk w) -> (4 <= length stack)%nat ->
  exists w1 w2 p, fs_format w = (Ok tt, w1) /\ fs_mount w1 = (Ok tt, w2) /\ ready w2 p /\
    total_blocks (superblock p) = 8192 /\ free_blocks (superblock p) = 8064 /\
    (forall n, unnamed n (disk w2)) /\ fs_list w2 = [] /\
    (forall k, 0 <= k < 256 -> in_use (slot (disk w2) k) = 0) /\
    (forall b, 128 <= b < 8192 -> is_block_allocated b p = false).
Proof.
  intros Hcap Hstack. assert (big (disk w)) as Hb by (unfold big, DATA_BLOCKS_START; lia).
  destruct (fs_format_spec w Hb) as (d & E & C & R0 & R).
  assert (big d) as Hbd by (unfold big; by rewrite C).
  set (sb := bytes_to_superblock (superblock_to_bytes format_superblock)).
  assert (total_blocks sb = 8192 /\ free_blocks sb = 8064 /\ magic sb = FS_MAGIC) as (T & F & Mg) by (by vm_compute).
  assert (length (sb_reserved sb) = 485%nat) as L.
  { unfold sb, bytes_to_superblock; cbn [sb_reserved]. apply length_field. rewrite length_app, length_superblock by done. lia. }
  set (p := with_flags false true (with_mounted true (with_super (with_dirty 1 sb) (with_bitmap (zero_sector ++ zero_sector) PsychicFs_new)))).
  assert (forall k, 0 <= k < 256 -> in_use (slot d k) = 0) as Hfree.
  { intros k Hk. destruct (slot_sector d k Hbd Hk) as [Hs Hs']. unfold slot, slot_bytes, sector.
    rewrite R by (unfold INODE_TABLE_START in *; assert (0 <= k / 4) by (apply Z.div_pos; lia); lia). change (default [] (Some zero_sector)) with zero_sector.
    unfold bytes_to_inode; cbn [in_use]. unfold get. pose proof (Z.mod_pos_bound k 4 ltac:(lia)) as Hmod.
    assert (length zero_sector = 512%nat) as Lz by done. rewrite field_app_l by (rewrite length_drop, Lz; lia).
    unfold field, zero_sector. rewrite !drop_replicate, take_replicate. rewrite Nat.min_l by lia. done. }
  exists (mkWorld d (ticks w) (PSYCHIC_FS w)), (mkWorld d (ticks w) (Some p)), p. split; [done|]. cbn [disk]. split.
  { unfold fs_mount. cbn [disk]. rewrite (bl_present d) by (unfold big, DATA_BLOCKS_START in *; lia). cbn [negb].
    unfold bindM, disk_read_sector. cbn [disk]. rewrite R0. fold sb. rewrite Mg. change (negb (FS_MAGIC =? FS_MAGIC)) with false.
    unfold read_bitmap_from_disk, bindM, disk_read_sector. cbv iota beta. cbn [disk].
    rewrite (R BITMAP_SECTOR) by (unfold BITMAP_SECTOR; lia). cbn [disk].
    by rewrite (R (BITMAP_SECTOR + 1)) by (unfold BITMAP_SECTOR; lia). }
  split; [split; [done|done|by split|done|]|].
  { cbn [superblock p with_flags with_mounted with_super with_dirty total_blocks disk]. rewrite T, C. done. }
  split; [exact T|]. split; [exact F|]. split; [intros n k Hk [Hi _]; by apply Hi, Hfree|]. split; [|split; [done|]].
  - unfold fs_list. cbn [disk]. rewrite inode_slots_eq by done.
    enough (filter (fun x : Z * Inode => in_use x.2 <> 0) ((fun k => (k, slot d k)) <$> seqZ 0 256) = []) as -> by done.
    apply elem_of_nil_inv. intros [k i] Hin. apply list_elem_of_filter in Hin as [Hi Hin].
    apply list_elem_of_fmap in Hin as (j & [= -> ->] & Hj). apply elem_of_seqZ in Hj. apply Hi, Hfree. lia.
  - intros b Hb2. unfold is_block_allocated, DATA_BLOCKS_START. rewrite (proj2 (Z.ltb_ge _ _)) by lia.
    rewrite (proj2 (Z.leb_gt _ _)) by (apply Z.div_lt_upper_bound; lia). apply bm_zero. lia.
Qed.

(** *** Allocating a run *)

Lemma find_run_ext p p' n r : 0 < n -> (forall x, x < r + n -> is_block_allocated x p' = is_block_allocated x p) ->
  forall m b s l, 0 <= l < n -> (0 < l -> s + l = b) -> (forall x, s <= x < s + l -> is_block_allocated x p = false) ->
  find_run p n (s, l) (seqZ b (Z.of_nat m)) = Some r -> find_run p' n (s, l) (seqZ b (Z.of_nat m)) = Some r.
Proof.
  intros Hn Heq. induction m as [|m IH]; intros b s l Hl Hs Hf E; [done|].
  pose proof (find_run_sound p n Hn (S m) b s l Hl Hs Hf r E) as (B & _).
  rewrite seqZ_cons in E |- * by lia. replace (Z.pred (Z.of_nat (S m))) with (Z.of_nat m) in * by lia.
  cbn [find_run fst snd] in *. rewrite Heq by (destruct (Z.eqb_spec l 0); lia).
  destruct (is_block_allocated b p) eqn:Eb; [apply IH; (done || lia)|].
  destruct (n <=? l + 1) eqn:En; [done|]. apply Z.leb_gt in En. apply IH; [lia| | |done].
  - destruct (Z.eqb_spec l 0); lia.
  - intros x Hx. destruct (Z.eq_dec x b) as [->|]; [done|]. apply Hf. destruct (Z.eqb_spec l 0); lia.
Qed.

Lemma find_contiguous_inv n (w : World D) p start : PSYCHIC_FS w = Some p -> 0 < n ->
  find_contiguous_blocks n w = (Ok start, w) ->
  DATA_BLOCKS_START < total_blocks (superblock p) /\ find_run p n (0, 0) (data_blocks p) = Some start.
Proof.
  intros Hp Hn. unfold find_contiguous_blocks. rewrite Hp.
  destruct (Z.leb_spec (total_blocks (superblock p)) DATA_BLOCKS_START) as [|Ht]; [done|].
  destruct (find_run p n (0, 0) (data_blocks p)) as [r|] eqn:E; [by intros [= ->]|].
  destruct (Z.eqb_spec n 1) as [->|]; [|done]. destruct (list_find _ _) as [[j b]|] eqn:F; [|done]. exfalso.
  apply list_find_Some in F as (F & Hb & _). unfold data_blocks in *. apply lookup_seqZ in F as [-> F].
  set (m := total_blocks (superblock p) - DATA_BLOCKS_START) in *. replace m with (Z.of_nat (Z.to_nat m)) in E by lia.
  destruct (find_run_complete p 1 Hn (Z.to_nat m) DATA_BLOCKS_START 0 0 ltac:(lia) ltac:(lia) E (DATA_BLOCKS_START + Z.of_nat j))
    as (y & Hy & Hy2); [simpl; lia|lia|]. replace y with (DATA_BLOCKS_START + Z.of_nat j) in Hy2 by lia. by rewrite Hb in Hy2.
Qed.

Lemma bm_sets_spec start j : 0 <= start -> 0 <= j < 8192 -> forall m a bm, 0 <= a -> start + a + Z.of_nat m < 2 ^ 32 ->
  length bm = 1024%nat ->
  bm_test (foldl (fun bm i => bm_set bm (start +[32] i)) bm (seqZ a (Z.of_nat m))) j =
  bm_test bm j || ((start + a <=? j) && (j <? start + a + Z.of_nat m)).
Proof.
  intros Hs Hj. induction m as [|m IH]; intros a bm Ha Hm Hl.
  - simpl. destruct (Z.leb_spec (start + a) j), (Z.ltb_spec j (start + a + Z.of_nat 0)); simpl; rewrite ?orb_false_r; (done || lia).
  - rewrite seqZ_cons by lia. replace (Z.pred (Z.of_nat (S m))) with (Z.of_nat m) by lia. cbn [foldl].
    rewrite IH by (rewrite ?length_bm_set; lia). rewrite wrap_small by (unfold in_width; lia).
    assert (bm_test (bm_set bm (start + a)) j = (j =? start + a) || bm_test bm j) as ->.
    { destruct (Z.lt_ge_cases (start + a) 8192); [by apply bm_set_spec; lia|].
      rewrite (proj2 (Z.eqb_neq _ _)) by lia. unfold bm_set, bm_test, bm_byte. rewrite !nth_lookup.
      rewrite list_lookup_alter_ne; [done|]. intros E.
      assert (1024 <= (start + a) / 8) by (apply Z.div_le_lower_bound; lia).
      assert (j / 8 < 1024) by (apply Z.div_lt_upper_bound; lia). assert (0 <= j / 8) by (apply Z.div_pos; lia). lia. }
    destruct (bm_test bm j), (Z.eqb_spec j (start + a)), (Z.leb_spec (start + Z.succ a) j), (Z.leb_spec (start + a) j),
      (Z.ltb_spec j (start + Z.succ a + Z.of_nat m)), (Z.ltb_spec j (start + a + Z.of_nat (S m))); simpl; (done || lia).
Qed.

Lemma allocation_marks (w : World D) p start n : PSYCHIC_FS w = Some p -> wf_fs p -> 0 <= start -> 0 <= n -> start + n < 2 ^ 32 ->
  exists p', PSYCHIC_FS (allocate_contiguous_blocks start n w) = Some p' /\ total_blocks (superblock p') = total_blocks (superblock p) /\
    forall b, 128 <= b < 8320 ->
      is_block_allocated b p' = is_block_allocated b p || ((start + 128 <=? b) && (b <? start + n + 128)).
Proof.
  intros Hp [Hl _] Hs Hn Hw. unfold allocate_contiguous_blocks. rewrite Hp. eexists. split; [done|]. split; [done|].
  intros b Hb. unfold is_block_allocated, DATA_BLOCKS_START. rewrite (proj2 (Z.ltb_ge _ _)) by lia.
  rewrite (proj2 (Z.leb_gt _ _)) by (apply Z.div_lt_upper_bound; lia). cbn [block_bitmap with_super with_bitmap].
  pose proof (bm_sets_spec start (b - 128) Hs ltac:(lia) (Z.to_nat n) 0 (block_bitmap p) ltac:(lia) ltac:(lia) Hl) as B.
  rewrite Z2Nat.id in B by lia. rewrite B. f_equal.
  destruct (Z.leb_spec (start + 0) (b - 128)), (Z.leb_spec (start + 128) b), (Z.ltb_spec (b - 128) (start + 0 + n)),
    (Z.ltb_spec b (start + n + 128)); simpl; (done || lia).
Qed.

(** Allocating a run does not reserve it.  [allocate_contiguous_blocks]
    numbers bitmap bits from block 0 while [is_block_allocated] numbers them
    from block 128, so the blocks that become allocated are the ones 128
    further on; a run of at most 128 blocks that [find_contiguous_blocks] has
    just handed out and [fs_write] has just allocated is handed out again by
    the next search. *)
Theorem second_file_shares_blocks (w : World D) p start n : PSYCHIC_FS w = Some p -> wf_fs p -> 0 < n <= 128 ->
  find_contiguous_blocks n w = (Ok start, w) ->
  let w' := allocate_contiguous_blocks start n w in
  (exists p', PSYCHIC_FS w' = Some p' /\
     forall b, 128 <= b < 8320 ->
       is_block_allocated b p' = is_block_allocated b p || ((start + 128 <=? b) && (b <? start + n + 128))) /\
  find_contiguous_blocks n w' = (Ok start, w').
Proof.
  intros Hp Hw Hn E. destruct (find_contiguous_inv n w p start Hp ltac:(lia) E) as [Ht F]. cbv zeta.
  pose proof F as F'. unfold data_blocks in F'.
  set (m := total_blocks (superblock p) - DATA_BLOCKS_START) in *. replace m with (Z.of_nat (Z.to_nat m)) in F' by lia.
  pose proof (find_run_sound p n ltac:(lia) (Z.to_nat m) DATA_BLOCKS_START 0 0 ltac:(lia) ltac:(lia) ltac:(intros; lia) start F') as (S1 & S2 & S3).
  simpl in S1. destruct (free_run_bound p n start) as (B1 & B2 & _); [lia|split; [done|split; [unfold m in *; lia|done]]|].
  destruct (allocation_marks w p start n Hp Hw) as (p' & Hp' & T & A); [lia..|].
  split; [by exists p'|]. unfold find_contiguous_blocks. rewrite Hp', T, (proj2 (Z.leb_gt _ _)) by done.
  unfold data_blocks. rewrite T. fold m. replace m with (Z.of_nat (Z.to_nat m)) by lia.
  rewrite (find_run_ext p p' n start ltac:(lia)) with (s := 0) (l := 0); [done| |lia|lia|intros; lia|done].
  intros x Hx. destruct (Z.lt_ge_cases x 128).
  - unfold is_block_allocated, DATA_BLOCKS_START. by rewrite (proj2 (Z.ltb_lt _ _)) by lia.
  - rewrite A by lia. rewrite (proj2 (Z.leb_gt _ _)) by lia. by rewrite orb_false_r.
Qed.
End Properties.

(** ** The block cache *)

Section Cache.
Context `{Machine} {D : Type} `{BlockDeviceLaws D}.

(** What a client sees in block [b]: the cached data, else the disk. *)
Definition cview (c : list CacheEntry) (d : D) (b : Z) : option (list Z) :=
  match list_find (fun e => hit b e = true) c with Some (_, e) => Some (data e) | None => disk_read b d end.

Definition live (e : CacheEntry) : Prop := 0 < access_count e.

Record cache_ok (c : list CacheEntry) (d : D) : Prop := {
  co_unique i j e f : c !! i = Some e -> c !! j = Some f -> live e -> live f -> block_num e = block_num f -> i = j;
  co_range i e : c !! i = Some e -> live e -> 0 <= block_num e < disk_capacity d;
  co_data i e : c !! i = Some e -> live e -> length (data e) = 512%nat;
  co_clean i e : c !! i = Some e -> live e -> c_dirty e = false -> disk_read (block_num e) d = Some (data e);
}.

Lemma hit_spec b e : hit b e = true <-> live e /\ block_num e = b.
Proof. unfold hit, live. rewrite andb_true_iff, Z.eqb_eq, Z.ltb_lt. tauto. Qed.

Lemma cview_hit c d i e : cache_ok c d -> c !! i = Some e -> live e -> cview c d (block_num e) = Some (data e).
Proof.
  intros C E L. unfold cview. destruct (list_find _ c) as [[j f]|] eqn:F.
  - apply list_find_Some in F as (F & Hf & _). apply hit_spec in Hf as [Lf Ef].
    assert (j = i) as -> by (eapply (co_unique _ _ C j i); eauto). by simplify_eq.
  - apply list_find_None in F. rewrite Forall_lookup in F. destruct (F i e E). by apply hit_spec.
Qed.

Lemma cview_miss c d b : (forall (i : nat) e, c !! i = Some e -> live e -> block_num e <> b) -> cview c d b = disk_read b d.
Proof.
  intros N. unfold cview. destruct (list_find _ c) as [[j f]|] eqn:F; [|done].
  apply list_find_Some in F as (F & Hf & _). apply hit_spec in Hf as [Lf Ef]. by destruct (N j f).
Qed.

(** Either some live entry holds the block or none does. *)
Lemma cview_cases (c : list CacheEntry) b : (exists (i : nat) e, c !! i = Some e /\ live e /\ block_num e = b) \/
  (forall (i : nat) e, c !! i = Some e -> live e -> block_num e <> b).
Proof.
  destruct (list_find (fun e => hit b e = true) c) as [[j f]|] eqn:F.
  - apply list_find_Some in F as (F & Hf & _). apply hit_spec in Hf. left. by exists j, f.
  - apply list_find_None in F. rewrite Forall_lookup in F. right. intros i e E L Eb. apply (F i e E). by apply hit_spec.
Qed.

Lemma victim_range c : forall k best, victim k best c = best.2 \/ (k <= victim k best c < k + length c)%nat.
Proof.
  induction c as [|e c IH]; intros k best; [by left|]. cbn [victim length]. destruct (access_count e =? 0); [right; lia|].
  destruct (IH (S k) (if last_access e <? best.1 then (last_access e, k) else best)) as [->|]; [|right; lia].
  destruct (last_access e <? best.1); [right; cbn; lia|by left].
Qed.

(** Replacing entry [k] by a fresh one, its block written back first when it
    was dirty. *)
Lemma replace_entry c d d' k e0 b bytes dirty_ t : cache_ok c d -> c !! k = Some e0 -> (forall (i : nat) e, c !! i = Some e -> live e -> block_num e <> b) ->
  0 <= b < disk_capacity d -> length bytes = 512%nat -> disk_capacity d' = disk_capacity d ->
  (dirty_ = false -> disk_read b d = Some bytes) ->
  (forall s, disk_read s d' = if (c_dirty e0 && (0 <? access_count e0)) && (s =? block_num e0) then Some (data e0) else disk_read s d) ->
  let c' := <[k := mkCache b bytes dirty_ 1 t]> c in
  cache_ok c' d' /\ forall x, cview c' d' x = if x =? b then Some bytes else cview c d x.
Proof.
  intros C K N Hb Hl Hcap Hcl R. cbv zeta. set (e1 := mkCache b bytes dirty_ 1 t). set (c' := <[k := e1]> c).
  assert (c' !! k = Some e1) as K' by (apply list_lookup_insert_eq; by eapply lookup_lt_Some).
  assert (forall (i : nat) e, c' !! i = Some e -> (i = k /\ e = e1) \/ (i <> k /\ c !! i = Some e)) as Inv.
  { intros i e. destruct (Nat.eq_dec i k) as [->|]; [rewrite K'; intros [= <-]; by left|].
    unfold c'. rewrite list_lookup_insert_ne by done. by right. }
  assert (forall (i : nat) e, c !! i = Some e -> live e -> i <> k -> disk_read (block_num e) d' = disk_read (block_num e) d) as Keep.
  { intros i e E L Hne. rewrite R. destruct (c_dirty e0 && (0 <? access_count e0)) eqn:W; [|done].
    apply andb_true_iff in W as [_ W%Z.ltb_lt]. destruct (Z.eqb_spec (block_num e) (block_num e0)) as [Eq|]; [|done].
    by destruct Hne; eapply (co_unique _ _ C i k e e0). }
  assert (cache_ok c' d') as C'.
  { split.
    - intros i j e f Ei Ej Le Lf Eb. destruct (Inv i e Ei) as [[-> ->]|[Hi Ei']], (Inv j f Ej) as [[-> ->]|[Hj Ej']]; [done| | |].
      + by destruct (N j f Ej' Lf).
      + by destruct (N i e Ei' Le).
      + by eapply (co_unique _ _ C i j e f).
    - intros i e Ei Le. rewrite Hcap. destruct (Inv i e Ei) as [[-> ->]|[Hi Ei']]; [done|by eapply (co_range _ _ C i)].
    - intros i e Ei Le. destruct (Inv i e Ei) as [[-> ->]|[Hi Ei']]; [done|by eapply (co_data _ _ C i)].
    - intros i e Ei Le Hd. destruct (Inv i e Ei) as [[-> ->]|[Hi Ei']].
      + cbn in Hd |- *. rewrite R. destruct (c_dirty e0 && (0 <? access_count e0)) eqn:W; [|by apply Hcl].
        apply andb_true_iff in W as [_ W%Z.ltb_lt]. destruct (Z.eqb_spec b (block_num e0)) as [->|]; [|by apply Hcl].
        by destruct (N k e0 K W).
      + rewrite (Keep i e Ei' Le Hi). by eapply (co_clean _ _ C i). }
  split; [done|]. intros x. destruct (Z.eqb_spec x b) as [->|Hx].
  - by apply (cview_hit c' d' k e1).
  - destruct (cview_cases c x) as [(i & e & Ei & Le & <-)|Nx].
    + rewrite (cview_hit c d i e) by done. destruct (Nat.eq_dec i k) as [->|Hi].
      * assert (e = e0) as -> by congruence. rewrite cview_miss.
        -- rewrite R. rewrite (proj2 (Z.ltb_lt _ _)), andb_true_r, Z.eqb_refl, andb_true_r by done.
           destruct (c_dirty e0) eqn:W; [done|]. by eapply (co_clean _ _ C k).
        -- intros j f Ej Lf Eq. destruct (Inv j f Ej) as [[-> ->]|[Hj Ej']]; [done|].
           by destruct Hj; eapply (co_unique _ _ C j k f e0).
      * apply (cview_hit c' d' i e); [done| |done]. unfold c'. by rewrite list_lookup_insert_ne.
    + rewrite (cview_miss c d x) by done. rewrite cview_miss.
      * rewrite R. destruct (c_dirty e0 && (0 <? access_count e0)) eqn:W; [|done].
        apply andb_true_iff in W as [_ W%Z.ltb_lt]. destruct (Z.eqb_spec x (block_num e0)) as [->|]; [|done].
        by destruct (Nx k e0 K W).
      * intros j f Ej Lf. destruct (Inv j f Ej) as [[-> ->]|[Hj Ej']]; [cbn; congruence|by apply (Nx j)].
Qed.

Lemma cache_insert_spec b bytes dirty_ p (w : World D) : cache_ok (cache p) (disk w) -> cache p <> [] ->
  (forall (i : nat) e, cache p !! i = Some e -> live e -> block_num e <> b) ->
  0 <= b < disk_capacity (disk w) -> length bytes = 512%nat -> (dirty_ = false -> disk_read b (disk w) = Some bytes) ->
  exists p' w', cache_insert b bytes dirty_ p w = (p', w') /\ cache_ok (cache p') (disk w') /\
    length (cache p') = length (cache p) /\ disk_capacity (disk w') = disk_capacity (disk w) /\
    forall x, cview (cache p') (disk w') x = if x =? b then Some bytes else cview (cache p) (disk w) x.
Proof.
  intros C Hne N Hb Hl Hcl. unfold cache_insert. set (k := victim 0 (2 ^ 64 - 1, 0%nat) (cache p)).
  assert (k < length (cache p))%nat as Hk.
  { destruct (victim_range (cache p) 0 (2 ^ 64 - 1, 0%nat)) as [E|]; [|unfold k; lia].
    unfold k. rewrite E. cbn. destruct (cache p); [done|cbn; lia]. }
  destruct (lookup_lt_is_Some_2 (cache p) k Hk) as [e0 K]. rewrite K.
  assert (exists w1, (if c_dirty e0 && (0 <? access_count e0) then (disk_write_sector (block_num e0) (data e0) w).2 else w) = w1 /\
    disk_capacity (disk w1) = disk_capacity (disk w) /\
    forall s, disk_read s (disk w1) = if (c_dirty e0 && (0 <? access_count e0)) && (s =? block_num e0) then Some (data e0) else disk_read s (disk w))
    as (w1 & -> & C1 & R1).
  { destruct (c_dirty e0 && (0 <? access_count e0)) eqn:W; [|by exists w].
    apply andb_true_iff in W as [_ W%Z.ltb_lt].
    destruct (write_at w (block_num e0) (data e0)) as (d1 & E1 & C1 & R1);
      [by eapply (co_range _ _ C k)|by eapply (co_data _ _ C k)|].
    rewrite E1. by exists (mkWorld d1 (ticks w) (PSYCHIC_FS w)). }
  destruct (replace_entry (cache p) (disk w) (disk w1) k e0 b bytes dirty_ (ticks w1) C K N Hb Hl C1 Hcl R1) as [C' V].
  eexists _, _. split; [done|]. split; [exact C'|]. split; [apply length_insert|]. split; [exact C1|exact V].
Qed.

Lemma update_entry c d k e bytes dirty_ n t : cache_ok c d -> c !! k = Some e -> live e -> 0 < n -> length bytes = 512%nat ->
  (dirty_ = false -> disk_read (block_num e) d = Some bytes) ->
  let c' := <[k := mkCache (block_num e) bytes dirty_ n t]> c in
  cache_ok c' d /\ forall x, cview c' d x = if x =? block_num e then Some bytes else cview c d x.
Proof.
  intros C K L Hn Hl Hcl. cbv zeta. set (e1 := mkCache (block_num e) bytes dirty_ n t). set (c' := <[k := e1]> c).
  assert (c' !! k = Some e1) as K' by (apply list_lookup_insert_eq; by eapply lookup_lt_Some).
  assert (forall i f, c' !! i = Some f -> (i = k /\ f = e1) \/ (i <> k /\ c !! i = Some f)) as Inv.
  { intros i f. destruct (Nat.eq_dec i k) as [->|]; [rewrite K'; intros [= <-]; by left|].
    unfold c'. rewrite list_lookup_insert_ne by done. by right. }
  assert (cache_ok c' d) as C'.
  { split.
    - intros i j f g Ei Ej Lf Lg Eb. destruct (Inv i f Ei) as [[-> ->]|[Hi Ei']], (Inv j g Ej) as [[-> ->]|[Hj Ej']]; [done| | |].
      + by eapply (co_unique _ _ C k j e g).
      + by eapply (co_unique _ _ C i k f e).
      + by eapply (co_unique _ _ C i j f g).
    - intros i f Ei Lf. destruct (Inv i f Ei) as [[-> ->]|[Hi Ei']]; [by eapply (co_range _ _ C k e)|by eapply (co_range _ _ C i)].
    - intros i f Ei Lf. destruct (Inv i f Ei) as [[-> ->]|[Hi Ei']]; [done|by eapply (co_data _ _ C i)].
    - intros i f Ei Lf Hd. destruct (Inv i f Ei) as [[-> ->]|[Hi Ei']]; [by apply Hcl|by eapply (co_clean _ _ C i)]. }
  split; [done|]. intros x. destruct (Z.eqb_spec x (block_num e)) as [->|Hx].
  - by apply (cview_hit c' d k e1).
  - destruct (cview_cases c x) as [(i & f & Ei & Lf & <-)|Nx].
    + rewrite (cview_hit c d i f) by done. apply (cview_hit c' d i f); [done| |done].
      unfold c'. rewrite list_lookup_insert_ne; [done|]. intros ->. by simplify_eq.
    + rewrite (cview_miss c d x) by done. apply cview_miss.
      intros j f Ej Lf. destruct (Inv j f Ej) as [[-> ->]|[Hj Ej']]; [cbn; congruence|by apply (Nx j)].
Qed.

(** An access counter is a [u32]: the bound under which one more access does
    not wrap to zero, which would make the entry look empty. *)
Definition counts_low (c : list CacheEntry) : Prop := Forall (fun e => 0 <= access_count e < 2 ^ 32 - 1) c.

Lemma hit_or_miss c b : (exists k e, list_find (fun e => hit b e = true) c = Some (k, e) /\ c !! k = Some e /\ live e /\ block_num e = b) \/
  (list_find (fun e => hit b e = true) c = None /\ forall (i : nat) e, c !! i = Some e -> live e -> block_num e <> b).
Proof.
  destruct (list_find _ c) as [[k e]|] eqn:F.
  - left. exists k, e. split; [done|]. apply list_find_Some in F as (F & Hf & _). by apply hit_spec in Hf.
  - right. split; [done|]. apply list_find_None in F. rewrite Forall_lookup in F.
    intros i e E L Eb. apply (F i e E). by apply hit_spec.
Qed.

Lemma counted c k e : counts_low c -> c !! k = Some e -> 0 < access_count e +[32] 1.
Proof.
  intros L E. pose proof (Forall_lookup_1 _ _ _ _ L E) as [L1 L2]. simpl in *.
  rewrite wrap_small by (unfold in_width; lia). lia.
Qed.

Lemma cached_read_spec b p (w : World D) : cache_ok (cache p) (disk w) -> cache p <> [] -> counts_low (cache p) ->
  0 <= b < disk_capacity (disk w) ->
  exists bytes p' w', cached_read b p w = (Some bytes, p', w') /\ cview (cache p) (disk w) b = Some bytes /\
    cache_ok (cache p') (disk w') /\ forall x, cview (cache p') (disk w') x = cview (cache p) (disk w) x.
Proof.
  intros C Hne L Hb. unfold cached_read. destruct (hit_or_miss (cache p) b) as [(k & e & -> & K & Le & <-)|[-> N]].
  - assert (cview (cache p) (disk w) (block_num e) = Some (data e)) as V by by apply (cview_hit _ _ k).
    destruct (update_entry (cache p) (disk w) k e (data e) (c_dirty e) (access_count e +[32] 1) (ticks w) C K Le) as [C' V'];
      [by apply (counted (cache p) k)|by eapply (co_data _ _ C k)|intros Hd; by eapply (co_clean _ _ C k)|].
    eexists _, _, _. split; [done|]. split; [done|]. split; [done|]. intros x. cbn [cache with_cache disk get_timestamp snd].
    rewrite V'. destruct (Z.eqb_spec x (block_num e)) as [->|]; [by rewrite V|done].
  - destruct (bl_read (disk w) b Hb) as (bytes & E & Hl). rewrite E.
    destruct (cache_insert_spec b bytes false (with_cache (cache p) (cache_hits p) (cache_misses p +[64] 1) p) w C Hne N Hb Hl)
      as (p' & w' & -> & C' & _ & _ & V'); [done|].
    eexists _, _, _. split; [done|]. rewrite (cview_miss _ _ b) by done. split; [done|]. split; [done|].
    intros x. rewrite V'. cbn [cache with_cache]. destruct (Z.eqb_spec x b) as [->|]; [by rewrite (cview_miss _ _ b), E|done].
Qed.

Lemma cached_write_spec b bytes p (w : World D) : cache_ok (cache p) (disk w) -> cache p <> [] -> counts_low (cache p) ->
  0 <= b < disk_capacity (disk w) -> length bytes = 512%nat ->
  exists p' w', cached_write b bytes p w = (p', w') /\ cache_ok (cache p') (disk w') /\
    forall x, cview (cache p') (disk w') x = if x =? b then Some bytes else cview (cache p) (disk w) x.
Proof.
  intros C Hne L Hb Hl. unfold cached_write. destruct (hit_or_miss (cache p) b) as [(k & e & -> & K & Le & <-)|[-> N]].
  - destruct (update_entry (cache p) (disk w) k e bytes true (access_count e +[32] 1) (ticks w) C K Le) as [C' V'];
      [by apply (counted (cache p) k)|done..|].
    eexists _, _. split; [done|]. by split.
  - destruct (cache_insert_spec b bytes true p w C Hne N Hb Hl) as (p' & w' & -> & C' & _ & _ & V'); [done|].
    by exists p', w'.
Qed.

Definition cleaned (e : CacheEntry) : CacheEntry :=
  if c_dirty e && (0 <? access_count e) then mkCache (block_num e) (data e) false (access_count e) (last_access e) else e.

Lemma cache_ok_tail e c d d' : cache_ok (e :: c) d -> disk_capacity d' = disk_capacity d ->
  (forall s, s <> block_num e \/ ~ live e -> disk_read s d' = disk_read s d) -> cache_ok c d'.
Proof.
  intros C Hc R. split.
  - intros i j f g Ei Ej Lf Lg Eb. by injection (co_unique _ _ C (S i) (S j) f g Ei Ej Lf Lg Eb).
  - intros i f Ei Lf. rewrite Hc. exact (co_range _ _ C (S i) f Ei Lf).
  - intros i f Ei Lf. exact (co_data _ _ C (S i) f Ei Lf).
  - intros i f Ei Lf Hd. rewrite R; [exact (co_clean _ _ C (S i) f Ei Lf Hd)|].
    destruct (decide (0 < access_count e)) as [Le|]; [|by right]. left. intros Eq.
    by pose proof (co_unique _ _ C (S i) 0 f e Ei eq_refl Lf Le Eq).
Qed.

Lemma flush_entries_spec c : forall (w : World D), cache_ok c (disk w) ->
  exists w', flush_entries c w = (true, cleaned <$> c, w') /\ disk_capacity (disk w') = disk_capacity (disk w) /\
    forall x, disk_read x (disk w') = cview c (disk w) x.
Proof.
  induction c as [|e c IH]; intros w C; [by exists w|]. cbn [flush_entries fmap list_fmap].
  assert (forall d' x, disk_capacity d' = disk_capacity (disk w) ->
    (forall s, disk_read s d' = if (c_dirty e && (0 <? access_count e)) && (s =? block_num e) then Some (data e) else disk_read s (disk w)) ->
    cview c d' x = cview (e :: c) (disk w) x) as V.
  { intros d' x Hc R. assert (cache_ok c d') as C'.
    { apply (cache_ok_tail e c (disk w)); [done..|]. intros s Hs. rewrite R.
      destruct (c_dirty e && (0 <? access_count e)) eqn:W; [|done]. apply andb_true_iff in W as [_ W%Z.ltb_lt].
      destruct (Z.eqb_spec s (block_num e)); [|done]. by destruct Hs as [|Hs]; [|destruct Hs]. }
    unfold cview at 2. cbn [list_find]. destruct (decide (hit x e = true)) as [Hh|Hh].
    - apply hit_spec in Hh as [Le <-]. rewrite cview_miss.
      + rewrite R, (proj2 (Z.ltb_lt _ _)), andb_true_r, Z.eqb_refl, andb_true_r by done.
        destruct (c_dirty e) eqn:Hd; [done|]. exact (co_clean _ _ C 0 e eq_refl Le Hd).
      + intros i f Ei Lf Eq. by pose proof (co_unique _ _ C (S i) 0 f e Ei eq_refl Lf Le Eq).
    - unfold cview. destruct (list_find (fun e => hit x e = true) c) as [[j f]|]; [done|]. simpl. rewrite R.
      destruct (c_dirty e && (0 <? access_count e)) eqn:W; [|done]. apply andb_true_iff in W as [_ W%Z.ltb_lt].
      destruct (Z.eqb_spec x (block_num e)); [|done]. destruct Hh. by apply hit_spec. }
  destruct (c_dirty e && (0 <? access_count e)) eqn:W.
  - pose proof W as W0. apply andb_true_iff in W0 as [_ Le%Z.ltb_lt].
    destruct (write_at w (block_num e) (data e)) as (d1 & -> & C1 & R1);
      [exact (co_range _ _ C 0 e eq_refl Le)|exact (co_data _ _ C 0 e eq_refl Le)|].
    destruct (IH (mkWorld d1 (ticks w) (PSYCHIC_FS w))) as (w2 & E2 & C2 & V2).
    { apply (cache_ok_tail e c (disk w)); [done..|]. cbn [disk]. intros s Hs. rewrite R1.
      destruct (Z.eqb_spec s (block_num e)); [|done]. by destruct Hs as [|Hs]; [|destruct Hs]. }
    rewrite E2. exists w2. split; [by unfold cleaned; rewrite W|]. split; [cbn [disk] in C2; congruence|].
    intros x. rewrite V2. cbn [disk]. apply V; [done|]. intros s. by rewrite R1.
  - destruct (IH w) as (w2 & E2 & C2 & V2); [by apply (cache_ok_tail e c (disk w))|].
    rewrite E2. exists w2. split; [by unfold cleaned; rewrite W|]. split; [done|]. intros x. rewrite V2. by apply V.
Qed.

Lemma cleaned_ok c d d' : cache_ok c d -> disk_capacity d' = disk_capacity d -> (forall x, disk_read x d' = cview c d x) ->
  cache_ok (cleaned <$> c) d' /\ forall x, cview (cleaned <$> c) d' x = cview c d x.
Proof.
  intros C Hc R.
  assert (forall e, block_num (cleaned e) = block_num e /\ data (cleaned e) = data e /\ (live (cleaned e) <-> live e)) as Cl.
  { intros e. unfold cleaned, live. by destruct (_ && _). }
  assert (forall (i : nat) f, (cleaned <$> c) !! i = Some f -> live f ->
    exists e, c !! i = Some e /\ live e /\ block_num f = block_num e /\ data f = data e) as Inv.
  { intros i f E L. apply list_lookup_fmap_Some in E as (e & -> & E). destruct (Cl e) as (C1 & C2 & C3). exists e.
    split; [done|]. split; [by apply C3|done]. }
  assert (cache_ok (cleaned <$> c) d') as C'.
  { split.
    - intros i j f g Ei Ej Lf Lg Eb. destruct (Inv i f Ei Lf) as (e & E1 & E2 & E3 & _), (Inv j g Ej Lg) as (h & H1' & H2 & H3 & _).
      apply (co_unique _ _ C i j e h); congruence.
    - intros i f Ei Lf. destruct (Inv i f Ei Lf) as (e & E1 & E2 & -> & _). rewrite Hc. by eapply (co_range _ _ C i).
    - intros i f Ei Lf. destruct (Inv i f Ei Lf) as (e & E1 & E2 & _ & ->). by eapply (co_data _ _ C i).
    - intros i f Ei Lf _. destruct (Inv i f Ei Lf) as (e & E1 & E2 & -> & ->). rewrite R. by apply (cview_hit c d i). }
  split; [done|]. intros x. destruct (cview_cases (cleaned <$> c) x) as [(i & f & Ei & Lf & <-)|N].
  - rewrite (cview_hit _ d' i f) by done. destruct (Inv i f Ei Lf) as (e & E1 & E2 & -> & ->). symmetry. by apply (cview_hit c d i).
  - by rewrite cview_miss.
Qed.

(** The block cache is transparent.  On a healthy disk, while no access
    counter is about to wrap, a client of the cache sees one array of blocks,
    [cview]: [cached_read] returns the block and changes no view, evictions
    included; [cached_write] changes the view of its block and of no other;
    [flush_cache] succeeds, changes no view, and puts the view of every block
    on the disk.  All three keep the cache's invariant (a block is cached at
    most once, clean entries agree with the disk). *)
Theorem cache_transparent b bytes p (w : World D) : cache_ok (cache p) (disk w) -> cache p <> [] -> counts_low (cache p) ->
  0 <= b < disk_capacity (disk w) -> length bytes = 512%nat ->
  (exists got p' w', cached_read b p w = (Some got, p', w') /\ cview (cache p) (disk w) b = Some got /\
     cache_ok (cache p') (disk w') /\ forall x, cview (cache p') (disk w') x = cview (cache p) (disk w) x) /\
  (exists p' w', cached_write b bytes p w = (p', w') /\ cache_ok (cache p') (disk w') /\
     forall x, cview (cache p') (disk w') x = if x =? b then Some bytes else cview (cache p) (disk w) x) /\
  (exists p' w', flush_cache p w = (true, p', w') /\ cache_ok (cache p') (disk w') /\
     forall x, cview (cache p') (disk w') x = cview (cache p) (disk w) x /\
               disk_read x (disk w') = cview (cache p) (disk w) x).
Proof.
  intros C Hne L Hb Hl. split; [by apply cached_read_spec|]. split; [by apply cached_write_spec|].
  destruct (flush_entries_spec (cache p) w C) as (w' & E & Hc & R). destruct (cleaned_ok _ _ (disk w') C Hc R) as [C' V'].
  unfold flush_cache. rewrite E. eexists _, _. split; [done|]. split; [exact C'|]. intros x. by split; [apply V'|].
Qed.
End Cache.

Lemma mem_disk_capacity d : disk_capacity d = mem_capacity d.
Proof. done. Qed.

Lemma find_contiguous_state {D} n (w : World D) : (find_contiguous_blocks n w).2 = w.
Proof.
  unfold find_contiguous_blocks. destruct (PSYCHIC_FS w) as [p|]; [|done]. destruct (_ <=? _); [done|].
  destruct (find_run _ _ _ _); [done|]. destruct (_ =? _); [|done]. by destruct (list_find _ _) as [[? ?]|].
Qed.

(** ** A concrete disk

    An empty disk of 8192 sectors, formatted and mounted. *)

Section Concrete.
#[local] Instance sample_machine : Machine :=
  {| padding := fun _ => 170; stack := replicate 16 85; tick := fun t => t + 1 |}.
Definition blank : World MemDisk := mkWorld (mkMem 8192 ∅) 5 None.
Definition mounted_world : World MemDisk := (fs_mount (fs_format blank).2).2.
Definition mounted_fs : PsychicFs := default PsychicFs_new (PSYCHIC_FS mounted_world).

Lemma mounted_ready : PSYCHIC_FS mounted_world = Some mounted_fs /\ wf_fs mounted_fs /\
  mounted mounted_fs = true /\ mem_capacity (disk mounted_world) = 8192 /\ total_blocks (superblock mounted_fs) = 8192.
Proof.
  split; [vm_compute; reflexivity|]. split; [split; vm_compute; reflexivity|]. split; [vm_compute; reflexivity|].
  split; vm_compute; reflexivity.
Qed.

Lemma mounted_free : free_run mounted_fs 1 128.
Proof.
  destruct mounted_ready as (_ & _ & _ & _ & T). split; [done|]. split; [rewrite T; lia|].
  intros x Hx. assert (x = 128) as -> by lia. vm_compute. reflexivity.
Qed.

Lemma fs_write_read_witness : exists w', fs_write [97; 46; 116] [1; 2; 3] mounted_world = (Ok tt, w') /\
  fs_read [97; 46; 116] w' = (Ok [1; 2; 3], w') /\
  forall m, m <> [97; 46; 116] -> lookup_file m w' = lookup_file m mounted_world.
Proof.
  destruct mounted_ready as (P & W & M & C & T).
  apply (fs_write_read mounted_world mounted_fs [97; 46; 116] [1; 2; 3] 128).
  - split; [|exact P|exact W|exact M|].
    + unfold big. rewrite mem_disk_capacity, C. reflexivity.
    + rewrite mem_disk_capacity, C, T. reflexivity.
  - split; [unfold MAX_FILENAME_LEN; simpl; lia|]. split; [by vm_compute|by apply (bool_decide_unpack _)].
  - left. exists 0. split; [lia|vm_compute; reflexivity].
  - exact mounted_free.
Defined.

Lemma format_mount_empty_witness : 8192 <= mem_capacity (disk blank) /\
  exists w1 w2 p, fs_format blank = (Ok tt, w1) /\ fs_mount w1 = (Ok tt, w2) /\ ready w2 p /\
    total_blocks (superblock p) = 8192 /\ free_blocks (superblock p) = 8064 /\
    (forall n, unnamed n (disk w2)) /\ fs_list w2 = [] /\
    (forall k, 0 <= k < 256 -> in_use (slot (disk w2) k) = 0) /\
    (forall b, 128 <= b < 8192 -> is_block_allocated b p = false).
Proof. split; [done|]. apply (format_mount_empty blank); [done|cbn; lia]. Defined.

Lemma second_file_shares_blocks_witness :
  find_contiguous_blocks 1 mounted_world = (Ok 128, mounted_world) /\
  find_contiguous_blocks 1 (allocate_contiguous_blocks 128 1 mounted_world) =
    (Ok 128, allocate_contiguous_blocks 128 1 mounted_world).
Proof.
  assert (find_contiguous_blocks 1 mounted_world = (Ok 128, mounted_world)) as E.
  { assert ((find_contiguous_blocks 1 mounted_world).1 = Ok 128) as E1 by (vm_compute; reflexivity).
    rewrite (pair_fst _ _ E1). by rewrite find_contiguous_state. }
  split; [exact E|]. destruct mounted_ready as (P & W & _).
  destruct (second_file_shares_blocks mounted_world mounted_fs 128 1 P W) as [_ F]; [lia|exact E|exact F].
Defined.

Lemma fresh_cache : cache_ok (cache PsychicFs_new) (disk blank) /\ counts_low (cache PsychicFs_new).
Proof.
  assert (forall (i : nat) e, cache PsychicFs_new !! i = Some e -> ~ live e) as N.
  { intros i e E. change (cache PsychicFs_new) with (replicate CACHE_SIZE CacheEntry_empty) in E.
    apply lookup_replicate in E as [-> _]. done. }
  split; [|by apply Forall_replicate].
  split; [intros i j e f Ei|intros i e Ei|intros i e Ei|intros i e Ei]; by pose proof (N i e Ei).
Qed.

Lemma cache_transparent_witness :
  (exists p' w', cached_write 200 (replicate 512 7) PsychicFs_new blank = (p', w') /\
     cview (cache p') (disk w') 200 = Some (replicate 512 7)) /\
  (exists got p' w', cached_read 200 PsychicFs_new blank = (Some got, p', w')).
Proof.
  destruct fresh_cache as [C L].
  destruct (cache_transparent 200 (replicate 512 7) PsychicFs_new blank C ltac:(done) L ltac:(cbn; lia) ltac:(done))
    as ((got & p1 & w1 & E1 & _) & (p2 & w2 & E2 & _ & V2) & _).
  split; [|by exists got, p1, w1]. exists p2, w2. split; [exact E2|]. rewrite V2. done.
Defined.

(** Two files of one block each: the second takes the first one's block. *)
Example two_files_one_block :
  let w1 := (fs_write [97] [1; 2; 3] mounted_world).2 in
  let w2 := (fs_write [98] [4; 5; 6; 7] w1).2 in
  (fs_read [97] w1).1 = Ok [1; 2; 3] /\ (fs_read [97] w2).1 = Ok [4; 5; 6] /\ (fs_read [98] w2).1 = Ok [4; 5; 6; 7].
Proof. by vm_compute. Qed.
End Concrete.
