(* ===== verification/Causality.v ===== *)
(** * The causality log ([reality/causality.rs])

    Realities are numbers from a counter; events are kept in a window of the last
    1024, each with an optional cause, and [get_causal_chain] follows the causes.
    Theorems: the log is the tail of the whole history; the chain of an event is
    found, and ends, when causes precede their events; nothing in [log] makes
    them, and an event that names itself makes the walk endless. *)

From Stdlib Require Import ZArith Lia Bool.
From stdpp Require Import base numbers option list.
From S2P Require Import Prelude.

Open Scope Z_scope.

(** ** Data *)

Inductive CausalEventType : Type :=
| Boot | Interrupt | Syscall | Allocation | Deallocation | DiskRead | DiskWrite | FileOpen | FileClose
| TaskSpawn | TaskExit | DreamEnter | DreamExit | Checkpoint | Rollback | UserCommand | Custom.

(** The union; every variant but [raw] is a structure of its own. *)
Inductive CausalEventData : Type :=
| interrupt (vector error_code : Z)
| allocation (address size spatial_x spatial_y spatial_z : Z)
| disk (sector count : Z) (success : bool)
| file (inode operation : Z)
| command (cmd_hash : Z)
| raw (bytes : list Z).

Record CausalEvent : Type := mkEvent {
  id : Z; timestamp : Z; event_type : CausalEventType; cause_id : option Z; reality_id : Z; data : CausalEventData
}.

Definition MAX_CAUSAL_EVENTS : nat := 1024.

Record CausalLog : Type := mkLog { events : list CausalEvent; next_id : Z }.

(** The globals of the file. *)
Record Reality : Type := mkReality {
  REALITY_COUNTER : Z; CURRENT_REALITY_ID : Z; CAUSAL_EVENT_COUNTER : Z; CAUSAL_LOG : option CausalLog
}.

Definition start : Reality := mkReality 0 0 0 None.

(** ** Realities *)

Definition RealityId_new (r : Reality) : Z * Reality :=
  (REALITY_COUNTER r, mkReality (REALITY_COUNTER r +[64] 1) (CURRENT_REALITY_ID r) (CAUSAL_EVENT_COUNTER r) (CAUSAL_LOG r)).
Definition RealityId_root : Z := 0.
Definition RealityId_current (r : Reality) : Z := CURRENT_REALITY_ID r.
Definition set_current_reality (i : Z) (r : Reality) : Reality :=
  mkReality (REALITY_COUNTER r) i (CAUSAL_EVENT_COUNTER r) (CAUSAL_LOG r).
Definition get_reality_count (r : Reality) : Z := REALITY_COUNTER r.

(** ** The log *)

Definition CausalLog_new : CausalLog := mkLog [] 0.

Definition make_event (i now reality : Z) (t : CausalEventType) (cause : option Z) (d : CausalEventData) : CausalEvent :=
  mkEvent i now t cause reality d.

(** [log]; the counter of all events is beside the log. *)
Definition log (t : CausalEventType) (cause : option Z) (d : CausalEventData) (now reality : Z) (l : CausalLog) : Z * CausalLog :=
  let i := next_id l in
  let event := make_event i now reality t cause d in
  let kept := if (MAX_CAUSAL_EVENTS <=? length (events l))%nat then tail (events l) else events l in
  (i, mkLog (kept ++ [event]) (i +[64] 1)).

Definition get_event (i : Z) (l : CausalLog) : option CausalEvent := List.find (fun e => id e =? i) (events l).

Definition get_recent (count : nat) (l : CausalLog) : list CausalEvent := take count (reverse (events l)).

(** The loop of [get_causal_chain]; [None] when [fuel] rounds were not enough. *)
Fixpoint chain_loop (fuel : nat) (current : option Z) (l : CausalLog) : option (list CausalEvent) :=
  match current with
  | None => Some []
  | Some i =>
      match get_event i l with
      | None => Some []
      | Some event => match fuel with O => None | S fuel => cons event <$> chain_loop fuel (cause_id event) l end
      end
  end.

(** One round per event of the log; after that the loop never ends. *)
Definition chain_of (i : Z) (l : CausalLog) : option (list CausalEvent) := chain_loop (length (events l)) (Some i) l.

(** *** The functions of the module *)

Definition log_event (t : CausalEventType) (cause : option Z) (d : CausalEventData) (now : Z) (r : Reality) : Z * Reality :=
  match CAUSAL_LOG r with
  | Some l =>
      let (i, l) := log t cause d now (CURRENT_REALITY_ID r) l in
      (i, mkReality (REALITY_COUNTER r) (CURRENT_REALITY_ID r) (CAUSAL_EVENT_COUNTER r +[64] 1) (Some l))
  | None => (0, r)
  end.

Definition init (now : Z) (r : Reality) : Reality :=
  (log_event Boot None (raw (replicate 32 0)) now
     (mkReality (REALITY_COUNTER r) (CURRENT_REALITY_ID r) (CAUSAL_EVENT_COUNTER r) (Some CausalLog_new))).2.

(** [None] is a walk that never ends. *)
Definition get_causal_chain (i : Z) (r : Reality) : option (list CausalEvent) :=
  match CAUSAL_LOG r with Some l => chain_of i l | None => Some [] end.
Definition get_recent_events (count : nat) (r : Reality) : list CausalEvent :=
  match CAUSAL_LOG r with Some l => get_recent count l | None => [] end.
Definition get_event_count (r : Reality) : nat :=
  match CAUSAL_LOG r with Some l => length (events l) | None => 0%nat end.
Definition get_total_events (r : Reality) : Z :=
  match CAUSAL_LOG r with Some _ => CAUSAL_EVENT_COUNTER r | None => 0 end.

(** ** The window on the history *)

(** The log is the end of the history [h], whose event number [i] has the
    identifier [i]. *)
Record shows (h : list CausalEvent) (l : CausalLog) : Prop := {
  sh_events : events l = drop (length h - MAX_CAUSAL_EVENTS) h;
  sh_next : next_id l = Z.of_nat (length h);
  sh_ids : forall (k : nat) e, h !! k = Some e -> id e = Z.of_nat k;
}.

Lemma shows_new : shows [] CausalLog_new.
Proof. by constructor. Qed.

Lemma drop_snoc_window {A} (h : list A) x n : (n <= length h)%nat -> drop n (h ++ [x]) = drop n h ++ [x].
Proof. intros Hn. rewrite drop_app. f_equal. replace (n - length h)%nat with 0%nat by lia. done. Qed.

Lemma tail_drop {A} (h : list A) n : tail (drop n h) = drop (S n) h.
Proof. revert n. induction h as [|x h IH]; intros [|n]; cbn; try done. Qed.

Lemma log_shows h l t cause d now reality : shows h l -> Z.of_nat (length h) + 1 < 2 ^ 64 ->
  let e := make_event (Z.of_nat (length h)) now reality t cause d in
  log t cause d now reality l = (Z.of_nat (length h), (log t cause d now reality l).2) /\
  shows (h ++ [e]) (log t cause d now reality l).2.
Proof.
  intros [He Hn Hi] Hw e. unfold log. rewrite Hn. split; [done|]. constructor; cbn [events next_id snd].
  - rewrite He, length_app, length_drop. cbn [length]. unfold MAX_CAUSAL_EVENTS in *.
    destruct (Nat.leb_spec 1024 (length h - (length h - 1024))).
    + rewrite tail_drop, drop_snoc_window by lia. by replace (length h + 1 - 1024)%nat with (S (length h - 1024)) by lia.
    + replace (length h - 1024)%nat with 0%nat by lia. replace (length h + 1 - 1024)%nat with 0%nat by lia. done.
  - rewrite length_app. cbn [length]. rewrite wrap_small; [lia|]. unfold in_width. lia.
  - intros k x Hk. apply lookup_app_Some in Hk as [Hk|[Hle Hk]]; [by apply Hi|].
    destruct (k - length h)%nat eqn:E; [|done]. injection Hk as <-. cbn. lia.
Qed.

(** The window begins here. *)
Definition oldest (h : list CausalEvent) : nat := (length h - MAX_CAUSAL_EVENTS)%nat.

Lemma find_none_all {A} (p : A -> bool) (xs : list A) : (forall x, x ∈ xs -> p x = false) -> List.find p xs = None.
Proof.
  induction xs as [|x xs IH]; intros H; [done|]. cbn. rewrite H by apply list_elem_of_here. apply IH. intros y Hy. apply H. by right.
Qed.

Lemma get_event_shows h l (k : nat) : shows h l ->
  get_event (Z.of_nat k) l = if decide (oldest h <= k)%nat then h !! k else None.
Proof.
  intros [He _ Hi]. unfold get_event. rewrite He. fold (oldest h).
  assert (forall e, e ∈ drop (oldest h) h -> exists j, (oldest h <= j)%nat /\ h !! j = Some e /\ id e = Z.of_nat j) as Hin.
  { intros e [j Hj]%list_elem_of_lookup. rewrite lookup_drop in Hj. exists (oldest h + j)%nat. split; [lia|]. split; [done|]. by apply Hi. }
  destruct (List.find _ _) as [e|] eqn:F.
  - apply List.find_some in F as [Hm Ee]. apply list_elem_of_In, Hin in Hm as (j & Hj & Hl & Hid).
    apply Z.eqb_eq in Ee. assert (j = k) as -> by lia. by rewrite decide_True.
  - destruct (decide (oldest h <= k)%nat) as [Hk|]; [|done]. destruct (h !! k) as [e|] eqn:E; [|done]. exfalso.
    assert (In e (drop (oldest h) h)) as Hm.
    { apply list_elem_of_In, list_elem_of_lookup. exists (k - oldest h)%nat. rewrite lookup_drop. by replace (oldest h + (k - oldest h))%nat with k by lia. }
    pose proof (List.find_none _ _ F e Hm) as Hno. cbn in Hno. rewrite (Hi _ _ E), Z.eqb_refl in Hno. done.
Qed.

(** ** Chains *)

(** The walk from event [k]: the events from it back through their causes, up to
    one without cause or whose cause is no longer in the window. *)
Inductive chain (h : list CausalEvent) : option Z -> list CausalEvent -> Prop :=
| chain_none : chain h None []
| chain_gone i : (i < Z.of_nat (oldest h) \/ Z.of_nat (length h) <= i) -> chain h (Some i) []
| chain_event (k : nat) e c : (oldest h <= k)%nat -> h !! k = Some e -> chain h (cause_id e) c -> chain h (Some (Z.of_nat k)) (e :: c).

(** Causes come before their effects. *)
Definition causes_precede (h : list CausalEvent) : Prop :=
  forall (k : nat) e c, h !! k = Some e -> cause_id e = Some c -> 0 <= c < Z.of_nat k.

Lemma get_event_gone h l i : shows h l -> (i < Z.of_nat (oldest h) \/ Z.of_nat (length h) <= i) -> get_event i l = None.
Proof.
  intros Hs Hi. destruct (decide (0 <= i)).
  - rewrite <- (Z2Nat.id i) by done. rewrite (get_event_shows h l) by done.
    destruct (decide _); [|done]. apply lookup_ge_None_2. lia.
  - unfold get_event. apply find_none_all. intros e He. apply Z.eqb_neq. intros <-.
    destruct Hs as [Hev _ Hids]. rewrite Hev in He. apply list_elem_of_lookup in He as [j Hj]. rewrite lookup_drop in Hj. apply Hids in Hj. lia.
Qed.

Lemma chain_loop_finds h l : shows h l -> causes_precede h -> forall fuel i,
  (match i with Some i => i - Z.of_nat (oldest h) < Z.of_nat fuel \/ Z.of_nat (length h) <= i | None => True end) ->
  exists c, chain_loop fuel i l = Some c /\ chain h i c.
Proof.
  intros Hs Hc. induction fuel as [|fuel IH]; intros [i|] Hi; try (by exists []; split; [done|constructor]).
  - exists []. cbn [chain_loop]. rewrite (get_event_gone h l) by (done || lia). split; [done|]. apply chain_gone. lia.
  - cbn [chain_loop]. destruct (decide (i < Z.of_nat (oldest h) \/ Z.of_nat (length h) <= i)) as [Hg|Hg].
    { exists []. rewrite (get_event_gone h l) by done. split; [done|by apply chain_gone]. }
    rewrite <- (Z2Nat.id i) by lia. rewrite (get_event_shows h l), decide_True by (done || lia).
    destruct (h !! Z.to_nat i) as [e|] eqn:E; [|apply lookup_ge_None in E; lia].
    destruct (IH (cause_id e)) as (c & -> & Hch).
    { destruct (cause_id e) as [j|] eqn:Ej; [|done]. pose proof (Hc _ _ _ E Ej). lia. }
    exists (e :: c). split; [done|]. apply chain_event; [lia|done|done].
Qed.

Lemma chain_functional h i c1 c2 : chain h i c1 -> chain h i c2 -> c1 = c2.
Proof.
  intros H1. revert c2. induction H1 as [|i Hi|k e c Hk He _ IH]; intros c2 H2; inversion H2; subst; try done.
  - assert (h !! k = None) by (apply lookup_ge_None_2; lia). congruence.
  - apply lookup_lt_Some in He. lia.
  - assert (k = k0) as <- by lia. simplify_eq. f_equal. by apply IH.
Qed.

(** ** Sequences of calls *)

Definition entry : Type := CausalEventType * option Z * CausalEventData * Z * Z.

(** [log] for each entry in turn: type, cause, data, time and reality. *)
Definition log_entry (l : CausalLog) (x : entry) : CausalLog :=
  let '(t, cause, d, now, reality) := x in (log t cause d now reality l).2.
Definition log_all (xs : list entry) : CausalLog := foldl log_entry CausalLog_new xs.

(** The history of the same entries, with nothing forgotten. *)
Definition history (xs : list entry) : list CausalEvent :=
  imap (fun k '(t, cause, d, now, reality) => make_event (Z.of_nat k) now reality t cause d) xs.

Lemma log_all_shows xs : Z.of_nat (length xs) < 2 ^ 64 -> shows (history xs) (log_all xs).
Proof.
  unfold log_all, history. induction xs as [|x xs IH] using rev_ind; intros Hw; [exact shows_new|].
  rewrite length_app in Hw. cbn [length] in Hw. rewrite foldl_app, imap_app. cbn [foldl imap].
  destruct x as [[[[t cause] d] now] reality]. cbn [log_entry].
  pose proof (log_shows _ _ t cause d now reality (IH ltac:(lia))) as Hl. rewrite length_imap in Hl.
  assert (Z.of_nat (length xs) + 1 < 2 ^ 64) as Hw' by lia. specialize (Hl Hw'). cbv zeta in Hl. destruct Hl as [_ Hl]. by rewrite Nat.add_0_r.
Qed.

(** ** The properties *)

Lemma lookup_history xs (k : nat) : history xs !! k =
  (fun '(t, cause, d, now, reality) => make_event (Z.of_nat k) now reality t cause d) <$> xs !! k.
Proof. unfold history. by rewrite list_lookup_imap. Qed.

Definition entry_cause (x : entry) : option Z := x.1.1.1.2.

(** The log is a window on the whole history: after any sequence of calls it
    holds the last 1024 events in order, and [get_event] finds an event exactly
    when it is among them. *)
Theorem log_is_window xs : Z.of_nat (length xs) < 2 ^ 64 ->
  events (log_all xs) = drop (length xs - MAX_CAUSAL_EVENTS) (history xs) /\
  next_id (log_all xs) = Z.of_nat (length xs) /\
  (forall count, get_recent count (log_all xs) = take count (reverse (drop (length xs - MAX_CAUSAL_EVENTS) (history xs)))) /\
  forall k : nat, get_event (Z.of_nat k) (log_all xs) =
    if decide (length xs - MAX_CAUSAL_EVENTS <= k)%nat then history xs !! k else None.
Proof.
  intros Hw. pose proof (log_all_shows xs Hw) as Hs. assert (length (history xs) = length xs) as Hl by apply length_imap.
  pose proof (sh_events _ _ Hs) as He. pose proof (sh_next _ _ Hs) as Hn. rewrite Hl in He, Hn.
  split; [done|]. split; [done|]. split; [intros count; unfold get_recent; by rewrite He|].
  intros k. rewrite (get_event_shows _ _ k Hs). unfold oldest. by rewrite Hl.
Qed.

(** C33: When every cause is an earlier event, [get_causal_chain] ends for any event,
    and it lists the event, its cause, the cause of that one, and so on, down to
    an event without cause or one whose cause has left the window. *)
Theorem causal_chain_correct xs i : Z.of_nat (length xs) < 2 ^ 64 ->
  (forall (k : nat) x c, xs !! k = Some x -> entry_cause x = Some c -> 0 <= c < Z.of_nat k) ->
  exists c, chain_of i (log_all xs) = Some c /\ chain (history xs) (Some i) c /\
    forall c', chain (history xs) (Some i) c' -> c' = c.
Proof.
  intros Hw Hc. pose proof (log_all_shows xs Hw) as Hs.
  assert (causes_precede (history xs)) as Hp.
  { intros k e c Hk Ec. rewrite lookup_history in Hk. destruct (xs !! k) as [[[[[t ca] d] now] re]|] eqn:E; [|done].
    injection Hk as <-. apply (Hc k _ c E Ec). }
  destruct (chain_loop_finds _ _ Hs Hp (length (events (log_all xs))) (Some i)) as (c & E & Hch).
  - rewrite (sh_events _ _ Hs), length_drop. unfold oldest. lia.
  - exists c. split; [done|]. split; [done|]. intros c' H'. by apply (chain_functional (history xs) (Some i)).
Qed.

(** [chain_of] gives up no walk that would end: when as many rounds as the log has
    events are not enough, no number of rounds is. *)
Lemma chain_loop_more fuel : forall i l c, chain_loop fuel i l = Some c -> forall more, (fuel <= more)%nat -> chain_loop more i l = Some c.
Proof.
  induction fuel as [|fuel IH]; intros [i|] l c H more Hm; destruct more as [|more]; try lia; cbn [chain_loop] in *; try done;
    (destruct (get_event i l) as [e|]; [|done]); try done.
  destruct (chain_loop fuel (cause_id e) l) as [c'|] eqn:E; [|done]. by rewrite (IH _ _ _ E more ltac:(lia)).
Qed.

(** [log] takes any cause.  An event that names itself - the identifier it is
    about to get - makes [get_causal_chain] go round for ever, its list growing. *)
Theorem self_cause_never_ends t d now reality l :
  (forall (k : nat) e, events l !! k = Some e -> id e < next_id l) ->
  forall fuel, chain_loop fuel (Some (next_id l)) (log t (Some (next_id l)) d now reality l).2 = None.
Proof.
  intros Hids. set (e := make_event (next_id l) now reality t (Some (next_id l)) d).
  assert (get_event (next_id l) (log t (Some (next_id l)) d now reality l).2 = Some e) as Hg.
  { unfold get_event, log. cbn [snd events]. match goal with |- context [?k ++ [_]] => set (kept := k) end.
    assert (forall x, x ∈ kept -> id x =? next_id l = false) as Hk.
    { intros x Hx. assert (x ∈ events l) as Hin.
      { subst kept. destruct (MAX_CAUSAL_EVENTS <=? length (events l))%nat; [|done]. destruct (events l); [done|]. by right. }
      apply list_elem_of_lookup in Hin as [j Hj]. apply Hids in Hj. apply Z.eqb_neq. lia. }
    induction kept as [|x kept IH]; cbn; [by rewrite Z.eqb_refl|]. rewrite Hk by apply list_elem_of_here.
    apply IH. intros y Hy. apply Hk. by right. }
  induction fuel as [|fuel IH]; cbn [chain_loop]; rewrite Hg; [done|]. cbn [e cause_id make_event]. by rewrite IH.
Qed.

(** The first reality that is made is the root: [RealityId::new] starts at the
    number that [RealityId::root] stands for, so the first fork forks nothing. *)
Theorem first_fork_is_root : (RealityId_new start).1 = RealityId_root.
Proof. reflexivity. Qed.

(** ** Witnesses *)

Definition demo_entries : list entry :=
  [(Boot, None, raw [], 0, 0); (Syscall, Some 0, raw [3], 4, 0); (DiskRead, Some 1, disk 7 1 true, 5, 0); (Custom, Some 0, raw [], 6, 1)].

Lemma log_is_window_witness : get_event 2 (log_all demo_entries) = Some (make_event 2 5 0 DiskRead (Some 1) (disk 7 1 true)) /\
  get_event 4 (log_all demo_entries) = None.
Proof.
  destruct (log_is_window demo_entries) as (_ & _ & _ & H); [reflexivity|].
  split; [apply (H 2%nat)|apply (H 4%nat)].
Defined.

Lemma causal_chain_correct_witness : exists c, chain_of 2 (log_all demo_entries) = Some c /\ map id c = [2; 1; 0].
Proof.
  destruct (causal_chain_correct demo_entries 2) as (c & E & _ & _).
  - reflexivity.
  - intros [|[|[|[|k]]]] x c E Ec; try discriminate E; injection E as <-; vm_compute in Ec; try discriminate Ec; injection Ec as <-; split; discriminate || reflexivity.
  - exists c. split; [exact E|]. assert (match chain_of 2 (log_all demo_entries) with Some c => map id c | None => [] end = [2; 1; 0]) as E' by (vm_compute; reflexivity).
    rewrite E in E'. exact E'.
Defined.
