(* ===== verification/Dream.v ===== *)
(** * Idle-time states and access patterns ([reality/dream.rs])

    The machine that goes from [Active] through [Dreaming] to [DeepDream] while
    the system idles and back through [Awakening], the work of each dream cycle,
    and the tracker of file accesses with its predictions.  Compaction, garbage
    collection and reorganisation only print what they would do, so they leave
    no trace here but their counters. *)

From Stdlib Require Import ZArith Lia Bool Sorting.Sorted.
From stdpp Require Import base numbers option list.
From S2P Require Import Prelude Causality.

Open Scope Z_scope.

(** ** Access patterns *)

Record AccessPattern : Type := mkPattern {
  file_id : Z; access_count : Z; last_access : Z; predicted_next : Z; avg_interval : Z; variance : Z
}.

Definition AccessPattern_new (file timestamp : Z) : AccessPattern := mkPattern file 1 timestamp 0 0 0.

Definition update (timestamp : Z) (p : AccessPattern) : AccessPattern :=
  let interval := sat_sub timestamp (last_access p) in
  let n := access_count p in
  let new_avg := ((avg_interval p *[64] n) +[64] interval) / (n +[64] 1) in
  let diff := if avg_interval p <? interval then interval - avg_interval p else avg_interval p - interval in
  let var := ((variance p *[64] n) +[64] diff) / (n +[64] 1) in
  mkPattern (file_id p) (access_count p +[32] 1) timestamp (timestamp +[64] new_avg) new_avg var.

Definition prediction_confidence (p : AccessPattern) : Z :=
  if access_count p <? 3 then 0
  else if avg_interval p =? 0 then 0
  else
    let stability := 100 - Z.min ((variance p *[64] 100) / avg_interval p) 100 in
    let recency := 100 - Z.min (access_count p) 100 in
    (stability * 2 + recency) / 3.

(** ** The tracker *)

Definition MAX_ACCESS_PATTERNS : nat := 128.

Record AccessPatternTracker : Type := mkTracker { patterns : list (option AccessPattern); count : nat }.

Definition Tracker_new : AccessPatternTracker := mkTracker (replicate MAX_ACCESS_PATTERNS None) 0.

(** The patterns that the loops [for i in 0..self.count] look at, with their index. *)
Fixpoint find_from (i : nat) (file : Z) (l : list (option AccessPattern)) : option (nat * AccessPattern) :=
  match l with
  | [] => None
  | Some p :: r => if file_id p =? file then Some (i, p) else find_from (S i) file r
  | None :: r => find_from (S i) file r
  end.

Definition find_pattern (file : Z) (t : AccessPatternTracker) : option (nat * AccessPattern) :=
  find_from 0 file (take (count t) (patterns t)).

(** The search for the least accessed pattern, from [u32::MAX]. *)
Fixpoint least (i : nat) (best : Z * nat) (l : list (option AccessPattern)) : nat :=
  match l with
  | [] => best.2
  | o :: r =>
      least (S i) (match o with
                   | Some p => if access_count p <? best.1 then (access_count p, i) else best
                   | None => best end) r
  end.

Definition record_access (file timestamp : Z) (t : AccessPatternTracker) : AccessPatternTracker :=
  match find_pattern file t with
  | Some (i, p) => mkTracker (<[i := Some (update timestamp p)]> (patterns t)) (count t)
  | None =>
      if (count t <? MAX_ACCESS_PATTERNS)%nat
      then mkTracker (<[count t := Some (AccessPattern_new file timestamp)]> (patterns t)) (S (count t))
      else mkTracker (<[least 0 (2 ^ 32 - 1, 0%nat) (take (count t) (patterns t)) := Some (AccessPattern_new file timestamp)]> (patterns t))
             (count t)
  end.

(** The patterns in use. *)
Definition tracked (t : AccessPatternTracker) : list AccessPattern := omap (fun o => o) (take (count t) (patterns t)).

Definition count_of (file : Z) (t : AccessPatternTracker) : Z :=
  match List.find (fun p => file_id p =? file) (omap (fun o => o) (patterns t)) with Some p => access_count p | None => 0 end.

(** [sort_by], which is stable: an element goes before the first one that it
    must precede. *)
Fixpoint insert_before (before : Z -> Z -> bool) (x : Z) (l : list Z) : list Z :=
  match l with
  | [] => [x]
  | y :: r => if before x y then x :: y :: r else y :: insert_before before x r
  end.
Definition sort_before (before : Z -> Z -> bool) (l : list Z) : list Z := foldl (fun acc x => insert_before before x acc) [] l.

Definition get_hot_files (min_accesses : Z) (t : AccessPatternTracker) : list Z :=
  sort_before (fun a b => count_of b t <? count_of a t)
    (file_id <$> filter (fun p => min_accesses <= access_count p) (tracked t)).

(** Whether a pattern's next access is due. *)
Definition due (current_time : Z) (p : AccessPattern) : bool :=
  let time_diff := if current_time <? predicted_next p then predicted_next p - current_time else current_time - predicted_next p in
  negb (access_count p <? 3) && (time_diff <? 1000) && (50 <? prediction_confidence p).

Definition predict_next_access (current_time : Z) (t : AccessPatternTracker) : list Z :=
  file_id <$> filter (fun p => due current_time p = true) (tracked t).

Definition get_cold_files (max_accesses age_threshold current_time : Z) (t : AccessPatternTracker) : list Z :=
  file_id <$> filter (fun p => access_count p <= max_accesses /\ age_threshold < sat_sub current_time (last_access p)) (tracked t).

(** ** States *)

Inductive SystemState : Type := Active | Dreaming | DeepDream | Awakening.

#[global] Instance SystemState_eq_dec : EqDecision SystemState.
Proof. solve_decision. Defined.

Definition state_code (s : SystemState) : Z := match s with Active => 0 | Dreaming => 1 | DeepDream => 2 | Awakening => 3 end.

Definition DREAM_THRESHOLD : Z := 1000.
Definition DEEP_DREAM_THRESHOLD : Z := 5000.
Definition AWAKENING_GRACE : Z := 100.
Definition DREAM_COMPACT_INTERVAL : Z := 100.
Definition DREAM_PREDICT_INTERVAL : Z := 50.
Definition DEEP_DREAM_GC_INTERVAL : Z := 50.

(** The statics of the file, the log they write to, and the clock. *)
Record Dream : Type := mkDream {
  SYSTEM_STATE : Z; IDLE_CYCLES : Z; DREAM_CYCLES : Z; DREAM_COMPACTIONS : Z; DREAM_PREDICTIONS : Z; PREFETCHED_FILES : Z;
  ACCESS_PATTERNS : option AccessPatternTracker; reality : Reality; now : Z
}.

Definition get_system_state (d : Dream) : SystemState :=
  if SYSTEM_STATE d =? 0 then Active
  else if SYSTEM_STATE d =? 1 then Dreaming
  else if SYSTEM_STATE d =? 2 then DeepDream
  else if SYSTEM_STATE d =? 3 then Awakening
  else Active.

Definition set_state (s : SystemState) (d : Dream) : Dream :=
  mkDream (state_code s) (IDLE_CYCLES d) (DREAM_CYCLES d) (DREAM_COMPACTIONS d) (DREAM_PREDICTIONS d) (PREFETCHED_FILES d)
          (ACCESS_PATTERNS d) (reality d) (now d).
Definition set_idle (i : Z) (d : Dream) : Dream :=
  mkDream (SYSTEM_STATE d) i (DREAM_CYCLES d) (DREAM_COMPACTIONS d) (DREAM_PREDICTIONS d) (PREFETCHED_FILES d)
          (ACCESS_PATTERNS d) (reality d) (now d).
Definition set_reality (r : Reality) (d : Dream) : Dream :=
  mkDream (SYSTEM_STATE d) (IDLE_CYCLES d) (DREAM_CYCLES d) (DREAM_COMPACTIONS d) (DREAM_PREDICTIONS d) (PREFETCHED_FILES d)
          (ACCESS_PATTERNS d) r (now d).
Definition set_counters (cycles compactions predictions prefetched : Z) (d : Dream) : Dream :=
  mkDream (SYSTEM_STATE d) (IDLE_CYCLES d) cycles compactions predictions prefetched (ACCESS_PATTERNS d) (reality d) (now d).
Definition set_patterns (p : option AccessPatternTracker) (d : Dream) : Dream :=
  mkDream (SYSTEM_STATE d) (IDLE_CYCLES d) (DREAM_CYCLES d) (DREAM_COMPACTIONS d) (DREAM_PREDICTIONS d) (PREFETCHED_FILES d)
          p (reality d) (now d).

Definition note (t : CausalEventType) (d : Dream) : Dream :=
  set_reality (log_event t None (raw (replicate 32 0)) (now d) (reality d)).2 d.

Definition enter_dream_state (d : Dream) : Dream := note DreamEnter (set_state Dreaming d).
Definition exit_dream_state (d : Dream) : Dream := note DreamExit (set_idle 0 (set_state Active d)).

Definition increment_idle (d : Dream) : Dream :=
  let idle := IDLE_CYCLES d in
  let d := set_idle (idle +[64] 1) d in
  match get_system_state d with
  | Active => if DREAM_THRESHOLD <=? idle then enter_dream_state d else d
  | Dreaming => if DEEP_DREAM_THRESHOLD <=? idle then set_state DeepDream d else d
  | _ => d
  end.

Definition reset_idle (d : Dream) : Dream :=
  let prev_idle := IDLE_CYCLES d in
  let d := set_idle 0 d in
  if decide (get_system_state d = Active) then d
  else if 100 <? prev_idle then set_state Awakening d else exit_dream_state d.

Definition init_tracker (d : Dream) : Dream := set_patterns (Some Tracker_new) d.
Definition record_file_access (file : Z) (d : Dream) : Dream :=
  match ACCESS_PATTERNS d with
  | Some t => set_patterns (Some (record_access file (now d) t)) d
  | None => d
  end.
Definition predict_next_file (d : Dream) : option Z :=
  match ACCESS_PATTERNS d with Some t => head (predict_next_access (now d) t) | None => None end.

Definition do_prediction_work (d : Dream) : Dream :=
  let d := set_counters (DREAM_CYCLES d) (DREAM_COMPACTIONS d) (DREAM_PREDICTIONS d +[64] 1) (PREFETCHED_FILES d) d in
  match predict_next_file d with
  | Some _ => set_counters (DREAM_CYCLES d) (DREAM_COMPACTIONS d) (DREAM_PREDICTIONS d) (PREFETCHED_FILES d +[64] 1) d
  | None => d
  end.
Definition do_light_compaction (d : Dream) : Dream :=
  set_counters (DREAM_CYCLES d) (DREAM_COMPACTIONS d +[64] 1) (DREAM_PREDICTIONS d) (PREFETCHED_FILES d) d.

(** [dream_cycle]; the work of a deep dream prints only. *)
Definition dream_cycle (d : Dream) : Dream :=
  let cycles := DREAM_CYCLES d in
  let d := set_counters (cycles +[64] 1) (DREAM_COMPACTIONS d) (DREAM_PREDICTIONS d) (PREFETCHED_FILES d) d in
  match get_system_state d with
  | Dreaming =>
      let d := if cycles mod DREAM_PREDICT_INTERVAL =? 0 then do_prediction_work d else d in
      if cycles mod DREAM_COMPACT_INTERVAL =? 0 then do_light_compaction d else d
  | Awakening => if AWAKENING_GRACE <? IDLE_CYCLES d then exit_dream_state d else d
  | _ => d
  end.

(** ** What happens to the machine *)

Inductive dream_event : Type := Idle | Input | Cycle.

#[global] Instance dream_event_eq_dec : EqDecision dream_event.
Proof. solve_decision. Defined.

Definition dream_step (e : dream_event) : Dream -> Dream :=
  match e with Idle => increment_idle | Input => reset_idle | Cycle => dream_cycle end.

Definition run (es : list dream_event) (d : Dream) : Dream := foldl (fun d e => dream_step e d) d es.

(** ** The tracker as a list of patterns

    [in_use l t]: the patterns of [t] are [l], in the first slots. *)
Record in_use (l : list AccessPattern) (t : AccessPatternTracker) : Prop := {
  iu_patterns : patterns t = (Some <$> l) ++ replicate (MAX_ACCESS_PATTERNS - length l) None;
  iu_count : count t = length l;
  iu_room : (length l <= MAX_ACCESS_PATTERNS)%nat;
  iu_files : NoDup (file_id <$> l);
}.

Lemma in_use_new : in_use [] Tracker_new.
Proof. constructor; [done|done|cbn; lia|constructor]. Qed.

Lemma in_use_take l t : in_use l t -> take (count t) (patterns t) = Some <$> l.
Proof. intros [-> -> _ _]. by rewrite take_app_length' by (by rewrite length_fmap). Qed.

Lemma omap_some {A} (l : list A) : omap (fun o : option A => o) (Some <$> l) = l.
Proof. induction l as [|x l IH]; [done|]. cbn. f_equal. exact IH. Qed.

Lemma omap_none {A} n : omap (fun o : option A => o) (replicate n None) = [].
Proof. induction n as [|n IH]; [done|]. exact IH. Qed.

Lemma in_use_tracked l t : in_use l t -> tracked t = l.
Proof. intros H. unfold tracked. by rewrite (in_use_take l t H), omap_some. Qed.

Lemma find_from_spec file l : forall i,
  match find_from i file (Some <$> l) with
  | Some (j, p) => (i <= j)%nat /\ l !! (j - i)%nat = Some p /\ file_id p = file
  | None => file ∉ (file_id <$> l)
  end.
Proof.
  induction l as [|p l IH]; intros i; cbn [fmap list_fmap find_from]; [apply not_elem_of_nil|].
  destruct (Z.eqb_spec (file_id p) file) as [He|Hne]; [by rewrite Nat.sub_diag|].
  specialize (IH (S i)). fold (fmap (M := list) (@Some AccessPattern) l) in *. destruct (find_from (S i) file (Some <$> l)) as [[j q]|].
  - destruct IH as (Hi & Hl & ?). split; [lia|]. split; [|done]. replace (j - i)%nat with (S (j - S i)) by lia. done.
  - rewrite not_elem_of_cons. split; [congruence|done].
Qed.

(** The index that [least] returns is that of a pattern with the fewest accesses. *)
Lemma least_spec l : forall i best, Forall (fun p => access_count p < 2 ^ 32) l ->
  let k := least i best (Some <$> l) in
  (k = best.2 /\ Forall (fun p => best.1 <= access_count p) l) \/
  exists p, (i <= k)%nat /\ l !! (k - i)%nat = Some p /\ access_count p < best.1 /\ Forall (fun q => access_count p <= access_count q) l.
Proof.
  induction l as [|p l IH]; intros i best Hl; cbn [fmap list_fmap least]; [by left|]. inversion_clear Hl as [|? ? Hp Hl'].
  fold (fmap (M := list) (@Some AccessPattern) l).
  destruct (Z.ltb_spec (access_count p) best.1).
  - destruct (IH (S i) (access_count p, i) Hl') as [[E Hf]|(q & Hi & Hq & Hlt & Hf)]; cbn [fst snd] in *; right.
    + exists p. rewrite E. split; [lia|]. rewrite Nat.sub_diag. split; [done|]. split; [done|]. by constructor.
    + exists q. split; [lia|]. replace (least (S i) (access_count p, i) (Some <$> l) - i)%nat with (S (least (S i) (access_count p, i) (Some <$> l) - S i)) by lia.
      split; [done|]. split; [lia|]. constructor; [lia|done].
  - destruct (IH (S i) best Hl') as [[E Hf]|(q & Hi & Hq & Hlt & Hf)].
    + left. split; [done|]. by constructor.
    + right. exists q. split; [lia|]. replace (least (S i) best (Some <$> l) - i)%nat with (S (least (S i) best (Some <$> l) - S i)) by lia.
      split; [done|]. split; [done|]. constructor; [lia|done].
Qed.

Lemma file_id_update ts p : file_id (update ts p) = file_id p.
Proof. done. Qed.

Lemma in_use_insert l t j q f : in_use l t -> (j < length l)%nat -> NoDup (file_id <$> <[j := q]> l) ->
  f = <[j := Some q]> (patterns t) -> in_use (<[j := q]> l) (mkTracker f (count t)).
Proof.
  intros [Hp Hc Hr Hn] Hj Hnd ->. constructor; cbn [patterns count]; rewrite ?length_insert; try done.
  rewrite Hp, insert_app_l by (by rewrite length_fmap). by rewrite list_fmap_insert.
Qed.

Lemma in_use_append l t q : in_use l t -> (length l < MAX_ACCESS_PATTERNS)%nat -> file_id q ∉ (file_id <$> l) ->
  in_use (l ++ [q]) (mkTracker (<[count t := Some q]> (patterns t)) (S (count t))).
Proof.
  intros [Hp Hc Hr Hn] Hl Hq. constructor; cbn [patterns count].
  - rewrite Hp, Hc, length_app. cbn [length]. rewrite insert_app_r_alt by (rewrite length_fmap; lia).
    rewrite length_fmap, Nat.sub_diag, fmap_app, <- app_assoc. f_equal.
    replace (MAX_ACCESS_PATTERNS - length l)%nat with (S (MAX_ACCESS_PATTERNS - (length l + 1)))%nat by lia. done.
  - rewrite length_app. cbn. lia.
  - rewrite length_app. cbn. lia.
  - rewrite fmap_app. apply NoDup_app. split; [done|]. split; [|apply NoDup_singleton].
    intros x Hx Hx'. apply list_elem_of_singleton in Hx' as ->. done.
Qed.

(** Replacing a pattern keeps the file numbers different when the new one is the
    same or occurs nowhere else. *)
Lemma NoDup_replace (l : list AccessPattern) (j : nat) p q : NoDup (file_id <$> l) -> l !! j = Some p ->
  file_id q = file_id p \/ file_id q ∉ (file_id <$> l) -> NoDup (file_id <$> <[j := q]> l).
Proof.
  intros Hn Hj Hq. rewrite list_fmap_insert. apply NoDup_alt. intros a b x Ha Hb. rewrite NoDup_alt in Hn.
  assert (forall i y, (file_id <$> l) !! i = Some y -> y ∈ (file_id <$> l)) as Hin by (intros; by eapply list_elem_of_lookup_2).
  assert ((file_id <$> l) !! j = Some (file_id p)) as Hj' by (by rewrite list_lookup_fmap, Hj).
  apply list_lookup_insert_Some in Ha as [(Ea & Xa & _)|[Hja Ha]]; apply list_lookup_insert_Some in Hb as [(Eb & Xb & _)|[Hjb Hb]].
  - congruence.
  - subst a x. destruct Hq as [E|Hno]; [|by apply Hin in Hb]. rewrite E in Hb. by apply (Hn j b (file_id p)).
  - subst b x. destruct Hq as [E|Hno]; [|by apply Hin in Ha]. rewrite E in Ha. by apply (Hn a j (file_id p)).
  - by apply (Hn a b x).
Qed.

(** What one access does to the list of patterns. *)
Inductive accessed (file ts : Z) (l : list AccessPattern) : list AccessPattern -> Prop :=
| acc_known (j : nat) p : l !! j = Some p -> file_id p = file -> accessed file ts l (<[j := update ts p]> l)
| acc_new : file ∉ (file_id <$> l) -> (length l < MAX_ACCESS_PATTERNS)%nat -> accessed file ts l (l ++ [AccessPattern_new file ts])
| acc_evict (j : nat) p : file ∉ (file_id <$> l) -> length l = MAX_ACCESS_PATTERNS -> l !! j = Some p ->
    Forall (fun q => access_count p <= access_count q) l -> accessed file ts l (<[j := AccessPattern_new file ts]> l).

Lemma record_access_spec file ts l t : in_use l t -> Forall (fun p => in_width 32 (access_count p)) l ->
  exists l', in_use l' (record_access file ts t) /\ accessed file ts l l'.
Proof.
  intros H Hw. unfold record_access, find_pattern. rewrite (in_use_take l t H).
  pose proof (find_from_spec file l 0) as Hf. destruct (find_from 0 file (Some <$> l)) as [[j p]|].
  - destruct Hf as (_ & Hj & Hp). rewrite Nat.sub_0_r in Hj. exists (<[j := update ts p]> l). split; [|by apply acc_known].
    apply (in_use_insert l t j _ _ H); [by eapply lookup_lt_Some| |done]. apply (NoDup_replace l j p); [apply H|done|by left].
  - rewrite (iu_count _ _ H). destruct (Nat.ltb_spec (length l) MAX_ACCESS_PATTERNS) as [Hl|Hl].
    + exists (l ++ [AccessPattern_new file ts]). split; [|by apply acc_new].
      pose proof (in_use_append l t (AccessPattern_new file ts) H Hl Hf) as Ha. by rewrite (iu_count _ _ H) in Ha.
    + assert (length l = MAX_ACCESS_PATTERNS) as Hlen by (pose proof (iu_room _ _ H); lia).
      assert (exists p, l !! least 0 (2 ^ 32 - 1, 0%nat) (Some <$> l) = Some p /\ Forall (fun q => access_count p <= access_count q) l) as (p & Hp & Hmin).
      { destruct (least_spec l 0 (2 ^ 32 - 1, 0%nat)) as [[E Hall]|(p & _ & Hp & _ & Hall)].
        - eapply Forall_impl; [exact Hw|]. unfold in_width. cbn. lia.
        - rewrite E. cbn [fst snd] in *. destruct l as [|p l]; [unfold MAX_ACCESS_PATTERNS in Hlen; cbn in Hlen; lia|]. exists p. split; [done|].
          inversion_clear Hw as [|? ? Hp _]. eapply Forall_impl; [exact Hall|]. unfold in_width in Hp. cbn. lia.
        - exists p. rewrite Nat.sub_0_r in Hp. done. }
      set (j := least _ _ _) in *. exists (<[j := AccessPattern_new file ts]> l). split; [|by apply (acc_evict file ts l j p)].
      rewrite <- (iu_count _ _ H). apply (in_use_insert l t j _ _ H); [by eapply lookup_lt_Some| |done].
      apply (NoDup_replace l j p); [apply H|done|by right].
Qed.

(** *** Hot files *)

Lemma insert_before_perm before x l : insert_before before x l ≡ₚ x :: l.
Proof. induction l as [|y l IH]; cbn; [done|]. destruct (before x y); [done|]. rewrite IH. apply Permutation_swap. Qed.

Lemma sort_before_perm before l : sort_before before l ≡ₚ l.
Proof.
  unfold sort_before. assert (forall acc, foldl (fun acc x => insert_before before x acc) acc l ≡ₚ l ++ acc) as Hg.
  { induction l as [|x l IH]; intros acc; cbn; [done|]. rewrite IH, insert_before_perm. by rewrite Permutation_middle. }
  by rewrite Hg, app_nil_r.
Qed.

(** Sorted by a measure, the largest first. *)
Definition descending (f : Z -> Z) (l : list Z) : Prop := StronglySorted (fun a b => f b <= f a) l.

Lemma insert_before_sorted f x l : descending f l -> descending f (insert_before (fun a b => f b <? f a) x l).
Proof.
  induction 1 as [|y l Hs IH Hy]; cbn; [repeat constructor|]. destruct (Z.ltb_spec (f y) (f x)).
  - constructor; [by constructor|]. constructor; [lia|]. eapply List.Forall_impl; [|exact Hy]. cbn. lia.
  - constructor; [exact IH|]. rewrite insert_before_perm. constructor; [lia|done].
Qed.

Lemma sort_before_sorted f l : descending f (sort_before (fun a b => f b <? f a) l).
Proof.
  unfold sort_before. assert (forall acc, descending f acc -> descending f (foldl (fun acc x => insert_before (fun a b => f b <? f a) x acc) acc l)) as Hg.
  { induction l as [|x l IH]; intros acc H; cbn; [done|]. by apply IH, insert_before_sorted. }
  apply Hg. constructor.
Qed.

Lemma count_of_tracked l t p : in_use l t -> p ∈ l -> count_of (file_id p) t = access_count p.
Proof.
  intros H Hp. unfold count_of. rewrite (iu_patterns _ _ H), omap_app, omap_some, omap_none, app_nil_r.
  pose proof (iu_files _ _ H) as Hn. clear H. induction l as [|q l IH]; [by apply elem_of_nil in Hp|]. cbn [List.find].
  rewrite fmap_cons in Hn. apply NoDup_cons in Hn as [Hq Hn]. apply elem_of_cons in Hp as [->|Hp]; [by rewrite Z.eqb_refl|].
  destruct (Z.eqb_spec (file_id q) (file_id p)) as [E|]; [|by apply IH]. exfalso. apply Hq. rewrite E. by apply list_elem_of_fmap_2.
Qed.

(** ** The properties *)

(** Recording an access keeps the tracker a set of patterns in its first slots,
    one for each file: the pattern of a known file is brought up to date, a new
    file gets the next free slot, and when all 128 are taken it replaces a file
    that was accessed least often.  The hot files are exactly the files with the
    accesses asked for, the most accessed first. *)
Theorem tracker_correct file ts min l t : in_use l t -> Forall (fun p => in_width 32 (access_count p)) l ->
  (exists l', in_use l' (record_access file ts t) /\ accessed file ts l l') /\
  get_hot_files min t ≡ₚ file_id <$> filter (fun p => min <= access_count p) l /\
  descending (fun f => count_of f t) (get_hot_files min t) /\
  Forall (fun p => count_of (file_id p) t = access_count p) l.
Proof.
  intros H Hw. split; [by apply record_access_spec|]. unfold get_hot_files. rewrite (in_use_tracked l t H).
  split; [apply sort_before_perm|]. split; [apply (sort_before_sorted (fun f => count_of f t))|]. apply Forall_forall. intros p Hp. by apply (count_of_tracked l).
Qed.

(** *** Averages *)

(** A pattern whose times are at most [T]. *)
Record timely (T : Z) (p : AccessPattern) : Prop := {
  tm_count : in_width 32 (access_count p);
  tm_last : 0 <= last_access p <= T;
  tm_avg : 0 <= avg_interval p <= T;
  tm_var : 0 <= variance p <= T;
  tm_next : 0 <= predicted_next p <= 2 * T;
}.

(** A running mean of numbers up to [T] is up to [T]. *)
Lemma mean_bound T a n x : 0 <= a <= T -> 0 <= x <= T -> 0 <= n < 2 ^ 32 -> T < 2 ^ 32 ->
  0 <= ((a *[64] n) +[64] x) / (n +[64] 1) <= T.
Proof.
  intros Ha Hx Hn HT. rewrite (wrap_small 64 (a * n)) by (unfold in_width; nia). rewrite (wrap_small 64 (a * n + x)) by (unfold in_width; nia).
  rewrite (wrap_small 64 (n + 1)) by (unfold in_width; lia). split; [apply Z.div_pos; nia|]. apply Z.lt_succ_r, Z.div_lt_upper_bound; nia.
Qed.

(** While time stays below 2^32 no arithmetic on a pattern overflows: the
    averages of intervals between accesses up to time [T] are at most [T], the
    next access is predicted before [2 T], and the confidence is a percentage. *)
Theorem pattern_bounds T p ts : T < 2 ^ 32 -> timely T p -> 0 <= ts <= T ->
  timely T (update ts p) /\ 0 <= prediction_confidence p <= 100.
Proof.
  intros HT [Hc Hl Ha Hv Hn] Hts. split.
  - assert (0 <= sat_sub ts (last_access p) <= T) as Hi by (unfold sat_sub; lia). unfold in_width in Hc.
    pose proof (mean_bound T (avg_interval p) (access_count p) (sat_sub ts (last_access p)) Ha Hi Hc HT) as Hm.
    unfold update. constructor; cbn [access_count last_access avg_interval variance predicted_next].
    + by apply wrap_in_width.
    + done.
    + done.
    + apply mean_bound; try done. destruct (Z.ltb_spec (avg_interval p) (sat_sub ts (last_access p))); lia.
    + rewrite wrap_small by (unfold in_width; lia). lia.
  - unfold prediction_confidence. unfold in_width in Hc. destruct (Z.ltb_spec (access_count p) 3); [lia|].
    destruct (Z.eqb_spec (avg_interval p) 0); [lia|].
    assert (0 <= (variance p *[64] 100) / avg_interval p) by (apply Z.div_pos; [apply wrap_in_width|]; lia).
    split; [apply Z.div_pos; lia|]. apply Z.lt_succ_r, Z.div_lt_upper_bound; lia.
Qed.

(** *** The states *)

Lemma get_set_state s d : get_system_state (set_state s d) = s.
Proof. by destruct s. Qed.

Lemma get_state_idle i d : get_system_state (set_idle i d) = get_system_state d.
Proof. done. Qed.

Lemma cycle_frame d : get_system_state d = Dreaming \/ get_system_state d = Active \/ get_system_state d = DeepDream ->
  SYSTEM_STATE (dream_cycle d) = SYSTEM_STATE d /\ IDLE_CYCLES (dream_cycle d) = IDLE_CYCLES d.
Proof.
  intros H. unfold dream_cycle. set (d1 := set_counters _ _ _ _ d). change (get_system_state d1) with (get_system_state d).
  destruct H as [->|[->| ->]]; [|done|done]. unfold do_light_compaction, do_prediction_work.
  destruct (_ mod DREAM_PREDICT_INTERVAL =? 0), (_ mod DREAM_COMPACT_INTERVAL =? 0);
    cbv zeta; try (destruct (predict_next_file _)); done.
Qed.

(** How long the system has idled in each state. *)
Definition settled (d : Dream) : Prop :=
  match get_system_state d with
  | Active => 0 <= IDLE_CYCLES d <= DREAM_THRESHOLD
  | Dreaming => DREAM_THRESHOLD < IDLE_CYCLES d <= DEEP_DREAM_THRESHOLD
  | DeepDream => DEEP_DREAM_THRESHOLD < IDLE_CYCLES d
  | Awakening => 0 <= IDLE_CYCLES d
  end.

Lemma settled_idle_nonneg d : settled d -> 0 <= IDLE_CYCLES d.
Proof. unfold settled, DREAM_THRESHOLD, DEEP_DREAM_THRESHOLD. destruct (get_system_state d); lia. Qed.

Lemma state_of_note t d : get_system_state (note t d) = get_system_state d /\ IDLE_CYCLES (note t d) = IDLE_CYCLES d.
Proof. done. Qed.

Lemma settled_step e d : settled d -> IDLE_CYCLES d + 1 < 2 ^ 64 ->
  settled (dream_step e d) /\ IDLE_CYCLES (dream_step e d) <= IDLE_CYCLES d + 1.
Proof.
  intros H Hw. pose proof (settled_idle_nonneg d H) as H0. destruct e; cbn [dream_step].
  - unfold increment_idle. rewrite wrap_small by (unfold in_width; lia). rewrite get_state_idle. unfold settled in H.
    destruct (get_system_state d) eqn:E; unfold DREAM_THRESHOLD, DEEP_DREAM_THRESHOLD in *.
    + destruct (Z.leb_spec 1000 (IDLE_CYCLES d)); unfold settled, enter_dream_state, DREAM_THRESHOLD, DEEP_DREAM_THRESHOLD.
      * rewrite (proj1 (state_of_note _ _)), get_set_state, (proj2 (state_of_note _ _)). cbn. lia.
      * rewrite get_state_idle, E. cbn. lia.
    + destruct (Z.leb_spec 5000 (IDLE_CYCLES d)); unfold settled, DREAM_THRESHOLD, DEEP_DREAM_THRESHOLD.
      * rewrite get_set_state. cbn. lia.
      * rewrite get_state_idle, E. cbn. lia.
    + unfold settled, DEEP_DREAM_THRESHOLD. rewrite get_state_idle, E. cbn. lia.
    + unfold settled. rewrite get_state_idle, E. cbn. lia.
  - unfold reset_idle. rewrite get_state_idle. destruct (decide (get_system_state d = Active)) as [E|E].
    + unfold settled. rewrite get_state_idle, E. unfold DREAM_THRESHOLD. cbn. lia.
    + destruct (100 <? IDLE_CYCLES d); unfold settled, exit_dream_state, DREAM_THRESHOLD.
      * rewrite get_set_state. cbn. lia.
      * rewrite (proj1 (state_of_note _ _)), get_state_idle, get_set_state, (proj2 (state_of_note _ _)). cbn. lia.
  - destruct (decide (get_system_state d = Awakening)) as [E|E].
    + unfold dream_cycle. set (d1 := set_counters _ _ _ _ d). change (get_system_state d1) with (get_system_state d).
      change (IDLE_CYCLES d1) with (IDLE_CYCLES d). rewrite E. destruct (AWAKENING_GRACE <? IDLE_CYCLES d).
      * unfold settled, exit_dream_state, DREAM_THRESHOLD.
        rewrite (proj1 (state_of_note _ _)), get_state_idle, get_set_state, (proj2 (state_of_note _ _)). cbn. lia.
      * unfold settled. change (get_system_state d1) with (get_system_state d). rewrite E. change (IDLE_CYCLES d1) with (IDLE_CYCLES d). lia.
    + destruct (cycle_frame d) as [E1 E2]; [destruct (get_system_state d); tauto|]. unfold settled, get_system_state in *. rewrite E1, E2. split; [done|lia].
Qed.

(** Whatever idling, input and dream cycles follow each other, the system dreams
    only after more than 1000 idle rounds and dreams deeply only after more than
    5000, and it is never active with more than 1000 behind it. *)
Theorem dream_states es d : get_system_state d = Active -> IDLE_CYCLES d = 0 -> Z.of_nat (length es) < 2 ^ 64 ->
  settled (run es d) /\ IDLE_CYCLES (run es d) <= Z.of_nat (length es).
Proof.
  intros Es Ei. unfold run. induction es as [|e es IH] using rev_ind; intros Hl.
  - cbn [foldl]. unfold settled. rewrite Es, Ei. unfold DREAM_THRESHOLD. cbn. lia.
  - rewrite length_app in *. cbn [length] in *. rewrite foldl_app. cbn [foldl]. destruct IH as [H1 H2]; [lia|].
    destruct (settled_step e _ H1) as [H3 H4]; [lia|]. split; [done|lia].
Qed.

Definition idles (es : list dream_event) : Z := Z.of_nat (length (filter (fun e => e = Idle) es)).

(** The system never stays half awake: from [Awakening], once more than a hundred
    idle rounds have passed without input - in whatever order with dream cycles -
    the next dream cycle at the latest makes it active; and input within the first
    hundred makes it active at once. *)
Theorem awakening_ends es : forall d, get_system_state d = Awakening -> 0 <= IDLE_CYCLES d ->
  Input ∉ es -> AWAKENING_GRACE < IDLE_CYCLES d + idles es -> IDLE_CYCLES d + Z.of_nat (length es) < 2 ^ 64 ->
  (exists n, (n <= length es + 1)%nat /\ get_system_state (run (take n (es ++ [Cycle])) d) = Active) /\
  (IDLE_CYCLES d <= AWAKENING_GRACE -> get_system_state (reset_idle d) = Active).
Proof.
  intros d Hs H0 Hin Hg Hw. split.
  2:{ intros Hi. unfold reset_idle, AWAKENING_GRACE in *. rewrite get_state_idle, Hs. cbn [decide]. rewrite decide_False by done.
      rewrite (proj2 (Z.ltb_ge _ _)) by lia. done. }
  assert (forall d, get_system_state d = Awakening -> AWAKENING_GRACE < IDLE_CYCLES d -> get_system_state (dream_cycle d) = Active) as Hwake.
  { intros d' Hs' Hi. unfold dream_cycle. set (d1 := set_counters _ _ _ _ d'). change (get_system_state d1) with (get_system_state d').
    change (IDLE_CYCLES d1) with (IDLE_CYCLES d'). rewrite Hs', (proj2 (Z.ltb_lt _ _)) by done. done. }
  revert d Hs H0 Hg Hw. induction es as [|e es IH]; intros d Hs H0 Hg Hw.
  - exists 1%nat. split; [done|]. cbn. apply Hwake; [done|]. unfold idles in Hg. cbn in Hg. lia.
  - apply not_elem_of_cons in Hin as [He Hin]. specialize (IH Hin). cbn [length] in Hw. destruct e; [|done|].
    + assert (get_system_state (increment_idle d) = Awakening /\ IDLE_CYCLES (increment_idle d) = IDLE_CYCLES d + 1) as [E1 E2].
      { unfold increment_idle. rewrite wrap_small by (unfold in_width; lia). rewrite get_state_idle, Hs. done. }
      assert (idles (Idle :: es) = 1 + idles es) as Ei by (unfold idles; rewrite filter_cons_True by done; cbn [length]; lia).
      destruct (IH (increment_idle d)) as (n & Hn & E); [done|lia|lia|lia|]. exists (S n). split; [cbn; lia|exact E].
    + assert (idles (Cycle :: es) = idles es) as Ei by (unfold idles; by rewrite filter_cons_False).
      destruct (Z.ltb_spec AWAKENING_GRACE (IDLE_CYCLES d)) as [Hlt|Hle].
      * exists 1%nat. split; [cbn; lia|]. by apply Hwake.
      * assert (get_system_state (dream_cycle d) = Awakening /\ IDLE_CYCLES (dream_cycle d) = IDLE_CYCLES d) as [E1 E2].
        { unfold dream_cycle. set (d1 := set_counters _ _ _ _ d). change (get_system_state d1) with (get_system_state d).
          change (IDLE_CYCLES d1) with (IDLE_CYCLES d). rewrite Hs, (proj2 (Z.ltb_ge _ _)) by done. done. }
        destruct (IH (dream_cycle d)) as (n & Hn & E); [done|lia|lia|lia|]. exists (S n). split; [cbn; lia|exact E].
Qed.

(** The confidence in a file that is read at perfectly even intervals goes down
    the more often it is read. *)
Theorem confidence_falls_with_use :
  prediction_confidence (mkPattern 1 3 0 0 10 0) = 99 /\ prediction_confidence (mkPattern 1 100 0 0 10 0) = 66.
Proof. split; reflexivity. Qed.

(** ** Witnesses *)

Definition demo_patterns : list AccessPattern := [mkPattern 4 5 90 110 20 1; mkPattern 9 2 80 0 0 0; mkPattern 6 12 95 100 5 0].
Definition demo_tracker : AccessPatternTracker := mkTracker ((Some <$> demo_patterns) ++ replicate 125 None) 3.

Lemma tracker_correct_witness : get_hot_files 3 demo_tracker = [6; 4] /\ exists l', in_use l' (record_access 7 100 demo_tracker).
Proof.
  destruct (tracker_correct 7 100 3 demo_patterns demo_tracker) as ((l' & H & _) & _).
  - constructor; [reflexivity|reflexivity|unfold MAX_ACCESS_PATTERNS; cbn; lia|by apply (bool_decide_unpack _)].
  - repeat (apply Forall_cons; split; [split; [discriminate|reflexivity]|]). by apply Forall_nil.
  - split; [vm_compute; reflexivity|exists l'; exact H].
Defined.

Lemma pattern_bounds_witness : timely 1000 (update 115 (mkPattern 4 5 90 110 20 1)) /\ 0 <= prediction_confidence (mkPattern 4 5 90 110 20 1) <= 100.
Proof.
  apply (pattern_bounds 1000 (mkPattern 4 5 90 110 20 1) 115); [reflexivity| |lia].
  constructor; cbn; unfold in_width; lia.
Defined.

Definition fresh : Dream := mkDream 0 0 0 0 0 0 (Some Tracker_new) start 0.

Lemma dream_states_witness : get_system_state (run (replicate 1001 Idle) fresh) = Dreaming /\ settled (run (replicate 1001 Idle) fresh).
Proof. split; [vm_compute; reflexivity|]. apply (dream_states (replicate 1001 Idle) fresh); reflexivity. Defined.

Lemma awakening_ends_witness : exists n, get_system_state (run (take n (replicate 101 Idle ++ [Cycle])) (set_state Awakening fresh)) = Active.
Proof.
  destruct (awakening_ends (replicate 101 Idle) (set_state Awakening fresh)) as ((n & _ & E) & _).
  - reflexivity.
  - discriminate.
  - by apply (bool_decide_unpack _).
  - reflexivity.
  - reflexivity.
  - exists n. exact E.
Defined.
