(* ===== verification/Intent.v ===== *)
(** * Intents ([reality/intent.rs])

    The second interface of the system: a request says what is wanted, and the
    handler turns it into calls of the region allocator, the filesystem, the access
    tracker and the log of causes.  Theorems: which requests panic and that all others
    are answered; what each intent can change; that stored data is read back; and that
    answers decode to what the parts computed. *)

From Stdlib Require Import ZArith Lia Bool.
From stdpp Require Import base numbers option list gmap sets strings.
From S2P Require Import Prelude Bytes Frame Paging Mapping Fractal BlockDevice PsychicFs Causality Dream.

Open Scope Z_scope.

(** ** Requests and responses *)

Inductive Intent : Type :=
| NeedMemory | ReleaseMemory | ShareMemory
| ReadData | WriteData | StreamData
| SpawnTask | JoinTask | ForkReality | MergeReality
| FindFile | StoreFile | OrganizeFiles
| CheckpointIntent | RollbackIntent | QueryCausality.

#[global] Instance Intent_eq_dec : EqDecision Intent.
Proof. solve_decision. Defined.

Definition intent_code (i : Intent) : Z :=
  match i with
  | NeedMemory => 0x0100 | ReleaseMemory => 0x0101 | ShareMemory => 0x0102
  | ReadData => 0x0200 | WriteData => 0x0201 | StreamData => 0x0202
  | SpawnTask => 0x0300 | JoinTask => 0x0301 | ForkReality => 0x0302 | MergeReality => 0x0303
  | FindFile => 0x0400 | StoreFile => 0x0401 | OrganizeFiles => 0x0402
  | CheckpointIntent => 0x0500 | RollbackIntent => 0x0501 | QueryCausality => 0x0502
  end.

(** The two hints stay the bytes they are; nothing reads them. *)
Record MemoryContext : Type := mkMemoryContext { size_hint : Z; access_pattern : Z; locality_hint : Z }.

(** The structure has 16 bytes, the last six of them padding. *)
Definition MEMORY_CONTEXT_SIZE : nat := 16.

Record IntentRequest : Type := mkRequest { intent : Intent; priority : Z; context : list Z; context_len : Z }.

(** [gaps] is what the padding holds. *)
Definition memory_context_bytes (gaps : list Z) (c : MemoryContext) : list Z := le 8 (size_hint c) ++ [access_pattern c; locality_hint c] ++ gaps.

Definition IntentRequest_memory (gaps : list Z) (sz pattern locality : Z) : IntentRequest :=
  mkRequest NeedMemory 5 (blit 0 (memory_context_bytes gaps (mkMemoryContext sz pattern locality)) (replicate 128 0)) (Z.of_nat MEMORY_CONTEXT_SIZE).

Definition get_memory_context (r : IntentRequest) : option MemoryContext :=
  if Z.of_nat MEMORY_CONTEXT_SIZE <=? context_len r then Some (mkMemoryContext (get 0 8 (context r)) (get 8 1 (context r)) (get 9 1 (context r))) else None.

Record IntentResponse : Type := mkResponse { success : bool; result_code : Z; response_data : list Z; data_len : Z }.

Definition response_success (code : Z) : IntentResponse := mkResponse true code (replicate 256 0) 0.

Definition success_with_data (code : Z) (bs : list Z) : IntentResponse :=
  let len := Nat.min (length bs) 256 in
  mkResponse true code (blit 0 (take len bs) (replicate 256 0)) (Z.of_nat len).

Definition response_error (code : Z) : IntentResponse := mkResponse false code (replicate 256 0) 0.

(** [trim_end_matches('\0')]. *)
Fixpoint trim_zeros (s : list Z) : list Z :=
  match s with
  | [] => []
  | b :: r => match trim_zeros r with [] => if b =? 0 then [] else [b] | t => b :: t end
  end.

Fixpoint is_prefix (p s : list Z) : bool :=
  match p, s with [], _ => true | a :: p, b :: s => (a =? b) && is_prefix p s | _ :: _, [] => false end.

(** [file.contains(pattern)]. *)
Fixpoint contains_bytes (p s : list Z) : bool :=
  is_prefix p s || match s with [] => false | _ :: r => contains_bytes p r end.

(** ** The handlers *)

(** What ends a handler without a response: a slice that is out of range, or a chain of
    causes that never ends. *)
Inductive IntentFault : Type := SliceRange | EndlessChain.

(** The parts that intents reach. *)
Record IntentOS (S D : Type) : Type := mkIntentOS {
  in_dream : Dream; in_fractal : option FractalAllocator; in_vm : VM S; in_fs : World D
}.
Arguments mkIntentOS {S D} _ _ _ _.
Arguments in_dream {S D} _.
Arguments in_fractal {S D} _.
Arguments in_vm {S D} _.
Arguments in_fs {S D} _.

Section Intents.
Context `{Machine} {S D : Type} `{FS : FrameSource S} `{BD : BlockDevice D}.

(** The tables of the kernel. *)
Context (p4 : Z).

Notation Handler := (M (IntentOS S D) IntentFault).

Definition set_dream (d : Dream) (s : IntentOS S D) : IntentOS S D := mkIntentOS d (in_fractal s) (in_vm s) (in_fs s).
Definition set_regions (a : option FractalAllocator) (m : VM S) (s : IntentOS S D) : IntentOS S D := mkIntentOS (in_dream s) a m (in_fs s).
Definition set_files (w : World D) (s : IntentOS S D) : IntentOS S D := mkIntentOS (in_dream s) (in_fractal s) (in_vm s) w.

Definition in_reality (s : IntentOS S D) : Reality := reality (in_dream s).
Definition set_in_reality (r : Reality) (s : IntentOS S D) : IntentOS S D := set_dream (Dream.set_reality r (in_dream s)) s.

Definition log_cause (t : CausalEventType) (bytes : list Z) : Handler unit := fun s =>
  (Ok tt, set_in_reality (log_event t None (raw bytes) (now (in_dream s)) (in_reality s)).2 s).

(** A call into the filesystem that may fail. *)
Definition try_fs {A} (f : Fs A) : Handler (option A) := fun s =>
  match f (in_fs s) with (Ok a, w) => (Ok (Some a), set_files w s) | (Err _, w) => (Ok None, set_files w s) end.

Definition gets {A} (f : IntentOS S D -> A) : Handler A := fun s => (Ok (f s), s).
Definition modify (f : IntentOS S D -> IntentOS S D) : Handler unit := fun s => (Ok tt, f s).

(** The coordinates as they go into the response. *)
Definition coord_bytes (c : SpatialCoord) : list Z :=
  let data := replicate 256 0 in
  let data := blit 0 (le 8 (x c)) data in
  let data := blit 8 (le 8 (y c)) data in
  let data := blit 16 (le 8 (z c)) data in
  take 25 (<[24%nat := depth c]> data).

Definition handle_need_memory (r : IntentRequest) : Handler IntentResponse := fun s =>
  let sz := match get_memory_context r with Some c => size_hint c | None => 4096 end in
  match allocate_fractal_region p4 sz (in_fractal s) (in_vm s) with
  | (Ok c, a, m) => (Ok (success_with_data 0 (coord_bytes c)), set_regions a m s)
  | (Err _, a, m) => (Ok (response_error (-12)), set_regions a m s)
  end.

Definition handle_release_memory (r : IntentRequest) : Handler IntentResponse := ret (response_success 0).

(** The five intents that nothing implements. *)
Definition not_implemented (r : IntentRequest) : Handler IntentResponse := ret (response_error (-38)).

Definition handle_read_data (r : IntentRequest) : Handler IntentResponse :=
  if 0 <? context_len r then
    let name := take (Nat.min (Z.to_nat (context_len r)) 56) (context r) in
    if utf8_valid name then
      let trimmed := trim_zeros name in
      do_ modify (fun s => set_dream (record_file_access (wrap 32 (Z.of_nat (length trimmed))) (in_dream s)) s);
      do answer <- try_fs (fs_read trimmed);
      ret (match answer with
           | Some bs => success_with_data (to_i32 (Z.of_nat (length bs))) (take (Nat.min (length bs) 256) bs)
           | None => response_error (-2)
           end)
    else ret (response_error (-22))
  else ret (response_error (-22)).

Definition handle_write_data (r : IntentRequest) : Handler IntentResponse :=
  if 56 <? context_len r then
    let name := take 56 (context r) in
    if utf8_valid name then
      if Z.of_nat (length (context r)) <? context_len r then throw SliceRange
      else
        let bs := field 56 (Z.to_nat (context_len r) - 56) (context r) in
        do answer <- try_fs (fs_write (trim_zeros name) bs);
        ret (match answer with Some _ => response_success (to_i32 (Z.of_nat (length bs))) | None => response_error (-5) end)
    else ret (response_error (-22))
  else ret (response_error (-22)).

Definition handle_store_file : IntentRequest -> Handler IntentResponse := handle_write_data.

Definition handle_fork_reality (r : IntentRequest) : Handler IntentResponse :=
  do new_reality <- (fun s => let '(i, re) := RealityId_new (in_reality s) in (Ok i, set_in_reality re s));
  do_ log_cause Custom (replicate 32 0);
  do_ modify (fun s => set_in_reality (set_current_reality new_reality (in_reality s)) s);
  ret (response_success (to_i32 new_reality)).

Definition handle_merge_reality (r : IntentRequest) : Handler IntentResponse :=
  do_ modify (fun s => set_in_reality (set_current_reality RealityId_root (in_reality s)) s);
  ret (response_success 0).

Definition handle_find_file (r : IntentRequest) : Handler IntentResponse :=
  if 0 <? context_len r then
    let pattern := take (Nat.min (Z.to_nat (context_len r)) 56) (context r) in
    if utf8_valid pattern then
      do files <- gets (fun s => fs_list (in_fs s));
      ret (match List.find (contains_bytes (trim_zeros pattern)) files with
           | Some found => success_with_data 1 (take (Nat.min (length found) 256) found)
           | None => response_error (-2)
           end)
    else ret (response_error (-22))
  else ret (response_error (-22)).

Definition handle_organize_files (r : IntentRequest) : Handler IntentResponse :=
  do hot <- gets (fun s => match ACCESS_PATTERNS (in_dream s) with Some t => get_hot_files 10 t | None => [] end);
  ret (response_success (to_i32 (Z.of_nat (length hot)))).

(** The number that stands for a checkpoint. *)
Definition checkpoint_id (re events : Z) : Z := Z.lor (wrap 64 (Z.shiftl re 32)) (Z.land events 0xFFFFFFFF).

Definition handle_checkpoint (r : IntentRequest) : Handler IntentResponse :=
  do_ log_cause Checkpoint (replicate 32 0);
  do re <- gets (fun s => RealityId_current (in_reality s));
  do events <- gets (fun s => get_total_events (in_reality s));
  ret (response_success (to_i32 (checkpoint_id re events))).

Definition handle_rollback (r : IntentRequest) : Handler IntentResponse :=
  do_ log_cause Rollback (replicate 32 0);
  ret (response_error (-38)).

(** The loop that writes the identifiers of the events, from the [i]-th on. *)
Fixpoint put_ids (i : nat) (es : list CausalEvent) (data : list Z) : list Z :=
  match es with [] => data | e :: es => put_ids (Datatypes.S i) es (blit (8 + i * 8) (le 8 (id e)) data) end.

Definition chain_bytes (chain : list CausalEvent) : list Z :=
  let data := blit 0 (le 8 (Z.of_nat (length chain))) (replicate 256 0) in
  take (8 + Nat.min (length chain) 30 * 8) (put_ids 0 (take 30 chain) data).

Definition handle_query_causality (r : IntentRequest) : Handler IntentResponse :=
  do event_count <- gets (fun s => get_total_events (in_reality s));
  if 8 <=? context_len r then
    do answer <- gets (fun s => get_causal_chain (get 0 8 (context r)) (in_reality s));
    match answer with
    | Some chain => ret (success_with_data (to_i32 (Z.of_nat (length chain))) (chain_bytes chain))
    | None => throw EndlessChain
    end
  else ret (response_success (to_i32 event_count)).

Definition handler_of (i : Intent) : IntentRequest -> Handler IntentResponse :=
  match i with
  | NeedMemory => handle_need_memory
  | ReleaseMemory => handle_release_memory
  | ShareMemory | StreamData | SpawnTask | JoinTask => not_implemented
  | ReadData => handle_read_data
  | WriteData => handle_write_data
  | ForkReality => handle_fork_reality
  | MergeReality => handle_merge_reality
  | FindFile => handle_find_file
  | StoreFile => handle_store_file
  | OrganizeFiles => handle_organize_files
  | CheckpointIntent => handle_checkpoint
  | RollbackIntent => handle_rollback
  | QueryCausality => handle_query_causality
  end.

Definition handle_intent (r : IntentRequest) : Handler IntentResponse :=
  do_ log_cause Syscall ((intent_code (intent r)) mod 256 :: replicate 31 0);
  handler_of (intent r) r.

(** ** Responses *)

(** A well-formed response: a buffer of 256 bytes, zero behind its data, and a 32-bit code. *)
Record response_ok (a : IntentResponse) : Prop := {
  ro_data : length (response_data a) = 256%nat;
  ro_len : 0 <= data_len a <= 256;
  ro_rest : drop (Z.to_nat (data_len a)) (response_data a) = replicate (256 - Z.to_nat (data_len a)) 0;
  ro_code : - 2 ^ 31 <= result_code a < 2 ^ 31
}.

Definition i32 (c : Z) : Prop := - 2 ^ 31 <= c < 2 ^ 31.

Lemma to_i32_range v : i32 (to_i32 v).
Proof. unfold i32, to_i32. pose proof (Z.mod_pos_bound v (2 ^ 32) ltac:(done)). cbv zeta. destruct (Z.ltb_spec (v mod 2 ^ 32) (2 ^ 31)); lia. Qed.

Lemma empty_response b c : i32 c -> response_ok (mkResponse b c (replicate 256 0) 0).
Proof. intros Hc. constructor; cbn [response_data data_len result_code]; [apply length_replicate|lia|done|done]. Qed.

Lemma success_with_data_spec c bs : i32 c -> response_ok (success_with_data c bs) /\
  take (Z.to_nat (data_len (success_with_data c bs))) (response_data (success_with_data c bs)) = take 256 bs.
Proof.
  intros Hc. unfold success_with_data, blit. rewrite take_0. cbn [app plus]. set (n := Nat.min (length bs) 256). assert (length (take n bs) = n) as Hl by (rewrite length_take; lia).
  cbn [data_len response_data]. rewrite Nat2Z.id, drop_replicate, Hl. split.
  - constructor; cbn [response_data data_len result_code]; rewrite ?Nat2Z.id.
    + rewrite length_app, Hl, length_replicate. lia.
    + lia.
    + by rewrite drop_app_length'.
    + done.
  - rewrite take_app_length' by done. subst n. destruct (Nat.le_ge_cases (length bs) 256); [by rewrite Nat.min_l, !take_ge by lia|by rewrite Nat.min_r].
Qed.

(** ** Names *)

Lemma trim_zeros_replicate k : trim_zeros (replicate k 0) = [].
Proof. induction k as [|k IH]; [done|]. cbn [trim_zeros replicate]. by rewrite IH. Qed.

Lemma trim_zeros_app n k : 0 ∉ n -> trim_zeros (n ++ replicate k 0) = n.
Proof.
  induction n as [|b n IH]; intros Hn; [apply trim_zeros_replicate|]. apply not_elem_of_cons in Hn as [Hb Hn]. cbn [trim_zeros app]. rewrite IH by done.
  destruct n; [|done]. by rewrite (proj2 (Z.eqb_neq _ _)) by done.
Qed.

Lemma utf8_zeros k : utf8_valid (replicate k 0) = true.
Proof. induction k; [done|done]. Qed.

(** The text before valid text is valid when both together are. *)
Lemma utf8_app m : forall n, (length n <= m)%nat -> utf8_valid n = true -> forall r, utf8_valid (n ++ r) = utf8_valid r.
Proof.
  induction m as [|m IH]; intros [|a n] Hl Hn r; cbn [length] in Hl; try lia; try done. cbn [app utf8_valid] in *.
  destruct (a <? 128); [by apply IH; [lia|]|]. destruct n as [|b n]; [done|]. cbn [app length] in *.
  destruct ((0xC2 <=? a) && (a <=? 0xDF)); [apply andb_true_iff in Hn as [-> Hn]; cbn [andb]; by apply IH; [lia|]|]. destruct n as [|c n]; [done|]. cbn [app length] in *.
  destruct ((0xE0 <=? a) && (a <=? 0xEF)); [apply andb_true_iff in Hn as [-> Hn]; cbn [andb]; by apply IH; [lia|]|]. destruct n as [|d n]; [done|]. cbn [app length] in *.
  apply andb_true_iff in Hn as [-> Hn]. cbn [andb]. by apply IH; [lia|].
Qed.

Lemma utf8_padded n k : utf8_valid n = true -> utf8_valid (n ++ replicate k 0) = true.
Proof. intros Hn. rewrite (utf8_app (length n)) by done. apply utf8_zeros. Qed.

Lemma is_prefix_spec p s : is_prefix p s = true <-> exists r, s = p ++ r.
Proof.
  revert s. induction p as [|a p IH]; intros s; cbn [is_prefix app]; [split; [by exists s|done]|]. destruct s as [|b s]; [split; [done|by intros (r & ?)]|].
  rewrite andb_true_iff, Z.eqb_eq, IH. split; [intros [-> (r & ->)]; by exists r|intros (r & [= -> ->]); split; [done|by exists r]].
Qed.

Lemma contains_bytes_spec p s : contains_bytes p s = true <-> exists a b, s = a ++ p ++ b.
Proof.
  induction s as [|c s IH]; cbn [contains_bytes]; rewrite orb_true_iff, is_prefix_spec.
  - split; [intros [(r & ->)|]; [by exists [], r|done]|]. intros (a & b & E). left. exists b. by destruct a.
  - rewrite IH. split; [intros [(r & ->)|(a & b & ->)]; [by exists [], r|by exists (c :: a), b]|].
    intros ([|d a] & b & E); [left; by exists b|]. injection E as -> ->. right. by exists a, b.
Qed.

(** ** The log *)

(** There is a history behind the log, and room for [n] more events. *)
Definition logs (n : Z) (h : list CausalEvent) (re : Reality) : Prop :=
  match CAUSAL_LOG re with None => h = [] | Some l => shows h l /\ causes_precede h /\ Z.of_nat (length h) + n < 2 ^ 64 end.

Lemma causes_precede_snoc h e : causes_precede h -> cause_id e = None -> causes_precede (h ++ [e]).
Proof.
  intros Hh He k e' c Hk Hc. apply lookup_app_Some in Hk as [Hk|[Hle Hk]]; [by apply (Hh k e')|]. destruct (k - length h)%nat as [|[|j]]; try done. injection Hk as <-. congruence.
Qed.

(** What an event that a handler logs looks like. *)
Definition event_at (re : Reality) (h : list CausalEvent) (tm : Z) (t : CausalEventType) (bytes : list Z) : list CausalEvent :=
  match CAUSAL_LOG re with Some _ => [make_event (Z.of_nat (length h)) tm (CURRENT_REALITY_ID re) t None (raw bytes)] | None => [] end.

Lemma log_event_logs n h re t tm bytes : 0 <= n -> logs (n + 1) h re -> logs n (h ++ event_at re h tm t bytes) (log_event t None (raw bytes) tm re).2.
Proof.
  intros Hn. unfold logs, log_event, event_at. destruct (CAUSAL_LOG re) as [l|] eqn:E; [|intros ->; cbn [snd]; by rewrite E]. intros (Hs & Hp & Hl).
  destruct (log_shows h l t None (raw bytes) tm (CURRENT_REALITY_ID re) Hs ltac:(lia)) as [E2 Hs2]. rewrite E2. cbn [snd CAUSAL_LOG].
  split; [exact Hs2|]. split; [by apply causes_precede_snoc|]. rewrite length_app. cbn [length]. lia.
Qed.

Lemma log_event_id t c d tm re : CURRENT_REALITY_ID (log_event t c d tm re).2 = CURRENT_REALITY_ID re /\ (CAUSAL_LOG (log_event t c d tm re).2 = None <-> CAUSAL_LOG re = None).
Proof. unfold log_event. destruct (CAUSAL_LOG re) as [l|] eqn:E; [|cbn [snd]; by rewrite E]. destruct (log _ _ _ _ _ _). by cbn. Qed.

(** Chains of causes are found. *)
Lemma chain_found n h re i : logs n h re -> exists c, get_causal_chain i re = Some c.
Proof.
  unfold logs, get_causal_chain. destruct (CAUSAL_LOG re) as [l|]; [|by eauto]. intros (Hs & Hp & _). unfold chain_of.
  destruct (chain_loop_finds h l Hs Hp (length (events l)) (Some i)) as (c & E & _); [|by eauto]. rewrite (sh_events _ _ Hs), length_drop. unfold oldest. lia.
Qed.

(** ** Reading does not change a disk *)

Lemma read_blocks_state i ls : forall left (w : World D), (read_blocks i left ls w).2 = w.
Proof.
  induction ls as [|b ls IH]; intros left w; cbn [read_blocks]; [done|]. cbv zeta. unfold bindM. destruct (get_physical_block _ i) as [phys|].
  - unfold disk_read_sector. destruct (disk_read phys (PsychicFs.disk w)); [|done]. specialize (IH (left - Z.min left 512) w). destruct (read_blocks i _ ls w) as [[]]; exact IH.
  - specialize (IH (left - Z.min left 512) w). destruct (read_blocks i _ ls w) as [[]]; exact IH.
Qed.

Lemma fs_read_state n (w : World D) : (fs_read n w).2 = w.
Proof.
  unfold fs_read, bindM, find_inode_by_name. destruct (list_find _ _) as [[k x]|]; [|done]. destruct (_ =? 0); [done|]. apply read_blocks_state.
Qed.

(** ** What handlers do *)

(** The events of a request, with their data: its own, with the low byte of its code,
    and what the handler adds. *)
Definition own_events (i : Intent) : list (CausalEventType * list Z) :=
  match i with
  | ForkReality => [(Custom, replicate 32 0)] | CheckpointIntent => [(Checkpoint, replicate 32 0)] | RollbackIntent => [(Rollback, replicate 32 0)] | _ => []
  end.
Definition events_of (i : Intent) : list (CausalEventType * list Z) := (Syscall, intent_code i mod 256 :: replicate 31 0) :: own_events i.

(** These events as they stand in the log, numbered from [k] on. *)
Definition entries_from (re : Reality) (tm : Z) (k : nat) (evs : list (CausalEventType * list Z)) : list CausalEvent :=
  match CAUSAL_LOG re with
  | Some _ => imap (fun j (e : CausalEventType * list Z) => make_event (Z.of_nat (k + j)) tm (CURRENT_REALITY_ID re) e.1 None (raw e.2)) evs
  | None => []
  end.

(** The counter of events after [n] more. *)
Definition counted (re : Reality) (n : nat) : Z :=
  match CAUSAL_LOG re with Some _ => Nat.iter n (fun c => c +[64] 1) (CAUSAL_EVENT_COUNTER re) | None => CAUSAL_EVENT_COUNTER re end.

Lemma logs_weaken n m h re : m <= n -> logs n h re -> logs m h re.
Proof. intros Hn. unfold logs. destruct (CAUSAL_LOG re); [|done]. intros (H1 & H2 & H3). split; [done|]. split; [done|lia]. Qed.

(** From [s] to [s'] the log gains exactly these events and has room for [n] more. *)
Record gains (n : Z) (h : list CausalEvent) (evs : list (CausalEventType * list Z)) (s s' : IntentOS S D) : Prop := {
  ga_log : logs n (h ++ entries_from (in_reality s) (now (in_dream s)) (length h) evs) (in_reality s');
  ga_counter : CAUSAL_EVENT_COUNTER (in_reality s') = counted (in_reality s) (length evs);
  ga_off : CAUSAL_LOG (in_reality s') = None <-> CAUSAL_LOG (in_reality s) = None
}.

Lemma gains_nothing n h (s s' : IntentOS S D) : logs n h (in_reality s) -> CAUSAL_LOG (in_reality s') = CAUSAL_LOG (in_reality s) ->
  CAUSAL_EVENT_COUNTER (in_reality s') = CAUSAL_EVENT_COUNTER (in_reality s) -> gains n h [] s s'.
Proof.
  intros Hl E Ec. constructor; unfold entries_from, counted, logs in *; rewrite ?E; [|by destruct (CAUSAL_LOG _)|done].
  cbn [imap]. destruct (CAUSAL_LOG (in_reality s)); by rewrite app_nil_r.
Qed.

Lemma gains_event n h t bytes (s : IntentOS S D) : 0 <= n -> logs (n + 1) h (in_reality s) -> gains n h [(t, bytes)] s (log_cause t bytes s).2.
Proof.
  intros Hn Hl. constructor; [|unfold counted|apply log_event_id].
  - pose proof (log_event_logs n h (in_reality s) t (now (in_dream s)) bytes Hn Hl) as L. unfold event_at in L. unfold entries_from.
    cbn [imap fmap]. rewrite Nat.add_0_r. exact L.
  - change (in_reality (log_cause t bytes s).2) with (log_event t None (raw bytes) (now (in_dream s)) (in_reality s)).2. unfold log_event.
    destruct (CAUSAL_LOG (in_reality s)) as [l|]; [|done]. by destruct (log _ _ _ _ _ _).
Qed.

(** Two steps at the same time in the same reality. *)
Lemma gains_trans n m h evs evs' (s s1 s2 : IntentOS S D) : gains m h evs s s1 ->
  CURRENT_REALITY_ID (in_reality s1) = CURRENT_REALITY_ID (in_reality s) -> now (in_dream s1) = now (in_dream s) ->
  (forall h1, logs m h1 (in_reality s1) -> gains n h1 evs' s1 s2) -> gains n h (evs ++ evs') s s2.
Proof.
  intros [L1 C1 O1] Ei Et H2. destruct (H2 _ L1) as [L2 C2 O2]. unfold entries_from, counted in *. rewrite Ei, Et in L2. constructor; [| |by rewrite O2].
  - unfold entries_from. destruct (CAUSAL_LOG (in_reality s)) eqn:E.
    + destruct (CAUSAL_LOG (in_reality s1)) eqn:E1; [|discriminate (proj1 O1 eq_refl)]. rewrite <- app_assoc in L2. rewrite imap_app.
      rewrite length_app, length_imap in L2. unfold compose. erewrite (imap_ext _ _ evs'); [exact L2|]. intros k x Hx. cbn. do 2 f_equal. lia.
    + rewrite (proj2 O1 eq_refl) in L2. rewrite <- app_assoc in L2. exact L2.
  - unfold counted. destruct (CAUSAL_LOG (in_reality s)) eqn:E.
    + destruct (CAUSAL_LOG (in_reality s1)) eqn:E1; [|discriminate (proj1 O1 eq_refl)]. rewrite C2, C1, length_app, Nat.add_comm. symmetry. apply Nat.iter_add.
    + rewrite (proj2 O1 eq_refl) in C2. congruence.
Qed.

(** What happens to the numbers of the realities. *)
Record numbers (i : Intent) (re re' : Reality) : Prop := {
  nu_count : REALITY_COUNTER re' = match i with ForkReality => REALITY_COUNTER re +[64] 1 | _ => REALITY_COUNTER re end;
  nu_current : CURRENT_REALITY_ID re' = match i with ForkReality => REALITY_COUNTER re | MergeReality => RealityId_root | _ => CURRENT_REALITY_ID re end
}.

Lemma numbers_same i re re' : i <> ForkReality -> i <> MergeReality -> REALITY_COUNTER re' = REALITY_COUNTER re -> CURRENT_REALITY_ID re' = CURRENT_REALITY_ID re -> numbers i re re'.
Proof. intros H1 H2 E1 E2. constructor; by destruct i. Qed.

Lemma log_event_numbers t c d tm re : REALITY_COUNTER (log_event t c d tm re).2 = REALITY_COUNTER re /\ CURRENT_REALITY_ID (log_event t c d tm re).2 = CURRENT_REALITY_ID re.
Proof. unfold log_event. destruct (CAUSAL_LOG re); [|done]. by destruct (log _ _ _ _ _ _). Qed.

(** The state of the dream, its counters, and the clock. *)
Definition dream_numbers (d : Dream) : list Z :=
  [SYSTEM_STATE d; IDLE_CYCLES d; DREAM_CYCLES d; DREAM_COMPACTIONS d; DREAM_PREDICTIONS d; PREFETCHED_FILES d; now d].

(** The parts of the system outside the reality. *)
Record same_parts (i : Intent) (s s' : IntentOS S D) : Prop := {
  sp_memory : i <> NeedMemory -> in_fractal s' = in_fractal s /\ in_vm s' = in_vm s;
  sp_files : i <> WriteData -> i <> StoreFile -> in_fs s' = in_fs s;
  sp_patterns : i <> ReadData -> ACCESS_PATTERNS (in_dream s') = ACCESS_PATTERNS (in_dream s);
  sp_state : dream_numbers (in_dream s') = dream_numbers (in_dream s)
}.

Lemma same_parts_refl i s : same_parts i s s.
Proof. by constructor. Qed.

Lemma same_parts_log i t bytes s : same_parts i s (log_cause t bytes s).2.
Proof. by constructor. Qed.

Lemma same_parts_trans i s s1 s2 : same_parts i s s1 -> same_parts i s1 s2 -> same_parts i s s2.
Proof.
  intros [M1 F1 P1 A1] [M2 F2 P2 A2]. constructor.
  - intros Hi. destruct (M1 Hi), (M2 Hi). split; congruence.
  - intros H1 H2. rewrite F2, F1 by done. done.
  - intros Hi. rewrite P2, P1 by done. done.
  - congruence.
Qed.

(** The state in which the handler runs: the event of the call is logged. *)
Definition logged (r : IntentRequest) (s : IntentOS S D) : IntentOS S D := (log_cause Syscall (intent_code (intent r) mod 256 :: replicate 31 0) s).2.

Lemma handle_intent_run r s : handle_intent r s = handler_of (intent r) r (logged r s).
Proof. reflexivity. Qed.

Lemma logged_gains n r h s : 0 <= n -> logs (n + 1) h (in_reality s) -> gains n h [(Syscall, intent_code (intent r) mod 256 :: replicate 31 0)] s (logged r s).
Proof. apply gains_event. Qed.

(** What a handler with these events does to the whole system. *)
Definition effect (i : Intent) (h : list CausalEvent) (evs : list (CausalEventType * list Z)) (s s' : IntentOS S D) : Prop :=
  gains 0 h evs s s' /\ numbers i (in_reality s) (in_reality s') /\ same_parts i s s'.

(** A handler that leaves the log alone and touches its own part only. *)
Ltac quiet := split; [by apply gains_nothing|split; by constructor].

Lemma try_fs_state {A} (f : Fs A) s : (try_fs f s).2 = set_files (f (in_fs s)).2 s.
Proof. unfold try_fs. by destruct (f (in_fs s)) as [[]]. Qed.

Lemma set_files_same s : set_files (in_fs s) s = s.
Proof. by destruct s. Qed.

Lemma read_effect r h s : logs 0 h (in_reality s) -> effect ReadData h [] s (handle_read_data r s).2.
Proof.
  intros Hl. unfold handle_read_data. destruct (0 <? context_len r); [|quiet]. destruct (utf8_valid _); [|quiet]. unfold bindM, modify. set (n := trim_zeros _).
  set (s1 := set_dream _ s). pose proof (try_fs_state (fs_read n) s1) as E. rewrite fs_read_state, set_files_same in E. unfold ret, throw.
  assert ((in_fs s1 = in_fs s /\ in_reality s1 = in_reality s)) as (Ef & Er).
  { split; [done|]. subst s1. unfold in_reality, record_file_access, set_dream. cbn [in_dream]. by destruct (ACCESS_PATTERNS _). }
  assert (effect ReadData h [] s s1) as Hs.
  { split; [apply gains_nothing; [done|by rewrite Er|by rewrite Er]|]. split; [by apply numbers_same; rewrite ?Er|]. constructor; try done. subst s1. unfold record_file_access, set_dream. cbn [in_dream]. by destruct (ACCESS_PATTERNS _). }
  destruct (try_fs (fs_read n) s1) as [[a|e] s2]; cbn [snd] in *; by rewrite E.
Qed.

Lemma write_effect r h s i : i = WriteData \/ i = StoreFile -> logs 0 h (in_reality s) -> effect i h [] s (handle_write_data r s).2.
Proof.
  intros Hi Hl. assert (numbers i (in_reality s) (in_reality s)) as Hnum by (apply numbers_same; by destruct Hi as [-> | ->]). assert (effect i h [] s s) as Hsame by (split; [by apply gains_nothing|by split; [|constructor]]).
  unfold handle_write_data. destruct (56 <? context_len r); [|exact Hsame]. destruct (utf8_valid _); [|exact Hsame]. destruct (_ <? context_len r); [exact Hsame|].
  cbv zeta. unfold bindM, ret. match goal with |- context [try_fs ?f s] => pose proof (try_fs_state f s) as E; destruct (try_fs f s) as [[a|e] s2] end; cbn [snd] in *; rewrite E;
    (split; [by apply gains_nothing|split; [exact Hnum|constructor; try done; by destruct Hi as [-> | ->]]]).
Qed.

Lemma memory_effect r h s : logs 0 h (in_reality s) -> effect NeedMemory h [] s (handle_need_memory r s).2.
Proof.
  intros Hl. unfold handle_need_memory. destruct (allocate_fractal_region _ _ _ _) as [[[c|e] a] m]; quiet.
Qed.

Lemma handler_effect r h s : logs 1 h (in_reality s) -> effect (intent r) h (own_events (intent r)) s (handler_of (intent r) r s).2.
Proof.
  intros Hl1. pose proof (logs_weaken 1 0 h _ ltac:(lia) Hl1) as Hl.
  destruct (intent r); cbn [handler_of own_events]; try quiet; try (by apply memory_effect); try (by apply read_effect); try (apply write_effect; [by auto|done]).
  - unfold handle_fork_reality, bindM. destruct (RealityId_new (in_reality s)) as [i re] eqn:E. injection E as <- <-. set (re := mkReality _ _ _ _). set (s1 := set_in_reality re s).
    set (s2 := (log_cause Custom (replicate 32 0) s1).2).
    assert (gains 0 h [(Custom, replicate 32 0)] s1 s2) as G by (by apply (gains_event 0)). split; [|split; [|by constructor]].
    + destruct G as [G1 G2 G3]. constructor; [exact G1|exact G2|exact G3].
    + constructor; [|done]. exact (proj1 (log_event_numbers Custom None (raw (replicate 32 0)) (now (in_dream s)) re)).
  - unfold handle_find_file. destruct (0 <? context_len r); [|quiet]. destruct (utf8_valid _); quiet.
  - unfold handle_checkpoint. split; [by apply (gains_event 0)|]. split; [|by constructor]. apply numbers_same; try done; apply log_event_numbers.
  - unfold handle_rollback. split; [by apply (gains_event 0)|]. split; [|by constructor]. apply numbers_same; try done; apply log_event_numbers.
  - unfold handle_query_causality, bindM, gets. destruct (8 <=? context_len r); [|quiet]. destruct (get_causal_chain _ _); quiet.
Qed.

(** C20: What a request does to the whole system, apart from its answer.  When events are logged, the log
    gains exactly: the event of the request, with the low byte of the code of its intent, and
    after it one more for a fork, a checkpoint or a rollback; they have the next numbers, the time and the reality of
    the request and no cause, and the counter of events advances by as many.  The number of
    realities grows by one for a fork only; a fork enters the reality with the new number, a merge the root,
    and nothing else leaves the current one.  Memory changes by a request for memory only,
    files by a request to write only, the access patterns by reading only, and the state of the dream never. *)
Theorem intent_effects r h s : logs 2 h (in_reality s) ->
  let s' := (handle_intent r s).2 in let i := intent r in
  logs 0 (h ++ entries_from (in_reality s) (now (in_dream s)) (length h) (events_of i)) (in_reality s') /\
  (CAUSAL_LOG (in_reality s') = None <-> CAUSAL_LOG (in_reality s) = None) /\
  CAUSAL_EVENT_COUNTER (in_reality s') = counted (in_reality s) (length (events_of i)) /\
  numbers i (in_reality s) (in_reality s') /\ same_parts i s s'.
Proof.
  intros Hl s' i. subst s'. rewrite handle_intent_run. pose proof (logged_gains 1 r h s ltac:(lia) Hl) as G1. pose proof (ga_log _ _ _ _ _ G1) as L1.
  assert (REALITY_COUNTER (in_reality (logged r s)) = REALITY_COUNTER (in_reality s) /\ CURRENT_REALITY_ID (in_reality (logged r s)) = CURRENT_REALITY_ID (in_reality s)) as [Ec Ei] by apply log_event_numbers.
  destruct (handler_effect r _ _ L1) as (_ & [N1 N2] & Hp). rewrite Ec in N1, N2. rewrite Ei in N2.
  assert (gains 0 h (events_of i) s (handler_of (intent r) r (logged r s)).2) as [G C O].
  { apply (gains_trans 0 1 h [(Syscall, intent_code i mod 256 :: replicate 31 0)] (own_events i) s (logged r s)); [exact G1|exact Ei|done|]. intros h1 Lh. by apply (handler_effect r h1). }
  split; [exact G|]. split; [exact O|]. split; [exact C|]. split; [by constructor|]. apply (same_parts_trans _ s (logged r s)); [apply same_parts_log|exact Hp].
Qed.

(** ** Answers *)

Lemma answered c bs : i32 c -> response_ok (success_with_data c bs).
Proof. intros Hc. by apply success_with_data_spec. Qed.

Lemma handler_answers r h s : length (context r) = 128%nat -> logs 1 h (in_reality s) ->
  match (handler_of (intent r) r s).1 with
  | Ok a => response_ok a /\ ~ ((intent r = WriteData \/ intent r = StoreFile) /\ 128 < context_len r /\ utf8_valid (take 56 (context r)) = true)
  | Err f => f = SliceRange /\ (intent r = WriteData \/ intent r = StoreFile) /\ 128 < context_len r /\ utf8_valid (take 56 (context r)) = true
  end.
Proof.
  intros Hc Hl. assert (i32 (-2) /\ i32 (-5) /\ i32 (-12) /\ i32 (-22) /\ i32 (-38) /\ i32 0 /\ i32 1) as (I2 & I5 & I12 & I22 & I38 & I0 & I1) by (unfold i32; lia).
  assert (forall b v, response_ok (mkResponse b (to_i32 v) (replicate 256 0) 0)) as He by (intros; apply empty_response, to_i32_range).
  assert (forall i, i <> WriteData -> i <> StoreFile -> ~ ((i = WriteData \/ i = StoreFile) /\ 128 < context_len r /\ utf8_valid (take 56 (context r)) = true)) as Hn by (intros i H1 H2 [[]]; done).
  assert (forall i, i = WriteData \/ i = StoreFile -> match (handle_write_data r s).1 with
    | Ok a => response_ok a /\ ~ ((i = WriteData \/ i = StoreFile) /\ 128 < context_len r /\ utf8_valid (take 56 (context r)) = true)
    | Err f => f = SliceRange /\ (i = WriteData \/ i = StoreFile) /\ 128 < context_len r /\ utf8_valid (take 56 (context r)) = true end) as Hw.
  { intros i Hi. unfold handle_write_data. rewrite Hc. destruct (Z.ltb_spec 56 (context_len r)); [|split; [by apply empty_response|lia]].
    destruct (utf8_valid (take 56 (context r))); [|split; [by apply empty_response|intros (_ & _ & ?); done]]. destruct (Z.ltb_spec (Z.of_nat 128) (context_len r)); [split; [done|split; [done|split; [lia|done]]]|].
    unfold bindM, try_fs. destruct (fs_write _ _ _) as [[[]|e] w]; (split; [|lia]); [apply He|by apply empty_response]. }
  destruct (intent r); cbn [handler_of]; try (by apply Hw; auto); try (split; [by apply empty_response|by apply Hn]).
  - unfold handle_need_memory. destruct (allocate_fractal_region _ _ _ _) as [[[c|e] a] m]; (split; [|by apply Hn]); [by apply answered|by apply empty_response].
  - unfold handle_read_data. cbv zeta. destruct (0 <? context_len r); [|split; [by apply empty_response|by apply Hn]]. destruct (utf8_valid (take (_ `min` _) _)); [|split; [by apply empty_response|by apply Hn]].
    unfold bindM, modify, try_fs. destruct (fs_read _ _) as [[bs|e] w]; (split; [|by apply Hn]); [apply answered, to_i32_range|by apply empty_response].
  - split; [apply He|by apply Hn].
  - unfold handle_find_file. cbv zeta. destruct (0 <? context_len r); [|split; [by apply empty_response|by apply Hn]]. destruct (utf8_valid (take (_ `min` _) _)); [|split; [by apply empty_response|by apply Hn]].
    unfold bindM, gets. cbn [fst ret]. destruct (List.find _ _); (split; [|by apply Hn]); [by apply answered|by apply empty_response].
  - split; [apply He|by apply Hn].
  - split; [apply He|by apply Hn].
  - unfold handle_query_causality, bindM, gets. destruct (8 <=? context_len r); [|split; [apply He|by apply Hn]].
    destruct (chain_found 1 h (in_reality s) (get 0 8 (context r)) Hl) as (c & ->). split; [apply answered, to_i32_range|by apply Hn].
Qed.

(** C21: Every request gets a well-formed response, with one exception: a request to write
    whose name is text and whose length says more than the 128 bytes of its context
    panics the kernel. *)
Theorem intent_answered r h s : length (context r) = 128%nat -> logs 2 h (in_reality s) ->
  match (handle_intent r s).1 with
  | Ok a => response_ok a /\ ~ ((intent r = WriteData \/ intent r = StoreFile) /\ 128 < context_len r /\ utf8_valid (take 56 (context r)) = true)
  | Err f => f = SliceRange /\ (intent r = WriteData \/ intent r = StoreFile) /\ 128 < context_len r /\ utf8_valid (take 56 (context r)) = true
  end.
Proof.
  intros Hc Hl. rewrite handle_intent_run. destruct (logged_gains 1 r h s ltac:(lia) Hl) as [L1 _ _]. by apply (handler_answers r _ _ Hc L1).
Qed.

(** ** Causes *)

Lemma put_ids_spec es : forall i data, (8 + (i + length es) * 8 <= length data)%nat -> Forall (fun e => in_width 64 (id e)) es ->
  (forall a n, (a + n <= 8 + i * 8)%nat -> get a n (put_ids i es data) = get a n data) /\
  (forall j e, es !! j = Some e -> get (8 + (i + j) * 8) 8 (put_ids i es data) = id e).
Proof.
  induction es as [|e0 es IH]; intros i data Hl Hw; [split; [done|intros j e Hj; done]|]. cbn [put_ids length] in *. apply Forall_cons in Hw as [Hw0 Hw].
  assert (length (le 8 (id e0)) = 8%nat) as L8 by apply length_le.
  assert (length (blit (8 + i * 8) (le 8 (id e0)) data) = length data) as Lb by (apply length_blit; lia).
  destruct (IH (Datatypes.S i) (blit (8 + i * 8) (le 8 (id e0)) data)) as [H1 H2]; [rewrite Lb; lia|done|]. split.
  - intros a n Ha. rewrite H1 by lia. unfold get. by rewrite field_blit_ne by lia.
  - intros [|j] e Hj; [injection Hj as <-|].
    + rewrite H1 by lia. rewrite Nat.add_0_r. apply get_blit_eq; [lia|done].
    + cbn in Hj. specialize (H2 j e Hj). by replace (i + Datatypes.S j)%nat with (Datatypes.S i + j)%nat by lia.
Qed.

Lemma length_put_ids es : forall i data, (8 + (i + length es) * 8 <= length data)%nat -> length (put_ids i es data) = length data.
Proof.
  induction es as [|e es IH]; intros i data Hl; [done|]. cbn [put_ids length] in *. assert (length (blit (8 + i * 8) (le 8 (id e)) data) = length data) as E by (apply length_blit; rewrite length_le; lia).
  rewrite IH; [done|]. rewrite E. lia.
Qed.

Lemma chain_bytes_spec chain : Z.of_nat (length chain) < 2 ^ 64 -> Forall (fun e => in_width 64 (id e)) chain ->
  (length (chain_bytes chain) <= 248)%nat /\ get 0 8 (chain_bytes chain) = Z.of_nat (length chain) /\
  forall j e, (j < 30)%nat -> chain !! j = Some e -> get (8 + j * 8) 8 (chain_bytes chain) = id e.
Proof.
  intros Hl Hw. unfold chain_bytes. set (data := blit 0 (le 8 (Z.of_nat (length chain))) (replicate 256 0)).
  assert (length data = 256%nat) as Ld by (unfold data; rewrite length_blit by (rewrite length_le, length_replicate; lia); apply length_replicate).
  destruct (put_ids_spec (take 30 chain) 0 data) as [H1 H2]; [rewrite length_take; lia|by apply Forall_take|].
  split; [rewrite length_take; lia|]. split.
  - unfold get. rewrite field_take by lia. change (get 0 8 (put_ids 0 (take 30 chain) data) = Z.of_nat (length chain)). rewrite H1 by lia.
    apply get_blit_eq; [rewrite length_replicate; lia|unfold in_width; lia].
  - intros j e Hj He. pose proof (lookup_lt_Some _ _ _ He). unfold get. rewrite field_take by lia. apply (H2 j). by rewrite lookup_take_lt.
Qed.

Lemma chain_members h i c : chain h i c -> Forall (fun e => exists k, h !! k = Some e) c.
Proof. induction 1; constructor; eauto. Qed.

(** The length of a chain: each event of it is older than the one before. *)
Lemma chain_length h : causes_precede h -> forall i c, chain h i c -> match i with Some i => Z.of_nat (length c) <= Z.max 0 (i + 1) | None => length c = 0%nat end.
Proof.
  intros Hp i c Hc. induction Hc as [|i Hi|k e c Hk He Hc IH]; [done|cbn; lia|]. cbn [length]. destruct (cause_id e) as [j|] eqn:Ej; [|lia]. pose proof (Hp k e j He Ej). lia.
Qed.

(** A query for the causes of an event answers with the whole length of its chain and the
    identifiers of the first thirty events on it. *)
Theorem query_causality_correct r h l s : intent r = QueryCausality -> 8 <= context_len r -> CAUSAL_LOG (in_reality s) = Some l -> logs 2 h (in_reality s) ->
  let e := make_event (Z.of_nat (length h)) (now (in_dream s)) (CURRENT_REALITY_ID (in_reality s)) Syscall None (raw (2 :: replicate 31 0)) in
  exists a s' c, handle_intent r s = (Ok a, s') /\ chain (h ++ [e]) (Some (get 0 8 (context r))) c /\ success a = true /\ result_code a = to_i32 (Z.of_nat (length c)) /\
    get 0 8 (response_data a) = Z.of_nat (length c) /\
    forall j e, (j < 30)%nat -> c !! j = Some e -> get (8 + j * 8) 8 (response_data a) = id e.
Proof.
  intros Ei Hlen El Hl e. rewrite handle_intent_run, Ei. cbn [handler_of]. set (s1 := logged r s).
  pose proof (log_event_logs 1 h (in_reality s) Syscall (now (in_dream s)) (2 :: replicate 31 0) ltac:(lia) Hl) as L1. unfold event_at in L1. rewrite El in L1. fold e in L1.
  assert (in_reality s1 = (log_event Syscall None (raw (2 :: replicate 31 0)) (now (in_dream s)) (in_reality s)).2) as Es by (unfold s1, logged; by rewrite Ei).
  rewrite <- Es in L1. set (h1 := h ++ [e]) in *.
  unfold handle_query_causality, bindM, gets. rewrite (proj2 (Z.leb_le 8 (context_len r)) Hlen). unfold get_causal_chain.
  unfold logs in L1. destruct (CAUSAL_LOG (in_reality s1)) as [l1|] eqn:E1; [|by destruct h]. destruct L1 as (Hs & Hp & Hn). unfold chain_of.
  destruct (chain_loop_finds h1 l1 Hs Hp (length (events l1)) (Some (get 0 8 (context r)))) as (c & -> & Hch).
  { rewrite (sh_events _ _ Hs), length_drop. unfold oldest. lia. }
  assert (Forall (fun e => in_width 64 (id e)) c) as Hw.
  { eapply Forall_impl; [exact (chain_members _ _ _ Hch)|]. intros x (k & Hk). rewrite (sh_ids _ _ Hs _ _ Hk). apply lookup_lt_Some in Hk. unfold in_width. lia. }
  assert (Z.of_nat (length c) < 2 ^ 64) as Hcl.
  { inversion Hch as [|i Hi|k x c' Hk Hx Hch' E2]; [cbn; lia|]. pose proof (chain_length h1 Hp _ _ Hch) as Hcl. rewrite <- E2 in Hcl. subst c. apply lookup_lt_Some in Hx. lia. }
  destruct (chain_bytes_spec c Hcl Hw) as (Hb & G0 & Gj). destruct (success_with_data_spec (to_i32 (Z.of_nat (length c))) (chain_bytes c) (to_i32_range _)) as [Hok Htk].
  eexists _, s1, c. split; [reflexivity|]. split; [exact Hch|]. split; [done|]. split; [done|].
  set (a := success_with_data _ _) in *. assert (Z.to_nat (data_len a) = length (chain_bytes c)) as Ea by (unfold a, success_with_data; cbn [data_len]; lia).
  rewrite Ea, (take_ge (chain_bytes c)) in Htk by lia.
  assert (forall p n, (p + n <= length (chain_bytes c))%nat -> get p n (response_data a) = get p n (chain_bytes c)) as Hg by (intros p n Hpn; rewrite <- Htk; unfold get; by rewrite field_take by lia).
  assert (length (chain_bytes c) = 8 + Nat.min (length c) 30 * 8)%nat as Lc.
  { unfold chain_bytes. rewrite length_take, length_put_ids; rewrite ?length_take, length_blit; rewrite ?length_le, ?length_replicate; lia. }
  split; [by rewrite Hg by lia|]. intros j x Hj Hx. pose proof (lookup_lt_Some _ _ _ Hx). rewrite Hg by lia. by apply Gj.
Qed.

End Intents.

Section Composition.
Context `{Machine} {S D : Type} `{FS : FrameSource S} `{BL : BlockDeviceLaws D}.
Context (p4 : Z).

(** A context that begins with a name. *)
Definition names (n : list Z) (r : IntentRequest) : Prop :=
  length (context r) = 128%nat /\ (length n < 56)%nat /\ take 56 (context r) = n ++ replicate (56 - length n) 0.

Lemma names_prefix n r k : names n r -> (length n <= k <= 56)%nat -> take k (context r) = n ++ replicate (k - length n) 0.
Proof.
  intros (_ & Hl & E) Hk. replace (take k (context r)) with (take k (take 56 (context r))) by (rewrite take_take; f_equal; lia).
  rewrite E, take_app_ge, take_replicate by lia. do 2 f_equal. lia.
Qed.

(** Data that one intent stores another reads back: whole, with its length, and without a
    trace in the other files. *)
Theorem stored_data_is_read wr rr p n bytes (b : Z) h (s : IntentOS S D) :
  intent wr = WriteData \/ intent wr = StoreFile -> names n wr -> context_len wr = 56 + Z.of_nat (length bytes) -> bytes <> [] -> field 56 (length bytes) (context wr) = bytes ->
  intent rr = ReadData -> names n rr -> 0 < context_len rr -> Z.of_nat (length n) <= context_len rr ->
  valid_name n -> ready (in_fs s) p -> (exists k, 0 <= k < 256 /\ PsychicFs.in_use (slot (PsychicFs.disk (in_fs s)) k) = 0) \/ (exists k, first_named n (PsychicFs.disk (in_fs s)) k) ->
  free_run p (blocks_for (Z.of_nat (length bytes))) b -> logs 4 h (in_reality s) ->
  exists s1 a s2, handle_intent p4 wr s = (Ok (response_success (Z.of_nat (length bytes))), s1) /\ handle_intent p4 rr s1 = (Ok a, s2) /\
    success a = true /\ result_code a = Z.of_nat (length bytes) /\ take (Z.to_nat (data_len a)) (response_data a) = bytes /\
    forall m, m <> n -> lookup_file m (in_fs s2) = lookup_file m (in_fs s).
Proof.
  intros Hwi Hnw Hlw Hne Hbytes Hri Hnr Hpos Hlr Hn R Hroom Hf Hl. destruct (fs_write_read_spec (in_fs s) p n bytes b R Hn Hroom Hf) as (w' & Ew & Er & Eo).
  pose proof Hn as (Hlen & Hu & Hz). assert (length bytes <= 72)%nat as Hb.
  { rewrite <- Hbytes. unfold field. rewrite length_take, length_drop. destruct Hnw as (-> & _). lia. }
  assert (Z.of_nat (length bytes) <> 0) as Hb0 by (destruct bytes; [done|cbn; lia]).
  set (sw := logged wr s).
  assert (handle_write_data wr sw = (Ok (response_success (Z.of_nat (length bytes))), set_files w' sw)) as Hw.
  { unfold handle_write_data. rewrite (proj2 (Z.ltb_lt 56 (context_len wr))) by lia. cbv zeta. pose proof (names_prefix n wr 56 Hnw ltac:(destruct Hnw; lia)) as ->. rewrite utf8_padded by done.
    destruct Hnw as (-> & _). rewrite (proj2 (Z.ltb_ge (Z.of_nat 128) (context_len wr))) by lia. replace (Z.to_nat (context_len wr) - 56)%nat with (length bytes) by lia.
    rewrite Hbytes, trim_zeros_app by done. unfold bindM, try_fs. change (in_fs sw) with (in_fs s). rewrite Ew. cbn [ret]. unfold ret. by rewrite to_i32_small by lia. }
  set (s1 := set_files w' sw). set (sr := logged rr s1).
  assert (exists s2, in_fs s2 = w' /\ handle_read_data rr sr = (Ok (success_with_data (Z.of_nat (length bytes)) bytes), s2)) as (s2 & E2 & Hr).
  { unfold handle_read_data. rewrite (proj2 (Z.ltb_lt 0 (context_len rr))) by lia. cbv zeta. rewrite (names_prefix n rr) by (done || destruct Hnr; lia). rewrite utf8_padded by done.
    rewrite trim_zeros_app by done. unfold bindM, modify, try_fs. match goal with |- context [set_dream ?d sr] => set (s2 := set_dream d sr) end.
    change (in_fs s2) with w'. rewrite Er. exists (set_files w' s2). split; [done|]. unfold ret. rewrite to_i32_small by lia. by rewrite take_ge by lia. }
  exists s1, (success_with_data (Z.of_nat (length bytes)) bytes), s2. split; [|split; [|split; [done|split; [done|split]]]].
  - rewrite handle_intent_run. destruct Hwi as [E|E]; rewrite E; exact Hw.
  - rewrite handle_intent_run, Hri. exact Hr.
  - destruct (success_with_data_spec (Z.of_nat (length bytes)) bytes) as [_ ->]; [unfold i32; lia|]. by rewrite take_ge by lia.
  - intros m Hm. rewrite E2. by apply Eo.
Qed.

(** A search answers with the first file of the table whose name contains the pattern, and
    fails when there is none. *)
Theorem find_file_correct r n (s : IntentOS S D) : intent r = FindFile -> names n r -> 0 < context_len r -> Z.of_nat (length n) <= context_len r -> utf8_valid n = true -> 0 ∉ n ->
  exists a s', handle_intent p4 r s = (Ok a, s') /\
    ((exists before f after, fs_list (in_fs s) = before ++ f :: after /\ (exists x y, f = x ++ n ++ y) /\ Forall (fun f => ~ exists x y, f = x ++ n ++ y) before /\
        success a = true /\ result_code a = 1 /\ take (Z.to_nat (data_len a)) (response_data a) = take 256 f) \/
     (Forall (fun f => ~ exists x y, f = x ++ n ++ y) (fs_list (in_fs s)) /\ a = response_error (-2))).
Proof.
  intros Hi Hn Hpos Hlen Hu Hz. rewrite handle_intent_run, Hi. cbn [handler_of]. set (s1 := logged r s).
  unfold handle_find_file. rewrite (proj2 (Z.ltb_lt 0 (context_len r))) by lia. cbv zeta. rewrite (names_prefix n r) by (done || destruct Hn; lia). rewrite utf8_padded by done. rewrite trim_zeros_app by done.
  unfold bindM, gets, ret. change (in_fs s1) with (in_fs s). eexists _, s1. split; [reflexivity|]. generalize (fs_list (in_fs s)). intros l.
  assert (forall f, contains_bytes n f = false -> ~ exists x y, f = x ++ n ++ y) as Hno by (intros f E Hf; apply contains_bytes_spec in Hf; congruence).
  induction l as [|f l IH]; [right; split; [constructor|done]|]. cbn [List.find]. destruct (contains_bytes n f) eqn:E.
  - left. exists [], f, l. split; [done|]. split; [by apply contains_bytes_spec|]. split; [constructor|]. split; [done|]. split; [done|].
    destruct (success_with_data_spec 1 (take (length f `min` 256) f)) as [_ ->]; [unfold i32; lia|]. destruct (Nat.le_ge_cases (length f) 256); [by rewrite Nat.min_l, !take_ge by (rewrite ?length_take; lia)|].
    rewrite take_take. f_equal. lia.
  - destruct IH as [(before & g & after & -> & Hg & Hb & Hrest)|[Hall ->]].
    + left. exists (f :: before), g, after. split; [done|]. split; [done|]. split; [constructor; [by apply Hno|done]|done].
    + right. split; [constructor; [by apply Hno|done]|done].
Qed.

(** ** Memory *)

Lemma coord_bytes_spec c : coord_bytes c = le 8 (x c) ++ le 8 (y c) ++ le 8 (z c) ++ [depth c].
Proof. reflexivity. Qed.

Lemma memory_hint gaps sz pattern locality : in_width 64 sz -> (size_hint <$> get_memory_context (IntentRequest_memory gaps sz pattern locality)) = Some sz.
Proof. intros Hs. unfold IntentRequest_memory, get_memory_context, memory_context_bytes. cbn [context context_len]. change (Some (unle (le 8 sz)) = Some sz). by rewrite unle_le. Qed.

(** A request for memory that is granted answers with the coordinates of a new region, as
    large as was asked for and mapped throughout; otherwise there is no new region. *)
Theorem need_memory_correct gaps sz pattern locality a (s : IntentOS S D) :
  length gaps = 6%nat -> in_width 64 sz -> in_fractal s = Some a -> tree_ok p4 (in_vm s) -> 0 <= next_virt_base a -> next_virt_base a mod PAGE_SIZE = 0 ->
  next_virt_base a + sz + 2 * PAGE_SIZE <= 2 ^ 64 -> Z.of_nat (length (root_regions a)) < 2 ^ 64 ->
  exists ans s' a', handle_intent p4 (IntentRequest_memory gaps sz pattern locality) s = (Ok ans, s') /\ in_fractal s' = Some a' /\ tree_ok p4 (in_vm s') /\
    ((exists r, success ans = true /\ root_regions a' = root_regions a ++ [r] /\ sz <= Fractal.size r < sz + PAGE_SIZE /\ data_len ans = 25 /\
        get 0 8 (response_data ans) = x (coord r) /\ get 8 8 (response_data ans) = y (coord r) /\ get 16 8 (response_data ans) = z (coord r) /\ get 24 1 (response_data ans) = depth (coord r) /\
        forall v, base_addr r <= v < base_addr r + Fractal.size r -> Paging.translate p4 v (in_vm s) = None /\ exists f, Paging.translate p4 v (in_vm s') = Some f) \/
     (ans = response_error (-12) /\ root_regions a' = root_regions a)).
Proof.
  intros Hg Hs Ea Hok Hb Hm Hn Hr. rewrite handle_intent_run. cbn [IntentRequest_memory intent handler_of]. set (rq := IntentRequest_memory gaps sz pattern locality). set (s1 := logged rq s).
  unfold handle_need_memory. pose proof (memory_hint gaps sz pattern locality Hs) as Eh. fold rq in Eh. destruct (get_memory_context rq) as [mc|]; [|done]. injection Eh as ->.
  change (in_fractal s1) with (in_fractal s). change (in_vm s1) with (in_vm s). rewrite Ea. unfold allocate_fractal_region.
  pose proof (allocate_region_backed p4 sz a (in_vm s) Hok ltac:(destruct Hs; lia) Hb Hm Hn) as Hal.
  assert (forall c a' m, allocate_region p4 sz a (in_vm s) = (Ok c, a', m) -> c = mkCoord (Z.of_nat (length (root_regions a))) 0 0 0) as Hc.
  { intros c a' m E. unfold allocate_region, allocate_backing, bindM in E. destruct (map_all _ _ _ _) as [[fr|e] m0]; [|done]. injection E as <- _ _. done. }
  destruct (allocate_region p4 sz a (in_vm s)) as [[[c|e] a'] m].
  - destruct Hal as (r & Er & -> & Hbase & Hsz & _ & _ & Htree & _ & Hmap & _). eexists _, _, a'. split; [reflexivity|]. split; [done|]. split; [done|]. left. exists r.
    assert (forall v, base_addr r <= v < base_addr r + Fractal.size r -> Paging.translate p4 v (in_vm s) = None /\ exists f, Paging.translate p4 v m = Some f) as Hv.
    { intros v Hv. pose proof (Z.div_mod (v - base_addr r) PAGE_SIZE ltac:(done)) as Edm. pose proof (Z.mod_pos_bound (v - base_addr r) PAGE_SIZE ltac:(done)) as Hmb.
      assert (0 <= (v - base_addr r) / PAGE_SIZE) as Hq by (apply Z.div_pos; [lia|done]).
      destruct (Hmap (Z.to_nat ((v - base_addr r) / PAGE_SIZE)) ((v - base_addr r) mod PAGE_SIZE)) as (f & _ & _ & _ & H1 & H2); [done|rewrite Z2Nat.id by done; lia|].
      rewrite Z2Nat.id in H1, H2 by done. replace (base_addr r + (v - base_addr r) / PAGE_SIZE * PAGE_SIZE + (v - base_addr r) mod PAGE_SIZE) with v in H1, H2 by lia. split; [done|by exists f]. }
    specialize (Hc _ _ _ eq_refl). rewrite Hc. split; [done|]. split; [done|]. split; [done|]. split; [done|].
    assert (in_width 64 (Z.of_nat (length (root_regions a)))) as Hw by (unfold in_width; lia).
    split; [|split; [reflexivity|split; [reflexivity|split; [reflexivity|done]]]].
    change (unle (le 8 (Z.of_nat (length (root_regions a)))) = Z.of_nat (length (root_regions a))). by apply unle_le.
  - destruct Hal as (Er & Htree & _ & _). eexists _, _, a'. split; [reflexivity|]. split; [done|]. split; [done|]. right. done.
Qed.

End Composition.

(** ** Checkpoints and access patterns *)

(** The identifier of a checkpoint is cut to the number of events: checkpoints of different
    realities with as many events are the same. *)
Lemma checkpoint_forgets_reality re events : to_i32 (checkpoint_id re events) = to_i32 events.
Proof.
  unfold to_i32. assert (checkpoint_id re events mod 2 ^ 32 = events mod 2 ^ 32) as ->; [|done].
  rewrite <- !Z.land_ones by lia. apply Z.bits_inj'. intros n Hn. unfold checkpoint_id, wrap. change 0xFFFFFFFF with (Z.ones 32). rewrite <- Z.land_ones by lia.
  rewrite !Z.land_spec, Z.lor_spec, !Z.land_spec, Z.shiftl_spec by done. destruct (Z.ltb_spec n 32); [|by rewrite (Z.ones_spec_high 32) by lia; rewrite !andb_false_r].
  rewrite (Z.ones_spec_low 32) by lia. rewrite (Z.testbit_neg_r re) by lia. by rewrite !andb_true_r.
Qed.

(** ** Witnesses *)

#[local] Existing Instance PsychicFs.sample_machine.

Definition demo_reality : Reality := Causality.init 5 start.
Definition demo_history : list CausalEvent := [make_event 0 5 0 Boot None (raw (replicate 32 0))].
Definition demo_intents : IntentOS FrameAllocator MemDisk :=
  mkIntentOS (mkDream 0 0 0 0 0 0 (Some Tracker_new) demo_reality 9) (Some Allocator_new) Paging.demo mounted_world.

Lemma demo_logs n : n < 2 ^ 63 -> logs n demo_history (in_reality demo_intents).
Proof.
  intros Hn. change (in_reality demo_intents) with demo_reality. unfold logs, demo_reality. cbn [Causality.init log_event CAUSAL_LOG start snd log CausalLog_new].
  split; [constructor; [done|done|]|split; [|cbn; lia]].
  - intros [|k] e He; [by injection He as <-|done].
  - intros [|k] e c He Hc; [injection He as <-; done|done].
Qed.

(** A request with a name of three letters and a text of three bytes. *)
Definition demo_context : list Z := [97; 46; 116] ++ replicate 53 0 ++ [1; 2; 3] ++ replicate 69 0.
Definition write_request : IntentRequest := mkRequest StoreFile 5 demo_context 59.
Definition read_request : IntentRequest := mkRequest ReadData 5 demo_context 3.
Definition find_request : IntentRequest := mkRequest FindFile 5 demo_context 3.

Lemma demo_names i l : names [97; 46; 116] (mkRequest i 5 demo_context l).
Proof. split; [reflexivity|]. split; [cbn; lia|reflexivity]. Qed.

Lemma intent_effects_witness : logs 2 demo_history (in_reality demo_intents) /\
  let s' := (handle_intent demo_p4 read_request demo_intents).2 in
  in_fs s' = in_fs demo_intents /\ REALITY_COUNTER (in_reality s') = REALITY_COUNTER (in_reality demo_intents) /\
  CURRENT_REALITY_ID (in_reality s') = CURRENT_REALITY_ID (in_reality demo_intents).
Proof.
  assert (logs 2 demo_history (in_reality demo_intents)) as Hl by (apply demo_logs; lia). split; [exact Hl|]. cbn zeta.
  destruct (intent_effects demo_p4 read_request demo_history demo_intents Hl) as (_ & _ & _ & Hn & Hs). revert Hn Hs. generalize (handle_intent demo_p4 read_request demo_intents).2 demo_intents.
  intros s' s [Hc Hi] [_ Hf _ _]. split; [apply Hf; discriminate|]. split; [exact Hc|exact Hi].
Defined.

Lemma intent_answered_witness : length (context write_request) = 128%nat /\
  match (handle_intent demo_p4 (mkRequest StoreFile 5 demo_context 129) demo_intents).1 with Ok _ => False | Err f => f = SliceRange end.
Proof.
  split; [reflexivity|]. pose proof (intent_answered demo_p4 (mkRequest StoreFile 5 demo_context 129) demo_history demo_intents eq_refl (demo_logs 2 ltac:(lia))) as Ha.
  destruct (handle_intent _ _ _).1 as [a|f]; [|exact (proj1 Ha)]. apply (proj2 Ha). split; [right; reflexivity|]. split; [reflexivity|vm_compute; reflexivity].
Defined.

Lemma stored_data_is_read_witness : exists s1 a s2, handle_intent demo_p4 write_request demo_intents = (Ok (response_success 3), s1) /\
  handle_intent demo_p4 read_request s1 = (Ok a, s2) /\ take (Z.to_nat (data_len a)) (response_data a) = [1; 2; 3].
Proof.
  destruct mounted_ready as (P & W & Mt & C & T).
  destruct (stored_data_is_read demo_p4 write_request read_request mounted_fs [97; 46; 116] [1; 2; 3] 128 demo_history demo_intents) as (s1 & a & s2 & E1 & E2 & _ & _ & Ea & _).
  - right. reflexivity.
  - apply demo_names.
  - reflexivity.
  - discriminate.
  - reflexivity.
  - reflexivity.
  - apply demo_names.
  - reflexivity.
  - cbn. lia.
  - split; [unfold MAX_FILENAME_LEN; simpl; lia|]. split; [by vm_compute|by apply (bool_decide_unpack _)].
  - change (in_fs demo_intents) with mounted_world. split; [|exact P|exact W|exact Mt|].
    + unfold big. rewrite mem_disk_capacity, C. reflexivity.
    + rewrite mem_disk_capacity, C, T. reflexivity.
  - left. exists 0. split; [lia|vm_compute; reflexivity].
  - exact mounted_free.
  - apply demo_logs. lia.
  - exists s1, a, s2. split; [exact E1|]. split; [exact E2|exact Ea].
Defined.

Lemma find_file_correct_witness : exists a s', handle_intent demo_p4 find_request demo_intents = (Ok a, s') /\ a = response_error (-2).
Proof.
  destruct (find_file_correct demo_p4 find_request [97; 46; 116] demo_intents) as (a & s' & E & Hc); [reflexivity|apply demo_names|reflexivity|cbn; lia|by vm_compute|by apply (bool_decide_unpack _)|].
  exists a, s'. split; [exact E|]. assert (fs_list (in_fs demo_intents) = []) as El by (vm_compute; reflexivity). revert El Hc. generalize (fs_list (in_fs demo_intents)). intros l El [(before & f & after & Eq & _)|[_ Ea]]; [|exact Ea]. rewrite El in Eq. by destruct before.
Defined.

Definition query_request : IntentRequest := mkRequest QueryCausality 5 (replicate 128 0) 8.

Lemma query_causality_correct_witness : exists a s', handle_intent demo_p4 query_request demo_intents = (Ok a, s') /\ success a = true.
Proof.
  destruct (query_causality_correct demo_p4 query_request demo_history (default CausalLog_new (CAUSAL_LOG demo_reality)) demo_intents eq_refl ltac:(cbn; lia) eq_refl (demo_logs 2 ltac:(lia))) as (a & s' & c & E & _ & Hs & _).
  exists a, s'. split; [exact E|exact Hs].
Defined.

Lemma need_memory_correct_witness : exists ans s' a', handle_intent demo_p4 (IntentRequest_memory (replicate 6 170) 0x8000 0 3) demo_intents = (Ok ans, s') /\ in_fractal s' = Some a' /\
  ((exists r, success ans = true /\ root_regions a' = [r]) \/ ans = response_error (-12)).
Proof.
  destruct (need_memory_correct demo_p4 (replicate 6 170) 0x8000 0 3 Allocator_new demo_intents eq_refl ltac:(split; lia) eq_refl demo_ok ltac:(by vm_compute) ltac:(by vm_compute) ltac:(by vm_compute) ltac:(by vm_compute))
    as (ans & s' & a' & E & Ea & _ & [(r & Hs & Hr & _)|[Hans _]]); exists ans, s', a'; (split; [exact E|]); (split; [exact Ea|]); [left; exists r; split; [exact Hs|exact Hr]|right; exact Hans].
Defined.
