(* ===== verification/Syscall.v ===== *)
(** * System calls ([usermode/syscall.rs])

    The dispatcher and the handlers, over the parts that they reach: processes and
    their memory, the keyboard, the filesystem, the graphics server and the realities.
    A call ends with a number, or - when a pointer leads nowhere - with the panic of
    the page-fault handler, or it does not return (power off). *)

From Stdlib Require Import ZArith Lia Bool.
From stdpp Require Import base numbers option list gmap sets strings.
From S2P Require Import Prelude Bytes Util Frame Paging Mapping UserSpace UserMem Causality Surface Compositor Graphics Fill Keyboard BlockDevice PsychicFs Process Scheduler Spawn Brk.

Open Scope Z_scope.

(** ** The state *)

Record OS (S D : Type) : Type := mkOS {
  os_sys : System S; os_fs : World D; os_graphics : option GraphicsServer; os_reality : Reality; os_keys : Keyboard
}.
Arguments mkOS {S D} _ _ _ _ _.
Arguments os_sys {S D} _.
Arguments os_fs {S D} _.
Arguments os_graphics {S D} _.
Arguments os_reality {S D} _.
Arguments os_keys {S D} _.

(** ** Pointers *)

(** [is_user_pointer_valid::<T>], with the size of [T]. *)
Definition is_user_pointer_valid (size_of_T ptr count : Z) : bool :=
  let size := count *[64] size_of_T in
  if 0x0000800000000000 <=? ptr then false
  else if 2 ^ 64 <=? ptr + size then false
  else true.

Section Calls.
Context `{Machine} {S D : Type} `{FS : FrameSource S} `{BD : BlockDevice D} `{HP : KernelHeap}.

(** [cr3]: the tables of the caller; [cpu]: where the call runs; [screen]: the size of
    the framebuffer. *)
Context (cr3 : Z) (cpu : nat) (screen : Z * Z).

Definition Call (A : Type) : Type := M (OS S D) (Failure SyscallError) A.

Definition refuse {A} (e : SyscallError) : Call A := throw (Error e).

Definition set_sys (x : System S) (s : OS S D) : OS S D := mkOS x (os_fs s) (os_graphics s) (os_reality s) (os_keys s).
Definition set_fs (x : World D) (s : OS S D) : OS S D := mkOS (os_sys s) x (os_graphics s) (os_reality s) (os_keys s).
Definition set_graphics (x : option GraphicsServer) (s : OS S D) : OS S D := mkOS (os_sys s) (os_fs s) x (os_reality s) (os_keys s).
Definition set_reality (x : Reality) (s : OS S D) : OS S D := mkOS (os_sys s) (os_fs s) (os_graphics s) x (os_keys s).
Definition set_keys (x : Keyboard) (s : OS S D) : OS S D := mkOS (os_sys s) (os_fs s) (os_graphics s) (os_reality s) x.

Definition os_space (s : OS S D) : Space S := sy_space (os_sys s).
Definition os_kernel (s : OS S D) : Kernel := sy_kernel (os_sys s).
Definition set_space (x : Space S) (s : OS S D) : OS S D := set_sys (mkSystem x (sy_kernel (os_sys s)) (NEXT_PID (os_sys s))) s.
Definition set_kernel (x : Kernel) (s : OS S D) : OS S D := set_sys (mkSystem (sy_space (os_sys s)) x (NEXT_PID (os_sys s))) s.

(** A call into the memory of the program, and one into the filesystem. *)
Definition on_sys {A} (f : M (System S) SyscallError A) : Call A := fun s =>
  match f (os_sys s) with (Ok a, x) => (Ok a, set_sys x s) | (Err e, x) => (Err (Error e), set_sys x s) end.

Definition on_fs {A} (failed : SyscallError) (f : Fs A) : Call A := fun s =>
  match f (os_fs s) with (Ok a, x) => (Ok a, set_fs x s) | (Err _, x) => (Err (Error failed), set_fs x s) end.

(** The bytes behind a pointer. *)
Definition get_slice (ptr len : Z) : Call (list Z) := fun s =>
  match user_slice cr3 ptr len (os_space s) with Some bs => (Ok bs, s) | None => (Err Panic, s) end.

Definition put_slice (ptr : Z) (bs : list Z) : Call unit := fun s =>
  match write_user_bytes cr3 ptr bs (os_space s) with Some sp => (Ok tt, set_space sp s) | None => (Err Panic, s) end.

(** The loop of [read_user_string]: up to the first zero byte. *)
Fixpoint user_string (n : nat) (v : Z) (sp : Space S) : option (list Z) :=
  match n with
  | O => Some []
  | Datatypes.S n =>
      match read_user cr3 v sp with
      | None => None
      | Some b => if b =? 0 then Some [] else cons b <$> user_string n (v + 1) sp
      end
  end.

Definition read_user_string (ptr max_len : Z) : Call (list Z) := fun s =>
  if negb (is_user_pointer_valid 1 ptr max_len) then (Err (Error InvalidArgument), s)
  else match user_string (Z.to_nat max_len) ptr (os_space s) with
       | None => (Err Panic, s)
       | Some bs => if utf8_valid bs then (Ok bs, s) else (Err (Error InvalidArgument), s)
       end.

(** ** Input and output *)

(** A key that [sys_read] delivers. *)
Definition delivered (key : Z) : bool := ((key <? 0x80) && (0x20 <=? key)) || (key =? 10) || (key =? 8).

(** The loop of [sys_read].  Every round takes a key, and the buffer holds at most 255. *)
Fixpoint read_keys (fuel : nat) (buf count bytes_read : Z) : Call Z :=
  match fuel with
  | O => throw Diverges
  | Datatypes.S fuel =>
      if bytes_read <? count then fun s =>
        match getchar (os_keys s) with
        | (None, k) => (Ok bytes_read, set_keys k s)
        | (Some key, k) =>
            if delivered key then
              (do_ put_slice (buf + bytes_read) [key];
               if key =? 10 then ret (bytes_read + 1) else read_keys fuel buf count (bytes_read + 1)) (set_keys k s)
            else read_keys fuel buf count bytes_read (set_keys k s)
        end
      else ret bytes_read
  end.

Definition sys_read (fd buf count : Z) : Call Z :=
  if (fd <? 0) || (buf =? 0) || (count =? 0) then refuse InvalidArgument
  else if negb (is_user_pointer_valid 1 buf count) then refuse InvalidArgument
  else if fd =? 0 then read_keys 257 buf count 0
  else refuse NotImplemented.

Definition sys_write (fd buf count : Z) : Call Z :=
  if (fd <? 0) || (buf =? 0) || (count =? 0) then refuse InvalidArgument
  else if negb (is_user_pointer_valid 1 buf count) then refuse InvalidArgument
  else if (fd =? 1) || (fd =? 2) then
    do bs <- get_slice buf count;
    if utf8_valid bs then ret count else refuse InvalidArgument
  else refuse InvalidArgument.

Definition sys_open (path flags mode : Z) : Call Z :=
  if path =? 0 then refuse InvalidArgument
  else do_ read_user_string path 4096; refuse NotImplemented.

Definition sys_close (fd : Z) : Call Z := if fd <? 0 then refuse InvalidArgument else refuse NotImplemented.

Definition sys_print_colored (buf len color : Z) : Call Z :=
  if (buf =? 0) || (len =? 0) || negb (is_user_pointer_valid 1 buf len) then refuse InvalidArgument
  else do bs <- get_slice buf len; if utf8_valid bs then ret len else refuse InvalidArgument.

(** SYS_READ of the entry behind the [syscall] instruction ([arch/x86_64/syscall.rs]),
    which answers this call without the dispatcher below. *)
Definition fast_sys_read (fd buf : Z) : Call Z :=
  if (fd =? 0) && negb (buf =? 0) then fun s =>
    match getchar (os_keys s) with
    | (Some ch, k) => (do_ put_slice buf [ch]; ret 1) (set_keys k s)
    | (None, k) => (Ok 0, set_keys k s)
    end
  else ret (2 ^ 64 - 1).

(** ** Processes *)

Definition sys_exit (code : Z) : Call Z := fun s => (Ok 0, set_kernel (exit_process cpu (os_kernel s)) s).

Definition sys_getpid : Call Z := fun s =>
  match get_current_pid (os_kernel s) with Some p => (Ok p, s) | None => (Err (Error InvalidArgument), s) end.

Definition sys_fork : Call Z := refuse NotImplemented.

Definition sys_yield : Call Z := fun s => (Ok 0, set_kernel (yield_cpu cpu (os_kernel s)) s).

(** The control block of the caller. *)
Definition current_process (s : OS S D) : option Process :=
  match get_current_pid (os_kernel s) with Some p => get p (table (os_kernel s)) | None => None end.

Definition sys_getuid : Call Z := fun s =>
  match current_process s with Some p => (Ok (uid p), s) | None => (Err (Error PermissionDenied), s) end.

(** ** Reports: they only print. *)

Definition sys_fs_list : Call Z := ret 0.
Definition sys_get_process_info : Call Z := ret 0.
Definition sys_get_mem_info : Call Z := ret 0.
Definition sys_get_cpu_info : Call Z := ret 0.
Definition sys_clear_screen : Call Z := ret 0.

(** ** Realities *)

Definition sys_reality_fork : Call Z := fun s =>
  let '(new_reality, r) := RealityId_new (os_reality s) in
  (Ok new_reality, set_reality (set_current_reality new_reality r) s).

Definition sys_reality_merge (target_reality_id : Z) : Call Z := fun s =>
  let '(target, r) := RealityId_new (os_reality s) in
  (Ok 0, set_reality (set_current_reality target r) s).

(** Eight bytes, the lowest first. *)
Definition u64_bytes (x : Z) : list Z := (fun i => Z.land (Z.shiftr x (8 * i)) 0xFF) <$> seqZ 0 8.

Definition current_reality : Call Z := fun s => (Ok (RealityId_current (os_reality s)), s).

Definition sys_reality_status (out_ptr : Z) : Call Z :=
  if (out_ptr =? 0) || negb (is_user_pointer_valid 8 out_ptr 8) then refuse InvalidArgument
  else do current <- current_reality; do_ put_slice out_ptr (u64_bytes current); ret 0.

Definition sys_intent_request (intent_str len : Z) : Call Z :=
  if (intent_str =? 0) || negb (is_user_pointer_valid 1 intent_str len) then refuse InvalidArgument else refuse NotImplemented.

Definition sys_capability_check (capability_id : Z) : Call Z := ret 1.

(** ** Graphics *)

Definition sys_graphics_create_surface (width height : Z) : Call Z :=
  if (width =? 0) || (height =? 0) || (8192 <? width) || (8192 <? height) then refuse InvalidArgument
  else fun s =>
    match graphics_create_surface width height (os_graphics s) with
    | Ok (Ok i, g) => (Ok i, set_graphics g s)
    | Ok (Err _, g) => (Err (Error SysOutOfMemory), set_graphics g s)
    | Err _ => (Err Panic, s)
    end.

Definition sys_graphics_blit (surface_id pixels size : Z) : Call Z :=
  if (pixels =? 0) || negb (is_user_pointer_valid 1 pixels size) then refuse InvalidArgument
  else
    do bs <- get_slice pixels size;
    fun s =>
      match graphics_update_surface surface_id bs (os_graphics s) with
      | Ok (Ok _, g) => (Ok 0, set_graphics g s)
      | Ok (Err _, g) => (Err (Error InvalidArgument), set_graphics g s)
      | Err _ => (Err Panic, s)
      end.

Definition sys_graphics_present (surface_id : Z) : Call Z := fun s =>
  match graphics_present_surface surface_id (os_graphics s) with
  | (Ok _, g) =>
      match graphics_composite_frame g with
      | Ok g => (Ok 0, set_graphics g s)
      | Err _ => (Err Panic, s)
      end
  | (Err _, g) => (Err (Error InvalidArgument), set_graphics g s)
  end.

Definition sys_graphics_fill_rect (surface_id x y w h color : Z) : Call Z := fun s =>
  match os_graphics s with
  | None => (Err (Error InvalidArgument), s)
  | Some g =>
      match find_surface surface_id g with
      | None => (Err (Error InvalidArgument), s)
      | Some (k, sf) =>
          match fill_surface x y w h color sf with
          | Ok sf' => (Ok 0, set_graphics (Some (put_surface k sf' g)) s)
          | Err _ => (Err Panic, s)
          end
      end
  end.

Definition sys_graphics_get_screen_size : Call Z := ret (Z.lor (wrap 64 (Z.shiftl screen.1 32)) screen.2).

(** ** Files *)

Definition sys_fs_create (path_ptr path_len : Z) : Call Z :=
  if (path_ptr =? 0) || (path_len =? 0) then refuse InvalidArgument
  else do path <- read_user_string path_ptr path_len; do_ on_fs IoError (fs_create path); ret 0.

Definition sys_fs_write_file (path_ptr path_len data_ptr data_len : Z) : Call Z :=
  if (path_ptr =? 0) || (path_len =? 0) then refuse InvalidArgument
  else if data_ptr =? 0 then refuse InvalidArgument
  else if negb (is_user_pointer_valid 1 data_ptr data_len) then refuse InvalidArgument
  else
    do path <- read_user_string path_ptr path_len;
    do bs <- get_slice data_ptr data_len;
    do_ on_fs IoError (fs_write path bs);
    ret data_len.

Definition sys_fs_delete (path_ptr path_len : Z) : Call Z :=
  if (path_ptr =? 0) || (path_len =? 0) then refuse InvalidArgument
  else do path <- read_user_string path_ptr path_len; do_ on_fs NotFound (fs_delete path); ret 0.

Definition sys_fs_read_file (path_ptr path_len buf buf_len : Z) : Call Z :=
  if (path_ptr =? 0) || (path_len =? 0) then refuse InvalidArgument
  else if (buf =? 0) || negb (is_user_pointer_valid 1 buf buf_len) then refuse InvalidArgument
  else
    do path <- read_user_string path_ptr path_len;
    do bs <- on_fs NotFound (fs_read path);
    let copy_len := Z.min (Z.of_nat (length bs)) buf_len in
    do_ put_slice buf (take (Z.to_nat copy_len) bs);
    ret copy_len.

(** The check of the privileged calls: without a current process it passes. *)
Definition root_only (f : Call Z) : Call Z := fun s =>
  match current_process s with
  | Some p => if uid p =? 0 then f s else (Err (Error PermissionDenied), s)
  | None => f s
  end.

Definition sys_fs_format : Call Z := root_only (do_ on_fs IoError fs_format; ret 0).
Definition sys_fs_mount : Call Z := do_ on_fs IoError fs_mount; ret 0.

(** [fs_sync] gives nothing back. *)
Definition sync_files : Call unit := fun s => (Ok tt, set_fs (fs_sync (os_fs s)).2 s).
Definition sys_fs_sync : Call Z := do_ sync_files; ret 0.

(** [power::shutdown] and [power::reboot] write the files out and do not return. *)
Definition sys_shutdown : Call Z := root_only (do_ sync_files; throw Diverges).
Definition sys_reboot : Call Z := root_only (do_ sync_files; throw Diverges).
(** ** The dispatcher *)

(** The numbers of the calls. *)
Definition dispatch (syscall_num arg1 arg2 arg3 arg4 arg5 : Z) : Call Z :=
  match syscall_num with
  | 0 => sys_read (to_i32 arg1) arg2 arg3
  | 1 => sys_write (to_i32 arg1) arg2 arg3
  | 2 => sys_open arg1 (wrap 32 arg2) (wrap 32 arg3)
  | 3 => sys_close (to_i32 arg1)
  | 60 => sys_exit (to_i32 arg1)
  | 39 => sys_getpid
  | 57 => sys_fork
  | 158 => sys_yield
  | 102 => sys_getuid
  | 12 => on_sys (sys_brk arg1)
  | 45 => on_sys (sys_sbrk (to_i64 arg1))
  | 1000 => sys_reality_fork
  | 1001 => sys_reality_merge arg1
  | 1002 => sys_reality_status arg1
  | 1010 => sys_intent_request arg1 arg2
  | 1020 => sys_capability_check arg1
  | 2000 => sys_graphics_create_surface (wrap 32 arg1) (wrap 32 arg2)
  | 2002 => sys_graphics_blit arg1 arg2 arg3
  | 2003 => sys_graphics_present arg1
  | 2004 => sys_graphics_fill_rect arg1 (wrap 32 arg2) (wrap 32 arg3) (wrap 32 arg4) (wrap 32 arg5) 0xFFFFFFFF
  | 2005 => sys_graphics_get_screen_size
  | 200 => sys_fs_list
  | 201 => sys_get_process_info
  | 202 => sys_get_mem_info
  | 203 => sys_get_cpu_info
  | 204 => sys_clear_screen
  | 211 => sys_print_colored arg1 arg2 (wrap 32 arg3)
  | 205 => sys_fs_create arg1 arg2
  | 206 => sys_fs_write_file arg1 arg2 arg3 arg4
  | 207 => sys_fs_delete arg1 arg2
  | 208 => sys_fs_read_file arg1 arg2 arg3 arg4
  | 213 => sys_fs_format
  | 214 => sys_fs_mount
  | 215 => sys_fs_sync
  | 220 => sys_shutdown
  | 221 => sys_reboot
  | _ => refuse InvalidSyscall
  end.

(** What the program finds in its register; a panic or a call that does not return
    gives it nothing. *)
Definition handle_syscall (syscall_num arg1 arg2 arg3 arg4 arg5 : Z) : Call Z := fun s =>
  match dispatch syscall_num arg1 arg2 arg3 arg4 arg5 s with
  | (Ok val, s) => (Ok val, s)
  | (Err (Error e), s) => (Ok (as_errno e), s)
  | (Err e, s) => (Err e, s)
  end.

(** ** Memory *)

(** Only the memory of the caller has changed. *)
Record memory_only (s s' : OS S D) : Prop := {
  mo_vm : sp_vm (os_space s') = sp_vm (os_space s);
  mo_kernel : os_kernel s' = os_kernel s;
  mo_pid : NEXT_PID (os_sys s') = NEXT_PID (os_sys s);
  mo_fs : os_fs s' = os_fs s;
  mo_graphics : os_graphics s' = os_graphics s;
  mo_reality : os_reality s' = os_reality s
}.

Lemma memory_only_refl s : memory_only s s.
Proof. done. Qed.

Lemma memory_only_trans s1 s2 s3 : memory_only s1 s2 -> memory_only s2 s3 -> memory_only s1 s3.
Proof. intros [] []. constructor; congruence. Qed.

Lemma put_slice_spec ptr bs (s : OS S D) : pages_ok cr3 (os_space s) -> 0 <= ptr -> user_writable cr3 ptr (Z.of_nat (length bs)) (os_space s) ->
  exists s', put_slice ptr bs s = (Ok tt, s') /\ memory_only s s' /\ os_keys s' = os_keys s /\ pages_ok cr3 (os_space s') /\
    forall w, 0 <= w < 2 ^ 47 -> user_byte cr3 w (os_space s') = if (ptr <=? w) && (w <? ptr + Z.of_nat (length bs)) then bs !! Z.to_nat (w - ptr) else user_byte cr3 w (os_space s).
Proof.
  intros Hok Hp Hw. destruct (write_user_bytes_spec cr3 bs ptr (os_space s) Hok Hp Hw) as (sp & E & V & B). unfold put_slice. rewrite E.
  eexists. split; [done|]. split; [by constructor|]. split; [done|]. split; [|exact B]. cbn. destruct Hok. constructor; unfold free_frames in *; by rewrite V.
Qed.

Lemma get_slice_spec ptr bs (s : OS S D) : 0 <= ptr -> user_holds cr3 ptr bs (os_space s) -> get_slice ptr (Z.of_nat (length bs)) s = (Ok bs, s).
Proof. intros Hp Hb. unfold get_slice. by rewrite (user_slice_holds cr3 bs ptr _ Hp Hb). Qed.

Lemma user_string_holds bs : forall v (sp : Space S), 0 <= v -> user_holds cr3 v bs sp -> 0 ∉ bs -> user_string (length bs) v sp = Some bs.
Proof.
  induction bs as [|b bs IH]; intros v sp Hv [Hl Hb] H0; [done|]. apply not_elem_of_cons in H0 as [Hb0 H0]. cbn [user_string length] in *.
  assert (read_user cr3 v sp = Some b) as ->.
  { unfold read_user. rewrite canonical_low by lia. rewrite <- (Hb 0%nat b eq_refl). f_equal. lia. }
  destruct (Z.eqb_spec b 0); [done|]. rewrite IH; [done|lia| |done]. split; [lia|]. intros i c Hi. rewrite <- (Hb (Datatypes.S i) c Hi). f_equal. lia.
Qed.

(** A pointer into the lower half with a length that does not run over. *)
Lemma user_pointer_valid ptr n : 0 <= ptr -> 0 <= n -> ptr + n <= USER_LIMIT -> ptr < USER_LIMIT -> is_user_pointer_valid 1 ptr n = true.
Proof.
  unfold is_user_pointer_valid, USER_LIMIT. intros. rewrite Z.mul_1_r, wrap_small by (unfold in_width; lia).
  destruct (Z.leb_spec 0x0000800000000000 ptr), (Z.leb_spec (2 ^ 64) (ptr + n)); lia || done.
Qed.

Lemma read_user_string_spec ptr bs (s : OS S D) : 0 <= ptr < USER_LIMIT -> user_holds cr3 ptr bs (os_space s) -> 0 ∉ bs -> utf8_valid bs = true ->
  read_user_string ptr (Z.of_nat (length bs)) s = (Ok bs, s).
Proof.
  intros Hp Hb H0 Hu. unfold read_user_string. rewrite user_pointer_valid by (destruct Hb; lia). cbn [negb]. rewrite Nat2Z.id.
  by rewrite user_string_holds, Hu by (done || lia).
Qed.

(** ** Reading a line *)

(** What one [sys_read] of at most [n] bytes takes from the typed [keys]. *)
Fixpoint line (n : Z) (keys : list Z) : list Z * list Z :=
  match keys with
  | [] => ([], [])
  | key :: rest =>
      if n <=? 0 then ([], keys)
      else if delivered key then if key =? 10 then ([key], rest) else let '(l, r) := line (n - 1) rest in (key :: l, r)
      else line n rest
  end.

Lemma read_keys_spec fuel buf count : forall n (s : OS S D), ring_ok (os_keys s) -> pages_ok cr3 (os_space s) -> 0 <= buf + n -> n <= count ->
  let keys := kb_queue (os_keys s) in let '(l, rest) := line (count - n) keys in
  (length keys < fuel)%nat -> user_writable cr3 (buf + n) (Z.of_nat (length l)) (os_space s) ->
  exists s', read_keys fuel buf count n s = (Ok (n + Z.of_nat (length l)), s') /\ memory_only s s' /\ ring_ok (os_keys s') /\ kb_queue (os_keys s') = rest /\
    pages_ok cr3 (os_space s') /\
    forall w, 0 <= w < 2 ^ 47 -> user_byte cr3 w (os_space s') = if (buf + n <=? w) && (w <? buf + n + Z.of_nat (length l)) then l !! Z.to_nat (w - (buf + n)) else user_byte cr3 w (os_space s).
Proof.
  induction fuel as [|fuel IH]; intros n s Hk Hok Hb Hn; cbn zeta.
  { destruct (line _ _). lia. }
  pose proof (getchar_queue (os_keys s) Hk) as Hg. destruct (getchar (os_keys s)) as [c k'] eqn:Eg. destruct Hg as (Hk' & Hq & Hnone).
  assert (forall w : Z, (buf + n <=? w) && (w <? buf + n + Z.of_nat 0) = false) as Hempty.
  { intros w. destruct (Z.leb_spec (buf + n) w), (Z.ltb_spec w (buf + n + Z.of_nat 0)); cbn; done || lia. }
  destruct (Z.ltb_spec n count) as [Hlt|Hge].
  2: { rewrite Hq. destruct (line (count - n) _) as [l rest] eqn:El. assert (l = [] /\ rest = kb_queue (os_keys s)) as [-> ->].
       { rewrite Hq. destruct c; cbn [line] in El; [|by simplify_eq]. destruct (Z.leb_spec (count - n) 0); [by simplify_eq|lia]. }
       intros _ _. exists s. cbn [read_keys]. destruct (Z.ltb_spec n count); [lia|]. split; [by rewrite Z.add_0_r|]. split; [done|]. split; [done|].
       split; [done|]. split; [done|]. intros w _. cbn [length]. by rewrite Hempty. }
  cbn [read_keys]. destruct (Z.ltb_spec n count); [|lia]. rewrite Eg, Hq. destruct c as [key|].
  2: { cbn [line]. intros _ _. rewrite (Hnone eq_refl). exists (set_keys (os_keys s) s). split; [by rewrite Z.add_0_r|]. split; [done|]. split; [done|].
       split; [done|]. split; [done|]. intros w _. cbn [length]. by rewrite Hempty. }
  cbn [line]. destruct (Z.leb_spec (count - n) 0); [lia|]. destruct (delivered key) eqn:Ed.
  - destruct (Z.eqb_spec key 10) as [->|Hne].
    + intros Hf Hw. destruct (put_slice_spec (buf + n) [10] (set_keys k' s) Hok Hb Hw) as (s' & E & M' & K' & O' & B'). exists s'.
      unfold bindM. rewrite E. split; [done|]. split; [by destruct M'|]. rewrite K'. split; [done|]. split; [done|]. split; [done|exact B'].
    + replace (count - n - 1) with (count - (n + 1)) by lia. destruct (line (count - (n + 1)) (kb_queue k')) as [l rest] eqn:El. intros Hf Hw.
      destruct (put_slice_spec (buf + n) [key] (set_keys k' s) Hok Hb) as (s1 & E & M1 & K1 & O1 & B1); [intros w Hw1; apply Hw; cbn [length] in *; lia|].
      unfold bindM at 1. rewrite E. specialize (IH (n + 1) s1). rewrite K1 in IH. cbn [set_keys os_keys] in IH. rewrite El in IH. cbn [length] in *.
      destruct IH as (s' & E' & M' & K' & Q' & O' & B'); [done|done|lia|lia|lia| |].
      { intros w Hw1. rewrite (mo_vm _ _ M1). apply Hw. lia. }
      exists s'. split; [rewrite E'; do 2 f_equal; lia|]. split; [apply (memory_only_trans _ s1); [by destruct M1|done]|]. split; [done|]. split; [done|]. split; [done|].
      intros w Hw1. rewrite B', B1 by done. cbn [length]. change (os_space (set_keys k' s)) with (os_space s).
      destruct (Z.leb_spec (buf + (n + 1)) w), (Z.ltb_spec w (buf + (n + 1) + Z.of_nat (length l))); cbn [andb];
        destruct (Z.leb_spec (buf + n) w), (Z.ltb_spec w (buf + n + Z.of_nat (Datatypes.S (length l)))), (Z.ltb_spec w (buf + n + Z.of_nat 1)); cbn [andb]; try lia; try done.
      * replace (Z.to_nat (w - (buf + n))) with (Datatypes.S (Z.to_nat (w - (buf + (n + 1))))) by lia. done.
      * by replace (w - (buf + n)) with 0 by lia.
  - specialize (IH n (set_keys k' s) Hk' Hok Hb Hn). cbn zeta in IH. cbn [set_keys os_keys] in IH. destruct (line (count - n) (kb_queue k')) as [l rest]. intros Hf Hw.
    destruct IH as (s' & E & M' & R); [cbn [length] in Hf; lia|exact Hw|]. exists s'. split; [exact E|]. split; [by destruct M'|exact R].
Qed.
Lemma line_length n keys : 0 <= n -> Z.of_nat (length (line n keys).1) <= n.
Proof.
  revert n. induction keys as [|key keys IH]; intros n Hn; cbn [line]; [cbn; lia|]. destruct (Z.leb_spec n 0); [cbn; lia|].
  destruct (delivered key); [|by apply IH]. destruct (key =? 10); [cbn; lia|]. specialize (IH (n - 1) ltac:(lia)). destruct (line (n - 1) keys). cbn in *. lia.
Qed.

(** ** Where a call may write *)

(** Physical bytes change only behind addresses of the lower half that the caller's
    tables let the kernel write. *)
Record own_writes (s s' : OS S D) : Prop := {
  ow_vm : sp_vm (os_space s') = sp_vm (os_space s);
  ow_bytes a : byte (sp_bytes (os_space s')) a <> byte (sp_bytes (os_space s)) a ->
    exists v f, 0 <= v < USER_LIMIT /\ is_writable cr3 v (sp_vm (os_space s)) = true /\ Paging.translate cr3 v (sp_vm (os_space s)) = Some f /\ a = f + page_offset v }.

Lemma own_writes_refl s s' : os_space s' = os_space s -> own_writes s s'.
Proof. intros E. constructor; rewrite E; done. Qed.

Lemma own_writes_trans s1 s2 s3 : own_writes s1 s2 -> own_writes s2 s3 -> own_writes s1 s3.
Proof.
  intros [V1 B1] [V2 B2]. constructor; [congruence|]. intros a Ha. destruct (Z.eq_dec (byte (sp_bytes (os_space s2)) a) (byte (sp_bytes (os_space s1)) a)) as [E|E]; [|by apply B1].
  rewrite <- V1. apply B2. congruence.
Qed.

Lemma write_user_changes v b (sp sp' : Space S) : write_user cr3 v b sp = Some sp' -> canonical v = true /\ sp_vm sp' = sp_vm sp /\
  forall a, byte (sp_bytes sp') a <> byte (sp_bytes sp) a -> is_writable cr3 v (sp_vm sp) = true /\ exists f, Paging.translate cr3 v (sp_vm sp) = Some f /\ a = f + page_offset v.
Proof.
  unfold write_user. destruct (canonical v); [|done]. destruct (is_writable _ _ _) eqn:Ew; [|done]. cbn [andb].
  destruct (Paging.translate cr3 v (sp_vm sp)) as [f|] eqn:Et; [|done]. set (m := Bytes.store_bytes _ _ _). intros [= <-]. split; [done|]. split; [done|]. cbn [sp_bytes]. intros a. unfold m. rewrite byte_store. cbn [length].
  destruct (Z.leb_spec (f + page_offset v) a), (Z.ltb_spec a (f + page_offset v + Z.of_nat 1)); cbn [andb]; try done.
  intros _. split; [done|]. exists f. split; [done|lia].
Qed.

(** A write that starts in the lower half stays in it: it would have to pass the first
    address that is not canonical. *)
Lemma write_user_bytes_own bs : forall v (s : OS S D) sp, 0 <= v <= USER_LIMIT -> write_user_bytes cr3 v bs (os_space s) = Some sp -> own_writes s (set_space sp s).
Proof.
  induction bs as [|b bs IH]; intros v s sp Hv; cbn [write_user_bytes]; [intros [= <-]; by apply own_writes_refl|].
  destruct (write_user cr3 v b (os_space s)) as [sp1|] eqn:E1; [|done]. intros E. destruct (write_user_changes _ _ _ _ E1) as (C1 & V1 & B1).
  assert (v <> USER_LIMIT) as Hne by (intros ->; discriminate C1).
  apply (own_writes_trans _ (set_space sp1 s)); [constructor; [done|]; intros a Ha; destruct (B1 a Ha) as (? & f & ? & ->); exists v, f; split; [lia|done]|].
  destruct (IH (v + 1) (set_space sp1 s) sp ltac:(lia) E) as [V B]. by constructor.
Qed.

Lemma put_slice_own ptr bs (s : OS S D) : 0 <= ptr <= USER_LIMIT -> own_writes s (put_slice ptr bs s).2.
Proof.
  intros Hp. unfold put_slice. destruct (write_user_bytes cr3 ptr bs (os_space s)) as [sp|] eqn:E; [|by apply own_writes_refl]. by apply (write_user_bytes_own bs ptr).
Qed.

(** A call that writes only the caller's memory, from every state. *)
Definition safe_call {A} (f : Call A) : Prop := forall s, own_writes s (f s).2.

Lemma safe_bind {A B} (f : Call A) (k : A -> Call B) : safe_call f -> (forall a, safe_call (k a)) -> safe_call (bindM f k).
Proof.
  intros Hf Hk s. unfold bindM. specialize (Hf s). destruct (f s) as [[a|e] s1]; [|done]. eapply own_writes_trans; [exact Hf|]. apply Hk.
Qed.

Lemma safe_ret {A} (a : A) : safe_call (ret a).
Proof. intros s. by apply own_writes_refl. Qed.
Lemma safe_throw {A} e : safe_call (throw e : Call A).
Proof. intros s. by apply own_writes_refl. Qed.
Lemma safe_if {A} (b : bool) (f g : Call A) : safe_call f -> safe_call g -> safe_call (if b then f else g).
Proof. by destruct b. Qed.
Lemma safe_get_slice ptr n : safe_call (get_slice ptr n).
Proof. intros s. unfold get_slice. destruct (user_slice _ _ _ _); by apply own_writes_refl. Qed.
Lemma safe_put_slice ptr bs : 0 <= ptr <= USER_LIMIT -> safe_call (put_slice ptr bs).
Proof. intros Hp s. by apply put_slice_own. Qed.
Lemma safe_checked size ptr n e (f : Call Z) : 0 <= ptr -> (0 <= ptr < USER_LIMIT -> safe_call f) -> safe_call (if negb (is_user_pointer_valid size ptr n) then refuse e else f).
Proof.
  intros Hp Hf. destruct (is_user_pointer_valid size ptr n) eqn:E; [|by intros s; apply own_writes_refl]. apply Hf. unfold is_user_pointer_valid in E. unfold USER_LIMIT.
  destruct (Z.leb_spec 0x0000800000000000 ptr); [done|lia].
Qed.
Lemma safe_quiet {A} (f : Call A) : (forall s, os_space (f s).2 = os_space s) -> safe_call f.
Proof. intros Hf s. by apply own_writes_refl. Qed.
Lemma safe_read_user_string ptr n : safe_call (read_user_string ptr n).
Proof. intros s. unfold read_user_string. repeat case_match; by apply own_writes_refl. Qed.
Lemma safe_on_fs {A} e (f : Fs A) : safe_call (on_fs e f).
Proof. intros s. unfold on_fs. repeat case_match; by apply own_writes_refl. Qed.
Lemma safe_root_only f : safe_call f -> safe_call (root_only f).
Proof. intros Hf s. unfold root_only. repeat case_match; first [apply Hf|by apply own_writes_refl]. Qed.

Lemma safe_read_keys fuel buf count : forall n, 0 <= buf + n <= USER_LIMIT -> safe_call (read_keys fuel buf count n).
Proof.
  induction fuel as [|fuel IH]; intros n Hn; cbn [read_keys]; [apply safe_throw|]. apply safe_if; [|apply safe_ret]. intros s.
  destruct (getchar (os_keys s)) as [[key|] k]; [|by apply own_writes_refl].
  assert (forall f : Call Z, safe_call f -> own_writes s (f (set_keys k s)).2) as Hs.
  { intros f Hf. eapply own_writes_trans; [by apply (own_writes_refl s (set_keys k s))|apply Hf]. }
  destruct (delivered key); [|by apply Hs, IH]. apply Hs. destruct (Z.eq_dec (buf + n) USER_LIMIT) as [E|E].
  - intros s1. unfold bindM, put_slice. rewrite E. cbn [write_user_bytes]. unfold write_user. rewrite canonical_limit. by apply own_writes_refl.
  - apply safe_bind; [by apply safe_put_slice|]. intros _. apply safe_if; [apply safe_ret|]. apply IH. lia.
Qed.

(** ** Results that are no errors *)

Definition is_small (v : Z) : Prop := 0 <= v < 2 ^ 63.

Definition small_at (f : Call Z) (s : OS S D) : Prop := forall v s', f s = (Ok v, s') -> is_small v.
Definition small_call (f : Call Z) : Prop := forall s, small_at f s.

Lemma small_ret v : is_small v -> small_call (ret v).
Proof. by intros Hv s w s' [= <- <-]. Qed.
Lemma small_throw e : small_call (throw e).
Proof. by intros s w s'. Qed.
Lemma small_if (b : bool) f g : small_call f -> small_call g -> small_call (if b then f else g).
Proof. by destruct b. Qed.
Lemma small_bind {A} (f : Call A) k : (forall a, small_call (k a)) -> small_call (bindM f k).
Proof. intros Hk s v s'. unfold bindM. destruct (f s) as [[a|e] s1]; [apply Hk|done]. Qed.
Lemma small_root_only f : small_call f -> small_call (root_only f).
Proof. intros Hf s v s'. unfold root_only. repeat case_match; first [apply Hf|done]. Qed.
Lemma small_quiet f : (forall s, match (f s).1 with Ok v => is_small v | Err _ => True end) -> small_call f.
Proof. intros Hf s v s' E. specialize (Hf s). by rewrite E in Hf. Qed.

(** Bytes that could be read or written lie in one half of the address space. *)
Lemma small_get_slice ptr n k : (n <= USER_LIMIT -> forall bs, small_call (k bs)) -> small_call (bindM (get_slice ptr n) k).
Proof.
  intros Hk s v s'. unfold bindM, get_slice. destruct (user_slice cr3 ptr n (os_space s)) as [bs|] eqn:E; [|done]. apply Hk.
  apply (canonical_run ptr). intros w Hw. unfold user_slice in E. apply mapM_Some_1 in E.
  destruct (Forall2_lookup_l _ _ _ (Z.to_nat (w - ptr)) w E) as (b & _ & Hb); [apply lookup_seqZ; lia|]. unfold read_user in Hb. by destruct (canonical w).
Qed.

Lemma write_user_bytes_canonical bs : forall v (sp sp' : Space S), write_user_bytes cr3 v bs sp = Some sp' -> forall w, v <= w < v + Z.of_nat (length bs) -> canonical w = true.
Proof.
  induction bs as [|b bs IH]; intros v sp sp' E w Hw; cbn [write_user_bytes length] in *; [lia|]. destruct (write_user cr3 v b sp) as [sp1|] eqn:E1; [|done].
  destruct (Z.eq_dec w v) as [->|Hne]; [by destruct (write_user_changes _ _ _ _ E1)|]. apply (IH _ _ _ E). lia.
Qed.

Lemma small_put_slice ptr bs k : (Z.of_nat (length bs) <= USER_LIMIT -> small_call (k tt)) -> small_call (bindM (put_slice ptr bs) k).
Proof.
  intros Hk s v s'. unfold bindM, put_slice. destruct (write_user_bytes cr3 ptr bs (os_space s)) as [sp|] eqn:E; [|done]. apply Hk.
  apply (canonical_run ptr). by eapply write_user_bytes_canonical.
Qed.

Lemma small_read_keys fuel buf count : forall n, 0 <= n -> n + Z.of_nat fuel < 2 ^ 63 -> small_call (read_keys fuel buf count n).
Proof.
  induction fuel as [|fuel IH]; intros n Hn Hf; cbn [read_keys]; [apply small_throw|]. apply small_if; [|apply small_ret; split; lia]. intros s v s'.
  destruct (getchar (os_keys s)) as [[key|] k]; [|intros [= <- <-]; split; lia]. destruct (delivered key); [|apply IH; lia].
  apply small_bind. intros _. apply small_if; [apply small_ret; split; lia|apply IH; lia].
Qed.

Lemma small_ret_zero : small_call (ret 0).
Proof. by apply small_ret. Qed.

(** The numbers that the system hands out have not run through half of their range. *)
Record numbers_ok (s : OS S D) : Prop := {
  no_pid : is_small (current_pid (os_kernel s));
  no_process p : current_process s = Some p -> is_small (uid p) /\ is_small (p_heap_end p);
  no_surface g : os_graphics s = Some g -> is_small (next_surface_id g);
  no_reality : is_small (REALITY_COUNTER (os_reality s));
  no_screen : 0 <= screen.1 < 2 ^ 31 /\ 0 <= screen.2 < 2 ^ 32
}.
End Calls.

Create HintDb syscall.
#[export] Hint Resolve safe_bind safe_ret safe_throw safe_if safe_get_slice safe_read_user_string safe_on_fs safe_root_only : syscall.
#[export] Hint Resolve small_throw small_ret_zero small_if small_bind small_root_only : syscall.
#[export] Hint Extern 9 (safe_call _ _) => apply safe_quiet; intros; repeat (case_match; simplify_eq/=); reflexivity : syscall.

(** ** Theorems *)

Section Theorems.
Context `{Machine} {S D : Type} `{FS : FrameSource S} `{BL : BlockDeviceLaws D} `{HP : KernelHeap}.
Context (cr3 : Z) (cpu : nat) (screen : Z * Z).

Notation syscall := (handle_syscall cr3 cpu screen).
Notation small := (small_call (S:=S) (D:=D)).
Notation safe := (safe_call (S:=S) (D:=D) cr3).

Lemma safe_sys_read fd buf count : 0 <= buf -> safe (sys_read cr3 fd buf count).
Proof.
  intros Hb. unfold sys_read. apply safe_if; [apply safe_throw|]. apply safe_checked; [done|]. intros Hl. apply safe_if; [|apply safe_throw]. apply safe_read_keys. lia.
Qed.

Lemma safe_sys_reality_status p : 0 <= p -> safe (sys_reality_status cr3 p).
Proof.
  intros Hp. unfold sys_reality_status. destruct (p =? 0); [apply safe_throw|]. cbn [orb]. apply safe_checked; [done|]. intros Hl.
  apply safe_bind; [by apply safe_quiet|]. intros r. apply safe_bind; [apply safe_put_slice; lia|]. intros _. apply safe_ret.
Qed.

Lemma safe_sys_fs_read_file path pl buf bl : 0 <= buf -> safe (sys_fs_read_file cr3 path pl buf bl).
Proof.
  intros Hb. unfold sys_fs_read_file. apply safe_if; [apply safe_throw|]. destruct (buf =? 0); [apply safe_throw|]. cbn [orb]. apply safe_checked; [done|]. intros Hl.
  apply safe_bind; [apply safe_read_user_string|]. intros name. apply safe_bind; [apply safe_on_fs|]. intros bs. cbn zeta.
  apply safe_bind; [apply safe_put_slice; lia|]. intros _. apply safe_ret.
Qed.

Lemma safe_dispatch n a1 a2 a3 a4 a5 : n <> 12 -> n <> 45 -> 0 <= a1 -> 0 <= a2 -> 0 <= a3 -> safe (dispatch cr3 cpu screen n a1 a2 a3 a4 a5).
Proof.
  intros H12 H45 H1 H2 H3. unfold dispatch.
  destruct n as [|p|p]; repeat match goal with |- context [match ?q with xI _ => _ | xO _ => _ | xH => _ end] => is_var q; destruct q end; try done;
    first [by apply safe_sys_read|by apply safe_sys_reality_status|by apply safe_sys_fs_read_file|idtac];
    unfold sys_write, sys_open, sys_close, sys_exit, sys_getpid, sys_fork, sys_yield, sys_getuid, sys_print_colored, sys_fs_list, sys_get_process_info,
      sys_get_mem_info, sys_get_cpu_info, sys_clear_screen, sys_reality_fork, sys_reality_merge, sys_intent_request, sys_capability_check,
      sys_graphics_create_surface, sys_graphics_blit, sys_graphics_present, sys_graphics_fill_rect, sys_graphics_get_screen_size,
      sys_fs_create, sys_fs_write_file, sys_fs_delete, sys_fs_format, sys_fs_mount, sys_fs_sync, sys_shutdown, sys_reboot, sync_files, refuse; auto 12 with syscall.
Qed.
Lemma small_brk a (s : OS S D) : numbers_ok screen s -> 0 <= a -> small_at (on_sys (sys_brk a)) s.
Proof.
  intros Hs Ha v s'. pose proof (no_process _ _ Hs) as Hp. unfold current_process in Hp. unfold on_sys, sys_brk. change (sy_kernel (os_sys s)) with (os_kernel s).
  destruct (get_current_pid (os_kernel s)) as [p|]; [|done]. destruct (get p (table (os_kernel s))) as [proc|]; [|done]. destruct (Hp proc eq_refl) as [_ He]. clear Hp.
  destruct (a =? 0); [by intros [= <- <-]|]. destruct (Z.ltb_spec a (p_heap_start proc)), (Z.leb_spec BRK_LIMIT a); try done. cbn [orb].
  destruct (align_up_heap a) as (-> & Hb & _); [lia|]. assert (is_small (round_up a 4096)) as Hr by (unfold is_small, BRK_LIMIT in *; lia).
  repeat case_match; intros [= <- <-]; simplify_eq; done.
Qed.

Lemma small_sbrk a (s : OS S D) : numbers_ok screen s -> small_at (on_sys (sys_sbrk a)) s.
Proof.
  intros Hs v s'. pose proof (no_process _ _ Hs) as Hp. unfold current_process in Hp. unfold on_sys, sys_sbrk. change (sy_kernel (os_sys s)) with (os_kernel s).
  destruct (get_current_pid (os_kernel s)) as [p|]; [|done]. destruct (get p (table (os_kernel s))) as [proc|]; [|done]. destruct (Hp proc eq_refl) as [_ He]. clear Hp.
  cbn zeta. destruct (if 0 <=? a then _ else _); [|done]. destruct (a =? 0); [by intros [= <- <-]|]. destruct (sys_brk _ _) as [[]]; [by intros [= <- <-]|done].
Qed.

(** The calls whose result comes from their arguments. *)
Ltac small_calls :=
  repeat match goal with
         | |- small_call (throw _) => apply small_throw
         | |- small_call (ret 0) => apply small_ret_zero
         | |- small_call (if _ then _ else _) => apply small_if
         end.

Lemma small_sys_read fd buf count : small (sys_read cr3 fd buf count).
Proof. unfold sys_read, refuse. small_calls. apply small_read_keys; lia. Qed.

Lemma small_sys_write fd buf count : 0 <= buf -> 0 <= count -> small (sys_write cr3 fd buf count).
Proof.
  intros Hb Hc. unfold sys_write, refuse. small_calls. apply small_get_slice. unfold USER_LIMIT. intros Hl bs. small_calls. apply small_ret. split; lia.
Qed.

Lemma small_sys_print_colored buf len c : 0 <= buf -> 0 <= len -> small (sys_print_colored cr3 buf len c).
Proof.
  intros Hb Hc. unfold sys_print_colored, refuse. small_calls. apply small_get_slice. unfold USER_LIMIT. intros Hl bs. small_calls. apply small_ret. split; lia.
Qed.

Lemma small_sys_fs_write_file path pl data dl : 0 <= data -> 0 <= dl -> small (sys_fs_write_file cr3 path pl data dl).
Proof.
  intros Hd Hl. unfold sys_fs_write_file, refuse. small_calls. apply small_bind. intros name. apply small_get_slice. unfold USER_LIMIT. intros Hlim bs.
  apply small_bind. intros []. apply small_ret. split; lia.
Qed.

Lemma small_sys_fs_read_file path pl buf bl : 0 <= buf -> 0 <= bl -> small (sys_fs_read_file cr3 path pl buf bl).
Proof.
  intros Hb Hl. unfold sys_fs_read_file, refuse. small_calls. apply small_bind. intros name. apply small_bind. intros bs. cbn zeta. apply small_put_slice.
  rewrite length_take. unfold USER_LIMIT. intros Hlim. apply small_ret. split; lia.
Qed.

Lemma small_graphics_blit i p n : small (sys_graphics_blit cr3 i p n).
Proof. unfold sys_graphics_blit, refuse. small_calls. apply small_bind. intros bs. apply small_quiet. intros s. by destruct (graphics_update_surface i bs (os_graphics s)) as [[[] ?]|]. Qed.

Lemma small_graphics_present i : small (sys_graphics_present i).
Proof. apply small_quiet. intros s. unfold sys_graphics_present. destruct (graphics_present_surface i (os_graphics s)) as [[] g]; [|done]. by destruct (graphics_composite_frame g). Qed.

Lemma small_graphics_fill_rect i x y w h c : small (sys_graphics_fill_rect i x y w h c).
Proof.
  apply small_quiet. intros s. unfold sys_graphics_fill_rect. destruct (os_graphics s) as [g|]; [|done]. destruct (find_surface i g) as [[k sf]|]; [|done].
  by destruct (fill_surface x y w h c sf).
Qed.

(** The calls whose result comes from the state. *)
Lemma small_graphics_create_surface w h (s : OS S D) : numbers_ok screen s -> small_at (sys_graphics_create_surface w h) s.
Proof.
  intros Hs v s'. unfold sys_graphics_create_surface, refuse. destruct (_ || _); [done|]. unfold graphics_create_surface, if_initialized_or, create_surface.
  pose proof (no_surface _ _ Hs) as Hg. destruct (os_graphics s) as [g|]; [|done]. cbn [if_initialized_or]. destruct (Surface_new _ w h) as [[]|]; [|done|done]. intros [= <- <-]. by apply Hg.
Qed.

Lemma small_screen_size (s : OS S D) : numbers_ok screen s -> small_at (sys_graphics_get_screen_size screen) s.
Proof.
  intros [_ _ _ _ [Hw Hh]]. apply small_ret. destruct screen as [w h]. cbn [fst snd] in *. rewrite Z.shiftl_mul_pow2 by lia. rewrite wrap_small by (unfold in_width; lia).
  change (in_width 63 (Z.lor (w * 2 ^ 32) h)). apply lor_in_width; unfold in_width; lia.
Qed.

Lemma small_getpid (s : OS S D) : numbers_ok screen s -> small_at sys_getpid s.
Proof.
  intros Hs v s'. unfold sys_getpid, get_current_pid. pose proof (no_pid _ _ Hs). destruct (current_pid (os_kernel s) =? 0); [done|]. by intros [= <- <-].
Qed.

Lemma small_getuid (s : OS S D) : numbers_ok screen s -> small_at sys_getuid s.
Proof.
  intros Hs v s'. unfold sys_getuid. pose proof (no_process _ _ Hs) as Hp. destruct (current_process s) as [p|]; [|done]. intros [= <- <-]. by apply Hp.
Qed.

Lemma small_reality_fork (s : OS S D) : numbers_ok screen s -> small_at sys_reality_fork s.
Proof. intros Hs v s' [= <- <-]. apply (no_reality _ _ Hs). Qed.

Lemma small_dispatch n a1 a2 a3 a4 a5 (s : OS S D) : numbers_ok screen s -> in_width 64 a1 -> in_width 64 a2 -> in_width 64 a3 -> in_width 64 a4 ->
  small_at (dispatch cr3 cpu screen n a1 a2 a3 a4 a5) s.
Proof.
  intros Hs [H1 _] [H2 _] [H3 _] [H4 _].
  assert (forall f : Call Z, small_call f -> small_at f s) as Hcall by (intros f Hf; apply Hf). unfold dispatch.
  destruct n as [|p|p]; repeat match goal with |- context [match ?q with xI _ => _ | xO _ => _ | xH => _ end] => is_var q; destruct q end;
    first [by apply Hcall, small_throw|by apply Hcall, small_ret_zero|by apply Hcall, small_sys_read|by apply Hcall, small_sys_write|by apply Hcall, small_sys_print_colored
      |by apply Hcall, small_sys_fs_write_file|by apply Hcall, small_sys_fs_read_file|by apply Hcall, small_graphics_blit|by apply Hcall, small_graphics_present
      |by apply Hcall, small_graphics_fill_rect|by apply small_graphics_create_surface|by apply small_screen_size|by apply small_brk|by apply small_sbrk
      |by apply small_getpid|by apply small_getuid|by apply small_reality_fork|idtac];
    apply Hcall; first [by apply small_ret|by apply small_quiet|idtac];
    unfold sys_open, sys_close, sys_reality_status, sys_intent_request, sys_fs_create, sys_fs_delete, sys_fs_format, sys_fs_mount, sys_fs_sync, sys_shutdown, sys_reboot,
      refuse; auto 12 with syscall.
Qed.

(** C6: No call of the dispatcher of usermode/syscall.rs other than [brk] and [sbrk], whatever
    its number and arguments, changes the tables or any byte of memory that the calling
    program could not have changed itself: a byte that changes lies behind an address
    of the lower half that the tables of the caller let the program write, on all four
    levels.  The kernel itself may write anywhere; it is the pointer checks of
    the handlers that keep it out of its own half ([fast_read_unchecked] shows a
    handler without one).  The tables are those of a program: whatever they map in the
    lower half carries the USER bit. *)
Theorem calls_write_own_memory n a1 a2 a3 a4 a5 (s : OS S D) : n <> 12 -> n <> 45 -> in_width 64 a1 -> in_width 64 a2 -> in_width 64 a3 ->
  lower_half_user cr3 (sp_vm (os_space s)) = true ->
  let s' := (syscall n a1 a2 a3 a4 a5 s).2 in
  sp_vm (os_space s') = sp_vm (os_space s) /\
  forall a, byte (sp_bytes (os_space s')) a <> byte (sp_bytes (os_space s)) a ->
    exists v f, 0 <= v < USER_LIMIT /\ user_may_write cr3 v (sp_vm (os_space s)) = true /\ Paging.translate cr3 v (sp_vm (os_space s)) = Some f /\ a = f + page_offset v.
Proof.
  intros H12 H45 [H1 _] [H2 _] [H3 _] Hu. assert (own_writes cr3 s (syscall n a1 a2 a3 a4 a5 s).2) as [V B].
  { pose proof (safe_dispatch n a1 a2 a3 a4 a5 H12 H45 H1 H2 H3 s) as Hs. unfold handle_syscall. by destruct (dispatch cr3 cpu screen n a1 a2 a3 a4 a5 s) as [[v|[e| |]] s']. }
  split; [exact V|]. intros a Ha. destruct (B a Ha) as (v & f & Hv & Hw & Ht & E). exists v, f. split; [done|]. split; [by apply lower_half_writable|done].
Qed.

(** The other handler of reads, behind the [syscall] instruction, has no such check: a
    program that passes an address of the kernel's half which the kernel may write
    puts a typed character there. *)
Theorem fast_read_unchecked v key k f (s : OS S D) : 2 ^ 64 - USER_LIMIT <= v < 2 ^ 64 -> getchar (os_keys s) = (Some key, k) ->
  is_writable cr3 v (sp_vm (os_space s)) = true -> Paging.translate cr3 v (sp_vm (os_space s)) = Some f ->
  exists s', fast_sys_read cr3 0 v s = (Ok 1, s') /\ byte (sp_bytes (os_space s')) (f + page_offset v) = key.
Proof.
  intros Hv Hk Hw Ht. unfold fast_sys_read. destruct (Z.eqb_spec v 0) as [E|_]; [unfold USER_LIMIT in Hv; lia|]. change (0 =? 0) with true. cbn [negb andb]. rewrite Hk.
  assert (canonical v = true) as Hc by (apply orb_true_iff; right; apply andb_true_iff; split; [apply Z.leb_le|apply Z.ltb_lt]; lia).
  unfold bindM, put_slice. cbn [write_user_bytes]. change (os_space (set_keys k s)) with (os_space s). unfold write_user. rewrite Hc, Hw, Ht. cbn [andb].
  eexists. split; [reflexivity|]. change (byte (Bytes.store_bytes (f + page_offset v) [key] (sp_bytes (os_space s))) (f + page_offset v) = key). rewrite byte_store. cbn [length].
  destruct (Z.leb_spec (f + page_offset v) (f + page_offset v)), (Z.ltb_spec (f + page_offset v) (f + page_offset v + Z.of_nat 1)); cbn [andb]; try lia. by rewrite Z.sub_diag.
Qed.

(** Reading the standard input ends, for every line that was typed: the caller gets
    the printable characters up to its limit or the end of the line, they are in its
    buffer in order, the rest of the line stays for the next call, and nothing else
    of the system changes. *)
Theorem sys_read_line fd buf count a4 a5 (s : OS S D) : ring_ok (os_keys s) -> pages_ok cr3 (os_space s) -> to_i32 fd = 0 -> 0 < buf < USER_LIMIT -> 0 < count -> count + buf < 2 ^ 64 ->
  let '(l, rest) := line count (kb_queue (os_keys s)) in
  user_writable cr3 buf (Z.of_nat (length l)) (os_space s) ->
  exists s', syscall 0 fd buf count a4 a5 s = (Ok (Z.of_nat (length l)), s') /\ memory_only s s' /\ ring_ok (os_keys s') /\ kb_queue (os_keys s') = rest /\
    forall w, 0 <= w < 2 ^ 47 -> user_byte cr3 w (os_space s') = if (buf <=? w) && (w <? buf + Z.of_nat (length l)) then l !! Z.to_nat (w - buf) else user_byte cr3 w (os_space s).
Proof.
  intros Hk Hok Hfd Hb Hc Hsum. pose proof (read_keys_spec cr3 257 buf count 0 s Hk Hok ltac:(lia) ltac:(lia)) as Hr. cbn zeta in Hr. rewrite Z.sub_0_r in Hr.
  destruct (line count (kb_queue (os_keys s))) as [l rest]. rewrite !Z.add_0_r in Hr. intros Hw. destruct Hr as (s' & E & M' & K & Q & _ & B).
  { pose proof (length_ring (KB_BUFFER (os_keys s)) (KB_WRITE_POS (os_keys s)) (KB_READ_POS (os_keys s))) as Hl. pose proof (held_range (KB_WRITE_POS (os_keys s)) (KB_READ_POS (os_keys s))).
    unfold kb_queue. lia. }
  { exact Hw. }
  exists s'. split; [|done]. unfold handle_syscall. cbn [dispatch]. rewrite Hfd. unfold sys_read. destruct (Z.eqb_spec buf 0), (Z.eqb_spec count 0); try lia. cbn [orb Z.ltb].
  assert (is_user_pointer_valid 1 buf count = true) as ->.
  { unfold is_user_pointer_valid. rewrite Z.mul_1_r, wrap_small by (unfold in_width; lia). unfold USER_LIMIT in Hb.
    destruct (Z.leb_spec 0x0000800000000000 buf), (Z.leb_spec (2 ^ 64) (buf + count)); lia || done. }
  cbn [negb]. change (0 =? 0) with true. change (0 <? 0) with false. cbn [orb]. by rewrite E.
Qed.

(** C25: What a program writes to a file with one call it reads back with another, into any
    buffer of its own: as many bytes as fit, and no other byte of its memory changes.  The
    disk is mounted and has a run of free blocks for the file, and a directory slot if it
    is new; the three pointers are to memory of the program.  The inodes of all other files
    stay; their contents need not ([PsychicFs.second_file_shares_blocks]). *)
Theorem file_round_trip p name bytes b path data buf buf_len a5 a5' (s : OS S D) :
  ready (os_fs s) p -> valid_name name -> name <> [] -> (exists k, 0 <= k < 256 /\ in_use (slot (disk (os_fs s)) k) = 0) \/ (exists k, first_named name (disk (os_fs s)) k) ->
  free_run p (blocks_for (Z.of_nat (length bytes))) b ->
  pages_ok cr3 (os_space s) -> 0 < path < USER_LIMIT -> 0 < data < USER_LIMIT -> 0 < buf < USER_LIMIT -> 0 <= buf_len -> buf + buf_len < 2 ^ 64 ->
  user_holds cr3 path name (os_space s) -> user_holds cr3 data bytes (os_space s) ->
  let n := Z.min (Z.of_nat (length bytes)) buf_len in user_writable cr3 buf n (os_space s) ->
  exists s1 s2, syscall 206 path (Z.of_nat (length name)) data (Z.of_nat (length bytes)) a5 s = (Ok (Z.of_nat (length bytes)), s1) /\
    syscall 208 path (Z.of_nat (length name)) buf buf_len a5' s1 = (Ok n, s2) /\
    (forall w, 0 <= w < 2 ^ 47 -> user_byte cr3 w (os_space s2) = if (buf <=? w) && (w <? buf + n) then bytes !! Z.to_nat (w - buf) else user_byte cr3 w (os_space s)) /\
    (forall m, m <> name -> lookup_file m (os_fs s2) = lookup_file m (os_fs s)).
Proof.
  intros R Hn Hne Hroom Hf Hok Hp Hd Hb Hbl Hsum Pn Pd n Hw. destruct (fs_write_read_spec (os_fs s) p name bytes b R Hn Hroom Hf) as (w' & Ew & Er & Eo).
  destruct Hn as (_ & Hu & Hz). exists (set_fs w' s).
  assert (Z.of_nat (length name) <> 0) as Hl by (destruct name; [done|cbn; lia]).
  assert (forall w, read_user_string cr3 path (Z.of_nat (length name)) (set_fs w s) = (Ok name, set_fs w s)) as Es by (intros w; apply read_user_string_spec; [lia|done..]).
  assert (n = Z.of_nat (length (take (Z.to_nat n) bytes))) as Hlen by (rewrite length_take; lia).
  destruct (put_slice_spec cr3 buf (take (Z.to_nat n) bytes) (set_fs w' s) Hok ltac:(lia)) as (s2 & E2 & M2 & _ & _ & B2); [by rewrite <- Hlen|].
  exists s2. split; [|split; [|split]].
  - unfold handle_syscall. cbn [dispatch]. unfold sys_fs_write_file, bindM, refuse. destruct (Z.eqb_spec path 0), (Z.eqb_spec (Z.of_nat (length name)) 0), (Z.eqb_spec data 0); try lia. cbn [orb].
    rewrite user_pointer_valid by (destruct Pd; lia). cbn [negb]. rewrite (read_user_string_spec cr3 path name s) by (done || lia).
    rewrite (get_slice_spec cr3 data bytes s) by (done || lia). unfold on_fs. by rewrite Ew.
  - unfold handle_syscall. cbn [dispatch]. unfold sys_fs_read_file, bindM, refuse. destruct (Z.eqb_spec path 0), (Z.eqb_spec (Z.of_nat (length name)) 0), (Z.eqb_spec buf 0); try lia. cbn [orb].
    assert (is_user_pointer_valid 1 buf buf_len = true) as ->.
    { unfold is_user_pointer_valid. rewrite Z.mul_1_r, wrap_small by (unfold in_width; lia). unfold USER_LIMIT in Hb.
      destruct (Z.leb_spec 0x0000800000000000 buf), (Z.leb_spec (2 ^ 64) (buf + buf_len)); lia || done. }
    cbn [negb]. rewrite Es. unfold on_fs. cbn [set_fs os_fs]. rewrite Er. change (set_fs w' (set_fs w' s)) with (set_fs w' s). cbn zeta. fold n. by rewrite E2.
  - intros w Hwr. rewrite B2 by done. rewrite <- Hlen. destruct (Z.leb_spec buf w), (Z.ltb_spec w (buf + n)); cbn [andb]; try done. rewrite lookup_take_lt by lia. done.
  - intros m Hm. rewrite (mo_fs _ _ M2). by apply Eo.
Qed.
(** A program can tell an error from a result: as long as the numbers that the system
    hands out have not run through half of their range, a value below 2^63 is the
    result of the call, and any other value names exactly one error. *)
Theorem errors_recognised n a1 a2 a3 a4 a5 (s s' : OS S D) r : numbers_ok screen s -> in_width 64 a1 -> in_width 64 a2 -> in_width 64 a3 -> in_width 64 a4 ->
  syscall n a1 a2 a3 a4 a5 s = (Ok r, s') ->
  if r <? 2 ^ 63 then dispatch cr3 cpu screen n a1 a2 a3 a4 a5 s = (Ok r, s')
  else exists e, dispatch cr3 cpu screen n a1 a2 a3 a4 a5 s = (Err (Error e), s') /\ r = as_errno e /\ forall e', as_errno e' = r -> e' = e.
Proof.
  intros Hs H1 H2 H3 H4. pose proof (small_dispatch n a1 a2 a3 a4 a5 s Hs H1 H2 H3 H4) as Hd. unfold handle_syscall.
  destruct (dispatch cr3 cpu screen n a1 a2 a3 a4 a5 s) as [[v|[e| |]] s1] eqn:E; intros [= <- <-].
  - destruct (Hd v s1 E) as [_ Hv]. by destruct (Z.ltb_spec v (2 ^ 63)); [|lia].
  - destruct (Z.ltb_spec (as_errno e) (2 ^ 63)) as [Hlt|_]; [by destruct e|]. exists e. split; [done|]. split; [done|]. by intros [] E'; destruct e.
Qed.

(** Formatting the disk, powering off and rebooting are for the user 0: any other
    process is refused and nothing changes.  Without a current process the call runs. *)
Theorem privileged_calls n a1 a2 a3 a4 a5 (s : OS S D) : n = 213 \/ n = 220 \/ n = 221 ->
  let as_root :=
    if n =? 213 then (let '(r, w) := fs_format (os_fs s) in (match r with Ok _ => Ok 0 | Err _ => Ok (as_errno IoError) end, set_fs w s))
    else (Err Diverges, set_fs (fs_sync (os_fs s)).2 s) in
  syscall n a1 a2 a3 a4 a5 s =
  match current_process s with
  | Some p => if uid p =? 0 then as_root else (Ok (as_errno PermissionDenied), s)
  | None => as_root
  end.
Proof.
  intros Hn. cbn zeta. destruct Hn as [->|[->| ->]]; unfold handle_syscall; cbn [dispatch]; unfold sys_fs_format, sys_shutdown, sys_reboot, root_only;
    destruct (current_process s) as [p|]; try (destruct (uid p =? 0)); try done; cbn [Z.eqb Pos.eqb]; unfold bindM, on_fs; by destruct (fs_format (os_fs s)) as [[]].
Qed.

(** A pointer into the lower half that nothing is mapped at passes the check, and the
    kernel panics when it follows it. *)
Theorem unmapped_pointer_panics buf count a4 a5 (s : OS S D) : 0 < buf < USER_LIMIT -> 0 < count < 2 ^ 64 - buf -> user_byte cr3 buf (os_space s) = None ->
  syscall 1 1 buf count a4 a5 s = (Err Panic, s).
Proof.
  intros Hb Hc Hn. unfold handle_syscall. cbn [dispatch]. unfold sys_write. change (to_i32 1) with 1. destruct (Z.eqb_spec buf 0), (Z.eqb_spec count 0); try lia. cbn [orb Z.ltb Z.eqb Z.compare].
  assert (is_user_pointer_valid 1 buf count = true) as ->.
  { unfold is_user_pointer_valid, USER_LIMIT in *. rewrite Z.mul_1_r, wrap_small by (unfold in_width; lia).
    destruct (Z.leb_spec 0x0000800000000000 buf), (Z.leb_spec (2 ^ 64) (buf + count)); lia || done. }
  cbn [negb]. change (Pos.eqb 1 1) with true. cbn [orb]. unfold bindM, get_slice, user_slice. rewrite seqZ_cons by lia. cbn [mapM].
  assert (read_user cr3 buf (os_space s) = None) as ->; [|done]. unfold read_user. by destruct (canonical buf).
Qed.

(** ** Graphics *)

(** A server in use: nothing has marked damage. *)
Definition serving (g : GraphicsServer) : Prop := server_ok g /\ ids_fresh g /\ damage_rects (compositor g) = [].

Lemma serving_stepped o g g' : serving g -> stepped o g g' -> serving g' /\ next_surface_id g' <= next_surface_id g + 1.
Proof.
  intros (Hok & Hid & Hd) (O & I & N & C). split; [|done]. split; [done|]. split; [done|]. destruct o; try (by rewrite C). by destruct C as (_ & -> & _).
Qed.

Lemma serving_put k sf sf' g : serving g -> surfaces g !! k = Some sf -> drawable sf' -> id sf' = id sf -> serving (put_surface k sf' g).
Proof. intros (Hok & Hid & Hd) Hk Hs Hi. by destruct (put_surface_ok k sf sf' g Hok Hid Hk Hs Hi). Qed.

(** Memory holds bytes. *)
Definition bytes_typed (sp : Space S) : Prop := forall a, in_width 8 (byte (sp_bytes sp) a).

Lemma user_slice_typed u v n (sp : Space S) bs : bytes_typed sp -> user_slice u v n sp = Some bs -> Forall (in_width 8) bs.
Proof.
  intros Ht E. unfold user_slice in E. apply mapM_Some_1 in E. induction E as [|w b ws bs Hb _ IH]; constructor; [|done]. unfold read_user, user_byte in Hb.
  destruct (canonical w); [|done]. destruct (Paging.translate u w (sp_vm sp)); [|done]. injection Hb as <-. apply Ht.
Qed.

(** What programs ask of the graphics server leaves it in order, and the kernel panics
    only if the image that a program hands over is not in its memory, or the heap has no
    room for the surface that it asks for. *)
Theorem graphics_calls_safe n a1 a2 a3 a4 a5 (s : OS S D) g : n = 2000 \/ n = 2002 \/ n = 2003 \/ n = 2004 -> in_width 64 a1 -> in_width 64 a2 ->
  os_graphics s = Some g -> serving g -> next_surface_id g + 1 < 2 ^ 64 -> bytes_typed (os_space s) ->
  let '(r, s') := syscall n a1 a2 a3 a4 a5 s in
  (exists g', os_graphics s' = Some g' /\ serving g' /\ next_surface_id g' <= next_surface_id g + 1) /\
  (is_ok r = false -> r = Err Panic /\ (n = 2002 /\ user_slice cr3 a2 a3 (os_space s) = None \/
    n = 2000 /\ size_ok (wrap 32 a1) (wrap 32 a2) /\ heap_has (wrap 32 a1 * wrap 32 a2 * 4) = false)).
Proof.
  intros Hn W1 W2 Eg Hg Hi Ht. assert (exists g', Some g = Some g' /\ serving g' /\ next_surface_id g' <= next_surface_id g + 1) as Hsame by (exists g; split; [done|]; split; [done|lia]).
  pose proof Hg as (Hok & Hid & Hdm). destruct Hn as [->|[->|[->| ->]]]; unfold handle_syscall; cbn [dispatch].
  - unfold sys_graphics_create_surface, refuse, throw. destruct (_ || _); [cbn; by rewrite Eg|]. cbn beta. rewrite Eg. unfold graphics_create_surface, if_initialized_or.
    pose proof (create_surface_ok (wrap 32 a1) (wrap 32 a2) g Hok Hid ltac:(by apply wrap_in_width) ltac:(by apply wrap_in_width) Hi) as Hc.
    destruct (create_surface (wrap 32 a1) (wrap 32 a2) g) as [[[i|e] g1]|e]; cbn.
    1, 2: destruct Hc as [_ Hc]; apply serving_stepped in Hc; [|done]; (split; [by exists g1|done]).
    rewrite Eg. split; [done|]. intros _. split; [done|]. right. naive_solver.
  - unfold sys_graphics_blit, refuse, throw. destruct (_ || _); [cbn; by rewrite Eg|]. unfold bindM, get_slice. destruct (user_slice cr3 a2 a3 (os_space s)) as [bs|] eqn:Eb; [|cbn; rewrite Eg; naive_solver].
    cbn beta iota. rewrite Eg. unfold graphics_update_surface, if_initialized_or. destruct (update_surface_ok a1 bs g Hok Hid) as (r & g1 & -> & Hst); [by eapply user_slice_typed|].
    apply serving_stepped in Hst; [|done]. destruct r; cbn; (split; [by exists g1|done]).
  - unfold sys_graphics_present. rewrite Eg. unfold graphics_present_surface, if_initialized.
    pose proof (run_server_ok (fun _ => true, Present a1) g Hok Hid I Hi ltac:(done)) as Hp. cbn [fst snd run_server] in Hp. apply serving_stepped in Hp as [G1 N1]; [|done].
    assert (next_surface_id (present_surface a1 g).2 = next_surface_id g) as N2 by (unfold present_surface; by destruct (find_surface a1 g) as [[]|]).
    destruct (present_surface a1 g) as [[[]|e] g1]; cbn [snd] in *; [|cbn; split; [by exists g1|done]]. pose proof G1 as (Hok1 & Hid1 & Hd1). unfold graphics_composite_frame.
    pose proof (run_server_ok (fun _ => true, Composite) g1 Hok1 Hid1 I ltac:(lia) ltac:(by right)) as Hf. cbn [fst snd run_server] in Hf.
    destruct (composite_frame g1) as [g2|e]; [|inversion Hf]. apply serving_stepped in Hf as [G2 N3]; [|done]. cbn. split; [exists g2; split; [done|]; split; [done|lia]|done].
  - unfold sys_graphics_fill_rect. rewrite Eg. destruct (find_surface a1 g) as [[k sf]|] eqn:Ef; [|cbn; by rewrite Eg]. apply find_surface_some in Ef as [Hk Hd]; [|done].
    destruct (filled_drawable (wrap 32 a2) (wrap 32 a3) (wrap 32 a4) (wrap 32 a5) 0xFFFFFFFF sf Hd) as (sf' & E & Hd' & Hi'); [apply wrap_in_width; lia..|]. rewrite E. cbn.
    split; [|done]. exists (put_surface k sf' g). split; [done|]. split; [by apply (serving_put k sf)|cbn; lia].
Qed.

(** Filling a rectangle paints exactly the pixels of the surface that the rectangle
    covers, counting coordinates modulo 2^32, and marks the surface as changed. *)
Theorem fill_rect_correct i x y w h (s : OS S D) g k sf : os_graphics s = Some g -> find_surface i g = Some (k, sf) -> wf sf -> format sf = RGBA8888 ->
  exists sf', syscall 2004 i x y w h s = (Ok 0, set_graphics (Some (put_surface k sf' g)) s) /\ wf sf' /\ is_dirty sf' = true /\
    forall X Y, 0 <= X < width sf -> 0 <= Y < height sf ->
      get_pixel X Y sf' = if (X -[32] x <? wrap 32 w) && (Y -[32] y <? wrap 32 h) then Ok (Some 0xFFFFFFFF) else get_pixel X Y sf.
Proof.
  intros Eg Ef Hs Hf. destruct (fill_surface_pixels (wrap 32 x) (wrap 32 y) (wrap 32 w) (wrap 32 h) 0xFFFFFFFF sf Hs Hf) as (sf' & E & W & Hd & _ & P); [apply wrap_in_width; lia..|unfold in_width; lia|].
  exists sf'. split; [unfold handle_syscall; cbn [dispatch]; unfold sys_graphics_fill_rect; by rewrite Eg, Ef, E|]. split; [done|]. split; [done|]. intros X Y HX HY.
  rewrite P by done. unfold wrap at 1 4. unfold wrap. by rewrite !Zminus_mod_idemp_r.
Qed.
End Theorems.

(** ** Witnesses *)

Section Concrete.
#[local] Existing Instance PsychicFs.sample_machine.

#[local] Instance demo_heap : KernelHeap := room (100 * 1024 * 1024).

(** The program of [Brk], with two pages of heap, a file name at their beginning and
    three bytes of data after it. *)
Definition name_at : Z := 0x500000.
Definition data_at : Z := 0x500100.
Definition buf_at : Z := 0x501000.

Definition demo_memory : Space FrameAllocator :=
  let sp := sy_space (sys_brk 0x502000 demo_system).2 in
  default sp (sp ← write_user_bytes user_p4 name_at [97; 46; 116] sp; write_user_bytes user_p4 data_at [1; 2; 3] sp).

(** Someone has typed "hi" and a new line. *)
Definition demo_os : OS FrameAllocator MemDisk :=
  mkOS (mkSystem demo_memory demo_kernel 8) mounted_world (Some (GraphicsServer_new (replicate 4 7) 2 2 8)) Causality.start
    (type_scancodes [0x23; 0xA3; 0x17; 0x97; 0x1C; 0x9C] Keyboard_start).

Lemma demo_brk_pages : pages_ok user_p4 (sy_space (sys_brk 0x502000 demo_system).2).
Proof.
  assert (p_heap_start demo_process <= 0x502000 < BRK_LIMIT) as Hr by (split; vm_compute; congruence). assert (0x502000 <> 0) as Hn by done.
  pose proof (sys_brk_spec 7 demo_process 0x502000 demo_system eq_refl eq_refl demo_heap_ok Hr Hn) as Hs. revert Hs. generalize demo_system. intros s.
  destruct (sys_brk 0x502000 s) as [r s']. by intros (H & _).
Qed.

Lemma pages_ok_bytes u (sp sp' : Space FrameAllocator) : pages_ok u sp -> sp_vm sp' = sp_vm sp -> pages_ok u sp'.
Proof. intros [] V. constructor; unfold free_frames in *; by rewrite V. Qed.

Lemma write_user_bytes_vm {S : Type} `{FrameSource S} u bs : forall v (sp sp' : Space S), write_user_bytes u v bs sp = Some sp' -> sp_vm sp' = sp_vm sp.
Proof.
  induction bs as [|b bs IH]; intros v sp sp'; cbn [write_user_bytes]; [by intros [= <-]|]. destruct (write_user u v b sp) as [sp1|] eqn:E1; [|done].
  intros E. rewrite (IH _ _ _ E). unfold write_user in E1. destruct (_ && _); [|done]. destruct (Paging.translate u v (sp_vm sp)); [|done]. by injection E1 as <-.
Qed.

Lemma demo_memory_ok : pages_ok user_p4 demo_memory.
Proof.
  pose proof demo_brk_pages as H. unfold demo_memory. revert H. generalize (sy_space (sys_brk 0x502000 demo_system).2). intros sp H. cbn zeta.
  destruct (write_user_bytes user_p4 name_at [97; 46; 116] sp) as [sp1|] eqn:E1; [|done]. cbn [mbind option_bind].
  destruct (write_user_bytes user_p4 data_at [1; 2; 3] sp1) as [sp2|] eqn:E2; [|done]. cbn [default].
  apply (pages_ok_bytes _ sp); [done|]. apply write_user_bytes_vm in E1, E2. by rewrite <- E1.
Qed.

(** The addresses from [v] on can be written: a check that computes. *)
Definition can_write (u v n : Z) (sp : Space FrameAllocator) : bool :=
  forallb (fun w => (w <? USER_LIMIT) && is_writable u w (sp_vm sp) && bool_decide (is_Some (Paging.translate u w (sp_vm sp)))) (seqZ v n).

Lemma can_write_ok u v n sp : can_write u v n sp = true -> user_writable u v n sp.
Proof.
  unfold can_write. rewrite forallb_forall. intros Hc w Hw. specialize (Hc w). rewrite <- list_elem_of_In, elem_of_seqZ in Hc.
  specialize (Hc Hw). apply andb_true_iff in Hc as [Hc Ht]. apply andb_true_iff in Hc as [Hl Hc]. split; [lia|]. split; [done|]. by apply bool_decide_eq_true in Ht.
Qed.

Definition holds (u v : Z) (bs : list Z) (sp : Space FrameAllocator) : bool :=
  (v + Z.of_nat (length bs) <=? USER_LIMIT) && bool_decide (user_slice u v (Z.of_nat (length bs)) sp = Some bs).

Lemma holds_ok u v bs sp : holds u v bs sp = true -> user_holds u v bs sp.
Proof.
  unfold holds. intros Hc. apply andb_true_iff in Hc as [Hl He]. apply bool_decide_eq_true in He. split; [lia|]. intros i b Hi. unfold user_slice in He.
  apply mapM_Some_1 in He. destruct (Forall2_lookup_r _ _ _ _ _ He Hi) as (w & Hw & Hb). apply lookup_seqZ in Hw as [-> _]. unfold read_user in Hb.
  by destruct (canonical (v + Z.of_nat i)).
Qed.

Lemma demo_keys : ring_ok (os_keys demo_os) /\ line 10 (kb_queue (os_keys demo_os)) = ([104; 105; 10], []).
Proof. split; [split; vm_compute; first [split; congruence|reflexivity]|vm_compute; reflexivity]. Qed.

Lemma demo_writable n : n = 3 -> user_writable user_p4 buf_at n (os_space demo_os).
Proof. intros ->. apply can_write_ok. vm_compute. reflexivity. Qed.

Lemma calls_write_own_memory_witness : lower_half_user user_p4 (sp_vm (os_space demo_os)) = true /\
  let s' := (handle_syscall user_p4 0 (800, 600) 0 0 buf_at 10 0 0 demo_os).2 in
  user_byte user_p4 buf_at (os_space s') = Some 104 /\ user_byte user_p4 buf_at (os_space demo_os) = Some 0 /\ sp_vm (os_space s') = sp_vm (os_space demo_os).
Proof.
  assert (lower_half_user user_p4 (sp_vm (os_space demo_os)) = true) as Hu by (vm_compute; reflexivity).
  assert (user_byte user_p4 buf_at (os_space (handle_syscall user_p4 0 (800, 600) 0 0 buf_at 10 0 0 demo_os).2) = Some 104) as Hn by (vm_compute; reflexivity).
  assert (user_byte user_p4 buf_at (os_space demo_os) = Some 0) as Ho by (vm_compute; reflexivity).
  assert (in_width 64 buf_at) as Hb by (split; [discriminate|reflexivity]). revert Hu Hn Ho. generalize demo_os. intros s Hu Hn Ho.
  pose proof (calls_write_own_memory user_p4 0 (800, 600) 0 0 buf_at 10 0 0 s ltac:(done) ltac:(done) ltac:(done) Hb ltac:(done) Hu) as [V _]. done.
Defined.

Lemma fast_read_unchecked_witness : exists s', fast_sys_read user_p4 0 kernel_page demo_os = (Ok 1, s') /\
  byte (sp_bytes (os_space s')) (0x23F000 + page_offset kernel_page) = 104 /\ byte (sp_bytes (os_space demo_os)) (0x23F000 + page_offset kernel_page) <> 104.
Proof.
  assert (is_writable user_p4 kernel_page (sp_vm (os_space demo_os)) = true) as Hw by (vm_compute; reflexivity).
  assert (Paging.translate user_p4 kernel_page (sp_vm (os_space demo_os)) = Some 0x23F000) as Ht by (vm_compute; reflexivity).
  assert ((getchar (os_keys demo_os)).1 = Some 104) as Hk by (vm_compute; reflexivity).
  assert (byte (sp_bytes (os_space demo_os)) (0x23F000 + page_offset kernel_page) <> 104) as Hn by (vm_compute; discriminate).
  assert (2 ^ 64 - USER_LIMIT <= kernel_page < 2 ^ 64) as Hv by (split; [discriminate|reflexivity]).
  revert Hw Ht Hk Hn. generalize demo_os. intros s Hw Ht Hk Hn. destruct (getchar (os_keys s)) as [c k] eqn:E. cbn [fst] in Hk. subst c.
  destruct (fast_read_unchecked user_p4 kernel_page 104 k 0x23F000 s Hv E Hw Ht) as (s' & E' & B). by exists s'.
Defined.

Lemma sys_read_line_witness : exists s', handle_syscall user_p4 0 (800, 600) 0 0 buf_at 10 0 0 demo_os = (Ok 3, s') /\
  user_byte user_p4 (buf_at + 1) (os_space s') = Some 105 /\ kb_queue (os_keys s') = [].
Proof.
  destruct demo_keys as [Hk Hl]. pose proof (sys_read_line user_p4 0 (800, 600) 0 buf_at 10 0 0 demo_os Hk demo_memory_ok) as H.
  pose proof (demo_writable 3 eq_refl) as Hw. revert Hl Hw H. generalize demo_os. intros s Hl Hw H. rewrite Hl in H.
  destruct H as (s' & E & _ & _ & Q & B); [done|unfold buf_at, USER_LIMIT; lia|lia|unfold buf_at; lia|exact Hw|].
  exists s'. split; [exact E|]. split; [|exact Q]. rewrite B by (unfold buf_at; lia). reflexivity.
Defined.

Lemma file_round_trip_witness : exists s1 s2, handle_syscall user_p4 0 (800, 600) 206 name_at 3 data_at 3 0 demo_os = (Ok 3, s1) /\
  handle_syscall user_p4 0 (800, 600) 208 name_at 3 buf_at 100 0 s1 = (Ok 3, s2) /\ user_byte user_p4 (buf_at + 2) (os_space s2) = Some 3.
Proof.
  assert (holds user_p4 name_at [97; 46; 116] demo_memory = true) as Hn by (vm_compute; reflexivity).
  assert (holds user_p4 data_at [1; 2; 3] demo_memory = true) as Hd by (vm_compute; reflexivity).
  destruct mounted_ready as (P & W & Mt & C & T).
  destruct (file_round_trip user_p4 0 (800, 600) mounted_fs [97; 46; 116] [1; 2; 3] 128 name_at data_at buf_at 100 0 0 demo_os) as (s1 & s2 & E1 & E2 & B & _).
  - split; [|exact P|exact W|exact Mt|].
    + unfold big. change (os_fs demo_os) with mounted_world. rewrite mem_disk_capacity, C. reflexivity.
    + change (os_fs demo_os) with mounted_world. rewrite mem_disk_capacity, C, T. reflexivity.
  - split; [unfold MAX_FILENAME_LEN; simpl; lia|]. split; [by vm_compute|by apply (bool_decide_unpack _)].
  - discriminate.
  - left. exists 0. split; [lia|vm_compute; reflexivity].
  - exact mounted_free.
  - exact demo_memory_ok.
  - unfold name_at, USER_LIMIT; lia.
  - unfold data_at, USER_LIMIT; lia.
  - unfold buf_at, USER_LIMIT; lia.
  - lia.
  - unfold buf_at; lia.
  - exact (holds_ok _ _ _ _ Hn).
  - exact (holds_ok _ _ _ _ Hd).
  - apply demo_writable. reflexivity.
  - exists s1, s2. split; [exact E1|]. split; [exact E2|]. rewrite B by (unfold buf_at; lia). reflexivity.
Defined.

Lemma errors_recognised_witness : numbers_ok (800, 600) demo_os /\ exists s', handle_syscall user_p4 0 (800, 600) 39 0 0 0 0 0 demo_os = (Ok 7, s') /\ dispatch user_p4 0 (800, 600) 39 0 0 0 0 0 demo_os = (Ok 7, s').
Proof.
  assert (numbers_ok (800, 600) demo_os) as Hn.
  { split; [split; vm_compute; congruence| | |split; vm_compute; congruence|split; cbn; lia].
    - intros p Hp. assert (current_process demo_os = Some demo_process) as E by (vm_compute; reflexivity). rewrite E in Hp. injection Hp as <-. split; split; vm_compute; congruence.
    - intros g [= <-]. split; vm_compute; congruence. }
  split; [exact Hn|]. assert (get_current_pid (os_kernel demo_os) = Some 7) as Ep by (vm_compute; reflexivity). revert Hn Ep. generalize demo_os. intros s Hn Ep.
  assert (handle_syscall user_p4 0 (800, 600) 39 0 0 0 0 0 s = (Ok 7, s)) as E by (unfold handle_syscall; cbn [dispatch]; unfold sys_getpid; by rewrite Ep). exists s. split; [exact E|].
  exact (errors_recognised user_p4 0 (800, 600) 39 0 0 0 0 0 s s 7 Hn ltac:(done) ltac:(done) ltac:(done) ltac:(done) E).
Defined.

Lemma privileged_calls_witness : current_process demo_os = Some demo_process /\ uid demo_process = 0 /\ exists w, handle_syscall user_p4 0 (800, 600) 220 0 0 0 0 0 demo_os = (Err Diverges, w).
Proof.
  assert (current_process demo_os = Some demo_process) as E by (vm_compute; reflexivity). split; [exact E|]. split; [reflexivity|]. eexists.
  rewrite (privileged_calls user_p4 0 (800, 600) 220) by auto. rewrite E. reflexivity.
Defined.

Lemma unmapped_pointer_panics_witness : handle_syscall user_p4 0 (800, 600) 1 1 0x1000 5 0 0 demo_os = (Err Panic, demo_os).
Proof. apply unmapped_pointer_panics; [unfold USER_LIMIT; lia|lia|]. vm_compute. reflexivity. Defined.

Lemma demo_serving : serving (GraphicsServer_new (replicate 4 7) 2 2 8).
Proof. destruct (demo_start 0 ltac:(cbn; lia)) as (Hok & Hid & _). by split. Qed.

Definition demo_graphics : GraphicsServer :=
  match create_surface (H := room 1024) 4 4 (GraphicsServer_new (replicate 4 7) 2 2 8) with Ok (_, g) => g | Err _ => GraphicsServer_new [] 0 0 0 end.

(** A system with one surface. *)
Definition with_surface : OS FrameAllocator MemDisk :=
  mkOS (mkSystem demo_memory demo_kernel 8) mounted_world (Some demo_graphics) Causality.start Keyboard_start.

Lemma surface_wf `{KernelHeap} i w h sf : in_width 32 w -> in_width 32 h -> Surface_new i w h = Ok (Ok sf) -> wf sf /\ format sf = RGBA8888.
Proof. intros Hw Hh E. pose proof (surface_new_spec i w h Hw Hh) as Hs. rewrite E in Hs. naive_solver. Qed.

Lemma map_typed (sp : Space FrameAllocator) : map_Forall (fun _ b => 0 <= b < 256) (sp_bytes sp) -> bytes_typed sp.
Proof. intros Hall a. unfold byte. destruct (sp_bytes sp !! a) as [b|] eqn:Eb; [|done]. exact (Hall a b Eb). Qed.

Lemma graphics_calls_safe_witness : serving (GraphicsServer_new (replicate 4 7) 2 2 8) /\ exists g', os_graphics (handle_syscall user_p4 0 (800, 600) 2000 4 4 0 0 0 demo_os).2 = Some g' /\ serving g'.
Proof.
  split; [exact demo_serving|]. assert (os_graphics demo_os = Some (GraphicsServer_new (replicate 4 7) 2 2 8)) as E by reflexivity.
  assert (bytes_typed (os_space demo_os)) as Ht by (apply map_typed, (bool_decide_unpack _); vm_compute; exact I).
  pose proof (graphics_calls_safe user_p4 0 (800, 600) 2000 4 4 0 0 0 demo_os _ (or_introl eq_refl) ltac:(done) ltac:(done) E demo_serving ltac:(vm_compute; reflexivity) Ht) as H.
  revert H. generalize demo_os. intros s. destruct (handle_syscall user_p4 0 (800, 600) 2000 4 4 0 0 0 s) as [r s']. intros [(g' & E' & Hg & _) _]. exists g'. by split.
Defined.

Lemma fill_rect_correct_witness : exists sf sf', os_graphics with_surface = Some demo_graphics /\ find_surface 1 demo_graphics = Some (0%nat, sf) /\
  handle_syscall user_p4 0 (800, 600) 2004 1 1 2 2 1 with_surface = (Ok 0, set_graphics (Some (put_surface 0 sf' demo_graphics)) with_surface) /\ get_pixel 2 2 sf' = Ok (Some 0xFFFFFFFF) /\ get_pixel 0 2 sf' = Ok (Some 0).
Proof.
  destruct (Surface_new (H := room 1024) 1 4 4) as [[sf|]|] eqn:En; [|discriminate En..]. pose proof (surface_wf 1 4 4 sf ltac:(done) ltac:(done) En) as [Hw Hf].
  assert (find_surface 1 demo_graphics = Some (0%nat, sf)) as Ef by (vm_compute in En; injection En as <-; vm_compute; reflexivity).
  destruct (fill_rect_correct user_p4 0 (800, 600) 1 1 2 2 1 with_surface demo_graphics 0 sf eq_refl Ef Hw Hf) as (sf' & E & _ & _ & P). exists sf, sf'.
  split; [reflexivity|]. split; [exact Ef|]. split; [exact E|]. vm_compute in En. injection En as <-. split; rewrite P by (cbn; lia); reflexivity.
Defined.
End Concrete.
