(* ===== verification/GapBuffer.v ===== *)
(** * Gap buffers ([apps/editor.rs], [GapBuffer])

    The text before the cursor is at the front of a vector, the text after it at the
    back, and unused bytes lie between.  The operations are written with the vector
    accesses of the code, where [None] is a panic; the refinement theorem says that
    they never panic and act on the text as the list operations do. *)

From Stdlib Require Import ZArith Lia.
From stdpp Require Import base numbers option list.
From S2P Require Import Prelude.

Open Scope nat_scope.

Record GapBuffer : Type := mkGap { buffer : list Z; gap_start : nat; gap_end : nat }.

Definition new : GapBuffer := mkGap (replicate 4096 0%Z) 0 4096.

Definition with_content (c : list Z) : GapBuffer := mkGap (c ++ replicate 1024 0%Z) (length c) (length c + 1024).

Definition gap_size (g : GapBuffer) : nat := gap_end g - gap_start g.
Definition content_len (g : GapBuffer) : nat := length (buffer g) - gap_size g.

(** [l[dst] = l[src]] *)
Definition copy_byte (dst src : nat) (l : list Z) : option (list Z) :=
  v ← l !! src; if decide (dst < length l) then Some (<[dst := v]> l) else None.

(** [for i in (0..n).rev()] and [for i in 0..n] *)
Fixpoint copy_backward (n dst src : nat) (l : list Z) : option (list Z) :=
  match n with O => Some l | S i => l ← copy_byte (dst + i) (src + i) l; copy_backward i dst src l end.

Fixpoint copy_forward (n dst src : nat) (l : list Z) : option (list Z) :=
  match n with O => Some l | S n => l ← copy_byte dst src l; copy_forward n (S dst) (S src) l end.

Definition move_gap (pos : nat) (g : GapBuffer) : option GapBuffer :=
  let pos := pos `min` content_len g in
  if decide (pos < gap_start g) then
    let move_size := gap_start g - pos in
    l ← copy_backward move_size (gap_end g - move_size) pos (buffer g);
    Some (mkGap l pos (gap_end g - move_size))
  else if decide (gap_start g < pos) then
    let move_size := pos - gap_start g in
    l ← copy_forward move_size (gap_start g) (gap_end g) (buffer g);
    Some (mkGap l (gap_start g + move_size) (gap_end g + move_size))
  else Some g.

Definition ensure_gap (needed : nat) (g : GapBuffer) : option GapBuffer :=
  if decide (needed <= gap_size g) then Some g
  else
    let old_len := length (buffer g) in
    let grow_by := (needed - gap_size g) `max` 1024 in
    let after_gap := old_len - gap_end g in
    let new_len := old_len + grow_by in
    l ← copy_backward after_gap (new_len - after_gap) (gap_end g) (buffer g ++ replicate grow_by 0%Z);
    Some (mkGap l (gap_start g) (new_len - after_gap)).

Definition insert (pos : nat) (ch : Z) (g : GapBuffer) : option GapBuffer :=
  g ← move_gap pos g;
  g ← ensure_gap 1 g;
  if decide (gap_start g < length (buffer g)) then Some (mkGap (<[gap_start g := ch]> (buffer g)) (gap_start g + 1) (gap_end g)) else None.

Definition insert_str (pos : nat) (data : list Z) (g : GapBuffer) : option GapBuffer :=
  g ← move_gap pos g;
  g ← ensure_gap (length data) g;
  if decide (gap_start g + length data <= length (buffer g))
  then Some (mkGap (list_inserts (gap_start g) data (buffer g)) (gap_start g + length data) (gap_end g)) else None.

Definition delete (pos : nat) (g : GapBuffer) : option GapBuffer :=
  if decide (content_len g <= pos) then Some g
  else g ← move_gap pos g; Some (mkGap (buffer g) (gap_start g) (gap_end g + 1)).

Definition delete_range (start end_ : nat) (g : GapBuffer) : option GapBuffer :=
  let end_ := end_ `min` content_len g in
  if decide (end_ <= start) then Some g
  else g ← move_gap start g; Some (mkGap (buffer g) (gap_start g) (gap_end g + (end_ - start))).

(** [Some None]: no such position. *)
Definition get (pos : nat) (g : GapBuffer) : option (option Z) :=
  if decide (content_len g <= pos) then Some None
  else Some <$> buffer g !! (if decide (pos < gap_start g) then pos else pos + gap_size g).

Definition to_bytes (g : GapBuffer) : list Z := take (gap_start g) (buffer g) ++ drop (gap_end g) (buffer g).

(** ** The vector accesses *)

Lemma copy_byte_spec dst src l : src < length l -> dst < length l ->
  exists l', copy_byte dst src l = Some l' /\ length l' = length l /\ forall k, l' !! k = if decide (k = dst) then l !! src else l !! k.
Proof.
  intros Hs Hd. destruct (lookup_lt_is_Some_2 l src Hs) as [v Hv]. unfold copy_byte. rewrite Hv. cbn [mbind option_bind]. rewrite decide_True by done.
  eexists. split; [done|]. split; [apply length_insert|]. intros k. destruct (decide (k = dst)) as [->|Hne]; [by rewrite list_lookup_insert_eq|by rewrite list_lookup_insert_ne].
Qed.

Lemma copy_backward_spec n : forall dst src l, src <= dst -> dst + n <= length l ->
  exists l', copy_backward n dst src l = Some l' /\ length l' = length l /\
    forall k, l' !! k = if decide (dst <= k < dst + n) then l !! (src + (k - dst)) else l !! k.
Proof.
  induction n as [|n IH]; intros dst src l Hs Hd; cbn [copy_backward].
  - exists l. split; [done|]. split; [done|]. intros k. by rewrite decide_False by lia.
  - destruct (copy_byte_spec (dst + n) (src + n) l) as (l1 & -> & L1 & B1); [lia..|]. cbn [mbind option_bind].
    destruct (IH dst src l1) as (l2 & -> & L2 & B2); [lia..|]. exists l2. split; [done|]. split; [congruence|]. intros k. rewrite B2, !B1.
    destruct (decide (dst <= k < dst + n)).
    + rewrite decide_False, decide_True by lia. done.
    + destruct (decide (k = dst + n)) as [->|]; [rewrite decide_True by lia; f_equal; lia|by rewrite decide_False by lia].
Qed.

Lemma copy_forward_spec n : forall dst src l, dst <= src -> src + n <= length l ->
  exists l', copy_forward n dst src l = Some l' /\ length l' = length l /\
    forall k, l' !! k = if decide (dst <= k < dst + n) then l !! (src + (k - dst)) else l !! k.
Proof.
  induction n as [|n IH]; intros dst src l Hs Hd; cbn [copy_forward].
  - exists l. split; [done|]. split; [done|]. intros k. by rewrite decide_False by lia.
  - destruct (copy_byte_spec dst src l) as (l1 & -> & L1 & B1); [lia..|]. cbn [mbind option_bind].
    destruct (IH (S dst) (S src) l1) as (l2 & -> & L2 & B2); [lia..|]. exists l2. split; [done|]. split; [congruence|]. intros k. rewrite B2, !B1.
    destruct (decide (S dst <= k < S dst + n)).
    + rewrite decide_False, decide_True by lia. f_equal. lia.
    + destruct (decide (k = dst)) as [->|]; [rewrite decide_True by lia; f_equal; lia|by rewrite decide_False by lia].
Qed.

(** ** The text of a buffer *)

Definition gap_ok (g : GapBuffer) : Prop := gap_start g <= gap_end g <= length (buffer g).

Lemma length_to_bytes g : gap_ok g -> length (to_bytes g) = content_len g.
Proof. intros [H1 H2]. unfold to_bytes, content_len, gap_size. rewrite length_app, length_take, length_drop. lia. Qed.

Lemma lookup_to_bytes g k : gap_ok g -> to_bytes g !! k = if decide (k < gap_start g) then buffer g !! k else buffer g !! (k + gap_size g).
Proof.
  intros [H1 H2]. unfold to_bytes, gap_size. destruct (decide (k < gap_start g)).
  - rewrite lookup_app_l by (rewrite length_take; lia). by rewrite lookup_take_lt.
  - rewrite lookup_app_r by (rewrite length_take; lia). rewrite length_take, lookup_drop. f_equal. lia.
Qed.

(** Two buffers with gaps of the same size hold the same text if they agree outside them. *)
Lemma move_gap_spec pos g : gap_ok g -> exists g', move_gap pos g = Some g' /\ gap_ok g' /\ to_bytes g' = to_bytes g /\ gap_size g' = gap_size g /\
  length (buffer g') = length (buffer g) /\ gap_start g' = pos `min` content_len g.
Proof.
  intros Hg. pose proof Hg as [H1 H2]. pose proof (length_to_bytes g Hg) as Hl. unfold move_gap. cbn zeta. set (p := pos `min` content_len g).
  assert (p <= length (buffer g) - gap_size g) as Hp by (unfold p, content_len; lia). unfold gap_size in Hp.
  destruct (decide (p < gap_start g)) as [L|L]; [|destruct (decide (gap_start g < p)) as [R|R]].
  - destruct (copy_backward_spec (gap_start g - p) (gap_end g - (gap_start g - p)) p (buffer g)) as (l & -> & Ll & B); [lia..|]. cbn [mbind option_bind]. eexists. split; [done|].
    assert (gap_ok (mkGap l p (gap_end g - (gap_start g - p)))) as Hok by (unfold gap_ok; cbn; lia).
    split; [done|]. split; [|unfold gap_size; cbn; split; [lia|done]]. apply list_eq. intros k. rewrite !lookup_to_bytes by done. unfold gap_size. cbn [gap_start gap_end buffer]. rewrite !B.
    destruct (decide (k < p)); [rewrite (decide_True (P := k < gap_start g)) by lia; by rewrite decide_False by lia|]. destruct (decide (k < gap_start g)).
    + rewrite decide_True by lia. f_equal. lia.
    + rewrite decide_False by lia. f_equal. lia.
  - destruct (copy_forward_spec (p - gap_start g) (gap_start g) (gap_end g) (buffer g)) as (l & -> & Ll & B); [lia..|]. cbn [mbind option_bind]. eexists. split; [done|].
    assert (gap_ok (mkGap l (gap_start g + (p - gap_start g)) (gap_end g + (p - gap_start g)))) as Hok by (unfold gap_ok; cbn; lia).
    split; [done|]. split; [|unfold gap_size; cbn; split; [lia|split; [done|lia]]]. apply list_eq. intros k. rewrite !lookup_to_bytes by done. unfold gap_size. cbn [gap_start gap_end buffer]. rewrite !B.
    destruct (decide (k < gap_start g)); [rewrite decide_True by lia; by rewrite decide_False by lia|]. destruct (decide (k < gap_start g + (p - gap_start g))).
    + rewrite decide_True by lia. f_equal. lia.
    + rewrite decide_False by lia. f_equal. lia.
  - exists g. split; [done|]. split; [done|]. split; [done|]. split; [done|]. split; [done|lia].
Qed.

Lemma ensure_gap_spec needed g : gap_ok g -> exists g', ensure_gap needed g = Some g' /\ gap_ok g' /\ to_bytes g' = to_bytes g /\ needed <= gap_size g' /\ gap_start g' = gap_start g.
Proof.
  intros Hg. pose proof Hg as [H1 H2]. unfold ensure_gap. destruct (decide (needed <= gap_size g)); [by exists g|]. cbn zeta. set (grow := (needed - gap_size g) `max` 1024).
  set (after := length (buffer g) - gap_end g). unfold gap_size in *.
  destruct (copy_backward_spec after (length (buffer g) + grow - after) (gap_end g) (buffer g ++ replicate grow 0%Z)) as (l & -> & Ll & B); [unfold after; lia|rewrite length_app, length_replicate; unfold after; lia|].
  rewrite length_app, length_replicate in Ll. cbn [mbind option_bind]. eexists. split; [done|].
  assert (gap_ok (mkGap l (gap_start g) (length (buffer g) + grow - after))) as Hok by (unfold gap_ok; cbn; unfold after; lia).
  split; [done|]. split; [|cbn; unfold after; lia]. apply list_eq. intros k. rewrite !lookup_to_bytes by done. unfold gap_size. cbn [gap_start gap_end buffer]. rewrite !B. unfold after in *.
  destruct (decide (k < gap_start g)).
  - rewrite decide_False by lia. by rewrite lookup_app_l by lia.
  - destruct (decide (k + (gap_end g - gap_start g) < length (buffer g))) as [Hk|Hk].
    + rewrite decide_True by lia. rewrite lookup_app_l by lia. f_equal. lia.
    + rewrite decide_False by lia. rewrite !lookup_ge_None_2; [done|lia|rewrite length_app, length_replicate; lia].
Qed.

Lemma to_bytes_split g : gap_ok g -> take (gap_start g) (buffer g) = take (gap_start g) (to_bytes g) /\ drop (gap_end g) (buffer g) = drop (gap_start g) (to_bytes g).
Proof.
  intros [H1 H2]. unfold to_bytes. assert (length (take (gap_start g) (buffer g)) = gap_start g) as Hl by (rewrite length_take; lia).
  split; [by rewrite take_app_length'|by rewrite drop_app_length'].
Qed.

(** Writing into the gap and closing it over what was written. *)
Lemma fill_gap g data : gap_ok g -> length data <= gap_size g ->
  let g' := mkGap (list_inserts (gap_start g) data (buffer g)) (gap_start g + length data) (gap_end g) in
  gap_ok g' /\ to_bytes g' = take (gap_start g) (to_bytes g) ++ data ++ drop (gap_start g) (to_bytes g).
Proof.
  intros Hg Hd. pose proof Hg as [H1 H2]. unfold gap_size in Hd. cbn zeta. split; [unfold gap_ok; cbn; rewrite length_inserts; lia|].
  destruct (to_bytes_split g Hg) as [<- <-]. unfold to_bytes. cbn [gap_start gap_end buffer]. rewrite app_assoc. f_equal.
  - apply list_eq. intros k. destruct (decide (k < gap_start g + length data)).
    + rewrite lookup_take_lt by lia. destruct (decide (k < gap_start g)).
      * rewrite list_lookup_inserts_lt by lia. rewrite lookup_app_l by (rewrite length_take; lia). by rewrite lookup_take_lt.
      * rewrite list_lookup_inserts by lia. rewrite lookup_app_r by (rewrite length_take; lia). rewrite length_take. f_equal. lia.
    + rewrite lookup_take_ge by lia. rewrite lookup_ge_None_2; [done|]. rewrite length_app, length_take. lia.
  - apply list_eq. intros k. rewrite !lookup_drop. by rewrite list_lookup_inserts_ge by lia.
Qed.

Lemma insert_str_spec pos data g : gap_ok g -> let p := pos `min` length (to_bytes g) in
  exists g', insert_str pos data g = Some g' /\ gap_ok g' /\ to_bytes g' = take p (to_bytes g) ++ data ++ drop p (to_bytes g).
Proof.
  intros Hg. cbn zeta. rewrite (length_to_bytes g Hg). unfold insert_str. destruct (move_gap_spec pos g Hg) as (g1 & -> & H1 & T1 & _ & _ & S1). cbn [mbind option_bind].
  destruct (ensure_gap_spec (length data) g1 H1) as (g2 & -> & H2 & T2 & Sz & S2). cbn [mbind option_bind]. destruct (fill_gap g2 data H2 Sz) as [O E].
  rewrite decide_True by (unfold gap_ok, gap_size in *; lia). eexists. split; [done|]. split; [done|]. rewrite E, T2, T1, S2, S1. done.
Qed.

Lemma insert_spec pos ch g : gap_ok g -> let p := pos `min` length (to_bytes g) in
  exists g', insert pos ch g = Some g' /\ gap_ok g' /\ to_bytes g' = take p (to_bytes g) ++ [ch] ++ drop p (to_bytes g).
Proof.
  intros Hg. cbn zeta. rewrite (length_to_bytes g Hg). unfold insert. destruct (move_gap_spec pos g Hg) as (g1 & -> & H1 & T1 & _ & _ & S1). cbn [mbind option_bind].
  destruct (ensure_gap_spec 1 g1 H1) as (g2 & -> & H2 & T2 & Sz & S2). cbn [mbind option_bind]. destruct (fill_gap g2 [ch] H2 Sz) as [O E].
  rewrite decide_True by (unfold gap_ok, gap_size in *; lia). eexists. split; [done|]. split; [exact O|]. etrans; [exact E|]. rewrite T2, T1, S2, S1. done.
Qed.

(** Widening the gap to the right drops the text behind the cursor. *)
Lemma widen_gap g n : gap_ok g -> n + gap_start g <= length (to_bytes g) ->
  let g' := mkGap (buffer g) (gap_start g) (gap_end g + n) in
  gap_ok g' /\ to_bytes g' = take (gap_start g) (to_bytes g) ++ drop (gap_start g + n) (to_bytes g).
Proof.
  intros Hg Hn. pose proof Hg as [H1 H2]. rewrite (length_to_bytes g Hg) in Hn. unfold content_len, gap_size in Hn. cbn zeta. split; [unfold gap_ok; cbn; lia|].
  destruct (to_bytes_split g Hg) as [<- E]. rewrite <- drop_drop, <- E, drop_drop. done.
Qed.

Lemma delete_spec pos g : gap_ok g -> exists g', delete pos g = Some g' /\ gap_ok g' /\ to_bytes g' = take pos (to_bytes g) ++ drop (pos + 1) (to_bytes g).
Proof.
  intros Hg. pose proof (length_to_bytes g Hg) as Hl. unfold delete. destruct (decide (content_len g <= pos)).
  - exists g. split; [done|]. split; [done|]. rewrite take_ge, drop_ge by lia. by rewrite app_nil_r.
  - destruct (move_gap_spec pos g Hg) as (g1 & -> & H1 & T1 & _ & _ & S1). cbn [mbind option_bind]. rewrite Nat.min_l in S1 by lia.
    destruct (widen_gap g1 1 H1) as [O E]; [rewrite T1; lia|]. eexists. split; [done|]. split; [done|]. rewrite E, T1, S1. done.
Qed.

Lemma delete_range_spec s e g : gap_ok g -> exists g', delete_range s e g = Some g' /\ gap_ok g' /\ to_bytes g' = if decide (s < e) then take s (to_bytes g) ++ drop e (to_bytes g) else to_bytes g.
Proof.
  intros Hg. pose proof (length_to_bytes g Hg) as Hl. unfold delete_range. cbn zeta. destruct (decide (e `min` content_len g <= s)).
  - exists g. split; [done|]. split; [done|]. destruct (decide (s < e)); [|done]. rewrite take_ge, drop_ge by lia. by rewrite app_nil_r.
  - rewrite decide_True by lia. destruct (move_gap_spec s g Hg) as (g1 & -> & H1 & T1 & _ & _ & S1). cbn [mbind option_bind]. rewrite Nat.min_l in S1 by lia.
    destruct (widen_gap g1 (e `min` content_len g - s) H1) as [O E]; [rewrite T1; lia|]. eexists. split; [done|]. split; [done|]. rewrite E, T1, S1. f_equal.
    replace (s + (e `min` content_len g - s)) with (e `min` content_len g) by lia. destruct (decide (e <= content_len g)); [by rewrite Nat.min_l by lia|].
    rewrite !drop_ge by lia. done.
Qed.

Lemma buffer_get_spec pos g : gap_ok g -> get pos g = Some (to_bytes g !! pos).
Proof.
  intros Hg. pose proof (length_to_bytes g Hg) as Hl. unfold get. destruct (decide (content_len g <= pos)); [by rewrite lookup_ge_None_2 by lia|].
  rewrite (lookup_to_bytes g pos Hg). destruct (lookup_lt_is_Some_2 (to_bytes g) pos ltac:(lia)) as [v Hv]. rewrite (lookup_to_bytes g pos Hg) in Hv.
  destruct (decide (pos < gap_start g)); by rewrite Hv.
Qed.

Lemma empty_gap n : gap_ok (mkGap (replicate n 0%Z) 0 n) /\ to_bytes (mkGap (replicate n 0%Z) 0 n) = [].
Proof. unfold gap_ok, to_bytes. cbn [gap_start gap_end buffer]. rewrite length_replicate. split; [lia|]. by rewrite drop_ge by (rewrite length_replicate; lia). Qed.

Lemma new_spec : gap_ok new /\ to_bytes new = [].
Proof. exact (empty_gap 4096). Qed.

Lemma with_content_spec c : gap_ok (with_content c) /\ to_bytes (with_content c) = c.
Proof.
  unfold with_content. split; [unfold gap_ok; cbn [gap_start gap_end buffer]; rewrite length_app, length_replicate; lia|]. unfold to_bytes. cbn [gap_start gap_end buffer].
  rewrite take_app_length. rewrite drop_ge by (rewrite length_app, length_replicate; lia). apply app_nil_r.
Qed.

(** ** The operations on a list *)

Inductive GapOp : Type :=
| Insert (pos : nat) (ch : Z)
| InsertStr (pos : nat) (data : list Z)
| Delete (pos : nat)
| DeleteRange (start end_ : nat).

Definition run_gap (o : GapOp) (g : GapBuffer) : option GapBuffer :=
  match o with
  | Insert pos ch => insert pos ch g
  | InsertStr pos data => insert_str pos data g
  | Delete pos => delete pos g
  | DeleteRange s e => delete_range s e g
  end.

(** Positions behind the end mean the end. *)
Definition on_text (o : GapOp) (t : list Z) : list Z :=
  match o with
  | Insert pos ch => take pos t ++ [ch] ++ drop pos t
  | InsertStr pos data => take pos t ++ data ++ drop pos t
  | Delete pos => take pos t ++ drop (pos + 1) t
  | DeleteRange s e => if decide (s < e) then take s t ++ drop e t else t
  end.

Lemma clamp_take (pos : nat) (t : list Z) : take (pos `min` length t) t = take pos t /\ drop (pos `min` length t) t = drop pos t.
Proof.
  destruct (decide (pos <= length t)); [by rewrite Nat.min_l by lia|]. rewrite Nat.min_r by lia. rewrite !take_ge, !drop_ge by lia. done.
Qed.

Lemma run_gap_spec o g : gap_ok g -> exists g', run_gap o g = Some g' /\ gap_ok g' /\ to_bytes g' = on_text o (to_bytes g).
Proof.
  intros Hg. destruct o as [pos ch|pos data|pos|s e]; cbn [run_gap on_text].
  - destruct (insert_spec pos ch g Hg) as (g' & ? & ? & E). exists g'. pose proof (clamp_take pos (to_bytes g)) as [E1 E2]. by rewrite E1, E2 in E.
  - destruct (insert_str_spec pos data g Hg) as (g' & ? & ? & E). exists g'. pose proof (clamp_take pos (to_bytes g)) as [E1 E2]. by rewrite E1, E2 in E.
  - by apply delete_spec.
  - by apply delete_range_spec.
Qed.

(** A gap buffer is a list: starting from any text, every sequence of operations runs
    without a panic and leaves the text that the list operations leave, and reading a
    position gives the byte of the text there. *)
Theorem gap_buffer_refines_list t ops : exists g, foldl (fun g o => g ← g; run_gap o g) (Some (with_content t)) ops = Some g /\
  gap_ok g /\ to_bytes g = foldl (fun t o => on_text o t) t ops /\ forall pos, get pos g = Some (foldl (fun t o => on_text o t) t ops !! pos).
Proof.
  assert (forall ops g, gap_ok g -> exists g', foldl (fun g o => g ← g; run_gap o g) (Some g) ops = Some g' /\ gap_ok g' /\ to_bytes g' = foldl (fun t o => on_text o t) (to_bytes g) ops) as H.
  { clear. induction ops as [|o ops IH]; intros g Hg; cbn [foldl]; [by exists g|]. destruct (run_gap_spec o g Hg) as (g1 & E & H1 & T1). cbn [mbind option_bind]. rewrite E.
    destruct (IH g1 H1) as (g2 & ? & ? & T2). exists g2. by rewrite <- T1. }
  destruct (with_content_spec t) as [Hw Ht]. destruct (H ops _ Hw) as (g & E & Hg & Tg). rewrite Ht in Tg. exists g. split; [done|]. split; [done|]. split; [done|].
  intros pos. by rewrite buffer_get_spec, Tg.
Qed.
