(* ===== verification/Editor.v ===== *)
(** * The text editor ([apps/editor.rs])

    Lines of gap buffers, a cursor, three modes, and files through [PsychicFs].  [None]
    is a panic.  Drawing is left out; the view is not. *)

From Stdlib Require Import ZArith Lia Bool.
From stdpp Require Import base numbers option list.
From S2P Require Import Prelude Bytes BlockDevice PsychicFs GapBuffer.

Open Scope nat_scope.

Inductive EditorMode : Type := Normal | InsertMode | Command.

#[export] Instance EditorMode_eq : EqDecision EditorMode.
Proof. solve_decision. Defined.

Record Editor : Type := mkEditor {
  lines : list GapBuffer; cursor_line : nat; cursor_col : nat; mode : EditorMode; filename : option (list Z);
  modified : bool; view_offset : nat; view_height : nat; command_buffer : list Z
}.

Definition set_lines (l : list GapBuffer) (e : Editor) : Editor :=
  mkEditor l (cursor_line e) (cursor_col e) (mode e) (filename e) (modified e) (view_offset e) (view_height e) (command_buffer e).
Definition set_cursor (l c : nat) (e : Editor) : Editor :=
  mkEditor (lines e) l c (mode e) (filename e) (modified e) (view_offset e) (view_height e) (command_buffer e).
Definition set_mode (m : EditorMode) (e : Editor) : Editor :=
  mkEditor (lines e) (cursor_line e) (cursor_col e) m (filename e) (modified e) (view_offset e) (view_height e) (command_buffer e).
Definition set_file (f : option (list Z)) (m : bool) (e : Editor) : Editor :=
  mkEditor (lines e) (cursor_line e) (cursor_col e) (mode e) f m (view_offset e) (view_height e) (command_buffer e).
Definition set_modified (m : bool) (e : Editor) : Editor := set_file (filename e) m e.
Definition set_view (v : nat) (e : Editor) : Editor :=
  mkEditor (lines e) (cursor_line e) (cursor_col e) (mode e) (filename e) (modified e) v (view_height e) (command_buffer e).
Definition set_command (c : list Z) (e : Editor) : Editor :=
  mkEditor (lines e) (cursor_line e) (cursor_col e) (mode e) (filename e) (modified e) (view_offset e) (view_height e) c.

Definition Editor_new : Editor := mkEditor [new] 0 0 Normal None false 0 24 [].

(** ** Files *)

Definition newline : Z := 10%Z.

(** The loop of [load]: a line ends before each newline. *)
Definition load_line (data : list Z) (st : list GapBuffer * nat) (i : nat) : list GapBuffer * nat :=
  match data !! i with
  | Some b => if Z.eqb b newline then (st.1 ++ [with_content (take (i - st.2) (drop st.2 data))], i + 1) else st
  | None => st
  end.

Definition load_lines (data : list Z) : list GapBuffer :=
  let '(ls, line_start) := foldl (load_line data) ([], 0) (seq 0 (length data)) in
  let ls := if decide (line_start <= length data) then ls ++ [with_content (drop line_start data)] else ls in
  if decide (ls = []) then [new] else ls.

(** The loop of [save]: a newline after every line but the last. *)
Definition save_line (n : nat) (data : list Z) (il : nat * GapBuffer) : list Z :=
  data ++ to_bytes il.2 ++ (if decide (il.1 < n - 1) then [newline] else []).

Definition save_data (ls : list GapBuffer) : list Z := foldl (save_line (length ls)) [] (imap pair ls).

Section Editing.
Context `{Machine} {D : Type} `{BlockDevice D}.

Definition load (name : list Z) (e : Editor) (w : World D) : Editor * World D :=
  match fs_read name w with
  | (Ok data, w) => (set_cursor 0 0 (set_lines (load_lines data) (set_file (Some name) false e)), w)
  | (Err _, w) => (set_lines [new] (set_file (Some name) false e), w)
  end.

Definition save (e : Editor) (w : World D) : bool * (Editor * World D) :=
  match filename e with
  | None => (false, (e, w))
  | Some name =>
      match fs_write name (save_data (lines e)) w with
      | (Ok _, w) => (true, (set_modified false e, w))
      | (Err _, w) => (false, (e, w))
      end
  end.

(** ** Moving *)

Definition current_line_len (e : Editor) : nat := match lines e !! cursor_line e with Some l => content_len l | None => 0 end.

Definition move_left (e : Editor) : Editor := set_cursor (cursor_line e) (cursor_col e - 1) e.

Definition move_right (e : Editor) : Editor :=
  if decide (cursor_col e < current_line_len e) then set_cursor (cursor_line e) (cursor_col e + 1) e else e.

Definition clamp_col (e : Editor) : Editor := set_cursor (cursor_line e) (cursor_col e `min` current_line_len e) e.

Definition move_up (e : Editor) : Editor :=
  if decide (0 < cursor_line e) then clamp_col (set_cursor (cursor_line e - 1) (cursor_col e) e) else e.

(** [self.lines.len() - 1], where there is a line. *)
Definition move_down (e : Editor) : Editor :=
  if decide (lines e = [] \/ cursor_line e < length (lines e) - 1) then clamp_col (set_cursor (cursor_line e + 1) (cursor_col e) e) else e.

Definition move_to_end_of_line (e : Editor) : Editor := set_cursor (cursor_line e) (current_line_len e) e.

(** ** Editing *)

(** [if let Some(line) = self.lines.get_mut(self.cursor.line)] *)
Definition on_line (f : GapBuffer -> option GapBuffer) (e : Editor) : option Editor :=
  match lines e !! cursor_line e with
  | Some l => l ← f l; Some (set_lines (<[cursor_line e := l]> (lines e)) e)
  | None => Some e
  end.

Definition insert_char (ch : Z) (e : Editor) : option Editor :=
  match lines e !! cursor_line e with
  | Some _ => e ← on_line (insert (cursor_col e) ch) e; Some (set_modified true (set_cursor (cursor_line e) (cursor_col e + 1) e))
  | None => Some e
  end.

Definition insert_newline (e : Editor) : option Editor :=
  current ← lines e !! cursor_line e;
  if decide (cursor_col e <= length (to_bytes current)) then
    let rest := drop (cursor_col e) (to_bytes current) in
    e ← on_line (fun l => delete_range (cursor_col e) (content_len l) l) e;
    if decide (cursor_line e + 1 <= length (lines e)) then
      Some (set_modified true (set_cursor (cursor_line e + 1) 0
        (set_lines (take (cursor_line e + 1) (lines e) ++ with_content rest :: drop (cursor_line e + 1) (lines e)) e)))
    else None
  else None.

Definition backspace (e : Editor) : option Editor :=
  if decide (0 < cursor_col e) then
    e ← on_line (delete (cursor_col e - 1)) (set_cursor (cursor_line e) (cursor_col e - 1) e);
    Some (set_modified true e)
  else if decide (0 < cursor_line e) then
    current ← lines e !! cursor_line e;
    let ls := base.delete (cursor_line e) (lines e) in
    prev ← ls !! (cursor_line e - 1);
    joined ← insert_str (content_len prev) (to_bytes current) prev;
    Some (set_modified true (set_cursor (cursor_line e - 1) (content_len prev) (set_lines (<[cursor_line e - 1 := joined]> ls) e)))
  else Some e.

Definition delete_char (e : Editor) : option Editor :=
  match lines e !! cursor_line e with
  | Some l => if decide (cursor_col e < content_len l) then e ← on_line (delete (cursor_col e)) e; Some (set_modified true e) else Some e
  | None => Some e
  end.

(** ** Keys *)

Definition handle_normal_key (key : Z) (e : Editor) : option Editor :=
  match key with
  | 105%Z => Some (set_mode InsertMode e)
  | 58%Z => Some (set_command [] (set_mode Command e))
  | 104%Z | 0x4B%Z => Some (move_left e)
  | 106%Z | 0x50%Z => Some (move_down e)
  | 107%Z | 0x48%Z => Some (move_up e)
  | 108%Z | 0x4D%Z => Some (move_right e)
  | 120%Z => delete_char e
  | 48%Z => Some (set_cursor (cursor_line e) 0 e)
  | 36%Z => Some (move_to_end_of_line e)
  | 71%Z => Some (set_cursor (length (lines e) - 1) (cursor_col e) e)
  | 103%Z => Some (set_cursor 0 (cursor_col e) e)
  | _ => Some e
  end.

Definition is_printable (key : Z) : bool := (32 <=? key)%Z && (key <? 127)%Z.

Definition handle_insert_key (key : Z) (e : Editor) : option Editor :=
  match key with
  | 27%Z => Some (set_mode Normal e)
  | 8%Z | 127%Z => backspace e
  | 10%Z => insert_newline e
  | _ => if is_printable key then insert_char key e else Some e
  end.

Definition cmd_w : list Z := [119%Z].
Definition cmd_q : list Z := [113%Z].
Definition cmd_wq : list Z := [119; 113]%Z.

Definition execute_command (e : Editor) (w : World D) : Editor * World D :=
  if decide (command_buffer e = cmd_w \/ command_buffer e = cmd_wq) then (save e w).2 else (e, w).

Definition handle_command_key (key : Z) (e : Editor) (w : World D) : Editor * World D :=
  match key with
  | 27%Z => (set_mode Normal e, w)
  | 10%Z => let '(e, w) := execute_command e w in (set_mode Normal e, w)
  | 8%Z | 127%Z => (set_command (removelast (command_buffer e)) e, w)
  | _ => if is_printable key then (set_command (command_buffer e ++ [key]) e, w) else (e, w)
  end.

Definition handle_key (key : Z) (e : Editor) (w : World D) : option (Editor * World D) :=
  match mode e with
  | Normal => e ← handle_normal_key key e; Some (e, w)
  | InsertMode => e ← handle_insert_key key e; Some (e, w)
  | Command => Some (handle_command_key key e w)
  end.

Definition should_quit (e : Editor) : bool := bool_decide (command_buffer e = cmd_q \/ command_buffer e = cmd_wq).

Definition cursor_pos (e : Editor) : nat * nat := (cursor_line e, cursor_col e).

(** The lines on the screen, with their numbers; a slice that is out of order panics. *)
Definition visible_lines (e : Editor) : option (list (nat * GapBuffer)) :=
  let start := view_offset e in
  let end_ := (start + view_height e) `min` length (lines e) in
  if decide (start <= end_) then Some (zip (seq start (end_ - start)) (take (end_ - start) (drop start (lines e)))) else None.

Definition update_view (e : Editor) : Editor :=
  if decide (cursor_line e < view_offset e) then set_view (cursor_line e) e
  else if decide (view_offset e + view_height e <= cursor_line e) then set_view (cursor_line e - view_height e + 1) e
  else e.

(** One round of [run_cli]: the screen is drawn, then a key comes; [true] when the
    editor closes. *)
Definition run_key (key : Z) (e : Editor) (w : World D) : option (bool * (Editor * World D)) :=
  let e := update_view e in
  _ ← visible_lines e;
  '(e, w) ← handle_key key e w; Some (should_quit e, (e, w)).

Fixpoint run_keys (keys : list Z) (e : Editor) (w : World D) : option (bool * (Editor * World D)) :=
  match keys with
  | [] => Some (false, (e, w))
  | key :: keys =>
      '(quit, (e, w)) ← run_key key e w;
      if quit : bool then Some (true, (e, w)) else run_keys keys e w
  end.

(** Without a file name the editor starts empty. *)
Definition run_cli (name : option (list Z)) (keys : list Z) (w : World D) : option (bool * (Editor * World D)) :=
  let '(e, w) := match name with Some f => load f Editor_new w | None => (Editor_new, w) end in
  run_keys keys e w.
End Editing.

(** ** The document

    The lines joined by newlines, and the cursor as an offset into it. *)

Definition text (e : Editor) : list (list Z) := to_bytes <$> lines e.

(** The lines before and after a line, with the newlines between. *)
Definition pre (ts : list (list Z)) : list Z := concat ((fun t => t ++ [newline]) <$> ts).
Definition post (ts : list (list Z)) : list Z := concat (cons newline <$> ts).

Definition flat (ts : list (list Z)) : list Z := match ts with [] => [] | t :: ts => t ++ post ts end.

Definition document (e : Editor) : list Z := flat (text e).
Definition offset (e : Editor) : nat := length (pre (take (cursor_line e) (text e))) + cursor_col e.

Lemma pre_app ts us : pre (ts ++ us) = pre ts ++ pre us.
Proof. unfold pre. by rewrite fmap_app, concat_app. Qed.
Lemma post_app ts us : post (ts ++ us) = post ts ++ post us.
Proof. unfold post. by rewrite fmap_app, concat_app. Qed.

Lemma pre_post t ts : pre (t :: ts) = t ++ post ts ++ [newline].
Proof.
  revert t. induction ts as [|u ts IH]; intros t; [unfold pre, post; cbn; by rewrite app_nil_r|]. change (pre (t :: u :: ts)) with ((t ++ [newline]) ++ pre (u :: ts)). rewrite IH.
  change (post (u :: ts)) with ((newline :: u) ++ post ts). by rewrite <- !app_assoc.
Qed.

Lemma flat_split before t after : flat (before ++ t :: after) = pre before ++ t ++ post after.
Proof.
  destruct before as [|b before]; [done|]. cbn [flat app]. rewrite post_app, pre_post. change (post (t :: after)) with ((newline :: t) ++ post after). by rewrite <- !app_assoc.
Qed.

(** A line of the text, and the document around it. *)
Lemma document_at (ts : list (list Z)) i t : ts !! i = Some t -> ts = take i ts ++ t :: drop (S i) ts /\ flat ts = pre (take i ts) ++ t ++ post (drop (S i) ts).
Proof. intros Hi. pose proof (take_drop_middle ts i t Hi) as E. split; [done|]. by rewrite <- E at 1; rewrite flat_split. Qed.

Lemma flat_replace (ts : list (list Z)) i t u : ts !! i = Some t -> flat (<[i := u]> ts) = pre (take i ts) ++ u ++ post (drop (S i) ts).
Proof.
  intros Hi. apply lookup_lt_Some in Hi as Hl. rewrite insert_take_drop by done. by rewrite flat_split.
Qed.

(** Splicing at an offset that lies in the middle part. *)
Lemma splice_middle (a t b d : list Z) c : c <= length t ->
  take (length a + c) (a ++ t ++ b) ++ d ++ drop (length a + c) (a ++ t ++ b) = a ++ (take c t ++ d ++ drop c t) ++ b.
Proof.
  intros Hc. rewrite take_app_add, drop_app_add. rewrite take_app_le, drop_app_le by done. by rewrite <- !app_assoc.
Qed.

Lemma cut_middle (a t b : list Z) c : c < length t ->
  take (length a + c) (a ++ t ++ b) ++ drop (length a + c + 1) (a ++ t ++ b) = a ++ (take c t ++ drop (c + 1) t) ++ b.
Proof.
  intros Hc. rewrite <- Nat.add_assoc, take_app_add, drop_app_add. rewrite take_app_le, drop_app_le by lia. by rewrite <- !app_assoc.
Qed.

(** An editor in order: every line is a gap buffer without a newline, and there is a
    line where the cursor is. *)
Record editor_ok (e : Editor) : Prop := {
  eo_lines : Forall gap_ok (lines e);
  eo_newline : Forall (fun t => newline ∉ t) (text e);
  eo_cursor : cursor_line e < length (lines e)
}.

Definition cursor_in_line (e : Editor) : Prop := cursor_col e <= current_line_len e.

#[export] Instance cursor_in_line_dec e : Decision (cursor_in_line e).
Proof. unfold cursor_in_line. apply _. Defined.

Lemma current_line e : editor_ok e -> exists l, lines e !! cursor_line e = Some l /\ gap_ok l /\ newline ∉ to_bytes l /\ text e !! cursor_line e = Some (to_bytes l) /\
  current_line_len e = length (to_bytes l).
Proof.
  intros [Hl Hn Hc]. destruct (lookup_lt_is_Some_2 _ _ Hc) as [l E]. exists l. pose proof (Forall_lookup_1 _ _ _ _ Hl E) as Hg.
  assert (text e !! cursor_line e = Some (to_bytes l)) as Et by (unfold text; by rewrite list_lookup_fmap, E). split; [done|]. split; [done|].
  split; [exact (Forall_lookup_1 _ _ _ _ Hn Et)|]. split; [done|]. unfold current_line_len. by rewrite E, length_to_bytes.
Qed.

Lemma text_lines_insert i g (ls : list GapBuffer) : to_bytes <$> <[i := g]> ls = <[i := to_bytes g]> (to_bytes <$> ls).
Proof. by rewrite list_fmap_insert. Qed.

(** Replacing the line of the cursor by one with bytes [t]. *)
Lemma on_line_spec f t e l : editor_ok e -> lines e !! cursor_line e = Some l -> newline ∉ t -> (exists g, f l = Some g /\ gap_ok g /\ to_bytes g = t) ->
  exists e', on_line f e = Some e' /\ editor_ok e' /\ text e' = <[cursor_line e := t]> (text e) /\
    cursor_line e' = cursor_line e /\ cursor_col e' = cursor_col e /\ mode e' = mode e /\ filename e' = filename e /\
    view_offset e' = view_offset e /\ view_height e' = view_height e /\ command_buffer e' = command_buffer e /\ lines e' !! cursor_line e <> None.
Proof.
  intros [Hl Hn Hc] El Ht (g & Eg & Hg & Tg). unfold on_line. rewrite El, Eg. cbn [mbind option_bind]. eexists. split; [done|]. split; [|split; [by rewrite <- Tg; apply text_lines_insert|]].
  - constructor; cbn.
    + by apply Forall_insert.
    + unfold text. cbn. rewrite text_lines_insert, Tg. by apply Forall_insert.
    + by rewrite length_insert.
  - do 7 (split; [done|]). cbn. by rewrite list_lookup_insert_eq.
Qed.

Lemma not_in_parts (x : Z) c t : x ∉ t -> x ∉ take c t /\ x ∉ drop c t.
Proof. intros Ht. by rewrite <- (take_drop c t), not_elem_of_app in Ht. Qed.

Lemma not_in_splice (x : Z) c d t : x ∉ t -> x ∉ d -> x ∉ take c t ++ d ++ drop c t.
Proof. intros Ht Hd. pose proof (not_in_parts x c t Ht) as [? ?]. by rewrite !not_elem_of_app. Qed.

Lemma not_in_cut (x : Z) a b t : x ∉ t -> x ∉ take a t ++ drop b t.
Proof. intros Ht. rewrite not_elem_of_app. split; [by apply (not_in_parts x a t Ht)|by apply (not_in_parts x b t Ht)]. Qed.

(** What an edit leaves alone. *)
Record same_setting (e e' : Editor) : Prop := {
  ss_mode : mode e' = mode e; ss_file : filename e' = filename e; ss_view : view_offset e' = view_offset e; ss_height : view_height e' = view_height e;
  ss_command : command_buffer e' = command_buffer e
}.

Lemma insert_char_spec ch e : editor_ok e -> ch <> newline ->
  exists e', insert_char ch e = Some e' /\ editor_ok e' /\ same_setting e e' /\ modified e' = true /\
    (cursor_in_line e -> cursor_in_line e' /\ offset e' = offset e + 1 /\ document e' = take (offset e) (document e) ++ [ch] ++ drop (offset e) (document e)).
Proof.
  intros Hok Hch. destruct (current_line e Hok) as (l & El & Hg & Hn & Et & Hlen). unfold insert_char. rewrite El.
  destruct (insert_spec (cursor_col e) ch l Hg) as (g & Eg & Hg' & Tg). set (c := cursor_col e `min` length (to_bytes l)) in *.
  assert (newline ∉ [ch]) as Hns by (rewrite list_elem_of_singleton; congruence).
  destruct (on_line_spec (insert (cursor_col e) ch) _ e l Hok El (not_in_splice _ c [ch] _ Hn Hns) (ex_intro _ g (conj Eg (conj Hg' Tg)))) as (e' & E & Ho & T & L & C & M' & F & V & Hh & Cb & Hs).
  rewrite E. cbn [mbind option_bind]. eexists. split; [done|]. split; [by destruct Ho|]. split; [by constructor|]. split; [done|]. unfold cursor_in_line. intros Hc. rewrite Hlen in Hc.
  assert (c = cursor_col e) as Ec by (unfold c; lia). rewrite Ec in *. destruct (document_at (text e) (cursor_line e) (to_bytes l) Et) as [Es Ed].
  apply lookup_lt_Some in Et as Hlt. split; [|split].
  - assert (editor_ok (set_modified true (set_cursor (cursor_line e') (cursor_col e' + 1) e'))) as Ho2 by (by destruct Ho). destruct (current_line _ Ho2) as (l2 & _ & _ & _ & Et2 & ->).
    change (text e' !! cursor_line e' = Some (to_bytes l2)) in Et2. rewrite T, L, list_lookup_insert_eq in Et2 by done. injection Et2 as <-. cbn [cursor_col set_modified set_file set_cursor].
    rewrite length_app, C. cbn [length app]. rewrite length_take, length_drop. lia.
  - unfold offset. cbn [cursor_line cursor_col set_modified set_file set_cursor]. change (text (set_modified true (set_cursor (cursor_line e') (cursor_col e' + 1) e'))) with (text e').
    rewrite T, L, C. rewrite take_insert_ge by lia. lia.
  - unfold document. change (text (set_modified true (set_cursor (cursor_line e') (cursor_col e' + 1) e'))) with (text e'). rewrite T, (flat_replace _ _ _ _ Et), Ed. unfold offset.
    by rewrite splice_middle by lia.
Qed.

Lemma break_text (ts : list (list Z)) i u v : i < length ts ->
  take (i + 1) (<[i := u]> ts) ++ v :: drop (i + 1) (<[i := u]> ts) = take i ts ++ u :: v :: drop (S i) ts.
Proof.
  intros Hi. rewrite insert_take_drop by done. assert (length (take i ts) = i) as Hl by (rewrite length_take; lia).
  rewrite (take_app_add' _ _ i 1), (drop_app_add' _ _ i 1) by done. cbn [take drop]. by rewrite <- app_assoc.
Qed.

Lemma insert_newline_spec e : editor_ok e ->
  if decide (cursor_in_line e) then
    exists e', insert_newline e = Some e' /\ editor_ok e' /\ same_setting e e' /\ modified e' = true /\
      cursor_in_line e' /\ offset e' = offset e + 1 /\ document e' = take (offset e) (document e) ++ [newline] ++ drop (offset e) (document e)
  else insert_newline e = None.
Proof.
  intros Hok. destruct (current_line e Hok) as (l & El & Hg & Hn & Et & Hlen). unfold insert_newline. rewrite El. cbn [mbind option_bind].
  destruct (decide (cursor_in_line e)) as [Hc|Hc]; unfold cursor_in_line in Hc; rewrite Hlen in Hc; [rewrite decide_True by done|by rewrite decide_False by done]. set (c := cursor_col e) in *. set (i := cursor_line e) in *.
  pose proof (not_in_parts newline c (to_bytes l) Hn) as [Hn1 Hn2].
  destruct (on_line_spec (fun l => delete_range c (content_len l) l) (take c (to_bytes l)) e l Hok El Hn1) as (e1 & -> & Ho & T & L & C & M1 & F & V & Hh & Cb & _).
  { destruct (delete_range_spec c (content_len l) l Hg) as (g & E & Hg' & Tg). exists g. split; [done|]. split; [done|]. rewrite Tg, <- (length_to_bytes l Hg). destruct (decide (c < length (to_bytes l))).
    - by rewrite (drop_ge (to_bytes l)), app_nil_r by lia.
    - by rewrite take_ge by lia. }
  cbn [mbind option_bind]. destruct Ho as [Hl1 Hn1' Hc1]. rewrite decide_True by lia. rewrite L. fold i. eexists. split; [done|]. apply lookup_lt_Some in Et as Hlt.
  set (e' := set_modified _ _). assert (text e' = take i (text e) ++ take c (to_bytes l) :: drop c (to_bytes l) :: drop (S i) (text e)) as Tx.
  { unfold e', text. cbn [lines set_modified set_file set_cursor set_lines]. rewrite fmap_app, fmap_cons, fmap_take, fmap_drop. change (to_bytes <$> lines e1) with (text e1). rewrite T.
    rewrite (proj2 (with_content_spec _)). by apply break_text. }
  assert (length (lines e') = length (lines e) + 1) as Hlen'.
  { assert (length (lines e') = length (text e')) as -> by (unfold text; by rewrite length_fmap). rewrite Tx. rewrite length_app, length_take. cbn [length]. rewrite length_drop.
    assert (length (lines e) = length (text e)) as -> by (unfold text; by rewrite length_fmap). lia. }
  assert (editor_ok e') as Ho'.
  { constructor.
    - unfold e'. cbn [lines set_modified set_file set_cursor set_lines]. apply Forall_app_2; [by apply Forall_take|]. apply Forall_cons_2; [apply with_content_spec|by apply Forall_drop].
    - rewrite Tx. destruct Hok as [_ Hnl _]. apply Forall_app_2; [by apply Forall_take|]. apply Forall_cons_2; [done|]. apply Forall_cons_2; [done|by apply Forall_drop].
    - rewrite Hlen'. destruct Hok. unfold e'. cbn. unfold i. lia. }
  split; [done|]. split; [by constructor|]. split; [done|]. split; [unfold cursor_in_line, e'; cbn; lia|]. assert (length (take i (text e)) = i) as Hti by (rewrite length_take; lia).
  assert (offset e = length (pre (take i (text e))) + c) as Eo by done. split.
  - unfold offset at 1. rewrite Tx. unfold e'. cbn [cursor_line cursor_col set_modified set_file set_cursor set_lines]. rewrite (take_app_add' _ _ i 1) by done. cbn [take]. rewrite pre_app, length_app, Eo.
    unfold pre at 2. cbn. rewrite app_nil_r, length_app, length_take. cbn [length]. lia.
  - unfold document. rewrite Tx, Eo. destruct (document_at (text e) i (to_bytes l) Et) as [_ ->]. rewrite splice_middle by done. rewrite flat_split. change (post (drop c (to_bytes l) :: drop (S i) (text e))) with ((newline :: drop c (to_bytes l)) ++ post (drop (S i) (text e))).
    by rewrite <- !app_assoc.
Qed.

Lemma delete_at_spec c e : editor_ok e -> exists e', on_line (delete c) e = Some e' /\ editor_ok e' /\ same_setting e e' /\ cursor_line e' = cursor_line e /\ cursor_col e' = cursor_col e /\
  (forall l, lines e !! cursor_line e = Some l -> text e' = <[cursor_line e := take c (to_bytes l) ++ drop (c + 1) (to_bytes l)]> (text e)).
Proof.
  intros Hok. destruct (current_line e Hok) as (l & El & Hg & Hn & Et & Hlen). destruct (delete_spec c l Hg) as (g & Eg & Hg' & Tg).
  destruct (on_line_spec (delete c) _ e l Hok El (not_in_cut _ c (c + 1) _ Hn) (ex_intro _ g (conj Eg (conj Hg' Tg)))) as (e' & E & Ho & T & L & C & M' & F & V & Hh & Cb & _).
  exists e'. split; [done|]. split; [done|]. split; [by constructor|]. split; [done|]. split; [done|]. intros l' El'. rewrite El in El'. by injection El' as <-.
Qed.

(** Deleting a byte of the line of the cursor deletes it from the document. *)
Lemma delete_in_document c e e' l : lines e !! cursor_line e = Some l -> text e !! cursor_line e = Some (to_bytes l) -> c < length (to_bytes l) ->
  text e' = <[cursor_line e := take c (to_bytes l) ++ drop (c + 1) (to_bytes l)]> (text e) ->
  let o := length (pre (take (cursor_line e) (text e))) + c in document e' = take o (document e) ++ drop (o + 1) (document e).
Proof.
  intros El Et Hc T. cbn zeta. unfold document. rewrite T, (flat_replace _ _ _ _ Et). destruct (document_at (text e) (cursor_line e) (to_bytes l) Et) as [_ ->]. by rewrite cut_middle.
Qed.

Lemma line_len_of e t : editor_ok e -> text e !! cursor_line e = Some t -> current_line_len e = length t.
Proof. intros Hok Et. destruct (current_line e Hok) as (l & _ & _ & _ & Et' & ->). rewrite Et in Et'. by injection Et' as ->. Qed.

Lemma delete_char_spec e : editor_ok e -> exists e', delete_char e = Some e' /\ editor_ok e' /\ same_setting e e' /\ cursor_col e' = cursor_col e /\ offset e' = offset e /\
  (cursor_in_line e -> cursor_in_line e') /\
  if decide (cursor_col e < current_line_len e) then modified e' = true /\ document e' = take (offset e) (document e) ++ drop (offset e + 1) (document e) else e' = e.
Proof.
  intros Hok. destruct (current_line e Hok) as (l & El & Hg & Hn & Et & Hlen). unfold delete_char. rewrite El, <- (length_to_bytes l Hg), Hlen.
  destruct (decide (cursor_col e < length (to_bytes l))) as [Hc|Hc]; [|exists e; by repeat (split; [done|])].
  destruct (delete_at_spec (cursor_col e) e Hok) as (e' & -> & Ho & Hs & L & C & T). cbn [mbind option_bind]. specialize (T l El).
  pose proof (delete_in_document _ _ _ _ El Et Hc T) as Hd. cbn zeta in Hd. apply lookup_lt_Some in Et as Hlt.
  eexists. split; [done|]. split; [by destruct Ho|]. split; [by destruct Hs|]. split; [done|]. split; [|split; [|by split]].
  - unfold offset. change (length (pre (take (cursor_line e') (text e'))) + cursor_col e' = length (pre (take (cursor_line e) (text e))) + cursor_col e). rewrite L, C, T. by rewrite take_insert_ge by lia.
  - intros _. unfold cursor_in_line. change (cursor_col e' <= current_line_len e'). rewrite (line_len_of e' (take (cursor_col e) (to_bytes l) ++ drop (cursor_col e + 1) (to_bytes l))); [|done|by rewrite T, L, list_lookup_insert_eq].
    rewrite C, length_app, length_take, length_drop. lia.
Qed.

(** Joining a line with the one before it. *)
Lemma join_text (ts : list (list Z)) i p t : 0 < i -> ts !! (i - 1) = Some p -> ts !! i = Some t ->
  <[i - 1 := p ++ t]> (base.delete i ts) = take (i - 1) ts ++ (p ++ t) :: drop (S i) ts /\ take i ts = take (i - 1) ts ++ [p].
Proof.
  intros Hi Hp Ht. apply lookup_lt_Some in Ht as Hl. assert (take i ts = take (i - 1) ts ++ [p]) as E.
  { replace i with (S (i - 1)) at 1 by lia. by apply take_S_r. }
  split; [|done]. rewrite delete_take_drop, E, <- app_assoc. cbn [app]. rewrite insert_app_r_alt by (rewrite length_take; lia). rewrite length_take, Nat.min_l by lia. by rewrite Nat.sub_diag.
Qed.

Lemma backspace_join e : editor_ok e -> cursor_col e = 0 -> 0 < cursor_line e ->
  exists e', backspace e = Some e' /\ editor_ok e' /\ same_setting e e' /\ modified e' = true /\ cursor_in_line e' /\
    offset e' = offset e - 1 /\ document e' = take (offset e - 1) (document e) ++ drop (offset e) (document e).
Proof.
  intros Hok Hc0 Hpos. destruct (current_line e Hok) as (l & El & Hg & Hn & Et & Hlen). unfold backspace. rewrite decide_False by lia. rewrite decide_True by done. rewrite El. cbn [mbind option_bind]. cbn zeta.
  set (i := cursor_line e) in *. pose proof Hok as [Hgs Hns Hlt]. fold i in Hlt. destruct (lookup_lt_is_Some_2 (lines e) (i - 1) ltac:(lia)) as [p Ep].
  assert (text e !! (i - 1) = Some (to_bytes p)) as Etp by (unfold text; by rewrite list_lookup_fmap, Ep). pose proof (Forall_lookup_1 _ _ _ _ Hgs Ep) as Hgp. pose proof (Forall_lookup_1 _ _ _ _ Hns Etp) as Hnp. cbn beta in Hnp.
  rewrite list_lookup_delete_lt by lia. rewrite Ep. cbn [mbind option_bind]. destruct (insert_str_spec (content_len p) (to_bytes l) p Hgp) as (j & -> & Hj & Tj). cbn [mbind option_bind].
  rewrite (length_to_bytes p Hgp), Nat.min_id, <- (length_to_bytes p Hgp), firstn_all, drop_ge, app_nil_r in Tj by lia.
  eexists. split; [done|]. set (e' := set_modified _ _). destruct (join_text (text e) i (to_bytes p) (to_bytes l) Hpos Etp Et) as [Ej Etk].
  assert (text e' = take (i - 1) (text e) ++ (to_bytes p ++ to_bytes l) :: drop (S i) (text e)) as Tx.
  { unfold e', text. cbn [lines set_modified set_file set_cursor set_lines]. rewrite text_lines_insert, Tj. rewrite list_fmap_delete. exact Ej. }
  assert (length (text e') = length (text e) - 1) as Hlt'.
  { apply lookup_lt_Some in Et. rewrite Tx, length_app, length_take. cbn [length]. rewrite length_drop. lia. }
  assert (length (text e) = length (lines e)) as Hlen0 by (unfold text; by rewrite length_fmap).
  assert (length (take (i - 1) (text e)) = i - 1) as Hti by (rewrite length_take; lia).
  assert (editor_ok e') as Ho'.
  { constructor.
    - unfold e'. cbn [lines set_modified set_file set_cursor set_lines]. apply Forall_insert; [by apply Forall_delete|done].
    - rewrite Tx. apply Forall_app_2; [by apply Forall_take|]. apply Forall_cons_2; [by rewrite not_elem_of_app|by apply Forall_drop].
    - assert (length (lines e') = length (text e')) as -> by (unfold text; by rewrite length_fmap). change (i - 1 < length (text e')). lia. }
  split; [done|]. split; [by constructor|]. split; [done|]. split; [|split].
  - unfold cursor_in_line. rewrite (line_len_of e' (to_bytes p ++ to_bytes l)); [|done|].
    + unfold e'. cbn [cursor_col set_modified set_file set_cursor]. rewrite length_app, <- (length_to_bytes p Hgp). lia.
    + rewrite Tx. unfold e'. cbn [cursor_line set_modified set_file set_cursor]. fold i. rewrite lookup_app_r by lia. by rewrite Hti, Nat.sub_diag.
  - unfold offset. rewrite Tx. fold i. unfold e'. cbn [cursor_line cursor_col set_modified set_file set_cursor]. fold i. rewrite take_app_length' by done. rewrite Etk, pre_app, length_app, Hc0, <- (length_to_bytes p Hgp).
    assert (pre [to_bytes p] = to_bytes p ++ [newline]) as -> by apply pre_post. rewrite length_app. cbn. lia.
  - unfold document, offset. fold i. rewrite Tx, flat_split, Hc0. destruct (document_at (text e) i (to_bytes l) Et) as [_ ->]. rewrite Etk, pre_app.
    assert (pre [to_bytes p] = to_bytes p ++ [newline]) as -> by apply pre_post.
    rewrite Nat.add_0_r. rewrite (drop_app_length' _ (to_bytes l ++ post (drop (S i) (text e)))) by done.
    replace (length (pre (take (i - 1) (text e)) ++ to_bytes p ++ [newline]) - 1) with (length (pre (take (i - 1) (text e)) ++ to_bytes p)) by (rewrite !length_app; cbn; lia).
    rewrite <- !app_assoc. rewrite (app_assoc (pre _) (to_bytes p) ([newline] ++ _)). rewrite take_app_length. by rewrite <- !app_assoc.
Qed.

Lemma backspace_in_line e : editor_ok e -> 0 < cursor_col e ->
  exists e', backspace e = Some e' /\ editor_ok e' /\ same_setting e e' /\ modified e' = true /\
    (cursor_in_line e -> cursor_in_line e' /\ offset e' = offset e - 1 /\ document e' = take (offset e - 1) (document e) ++ drop (offset e) (document e)).
Proof.
  intros Hok Hc. unfold backspace. rewrite decide_True by done. set (e0 := set_cursor (cursor_line e) (cursor_col e - 1) e).
  assert (editor_ok e0) as Ho0 by (by destruct Hok). destruct (delete_at_spec (cursor_col e - 1) e0 Ho0) as (e1 & -> & Ho & Hs & L & C & T). cbn [mbind option_bind].
  eexists. split; [done|]. split; [by destruct Ho|]. split; [by destruct Hs|]. split; [done|]. unfold cursor_in_line. intros Hin. destruct (current_line e Hok) as (l & El & Hg & Hn & Et & Hlen).
  specialize (T l El). rewrite Hlen in Hin. apply lookup_lt_Some in Et as Hlt. change (cursor_line e0) with (cursor_line e) in *. change (text e0) with (text e) in T. change (cursor_col e0) with (cursor_col e - 1) in C.
  split; [|split].
  - change (cursor_col e1 <= current_line_len e1). rewrite (line_len_of e1 (take (cursor_col e - 1) (to_bytes l) ++ drop (cursor_col e - 1 + 1) (to_bytes l))); [|done|by rewrite T, L, list_lookup_insert_eq].
    rewrite C, length_app, length_take, length_drop. lia.
  - unfold offset. change (length (pre (take (cursor_line e1) (text e1))) + cursor_col e1 = length (pre (take (cursor_line e) (text e))) + cursor_col e - 1). rewrite L, C, T. rewrite take_insert_ge by lia. lia.
  - change (document e1 = take (offset e - 1) (document e) ++ drop (offset e) (document e)). pose proof (delete_in_document (cursor_col e - 1) e e1 l El Et ltac:(lia) T) as Hd. cbn zeta in Hd. rewrite Hd. unfold offset.
    f_equal; f_equal; lia.
Qed.

(** ** Lines and bytes *)

Fixpoint split_lines (d : list Z) : list (list Z) :=
  match d with
  | [] => [[]]
  | b :: d => if Z.eqb b newline then [] :: split_lines d else match split_lines d with t :: ts => (b :: t) :: ts | [] => [[b]] end
  end.

Lemma flat_cons t u ts : flat (t :: u :: ts) = t ++ newline :: flat (u :: ts).
Proof. reflexivity. Qed.

Lemma split_nonempty d : split_lines d <> [].
Proof. destruct d as [|b d]; [done|]. cbn. destruct (Z.eqb b newline); [done|]. by destruct (split_lines d). Qed.

Lemma flat_split_lines d : flat (split_lines d) = d.
Proof.
  induction d as [|b d IH]; [done|]. cbn [split_lines]. pose proof (split_nonempty d) as Hn. destruct (split_lines d) as [|t ts]; [done|].
  destruct (Z.eqb_spec b newline) as [->|]; [by rewrite flat_cons, IH|]. cbn [flat] in *. by rewrite <- IH.
Qed.

Lemma split_newline_free d : Forall (fun t => newline ∉ t) (split_lines d).
Proof.
  induction d as [|b d IH]; [repeat constructor; apply not_elem_of_nil|]. cbn [split_lines]. destruct (Z.eqb_spec b newline).
  - constructor; [apply not_elem_of_nil|done].
  - destruct IH as [|t ts Ht Hts]; constructor; try done; apply not_elem_of_cons; (split; [congruence|]); [apply not_elem_of_nil|done].
Qed.

Lemma split_flat ts : ts <> [] -> Forall (fun t => newline ∉ t) ts -> split_lines (flat ts) = ts.
Proof.
  intros Hne H. destruct H as [|t ts Ht Hts]; [done|]. clear Hne. revert t Ht. induction Hts as [|u ts Hu Hts IH]; intros t Ht.
  - cbn [flat]. unfold post. cbn. rewrite app_nil_r. induction t as [|b t IHt]; [done|]. apply not_elem_of_cons in Ht as [Hb Ht]. cbn [split_lines]. rewrite (IHt Ht).
    by destruct (Z.eqb_spec b newline).
  - rewrite flat_cons. induction t as [|b t IHt]; [cbn [app split_lines]; rewrite Z.eqb_refl; by rewrite (IH u Hu)|]. apply not_elem_of_cons in Ht as [Hb Ht].
    cbn [app split_lines]. rewrite (IHt Ht). by destruct (Z.eqb_spec b newline).
Qed.

Lemma split_snoc d b : forall ts t, split_lines d = ts ++ [t] -> split_lines (d ++ [b]) = if Z.eqb b newline then ts ++ [t; []] else ts ++ [t ++ [b]].
Proof.
  induction d as [|a d IH]; intros ts t E.
  - assert (ts = [] /\ t = []) as [-> ->].
    { destruct ts as [|x ts]; [by injection E as <-|]. injection E as _ E. by destruct ts. }
    cbn. by destruct (Z.eqb b newline).
  - cbn [split_lines app] in *. destruct (Z.eqb a newline).
    + destruct ts as [|x ts]; [injection E as _ E; by destruct (split_nonempty d)|]. injection E as <- E. rewrite (IH _ _ E). by destruct (Z.eqb b newline).
    + pose proof (split_nonempty d) as Hn. destruct (split_lines d) as [|y ys] eqn:Es; [done|]. destruct ts as [|x ts].
      * injection E as <- ->. rewrite (IH [] y eq_refl). by destruct (Z.eqb b newline).
      * injection E as <- ->. rewrite (IH (y :: ts) t eq_refl). by destruct (Z.eqb b newline).
Qed.

(** The loop of [load] after [i] bytes. *)
Lemma load_loop data i : i <= length data -> let '(ls, start) := foldl (load_line data) ([], 0) (seq 0 i) in
  start <= i /\ Forall gap_ok ls /\ split_lines (take i data) = (to_bytes <$> ls) ++ [take (i - start) (drop start data)].
Proof.
  induction i as [|i IH]; intros Hi; [done|]. rewrite seq_S, foldl_snoc. specialize (IH ltac:(lia)). destruct (foldl (load_line data) ([], 0) (seq 0 i)) as [ls start]. destruct IH as (Hs & Hg & E).
  destruct (lookup_lt_is_Some_2 data i Hi) as [b Hb]. cbn [load_line plus]. unfold load_line. rewrite Hb. cbn [fst snd]. rewrite (take_S_r _ _ _ Hb), (split_snoc _ b _ _ E).
  destruct (Z.eqb_spec b newline).
  - split; [lia|]. split; [apply Forall_app_2; [done|]; apply Forall_singleton, with_content_spec|]. rewrite fmap_app. cbn [fmap list_fmap]. rewrite (proj2 (with_content_spec _)).
    replace (S i - (i + 1)) with 0 by lia. by rewrite <- app_assoc.
  - split; [lia|]. split; [done|]. do 2 f_equal. replace (S i - start) with (S (i - start)) by lia. rewrite (take_S_r _ _ b); [done|]. rewrite lookup_drop. by replace (start + (i - start)) with i by lia.
Qed.

Lemma load_lines_spec data : to_bytes <$> load_lines data = split_lines data /\ Forall gap_ok (load_lines data) /\ load_lines data <> [].
Proof.
  unfold load_lines. pose proof (load_loop data (length data) (le_n _)) as Hl. destruct (foldl _ _ _) as [ls start]. destruct Hl as (Hs & Hg & E). rewrite (decide_True (P := start <= length data)) by done.
  rewrite firstn_all in E. assert (ls ++ [with_content (drop start data)] <> []) as Hne by (by destruct ls). rewrite decide_False by done. split; [|split; [|done]].
  - rewrite E, fmap_app. cbn [fmap list_fmap]. rewrite (proj2 (with_content_spec _)). rewrite (take_ge (drop _ _)); [done|]. rewrite length_drop. lia.
  - apply Forall_app_2; [done|]. apply Forall_singleton, with_content_spec.
Qed.

Lemma save_loop ls : forall n k acc, ls <> [] -> k + length ls = n ->
  foldl (save_line n) acc (imap (fun i l => (k + i, l)) ls) = acc ++ flat (to_bytes <$> ls).
Proof.
  induction ls as [|l ls IH]; intros n k acc Hne Hn; [done|]. cbn [imap foldl length] in *. unfold save_line at 2. cbn [fst snd]. rewrite Nat.add_0_r. destruct ls as [|l2 ls].
  - rewrite decide_False by (cbn in Hn; lia). cbn. unfold post. cbn. by rewrite !app_nil_r.
  - rewrite decide_True by (cbn in Hn; lia). rewrite (imap_ext _ (fun i x => (S k + i, x))); [|intros; unfold compose; f_equal; lia]. rewrite IH by (done || (cbn in *; lia)).
    rewrite !fmap_cons, flat_cons. by rewrite <- !app_assoc.
Qed.

Lemma save_data_spec ls : ls <> [] -> save_data ls = flat (to_bytes <$> ls).
Proof.
  intros Hne. unfold save_data. rewrite <- (app_nil_l (flat _)). rewrite <- (save_loop ls (length ls) 0 []) by done. f_equal.
Qed.

(** ** Theorems *)

Section Theorems.
Context `{Machine} {D : Type} `{BlockDevice D}.

(** Moving keys keep the text. *)
Definition moved (e e' : Editor) : Prop := lines e' = lines e /\ filename e' = filename e /\ modified e' = modified e.

Lemma moved_ok e e' : editor_ok e -> moved e e' -> cursor_line e' < length (lines e) -> editor_ok e' /\ document e' = document e.
Proof.
  intros [Hl Hn Hc] (E & _ & _) Hc'. unfold document, text. rewrite E. split; [|done]. constructor; [by rewrite E|unfold text; by rewrite E|by rewrite E].
Qed.

Lemma clamp_col_in e : cursor_in_line (clamp_col e).
Proof. unfold cursor_in_line. change (cursor_col e `min` current_line_len e <= current_line_len e). lia. Qed.

Definition lost_column (key : Z) : Prop := key = 71%Z \/ key = 103%Z.

#[local] Instance lost_column_dec key : Decision (lost_column key).
Proof. unfold lost_column. apply _. Defined.


Lemma normal_key_spec key e : editor_ok e -> exists e', handle_normal_key key e = Some e' /\ editor_ok e' /\
  (~ lost_column key -> cursor_in_line e -> cursor_in_line e') /\
  (moved e e' /\ document e' = document e \/ key = 120%Z /\ modified e' = true /\ offset e' = offset e /\
     cursor_col e < current_line_len e /\ document e' = take (offset e) (document e) ++ drop (offset e + 1) (document e)).
Proof.
  intros Hok. pose proof (eo_cursor _ Hok) as Hc.
  assert (forall e', moved e e' -> cursor_line e' < length (lines e) -> (~ lost_column key -> cursor_in_line e -> cursor_in_line e') -> handle_normal_key key e = Some e' ->
    exists e', handle_normal_key key e = Some e' /\ editor_ok e' /\ (~ lost_column key -> cursor_in_line e -> cursor_in_line e') /\
      (moved e e' /\ document e' = document e \/ key = 120%Z /\ modified e' = true /\ offset e' = offset e /\
        cursor_col e < current_line_len e /\ document e' = take (offset e) (document e) ++ drop (offset e + 1) (document e))) as Hmove.
  { intros e' Hm Hc' Hin E. exists e'. destruct (moved_ok e e' Hok Hm Hc') as [Ho Ed]. split; [done|]. split; [done|]. split; [done|]. by left. }
  assert (lines e <> []) as Hne by (intros E; rewrite E in Hc; cbn in Hc; lia).
  assert (forall e', e' = move_left e \/ e' = move_right e \/ e' = move_up e \/ e' = move_down e -> moved e e' /\ cursor_line e' < length (lines e) /\ (cursor_in_line e -> cursor_in_line e')) as Hdir.
  { intros e' [->|[->|[->| ->]]]; unfold move_left, move_right, move_up, move_down.
    - split; [done|]. split; [done|]. unfold cursor_in_line, current_line_len. cbn. lia.
    - destruct (decide _); [|done]. split; [done|]. split; [done|]. unfold cursor_in_line, current_line_len in *. cbn. lia.
    - destruct (decide _); [|done]. split; [done|]. split; [cbn; lia|]. intros _. apply clamp_col_in.
    - destruct (decide _) as [Hd|]; [|done]. split; [done|]. split; [cbn; destruct Hd; [done|lia]|]. intros _. apply clamp_col_in. }
  destruct (decide (key = 120%Z)) as [->|Hx].
  { destruct (delete_char_spec e Hok) as (e' & E & Ho & _ & _ & Hoff & Hin & Hd). exists e'. split; [done|]. split; [done|]. split; [auto|].
    destruct (decide (cursor_col e < current_line_len e)); [right; naive_solver|]. subst e'. by left. }
  destruct (decide (key = 104%Z \/ key = 0x4B%Z)) as [Hk|]; [|destruct (decide (key = 106%Z \/ key = 0x50%Z)) as [Hk|]; [|destruct (decide (key = 107%Z \/ key = 0x48%Z)) as [Hk|]; [|destruct (decide (key = 108%Z \/ key = 0x4D%Z)) as [Hk|]]]].
  1: destruct (Hdir (move_left e)) as (X & Y & W); [auto|]; apply (Hmove (move_left e)); auto; by destruct Hk as [-> | ->].
  1: destruct (Hdir (move_down e)) as (X & Y & W); [auto|]; apply (Hmove (move_down e)); auto; by destruct Hk as [-> | ->].
  1: destruct (Hdir (move_up e)) as (X & Y & W); [auto|]; apply (Hmove (move_up e)); auto; by destruct Hk as [-> | ->].
  1: destruct (Hdir (move_right e)) as (X & Y & W); [auto|]; apply (Hmove (move_right e)); auto; by destruct Hk as [-> | ->].
  destruct (decide (key = 105%Z)) as [->|]; [by apply (Hmove (set_mode InsertMode e))|].
  destruct (decide (key = 58%Z)) as [->|]; [by apply (Hmove (set_command [] (set_mode Command e)))|].
  destruct (decide (key = 48%Z)) as [->|]; [apply (Hmove (set_cursor (cursor_line e) 0 e)); [done|done| |done]; intros _ _; unfold cursor_in_line; cbn; lia|].
  destruct (decide (key = 36%Z)) as [->|]; [apply (Hmove (move_to_end_of_line e)); [done|done| |done]; intros _ _; unfold cursor_in_line; done|].
  destruct (decide (key = 71%Z)) as [->|]; [apply (Hmove (set_cursor (length (lines e) - 1) (cursor_col e) e)); [done|cbn; lia| |done]; intros Hl; destruct Hl; by left|].
  destruct (decide (key = 103%Z)) as [->|]; [apply (Hmove (set_cursor 0 (cursor_col e) e)); [done|cbn; lia| |done]; intros Hl; destruct Hl; by right|].
  apply (Hmove e); [done|done|done|]. unfold handle_normal_key.
  repeat match goal with |- context [match ?q with Z0 => _ | Zpos _ => _ | Zneg _ => _ end] => is_var q; destruct q | |- context [match ?q with xI _ => _ | xO _ => _ | xH => _ end] => is_var q; destruct q end; done || lia || naive_solver.
Qed.

(** Typing, on the document and the offset: backspace deletes the byte before the
    cursor, a printable character or a newline goes in at the cursor. *)
Definition type_key (st : list Z * nat) (key : Z) : list Z * nat :=
  let '(d, o) := st in
  if decide (key = 8%Z \/ key = 127%Z) then (take (o - 1) d ++ drop o d, o - 1)
  else if decide (key = newline \/ is_printable key = true) then (take o d ++ [key] ++ drop o d, o + 1)
  else (d, o).

Lemma offset_zero e : editor_ok e -> cursor_col e = 0 -> cursor_line e = 0 -> offset e = 0.
Proof. intros _ Hc Hl. unfold offset. by rewrite Hc, Hl. Qed.

Lemma handle_insert_other key e : key <> 27%Z -> key <> 8%Z -> key <> 127%Z -> key <> 10%Z -> handle_insert_key key e = if is_printable key then insert_char key e else Some e.
Proof.
  intros. unfold handle_insert_key.
  repeat match goal with |- context [match ?q with Z0 => _ | Zpos _ => _ | Zneg _ => _ end] => is_var q; destruct q | |- context [match ?q with xI _ => _ | xO _ => _ | xH => _ end] => is_var q; destruct q end; done || lia.
Qed.

Lemma insert_key_spec key e : editor_ok e ->
  if decide (key = newline /\ ~ cursor_in_line e) then handle_insert_key key e = None
  else exists e', handle_insert_key key e = Some e' /\ editor_ok e' /\ (key <> 27%Z -> mode e' = mode e) /\
    (cursor_in_line e -> cursor_in_line e' /\ (document e', offset e') = type_key (document e, offset e) key).
Proof.
  intros Hok. unfold type_key. destruct (decide (key = 8%Z \/ key = 127%Z)) as [Hb|Hb].
  { rewrite decide_False by (unfold newline; lia). assert (handle_insert_key key e = backspace e) as -> by (by destruct Hb as [-> | ->]).
    destruct (decide (0 < cursor_col e)); [|destruct (decide (0 < cursor_line e))].
    - destruct (backspace_in_line e Hok) as (e' & E & Ho & Hs & _ & Hd); [done|]. exists e'. split; [done|]. split; [done|]. split; [by destruct Hs|]. intros Hin. destruct (Hd Hin) as (I & O & Dc). by rewrite Dc, O.
    - destruct (backspace_join e Hok) as (e' & E & Ho & Hs & _ & I & O & Dc); [lia|done|]. exists e'. split; [done|]. split; [done|]. split; [by destruct Hs|]. intros _. by rewrite Dc, O.
    - exists e. unfold backspace. rewrite !decide_False by done. split; [done|]. split; [done|]. split; [done|]. intros Hin. split; [done|]. rewrite (offset_zero e) by (done || lia). done. }
  destruct (decide (key = 10%Z)) as [->|Hnl].
  { pose proof (insert_newline_spec e Hok) as Hs. destruct (decide (cursor_in_line e)) as [Hin|Hin].
    - rewrite decide_False by naive_solver. destruct Hs as (e' & E & Ho & Hs & _ & I & O & Dc). exists e'. split; [exact E|]. split; [done|]. split; [by destruct Hs|]. intros _. split; [done|]. by rewrite Dc, O.
    - rewrite decide_True by done. exact Hs. }
  rewrite decide_False by (unfold newline; lia). destruct (decide (key = 27%Z)) as [->|He].
  { exists (set_mode Normal e). split; [done|]. split; [by destruct Hok|]. split; [done|]. intros Hin. by split. }
  rewrite handle_insert_other by (done || lia). destruct (is_printable key) eqn:Ep.
  - rewrite decide_True by auto. destruct (insert_char_spec key e Hok) as (e' & E & Ho & Hs & _ & Hd); [unfold newline; lia|]. exists e'. split; [done|]. split; [done|]. split; [by destruct Hs|].
    intros Hin. destruct (Hd Hin) as (I & O & Dc). by rewrite Dc, O.
  - rewrite decide_False by (unfold newline; intros [|]; [lia|done]). exists e. done.
Qed.

Lemma command_key_ok key e (w : World D) : editor_ok e -> let '(e', _) := handle_command_key key e w in editor_ok e' /\ document e' = document e /\ (cursor_in_line e -> cursor_in_line e').
Proof.
  intros Hok. assert (forall e', lines e' = lines e -> cursor_line e' = cursor_line e -> cursor_col e' = cursor_col e -> editor_ok e' /\ document e' = document e /\ (cursor_in_line e -> cursor_in_line e')) as Hs.
  { intros e' E L C. destruct Hok. unfold document, text, cursor_in_line, current_line_len. rewrite E, L, C. split; [|done]. constructor; [by rewrite E|unfold text; by rewrite E|by rewrite L, E]. }
  assert (forall e' w', (e', w') = (set_mode Normal (execute_command e w).1, (execute_command e w).2) -> editor_ok e' /\ document e' = document e /\ (cursor_in_line e -> cursor_in_line e')) as Hx.
  { intros e' w' [= -> ->]. unfold execute_command. destruct (decide _); [|by apply Hs]. unfold save. destruct (filename e); [|by apply Hs]. destruct (fs_write _ _ _) as [[]]; by apply Hs. }
  destruct (handle_command_key key e w) as [e' w'] eqn:E. unfold handle_command_key in E.
  destruct (execute_command e w) as [e1 w1]. cbn [fst snd] in Hx.
  repeat match type of E with context [match ?q with Z0 => _ | Zpos _ => _ | Zneg _ => _ end] => is_var q; destruct q | context [match ?q with xI _ => _ | xO _ => _ | xH => _ end] => is_var q; destruct q end;
    try destruct (is_printable _); simplify_eq; first [by eapply Hx|by apply Hs].
Qed.

Lemma typing_spec keys e (w : World D) : editor_ok e -> cursor_in_line e -> mode e = InsertMode -> 27%Z ∉ keys ->
  exists e', foldl (fun r key => '(e, w) ← r; handle_key key e w) (Some (e, w)) keys = Some (e', w) /\ editor_ok e' /\ cursor_in_line e' /\
    (document e', offset e') = foldl type_key (document e, offset e) keys.
Proof.
  revert e. induction keys as [|key keys IH]; intros e Hok Hin Hm Hk; cbn [foldl]; [by exists e|]. apply not_elem_of_cons in Hk as [Hk1 Hk].
  pose proof (insert_key_spec key e Hok) as Hs. rewrite decide_False in Hs by naive_solver. destruct Hs as (e1 & E & Ho & M' & Hd). destruct (Hd Hin) as [Hin1 Ed].
  cbn [mbind option_bind]. unfold handle_key at 2. rewrite Hm, E. cbn [mbind option_bind]. destruct (IH e1) as (e' & R & Ho' & Hin' & Ed'); [done|done|by rewrite M'|done|].
  exists e'. split; [done|]. split; [done|]. split; [done|]. by rewrite Ed', Ed.
Qed.

(** C18: Typing in insert mode edits the document: every sequence of keys without Escape
    runs without a panic, and the document and the cursor are those that typing gives
    on the flat text. *)
Theorem typing_edits_document keys e (w : World D) : editor_ok e -> cursor_in_line e -> mode e = InsertMode -> 27%Z ∉ keys ->
  exists e', foldl (fun r key => '(e, w) ← r; handle_key key e w) (Some (e, w)) keys = Some (e', w) /\ editor_ok e' /\ cursor_in_line e' /\
    (document e', offset e') = foldl type_key (document e, offset e) keys.
Proof. apply typing_spec. Qed.

(** In every mode and for every key, an editor in order stays in order, and it panics
    in one case only: a newline typed behind the end of the line.  The cursor gets
    there only with the keys for the first and the last line, which keep the column. *)
Theorem editor_panics_iff key e (w : World D) : editor_ok e ->
  if decide (mode e = InsertMode /\ key = newline /\ ~ cursor_in_line e) then handle_key key e w = None
  else exists e' w', handle_key key e w = Some (e', w') /\ editor_ok e' /\ (cursor_in_line e -> mode e = Normal /\ lost_column key \/ cursor_in_line e').
Proof.
  intros Hok. unfold handle_key. destruct (mode e) eqn:Em.
  - rewrite decide_False by naive_solver. destruct (normal_key_spec key e Hok) as (e' & -> & Ho & Hin & _). exists e', w. split; [done|]. split; [done|]. intros Hc.
    destruct (decide (lost_column key)) as [Hl|Hl]; [by left|right; by apply Hin].
  - pose proof (insert_key_spec key e Hok) as Hs. destruct (decide (key = newline /\ ~ cursor_in_line e)) as [Hd|Hd].
    + rewrite decide_True by done. by rewrite Hs.
    + rewrite decide_False by naive_solver. destruct Hs as (e' & -> & Ho & _ & Hc). exists e', w. split; [done|]. split; [done|]. intros Hin. right. by apply Hc.
  - rewrite decide_False by naive_solver. pose proof (command_key_ok key e w Hok) as Hs. destruct (handle_command_key key e w) as [e' w']. exists e', w'. destruct Hs as (Ho & _ & Hc). split; [done|]. split; [done|]. auto.
Qed.

(** After every key the line of the cursor is on the screen, and drawing does not
    panic, wherever the view was. *)
Theorem cursor_visible e : editor_ok e -> 0 < view_height e -> exists l, visible_lines (update_view e) = Some l /\ cursor_line e ∈ l.*1.
Proof.
  intros [_ _ Hc] Hh. assert (view_offset (update_view e) <= cursor_line e < view_offset (update_view e) + view_height e) as Hv.
  { unfold update_view. destruct (decide _); [cbn; lia|]. destruct (decide _); cbn; lia. }
  assert (lines (update_view e) = lines e /\ view_height (update_view e) = view_height e) as [El Eh] by (unfold update_view; by repeat destruct (decide _)).
  unfold visible_lines. rewrite El, Eh. cbn zeta. set (v := view_offset (update_view e)) in *. rewrite decide_True by lia. eexists. split; [done|].
  assert (length (take ((v + view_height e) `min` length (lines e) - v) (drop v (lines e))) = (v + view_height e) `min` length (lines e) - v) as Hl by (rewrite length_take, length_drop; lia).
  rewrite fst_zip by (rewrite length_seq; lia). apply elem_of_seq. lia.
Qed.
End Theorems.

Section Files.
Context `{Machine} {D : Type} `{BlockDeviceLaws D}.

(** What is saved is loaded again: if the disk has room, saving writes the document and
    clears the mark for unsaved changes, and any editor that loads the file has the
    same lines. *)
Theorem save_then_load e (w : World D) p name b : editor_ok e -> filename e = Some name ->
  ready w p -> valid_name name -> (exists k, (0 <= k < 256)%Z /\ in_use (slot (disk w) k) = 0%Z) \/ (exists k, first_named name (disk w) k) ->
  free_run p (blocks_for (Z.of_nat (length (document e)))) b ->
  exists w', save e w = (true, (set_modified false e, w')) /\
    forall e0, let '(e1, w1) := load name e0 w' in text e1 = text e /\ editor_ok e1 /\ modified e1 = false /\ filename e1 = Some name /\ cursor_pos e1 = (0, 0) /\ w1 = w'.
Proof.
  intros Hok Hf R Hn Hroom Hfree. assert (lines e <> []) as Hne by (destruct Hok as [_ _ Hc]; intros E; rewrite E in Hc; cbn in Hc; lia).
  assert (save_data (lines e) = document e) as Hd by (by apply save_data_spec). destruct (fs_write_read_spec w p name (document e) b R Hn Hroom Hfree) as (w' & Ew & Er & _).
  exists w'. split; [unfold save; by rewrite Hf, Hd, Ew|]. intros e0. unfold load. rewrite Er. destruct (load_lines_spec (document e)) as (Tl & Gl & Nl).
  assert (text (set_cursor 0 0 (set_lines (load_lines (document e)) (set_file (Some name) false e0))) = text e) as Tx.
  { unfold text at 1. cbn [lines set_cursor set_lines]. rewrite Tl. unfold document. apply split_flat; [|apply (eo_newline _ Hok)]. unfold text. by destruct (lines e). }
  split; [done|]. split; [|done]. constructor; [done|rewrite Tx; apply (eo_newline _ Hok)|]. cbn. destruct (load_lines (document e)); [done|cbn; lia].
Qed.

(** Loading any file gives an editor in order with the bytes of the file as its
    document; without the file it is empty. *)
Lemma load_ok name e0 (w : World D) : let '(e1, w1) := load name e0 w in cursor_line e0 = 0 ->
  editor_ok e1 /\ document e1 = match (fs_read name w).1 with Ok data => data | Err _ => [] end.
Proof.
  unfold load. destruct (fs_read name w) as [[data|err] w1]; intros Hc; cbn [fst].
  - destruct (load_lines_spec data) as (Tl & Gl & Nl). unfold document, text. cbn [lines set_cursor set_lines]. rewrite Tl, flat_split_lines. split; [|done]. constructor; [done| |].
    + unfold text. cbn [lines set_cursor set_lines]. rewrite Tl. apply split_newline_free.
    + cbn. destruct (load_lines data); [done|cbn; lia].
  - destruct new_spec as [Hg Tn]. unfold document, text. cbn [lines set_lines fmap list_fmap]. rewrite Tn. split; [|done].
    constructor; [by apply Forall_singleton|unfold text; cbn [lines set_lines fmap list_fmap]; rewrite Tn; apply Forall_singleton, not_elem_of_nil|cbn; lia].
Qed.

(** The command to write and quit closes the editor as soon as its last letter is
    typed, before the newline that would run it: the file is not written. *)
Theorem write_and_quit_loses_changes e (w : World D) : editor_ok e -> mode e = Normal -> 0 < view_height e ->
  exists e', run_keys [58; 119; 113; 10]%Z e w = Some (true, (e', w)) /\ modified e' = modified e /\ document e' = document e.
Proof.
  intros Hok Hm Hv. assert (forall e, editor_ok e -> 0 < view_height e -> exists v, visible_lines (update_view e) = Some v) as Hvis.
  { clear. intros e [_ _ Hc] Hh. unfold visible_lines. rewrite decide_True; [by eexists|]. unfold update_view. repeat destruct (decide _); cbn; lia. }
  assert (forall e, editor_ok e -> editor_ok (update_view e)) as Hup.
  { intros e' []. unfold update_view. repeat destruct (decide _); by constructor. }
  assert (forall e, update_view e = set_view (view_offset (update_view e)) e) as Hset.
  { intros e'. unfold update_view. repeat destruct (decide _); destruct e'; done. }
  assert (forall e c m, editor_ok e -> editor_ok (set_command c (set_mode m e))) as Hcm by (intros e' c m []; by constructor).
  cbn [run_keys]. unfold run_key. destruct (Hvis e Hok Hv) as [v1 ->]. cbn [mbind option_bind]. rewrite (Hset e). set (o1 := view_offset (update_view e)).
  set (e1 := set_command [] (set_mode Command (set_view o1 e))).
  assert (handle_key 58 (set_view o1 e) w = Some (e1, w)) as -> by (unfold handle_key; change (mode (set_view o1 e)) with (mode e); by rewrite Hm). cbn [mbind option_bind].
  assert (editor_ok e1) as Ho1 by (apply Hcm; by destruct Hok). assert (should_quit e1 = false) as -> by done. cbn iota. destruct (Hvis e1 Ho1 Hv) as [v2 ->]. cbn [mbind option_bind].
  rewrite (Hset e1). set (o2 := view_offset (update_view e1)). set (e2 := set_command [119%Z] (set_view o2 e1)). assert (handle_key 119 (set_view o2 e1) w = Some (e2, w)) as -> by done. cbn [mbind option_bind].
  assert (editor_ok e2) as Ho2 by (destruct Ho1; by constructor). assert (should_quit e2 = false) as -> by done. cbn iota. destruct (Hvis e2 Ho2 Hv) as [v3 ->]. cbn [mbind option_bind].
  rewrite (Hset e2). eexists. split; [reflexivity|]. split; reflexivity.
Qed.
End Files.

(** ** Witnesses *)

Lemma text_new : text Editor_new = [[]].
Proof. unfold text, Editor_new. cbn [lines fmap list_fmap]. by rewrite (proj2 new_spec). Qed.

Lemma Editor_new_ok : editor_ok Editor_new.
Proof.
  destruct new_spec as [Hg Tn]. constructor; [by apply Forall_singleton| |cbn; lia]. unfold text, Editor_new. cbn [lines fmap list_fmap]. rewrite Tn. apply Forall_singleton, not_elem_of_nil.
Qed.

Lemma empty_document : document Editor_new = [] /\ offset Editor_new = 0.
Proof. destruct new_spec as [_ Tn]. unfold document, offset, text, Editor_new. cbn [lines fmap list_fmap cursor_line cursor_col]. by rewrite Tn. Qed.

Section Concrete.
#[local] Existing Instance PsychicFs.sample_machine.

Lemma typing_edits_document_witness : exists e', foldl (fun r key => '(e, w) ← r; handle_key key e w) (Some (set_mode InsertMode Editor_new, mounted_world)) [104; 105; 10; 8; 33]%Z = Some (e', mounted_world) /\
  document e' = [104; 105; 33]%Z.
Proof.
  destruct (typing_edits_document [104; 105; 10; 8; 33]%Z (set_mode InsertMode Editor_new) mounted_world) as (e' & E & _ & _ & Ed).
  - destruct Editor_new_ok. by constructor.
  - unfold cursor_in_line. apply Nat.le_0_l.
  - done.
  - apply (bool_decide_unpack _). vm_compute. exact I.
  - exists e'. split; [exact E|]. destruct empty_document as [D0 O0]. change (document (set_mode InsertMode Editor_new)) with (document Editor_new) in Ed.
    change (offset (set_mode InsertMode Editor_new)) with (offset Editor_new) in Ed. rewrite D0, O0 in Ed. by injection Ed.
Defined.

Lemma editor_panics_iff_witness : handle_key 10 (set_mode InsertMode (set_cursor 0 1 Editor_new)) mounted_world = None.
Proof.
  pose proof (editor_panics_iff 10 (set_mode InsertMode (set_cursor 0 1 Editor_new)) mounted_world) as H. destruct (decide _) as [_|Hn].
  - apply H. destruct Editor_new_ok. by constructor.
  - exfalso. apply Hn. split; [done|]. split; [done|]. unfold cursor_in_line. change (~ 1 <= current_line_len Editor_new). rewrite (line_len_of Editor_new []); [cbn; lia|exact Editor_new_ok|].
    by rewrite text_new.
Defined.

Lemma cursor_visible_witness : exists l, visible_lines (update_view Editor_new) = Some l /\ 0 ∈ l.*1.
Proof. apply (cursor_visible Editor_new Editor_new_ok). cbn. lia. Defined.

Lemma write_and_quit_loses_changes_witness : exists e', run_keys [58; 119; 113; 10]%Z (set_modified true Editor_new) mounted_world = Some (true, (e', mounted_world)) /\ modified e' = true.
Proof.
  destruct (write_and_quit_loses_changes (set_modified true Editor_new) mounted_world) as (e' & E & M' & _); [by destruct Editor_new_ok; constructor|done|cbn; lia|]. exists e'. split; [exact E|exact M'].
Defined.

Lemma save_then_load_witness : exists w', (save (set_file (Some [97; 46; 116]%Z) true (set_lines [with_content [104; 105]%Z; with_content [33]%Z] Editor_new)) mounted_world).2.2 = w' /\
  text (load [97; 46; 116]%Z Editor_new w').1 = [[104; 105]; [33]]%Z.
Proof.
  destruct mounted_ready as (P & W & Mt & C & T). set (e := set_file _ _ _).
  assert (text e = [[104; 105]; [33]]%Z) as Te by (exact (f_equal2 (fun a b => [a; b]) (proj2 (with_content_spec [104; 105]%Z)) (proj2 (with_content_spec [33]%Z)))).
  destruct (save_then_load e mounted_world mounted_fs [97; 46; 116]%Z 128) as (w' & E & L).
  - constructor.
    + repeat constructor; apply with_content_spec.
    + rewrite Te. apply (bool_decide_unpack _). vm_compute. exact I.
    + cbn. lia.
  - done.
  - split; [|exact P|exact W|exact Mt|].
    + unfold big. rewrite mem_disk_capacity, C. reflexivity.
    + rewrite mem_disk_capacity, C, T. reflexivity.
  - split; [unfold MAX_FILENAME_LEN; simpl; lia|]. split; [by vm_compute|by apply (bool_decide_unpack _)].
  - left. exists 0%Z. split; [lia|vm_compute; reflexivity].
  - unfold document. rewrite Te. exact mounted_free.
  - rewrite E. exists w'. split; [reflexivity|]. specialize (L Editor_new). destruct (load [97; 46; 116]%Z Editor_new w') as [e1 w1]. destruct L as (Tx & _). cbn [fst]. congruence.
Defined.
End Concrete.
