(* ===== verification/Notes.v ===== *)
(** * The notes application ([apps/notes.rs])

    Lines as strings of UTF-8 bytes, a cursor counted in bytes, and files through
    [PsychicFs].  [None] is a panic.  The functions of the standard library that decide
    what a file becomes are written out: lossy decoding, and splitting into lines.
    Theorems: on plain text typing acts as in the [Editor]; what is saved is loaded
    again but for a last empty line; a key inside a character of several bytes panics. *)

From Stdlib Require Import ZArith Lia Bool.
From stdpp Require Import base numbers option list.
From S2P Require Import Prelude Bytes BlockDevice PsychicFs.
From S2P Require GapBuffer Editor.

Open Scope nat_scope.

(** ** Strings of the standard library *)

Definition newline : Z := 10%Z.

(** The byte before which a string may be cut: not inside a character. *)
Definition is_continuation (b : Z) : bool := (0x80 <=? b)%Z && (b <? 0xC0)%Z.
Definition is_char_boundary (i : nat) (s : list Z) : bool :=
  (i =? 0) || (i =? length s) || match s !! i with Some b => negb (is_continuation b) | None => false end.

(** [String::insert] of a character of one byte, [&s[..i]] with [&s[i..]], and
    [String::remove], which takes all bytes of the character at [i]. *)
Definition str_insert (i : nat) (ch : Z) (s : list Z) : option (list Z) :=
  if is_char_boundary i s then Some (take i s ++ [ch] ++ drop i s) else None.

Definition str_split (i : nat) (s : list Z) : option (list Z * list Z) :=
  if is_char_boundary i s then Some (take i s, drop i s) else None.

Fixpoint continuation_len (s : list Z) : nat :=
  match s with b :: s => if is_continuation b then S (continuation_len s) else 0 | [] => 0 end.

Definition str_remove (i : nat) (s : list Z) : option (list Z) :=
  if is_char_boundary i s then
    match s !! i with Some _ => Some (take i s ++ drop (i + 1 + continuation_len (drop (i + 1) s)) s) | None => None end
  else None.

(** [str::lines]: the pieces between newlines, without a last empty one, and without a
    carriage return before the newline. *)
Definition strip_cr (s : list Z) : list Z := match last s with Some 13%Z => take (length s - 1) s | _ => s end.

Definition str_lines (s : list Z) : list (list Z) :=
  match rev (Editor.split_lines s) with
  | [] => []
  | [] :: before => strip_cr <$> rev before
  | l :: before => (strip_cr <$> rev before) ++ [l]
  end.

(** [join]. *)
Definition str_join (ls : list (list Z)) : list Z := Editor.flat ls.

(** [String::from_utf8_lossy].  What may follow a first byte; the longest good beginning of a
    bad sequence becomes one replacement character. *)
Definition following (b : Z) : option (list (Z * Z)) :=
  let any := (0x80, 0xBF)%Z in
  let within (lo hi : Z) := ((lo <=? b) && (b <=? hi))%Z in
  if within 0xC2%Z 0xDF%Z then Some [any]
  else if within 0xE0%Z 0xE0%Z then Some [(0xA0, 0xBF)%Z; any]
  else if within 0xE1%Z 0xEC%Z || within 0xEE%Z 0xEF%Z then Some [any; any]
  else if within 0xED%Z 0xED%Z then Some [(0x80, 0x9F)%Z; any]
  else if within 0xF0%Z 0xF0%Z then Some [(0x90, 0xBF)%Z; any; any]
  else if within 0xF1%Z 0xF3%Z then Some [any; any; any]
  else if within 0xF4%Z 0xF4%Z then Some [(0x80, 0x8F)%Z; any; any]
  else None.

Fixpoint matching (ranges : list (Z * Z)) (s : list Z) : nat :=
  match ranges, s with
  | (lo, hi) :: ranges, b :: s => if ((lo <=? b) && (b <=? hi))%Z then S (matching ranges s) else 0
  | _, _ => 0
  end.

Definition replacement : list Z := [0xEF; 0xBF; 0xBD]%Z.

Fixpoint lossy (fuel : nat) (s : list Z) : list Z :=
  match fuel, s with
  | S fuel, b :: s =>
      if (b <? 0x80)%Z then b :: lossy fuel s else
      match following b with
      | None => replacement ++ lossy fuel s
      | Some ranges =>
          let n := matching ranges s in
          (if n =? length ranges then b :: take n s else replacement) ++ lossy fuel (drop n s)
      end
  | _, _ => []
  end.

(** Every round takes at least a byte. *)
Definition from_utf8_lossy (s : list Z) : list Z := lossy (length s) s.

(** ** The application *)

Record Notes : Type := mkNotes {
  content : list (list Z); cursor_line : nat; cursor_col : nat; filename : list Z; modified : bool }.

Definition untitled : list Z := [117; 110; 116; 105; 116; 108; 101; 100; 46; 116; 120; 116]%Z.

Definition Notes_new : Notes := mkNotes [[]] 0 0 untitled false.

Inductive Direction : Type := Up | Down | Left | Right.

Section Files.
Context `{Machine} {D : Type} `{BlockDevice D}.

Definition load (name : list Z) (n : Notes) (w : World D) : bool * Notes * World D :=
  match fs_read name w with
  | (Ok data, w) =>
      let c := str_lines (from_utf8_lossy data) in
      (true, mkNotes (if decide (c = []) then [[]] else c) 0 0 name false, w)
  | (Err _, w) => (false, n, w)
  end.

Definition save (n : Notes) (w : World D) : bool * Notes * World D :=
  match fs_write (filename n) (str_join (content n)) w with
  | (Ok _, w) => (true, mkNotes (content n) (cursor_line n) (cursor_col n) (filename n) false, w)
  | (Err _, w) => (false, n, w)
  end.

Definition save_as (name : list Z) (n : Notes) (w : World D) : bool * Notes * World D :=
  save (mkNotes (content n) (cursor_line n) (cursor_col n) name (modified n)) w.
End Files.

Definition insert_char (ch : Z) (n : Notes) : option Notes :=
  match content n !! cursor_line n with
  | Some line =>
      if cursor_col n <=? length line then
        line ← str_insert (cursor_col n) ch line;
        Some (mkNotes (<[cursor_line n := line]> (content n)) (cursor_line n) (cursor_col n + 1) (filename n) true)
      else Some n
  | None => Some n
  end.

Definition insert_newline (n : Notes) : option Notes :=
  match content n !! cursor_line n with
  | Some line =>
      '(before, after) ← (if cursor_col n <=? length line then str_split (cursor_col n) line else Some (line, []));
      let c := <[cursor_line n := before]> (content n) in
      let i := cursor_line n + 1 in
      Some (mkNotes (take i c ++ after :: drop i c) i 0 (filename n) true)
  | None => Some n
  end.

Definition delete_backward (n : Notes) : option Notes :=
  if 0 <? cursor_col n then
    line ← content n !! cursor_line n;
    let col := cursor_col n - 1 in
    line ← str_remove col line;
    Some (mkNotes (<[cursor_line n := line]> (content n)) (cursor_line n) col (filename n) true)
  else if 0 <? cursor_line n then
    current ← content n !! cursor_line n;
    let c := base.delete (cursor_line n) (content n) in
    let i := cursor_line n - 1 in
    prev ← c !! i;
    Some (mkNotes (<[i := prev ++ current]> c) i (length prev) (filename n) true)
  else Some n.

Definition handle_key (key : Z) (n : Notes) : option Notes :=
  if ((32 <=? key) && (key <=? 126))%Z then insert_char key n
  else if (key =? 10)%Z then insert_newline n
  else if (key =? 8)%Z || (key =? 127)%Z then delete_backward n
  else Some n.

Definition set_pos (l c : nat) (n : Notes) : Notes := mkNotes (content n) l c (filename n) (modified n).

Definition move_cursor (d : Direction) (n : Notes) : option Notes :=
  match d with
  | Up =>
      if 0 <? cursor_line n then
        line ← content n !! (cursor_line n - 1); Some (set_pos (cursor_line n - 1) (cursor_col n `min` length line) n)
      else Some n
  | Down =>
      if cursor_line n + 1 <? length (content n) then
        line ← content n !! (cursor_line n + 1); Some (set_pos (cursor_line n + 1) (cursor_col n `min` length line) n)
      else Some n
  | Left =>
      if 0 <? cursor_col n then Some (set_pos (cursor_line n) (cursor_col n - 1) n)
      else if 0 <? cursor_line n then line ← content n !! (cursor_line n - 1); Some (set_pos (cursor_line n - 1) (length line) n)
      else Some n
  | Right =>
      line ← content n !! cursor_line n;
      if cursor_col n <? length line then Some (set_pos (cursor_line n) (cursor_col n + 1) n)
      else if cursor_line n + 1 <? length (content n) then Some (set_pos (cursor_line n + 1) 0 n)
      else Some n
  end.

Definition line_count (n : Notes) : nat := length (content n).

(** ** Plain text *)

(** Characters of one byte, no newline. *)
Definition plain (s : list Z) : Prop := Forall (fun b => 0 <= b < 0x80 /\ b <> newline)%Z s.

#[export] Instance plain_dec s : Decision (plain s).
Proof. apply Forall_dec. intros b. apply _. Defined.

Lemma plain_newline s : plain s -> newline ∉ s.
Proof. intros Hs Hin. unfold plain in Hs. rewrite Forall_forall in Hs. by apply (Hs newline Hin). Qed.

Lemma boundary_plain s i : plain s -> i <= length s -> is_char_boundary i s = true.
Proof.
  intros Hs Hi. unfold is_char_boundary. destruct (decide (i = length s)) as [->|Hne]; [rewrite Nat.eqb_refl; by rewrite orb_true_r|].
  destruct (lookup_lt_is_Some_2 s i ltac:(lia)) as [b Eb]. rewrite Eb. pose proof (Forall_lookup_1 _ _ _ _ Hs Eb) as [Hb _]. unfold is_continuation.
  destruct (Z.leb_spec 0x80 b); [lia|]. by rewrite orb_true_r.
Qed.

Lemma no_continuation s : plain s -> continuation_len s = 0.
Proof. intros Hs. destruct Hs as [|b s [Hb _] _]; [done|]. cbn. unfold is_continuation. by destruct (Z.leb_spec 0x80 b); [lia|]. Qed.

Lemma insert_plain s i ch : plain s -> i <= length s -> str_insert i ch s = Some (take i s ++ [ch] ++ drop i s).
Proof. intros Hs Hi. unfold str_insert. by rewrite boundary_plain. Qed.

Lemma split_plain s i : plain s -> i <= length s -> str_split i s = Some (take i s, drop i s).
Proof. intros Hs Hi. unfold str_split. by rewrite boundary_plain. Qed.

Lemma remove_plain s i : plain s -> i < length s -> str_remove i s = Some (take i s ++ drop (i + 1) s).
Proof.
  intros Hs Hi. unfold str_remove. rewrite boundary_plain by (done || lia). destruct (lookup_lt_is_Some_2 s i Hi) as [b ->].
  rewrite no_continuation by (by apply Forall_drop). by rewrite Nat.add_0_r.
Qed.

Lemma lossy_plain s fuel : Forall (fun b => 0 <= b < 0x80)%Z s -> length s <= fuel -> lossy fuel s = s.
Proof.
  intros Hs. revert fuel. induction Hs as [|b s Hb Hs IH]; intros fuel Hf; [by destruct fuel|]. destruct fuel as [|fuel]; [cbn in Hf; lia|].
  cbn [lossy]. destruct (Z.ltb_spec b 0x80); [|lia]. rewrite IH by (cbn in Hf; lia). done.
Qed.

(** ** The document *)

Definition document (n : Notes) : list Z := Editor.flat (content n).
Definition offset (n : Notes) : nat := length (Editor.pre (take (cursor_line n) (content n))) + cursor_col n.

(** Plain lines, and a cursor in one of them. *)
Record notes_ok (n : Notes) : Prop := {
  no_plain : Forall plain (content n);
  no_cursor : exists line, content n !! cursor_line n = Some line /\ cursor_col n <= length line }.

Lemma printable_plain ch : ((32 <=? ch) && (ch <=? 126))%Z = true -> (0 <= ch < 0x80 /\ ch <> newline)%Z.
Proof. unfold newline. rewrite andb_true_iff, !Z.leb_le. lia. Qed.

(** Replacing the current line by another one. *)
Lemma replace_ok n line line' col : notes_ok n -> content n !! cursor_line n = Some line -> plain line' -> col <= length line' ->
  notes_ok (mkNotes (<[cursor_line n := line']> (content n)) (cursor_line n) col (filename n) true).
Proof.
  intros [Hp _] Hl Hp' Hc. split; cbn [content cursor_line cursor_col]; [by apply Forall_insert|]. exists line'. split; [|done].
  apply list_lookup_insert_eq. by eapply lookup_lt_Some.
Qed.

Lemma notes_insert_char_spec ch n : notes_ok n -> (0 <= ch < 0x80 /\ ch <> newline)%Z ->
  exists n', insert_char ch n = Some n' /\ notes_ok n' /\ document n' = take (offset n) (document n) ++ [ch] ++ drop (offset n) (document n) /\ offset n' = offset n + 1.
Proof.
  intros Hok Hch. pose proof Hok as [Hp (line & Hl & Hc)]. pose proof (Forall_lookup_1 _ _ _ _ Hp Hl) as Hpl. unfold insert_char. rewrite Hl, (proj2 (Nat.leb_le _ _) Hc), (insert_plain _ _ _ Hpl Hc).
  cbn [mbind option_bind]. eexists. split; [done|]. split; [|split].
  - eapply replace_ok; [done|exact Hl| |rewrite !length_app, length_take, length_drop; cbn; lia]. unfold plain. apply Forall_app_2; [by apply Forall_take|]. apply Forall_app_2; [by apply Forall_singleton|by apply Forall_drop].
  - unfold document, offset. cbn [content]. rewrite (Editor.flat_replace _ _ _ _ Hl). destruct (Editor.document_at _ _ _ Hl) as [_ ->]. by rewrite Editor.splice_middle.
  - unfold offset. cbn [content cursor_line cursor_col]. rewrite take_insert_ge by done. lia.
Qed.

Lemma notes_insert_newline_spec n : notes_ok n ->
  exists n', insert_newline n = Some n' /\ notes_ok n' /\ document n' = take (offset n) (document n) ++ [newline] ++ drop (offset n) (document n) /\ offset n' = offset n + 1.
Proof.
  intros [Hp (line & Hl & Hc)]. pose proof (Forall_lookup_1 _ _ _ _ Hp Hl) as Hpl. unfold insert_newline. rewrite Hl, (proj2 (Nat.leb_le _ _) Hc), (split_plain _ _ Hpl Hc).
  cbn [mbind option_bind]. set (i := cursor_line n) in *. set (c := cursor_col n) in *. assert (i < length (content n)) as Hi by (by eapply lookup_lt_Some).
  rewrite (Editor.break_text (content n) i (take c line) (drop c line) Hi). assert (length (take i (content n)) = i) as Hti by (rewrite length_take; lia).
  eexists. split; [done|]. split; [|split].
  - split; cbn [content cursor_line cursor_col].
    + apply Forall_app_2; [by apply Forall_take|]. repeat apply Forall_cons_2; [by apply Forall_take|by apply Forall_drop|by apply Forall_drop].
    + exists (drop c line). split; [|lia]. rewrite lookup_app_r by lia. by replace (i + 1 - length (take i (content n))) with 1 by lia.
  - unfold document, offset. cbn [content]. fold i c. destruct (Editor.document_at _ _ _ Hl) as [_ ->]. rewrite Editor.splice_middle by done. rewrite Editor.flat_split. fold i.
    change (Editor.post (drop c line :: drop (S i) (content n))) with ((newline :: drop c line) ++ Editor.post (drop (S i) (content n))). by rewrite <- !app_assoc.
  - unfold offset. cbn [content cursor_line cursor_col]. fold i c. rewrite (take_app_add' _ _ i 1) by done. cbn [take]. rewrite Editor.pre_app, length_app.
    unfold Editor.pre at 2. cbn. rewrite app_nil_r, length_app, length_take. cbn [length]. lia.
Qed.

Lemma delete_in_line n : notes_ok n -> 0 < cursor_col n ->
  exists n', delete_backward n = Some n' /\ notes_ok n' /\ document n' = take (offset n - 1) (document n) ++ drop (offset n) (document n) /\ offset n' = offset n - 1.
Proof.
  intros Hok H0. pose proof Hok as [Hp (line & Hl & Hc)]. pose proof (Forall_lookup_1 _ _ _ _ Hp Hl) as Hpl. unfold delete_backward. rewrite (proj2 (Nat.ltb_lt _ _) H0), Hl.
  cbn [mbind option_bind]. rewrite (remove_plain _ _ Hpl) by lia. cbn [mbind option_bind]. set (c := cursor_col n) in *. eexists. split; [done|]. split; [|split].
  - eapply replace_ok; [done|exact Hl| |rewrite !length_app, length_take, length_drop; lia]. unfold plain. apply Forall_app_2; [by apply Forall_take|by apply Forall_drop].
  - unfold document, offset. cbn [content]. fold c. rewrite (Editor.flat_replace _ _ _ _ Hl). destruct (Editor.document_at _ _ _ Hl) as [_ ->]. rewrite <- Editor.cut_middle by lia.
    f_equal; f_equal; lia.
  - unfold offset. cbn [content cursor_line cursor_col]. rewrite take_insert_ge by done. fold c. lia.
Qed.

Lemma delete_join n : notes_ok n -> cursor_col n = 0 -> 0 < cursor_line n ->
  exists n', delete_backward n = Some n' /\ notes_ok n' /\ document n' = take (offset n - 1) (document n) ++ drop (offset n) (document n) /\ offset n' = offset n - 1.
Proof.
  intros [Hp (line & Hl & _)] Hc0 Hpos. pose proof (Forall_lookup_1 _ _ _ _ Hp Hl) as Hpl. unfold delete_backward. rewrite Hc0, (proj2 (Nat.ltb_lt 0 (cursor_line n)) Hpos). cbn [Nat.ltb Nat.leb].
  rewrite Hl. cbn [mbind option_bind]. set (i := cursor_line n) in *. assert (i < length (content n)) as Hi by (by eapply lookup_lt_Some).
  destruct (lookup_lt_is_Some_2 (content n) (i - 1) ltac:(lia)) as [p Ep]. pose proof (Forall_lookup_1 _ _ _ _ Hp Ep) as Hpp. rewrite list_lookup_delete_lt by lia. rewrite Ep. cbn [mbind option_bind].
  destruct (Editor.join_text (content n) i p line Hpos Ep Hl) as [-> Etk]. assert (length (take (i - 1) (content n)) = i - 1) as Hti by (rewrite length_take; lia).
  assert (Editor.pre [p] = p ++ [newline]) as Epre by apply Editor.pre_post. eexists. split; [done|]. split; [|split].
  - split; cbn [content cursor_line cursor_col].
    + apply Forall_app_2; [by apply Forall_take|]. apply Forall_cons_2; [by apply Forall_app_2|by apply Forall_drop].
    + exists (p ++ line). split; [|rewrite length_app; lia]. rewrite lookup_app_r by lia. by rewrite Hti, Nat.sub_diag.
  - unfold document, offset. cbn [content]. fold i. rewrite Hc0, Editor.flat_split. destruct (Editor.document_at _ _ _ Hl) as [_ ->]. rewrite Etk, Editor.pre_app, Epre, Nat.add_0_r.
    rewrite (drop_app_length' _ (line ++ Editor.post (drop (S i) (content n)))) by done.
    replace (length (Editor.pre (take (i - 1) (content n)) ++ p ++ [newline]) - 1) with (length (Editor.pre (take (i - 1) (content n)) ++ p)) by (rewrite !length_app; cbn; lia).
    rewrite <- !app_assoc. rewrite (app_assoc (Editor.pre _) p ([newline] ++ _)). rewrite take_app_length. by rewrite <- !app_assoc.
  - unfold offset. cbn [content cursor_line cursor_col]. fold i. rewrite take_app_length' by done. rewrite Etk, Editor.pre_app, length_app, Hc0, Epre, length_app. cbn. lia.
Qed.

(** One key is one edit of the flat text, the one that the editor makes. *)
Lemma key_spec key n : notes_ok n -> exists n', handle_key key n = Some n' /\ notes_ok n' /\ (document n', offset n') = Editor.type_key (document n, offset n) key.
Proof.
  intros Hok. unfold handle_key, Editor.type_key. assert (Editor.is_printable key = ((32 <=? key) && (key <=? 126))%Z) as Ep by (unfold Editor.is_printable; f_equal; lia).
  destruct ((32 <=? key) && (key <=? 126))%Z eqn:E.
  - pose proof (printable_plain key E) as Hpl. apply andb_true_iff in E as [E1 E2]. rewrite decide_False by lia. rewrite decide_True by (right; by rewrite Ep).
    destruct (notes_insert_char_spec key n Hok Hpl) as (n' & -> & Ho & Dc & Oc). exists n'. by rewrite Dc, Oc.
  - destruct (Z.eqb_spec key 10) as [->|Hn].
    + rewrite decide_False by lia. rewrite decide_True by (by left). destruct (notes_insert_newline_spec n Hok) as (n' & -> & Ho & Dc & Oc). exists n'. by rewrite Dc, Oc.
    + destruct (Z.eqb_spec key 8) as [->|H8]; [|destruct (Z.eqb_spec key 127) as [->|H127]]; cbn [orb].
      3: { rewrite decide_False by lia. rewrite decide_False by (rewrite Ep; unfold Editor.newline; intros [|]; [lia|done]). eauto. }
      all: rewrite decide_True by lia; destruct (decide (0 < cursor_col n)) as [H0|H0]; [destruct (delete_in_line n Hok H0) as (n' & -> & Ho & Dc & Oc); exists n'; by rewrite Dc, Oc|].
      all: destruct (decide (0 < cursor_line n)) as [Hl|Hl]; [destruct (delete_join n Hok ltac:(lia) Hl) as (n' & -> & Ho & Dc & Oc); exists n'; by rewrite Dc, Oc|].
      all: exists n; unfold delete_backward; rewrite (proj2 (Nat.ltb_ge _ _)) by lia; rewrite (proj2 (Nat.ltb_ge _ _)) by lia; split; [done|]; split; [done|].
      all: assert (offset n = 0) as -> by (unfold offset; replace (cursor_line n) with 0 by lia; rewrite take_0; change (cursor_col n = 0); lia); done.
Qed.

(** Moving the cursor leaves the text alone and stays in a line. *)
Lemma move_spec d n : notes_ok n -> exists n', move_cursor d n = Some n' /\ notes_ok n' /\ content n' = content n /\ filename n' = filename n /\ modified n' = modified n.
Proof.
  intros [Hp (line & Hl & Hc)]. assert (cursor_line n < length (content n)) as Hi by (by eapply lookup_lt_Some).
  assert (forall l c x, content n !! l = Some x -> c <= length x -> exists n', Some (set_pos l c n) = Some n' /\ notes_ok n' /\ content n' = content n /\ filename n' = filename n /\ modified n' = modified n) as Hset.
  { intros l c x Hx Hcx. eexists. split; [done|]. split; [|done]. split; [done|]. by exists x. }
  assert (exists n', Some n = Some n' /\ notes_ok n' /\ content n' = content n /\ filename n' = filename n /\ modified n' = modified n) as Hid by (exists n; split; [done|]; split; [split; [done|]; by exists line|done]).
  destruct d; cbn [move_cursor].
  - destruct (Nat.ltb_spec 0 (cursor_line n)); [|done]. destruct (lookup_lt_is_Some_2 (content n) (cursor_line n - 1) ltac:(lia)) as [x Hx]. rewrite Hx. eapply Hset; [exact Hx|lia].
  - destruct (Nat.ltb_spec (cursor_line n + 1) (length (content n))); [|done]. destruct (lookup_lt_is_Some_2 (content n) (cursor_line n + 1) ltac:(lia)) as [x Hx]. rewrite Hx. eapply Hset; [exact Hx|lia].
  - destruct (Nat.ltb_spec 0 (cursor_col n)); [eapply Hset; [exact Hl|lia]|]. destruct (Nat.ltb_spec 0 (cursor_line n)); [|done].
    destruct (lookup_lt_is_Some_2 (content n) (cursor_line n - 1) ltac:(lia)) as [x Hx]. rewrite Hx. eapply Hset; [exact Hx|lia].
  - rewrite Hl. cbn [mbind option_bind]. destruct (Nat.ltb_spec (cursor_col n) (length line)); [eapply Hset; [exact Hl|lia]|]. destruct (Nat.ltb_spec (cursor_line n + 1) (length (content n))); [|done].
    destruct (lookup_lt_is_Some_2 (content n) (cursor_line n + 1) ltac:(lia)) as [x Hx]. eapply Hset; [exact Hx|lia].
Qed.

Lemma keys_spec keys n : notes_ok n -> exists n', foldl (fun r key => n ← r; handle_key key n) (Some n) keys = Some n' /\ notes_ok n' /\
  (document n', offset n') = foldl Editor.type_key (document n, offset n) keys.
Proof.
  revert n. induction keys as [|key keys IH]; intros n Hok; cbn [foldl]; [by exists n|]. destruct (key_spec key n Hok) as (n1 & E & Ho & Ed).
  cbn [mbind option_bind]. rewrite E, <- Ed. by apply IH.
Qed.

Section Theorems.
Context `{Machine} {D : Type} `{BlockDevice D}.

(** C38: On plain text the application and the editor in insert mode are the same: starting from
    the same document with the cursor at the same place, any sequence of keys without
    Escape leaves both with the same document and cursor, and neither panics.  Both are the
    flat reference [type_key], the one over strings and the other over gap buffers. *)
Theorem notes_agree_with_editor keys n e (w : World D) : notes_ok n -> Editor.editor_ok e -> Editor.cursor_in_line e -> Editor.mode e = Editor.InsertMode -> (27%Z ∉ keys) ->
  document n = Editor.document e -> offset n = Editor.offset e ->
  exists n' e', foldl (fun r key => n ← r; handle_key key n) (Some n) keys = Some n' /\
    foldl (fun r key => '(e, w) ← r; Editor.handle_key key e w) (Some (e, w)) keys = Some (e', w) /\
    notes_ok n' /\ Editor.editor_ok e' /\ document n' = Editor.document e' /\ offset n' = Editor.offset e' /\
    (document n', offset n') = foldl Editor.type_key (document n, offset n) keys.
Proof.
  intros Hn He Hc Hm Hk Ed Eo. destruct (keys_spec keys n Hn) as (n' & Rn & On & Dn). destruct (Editor.typing_spec keys e w He Hc Hm Hk) as (e' & Re & Oe & _ & De).
  exists n', e'. rewrite Ed, Eo in *. rewrite <- De in Dn. injection Dn as -> ->. by rewrite <- De.
Qed.

(** A cursor inside a character of several bytes: every key that inserts panics. *)
Theorem key_in_character_panics key n line : content n !! cursor_line n = Some line -> cursor_col n <= length line -> is_char_boundary (cursor_col n) line = false ->
  ((32 <= key <= 126) \/ key = newline)%Z -> handle_key key n = None.
Proof.
  intros Hl Hc Hb Hk. unfold handle_key, insert_char, insert_newline. rewrite Hl, (proj2 (Nat.leb_le _ _) Hc). unfold str_insert, str_split. rewrite Hb. cbn [mbind option_bind].
  destruct ((32 <=? key) && (key <=? 126))%Z eqn:E; [done|]. destruct (Z.eqb_spec key 10); [done|]. unfold newline in Hk. lia.
Qed.
End Theorems.

(** ** Saving and loading *)

(** A carriage return at the end of a line is lost; so is a last empty line. *)
Definition no_cr (c : list (list Z)) : Prop := Forall (fun s => last s <> Some 13%Z) c.

Definition lines_kept (c : list (list Z)) : list (list Z) :=
  match rev c with [] :: [] => [[]] | [] :: before => rev before | _ => c end.

Lemma strip_all c : no_cr c -> strip_cr <$> c = c.
Proof.
  induction 1 as [|s c Hs Hc IH]; [done|]. rewrite fmap_cons, IH. f_equal. unfold strip_cr. destruct (last s) as [b|]; [|done].
  assert (b <> 13%Z) as Hb by congruence. repeat case_match; done || (exfalso; by apply Hb).
Qed.

Lemma lines_of_document c : c <> [] -> Forall plain c -> no_cr c -> (let ls := str_lines (from_utf8_lossy (str_join c)) in if decide (ls = []) then [[]] else ls) = lines_kept c.
Proof.
  intros Hne Hp Hcr. assert (from_utf8_lossy (str_join c) = str_join c) as ->.
  { apply lossy_plain; [|done]. unfold str_join, Editor.flat. destruct Hp as [|t ts Ht Hts]; [constructor|]. apply Forall_app_2; [eapply Forall_impl; [exact Ht|naive_solver]|].
    unfold Editor.post. induction Hts as [|u us Hu Hus IH]; [constructor|]. rewrite fmap_cons. cbn [concat]. apply Forall_app_2; [|apply IH; [done|by inversion Hcr as [|? ? ? Hcr']; inversion Hcr'; subst; constructor]].
    apply Forall_cons_2; [done|]. eapply Forall_impl; [exact Hu|naive_solver]. }
  unfold str_lines, str_join. rewrite Editor.split_flat; [|done|eapply Forall_impl; [exact Hp|intros s Hs; by apply plain_newline]]. unfold lines_kept. cbv zeta.
  destruct (rev c) as [|l before] eqn:E; [by rewrite <- (rev_involutive c), E in Hne|]. assert (c = rev before ++ [l]) as Ec by (rewrite <- (rev_involutive c), E; done).
  assert (no_cr (rev before)) as Hb by (rewrite Ec in Hcr; by apply Forall_app in Hcr as [? _]). destruct l as [|b l].
  - rewrite strip_all by done. destruct before as [|x before]; [done|]. rewrite decide_False; [done|]. cbn [rev]. intros Hn. by apply app_nil in Hn as [_ ?].
  - rewrite strip_all, <- Ec by done. by rewrite decide_False.
Qed.

Section Files2.
Context `{Machine} {D : Type} `{BlockDeviceLaws D}.

(** What is saved is loaded again, up to a last empty line: if the disk has room, saving
    plain text writes the document and clears the mark for unsaved changes, and loading
    the file, from whatever state, gives the lines, the cursor at the beginning. *)
Theorem notes_save_load n (w : World D) p b : notes_ok n -> no_cr (content n) -> ready w p -> valid_name (filename n) ->
  (exists k, (0 <= k < 256)%Z /\ in_use (slot (disk w) k) = 0%Z) \/ (exists k, first_named (filename n) (disk w) k) ->
  free_run p (blocks_for (Z.of_nat (length (document n)))) b ->
  exists w', save n w = (true, mkNotes (content n) (cursor_line n) (cursor_col n) (filename n) false, w') /\
    forall n0, load (filename n) n0 w' = (true, mkNotes (lines_kept (content n)) 0 0 (filename n) false, w').
Proof.
  intros [Hp (line & Hl & _)] Hcr R Hn Hroom Hfree. destruct (fs_write_read_spec w p (filename n) (document n) b R Hn Hroom Hfree) as (w' & Ew & Er & _).
  exists w'. split; [unfold save; change (str_join (content n)) with (document n); by rewrite Ew|]. intros n0. unfold load. rewrite Er. cbv zeta.
  change (document n) with (str_join (content n)). rewrite <- (lines_of_document (content n)); [done| |done|done]. by destruct (content n).
Qed.
End Files2.

(** ** Concrete texts *)

Section Concrete.
#[local] Existing Instance PsychicFs.sample_machine.

Lemma notes_agree_with_editor_witness : exists n', foldl (fun r key => n ← r; handle_key key n) (Some Notes_new) [104; 10; 8; 105]%Z = Some n' /\ document n' = [104; 105]%Z.
Proof.
  destruct (notes_agree_with_editor [104; 10; 8; 105]%Z Notes_new (Editor.set_mode Editor.InsertMode Editor.Editor_new) mounted_world) as (n' & e' & R & _ & _ & _ & _ & _ & E).
  - split; [repeat constructor|]. exists []. split; [reflexivity|apply Nat.le_0_l].
  - destruct Editor.Editor_new_ok. by constructor.
  - unfold Editor.cursor_in_line. apply Nat.le_0_l.
  - reflexivity.
  - apply (bool_decide_unpack _). vm_compute. exact I.
  - change (Editor.document (Editor.set_mode Editor.InsertMode Editor.Editor_new)) with (Editor.document Editor.Editor_new). by rewrite (proj1 Editor.empty_document).
  - change (Editor.offset (Editor.set_mode Editor.InsertMode Editor.Editor_new)) with (Editor.offset Editor.Editor_new). by rewrite (proj2 Editor.empty_document).
  - exists n'. split; [exact R|]. by injection E.
Defined.

(** A file with one character of two bytes, loaded; one step to the right; then a letter. *)
Lemma key_in_character_panics_witness :
  (n ← move_cursor Right (mkNotes (str_lines (from_utf8_lossy [0xC3; 0xA9]%Z)) 0 0 untitled false); handle_key 97 n) = None.
Proof.
  change (handle_key 97 (mkNotes [[0xC3; 0xA9]%Z] 0 1 untitled false) = None). apply (key_in_character_panics _ _ [0xC3; 0xA9]%Z); [reflexivity|repeat constructor|reflexivity|left; split; discriminate].
Defined.

(** Three lines, the last empty. *)
Definition three_lines : Notes := mkNotes [[104; 105]; [33]; []]%Z 0 0 [97; 46; 116]%Z true.

Lemma notes_save_load_witness : exists w', (save three_lines mounted_world).2 = w' /\ (load [97; 46; 116]%Z Notes_new w').1.2 = mkNotes [[104; 105]; [33]]%Z 0 0 [97; 46; 116]%Z false.
Proof.
  destruct mounted_ready as (P & W & Mt & C & T). destruct (notes_save_load three_lines mounted_world mounted_fs 128) as (w' & E & L).
  - split; [apply (bool_decide_unpack _); vm_compute; exact I|]. exists [104; 105]%Z. split; [reflexivity|apply Nat.le_0_l].
  - apply (bool_decide_unpack _). vm_compute. exact I.
  - split; [|exact P|exact W|exact Mt|].
    + unfold big. rewrite mem_disk_capacity, C. reflexivity.
    + rewrite mem_disk_capacity, C, T. reflexivity.
  - split; [unfold MAX_FILENAME_LEN; simpl; lia|]. split; [by vm_compute|by apply (bool_decide_unpack _)].
  - left. exists 0%Z. split; [lia|vm_compute; reflexivity].
  - exact mounted_free.
  - rewrite E. exists w'. split; [reflexivity|]. specialize (L Notes_new). change (filename three_lines) with [97; 46; 116]%Z in L. rewrite L. reflexivity.
Defined.
End Concrete.
