(* ===== verification/Display.v ===== *)
(** * The display server ([display/mod.rs])

    Windows of clients, the dwindle tiling, focus, and the animation that moves a
    window to its target.  The animation computes with 32-bit floats by the factor
    0.35; the numbers here are exact: an integer is rounded to 24 bits as a float is,
    and the factor is the float next to 0.35.  The surface of a new window comes from the
    kernel's heap; without room for it the kernel panics. *)

From Stdlib Require Import ZArith Lia Bool.
From stdpp Require Import base numbers option list strings.
From S2P Require Import Prelude Graphics.

Open Scope Z_scope.

(** ** Data *)

Inductive LayoutMode : Type := Floating | Dwindle.

Record Window : Type := mkWindow {
  w_id : Z; client_id : Z; title : string;
  x : Z; y : Z; width : Z; height : Z;
  target_x : Z; target_y : Z; target_width : Z; target_height : Z;
  surface_id : Z; visible : bool; focused : bool; z_order : Z; decorated : bool; is_floating : bool
}.

Record Client : Type := mkClient { c_id : Z; c_name : string; c_windows : list Z }.

Record DisplayServer : Type := mkDisplay {
  clients : list Client; windows : list Window; next_client_id : Z; next_window_id : Z; focused_window : option Z;
  screen_width : Z; screen_height : Z; layout_mode : LayoutMode; gap_size : Z;
  taskbar_height : Z; taskbar_visible : bool; running : bool; dirty : bool
}.

Inductive DisplayError : Type := ClientNotFound | WindowNotFound | GraphicsFailed (e : ServerError) | DisplayNotInitialized.

Definition DisplayServer_new (w h : Z) : DisplayServer := mkDisplay [] [] 1 1 None w h Dwindle 10 40 true false true.

Definition set_rect (rx ry rw rh : Z) (w : Window) : Window :=
  mkWindow (w_id w) (client_id w) (title w) rx ry rw rh (target_x w) (target_y w) (target_width w) (target_height w)
    (surface_id w) (visible w) (focused w) (z_order w) (decorated w) (is_floating w).
Definition set_target (tx ty tw th : Z) (w : Window) : Window :=
  mkWindow (w_id w) (client_id w) (title w) (x w) (y w) (width w) (height w) tx ty tw th
    (surface_id w) (visible w) (focused w) (z_order w) (decorated w) (is_floating w).
Definition set_focused (f : bool) (w : Window) : Window :=
  mkWindow (w_id w) (client_id w) (title w) (x w) (y w) (width w) (height w) (target_x w) (target_y w) (target_width w) (target_height w)
    (surface_id w) (visible w) f (z_order w) (decorated w) (is_floating w).
Definition set_z (z : Z) (w : Window) : Window :=
  mkWindow (w_id w) (client_id w) (title w) (x w) (y w) (width w) (height w) (target_x w) (target_y w) (target_width w) (target_height w)
    (surface_id w) (visible w) (focused w) z (decorated w) (is_floating w).
Definition set_floating (f : bool) (w : Window) : Window :=
  mkWindow (w_id w) (client_id w) (title w) (x w) (y w) (width w) (height w) (target_x w) (target_y w) (target_width w) (target_height w)
    (surface_id w) (visible w) (focused w) (z_order w) (decorated w) f.

Definition set_windows (ws : list Window) (s : DisplayServer) : DisplayServer :=
  mkDisplay (clients s) ws (next_client_id s) (next_window_id s) (focused_window s) (screen_width s) (screen_height s) (layout_mode s) (gap_size s)
    (taskbar_height s) (taskbar_visible s) (running s) (dirty s).
Definition set_clients (cs : list Client) (n : Z) (s : DisplayServer) : DisplayServer :=
  mkDisplay cs (windows s) n (next_window_id s) (focused_window s) (screen_width s) (screen_height s) (layout_mode s) (gap_size s)
    (taskbar_height s) (taskbar_visible s) (running s) (dirty s).
Definition set_next_window (n : Z) (s : DisplayServer) : DisplayServer :=
  mkDisplay (clients s) (windows s) (next_client_id s) n (focused_window s) (screen_width s) (screen_height s) (layout_mode s) (gap_size s)
    (taskbar_height s) (taskbar_visible s) (running s) (dirty s).
Definition set_focus (f : option Z) (s : DisplayServer) : DisplayServer :=
  mkDisplay (clients s) (windows s) (next_client_id s) (next_window_id s) f (screen_width s) (screen_height s) (layout_mode s) (gap_size s)
    (taskbar_height s) (taskbar_visible s) (running s) (dirty s).
Definition set_dirty (d : bool) (s : DisplayServer) : DisplayServer :=
  mkDisplay (clients s) (windows s) (next_client_id s) (next_window_id s) (focused_window s) (screen_width s) (screen_height s) (layout_mode s) (gap_size s)
    (taskbar_height s) (taskbar_visible s) (running s) d.

(** [iter_mut().find(|w| p(w))] and an update of what it finds. *)
Fixpoint update_first {A} (p : A -> bool) (f : A -> A) (l : list A) : list A :=
  match l with [] => [] | a :: l => if p a then f a :: l else a :: update_first p f l end.

(** ** Layout *)

(** One window after the other takes half of what is left of the work area, the last
    one all of it. *)
Fixpoint dwindle_loop (gap : Z) (indices : list nat) (ax ay aw ah : Z) (ws : list Window) : list Window :=
  match indices with
  | [] => ws
  | [idx] => alter (set_target ax ay aw ah) idx ws
  | idx :: rest =>
      if ah <? aw then
        let spawn := aw / 2 in
        dwindle_loop gap rest (to_i32 (ax + to_i32 spawn)) ay (aw -[32] spawn) ah (alter (set_target ax ay (spawn -[32] gap) ah) idx ws)
      else
        let spawn := ah / 2 in
        dwindle_loop gap rest ax (to_i32 (ay + to_i32 spawn)) aw (ah -[32] spawn) (alter (set_target ax ay aw (spawn -[32] gap)) idx ws)
  end.

Definition is_tiled (w : Window) : bool := negb (is_floating w) && visible w.

Definition tiled_indices (ws : list Window) : list nat := (fst <$> filter (fun iw : nat * Window => is_tiled iw.2 = true) (imap pair ws)).

(** Targets follow the windows. *)
Definition float_window (w : Window) : Window :=
  if negb (is_floating w) then set_target (x w) (y w) (width w) (height w) w else w.

(** A floating window of its first size gets its place in the middle. *)
Definition place_floating (sw sh : Z) (w : Window) : Window :=
  if is_floating w && (width w =? 10) then
    let tw := Z.max (target_width w) 100 in
    let th := Z.max (target_height w) 100 in
    set_target (to_i32 (to_i32 sw - to_i32 tw) ÷ 2) (to_i32 (to_i32 sh - to_i32 th) ÷ 2) tw th w
  else w.

Definition work_w (s : DisplayServer) : Z := Z.max 0 (screen_width s - (wrap 32 (gap_size s) *[32] 2)).
Definition work_h (s : DisplayServer) : Z := Z.max 0 (screen_height s - (taskbar_height s +[32] (wrap 32 (gap_size s) *[32] 2))).

Definition recalculate_layout (s : DisplayServer) : DisplayServer :=
  match windows s with
  | [] => s
  | _ =>
      match layout_mode s with
      | Floating => set_windows (place_floating (screen_width s) (screen_height s) <$> (float_window <$> windows s)) s
      | Dwindle =>
          match tiled_indices (windows s) with
          | [] => s
          | indices =>
              set_windows (place_floating (screen_width s) (screen_height s) <$>
                dwindle_loop (wrap 32 (gap_size s)) indices (gap_size s) (gap_size s) (work_w s) (work_h s) (windows s)) s
          end
      end
  end.

(** ** Operations *)

Definition register_client (name : string) (s : DisplayServer) : Z * DisplayServer :=
  (next_client_id s, set_clients (clients s ++ [mkClient (next_client_id s) name []]) (next_client_id s +[64] 1) s).

Definition has_id (i : Z) (w : Window) : bool := w_id w =? i.
Definition is_client (i : Z) (c : Client) : bool := c_id c =? i.

Definition unfocus (s : DisplayServer) : DisplayServer :=
  match focused_window s with Some old => set_windows (update_first (has_id old) (set_focused false) (windows s)) s | None => s end.

Definition create_window `{KernelHeap} (client : Z) (t : string) (w h : Z) (s : DisplayServer) (g : option GraphicsServer)
  : Result (Result Z DisplayError * DisplayServer * option GraphicsServer) Surface.Fault :=
  if negb (existsb (is_client client) (clients s)) then Ok (Err ClientNotFound, s, g)
  else match graphics_create_surface w h g with
       | Err e => Err e
       | Ok (Err e, g) => Ok (Err (GraphicsFailed e), s, g)
       | Ok (Ok surface, g) =>
           let win_id := next_window_id s in
           let center_x := to_i32 (screen_width s) ÷ 2 in
           let center_y := to_i32 (screen_height s) ÷ 2 in
           let floating := bool_decide (t = "Calculator" \/ t = "About")%string in
           let window := mkWindow win_id client t center_x center_y 50 50 center_x center_y w h surface true true (to_i32 (Z.of_nat (length (windows s)))) floating floating in
           let s := unfocus (set_next_window (win_id +[64] 1) s) in
           let s := set_windows (windows s ++ [window]) (set_focus (Some win_id) s) in
           let s := set_clients (update_first (is_client client) (fun c => mkClient (c_id c) (c_name c) (c_windows c ++ [win_id])) (clients s)) (next_client_id s) s in
           Ok (Ok win_id, set_dirty true (recalculate_layout s), g)
       end.

Definition destroy_window (i : Z) (s : DisplayServer) (g : option GraphicsServer) : Result unit DisplayError * DisplayServer * option GraphicsServer :=
  match list_find (fun w => w_id w = i) (windows s) with
  | None => (Err WindowNotFound, s, g)
  | Some (pos, window) =>
      let s := set_windows (delete pos (windows s)) s in
      let g := (graphics_destroy_surface (surface_id window) g).2 in
      let s := set_clients (update_first (is_client (client_id window)) (fun c => mkClient (c_id c) (c_name c) (filter (fun j => j <> i) (c_windows c))) (clients s)) (next_client_id s) s in
      let s :=
        if bool_decide (focused_window s = Some i) then
          match last (windows s) with
          | Some w => set_windows (update_first (has_id (w_id w)) (set_focused true) (windows s)) (set_focus (Some (w_id w)) s)
          | None => set_focus None s
          end
        else s in
      (Ok tt, set_dirty true (recalculate_layout s), g)
  end.

Definition max_z (ws : list Window) : Z := match ws with [] => 0 | w :: ws => foldl (fun m w => Z.max m (z_order w)) (z_order w) ws end.

Definition focus_window (i : Z) (s : DisplayServer) : DisplayServer :=
  let s := unfocus s in
  let m := max_z (windows s) in
  set_dirty true (set_focus (Some i) (set_windows (update_first (has_id i) (fun w => set_z (to_i32 (m + 1)) (set_focused true w)) (windows s)) s)).

Definition move_window (i nx ny : Z) (s : DisplayServer) : DisplayServer :=
  if existsb (has_id i) (windows s) then
    set_dirty true (recalculate_layout (set_windows
      (update_first (has_id i) (fun w => set_floating true (set_rect nx ny (width w) (height w) (set_target nx ny (target_width w) (target_height w) w))) (windows s)) s))
  else s.

Definition focus_next (s : DisplayServer) : DisplayServer :=
  match windows s with
  | [] => s
  | _ =>
      let current := match list_find (fun w => Some (w_id w) = focused_window s) (windows s) with Some (k, _) => k | None => 0%nat end in
      match windows s !! ((current + 1) mod length (windows s))%nat with
      | Some w => focus_window (w_id w) s
      | None => s
      end
  end.

Definition windows_sorted (s : DisplayServer) : list Window := sort_by z_order (windows s).

Definition mark_clean (s : DisplayServer) : DisplayServer := set_dirty false s.

Definition get_window_by_surface (i : Z) (s : DisplayServer) : option Window := snd <$> list_find (fun w => surface_id w = i) (windows s).

(** ** Animation *)

(** An integer as a 32-bit float: the nearest number of 24 bits, ties to even. *)
Definition round_even (m e : Z) : Z :=
  let q := m / 2 ^ e in
  let r := m mod 2 ^ e in
  if (2 ^ (e - 1) <? r) || ((r =? 2 ^ (e - 1)) && Z.odd q) then q + 1 else q.

Definition float_of (m : Z) : Z :=
  if Z.abs m <? 2 ^ 24 then m
  else let e := Z.log2 (Z.abs m) - 23 in Z.sgn m * (round_even (Z.abs m) e * 2 ^ e).

(** [0.35] is 11744051 / 2^25; a product is rounded and the cast truncates it. *)
Definition SPEED : Z := 11744051.
Definition SPEED_SHIFT : Z := 25.

Definition lerp (d : Z) : Z := float_of (float_of d * SPEED) ÷ 2 ^ SPEED_SHIFT.

Definition is_far (d : Z) : bool := 1 <? Z.abs (float_of d).

Definition tick_window (w : Window) : bool * Window :=
  if negb (visible w) then (false, w)
  else
    let dx := to_i32 (target_x w - x w) in
    let dy := to_i32 (target_y w - y w) in
    let dw := to_i32 (to_i32 (target_width w) - to_i32 (width w)) in
    let dh := to_i32 (to_i32 (target_height w) - to_i32 (height w)) in
    if is_far dx || is_far dy || is_far dw || is_far dh then
      (true, set_rect (to_i32 (x w + lerp dx)) (to_i32 (y w + lerp dy)) (wrap 32 (to_i32 (to_i32 (width w) + lerp dw))) (wrap 32 (to_i32 (to_i32 (height w) + lerp dh))) w)
    else (false, set_rect (target_x w) (target_y w) (target_width w) (target_height w) w).

(** A window that snaps to its target makes the server dirty too. *)
Definition snaps (w : Window) : bool :=
  visible w && negb (tick_window w).1 && negb ((x w =? target_x w) && (y w =? target_y w) && (width w =? target_width w) && (height w =? target_height w)).

Definition tick (s : DisplayServer) : bool * DisplayServer :=
  let animating := existsb (fun w => (tick_window w).1) (windows s) in
  let s' := set_dirty (dirty s || animating || existsb snaps (windows s)) (set_windows (snd ∘ tick_window <$> windows s) s) in
  (animating || dirty s', s').

(** ** Floats *)

Lemma round_even_bounds m e : 1 <= e -> 0 <= m -> - 2 ^ (e - 1) <= round_even m e * 2 ^ e - m <= 2 ^ (e - 1).
Proof.
  intros He Hm. unfold round_even. cbn zeta. assert (2 ^ e = 2 * 2 ^ (e - 1)) as E by (rewrite <- Z.pow_succ_r by lia; f_equal; lia).
  assert (0 < 2 ^ (e - 1)) as Hp by (apply Z.pow_pos_nonneg; lia). pose proof (Z.div_mod m (2 ^ e) ltac:(lia)) as Hd. pose proof (Z.mod_pos_bound m (2 ^ e) ltac:(lia)) as Hr.
  set (q := m / 2 ^ e) in *. set (r := m mod 2 ^ e) in *. set (h := 2 ^ (e - 1)) in *. rewrite E in *.
  destruct (Z.ltb_spec h r), (Z.eqb_spec r h), (Z.odd q); cbn [orb andb]; lia.
Qed.

Lemma float_of_bounds m : 0 < m -> m * (2 ^ 24 - 1) <= float_of m * 2 ^ 24 <= m * (2 ^ 24 + 1).
Proof.
  intros Hm. unfold float_of. rewrite Z.abs_eq by lia. destruct (Z.ltb_spec m (2 ^ 24)) as [|Hl]; [lia|]. cbn zeta. rewrite Z.sgn_pos, Z.mul_1_l by done.
  pose proof (Z.log2_spec m Hm) as [L1 L2]. assert (24 <= Z.log2 m) as Hlog by (apply Z.log2_le_pow2; lia). set (e := Z.log2 m - 23) in *.
  pose proof (round_even_bounds m e ltac:(lia) ltac:(lia)) as B. assert (2 ^ Z.log2 m = 2 ^ (e - 1) * 2 ^ 24) as E by (rewrite <- Z.pow_add_r by lia; f_equal; lia). lia.
Qed.

Lemma float_of_opp m : float_of (- m) = - float_of m.
Proof. unfold float_of. rewrite Z.abs_opp. destruct (Z.abs m <? 2 ^ 24); [done|]. cbn zeta. rewrite Z.sgn_opp. lia. Qed.

Lemma float_of_small m : Z.abs m < 2 ^ 24 -> float_of m = m.
Proof. unfold float_of. by destruct (Z.ltb_spec (Z.abs m) (2 ^ 24)); [|lia]. Qed.

Lemma lerp_opp d : lerp (- d) = - lerp d.
Proof. unfold lerp. rewrite float_of_opp, Z.mul_opp_l, float_of_opp. apply Z.quot_opp_l. done. Qed.

(** A step covers part of the distance, and leaves two pixels or more. *)
Lemma lerp_part d : 3 <= d -> 1 <= lerp d <= d - 2.
Proof.
  intros Hd. unfold lerp. pose proof (float_of_bounds d ltac:(lia)) as B1. set (a := float_of d) in *. assert (0 < a) as Ha by lia. unfold SPEED, SPEED_SHIFT.
  pose proof (float_of_bounds (a * 11744051) ltac:(lia)) as B2. set (b := float_of (a * 11744051)) in *.
  assert (2 ^ 25 <= b) as Hb by lia. rewrite Z.quot_div_nonneg by lia. split; [apply Z.div_le_lower_bound; lia|]. destruct (Z.le_gt_cases 4 d).
  - assert (b < 2 ^ 25 * (d - 2 + 1)) as Hu by lia. apply Z.div_lt_upper_bound in Hu; lia.
  - assert (d = 3) as -> by lia. assert (b < 2 ^ 25 * (3 - 2 + 1)) as Hu by lia. apply Z.div_lt_upper_bound in Hu; lia.
Qed.

Lemma lerp_stuck d : Z.abs d <= 2 -> lerp d = 0.
Proof. intros Hd. assert (d = -2 \/ d = -1 \/ d = 0 \/ d = 1 \/ d = 2) as [->|[->|[->|[->| ->]]]] by lia; reflexivity. Qed.

Lemma float_of_one d : 2 <= d -> 1 < float_of d.
Proof. intros Hd. pose proof (float_of_bounds d ltac:(lia)). lia. Qed.

Lemma is_far_spec d : is_far d = (2 <=? Z.abs d).
Proof.
  unfold is_far. destruct (Z.leb_spec 2 (Z.abs d)) as [H|H]; [|apply Z.ltb_ge; rewrite float_of_small; lia].
  apply Z.ltb_lt. pose proof (float_of_one (Z.abs d) H) as Hf. destruct (Z.abs_or_opp_abs d) as [E|E]; rewrite E, ?float_of_opp; lia.
Qed.

(** One coordinate: the distance that is left. *)
Definition left_over (d : Z) : Z := d - lerp d.

Lemma left_over_spec d : (Z.abs d <= 2 -> left_over d = d) /\ (2 <= Z.abs d -> 2 <= Z.abs (left_over d) <= Z.max 2 (Z.abs d - 1)) /\ 0 <= Z.abs (lerp d) <= Z.abs d /\ 0 <= d * lerp d.
Proof.
  assert (forall d, 0 <= d -> (Z.abs d <= 2 -> left_over d = d) /\ (2 <= Z.abs d -> 2 <= Z.abs (left_over d) <= Z.max 2 (Z.abs d - 1)) /\ 0 <= Z.abs (lerp d) <= Z.abs d /\ 0 <= d * lerp d) as H.
  { clear d. intros d Hd. unfold left_over. destruct (Z.le_gt_cases d 2); [rewrite lerp_stuck by lia; lia|]. pose proof (lerp_part d ltac:(lia)). nia. }
  destruct (Z.le_gt_cases 0 d) as [Hd|Hd]; [by apply H|]. specialize (H (- d) ltac:(lia)). unfold left_over in *. rewrite lerp_opp, !Z.abs_opp in H. rewrite <- (Z.abs_opp (d - lerp d)). replace (- (d - lerp d)) with (- d - - lerp d) by lia.
  destruct H as (H1 & H2 & H3 & H4). split; [intros Ha; specialize (H1 Ha); lia|]. split; [done|]. split; [done|]. lia.
Qed.

(** ** One window *)

(** Coordinates for which nothing wraps. *)
Definition moderate (z : Z) : Prop := - 2 ^ 29 <= z <= 2 ^ 29.

Record window_ok (w : Window) : Prop := {
  wo_x : moderate (x w) /\ moderate (target_x w); wo_y : moderate (y w) /\ moderate (target_y w);
  wo_w : 0 <= width w <= 2 ^ 29 /\ 0 <= target_width w <= 2 ^ 29; wo_h : 0 <= height w <= 2 ^ 29 /\ 0 <= target_height w <= 2 ^ 29
}.

(** What is left in each coordinate. *)
Definition dist (w : Window) : list Z := [target_x w - x w; target_y w - y w; target_width w - width w; target_height w - height w].

Definition same_window (w w' : Window) : Prop :=
  w_id w' = w_id w /\ visible w' = visible w /\ target_x w' = target_x w /\ target_y w' = target_y w /\ target_width w' = target_width w /\ target_height w' = target_height w.

Lemma between a t : Z.min a t <= a + lerp (t - a) <= Z.max a t.
Proof.
  pose proof (left_over_spec (t - a)) as (_ & _ & H1 & H2). set (l := lerp (t - a)) in *. destruct (Z.le_gt_cases a t); nia.
Qed.

(** A coordinate stays between where it was and its target, so nothing wraps. *)
Lemma coordinate_step a t : moderate a -> moderate t -> to_i32 (t - a) = t - a /\ to_i32 (a + lerp (t - a)) = a + lerp (t - a) /\ moderate (a + lerp (t - a)).
Proof. unfold moderate. intros Ha Ht. pose proof (between a t). rewrite !to_i32_small by lia. lia. Qed.

Lemma extent_step a t : 0 <= a <= 2 ^ 29 -> 0 <= t <= 2 ^ 29 ->
  to_i32 (to_i32 t - to_i32 a) = t - a /\ wrap 32 (to_i32 (to_i32 a + lerp (t - a))) = a + lerp (t - a) /\ 0 <= a + lerp (t - a) <= 2 ^ 29.
Proof.
  intros Ha Ht. pose proof (between a t). rewrite (to_i32_small t), (to_i32_small a) by lia. rewrite !to_i32_small by lia. rewrite wrap_small by (unfold in_width; lia). lia.
Qed.

Lemma tick_window_spec w : window_ok w -> visible w = true ->
  let '(moving, w') := tick_window w in
  window_ok w' /\ same_window w w' /\ moving = existsb (fun d => 2 <=? Z.abs d) (dist w) /\ dist w' = if moving then left_over <$> dist w else [0; 0; 0; 0].
Proof.
  intros [[Hx Hx'] [Hy Hy'] [Hw Hw'] [Hh Hh']] Hv. unfold tick_window. rewrite Hv. cbn [negb]. cbn zeta.
  destruct (coordinate_step _ _ Hx Hx') as (-> & -> & Bx). destruct (coordinate_step _ _ Hy Hy') as (-> & -> & By).
  destruct (extent_step _ _ Hw Hw') as (-> & -> & Bw). destruct (extent_step _ _ Hh Hh') as (-> & -> & Bh). rewrite !is_far_spec.
  assert (existsb (fun d => 2 <=? Z.abs d) (dist w) = (2 <=? Z.abs (target_x w - x w)) || (2 <=? Z.abs (target_y w - y w)) || (2 <=? Z.abs (target_width w - width w)) || (2 <=? Z.abs (target_height w - height w))) as E.
  { unfold dist. cbn [existsb]. by rewrite orb_false_r, !orb_assoc. }
  rewrite E. destruct (_ || _ || _ || _) eqn:Em.
  - split; [by constructor|]. split; [done|]. split; [done|]. unfold dist, left_over. cbn - [lerp]. do 4 (apply (f_equal2 cons); [lia|]). done.
  - split; [by constructor|]. split; [done|]. split; [done|]. unfold dist. cbn. by rewrite !Z.sub_diag.
Qed.

(** ** Many ticks *)

Fixpoint ticks (n : nat) (s : DisplayServer) : DisplayServer := match n with O => s | S n => (tick (ticks n s)).2 end.

Definition tick_once (w : Window) : Window := (tick_window w).2.

Lemma windows_ticks n s : windows (ticks n s) = Nat.iter n tick_once <$> windows s.
Proof.
  induction n as [|n IH]; [by rewrite list_fmap_id|]. cbn [ticks]. unfold tick. cbn [snd]. change (snd ∘ tick_window <$> windows (ticks n s) = Nat.iter (S n) tick_once <$> windows s).
  rewrite IH, <- list_fmap_compose. done.
Qed.

Lemma ticks_window n w : window_ok w -> visible w = true ->
  window_ok (Nat.iter n tick_once w) /\ same_window w (Nat.iter n tick_once w) /\ Forall2 (fun d d' => Z.abs d' <= Z.max 2 (Z.abs d - Z.of_nat n)) (dist w) (dist (Nat.iter n tick_once w)).
Proof.
  intros Hw Hv. induction n as [|n IH].
  - split; [done|]. split; [done|]. cbn [Nat.iter nat_rect]. apply Forall2_same_length_lookup_2; [done|]. intros i a b -> [= ->]. lia.
  - destruct IH as (Ho & Hs & Hd). change (Nat.iter (S n) tick_once w) with (tick_once (Nat.iter n tick_once w)). set (wn := Nat.iter n tick_once w) in *.
    assert (visible wn = true) as Hvn by (destruct Hs as (_ & -> & _); done). pose proof (tick_window_spec wn Ho Hvn) as Ht. unfold tick_once. destruct (tick_window wn) as [moving w']. cbn [snd].
    destruct Ht as (Ho' & Hs' & _ & Ed). split; [done|]. split; [unfold same_window in *; intuition congruence|]. rewrite Ed. destruct moving.
    + apply Forall2_fmap_r. eapply Forall2_impl; [exact Hd|]. intros d d' Hdd. unfold compose in *. cbn beta in *. pose proof (left_over_spec d') as (L1 & L2 & _). destruct (Z.le_gt_cases (Z.abs d') 2); [rewrite L1 by lia; lia|]. specialize (L2 ltac:(lia)). lia.
    + unfold dist. repeat constructor; lia.
Qed.

Lemma ticks_far n w : window_ok w -> visible w = true -> Exists (fun d => 2 <= Z.abs d) (dist w) ->
  Exists (fun d => 2 <= Z.abs d) (dist (Nat.iter n tick_once w)) /\ (tick_window (Nat.iter n tick_once w)).1 = true.
Proof.
  intros Hw Hv Hf. assert (forall w, window_ok w -> visible w = true -> Exists (fun d => 2 <= Z.abs d) (dist w) -> (tick_window w).1 = true /\ Exists (fun d => 2 <= Z.abs d) (dist (tick_once w))) as Hone.
  { clear. intros w Hw Hv Hf. pose proof (tick_window_spec w Hw Hv) as Ht. unfold tick_once. destruct (tick_window w) as [moving w']. destruct Ht as (_ & _ & -> & Ed).
    assert (existsb (fun d => 2 <=? Z.abs d) (dist w) = true) as E.
    { apply existsb_exists. apply Exists_exists in Hf as (d & Hd & H2). exists d. split; [by apply list_elem_of_In|lia]. }
    rewrite E in *. split; [done|]. cbn [snd]. rewrite Ed. apply Exists_fmap. eapply Exists_impl; [exact Hf|]. intros d Hd. apply left_over_spec. done. }
  induction n as [|n IH]; [split; [done|by apply Hone]|]. destruct IH as [IH _]. destruct (ticks_window n w Hw Hv) as (Ho & Hs & _). destruct Hs as (_ & Hvn & _).
  change (Nat.iter (S n) tick_once w) with (tick_once (Nat.iter n tick_once w)). destruct (Hone _ Ho) as [H1 H2]; [by rewrite Hvn|done|]. split; [done|].
  destruct (ticks_window (S n) w Hw Hv) as (Ho' & Hs' & _). destruct Hs' as (_ & Hvn' & _). apply Hone; [exact Ho'|by rewrite <- Hv|exact H2].
Qed.

(** Animation brings every visible window within two pixels of its target, after as
    many ticks as the longest distance and for good.  But it does not get there: a
    window that is two pixels away, or more, in some coordinate stays that far, since
    the step for two pixels rounds to none, and [tick] asks for a redraw for ever. *)
Theorem animation_stalls s : Forall window_ok (windows s) ->
  (forall n k w w', windows s !! k = Some w -> windows (ticks n s) !! k = Some w' -> visible w = true ->
     Forall2 (fun d d' => Z.abs d' <= Z.max 2 (Z.abs d - Z.of_nat n)) (dist w) (dist w')) /\
  (forall w, w ∈ windows s -> visible w = true -> Exists (fun d => 2 <= Z.abs d) (dist w) ->
     forall n, (tick (ticks n s)).1 = true /\ exists w', w' ∈ windows (ticks n s) /\ w_id w' = w_id w /\ Exists (fun d => 2 <= Z.abs d) (dist w')).
Proof.
  intros Hall. split.
  - intros n k w w' Hk Hk' Hv. rewrite windows_ticks, list_lookup_fmap, Hk in Hk'. injection Hk' as <-. apply ticks_window; [|done]. by eapply Forall_lookup_1.
  - intros w Hw Hv Hf n. assert (window_ok w) as Ho by (rewrite Forall_forall in Hall; by apply Hall). destruct (ticks_far n w Ho Hv Hf) as [F M']. destruct (ticks_window n w Ho Hv) as (_ & (Hid & _) & _).
    assert (Nat.iter n tick_once w ∈ windows (ticks n s)) as Hin by (rewrite windows_ticks; by apply list_elem_of_fmap_2). split; [|by exists (Nat.iter n tick_once w)].
    unfold tick. cbn [fst]. apply orb_true_iff. left. apply existsb_exists. exists (Nat.iter n tick_once w). split; [by apply list_elem_of_In|done].
Qed.

(** ** Tiling *)

Definition Rect : Type := Z * Z * Z * Z.

Definition target (w : Window) : Rect := (target_x w, target_y w, target_width w, target_height w).

(** The tiles of [n] windows in an area, without the loop and without wrapping. *)
Fixpoint dwindle (gap : Z) (n : nat) (ax ay aw ah : Z) : list Rect :=
  match n with
  | O => []
  | S O => [(ax, ay, aw, ah)]
  | S n =>
      if ah <? aw then (ax, ay, aw / 2 - gap, ah) :: dwindle gap n (ax + aw / 2) ay (aw - aw / 2) ah
      else (ax, ay, aw, ah / 2 - gap) :: dwindle gap n ax (ay + ah / 2) aw (ah - ah / 2)
  end.

(** Every half that is given away has room for the gap. *)
Fixpoint fits (gap : Z) (n : nat) (aw ah : Z) : bool :=
  match n with
  | O | S O => true
  | S n => if ah <? aw then (gap <=? aw / 2) && fits gap n (aw - aw / 2) ah else (gap <=? ah / 2) && fits gap n aw (ah - ah / 2)
  end.

Definition inside_area (ax ay aw ah : Z) (r : Rect) : Prop :=
  let '(rx, ry, rw, rh) := r in 0 <= rw /\ 0 <= rh /\ ax <= rx /\ rx + rw <= ax + aw /\ ay <= ry /\ ry + rh <= ay + ah.

Definition disjoint_rects (r1 r2 : Rect) : Prop :=
  let '(x1, y1, w1, h1) := r1 in let '(x2, y2, w2, h2) := r2 in x1 + w1 <= x2 \/ x2 + w2 <= x1 \/ y1 + h1 <= y2 \/ y2 + h2 <= y1.

Lemma half z : 0 <= z -> 0 <= z / 2 <= z.
Proof. intros. Z.to_euclidean_division_equations. lia. Qed.

Lemma dwindle_length gap n : forall ax ay aw ah, length (dwindle gap n ax ay aw ah) = n.
Proof. induction n as [|[|n] IH]; intros ax ay aw ah; [done|done|]. cbn [dwindle]. destruct (ah <? aw); cbn [length]; f_equal; apply IH. Qed.

Lemma dwindle_inside gap n : forall ax ay aw ah, 0 <= gap -> 0 <= aw -> 0 <= ah -> fits gap n aw ah = true -> Forall (inside_area ax ay aw ah) (dwindle gap n ax ay aw ah).
Proof.
  induction n as [|[|n] IH]; intros ax ay aw ah Hg Hw Hh Hf; [done|repeat constructor; lia|]. pose proof (half aw Hw). pose proof (half ah Hh).
  cbn [dwindle fits] in *. destruct (ah <? aw); apply andb_true_iff in Hf as [Hf1 Hf]; apply Z.leb_le in Hf1.
  - constructor; [unfold inside_area; lia|]. eapply Forall_impl; [apply IH; [done|lia|done|exact Hf]|]. intros [[[rx ry] rw] rh]. unfold inside_area. lia.
  - constructor; [unfold inside_area; lia|]. eapply Forall_impl; [apply IH; [done|done|lia|exact Hf]|]. intros [[[rx ry] rw] rh]. unfold inside_area. lia.
Qed.

Lemma dwindle_disjoint gap n : forall ax ay aw ah, 0 <= gap -> 0 <= aw -> 0 <= ah -> fits gap n aw ah = true ->
  forall i j r1 r2, (i < j)%nat -> dwindle gap n ax ay aw ah !! i = Some r1 -> dwindle gap n ax ay aw ah !! j = Some r2 -> disjoint_rects r1 r2.
Proof.
  induction n as [|[|n] IH]; intros ax ay aw ah Hg Hw Hh Hf i j r1 r2 Hij H1 H2; [done|destruct j as [|[|j]]; [lia|done|done]|]. pose proof (half aw Hw). pose proof (half ah Hh).
  destruct j as [|j]; [lia|]. cbn [dwindle fits] in *. destruct (ah <? aw); apply andb_true_iff in Hf as [Hf1 Hf]; apply Z.leb_le in Hf1; destruct i as [|i].
  - injection H1 as <-. pose proof (dwindle_inside gap (S n) (ax + aw / 2) ay (aw - aw / 2) ah Hg ltac:(lia) Hh Hf) as Hi. apply (Forall_lookup_1 _ _ _ _ Hi) in H2. destruct r2 as [[[rx ry] rw] rh]. unfold inside_area, disjoint_rects in *. lia.
  - eapply (IH (ax + aw / 2) ay (aw - aw / 2) ah Hg ltac:(lia) Hh Hf i j); [lia|exact H1|exact H2].
  - injection H1 as <-. pose proof (dwindle_inside gap (S n) ax (ay + ah / 2) aw (ah - ah / 2) Hg Hw ltac:(lia) Hf) as Hi. apply (Forall_lookup_1 _ _ _ _ Hi) in H2. destruct r2 as [[[rx ry] rw] rh]. unfold inside_area, disjoint_rects in *. lia.
  - eapply (IH ax (ay + ah / 2) aw (ah - ah / 2) Hg Hw ltac:(lia) Hf i j); [lia|exact H1|exact H2].
Qed.

Definition with_target (r : Rect) : Window -> Window := let '(rx, ry, rw, rh) := r in set_target rx ry rw rh.

(** The loop gives the tiles to the windows in order. *)
Lemma dwindle_loop_spec gap indices : forall ax ay aw ah ws, 0 <= gap -> 0 <= aw -> 0 <= ah -> 0 <= ax -> 0 <= ay -> ax + aw < 2 ^ 31 -> ay + ah < 2 ^ 31 ->
  fits gap (length indices) aw ah = true ->
  dwindle_loop gap indices ax ay aw ah ws = foldl (fun ws ir => alter (with_target ir.2) ir.1 ws) ws (zip indices (dwindle gap (length indices) ax ay aw ah)).
Proof.
  induction indices as [|i indices IH]; intros ax ay aw ah ws Hg Hw Hh Hx Hy Bx By Hf; [done|]. destruct indices as [|i2 rest]; [done|].
  pose proof (half aw Hw). pose proof (half ah Hh). revert Hf. change (length (i :: i2 :: rest)) with (S (S (length rest))). cbn [fits dwindle].
  change (dwindle_loop gap (i :: i2 :: rest) ax ay aw ah ws) with
    (if ah <? aw then let spawn := aw / 2 in dwindle_loop gap (i2 :: rest) (to_i32 (ax + to_i32 spawn)) ay (aw -[32] spawn) ah (alter (set_target ax ay (spawn -[32] gap) ah) i ws)
     else let spawn := ah / 2 in dwindle_loop gap (i2 :: rest) ax (to_i32 (ay + to_i32 spawn)) aw (ah -[32] spawn) (alter (set_target ax ay aw (spawn -[32] gap)) i ws)).
  cbn zeta. destruct (ah <? aw); intros Hf; apply andb_true_iff in Hf as [Hf1 Hf]; apply Z.leb_le in Hf1; rewrite !to_i32_small by (rewrite ?to_i32_small; lia);
    rewrite !wrap_small by (unfold in_width; lia); cbn [zip zip_with foldl]; by rewrite IH by (done || lia).
Qed.

(** Giving targets to windows at different places. *)
Lemma assign_targets l : forall ws : list Window, NoDup l.*1 ->
  let ws' := foldl (fun ws ir => alter (with_target ir.2) ir.1 ws) ws l in
  forall k, (forall r, (k, r) ∈ l -> ws' !! k = with_target r <$> ws !! k) /\ (k ∉ l.*1 -> ws' !! k = ws !! k).
Proof.
  induction l as [|[i r0] l IH]; intros ws Hn; cbn zeta; cbn [foldl fst snd]; intros k.
  - split; [intros r Hr; by apply not_elem_of_nil in Hr|done].
  - cbn [fmap list_fmap fst] in Hn. apply NoDup_cons in Hn as [Hi Hn]. specialize (IH (alter (with_target r0) i ws) Hn). cbn zeta in IH. destruct (IH k) as [IH1 IH2]. split.
    + intros r Hr. apply list_elem_of_In in Hr. destruct Hr as [E|Hr].
      * injection E as <- <-. rewrite (proj2 (IH i)) by done. apply list_lookup_alter_eq.
      * apply list_elem_of_In in Hr. rewrite (IH1 r Hr). rewrite list_lookup_alter_ne; [done|]. intros <-. apply Hi. apply list_elem_of_fmap. by exists (i, r).
    + cbn [fmap list_fmap fst]. intros Hk. apply not_elem_of_cons in Hk as [Hk1 Hk]. rewrite (IH2 Hk). by rewrite list_lookup_alter_ne.
Qed.

Lemma tiled_indices_spec ws k : k ∈ tiled_indices ws <-> exists w, ws !! k = Some w /\ is_tiled w = true.
Proof.
  unfold tiled_indices. rewrite list_elem_of_fmap. split.
  - intros ([i w] & -> & Hf). apply list_elem_of_filter in Hf as [Ht Hin]. apply list_elem_of_lookup in Hin as [j Hj]. rewrite list_lookup_imap in Hj.
    destruct (ws !! j) as [w'|] eqn:E; [|done]. injection Hj as <- <-. by exists w'.
  - intros (w & Hk & Ht). exists (k, w). split; [done|]. apply list_elem_of_filter. split; [done|]. apply list_elem_of_lookup. exists k. by rewrite list_lookup_imap, Hk.
Qed.

Lemma tiled_indices_NoDup ws : NoDup (tiled_indices ws).
Proof.
  unfold tiled_indices. assert (NoDup (imap pair ws).*1) as H.
  { assert ((imap pair ws).*1 = seq 0 (length ws)) as ->; [|apply NoDup_seq]. apply list_eq. intros k. rewrite list_lookup_fmap, list_lookup_imap. destruct (ws !! k) as [w|] eqn:E.
    - cbn. symmetry. apply lookup_seq. apply lookup_lt_Some in E. lia.
    - cbn. symmetry. apply lookup_ge_None_2. rewrite length_seq. by apply lookup_ge_None_1. }
  revert H. generalize (imap pair ws). intros l H. induction l as [|[i w] l IH]; [constructor|]. cbn [fmap list_fmap fst] in H. apply NoDup_cons in H as [Hi Hl]. rewrite filter_cons. destruct (decide _); [|by apply IH].
  cbn [fmap list_fmap fst]. apply NoDup_cons. split; [|by apply IH]. intros Hin. apply Hi. apply list_elem_of_fmap in Hin as (p & -> & Hp). apply list_elem_of_fmap. exists p. split; [done|]. apply list_elem_of_filter in Hp as [_ Hp]. exact Hp.
Qed.

Definition tiles (s : DisplayServer) : list Rect := dwindle (gap_size s) (length (tiled_indices (windows s))) (gap_size s) (gap_size s) (work_w s) (work_h s).

(** A screen of a size that real screens have. *)
Record screen_ok (s : DisplayServer) : Prop := {
  so_gap : 0 <= gap_size s <= 2 ^ 16; so_bar : 0 <= taskbar_height s <= 2 ^ 16;
  so_width : 0 <= screen_width s <= 2 ^ 30; so_height : 0 <= screen_height s <= 2 ^ 30
}.

Lemma work_area s : screen_ok s -> work_w s = Z.max 0 (screen_width s - 2 * gap_size s) /\ work_h s = Z.max 0 (screen_height s - (taskbar_height s + 2 * gap_size s)) /\
  wrap 32 (gap_size s) = gap_size s.
Proof.
  intros []. unfold work_w, work_h. rewrite (wrap_small 32 (gap_size s)) by (unfold in_width; lia). rewrite (wrap_small 32 (gap_size s * 2)) by (unfold in_width; lia).
  rewrite wrap_small by (unfold in_width; lia). lia.
Qed.

Lemma place_tiled sw sh w : is_tiled w = true -> place_floating sw sh w = w.
Proof. unfold is_tiled, place_floating. destruct (is_floating w); [done|]. done. Qed.

Lemma with_target_tiled r w : is_tiled (with_target r w) = is_tiled w /\ target (with_target r w) = r.
Proof. by destruct r as [[[rx ry] rw] rh]. Qed.

(** After a new layout the tiled windows, in their order, have the tiles as targets. *)
Lemma layout_spec s : screen_ok s -> layout_mode s = Dwindle -> fits (gap_size s) (length (tiled_indices (windows s))) (work_w s) (work_h s) = true ->
  forall j k, tiled_indices (windows s) !! j = Some k -> exists w r, windows s !! k = Some w /\ tiles s !! j = Some r /\ windows (recalculate_layout s) !! k = Some (with_target r w).
Proof.
  intros Hs Hm Hf j k Hj. destruct (work_area s Hs) as (Ew & Eh & Eg). unfold recalculate_layout.
  pose proof (list_elem_of_lookup_2 _ _ _ Hj) as Hk. apply tiled_indices_spec in Hk as (w & Hw & Ht). destruct (windows s) as [|w0 ws0] eqn:Ews; [done|]. rewrite <- Ews in *. clear Ews.
  rewrite Hm. remember (tiled_indices (windows s)) as indices eqn:Ei. destruct indices as [|i0 rest]; [done|]. rewrite Eg. cbn [windows set_windows].
  destruct Hs. rewrite dwindle_loop_spec by (done || lia). assert (length (tiles s) = length (i0 :: rest)) as Hl by (unfold tiles; by rewrite dwindle_length, Ei).
  destruct (lookup_lt_is_Some_2 (tiles s) j) as [r Hr]; [rewrite Hl; by eapply lookup_lt_Some|]. exists w, r. split; [done|]. split; [done|].
  assert (dwindle (gap_size s) (length (i0 :: rest)) (gap_size s) (gap_size s) (work_w s) (work_h s) = tiles s) as -> by (unfold tiles; by rewrite <- Ei).
  assert ((zip (i0 :: rest) (tiles s)).*1 = i0 :: rest) as E1 by (apply fst_zip; lia).
  destruct (assign_targets (zip (i0 :: rest) (tiles s)) (windows s)) with (k := k) as [A _]; [rewrite E1, Ei; apply tiled_indices_NoDup|].
  rewrite list_lookup_fmap, (A r).
  - rewrite Hw. cbn. f_equal. apply place_tiled. by rewrite (proj1 (with_target_tiled r w)).
  - apply list_elem_of_lookup. exists j. apply lookup_zip_with_Some. by exists k, r.
Qed.

(** Dwindle tiling: as long as every half that is given away has room for the gap, the
    tiled windows get targets inside the work area and no two of them overlap. *)
Theorem tiles_disjoint s : screen_ok s -> layout_mode s = Dwindle -> fits (gap_size s) (length (tiled_indices (windows s))) (work_w s) (work_h s) = true ->
  let ws := windows (recalculate_layout s) in
  (forall k w, k ∈ tiled_indices (windows s) -> ws !! k = Some w -> inside_area (gap_size s) (gap_size s) (work_w s) (work_h s) (target w)) /\
  (forall k l v w, k ∈ tiled_indices (windows s) -> l ∈ tiled_indices (windows s) -> k <> l -> ws !! k = Some v -> ws !! l = Some w -> disjoint_rects (target v) (target w)).
Proof.
  intros Hs Hm Hf. cbn zeta. pose proof (layout_spec s Hs Hm Hf) as Hl. destruct (work_area s Hs) as (Ew & Eh & _). assert (0 <= gap_size s) as Hg by (destruct Hs; lia). split.
  - intros k w Hk Hw. apply list_elem_of_lookup in Hk as [j Hj]. destruct (Hl j k Hj) as (w0 & r & _ & Hr & E). rewrite E in Hw. injection Hw as <-. rewrite (proj2 (with_target_tiled r w0)).
    pose proof (dwindle_inside (gap_size s) _ (gap_size s) (gap_size s) (work_w s) (work_h s) Hg ltac:(lia) ltac:(lia) Hf) as Hi. exact (Forall_lookup_1 _ _ _ _ Hi Hr).
  - intros k l v w Hk Hl' Hne Hv Hw. apply list_elem_of_lookup in Hk as [i Hi]. apply list_elem_of_lookup in Hl' as [j Hj]. assert (i <> j) as Hij by congruence.
    destruct (Hl i k Hi) as (v0 & r1 & _ & Hr1 & E1). rewrite E1 in Hv. injection Hv as <-. destruct (Hl j l Hj) as (w0 & r2 & _ & Hr2 & E2). rewrite E2 in Hw. injection Hw as <-.
    rewrite !(proj2 (with_target_tiled _ _)). pose proof (dwindle_disjoint (gap_size s) _ (gap_size s) (gap_size s) (work_w s) (work_h s) Hg ltac:(lia) ltac:(lia) Hf) as Hd.
    destruct (Nat.lt_ge_cases i j); [by apply (Hd i j)|]. assert (disjoint_rects r2 r1) as Hdj by (apply (Hd j i); [lia|done|done]).
    destruct r1 as [[[x1 y1] w1] h1], r2 as [[[x2 y2] w2] h2]. unfold disjoint_rects in *. lia.
Qed.

(** ** Focus and ownership *)

(** What the layout and the animation do not touch: identifier, owner and focus. *)
Definition key (w : Window) : Z * Z * bool := (w_id w, client_id w, focused w).

Lemma key_alter f k (ws : list Window) : (forall w, key (f w) = key w) -> key <$> alter f k ws = key <$> ws.
Proof.
  intros Hf. apply list_eq. intros j. rewrite !list_lookup_fmap. destruct (decide (j = k)) as [->|Hne].
  - rewrite list_lookup_alter_eq. destruct (ws !! k); [|done]. cbn. by rewrite Hf.
  - by rewrite list_lookup_alter_ne.
Qed.

Lemma key_map f (ws : list Window) : (forall w, key (f w) = key w) -> key <$> (f <$> ws) = key <$> ws.
Proof. intros Hf. rewrite <- list_fmap_compose. apply list_fmap_ext. intros i w _. apply Hf. Qed.

Lemma key_dwindle gap indices : forall ax ay aw ah ws, key <$> dwindle_loop gap indices ax ay aw ah ws = key <$> ws.
Proof.
  induction indices as [|i indices IH]; intros ax ay aw ah ws; [done|]. destruct indices as [|i2 rest]; [by apply key_alter|].
  change (dwindle_loop gap (i :: i2 :: rest) ax ay aw ah ws) with
    (if ah <? aw then let spawn := aw / 2 in dwindle_loop gap (i2 :: rest) (to_i32 (ax + to_i32 spawn)) ay (aw -[32] spawn) ah (alter (set_target ax ay (spawn -[32] gap) ah) i ws)
     else let spawn := ah / 2 in dwindle_loop gap (i2 :: rest) ax (to_i32 (ay + to_i32 spawn)) aw (ah -[32] spawn) (alter (set_target ax ay aw (spawn -[32] gap)) i ws)).
  cbn zeta. destruct (ah <? aw); rewrite IH; by apply key_alter.
Qed.

Lemma key_place sw sh w : key (place_floating sw sh w) = key w.
Proof. unfold place_floating. by destruct (_ && _). Qed.

Lemma key_layout s : key <$> windows (recalculate_layout s) = key <$> windows s.
Proof.
  unfold recalculate_layout. destruct (windows s) as [|w ws] eqn:E; [by rewrite E|]. rewrite <- E. destruct (layout_mode s).
  - cbn [windows set_windows]. rewrite key_map by apply key_place. apply key_map. intros v. unfold float_window. by destruct (negb _).
  - destruct (tiled_indices (windows s)) as [|i rest]; [done|]. cbn [windows set_windows]. rewrite key_map by apply key_place. apply key_dwindle.
Qed.

Lemma layout_rest s : clients (recalculate_layout s) = clients s /\ focused_window (recalculate_layout s) = focused_window s /\
  next_client_id (recalculate_layout s) = next_client_id s /\ next_window_id (recalculate_layout s) = next_window_id s.
Proof. unfold recalculate_layout. destruct (windows s); [done|]. destruct (layout_mode s); [done|]. by destruct (tiled_indices _). Qed.

Definition ids (ws : list Window) : list Z := w_id <$> ws.

Lemma update_first_map i f ws : NoDup (ids ws) -> update_first (has_id i) f ws = (fun w => if w_id w =? i then f w else w) <$> ws.
Proof.
  induction ws as [|w ws IH]; intros Hn; [done|]. cbn [ids fmap list_fmap] in Hn. apply NoDup_cons in Hn as [Hw Hn]. cbn [update_first fmap list_fmap]. unfold has_id at 1.
  destruct (Z.eqb_spec (w_id w) i) as [<-|]; [|by rewrite IH]. f_equal. symmetry. rewrite <- (list_fmap_id ws) at 2. apply list_fmap_ext. intros k v Hk.
  destruct (Z.eqb_spec (w_id v) (w_id w)) as [E|]; [|done]. exfalso. apply Hw. rewrite <- E. apply list_elem_of_fmap_2. by eapply list_elem_of_lookup_2.
Qed.

(** The windows of a client, in the order of the screen. *)
Definition owned (c : Z) (ks : list (Z * Z * bool)) : list Z := (fun k => k.1.1) <$> filter (fun k => k.1.2 = c) ks.

Record display_ok (s : DisplayServer) : Prop := {
  do_ids : NoDup (ids (windows s));
  do_fresh : Forall (fun i => 0 < i < next_window_id s) (ids (windows s));
  do_focus : Forall (fun k => k.2 = true <-> focused_window s = Some k.1.1) (key <$> windows s);
  do_clients : NoDup (c_id <$> clients s);
  do_client_fresh : Forall (fun c => 0 < c_id c < next_client_id s) (clients s);
  do_owned : Forall (fun c => c_windows c = owned (c_id c) (key <$> windows s)) (clients s);
  do_owner : Forall (fun k => k.1.2 ∈ c_id <$> clients s) (key <$> windows s)
}.

Lemma ids_key ws : ids ws = (fun k => k.1.1) <$> (key <$> ws).
Proof. unfold ids. rewrite <- list_fmap_compose. done. Qed.

(** Only what [key] shows matters. *)
Lemma display_ok_key s s' : display_ok s -> key <$> windows s' = key <$> windows s -> clients s' = clients s -> focused_window s' = focused_window s ->
  next_client_id s' = next_client_id s -> next_window_id s' = next_window_id s -> display_ok s'.
Proof.
  intros [] Ek Ec Ef E1 E2. assert (ids (windows s') = ids (windows s)) as Ei by (rewrite !ids_key; by rewrite Ek). constructor; rewrite ?Ei, ?Ek, ?Ec, ?Ef, ?E1, ?E2; done.
Qed.

Lemma display_ok_layout s : display_ok s -> display_ok (recalculate_layout s).
Proof. intros H. destruct (layout_rest s) as (? & ? & ? & ?). eapply display_ok_key; [exact H|apply key_layout|done..]. Qed.

Lemma display_ok_dirty d s : display_ok s -> display_ok (set_dirty d s).
Proof. intros H. by apply (display_ok_key s). Qed.

(** Taking the focus away leaves no focused window. *)
Lemma unfocus_spec s : display_ok s -> key <$> windows (unfocus s) = (fun k => (k.1, false)) <$> (key <$> windows s) /\
  clients (unfocus s) = clients s /\ focused_window (unfocus s) = focused_window s /\ next_client_id (unfocus s) = next_client_id s /\ next_window_id (unfocus s) = next_window_id s.
Proof.
  intros Hok. pose proof (do_focus _ Hok) as Hf. assert (forall w, w ∈ windows s -> focused w = true <-> focused_window s = Some (w_id w)) as Hw.
  { intros w Hw. rewrite Forall_forall in Hf. apply (Hf (key w)). by apply list_elem_of_fmap_2. }
  unfold unfocus. destruct (focused_window s) as [old|] eqn:Ef.
  - split; [|done]. cbn [windows set_windows]. rewrite update_first_map by apply Hok. rewrite <- !list_fmap_compose. apply list_fmap_ext. intros k w Hk. apply list_elem_of_lookup_2 in Hk. specialize (Hw w Hk).
    unfold compose, key. destruct (Z.eqb_spec (w_id w) old) as [E|E]; [done|]. cbn. f_equal. destruct (focused w); [|done]. exfalso. apply E. assert (Some old = Some (w_id w)) as [= ->] by (by apply Hw). done.
  - split; [|done]. rewrite <- list_fmap_compose. apply list_fmap_ext. intros k w Hk. apply list_elem_of_lookup_2 in Hk. specialize (Hw w Hk). unfold compose, key. cbn. f_equal.
    destruct (focused w); [|done]. assert (None = Some (w_id w)) by (by apply Hw). done.
Qed.

(** One operation of the server. *)
Inductive DisplayOp : Type :=
| RegisterClient (name : string)
| CreateWindow (client : Z) (t : string) (w h : Z)
| DestroyWindow (i : Z)
| FocusWindow (i : Z)
| FocusNext
| MoveWindow (i nx ny : Z)
| Tick
| MarkClean.

Definition run_display `{KernelHeap} (o : DisplayOp) (sg : DisplayServer * option GraphicsServer) : Result (DisplayServer * option GraphicsServer) Surface.Fault :=
  let '(s, g) := sg in
  match o with
  | RegisterClient name => Ok ((register_client name s).2, g)
  | CreateWindow c t w h => match create_window c t w h s g with Ok (_, s, g) => Ok (s, g) | Err e => Err e end
  | DestroyWindow i => let '(_, s, g) := destroy_window i s g in Ok (s, g)
  | FocusWindow i => Ok (focus_window i s, g)
  | FocusNext => Ok (focus_next s, g)
  | MoveWindow i nx ny => Ok (move_window i nx ny s, g)
  | Tick => Ok ((tick s).2, g)
  | MarkClean => Ok (mark_clean s, g)
  end.

(** Each call finds the heap in a state of its own. *)
Definition run_displays : list (KernelHeap * DisplayOp) -> DisplayServer * option GraphicsServer -> Result (DisplayServer * option GraphicsServer) Surface.Fault :=
  fun l => for_each l (fun c sg => run_display (H := c.1) c.2 sg).

(** The one call that ends the kernel: a new window for whose surface the heap, when it is
    asked, does not have the bytes. *)
Inductive display_halts (c : KernelHeap * DisplayOp) : Prop :=
| HaltsWindow i t w h : c.2 = CreateWindow i t w h -> heap_has (KernelHeap := c.1) ((w *[32] h) * 4) = false -> display_halts c.

Lemma focus_key i (ws : list Window) f : NoDup (ids ws) -> (forall w, w_id (f w) = w_id w /\ client_id (f w) = client_id w /\ focused (f w) = true) ->
  key <$> update_first (has_id i) f ws = (fun k => if k.1.1 =? i then (k.1, true) else k) <$> (key <$> ws).
Proof.
  intros Hn Hf. rewrite update_first_map by done. rewrite <- !list_fmap_compose. apply list_fmap_ext. intros j w _. unfold compose, key. cbn [fst snd]. destruct (w_id w =? i); [|done].
  destruct (Hf w) as (-> & -> & ->). done.
Qed.

Lemma owned_map c (g : Z * Z * bool -> Z * Z * bool) ks : (forall k, (g k).1 = k.1) -> owned c (g <$> ks) = owned c ks.
Proof.
  intros Hg. unfold owned. induction ks as [|k ks IH]; [done|]. cbn [fmap list_fmap]. rewrite !filter_cons. rewrite (Hg k). destruct (decide (k.1.2 = c)); [|exact IH].
  cbn [fmap list_fmap]. f_equal; [by rewrite Hg|exact IH].
Qed.

Lemma ids_map (g : Z * Z * bool -> Z * Z * bool) (ks : list (Z * Z * bool)) : (forall k, (g k).1 = k.1) -> (fun k : Z * Z * bool => k.1.1) <$> (g <$> ks) = (fun k : Z * Z * bool => k.1.1) <$> ks.
Proof. intros Hg. rewrite <- list_fmap_compose. apply list_fmap_ext. intros j k _. unfold compose. by rewrite Hg. Qed.

(** Changing only who has the focus. *)
Lemma display_ok_refocus s s' g : display_ok s -> (forall k : Z * Z * bool, (g k).1 = k.1) -> key <$> windows s' = g <$> (key <$> windows s) ->
  Forall (fun k => k.2 = true <-> focused_window s' = Some k.1.1) (g <$> (key <$> windows s)) ->
  clients s' = clients s -> next_client_id s' = next_client_id s -> next_window_id s' = next_window_id s -> display_ok s'.
Proof.
  intros [] Hg Ek Hf Ec E1 E2. assert (ids (windows s') = ids (windows s)) as Ei by (rewrite !ids_key, Ek; by apply ids_map). constructor; rewrite ?Ei, ?Ek, ?Ec, ?E1, ?E2; try done.
  - eapply Forall_impl; [exact do_owned0|]. intros c ->. by rewrite owned_map.
  - apply Forall_fmap. eapply Forall_impl; [exact do_owner0|]. intros k Hk. unfold compose. by rewrite Hg.
Qed.

Lemma display_ok_unfocus s : display_ok s -> key <$> windows (unfocus s) = (fun k => (k.1, false)) <$> (key <$> windows s).
Proof. intros H. by apply unfocus_spec. Qed.

Lemma display_ok_focus i s : display_ok s -> display_ok (focus_window i s).
Proof.
  intros Hok. destruct (unfocus_spec s Hok) as (Ek & Ec & Ef & E1 & E2). unfold focus_window. cbn zeta. apply display_ok_dirty.
  assert (NoDup (ids (windows (unfocus s)))) as Hn by (rewrite ids_key, Ek, ids_map, <- ids_key by done; apply Hok).
  set (f := fun w => set_z (to_i32 (max_z (windows (unfocus s)) + 1)) (set_focused true w)). eapply (display_ok_refocus s _ (fun k => (k.1, k.1.1 =? i))); [done|done| | |exact Ec|exact E1|exact E2].
  - cbn [windows set_focus set_windows]. rewrite (focus_key i _ f Hn) by done. rewrite Ek, <- list_fmap_compose. apply list_fmap_ext. intros j k _. unfold compose. cbn [fst snd]. by destruct (k.1.1 =? i).
  - cbn [focused_window set_focus]. apply Forall_fmap, Forall_true. intros k. unfold compose. cbn [fst snd]. split; [intros E; f_equal; lia|]. intros [= ->]. apply Z.eqb_refl.
Qed.

Lemma owned_none c ks : Forall (fun k => k.1.2 <> c) ks -> owned c ks = [].
Proof. unfold owned. induction 1 as [|k ks Hk _ IH]; [done|]. by rewrite filter_cons_False. Qed.

Lemma owned_one c k : owned c [k] = if k.1.2 =? c then [k.1.1] else [].
Proof. unfold owned. rewrite filter_cons. destruct (decide (k.1.2 = c)), (Z.eqb_spec k.1.2 c); done. Qed.

Lemma display_ok_register name s : display_ok s -> 0 < next_client_id s -> next_client_id s + 1 < 2 ^ 64 -> display_ok (register_client name s).2.
Proof.
  intros Hok Hp Hn. unfold register_client. cbn [snd]. rewrite wrap_small by (unfold in_width; lia). destruct Hok as [D1 D2 D3 D4 D5 D6 D7]. constructor; cbn [clients windows next_client_id next_window_id focused_window set_clients]; try done.
  - rewrite fmap_app. apply NoDup_app. split; [done|]. split; [|apply NoDup_singleton]. intros i Hi Hi'. apply list_elem_of_singleton in Hi' as ->. apply list_elem_of_fmap in Hi as (c & E & Hc).
    rewrite Forall_forall in D5. specialize (D5 c Hc). cbn in E. lia.
  - apply Forall_app_2; [eapply Forall_impl; [exact D5|]; cbn beta; lia|]. apply Forall_singleton. cbn. lia.
  - apply Forall_app_2; [done|]. apply Forall_singleton. cbn. symmetry. apply owned_none. eapply Forall_impl; [exact D7|].
    intros k Hk E. cbn beta in Hk. rewrite E in Hk. apply list_elem_of_fmap in Hk as (c & E' & Hc). rewrite Forall_forall in D5. specialize (D5 c Hc). lia.
  - eapply Forall_impl; [exact D7|]. intros k Hk. cbn beta in *. rewrite fmap_app. apply elem_of_app. by left.
Qed.

Lemma update_client i f cs : NoDup (c_id <$> cs) -> update_first (is_client i) f cs = (fun c => if c_id c =? i then f c else c) <$> cs.
Proof.
  induction cs as [|c cs IH]; intros Hn; [done|]. cbn [fmap list_fmap] in Hn. apply NoDup_cons in Hn as [Hc Hn]. cbn [update_first fmap list_fmap]. unfold is_client at 1.
  destruct (Z.eqb_spec (c_id c) i) as [<-|]; [|by rewrite IH]. f_equal. symmetry. rewrite <- (list_fmap_id cs) at 2. apply list_fmap_ext. intros k v Hk.
  destruct (Z.eqb_spec (c_id v) (c_id c)) as [E|]; [|done]. exfalso. apply Hc. rewrite <- E. apply list_elem_of_fmap_2. by eapply list_elem_of_lookup_2.
Qed.

Lemma owned_app c ks ls : owned c (ks ++ ls) = owned c ks ++ owned c ls.
Proof. unfold owned. by rewrite filter_app, fmap_app. Qed.

Lemma create_faults `{KernelHeap} w h g e : graphics_create_surface w h g = Err e -> heap_has ((w *[32] h) * 4) = false.
Proof.
  unfold graphics_create_surface, if_initialized_or, create_surface, Surface.Surface_new, Surface.zeroed. destruct g as [g|]; [|done]. destruct (_ || _); [done|]. destruct (_ || _); [done|].
  by destruct (heap_has _).
Qed.

Lemma display_ok_create `{KernelHeap} c t w h s g : display_ok s -> 0 < next_window_id s -> next_window_id s + 1 < 2 ^ 64 ->
  match create_window c t w h s g with
  | Err _ => heap_has ((w *[32] h) * 4) = false
  | Ok (r, s', g') =>
      display_ok s' /\ next_client_id s' = next_client_id s /\ next_window_id s <= next_window_id s' <= next_window_id s + 1 /\
      match r with Ok i => i = next_window_id s /\ focused_window s' = Some i /\ key <$> windows s' = ((fun k => (k.1, false)) <$> (key <$> windows s)) ++ [(i, c, true)] | Err _ => s' = s end
  end.
Proof.
  intros Hok Hp Hn. unfold create_window. destruct (existsb (is_client c) (clients s)) eqn:Ec; cbn [negb]; [|split; [done|]; split; [done|]; split; [lia|done]].
  destruct (graphics_create_surface w h g) as [[[sf|e] g']|e] eqn:Eg; [|split; [done|]; split; [done|]; split; [lia|done]|by eapply create_faults]. cbn zeta. rewrite wrap_small by (unfold in_width; lia).
  set (s1 := set_next_window (next_window_id s + 1) s). destruct Hok as [D1 D2 D3 D4 D5 D6 D7]. assert (display_ok s1) as Hok1.
  { constructor; cbn; try done. eapply Forall_impl; [exact D2|]. cbn beta. lia. }
  destruct (unfocus_spec s1 Hok1) as (Ek & E1 & E2 & E3 & E4). set (win := mkWindow _ _ _ _ _ _ _ _ _ _ _ _ _ _ _ _ _). set (s2 := set_clients _ _ _).
  assert (clients s2 = (fun cl => if c_id cl =? c then mkClient (c_id cl) (c_name cl) (c_windows cl ++ [next_window_id s]) else cl) <$> clients s) as Ecl.
  { unfold s2. cbn [clients set_clients set_windows set_focus]. rewrite E1. apply update_client. done. }
  assert (key <$> windows s2 = ((fun k => (k.1, false)) <$> (key <$> windows s)) ++ [(next_window_id s, c, true)]) as Ekey.
  { unfold s2. cbn [windows set_clients set_windows set_focus]. rewrite fmap_app. cbn [fmap list_fmap]. f_equal. exact Ek. }
  assert (ids (windows s2) = ids (windows s) ++ [next_window_id s]) as Eids.
  { rewrite !ids_key, Ekey, fmap_app. f_equal. by apply ids_map. }
  assert (display_ok s2) as Hok2.
  { assert (next_window_id s2 = next_window_id s + 1 /\ next_client_id s2 = next_client_id s /\ focused_window s2 = Some (next_window_id s)) as (N1 & N2 & N3) by (unfold s2; cbn; by rewrite E3, E4).
    constructor; rewrite ?Eids, ?Ekey, ?N1, ?N2, ?N3, ?Ecl.
    - apply NoDup_app. split; [done|]. split; [|apply NoDup_singleton]. intros i Hi Hi'. apply list_elem_of_singleton in Hi' as ->. rewrite Forall_forall in D2. specialize (D2 _ Hi). lia.
    - apply Forall_app_2; [eapply Forall_impl; [exact D2|]; cbn beta; lia|]. apply Forall_singleton. lia.
    - apply Forall_app_2; [|by apply Forall_singleton]. apply Forall_fmap, Forall_forall. intros k Hk. unfold compose. cbn [fst snd]. split; [done|]. intros [= E]. exfalso.
      assert (k.1.1 ∈ ids (windows s)) as Hi by (rewrite ids_key; by apply (list_elem_of_fmap_2 (fun k : Z * Z * bool => k.1.1))). rewrite Forall_forall in D2. specialize (D2 _ Hi). lia.
    - rewrite <- list_fmap_compose. erewrite list_fmap_ext; [exact D4|]. intros j cl _. unfold compose. by destruct (c_id cl =? c).
    - apply Forall_fmap. eapply Forall_impl; [exact D5|]. intros cl Hcl. unfold compose. by destruct (c_id cl =? c).
    - apply Forall_fmap. eapply Forall_impl; [exact D6|]. intros cl Hcl. unfold compose. rewrite owned_app, owned_map by done. destruct (Z.eqb_spec (c_id cl) c) as [E|E]; cbn [c_windows c_id].
      + rewrite Hcl, owned_one. cbn [fst snd]. by rewrite E, Z.eqb_refl.
      + rewrite Hcl, owned_one. cbn [fst snd]. rewrite (proj2 (Z.eqb_neq c (c_id cl))) by lia. by rewrite app_nil_r.
    - assert (forall i, i ∈ c_id <$> clients s -> i ∈ c_id <$> ((fun cl => if c_id cl =? c then mkClient (c_id cl) (c_name cl) (c_windows cl ++ [next_window_id s]) else cl) <$> clients s)) as Hin.
      { intros i Hi. rewrite <- list_fmap_compose. erewrite list_fmap_ext; [exact Hi|]. intros j cl _. unfold compose. by destruct (c_id cl =? c). }
      apply Forall_app_2; [|apply Forall_singleton].
      + apply Forall_fmap. eapply Forall_impl; [exact D7|]. intros k Hk. unfold compose. cbn [fst snd]. by apply Hin.
      + cbn [fst snd]. apply Hin. apply existsb_exists in Ec as (cl & Hcl & E). apply Z.eqb_eq in E. apply list_elem_of_fmap. exists cl. split; [done|]. by apply list_elem_of_In. }
  destruct (layout_rest s2) as (L1 & L2 & L3 & L4). split; [by apply display_ok_dirty, display_ok_layout|].
  change (next_client_id (set_dirty true (recalculate_layout s2))) with (next_client_id (recalculate_layout s2)). change (next_window_id (set_dirty true (recalculate_layout s2))) with (next_window_id (recalculate_layout s2)).
  change (focused_window (set_dirty true (recalculate_layout s2))) with (focused_window (recalculate_layout s2)). change (windows (set_dirty true (recalculate_layout s2))) with (windows (recalculate_layout s2)).
  rewrite L2, L3, L4, key_layout, Ekey. unfold s2. cbn [next_client_id next_window_id focused_window set_clients set_windows set_focus]. rewrite E3, E4. cbn. split; [done|]. split; [lia|done].
Qed.

(** Taking away the window at [pos]. *)
Lemma key_delete pos (ws : list Window) : key <$> delete pos ws = delete pos (key <$> ws).
Proof. apply list_fmap_delete. Qed.

Lemma filter_keep (i : Z) l : Forall (fun j => j <> i) l -> filter (fun j => j <> i) l = l.
Proof. induction 1 as [|j l Hj _ IH]; [done|]. by rewrite filter_cons_True, IH. Qed.

Lemma owned_delete c pos ks k : NoDup ((fun k => k.1.1) <$> ks) -> ks !! pos = Some k ->
  owned c (delete pos ks) = if k.1.2 =? c then filter (fun j => j <> k.1.1) (owned c ks) else owned c ks.
Proof.
  revert pos. induction ks as [|a ks IH]; intros pos Hn Hk; [done|]. cbn [fmap list_fmap] in Hn. apply NoDup_cons in Hn as [Ha Hn]. destruct pos as [|pos].
  - injection Hk as ->. cbn [delete list_delete]. change (k :: ks) with ([k] ++ ks). rewrite owned_app, owned_one. destruct (k.1.2 =? c); [|done]. rewrite filter_app.
    rewrite filter_cons, decide_False by (by intros []). rewrite filter_nil. cbn [app]. symmetry. apply filter_keep. apply Forall_forall. intros j Hj ->. apply Ha.
    unfold owned in Hj. apply list_elem_of_fmap in Hj as (b & E & Hb). apply list_elem_of_filter in Hb as [_ Hb]. rewrite E. by apply (list_elem_of_fmap_2 (fun k : Z * Z * bool => k.1.1)).
  - change (delete (S pos) (a :: ks)) with ([a] ++ delete pos ks). change (owned c (a :: ks)) with (owned c ([a] ++ ks)). rewrite !owned_app, (IH pos Hn Hk). destruct (k.1.2 =? c); [|done].
    rewrite filter_app. f_equal. rewrite owned_one. destruct (a.1.2 =? c); [|done]. rewrite filter_cons_True; [done|]. intros E. apply Ha. rewrite E.
    apply (list_elem_of_fmap_2 (fun k : Z * Z * bool => k.1.1)). by eapply list_elem_of_lookup_2.
Qed.

Lemma display_ok_destroy i s g : display_ok s -> let '(r, s', g') := destroy_window i s g in
  display_ok s' /\ next_client_id s' = next_client_id s /\ next_window_id s' = next_window_id s /\
  match r with Ok _ => i ∉ ids (windows s') /\ length (windows s') = pred (length (windows s)) | Err _ => s' = s end.
Proof.
  intros Hok. unfold destroy_window. destruct (list_find (fun w => w_id w = i) (windows s)) as [[pos win]|] eqn:Ef; [|done]. apply list_find_Some in Ef as (Hw & Hi & _).
  destruct Hok as [D1 D2 D3 D4 D5 D6 D7]. cbn zeta. set (s1 := set_clients _ _ _).
  assert (windows s1 = delete pos (windows s)) as Ews by done. assert ((key <$> windows s) !! pos = Some (key win)) as Hk by (by rewrite list_lookup_fmap, Hw).
  assert (clients s1 = (fun cl => if c_id cl =? client_id win then mkClient (c_id cl) (c_name cl) (filter (fun j => j <> i) (c_windows cl)) else cl) <$> clients s) as Ecl by (apply update_client; done).
  assert (ids (windows s1) = delete pos (ids (windows s))) as Eids by (rewrite Ews; apply list_fmap_delete).
  assert (i ∉ ids (windows s1)) as Hni.
  { rewrite Eids. intros Hin. assert (ids (windows s) !! pos = Some i) as Hp by (unfold ids; by rewrite list_lookup_fmap, Hw, <- Hi). apply list_elem_of_lookup in Hin as [j Hj].
    destruct (decide (j < pos)%nat) as [Hl|Hl]; [rewrite list_lookup_delete_lt in Hj by done|rewrite list_lookup_delete_ge in Hj by lia];
      pose proof (NoDup_lookup _ _ _ _ D1 Hp Hj); lia. }
  assert (NoDup ((fun k => k.1.1) <$> (key <$> windows s))) as Hnd by (rewrite <- ids_key; done).
  assert (Forall (fun k => k.1.1 <> i) (key <$> windows s1)) as Hne.
  { apply Forall_forall. intros k Hin E. apply Hni. rewrite ids_key, <- E. by apply (list_elem_of_fmap_2 (fun k : Z * Z * bool => k.1.1)). }
  assert (NoDup (ids (windows s1)) /\ Forall (fun j => 0 < j < next_window_id s1) (ids (windows s1)) /\ NoDup (c_id <$> clients s1) /\ Forall (fun c => 0 < c_id c < next_client_id s1) (clients s1) /\
    Forall (fun c => c_windows c = owned (c_id c) (key <$> windows s1)) (clients s1) /\ Forall (fun k => k.1.2 ∈ c_id <$> clients s1) (key <$> windows s1)) as (F1 & F2 & F4 & F5 & F6 & F7).
  { rewrite Eids, Ews, key_delete, Ecl. split; [|split; [|split; [|split; [|split]]]].
    - eapply sublist_NoDup; [exact D1|apply sublist_delete].
    - by apply Forall_delete.
    - rewrite <- list_fmap_compose. erewrite list_fmap_ext; [exact D4|]. intros j cl _. unfold compose. by destruct (c_id cl =? client_id win).
    - apply Forall_fmap. eapply Forall_impl; [exact D5|]. intros cl Hcl. unfold compose. by destruct (c_id cl =? client_id win).
    - apply Forall_fmap. eapply Forall_impl; [exact D6|]. intros cl Hcl. unfold compose. destruct (Z.eqb_spec (c_id cl) (client_id win)) as [E|E]; cbn [c_windows c_id].
      + rewrite Hcl, (owned_delete _ _ _ _ Hnd Hk). cbn [key fst snd]. rewrite (proj2 (Z.eqb_eq _ _)) by done. by rewrite <- Hi.
      + rewrite Hcl, (owned_delete _ _ _ _ Hnd Hk). cbn [key fst snd]. by rewrite (proj2 (Z.eqb_neq _ _)) by done.
    - apply Forall_delete. eapply Forall_impl; [exact D7|]. intros k Hk'. rewrite <- list_fmap_compose. erewrite list_fmap_ext; [exact Hk'|]. intros j cl _. unfold compose. by destruct (c_id cl =? client_id win). }
  assert (display_ok (if bool_decide (focused_window s1 = Some i) then
      match last (windows s1) with
      | Some w => set_windows (update_first (has_id (w_id w)) (set_focused true) (windows s1)) (set_focus (Some (w_id w)) s1)
      | None => set_focus None s1
      end else s1)) as Hok2.
  { assert (Forall (fun k => k.2 = true <-> focused_window s1 = Some k.1.1) (key <$> windows s1)) as D3' by (rewrite Ews, key_delete; by apply Forall_delete).
    assert (display_ok s1) as Hok1 by (by constructor). case_bool_decide as Hfi; [|done]. destruct (last (windows s1)) as [w|] eqn:El.
    - assert (w ∈ windows s1) as Hin by (apply last_Some_elem_of in El; done). eapply (display_ok_refocus s1 _ (fun k => if k.1.1 =? w_id w then (k.1, true) else k)); [done| | | |done|done|done].
      + intros k. by destruct (k.1.1 =? w_id w).
      + cbn [windows set_windows set_focus]. by apply focus_key.
      + cbn [focused_window set_windows set_focus]. apply Forall_fmap. rewrite Forall_forall in D3', Hne |- *. intros k Hk'. unfold compose. destruct (Z.eqb_spec k.1.1 (w_id w)) as [E|E]; cbn [fst snd].
        * rewrite E. done.
        * specialize (D3' k Hk'). specialize (Hne k Hk'). split; [intros Ht; apply D3' in Ht; congruence|intros [= E']; congruence].
    - apply last_None in El. destruct Hok1 as [G1 G2 G3 G4 G5 G6 G7]. constructor; try done. cbn [windows set_focus]. rewrite El. apply Forall_nil_2. }
  revert Hok2. set (s2 := if bool_decide _ then _ else _). intros Hok2. assert (ids (windows s2) = ids (windows s1) /\ next_client_id s2 = next_client_id s /\ next_window_id s2 = next_window_id s /\ length (windows s2) = length (windows s1)) as (I2 & N1 & N2 & L2).
  { unfold s2. case_bool_decide; [|done]. destruct (last (windows s1)) as [w|]; [|done]. cbn [windows set_windows set_focus next_client_id next_window_id]. rewrite update_first_map by done. split; [|split; [done|split; [done|by rewrite length_fmap]]].
    unfold ids. rewrite <- list_fmap_compose. apply list_fmap_ext. intros j v _. unfold compose. by destruct (w_id v =? w_id w). }
  destruct (layout_rest s2) as (_ & _ & L3 & L4). split; [by apply display_ok_dirty, display_ok_layout|]. cbn [next_client_id next_window_id windows set_dirty]. rewrite L3, L4. split; [done|]. split; [done|].
  split; [by rewrite ids_key, key_layout, <- ids_key, I2|]. assert (length (windows (recalculate_layout s2)) = length (windows s2)) as -> by (rewrite <- (length_fmap key (windows (recalculate_layout s2))), key_layout; apply length_fmap).
  rewrite L2, Ews. apply lookup_lt_Some in Hw. rewrite length_delete by (by apply lookup_lt_is_Some_2). lia.
Qed.

Lemma focus_window_ids i s : next_client_id (focus_window i s) = next_client_id s /\ next_window_id (focus_window i s) = next_window_id s.
Proof. unfold focus_window, unfocus. by destruct (focused_window s). Qed.

Lemma display_ok_focus_next s : display_ok s -> display_ok (focus_next s) /\ next_client_id (focus_next s) = next_client_id s /\ next_window_id (focus_next s) = next_window_id s.
Proof.
  intros Hok. unfold focus_next. destruct (windows s) as [|w ws]; [done|]. destruct (_ !! _) as [v|]; [|done]. split; [by apply display_ok_focus|]. apply focus_window_ids.
Qed.

Lemma display_ok_move i nx ny s : display_ok s -> display_ok (move_window i nx ny s) /\ next_client_id (move_window i nx ny s) = next_client_id s /\ next_window_id (move_window i nx ny s) = next_window_id s.
Proof.
  intros Hok. unfold move_window. destruct (existsb _ _); [|done]. set (s1 := set_windows _ _). destruct (layout_rest s1) as (_ & _ & L3 & L4). split; [|by cbn; rewrite L3, L4].
  apply display_ok_dirty, display_ok_layout. apply (display_ok_key s); try done. unfold s1. cbn [windows set_windows]. rewrite update_first_map by apply Hok. apply key_map. intros w. by destruct (w_id w =? i).
Qed.

Lemma display_ok_tick s : display_ok s -> display_ok (tick s).2 /\ next_client_id (tick s).2 = next_client_id s /\ next_window_id (tick s).2 = next_window_id s.
Proof.
  intros Hok. split; [|done]. apply (display_ok_key s); try done. unfold tick. cbn [windows set_windows set_dirty snd]. apply key_map. intros w. unfold compose, tick_window. destruct (negb (visible w)); [done|]. by destruct (_ || _).
Qed.

(** The books are in order, and the counters have room for so many calls more. *)
Definition in_order (n : nat) (sg : DisplayServer * option GraphicsServer) : Prop :=
  display_ok sg.1 /\ 0 < next_window_id sg.1 /\ 0 < next_client_id sg.1 /\ next_window_id sg.1 + Z.of_nat n < 2 ^ 64 /\ next_client_id sg.1 + Z.of_nat n < 2 ^ 64.

Lemma in_order_step n s g s' g' : in_order (S n) (s, g) -> display_ok s' -> next_window_id s <= next_window_id s' <= next_window_id s + 1 ->
  next_client_id s <= next_client_id s' <= next_client_id s + 1 -> in_order n (s', g').
Proof. intros (_ & H1 & H2 & H3 & H4) Hok Hw Hc. unfold in_order in *. cbn [fst] in *. split; [done|lia]. Qed.

Lemma run_display_ok n (c : KernelHeap * DisplayOp) sg : in_order (S n) sg ->
  match run_display (H := c.1) c.2 sg with Ok sg' => in_order n sg' | Err _ => display_halts c end.
Proof.
  destruct c as [heap o], sg as [s g]. intros Hin. pose proof Hin as (Hok & Hw & Hc & Bw & Bc). cbn [fst snd] in *. destruct o as [name|c t w h|i|i| |i nx ny| |]; cbn [run_display].
  - apply (in_order_step _ _ _ _ _ Hin); [apply display_ok_register; [done|lia..]|..]; unfold register_client; cbn [snd next_window_id next_client_id set_clients]; [lia|]. rewrite wrap_small by (unfold in_width; lia). lia.
  - pose proof (display_ok_create c t w h s g Hok Hw ltac:(lia)) as Hd. destruct (create_window c t w h s g) as [[[r s'] g']|e]; [|by eapply (HaltsWindow _ c t w h)].
    destruct Hd as (Hok' & E & B & _). apply (in_order_step _ _ _ _ _ Hin); [done|done|lia].
  - pose proof (display_ok_destroy i s g Hok) as Hd. destruct (destroy_window i s g) as [[r s'] g']. destruct Hd as (Hok' & E & B & _). apply (in_order_step _ _ _ _ _ Hin); [done|lia|lia].
  - destruct (focus_window_ids i s) as [E1 E2]. apply (in_order_step _ _ _ _ _ Hin); [by apply display_ok_focus|lia|lia].
  - destruct (display_ok_focus_next s Hok) as (Hok' & E1 & E2). apply (in_order_step _ _ _ _ _ Hin); [done|lia|lia].
  - destruct (display_ok_move i nx ny s Hok) as (Hok' & E1 & E2). apply (in_order_step _ _ _ _ _ Hin); [done|lia|lia].
  - destruct (display_ok_tick s Hok) as (Hok' & E1 & E2). apply (in_order_step _ _ _ _ _ Hin); [done|lia|lia].
  - apply (in_order_step _ _ _ _ _ Hin); [by apply display_ok_dirty|cbn; lia|cbn; lia].
Qed.

Lemma display_start w h : display_ok (DisplayServer_new w h).
Proof. constructor; cbn; try apply Forall_nil_2; apply NoDup_nil_2. Qed.

(** C19: The server keeps its books: after any sequence of calls, each on whatever heap,
    window identifiers are distinct, the window that is marked as focused is exactly the one
    that the server names, every window belongs to a registered client, and every client
    lists its windows, each once and in their order.  Only the surface of a new window ends
    the sequence early, if the heap has no room for it. *)
Theorem display_invariant w h ops g : Z.of_nat (length ops) < 2 ^ 64 - 2 ->
  match run_displays ops (DisplayServer_new w h, g) with
  | Ok sg => display_ok sg.1
  | Err _ => exists before c after sg, ops = before ++ c :: after /\ run_displays before (DisplayServer_new w h, g) = Ok sg /\ display_ok sg.1 /\ display_halts c
  end.
Proof.
  intros Hn. assert (in_order (length ops) (DisplayServer_new w h, g)) as Hs by (split; [apply display_start|cbn; lia]).
  pose proof (for_each_inv (fun _ : KernelHeap * DisplayOp => True) in_order (fun _ c _ => display_halts c) (fun c sg => run_display (H := c.1) c.2 sg)
    (fun n c sg _ => run_display_ok n c sg) ops (DisplayServer_new w h, g)
    (Forall_true _ ops (fun _ => I)) Hs) as Hf. fold (run_displays ops) in Hf.
  destruct (run_displays ops _) as [sg|e].
  - apply Hf.
  - destruct Hf as (before & c & after & sg & E & Eb & (Hok & _) & Hh). by exists before, c, after, sg.
Qed.

(** ** Witnesses *)

(** Fourteen windows on a screen of 1024 by 768: the gap is wider than the half that the
    thirteenth is to get, and its width wraps around. *)
Definition demo_calls (n : nat) : list (KernelHeap * DisplayOp) :=
  map (pair (Surface.room 1024)) (RegisterClient "shell" :: replicate n (CreateWindow 1 "Terminal" 4 4))%string.

Definition demo_graphics : option GraphicsServer := Some (GraphicsServer_new (replicate 4 0) 2 2 8).

Definition demo_windows (n : nat) : Result (DisplayServer * option GraphicsServer) Surface.Fault := run_displays (demo_calls n) (DisplayServer_new 1024 768, demo_graphics).

Definition demo_display (n : nat) : DisplayServer := match demo_windows n with Ok sg => sg.1 | Err _ => DisplayServer_new 0 0 end.

Definition fourteen : DisplayServer := demo_display 14.

Lemma too_many_tiles : map (fun w => target w) (drop 12 (windows fourteen)) = [(998, 706, 2 ^ 32 - 2, 12); (1006, 706, 8, 12)].
Proof. vm_compute. reflexivity. Qed.

Definition four : DisplayServer := demo_display 4.

Lemma tiles_disjoint_witness : screen_ok four /\ map target (windows (recalculate_layout four)) = [(10, 10, 492, 708); (512, 10, 502, 344); (512, 364, 241, 354); (763, 364, 251, 354)] /\
  disjoint_rects (512, 364, 241, 354) (763, 364, 251, 354).
Proof.
  assert (screen_ok four) as Hs by (constructor; vm_compute; split; congruence). split; [exact Hs|]. split; [vm_compute; reflexivity|].
  destruct (tiles_disjoint four Hs eq_refl) as [_ H]; [vm_compute; reflexivity|].
  assert (exists v w, windows (recalculate_layout four) !! 2%nat = Some v /\ windows (recalculate_layout four) !! 3%nat = Some w /\
    target v = (512, 364, 241, 354) /\ target w = (763, 364, 251, 354)) as (v & w & Ev & Ew & <- & <-) by (vm_compute; do 2 eexists; split; [reflexivity|]; split; [reflexivity|]; split; reflexivity).
  apply (H 2%nat 3%nat); [apply (bool_decide_unpack _); vm_compute; exact I|apply (bool_decide_unpack _); vm_compute; exact I|lia|exact Ev|exact Ew].
Defined.

Definition window_check (w : Window) : bool :=
  forallb (fun z => (- 2 ^ 29 <=? z) && (z <=? 2 ^ 29)) [x w; target_x w; y w; target_y w; width w; target_width w; height w; target_height w] &&
  forallb (fun z => 0 <=? z) [width w; target_width w; height w; target_height w].

Lemma window_check_ok w : window_check w = true -> window_ok w.
Proof. unfold window_check. cbn [forallb]. intros H. repeat (apply andb_true_iff in H as [H ?]). constructor; unfold moderate; lia. Qed.

Lemma windows_check_ok ws : forallb window_check ws = true -> Forall window_ok ws.
Proof. intros H. apply Forall_forall. intros v Hv. apply window_check_ok. exact (proj1 (forallb_forall window_check ws) H v (proj1 (list_elem_of_In ws v) Hv)). Qed.

Lemma animation_stalls_witness : Forall window_ok (windows four) /\ (tick (ticks 1000 four)).1 = true.
Proof.
  assert ((true, [-502; -374; 442; 658]) ∈ (fun w => (visible w, dist w)) <$> windows four) as Hin.
  { apply list_elem_of_lookup. exists 0%nat. rewrite list_lookup_fmap. vm_compute. reflexivity. }
  apply list_elem_of_fmap in Hin as (w & Ew & Hin). injection Ew as Hv Hd.
  assert (Forall window_ok (windows four)) as Hw by (apply windows_check_ok; vm_compute; reflexivity).
  split; [exact Hw|]. destruct (animation_stalls four Hw) as [_ Hall]. apply (Hall w Hin (eq_sym Hv)). unfold dist. rewrite <- Hd. apply Exists_cons. left. lia.
Defined.

Lemma display_invariant_witness : exists sg, run_displays (demo_calls 4) (DisplayServer_new 1024 768, demo_graphics) = Ok sg /\ length (windows sg.1) = 4%nat /\ display_ok sg.1.
Proof.
  assert (exists sg, run_displays (demo_calls 4) (DisplayServer_new 1024 768, demo_graphics) = Ok sg /\ length (windows sg.1) = 4%nat) as (sg & E & L) by (vm_compute; eexists; split; reflexivity).
  exists sg. split; [exact E|]. split; [exact L|]. pose proof (display_invariant 1024 768 (demo_calls 4) demo_graphics) as H. rewrite E in H. apply H. reflexivity.
Defined.
