(* ===== verification/Console.v ===== *)
(** * The text console ([drivers/framebuffer.rs])

    Characters drawn into the framebuffer, with a cursor, line wrapping and scrolling.
    The glyphs come from a font library, which is a parameter.  Theorems: no sequence of
    calls, with any cursor that a program can set, writes outside the framebuffer; a
    console that was cleared shows the rows of the text printed since, the last row at
    the cursor and the others above it, and nothing else. *)

From Stdlib Require Import ZArith Lia Bool.
From stdpp Require Import base numbers option list sorting.
From S2P Require Import Prelude Compositor.

Open Scope Z_scope.

(** ** Data *)

(** A glyph of the font: its width and its rows of intensities. *)
Record Raster : Type := mkRaster { raster_width : Z; raster : list (list Z) }.

Definition CHAR_WIDTH : Z := 12.
Definition CHAR_HEIGHT : Z := 20.
Definition LINE_HEIGHT : Z := 23.

(** [fb_mem] is the memory at [addr], in pixels; [fb_x] and [fb_y] are the cursor. *)
Record Framebuffer : Type := mkFb {
  fb_mem : list Z; fb_width : Z; fb_height : Z; fb_pitch : Z; fb_x : Z; fb_y : Z; fg_color : Z; bg_color : Z
}.

Inductive Crash : Type := DivideByZero | OutOfFramebuffer.

Definition set_mem (m : list Z) (fb : Framebuffer) : Framebuffer :=
  mkFb m (fb_width fb) (fb_height fb) (fb_pitch fb) (fb_x fb) (fb_y fb) (fg_color fb) (bg_color fb).
Definition set_cursor_pos (x y : Z) (fb : Framebuffer) : Framebuffer :=
  mkFb (fb_mem fb) (fb_width fb) (fb_height fb) (fb_pitch fb) x y (fg_color fb) (bg_color fb).
Definition set_fg_color (c : Z) (fb : Framebuffer) : Framebuffer :=
  mkFb (fb_mem fb) (fb_width fb) (fb_height fb) (fb_pitch fb) (fb_x fb) (fb_y fb) c (bg_color fb).
Definition set_bg_color (c : Z) (fb : Framebuffer) : Framebuffer :=
  mkFb (fb_mem fb) (fb_width fb) (fb_height fb) (fb_pitch fb) (fb_x fb) (fb_y fb) (fg_color fb) c.
Definition set_x (x : Z) (fb : Framebuffer) : Framebuffer := set_cursor_pos x (fb_y fb) fb.
Definition set_y (y : Z) (fb : Framebuffer) : Framebuffer := set_cursor_pos (fb_x fb) y fb.

(** [write_volatile] at an offset from [addr]. *)
Definition write_at (off v : Z) (fb : Framebuffer) : Result Framebuffer Crash :=
  if off <? Z.of_nat (length (fb_mem fb)) then Ok (set_mem (<[Z.to_nat off := v]> (fb_mem fb)) fb) else Err OutOfFramebuffer.

(** A loop that [break]s. *)
Fixpoint for_until {S E} (n : nat) (i : Z) (stop : Z -> bool) (body : Z -> S -> Result S E) (s : S) : Result S E :=
  match n with
  | O => Ok s
  | Datatypes.S n => if stop i then Ok s else match body i s with Ok s' => for_until n (i + 1) stop body s' | Err e => Err e end
  end.

(** ** Operations *)

Definition Framebuffer_new (mem : list Z) (width height pitch bpp : Z) : Result Framebuffer Crash :=
  if bpp / 8 =? 0 then Err DivideByZero else Ok (mkFb mem width height (pitch / (bpp / 8)) 0 0 0xFFFFFF 0).

Definition clear_with_color (color : Z) (fb : Framebuffer) : Result Framebuffer Crash :=
  for_range 0 (fb_height fb) (fun y =>
    let row_offset := y *[64] fb_pitch fb in
    for_range 0 (fb_width fb) (fun x => write_at (row_offset +[64] x) color)) fb.

Definition clear (fb : Framebuffer) : Result Framebuffer Crash :=
  match clear_with_color (bg_color fb) fb with Ok fb => Ok (set_cursor_pos 0 0 fb) | Err e => Err e end.

Definition put_pixel (x y color : Z) (fb : Framebuffer) : Result Framebuffer Crash :=
  if (fb_width fb <=? x) || (fb_height fb <=? y) then Ok fb
  else write_at ((y *[64] fb_pitch fb) +[64] x) color fb.

(** [core::ptr::copy] of [n] pixels to the start of the memory. *)
Definition copy_up (from n : Z) (fb : Framebuffer) : Result Framebuffer Crash :=
  if from + n <=? Z.of_nat (length (fb_mem fb)) then
    Ok (set_mem (take (Z.to_nat n) (drop (Z.to_nat from) (fb_mem fb)) ++ drop (Z.to_nat n) (fb_mem fb)) fb)
  else Err OutOfFramebuffer.

Definition scroll (fb : Framebuffer) : Result Framebuffer Crash :=
  let lines_to_copy := fb_height fb -[64] LINE_HEIGHT in
  match copy_up (LINE_HEIGHT *[64] fb_pitch fb) (lines_to_copy *[64] fb_pitch fb) fb with
  | Err e => Err e
  | Ok fb =>
      let clear_start := lines_to_copy *[64] fb_pitch fb in
      match for_range 0 (LINE_HEIGHT *[64] fb_pitch fb) (fun i => write_at (clear_start + i) (bg_color fb)) fb with
      | Err e => Err e
      | Ok fb => Ok (set_y (fb_height fb -[64] LINE_HEIGHT) fb)
      end
  end.

(** The test of a pixel of a character before it is drawn, and two nested loops of them. *)
Definition put_visible (x y color : Z) (fb : Framebuffer) : Result Framebuffer Crash :=
  if (x <? fb_width fb) && (y <? fb_height fb) then put_pixel x y color fb else Ok fb.

Definition draw_box (w h : Z) (color : Z -> Z -> Z) (fb : Framebuffer) : Result Framebuffer Crash :=
  for_range 0 h (fun row => for_range 0 w (fun col => put_visible (fb_x fb +[64] col) (fb_y fb +[64] row) (color row col))) fb.

Definition backspace (fb : Framebuffer) : Result Framebuffer Crash :=
  if CHAR_WIDTH <=? fb_x fb then
    let fb := set_x (fb_x fb - CHAR_WIDTH) fb in draw_box CHAR_WIDTH CHAR_HEIGHT (fun _ _ => bg_color fb) fb
  else if LINE_HEIGHT <=? fb_y fb then
    let cols := fb_width fb / CHAR_WIDTH in
    let fb := set_cursor_pos ((cols -[64] 1) *[64] CHAR_WIDTH) (fb_y fb - LINE_HEIGHT) fb in
    draw_box CHAR_WIDTH CHAR_HEIGHT (fun _ _ => bg_color fb) fb
  else Ok fb.

Definition is_border (row col : Z) : bool := (row =? 0) || (row =? CHAR_HEIGHT - 1) || (col =? 0) || (col =? CHAR_WIDTH - 1).

Definition draw_replacement_char (fg bg : Z) (fb : Framebuffer) : Result Framebuffer Crash :=
  match draw_box CHAR_WIDTH CHAR_HEIGHT (fun row col => if is_border row col then fg else bg) fb with
  | Ok fb => Ok (set_x (fb_x fb +[64] CHAR_WIDTH) fb)
  | Err e => Err e
  end.

(** The colour of a pixel of a glyph; the products of bytes fit the 32 bits. *)
Definition blend (fg bg intensity k : Z) : Z :=
  (Z.land (Z.shiftr fg k) 0xFF * intensity + Z.land (Z.shiftr bg k) 0xFF * (255 - intensity)) / 255.

Definition glyph_color (fg bg intensity : Z) : Z :=
  if 127 <? intensity then fg
  else Z.lor (Z.lor (Z.shiftl (blend fg bg intensity 16) 16) (Z.shiftl (blend fg bg intensity 8) 8)) (blend fg bg intensity 0).

Definition draw_raster (fg bg : Z) (g : Raster) (fb : Framebuffer) : Result Framebuffer Crash :=
  for_range 0 (Z.of_nat (length (raster g))) (fun row_idx =>
    let row := nth (Z.to_nat row_idx) (raster g) [] in
    for_range 0 (Z.of_nat (length row)) (fun col_idx =>
      let intensity := nth (Z.to_nat col_idx) row 0 in
      if 0 <? intensity then put_visible (fb_x fb +[64] col_idx) (fb_y fb +[64] row_idx) (glyph_color fg bg intensity) else Ok)) fb.

(** The cursor at the start of the next line. *)
Definition next_line (fb : Framebuffer) : Result Framebuffer Crash :=
  let fb := set_cursor_pos 0 (fb_y fb +[64] LINE_HEIGHT) fb in
  if fb_height fb <? fb_y fb +[64] LINE_HEIGHT then scroll fb else Ok fb.

Section Font.
Context (get_raster : Z -> option Raster).

Definition draw_glyph (c fg bg : Z) (fb : Framebuffer) : Result Framebuffer Crash :=
  match get_raster c with
  | Some g =>
      match draw_box (raster_width g) CHAR_HEIGHT (fun _ _ => bg) fb with
      | Err e => Err e
      | Ok fb => match draw_raster fg bg g fb with Ok fb => Ok (set_x (fb_x fb +[64] raster_width g) fb) | Err e => Err e end
      end
  | None => draw_replacement_char fg bg fb
  end.

Definition draw_char (c fg bg : Z) (fb : Framebuffer) : Result Framebuffer Crash :=
  if c =? 10 then next_line fb
  else if c =? 13 then Ok (set_x 0 fb)
  else if c =? 9 then
    let tab_size := 4 * CHAR_WIDTH in
    let next_tab := (fb_x fb / tab_size + 1) *[64] tab_size in
    if fb_width fb <=? next_tab then next_line fb else Ok (set_x next_tab fb)
  else if (c =? 8) || (c =? 127) then backspace fb
  else match draw_glyph c fg bg fb with
       | Err e => Err e
       | Ok fb => if fb_width fb <? fb_x fb +[64] CHAR_WIDTH then next_line fb else Ok fb
       end.

(** The characters of a string, one after the other. *)
Fixpoint write_chars (fg : Z) (s : list Z) (fb : Framebuffer) : Result Framebuffer Crash :=
  match s with
  | [] => Ok fb
  | c :: s => match draw_char c fg (bg_color fb) fb with Ok fb => write_chars fg s fb | Err e => Err e end
  end.

Definition write_str_colored (s : list Z) (fg : Z) : Framebuffer -> Result Framebuffer Crash := write_chars fg s.
Definition write_str (s : list Z) (fb : Framebuffer) : Result Framebuffer Crash := write_chars (fg_color fb) s fb.

Definition draw_char_at (c x y fg bg : Z) (fb : Framebuffer) : Result Framebuffer Crash :=
  match draw_char c fg bg (set_cursor_pos x y fb) with Ok fb' => Ok (set_cursor_pos (fb_x fb) (fb_y fb) fb') | Err e => Err e end.

Definition clear_from (start_x : Z) (fb : Framebuffer) : Result Framebuffer Crash :=
  for_range 0 LINE_HEIGHT (fun row => for_range start_x (fb_width fb) (fun x => put_pixel x (fb_y fb +[64] row) (bg_color fb))) fb.

Definition fb_clear_line (fb : Framebuffer) : Result Framebuffer Crash := clear_from (fb_x fb) fb.

Definition fb_clear_current_line (fb : Framebuffer) : Result Framebuffer Crash :=
  match clear_from 0 fb with Ok fb => Ok (set_x 0 fb) | Err e => Err e end.

(** ** The console of the kernel *)

(** Nothing happens before [init] has found a framebuffer. *)
Definition on_fb (f : Framebuffer -> Result Framebuffer Crash) (o : option Framebuffer) : Result (option Framebuffer) Crash :=
  match o with Some fb => match f fb with Ok fb => Ok (Some fb) | Err e => Err e end | None => Ok None end.

Definition print (s : list Z) : option Framebuffer -> Result (option Framebuffer) Crash := on_fb (write_str s).
Definition print_colored (s : list Z) (color : Z) : option Framebuffer -> Result (option Framebuffer) Crash := on_fb (write_str_colored s color).

Definition print_char (c color : Z) : option Framebuffer -> Result (option Framebuffer) Crash := on_fb (fun fb =>
  match draw_char c color (bg_color fb) (set_fg_color color fb) with Ok fb' => Ok (set_fg_color (fg_color fb) fb') | Err e => Err e end).

Definition get_cursor_pos (o : option Framebuffer) : Z * Z := match o with Some fb => (fb_x fb, fb_y fb) | None => (0, 0) end.
Definition get_dimensions (o : option Framebuffer) : Z * Z := match o with Some fb => (fb_width fb, fb_height fb) | None => (0, 0) end.

(** Rounds of two loops that stop at the edges of the screen. *)
Definition draw_rect (x y w h : Z) (pixel : Z -> Z -> option Z) (fb : Framebuffer) : Result Framebuffer Crash :=
  for_until (Z.to_nat h) 0 (fun dy => fb_height fb <=? y +[64] dy) (fun dy =>
    for_until (Z.to_nat w) 0 (fun dx => fb_width fb <=? x +[64] dx) (fun dx fb =>
      match pixel dx dy with Some c => put_pixel (x +[64] dx) (y +[64] dy) c fb | None => Ok fb end)) fb.

Definition blit_buffer (pixels : list Z) (x y w h : Z) : option Framebuffer -> Result (option Framebuffer) Crash :=
  on_fb (draw_rect x y w h (fun dx dy => pixels !! Z.to_nat ((dy *[64] w) +[64] dx))).

Definition fill_rect (x y w h color : Z) : option Framebuffer -> Result (option Framebuffer) Crash :=
  on_fb (draw_rect x y w h (fun _ _ => Some color)).
End Font.

(** ** Nothing outside the framebuffer *)

(** A framebuffer of a real screen, with room for a line of text; the cursor may be anywhere. *)
Record fb_ok (fb : Framebuffer) : Prop := {
  ok_width : 0 <= fb_width fb <= fb_pitch fb;
  ok_pitch : fb_pitch fb < 2 ^ 24;
  ok_height : LINE_HEIGHT <= fb_height fb < 2 ^ 24;
  ok_mem : fb_pitch fb * fb_height fb <= Z.of_nat (length (fb_mem fb));
  ok_cursor : in_width 64 (fb_x fb) /\ in_width 64 (fb_y fb)
}.

Definition same_size (fb fb' : Framebuffer) : Prop :=
  fb_width fb' = fb_width fb /\ fb_height fb' = fb_height fb /\ fb_pitch fb' = fb_pitch fb /\ length (fb_mem fb') = length (fb_mem fb).

(** An operation that always succeeds and leaves the framebuffer in order. *)
Definition safe (f : Framebuffer -> Result Framebuffer Crash) : Prop :=
  forall fb, fb_ok fb -> exists fb', f fb = Ok fb' /\ fb_ok fb' /\ same_size fb fb'.

Lemma same_size_trans fb fb1 fb2 : same_size fb fb1 -> same_size fb1 fb2 -> same_size fb fb2.
Proof. unfold same_size. intros (? & ? & ? & ?) (? & ? & ? & ?). repeat split; congruence. Qed.

Lemma fb_ok_size fb fb' : fb_ok fb -> same_size fb fb' -> in_width 64 (fb_x fb') -> in_width 64 (fb_y fb') -> fb_ok fb'.
Proof. intros [H1 H2 H3 H4 _] (E1 & E2 & E3 & E4) Hx Hy. split; rewrite ?E1, ?E2, ?E3, ?E4; done. Qed.

Lemma safe_ok (f : Framebuffer -> Framebuffer) : (forall fb, fb_ok fb -> same_size fb (f fb) /\ in_width 64 (fb_x (f fb)) /\ in_width 64 (fb_y (f fb))) -> safe (fun fb => Ok (f fb)).
Proof. intros Hf fb Hok. destruct (Hf fb Hok) as (Hs & Hx & Hy). exists (f fb). split; [done|]. split; [by apply (fb_ok_size fb)|done]. Qed.

Lemma safe_id : safe Ok.
Proof. apply (safe_ok (fun fb => fb)). intros fb Hok. split; [done|apply Hok]. Qed.

Lemma safe_seq f g : safe f -> safe g -> safe (fun fb => match f fb with Ok fb' => g fb' | Err e => Err e end).
Proof.
  intros Hf Hg fb Hok. destruct (Hf fb Hok) as (fb1 & -> & H1 & S1). destruct (Hg fb1 H1) as (fb2 & -> & H2 & S2).
  exists fb2. split; [done|]. split; [done|]. by apply (same_size_trans _ fb1).
Qed.

(** An operation may look at its state to decide what to do. *)
Lemma safe_read (f : Framebuffer -> Framebuffer -> Result Framebuffer Crash) : (forall fb0, fb_ok fb0 -> safe (f fb0)) -> safe (fun fb => f fb fb).
Proof. intros Hf fb Hok. by apply (Hf fb Hok fb). Qed.

Lemma safe_range a b (body : Z -> Framebuffer -> Result Framebuffer Crash) : (forall i, a <= i < b -> safe (body i)) -> safe (for_range a b body).
Proof.
  intros Hb fb Hok. destruct (decide (a <= b)) as [Hab|Hab]; [|unfold for_range; replace (Z.to_nat (b - a)) with O by lia; by apply safe_id].
  destruct (for_range_inv (fun _ fb' => fb_ok fb' /\ same_size fb fb') a b body fb Hab) as (fb' & E & Hok' & Hs); [split; [done|by repeat split]| |by exists fb'].
  intros i fb1 Hi [H1 S1]. destruct (Hb i Hi fb1 H1) as (fb2 & E & H2 & S2). exists fb2. split; [done|]. split; [done|]. by apply (same_size_trans _ fb1).
Qed.

Lemma safe_until stop (body : Z -> Framebuffer -> Result Framebuffer Crash) : (forall i, stop i = false -> safe (body i)) -> forall n i, safe (for_until n i stop body).
Proof.
  intros Hb n. induction n as [|n IH]; intros i; cbn [for_until]; [apply safe_id|]. destruct (stop i) eqn:E; [apply safe_id|]. apply (safe_seq (body i)); [by apply Hb|apply IH].
Qed.

Lemma write_at_ok off v fb : 0 <= off < Z.of_nat (length (fb_mem fb)) -> write_at off v fb = Ok (set_mem (<[Z.to_nat off := v]> (fb_mem fb)) fb).
Proof. intros H. unfold write_at. by rewrite (proj2 (Z.ltb_lt off _)) by lia. Qed.

(** The offset of a pixel of the screen does not wrap. *)
Lemma offset_ok fb x y : fb_ok fb -> 0 <= x < fb_pitch fb -> 0 <= y < fb_height fb ->
  (y *[64] fb_pitch fb) +[64] x = y * fb_pitch fb + x /\ 0 <= y * fb_pitch fb + x < Z.of_nat (length (fb_mem fb)).
Proof.
  intros [Hw Hp Hh Hm _] Hx Hy. split; [|nia]. assert (y * fb_pitch fb + x < 2 ^ 48) by nia. rewrite !wrap_small; [done|..]; unfold in_width; rewrite ?wrap_small; unfold in_width; nia.
Qed.

Lemma write_at_safe off v fb : fb_ok fb -> 0 <= off < Z.of_nat (length (fb_mem fb)) -> exists fb', write_at off v fb = Ok fb' /\ fb_ok fb' /\ same_size fb fb'.
Proof.
  intros Hok Ho. rewrite write_at_ok by done. eexists. split; [done|]. assert (same_size fb (set_mem (<[Z.to_nat off := v]> (fb_mem fb)) fb)) as Hs by (repeat split; apply length_insert).
  split; [|done]. apply (fb_ok_size fb); [done|done|apply Hok..].
Qed.

Lemma safe_put_pixel x y color : 0 <= x -> 0 <= y -> safe (put_pixel x y color).
Proof.
  intros Hx Hy fb Hok. unfold put_pixel. destruct (Z.leb_spec (fb_width fb) x), (Z.leb_spec (fb_height fb) y); cbn [orb]; try by apply safe_id.
  pose proof (ok_width fb Hok). destruct (offset_ok fb x y) as [-> Hb]; [done|lia|lia|]. by apply write_at_safe.
Qed.

Lemma scroll_values fb : fb_ok fb -> fb_height fb -[64] LINE_HEIGHT = fb_height fb - LINE_HEIGHT /\ LINE_HEIGHT *[64] fb_pitch fb = LINE_HEIGHT * fb_pitch fb /\
  (fb_height fb - LINE_HEIGHT) *[64] fb_pitch fb = (fb_height fb - LINE_HEIGHT) * fb_pitch fb.
Proof. intros [Hw Hp Hh Hm _]. unfold LINE_HEIGHT in *. rewrite !wrap_small; [done|..]; unfold in_width; nia. Qed.

(** Scrolling in terms of the memory: the rows move up and the last ones are cleared. *)
Definition scrolled (fb : Framebuffer) : Framebuffer :=
  let n := (fb_height fb - LINE_HEIGHT) * fb_pitch fb in
  set_y (fb_height fb - LINE_HEIGHT)
    (set_mem (take (Z.to_nat n) (drop (Z.to_nat (LINE_HEIGHT * fb_pitch fb)) (fb_mem fb)) ++ replicate (Z.to_nat (LINE_HEIGHT * fb_pitch fb)) (bg_color fb)
              ++ drop (Z.to_nat (fb_height fb * fb_pitch fb)) (fb_mem fb)) fb).

(** A loop that writes one value to consecutive words. *)
Lemma fill_loop off n v fb : 0 <= off -> 0 <= n -> off + n <= Z.of_nat (length (fb_mem fb)) ->
  for_range 0 n (fun i => write_at (off + i) v) fb =
  Ok (set_mem (take (Z.to_nat off) (fb_mem fb) ++ replicate (Z.to_nat n) v ++ drop (Z.to_nat (off + n)) (fb_mem fb)) fb).
Proof.
  intros Ho Hn Hl. destruct (for_range_inv (fun i fb' => fb' = set_mem (take (Z.to_nat off) (fb_mem fb) ++ replicate (Z.to_nat i) v ++ drop (Z.to_nat (off + i)) (fb_mem fb)) fb)
    0 n (fun i => write_at (off + i) v) fb Hn) as (fb' & -> & ->); [| |done].
  - change (replicate (Z.to_nat 0) v) with (@nil Z). rewrite Z.add_0_r, app_nil_l, take_drop. by destruct fb.
  - intros i fb1 Hi ->. set (m := fb_mem fb) in *. rewrite write_at_ok.
    2:{ cbn [fb_mem set_mem]. rewrite !length_app, length_take, length_replicate, length_drop. lia. }
    eexists. split; [done|]. unfold set_mem. cbn [fb_mem fb_width fb_height fb_pitch fb_x fb_y fg_color bg_color]. f_equal.
    rewrite insert_app_r_alt by (rewrite length_take; lia). f_equal. rewrite insert_app_r_alt by (rewrite length_replicate, length_take; lia).
    rewrite length_replicate, length_take. replace (Z.to_nat (off + i) - (Z.to_nat off `min` length m) - Z.to_nat i)%nat with O by lia.
    destruct (lookup_lt_is_Some_2 m (Z.to_nat (off + i))) as [x Hx]; [lia|]. rewrite (drop_S _ x) by done. cbn [insert list_insert].
    replace (Z.to_nat (i + 1)) with (Z.to_nat i + 1)%nat by lia. rewrite replicate_add, <- app_assoc. cbn [replicate app]. f_equal. f_equal. f_equal. lia.
Qed.

Lemma scroll_spec fb : fb_ok fb -> scroll fb = Ok (scrolled fb) /\ same_size fb (scrolled fb).
Proof.
  intros Hok. destruct (scroll_values fb Hok) as (E1 & E2 & E3). destruct Hok as [Hw Hp Hh Hm Hc]. unfold LINE_HEIGHT in Hh. unfold scroll, copy_up. rewrite E1, E2, E3.
  set (n := (fb_height fb - LINE_HEIGHT) * fb_pitch fb) in *. set (k := LINE_HEIGHT * fb_pitch fb) in *. assert (0 <= n) by (unfold n, LINE_HEIGHT; nia). assert (0 <= k) by (unfold k, LINE_HEIGHT; nia).
  assert (k + n = fb_height fb * fb_pitch fb) as Ekn by (unfold k, n; ring). set (m := fb_mem fb) in *. rewrite (proj2 (Z.leb_le (k + n) _)) by lia.
  set (m1 := take (Z.to_nat n) (drop (Z.to_nat k) m) ++ drop (Z.to_nat n) m).
  assert (length m1 = length m) as L1 by (unfold m1; rewrite length_app, length_take, !length_drop; lia).
  change (fb_pitch (set_mem m1 fb)) with (fb_pitch fb). change (bg_color (set_mem m1 fb)) with (bg_color fb). fold k n. rewrite E2, E3.
  rewrite fill_loop; [|done|done|cbn [fb_mem set_mem]; lia]. cbn [fb_mem set_mem]. change (fb_height (set_mem _ (set_mem m1 fb))) with (fb_height fb). rewrite E1.
  assert (take (Z.to_nat n) m1 = take (Z.to_nat n) (drop (Z.to_nat k) m)) as T1 by (unfold m1; rewrite take_app_length'; [done|rewrite length_take, length_drop; lia]).
  assert (drop (Z.to_nat (n + k)) m1 = drop (Z.to_nat (fb_height fb * fb_pitch fb)) m) as T2.
  { unfold m1. rewrite drop_app_ge by (rewrite length_take, length_drop; lia). rewrite length_take, length_drop, drop_drop. f_equal. lia. }
  rewrite T1, T2. split; [exact eq_refl|]. unfold scrolled, same_size. cbn [set_y set_cursor_pos set_mem fb_width fb_height fb_pitch fb_mem]. repeat split.
  rewrite !length_app, length_take, length_replicate, !length_drop. fold k n m. lia.
Qed.

Lemma safe_scroll : safe scroll.
Proof.
  intros fb Hok. destruct (scroll_spec fb Hok) as [E Hs]. exists (scrolled fb). split; [done|]. split; [|done]. apply (fb_ok_size fb); [done|done|apply Hok|].
  pose proof (ok_height fb Hok). unfold LINE_HEIGHT in *. cbn [scrolled set_y set_cursor_pos fb_y]. unfold in_width, LINE_HEIGHT. lia.
Qed.

Lemma wrap_nonneg z : 0 <= wrap 64 z.
Proof. apply Z.mod_pos_bound. lia. Qed.
#[local] Hint Resolve wrap_nonneg : core.

Lemma safe_cursor (f : Framebuffer -> Z * Z) : (forall fb, fb_ok fb -> in_width 64 (f fb).1 /\ in_width 64 (f fb).2) -> safe (fun fb => Ok (set_cursor_pos (f fb).1 (f fb).2 fb)).
Proof. intros Hf. apply safe_ok. intros fb Hok. split; [by repeat split|by apply Hf]. Qed.

Lemma safe_put_visible x y color : 0 <= x -> 0 <= y -> safe (put_visible x y color).
Proof. intros Hx Hy fb Hok. unfold put_visible. destruct (_ && _); [by apply safe_put_pixel|by apply safe_id]. Qed.

Lemma safe_draw_box w h color : safe (draw_box w h color).
Proof.
  apply (safe_read (fun fb0 => for_range 0 h (fun row => for_range 0 w (fun col => put_visible (fb_x fb0 +[64] col) (fb_y fb0 +[64] row) (color row col))))).
  intros fb0 _. apply safe_range. intros row _. apply safe_range. intros col _. by apply safe_put_visible.
Qed.

Lemma safe_set_x (f : Framebuffer -> Z) : (forall fb, fb_ok fb -> in_width 64 (f fb)) -> safe (fun fb => Ok (set_x (f fb) fb)).
Proof. intros Hf. apply (safe_cursor (fun fb => (f fb, fb_y fb))). intros fb Hok. split; [by apply Hf|apply Hok]. Qed.

Lemma in_width_wrap64 z : in_width 64 (wrap 64 z).
Proof. by apply wrap_in_width. Qed.
#[local] Hint Resolve in_width_wrap64 : core.

Lemma safe_backspace : safe backspace.
Proof.
  intros fb Hok. unfold backspace. destruct (ok_cursor fb Hok) as [[? ?] [? ?]]. destruct (Z.leb_spec CHAR_WIDTH (fb_x fb)); [|destruct (Z.leb_spec LINE_HEIGHT (fb_y fb)); [|by apply safe_id]]; unfold CHAR_WIDTH, LINE_HEIGHT in *.
  - assert (in_width 64 (fb_x fb - 12)) as Hx by (unfold in_width; lia).
    destruct (safe_set_x (fun _ => fb_x fb - 12) (fun _ _ => Hx) fb Hok) as (fb1 & [= <-] & Hok1 & S1).
    destruct (safe_draw_box 12 CHAR_HEIGHT (fun _ _ => bg_color (set_x (fb_x fb - 12) fb)) _ Hok1) as (fb2 & E & Hok2 & S2). exists fb2. split; [exact E|]. split; [done|]. by apply (same_size_trans _ _ _ S1).
  - set (X := (fb_width fb / 12 -[64] 1) *[64] 12). assert (in_width 64 (fb_y fb - 23)) as Hy by (unfold in_width; lia).
    destruct (safe_cursor (fun _ => (X, fb_y fb - 23)) (fun _ _ => conj (in_width_wrap64 _) Hy) fb Hok) as (fb1 & [= <-] & Hok1 & S1). cbn [fst snd] in Hok1, S1.
    destruct (safe_draw_box 12 CHAR_HEIGHT (fun _ _ => bg_color (set_cursor_pos X (fb_y fb - 23) fb)) _ Hok1) as (fb2 & E & Hok2 & S2). exists fb2. split; [exact E|]. split; [done|]. by apply (same_size_trans _ _ _ S1).
Qed.

Lemma safe_next_line : safe next_line.
Proof.
  apply (safe_seq (fun fb => Ok (set_cursor_pos 0 (fb_y fb +[64] LINE_HEIGHT) fb)) (fun fb => if fb_height fb <? fb_y fb +[64] LINE_HEIGHT then scroll fb else Ok fb)).
  - apply (safe_cursor (fun fb => (0, fb_y fb +[64] LINE_HEIGHT))). intros fb _. split; [done|apply in_width_wrap64].
  - intros fb Hok. destruct (_ <? _); [by apply safe_scroll|by apply safe_id].
Qed.

Lemma safe_draw_raster fg bg g : safe (draw_raster fg bg g).
Proof.
  apply (safe_read (fun fb0 => for_range 0 (Z.of_nat (length (raster g))) (fun row_idx =>
    let row := nth (Z.to_nat row_idx) (raster g) [] in
    for_range 0 (Z.of_nat (length row)) (fun col_idx =>
      let intensity := nth (Z.to_nat col_idx) row 0 in
      if 0 <? intensity then put_visible (fb_x fb0 +[64] col_idx) (fb_y fb0 +[64] row_idx) (glyph_color fg bg intensity) else Ok)))).
  intros fb0 _. apply safe_range. intros row _. apply safe_range. intros col _. cbv zeta. destruct (_ <? _); [by apply safe_put_visible|apply safe_id].
Qed.

Section SafeCalls.
Context (get_raster : Z -> option Raster).

Lemma safe_draw_glyph c fg bg : safe (draw_glyph get_raster c fg bg).
Proof.
  unfold draw_glyph. destruct (get_raster c) as [g|].
  - apply (safe_seq (draw_box _ _ _)); [apply safe_draw_box|]. apply (safe_seq (draw_raster fg bg g)); [apply safe_draw_raster|]. apply (safe_set_x (fun fb => fb_x fb +[64] raster_width g)). intros fb _. apply in_width_wrap64.
  - apply (safe_seq (draw_box _ _ _)); [apply safe_draw_box|]. apply (safe_set_x (fun fb => fb_x fb +[64] CHAR_WIDTH)). intros fb _. apply in_width_wrap64.
Qed.

Lemma safe_draw_char c fg bg : safe (draw_char get_raster c fg bg).
Proof.
  intros fb Hok. unfold draw_char. destruct (c =? 10); [by apply safe_next_line|]. destruct (c =? 13); [by apply (safe_set_x (fun _ => 0))|].
  destruct (c =? 9); [cbv zeta; destruct (_ <=? _); [by apply safe_next_line|apply (safe_set_x (fun _ => (fb_x fb / (4 * CHAR_WIDTH) + 1) *[64] (4 * CHAR_WIDTH))); [intros; apply in_width_wrap64|done]]|].
  destruct (_ || _); [by apply safe_backspace|].
  apply (safe_seq (draw_glyph get_raster c fg bg) (fun fb => if fb_width fb <? fb_x fb +[64] CHAR_WIDTH then next_line fb else Ok fb)); [apply safe_draw_glyph| |done].
  intros fb1 H1. destruct (_ <? _); [by apply safe_next_line|by apply safe_id].
Qed.

Lemma safe_write_chars fg s : safe (write_chars get_raster fg s).
Proof.
  induction s as [|c s IH]; intros fb Hok; cbn [write_chars]; [by apply safe_id|].
  by apply (safe_seq (draw_char get_raster c fg (bg_color fb)) (write_chars get_raster fg s)); [apply safe_draw_char| |].
Qed.

Lemma safe_clear_from x : 0 <= x -> safe (clear_from x).
Proof.
  intros Hx. apply (safe_read (fun fb0 => for_range 0 LINE_HEIGHT (fun row => for_range x (fb_width fb0) (fun x => put_pixel x (fb_y fb0 +[64] row) (bg_color fb0))))).
  intros fb0 _. apply safe_range. intros row _. apply safe_range. intros X HX. apply safe_put_pixel; [lia|done].
Qed.

Lemma safe_draw_rect x y w h pixel : safe (draw_rect x y w h pixel).
Proof.
  apply (safe_read (fun fb0 => for_until (Z.to_nat h) 0 (fun dy => fb_height fb0 <=? y +[64] dy) (fun dy =>
    for_until (Z.to_nat w) 0 (fun dx => fb_width fb0 <=? x +[64] dx) (fun dx fb =>
      match pixel dx dy with Some c => put_pixel (x +[64] dx) (y +[64] dy) c fb | None => Ok fb end)))).
  intros fb0 _. apply safe_until. intros dy _. apply safe_until. intros dx _ fb Hok. destruct (pixel dx dy); [by apply safe_put_pixel|by apply safe_id].
Qed.

Lemma safe_clear_with_color color : safe (clear_with_color color).
Proof.
  intros fb Hok. unfold clear_with_color. pose proof (ok_width fb Hok). pose proof (ok_height fb Hok).
  destruct (for_range_inv (fun _ fb' => fb_ok fb' /\ same_size fb fb') 0 (fb_height fb) (fun y =>
    let row_offset := y *[64] fb_pitch fb in for_range 0 (fb_width fb) (fun x => write_at (row_offset +[64] x) color)) fb) as (fb' & E & Hok' & Hs); [unfold LINE_HEIGHT in *; lia|split; [done|by repeat split]| |by exists fb'].
  intros y fb1 Hy [H1 S1]. destruct (for_range_inv (fun _ fb' => fb_ok fb' /\ same_size fb fb') 0 (fb_width fb) (fun x => write_at ((y *[64] fb_pitch fb) +[64] x) color) fb1) as (fb' & E & Hok' & Hs); [lia|done| |by exists fb'].
  intros x fb2 Hx [H2 S2]. destruct (offset_ok fb x y) as [Eo Ho]; [done|lia|done|]. rewrite Eo. destruct S2 as (? & ? & ? & El) eqn:ES. rewrite <- El in Ho.
  destruct (write_at_safe _ color fb2 H2 Ho) as (fb3 & E & H3 & S3). exists fb3. split; [done|]. split; [done|]. by apply (same_size_trans _ fb2).
Qed.
End SafeCalls.

(** ** What operations paint *)

Definition pixel (fb : Framebuffer) (X Y : Z) : option Z := fb_mem fb !! at_pixel (fb_pitch fb) X Y.

(** [fb'] is [fb] with [F X Y] applied to the pixel at every place. *)
Definition paints (F : Z -> Z -> Z -> Z) (fb fb' : Framebuffer) : Prop :=
  fb' = set_mem (fb_mem fb') fb /\ length (fb_mem fb') = length (fb_mem fb) /\
  forall X Y, 0 <= X < fb_pitch fb -> 0 <= Y -> pixel fb' X Y = F X Y <$> pixel fb X Y.

Definition on_screen (fb : Framebuffer) (X Y : Z) : bool := (X <? fb_width fb) && (Y <? fb_height fb).

Lemma paints_id (F : Z -> Z -> Z -> Z) fb : (forall X Y v, F X Y v = v) -> paints F fb fb.
Proof. intros HF. split; [by destruct fb|]. split; [done|]. intros X Y _ _. destruct (pixel fb X Y) as [v|]; [|done]. cbn. by rewrite HF. Qed.

Lemma paints_size F fb fb' : paints F fb fb' -> same_size fb fb'.
Proof. intros (-> & Hl & _). repeat split; exact Hl. Qed.

Lemma paints_ok F fb fb' : fb_ok fb -> paints F fb fb' -> fb_ok fb'.
Proof. intros Hok Hp. apply (fb_ok_size fb); [done|by apply (paints_size F)|destruct Hp as (-> & _); apply Hok..]. Qed.

Lemma paints_ext F G fb fb' : (forall X Y v, 0 <= X < fb_pitch fb -> 0 <= Y -> F X Y v = G X Y v) -> paints F fb fb' -> paints G fb fb'.
Proof. intros HE (E & Hl & Hp). split; [done|]. split; [done|]. intros X Y HX HY. rewrite Hp by done. destruct (pixel fb X Y) as [v|]; [|done]. cbn. by rewrite HE. Qed.

Lemma paints_trans F G fb fb1 fb2 : paints F fb fb1 -> paints G fb1 fb2 -> paints (fun X Y v => G X Y (F X Y v)) fb fb2.
Proof.
  intros (E1 & L1 & P1) (E2 & L2 & P2). split; [rewrite E2; by rewrite E1|]. split; [congruence|]. intros X Y HX HY.
  rewrite P2; [|by rewrite E1|done]. rewrite P1 by done. by destruct (pixel fb X Y).
Qed.

(** A loop, by what has been painted before each round. *)
Lemma paints_loop (G B : Z -> Z -> Z -> Z -> Z) a b (body : Z -> Framebuffer -> Result Framebuffer Crash) fb : a <= b -> fb_ok fb ->
  (forall X Y v, G a X Y v = v) ->
  (forall i X Y v, a <= i < b -> 0 <= X -> 0 <= Y -> G (i + 1) X Y v = B i X Y (G i X Y v)) ->
  (forall i fb1, a <= i < b -> fb1 = set_mem (fb_mem fb1) fb -> fb_ok fb1 -> exists fb2, body i fb1 = Ok fb2 /\ paints (B i) fb1 fb2) ->
  exists fb', for_range a b body fb = Ok fb' /\ paints (G b) fb fb'.
Proof.
  intros Hab Hok Ha Hs Hb. apply (for_range_inv (fun i fb' => paints (G i) fb fb')); [done|by apply paints_id|].
  intros i fb1 Hi H1. pose proof (paints_ok _ _ _ Hok H1) as Hok1. destruct (Hb i fb1 Hi (proj1 H1) Hok1) as (fb2 & E & H2). exists fb2. split; [done|].
  apply (paints_ext (fun X Y v => B i X Y (G i X Y v))); [|by apply (paints_trans _ _ _ fb1)]. intros X Y v [HX _] HY. symmetry. by apply Hs.
Qed.

Lemma put_visible_paints x y color fb : fb_ok fb -> 0 <= x -> 0 <= y ->
  exists fb', put_visible x y color fb = Ok fb' /\ paints (fun X Y v => if (X =? x) && (Y =? y) && on_screen fb X Y then color else v) fb fb'.
Proof.
  intros Hok Hx Hy. unfold put_visible, put_pixel. pose proof (ok_width fb Hok) as Hw. destruct (Z.ltb_spec x (fb_width fb)) as [H1|H1]; [destruct (Z.ltb_spec y (fb_height fb)) as [H2|H2]|]; cbn [andb].
  2,3: exists fb; split; [done|]; apply paints_id; intros X Y v; unfold on_screen; destruct (Z.eqb_spec X x), (Z.eqb_spec Y y), (Z.ltb_spec X (fb_width fb)), (Z.ltb_spec Y (fb_height fb)); cbn [andb]; (done || lia).
  destruct (Z.leb_spec (fb_width fb) x), (Z.leb_spec (fb_height fb) y); try lia. cbn [orb]. destruct (offset_ok fb x y Hok) as [-> Ho]; [lia|lia|]. rewrite write_at_ok by done.
  eexists. split; [done|]. split; [done|]. split; [apply length_insert|]. intros X Y HX HY. unfold pixel. cbn [fb_mem set_mem fb_pitch].
  destruct (decide (X = x /\ Y = y)) as [[-> ->]|Hne].
  - rewrite list_lookup_insert_eq by lia. destruct (lookup_lt_is_Some_2 (fb_mem fb) (Z.to_nat (y * fb_pitch fb + x))) as [v ->]; [lia|]. cbn. rewrite !Z.eqb_refl. unfold on_screen.
    by rewrite (proj2 (Z.ltb_lt _ _) H1), (proj2 (Z.ltb_lt _ _) H2).
  - rewrite list_lookup_insert_ne by (rewrite at_pixel_inj by lia; naive_solver). destruct (fb_mem fb !! at_pixel (fb_pitch fb) X Y) as [v|]; [|done]. cbn.
    destruct (Z.eqb_spec X x), (Z.eqb_spec Y y); cbn [andb]; try done. naive_solver.
Qed.

(** Case analysis on the comparisons of a boolean condition. *)
Ltac compare := unfold in_rect in *; repeat match goal with
  | |- context [?a <=? ?b] => destruct (Z.leb_spec a b) | |- context [?a <? ?b] => destruct (Z.ltb_spec a b) | |- context [?a =? ?b] => destruct (Z.eqb_spec a b) end;
  cbn [andb orb]; try done; try lia.

(** Two nested loops over a rectangle at the cursor, each round of which paints one pixel. *)
Lemma box_paints w h (P : Z -> Z -> Z -> Z) (body : Z -> Z -> Framebuffer -> Result Framebuffer Crash) fb : fb_ok fb -> 0 <= w -> 0 <= h ->
  (forall row col fb1, 0 <= row < h -> 0 <= col < w -> fb1 = set_mem (fb_mem fb1) fb -> fb_ok fb1 ->
    exists fb2, body row col fb1 = Ok fb2 /\ paints (fun X Y v => if (X =? fb_x fb + col) && (Y =? fb_y fb + row) && on_screen fb X Y then P row col v else v) fb1 fb2) ->
  exists fb', for_range 0 h (fun row => for_range 0 w (body row)) fb = Ok fb' /\
    paints (fun X Y v => if in_rect (fb_x fb) (fb_y fb) w h X Y && on_screen fb X Y then P (Y - fb_y fb) (X - fb_x fb) v else v) fb fb'.
Proof.
  intros Hok Hw Hh Hb. set (x := fb_x fb) in *. set (y := fb_y fb) in *.
  set (B := fun i X Y v => if in_rect x (y + i) w 1 X Y && on_screen fb X Y then P i (X - x) v else v).
  destruct (paints_loop (fun i X Y v => if in_rect x y w i X Y && on_screen fb X Y then P (Y - y) (X - x) v else v) B 0 h (fun row => for_range 0 w (body row)) fb Hh Hok) as (fb' & E & Hp); [| | |by exists fb'].
  - intros X Y v. compare.
  - intros i X Y v Hi HX HY. unfold B. destruct (on_screen fb X Y); [|by rewrite !andb_false_r]. rewrite !andb_true_r. compare. f_equal; lia.
  - intros i fb1 Hi E1 Hok1. destruct (paints_loop (fun j X Y v => if in_rect x (y + i) j 1 X Y && on_screen fb X Y then P i (X - x) v else v)
      (fun j X Y v => if (X =? x + j) && (Y =? y + i) && on_screen fb X Y then P i j v else v) 0 w (body i) fb1 Hw Hok1) as (fb' & E & Hp); [| | |by exists fb'].
    + intros X Y v. compare.
    + intros j X Y v Hj HX HY. destruct (on_screen fb X Y); [|by rewrite !andb_false_r]. rewrite !andb_true_r. compare. f_equal; lia.
    + intros j fb2 Hj E2 Hok2. apply Hb; [done|done|rewrite E2; by rewrite E1|done].
Qed.

(** The cursor is on the screen. *)
Definition cursor_on (fb : Framebuffer) : Prop := 0 <= fb_x fb < 2 ^ 24 /\ 0 <= fb_y fb < 2 ^ 24.

Lemma cursor_plus fb i : cursor_on fb -> 0 <= i < 2 ^ 24 -> fb_x fb +[64] i = fb_x fb + i /\ fb_y fb +[64] i = fb_y fb + i.
Proof. intros [Hx Hy] Hi. rewrite !wrap_small; [done|..]; unfold in_width; lia. Qed.

Lemma draw_box_paints w h color fb : fb_ok fb -> cursor_on fb -> 0 <= w < 2 ^ 24 -> 0 <= h < 2 ^ 24 ->
  exists fb', draw_box w h color fb = Ok fb' /\
    paints (fun X Y v => if in_rect (fb_x fb) (fb_y fb) w h X Y && on_screen fb X Y then color (Y - fb_y fb) (X - fb_x fb) else v) fb fb'.
Proof.
  intros Hok Hc Hw Hh. apply (box_paints w h (fun row col _ => color row col)); [done|lia|lia|]. intros row col fb1 Hrow Hcol E1 Hok1.
  destruct (cursor_plus fb col Hc) as [-> _]; [lia|]. destruct (cursor_plus fb row Hc) as [_ ->]; [lia|].
  destruct (put_visible_paints (fb_x fb + col) (fb_y fb + row) (color row col) fb1 Hok1) as (fb2 & E & Hp); [unfold cursor_on in Hc; lia..|].
  exists fb2. split; [done|]. by rewrite E1 in Hp |- *.
Qed.

(** A glyph as its font describes it: [h] rows of [w] intensities. *)
Definition raster_ok (w h : Z) (g : Raster) : Prop :=
  raster_width g = w /\ Z.of_nat (length (raster g)) = h /\ Forall (fun row => Z.of_nat (length row) = w) (raster g).

Definition intensity_at (g : Raster) (row col : Z) : Z := nth (Z.to_nat col) (nth (Z.to_nat row) (raster g) []) 0.

Lemma draw_raster_paints fg bg w h g fb : fb_ok fb -> cursor_on fb -> raster_ok w h g -> 0 <= w < 2 ^ 24 -> 0 <= h < 2 ^ 24 ->
  exists fb', draw_raster fg bg g fb = Ok fb' /\
    paints (fun X Y v => if in_rect (fb_x fb) (fb_y fb) w h X Y && on_screen fb X Y then
      let i := intensity_at g (Y - fb_y fb) (X - fb_x fb) in if 0 <? i then glyph_color fg bg i else v else v) fb fb'.
Proof.
  intros Hok Hc (_ & Hlen & Hrows) Hw Hh. unfold draw_raster. rewrite Hlen.
  destruct (box_paints w h (fun row col v => let i := intensity_at g row col in if 0 <? i then glyph_color fg bg i else v)
    (fun row_idx col_idx => let intensity := nth (Z.to_nat col_idx) (nth (Z.to_nat row_idx) (raster g) []) 0 in
      if 0 <? intensity then put_visible (fb_x fb +[64] col_idx) (fb_y fb +[64] row_idx) (glyph_color fg bg intensity) else Ok) fb Hok ltac:(lia) ltac:(lia)) as (fb' & E & Hp).
  - intros row col fb1 Hrow Hcol E1 Hok1. cbv zeta. unfold intensity_at. set (i := nth (Z.to_nat col) _ 0). destruct (0 <? i).
    + destruct (cursor_plus fb col Hc) as [-> _]; [lia|]. destruct (cursor_plus fb row Hc) as [_ ->]; [lia|].
      destruct (put_visible_paints (fb_x fb + col) (fb_y fb + row) (glyph_color fg bg i) fb1 Hok1) as (fb2 & E & Hp); [unfold cursor_on in Hc; lia..|].
      exists fb2. split; [done|]. by rewrite E1 in Hp |- *.
    + exists fb1. split; [done|]. apply paints_id. intros X Y v. by destruct (_ && _).
  - exists fb'. split; [|exact Hp]. rewrite <- E. apply for_range_ext. intros row s Hrow. cbv zeta.
    rewrite Forall_forall in Hrows. rewrite (Hrows (nth (Z.to_nat row) (raster g) [])); [done|]. apply list_elem_of_In, nth_In. lia.
Qed.

(** ** The text on the screen *)

Section Shows.
Context (get_raster : Z -> option Raster).

(** Every glyph of the font is as wide as the console expects and as high as it was asked for. *)
Definition monospaced : Prop := forall c g, get_raster c = Some g -> raster_ok CHAR_WIDTH CHAR_HEIGHT g.

(** A pixel of a character: its glyph on the background, or the box that replaces it. *)
Definition char_pixel (c fg bg row col : Z) : Z :=
  match get_raster c with
  | Some g => let i := intensity_at g row col in if 0 <? i then glyph_color fg bg i else bg
  | None => if is_border row col then fg else bg
  end.

Lemma draw_glyph_paints c fg bg fb : monospaced -> fb_ok fb -> cursor_on fb ->
  exists fb1, draw_glyph get_raster c fg bg fb = Ok (set_x (fb_x fb + CHAR_WIDTH) fb1) /\
    paints (fun X Y v => if in_rect (fb_x fb) (fb_y fb) CHAR_WIDTH CHAR_HEIGHT X Y && on_screen fb X Y then char_pixel c fg bg (Y - fb_y fb) (X - fb_x fb) else v) fb fb1.
Proof.
  intros Hm Hok Hc. unfold draw_glyph, char_pixel. destruct (cursor_plus fb CHAR_WIDTH Hc) as [Ex _]; [by unfold CHAR_WIDTH|]. destruct (get_raster c) as [g|] eqn:Eg.
  - pose proof (Hm c g Eg) as Hg. rewrite (proj1 Hg). destruct (draw_box_paints CHAR_WIDTH CHAR_HEIGHT (fun _ _ => bg) fb Hok Hc) as (fb1 & -> & P1); [by unfold CHAR_WIDTH|by unfold CHAR_HEIGHT|].
    pose proof (paints_ok _ _ _ Hok P1) as Hok1. pose proof (proj1 P1) as E1. assert (cursor_on fb1) as Hc1 by (by rewrite E1).
    destruct (draw_raster_paints fg bg CHAR_WIDTH CHAR_HEIGHT g fb1 Hok1 Hc1 Hg) as (fb2 & -> & P2); [by unfold CHAR_WIDTH|by unfold CHAR_HEIGHT|].
    exists fb2. pose proof (proj1 P2) as E2. replace (fb_x fb2) with (fb_x fb) by (rewrite E2; by rewrite E1). rewrite Ex. split; [done|].
    eapply paints_ext; [|exact (paints_trans _ _ _ _ _ P1 P2)]. intros X Y v HX HY. cbv beta. replace (fb_x fb1) with (fb_x fb) by (by rewrite E1). replace (fb_y fb1) with (fb_y fb) by (by rewrite E1).
    replace (on_screen fb1 X Y) with (on_screen fb X Y) by (by rewrite E1). by destruct (_ && _).
  - unfold draw_replacement_char. destruct (draw_box_paints CHAR_WIDTH CHAR_HEIGHT (fun row col => if is_border row col then fg else bg) fb Hok Hc) as (fb1 & -> & P1); [by unfold CHAR_WIDTH|by unfold CHAR_HEIGHT|].
    exists fb1. replace (fb_x fb1) with (fb_x fb) by (by rewrite (proj1 P1)). rewrite Ex. by split.
Qed.

(** ** The reference: rows of characters *)

(** A row at a height, with its characters and their colours. *)
Record Row : Type := mkRow { row_y : Z; row_text : list (Z * Z) }.

Definition in_row (Y : Z) (r : Row) : bool := (row_y r <=? Y) && (Y <? row_y r + LINE_HEIGHT).

Definition row_pixel (bg X Y : Z) (r : Row) : Z :=
  if Y - row_y r <? CHAR_HEIGHT then
    match row_text r !! Z.to_nat (X / CHAR_WIDTH) with Some (c, fg) => char_pixel c fg bg (Y - row_y r) (X mod CHAR_WIDTH) | None => bg end
  else bg.

(** What the rows, the last one first, put at a place of the screen. *)
Definition screen_pixel (bg : Z) (rows : list Row) (X Y : Z) : Z :=
  match List.find (in_row Y) rows with Some r => row_pixel bg X Y r | None => bg end.

Definition row_up (r : Row) : Row := mkRow (row_y r - LINE_HEIGHT) (row_text r).

(** The next row; at the end of the screen the others move up. *)
Definition new_row (h : Z) (rows : list Row) : list Row :=
  match rows with
  | [] => []
  | r :: _ => if h <? row_y r + LINE_HEIGHT + LINE_HEIGHT then mkRow (h - LINE_HEIGHT) [] :: (row_up <$> rows) else mkRow (row_y r + LINE_HEIGHT) [] :: rows
  end.

(** A character, with the number of columns and the height of the screen. *)
Definition type_char (cols h : Z) (rows : list Row) (t : Z * Z) : list Row :=
  match rows with
  | [] => []
  | r :: rest =>
      if t.1 =? 10 then new_row h rows
      else
        let rows := mkRow (row_y r) (row_text r ++ [t]) :: rest in
        if cols <=? Z.of_nat (length (row_text r)) + 1 then new_row h rows else rows
  end.

(** The console shows the rows: their characters and nothing else. *)
Record shows (bg : Z) (rows : list Row) (fb : Framebuffer) : Prop := {
  sh_ok : fb_ok fb;
  sh_bg : bg_color fb = bg;
  sh_row : exists r rest, rows = r :: rest /\ fb_y fb = row_y r /\ fb_x fb = CHAR_WIDTH * Z.of_nat (length (row_text r)) /\
             0 <= row_y r <= fb_height fb - LINE_HEIGHT /\ Z.of_nat (length (row_text r)) < fb_width fb / CHAR_WIDTH;
  sh_below : forall r, r ∈ rows -> row_y r <= fb_y fb;
  sh_pixels : forall X Y, 0 <= X < fb_width fb -> 0 <= Y < fb_height fb -> pixel fb X Y = Some (screen_pixel bg rows X Y)
}.

Lemma shows_cursor bg rows fb : shows bg rows fb -> cursor_on fb.
Proof.
  intros [Hok _ (r & rest & _ & Ey & Ex & Hy & Hx) _ _]. pose proof (ok_height fb Hok). pose proof (ok_width fb Hok). pose proof (ok_pitch fb Hok).
  unfold cursor_on, LINE_HEIGHT, CHAR_WIDTH in *. rewrite Ex, Ey. split; [|lia]. Z.to_euclidean_division_equations; lia.
Qed.

(** A row that is above all places looked at can be dropped. *)
Lemma find_above Y rows : (forall r, r ∈ rows -> row_y r + LINE_HEIGHT <= Y) -> List.find (in_row Y) rows = None.
Proof.
  intros H. induction rows as [|r rows IH]; cbn [List.find]; [done|]. unfold in_row at 1. pose proof (H r ltac:(by left)). destruct (Z.ltb_spec Y (row_y r + LINE_HEIGHT)); [lia|].
  rewrite andb_false_r. apply IH. intros r' Hr'. apply H. by right.
Qed.

Lemma find_up Y rows : List.find (in_row Y) (row_up <$> rows) = row_up <$> List.find (in_row (Y + LINE_HEIGHT)) rows.
Proof.
  induction rows as [|r rows IH]; cbn [List.find fmap list_fmap]; [done|].
  assert (in_row Y (row_up r) = in_row (Y + LINE_HEIGHT) r) as -> by (unfold in_row, row_up; cbn [row_y]; compare). by destruct (in_row _ r).
Qed.

Lemma screen_pixel_up bg rows X Y : screen_pixel bg (row_up <$> rows) X Y = screen_pixel bg rows X (Y + LINE_HEIGHT).
Proof.
  unfold screen_pixel. rewrite find_up. destruct (List.find _ rows) as [r|]; [|done]. cbn. unfold row_pixel, row_up. cbn [row_y row_text].
  by replace (Y - (row_y r - LINE_HEIGHT)) with (Y + LINE_HEIGHT - row_y r) by lia.
Qed.

Lemma row_pixel_empty bg X Y y : row_pixel bg X Y (mkRow y []) = bg.
Proof. unfold row_pixel. cbn [row_text]. rewrite lookup_nil. by destruct (_ <? _). Qed.

(** An empty row at the bottom shows nothing. *)
Lemma screen_pixel_new bg rows X Y y : (forall r, r ∈ rows -> row_y r + LINE_HEIGHT <= y) ->
  screen_pixel bg (mkRow y [] :: rows) X Y = if in_row Y (mkRow y []) then bg else screen_pixel bg rows X Y.
Proof. intros H. unfold screen_pixel. cbn [List.find]. destruct (in_row Y (mkRow y [])); [apply row_pixel_empty|done]. Qed.

Lemma scrolled_pixel fb X Y : fb_ok fb -> 0 <= X < fb_pitch fb -> 0 <= Y < fb_height fb ->
  pixel (scrolled fb) X Y = if Y <? fb_height fb - LINE_HEIGHT then pixel fb X (Y + LINE_HEIGHT) else Some (bg_color fb).
Proof.
  intros Hok HX HY. destruct Hok as [Hw Hp Hh Hm _]. unfold LINE_HEIGHT in *. unfold pixel, scrolled. cbn [fb_mem fb_pitch set_y set_mem set_cursor_pos]. unfold LINE_HEIGHT.
  set (p := fb_pitch fb) in *. set (h := fb_height fb) in *. set (m := fb_mem fb) in *. assert ((h - 23) * p + 23 * p = h * p) as Eh by ring. assert (0 <= (h - 23) * p) by nia.
  assert (length (take (Z.to_nat ((h - 23) * p)) (drop (Z.to_nat (23 * p)) m)) = Z.to_nat ((h - 23) * p)) as L1 by (rewrite length_take, length_drop; lia).
  destruct (Z.ltb_spec Y (h - 23)).
  - assert (Y * p + X < (h - 23) * p) by nia. rewrite lookup_app_l by (rewrite L1; nia). rewrite lookup_take_lt by nia. rewrite lookup_drop. f_equal. nia.
  - assert ((h - 23) * p <= Y * p + X < h * p) by nia. rewrite lookup_app_r by (rewrite L1; nia). rewrite L1, lookup_app_l by (rewrite length_replicate; nia). apply lookup_replicate_2. nia.
Qed.

(** The next line, from a row that may be full. *)
Lemma next_line_shows bg r rest fb : fb_ok fb -> bg_color fb = bg -> CHAR_WIDTH <= fb_width fb -> fb_y fb = row_y r -> 0 <= row_y r <= fb_height fb - LINE_HEIGHT ->
  (forall r', r' ∈ r :: rest -> row_y r' <= fb_y fb) ->
  (forall X Y, 0 <= X < fb_width fb -> 0 <= Y < fb_height fb -> pixel fb X Y = Some (screen_pixel bg (r :: rest) X Y)) ->
  exists fb', next_line fb = Ok fb' /\ shows bg (new_row (fb_height fb) (r :: rest)) fb' /\ same_size fb fb'.
Proof.
  intros Hok Hbg Hcw Ey Hy Hb Hp. pose proof (ok_height fb Hok) as Hh. pose proof (ok_width fb Hok) as Hw. assert (0 < fb_width fb / CHAR_WIDTH) as Hcols by (unfold CHAR_WIDTH in *; Z.to_euclidean_division_equations; lia).
  unfold next_line, new_row. cbn [fb_height fb_y set_cursor_pos]. unfold LINE_HEIGHT in *.
  rewrite !(wrap_small 64 (fb_y fb + 23)) by (unfold in_width; lia). rewrite wrap_small by (unfold in_width; lia). rewrite Ey.
  set (fb1 := set_cursor_pos 0 (row_y r + 23) fb). assert (fb_ok fb1) as Hok1 by (apply (fb_ok_size fb); [done|by repeat split|done|unfold in_width; cbn [fb_y fb1 set_cursor_pos]; lia]).
  destruct (Z.ltb_spec (fb_height fb) (row_y r + 23 + 23)) as [Hs|Hs].
  - destruct (scroll_spec fb1 Hok1) as [E Hss]. assert (fb_ok (scrolled fb1)) as Hok2 by (destruct (safe_scroll fb1 Hok1) as (q & E' & Hq & _); rewrite E in E'; injection E' as <-; exact Hq).
    exists (scrolled fb1). split; [done|]. split; [|exact Hss]. split; [done|exact Hbg| | |].
    + exists (mkRow (fb_height fb - 23) []), (row_up <$> r :: rest). split; [done|]. split; [done|]. split; [done|]. cbn [row_y row_text length]. split; [change (fb_height (scrolled fb1)) with (fb_height fb); unfold LINE_HEIGHT; lia|exact Hcols].
    + intros r' [->|(r2 & -> & Hin)%list_elem_of_fmap]%elem_of_cons; [cbn [row_y]; change (fb_y (scrolled fb1)) with (fb_height fb - 23); lia|]. specialize (Hb r2 Hin). cbn [row_up row_y]. change (fb_y (scrolled fb1)) with (fb_height fb - 23). unfold LINE_HEIGHT. lia.
    + intros X Y HX HY. change (fb_width (scrolled fb1)) with (fb_width fb) in HX. change (fb_height (scrolled fb1)) with (fb_height fb) in HY. rewrite scrolled_pixel by (done || (change (fb_pitch fb1) with (fb_pitch fb); lia)).
      change (fb_height fb1) with (fb_height fb). change (bg_color fb1) with (bg_color fb). change (pixel fb1 X (Y + LINE_HEIGHT)) with (pixel fb X (Y + LINE_HEIGHT)). rewrite Hbg.
      rewrite screen_pixel_new. 2:{ intros r' (r2 & -> & Hin)%list_elem_of_fmap. specialize (Hb r2 Hin). cbn [row_up row_y]. unfold LINE_HEIGHT. lia. }
      unfold in_row. cbn [row_y]. unfold LINE_HEIGHT. rewrite screen_pixel_up. unfold LINE_HEIGHT.
      destruct (Z.ltb_spec Y (fb_height fb - 23)), (Z.leb_spec (fb_height fb - 23) Y), (Z.ltb_spec Y (fb_height fb - 23 + 23)); cbn [andb]; try lia; [|done]. apply Hp; lia.
  - exists fb1. split; [done|]. split; [|by repeat split]. split; [done|exact Hbg| | |].
    + exists (mkRow (row_y r + 23) []), (r :: rest). split; [done|]. split; [done|]. split; [done|]. cbn [row_y row_text length]. split; [change (fb_height fb1) with (fb_height fb); unfold LINE_HEIGHT; lia|exact Hcols].
    + intros r' [->|Hin]%elem_of_cons; [done|]. specialize (Hb r' Hin). change (fb_y fb1) with (row_y r + 23). lia.
    + intros X Y HX HY. change (pixel fb1 X Y) with (pixel fb X Y). change (fb_width fb1) with (fb_width fb) in HX. change (fb_height fb1) with (fb_height fb) in HY. rewrite (Hp X Y HX HY). f_equal.
      rewrite screen_pixel_new by (intros r' Hin; specialize (Hb r' Hin); unfold LINE_HEIGHT; lia). destruct (in_row Y _) eqn:Er; [|done]. unfold in_row in Er. cbn [row_y] in Er. apply andb_true_iff in Er as [Er1%Z.leb_le Er2%Z.ltb_lt].
      unfold screen_pixel. rewrite find_above; [done|]. intros r' Hin. specialize (Hb r' Hin). unfold LINE_HEIGHT. lia.
Qed.

(** A character in the current row. *)
Lemma screen_pixel_snoc bg y l rest c fg X Y : 0 <= X ->
  screen_pixel bg (mkRow y (l ++ [(c, fg)]) :: rest) X Y =
  if in_rect (CHAR_WIDTH * Z.of_nat (length l)) y CHAR_WIDTH CHAR_HEIGHT X Y then char_pixel c fg bg (Y - y) (X - CHAR_WIDTH * Z.of_nat (length l))
  else screen_pixel bg (mkRow y l :: rest) X Y.
Proof.
  intros HX. unfold screen_pixel. cbn [List.find]. change (in_row Y (mkRow y (l ++ [(c, fg)]))) with (in_row Y (mkRow y l)). set (n := length l).
  destruct (in_row Y (mkRow y l)) eqn:Er.
  - unfold row_pixel. cbn [row_y row_text]. unfold in_row in Er. cbn [row_y] in Er. apply andb_true_iff in Er as [Er1%Z.leb_le Er2%Z.ltb_lt].
    pose proof (Z.div_mod X CHAR_WIDTH ltac:(done)) as Hdiv. pose proof (Z.mod_pos_bound X CHAR_WIDTH ltac:(done)) as Hmod. unfold in_rect. rewrite (proj2 (Z.leb_le y Y)) by done.
    destruct (Z.ltb_spec (Y - y) CHAR_HEIGHT), (Z.ltb_spec Y (y + CHAR_HEIGHT)); try lia; cbn [andb]; [|done].
    destruct (decide (X / CHAR_WIDTH = Z.of_nat n)) as [E|Hne].
    + rewrite E, Nat2Z.id, list_lookup_middle by done. rewrite (proj2 (Z.leb_le _ _)) by (rewrite <- E; lia). rewrite (proj2 (Z.ltb_lt _ _)) by (rewrite <- E; lia). cbn [andb]. f_equal. rewrite <- E. lia.
    + assert ((l ++ [(c, fg)]) !! Z.to_nat (X / CHAR_WIDTH) = l !! Z.to_nat (X / CHAR_WIDTH)) as ->.
      { assert (0 <= X / CHAR_WIDTH) by (apply Z.div_pos; done). destruct (decide (Z.to_nat (X / CHAR_WIDTH) < n)%nat); [by apply lookup_app_l|].
        rewrite lookup_app_r by (fold n; lia). rewrite lookup_ge_None_2 by (cbn [length]; fold n; lia). symmetry. apply lookup_ge_None_2. fold n. lia. }
      unfold CHAR_WIDTH in *. destruct (Z.leb_spec (12 * Z.of_nat n) X), (Z.ltb_spec X (12 * Z.of_nat n + 12)); cbn [andb]; try done. exfalso. apply Hne. Z.to_euclidean_division_equations; lia.
  - unfold in_rect. unfold in_row in Er. cbn [row_y] in Er. unfold CHAR_HEIGHT, LINE_HEIGHT in *. revert Er. compare.
Qed.

Definition plain (c : Z) : Prop := c <> 8 /\ c <> 9 /\ c <> 13 /\ c <> 127.

Lemma draw_char_shows c fg bg rows fb : monospaced -> shows bg rows fb -> CHAR_WIDTH <= fb_width fb -> plain c ->
  exists fb', draw_char get_raster c fg bg fb = Ok fb' /\ shows bg (type_char (fb_width fb / CHAR_WIDTH) (fb_height fb) rows (c, fg)) fb' /\ same_size fb fb'.
Proof.
  intros Hm Hsh Hcw (H8 & H9 & H13 & H127). pose proof (shows_cursor _ _ _ Hsh) as Hcur. destruct Hsh as [Hok Hbg (r & rest & -> & Ey & Ex & Hy & Hx) Hb Hp].
  unfold draw_char, type_char. cbn [fst]. destruct (Z.eqb_spec c 10) as [->|H10]; [by apply next_line_shows|].
  rewrite (proj2 (Z.eqb_neq c 13)), (proj2 (Z.eqb_neq c 9)), (proj2 (Z.eqb_neq c 8)), (proj2 (Z.eqb_neq c 127)) by done. cbn [orb].
  destruct (draw_glyph_paints c fg bg fb Hm Hok Hcur) as (fb1 & -> & P1). pose proof (proj1 P1) as E1. pose proof (paints_ok _ _ _ Hok P1) as Hok1. set (fb2 := set_x (fb_x fb + CHAR_WIDTH) fb1).
  set (n := Z.of_nat (length (row_text r))) in *. assert (fb_x fb2 = CHAR_WIDTH * (n + 1)) as Ex2 by (unfold fb2; cbn [fb_x set_x set_cursor_pos]; rewrite Ex; lia).
  assert (fb_width fb2 = fb_width fb /\ fb_height fb2 = fb_height fb /\ fb_y fb2 = fb_y fb /\ bg_color fb2 = bg_color fb /\ fb_pitch fb2 = fb_pitch fb) as (Ew & Eh & Ey2 & Ebg & Ep) by (unfold fb2; by rewrite E1).
  assert (same_size fb fb2) as S2 by (repeat split; try done; exact (proj1 (proj2 P1))). pose proof (ok_width fb Hok) as Hw. pose proof (ok_pitch fb Hok) as Hpt.
  assert (CHAR_WIDTH * (n + 1) <= fb_width fb) as Hfit by (unfold CHAR_WIDTH in *; Z.to_euclidean_division_equations; lia).
  assert (fb_ok fb2) as Hok2 by (apply (fb_ok_size fb); [done|done|rewrite Ex2; unfold in_width, CHAR_WIDTH in *; lia|rewrite Ey2; apply Hok]).
  assert (forall X Y, 0 <= X < fb_width fb2 -> 0 <= Y < fb_height fb2 -> pixel fb2 X Y = Some (screen_pixel bg (mkRow (row_y r) (row_text r ++ [(c, fg)]) :: rest) X Y)) as Hp2.
  { intros X Y HX HY. rewrite Ew in HX. rewrite Eh in HY. assert (pixel fb2 X Y = pixel fb1 X Y) as -> by done. destruct P1 as (_ & _ & ->); [|lia..]. rewrite (Hp X Y HX HY). cbn [fmap option_fmap option_map]. f_equal.
    rewrite screen_pixel_snoc by lia. fold n. rewrite <- Ex, <- Ey. assert (on_screen fb X Y = true) as -> by (unfold on_screen; compare). rewrite andb_true_r. destruct (in_rect _ _ _ _ _ _); [done|]. rewrite Ey. by destruct r. }
  assert (forall r', r' ∈ mkRow (row_y r) (row_text r ++ [(c, fg)]) :: rest -> row_y r' <= fb_y fb2) as Hb2.
  { rewrite Ey2. intros r' [->|Hin]%elem_of_cons; [cbn [row_y]; lia|apply Hb; by right]. }
  rewrite Ew, Ex2, wrap_small by (unfold in_width, CHAR_WIDTH in *; lia). fold n.
  assert ((fb_width fb <? CHAR_WIDTH * (n + 1) + CHAR_WIDTH) = (fb_width fb / CHAR_WIDTH <=? n + 1)) as ->.
  { unfold CHAR_WIDTH in *. destruct (Z.ltb_spec (fb_width fb) (12 * (n + 1) + 12)), (Z.leb_spec (fb_width fb / 12) (n + 1)); try done; Z.to_euclidean_division_equations; lia. }
  destruct (Z.leb_spec (fb_width fb / CHAR_WIDTH) (n + 1)) as [Hfull|Hroom].
  - destruct (next_line_shows bg (mkRow (row_y r) (row_text r ++ [(c, fg)])) rest fb2) as (fb' & E & Hsh' & S'); [done|by rewrite Ebg|by rewrite Ew|by rewrite Ey2|by rewrite Eh|done|done|].
    rewrite Eh in Hsh'. exists fb'. split; [done|]. split; [exact Hsh'|]. by apply (same_size_trans _ fb2).
  - exists fb2. split; [done|]. split; [|done]. split; [done|by rewrite Ebg| |done|done].
    exists (mkRow (row_y r) (row_text r ++ [(c, fg)])), rest. cbn [row_y row_text]. rewrite length_app. cbn [length]. rewrite Ey2, Ew, Eh, Ex2. split; [done|]. split; [done|]. split; [unfold n; lia|]. split; [done|]. unfold n in Hroom. lia.
Qed.

(** ** Whole texts *)

(** Strings in their colours, one after the other. *)
Fixpoint print_all (l : list (list Z * Z)) (fb : Framebuffer) : Result Framebuffer Crash :=
  match l with
  | [] => Ok fb
  | (s, fg) :: l => match write_str_colored get_raster s fg fb with Ok fb => print_all l fb | Err e => Err e end
  end.

Definition tokens (l : list (list Z * Z)) : list (Z * Z) := concat ((fun p : list Z * Z => (fun c => (c, p.2)) <$> p.1) <$> l).
Definition newlines_dropped (l : list (Z * Z)) : list (Z * Z) := filter (fun t => t.1 <> 10) l.

(** The characters of the rows in the order of reading. *)
Definition text_of (rows : list Row) : list (Z * Z) := concat (reverse (row_text <$> rows)).

Lemma write_chars_show bg fg s : forall rows fb, monospaced -> shows bg rows fb -> CHAR_WIDTH <= fb_width fb -> Forall plain s ->
  exists fb', write_chars get_raster fg s fb = Ok fb' /\ shows bg (foldl (type_char (fb_width fb / CHAR_WIDTH) (fb_height fb)) rows ((fun c => (c, fg)) <$> s)) fb' /\ same_size fb fb'.
Proof.
  induction s as [|c s IH]; intros rows fb Hm Hsh Hcw Hs; cbn [write_chars fmap list_fmap foldl]; [exists fb; split; [done|]; split; [done|by repeat split]|].
  apply Forall_cons in Hs as [Hc Hs]. rewrite (sh_bg _ _ _ Hsh). destruct (draw_char_shows c fg bg rows fb Hm Hsh Hcw Hc) as (fb1 & -> & H1 & S1).
  pose proof S1 as (Ew & Eh & _). destruct (IH _ fb1 Hm H1) as (fb2 & -> & H2 & S2); [by rewrite Ew|done|]. rewrite Ew, Eh in H2. exists fb2. split; [done|]. split; [exact H2|]. by apply (same_size_trans _ fb1).
Qed.

Lemma print_all_shows bg l : forall rows fb, monospaced -> shows bg rows fb -> CHAR_WIDTH <= fb_width fb -> Forall (Forall plain) l.*1 ->
  exists fb', print_all l fb = Ok fb' /\ shows bg (foldl (type_char (fb_width fb / CHAR_WIDTH) (fb_height fb)) rows (tokens l)) fb' /\ same_size fb fb'.
Proof.
  induction l as [|[s fg] l IH]; intros rows fb Hm Hsh Hcw Hs; cbn [print_all]; [exists fb; split; [done|]; split; [done|by repeat split]|].
  cbn in Hs. apply Forall_cons in Hs as [Hc Hs]. destruct (write_chars_show bg fg s rows fb Hm Hsh Hcw Hc) as (fb1 & E & H1 & S1). unfold write_str_colored. rewrite E.
  pose proof S1 as (Ew & Eh & _). destruct (IH _ fb1 Hm H1) as (fb2 & -> & H2 & S2); [by rewrite Ew|done|]. rewrite Ew, Eh, <- foldl_app in H2. exists fb2. split; [done|]. split; [exact H2|]. by apply (same_size_trans _ fb1).
Qed.

Lemma clear_paints color fb : fb_ok fb -> exists fb', clear_with_color color fb = Ok fb' /\ paints (fun X Y v => if on_screen fb X Y then color else v) fb fb'.
Proof.
  intros Hok. pose proof (ok_width fb Hok) as Hw. pose proof (ok_height fb Hok) as Hh. unfold LINE_HEIGHT in Hh. unfold clear_with_color.
  destruct (paints_loop (fun i X Y v => if in_rect 0 0 (fb_width fb) i X Y then color else v) (fun i X Y v => if in_rect 0 i (fb_width fb) 1 X Y then color else v) 0 (fb_height fb)
    (fun y => let row_offset := y *[64] fb_pitch fb in for_range 0 (fb_width fb) (fun x => write_at (row_offset +[64] x) color)) fb ltac:(lia) Hok) as (fb' & E & Hp).
  - intros X Y v. compare.
  - intros i X Y v Hi HX HY. compare.
  - intros i fb1 Hi E1 Hok1.
    destruct (paints_loop (fun j X Y v => if in_rect 0 i j 1 X Y then color else v) (fun j X Y v => if (X =? j) && (Y =? i) && on_screen fb X Y then color else v) 0 (fb_width fb)
      (fun x => write_at ((i *[64] fb_pitch fb) +[64] x) color) fb1 ltac:(lia) Hok1) as (fb' & E & Hp); [| | |by exists fb'].
    + intros X Y v. compare.
    + intros j X Y v Hj HX HY. unfold on_screen. compare.
    + intros j fb2 Hj E2 Hok2. destruct (put_visible_paints j i color fb2 Hok2) as (fb3 & E & Hp); [lia..|]. exists fb3.
      assert (fb_width fb2 = fb_width fb /\ fb_height fb2 = fb_height fb /\ fb_pitch fb2 = fb_pitch fb) as (Ew & Eh & Ep) by (rewrite E2; by rewrite E1). split.
      * rewrite <- E. unfold put_visible, put_pixel. rewrite Ew, Eh, Ep. destruct (Z.ltb_spec j (fb_width fb)), (Z.ltb_spec i (fb_height fb)), (Z.leb_spec (fb_width fb) j), (Z.leb_spec (fb_height fb) i); try lia. done.
      * unfold on_screen in *. by rewrite Ew, Eh in Hp.
  - exists fb'. split; [done|]. revert Hp. apply paints_ext. intros X Y v HX HY. unfold on_screen. compare.
Qed.

Lemma clear_shows fb : fb_ok fb -> CHAR_WIDTH <= fb_width fb -> exists fb', clear fb = Ok fb' /\ shows (bg_color fb) [mkRow 0 []] fb' /\ same_size fb fb'.
Proof.
  intros Hok Hcw. pose proof (ok_width fb Hok) as Hw. pose proof (ok_height fb Hok) as Hh. unfold clear. destruct (clear_paints (bg_color fb) fb Hok) as (fb1 & -> & P1). pose proof (paints_ok _ _ _ Hok P1) as Hok1.
  pose proof (proj1 P1) as E1. exists (set_cursor_pos 0 0 fb1). split; [done|]. assert (same_size fb (set_cursor_pos 0 0 fb1)) as S1 by exact (paints_size _ _ _ P1). split; [|done].
  pose proof S1 as (Ew & Eh & Ep & El). split.
  - by apply (fb_ok_size fb).
  - by rewrite E1.
  - exists (mkRow 0 []), []. rewrite Ew, Eh. split; [done|]. split; [done|]. split; [done|]. cbn [row_y row_text length]. split; [lia|]. unfold CHAR_WIDTH in *. Z.to_euclidean_division_equations; lia.
  - intros r ->%list_elem_of_singleton. done.
  - intros X Y HX HY. rewrite Ew in HX. rewrite Eh in HY. assert (pixel (set_cursor_pos 0 0 fb1) X Y = pixel fb1 X Y) as -> by done. destruct P1 as (_ & _ & ->); [|lia..].
    destruct (lookup_lt_is_Some_2 (fb_mem fb) (at_pixel (fb_pitch fb) X Y)) as [v Hv]; [pose proof (ok_mem fb Hok); nia|]. unfold pixel. rewrite Hv. cbn [fmap option_fmap option_map].
    assert (on_screen fb X Y = true) as -> by (unfold on_screen; compare). f_equal. unfold screen_pixel. cbn [List.find]. destruct (in_row Y _); [symmetry; apply row_pixel_empty|done].
Qed.

(** *** Where the rows are *)

(** The last row is in the screen; once it is at the bottom every row is within 22 pixels
    of a line's distance from the next, and before that the rows begin at the top. *)
Record laid (cols h : Z) (rows : list Row) : Prop := {
  la_head : exists r rest, rows = r :: rest /\ row_y r <= h - LINE_HEIGHT /\ Z.of_nat (length (row_text r)) < cols;
  la_bottom : forall r rest k r', rows = r :: rest -> rows !! k = Some r' -> row_y r' >= row_y r - LINE_HEIGHT * Z.of_nat k - 22 /\
    (row_y r <> h - LINE_HEIGHT -> row_y r' = LINE_HEIGHT * (Z.of_nat (length rows) - 1 - Z.of_nat k));
  la_order : StronglySorted (fun r r' => row_y r' + LINE_HEIGHT <= row_y r) rows;
  la_width : Forall (fun r => Z.of_nat (length (row_text r)) <= cols) rows
}.

Lemma new_row_laid cols h r rest : 0 < cols -> LINE_HEIGHT <= h -> row_y r <= h - LINE_HEIGHT ->
  (forall k r', (r :: rest) !! k = Some r' -> row_y r' >= row_y r - LINE_HEIGHT * Z.of_nat k - 22 /\
     (row_y r <> h - LINE_HEIGHT -> row_y r' = LINE_HEIGHT * (Z.of_nat (length (r :: rest)) - 1 - Z.of_nat k))) ->
  StronglySorted (fun r r' => row_y r' + LINE_HEIGHT <= row_y r) (r :: rest) -> Forall (fun r => Z.of_nat (length (row_text r)) <= cols) (r :: rest) ->
  laid cols h (new_row h (r :: rest)).
Proof.
  intros Hc Hh Hy Hb Ho Hw. assert (forall r', r' ∈ r :: rest -> row_y r' <= row_y r) as Hle.
  { intros r' [->|Hin]%elem_of_cons; [done|]. apply StronglySorted_inv in Ho as [_ Hf]. rewrite Forall_forall in Hf. specialize (Hf r' Hin). unfold LINE_HEIGHT in Hf. lia. }
  unfold new_row. destruct (Z.ltb_spec h (row_y r + LINE_HEIGHT + LINE_HEIGHT)) as [Hs|Hs]; unfold LINE_HEIGHT in *.
  - split.
    + exists (mkRow (h - 23) []), (row_up <$> r :: rest). cbn [row_y row_text length]. unfold LINE_HEIGHT. split; [done|lia].
    + intros r0 rest0 k r' [= <- <-] Hk. cbn [row_y]. split; [|unfold LINE_HEIGHT; lia]. destruct k as [|k]; [injection Hk as <-; cbn [row_y]; unfold LINE_HEIGHT; lia|].
      change ((row_up <$> r :: rest) !! k = Some r') in Hk. rewrite list_lookup_fmap in Hk. destruct ((r :: rest) !! k) as [q|] eqn:Eq; [|done]. injection Hk as <-. destruct (Hb k q Eq) as [H1 H2]. cbn [row_up row_y]. unfold LINE_HEIGHT.
      destruct (decide (row_y r = h - 23)) as [E|E]; [lia|]. specialize (H2 E). destruct (Hb O r eq_refl) as [_ H3]. specialize (H3 E). lia.
    + constructor; [|apply Forall_forall; intros r' (q & -> & Hq)%list_elem_of_fmap; specialize (Hle q Hq); cbn [row_up row_y]; unfold LINE_HEIGHT; lia].
      revert Ho. apply (StronglySorted_fmap row_up). intros a b Hab. cbn [row_up row_y]. unfold LINE_HEIGHT. lia.
    + constructor; [cbn; lia|]. apply Forall_forall. intros r' (q & -> & Hq)%list_elem_of_fmap. rewrite Forall_forall in Hw. exact (Hw q Hq).
  - assert (row_y r <> h - 23) as Hne by lia. split.
    + exists (mkRow (row_y r + 23) []), (r :: rest). cbn [row_y row_text length]. unfold LINE_HEIGHT. split; [done|lia].
    + intros r0 rest0 k r' [= <- <-] Hk. cbn [row_y]. destruct (Hb O r eq_refl) as [_ H3]. specialize (H3 Hne). destruct k as [|k]; [injection Hk as <-; cbn [row_y length] in *; unfold LINE_HEIGHT; lia|].
      change ((r :: rest) !! k = Some r') in Hk. destruct (Hb k r' Hk) as [H1 H2]. specialize (H2 Hne). cbn [length] in *. unfold LINE_HEIGHT. lia.
    + constructor; [exact Ho|]. apply Forall_forall. intros r' Hr'. specialize (Hle r' Hr'). cbn [row_y]. unfold LINE_HEIGHT. lia.
    + constructor; [cbn; lia|exact Hw].
Qed.

Lemma type_char_laid cols h rows t : 0 < cols -> LINE_HEIGHT <= h -> laid cols h rows -> laid cols h (type_char cols h rows t).
Proof.
  intros Hc Hh [(r & rest & -> & Hy & Hl) Hb Ho Hw]. unfold type_char. destruct (t.1 =? 10); [apply new_row_laid; [done|done|done|intros k r' Hk; exact (Hb r rest k r' eq_refl Hk)|done|done]|].
  set (r2 := mkRow (row_y r) (row_text r ++ [t])). apply StronglySorted_inv in Ho as [Ho Hf]. apply Forall_cons in Hw as [_ Hw].
  assert (StronglySorted (fun r r' => row_y r' + LINE_HEIGHT <= row_y r) (r2 :: rest)) as Ho2 by (constructor; [exact Ho|exact Hf]).
  assert (Forall (fun r => Z.of_nat (length (row_text r)) <= cols) (r2 :: rest)) as Hw2 by (constructor; [cbn [row_text r2]; rewrite length_app; cbn [length]; lia|exact Hw]).
  assert (forall k r', (r2 :: rest) !! k = Some r' -> row_y r' >= row_y r2 - LINE_HEIGHT * Z.of_nat k - 22 /\
    (row_y r2 <> h - LINE_HEIGHT -> row_y r' = LINE_HEIGHT * (Z.of_nat (length (r2 :: rest)) - 1 - Z.of_nat k))) as Hb2.
  { intros [|k] r' Hk; [injection Hk as <-; exact (Hb r rest O r eq_refl eq_refl)|exact (Hb r rest (Datatypes.S k) r' eq_refl Hk)]. }
  destruct (Z.leb_spec cols (Z.of_nat (length (row_text r)) + 1)); [by apply new_row_laid|]. split; [|intros r0 rest0 k r' [= <- <-]; apply Hb2|done|done].
  exists r2, rest. split; [done|]. split; [done|]. cbn [row_text r2]. rewrite length_app. cbn [length]. lia.
Qed.

Lemma foldl_laid cols h ts : forall rows, 0 < cols -> LINE_HEIGHT <= h -> laid cols h rows -> laid cols h (foldl (type_char cols h) rows ts).
Proof. induction ts as [|t ts IH]; intros rows Hc Hh Hl; [done|]. cbn [foldl]. apply IH; [done|done|]. by apply type_char_laid. Qed.

Lemma laid_start cols h : 0 < cols -> LINE_HEIGHT <= h -> laid cols h [mkRow 0 []].
Proof.
  intros Hc Hh. unfold LINE_HEIGHT in *. split.
  - exists (mkRow 0 []), []. cbn [row_y row_text length]. unfold LINE_HEIGHT. split; [done|lia].
  - intros r rest [|k] r' [= <- <-] Hk; [injection Hk as <-|done]. cbn [row_y length]. unfold LINE_HEIGHT. lia.
  - constructor; constructor.
  - constructor; [cbn; lia|done].
Qed.

(** Nothing is lost from the rows, and their order is that of typing. *)
Lemma text_of_up rows : text_of (row_up <$> rows) = text_of rows.
Proof. unfold text_of. rewrite <- list_fmap_compose. done. Qed.

Lemma text_of_new h rows : text_of (new_row h rows) = text_of rows.
Proof.
  assert (forall y rows, text_of (mkRow y [] :: rows) = text_of rows) as H.
  { intros y l. unfold text_of. cbn [fmap list_fmap row_text]. by rewrite reverse_cons, concat_app, app_nil_r. }
  destruct rows as [|r rows]; [done|]. unfold new_row. destruct (_ <? _); rewrite H; [apply text_of_up|done].
Qed.

Lemma text_of_type cols h r rest t : text_of (type_char cols h (r :: rest) t) = text_of (r :: rest) ++ newlines_dropped [t].
Proof.
  unfold type_char. destruct (Z.eqb_spec (t.1) 10) as [E|E].
  - rewrite text_of_new. unfold newlines_dropped. rewrite filter_cons_False by (by intros Hn; apply Hn). by rewrite app_nil_r.
  - unfold newlines_dropped. rewrite filter_cons_True by done. assert (text_of (mkRow (row_y r) (row_text r ++ [t]) :: rest) = text_of (r :: rest) ++ [t]) as H.
    { unfold text_of. cbn [fmap list_fmap row_text]. rewrite !reverse_cons, !concat_app. cbn [concat]. rewrite !app_nil_r. by rewrite app_assoc. }
    destruct (_ <=? _); [by rewrite text_of_new|done].
Qed.

Lemma text_of_foldl cols h ts : forall rows, 0 < cols -> LINE_HEIGHT <= h -> laid cols h rows -> text_of (foldl (type_char cols h) rows ts) = text_of rows ++ newlines_dropped ts.
Proof.
  induction ts as [|t ts IH]; intros rows Hc Hh Hl; cbn [foldl]; [unfold newlines_dropped; by rewrite filter_nil, app_nil_r|].
  rewrite IH by (done || by apply type_char_laid). destruct Hl as [(r & rest & -> & _) _ _ _]. rewrite text_of_type, <- app_assoc. f_equal. unfold newlines_dropped. by rewrite <- filter_app.
Qed.
End Shows.

(** If every glyph of the font has the size of a character cell, 12 by 20 pixels
    ([monospaced]; the code takes the width of each glyph as it comes), then a console that
    was cleared and on which text is printed - any strings in any colours, of characters
    and newlines, without tabs, carriage returns and backspaces - shows exactly the rows of the text: every pixel of the
    screen is that of the character at its place, in its colour, or the background.  The
    rows hold all characters in the order in which they were printed, none is longer than
    a line, no two overlap, and as many as fit the screen, but for one line at most, are
    entirely on it. *)
Theorem console_shows_text get_raster l fb : monospaced get_raster -> fb_ok fb -> CHAR_WIDTH <= fb_width fb -> Forall (Forall plain) l.*1 ->
  exists fb0 fb', clear fb = Ok fb0 /\ print_all get_raster l fb0 = Ok fb' /\
  let cols := fb_width fb / CHAR_WIDTH in let h := fb_height fb in
  let rows := foldl (type_char cols h) [mkRow 0 []] (tokens l) in
  (forall X Y, 0 <= X < fb_width fb -> 0 <= Y < h -> pixel fb' X Y = Some (screen_pixel get_raster (bg_color fb) rows X Y)) /\
  text_of rows = newlines_dropped (tokens l) /\
  StronglySorted (fun r r' => row_y r' + LINE_HEIGHT <= row_y r) rows /\
  forall k r, rows !! k = Some r -> Z.of_nat (length (row_text r)) <= cols /\ row_y r <= h - LINE_HEIGHT /\ (LINE_HEIGHT * Z.of_nat k + 45 <= h -> 0 <= row_y r).
Proof.
  intros Hm Hok Hcw Hpl. destruct (clear_shows get_raster fb Hok Hcw) as (fb0 & E0 & H0 & S0). pose proof S0 as (Ew & Eh & _).
  destruct (print_all_shows get_raster (bg_color fb) l [mkRow 0 []] fb0 Hm H0) as (fb' & E & H' & S'); [by rewrite Ew|done|]. rewrite Ew, Eh in H'. pose proof S' as (Ew' & Eh' & _).
  exists fb0, fb'. split; [done|]. split; [done|]. cbv zeta. set (cols := fb_width fb / CHAR_WIDTH) in *. set (h := fb_height fb) in *.
  assert (0 < cols) as Hcols by (unfold cols, CHAR_WIDTH in *; Z.to_euclidean_division_equations; lia). assert (LINE_HEIGHT <= h) as Hh by apply (ok_height fb Hok).
  split; [intros X Y HX HY; apply H'; [rewrite Ew', Ew|rewrite Eh', Eh]; done|]. rewrite (text_of_foldl cols h _ _ Hcols Hh (laid_start cols h Hcols Hh)). split; [done|].
  destruct (foldl_laid cols h (tokens l) _ Hcols Hh (laid_start cols h Hcols Hh)) as [(r0 & rest & Er & Hy & Hl) Hb Ho Hw]. split; [exact Ho|].
  intros k r Hk. rewrite Forall_forall in Hw. split; [apply Hw; by eapply list_elem_of_lookup_2|]. destruct (Hb r0 rest k r Er Hk) as [H1 H2].
  destruct (Hb r0 rest O r0 Er ltac:(by rewrite Er)) as [_ H3]. rewrite Er in Ho, Hk. apply StronglySorted_inv in Ho as [_ Hf]. rewrite Forall_forall in Hf.
  assert (row_y r <= row_y r0) as Hle. { destruct k as [|k]; [injection Hk as <-; done|]. specialize (Hf r ltac:(by eapply list_elem_of_lookup_2)). unfold LINE_HEIGHT in Hf. lia. }
  pose proof (lookup_lt_Some _ _ _ Hk) as Hlt. rewrite <- Er in Hlt. unfold LINE_HEIGHT in *. split; [lia|]. intros Hv. destruct (decide (row_y r0 = h - 23)) as [E23|E23]; [lia|]. specialize (H2 E23). lia.
Qed.

(** ** Calls *)

Inductive ConsoleOp : Type :=
| Print (s : list Z) | PrintColored (s : list Z) (color : Z) | PrintChar (c color : Z) | CharAt (c x y fg bg : Z)
| Clear | ClearLine | ClearCurrentLine | SetFg (c : Z) | SetBg (c : Z) | SetCursor (x y : Z)
| Blit (pixels : list Z) (x y w h : Z) | Fill (x y w h color : Z).

Definition run_console (get_raster : Z -> option Raster) (o : ConsoleOp) : option Framebuffer -> Result (option Framebuffer) Crash :=
  match o with
  | Print s => print get_raster s
  | PrintColored s color => print_colored get_raster s color
  | PrintChar c color => print_char get_raster c color
  | CharAt c x y fg bg => on_fb (draw_char_at get_raster c x y fg bg)
  | Clear => on_fb clear
  | ClearLine => on_fb fb_clear_line
  | ClearCurrentLine => on_fb fb_clear_current_line
  | SetFg c => on_fb (fun fb => Ok (set_fg_color c fb))
  | SetBg c => on_fb (fun fb => Ok (set_bg_color c fb))
  | SetCursor x y => on_fb (fun fb => Ok (set_cursor_pos x y fb))
  | Blit pixels x y w h => blit_buffer pixels x y w h
  | Fill x y w h color => fill_rect x y w h color
  end.

(** Positions are machine words; nothing else is asked of the arguments. *)
Definition console_op_typed (o : ConsoleOp) : Prop :=
  match o with SetCursor x y | CharAt _ x y _ _ => in_width 64 x /\ in_width 64 y | _ => True end.

Fixpoint run_consoles (get_raster : Z -> option Raster) (l : list ConsoleOp) (o : option Framebuffer) : Result (option Framebuffer) Crash :=
  match l with [] => Ok o | op :: l => match run_console get_raster op o with Ok o => run_consoles get_raster l o | Err e => Err e end end.

Lemma run_console_safe get_raster o fb : console_op_typed o -> fb_ok fb -> exists fb', run_console get_raster o (Some fb) = Ok (Some fb') /\ fb_ok fb' /\ same_size fb fb'.
Proof.
  intros Ht Hok. assert (forall f, safe f -> exists fb', on_fb f (Some fb) = Ok (Some fb') /\ fb_ok fb' /\ same_size fb fb') as H.
  { intros f Hf. destruct (Hf fb Hok) as (fb' & E & Hok' & Hs). exists fb'. cbn [on_fb]. by rewrite E. }
  pose proof (ok_cursor fb Hok) as [Hx Hy]. assert (forall g, (forall fb, same_size fb (g fb) /\ fb_x (g fb) = fb_x fb /\ fb_y (g fb) = fb_y fb) -> safe (fun fb => Ok (g fb))) as Hcol.
  { intros g Hg. apply safe_ok. intros fb0 H0. destruct (Hg fb0) as (? & -> & ->). split; [done|apply H0]. }
  destruct o as [s|s color|c color|c x y fg bg| | | |c|c|x y|pixels x y w h|x y w h color]; cbn [run_console]; apply H.
  - apply (safe_read (fun fb0 => write_chars get_raster (fg_color fb0) s)). intros fb0 _. apply safe_write_chars.
  - apply safe_write_chars.
  - intros fb0 H0. apply (safe_seq (fun fb => draw_char get_raster c color (bg_color fb0) (set_fg_color color fb)) (fun fb' => Ok (set_fg_color (fg_color fb0) fb'))); [|by apply Hcol|done].
    apply (safe_seq (fun fb => Ok (set_fg_color color fb))); [by apply Hcol|apply safe_draw_char].
  - intros fb0 H0. apply (safe_seq (fun fb => draw_char get_raster c fg bg (set_cursor_pos x y fb)) (fun fb' => Ok (set_cursor_pos (fb_x fb0) (fb_y fb0) fb'))); [| |done].
    + apply (safe_seq (fun fb => Ok (set_cursor_pos x y fb))); [by apply (safe_cursor (fun _ => (x, y)))|apply safe_draw_char].
    + apply (safe_cursor (fun _ => (fb_x fb0, fb_y fb0))). intros _ _. apply H0.
  - intros fb0 H0. apply (safe_seq (clear_with_color (bg_color fb0)) (fun fb => Ok (set_cursor_pos 0 0 fb))); [apply safe_clear_with_color|by apply (safe_cursor (fun _ => (0, 0)))|done].
  - intros fb0 H0. apply safe_clear_from; [|done]. apply H0.
  - apply (safe_seq (clear_from 0)); [by apply safe_clear_from|by apply (safe_set_x (fun _ => 0))].
  - by apply Hcol.
  - by apply Hcol.
  - by apply (safe_cursor (fun _ => (x, y))).
  - apply safe_draw_rect.
  - apply safe_draw_rect.
Qed.

(** C36: No sequence of calls faults or writes outside the framebuffer, whatever is printed -
    control characters included -, whatever glyphs the font has, wherever the cursor is
    set and however large the rectangles are; and the framebuffer keeps its size.  The
    screen is at least one line of text high and its rows lie inside its memory ([fb_ok]). *)
Theorem console_safe get_raster l fb : Forall console_op_typed l -> fb_ok fb ->
  exists fb', run_consoles get_raster l (Some fb) = Ok (Some fb') /\ fb_ok fb' /\ same_size fb fb'.
Proof.
  intros Ht. revert fb. induction Ht as [|o l Ho Ht IH]; intros fb Hok; cbn [run_consoles]; [exists fb; split; [done|]; split; [done|by repeat split]|].
  destruct (run_console_safe get_raster o fb Ho Hok) as (fb1 & -> & H1 & S1). destruct (IH fb1 H1) as (fb2 & -> & H2 & S2). exists fb2. split; [done|]. split; [done|]. by apply (same_size_trans _ fb1).
Qed.

(** ** Witnesses *)

(** A screen of two lines of three characters and a bit, and a font with one glyph. *)
Definition small_screen : Framebuffer := mkFb (replicate (40 * 50) 7) 38 50 40 0 0 0xFFFFFF 0.

Definition one_glyph (c : Z) : option Raster := if c =? 65 then Some (mkRaster 12 (replicate 20 (replicate 12 200))) else None.

Lemma one_glyph_monospaced : monospaced one_glyph.
Proof. intros c g. unfold one_glyph. destruct (c =? 65); [|done]. intros [= <-]. repeat split. apply (bool_decide_unpack _). vm_compute. exact I. Qed.

Lemma small_screen_ok : fb_ok small_screen.
Proof.
  split; [vm_compute; split; congruence|vm_compute; reflexivity|vm_compute; split; congruence|apply Z.leb_le; vm_compute; reflexivity|].
  split; vm_compute; split; congruence.
Qed.

(** "AAAA\nA": the fourth character wraps, the rows scroll, and the first is cut off. *)
Lemma console_shows_text_witness : exists fb', print_all one_glyph [([65; 65; 65; 65], 0x00FF00); ([10; 65], 0xFF0000)] (match clear small_screen with Ok fb => fb | Err _ => small_screen end) = Ok fb' /\
  pixel fb' 3 30 = Some 0xFF0000 /\ pixel fb' 3 5 = Some 0x00FF00 /\ pixel fb' 13 5 = Some 0.
Proof.
  destruct (console_shows_text one_glyph [([65; 65; 65; 65], 0x00FF00); ([10; 65], 0xFF0000)] small_screen one_glyph_monospaced small_screen_ok ltac:(discriminate)) as (fb0 & fb' & -> & E & Hp & _).
  { apply (bool_decide_unpack (Forall (Forall (fun c => c <> 8 /\ c <> 9 /\ c <> 13 /\ c <> 127)) _)). vm_compute. exact I. }
  exists fb'. split; [exact E|]. clear E. split; [|split]; (rewrite Hp; [vm_compute; reflexivity|vm_compute; split; congruence..]).
Defined.

Lemma console_safe_witness : exists fb', run_consoles one_glyph [SetCursor (2 ^ 64 - 1) (2 ^ 64 - 5); Print [65; 8; 9; 10]; Fill 30 (2 ^ 64 - 1) 100 3 5] (Some small_screen) = Ok (Some fb') /\ fb_ok fb'.
Proof.
  destruct (console_safe one_glyph [SetCursor (2 ^ 64 - 1) (2 ^ 64 - 5); Print [65; 8; 9; 10]; Fill 30 (2 ^ 64 - 1) 100 3 5] small_screen) as (fb' & E & Hok & _); [|exact small_screen_ok|exact (ex_intro _ fb' (conj E Hok))].
  constructor; [|constructor; [|constructor; [|constructor]]]; [|exact I..]. vm_compute. repeat split; congruence.
Defined.
