(* ===== verification/Acpi.v ===== *)
(** * Firmware tables ([acpi/mod.rs], [acpi/madt.rs])

    The search for the root pointer, for a table by its signature, and the list of
    interrupt controllers.  Memory is a parameter, by virtual address.  Theorems: a table
    that is found is the first listed one with the signature, and one that is not found is
    not listed; a well-formed list of controllers is read as it was written; an entry of
    length zero makes the walk endless. *)

From Stdlib Require Import ZArith Lia Bool.
From stdpp Require Import base numbers option list strings.
From S2P Require Import Prelude Bytes Elf.

Open Scope Z_scope.

(** ** The tables *)

Definition SDT_HEADER_SIZE : Z := 36.
Definition MADT_SIZE : Z := 44.

(** The eight bytes of the root pointer's signature, "RSD PTR ". *)
Definition RSDP_SIGNATURE : list Z := [82; 83; 68; 32; 80; 84; 82; 32].
Definition APIC_SIGNATURE : list Z := [65; 80; 73; 67].

Section Firmware.
(** Memory by virtual address, the offset of the direct map, and what the boot loader
    says the root pointer is. *)
Context (m : Mem) (hhdm : Z) (limine : option Z).

Definition virt (phys : Z) : Z := phys +[64] hhdm.

(** Offsets from [start] in steps of 16. *)
Fixpoint search_from (n : nat) (i start length : Z) : option Z :=
  match n with
  | O => None
  | S n =>
      if length <? i + 8 then None
      else if bool_decide (load_bytes 8 (start + i) m = RSDP_SIGNATURE) then Some i
      else search_from n (i + 16) start length
  end.

Definition search_rsdp_offset (start length : Z) : option Z := search_from (Z.to_nat ((length + 15) / 16)) 0 start length.

Definition find_rsdp_legacy : option Z :=
  let bios_start := 0xE0000 +[64] hhdm in
  match search_rsdp_offset bios_start 0x20000 with Some offset => Some (bios_start +[64] offset) | None => None end.

Definition get_rsdp_virt : option Z :=
  match limine with Some rsdp_virt => Some rsdp_virt | None => find_rsdp_legacy end.

(** The words of [n] bytes behind the header of a root table. *)
Definition root_entries (n : nat) (phys : Z) : list Z :=
  let header := virt phys in
  let count := (load 4 (header + 4) m -[64] SDT_HEADER_SIZE) / Z.of_nat n in
  (fun i => load n (header + SDT_HEADER_SIZE + Z.of_nat n * i) m) <$> seqZ 0 count.

Definition parse_xsdt (xsdt_phys : Z) : list Z := root_entries 8 xsdt_phys.
Definition parse_rsdt (rsdt_phys : Z) : list Z := root_entries 4 rsdt_phys.

(** The loop over the entries of a root table. *)
Fixpoint scan_entries (signature : list Z) (entries : list Z) : option Z :=
  match entries with
  | [] => None
  | entry_phys :: entries =>
      if entry_phys =? 0 then scan_entries signature entries
      else if bool_decide (load_bytes 4 (virt entry_phys) m = signature) then Some entry_phys
      else scan_entries signature entries
  end.

Definition find_table (signature : list Z) : option Z :=
  match get_rsdp_virt with
  | None => None
  | Some rsdp =>
      let revision := load 1 (rsdp + 15) m in
      let xsdt_addr := load 8 (rsdp + 24) m in
      let rsdt_addr := load 4 (rsdp + 16) m in
      let first := if (2 <=? revision) && negb (xsdt_addr =? 0) then scan_entries signature (parse_xsdt xsdt_addr) else None in
      match first with
      | Some p => Some p
      | None => if negb (rsdt_addr =? 0) then scan_entries signature (parse_rsdt rsdt_addr) else None
      end
  end.

(** ** Interrupt controllers *)

Record MadtInfo : Type := mkMadtInfo { local_apic_addr : Z; local_apics : list Z; ioapic_addr : Z; ioapic_gsi_base : Z }.

Definition push_apic (i : Z) (info : MadtInfo) : MadtInfo :=
  mkMadtInfo (local_apic_addr info) (local_apics info ++ [i]) (ioapic_addr info) (ioapic_gsi_base info).
Definition set_ioapic (addr base : Z) (info : MadtInfo) : MadtInfo :=
  mkMadtInfo (local_apic_addr info) (local_apics info) addr base.

Definition parse_entry (offset : Z) (info : MadtInfo) : MadtInfo :=
  match load 1 offset m with
  | 0 => if negb (Z.land (load 4 (offset + 4) m) 1 =? 0) then push_apic (load 1 (offset + 3) m) info else info
  | 1 => set_ioapic (load 4 (offset + 4) m) (load 4 (offset + 8) m) info
  | 9 => if negb (Z.land (load 4 (offset + 8) m) 1 =? 0) then push_apic (load 4 (offset + 4) m) info else info
  | _ => info
  end.

Fixpoint madt_loop (fuel : nat) (offset entries_end : Z) (info : MadtInfo) : option MadtInfo :=
  match fuel with
  | O => None
  | S fuel =>
      if offset <? entries_end then madt_loop fuel (offset +[64] load 1 (offset + 1) m) entries_end (parse_entry offset info)
      else Some info
  end.

(** A round for every byte of the table; [Diverges] when that is not enough. *)
Definition parse_madt : Result (option MadtInfo) (Failure unit) :=
  match find_table APIC_SIGNATURE with
  | None => Ok None
  | Some madt_phys =>
      let madt := virt madt_phys in
      let info := mkMadtInfo (load 4 (madt + 36) m) [] 0 0 in
      let entries_start := madt + MADT_SIZE in
      let entries_end := madt +[64] load 4 (madt + 4) m in
      match madt_loop (S (Z.to_nat (entries_end - entries_start))) entries_start entries_end info with
      | Some info => Ok (Some info)
      | None => Err Diverges
      end
  end.

(** ** Finding *)

(** The tables that the root tables list, in the order of the search. *)
Definition listed : list Z :=
  match get_rsdp_virt with
  | None => []
  | Some rsdp =>
      (if (2 <=? load 1 (rsdp + 15) m) && negb (load 8 (rsdp + 24) m =? 0) then parse_xsdt (load 8 (rsdp + 24) m) else []) ++
      (if negb (load 4 (rsdp + 16) m =? 0) then parse_rsdt (load 4 (rsdp + 16) m) else [])
  end.

Definition has_signature (signature : list Z) (p : Z) : Prop := p <> 0 /\ load_bytes 4 (virt p) m = signature.

#[global] Instance has_signature_dec signature p : Decision (has_signature signature p).
Proof. unfold has_signature. apply _. Defined.

Lemma scan_spec signature l : match scan_entries signature l with
  | Some p => exists l1 l2, l = l1 ++ p :: l2 /\ has_signature signature p /\ Forall (fun q => ~ has_signature signature q) l1
  | None => Forall (fun q => ~ has_signature signature q) l
  end.
Proof.
  induction l as [|q l IH]; cbn [scan_entries]; [constructor|]. destruct (Z.eqb_spec q 0) as [->|Hq]; [|case_bool_decide as Hs].
  - assert (~ has_signature signature 0) as H0 by (by intros []). destruct (scan_entries signature l) as [p|]; [|by constructor].
    destruct IH as (l1 & l2 & -> & Hp & Hf). exists (0 :: l1), l2. split; [done|]. split; [done|]. by constructor.
  - exists [], l. split; [done|]. split; [done|constructor].
  - assert (~ has_signature signature q) as H0 by (by intros []). destruct (scan_entries signature l) as [p|]; [|by constructor].
    destruct IH as (l1 & l2 & -> & Hp & Hf). exists (q :: l1), l2. split; [done|]. split; [done|]. by constructor.
Qed.

Lemma scan_app signature l l' : scan_entries signature (l ++ l') = match scan_entries signature l with Some p => Some p | None => scan_entries signature l' end.
Proof. induction l as [|q l IH]; cbn [scan_entries app]; [done|]. destruct (q =? 0); [done|]. by case_bool_decide. Qed.

Lemma find_table_scan signature : find_table signature = scan_entries signature listed.
Proof.
  unfold find_table, listed. destruct get_rsdp_virt as [rsdp|]; [|done]. cbv zeta. rewrite scan_app. destruct (_ && _), (negb (load 4 _ m =? 0)); done.
Qed.

Lemma search_spec start length : forall n i, match search_from n i start length with
  | Some o => exists k, (k < n)%nat /\ o = i + 16 * Z.of_nat k /\ o + 8 <= length /\ load_bytes 8 (start + o) m = RSDP_SIGNATURE /\
      forall j, (j < k)%nat -> load_bytes 8 (start + (i + 16 * Z.of_nat j)) m <> RSDP_SIGNATURE
  | None => forall k, (k < n)%nat -> i + 16 * Z.of_nat k + 8 <= length -> load_bytes 8 (start + (i + 16 * Z.of_nat k)) m <> RSDP_SIGNATURE
  end.
Proof.
  induction n as [|n IH]; intros i; cbn [search_from]; [lia|]. destruct (Z.ltb_spec length (i + 8)); [lia|]. case_bool_decide as Hs.
  - exists O. rewrite Z.add_0_r. split; [lia|]. split; [done|]. split; [lia|]. split; [done|lia].
  - assert (forall j, i + 16 * Z.of_nat (S j) = i + 16 + 16 * Z.of_nat j) as Hj by lia. assert (load_bytes 8 (start + (i + 16 * Z.of_nat 0)) m <> RSDP_SIGNATURE) as H0 by (by rewrite Z.add_0_r).
    specialize (IH (i + 16)). destruct (search_from n (i + 16) start length) as [o|].
    + destruct IH as (k & Hk & -> & Hl & Hsig & Hf). exists (S k). rewrite Hj. split; [lia|]. split; [done|]. split; [done|]. split; [done|]. intros [|j] Hlt; [done|]. rewrite Hj. apply Hf. lia.
    + intros [|k] Hk Hl; [done|]. rewrite Hj. apply IH; lia.
Qed.

(** ** Reading a list of controllers *)

Lemma load_bytes_field N a k n : (k + n <= N)%nat -> load_bytes n (a + Z.of_nat k) m = field k n (load_bytes N a m).
Proof.
  intros H. apply list_eq. intros i. unfold field. destruct (decide (i < n)%nat) as [Hi|Hi].
  - rewrite lookup_take_lt, lookup_drop by done. rewrite !lookup_load_bytes. rewrite !decide_True by lia. f_equal. f_equal. lia.
  - rewrite !lookup_ge_None_2; [done|rewrite length_take, length_drop, length_load_bytes; lia|rewrite length_load_bytes; lia].
Qed.
End Firmware.

(** The entries of the list; [Other] is one of a type that the walk skips. *)
Inductive MadtEntry : Type :=
| LocalApic (acpi_processor_id apic_id flags : Z)
| IoApic (io_apic_id io_apic_address global_system_interrupt_base : Z)
| X2Apic (x2apic_id flags acpi_processor_uid : Z)
| Other (entry_type : Z) (contents : list Z).

Definition u8 (x : Z) : nat * Z := (1%nat, x).
Definition u16 (x : Z) : nat * Z := (2%nat, x).
Definition u32 (x : Z) : nat * Z := (4%nat, x).

Definition entry_fields (e : MadtEntry) : list (nat * Z) :=
  match e with
  | LocalApic uid i flags => [u8 0; u8 8; u8 uid; u8 i; u32 flags]
  | IoApic i addr base => [u8 1; u8 12; u8 i; u8 0; u32 addr; u32 base]
  | X2Apic i flags uid => [u8 9; u8 16; u16 0; u32 i; u32 flags; u32 uid]
  | Other t contents => [u8 t; u8 (2 + Z.of_nat (length contents))]
  end.

Definition entry_rest (e : MadtEntry) : list Z := match e with Other _ contents => contents | _ => [] end.
Definition entry_bytes (e : MadtEntry) : list Z := pack (entry_fields e) ++ entry_rest e.

Definition entry_wf (e : MadtEntry) : Prop :=
  fits (entry_fields e) /\ match e with Other t _ => t <> 0 /\ t <> 1 /\ t <> 9 | _ => True end.

(** What an entry says, and what all of them do. *)
Definition add_entry (info : MadtInfo) (e : MadtEntry) : MadtInfo :=
  match e with
  | LocalApic _ i flags | X2Apic i flags _ => if Z.testbit flags 0 then push_apic i info else info
  | IoApic _ addr base => set_ioapic addr base info
  | Other _ _ => info
  end.

Definition madt_info (local_apic : Z) (l : list MadtEntry) : MadtInfo := foldl add_entry (mkMadtInfo local_apic [] 0 0) l.

Lemma land_one x : negb (Z.land x 1 =? 0) = Z.testbit x 0.
Proof. change 1 with (mask 0). rewrite land_mask_zero by done. apply negb_involutive. Qed.

(** What a block of memory holds is read from it, and its second part lies behind the first. *)
Lemma load_get m a x y k n : load_bytes (length (x ++ y)) a m = x ++ y -> (k + n <= length x)%nat -> load n (a + Z.of_nat k) m = get k n (x ++ y).
Proof. intros H Hk. unfold load, get. rewrite (load_bytes_field m (length (x ++ y))) by (rewrite length_app; lia). by rewrite H. Qed.

Lemma load_behind m a x y : load_bytes (length (x ++ y)) a m = x ++ y -> load_bytes (length y) (a + Z.of_nat (length x)) m = y.
Proof.
  intros H. rewrite (load_bytes_field m (length (x ++ y))) by (rewrite length_app; lia). rewrite H. unfold field. rewrite drop_app_length. apply take_ge. lia.
Qed.

Lemma entry_field m a e rest i n x k : load_bytes (length (entry_bytes e ++ rest)) a m = entry_bytes e ++ rest -> fits (entry_fields e) ->
  entry_fields e !! i = Some (n, x) -> k = packed_size (take i (entry_fields e)) -> load n (a + Z.of_nat k) m = x.
Proof.
  intros H Hf Hi ->. unfold entry_bytes in H. rewrite <- app_assoc in H. rewrite (load_get m a _ _ _ _ H).
  - by apply (get_pack (entry_fields e) i []).
  - rewrite length_pack. rewrite <- (take_drop_middle _ _ _ Hi) at 2. unfold packed_size. rewrite foldr_app. cbn [foldr fst].
    generalize (foldr (fun (p : nat * Z) k => (p.1 + k)%nat) 0%nat (drop (S i) (entry_fields e))). intros r. induction (take i (entry_fields e)) as [|p l IH]; cbn [foldr]; lia.
Qed.

Lemma entry_step m a e rest info : load_bytes (length (entry_bytes e ++ rest)) a m = entry_bytes e ++ rest -> entry_wf e ->
  parse_entry m a info = add_entry info e /\ load 1 (a + 1) m = Z.of_nat (length (entry_bytes e)).
Proof.
  intros H [Hf Ht]. pose proof (entry_field m a e rest) as Hg. assert (load 1 (a + 0) m = match e with LocalApic _ _ _ => 0 | IoApic _ _ _ => 1 | X2Apic _ _ _ => 9 | Other t _ => t end) as H0.
  { destruct e; by apply (Hg 0%nat 1%nat _ 0%nat H Hf). }
  assert (load 1 (a + 1) m = Z.of_nat (length (entry_bytes e))) as H1.
  { unfold entry_bytes. rewrite length_app, length_pack. destruct e; (etransitivity; [exact (Hg 1%nat 1%nat _ 1%nat H Hf eq_refl eq_refl)|cbn; lia]). }
  split; [|exact H1]. rewrite Z.add_0_r in H0. unfold parse_entry. rewrite H0. destruct e as [uid i flags|i addr base|i flags uid|t contents]; cbn [add_entry]; rewrite ?land_one.
  - rewrite (Hg 4%nat 4%nat flags 4%nat H Hf eq_refl eq_refl : load 4 (a + 4) m = _). by rewrite (Hg 3%nat 1%nat i 3%nat H Hf eq_refl eq_refl : load 1 (a + 3) m = _).
  - rewrite (Hg 4%nat 4%nat addr 4%nat H Hf eq_refl eq_refl : load 4 (a + 4) m = _). by rewrite (Hg 5%nat 4%nat base 8%nat H Hf eq_refl eq_refl : load 4 (a + 8) m = _).
  - rewrite (Hg 4%nat 4%nat flags 8%nat H Hf eq_refl eq_refl : load 4 (a + 8) m = _). by rewrite (Hg 3%nat 4%nat i 4%nat H Hf eq_refl eq_refl : load 4 (a + 4) m = _).
  - destruct Ht as (? & ? & ?). destruct t as [|p|p]; try done. do 4 (destruct p as [p|p|]; try done).
Qed.

Lemma entry_length e : entry_wf e -> 2 <= Z.of_nat (length (entry_bytes e)) < 256.
Proof.
  intros [Hf _]. unfold entry_bytes. rewrite length_app, length_pack. destruct e as [| | |t contents]; [done..|]. change (packed_size _) with 2%nat. cbn [entry_rest].
  apply Forall_cons in Hf as [_ Hf]. apply Forall_cons in Hf as [Hl _]. change (0 <= 2 + Z.of_nat (length contents) < 256) in Hl. lia.
Qed.

Lemma madt_loop_spec m l : forall a info fuel, Forall entry_wf l -> let bs := concat (entry_bytes <$> l) in
  load_bytes (length bs) a m = bs -> 0 <= a -> a + Z.of_nat (length bs) < 2 ^ 64 -> (length bs < fuel)%nat ->
  madt_loop m fuel a (a + Z.of_nat (length bs)) info = Some (foldl add_entry info l).
Proof.
  induction l as [|e l IH]; intros a info fuel Hwf bs Hm Ha Hend Hfuel; (destruct fuel as [|fuel]; [lia|]); cbn [madt_loop foldl].
  - cbn in bs. subst bs. cbn [length Z.of_nat]. by rewrite Z.add_0_r, Z.ltb_irrefl.
  - apply Forall_cons in Hwf as [He Hl]. pose proof (entry_length e He) as Hlen. set (rest := concat (entry_bytes <$> l)) in *. change bs with (entry_bytes e ++ rest) in *. clear bs.
    destruct (entry_step m a e rest info Hm He) as [-> ->]. rewrite length_app in *. rewrite (proj2 (Z.ltb_lt a _)) by lia. rewrite wrap_small by (unfold in_width; lia).
    replace (a + Z.of_nat (length (entry_bytes e) + length rest)) with (a + Z.of_nat (length (entry_bytes e)) + Z.of_nat (length rest)) by lia.
    apply IH; [done| |fold rest; lia..]. apply load_behind. by rewrite length_app.
Qed.

(** Looking for a table gives the first of the listed tables - those of the 64-bit root
    table, when the firmware has one, before those of the 32-bit one - that is not null
    and has the signature, and nothing only if no listed table has it.  Checksums
    are not looked at. *)
Theorem find_table_correct m hhdm limine signature :
  match find_table m hhdm limine signature with
  | Some p => exists l1 l2, listed m hhdm limine = l1 ++ p :: l2 /\ has_signature m hhdm signature p /\ Forall (fun q => ~ has_signature m hhdm signature q) l1
  | None => Forall (fun q => ~ has_signature m hhdm signature q) (listed m hhdm limine)
  end.
Proof. rewrite find_table_scan. apply scan_spec. Qed.

(** Without the boot loader's answer the root pointer is the first place on a 16-byte
    boundary of the BIOS area with the signature, if there is one. *)
Theorem rsdp_search_correct m hhdm : 0 <= hhdm -> hhdm + 0x100000 < 2 ^ 64 ->
  match get_rsdp_virt m hhdm None with
  | Some p => exists k, Z.of_nat k < 8192 /\ p = hhdm + 0xE0000 + 16 * Z.of_nat k /\ load_bytes 8 p m = RSDP_SIGNATURE /\
      forall j, (j < k)%nat -> load_bytes 8 (hhdm + 0xE0000 + 16 * Z.of_nat j) m <> RSDP_SIGNATURE
  | None => forall k, Z.of_nat k < 8192 -> load_bytes 8 (hhdm + 0xE0000 + 16 * Z.of_nat k) m <> RSDP_SIGNATURE
  end.
Proof.
  intros H0 H1. unfold get_rsdp_virt, find_rsdp_legacy, search_rsdp_offset. rewrite (wrap_small 64 (0xE0000 + hhdm)) by (unfold in_width; lia).
  pose proof (search_spec m (0xE0000 + hhdm) 0x20000 (Z.to_nat ((0x20000 + 15) / 16)) 0) as Hs. assert (Z.of_nat (Z.to_nat ((0x20000 + 15) / 16)) = 8192) as E by (vm_compute; reflexivity). set (n := Z.to_nat ((0x20000 + 15) / 16)) in *. clearbody n.
  assert (forall k, 0xE0000 + hhdm + (0 + 16 * Z.of_nat k) = hhdm + 0xE0000 + 16 * Z.of_nat k) as Ek by lia.
  destruct (search_from _ _ _ _ _) as [o|].
  - destruct Hs as (k & Hk & -> & Hl & Hsig & Hf). rewrite wrap_small by (unfold in_width; lia). exists k. rewrite Ek in *. split; [lia|]. split; [done|]. split; [done|]. intros j Hj. rewrite <- Ek. by apply Hf.
  - intros k Hk. rewrite <- Ek. apply Hs; lia.
Qed.

(** C37: A list of controllers as the specification lays it out - enabled and disabled local
    controllers of both kinds, I/O controllers and entries of other types - is read
    completely: the walk ends, the enabled controllers are in the order of the list, and
    the last I/O controller is the one that is used. *)
Theorem madt_roundtrip m hhdm limine phys local_apic l : find_table m hhdm limine APIC_SIGNATURE = Some phys -> Forall entry_wf l ->
  let madt := virt hhdm phys in let bs := concat (entry_bytes <$> l) in
  madt + MADT_SIZE + Z.of_nat (length bs) < 2 ^ 64 -> load 4 (madt + 4) m = MADT_SIZE + Z.of_nat (length bs) -> load 4 (madt + 36) m = local_apic ->
  load_bytes (length bs) (madt + MADT_SIZE) m = bs ->
  parse_madt m hhdm limine = Ok (Some (madt_info local_apic l)).
Proof.
  intros Hf Hwf madt bs Hend Hlen Hla Hbs. unfold parse_madt. rewrite Hf. cbv zeta. fold madt. rewrite Hlen, Hla. assert (0 <= madt) as Hm by (apply Z.mod_pos_bound; lia). unfold MADT_SIZE in *.
  rewrite wrap_small by (unfold in_width; lia). replace (madt + (44 + Z.of_nat (length bs))) with (madt + 44 + Z.of_nat (length bs)) by lia.
  pose proof (madt_loop_spec m l (madt + 44) (mkMadtInfo local_apic [] 0 0) (S (Z.to_nat (madt + 44 + Z.of_nat (length bs) - (madt + 44)))) Hwf Hbs) as Hl. cbv zeta in Hl. fold bs in Hl.
  rewrite Hl; [done|lia..].
Qed.

(** An entry whose length is zero is read again and again: no number of rounds ends the walk. *)
Theorem madt_zero_length_diverges m fuel offset entries_end info : in_width 64 offset -> offset < entries_end -> load 1 (offset + 1) m = 0 ->
  madt_loop m fuel offset entries_end info = None.
Proof.
  intros Hw Ho Hz. revert info. induction fuel as [|fuel IH]; intros info; cbn [madt_loop]; [done|]. rewrite (proj2 (Z.ltb_lt _ _)) by done. rewrite Hz, Z.add_0_r, wrap_small by done. apply IH.
Qed.

(** ** Witnesses *)

(** A root pointer at 0x100 with a 32-bit root table at 0x200 that lists a null entry and
    the controllers at 0x300. *)
Definition demo_entries : list MadtEntry := [LocalApic 0 0 1; LocalApic 1 1 0; Other 2 [0; 0; 2; 0; 0; 0; 0; 0]; IoApic 2 0xFEC00000 0; X2Apic 300 1 2].

Definition demo_firmware : Mem :=
  store_bytes 0x300 (APIC_SIGNATURE ++ le 4 (44 + 54) ++ replicate 28 0 ++ le 4 0xFEE00000 ++ le 4 1 ++ concat (entry_bytes <$> demo_entries))
    (store 4 0x228 0x300 (store 4 0x224 0 (store 4 0x204 44 (store 4 0x110 0x200 ∅)))).

Lemma demo_entries_wf : Forall entry_wf demo_entries.
Proof. repeat (constructor; [split; [apply (bool_decide_unpack _); vm_compute; exact I|done]|]). constructor. Qed.

Lemma madt_roundtrip_witness : parse_madt demo_firmware 0 (Some 0x100) = Ok (Some (mkMadtInfo 0xFEE00000 [0; 300] 0xFEC00000 0)).
Proof.
  assert (find_table demo_firmware 0 (Some 0x100) APIC_SIGNATURE = Some 0x300) as Hf by (vm_compute; reflexivity).
  exact (madt_roundtrip demo_firmware 0 (Some 0x100) 0x300 0xFEE00000 demo_entries Hf demo_entries_wf ltac:(vm_compute; reflexivity) ltac:(vm_compute; reflexivity) ltac:(vm_compute; reflexivity) ltac:(vm_compute; reflexivity)).
Defined.

Lemma rsdp_search_correct_witness : get_rsdp_virt (store_bytes 0xE0020 RSDP_SIGNATURE ∅) 0 None <> None.
Proof.
  intros E. pose proof (rsdp_search_correct (store_bytes 0xE0020 RSDP_SIGNATURE ∅) 0 ltac:(lia) ltac:(lia)) as H. rewrite E in H.
  apply (H 2%nat); [lia|vm_compute; reflexivity].
Defined.

Lemma madt_zero_length_diverges_witness : forall fuel, madt_loop ∅ fuel 0 1 (mkMadtInfo 0 [] 0 0) = None.
Proof. intros fuel. apply (madt_zero_length_diverges ∅ fuel 0 1); [done|done|vm_compute; reflexivity]. Defined.
