(* ===== verification/Cpus.v ===== *)
(** * Processors ([arch/x86_64/{cpu,smp}.rs], the interrupt set-up of [main.rs])

    The table of processors, their preemption counters, the start of the other processors
    one at a time, and the routing of interrupts that follows it.  Theorems: the processors
    that the firmware reports get distinct numbers, stacks and areas, up to 255 of them;
    every run of the start protocol ends, with every processor running and initialized
    alone; on a machine with one processor the line controller is never set up. *)

From Stdlib Require Import ZArith Lia Bool String.
From stdpp Require Import base numbers option list gmap.
From S2P Require Import Prelude Frame Acpi Apic.

Open Scope Z_scope.

Definition MAX_CPUS : Z := 256.

(** ** Features *)

Record CpuFeatures : Type := mkFeatures {
  apic : bool; x2apic : bool; tsc : bool; tsc_deadline : bool; msr : bool; sse : bool; sse2 : bool;
  sse3 : bool; ssse3 : bool; sse4_1 : bool; sse4_2 : bool; avx : bool; avx2 : bool }.

Definition no_features : CpuFeatures := mkFeatures false false false false false false false false false false false false false.

(** [cpuid leaf subleaf] answers the four registers. *)
Definition CpuFeatures_detect (cpuid : Z -> Z -> Z * Z * Z * Z) : CpuFeatures :=
  let '(_, _, ecx, edx) := cpuid 1 0 in
  let '(ebx_7, _, _, _) := cpuid 7 0 in
  let has (r i : Z) := negb (Z.land r (Z.shiftl 1 i) =? 0) in
  {| apic := has edx 9; x2apic := has ecx 21; tsc := has edx 4; tsc_deadline := has ecx 24; msr := has edx 5;
     sse := has edx 25; sse2 := has edx 26; sse3 := has ecx 0; ssse3 := has ecx 9; sse4_1 := has ecx 19;
     sse4_2 := has ecx 20; avx := has ecx 28; avx2 := has ebx_7 5 |}.

(** ** The table of processors *)

Record CpuInfo : Type := mkInfo { info_id : Z; apic_id : Z; features : CpuFeatures; online : bool; bsp : bool }.

Definition CpuInfo_new (id : Z) : CpuInfo := mkInfo id 0 no_features false false.

Record PerCpuData : Type := mkData {
  info : CpuInfo; kernel_stack : Z; user_stack : Z; tss_rsp0 : Z; current_pid : Z; idle_ticks : Z; preempt_count : Z }.

Definition PerCpuData_new : PerCpuData := mkData (CpuInfo_new 0) 0 0 0 0 0 0.

(** The statics, and the source of frames. *)
Record Cpus (F : Type) : Type := mkCpus {
  CPU_COUNT : Z; BSP_ID : Z; NEXT_CPU_ID : Z; PER_CPU_DATA : list PerCpuData; CPU_GS_BASE : list Z; frames : F }.
Arguments mkCpus {F}. Arguments CPU_COUNT {F}. Arguments BSP_ID {F}. Arguments NEXT_CPU_ID {F}.
Arguments PER_CPU_DATA {F}. Arguments CPU_GS_BASE {F}. Arguments frames {F}.

Definition Cpus_new {F} (f : F) : Cpus F := mkCpus 0 0 1 (replicate 256 PerCpuData_new) (replicate 256 0) f.

(** The structure of a processor is aligned to a page and padded to two. *)
Definition SIZEOF_PerCpuData : Z := 8192.

Section Register.
Context {F : Type} `{FrameSource F} (cpuid : Z -> Z -> Z * Z * Z * Z) (hhdm array : Z).

(** Address of the structure of processor [i]; [array] is the address of the table. *)
Definition data_address (i : Z) : Z := array +[64] i * SIZEOF_PerCpuData.

(** The part that both registrations share: fill in the structure of processor [i], and
    give it a stack if there is a frame. *)
Definition fill_cpu (i lapic : Z) (boot : bool) (c : Cpus F) : Cpus F :=
  let k := Z.to_nat i in
  let data := alter (fun d => mkData (mkInfo i lapic (CpuFeatures_detect cpuid) true boot) (kernel_stack d) (user_stack d) (tss_rsp0 d) (current_pid d) (idle_ticks d) (preempt_count d)) k (PER_CPU_DATA c) in
  let '(frame, f) := fs_alloc (frames c) in
  let data := match frame with
    | Some p =>
        let stack_top := p +[64] hhdm +[64] 4096 in
        alter (fun d => mkData (info d) stack_top (user_stack d) stack_top (current_pid d) (idle_ticks d) (preempt_count d)) k data
    | None => data
    end in
  mkCpus (CPU_COUNT c) (BSP_ID c) (NEXT_CPU_ID c) data (<[k := data_address i]> (CPU_GS_BASE c)) f.

(** Also returns the new value of the register GS. *)
Definition init_bsp (lapic : Z) (c : Cpus F) : Z * Cpus F * Z :=
  let c := fill_cpu 0 lapic true c in
  (0, mkCpus 1 0 (NEXT_CPU_ID c) (PER_CPU_DATA c) (CPU_GS_BASE c) (frames c), data_address 0).

Definition register_ap (lapic : Z) (c : Cpus F) : option Z * Cpus F :=
  let cpu_id := NEXT_CPU_ID c in
  let c := mkCpus (CPU_COUNT c) (BSP_ID c) (NEXT_CPU_ID c +[8] 1) (PER_CPU_DATA c) (CPU_GS_BASE c) (frames c) in
  if MAX_CPUS <=? cpu_id then (None, c) else
  let c := fill_cpu cpu_id lapic false c in
  (Some cpu_id, mkCpus (CPU_COUNT c +[8] 1) (BSP_ID c) (NEXT_CPU_ID c) (PER_CPU_DATA c) (CPU_GS_BASE c) (frames c)).

Definition get_cpu_count (c : Cpus F) : Z := CPU_COUNT c.
Definition get_bsp_id (c : Cpus F) : Z := BSP_ID c.

Definition get_cpu_data (i : Z) (c : Cpus F) : option PerCpuData :=
  if i <? MAX_CPUS then PER_CPU_DATA c !! Z.to_nat i else None.

Definition get_gs_base_for_cpu (i : Z) (c : Cpus F) : option Z := CPU_GS_BASE c !! Z.to_nat i.

(** [CpuIter]: the next number that is on-line, and where the search goes on. *)
Fixpoint CpuIter_next (fuel : nat) (current max : Z) (c : Cpus F) : option Z * Z :=
  match fuel with
  | O => (None, current)
  | S fuel =>
      if current <? max then
        match get_cpu_data current c with
        | Some d => if online (info d) then (Some current, current +[8] 1) else CpuIter_next fuel (current +[8] 1) max c
        | None => CpuIter_next fuel (current +[8] 1) max c
        end
      else (None, current)
  end.

(** All that the iterator yields.  256 rounds are enough for bytes. *)
Fixpoint collect (fuel : nat) (current max : Z) (c : Cpus F) : list Z :=
  match fuel with
  | O => []
  | S fuel => match CpuIter_next 256 current max c with (Some i, next) => i :: collect fuel next max c | (None, _) => [] end
  end.

Definition online_cpus (c : Cpus F) : list Z := collect 256 0 (get_cpu_count c) c.
End Register.

(** The number of the running processor.  [word] is what it finds at GS:0, and [id_at] reads
    the number in a structure. *)
Definition get_cpu_id (word : Z) (id_at : Z -> Z) : Z := if word =? 0 then 0 else id_at word.

(** ** Preemption *)

(** On the structure of the running processor. *)
Definition preempt_disable (d : PerCpuData) : PerCpuData :=
  mkData (info d) (kernel_stack d) (user_stack d) (tss_rsp0 d) (current_pid d) (idle_ticks d) (preempt_count d +[32] 1).
Definition preempt_enable (d : PerCpuData) : PerCpuData :=
  if 0 <? preempt_count d then mkData (info d) (kernel_stack d) (user_stack d) (tss_rsp0 d) (current_pid d) (idle_ticks d) (preempt_count d -[32] 1) else d.
Definition preempt_disabled (d : PerCpuData) : bool := 0 <? preempt_count d.

(** ** The start of the other processors ([smp.rs]) *)

(** What the boot loader reports. *)
Record Mp : Type := mkMp { bsp_lapic_id : Z; mp_cpus : list Z }.

Record Boot (F D : Type) : Type := mkBoot { cpus : Cpus F; ioapic : IoApic; device : D; extras : list (Z * Z) }.
Arguments mkBoot {F D}. Arguments cpus {F D}. Arguments ioapic {F D}. Arguments device {F D}. Arguments extras {F D}.

Section Start.
Context {F D : Type} `{FrameSource F} `{Mmio D} (cpuid : Z -> Z -> Z * Z * Z * Z) (hhdm array : Z).

(** The loop of [init_smp].  Each processor other than the first is registered and told its
    number through the word that the boot loader gives it; how the two sides then meet is
    the protocol below. *)
Fixpoint start_aps (first : Z) (ls : list Z) (b : Boot F D) : Result unit string * Boot F D :=
  match ls with
  | [] => (Ok tt, b)
  | lapic :: ls =>
      if lapic =? first then start_aps first ls b else
      match register_ap cpuid hhdm array lapic (cpus b) with
      | (None, c) => (Err "Failed to register AP"%string, mkBoot c (ioapic b) (device b) (extras b))
      | (Some cpu_id, c) => start_aps first ls (mkBoot c (ioapic b) (device b) (extras b ++ [(lapic, cpu_id)]))
      end
  end.

Definition set_ioapic (addr gsi_base : Z) (b : Boot F D) : Boot F D :=
  let '(s, d) := init_ioapic hhdm addr gsi_base (device b) in mkBoot (cpus b) s d (extras b).

Definition init_smp (mp : option Mp) (madt : option MadtInfo) (b : Boot F D) : Result unit string * Boot F D :=
  match mp with
  | None => (Err "Limine MP request not supported"%string, b)
  | Some smp_response =>
      if (length (mp_cpus smp_response) <=? 1)%nat then (Ok tt, b) else
      let b := match madt with Some m => set_ioapic (ioapic_addr m) (ioapic_gsi_base m) b | None => b end in
      start_aps (bsp_lapic_id smp_response) (mp_cpus smp_response) b
  end.

(** [main.rs], between the start of the processors and the framebuffer. *)
Definition boot_interrupts (mp : option Mp) (madt : option MadtInfo) (b : Boot F D) : Boot F D :=
  let '(r, b) := init_smp mp madt b in
  let b := if is_ok r then b else
    match madt with
    | Some m => if ioapic_addr m =? 0 then b else set_ioapic (ioapic_addr m) (ioapic_gsi_base m) b
    | None => b
    end in
  mkBoot (cpus b) (ioapic b) (boot_routes (ioapic b) (device b)) (extras b).
End Start.

(** The two sides of the start.  A started processor waits for the lock, initializes itself,
    counts itself, reports that it is ready, and releases the lock.  The first processor
    clears the flag, starts the next one, and goes on when it sees the flag or loses
    patience. *)
Inductive Phase : Type := Parked | Spinning | Initializing | Counted | Signalled | Running.

Record Smp : Type := mkSmp {
  AP_INIT_LOCK : bool; AP_STARTED_COUNT : nat; CURRENT_AP_READY : bool; next_ap : nat; waiting : bool; phases : list Phase }.

Definition smp_start (n : nat) : Smp := mkSmp false 0 false 0 false (replicate n Parked).

Inductive smp_step : bool -> Smp -> Smp -> Prop :=
| bsp_starts l c r k ps : ps !! k = Some Parked -> smp_step false (mkSmp l c r k false ps) (mkSmp l c false (S k) true (<[k := Spinning]> ps))
| bsp_sees_ready l c k ps : smp_step false (mkSmp l c true k true ps) (mkSmp l c true k false ps)
| bsp_gives_up l c r k ps : smp_step true (mkSmp l c r k true ps) (mkSmp l c r k false ps)
| ap_locks i c r k w ps : ps !! i = Some Spinning -> smp_step false (mkSmp false c r k w ps) (mkSmp true c r k w (<[i := Initializing]> ps))
| ap_counts i l c r k w ps : ps !! i = Some Initializing -> smp_step false (mkSmp l c r k w ps) (mkSmp l (S c) r k w (<[i := Counted]> ps))
| ap_signals i l c r k w ps : ps !! i = Some Counted -> smp_step false (mkSmp l c r k w ps) (mkSmp l c true k w (<[i := Signalled]> ps))
| ap_unlocks i l c r k w ps : ps !! i = Some Signalled -> smp_step false (mkSmp l c r k w ps) (mkSmp false c r k w (<[i := Running]> ps)).

(** ** The start protocol *)

Definition smp_any (s s' : Smp) : Prop := exists t, smp_step t s s'.

Definition inside (p : Phase) : nat := match p with Initializing | Counted | Signalled => 1 | _ => 0 end.
Definition counted (p : Phase) : nat := match p with Counted | Signalled | Running => 1 | _ => 0 end.
Definition remaining (p : Phase) : nat := match p with Parked => 6 | Spinning => 4 | Initializing => 3 | Counted => 2 | Signalled => 1 | Running => 0 end.

Record smp_ok (n : nat) (s : Smp) : Prop := {
  smp_len : length (phases s) = n;
  smp_count : AP_STARTED_COUNT s = sum_list (counted <$> phases s);
  smp_lock : (if AP_INIT_LOCK s then 1 else 0)%nat = sum_list (inside <$> phases s);
  smp_parked : forall j p, phases s !! j = Some p -> p = Parked <-> (next_ap s <= j)%nat }.

Definition work_left (s : Smp) : nat := (sum_list (remaining <$> phases s) + if waiting s then 1 else 0)%nat.

(** A processor changes its phase; sums over the phases change by the difference. *)
Lemma sum_phase (f : Phase -> nat) (ps : list Phase) i p q : ps !! i = Some p -> (sum_list (f <$> <[i := q]> ps) + f p = sum_list (f <$> ps) + f q)%nat.
Proof. apply sum_insert. Qed.

Lemma parked_other (ps : list Phase) (i : nat) (p q : Phase) (k : nat) : ps !! i = Some p -> p <> Parked -> q <> Parked ->
  (forall j r, ps !! j = Some r -> r = Parked <-> (k <= j)%nat) -> forall j r, <[i := q]> ps !! j = Some r -> r = Parked <-> (k <= j)%nat.
Proof.
  intros Hi Hp Hq Hk j r Hj. destruct (decide (i = j)) as [->|Hne]; [|rewrite list_lookup_insert_ne in Hj by done; by apply Hk].
  rewrite list_lookup_insert_eq in Hj by (by apply lookup_lt_Some in Hi). injection Hj as <-. pose proof (Hk j p Hi). naive_solver.
Qed.

Lemma smp_step_ok n t s s' : smp_step t s s' -> smp_ok n s -> smp_ok n s'.
Proof.
  intros Hst [Hl Hc Hk Hp]. destruct Hst as [l c r k ps Hi|l c k ps|l c r k ps|i c r k w ps Hi|i l c r k w ps Hi|i l c r k w ps Hi|i l c r k w ps Hi]; cbn in *;
    try (split; cbn; assumption);
    (split; cbn;
      [ by rewrite length_insert
      | rewrite ?Hc; match goal with |- context [<[_ := ?q]> ps] => pose proof (sum_phase counted ps _ _ q Hi) as E; cbn in E; lia end
      | match goal with |- context [<[_ := ?q]> ps] => pose proof (sum_phase inside ps _ _ q Hi) as E; cbn in E; try destruct l; lia end
      | try (eapply parked_other; [exact Hi|done|done|exact Hp]) ]).
  - intros j q Hj. destruct (decide (k = j)) as [->|Hne].
    + rewrite list_lookup_insert_eq in Hj by (by apply lookup_lt_Some in Hi). injection Hj as <-. split; [done|lia].
    + rewrite list_lookup_insert_ne in Hj by done. rewrite (Hp j q Hj). lia.
Qed.

Lemma smp_step_work t s s' : smp_step t s s' -> (work_left s' < work_left s)%nat.
Proof.
  intros Hst. unfold work_left. destruct Hst as [l c r k ps Hi|l c k ps|l c r k ps|i c r k w ps Hi|i l c r k w ps Hi|i l c r k w ps Hi|i l c r k w ps Hi]; cbn; try lia;
    match goal with |- context [<[_ := ?q]> ps] => pose proof (sum_phase remaining ps _ _ q Hi) as E; cbn in E; lia end.
Qed.

Lemma smp_start_ok n : smp_ok n (smp_start n).
Proof.
  assert (forall f : Phase -> nat, f Parked = 0%nat -> sum_list (f <$> replicate n Parked) = 0%nat) as Hz.
  { intros f Hf. induction n as [|n IH]; [done|]. cbn [replicate]. by rewrite fmap_cons, Hf. }
  split; cbn.
  - apply length_replicate.
  - by rewrite Hz.
  - by rewrite Hz.
  - intros j p [-> _]%lookup_replicate. split; [lia|done].
Qed.

Lemma smp_reachable_ok n s : rtc smp_any (smp_start n) s -> smp_ok n s.
Proof.
  intros Hr. pose proof (smp_start_ok n) as H0. induction Hr as [x|x y z [t Hst] _ IH]; [done|]. apply IH. by eapply smp_step_ok.
Qed.

Lemma work_bounded n : work_left (smp_start n) = (6 * n)%nat.
Proof. unfold work_left. cbn. induction n as [|n IH]; [done|]. cbn [replicate]. rewrite fmap_cons. cbn. lia. Qed.

Lemma smp_steps_bounded k s s' : nsteps smp_any k s s' -> (k + work_left s' <= work_left s)%nat.
Proof. induction 1 as [x|k x y z [t Hst] _ IH]; [lia|]. apply smp_step_work in Hst. lia. Qed.

(** Two processors inside the lock would be two in the sum. *)
Lemma one_inside (ps : list Phase) i j p q : (sum_list (inside <$> ps) <= 1)%nat -> ps !! i = Some p -> ps !! j = Some q -> inside p = 1%nat -> inside q = 1%nat -> i = j.
Proof.
  intros Hs Hi Hj Hp Hq. destruct (decide (i = j)) as [|Hne]; [done|]. pose proof (sum_phase inside ps i p Running Hi) as E.
  assert (<[i := Running]> ps !! j = Some q) as Hj' by (by rewrite list_lookup_insert_ne). pose proof (sum_le inside _ j q Hj'). cbn [inside] in *. lia.
Qed.

Lemma inside_some (ps : list Phase) : (0 < sum_list (inside <$> ps))%nat -> exists i p, ps !! i = Some p /\ inside p = 1%nat.
Proof.
  induction ps as [|p ps IH]; [cbn; lia|]. rewrite fmap_cons. cbn [sum_list foldr]. intros Hs. destruct (inside p) eqn:E.
  - destruct IH as (i & q & Hi & Hq); [exact Hs|]. by exists (S i), q.
  - exists 0%nat, p. split; [done|]. by destruct p; cbn in *.
Qed.

(** A state from which nothing can happen: every processor runs. *)
Lemma smp_stuck n s : smp_ok n s -> (forall s', ~ smp_any s s') -> phases s = replicate n Running /\ AP_STARTED_COUNT s = n.
Proof.
  intros [Hl Hc Hk Hp] Hstuck. destruct s as [l c r k w ps]. cbn in *. assert (forall i p, ps !! i = Some p -> p = Running) as Hrun.
  { assert (forall t s', ~ smp_step t (mkSmp l c r k w ps) s') as Hno by (intros t s' Hs; apply (Hstuck s'); by exists t).
    assert (w = false) as -> by (destruct w; [exfalso; eapply Hno; apply bsp_gives_up|done]).
    assert (forall i p, ps !! i = Some p -> inside p <> 1%nat) as Hin. { intros i p Hi Hp1. destruct p; try done; eapply Hno; [by apply (ap_counts i)|by apply (ap_signals i)|by apply (ap_unlocks i)]. }
    assert (l = false) as ->. { destruct l; [|done]. destruct (inside_some ps ltac:(lia)) as (i & p & Hi & Hp1). by destruct (Hin i p Hi). }
    intros i p Hi. destruct p; try (by destruct (Hin i _ Hi)); [|exfalso; eapply Hno; by apply (ap_locks i)|done].
    exfalso. pose proof (proj1 (Hp i Parked Hi) eq_refl) as Hki. destruct (lookup_lt_is_Some_2 ps k) as [q Hq]; [apply lookup_lt_Some in Hi; lia|].
    pose proof (proj2 (Hp k q Hq) (le_n k)) as ->. eapply Hno. by apply bsp_starts. }
  assert (ps = replicate n Running) as ->. { apply list_eq. intros i. destruct (ps !! i) as [p|] eqn:E.
    - rewrite (Hrun i p E) in *. symmetry. apply lookup_replicate. split; [done|]. rewrite <- Hl. by eapply lookup_lt_Some.
    - symmetry. apply lookup_replicate_None. apply lookup_ge_None in E. lia. }
  split; [done|]. rewrite Hc. clear. induction n as [|n IH]; [done|]. cbn [replicate]. rewrite fmap_cons. cbn. by f_equal.
Qed.

(** Without lost patience: the processors before the last started one are ready, and the
    last one is when the flag says so. *)
Definition ahead (p : Phase) : Prop := p = Signalled \/ p = Running.
Definition in_turn (s : Smp) : Prop :=
  forall j p, phases s !! j = Some p -> (j < next_ap s)%nat -> (S j < next_ap s)%nat \/ waiting s = false \/ CURRENT_AP_READY s = true -> ahead p.

Lemma in_turn_move (ps : list Phase) (i : nat) p q k (w r : bool) : ps !! i = Some p -> ~ ahead p ->
  (forall j p, ps !! j = Some p -> (j < k)%nat -> (S j < k)%nat \/ w = false \/ r = true -> ahead p) ->
  forall j p, <[i := q]> ps !! j = Some p -> (j < k)%nat -> (S j < k)%nat \/ w = false \/ r = true -> ahead p.
Proof.
  intros Hi Hp Hq j x Hj Hlt Hc. destruct (decide (i = j)) as [->|Hne]; [by destruct Hp; apply (Hq j)|]. rewrite list_lookup_insert_ne in Hj by done. by apply (Hq j).
Qed.

Lemma in_turn_step n s s' : smp_step false s s' -> smp_ok n s -> in_turn s -> in_turn s'.
Proof.
  intros Hst [_ _ _ Hp] Hq. unfold in_turn in *. remember false as t eqn:Et. destruct Hst as [l c r k ps Hi|l c k ps|l c r k ps|i c r k w ps Hi|i l c r k w ps Hi|i l c r k w ps Hi|i l c r k w ps Hi]; cbn in *; try discriminate.
  - intros j p Hj Hlt Hc. destruct Hc as [Hc|[Hc|Hc]]; [|discriminate..]. rewrite list_lookup_insert_ne in Hj by lia. apply (Hq j p Hj); [lia|]. right; by left.
  - intros j p Hj Hlt _. apply (Hq j p Hj Hlt). right; by right.
  - eapply in_turn_move; [exact Hi|intros []; discriminate|done].
  - eapply in_turn_move; [exact Hi|intros []; discriminate|done].
  - assert (i < k)%nat as Hik. { destruct (decide (k <= i)%nat) as [Hge|]; [|lia]. by pose proof (proj2 (Hp i _ Hi) Hge). }
    assert (~ ((S i < k)%nat \/ w = false \/ r = true)) as Hn by (intros Hc; destruct (Hq i _ Hi Hik Hc); discriminate).
    intros j p Hj Hlt Hc. destruct (decide (i = j)) as [->|Hne].
    + rewrite list_lookup_insert_eq in Hj by (by apply lookup_lt_Some in Hi). injection Hj as <-. by left.
    + rewrite list_lookup_insert_ne in Hj by done. apply (Hq j p Hj Hlt). left. lia.
  - intros j p Hj Hlt Hc. destruct (decide (i = j)) as [->|Hne].
    + rewrite list_lookup_insert_eq in Hj by (by apply lookup_lt_Some in Hi). injection Hj as <-. by right.
    + rewrite list_lookup_insert_ne in Hj by done. by apply (Hq j p Hj Hlt).
Qed.

Lemma in_turn_reachable n s : rtc (smp_step false) (smp_start n) s -> in_turn s.
Proof.
  intros Hr. pose proof (smp_start_ok n) as H0. assert (in_turn (smp_start n)) as H1 by (intros j p _ Hlt; cbn in Hlt; lia).
  induction Hr as [x|x y z Hst _ IH]; [done|]. apply IH; [by eapply smp_step_ok|by eapply in_turn_step].
Qed.

(** C16: Starting [n] processors.  In every state that can be reached at most one of them is
    initializing - so the tables they share are written by one at a time - and the count is
    the number that have counted themselves.  As long as the first processor does not lose
    patience it starts each one after the one before is ready.  Whatever the order and the
    delays, every run ends, after at most six steps per processor, and then every processor
    runs and is counted, also those that were given up on. *)
Theorem start_protocol_correct n s : rtc smp_any (smp_start n) s ->
  (forall i j p q, phases s !! i = Some p -> phases s !! j = Some q -> inside p = 1%nat -> inside q = 1%nat -> i = j) /\
  AP_STARTED_COUNT s = sum_list (counted <$> phases s) /\
  (rtc (smp_step false) (smp_start n) s -> waiting s = false -> forall j p, phases s !! j = Some p -> (j < next_ap s)%nat -> p = Signalled \/ p = Running) /\
  (forall k s', nsteps smp_any k (smp_start n) s' -> (k <= 6 * n)%nat) /\
  ((forall s', ~ smp_any s s') -> phases s = replicate n Running /\ AP_STARTED_COUNT s = n).
Proof.
  intros Hr. pose proof (smp_reachable_ok n s Hr) as Hok. split; [|split; [apply Hok|split; [|split]]].
  - intros i j p q. apply one_inside. rewrite <- (smp_lock n s Hok). destruct (AP_INIT_LOCK s); lia.
  - intros Ht Hw j p Hj Hlt. apply (in_turn_reachable n s Ht j p Hj Hlt). right; by left.
  - intros k s' Hk. pose proof (smp_steps_bounded k _ _ Hk). rewrite work_bounded in *. lia.
  - by apply smp_stuck.
Qed.

Lemma start_protocol_correct_witness :
  AP_STARTED_COUNT (mkSmp true 0 false 2 true [Spinning; Initializing]) = 0%nat /\ rtc smp_any (smp_start 2) (mkSmp true 0 false 2 true [Spinning; Initializing]).
Proof.
  assert (rtc smp_any (smp_start 2) (mkSmp true 0 false 2 true [Spinning; Initializing])) as Hr.
  { eapply rtc_l; [eexists; apply (bsp_starts _ _ _ 0); reflexivity|]. eapply rtc_l; [eexists; apply bsp_gives_up|]. eapply rtc_l; [eexists; apply (bsp_starts _ _ _ 1); reflexivity|].
    eapply rtc_l; [eexists; apply (ap_locks 1); reflexivity|]. apply rtc_refl. }
  destruct (start_protocol_correct 2 _ Hr) as (_ & H & _). split; [exact H|exact Hr].
Defined.

(** ** Registration *)

Section Registration.
Context {F : Type} `{FrameSource F} (cpuid : Z -> Z -> Z * Z * Z * Z) (hhdm array : Z).

(** Registering the others in a row, as the loop of [init_smp] does. *)
Fixpoint register_all (ls : list Z) (c : Cpus F) : list (option Z) * Cpus F :=
  match ls with
  | [] => ([], c)
  | l :: ls => let '(r, c) := register_ap cpuid hhdm array l c in let '(rs, c) := register_all ls c in (r :: rs, c)
  end.

Definition stack_of (frame : option Z) : Z := match frame with Some p => p +[64] hhdm +[64] 4096 | None => 0 end.

(** After registering the local numbers [ids], with the frames [frs] for their stacks. *)
Record registered (free0 : gset Z) (ids : list Z) (frs : list (option Z)) (c : Cpus F) : Prop := {
  r_next : NEXT_CPU_ID c = Z.of_nat (length ids) mod 256;
  r_count : CPU_COUNT c = Z.of_nat (length ids) mod 256;
  r_len : length (PER_CPU_DATA c) = 256%nat /\ length (CPU_GS_BASE c) = 256%nat /\ length frs = length ids;
  r_data : forall i a fr, ids !! i = Some a -> frs !! i = Some fr ->
    exists d, PER_CPU_DATA c !! i = Some d /\ info d = mkInfo (Z.of_nat i) a (CpuFeatures_detect cpuid) true (bool_decide (i = 0%nat)) /\
      kernel_stack d = stack_of fr /\ CPU_GS_BASE c !! i = Some (data_address array (Z.of_nat i));
  r_rest : forall i, (length ids <= i < 256)%nat -> PER_CPU_DATA c !! i = Some PerCpuData_new;
  r_src : fs_ok (frames c) /\ fs_free (frames c) ⊆ free0;
  r_frs : NoDup (omap (fun x => x) frs) /\ forall p, p ∈ omap (fun x => x) frs -> p ∈ free0 /\ p ∉ fs_free (frames c) /\ 0 <= p < 2 ^ 52 }.

(** Filling in the next structure. *)
Lemma fill_cpu_spec free0 ids frs c lapic : (length ids < 256)%nat -> registered free0 ids frs c -> exists fr,
  let c' := fill_cpu cpuid hhdm array (Z.of_nat (length ids)) lapic (bool_decide (length ids = 0%nat)) c in
  NEXT_CPU_ID c' = NEXT_CPU_ID c /\ CPU_COUNT c' = CPU_COUNT c /\
  forall n m, n = Z.of_nat (S (length ids)) mod 256 -> m = n ->
    registered free0 (ids ++ [lapic]) (frs ++ [fr]) (mkCpus n (BSP_ID c') m (PER_CPU_DATA c') (CPU_GS_BASE c') (frames c')).
Proof.
  intros Hlt [Hn Hc (Hl & Hg & Hf) Hd Hr [Hs Hsub] [Hnd Hfr]]. unfold fill_cpu. rewrite Nat2Z.id. set (k := length ids) in *. pose proof (Hr k ltac:(lia)) as Hk.
  rewrite (alter_as_insert _ _ _ _ Hk). destruct (fs_alloc (frames c)) as [fr f'] eqn:Ea. exists fr.
  assert (fs_ok f' /\ fs_free f' ⊆ fs_free (frames c) /\ (forall p, fr = Some p -> p ∈ fs_free (frames c) /\ p ∉ fs_free f' /\ 0 <= p < 2 ^ 52)) as (Hok' & Hsub' & Hp).
  { destruct fr as [p|].
    - destruct (fs_alloc_some _ _ _ Hs Ea) as (Hin & Heq & Hok'). split; [done|]. split; [set_solver|]. intros q [= <-]. split; [done|]. split; [set_solver|]. by apply (fs_page (frames c)).
    - destruct (fs_alloc_none _ _ Hs Ea) as (_ & Heq & Hok'). split; [done|]. split; [set_solver|]. done. }
  set (data := match fr with Some p => _ | None => _ end).
  assert (exists d, data = <[k := d]> (PER_CPU_DATA c) /\ info d = mkInfo (Z.of_nat k) lapic (CpuFeatures_detect cpuid) true (bool_decide (k = 0%nat)) /\ kernel_stack d = stack_of fr) as (d & Ed & Ei & Ek).
  { unfold data. destruct fr as [p|]; [|by eexists]. erewrite alter_as_insert by (apply list_lookup_insert_eq; lia). rewrite list_insert_insert_eq. by eexists. }
  cbn [NEXT_CPU_ID CPU_COUNT BSP_ID PER_CPU_DATA CPU_GS_BASE frames]. split; [done|]. split; [done|]. intros n m -> ->.
  assert (length (ids ++ [lapic]) = S k) as Hlen by (rewrite length_app; cbn; lia). rewrite Ed. split; cbn [NEXT_CPU_ID CPU_COUNT PER_CPU_DATA CPU_GS_BASE frames].
  - by rewrite Hlen.
  - by rewrite Hlen.
  - rewrite !length_insert, Hlen, length_app. cbn. split; [lia|split; lia].
  - intros i a fr0 Hi Hfi. destruct (decide (i = k)) as [->|Hne].
    + rewrite lookup_app_r, Nat.sub_diag in Hi by done. rewrite lookup_app_r, Hf, Nat.sub_diag in Hfi by lia. injection Hi as <-. injection Hfi as <-.
      exists d. by rewrite !list_lookup_insert_eq by lia.
    + assert (i < k)%nat as Hik by (apply lookup_lt_Some in Hi; lia). rewrite lookup_app_l in Hi by done. rewrite lookup_app_l in Hfi by lia.
      destruct (Hd i a fr0 Hi Hfi) as (d0 & H0 & H1 & H2 & H3). exists d0. by rewrite !list_lookup_insert_ne by lia.
  - intros i Hi. rewrite list_lookup_insert_ne by lia. apply Hr. lia.
  - split; [done|set_solver].
  - rewrite omap_app. split.
    + apply NoDup_app. split; [done|]. split; [|destruct fr; cbn; [apply NoDup_singleton|apply NoDup_nil_2]]. intros x Hx. destruct (Hfr x Hx) as (_ & Hno & _). destruct fr as [p|]; cbn; [|apply not_elem_of_nil].
      rewrite list_elem_of_singleton. intros ->. by destruct (Hp p eq_refl).
    + intros p Hin. apply elem_of_app in Hin as [Hin|Hin]; [destruct (Hfr p Hin) as (H1 & H2 & H3); split; [done|]; split; [set_solver|done]|].
      destruct fr as [q|]; cbn in Hin; [|by apply elem_of_nil in Hin]. apply list_elem_of_singleton in Hin as ->. destruct (Hp q eq_refl) as (H1 & H2 & H3). split; [set_solver|done].
Qed.

Lemma init_bsp_spec f l0 : fs_ok f -> exists fr, registered (fs_free f) [l0] [fr] (init_bsp cpuid hhdm array l0 (Cpus_new f)).1.2.
Proof.
  intros Hs. destruct (fill_cpu_spec (fs_free f) [] [] (mkCpus 0 0 0 (replicate 256 PerCpuData_new) (replicate 256 0) f) l0) as (fr & _ & _ & Hr); [cbn; lia| |].
  - split; cbn [NEXT_CPU_ID CPU_COUNT PER_CPU_DATA CPU_GS_BASE frames]; try done.
    + intros i Hi. apply lookup_replicate. split; [done|lia].
    + split; [apply NoDup_nil_2|]. intros p Hp. by apply elem_of_nil in Hp.
  - exists fr. specialize (Hr 1 1 eq_refl eq_refl). unfold init_bsp, fill_cpu, Cpus_new in *. cbn [CPU_COUNT BSP_ID NEXT_CPU_ID PER_CPU_DATA CPU_GS_BASE frames length] in *.
    change (Z.to_nat (Z.of_nat 0)) with 0%nat in Hr. change (Z.to_nat 0) with 0%nat. change (bool_decide (0%nat = 0%nat)) with true in Hr. change (Z.of_nat 0) with 0 in Hr. destruct (fs_alloc f) as [fr' f']. exact Hr.
Qed.

Lemma register_ap_spec free0 ids frs c lapic : (0 < length ids < 256)%nat -> registered free0 ids frs c -> exists fr,
  let '(r, c') := register_ap cpuid hhdm array lapic c in r = Some (Z.of_nat (length ids)) /\ registered free0 (ids ++ [lapic]) (frs ++ [fr]) c'.
Proof.
  intros Hl Hr. unfold register_ap. assert (NEXT_CPU_ID c = Z.of_nat (length ids)) as En by (rewrite (r_next _ _ _ _ Hr); apply Z.mod_small; lia).
  assert (CPU_COUNT c = Z.of_nat (length ids)) as Ec by (rewrite (r_count _ _ _ _ Hr); apply Z.mod_small; lia).
  destruct (fill_cpu_spec free0 ids frs c lapic ltac:(lia) Hr) as (fr & _ & _ & Hf). exists fr. rewrite En. rewrite (proj2 (Z.leb_gt MAX_CPUS _)) by (unfold MAX_CPUS; lia).
  rewrite bool_decide_eq_false_2 in Hf by lia. split; [done|]. specialize (Hf (Z.of_nat (length ids) +[8] 1) (Z.of_nat (length ids) +[8] 1)).
  assert (Z.of_nat (length ids) +[8] 1 = Z.of_nat (S (length ids)) mod 256) as E by (unfold wrap; change (2 ^ 8) with 256; f_equal; lia). specialize (Hf E eq_refl).
  unfold fill_cpu in *. cbn [CPU_COUNT BSP_ID NEXT_CPU_ID PER_CPU_DATA CPU_GS_BASE frames] in *. destruct (fs_alloc (frames c)) as [fr' f']. cbn [CPU_COUNT BSP_ID NEXT_CPU_ID PER_CPU_DATA CPU_GS_BASE frames] in *. by rewrite Ec.
Qed.

Lemma register_all_spec free0 ls ids frs c : (0 < length ids)%nat -> (length ids + length ls <= 256)%nat -> registered free0 ids frs c -> exists frs',
  let '(rs, c') := register_all ls c in rs = Some <$> seqZ (Z.of_nat (length ids)) (Z.of_nat (length ls)) /\ registered free0 (ids ++ ls) frs' c'.
Proof.
  revert ids frs c. induction ls as [|l ls IH]; intros ids frs c H0 Hl Hr; [exists frs; by rewrite app_nil_r|]. cbn [register_all length] in *.
  destruct (register_ap_spec free0 ids frs c l ltac:(lia) Hr) as (fr & H1). destruct (register_ap _ _ _ l c) as [r c1]. destruct H1 as [-> H1].
  assert (length (ids ++ [l]) = S (length ids)) as E by (rewrite length_app; cbn; lia). destruct (IH (ids ++ [l]) (frs ++ [fr]) c1) as (frs' & H2); [lia|lia|done|].
  exists frs'. destruct (register_all ls c1) as [rs c2]. destruct H2 as [-> H2]. rewrite <- app_assoc in H2. split; [|done].
  rewrite E, (seqZ_cons (Z.of_nat (length ids))) by lia. rewrite fmap_cons. by replace (Z.of_nat (S (length ids))) with (Z.succ (Z.of_nat (length ids))) by lia; replace (Z.pred (Z.of_nat (S (length ls)))) with (Z.of_nat (length ls)) by lia.
Qed.

Lemma iter_next fuel current max (c : Cpus F) : CpuIter_next (S fuel) current max c =
  if current <? max then
    match get_cpu_data current c with
    | Some d => if online (info d) then (Some current, current +[8] 1) else CpuIter_next fuel (current +[8] 1) max c
    | None => CpuIter_next fuel (current +[8] 1) max c
    end
  else (None, current).
Proof. done. Qed.

Lemma collect_next fuel current max (c : Cpus F) : collect (S fuel) current max c =
  match CpuIter_next (S 255) current max c with (Some i, next) => i :: collect fuel next max c | (None, _) => [] end.
Proof. done. Qed.

(** The iterator over processors that are all on-line. *)
Lemma collect_online fuel current max (c : Cpus F) : 0 <= current <= max -> max < 256 -> (Z.to_nat (max - current) < fuel)%nat ->
  (forall i, 0 <= i < max -> exists d, get_cpu_data i c = Some d /\ online (info d) = true) -> collect fuel current max c = seqZ current (max - current).
Proof.
  revert current. induction fuel as [|fuel IH]; intros current Hc Hm Hf Hd; [lia|]. rewrite collect_next, iter_next. destruct (Z.ltb_spec current max).
  - destruct (Hd current ltac:(lia)) as (d & -> & ->). rewrite (wrap_small 8) by (unfold in_width; lia). rewrite IH by (done || lia). rewrite (seqZ_cons current) by lia. f_equal. f_equal; lia.
  - by replace (max - current) with 0 by lia.
Qed.

(** A page that occurs once in the list of frames occurs at one place. *)
Lemma omap_inj (i j : nat) (p q : Z) frs : NoDup (omap (fun x : option Z => x) frs) -> frs !! i = Some (Some p) -> frs !! j = Some (Some q) -> p = q -> i = j.
Proof.
  intros Hnd Hi Hj <-. revert i j Hi Hj Hnd. induction frs as [|x frs IH]; intros [|i] [|j] Hi Hj Hnd; cbn in *; simplify_eq; try done.
  - apply NoDup_cons in Hnd as [Hnot _]. destruct Hnot. apply list_elem_of_omap. exists (Some p). split; [by eapply list_elem_of_lookup_2|done].
  - apply NoDup_cons in Hnd as [Hnot _]. destruct Hnot. apply list_elem_of_omap. exists (Some p). split; [by eapply list_elem_of_lookup_2|done].
  - f_equal. apply IH; [done|done|]. destruct x; [by apply NoDup_cons in Hnd as [_ Hnd]|done].
Qed.

(** What registering in a row gives; the loop of [init_smp] does just this. *)
Definition all_registered (f : F) (l0 : Z) (ls : list Z) (c : Cpus F) : Prop :=
  (forall i a, (l0 :: ls) !! i = Some a -> exists d, get_cpu_data (Z.of_nat i) c = Some d /\
     info d = mkInfo (Z.of_nat i) a (CpuFeatures_detect cpuid) true (bool_decide (i = 0%nat)) /\
     get_gs_base_for_cpu (Z.of_nat i) c = Some (data_address array (Z.of_nat i)) /\
     (kernel_stack d = 0 \/ exists p, p ∈ fs_free f /\ kernel_stack d = p +[64] hhdm +[64] 4096)) /\
  (forall i j di dj, i <> j -> (i <= length ls)%nat -> (j <= length ls)%nat -> PER_CPU_DATA c !! i = Some di -> PER_CPU_DATA c !! j = Some dj ->
     kernel_stack di <> 0 -> kernel_stack di <> kernel_stack dj) /\
  (if decide (length ls = 255%nat) then get_cpu_count c = 0 /\ online_cpus c = []
   else get_cpu_count c = 1 + Z.of_nat (length ls) /\ online_cpus c = seqZ 0 (1 + Z.of_nat (length ls))).

Lemma register_all_correct f l0 ls : fs_ok f -> (length ls <= 255)%nat ->
  let '(rs, c) := register_all ls (init_bsp cpuid hhdm array l0 (Cpus_new f)).1.2 in
  rs = Some <$> seqZ 1 (Z.of_nat (length ls)) /\ all_registered f l0 ls c.
Proof.
  intros Hs Hl. destruct (init_bsp_spec f l0 Hs) as (fr & H0). destruct (register_all_spec (fs_free f) ls [l0] [fr] _ ltac:(cbn; lia) ltac:(cbn; lia) H0) as (frs & H1).
  destruct (register_all ls _) as [rs c]. destruct H1 as [-> Hr]. cbn [length app] in *. change (Z.of_nat 1) with 1. split; [done|].
  destruct (r_len _ _ _ _ Hr) as (Hld & _ & Hlf). cbn [length] in Hlf.
  assert (forall i a, (l0 :: ls) !! i = Some a -> exists d fr, get_cpu_data (Z.of_nat i) c = Some d /\ PER_CPU_DATA c !! i = Some d /\ frs !! i = Some fr /\ kernel_stack d = stack_of fr /\
     info d = mkInfo (Z.of_nat i) a (CpuFeatures_detect cpuid) true (bool_decide (i = 0%nat)) /\ CPU_GS_BASE c !! i = Some (data_address array (Z.of_nat i))) as Hdata.
  { intros i a Hi. assert (i < S (length ls))%nat as Hlt by (by apply lookup_lt_Some in Hi). destruct (lookup_lt_is_Some_2 frs i ltac:(lia)) as [x Hx].
    destruct (r_data _ _ _ _ Hr i a x Hi Hx) as (d & Hd & Hi' & Hk & Hg). exists d, x. unfold get_cpu_data. rewrite Nat2Z.id. rewrite (proj2 (Z.ltb_lt _ MAX_CPUS)) by (unfold MAX_CPUS; lia). done. }
  destruct (r_frs _ _ _ _ Hr) as [Hnd Hfr]. assert (forall i p, frs !! i = Some (Some p) -> p ∈ omap (fun x => x) frs) as Hin.
  { intros i p Hi. apply list_elem_of_omap. exists (Some p). split; [by eapply list_elem_of_lookup_2|done]. }
  split; [|split].
  - intros i a Hi. destruct (Hdata i a Hi) as (d & x & Hd & _ & Hx & Hk & Hi' & Hg). exists d. split; [done|]. split; [done|]. split; [unfold get_gs_base_for_cpu; by rewrite Nat2Z.id|].
    destruct x as [p|]; [right; exists p; split; [by apply (Hfr p), (Hin i)|done]|by left].
  - intros i j di dj Hne Hi Hj Hdi Hdj Hnz Heq. destruct (lookup_lt_is_Some_2 (l0 :: ls) i ltac:(cbn; lia)) as [a Ha]. destruct (lookup_lt_is_Some_2 (l0 :: ls) j ltac:(cbn; lia)) as [b Hb].
    destruct (Hdata i a Ha) as (d & x & _ & Hd & Hx & Hk & _). destruct (Hdata j b Hb) as (d' & y & _ & Hd' & Hy & Hk' & _). simplify_eq. rewrite Hk, Hk' in *.
    destruct x as [p|]; [|done]. destruct y as [q|]; [|done]. cbn [stack_of] in Heq. apply Hne. apply (omap_inj i j p q frs Hnd Hx Hy).
    destruct (Hfr p (Hin i p Hx)) as (_ & _ & Hp). destruct (Hfr q (Hin j q Hy)) as (_ & _ & Hq). unfold wrap in Heq. rewrite !Zplus_mod_idemp_l in Heq. Z.to_euclidean_division_equations. lia.
  - unfold online_cpus, get_cpu_count. rewrite (r_count _ _ _ _ Hr). cbn [length]. case_decide as E; [rewrite E; done|]. rewrite Z.mod_small by lia.
    replace (Z.of_nat (S (length ls))) with (1 + Z.of_nat (length ls)) by lia. split; [done|]. rewrite collect_online; [by rewrite Z.sub_0_r|lia|lia|lia|].
    intros i Hi. destruct (lookup_lt_is_Some_2 (l0 :: ls) (Z.to_nat i) ltac:(cbn; lia)) as [a Ha]. destruct (Hdata _ a Ha) as (d & _ & Hd & _ & _ & _ & Hi' & _). rewrite Z2Nat.id in Hd by lia. exists d. by rewrite Hi'.
Qed.

Lemma start_aps_all {D} first ls (b : Boot F D) rs c : register_all (filter (fun l => l <> first) ls) (cpus b) = (Some <$> rs, c) ->
  let '(r, b') := start_aps cpuid hhdm array first ls b in
  r = Ok tt /\ cpus b' = c /\ extras b' = extras b ++ zip (filter (fun l => l <> first) ls) rs.
Proof.
  revert b rs. induction ls as [|l ls IH]; intros b rs Hr.
  - cbn in Hr. injection Hr as Hrs <-. destruct rs; [|done]. cbn. by rewrite app_nil_r.
  - cbn [start_aps]. rewrite filter_cons in *. destruct (Z.eqb_spec l first) as [->|Hne].
    + rewrite decide_False in * by (intros Hn; by destruct Hn). by apply IH.
    + rewrite decide_True in * by done. cbn [register_all] in Hr. destruct (register_ap _ _ _ l (cpus b)) as [r1 c1] eqn:E1. destruct (register_all _ c1) as [rs2 c2] eqn:E2.
      injection Hr as Hrs ->. destruct rs as [|i rs]; [done|]. rewrite fmap_cons in Hrs. injection Hrs as -> ->.
      specialize (IH (mkBoot c1 (ioapic b) (device b) (extras b ++ [(l, i)])) rs E2). destruct (start_aps _ _ _ _ ls _) as [r b']. cbn [extras] in IH. rewrite <- app_assoc in IH. exact IH.
Qed.

(** C32: The first processor and up to 255 others.  Every other processor that the boot loader
    reports is told a number of its own, 1, 2, ... in order.  Each structure names its
    processor's own controller, is on-line, is the one that GS will point to, and has a
    stack of its own, the top of a page that was free.  With at most 254 others the count is
    right and the iterator yields all.  With 255 the count, a byte, is 0, and the iterator
    yields none. *)
Theorem registration_correct {D} f l0 first ls (s : IoApic) (d : D) : fs_ok f -> let others := filter (fun l => l <> first) ls in (length others <= 255)%nat ->
  let '(r, b) := start_aps cpuid hhdm array first ls (mkBoot (init_bsp cpuid hhdm array l0 (Cpus_new f)).1.2 s d []) in
  r = Ok tt /\ extras b = zip others (seqZ 1 (Z.of_nat (length others))) /\ all_registered f l0 others (cpus b).
Proof.
  intros Hs others Hl. pose proof (register_all_correct f l0 others Hs Hl) as H1. destruct (register_all others _) as [rs c] eqn:E. destruct H1 as [-> H1].
  pose proof (start_aps_all first ls (mkBoot (init_bsp cpuid hhdm array l0 (Cpus_new f)).1.2 s d []) _ c E) as H2.
  destruct (start_aps _ _ _ _ _ _) as [r b]. destruct H2 as (-> & <- & ->). done.
Qed.
End Registration.

(** ** The features, and preemption *)

(** Each feature is the bit of the processor's answer that the manual gives - but the last one:
    it is taken from the register that the pattern binds first, the number of sub-leaves,
    and not from the one that holds the features. *)
Lemma detect_correct cpuid eax1 ebx1 ecx1 edx1 eax7 ebx7 ecx7 edx7 : cpuid 1 0 = (eax1, ebx1, ecx1, edx1) -> cpuid 7 0 = (eax7, ebx7, ecx7, edx7) ->
  CpuFeatures_detect cpuid = mkFeatures (Z.testbit edx1 9) (Z.testbit ecx1 21) (Z.testbit edx1 4) (Z.testbit ecx1 24) (Z.testbit edx1 5) (Z.testbit edx1 25) (Z.testbit edx1 26)
    (Z.testbit ecx1 0) (Z.testbit ecx1 9) (Z.testbit ecx1 19) (Z.testbit ecx1 20) (Z.testbit ecx1 28) (Z.testbit eax7 5).
Proof.
  intros H1 H7. unfold CpuFeatures_detect. rewrite H1, H7. assert (forall r i, 0 <= i -> negb (Z.land r (Z.shiftl 1 i) =? 0) = Z.testbit r i) as Hb by (intros r i Hi; change (Z.shiftl 1 i) with (mask i); by rewrite land_mask_zero, negb_involutive).
  by rewrite !Hb by done.
Qed.

(** A processor with one feature in leaf 7, and a machine that claims it by chance. *)
Lemma avx2_misread :
  avx2 (CpuFeatures_detect (fun leaf _ => if leaf =? 7 then (0, Z.shiftl 1 5, 0, 0) else (0, 0, 0, 0))) = false /\
  avx2 (CpuFeatures_detect (fun leaf _ => if leaf =? 7 then (Z.shiftl 1 5, 0, 0, 0) else (0, 0, 0, 0))) = true.
Proof. split; reflexivity. Qed.

(** The depth of nested calls; enabling more often than disabling has no effect. *)
Fixpoint depth (n : nat) (ops : list bool) : nat :=
  match ops with [] => n | true :: ops => depth (S n) ops | false :: ops => depth (pred n) ops end.

Definition preempt (off : bool) (d : PerCpuData) : PerCpuData := if off then preempt_disable d else preempt_enable d.

Lemma preempt_nests ops n d : preempt_count d = Z.of_nat n -> Z.of_nat (n + length ops) < 2 ^ 32 ->
  let d' := foldl (fun d off => preempt off d) d ops in
  preempt_count d' = Z.of_nat (depth n ops) /\ preempt_disabled d' = (0 <? depth n ops)%nat /\ info d' = info d.
Proof.
  revert n d. induction ops as [|off ops IH]; intros n d Hn Hl; cbn [foldl depth length] in *.
  - split; [done|]. split; [unfold preempt_disabled; rewrite Hn|done]. destruct (Nat.ltb_spec 0 n), (Z.ltb_spec 0 (Z.of_nat n)); lia.
  - destruct off.
    + apply (IH (S n) (preempt_disable d)); [|lia]. cbn [preempt_disable preempt_count]. rewrite Hn, wrap_small by (unfold in_width; lia). lia.
    + assert (info (preempt_enable d) = info d) as Ei by (unfold preempt_enable; by destruct (0 <? preempt_count d)). cbn [preempt]. rewrite <- Ei. apply (IH (pred n) (preempt_enable d)); [|lia].
      unfold preempt_enable. rewrite Hn. destruct (Z.ltb_spec 0 (Z.of_nat n)); [|rewrite Hn; lia]. cbn [preempt_count]. rewrite wrap_small by (unfold in_width; lia). lia.
Qed.

(** ** Interrupts at the start of the kernel *)

Section BootInterrupts.
Context {F D : Type} `{FrameSource F} `{Mmio D} (cpuid : Z -> Z -> Z * Z * Z * Z) (hhdm array : Z).

(** Registering processors touches neither controller nor device. *)
Lemma start_aps_device first ls (b : Boot F D) : ioapic (start_aps cpuid hhdm array first ls b).2 = ioapic b /\ device (start_aps cpuid hhdm array first ls b).2 = device b.
Proof.
  revert b. induction ls as [|l ls IH]; intros b; [done|]. cbn [start_aps]. destruct (l =? first); [apply IH|].
  destruct (register_ap _ _ _ l (cpus b)) as [[i|] c]; [|done]. apply (IH (mkBoot c (ioapic b) (device b) (extras b ++ [(l, i)]))).
Qed.

(** A number is a byte, so no registration is refused. *)
Lemma start_aps_ok first ls (b : Boot F D) : in_width 8 (NEXT_CPU_ID (cpus b)) -> is_ok (start_aps cpuid hhdm array first ls b).1 = true.
Proof.
  revert b. induction ls as [|l ls IH]; intros b Hb; [done|]. cbn [start_aps]. destruct (l =? first); [by apply IH|]. unfold register_ap.
  rewrite (proj2 (Z.leb_gt MAX_CPUS (NEXT_CPU_ID (cpus b)))) by apply Hb. apply IH. unfold fill_cpu. cbn [cpus NEXT_CPU_ID]. destruct (fs_alloc _). by apply wrap_in_width.
Qed.

(** C39: The start-up in three cases.  With several processors, and with a boot loader that
    does not report them, exactly the lines of the keyboard and the mouse are open.  With a
    single processor [init_smp] succeeds before it reaches the controller, so the fallback
    is not taken either: nothing is set up, and the routes are written to the addresses 0
    and 16. *)
Theorem boot_interrupts_correct mp m (b : Boot F D) `{!IoApicLaws D (ioapic_addr m +[64] hhdm)} :
  ioapic b = IoApic_new -> in_width 8 (NEXT_CPU_ID (cpus b)) -> ioapic_addr m <> 0 -> let base := ioapic_addr m +[64] hhdm in 13 <= entries base (device b) <= 120 ->
  let b' := boot_interrupts cpuid hhdm array mp (Some m) b in
  match mp with
  | Some r => if (length (mp_cpus r) <=? 1)%nat then ioapic b' = IoApic_new /\ IOAPIC_BASE (ioapic b') = 0 /\ device b' = boot_routes IoApic_new (device b)
              else boot_lines base (device b) (ioapic b') (device b')
  | None => boot_lines base (device b) (ioapic b') (device b')
  end.
Proof.
  intros Hi Hn Ha base He. pose proof (boot_routes_spec hhdm (ioapic_addr m) (ioapic_gsi_base m) (device b) He) as Hb. fold base in Hb.
  unfold boot_interrupts, init_smp. destruct mp as [r|].
  - destruct (Nat.leb_spec (length (mp_cpus r)) 1) as [H1|H1]; [cbn; by rewrite Hi|]. unfold set_ioapic.
    destruct (init_ioapic hhdm (ioapic_addr m) (ioapic_gsi_base m) (device b)) as [s d]. set (b1 := mkBoot (cpus b) s d (extras b)).
    pose proof (start_aps_ok (bsp_lapic_id r) (mp_cpus r) b1 Hn) as Hok. destruct (start_aps_device (bsp_lapic_id r) (mp_cpus r) b1) as [E1 E2].
    destruct (start_aps _ _ _ _ _ b1) as [res b2]. cbn [fst snd] in *. rewrite Hok, E1, E2. exact Hb.
  - cbn [is_ok]. rewrite (proj2 (Z.eqb_neq _ 0) Ha). unfold set_ioapic. destruct (init_ioapic hhdm (ioapic_addr m) (ioapic_gsi_base m) (device b)) as [s d]. exact Hb.
Qed.
End BootInterrupts.

(** ** Concrete machines *)

(** No features anywhere, sixteen pages of memory. *)
Definition plain_cpuid (leaf sub : Z) : Z * Z * Z * Z := (0, 0, 0, 0).
Definition sixteen_pages : FrameAllocator := init [mkEntry 0x200000 0x10000 true] new.

Lemma registration_correct_witness :
  online_cpus (cpus (start_aps plain_cpuid 0 0x100000 2 [4; 2; 7] (mkBoot (init_bsp plain_cpuid 0 0x100000 2 (Cpus_new sixteen_pages)).1.2 IoApic_new tt [])).2) = [0; 1; 2].
Proof.
  assert (fs_ok sixteen_pages) as Hs. { refine (proj1 (init_meets_spec [mkEntry 0x200000 0x10000 true] new Frame.new_wf _)). apply Forall_singleton. by vm_compute. }
  pose proof (registration_correct plain_cpuid 0 0x100000 sixteen_pages 2 2 [4; 2; 7] IoApic_new tt Hs ltac:(vm_compute; lia)) as H. cbv zeta in H.
  destruct (start_aps plain_cpuid 0 0x100000 2 [4; 2; 7] _) as [r b]. destruct H as (_ & _ & _ & _ & H). destruct (decide _) as [E|_]; [discriminate E|]. apply H.
Defined.

(** A machine with a controller of 24 open lines, and a firmware that reports it. *)
Definition demo_machine : Boot FrameAllocator Lines := mkBoot (Cpus_new sixteen_pages) IoApic_new (mkLines 0 (fun _ => 0)) [].
Definition demo_madt : MadtInfo := mkMadtInfo 0xFEE00000 [0; 1] 0xFEC00000 0.

Lemma boot_interrupts_correct_witness :
  route (0xFEC00000 +[64] 0) (device (boot_interrupts plain_cpuid 0 0x100000 (Some (mkMp 0 [0; 1])) (Some demo_madt) demo_machine)) 1 = mkRoute 33 false false false 0 /\
  IOAPIC_BASE (ioapic (boot_interrupts plain_cpuid 0 0x100000 (Some (mkMp 0 [0])) (Some demo_madt) demo_machine)) = 0.
Proof.
  split.
  - apply (boot_interrupts_correct plain_cpuid 0 0x100000 (Some (mkMp 0 [0; 1])) demo_madt demo_machine eq_refl ltac:(split; done) ltac:(discriminate) ltac:(split; discriminate)).
  - apply (boot_interrupts_correct plain_cpuid 0 0x100000 (Some (mkMp 0 [0])) demo_madt demo_machine eq_refl ltac:(split; done) ltac:(discriminate) ltac:(split; discriminate)).
Defined.
